(* ===== verification/_CoqProject ===== *)
-Q . S2P
Prelude.v
Uint256.v
WideArith.v
ChainParams.v
Block.v
BlockIndex.v
Difficulty.v
Transaction.v
Fees.v
Script.v
Interpreter.v
Htlc.v
BlockTxs.v
SigBatch.v
UtxoStore.v
UtxoBlock.v
TxValidation.v
Dfmp.v
Mik.v
IdentityDb.v
DfmpPow.v
Cooldown.v
Attestation.v
VdfValidation.v
BlockValidation.v
ChainState.v
Doubles.v
Mempool.v
BlockStorage.v
ReorgWal.v
TipUpdate.v
Activation.v
ActivationReturns.v
Rewind.v
OrphanManager.v
HeadersSync.v
Base58.v
BlockTracker.v
BlockEncodings.v
ForkManager.v
MempoolPersist.v
NetAddress.v
AddrMan.v
PeersFile.v
BanManager.v
TxRelay.v
RegistrationManager.v
