(* ===== verification/Prelude.v ===== *)
(** * Verification of the Dilithion consensus core

    Dilithion is a proof-of-work currency node in C++ whose sister chain DilV
    is secured by verifiable delay functions.  This library models the code
    that decides what the chain is: which headers, blocks and transactions are
    valid, what difficulty and identity rules apply, and how a block changes the
    set of unspent outputs, together with the parts that bring blocks and
    transactions to it.  Every file below names the sources it translates
    (paths under src/src/), keeps their function and field names, and proves
    what makes the component correct.

    ** Parts, files and sources

    - [Prelude] (this file): machine integers as [Z] with their wrap-around,
      [result] for functions that fill an error string, byte strings, shared
      list and bit lemmas, the notations for the code's guards.
    - [Uint256], [WideArith] (primitives/block.h, consensus/pow.cpp,
      consensus/chain_work.h): 256-bit values as 32 bytes, compact difficulty,
      [CheckProofOfWork], chain work, the 256x64-bit product and division.
    - [ChainParams] (core/chainparams): the parameter record, the networks'
      values, checkpoint queries.
    - [Block], [BlockIndex] (primitives/block, node/block_index): headers with
      their mutable hash cache; index entries in a store addressed by id.
    - [Difficulty] (consensus/pow.cpp): legacy retarget, ASERT, emergency
      adjustment, median time past, timestamp rules.
    - [Transaction], [Fees] (primitives/transaction, consensus/fees): wire
      format, ids, signing hash, structure check, fee policy.
    - [Script], [Interpreter], [Htlc] (script/): script numbers and templates,
      every opcode of [EvalScript] with its limits, hash time-locked contracts.
    - [BlockTxs] (consensus/validation.cpp): subsidy, merkle root, block bodies.
    - [SigBatch] (consensus/signature_batch_verifier): the worker pool as an
      interleaving of shared accesses.
    - [UtxoStore], [UtxoBlock] (node/utxo_set): the cached store over LevelDB,
      connecting and disconnecting blocks, undo data.  LevelDB is the class
      [LevelDB]; an in-memory map is an instance.
    - [TxValidation] (consensus/tx_validation): [CTransactionValidator] over the
      class [CoinsView], which the store and a plain map both provide; its batch
      path runs the verifier of [SigBatch] from the state it finds it in, under
      any schedule.
    - [Dfmp], [Mik], [IdentityDb], [DfmpPow] (dfmp/, consensus/pow.cpp): fair
      mining: heat trackers and multipliers, identity data in the coinbase, the
      identity tables, and [CheckProofOfWorkDFMP], which combines them.
    - [Cooldown], [Attestation], [VdfValidation] (vdf/, attestation/,
      consensus/vdf_validation): the rules of VDF blocks: miner cooldown, seed
      attestations, the proof check and the per-miner limits.
    - [BlockValidation] (consensus/validation.cpp, node/block_processing.cpp):
      [CheckBlock], [CheckCoinbase] and the coinbase admission step.
    - [ChainState] (consensus/chain): the block tree, the fork point, failure
      marks, the candidates and the search for the best chain.
    - [Doubles], [Mempool] (node/mempool): binary64 fee rates, and the pool with
      its indexes, limits, ancestor tracking, eviction, replacement, expiry and
      the guard that rolls a failed insertion back.
    - [BlockStorage] (node/blockchain_storage, primitives/block.cpp): block,
      index and best-hash records with their checksums over [LevelDB].
    - [ReorgWal] (consensus/reorg_wal): the log of a reorganisation over the
      class [WalDisk] of a file.
    - [TipUpdate], [Activation] (consensus/chain.cpp): the node as one record of
      all the stores above; [ConnectTip] and [DisconnectTip] with their rules,
      [ActivateBestChain] on both of its paths, [DisconnectToHeight].
      [ActivationReturns] proves that the default path returns, [Rewind] what
      [DisconnectToHeight] leaves.
    - [OrphanManager] (net/orphan_manager): blocks that wait for their parent,
      with the indexes by parent and by peer and the score-based eviction.
    - [HeadersSync] (net/headerssync, net/iheader_proof_checker.h): the two-phase
      header synchronisation with its commitments and redownload buffer.
    - [BlockTracker] (net/block_tracker.h, net/block_fetcher): which block is
      requested from which peer, with limits and timeouts.
    - [BlockEncodings] (net/blockencodings, crypto/siphash): compact blocks,
      their short ids, reconstruction and wire formats.
    - [ForkManager] (node/fork_candidate.h, node/fork_manager,
      node/block_processing.cpp): staging of a competing branch, its
      pre-validation and the switch through [ActivateBestChain].
    - [MempoolPersist] (node/mempool_persist, net/serialize.h): the pool's file.
    - [NetAddress], [AddrMan], [PeersFile] (net/netaddress, net/addrman): network
      addresses, the tables of known peers and their file.
    - [BanManager] (net/banman, net/port/peer_scorer, net/peers.cpp): scores of
      misbehaving peers, the ban list and its file.
    - [TxRelay] (net/tx_relay, net/net.cpp): announcing and requesting
      transactions.
    - [RegistrationManager] (node/registration_manager): the state machine and
      worker thread that register a miner.
    - [Base58] (util/base58): the text form of addresses and keys.

    ** How state and effects are modelled

    A class's fields are a record and a method takes and returns it, also when
    the method is [const] but fills a cache (the header hash, the coins cache,
    the miner counts).  Pointers between index entries are keys of a store, so
    aliasing is explicit and a dangling key is [None].  A function with an error
    string returns a [result] whose error names the return statement; undefined
    behaviour that a caller can reach is [None] of an [option]; the one
    exception is the undefined [fileno] of the reorganisation log, whose result
    the class [WalDisk] leaves open.  Threads are an inductive step relation.  The global chain parameters are an optional
    argument, as the code tests the pointer.  Hash functions, the signature
    scheme, RandomX, the VDF verifier and LevelDB are parameters; a theorem that
    needs something of them (a digest has 32 bytes, a write succeeds) says so,
    and its witness runs it with a concrete instance.

    ** What the theorems show

    The comment above each theorem states the conditions it needs; where the code
    breaks the property without them, it names the example that shows it.

    - Refinement: the UTXO store, its block operations (for blocks without
      repeated or chained spends, when writes succeed), the block store, the
      identity database, the heat tracker and the cooldown tracker implement
      maps, ledgers and chains, whatever their caches and evictions do; on a
      disk that does not fail the reorganisation log reports after a restart
      exactly what was going on; the block tracker implements the set of
      downloads under way when each hash is requested at one height.
    - Exactness and bounds: compact encoding, chain comparison, retarget, ASERT
      (modulo 2^256), multipliers and supply are the intended integers, within
      their widths.
    - Decision procedures: for proof of work, timestamps, structure, spending
      conditions, coinbase, attestations and VDF proofs, the accepted inputs are
      characterised exactly.
    - Commitments and round trips: transaction ids, signing hashes and merkle
      roots bind what they hash up to an explicit collision; transactions, block
      bodies, scripts, undo data, Base58Check texts, and the memory pool through
      its file, with the result of each failure of saving or loading.
    - Safety and composition: an accepted transaction whose outputs sum below
      2^63 conserves value; an accepted block connects and, within the same
      range, mints at most the subsidy; a rival tip that passes the preflight
      connects; the fair-mining rule never weakens proof of work; the batch
      verifier's verdict is the conjunction of its tasks in every interleaving,
      for a client that abandons no batch.
    - The active chain: [ConnectTip] names the rule that refused a block and
      changes nothing else; through extension, replacement, reorganisation and
      rollback to a branch the ledger accepts, the tip and the UTXO set describe
      the same chain.
    - Progress: the loops terminate, scripts run within their limits, the search
      for the best chain finds it, and the cooldown rule always leaves an
      eligible miner.
    - The pool: its indexes and totals agree after every sequence of operations,
      including insertions that run out of memory in the places where the guard
      undoes them, and the dry-run admission predicts the real one.
    - Bringing blocks in: synchronisation of RandomX headers accepts only chains
      with the required work and completes with an honest peer from an aligned
      start, a compact block is reconstructed to the block that was sent and its
      decoders' reads are characterised, a staged branch takes over only when
      every block passed the screening, and the orphan pool and the address
      manager keep their indexes, counters and limits.  Offences are banned
      exactly as long as stated, also across a restart; transactions are
      announced and requested once; and a registration that may be mined always
      carries a proof of work for its own key, in every interleaving.
    - Examples after the theorems exhibit inputs on which the code departs from
      its documentation.

    ** Fuel and bounds

    Loops over a container recurse on it.  The ancestor walks take fuel equal to
    the height difference and [EvalScript] the script length; both are proved
    enough.  The searches over the block tree and the pool take the number of
    entries, enough because each round visits a new one.  The paths to the
    fork point take the heights, and [ActivationReturns] proves that enough; the
    loop of the opt-in activation path takes the number of entries, and no
    theorem relies on it.  The merkle levels take the
    number of hashes, enough because each level halves it.  Registration mining takes a bound on the attempts, and its
    theorem is about the first nonce found within it.  Theorems about sums ask
    that they stay below 2^63 or 2^64 where the code adds without a check, and
    name the check where it has one.

    ** Not modelled

    Sockets, message handlers, the headers manager and the coordination of the
    initial download, RPC and REST servers, wallets, the
    miner's threads, the user interface, logging and socket I/O: glue
    around the rules, or effects outside the language.  Cryptographic
    primitives and LevelDB: external code, hence parameters.  Key generation and
    signing, attestation collection over HTTP, hardware fingerprints: they
    produce inputs that the modelled rules check.  The start-up sequence, the
    audit of undo data and the listing of chain tips are not covered yet. *)

(** ** Machine arithmetic and byte strings *)

From Stdlib Require Export ZArith Lia.
From stdpp Require Export base numbers list option gmap sorting.

#[global] Open Scope Z_scope.

(** ** Machine integers

    A [uint{8,16,32,64}_t] is a [Z] and every store into one reduces modulo
    its width; a signed store reduces into the symmetric range (two's
    complement, as every compiler the project builds with does). *)

Definition u8 (x : Z) : Z := x mod 2 ^ 8.
Definition u16 (x : Z) : Z := x mod 2 ^ 16.
Definition u32 (x : Z) : Z := x mod 2 ^ 32.
Definition u64 (x : Z) : Z := x mod 2 ^ 64.
Definition i32 (x : Z) : Z := (x + 2 ^ 31) mod 2 ^ 32 - 2 ^ 31.
Definition i64 (x : Z) : Z := (x + 2 ^ 63) mod 2 ^ 64 - 2 ^ 63.
Definition UINT64_MAX : Z := 2 ^ 64 - 1.

(** ** Error results

    A C++ function that returns [false] and fills an error string is a
    function into [result]: [Err] names the return statement that was taken. *)

Inductive result (E A : Type) : Type :=
| Ok (a : A)
| Err (e : E).
Arguments Ok {E A} a.
Arguments Err {E A} e.

#[export] Instance result_ret {E} : MRet (result E) := fun A a => Ok a.
#[export] Instance result_bind {E} : MBind (result E) :=
  fun A B f m => match m with Ok a => f a | Err e => Err e end.
#[export] Instance result_fmap {E} : FMap (result E) :=
  fun A B f m => match m with Ok a => Ok (f a) | Err e => Err e end.

Definition is_ok {E A} (r : result E A) : bool :=
  match r with Ok _ => true | Err _ => false end.

Declare Scope dil_scope.
#[global] Open Scope dil_scope.

(** [ensure b else e; k]: the guard [if (!b) { error = e; return false; } k]. *)
Notation "'ensure' b 'else' e ; k" := (if b then k else Err e)
  (at level 10, b at level 100, e at level 100, k at level 200,
   format "'[v' 'ensure'  b  'else'  e ; '/' k ']'") : dil_scope.

(** [reject b with e; k]: the guard [if (b) { error = e; return false; } k]. *)
Notation "'reject' b 'with' e ; k" := (if b then Err e else k)
  (at level 10, b at level 100, e at level 100, k at level 200,
   format "'[v' 'reject'  b  'with'  e ; '/' k ']'") : dil_scope.

(** ** Byte strings *)

Definition byte_ok (b : Z) : Prop := 0 <= b < 256.
Abbreviation bytes_ok := (Forall byte_ok).

(** [data[i]]: C++ leaves an out-of-range read undefined; every read in the
    model is proved or guarded to be in range, so the default is never used. *)
Definition byte_at (l : list Z) (i : nat) : Z := nth i l 0.

(** The value a little-endian byte string denotes, and its inverse. *)
Fixpoint le_val (l : list Z) : Z :=
  match l with
  | [] => 0
  | b :: l' => b + 256 * le_val l'
  end.

Fixpoint le_bytes (n : nat) (v : Z) : list Z :=
  match n with
  | O => []
  | S n' => v mod 256 :: le_bytes n' (v / 256)
  end.

(** [while (i < n)]-style reads of a sub-array. *)
Definition slice (l : list Z) (off len : nat) : list Z := take len (drop off l).

(** ** Tactics of the development *)

(** Case analysis on the boolean integer tests of the goal and the context. *)
Ltac zcase :=
  match goal with
  | |- context [if ?a <? ?b then _ else _] => destruct (Z.ltb_spec a b)
  | |- context [if ?a <=? ?b then _ else _] => destruct (Z.leb_spec a b)
  | |- context [if ?a >? ?b then _ else _] => rewrite (Z.gtb_ltb a b); destruct (Z.ltb_spec b a)
  | |- context [if ?a >=? ?b then _ else _] => rewrite (Z.geb_leb a b); destruct (Z.leb_spec b a)
  | |- context [if ?a =? ?b then _ else _] => destruct (Z.eqb_spec a b)
  | H : context [if ?a <? ?b then _ else _] |- _ => destruct (Z.ltb_spec a b)
  | H : context [if ?a <=? ?b then _ else _] |- _ => destruct (Z.leb_spec a b)
  | H : context [if ?a >? ?b then _ else _] |- _ => rewrite (Z.gtb_ltb a b) in H; destruct (Z.ltb_spec b a)
  | H : context [if ?a >=? ?b then _ else _] |- _ => rewrite (Z.geb_leb a b) in H; destruct (Z.leb_spec b a)
  | H : context [if ?a =? ?b then _ else _] |- _ => destruct (Z.eqb_spec a b)
  end.
Ltac zcases := repeat (zcase; try lia; try done).

(** Split the guards of a successful run: [H : (... guards ...) = Ok _]. *)
Ltac guards H :=
  repeat match type of H with
  | Err _ = Ok _ => discriminate H
  | (if ?b then Err _ else _) = Ok _ =>
      let E := fresh "G" in destruct b eqn:E; [discriminate H|]
  | (if ?b then _ else Err _) = Ok _ =>
      let E := fresh "G" in destruct b eqn:E; [|discriminate H]
  end.

(** Turn boolean integer tests of the context into propositions. *)
Ltac zprop :=
  repeat match goal with
  | H : negb _ = true |- _ => apply negb_true_iff in H
  | H : negb _ = false |- _ => apply negb_false_iff in H
  | H : (_ && _)%bool = true |- _ => apply andb_true_iff in H; destruct H
  | H : (_ || _)%bool = false |- _ => apply orb_false_iff in H; destruct H
  | H : (_ <? _) = true |- _ => apply Z.ltb_lt in H
  | H : (_ <? _) = false |- _ => apply Z.ltb_ge in H
  | H : (_ <=? _) = true |- _ => apply Z.leb_le in H
  | H : (_ <=? _) = false |- _ => apply Z.leb_gt in H
  | H : (_ >? _) = _ |- _ => rewrite Z.gtb_ltb in H
  | H : (_ >=? _) = _ |- _ => rewrite Z.geb_leb in H
  | H : (_ =? _) = true |- _ => apply Z.eqb_eq in H
  | H : (_ =? _) = false |- _ => apply Z.eqb_neq in H
  end.

Create HintDb dil.

(** ** Lemmas on machine integers *)

Lemma u8_range x : 0 <= u8 x < 2 ^ 8.
Proof. apply Z.mod_pos_bound; lia. Qed.
Lemma u32_range x : 0 <= u32 x < 2 ^ 32.
Proof. apply Z.mod_pos_bound; lia. Qed.
Lemma u64_range x : 0 <= u64 x < 2 ^ 64.
Proof. apply Z.mod_pos_bound; lia. Qed.
Lemma i32_range x : - 2 ^ 31 <= i32 x < 2 ^ 31.
Proof. unfold i32. pose proof (Z.mod_pos_bound (x + 2 ^ 31) (2 ^ 32) ltac:(lia)). lia. Qed.
Lemma i64_range x : - 2 ^ 63 <= i64 x < 2 ^ 63.
Proof. unfold i64. pose proof (Z.mod_pos_bound (x + 2 ^ 63) (2 ^ 64) ltac:(lia)). lia. Qed.
Lemma u8_small x : 0 <= x < 2 ^ 8 -> u8 x = x.
Proof. apply Z.mod_small. Qed.
Lemma u16_small x : 0 <= x < 2 ^ 16 -> u16 x = x.
Proof. apply Z.mod_small. Qed.
Lemma u32_small x : 0 <= x < 2 ^ 32 -> u32 x = x.
Proof. apply Z.mod_small. Qed.
Lemma u64_small x : 0 <= x < 2 ^ 64 -> u64 x = x.
Proof. apply Z.mod_small. Qed.
Lemma i32_small x : - 2 ^ 31 <= x < 2 ^ 31 -> i32 x = x.
Proof. intros. unfold i32. rewrite Z.mod_small; lia. Qed.
Lemma i64_small x : - 2 ^ 63 <= x < 2 ^ 63 -> i64 x = x.
Proof. intros. unfold i64. rewrite Z.mod_small; lia. Qed.
Lemma i32_u32 x : i32 (u32 x) = i32 x.
Proof. unfold i32, u32. rewrite Zplus_mod_idemp_l. done. Qed.
Lemma u32_i32 x : u32 (i32 x) = u32 x.
Proof.
  unfold i32, u32. rewrite Zminus_mod_idemp_l. f_equal. lia.
Qed.
#[export] Hint Resolve u8_range u32_range u64_range : dil.

(** ** Lemmas on bit operations *)

Lemma land_ones_mod x n : 0 <= n -> Z.land x (2 ^ n - 1) = x mod 2 ^ n.
Proof. intros. rewrite <- Z.land_ones by done. f_equal. rewrite Z.ones_equiv. lia. Qed.

Lemma pow_256 n : 0 <= n -> 256 ^ n = 2 ^ (8 * n).
Proof. intros. rewrite (Z.pow_mul_r 2) by lia. done. Qed.

(** A disjoint [or] is a sum. *)
Lemma land_disjoint a b n : 0 <= n -> 0 <= a < 2 ^ n -> Z.land a (b * 2 ^ n) = 0.
Proof.
  intros Hn Ha. apply Z.bits_inj'; intros i Hi.
  rewrite Z.land_spec, Z.bits_0, <- Z.shiftl_mul_pow2, Z.shiftl_spec by done.
  destruct (Z.ltb_spec i n).
  - rewrite (Z.testbit_neg_r b) by lia. apply andb_false_r.
  - rewrite <- (Z.mod_small a (2 ^ n)), Z.mod_pow2_bits_high by lia. done.
Qed.

Lemma lor_disjoint a b n : 0 <= n -> 0 <= a < 2 ^ n -> Z.lor a (b * 2 ^ n) = a + b * 2 ^ n.
Proof. intros Hn Ha. symmetry. apply Z.add_nocarry_lor. by apply land_disjoint. Qed.

Lemma lor_shiftl_disjoint a b n : 0 <= n -> 0 <= a < 2 ^ n -> Z.lor a (Z.shiftl b n) = a + b * 2 ^ n.
Proof. intros. rewrite Z.shiftl_mul_pow2 by done. by apply lor_disjoint. Qed.

Lemma lor_range a b n :
  0 <= n -> 0 <= a < 2 ^ n -> 0 <= b < 2 ^ n -> 0 <= Z.lor a b < 2 ^ n.
Proof.
  intros Hn Ha Hb. replace (Z.lor a b) with (Z.lor a b mod 2 ^ n).
  { apply Z.mod_pos_bound. lia. }
  rewrite <- (Z.mod_small a (2 ^ n)), <- (Z.mod_small b (2 ^ n)) by done.
  apply Z.bits_inj'. intros i Hi. rewrite Z.testbit_mod_pow2, !Z.lor_spec, !Z.testbit_mod_pow2 by lia.
  destruct (i <? n); done.
Qed.

(** [x & (1 << n)] tests bit [n]. *)
Lemma land_pow2_eqb a n : 0 <= n -> (Z.land a (2 ^ n) =? 0) = negb (Z.testbit a n).
Proof.
  intros Hn. destruct (Z.testbit a n) eqn:E; simpl.
  - apply Z.eqb_neq. intros H. apply (f_equal (fun z => Z.testbit z n)) in H.
    rewrite Z.land_spec, E, Z.pow2_bits_true, Z.bits_0 in H by done. done.
  - apply Z.eqb_eq. apply Z.bits_inj'; intros i Hi. rewrite Z.land_spec, Z.bits_0.
    destruct (decide (i = n)) as [->|Hne]; [by rewrite E|].
    rewrite Z.pow2_bits_false by done. apply andb_false_r.
Qed.

Lemma testbit_top a n : 0 <= n -> 0 <= a < 2 ^ (n + 1) -> Z.testbit a n = (2 ^ n <=? a).
Proof.
  intros Hn Ha. rewrite Z.pow_add_r in Ha by lia. rewrite Z.testbit_odd, Z.shiftr_div_pow2 by done.
  destruct (Z.leb_spec (2 ^ n) a).
  - replace (a / 2 ^ n) with 1; [done|]. apply (Z.div_unique a _ 1 (a - 2 ^ n)); lia.
  - rewrite Z.div_small by lia. done.
Qed.

(** ** Lemmas on byte strings *)

Lemma le_val_nonneg l : bytes_ok l -> 0 <= le_val l.
Proof. induction 1 as [|b l [] _ IH]; simpl; lia. Qed.

Lemma le_val_bound l : bytes_ok l -> 0 <= le_val l < 256 ^ Z.of_nat (length l).
Proof.
  induction 1 as [|b l [] _ IH]; cbn [length le_val]; [lia|].
  rewrite Nat2Z.inj_succ, Z.pow_succ_r by lia. lia.
Qed.

Lemma le_val_app l k : le_val (l ++ k) = le_val l + 256 ^ Z.of_nat (length l) * le_val k.
Proof.
  induction l as [|b l IH]; cbn [length le_val app].
  - change (256 ^ Z.of_nat 0) with 1. lia.
  - rewrite IH, Nat2Z.inj_succ, Z.pow_succ_r by lia. ring.
Qed.

Lemma le_val_replicate_0 n : le_val (replicate n 0) = 0.
Proof. induction n; cbn [replicate le_val]; lia. Qed.

Lemma length_le_bytes n v : length (le_bytes n v) = n.
Proof. revert v; induction n; intros; simpl; auto. Qed.

Lemma le_bytes_ok n v : bytes_ok (le_bytes n v).
Proof.
  revert v; induction n; intros; simpl; constructor; auto.
  unfold byte_ok. apply Z.mod_pos_bound; lia.
Qed.

Lemma le_val_le_bytes n v : le_val (le_bytes n v) = v mod 256 ^ Z.of_nat n.
Proof.
  revert v; induction n as [|n IH]; intros v; cbn [le_bytes le_val].
  - symmetry. apply Z.mod_1_r.
  - rewrite IH, Nat2Z.inj_succ, Z.pow_succ_r by lia.
    symmetry. apply Z.rem_mul_r; [lia|]. apply Z.pow_pos_nonneg; lia.
Qed.

Lemma le_bytes_le_val l : bytes_ok l -> le_bytes (length l) (le_val l) = l.
Proof.
  induction 1 as [|b l Hb _ IH]; simpl; [done|]. unfold byte_ok in Hb.
  rewrite (Z.mul_comm 256 (le_val l)), Z_mod_plus_full, Z.mod_small by lia.
  rewrite Z_div_plus_full, Z.div_small by lia. rewrite Z.add_0_l, IH. done.
Qed.

(** Equal-length byte strings with the same value are equal. *)
Lemma le_val_inj l k :
  bytes_ok l -> bytes_ok k -> length l = length k -> le_val l = le_val k -> l = k.
Proof.
  intros Hl Hk Hlen Hv. rewrite <- (le_bytes_le_val l), <- (le_bytes_le_val k) by done.
  by rewrite Hlen, Hv.
Qed.

Lemma le_val_0 l : bytes_ok l -> le_val l = 0 -> l = replicate (length l) 0.
Proof.
  intros Hl Hv. apply le_val_inj; [done| |by rewrite length_replicate|by rewrite le_val_replicate_0].
  apply Forall_replicate. unfold byte_ok; lia.
Qed.

Lemma byte_at_ok l i : bytes_ok l -> byte_ok (byte_at l i).
Proof.
  intros Hl. unfold byte_at. destruct (nth_in_or_default i l 0) as [Hin | ->].
  - rewrite Forall_forall in Hl. apply Hl. by apply list_elem_of_In.
  - unfold byte_ok; lia.
Qed.
#[export] Hint Resolve byte_at_ok le_bytes_ok : dil.

Lemma byte_at_lookup l i : (i < length l)%nat -> l !! i = Some (byte_at l i).
Proof.
  intros. destruct (lookup_lt_is_Some_2 l i ltac:(done)) as [b Hb].
  rewrite Hb. f_equal. unfold byte_at. symmetry. by apply nth_lookup_Some.
Qed.

Lemma take_S_byte_at l i :
  (i < length l)%nat -> take (S i) l = take i l ++ [byte_at l i].
Proof. intros. apply take_S_r. by apply byte_at_lookup. Qed.

Lemma drop_S_byte_at l i :
  (i < length l)%nat -> drop i l = byte_at l i :: drop (S i) l.
Proof. intros. apply drop_S. by apply byte_at_lookup. Qed.

(** A value splits at any byte position into its low and high parts. *)
Lemma le_val_take_drop l i :
  (i <= length l)%nat ->
  le_val l = le_val (take i l) + 256 ^ Z.of_nat i * le_val (drop i l).
Proof.
  intros. rewrite <- (take_drop i l) at 1. rewrite le_val_app, length_take_le by lia. done.
Qed.

Lemma le_val_take_S l i :
  (i < length l)%nat ->
  le_val (take (S i) l) = le_val (take i l) + 256 ^ Z.of_nat i * byte_at l i.
Proof.
  intros. rewrite take_S_byte_at, le_val_app, length_take_le by lia. simpl. lia.
Qed.

Lemma bytes_ok_take l i : bytes_ok l -> bytes_ok (take i l).
Proof. apply Forall_take. Qed.
Lemma bytes_ok_drop l i : bytes_ok l -> bytes_ok (drop i l).
Proof. apply Forall_drop. Qed.
#[export] Hint Resolve bytes_ok_take bytes_ok_drop : dil.

Lemma le_val_take_bound l i :
  bytes_ok l -> 0 <= le_val (take i l) < 256 ^ Z.of_nat i.
Proof.
  intros Hl. pose proof (le_val_bound (take i l) ltac:(auto with dil)) as Hb.
  rewrite length_take in Hb. split; [lia|].
  eapply Z.lt_le_trans; [apply Hb|]. apply Z.pow_le_mono_r; lia.
Qed.

(** Bytes of a value, by position. *)
Lemma byte_at_le_val l i :
  bytes_ok l -> (i < length l)%nat -> byte_at l i = le_val l / 256 ^ Z.of_nat i mod 256.
Proof.
  intros Hl Hi. rewrite (le_val_take_drop l i) by lia.
  rewrite (Z.mul_comm (256 ^ _)), Z_div_plus_full, Z.div_small, Z.add_0_l
    by (apply le_val_take_bound || apply Z.pow_nonzero || apply Z.le_ngt; auto; lia).
  rewrite (drop_S_byte_at l i) by done. cbn [le_val].
  rewrite (Z.mul_comm 256), Z_mod_plus_full, Z.mod_small; [done|].
  by apply byte_at_ok.
Qed.

Lemma bytes_ok_insert l i v : bytes_ok l -> byte_ok v -> bytes_ok (<[i := v]> l).
Proof. intros. by apply Forall_insert. Qed.
#[export] Hint Resolve bytes_ok_insert : dil.

(** Storing one byte changes the value at its position. *)
Lemma le_val_insert l i v :
  (i < length l)%nat ->
  le_val (<[i := v]> l) = le_val l + 256 ^ Z.of_nat i * (v - byte_at l i).
Proof.
  intros Hi. rewrite insert_take_drop by done.
  rewrite (le_val_take_drop l i), le_val_app, length_take_le by lia.
  rewrite (drop_S_byte_at l i) by done. cbn [le_val]. ring.
Qed.

Lemma byte_at_insert_ne l i j v : i <> j -> byte_at (<[i := v]> l) j = byte_at l j.
Proof. intros. unfold byte_at. rewrite !nth_lookup, list_lookup_insert_ne; done. Qed.

Lemma byte_at_insert_eq l i v : (i < length l)%nat -> byte_at (<[i := v]> l) i = v.
Proof. intros. unfold byte_at. rewrite nth_lookup, list_lookup_insert_eq; done. Qed.

Lemma byte_at_replicate_0 n i : byte_at (replicate n 0) i = 0.
Proof. unfold byte_at. rewrite nth_lookup. destruct (replicate n 0 !! i) eqn:E; [|done].
  by apply lookup_replicate in E as [-> _]. Qed.

(** Bits of a byte string: bit [8 i + r] of the value is bit [r] of byte [i]. *)
Lemma testbit_le_val l : bytes_ok l -> forall i r, 0 <= r < 8 ->
  Z.testbit (le_val l) (8 * Z.of_nat i + r) = Z.testbit (byte_at l i) r.
Proof.
  induction 1 as [|b l Hb Hl IH]; intros i r Hr; unfold byte_at.
  { rewrite Z.bits_0. destruct i; by rewrite Z.bits_0. }
  cbn [le_val]. replace (b + 256 * le_val l) with (Z.lor b (Z.shiftl (le_val l) 8)).
  2: { rewrite lor_shiftl_disjoint by (unfold byte_ok in Hb; lia). lia. }
  rewrite Z.lor_spec, Z.shiftl_spec by lia. destruct i as [|i]; cbn [nth].
  - rewrite (Z.testbit_neg_r _ (_ - 8)), orb_false_r by lia. f_equal; lia.
  - replace (8 * Z.of_nat (S i) + r - 8) with (8 * Z.of_nat i + r) by lia.
    rewrite IH by done. unfold byte_at. unfold byte_ok in Hb.
    rewrite <- (Z.mod_small b (2 ^ 8)), Z.mod_pow2_bits_high by lia. done.
Qed.

Lemma byte_at_overflow l i : (length l <= i)%nat -> byte_at l i = 0.
Proof. apply nth_overflow. Qed.

(** Two byte strings denote [x] and [y]: bitwise comparison by byte and offset. *)
Lemma bits_by_bytes x y :
  0 <= x -> 0 <= y ->
  (forall i r, 0 <= r < 8 -> Z.testbit x (8 * Z.of_nat i + r) = Z.testbit y (8 * Z.of_nat i + r)) ->
  x = y.
Proof.
  intros Hx Hy H. apply Z.bits_inj'; intros j Hj.
  replace j with (8 * Z.of_nat (Z.to_nat (j / 8)) + j mod 8).
  2: { rewrite Z2Nat.id by (apply Z.div_pos; lia). pose proof (Z.div_mod j 8). lia. }
  apply H. apply Z.mod_pos_bound; lia.
Qed.

(** Deciding [bytes_ok] on concrete byte strings. *)
Definition bytes_okb (l : list Z) : bool := forallb (fun b => (0 <=? b) && (b <? 256)) l.

Lemma bytes_okb_sound l : bytes_okb l = true -> bytes_ok l.
Proof.
  unfold bytes_okb. rewrite forallb_forall. intros H. apply Forall_forall. intros b Hb.
  apply list_elem_of_In in Hb. specialize (H b Hb). unfold byte_ok. lia.
Qed.
