(* ===== verification/Uint256.v ===== *)
(** * 256-bit values: hashes, targets, compact difficulty and chain work

    [uint256] of primitives/block.h (32 bytes, [data[0]] least significant for
    arithmetic), the comparisons and the compact ("nBits") codec of
    consensus/pow.cpp, and the chain-work helper of consensus/chain_work.h.
    The theorems relate every byte loop to the integer [le_val] denotes. *)

From S2P Require Import Prelude.

(** ** Data *)

(** [class uint256 { uint8_t data[32]; }] *)
Abbreviation uint256 := (list Z).

Definition u256_wf (h : uint256) : Prop := length h = 32%nat /\ bytes_ok h.

(** [uint256() { memset(data, 0, 32); }] *)
Definition zero256 : uint256 := replicate 32 0.

(** [uint256::IsNull] *)
Definition IsNull (h : uint256) : bool := forallb (fun b => b =? 0) h.

(** ** Comparison loops *)

(** [for (int i = n-1; i >= 0; i--)] of [HashLessThan]. *)
Fixpoint HashLessThan_loop (n : nat) (hash target : uint256) : bool :=
  match n with
  | O => false
  | S i =>
      if byte_at hash i <? byte_at target i then true
      else if byte_at hash i >? byte_at target i then false
      else HashLessThan_loop i hash target
  end.

Definition HashLessThan (hash target : uint256) : bool :=
  HashLessThan_loop 32 hash target.

Fixpoint ChainWorkGreaterThan_loop (n : nat) (work1 work2 : uint256) : bool :=
  match n with
  | O => false
  | S i =>
      if byte_at work1 i >? byte_at work2 i then true
      else if byte_at work1 i <? byte_at work2 i then false
      else ChainWorkGreaterThan_loop i work1 work2
  end.

Definition ChainWorkGreaterThan (work1 work2 : uint256) : bool :=
  ChainWorkGreaterThan_loop 32 work1 work2.

(** ** Compact difficulty *)

Definition MIN_DIFFICULTY_BITS : Z := 0x1d00ffff.
Definition MAX_DIFFICULTY_BITS : Z := 0x1f0fffff.

(** [CompactToBig] *)
Definition CompactToBig (nCompact : Z) : uint256 :=
  let result := zero256 in
  let nSize := Z.shiftr nCompact 24 in
  let nWord := Z.land nCompact 0x007fffff in
  if nWord =? 0 then result
  else if nSize =? 0 then result
  else if nSize >? 32 then result
  else if nSize <=? 3 then
    let nWord := Z.shiftr nWord (8 * (3 - nSize)) in
    <[2%nat := Z.land (Z.shiftr nWord 16) 0xff]>
      (<[1%nat := Z.land (Z.shiftr nWord 8) 0xff]>
        (<[0%nat := Z.land nWord 0xff]> result))
  else
    <[Z.to_nat (nSize - 1) := Z.land (Z.shiftr nWord 16) 0xff]>
      (<[Z.to_nat (nSize - 2) := Z.land (Z.shiftr nWord 8) 0xff]>
        (<[Z.to_nat (nSize - 3) := Z.land nWord 0xff]> result)).

(** [while (nSize > 0 && target.data[nSize - 1] == 0) nSize--;] *)
Fixpoint BigToCompact_size (target : uint256) (nSize : nat) : nat :=
  match nSize with
  | O => O
  | S n => if byte_at target n =? 0 then BigToCompact_size target n else S n
  end.

(** [BigToCompact] *)
Definition BigToCompact (target : uint256) : Z :=
  let n := BigToCompact_size target 32 in
  let nSize := Z.of_nat n in
  if nSize =? 0 then 0
  else
    let nCompact :=
      if nSize <=? 3 then
        u32 (Z.shiftl
          (Z.lor (Z.lor (byte_at target 0) (Z.shiftl (byte_at target 1) 8))
                 (Z.shiftl (byte_at target 2) 16))
          (8 * (3 - nSize)))
      else
        Z.lor (Z.lor (byte_at target (n - 3)) (Z.shiftl (byte_at target (n - 2)) 8))
              (Z.shiftl (byte_at target (n - 1)) 16) in
    u32 (Z.lor nCompact (Z.shiftl nSize 24)).

(** [FixCompactEncoding] *)
Definition FixCompactEncoding (nCompact : Z) : Z :=
  let nSize := Z.shiftr nCompact 24 in
  let nMantissa := Z.land nCompact 0x00ffffff in
  if Z.land nMantissa 0x00800000 =? 0 then
    u32 (Z.lor (u32 (Z.shiftl nSize 24)) nMantissa)
  else
    let nMantissa := Z.shiftr nMantissa 8 in
    let nSize := u32 (nSize + 1) in
    u32 (Z.lor (u32 (Z.shiftl nSize 24)) nMantissa).

(** The [isZero] scan of [CheckProofOfWork]: [break] at the first non-zero byte. *)
Fixpoint isZero_loop (n : nat) (target : uint256) (i : nat) : bool :=
  match n with
  | O => true
  | S n' => if negb (byte_at target i =? 0) then false else isZero_loop n' target (S i)
  end.

(** [CheckProofOfWork] *)
Definition CheckProofOfWork (hash : uint256) (nBits : Z) : bool :=
  let target := CompactToBig nBits in
  let isZero := isZero_loop 32 target 0 in
  if isZero then false else HashLessThan hash target.

(** ** Chain work *)

(** [for (int i = 0; i < 8 && (work_byte_pos + i) < 32; ++i)] *)
Fixpoint ComputeChainWork_loop (n : nat) (i pos : nat) (work_mantissa : Z) (proof : uint256)
  : uint256 :=
  match n with
  | O => proof
  | S n' =>
      if Nat.ltb (pos + i) 32 then
        ComputeChainWork_loop n' (S i) pos work_mantissa
          (<[(pos + i)%nat := Z.land (Z.shiftr work_mantissa (Z.of_nat i * 8)) 0xff]> proof)
      else proof
  end.

(** [ComputeChainWork] *)
Definition ComputeChainWork (nBits : Z) : uint256 :=
  let size := Z.shiftr nBits 24 in
  let mantissa := Z.land nBits 0x00ffffff in
  if mantissa =? 0 then replicate 32 0xff
  else
    let work_exponent := 256 - 8 * size in
    let work_byte_pos := Z.quot work_exponent 8 in
    let work_byte_pos := if work_byte_pos <? 0 then 0 else work_byte_pos in
    let work_byte_pos := if work_byte_pos >? 31 then 31 else work_byte_pos in
    let work_mantissa := UINT64_MAX / mantissa in
    ComputeChainWork_loop 8 0 (Z.to_nat work_byte_pos) work_mantissa zero256.

(** The carry loop of [AddChainWork] over the remaining bytes. *)
Fixpoint AddChainWork_loop (n : nat) (i : nat) (a b result : uint256) (carry : Z) : uint256 * Z :=
  match n with
  | O => (result, carry)
  | S n' =>
      let sum := u32 (byte_at a i + byte_at b i + carry) in
      AddChainWork_loop n' (S i) a b (<[i := Z.land sum 0xff]> result) (Z.shiftr sum 8)
  end.

(** [AddChainWork] *)
Definition AddChainWork (a b : uint256) : uint256 :=
  let '(result, carry) := AddChainWork_loop 32 0 a b zero256 0 in
  if negb (carry =? 0) then replicate 32 0xff else result.

Fixpoint ChainWorkGreaterOrEqual_loop (n : nat) (a b : uint256) : bool :=
  match n with
  | O => true
  | S i =>
      if byte_at a i >? byte_at b i then true
      else if byte_at a i <? byte_at b i then false
      else ChainWorkGreaterOrEqual_loop i a b
  end.

(** [ChainWorkGreaterOrEqual] *)
Definition ChainWorkGreaterOrEqual (a b : uint256) : bool :=
  ChainWorkGreaterOrEqual_loop 32 a b.

(** ** Well-formedness *)

Lemma zero256_wf : u256_wf zero256.
Proof. split; [done|]. apply Forall_replicate. unfold byte_ok; lia. Qed.
#[export] Hint Resolve zero256_wf : dil.

Lemma u256_wf_insert h i v : u256_wf h -> byte_ok v -> u256_wf (<[i := v]> h).
Proof. intros [] ?. split; [by rewrite length_insert|]. auto with dil. Qed.

Lemma land_ff_ok x : byte_ok (Z.land x 0xff).
Proof. unfold byte_ok. change 0xff with (2 ^ 8 - 1). rewrite land_ones_mod by lia.
  change 256 with (2 ^ 8). apply Z.mod_pos_bound; lia. Qed.
#[export] Hint Resolve u256_wf_insert land_ff_ok : dil.

Lemma le_val_u256 h : u256_wf h -> 0 <= le_val h < 2 ^ 256.
Proof. intros [Hl Hb]. pose proof (le_val_bound h Hb) as H. rewrite Hl in H. exact H. Qed.

Lemma CompactToBig_wf n : u256_wf (CompactToBig n).
Proof. unfold CompactToBig. repeat case_match; auto 10 with dil. Qed.
#[export] Hint Resolve CompactToBig_wf : dil.

(** ** Comparisons are integer comparisons *)

Lemma HashLessThan_loop_spec n h t :
  bytes_ok h -> bytes_ok t -> (n <= length h)%nat -> (n <= length t)%nat ->
  HashLessThan_loop n h t = (le_val (take n h) <? le_val (take n t)).
Proof.
  intros Hh Ht. induction n as [|n IH]; intros Hnh Hnt; [by rewrite !take_0|].
  cbn [HashLessThan_loop]. rewrite !le_val_take_S, IH by lia.
  pose proof (le_val_take_bound h n Hh). pose proof (le_val_take_bound t n Ht).
  zcases; symmetry; try (apply Z.ltb_lt; nia); try (apply Z.ltb_ge; nia).
  replace (byte_at h n) with (byte_at t n) by lia.
  destruct (Z.ltb_spec (le_val (take n h)) (le_val (take n t)));
    [apply Z.ltb_lt | apply Z.ltb_ge]; lia.
Qed.

Lemma u256_take h : u256_wf h -> take 32 h = h.
Proof. intros [H _]. apply take_ge. lia. Qed.

Lemma HashLessThan_val h t :
  u256_wf h -> u256_wf t -> HashLessThan h t = (le_val h <? le_val t).
Proof.
  intros Hh Ht. unfold HashLessThan. pose proof Hh as [Lh Bh]. pose proof Ht as [Lt Bt].
  rewrite HashLessThan_loop_spec, !u256_take by (done || lia). done.
Qed.

Lemma ChainWorkGreaterThan_loop_flip n a b :
  ChainWorkGreaterThan_loop n a b = HashLessThan_loop n b a.
Proof.
  induction n as [|n IH]; cbn [ChainWorkGreaterThan_loop HashLessThan_loop]; [done|].
  rewrite IH, !Z.gtb_ltb. done.
Qed.

Lemma ChainWorkGreaterOrEqual_loop_flip n a b :
  ChainWorkGreaterOrEqual_loop n a b = negb (HashLessThan_loop n a b).
Proof.
  induction n as [|n IH]; cbn [ChainWorkGreaterOrEqual_loop HashLessThan_loop]; [done|].
  rewrite IH, !Z.gtb_ltb. destruct (Z.ltb_spec (byte_at b n) (byte_at a n));
    destruct (Z.ltb_spec (byte_at a n) (byte_at b n)); done || lia.
Qed.

Lemma ChainWorkGreaterThan_val a b :
  u256_wf a -> u256_wf b -> ChainWorkGreaterThan a b = (le_val b <? le_val a).
Proof.
  intros. unfold ChainWorkGreaterThan. rewrite ChainWorkGreaterThan_loop_flip.
  by apply HashLessThan_val.
Qed.

Lemma ChainWorkGreaterOrEqual_val a b :
  u256_wf a -> u256_wf b -> ChainWorkGreaterOrEqual a b = (le_val b <=? le_val a).
Proof.
  intros Ha Hb. unfold ChainWorkGreaterOrEqual. rewrite ChainWorkGreaterOrEqual_loop_flip.
  change (HashLessThan_loop 32 a b) with (HashLessThan a b).
  rewrite HashLessThan_val by done.
  destruct (Z.ltb_spec (le_val a) (le_val b)); destruct (Z.leb_spec (le_val b) (le_val a)); done || lia.
Qed.

(** ** The compact codec, arithmetically *)

(** The value [CompactToBig] denotes. *)
Definition compact_value (nCompact : Z) : Z :=
  let size := nCompact / 2 ^ 24 in
  let word := nCompact mod 2 ^ 23 in
  if (size =? 0) || (size >? 32) then 0
  else if size <=? 3 then word / 256 ^ (3 - size) else word * 256 ^ (size - 3).

Lemma mantissa_bytes w :
  0 <= w < 2 ^ 24 ->
  Z.land w 0xff + 256 * Z.land (Z.shiftr w 8) 0xff + 65536 * Z.land (Z.shiftr w 16) 0xff = w.
Proof.
  intros. change 0xff with (2 ^ 8 - 1). rewrite !land_ones_mod, !Z.shiftr_div_pow2 by lia.
  change (2 ^ 16) with (2 ^ 8 * 2 ^ 8). rewrite <- Z.div_div by lia.
  rewrite (Z.mod_small (w / 2 ^ 8 / 2 ^ 8)) by (split; [|apply Z.div_lt_upper_bound;
    [|apply Z.div_lt_upper_bound]]; try lia; repeat apply Z.div_pos; lia).
  pose proof (Z.div_mod w (2 ^ 8) ltac:(lia)).
  pose proof (Z.div_mod (w / 2 ^ 8) (2 ^ 8) ltac:(lia)). lia.
Qed.

Lemma store3_val i a b c :
  (i + 2 < 32)%nat ->
  le_val (<[(i + 2)%nat := c]> (<[(i + 1)%nat := b]> (<[i := a]> zero256)))
  = 256 ^ Z.of_nat i * (a + 256 * b + 65536 * c).
Proof.
  intros Hi. rewrite !le_val_insert by (rewrite ?length_insert; cbn; lia).
  rewrite !byte_at_insert_ne by lia. unfold zero256.
  rewrite !byte_at_replicate_0, le_val_replicate_0, !Nat2Z.inj_add, !Z.pow_add_r by lia.
  change (256 ^ Z.of_nat 1) with 256. change (256 ^ Z.of_nat 2) with 65536. ring.
Qed.

Lemma CompactToBig_val n : 0 <= n < 2 ^ 32 -> le_val (CompactToBig n) = compact_value n.
Proof.
  intros Hn. unfold CompactToBig, compact_value.
  change 0x7fffff with (2 ^ 23 - 1). rewrite land_ones_mod, Z.shiftr_div_pow2 by lia.
  set (s := n / 2 ^ 24). set (w := n mod 2 ^ 23).
  assert (0 <= s < 256) by (split; [apply Z.div_pos|apply Z.div_lt_upper_bound]; lia).
  assert (0 <= w < 2 ^ 23) by (apply Z.mod_pos_bound; lia).
  destruct (Z.eqb_spec w 0) as [Hw|Hw].
  { unfold zero256. rewrite le_val_replicate_0, Hw. repeat case_match; rewrite ?Z.div_0_l; try done.
    apply Z.pow_nonzero; zprop; lia. }
  destruct (Z.eqb_spec s 0); [apply le_val_replicate_0|]. cbn [orb].
  rewrite !Z.gtb_ltb. destruct (Z.ltb_spec 32 s); [apply le_val_replicate_0|].
  destruct (Z.leb_spec s 3).
  - rewrite (store3_val 0) by lia. rewrite Z.shiftr_div_pow2 by lia.
    rewrite (pow_256 (3 - s)) by lia. rewrite mantissa_bytes;
      [apply Z.mul_1_l|].
    split; [apply Z.div_pos; lia|].
    apply Z.le_lt_trans with w; [|lia]. apply Z.div_le_upper_bound; nia.
  - replace (Z.to_nat (s - 1)) with (Z.to_nat (s - 3) + 2)%nat by lia.
    replace (Z.to_nat (s - 2)) with (Z.to_nat (s - 3) + 1)%nat by lia.
    rewrite store3_val, mantissa_bytes, Z2Nat.id by lia. lia.
Qed.

Lemma BigToCompact_size_spec t n :
  bytes_ok t -> (n <= length t)%nat ->
  let s := BigToCompact_size t n in
  (s <= n)%nat /\ le_val (take s t) = le_val (take n t) /\
  (s <> 0%nat -> 256 ^ Z.of_nat (s - 1) <= le_val (take s t)).
Proof.
  intros Hb. induction n as [|n IH]; intros Hn; cbn [BigToCompact_size].
  { split; [lia|]. split; [done|]. lia. }
  pose proof (le_val_take_bound t n Hb). pose proof (byte_at_ok t n Hb) as [].
  destruct (Z.eqb_spec (byte_at t n) 0) as [E|E].
  - destruct (IH ltac:(lia)) as (IH1 & IH2 & IH3). split; [lia|]. split; [|done].
    rewrite IH2, (le_val_take_S t n), E by lia. lia.
  - split; [lia|]. split; [done|]. intros _. rewrite le_val_take_S by lia.
    replace (S n - 1)%nat with n by lia. nia.
Qed.

(** The significant size of a target and its mantissa, arithmetically. *)
Definition compact_mantissa (v : Z) (s : Z) : Z :=
  if s <=? 3 then v * 256 ^ (3 - s) else v / 256 ^ (s - 3).

Lemma lor3_bytes a b c :
  byte_ok a -> byte_ok b -> byte_ok c ->
  Z.lor (Z.lor a (Z.shiftl b 8)) (Z.shiftl c 16) = a + 256 * b + 65536 * c.
Proof.
  unfold byte_ok; intros. rewrite !lor_shiftl_disjoint; lia || (rewrite ?lor_shiftl_disjoint; lia).
Qed.

Lemma top3_div t i :
  bytes_ok t -> (i + 3 <= length t)%nat ->
  le_val (take (i + 3) t) / 256 ^ Z.of_nat i =
  byte_at t i + 256 * byte_at t (i + 1) + 65536 * byte_at t (i + 2).
Proof.
  intros Hb Hi. replace (i + 3)%nat with (S (S (S i))) by lia.
  rewrite !le_val_take_S by lia. rewrite !Nat2Z.inj_succ, !Z.pow_succ_r by lia.
  replace (S i) with (i + 1)%nat by lia. replace (S (i + 1)) with (i + 2)%nat by lia.
  pose proof (le_val_take_bound t i Hb).
  replace (_ + _ + _ + _) with (le_val (take i t) + (byte_at t i + 256 * byte_at t (i + 1) +
    65536 * byte_at t (i + 2)) * 256 ^ Z.of_nat i) by ring.
  rewrite Z_div_plus_full, Z.div_small by lia. lia.
Qed.

Lemma BigToCompact_val t :
  u256_wf t -> 0 < le_val t ->
  exists s, 1 <= s <= 32 /\ 256 ^ (s - 1) <= le_val t < 256 ^ s /\
    BigToCompact t = compact_mantissa (le_val t) s + s * 2 ^ 24 /\
    0 <= compact_mantissa (le_val t) s < 2 ^ 24.
Proof.
  intros [Hl Hb] Hpos. unfold BigToCompact.
  destruct (BigToCompact_size_spec t 32 Hb ltac:(lia)) as (H1 & H2 & H3).
  rewrite (take_ge t 32) in H2 by lia. set (s := BigToCompact_size t 32) in *.
  pose proof (le_val_take_bound t s Hb) as H4. rewrite H2 in H3, H4.
  destruct (decide (s = 0%nat)) as [E|E].
  { rewrite E in *. simpl in H2, H4. lia. }
  specialize (H3 E). exists (Z.of_nat s). split; [lia|].
  replace (Z.of_nat s - 1) with (Z.of_nat (s - 1)) by lia. split; [lia|].
  destruct (Z.eqb_spec (Z.of_nat s) 0); [lia|]. unfold compact_mantissa.
  destruct (Z.leb_spec (Z.of_nat s) 3) as [Hs|Hs].
  - rewrite lor3_bytes by auto with dil. pose proof (top3_div t 0 Hb ltac:(lia)) as Ht.
    change (0 + 3)%nat with 3%nat in Ht. change (256 ^ Z.of_nat 0) with 1 in Ht.
    rewrite Z.div_1_r in Ht. simpl (0 + _)%nat in Ht. rewrite <- Ht.
    replace (le_val (take 3 t)) with (le_val t).
    2: { rewrite <- H2 at 1. assert (C : s = 1%nat \/ s = 2%nat \/ s = 3%nat) by lia.
         pose proof (le_val_take_drop t 3 ltac:(lia)) as D.
         pose proof (le_val_nonneg (drop 3 t) ltac:(auto with dil)).
         pose proof (le_val_nonneg (take 3 t) ltac:(auto with dil)).
         assert (le_val t < 256 ^ 3).
         { eapply Z.lt_le_trans; [apply H4|]. apply Z.pow_le_mono_r; lia. }
         change (256 ^ Z.of_nat 3) with (256 ^ 3) in D. rewrite H2. nia. }
    assert (Hm : le_val t * 256 ^ (3 - Z.of_nat s) < 2 ^ 24).
    { change (2 ^ 24) with (256 ^ 3). replace 3 with (Z.of_nat s + (3 - Z.of_nat s)) at 2 by lia.
      rewrite Z.pow_add_r by lia. apply Z.mul_lt_mono_pos_r; [|lia]. apply Z.pow_pos_nonneg; lia. }
    pose proof (Z.pow_pos_nonneg 256 (3 - Z.of_nat s) ltac:(lia) ltac:(lia)).
    rewrite Z.shiftl_mul_pow2 by lia.
    rewrite <- pow_256 by lia.
    rewrite (u32_small (_ * _)) by nia. rewrite lor_shiftl_disjoint by nia.
    split; [apply u32_small|]; nia.
  - rewrite lor3_bytes by auto with dil. pose proof (top3_div t (s - 3) Hb ltac:(lia)) as Ht.
    replace (s - 3 + 3)%nat with s in Ht by lia. replace (s - 3 + 1)%nat with (s - 2)%nat in Ht by lia.
    replace (s - 3 + 2)%nat with (s - 1)%nat in Ht by lia. rewrite H2 in Ht. rewrite <- Ht.
    replace (Z.of_nat s - 3) with (Z.of_nat (s - 3)) by lia.
    set (q := le_val t / 256 ^ Z.of_nat (s - 3)) in *.
    pose proof (byte_at_ok t (s - 3) Hb) as []. pose proof (byte_at_ok t (s - 2) Hb) as [].
    pose proof (byte_at_ok t (s - 1) Hb) as []. rewrite lor_shiftl_disjoint by lia.
    split; [apply u32_small|]; lia.
Qed.

Lemma FixCompactEncoding_val n :
  0 <= n < 2 ^ 32 ->
  FixCompactEncoding n =
    (if n mod 2 ^ 24 <? 2 ^ 23 then n
     else ((n / 2 ^ 24 + 1) mod 256) * 2 ^ 24 + n mod 2 ^ 24 / 256).
Proof.
  intros Hn. unfold FixCompactEncoding. change 0xffffff with (2 ^ 24 - 1).
  change 0x800000 with (2 ^ 23). rewrite land_ones_mod, !Z.shiftr_div_pow2 by lia.
  set (s := n / 2 ^ 24). set (m := n mod 2 ^ 24).
  assert (0 <= s < 256) by (split; [apply Z.div_pos|apply Z.div_lt_upper_bound]; lia).
  assert (0 <= m < 2 ^ 24) by (apply Z.mod_pos_bound; lia).
  assert (n = s * 2 ^ 24 + m) by (unfold s, m; pose proof (Z.div_mod n (2 ^ 24)); lia).
  rewrite land_pow2_eqb, testbit_top by lia.
  replace (2 ^ 23 <=? m) with (negb (m <? 2 ^ 23)) by (symmetry; apply Z.leb_antisym).
  destruct (Z.ltb_spec m (2 ^ 23)); cbn [negb].
  - rewrite Z.lor_comm, Z.shiftl_mul_pow2, (u32_small (s * 2 ^ 24)), lor_disjoint by lia.
    rewrite u32_small; lia.
  - assert (0 <= m / 2 ^ 8 < 2 ^ 24) by (split; [apply Z.div_pos|apply Z.div_lt_upper_bound]; lia).
    rewrite (u32_small (s + 1)), Z.shiftl_mul_pow2 by lia. unfold u32 at 2.
    change (2 ^ 32) with (256 * 2 ^ 24) at 1. rewrite Z.mul_mod_distr_r by lia.
    pose proof (Z.mod_pos_bound (s + 1) 256 ltac:(lia)).
    rewrite Z.lor_comm, lor_disjoint by lia. rewrite u32_small by lia.
    change (2 ^ 8) with 256. lia.
Qed.

(** Compact values in normal form: the encodings [GetCompact] produces. *)
Definition canonical_compact (n : Z) : Prop :=
  3 <= n / 2 ^ 24 <= 32 /\ 2 ^ 15 <= n mod 2 ^ 24 < 2 ^ 23.

Lemma canonical_range n : canonical_compact n -> 0 <= n < 2 ^ 32.
Proof.
  intros [H1 H2]. pose proof (Z.div_mod n (2 ^ 24) ltac:(lia)).
  pose proof (Z.mod_pos_bound n (2 ^ 24) ltac:(lia)). lia.
Qed.

Lemma canonical_value n :
  canonical_compact n -> compact_value n = n mod 2 ^ 24 * 256 ^ (n / 2 ^ 24 - 3).
Proof.
  intros [H1 H2]. unfold compact_value.
  replace (n mod 2 ^ 23) with (n mod 2 ^ 24).
  2: { rewrite <- (Z.mod_small (n mod 2 ^ 24) (2 ^ 23)) by lia.
       change (2 ^ 24) with (2 ^ 23 * 2). rewrite Z.rem_mul_r by lia.
       rewrite (Z.mul_comm (2 ^ 23)), Z_mod_plus_full, Z.mod_mod by lia. done. }
  set (s := n / 2 ^ 24) in *. destruct (Z.eqb_spec s 0); [lia|]. cbn [orb].
  rewrite Z.gtb_ltb. destruct (Z.ltb_spec 32 s); [lia|].
  destruct (Z.leb_spec s 3); [|done]. replace s with 3 by lia. simpl (3 - 3).
  change (256 ^ 0) with 1. rewrite Z.div_1_r. lia.
Qed.

(** The size of a positive value is unique. *)
Lemma size_unique v s s' :
  1 <= s -> 1 <= s' -> 256 ^ (s - 1) <= v < 256 ^ s -> 256 ^ (s' - 1) <= v < 256 ^ s' -> s = s'.
Proof.
  intros Hs Hs' H H'. destruct (Z.lt_trichotomy s s') as [L|[E|L]]; [|done|].
  - pose proof (Z.pow_le_mono_r 256 s (s' - 1) ltac:(lia) ltac:(lia)). lia.
  - pose proof (Z.pow_le_mono_r 256 s' (s - 1) ltac:(lia) ltac:(lia)). lia.
Qed.

Lemma compact_split m s : 0 <= m < 2 ^ 24 -> (m + s * 2 ^ 24) / 2 ^ 24 = s /\ (m + s * 2 ^ 24) mod 2 ^ 24 = m.
Proof. intros. rewrite Z_div_plus_full, Z_mod_plus_full, Z.div_small, Z.mod_small by lia. lia. Qed.

(** Truncating division, as the value a mantissa keeps. *)
Lemma trunc_bounds v p : 0 < p -> v / p * p <= v /\ v - v / p * p < p.
Proof.
  intros. pose proof (Z.div_mod v p ltac:(lia)). pose proof (Z.mod_pos_bound v p ltac:(lia)). lia.
Qed.

Lemma pow_shift a k : 0 <= a -> 0 <= k -> 256 ^ (a + k) = 256 ^ k * 256 ^ a.
Proof. intros. rewrite Z.pow_add_r by done. ring. Qed.

Lemma compact_value_split m s :
  1 <= s <= 32 -> 0 <= m < 2 ^ 23 ->
  compact_value (m + s * 2 ^ 24) = if s <=? 3 then m / 256 ^ (3 - s) else m * 256 ^ (s - 3).
Proof.
  intros Hs Hm. unfold compact_value. destruct (compact_split m s ltac:(lia)) as [-> _].
  replace ((m + s * 2 ^ 24) mod 2 ^ 23) with m.
  2: { replace (s * 2 ^ 24) with (s * 2 * 2 ^ 23) by lia. rewrite Z_mod_plus_full, Z.mod_small; lia. }
  destruct (Z.eqb_spec s 0); [lia|]. rewrite Z.gtb_ltb. destruct (Z.ltb_spec 32 s); [lia|]. done.
Qed.

Lemma canonical_mantissa_size n :
  canonical_compact n ->
  let v := compact_value n in let s := n / 2 ^ 24 in let m := n mod 2 ^ 24 in
  (2 ^ 16 <= m /\ 256 ^ (s - 1) <= v < 256 ^ s /\ compact_mantissa v s = m) \/
  (m < 2 ^ 16 /\ 256 ^ (s - 1 - 1) <= v < 256 ^ (s - 1) /\ compact_mantissa v (s - 1) = m * 256).
Proof.
  intros Hc v s m. destruct Hc as [Hs Hm]. fold s m in Hs, Hm.
  assert (Hv : v = m * 256 ^ (s - 3)) by (apply canonical_value; done).
  pose proof (Z.pow_pos_nonneg 256 (s - 3) ltac:(lia) ltac:(lia)) as Hp.
  assert (E1 : 256 ^ (s - 1) = 2 ^ 16 * 256 ^ (s - 3)).
  { replace (s - 1) with (s - 3 + 2) by lia. rewrite pow_shift by lia. done. }
  assert (E2 : 256 ^ s = 2 ^ 24 * 256 ^ (s - 3)).
  { replace s with (s - 3 + 3) at 1 by lia. rewrite pow_shift by lia. done. }
  unfold compact_mantissa. destruct (Z.le_gt_cases (2 ^ 16) m) as [C|C]; [left|right]; (split; [done|]).
  - rewrite E1, E2. split; [nia|]. destruct (Z.leb_spec s 3).
    + replace s with 3 in * by lia. simpl (3 - 3) in *. lia.
    + rewrite Hv. apply Z.div_mul. lia.
  - assert (E3 : 256 ^ (s - 1 - 1) = 2 ^ 8 * 256 ^ (s - 3)).
    { replace (s - 1 - 1) with (s - 3 + 1) by lia. rewrite pow_shift by lia. done. }
    rewrite E1, E3. split; [nia|]. destruct (Z.leb_spec (s - 1) 3).
    + assert (D : s = 3 \/ s = 4) by lia. rewrite Hv. destruct D as [-> | ->]; simpl; lia.
    + rewrite Hv. replace (s - 3) with (s - 1 - 3 + 1) by lia. rewrite pow_shift by lia.
      change (256 ^ 1) with 256.
      rewrite Z.mul_assoc. apply Z.div_mul. apply Z.pow_nonzero; lia.
Qed.

(** What [BigToCompact] makes of a canonical target: the same encoding, or,
    for a mantissa with a zero top byte, the sign-bit form of a size less. *)
Lemma BigToCompact_canonical n :
  canonical_compact n ->
  let s := n / 2 ^ 24 in let m := n mod 2 ^ 24 in
  (2 ^ 16 <= m /\ BigToCompact (CompactToBig n) = n) \/
  (m < 2 ^ 16 /\ BigToCompact (CompactToBig n) = m * 256 + (s - 1) * 2 ^ 24).
Proof.
  intros Hc s m. pose proof (canonical_range n Hc) as Hr. pose proof Hc as [Hs Hm].
  pose proof (canonical_mantissa_size n Hc) as Hms.
  assert (Hpos : 0 < compact_value n).
  { rewrite canonical_value by done. apply Z.mul_pos_pos; [lia|]. apply Z.pow_pos_nonneg; lia. }
  destruct (BigToCompact_val (CompactToBig n)) as (s' & Hs' & Hv & HB & HM);
    [auto with dil|by rewrite CompactToBig_val|].
  rewrite CompactToBig_val in * by done.
  assert (Hn : n = m + s * 2 ^ 24) by (pose proof (Z.div_mod n (2 ^ 24)); lia).
  destruct Hms as [(C & Hv' & HM') | (C & Hv' & HM')].
  - left. assert (s' = s) by (eapply size_unique; eauto; lia). subst s'.
    split; [done|]. change (compact_mantissa (compact_value n) s = m) in HM'. by rewrite HB, HM'.
  - right. assert (s' = s - 1) by (eapply size_unique; eauto; lia). subst s'.
    split; [done|]. change (compact_mantissa (compact_value n) (s - 1) = m * 256) in HM'. by rewrite HB, HM'.
Qed.

Lemma compact_roundtrip_fixed n :
  canonical_compact n -> FixCompactEncoding (BigToCompact (CompactToBig n)) = n.
Proof.
  intros Hc. pose proof (canonical_range n Hc) as Hr. pose proof Hc as [Hs Hm].
  pose proof (Z.div_mod n (2 ^ 24) ltac:(lia)).
  destruct (BigToCompact_canonical n Hc) as [[C ->]|[C ->]].
  - rewrite FixCompactEncoding_val by done. zcases.
  - rewrite FixCompactEncoding_val by lia.
    destruct (compact_split (n mod 2 ^ 24 * 256) (n / 2 ^ 24 - 1) ltac:(lia)) as [-> ->].
    zcases. rewrite Z.div_mul, (Z.mod_small (_ + 1)) by lia. lia.
Qed.

Lemma compact_truncation t :
  u256_wf t -> 0 < le_val t < 2 ^ 255 ->
  let r := le_val (CompactToBig (FixCompactEncoding (BigToCompact t))) in
  r <= le_val t /\ (le_val t - r) * 2 ^ 15 < le_val t.
Proof.
  intros Hwf Hv. destruct (BigToCompact_val t Hwf ltac:(lia)) as (s & Hs & Hb & -> & HM).
  set (v := le_val t) in *. set (M := compact_mantissa v s) in *.
  rewrite FixCompactEncoding_val by lia. destruct (compact_split M s HM) as [-> ->].
  assert (P : forall k, 0 <= k -> 0 < 256 ^ k) by (intros; apply Z.pow_pos_nonneg; lia).
  destruct (Z.ltb_spec M (2 ^ 23)) as [C|C]; cbn zeta.
  - rewrite CompactToBig_val, compact_value_split by lia. unfold M, compact_mantissa in *.
    destruct (Z.leb_spec s 3).
    + rewrite Z.div_mul by (apply Z.pow_nonzero; lia). lia.
    + destruct (trunc_bounds v (256 ^ (s - 3)) ltac:(apply P; lia)).
      assert (256 ^ (s - 1) = 2 ^ 16 * 256 ^ (s - 3)).
      { replace (s - 1) with (s - 3 + 2) by lia. rewrite pow_shift by lia. done. } lia.
  - assert (s <= 31).
    { destruct (Z.eq_dec s 32) as [->|]; [|lia]. exfalso. unfold M, compact_mantissa in C.
      change (32 <=? 3) with false in C. cbn iota in C.
      pose proof (trunc_bounds v (256 ^ (32 - 3)) ltac:(lia)). lia. }
    rewrite (Z.mod_small (s + 1)) by lia. rewrite (Z.add_comm _ (M / 256)).
    assert (HM8 : 2 ^ 15 <= M / 256 < 2 ^ 16).
    { split; [apply Z.div_le_lower_bound|apply Z.div_lt_upper_bound]; lia. }
    rewrite CompactToBig_val, compact_value_split by lia.
    destruct (Z.leb_spec (s + 1) 3).
    + assert (D : s = 1 \/ s = 2) by lia. unfold M, compact_mantissa.
      destruct D as [-> | ->].
      * change (1 <=? 3) with true. cbn iota.
        replace (v * 256 ^ (3 - 1)) with (v * 256 * 256) by lia. rewrite Z.div_mul by lia.
        change (256 ^ (3 - (1 + 1))) with 256. rewrite Z.div_mul by lia. lia.
      * change (2 <=? 3) with true. cbn iota. change (256 ^ (3 - 2)) with 256.
        change (256 ^ (3 - (2 + 1))) with 1. rewrite Z.div_mul, Z.div_1_r by lia. lia.
    + assert (E : M / 256 = v / 256 ^ (s - 2)).
      { unfold M, compact_mantissa. destruct (Z.leb_spec s 3).
        - replace s with 3 by lia. simpl (3 - 3). rewrite Z.mul_1_r. done.
        - rewrite Z.div_div by (lia || apply P; lia). f_equal.
          replace (s - 2) with (s - 3 + 1) by lia. rewrite pow_shift by lia. ring. }
      rewrite E in *. replace (s + 1 - 3) with (s - 2) by lia.
      destruct (trunc_bounds v (256 ^ (s - 2)) ltac:(apply P; lia)).
      pose proof (P (s - 2) ltac:(lia)). nia.
Qed.

(** ** The zero scan *)

Lemma isZero_loop_spec n t i :
  bytes_ok t -> (i + n <= length t)%nat ->
  isZero_loop n t i = (le_val (take n (drop i t)) =? 0).
Proof.
  intros Hb. revert i. induction n as [|n IH]; intros i Hi; cbn [isZero_loop]; [done|].
  rewrite IH, (drop_S_byte_at t i) by lia. cbn [take le_val].
  pose proof (byte_at_ok t i Hb) as [].
  pose proof (le_val_nonneg (take n (drop (S i) t)) ltac:(auto with dil)).
  destruct (Z.eqb_spec (byte_at t i) 0); cbn [negb].
  - destruct (Z.eqb_spec (le_val (take n (drop (S i) t))) 0); symmetry;
      [apply Z.eqb_eq|apply Z.eqb_neq]; lia.
  - symmetry. apply Z.eqb_neq. lia.
Qed.

Lemma isZero_val t : u256_wf t -> isZero_loop 32 t 0 = (le_val t =? 0).
Proof.
  intros Hw. pose proof Hw as [Hl Hb]. rewrite isZero_loop_spec by (done || lia).
  rewrite drop_0, u256_take by done. done.
Qed.

Lemma IsNull_val h : bytes_ok h -> IsNull h = (le_val h =? 0).
Proof.
  intros Hb. unfold IsNull. induction Hb as [|b l Hok Hb IH]; [done|]. cbn [forallb le_val].
  rewrite IH. pose proof (le_val_nonneg l Hb). unfold byte_ok in Hok.
  destruct (Z.eqb_spec b 0); destruct (Z.eqb_spec (le_val l) 0); symmetry; cbn [andb];
    (apply Z.eqb_eq || apply Z.eqb_neq); lia.
Qed.

(** ** Chain work *)

Lemma land_ff_mod x : Z.land x 0xff = x mod 256.
Proof. change 0xff with (2 ^ 8 - 1). rewrite land_ones_mod by lia. done. Qed.

Lemma AddChainWork_loop_spec n : forall i a b r c,
  bytes_ok a -> bytes_ok b -> length a = 32%nat -> length b = 32%nat -> u256_wf r ->
  (i + n <= 32)%nat -> (forall j, (i <= j)%nat -> byte_at r j = 0) -> 0 <= c <= 1 ->
  let '(r', c') := AddChainWork_loop n i a b r c in
  u256_wf r' /\ 0 <= c' <= 1 /\
  le_val r' + 256 ^ Z.of_nat (i + n) * c' =
    le_val r + 256 ^ Z.of_nat i * (le_val (take n (drop i a)) + le_val (take n (drop i b)) + c).
Proof.
  induction n as [|n IH]; intros i a b r c Ha Hb La Lb Hr Hi Hz Hc; cbn [AddChainWork_loop].
  { rewrite !take_0, Nat.add_0_r. cbn [le_val]. split; [done|]. split; [done|]. lia. }
  pose proof (byte_at_ok a i Ha) as []. pose proof (byte_at_ok b i Hb) as [].
  set (sum := u32 (byte_at a i + byte_at b i + c)).
  assert (Hsum : sum = byte_at a i + byte_at b i + c) by (apply u32_small; lia).
  rewrite Z.shiftr_div_pow2, land_ff_mod by lia. change (2 ^ 8) with 256.
  pose proof (Z.div_mod sum 256 ltac:(lia)). pose proof (Z.mod_pos_bound sum 256 ltac:(lia)).
  assert (0 <= sum / 256 <= 1).
  { split; [apply Z.div_pos; lia|]. apply Z.lt_succ_r. apply Z.div_lt_upper_bound; lia. }
  specialize (IH (S i) a b (<[i := sum mod 256]> r) (sum / 256)).
  destruct (AddChainWork_loop n (S i) a b (<[i := sum mod 256]> r) (sum / 256)) as [r' c'].
  destruct IH as (IH1 & IH2 & IH3); auto with dil; try lia.
  { intros j Hj. rewrite byte_at_insert_ne by lia. apply Hz; lia. }
  split; [done|]. split; [done|]. replace (i + S n)%nat with (S i + n)%nat by lia.
  rewrite IH3, le_val_insert, (Hz i) by (done || destruct Hr; lia).
  rewrite (drop_S_byte_at a i), (drop_S_byte_at b i) by lia. cbn [take le_val].
  rewrite Nat2Z.inj_succ, Z.pow_succ_r by lia. nia.
Qed.

Lemma le_val_ff : le_val (replicate 32 0xff) = 2 ^ 256 - 1.
Proof. vm_compute. reflexivity. Qed.

Lemma ff_wf : u256_wf (replicate 32 0xff).
Proof. split; [done|]. apply Forall_replicate. unfold byte_ok; lia. Qed.

Lemma AddChainWork_correct a b :
  u256_wf a -> u256_wf b ->
  u256_wf (AddChainWork a b) /\
  le_val (AddChainWork a b) = Z.min (le_val a + le_val b) (2 ^ 256 - 1).
Proof.
  intros Ha Hb. pose proof Ha as [La Ba]. pose proof Hb as [Lb Bb]. unfold AddChainWork.
  pose proof (AddChainWork_loop_spec 32 0 a b zero256 0 Ba Bb La Lb zero256_wf ltac:(lia)
    (fun j _ => byte_at_replicate_0 32 j) ltac:(lia)) as H.
  destruct (AddChainWork_loop 32 0 a b zero256 0) as [r c]. destruct H as (Hr & Hc & H).
  rewrite !drop_0, !u256_take in H by done. unfold zero256 in H.
  rewrite le_val_replicate_0 in H. change (256 ^ Z.of_nat 0) with 1 in H.
  change (256 ^ Z.of_nat (0 + 32)) with (2 ^ 256) in H.
  pose proof (le_val_u256 r Hr). pose proof (le_val_u256 a Ha). pose proof (le_val_u256 b Hb).
  destruct (Z.eqb_spec c 0) as [->|]; cbn [negb].
  - split; [done|]. lia.
  - split; [apply ff_wf|]. rewrite le_val_ff. lia.
Qed.

Lemma ComputeChainWork_loop_val n : forall i pos wm proof,
  u256_wf proof -> (pos + i + n <= 32)%nat ->
  (forall j, (pos + i <= j)%nat -> byte_at proof j = 0) -> 0 <= wm ->
  u256_wf (ComputeChainWork_loop n i pos wm proof) /\
  le_val (ComputeChainWork_loop n i pos wm proof) =
    le_val proof + 256 ^ Z.of_nat (pos + i) * (wm / 256 ^ Z.of_nat i mod 256 ^ Z.of_nat n).
Proof.
  induction n as [|n IH]; intros i pos wm proof Hp Hi Hz Hwm; cbn [ComputeChainWork_loop].
  { change (256 ^ Z.of_nat 0) with 1. rewrite Z.mod_1_r. split; [done|lia]. }
  destruct (Nat.ltb_spec (pos + i) 32); [|lia].
  destruct (IH (S i) pos wm
    (<[(pos + i)%nat := Z.land (Z.shiftr wm (Z.of_nat i * 8)) 255]> proof)) as [W V];
    auto with dil; try lia.
  { intros j Hj. rewrite byte_at_insert_ne by lia. apply Hz; lia. }
  split; [done|]. rewrite V, le_val_insert, (Hz (pos + i)%nat) by (done || destruct Hp; lia).
  rewrite land_ff_mod, Z.shiftr_div_pow2 by lia.
  replace (2 ^ (Z.of_nat i * 8)) with (256 ^ Z.of_nat i) by (rewrite pow_256 by lia; f_equal; lia).
  replace (pos + S i)%nat with (S (pos + i)) by lia.
  rewrite !Nat2Z.inj_succ, !Z.pow_succ_r by lia.
  pose proof (Z.pow_pos_nonneg 256 (Z.of_nat i) ltac:(lia) ltac:(lia)).
  rewrite (Z.mul_comm 256 (256 ^ Z.of_nat i)), <- Z.div_div by lia.
  rewrite (Z.rem_mul_r _ 256 (256 ^ Z.of_nat n)) by (lia || apply Z.pow_pos_nonneg; lia). ring.
Qed.

(** For the sizes consensus uses, the work is [256^(32-size) * (2^64-1)/mantissa]. *)
Lemma ComputeChainWork_val n :
  0 <= n -> 8 <= n / 2 ^ 24 <= 32 -> 0 < n mod 2 ^ 24 ->
  u256_wf (ComputeChainWork n) /\
  le_val (ComputeChainWork n) = 256 ^ (32 - n / 2 ^ 24) * (UINT64_MAX / (n mod 2 ^ 24)).
Proof.
  intros Hn Hs Hm. unfold ComputeChainWork. change 0xffffff with (2 ^ 24 - 1).
  rewrite land_ones_mod, Z.shiftr_div_pow2 by lia.
  set (s := n / 2 ^ 24) in *. set (m := n mod 2 ^ 24) in *.
  destruct (Z.eqb_spec m 0); [lia|].
  replace (256 - 8 * s) with ((32 - s) * 8) by lia. rewrite Z.quot_mul by lia.
  destruct (Z.ltb_spec (32 - s) 0); [lia|]. rewrite Z.gtb_ltb.
  destruct (Z.ltb_spec 31 (32 - s)); [lia|].
  assert (Hq : 0 <= UINT64_MAX / m < 2 ^ 64).
  { unfold UINT64_MAX. split; [apply Z.div_pos; lia|]. apply Z.div_lt_upper_bound; nia. }
  destruct (ComputeChainWork_loop_val 8 0 (Z.to_nat (32 - s)) (UINT64_MAX / m) zero256) as [W V];
    auto with dil; try lia.
  { intros. apply byte_at_replicate_0. }
  split; [done|]. rewrite V. unfold zero256. rewrite le_val_replicate_0, Nat.add_0_r, Z2Nat.id by lia.
  change (256 ^ Z.of_nat 0) with 1. change (256 ^ Z.of_nat 8) with (2 ^ 64).
  rewrite Z.div_1_r, Z.mod_small by lia. lia.
Qed.

(** A smaller mantissa buys at least the quotient of a larger one. *)
Lemma quotient_antitone M m1 m2 k :
  0 < m1 -> 0 < m2 -> 1 <= k -> m1 * (m1 + 1) <= M -> m1 + 1 <= k * m2 ->
  M / m2 <= k * (M / m1).
Proof.
  intros H1 H2 Hk HM Hle.
  pose proof (Z.div_mod M m1 ltac:(lia)). pose proof (Z.mod_pos_bound M m1 ltac:(lia)).
  pose proof (Z.div_mod M m2 ltac:(lia)). pose proof (Z.mod_pos_bound M m2 ltac:(lia)).
  set (q1 := M / m1) in *. set (q2 := M / m2) in *.
  assert (m1 + 1 <= q1) by nia.
  (* M < (q1 + 1) m1 <= q1 (m1 + 1) <= q1 k m2 *)
  assert (M <= q1 * (m1 + 1)) by nia. nia.
Qed.

Lemma canonical_work_order n1 n2 :
  canonical_compact n1 -> canonical_compact n2 -> 8 <= n1 / 2 ^ 24 -> 8 <= n2 / 2 ^ 24 ->
  compact_value n1 <= compact_value n2 ->
  le_val (ComputeChainWork n2) <= le_val (ComputeChainWork n1).
Proof.
  intros C1 C2 B1 B2. rewrite !canonical_value by done. destruct C1 as [S1 M1], C2 as [S2 M2].
  pose proof (Z.div_mod n1 (2 ^ 24) ltac:(lia)). pose proof (Z.div_mod n2 (2 ^ 24) ltac:(lia)).
  destruct (ComputeChainWork_val n1) as [_ ->]; [lia..|].
  destruct (ComputeChainWork_val n2) as [_ ->]; [lia..|].
  set (s1 := n1 / 2 ^ 24) in *. set (s2 := n2 / 2 ^ 24) in *.
  set (m1 := n1 mod 2 ^ 24) in *. set (m2 := n2 mod 2 ^ 24) in *. intros Hle.
  destruct (Z.lt_trichotomy s1 s2) as [L|[E|L]].
  - replace (32 - s1) with (32 - s2 + (s2 - s1)) by lia. rewrite pow_shift by lia.
    set (k := 256 ^ (s2 - s1)). assert (256 <= k).
    { apply Z.le_trans with (256 ^ 1); [lia|]. apply Z.pow_le_mono_r; lia. }
    pose proof (Z.pow_pos_nonneg 256 (32 - s2) ltac:(lia) ltac:(lia)).
    pose proof (quotient_antitone UINT64_MAX m1 m2 k ltac:(lia) ltac:(lia) ltac:(lia)
      ltac:(unfold UINT64_MAX; nia) ltac:(nia)). nia.
  - rewrite E in *. pose proof (Z.pow_pos_nonneg 256 (s2 - 3) ltac:(lia) ltac:(lia)).
    apply Z.mul_le_mono_nonneg_l; [apply Z.pow_nonneg; lia|].
    apply Z.div_le_compat_l; unfold UINT64_MAX; nia.
  - exfalso. replace (s1 - 3) with (s2 - 3 + (s1 - s2)) in Hle by lia. rewrite pow_shift in Hle by lia.
    pose proof (Z.pow_pos_nonneg 256 (s2 - 3) ltac:(lia) ltac:(lia)).
    assert (256 <= 256 ^ (s1 - s2)).
    { apply Z.le_trans with (256 ^ 1); [lia|]. apply Z.pow_le_mono_r; lia. }
    assert (m1 * 256 ^ (s1 - s2) <= m2) by (apply Z.mul_le_mono_pos_r with (256 ^ (s2 - 3)); lia).
    nia.
Qed.

(** ** Properties *)

(** The three byte-by-byte comparison loops of consensus ([HashLessThan],
    [ChainWorkGreaterThan], [ChainWorkGreaterOrEqual]) decide the strict and
    weak orders of the 256-bit integers the arrays denote. *)
Theorem comparisons_are_integer_order (a b : uint256) (Ha : u256_wf a) (Hb : u256_wf b) :
  HashLessThan a b = (le_val a <? le_val b) /\
  ChainWorkGreaterThan a b = (le_val b <? le_val a) /\
  ChainWorkGreaterOrEqual a b = (le_val b <=? le_val a).
Proof.
  split; [by apply HashLessThan_val|]. split; [by apply ChainWorkGreaterThan_val|].
  by apply ChainWorkGreaterOrEqual_val.
Qed.

Lemma comparisons_are_integer_order_witness :
  u256_wf (le_bytes 32 (2 ^ 255)) /\
  HashLessThan (le_bytes 32 5) (le_bytes 32 (2 ^ 255)) = true.
Proof.
  split; [split; [done|auto with dil]|].
  rewrite (proj1 (comparisons_are_integer_order (le_bytes 32 5) (le_bytes 32 (2 ^ 255))
    (conj (length_le_bytes 32 5) (le_bytes_ok 32 5))
    (conj (length_le_bytes 32 (2 ^ 255)) (le_bytes_ok 32 (2 ^ 255))))).
  vm_compute. reflexivity.
Defined.

(** C1: [CheckProofOfWork] accepts a 256-bit hash for 32-bit compact bits exactly when the target the bits expand to
    is positive and strictly greater than the hash. No other condition is put on the bits: they need not lie between
    MIN_DIFFICULTY_BITS and MAX_DIFFICULTY_BITS, and the target is compared with no limit of the chain; every encoding
    the expansion rejects (zero mantissa, zero size, size over 32 bytes) has target zero and is refused for every
    hash. *)
Theorem CheckProofOfWork_iff (hash : uint256) (nBits : Z)
  (Hh : u256_wf hash) (Hn : 0 <= nBits < 2 ^ 32) :
  CheckProofOfWork hash nBits = true <->
  0 < compact_value nBits /\ le_val hash < compact_value nBits.
Proof.
  unfold CheckProofOfWork. rewrite isZero_val, HashLessThan_val, CompactToBig_val by auto with dil.
  pose proof (le_val_u256 hash Hh).
  pose proof (le_val_u256 (CompactToBig nBits) ltac:(auto with dil)) as Hc.
  rewrite CompactToBig_val in Hc by done.
  destruct (Z.eqb_spec (compact_value nBits) 0); [split; [done|lia]|].
  rewrite Z.ltb_lt. lia.
Qed.

Lemma CheckProofOfWork_iff_witness :
  0 < compact_value 0x1e01fffe /\ CheckProofOfWork (le_bytes 32 (2 ^ 200)) 0x1e01fffe = true.
Proof.
  split; [vm_compute; reflexivity|].
  apply (CheckProofOfWork_iff (le_bytes 32 (2 ^ 200)) 0x1e01fffe).
  - split; [apply length_le_bytes|apply le_bytes_ok].
  - lia.
  - split; vm_compute; reflexivity.
Defined.

(** Compact bits in normal form survive expansion to a 256-bit target and
    re-encoding: [FixCompactEncoding (BigToCompact (CompactToBig n)) = n]. *)
Theorem compact_roundtrip (n : Z) (Hc : canonical_compact n) :
  FixCompactEncoding (BigToCompact (CompactToBig n)) = n.
Proof. by apply compact_roundtrip_fixed. Qed.

Lemma compact_roundtrip_witness :
  canonical_compact 0x1d00ffff /\
  FixCompactEncoding (BigToCompact (CompactToBig 0x1d00ffff)) = 0x1d00ffff /\
  BigToCompact (CompactToBig 0x1d00ffff) = 0x1cffff00.
Proof.
  split; [vm_compute; intuition congruence|]. split; [|vm_compute; reflexivity].
  apply (compact_roundtrip 0x1d00ffff). vm_compute; intuition congruence.
Defined.

(** encoding a target below 2^255 and expanding it again rounds down, and
    loses less than one part in 2^15: the sign-bit repair of
    [FixCompactEncoding] is what keeps at least 16 significant mantissa bits. *)
Theorem compact_rounding (t : uint256) (Hw : u256_wf t) (Hv : 0 < le_val t < 2 ^ 255) :
  le_val (CompactToBig (FixCompactEncoding (BigToCompact t))) <= le_val t /\
  (le_val t - le_val (CompactToBig (FixCompactEncoding (BigToCompact t)))) * 2 ^ 15 < le_val t.
Proof. by apply compact_truncation. Qed.

Lemma compact_rounding_witness :
  u256_wf (le_bytes 32 (2 ^ 239 + 12345)) /\
  le_val (CompactToBig (FixCompactEncoding (BigToCompact (le_bytes 32 (2 ^ 239 + 12345))))) = 2 ^ 239.
Proof.
  split; [split; [done|auto with dil]|].
  destruct (compact_rounding (le_bytes 32 (2 ^ 239 + 12345))) as [H1 H2].
  - split; [done|auto with dil].
  - vm_compute; intuition congruence.
  - apply Z.le_antisymm; vm_compute; congruence.
Defined.

(** accumulating chain work never wraps: the sum is exact up to 2^256-1 and
    saturates there, so a longer chain never compares as lighter. *)
Theorem AddChainWork_saturating (a b : uint256) (Ha : u256_wf a) (Hb : u256_wf b) :
  u256_wf (AddChainWork a b) /\
  le_val (AddChainWork a b) = Z.min (le_val a + le_val b) (2 ^ 256 - 1) /\
  ChainWorkGreaterOrEqual (AddChainWork a b) a = true.
Proof.
  destruct (AddChainWork_correct a b Ha Hb) as [W V]. split; [done|]. split; [done|].
  rewrite ChainWorkGreaterOrEqual_val, V by done.
  pose proof (le_val_u256 a Ha). pose proof (le_val_u256 b Hb). apply Z.leb_le. lia.
Qed.

Lemma AddChainWork_saturating_witness :
  le_val (AddChainWork (le_bytes 32 (2 ^ 256 - 3)) (le_bytes 32 7)) = 2 ^ 256 - 1.
Proof.
  destruct (AddChainWork_saturating (le_bytes 32 (2 ^ 256 - 3)) (le_bytes 32 7)) as [_ [V _]].
  - split; [done|auto with dil].
  - split; [done|auto with dil].
  - rewrite V. vm_compute. reflexivity.
Defined.

(** fork choice respects difficulty: of two normal-form difficulties in the
    range consensus allows, the one with the lower (harder) target contributes
    at least as much chain work, across size bytes as well as within one. *)
Theorem chain_work_antitone (n1 n2 : Z)
  (C1 : canonical_compact n1) (C2 : canonical_compact n2)
  (S1 : 8 <= n1 / 2 ^ 24) (S2 : 8 <= n2 / 2 ^ 24)
  (Hle : le_val (CompactToBig n1) <= le_val (CompactToBig n2)) :
  le_val (ComputeChainWork n2) <= le_val (ComputeChainWork n1).
Proof.
  rewrite !CompactToBig_val in Hle by (by apply canonical_range).
  by apply canonical_work_order.
Qed.

Lemma chain_work_antitone_witness :
  le_val (ComputeChainWork MAX_DIFFICULTY_BITS) <= le_val (ComputeChainWork 0x1e7fffff).
Proof.
  apply (chain_work_antitone 0x1e7fffff MAX_DIFFICULTY_BITS);
    vm_compute; intuition congruence.
Defined.
