(* ===== verification/WideArith.v ===== *)
(** * Wide integer arithmetic of the difficulty code

    The integer-only helpers of consensus/pow.cpp: the checked 256x64-bit
    multiplication, the 320/64-bit long division, and the bit shifts of a
    little-endian 256-bit target. *)

From S2P Require Import Prelude Uint256.

(** ** Definitions *)

(** The 32 iterations of [Multiply256x64]; [None] is [return false]. *)
Fixpoint Multiply256x64_loop (n i : nat) (a : uint256) (b : Z) (result : list Z) (carry : Z)
  : option (list Z * Z) :=
  match n with
  | O => Some (result, carry)
  | S n' =>
      let byte_val := byte_at a i in
      if negb (byte_val =? 0) && (b >? UINT64_MAX / byte_val) then None
      else
        let mul_result := u64 (byte_val * b) in
        if carry >? UINT64_MAX - mul_result then None
        else
          let product := u64 (mul_result + carry) in
          Multiply256x64_loop n' (S i) a b (<[i := Z.land product 0xff]> result)
            (Z.shiftr product 8)
  end.

(** [for (int i = 32; i < 40 && carry > 0; i++)] *)
Fixpoint Multiply256x64_carry (n i : nat) (result : list Z) (carry : Z) : list Z * Z :=
  match n with
  | O => (result, carry)
  | S n' =>
      if carry >? 0 then
        Multiply256x64_carry n' (S i) (<[i := Z.land carry 0xff]> result) (Z.shiftr carry 8)
      else (result, carry)
  end.

(** [Multiply256x64]: the 40-byte product, or [None] when the code returns [false]. *)
Definition Multiply256x64 (a : uint256) (b : Z) : option (list Z) :=
  match Multiply256x64_loop 32 0 a b (replicate 40 0) 0 with
  | None => None
  | Some (result, carry) =>
      let '(result, carry) := Multiply256x64_carry 8 32 result carry in
      if carry >? 0 then None else Some result
  end.

(** [for (int i = 39; i >= 0; i--)] of [Divide320x64]; [n] bytes remain. *)
Fixpoint Divide320x64_loop (n : nat) (dividend : list Z) (divisor : Z) (quotient : uint256)
  (remainder : Z) : uint256 :=
  match n with
  | O => quotient
  | S i =>
      let remainder := Z.lor (u64 (Z.shiftl remainder 8)) (byte_at dividend i) in
      let q := remainder / divisor in
      let remainder := remainder mod divisor in
      let quotient := if Nat.ltb i 32 then <[i := Z.land q 0xff]> quotient else quotient in
      Divide320x64_loop i dividend divisor quotient remainder
  end.

(** [Divide320x64] *)
Definition Divide320x64 (dividend : list Z) (divisor : Z) : uint256 :=
  if divisor =? 0 then zero256
  else Divide320x64_loop 40 dividend divisor zero256 0.

(** [for (int i = 31; i >= byte_shift; i--)]; [n] iterations remain. *)
Fixpoint ShiftTargetLeft_loop (n : nat) (val : uint256) (byte_shift : nat) (bit_shift : Z)
  (result : uint256) : uint256 :=
  match n with
  | O => result
  | S n' =>
      let i := (byte_shift + n')%nat in
      let b := u8 (Z.shiftl (byte_at val (i - byte_shift)) bit_shift) in
      let b := if (bit_shift >? 0) && Nat.ltb 0 (i - byte_shift)
               then u8 (Z.lor b (Z.shiftr (byte_at val (i - byte_shift - 1)) (8 - bit_shift)))
               else b in
      ShiftTargetLeft_loop n' val byte_shift bit_shift (<[i := b]> result)
  end.

(** [ShiftTargetLeft] *)
Definition ShiftTargetLeft (val : uint256) (shift_bits : Z) : uint256 :=
  if shift_bits <=? 0 then val
  else if shift_bits >=? 256 then zero256
  else
    let byte_shift := Z.to_nat (Z.quot shift_bits 8) in
    let bit_shift := Z.rem shift_bits 8 in
    ShiftTargetLeft_loop (32 - byte_shift) val byte_shift bit_shift zero256.

(** [for (int i = 0; i + byte_shift < 32; i++)]; [n] iterations remain. *)
Fixpoint ShiftTargetRight_loop (n i : nat) (val : uint256) (byte_shift : nat) (bit_shift : Z)
  (result : uint256) : uint256 :=
  match n with
  | O => result
  | S n' =>
      let b := Z.shiftr (byte_at val (i + byte_shift)) bit_shift in
      let b := if (bit_shift >? 0) && Nat.ltb (i + byte_shift + 1) 32
               then u8 (Z.lor b (Z.shiftl (byte_at val (i + byte_shift + 1)) (8 - bit_shift)))
               else b in
      ShiftTargetRight_loop n' (S i) val byte_shift bit_shift (<[i := b]> result)
  end.

(** [ShiftTargetRight] *)
Definition ShiftTargetRight (val : uint256) (shift_bits : Z) : uint256 :=
  if shift_bits <=? 0 then val
  else if shift_bits >=? 256 then zero256
  else
    let byte_shift := Z.to_nat (Z.quot shift_bits 8) in
    let bit_shift := Z.rem shift_bits 8 in
    ShiftTargetRight_loop (32 - byte_shift) 0 val byte_shift bit_shift zero256.

(** [IsTargetZero] *)
Definition IsTargetZero (val : uint256) : bool := isZero_loop 32 val 0.

(** ** Multiplication *)

Lemma Multiply256x64_loop_sound n : forall i a b r c r' c',
  bytes_ok a -> length a = 32%nat -> bytes_ok r -> length r = 40%nat -> (i + n <= 32)%nat ->
  (forall j, (i <= j)%nat -> byte_at r j = 0) -> 0 <= b < 2 ^ 64 -> 0 <= c < 2 ^ 64 ->
  Multiply256x64_loop n i a b r c = Some (r', c') ->
  bytes_ok r' /\ length r' = 40%nat /\ 0 <= c' < 2 ^ 64 /\
  (forall j, (i + n <= j)%nat -> byte_at r' j = 0) /\
  le_val r' + 256 ^ Z.of_nat (i + n) * c' =
    le_val r + 256 ^ Z.of_nat i * (le_val (take n (drop i a)) * b + c).
Proof.
  induction n as [|n IH]; intros i a b r c r' c' Ha La Hr Lr Hi Hz Hb Hc H;
    cbn [Multiply256x64_loop] in H.
  { injection H as <- <-. rewrite take_0, Nat.add_0_r. cbn [le_val]. repeat split; auto; lia. }
  pose proof (byte_at_ok a i Ha) as [Hlo Hhi].
  destruct (negb (byte_at a i =? 0) && (b >? UINT64_MAX / byte_at a i)) eqn:G1; [done|].
  assert (Hm : byte_at a i * b < 2 ^ 64).
  { apply andb_false_iff in G1 as [G1|G1]; zprop; [nia|].
    destruct (Z.eq_dec (byte_at a i) 0); [nia|].
    pose proof (Z.mul_div_le UINT64_MAX (byte_at a i) ltac:(lia)). unfold UINT64_MAX in *. nia. }
  rewrite (u64_small (byte_at a i * b)) in H by nia.
  destruct (c >? UINT64_MAX - byte_at a i * b) eqn:G2; [done|]. zprop.
  rewrite (u64_small (_ + c)) in H by (unfold UINT64_MAX in *; nia).
  set (p := byte_at a i * b + c) in *.
  assert (Hp : 0 <= p < 2 ^ 64) by (unfold p, UINT64_MAX in *; nia).
  rewrite Z.shiftr_div_pow2, land_ff_mod in H by lia. change (2 ^ 8) with 256 in H.
  apply IH in H as (H1 & H2 & H3 & H4 & H5); auto with dil; rewrite ?length_insert; try lia.
  - repeat split; auto; try lia.
    + intros j Hj. apply H4. lia.
    + replace (i + S n)%nat with (S i + n)%nat by lia. rewrite H5, le_val_insert, (Hz i) by lia.
      rewrite (drop_S_byte_at a i) by lia. cbn [take le_val].
      rewrite Nat2Z.inj_succ, Z.pow_succ_r by lia.
      pose proof (Z.div_mod p 256 ltac:(lia)) as D. unfold p in D at 1. nia.
  - apply bytes_ok_insert; [done|]. unfold byte_ok. apply Z.mod_pos_bound; lia.
  - intros j Hj. rewrite byte_at_insert_ne by lia. apply Hz. lia.
  - split; [apply Z.div_pos; lia|]. apply Z.div_lt_upper_bound; lia.
Qed.

Lemma Multiply256x64_carry_sound n : forall i r c,
  bytes_ok r -> length r = 40%nat -> (i + n <= 40)%nat ->
  (forall j, (i <= j)%nat -> byte_at r j = 0) -> 0 <= c < 256 ^ Z.of_nat n ->
  let '(r', c') := Multiply256x64_carry n i r c in
  bytes_ok r' /\ length r' = 40%nat /\ c' = 0 /\
  le_val r' = le_val r + 256 ^ Z.of_nat i * c.
Proof.
  induction n as [|n IH]; intros i r c Hr Lr Hi Hz Hc; cbn [Multiply256x64_carry].
  { simpl in Hc. replace c with 0 by lia. repeat split; auto. lia. }
  rewrite Z.gtb_ltb. destruct (Z.ltb_spec 0 c).
  2: { replace c with 0 by lia. repeat split; auto; lia. }
  rewrite Nat2Z.inj_succ, Z.pow_succ_r in Hc by lia.
  rewrite Z.shiftr_div_pow2, land_ff_mod by lia. change (2 ^ 8) with 256.
  specialize (IH (S i) (<[i := c mod 256]> r) (c / 256)).
  destruct (Multiply256x64_carry n (S i) (<[i := c mod 256]> r) (c / 256)) as [r' c'].
  destruct IH as (H1 & H2 & H3 & H4); rewrite ?length_insert; try lia.
  - apply bytes_ok_insert; [done|]. unfold byte_ok. apply Z.mod_pos_bound; lia.
  - intros j Hj. rewrite byte_at_insert_ne by lia. apply Hz. lia.
  - split; [apply Z.div_pos; lia|]. apply Z.div_lt_upper_bound; lia.
  - repeat split; auto. rewrite H4, le_val_insert, (Hz i) by lia.
    rewrite Nat2Z.inj_succ, Z.pow_succ_r by lia. pose proof (Z.div_mod c 256 ltac:(lia)). nia.
Qed.

Lemma bytes_ok_zeros n : bytes_ok (replicate n 0).
Proof. apply Forall_replicate. unfold byte_ok; lia. Qed.
#[export] Hint Resolve bytes_ok_zeros : dil.

Lemma Multiply256x64_sound a b p :
  u256_wf a -> 0 <= b < 2 ^ 64 -> Multiply256x64 a b = Some p ->
  bytes_ok p /\ length p = 40%nat /\ le_val p = le_val a * b.
Proof.
  intros Hw Hb H. pose proof Hw as [La Ba]. unfold Multiply256x64 in H.
  destruct (Multiply256x64_loop 32 0 a b (replicate 40 0) 0) as [[r c]|] eqn:E; [|done].
  apply Multiply256x64_loop_sound in E as (H1 & H2 & H3 & H4 & H5); auto with dil; try lia.
  2: { intros. apply byte_at_replicate_0. }
  pose proof (Multiply256x64_carry_sound 8 32 r c H1 H2 ltac:(lia) H4 ltac:(done)) as HC.
  destruct (Multiply256x64_carry 8 32 r c) as [r' c']. destruct HC as (C1 & C2 & -> & C4).
  simpl in H. injection H as <-. repeat split; auto.
  rewrite drop_0, u256_take, le_val_replicate_0 in H5 by done.
  change (256 ^ Z.of_nat 0) with 1 in H5. simpl (0 + 32)%nat in H5. lia.
Qed.

(** The running carry stays below the multiplier, so nothing can overflow up to 2^56. *)
Lemma Multiply256x64_loop_total n : forall i a b r c,
  bytes_ok a -> 0 <= b < 2 ^ 56 -> 0 <= c <= b ->
  exists r' c', Multiply256x64_loop n i a b r c = Some (r', c').
Proof.
  induction n as [|n IH]; intros i a b r c Ha Hb Hc; cbn [Multiply256x64_loop]; [eauto|].
  pose proof (byte_at_ok a i Ha) as [Hlo Hhi]. unfold UINT64_MAX.
  destruct (Z.eq_dec (byte_at a i) 0) as [E|E].
  - rewrite E. cbn [Z.eqb negb andb]. rewrite Z.mul_0_l. change (u64 0) with 0.
    rewrite Z.gtb_ltb. destruct (Z.ltb_spec (2 ^ 64 - 1 - 0) c); [lia|].
    rewrite u64_small by lia. apply IH; auto. rewrite Z.shiftr_div_pow2 by lia.
    split; [apply Z.div_pos; lia|]. apply Z.div_le_upper_bound; lia.
  - assert (Hq : b <= (2 ^ 64 - 1) / byte_at a i) by (apply Z.div_le_lower_bound; nia).
    rewrite !Z.gtb_ltb, (proj2 (Z.ltb_ge _ _) Hq), andb_false_r. rewrite (u64_small (byte_at a i * b)) by nia.
    destruct (Z.ltb_spec (2 ^ 64 - 1 - byte_at a i * b) c); [nia|].
    rewrite u64_small by nia. apply IH; auto. rewrite Z.shiftr_div_pow2 by lia.
    split; [apply Z.div_pos; nia|]. apply Z.div_le_upper_bound; nia.
Qed.

Lemma Multiply256x64_total a b :
  u256_wf a -> 0 <= b < 2 ^ 56 -> exists p, Multiply256x64 a b = Some p.
Proof.
  intros Hw Hb. pose proof Hw as [La Ba]. unfold Multiply256x64.
  destruct (Multiply256x64_loop_total 32 0 a b (replicate 40 0) 0 Ba Hb ltac:(lia)) as (r & c & E).
  rewrite E. apply Multiply256x64_loop_sound in E as (H1 & H2 & H3 & H4 & H5); auto with dil; try lia.
  2: { intros. apply byte_at_replicate_0. }
  pose proof (Multiply256x64_carry_sound 8 32 r c H1 H2 ltac:(lia) H4 ltac:(done)) as HC.
  destruct (Multiply256x64_carry 8 32 r c) as [r' c']. destruct HC as (C1 & C2 & -> & C4). eauto.
Qed.

(** ** Division *)

Lemma bring_down r d b :
  0 <= r < d -> d <= 2 ^ 56 -> byte_ok b -> Z.lor (u64 (Z.shiftl r 8)) b = 256 * r + b.
Proof.
  unfold byte_ok. intros Hr Hd Hb. rewrite Z.shiftl_mul_pow2, u64_small, Z.lor_comm by lia.
  rewrite lor_disjoint by lia. lia.
Qed.

Lemma quotient_byte r d b : 0 <= r < d -> byte_ok b -> 0 <= (256 * r + b) / d < 256.
Proof.
  unfold byte_ok. intros. split; [apply Z.div_pos; lia|]. apply Z.div_lt_upper_bound; lia.
Qed.

Lemma Divide320x64_loop_S i dividend divisor quotient remainder :
  Divide320x64_loop (S i) dividend divisor quotient remainder =
  let r := Z.lor (u64 (Z.shiftl remainder 8)) (byte_at dividend i) in
  Divide320x64_loop i dividend divisor
    (if Nat.ltb i 32 then <[i := Z.land (r / divisor) 0xff]> quotient else quotient) (r mod divisor).
Proof. reflexivity. Qed.

(** The bytes above 32 only reduce the remainder. *)
Lemma Divide320x64_loop_high k : forall div d Q r,
  bytes_ok div -> length div = 40%nat -> (k <= 8)%nat -> 0 <= r < d -> d <= 2 ^ 56 ->
  Divide320x64_loop (32 + k) div d Q r =
  Divide320x64_loop 32 div d Q ((le_val (take k (drop 32 div)) + 256 ^ Z.of_nat k * r) mod d).
Proof.
  induction k as [|k IH]; intros div d Q r Hb Hl Hk Hr Hd.
  { rewrite take_0. cbn [le_val Nat.add]. change (256 ^ Z.of_nat 0) with 1.
    rewrite Z.mod_small by lia. f_equal. lia. }
  replace (32 + S k)%nat with (S (32 + k)) by lia. rewrite Divide320x64_loop_S. cbn zeta.
  destruct (Nat.ltb_spec (32 + k) 32); [lia|].
  rewrite (bring_down r d) by auto with dil.
  rewrite IH by (auto; try lia; apply Z.mod_pos_bound; lia). f_equal.
  rewrite le_val_take_S by (rewrite length_drop; lia).
  replace (byte_at (drop 32 div) k) with (byte_at div (32 + k)).
  2: { unfold byte_at. rewrite !nth_lookup, lookup_drop. done. }
  rewrite Nat2Z.inj_succ, Z.pow_succ_r by lia.
  set (T := le_val (take k (drop 32 div))). set (P := 256 ^ Z.of_nat k). set (b := byte_at div (32 + k)).
  replace (T + P * b + 256 * P * r) with (T + P * (256 * r + b)) by ring.
  rewrite Z.add_mod, Z.mul_mod_idemp_r, <- Z.add_mod by lia. done.
Qed.

Lemma Divide320x64_loop_low n : forall div d Q r,
  bytes_ok div -> length div = 40%nat -> (n <= 32)%nat -> 0 <= r < d -> d <= 2 ^ 56 ->
  u256_wf Q -> (forall j, (j < n)%nat -> byte_at Q j = 0) ->
  u256_wf (Divide320x64_loop n div d Q r) /\
  le_val (Divide320x64_loop n div d Q r) =
    le_val Q + (le_val (take n div) + 256 ^ Z.of_nat n * r) / d.
Proof.
  induction n as [|n IH]; intros div d Q r Hb Hl Hn Hr Hd HQ Hz; cbn [Divide320x64_loop].
  { split; [done|]. change (256 ^ Z.of_nat 0) with 1. rewrite take_0; cbn [le_val].
    rewrite Z.div_small by lia. lia. }
  destruct (Nat.ltb_spec n 32); [|lia].
  rewrite (bring_down r d) by auto with dil.
  pose proof (quotient_byte r d (byte_at div n) Hr ltac:(auto with dil)) as Hq.
  set (r1 := 256 * r + byte_at div n) in *.
  rewrite land_ff_mod, (Z.mod_small (r1 / d)) by done.
  destruct (IH div d (<[n := r1 / d]> Q) (r1 mod d)) as [W V]; auto with dil; try lia.
  { apply Z.mod_pos_bound; lia. }
  { intros j Hj. rewrite byte_at_insert_ne by lia. apply Hz. lia. }
  split; [done|]. rewrite V, le_val_insert, (Hz n) by (try lia; destruct HQ; lia).
  rewrite le_val_take_S by lia.
  rewrite Nat2Z.inj_succ, Z.pow_succ_r by lia.
  replace (le_val (take n div) + 256 ^ Z.of_nat n * byte_at div n + 256 * 256 ^ Z.of_nat n * r)
    with (le_val (take n div) + 256 ^ Z.of_nat n * (r1 mod d) + 256 ^ Z.of_nat n * (r1 / d) * d).
  2: { pose proof (Z.div_mod r1 d ltac:(lia)) as D. unfold r1 in D at 1. nia. }
  rewrite Z_div_plus_full by lia. lia.
Qed.

Lemma Divide320x64_val dividend divisor :
  bytes_ok dividend -> length dividend = 40%nat -> 0 < divisor <= 2 ^ 56 ->
  u256_wf (Divide320x64 dividend divisor) /\
  le_val (Divide320x64 dividend divisor) = (le_val dividend / divisor) mod 2 ^ 256.
Proof.
  intros Hb Hl Hd. unfold Divide320x64. destruct (Z.eqb_spec divisor 0); [lia|].
  change 40%nat with (32 + 8)%nat. rewrite Divide320x64_loop_high by (auto; lia).
  rewrite (take_ge (drop 32 dividend)) by (rewrite length_drop; lia).
  rewrite Z.mul_0_r, Z.add_0_r. set (H := le_val (drop 32 dividend)).
  destruct (Divide320x64_loop_low 32 dividend divisor zero256 (H mod divisor)) as [W V];
    auto with dil; try lia.
  { apply Z.mod_pos_bound; lia. }
  { intros. apply byte_at_replicate_0. }
  split; [done|]. rewrite V. unfold zero256. rewrite le_val_replicate_0.
  rewrite (le_val_take_drop dividend 32) by lia. fold H.
  change (256 ^ Z.of_nat 32) with (2 ^ 256).
  pose proof (le_val_take_bound dividend 32 Hb) as Hlow. change (256 ^ Z.of_nat 32) with (2 ^ 256) in Hlow.
  replace (le_val (take 32 dividend) + 2 ^ 256 * H) with
    (le_val (take 32 dividend) + 2 ^ 256 * (H mod divisor) + 2 ^ 256 * (H / divisor) * divisor).
  2: { pose proof (Z.div_mod H divisor ltac:(lia)). nia. }
  rewrite Z_div_plus_full by lia. rewrite (Z.mul_comm (2 ^ 256) (H / divisor)), Z_mod_plus_full.
  pose proof (Z.mod_pos_bound H divisor ltac:(lia)).
  rewrite (Z.mod_small (_ / _) (2 ^ 256)); [apply Z.add_0_l|]. split; [apply Z.div_pos; nia|]. apply Z.div_lt_upper_bound; nia.
Qed.

(** ** Shifts *)

Lemma ShiftTargetLeft_loop_at n : forall val bs bit r j,
  length r = 32%nat -> (bs + n <= 32)%nat ->
  byte_at (ShiftTargetLeft_loop n val bs bit r) j =
  if decide (bs <= j < bs + n)%nat
  then (let b := u8 (Z.shiftl (byte_at val (j - bs)) bit) in
        if (bit >? 0) && Nat.ltb 0 (j - bs)
        then u8 (Z.lor b (Z.shiftr (byte_at val (j - bs - 1)) (8 - bit))) else b)
  else byte_at r j.
Proof.
  induction n as [|n IH]; intros val bs bit r j Hr Hn; cbn [ShiftTargetLeft_loop].
  { destruct (decide _); [lia|done]. }
  rewrite IH by (rewrite ?length_insert; lia).
  destruct (decide (bs <= j < bs + n)%nat); destruct (decide (bs <= j < bs + S n)%nat); try lia; try done.
  - replace j with (bs + n)%nat by lia. rewrite byte_at_insert_eq by lia. done.
  - rewrite byte_at_insert_ne by lia. done.
Qed.

Lemma ShiftTargetLeft_loop_wf n : forall val bs bit r,
  u256_wf r -> u256_wf (ShiftTargetLeft_loop n val bs bit r).
Proof.
  induction n as [|n IH]; intros; cbn [ShiftTargetLeft_loop]; [done|]. apply IH.
  apply u256_wf_insert; [done|]. unfold byte_ok. case_match; apply u8_range.
Qed.

Lemma ShiftTargetRight_loop_at n : forall i val bs bit r j,
  length r = 32%nat -> (i + n <= 32)%nat ->
  byte_at (ShiftTargetRight_loop n i val bs bit r) j =
  if decide (i <= j < i + n)%nat
  then (let b := Z.shiftr (byte_at val (j + bs)) bit in
        if (bit >? 0) && Nat.ltb (j + bs + 1) 32
        then u8 (Z.lor b (Z.shiftl (byte_at val (j + bs + 1)) (8 - bit))) else b)
  else byte_at r j.
Proof.
  induction n as [|n IH]; intros i val bs bit r j Hr Hn; cbn [ShiftTargetRight_loop].
  { destruct (decide _); [lia|done]. }
  rewrite IH by (rewrite ?length_insert; lia).
  destruct (decide (S i <= j < S i + n)%nat); destruct (decide (i <= j < i + S n)%nat); try lia; try done.
  - replace j with i by lia. rewrite byte_at_insert_eq by lia. done.
  - rewrite byte_at_insert_ne by lia. done.
Qed.

Lemma ShiftTargetRight_loop_wf n : forall i val bs bit r,
  bytes_ok val -> 0 <= bit -> u256_wf r -> u256_wf (ShiftTargetRight_loop n i val bs bit r).
Proof.
  induction n as [|n IH]; intros i val bs bit r Hv Hbit Hr; cbn [ShiftTargetRight_loop]; [done|].
  apply IH; auto. apply u256_wf_insert; [done|]. case_match; [apply u8_range|].
  pose proof (byte_at_ok val (i + bs) Hv) as [Hlo Hhi]. rewrite Z.shiftr_div_pow2 by done.
  pose proof (Z.pow_pos_nonneg 2 bit ltac:(lia) ltac:(lia)).
  split; [apply Z.div_pos; lia|]. apply Z.div_lt_upper_bound; nia.
Qed.

Lemma testbit_u8 x r : 0 <= r < 8 -> Z.testbit (u8 x) r = Z.testbit x r.
Proof. intros. unfold u8. apply Z.mod_pow2_bits_low. lia. Qed.

Lemma byte_bits_high b r : byte_ok b -> 8 <= r -> Z.testbit b r = false.
Proof.
  unfold byte_ok. intros. rewrite <- (Z.mod_small b (2 ^ 8)) by lia. apply Z.mod_pow2_bits_high. lia.
Qed.

Lemma ShiftTargetLeft_val v k :
  u256_wf v -> 0 <= k -> u256_wf (ShiftTargetLeft v k) /\
  le_val (ShiftTargetLeft v k) = (le_val v * 2 ^ k) mod 2 ^ 256.
Proof.
  intros Hw Hk. pose proof (le_val_u256 v Hw) as Hv. pose proof Hw as [Lv Bv].
  unfold ShiftTargetLeft. destruct (Z.leb_spec k 0).
  { replace k with 0 by lia. split; [done|]. rewrite Z.mul_1_r, Z.mod_small; done. }
  rewrite Z.geb_leb. destruct (Z.leb_spec 256 k).
  { split; [auto with dil|]. unfold zero256. rewrite le_val_replicate_0.
    replace k with (k - 256 + 256) by lia. rewrite Z.pow_add_r, Z.mul_assoc, Z_mod_mult by lia. done. }
  rewrite Z.quot_div_nonneg, Z.rem_mod_nonneg by lia.
  set (bs := Z.to_nat (k / 8)). set (bit := k mod 8).
  assert (Hbit : 0 <= bit < 8) by (apply Z.mod_pos_bound; lia).
  assert (Hbs : (bs < 32)%nat).
  { unfold bs. pose proof (Z.div_lt_upper_bound k 8 32 ltac:(lia) ltac:(lia)).
    pose proof (Z.div_pos k 8 ltac:(lia) ltac:(lia)). lia. }
  assert (Ek : k = 8 * Z.of_nat bs + bit).
  { unfold bs, bit. rewrite Z2Nat.id by (apply Z.div_pos; lia). apply Z.div_mod. lia. }
  pose proof (ShiftTargetLeft_loop_wf (32 - bs) v bs bit zero256 zero256_wf) as W.
  split; [done|]. apply bits_by_bytes; [apply (le_val_u256 _ W)|apply Z.mod_pos_bound; lia|].
  intros i r Hr. rewrite testbit_le_val by (apply W || done).
  rewrite ShiftTargetLeft_loop_at by (done || lia).
  destruct (decide (bs <= i < bs + (32 - bs))%nat) as [Hi|Hi].
  2: { unfold zero256. rewrite byte_at_replicate_0, Z.bits_0. destruct (Z.le_gt_cases 256 (8 * Z.of_nat i + r)).
       - rewrite Z.mod_pow2_bits_high by lia. done.
       - rewrite Z.mod_pow2_bits_low, <- Z.shiftl_mul_pow2, Z.shiftl_spec by lia.
         rewrite Z.testbit_neg_r by lia. done. }
  rewrite Z.mod_pow2_bits_low, <- Z.shiftl_mul_pow2, Z.shiftl_spec by lia.
  rewrite Z.gtb_ltb. destruct (Z.le_gt_cases bit r) as [C|C].
  - replace (8 * Z.of_nat i + r - k) with (8 * Z.of_nat (i - bs) + (r - bit)) by lia.
    rewrite testbit_le_val by (done || lia). cbn zeta.
    destruct ((0 <? bit) && Nat.ltb 0 (i - bs)) eqn:G;
      rewrite ?testbit_u8, ?Z.lor_spec, ?testbit_u8, Z.shiftl_spec by lia; [|done].
    rewrite Z.shiftr_spec, (byte_bits_high _ (r + (8 - bit))), orb_false_r by (auto with dil || lia).
    done.
  - cbn zeta. destruct (Nat.ltb_spec 0 (i - bs)) as [G|G].
    + destruct (Z.ltb_spec 0 bit); [|lia]. cbn [andb].
      rewrite testbit_u8, Z.lor_spec, testbit_u8, Z.shiftl_spec, Z.shiftr_spec by lia.
      rewrite (Z.testbit_neg_r _ (r - bit)), orb_false_l by lia.
      replace (8 * Z.of_nat i + r - k) with (8 * Z.of_nat (i - bs - 1) + (r + (8 - bit))) by lia.
      rewrite testbit_le_val by (done || lia). done.
    + rewrite andb_false_r, testbit_u8, Z.shiftl_spec by lia. rewrite !Z.testbit_neg_r by lia. done.
Qed.

Lemma ShiftTargetRight_val v k :
  u256_wf v -> 0 <= k -> u256_wf (ShiftTargetRight v k) /\
  le_val (ShiftTargetRight v k) = le_val v / 2 ^ k.
Proof.
  intros Hw Hk. pose proof (le_val_u256 v Hw) as Hv. pose proof Hw as [Lv Bv].
  unfold ShiftTargetRight. destruct (Z.leb_spec k 0).
  { replace k with 0 by lia. split; [done|]. rewrite Z.div_1_r. done. }
  rewrite Z.geb_leb. destruct (Z.leb_spec 256 k).
  { split; [auto with dil|]. unfold zero256. rewrite le_val_replicate_0, Z.div_small; [done|].
    split; [lia|]. eapply Z.lt_le_trans; [apply Hv|]. apply Z.pow_le_mono_r; lia. }
  rewrite Z.quot_div_nonneg, Z.rem_mod_nonneg by lia.
  set (bs := Z.to_nat (k / 8)). set (bit := k mod 8).
  assert (Hbit : 0 <= bit < 8) by (apply Z.mod_pos_bound; lia).
  assert (Ek : k = 8 * Z.of_nat bs + bit).
  { unfold bs, bit. rewrite Z2Nat.id by (apply Z.div_pos; lia). apply Z.div_mod. lia. }
  pose proof (ShiftTargetRight_loop_wf (32 - bs) 0 v bs bit zero256 Bv ltac:(lia) zero256_wf) as W.
  split; [done|]. apply bits_by_bytes; [apply (le_val_u256 _ W)|apply Z.div_pos; lia|].
  intros i r Hr. rewrite testbit_le_val by (apply W || done).
  rewrite <- Z.shiftr_div_pow2, Z.shiftr_spec by lia.
  rewrite ShiftTargetRight_loop_at by (done || lia).
  replace (8 * Z.of_nat i + r + k) with (8 * Z.of_nat (i + bs) + (r + bit)) by lia.
  assert (Hhi : 8 <= r + bit ->
    Z.testbit (le_val v) (8 * Z.of_nat (i + bs) + (r + bit)) =
    Z.testbit (byte_at v (i + bs + 1)) (r + bit - 8)).
  { intros. replace (8 * Z.of_nat (i + bs) + (r + bit))
      with (8 * Z.of_nat (i + bs + 1) + (r + bit - 8)) by lia. apply testbit_le_val; done || lia. }
  assert (Hlo : r + bit < 8 ->
    Z.testbit (le_val v) (8 * Z.of_nat (i + bs) + (r + bit)) =
    Z.testbit (byte_at v (i + bs)) (r + bit)).
  { intros. apply testbit_le_val; done || lia. }
  destruct (decide (0 <= i < 0 + (32 - bs))%nat) as [Hi|Hi].
  - cbn zeta. rewrite Z.gtb_ltb. destruct (Z.ltb_spec 0 bit) as [G1|G1]; cbn [andb].
    + destruct (Nat.ltb_spec (i + bs + 1) 32) as [G2|G2].
      * rewrite testbit_u8, Z.lor_spec, Z.shiftr_spec, Z.shiftl_spec by lia.
        destruct (Z.le_gt_cases 8 (r + bit)) as [C|C].
        -- rewrite byte_bits_high, orb_false_l, Hhi by (auto with dil; lia). f_equal. lia.
        -- rewrite (Z.testbit_neg_r _ (r - (8 - bit))), orb_false_r, Hlo by lia. done.
      * rewrite Z.shiftr_spec by lia. destruct (Z.le_gt_cases 8 (r + bit)) as [C|C].
        -- rewrite byte_bits_high, Hhi, (byte_at_overflow v), Z.bits_0 by (auto with dil; lia). done.
        -- rewrite Hlo by lia. done.
    + rewrite Z.shiftr_spec, Hlo by lia. done.
  - unfold zero256. rewrite byte_at_replicate_0, Z.bits_0. destruct (Z.le_gt_cases 8 (r + bit)).
    + rewrite Hhi, (byte_at_overflow v), Z.bits_0 by lia. done.
    + rewrite Hlo, (byte_at_overflow v), Z.bits_0 by lia. done.
Qed.

Lemma IsTargetZero_val t : u256_wf t -> IsTargetZero t = (le_val t =? 0).
Proof. apply isZero_val. Qed.

(** ** Properties *)

(** the checked multiplication is exact whenever it returns [true], and it
    does return [true] for every multiplier below 2^56: consensus timespans and
    fixed-point factors never take the overflow branches. *)
Theorem Multiply256x64_correct (a : uint256) (b : Z) (Ha : u256_wf a) (Hb : 0 <= b < 2 ^ 64) :
  (forall p, Multiply256x64 a b = Some p ->
     bytes_ok p /\ length p = 40%nat /\ le_val p = le_val a * b) /\
  (b < 2 ^ 56 -> is_Some (Multiply256x64 a b)).
Proof.
  split; [intros p; by apply Multiply256x64_sound|]. intros.
  destruct (Multiply256x64_total a b Ha ltac:(lia)) as [p ->]. eauto.
Qed.

Lemma Multiply256x64_correct_witness :
  exists p, Multiply256x64 (CompactToBig MAX_DIFFICULTY_BITS) 483840 = Some p /\
    le_val p = 0x0fffff * 256 ^ 28 * 483840.
Proof.
  destruct (Multiply256x64_correct (CompactToBig MAX_DIFFICULTY_BITS) 483840
    (CompactToBig_wf _) ltac:(lia)) as [S T].
  destruct (T ltac:(lia)) as [p E]. exists p. split; [done|].
  destruct (S p E) as (_ & _ & V). rewrite V. vm_compute. reflexivity.
Defined.

(** the byte-wise long division computes the integer quotient modulo 2^256
    for every divisor up to 2^56, and the target shifts are exact
    multiplication modulo 2^256 and floor division by powers of two. *)
Theorem wide_division_and_shifts (dividend : list Z) (divisor : Z) (v : uint256) (k : Z)
  (Hd : bytes_ok dividend) (Ld : length dividend = 40%nat) (Hdiv : 0 < divisor <= 2 ^ 56)
  (Hv : u256_wf v) (Hk : 0 <= k) :
  le_val (Divide320x64 dividend divisor) = (le_val dividend / divisor) mod 2 ^ 256 /\
  le_val (ShiftTargetLeft v k) = (le_val v * 2 ^ k) mod 2 ^ 256 /\
  le_val (ShiftTargetRight v k) = le_val v / 2 ^ k.
Proof.
  split; [by apply Divide320x64_val|].
  split; [by apply ShiftTargetLeft_val|by apply ShiftTargetRight_val].
Qed.

Lemma wide_division_and_shifts_witness :
  le_val (Divide320x64 (le_bytes 40 (7 * 10 ^ 80)) 483840) = (7 * 10 ^ 80 / 483840) mod 2 ^ 256 /\
  le_val (ShiftTargetLeft (le_bytes 32 (10 ^ 30)) 13) = 10 ^ 30 * 2 ^ 13 /\
  le_val (ShiftTargetRight (le_bytes 32 (10 ^ 30)) 13) = 10 ^ 30 / 2 ^ 13.
Proof.
  destruct (wide_division_and_shifts (le_bytes 40 (7 * 10 ^ 80)) 483840 (le_bytes 32 (10 ^ 30)) 13)
    as (H1 & H2 & H3).
  - apply le_bytes_ok.
  - apply length_le_bytes.
  - lia.
  - split; [apply length_le_bytes|apply le_bytes_ok].
  - lia.
  - rewrite H1, H2, H3. vm_compute. auto.
Defined.
