(* ===== verification/ChainParams.v ===== *)
(** * Chain parameters (core/chainparams.h, core/chainparams.cpp)

    The record [ChainParams] with the consensus and policy fields of the C++
    class, the four factory functions with their literal values, and the
    checkpoint queries of the class.  String-valued fields (genesis hash and
    message, data directory, seed addresses and keys, default assume-valid
    block) and [nMinimumChainWork] (zero on every network) are not carried.
    The global pointer [g_chainParams] is an [option ChainParams] argument of
    the functions that read it. *)

From S2P Require Import Prelude Uint256.

Inductive Network : Set := MAINNET | TESTNET | DILV | REGTEST.

#[export] Instance Network_eq_dec : EqDecision Network.
Proof. solve_decision. Defined.

(** [Consensus::MAX_BLOCK_SIZE] (consensus/params.h). *)
Definition MAX_BLOCK_SIZE : Z := 4 * 1024 * 1024.

Record CCheckpoint := mkCheckpoint { cp_nHeight : Z; cp_hashBlock : uint256 }.

Record ChainParams := mkChainParams {
  network : Network;
  networkMagic : Z;
  chainID : Z;
  genesisTime : Z;
  genesisNonce : Z;
  genesisNBits : Z;
  p2pPort : Z;
  rpcPort : Z;
  blockTime : Z;
  halvingInterval : Z;
  difficultyAdjustment : Z;
  difficultyAdjustmentV2 : Z;
  difficultyForkHeight : Z;
  difficultyMaxChange : Z;
  difficultyV3ForkHeight : Z;
  maxBlockSize : Z;
  initialReward : Z;
  fPowAllowMinDifficultyBlocks : bool;
  edaActivationHeight : Z;
  dfmpActivationHeight : Z;
  dfmpAssumeValidHeight : Z;
  dfmpV3ActivationHeight : Z;
  registrationPowBits : Z;
  dfmpDynamicScalingHeight : Z;
  dfmpV31ActivationHeight : Z;
  dfmpV32ActivationHeight : Z;
  dfmpV33ActivationHeight : Z;
  dfmpV34ActivationHeight : Z;
  compactEncodingFixHeight : Z;
  nOutboundFullRelayTarget : Z;
  nOutboundBlockRelayTarget : Z;
  nMapBlockIndexCap : Z;
  asertActivationHeight : Z;
  asertHalflife : Z;
  timestampValidationHeight : Z;
  vdfActivationHeight : Z;
  vdfExclusiveHeight : Z;
  vdfIterations : Z;
  vdfLotteryActivationHeight : Z;
  vdfLotteryGracePeriod : Z;
  vdfMinBlockTime : Z;
  vdfCooldownActiveWindow : Z;
  dfmpCooldownConsensusHeight : Z;
  stallExemptionV2Height : Z;
  consecutiveMinerCheckHeight : Z;
  consecutiveMinerStallExemptionRetiredHeight : Z;
  soloExemptionLifetimeGateHeight : Z;
  timeBasedCooldownExpiryRetiredHeight : Z;
  timeDecayCooldownActivationHeight : Z;
  cooldownTimeDecaySeconds : Z;
  vdfCooldownShortWindow : Z;
  stabilizationForkHeight : Z;
  mikWindowCapWindow : Z;
  mikWindowCapFloor : Z;
  livenessTimeoutSec : Z;
  minBlockTimestampGap : Z;
  minBlockTimestampGapHeight : Z;
  coinbaseMaturity : Z;
  scriptV2ActivationHeight : Z;
  digitalDnaActivationHeight : Z;
  dnaCommitmentActivationHeight : Z;
  dnaHashEnforcementHeight : Z;
  trustWeightedNetworkHeight : Z;
  dnaRotationActivationHeight : Z;
  mikExpirationActivationHeight : Z;
  mikExpirationThreshold : Z;
  mikRegistrationRateLimitHeight : Z;
  mikRegistrationRateWindow : Z;
  mikRegistrationMaxPerWindow : Z;
  seedAttestationActivationHeight : Z;
  attestationDatacenterBan : bool;
  seedAttestationRPCPort : Z;
  lifetimeMinerCountAt44232 : Z;
  checkpoints : list CCheckpoint
}.

(** [uint256S] on a 64-digit hexadecimal literal: the digits are printed most
    significant byte first and stored little-endian. *)
Definition uint256S (hex : Z) : uint256 := le_bytes 32 hex.

Definition Mainnet : ChainParams := {|
  network := MAINNET;
  networkMagic := 0xD1714102;
  chainID := 1;
  genesisTime := 1737158400;
  genesisNonce := 429612875;
  genesisNBits := 0x1e01fffe;
  p2pPort := 8444;
  rpcPort := 8332;
  blockTime := 240;
  halvingInterval := 210000;
  difficultyAdjustment := 2016;
  difficultyAdjustmentV2 := 360;
  difficultyForkHeight := 18500;
  difficultyMaxChange := 2;
  difficultyV3ForkHeight := 20520;
  maxBlockSize := MAX_BLOCK_SIZE;
  initialReward := 50 * 100000000;
  fPowAllowMinDifficultyBlocks := false;
  edaActivationHeight := 7034;
  dfmpActivationHeight := 0;
  dfmpAssumeValidHeight := 44000;
  dfmpV3ActivationHeight := 7000;
  registrationPowBits := 28;
  dfmpDynamicScalingHeight := 7100;
  dfmpV31ActivationHeight := 7168;
  dfmpV32ActivationHeight := 13250;
  dfmpV33ActivationHeight := 13500;
  dfmpV34ActivationHeight := 999999999;
  compactEncodingFixHeight := 18500;
  nOutboundFullRelayTarget := 8;
  nOutboundBlockRelayTarget := 2;
  nMapBlockIndexCap := 500000;
  asertActivationHeight := 23040;
  asertHalflife := 34560;
  timestampValidationHeight := 24500;
  vdfActivationHeight := 999999999;
  vdfExclusiveHeight := 999999999;
  vdfIterations := 5000000;
  vdfLotteryActivationHeight := 999999999;
  vdfLotteryGracePeriod := 60;
  vdfMinBlockTime := 180;
  vdfCooldownActiveWindow := 360;
  dfmpCooldownConsensusHeight := 999999999;
  stallExemptionV2Height := 999999999;
  consecutiveMinerCheckHeight := 999999999;
  consecutiveMinerStallExemptionRetiredHeight := 999999999;
  soloExemptionLifetimeGateHeight := 999999999;
  timeBasedCooldownExpiryRetiredHeight := 999999999;
  timeDecayCooldownActivationHeight := 999999999;
  cooldownTimeDecaySeconds := 60;
  vdfCooldownShortWindow := 0;
  stabilizationForkHeight := 999999999;
  mikWindowCapWindow := 0;
  mikWindowCapFloor := 0;
  livenessTimeoutSec := 0;
  minBlockTimestampGap := 0;
  minBlockTimestampGapHeight := 0;
  coinbaseMaturity := 100;
  scriptV2ActivationHeight := 999999999;
  digitalDnaActivationHeight := 30000;
  dnaCommitmentActivationHeight := 40000;
  dnaHashEnforcementHeight := 999999999;
  trustWeightedNetworkHeight := 999999999;
  dnaRotationActivationHeight := 999999999;
  mikExpirationActivationHeight := 999999999;
  mikExpirationThreshold := 1080;
  mikRegistrationRateLimitHeight := 999999999;
  mikRegistrationRateWindow := 37;
  mikRegistrationMaxPerWindow := 10;
  seedAttestationActivationHeight := 40000;
  attestationDatacenterBan := false;
  seedAttestationRPCPort := 8332;
  lifetimeMinerCountAt44232 := 0;
  checkpoints := [
    mkCheckpoint 1000 (uint256S 0x000000006c282edbcc0f2eee5b0f8c8feb62c73d3787137037e589db99cab59f);
    mkCheckpoint 2000 (uint256S 0x0000002c86158454f79a22a31dcabcaca7861f7e95e98275439dd66f4f9e8b4d);
    mkCheckpoint 5000 (uint256S 0x00000152698282228ce368858d4070bc9da937ff2ed5c6276adf45dd9d299ee9);
    mkCheckpoint 10000 (uint256S 0x000032dc7d684254b446b7568ec895b3279e1230d5a6b6a42e5552e1d45f8402);
    mkCheckpoint 11000 (uint256S 0x000009628d3af9adef443ee681d19e4ff7c9d8f56a0b05acce8f55e43f88a6cf);
    mkCheckpoint 13000 (uint256S 0x000001fe5b08776d2f96e3fca8a30ad4113e8e2d998f800e70b06e73454380c7);
    mkCheckpoint 16500 (uint256S 0x000000b37d07c641b2b0e18ff7931300ac76ee083eae2522632b343ee221475f);
    mkCheckpoint 18500 (uint256S 0x0000000c9cbfc8c909156c22b37437183ece80257851d5dc324312497d3f2a37);
    mkCheckpoint 23000 (uint256S 0x00000a5bbef0e203c6b013976bbe4a3afc401975d5d4405298691d6620f47fa6);
    mkCheckpoint 24476 (uint256S 0x000007289cc3fdbe88a572d84f974a49fb962eda7412312c28930153ae52d611);
    mkCheckpoint 30000 (uint256S 0x0000000f1cadcbc897976ebe04f1171a5d591ebdb580bdd229d2e310f1a09f05);
    mkCheckpoint 34000 (uint256S 0x00000009b2312644f10b286934ed982520e92aaa54b2736e46f365a77bd92d98);
    mkCheckpoint 40000 (uint256S 0x000000271909e84a5a31fe60c27a9e40a2a51828efc89c6af059a2db2f6e2576);
    mkCheckpoint 44000 (uint256S 0x0000002751fc99551f4fce1f2e92053b2432788f1dc12412fd81223204d11377);
    mkCheckpoint 54000 (uint256S 0x0000000bb44c964b4e3c6fec8c15941738cd74b434bafbfe4aadce898140b993)]
|}.

Definition Testnet : ChainParams := {|
  network := TESTNET;
  networkMagic := 0xDAB5BFFA;
  chainID := 1001;
  genesisTime := 1774656000;
  genesisNonce := 0;
  genesisNBits := 0x1d00ffff;
  p2pPort := 18444;
  rpcPort := 18332;
  blockTime := 60;
  halvingInterval := 210000;
  difficultyAdjustment := 2016;
  difficultyAdjustmentV2 := 360;
  difficultyForkHeight := 0;
  difficultyMaxChange := 2;
  difficultyV3ForkHeight := 0;
  maxBlockSize := MAX_BLOCK_SIZE;
  initialReward := 50 * 100000000;
  fPowAllowMinDifficultyBlocks := true;
  edaActivationHeight := 0;
  dfmpActivationHeight := 0;
  dfmpAssumeValidHeight := 86850;
  dfmpV3ActivationHeight := 87000;
  registrationPowBits := 24;
  dfmpDynamicScalingHeight := 0;
  dfmpV31ActivationHeight := 0;
  dfmpV32ActivationHeight := 0;
  dfmpV33ActivationHeight := 0;
  dfmpV34ActivationHeight := 999999999;
  compactEncodingFixHeight := 0;
  nOutboundFullRelayTarget := 8;
  nOutboundBlockRelayTarget := 2;
  nMapBlockIndexCap := 500000;
  asertActivationHeight := 999999999;
  asertHalflife := 8640;
  timestampValidationHeight := 0;
  vdfActivationHeight := 0;
  vdfExclusiveHeight := 0;
  vdfIterations := 500000;
  vdfLotteryActivationHeight := 0;
  vdfLotteryGracePeriod := 45;
  vdfMinBlockTime := 0;
  vdfCooldownActiveWindow := 200;
  dfmpCooldownConsensusHeight := 0;
  stallExemptionV2Height := 0;
  consecutiveMinerCheckHeight := 0;
  consecutiveMinerStallExemptionRetiredHeight := 0;
  soloExemptionLifetimeGateHeight := 0;
  timeBasedCooldownExpiryRetiredHeight := 0;
  timeDecayCooldownActivationHeight := 0;
  cooldownTimeDecaySeconds := 60;
  vdfCooldownShortWindow := 0;
  stabilizationForkHeight := 0;
  mikWindowCapWindow := 480;
  mikWindowCapFloor := 24;
  livenessTimeoutSec := 300;
  minBlockTimestampGap := 45;
  minBlockTimestampGapHeight := 0;
  coinbaseMaturity := 100;
  scriptV2ActivationHeight := 0;
  digitalDnaActivationHeight := 1;
  dnaCommitmentActivationHeight := 999999999;
  dnaHashEnforcementHeight := 999999999;
  trustWeightedNetworkHeight := 999999999;
  dnaRotationActivationHeight := 999999999;
  mikExpirationActivationHeight := 999999999;
  mikExpirationThreshold := 200;
  mikRegistrationRateLimitHeight := 999999999;
  mikRegistrationRateWindow := 50;
  mikRegistrationMaxPerWindow := 5;
  seedAttestationActivationHeight := 999999999;
  attestationDatacenterBan := false;
  seedAttestationRPCPort := 0;
  lifetimeMinerCountAt44232 := 0;
  checkpoints := [
    mkCheckpoint 1000 (uint256S 0x0000cb60f4051a278b03a4133a6cefda689a5788a215c6209b160a9be632b5ca);
    mkCheckpoint 2000 (uint256S 0x000099b421f37840b53ec623a201c817a7ea9fcfa48e69e5c3461727fd92282f);
    mkCheckpoint 3000 (uint256S 0x00002c1ca3bbbd9c7dd7b0903873b36724e1ee31c53f70ab7c81123228d9edb4);
    mkCheckpoint 5000 (uint256S 0x00000e8e96d5571c22a6dbf934cb50b9c27c513d0bdf86d3539a014b59751643);
    mkCheckpoint 10000 (uint256S 0x0001cb679cfe170ba4893cac1b6a3cb22c69dabe4913927a513761a0ad788e9a);
    mkCheckpoint 20000 (uint256S 0x000adc0c364bed2b4f2247961d852d19d5432b8363e801df24045258a6730b3c);
    mkCheckpoint 40000 (uint256S 0x0007eb5ab7d4a2086d5cc554ce7bbd7866c8ca5791e4ab1cedf631d04803f015);
    mkCheckpoint 60000 (uint256S 0x0003d271d83c1fc66bb2af7cf8f16207034c8f80ec918f119a51ccb4203aadc7);
    mkCheckpoint 80000 (uint256S 0x000a18c94a5bd98403807aff7260c5671079be0d822bdc0815916d8b6fed718e);
    mkCheckpoint 86000 (uint256S 0x00001432d1653a47059b1aa78e71b9cbe69720555cdea55473412d97f74cb3dd)]
|}.

Definition DilV : ChainParams := {|
  network := DILV;
  networkMagic := 0xD17FD100;
  chainID := 2;
  genesisTime := 1774656000;
  genesisNonce := 0;
  genesisNBits := 0x1d00ffff;
  p2pPort := 9444;
  rpcPort := 9332;
  blockTime := 45;
  halvingInterval := 1050000;
  difficultyAdjustment := 0;
  difficultyAdjustmentV2 := 0;
  difficultyForkHeight := 999999999;
  difficultyMaxChange := 0;
  difficultyV3ForkHeight := 999999999;
  maxBlockSize := MAX_BLOCK_SIZE;
  initialReward := 100 * 100000000;
  fPowAllowMinDifficultyBlocks := false;
  edaActivationHeight := -1;
  dfmpActivationHeight := 0;
  dfmpAssumeValidHeight := 44233;
  dfmpV3ActivationHeight := 0;
  registrationPowBits := 28;
  dfmpDynamicScalingHeight := 0;
  dfmpV31ActivationHeight := 0;
  dfmpV32ActivationHeight := 0;
  dfmpV33ActivationHeight := 0;
  dfmpV34ActivationHeight := 999999999;
  compactEncodingFixHeight := 0;
  nOutboundFullRelayTarget := 8;
  nOutboundBlockRelayTarget := 4;
  nMapBlockIndexCap := 5000000;
  asertActivationHeight := 999999999;
  asertHalflife := 0;
  timestampValidationHeight := 0;
  vdfActivationHeight := 0;
  vdfExclusiveHeight := 0;
  vdfIterations := 500000;
  vdfLotteryActivationHeight := 0;
  vdfLotteryGracePeriod := 45;
  vdfMinBlockTime := 0;
  vdfCooldownActiveWindow := 200;
  dfmpCooldownConsensusHeight := 0;
  stallExemptionV2Height := 0;
  consecutiveMinerCheckHeight := 0;
  consecutiveMinerStallExemptionRetiredHeight := 44233;
  soloExemptionLifetimeGateHeight := 44233;
  timeBasedCooldownExpiryRetiredHeight := 44233;
  timeDecayCooldownActivationHeight := 44250;
  cooldownTimeDecaySeconds := 60;
  vdfCooldownShortWindow := 0;
  stabilizationForkHeight := 0;
  mikWindowCapWindow := 480;
  mikWindowCapFloor := 24;
  livenessTimeoutSec := 300;
  minBlockTimestampGap := 45;
  minBlockTimestampGapHeight := 37000;
  coinbaseMaturity := 6;
  scriptV2ActivationHeight := 0;
  digitalDnaActivationHeight := 0;
  dnaCommitmentActivationHeight := 0;
  dnaHashEnforcementHeight := 999999999;
  trustWeightedNetworkHeight := 999999999;
  dnaRotationActivationHeight := 999999999;
  mikExpirationActivationHeight := 999999999;
  mikExpirationThreshold := 5760;
  mikRegistrationRateLimitHeight := 999999999;
  mikRegistrationRateWindow := 200;
  mikRegistrationMaxPerWindow := 10;
  seedAttestationActivationHeight := 2000;
  attestationDatacenterBan := true;
  seedAttestationRPCPort := 9332;
  lifetimeMinerCountAt44232 := 255;
  checkpoints := [
    mkCheckpoint 500 (uint256S 0x88c3760b617f4295176a76871acc60904e8dfc9ccd62d6d460475c520a039f1e);
    mkCheckpoint 1000 (uint256S 0x9884fa2d1fcd8b2c7b5c3b49a6aa6c11c60a467ad93048cd871d0ebba42cc81e);
    mkCheckpoint 1500 (uint256S 0x3fd46e642ef3b8a4a0ba29c80293dff82956bb10dedc26f6679045994d2b97de);
    mkCheckpoint 2000 (uint256S 0x6b7f65e2e1c9171ec26dd68bf49b44c72eb1b6ad819b08864f79d9e48136d1a6);
    mkCheckpoint 2500 (uint256S 0x05dff2b9b58ab6145e8345f103a12fd605a71092c7113527acc743d58d34f233);
    mkCheckpoint 2632 (uint256S 0x7e250f5f24081906aeea465c546a371937812939dc00ead70a9621f897619caf);
    mkCheckpoint 2700 (uint256S 0x475d9fcb367c512c65eb24d6feb962c3eaafb847a3c45265d108863cadbf4a0f);
    mkCheckpoint 2800 (uint256S 0xdda53ab45040a889457f21bd828fc82b3c81dfc797be671e157d9e4d8c6438fa);
    mkCheckpoint 2900 (uint256S 0xa0ce1e87001b1440837bfc3c2d2be8f481f68bf85cb9038b4a89360d9497be3e);
    mkCheckpoint 2935 (uint256S 0x64abd9e3f640b683145e2a8fe10339573c658da53457611817c4b10a642698ee);
    mkCheckpoint 2949 (uint256S 0xd8d2c97abb1d6e5aa15285ece31b44d6e9b779fcf97abfff65dfee62542938a0);
    mkCheckpoint 2951 (uint256S 0x31cfe3012d8fe67482ed99474433c4f365d89c76003c90adf11e5fcd49438077);
    mkCheckpoint 2961 (uint256S 0x0727d34f6604ec5f4c1efe92825f8b5c7f325f65d4a220005cd6f2ee1ee122b2);
    mkCheckpoint 8000 (uint256S 0x9453c0150d81df7785c4b95c4ca50df75a1a561f092192a8ca55c15507397876);
    mkCheckpoint 8370 (uint256S 0xef1e3a7de515523cde0b224865b26dc049c92033bc5a86b31e0e32cd1ca852be);
    mkCheckpoint 15000 (uint256S 0x45f5877adcc1ec2dab453412d6a5cb3fd9383fc97a184aa4ec855db55212f5d6);
    mkCheckpoint 18700 (uint256S 0x1fbcf55c40c735596b68772af0072b98342a098bd5c1ff0b3bb26423720e9295);
    mkCheckpoint 36500 (uint256S 0x3a6c72ee0ac27508fe82b76ed561dc93bc52ee5a26825cbf3f693bbc7070fd63);
    mkCheckpoint 44233 (uint256S 0x927a1e79a410e73c1778dd3eaebae1c07ce5271431abffa9b62a6f6b3177e373);
    mkCheckpoint 47500 (uint256S 0x1094f7ca0197845a120a5440ce01c88e65b72f84f42a456f29e43c81b0cddbce);
    mkCheckpoint 49000 (uint256S 0xde4316096f6993e4263c562130317810011ecc9f14f20b49022fefa6e8d28f17);
    mkCheckpoint 67000 (uint256S 0xc929e38f1709c04c3174627edfe03c57eefdc36846d9d74ab32f899979205eff)]
|}.

(** [ChainParams params = Testnet();] followed by the overrides. *)
Definition Regtest : ChainParams := {|
  network := REGTEST;
  networkMagic := 0xDA8FB5BB;
  chainID := 9999;
  genesisTime := genesisTime Testnet;
  genesisNonce := genesisNonce Testnet;
  genesisNBits := genesisNBits Testnet;
  p2pPort := 19444;
  rpcPort := 19332;
  blockTime := 3;
  halvingInterval := halvingInterval Testnet;
  difficultyAdjustment := difficultyAdjustment Testnet;
  difficultyAdjustmentV2 := difficultyAdjustmentV2 Testnet;
  difficultyForkHeight := difficultyForkHeight Testnet;
  difficultyMaxChange := difficultyMaxChange Testnet;
  difficultyV3ForkHeight := difficultyV3ForkHeight Testnet;
  maxBlockSize := maxBlockSize Testnet;
  initialReward := initialReward Testnet;
  fPowAllowMinDifficultyBlocks := fPowAllowMinDifficultyBlocks Testnet;
  edaActivationHeight := edaActivationHeight Testnet;
  dfmpActivationHeight := dfmpActivationHeight Testnet;
  dfmpAssumeValidHeight := dfmpAssumeValidHeight Testnet;
  dfmpV3ActivationHeight := dfmpV3ActivationHeight Testnet;
  registrationPowBits := registrationPowBits Testnet;
  dfmpDynamicScalingHeight := dfmpDynamicScalingHeight Testnet;
  dfmpV31ActivationHeight := dfmpV31ActivationHeight Testnet;
  dfmpV32ActivationHeight := dfmpV32ActivationHeight Testnet;
  dfmpV33ActivationHeight := dfmpV33ActivationHeight Testnet;
  dfmpV34ActivationHeight := dfmpV34ActivationHeight Testnet;
  compactEncodingFixHeight := compactEncodingFixHeight Testnet;
  nOutboundFullRelayTarget := nOutboundFullRelayTarget Testnet;
  nOutboundBlockRelayTarget := nOutboundBlockRelayTarget Testnet;
  nMapBlockIndexCap := 1000;
  asertActivationHeight := asertActivationHeight Testnet;
  asertHalflife := asertHalflife Testnet;
  timestampValidationHeight := timestampValidationHeight Testnet;
  vdfActivationHeight := vdfActivationHeight Testnet;
  vdfExclusiveHeight := vdfExclusiveHeight Testnet;
  vdfIterations := 50000;
  vdfLotteryActivationHeight := vdfLotteryActivationHeight Testnet;
  vdfLotteryGracePeriod := 3;
  vdfMinBlockTime := vdfMinBlockTime Testnet;
  vdfCooldownActiveWindow := vdfCooldownActiveWindow Testnet;
  dfmpCooldownConsensusHeight := dfmpCooldownConsensusHeight Testnet;
  stallExemptionV2Height := stallExemptionV2Height Testnet;
  consecutiveMinerCheckHeight := consecutiveMinerCheckHeight Testnet;
  consecutiveMinerStallExemptionRetiredHeight := consecutiveMinerStallExemptionRetiredHeight Testnet;
  soloExemptionLifetimeGateHeight := soloExemptionLifetimeGateHeight Testnet;
  timeBasedCooldownExpiryRetiredHeight := 999999999;
  timeDecayCooldownActivationHeight := 999999999;
  cooldownTimeDecaySeconds := 60;
  vdfCooldownShortWindow := vdfCooldownShortWindow Testnet;
  stabilizationForkHeight := stabilizationForkHeight Testnet;
  mikWindowCapWindow := mikWindowCapWindow Testnet;
  mikWindowCapFloor := mikWindowCapFloor Testnet;
  livenessTimeoutSec := livenessTimeoutSec Testnet;
  minBlockTimestampGap := 0;
  minBlockTimestampGapHeight := 0;
  coinbaseMaturity := coinbaseMaturity Testnet;
  scriptV2ActivationHeight := scriptV2ActivationHeight Testnet;
  digitalDnaActivationHeight := digitalDnaActivationHeight Testnet;
  dnaCommitmentActivationHeight := dnaCommitmentActivationHeight Testnet;
  dnaHashEnforcementHeight := dnaHashEnforcementHeight Testnet;
  trustWeightedNetworkHeight := trustWeightedNetworkHeight Testnet;
  dnaRotationActivationHeight := dnaRotationActivationHeight Testnet;
  mikExpirationActivationHeight := mikExpirationActivationHeight Testnet;
  mikExpirationThreshold := mikExpirationThreshold Testnet;
  mikRegistrationRateLimitHeight := mikRegistrationRateLimitHeight Testnet;
  mikRegistrationRateWindow := mikRegistrationRateWindow Testnet;
  mikRegistrationMaxPerWindow := mikRegistrationMaxPerWindow Testnet;
  seedAttestationActivationHeight := seedAttestationActivationHeight Testnet;
  attestationDatacenterBan := attestationDatacenterBan Testnet;
  seedAttestationRPCPort := seedAttestationRPCPort Testnet;
  lifetimeMinerCountAt44232 := lifetimeMinerCountAt44232 Testnet;
  checkpoints := []
|}.

Definition IsMainnet (p : ChainParams) : bool := bool_decide (network p = MAINNET).
Definition IsTestnet (p : ChainParams) : bool := bool_decide (network p = TESTNET).
Definition IsDilV (p : ChainParams) : bool := bool_decide (network p = DILV).
Definition IsRegtest (p : ChainParams) : bool := bool_decide (network p = REGTEST).

(** The loop of [GetLastCheckpoint]: [result] is the best checkpoint so far. *)
Fixpoint GetLastCheckpoint_loop (height : Z) (result : option CCheckpoint)
    (cps : list CCheckpoint) : option CCheckpoint :=
  match cps with
  | [] => result
  | cp :: cps' =>
      let result' :=
        if cp_nHeight cp <=? height then
          match result with
          | None => Some cp
          | Some r => if cp_nHeight cp >? cp_nHeight r then Some cp else result
          end
        else result in
      GetLastCheckpoint_loop height result' cps'
  end.

Definition GetLastCheckpoint (p : ChainParams) (height : Z) : option CCheckpoint :=
  GetLastCheckpoint_loop height None (checkpoints p).

Fixpoint CheckpointCheck_loop (height : Z) (hash : uint256) (cps : list CCheckpoint) : bool :=
  match cps with
  | [] => true
  | cp :: cps' =>
      if cp_nHeight cp =? height then bool_decide (cp_hashBlock cp = hash)
      else CheckpointCheck_loop height hash cps'
  end.

Definition CheckpointCheck (p : ChainParams) (height : Z) (hash : uint256) : bool :=
  CheckpointCheck_loop height hash (checkpoints p).

Fixpoint GetHighestCheckpointHeight_loop (highest : Z) (cps : list CCheckpoint) : Z :=
  match cps with
  | [] => highest
  | cp :: cps' =>
      GetHighestCheckpointHeight_loop
        (if cp_nHeight cp >? highest then cp_nHeight cp else highest) cps'
  end.

Definition GetHighestCheckpointHeight (p : ChainParams) : Z :=
  GetHighestCheckpointHeight_loop (-1) (checkpoints p).
(** ** Correctness of the checkpoint queries *)

Lemma CheckpointCheck_loop_spec h hash cps :
  NoDup (cp_nHeight <$> cps) ->
  CheckpointCheck_loop h hash cps = true <->
  (forall cp, cp ∈ cps -> cp_nHeight cp = h -> cp_hashBlock cp = hash).
Proof.
  induction cps as [|cp cps IH]; simpl; intros ND.
  { split; [intros _ c Hc; inversion Hc | done]. }
  apply NoDup_cons in ND as [Hni ND'].
  destruct (Z.eqb_spec (cp_nHeight cp) h) as [<-|Hne].
  - rewrite bool_decide_eq_true. split.
    + intros He c [->|Hc]%elem_of_cons Hh; [done|].
      exfalso. apply Hni. apply list_elem_of_fmap. exists c. split; [congruence|done].
    + intros Hall. apply Hall; [left|done].
  - rewrite IH by done. split; intros Hall c Hc Hh.
    + apply elem_of_cons in Hc as [->|Hc]; [done|]. by apply Hall.
    + apply Hall; [by right|done].
Qed.

(** The state of the scan: the best checkpoint not above [h] seen so far. *)
Definition best_checkpoint (h : Z) (cps : list CCheckpoint) (r : option CCheckpoint) : Prop :=
  match r with
  | Some c => c ∈ cps /\ cp_nHeight c <= h /\
      (forall d, d ∈ cps -> cp_nHeight d <= h -> cp_nHeight d <= cp_nHeight c)
  | None => forall d, d ∈ cps -> h < cp_nHeight d
  end.

Lemma GetLastCheckpoint_loop_spec h cps : forall seen r,
  best_checkpoint h seen r ->
  best_checkpoint h (seen ++ cps) (GetLastCheckpoint_loop h r cps).
Proof.
  induction cps as [|cp cps IH]; simpl; intros seen r Hr.
  { by rewrite app_nil_r. }
  replace (seen ++ cp :: cps) with ((seen ++ [cp]) ++ cps) by (by rewrite <- app_assoc).
  apply IH. unfold best_checkpoint in *.
  repeat first [zcase | case_match]; simplify_eq;
    try (destruct Hr as (Hin & Hle & Hmax));
    rewrite ?elem_of_app, ?list_elem_of_singleton;
    repeat split; try lia; try tauto;
    intros d [Hd| ->%list_elem_of_singleton]%elem_of_app; try intros ?; try lia;
    first [specialize (Hmax d Hd) | specialize (Hr d Hd) | idtac]; try lia.
Qed.

Lemma GetHighestCheckpointHeight_loop_spec cps : forall m,
  m <= GetHighestCheckpointHeight_loop m cps /\
  (forall cp, cp ∈ cps -> cp_nHeight cp <= GetHighestCheckpointHeight_loop m cps) /\
  (GetHighestCheckpointHeight_loop m cps = m \/
   exists cp, cp ∈ cps /\ GetHighestCheckpointHeight_loop m cps = cp_nHeight cp).
Proof.
  induction cps as [|cp cps IH]; simpl; intros m.
  { split_and!; [lia| intros c Hc; inversion Hc | by left]. }
  destruct (IH (if cp_nHeight cp >? m then cp_nHeight cp else m)) as (H1 & H2 & H3).
  split_and!.
  - zcases.
  - intros c [->|Hc]%elem_of_cons; [zcases | by apply H2].
  - destruct H3 as [H3|(c & Hc & H3)].
    + rewrite H3. zcase; [right; exists cp; split; [left|done] | by left].
    + right. exists c. split; [by right | done].
Qed.

(** the checkpoint queries of a parameter set with distinct checkpoint
    heights: [CheckpointCheck] accepts a hash at a height exactly when it
    agrees with every checkpoint there, [GetLastCheckpoint] returns the
    highest checkpoint not above the height (none exactly when all are above),
    and [GetHighestCheckpointHeight] bounds every checkpoint and is -1 or the
    height of one. *)
Theorem checkpoint_queries_correct (p : ChainParams) (h : Z) (hash : uint256)
    (HND : NoDup (cp_nHeight <$> checkpoints p)) :
  (CheckpointCheck p h hash = true <->
     (forall cp, cp ∈ checkpoints p -> cp_nHeight cp = h -> cp_hashBlock cp = hash)) /\
  best_checkpoint h (checkpoints p) (GetLastCheckpoint p h) /\
  (forall cp, cp ∈ checkpoints p -> cp_nHeight cp <= GetHighestCheckpointHeight p) /\
  (GetHighestCheckpointHeight p = -1 \/
   exists cp, cp ∈ checkpoints p /\ GetHighestCheckpointHeight p = cp_nHeight cp).
Proof.
  split_and!.
  - by apply CheckpointCheck_loop_spec.
  - apply (GetLastCheckpoint_loop_spec h (checkpoints p) [] None).
    intros d Hd. inversion Hd.
  - apply GetHighestCheckpointHeight_loop_spec.
  - apply GetHighestCheckpointHeight_loop_spec.
Qed.

Lemma checkpoint_queries_correct_witness :
  GetHighestCheckpointHeight DilV = 67000 /\
  best_checkpoint 44000 (checkpoints DilV) (GetLastCheckpoint DilV 44000).
Proof.
  split; [vm_compute; reflexivity|].
  apply (checkpoint_queries_correct DilV 44000 zero256).
  apply (bool_decide_unpack _). vm_compute. exact I.
Defined.
