(* ===== verification/Block.v ===== *)
(** * Block headers (primitives/block.h, primitives/block.cpp)

    [CBlockHeader] with its hash cache, the version-aware header encoding and
    the two hash functions.  SHA3-256 and RandomX are third-party code: they
    are section variables. *)

From S2P Require Import Prelude Uint256.

Record CBlockHeader := mkHeader {
  nVersion : Z;
  hashPrevBlock : uint256;
  hashMerkleRoot : uint256;
  hnTime : Z;
  hnBits : Z;
  nNonce : Z;
  vdfOutput : uint256;
  vdfProofHash : uint256;
  cachedHash : uint256;
  fHashCached : bool
}.

(** A header and the encoded transactions. *)
Record CBlock := mkBlock { block_header : CBlockHeader; vtx : list Z }.

Definition VDF_VERSION : Z := 4.

Definition Header_SetNull : CBlockHeader :=
  mkHeader 0 zero256 zero256 0 0 0 zero256 zero256 zero256 false.

Definition Header_IsNull (h : CBlockHeader) : bool := hnBits h =? 0.

Definition IsVDFBlock (h : CBlockHeader) : bool := nVersion h >=? VDF_VERSION.

Definition GetHeaderSize (h : CBlockHeader) : nat := if IsVDFBlock h then 144 else 80.

(** The bytes of an integer object: x86-64 stores it little-endian. *)
Definition bytes32 (x : Z) : list Z := le_bytes 4 (u32 x).

Definition SerializeHeader (h : CBlockHeader) : list Z :=
  bytes32 (nVersion h) ++ hashPrevBlock h ++ hashMerkleRoot h ++
  bytes32 (hnTime h) ++ bytes32 (hnBits h) ++ bytes32 (nNonce h) ++
  (if IsVDFBlock h then vdfOutput h ++ vdfProofHash h else []).

Definition InvalidateCache (h : CBlockHeader) : CBlockHeader :=
  mkHeader (nVersion h) (hashPrevBlock h) (hashMerkleRoot h) (hnTime h) (hnBits h)
    (nNonce h) (vdfOutput h) (vdfProofHash h) (cachedHash h) false.

Section Hash.
  Variable SHA3_256 : list Z -> uint256.
  Variable randomx_hash_fast : list Z -> uint256.

(** The hash the header denotes, with no cache. *)
Definition header_hash (h : CBlockHeader) : uint256 :=
  if IsVDFBlock h then SHA3_256 (SerializeHeader h)
  else randomx_hash_fast (SerializeHeader h).

(** [GetHash]: the result and the header with its [mutable] cache updated. *)
Definition GetHash (h : CBlockHeader) : uint256 * CBlockHeader :=
  if fHashCached h then (cachedHash h, h)
  else
    let result := header_hash h in
    (result,
     mkHeader (nVersion h) (hashPrevBlock h) (hashMerkleRoot h) (hnTime h) (hnBits h)
       (nNonce h) (vdfOutput h) (vdfProofHash h) result true).

Definition GetFastHash (h : CBlockHeader) : uint256 := SHA3_256 (SerializeHeader h).

(** The cache is either empty or holds the hash of the current fields. *)
Definition cache_ok (h : CBlockHeader) : Prop :=
  fHashCached h = true -> cachedHash h = header_hash h.

(** Assigning a header field is a sequence of field updates; the code's
    discipline is to call [InvalidateCache] afterwards. *)
Definition set_nonce (h : CBlockHeader) (n : Z) : CBlockHeader :=
  mkHeader (nVersion h) (hashPrevBlock h) (hashMerkleRoot h) (hnTime h) (hnBits h)
    n (vdfOutput h) (vdfProofHash h) (cachedHash h) (fHashCached h).

Lemma GetHash_fst h : cache_ok h -> fst (GetHash h) = header_hash h.
Proof. unfold GetHash, cache_ok. destruct (fHashCached h); simpl; auto. Qed.

Lemma GetHash_snd h : cache_ok h -> cache_ok (snd (GetHash h)).
Proof.
  unfold GetHash, cache_ok. destruct (fHashCached h) eqn:E; simpl; rewrite ?E; auto.
Qed.

(** the header hash cache is transparent: on a header whose cache is
    empty or current, [GetHash] returns the SHA3-256 hash (version >= 4) or
    the RandomX hash (legacy) of the encoded header, leaves a header whose
    cache is current and whose encoding is unchanged, and after any nonce
    change followed by [InvalidateCache] it returns the hash of the new
    header. *)
Theorem GetHash_cache_transparent (h : CBlockHeader) (n : Z) (Hc : cache_ok h) :
  fst (GetHash h) = header_hash h /\
  cache_ok (snd (GetHash h)) /\
  SerializeHeader (snd (GetHash h)) = SerializeHeader h /\
  fst (GetHash (snd (GetHash h))) = fst (GetHash h) /\
  fst (GetHash (InvalidateCache (set_nonce (snd (GetHash h)) n))) =
    header_hash (set_nonce h n).
Proof.
  split_and!.
  - by apply GetHash_fst.
  - by apply GetHash_snd.
  - unfold GetHash. by destruct (fHashCached h).
  - unfold GetHash at 2. destruct (fHashCached h) eqn:E; simpl; [done|].
    unfold GetHash. by rewrite E.
  - unfold GetHash. by destruct (fHashCached h).
Qed.
End Hash.

(** ** The encoding determines the header *)

Definition header_wf (h : CBlockHeader) : Prop :=
  - 2 ^ 31 <= nVersion h < 2 ^ 31 /\
  u256_wf (hashPrevBlock h) /\ u256_wf (hashMerkleRoot h) /\
  0 <= hnTime h < 2 ^ 32 /\ 0 <= hnBits h < 2 ^ 32 /\ 0 <= nNonce h < 2 ^ 32 /\
  u256_wf (vdfOutput h) /\ u256_wf (vdfProofHash h).

Lemma length_bytes32 x : length (bytes32 x) = 4%nat.
Proof. apply length_le_bytes. Qed.

Lemma bytes32_inj_u x y :
  0 <= x < 2 ^ 32 -> 0 <= y < 2 ^ 32 -> bytes32 x = bytes32 y -> x = y.
Proof.
  unfold bytes32. intros Hx Hy E. rewrite !u32_small in E by done.
  apply (f_equal le_val) in E. rewrite !le_val_le_bytes in E.
  change (256 ^ Z.of_nat 4) with (2 ^ 32) in E. rewrite !Z.mod_small in E; lia.
Qed.

Lemma bytes32_inj_i x y :
  - 2 ^ 31 <= x < 2 ^ 31 -> - 2 ^ 31 <= y < 2 ^ 31 -> bytes32 x = bytes32 y -> x = y.
Proof.
  intros Hx Hy E.
  assert (u32 x = u32 y) as E'.
  { apply bytes32_inj_u; [apply u32_range..|]. unfold bytes32 in *.
    rewrite (u32_small (u32 x)), (u32_small (u32 y)) by apply u32_range. done. }
  apply (f_equal i32) in E'. rewrite !i32_u32, !i32_small in E'; lia.
Qed.

(** Two headers with the same meaning: equal up to the cache, and up to the
    VDF fields on legacy headers, which do not carry them. *)
Definition same_header (a b : CBlockHeader) : Prop :=
  nVersion a = nVersion b /\ hashPrevBlock a = hashPrevBlock b /\
  hashMerkleRoot a = hashMerkleRoot b /\ hnTime a = hnTime b /\ hnBits a = hnBits b /\
  nNonce a = nNonce b /\
  (IsVDFBlock a = true -> vdfOutput a = vdfOutput b /\ vdfProofHash a = vdfProofHash b).

(** the header encoding is faithful: it has the size [GetHeaderSize]
    announces (80 bytes, 144 for VDF headers), and two well-formed headers
    with the same encoding agree on every field the encoding carries. *)
Theorem SerializeHeader_faithful (a b : CBlockHeader)
    (Ha : header_wf a) (Hb : header_wf b) :
  length (SerializeHeader a) = GetHeaderSize a /\
  (SerializeHeader a = SerializeHeader b <-> same_header a b).
Proof.
  destruct Ha as (Ha1 & [Ha2 _] & [Ha3 _] & Ha4 & Ha5 & Ha6 & [Ha7 _] & [Ha8 _]).
  destruct Hb as (Hb1 & [Hb2 _] & [Hb3 _] & Hb4 & Hb5 & Hb6 & [Hb7 _] & [Hb8 _]).
  split.
  { unfold SerializeHeader, GetHeaderSize. rewrite !length_app, !length_bytes32.
    destruct (IsVDFBlock a); rewrite ?length_app; simpl; lia. }
  unfold SerializeHeader, same_header. split.
  - intros E.
    apply app_inj_1 in E as [E1 E]; [|by rewrite !length_bytes32].
    apply app_inj_1 in E as [E2 E]; [|lia].
    apply app_inj_1 in E as [E3 E]; [|lia].
    apply app_inj_1 in E as [E4 E]; [|by rewrite !length_bytes32].
    apply app_inj_1 in E as [E5 E]; [|by rewrite !length_bytes32].
    apply app_inj_1 in E as [E6 E]; [|by rewrite !length_bytes32].
    assert (nVersion a = nVersion b) as EV by (by apply bytes32_inj_i).
    split_and!; try done; try (by apply bytes32_inj_u).
    intros HV. unfold IsVDFBlock in *. rewrite <- EV, HV in E.
    apply app_inj_1 in E; [done | lia].
  - intros (E1 & E2 & E3 & E4 & E5 & E6 & E7).
    rewrite <- E1, <- E2, <- E3, <- E4, <- E5, <- E6.
    unfold IsVDFBlock in *. rewrite <- E1.
    destruct (nVersion a >=? VDF_VERSION); [|done].
    destruct (E7 eq_refl) as [-> ->]. done.
Qed.

Definition sample_header : CBlockHeader :=
  mkHeader 4 zero256 zero256 1774656000 0x1d00ffff 7 zero256 zero256 zero256 false.

Lemma sample_header_wf : header_wf sample_header.
Proof.
  assert (u256_wf zero256) by (split; [done | by apply Forall_replicate]).
  unfold header_wf; simpl. split_and!; try done; lia.
Qed.

Lemma SerializeHeader_faithful_witness :
  length (SerializeHeader sample_header) = 144%nat.
Proof.
  apply (SerializeHeader_faithful sample_header sample_header);
    apply sample_header_wf.
Defined.

Lemma GetHash_cache_transparent_witness :
  let sha := fun l : list Z => le_bytes 32 (le_val l) in
  fst (GetHash sha sha sample_header) = header_hash sha sha sample_header.
Proof.
  intros sha. apply (GetHash_cache_transparent sha sha sample_header 0).
  intros H. discriminate H.
Defined.
