(* ===== verification/BlockIndex.v ===== *)
(** * The block index (node/block_index.h, node/block_index.cpp)

    [CBlockIndex] objects live in a store keyed by addresses, because the
    code links them with raw pointers: [pprev], [pnext] and [pskip] are
    [option addr], [None] the null pointer.  An outer [option] is the run-time
    outcome: [None] is a dereference of an address the store does not hold (or
    a loop that exhausts its fuel), which the theorems rule out. *)

From S2P Require Import Prelude Uint256 Block.

Abbreviation addr := positive.

Record CBlockIndex := mkIndex {
  header : CBlockHeader;
  pprev : option addr;
  pnext : option addr;
  pskip : option addr;
  nHeight : Z;
  nFile : Z;
  nDataPos : Z;
  nUndoPos : Z;
  nChainWork : uint256;
  nTx : Z;
  nStatus : Z;
  nSequenceId : Z;
  nTime : Z;
  nBits : Z;
  inNonce : Z;
  inVersion : Z;
  phashBlock : uint256
}.

Abbreviation index_store := (gmap addr CBlockIndex).

(** [CBlockIndex(const CBlockHeader&)] *)
Definition CBlockIndex_of_header (block : CBlockHeader) : CBlockIndex :=
  mkIndex block None None None 0 0 0 0 zero256 0 0 0
    (hnTime block) (hnBits block) (nNonce block) (nVersion block) zero256.

Definition GetBlockHash (b : CBlockIndex) : uint256 :=
  if IsNull (phashBlock b) then zero256 else phashBlock b.

(** ** Block status *)

Definition BLOCK_VALID_HEADER : Z := 1.
Definition BLOCK_VALID_TRANSACTIONS : Z := 3.
Definition BLOCK_VALID_MASK : Z := 0x07.
Definition BLOCK_HAVE_DATA : Z := 0x08.
Definition BLOCK_FAILED_VALID : Z := 0x20.
Definition BLOCK_FAILED_CHILD : Z := 0x40.
Definition BLOCK_FAILED_MASK : Z := Z.lor BLOCK_FAILED_VALID BLOCK_FAILED_CHILD.

Definition IsValid (b : CBlockIndex) : bool :=
  Z.land (nStatus b) BLOCK_VALID_MASK >=? BLOCK_VALID_HEADER.
Definition HaveData (b : CBlockIndex) : bool :=
  negb (Z.land (nStatus b) BLOCK_HAVE_DATA =? 0).
Definition IsInvalid (b : CBlockIndex) : bool :=
  negb (Z.land (nStatus b) BLOCK_FAILED_MASK =? 0).
Definition IsOnMainChain (b : CBlockIndex) : bool := bool_decide (is_Some (pnext b)).

Definition set_nStatus (b : CBlockIndex) (s : Z) : CBlockIndex :=
  mkIndex (header b) (pprev b) (pnext b) (pskip b) (nHeight b) (nFile b) (nDataPos b)
    (nUndoPos b) (nChainWork b) (nTx b) s (nSequenceId b) (nTime b) (nBits b)
    (inNonce b) (inVersion b) (phashBlock b).

Definition set_nChainWork (b : CBlockIndex) (w : uint256) : CBlockIndex :=
  mkIndex (header b) (pprev b) (pnext b) (pskip b) (nHeight b) (nFile b) (nDataPos b)
    (nUndoPos b) w (nTx b) (nStatus b) (nSequenceId b) (nTime b) (nBits b)
    (inNonce b) (inVersion b) (phashBlock b).

(** [RaiseValidity]: the returned flag and the updated object.
    [~BLOCK_VALID_MASK] is the 32-bit complement. *)
Definition RaiseValidity (b : CBlockIndex) (level : Z) : bool * CBlockIndex :=
  let level := Z.land level BLOCK_VALID_MASK in
  if Z.land (nStatus b) BLOCK_VALID_MASK <? level then
    (true, set_nStatus b
             (Z.lor (Z.land (nStatus b) (2 ^ 32 - 1 - BLOCK_VALID_MASK)) level))
  else (false, b).

Definition MarkBlockReceived (b : CBlockIndex) : CBlockIndex :=
  let b := set_nStatus b (Z.lor (nStatus b) BLOCK_HAVE_DATA) in
  snd (RaiseValidity b BLOCK_VALID_TRANSACTIONS).

(** ** Chain work *)

Definition GetBlockProof (b : CBlockIndex) : uint256 := ComputeChainWork (nBits b).

Definition BuildChainWork (st : index_store) (p : addr) : option index_store :=
  b ← st !! p;
  match pprev b with
  | None => Some (<[p := set_nChainWork b (GetBlockProof b)]> st)
  | Some q =>
      prev ← st !! q;
      Some (<[p := set_nChainWork b (AddChainWork (nChainWork prev) (GetBlockProof b))]> st)
  end.

(** ** Ancestor lookup *)

Definition InvertLowestOne (n : Z) : Z := Z.land n (n - 1).

Definition GetSkipHeight (height : Z) : Z :=
  if height <? 2 then 0
  else if negb (Z.land height 1 =? 0)
  then InvertLowestOne (InvertLowestOne (height - 1)) + 1
  else InvertLowestOne height.

(** The [while (heightWalk > height)] loop. *)
Fixpoint GetAncestor_loop (fuel : nat) (st : index_store) (height : Z)
    (pindexWalk : addr) (heightWalk : Z) : option (option addr) :=
  match fuel with
  | O => None
  | S fuel' =>
      if heightWalk >? height then
        let heightSkip := GetSkipHeight heightWalk in
        let heightSkipPrev := GetSkipHeight (heightWalk - 1) in
        b ← st !! pindexWalk;
        (* the pskip test dereferences pskip *)
        skip ← match pskip b with
               | None => Some None
               | Some q =>
                   bq ← st !! q;
                   Some (if (nHeight bq >=? height) || (heightSkip <? heightSkipPrev)
                         then Some (q, nHeight bq) else None)
               end;
        match skip with
        | Some (q, hq) => GetAncestor_loop fuel' st height q hq
        | None =>
            match pprev b with
            | None => Some None
            | Some q => GetAncestor_loop fuel' st height q (heightWalk - 1)
            end
        end
      else Some (Some pindexWalk)
  end.

Definition GetAncestor (st : index_store) (p : addr) (height : Z) : option (option addr) :=
  b ← st !! p;
  if (height >? nHeight b) || (height <? 0) then Some None
  else if height =? nHeight b then Some (Some p)
  else GetAncestor_loop (S (Z.to_nat (nHeight b))) st height p (nHeight b).

(** ** Well-formed stores *)

(** The links the node maintains: heights count the [pprev] links down to a
    genesis block at height 0.  [pskip] is only ever assigned the null pointer
    (or copied from another entry) in the code base. *)
Definition link_wf (st : index_store) (b : CBlockIndex) : Prop :=
  0 <= nHeight b /\
  match pprev b with
  | None => nHeight b = 0
  | Some q => exists bq, st !! q = Some bq /\ nHeight b = nHeight bq + 1
  end.

Definition index_wf (st : index_store) : Prop :=
  map_Forall (fun _ b => link_wf st b /\ pskip b = None) st.

(** The specification of an ancestor: [n] steps along [pprev]. *)
Fixpoint pprev_walk (st : index_store) (p : addr) (n : nat) : option addr :=
  match n with
  | O => Some p
  | S n' => b ← st !! p; q ← pprev b; pprev_walk st q n'
  end.

Lemma pprev_walk_total st : index_wf st -> forall n p b,
  st !! p = Some b -> Z.of_nat n <= nHeight b ->
  exists q bq, pprev_walk st p n = Some q /\ st !! q = Some bq /\
    nHeight bq = nHeight b - Z.of_nat n.
Proof.
  intros Hwf n. induction n as [|n IH]; intros p b Hp Hn; simpl.
  { exists p, b. split_and!; [done..|lia]. }
  rewrite Hp. simpl. destruct (Hwf p b Hp) as [[H0 Hl] _].
  destruct (pprev b) as [q|]; [|lia]. destruct Hl as (bq & Hq & Hh). simpl.
  destruct (IH q bq Hq ltac:(lia)) as (r & br & Hr & Hbr & Hhr).
  exists r, br. split_and!; [done..|lia].
Qed.

Lemma GetAncestor_loop_walk st : index_wf st -> forall fuel p b height,
  st !! p = Some b -> 0 <= height <= nHeight b -> (Z.to_nat (nHeight b - height) < fuel)%nat ->
  GetAncestor_loop fuel st height p (nHeight b) =
    Some (pprev_walk st p (Z.to_nat (nHeight b - height))).
Proof.
  intros Hwf fuel. induction fuel as [|fuel IH]; intros p b height Hp Hh Hf; [lia|].
  cbn [GetAncestor_loop]. rewrite Z.gtb_ltb. destruct (Z.ltb_spec height (nHeight b)).
  - rewrite Hp. simpl. destruct (Hwf p b Hp) as [[H0 Hl] ->]. simpl.
    replace (Z.to_nat (nHeight b - height))
      with (S (Z.to_nat (nHeight b - 1 - height))) by lia.
    simpl. rewrite Hp. simpl.
    destruct (pprev b) as [q|]; simpl; [|done].
    destruct Hl as (bq & Hq & Hb). replace (nHeight b - 1) with (nHeight bq) by lia.
    apply IH; [done|lia|lia].
  - replace (nHeight b - height) with 0 by lia. done.
Qed.

Lemma GetAncestor_walk st p b height :
  index_wf st -> st !! p = Some b ->
  GetAncestor st p height =
    Some (if (0 <=? height) && (height <=? nHeight b)
          then pprev_walk st p (Z.to_nat (nHeight b - height)) else None).
Proof.
  intros Hwf Hp. unfold GetAncestor. rewrite Hp. cbn [mbind option_bind].
  destruct (Hwf p b Hp) as [[H0 _] _].
  rewrite Z.gtb_ltb. destruct (Z.ltb_spec (nHeight b) height).
  { rewrite (proj2 (Z.leb_gt height (nHeight b))), andb_false_r by lia. done. }
  destruct (Z.ltb_spec height 0).
  { rewrite (proj2 (Z.leb_gt 0 height)) by lia. done. }
  rewrite (proj2 (Z.leb_le 0 height)), (proj2 (Z.leb_le height (nHeight b))) by lia. cbn [orb andb].
  destruct (Z.eqb_spec height (nHeight b)).
  - replace (nHeight b - height) with 0 by lia. done.
  - apply GetAncestor_loop_walk; [done..|lia|lia].
Qed.

(** ** Properties *)

(** On a well-formed block index [GetAncestor] always terminates without
    a bad dereference; it returns null outside 0..nHeight and otherwise the
    block reached by [nHeight - height] steps along [pprev], which exists and
    has exactly the requested height. *)
Theorem GetAncestor_correct (st : index_store) (p : addr) (b : CBlockIndex) (height : Z)
    (Hwf : index_wf st) (Hp : st !! p = Some b) :
  (0 <= height <= nHeight b ->
     exists q bq, GetAncestor st p height = Some (Some q) /\
       pprev_walk st p (Z.to_nat (nHeight b - height)) = Some q /\
       st !! q = Some bq /\ nHeight bq = height) /\
  (height < 0 \/ nHeight b < height -> GetAncestor st p height = Some None).
Proof.
  rewrite (GetAncestor_walk st p b height Hwf Hp). split.
  - intros Hh.
    rewrite (proj2 (Z.leb_le 0 height)), (proj2 (Z.leb_le height (nHeight b))) by lia.
    destruct (pprev_walk_total st Hwf (Z.to_nat (nHeight b - height)) p b Hp ltac:(lia))
      as (q & bq & Hq & Hbq & Hhq).
    exists q, bq. simpl. rewrite Hq. split_and!; [done..|lia].
  - intros [?|?].
    + by rewrite (proj2 (Z.leb_gt 0 height)) by lia.
    + by rewrite (proj2 (Z.leb_gt height (nHeight b))), andb_false_r by lia.
Qed.

(** A chain of [n] blocks spaced [dt] seconds apart; height [h] is at address
    [sample_addr h] (above the range the node rejects as invalid pointers). *)
Definition sample_addr (h : nat) : addr := (0x10000 + Pos.of_nat (S h))%positive.

Definition sample_block (h t bits : Z) (prev skip : option addr) : CBlockIndex :=
  mkIndex (mkHeader 1 zero256 zero256 t bits 0 zero256 zero256 zero256 false)
    prev None skip h 0 0 0 zero256 0 0 0 t bits 0 1 zero256.

Fixpoint sample_chain (n : nat) (t0 dt bits : Z) : index_store :=
  match n with
  | O => ∅
  | S n' =>
      let h := Z.of_nat n' in
      <[sample_addr n' :=
          sample_block h (t0 + h * dt) bits
            (match n' with O => None | S m => Some (sample_addr m) end) None]>
        (sample_chain n' t0 dt bits)
  end.

Definition index_wfb (st : index_store) : bool :=
  forallb (fun '(_, b) =>
    (0 <=? nHeight b) && bool_decide (pskip b = None) &&
    match pprev b with
    | None => nHeight b =? 0
    | Some q => match st !! q with
                | Some bq => nHeight b =? nHeight bq + 1
                | None => false
                end
    end) (map_to_list st).

Lemma index_wfb_sound st : index_wfb st = true -> index_wf st.
Proof.
  unfold index_wfb, index_wf, link_wf. rewrite forallb_forall. intros H p b Hp.
  specialize (H (p, b)). simpl in H.
  assert (In (p, b) (map_to_list st)) as Hin
    by (apply list_elem_of_In, elem_of_map_to_list; done).
  apply H in Hin. clear H.
  rewrite !andb_true_iff, bool_decide_eq_true in Hin. destruct Hin as [[H0 H1] H2].
  split; [|done]. split; [lia|].
  destruct (pprev b) as [q|]; [|lia]. destruct (st !! q) as [bq|]; [|done].
  exists bq. split; [done|lia].
Qed.

Lemma GetAncestor_correct_witness :
  exists q bq, GetAncestor (sample_chain 12 1000 60 0x1e01fffe) (sample_addr 11) 4 = Some (Some q) /\
    sample_chain 12 1000 60 0x1e01fffe !! q = Some bq /\ nHeight bq = 4.
Proof.
  destruct (GetAncestor_correct (sample_chain 12 1000 60 0x1e01fffe) (sample_addr 11)
    (sample_block 11 1660 0x1e01fffe (Some (sample_addr 10)) None) 4) as [H _].
  - apply index_wfb_sound. vm_compute. reflexivity.
  - vm_compute. reflexivity.
  - destruct H as (q & bq & H1 & _ & H2 & H3); [simpl; lia|]. exists q, bq. auto.
Defined.

(** The skip test is not safe for populated skip pointers: with [pskip] of the
    block at height 8 pointing at genesis, the ancestor at height 5 comes out as
    genesis, because [heightSkip < heightSkipPrev] takes the skip past the
    requested height. *)
Example GetAncestor_skip_overshoots :
  let st := <[sample_addr 8 :=
                sample_block 8 1480 0x1e01fffe (Some (sample_addr 7)) (Some (sample_addr 0))]>
              (sample_chain 9 1000 60 0x1e01fffe) in
  GetAncestor st (sample_addr 8) 5 = Some (Some (sample_addr 0)) /\
  (nHeight <$> st !! sample_addr 0) = Some 0.
Proof. vm_compute. split; reflexivity. Qed.

(** ** Status flags and chain work *)

Lemma land7_mod x : Z.land x BLOCK_VALID_MASK = x mod 8.
Proof. exact (land_ones_mod x 3 ltac:(lia)). Qed.

Lemma RaiseValidity_status b level :
  0 <= nStatus b < 2 ^ 32 ->
  nStatus (snd (RaiseValidity b level)) =
    nStatus b - nStatus b mod 8 + Z.max (nStatus b mod 8) (level mod 8).
Proof.
  intros Hs. unfold RaiseValidity. rewrite !land7_mod.
  pose proof (Z.mod_pos_bound (nStatus b) 8 ltac:(lia)).
  pose proof (Z.mod_pos_bound level 8 ltac:(lia)).
  destruct (Z.ltb_spec (nStatus b mod 8) (level mod 8)); simpl; [|lia].
  replace (Z.land (nStatus b) _) with (Z.shiftl (nStatus b / 8) 3).
  2: { apply Z.bits_inj'. intros i Hi. rewrite Z.shiftl_spec, Z.land_spec by lia.
       change (2 ^ 32 - 1 - BLOCK_VALID_MASK) with (Z.shiftl (Z.ones 29) 3).
       rewrite (Z.shiftl_spec (Z.ones 29)) by lia.
       destruct (Z.ltb_spec i 3).
       { rewrite (Z.testbit_neg_r (nStatus b / 8)), (Z.testbit_neg_r (Z.ones 29)) by lia.
         by rewrite andb_false_r. }
       change 8 with (2 ^ 3). rewrite Z.div_pow2_bits by lia.
       replace (i - 3 + 3) with i by lia. destruct (Z.ltb_spec i 32).
       - rewrite Z.ones_spec_low by lia. by rewrite andb_true_r.
       - rewrite Z.ones_spec_high, andb_false_r by lia.
         rewrite <- (Z.mod_small (nStatus b) (2 ^ 32)) by lia.
         by apply Z.mod_pow2_bits_high. }
  rewrite Z.lor_comm, lor_shiftl_disjoint by (change (2 ^ 3) with 8; lia).
  pose proof (Z.div_mod (nStatus b) 8 ltac:(lia)). lia.
Qed.

Lemma bits_div8 s s' i : s / 8 = s' / 8 -> 3 <= i -> Z.testbit s i = Z.testbit s' i.
Proof.
  intros E Hi. replace i with (i - 3 + 3) by lia.
  rewrite <- !Z.div_pow2_bits by lia. change (2 ^ 3) with 8. by rewrite E.
Qed.

Lemma land_flags s s' m :
  (forall i, 0 <= i -> Z.testbit m i = true -> Z.testbit s i = Z.testbit s' i) ->
  Z.land s m = Z.land s' m.
Proof.
  intros H. apply Z.bits_inj'. intros i Hi. rewrite !Z.land_spec.
  destruct (Z.testbit m i) eqn:E; [by rewrite (H i Hi E) | by rewrite !andb_false_r].
Qed.

Lemma RaiseValidity_split b level :
  0 <= nStatus b < 2 ^ 32 ->
  nStatus (snd (RaiseValidity b level)) / 8 = nStatus b / 8 /\
  nStatus (snd (RaiseValidity b level)) mod 8 = Z.max (nStatus b mod 8) (level mod 8).
Proof.
  intros Hs. rewrite (RaiseValidity_status b level Hs).
  pose proof (Z.div_mod (nStatus b) 8 ltac:(lia)).
  pose proof (Z.mod_pos_bound (nStatus b) 8 ltac:(lia)).
  pose proof (Z.mod_pos_bound level 8 ltac:(lia)).
  set (r := Z.max _ _). assert (0 <= r < 8) by lia.
  replace (nStatus b - nStatus b mod 8 + r) with (r + (nStatus b / 8) * 8) by lia.
  rewrite Z.div_add, Z.mod_add, Z.div_small, Z.mod_small by lia. lia.
Qed.

Lemma set_nStatus_id b : set_nStatus b (nStatus b) = b.
Proof. by destruct b. Qed.

Lemma MarkBlockReceived_spec b :
  0 <= nStatus b < 2 ^ 32 ->
  let s' := nStatus (MarkBlockReceived b) in
  Z.testbit s' 3 = true /\ s' mod 8 = Z.max (nStatus b mod 8) 3 /\
  (forall i, 4 <= i -> Z.testbit s' i = Z.testbit (nStatus b) i).
Proof.
  intros Hs s'. set (s1 := Z.lor (nStatus b) BLOCK_HAVE_DATA).
  assert (0 <= s1 < 2 ^ 32) as Hs1
    by (apply (lor_range _ _ 32); unfold BLOCK_HAVE_DATA; lia).
  assert (forall i, Z.testbit s1 i = Z.testbit (nStatus b) i || (3 =? i)) as B1.
  { intros i. unfold s1. change BLOCK_HAVE_DATA with (2 ^ 3).
    by rewrite Z.lor_spec, Z.pow2_bits_eqb. }
  destruct (RaiseValidity_split (set_nStatus b s1) BLOCK_VALID_TRANSACTIONS Hs1) as [D M].
  simpl in D, M. change (nStatus _ / 8) with (s' / 8) in D. change (nStatus _ mod 8) with (s' mod 8) in M.
  split_and!.
  - rewrite (bits_div8 _ _ 3 D), B1 by lia. by rewrite orb_true_r.
  - rewrite M. f_equal. change 8 with (2 ^ 3). apply Z.bits_inj'. intros i Hi.
    rewrite !Z.testbit_mod_pow2, B1 by lia.
    destruct (Z.ltb_spec i 3), (Z.eqb_spec 3 i); try lia; rewrite ?orb_false_r; done.
  - intros i Hi. rewrite (bits_div8 _ _ i D), B1 by lia.
    rewrite (proj2 (Z.eqb_neq 3 i)) by lia. by rewrite orb_false_r.
Qed.

(** the block status word: for every 32-bit status, [RaiseValidity]
    leaves the data and failure flags alone and sets the validity level to the
    maximum of the old one and the (3-bit) request, reporting whether it rose;
    [MarkBlockReceived] sets the data flag, ensures level
    BLOCK_VALID_TRANSACTIONS, keeps the failure flags, and is idempotent. *)
Theorem block_status_updates (b : CBlockIndex) (level : Z)
    (Hs : 0 <= nStatus b < 2 ^ 32) :
  (let '(raised, b') := RaiseValidity b level in
   nStatus b' / 8 = nStatus b / 8 /\
   nStatus b' mod 8 = Z.max (nStatus b mod 8) (level mod 8) /\
   raised = (nStatus b mod 8 <? level mod 8)) /\
  (let b' := MarkBlockReceived b in
   HaveData b' = true /\ BLOCK_VALID_TRANSACTIONS <= nStatus b' mod 8 /\
   IsInvalid b' = IsInvalid b /\ MarkBlockReceived b' = b').
Proof.
  split.
  { pose proof (RaiseValidity_split b level Hs) as [H1 H2].
    destruct (RaiseValidity b level) as [raised b'] eqn:E. simpl in H1, H2.
    split_and!; [done..|]. unfold RaiseValidity in E. rewrite !land7_mod in E.
    destruct (nStatus b mod 8 <? level mod 8); by inversion E. }
  destruct (MarkBlockReceived_spec b Hs) as (H3 & HM & HF). set (b' := MarkBlockReceived b) in *.
  assert (BLOCK_VALID_TRANSACTIONS <= nStatus b' mod 8)
    by (rewrite HM; unfold BLOCK_VALID_TRANSACTIONS; lia).
  split_and!; [| done | |].
  - unfold HaveData. change BLOCK_HAVE_DATA with (2 ^ 3). by rewrite land_pow2_eqb, H3.
  - unfold IsInvalid. do 2 f_equal. apply land_flags. intros i Hi Hm. apply HF.
    destruct (Z.ltb_spec i 4); [|done]. exfalso.
    assert (i = 0 \/ i = 1 \/ i = 2 \/ i = 3) as [->|[->|[->| ->]]] by lia; discriminate Hm.
  - unfold MarkBlockReceived at 1.
    replace (Z.lor (nStatus b') BLOCK_HAVE_DATA) with (nStatus b').
    2: { apply Z.bits_inj'. intros i Hi. change BLOCK_HAVE_DATA with (2 ^ 3).
         rewrite Z.lor_spec, Z.pow2_bits_eqb by lia.
         destruct (Z.eqb_spec 3 i) as [<-|]; [by rewrite H3 | by rewrite orb_false_r]. }
    rewrite set_nStatus_id. unfold RaiseValidity. rewrite !land7_mod.
    change (BLOCK_VALID_TRANSACTIONS mod 8) with BLOCK_VALID_TRANSACTIONS.
    by rewrite (proj2 (Z.ltb_ge _ _)).
Qed.

Lemma block_status_updates_witness :
  HaveData (MarkBlockReceived (set_nStatus (sample_block 0 0 0 None None) 0x62)) = true /\
  nStatus (MarkBlockReceived (set_nStatus (sample_block 0 0 0 None None) 0x62)) = 0x6b.
Proof.
  split; [|reflexivity].
  apply (block_status_updates (set_nStatus (sample_block 0 0 0 None None) 0x62) 5).
  simpl. lia.
Defined.

Lemma ComputeChainWork_loop_wf n : forall i pos wm proof,
  u256_wf proof -> u256_wf (ComputeChainWork_loop n i pos wm proof).
Proof.
  induction n as [|n IH]; intros i pos wm proof Hp; cbn [ComputeChainWork_loop]; [done|].
  case_match; auto with dil.
Qed.

Lemma ComputeChainWork_wf n : u256_wf (ComputeChainWork n).
Proof.
  unfold ComputeChainWork. case_match; [apply ff_wf|].
  apply ComputeChainWork_loop_wf. auto with dil.
Qed.

(** [BuildChainWork] on a non-genesis entry sets its cumulative work to
    the parent's plus the block's own proof, saturating at 2^256 - 1, so work
    never decreases along the chain and the code's 256-bit comparison agrees;
    no other entry changes. *)
Theorem BuildChainWork_cumulative (st : index_store) (p q : addr) (b prev : CBlockIndex)
    (Hp : st !! p = Some b) (Hprev : pprev b = Some q) (Hq : st !! q = Some prev)
    (Hw : u256_wf (nChainWork prev)) :
  exists st' b', BuildChainWork st p = Some st' /\ st' !! p = Some b' /\
    le_val (nChainWork b') =
      Z.min (le_val (nChainWork prev) + le_val (ComputeChainWork (nBits b))) (2 ^ 256 - 1) /\
    ChainWorkGreaterOrEqual (nChainWork b') (nChainWork prev) = true /\
    b' = set_nChainWork b (nChainWork b') /\
    (forall r, r <> p -> st' !! r = st !! r).
Proof.
  unfold BuildChainWork. rewrite Hp. simpl. rewrite Hprev, Hq. simpl.
  destruct (AddChainWork_correct (nChainWork prev) (ComputeChainWork (nBits b)) Hw
    (ComputeChainWork_wf _)) as [W V].
  eexists _, _. split; [reflexivity|]. rewrite lookup_insert_eq. split; [reflexivity|].
  split_and!; simpl.
  - exact V.
  - unfold GetBlockProof. rewrite ChainWorkGreaterOrEqual_val by done.
    pose proof (le_val_u256 _ Hw). pose proof (le_val_u256 _ (ComputeChainWork_wf (nBits b))).
    rewrite V. lia.
  - done.
  - intros r Hr. by rewrite lookup_insert_ne.
Qed.

Lemma BuildChainWork_cumulative_witness :
  exists st' b', BuildChainWork (sample_chain 3 1000 60 0x1e01fffe) (sample_addr 2) = Some st' /\
    st' !! sample_addr 2 = Some b' /\
    le_val (nChainWork b') = le_val (ComputeChainWork 0x1e01fffe).
Proof.
  destruct (BuildChainWork_cumulative (sample_chain 3 1000 60 0x1e01fffe)
    (sample_addr 2) (sample_addr 1)
    (sample_block 2 1120 0x1e01fffe (Some (sample_addr 1)) None)
    (sample_block 1 1060 0x1e01fffe (Some (sample_addr 0)) None))
    as (st' & b' & H1 & H2 & H3 & _); try (vm_compute; reflexivity).
  - split; [reflexivity | apply Forall_replicate; unfold byte_ok; lia].
  - exists st', b'. split_and!; [done..|]. rewrite H3. vm_compute. reflexivity.
Defined.
