(* ===== verification/Difficulty.v ===== *)
(** * Difficulty adjustment and block time (consensus/pow.cpp)

    The periodic retarget with its emergency adjustment, the ASERT rule, the
    dispatch between them, the median time past and the timestamp rules.  Block
    index entries are read through the store of [BlockIndex]; [None] is a
    dereference of a pointer that is not in the store, or an undefined integer
    operation (division by zero).  [int64_t] and [uint32_t] arithmetic is
    written with its wrap-around. *)

From S2P Require Import Prelude Uint256 WideArith ChainParams Block BlockIndex.

(** ** Periodic retarget *)

Definition clamp_bits (nBitsNew : Z) : Z :=
  let nBitsNew := if nBitsNew <? MIN_DIFFICULTY_BITS then MIN_DIFFICULTY_BITS else nBitsNew in
  if nBitsNew >? MAX_DIFFICULTY_BITS then MAX_DIFFICULTY_BITS else nBitsNew.

Definition CalculateNextWorkRequired
    (nCompactOld nActualTimespan nTargetTimespan maxChange : Z) : Z :=
  let nActualTimespan :=
    if nActualTimespan <? Z.quot nTargetTimespan maxChange
    then Z.quot nTargetTimespan maxChange else nActualTimespan in
  let nActualTimespan :=
    if nActualTimespan >? i64 (nTargetTimespan * maxChange)
    then i64 (nTargetTimespan * maxChange) else nActualTimespan in
  let targetOld := CompactToBig nCompactOld in
  match Multiply256x64 targetOld (u64 nActualTimespan) with
  | None => nCompactOld
  | Some product =>
      let targetNew := Divide320x64 product (u64 nTargetTimespan) in
      clamp_bits (BigToCompact targetNew)
  end.

(** ** ASERT *)

(** The fixed-point cubic approximation of [2^(frac/65536)], in [uint64_t]. *)
Definition asert_factor (frac : Z) : Z :=
  let f := frac in
  let f2 := u64 (f * f) in
  let f3 := u64 (f2 * f) in
  let term1 := u64 (195766423245049 * f) in
  let term2 := u64 (971821376 * f2) in
  let term3 := u64 (5127 * f3) in
  let round := Z.shiftl 1 47 in
  u32 (65536 + u32 (Z.shiftr (u64 (u64 (u64 (term1 + term2) + term3) + round)) 48)).

(** The floor split of the exponent into whole half-lives and a fraction. *)
Definition asert_split (exponent : Z) : Z * Z :=
  if exponent >=? 0 then (Z.quot exponent 65536, u16 (Z.rem exponent 65536))
  else
    let q := Z.quot exponent 65536 in
    let r := Z.rem exponent 65536 in
    if r <? 0 then (q - 1, u16 (r + 65536)) else (q, u16 r).

(** The 16-bit right shift that drops the fixed-point scale: byte [i] of the
    target is byte [i + 2] of the product. *)
Definition asert_extract (product : list Z) : uint256 := take 32 (drop 2 product).

Definition GetNextWorkRequiredASERT (params : ChainParams)
    (pindexPrev pindexAnchor : CBlockIndex) : option Z :=
  let anchor_time := nTime pindexAnchor in
  let anchor_height := nHeight pindexAnchor in
  let anchor_nBits := hnBits (header pindexAnchor) in
  let target_spacing := blockTime params in
  let halflife := asertHalflife params in
  let time_delta := nTime pindexPrev - anchor_time in
  let height_delta := i32 (nHeight pindexPrev - anchor_height) in
  let ideal_time := i64 (target_spacing * (height_delta + 1)) in
  if halflife =? 0 then None
  else
    let exponent := Z.quot (i64 (i64 (time_delta - ideal_time) * 65536)) halflife in
    let '(shifts, frac) := asert_split exponent in
    let factor := asert_factor frac in
    let anchor_target := CompactToBig anchor_nBits in
    Some
      match Multiply256x64 anchor_target factor with
      | None => anchor_nBits
      | Some product =>
          let next_target := asert_extract product in
          if shifts >? 255 then MAX_DIFFICULTY_BITS
          else if - shifts >? 255 then MIN_DIFFICULTY_BITS
          else
            let next_target :=
              if shifts >? 0 then ShiftTargetLeft next_target shifts
              else if shifts <? 0 then ShiftTargetRight next_target (- shifts)
              else next_target in
            if IsTargetZero next_target then MIN_DIFFICULTY_BITS
            else clamp_bits (FixCompactEncoding (BigToCompact next_target))
      end.

(** ** Emergency difficulty adjustment *)

Definition EDA_THRESHOLD_BLOCKS : Z := 6.
Definition EDA_STEP_BLOCKS : Z := 6.
Definition EDA_REDUCTION_NUMERATOR : Z := 5.
Definition EDA_REDUCTION_DENOMINATOR : Z := 4.
Definition EDA_MAX_STEPS : Z := 20.

(** [for (i = 0; i < steps; i++)]: [break] on multiplication overflow. *)
Fixpoint EDA_loop (steps : nat) (target : uint256) : uint256 :=
  match steps with
  | O => target
  | S n =>
      match Multiply256x64 target EDA_REDUCTION_NUMERATOR with
      | None => target
      | Some product => EDA_loop n (Divide320x64 product EDA_REDUCTION_DENOMINATOR)
      end
  end.

Definition apply_fix (params : ChainParams) (newBlockHeight bits : Z) : Z :=
  let fixHeight := compactEncodingFixHeight params in
  if (fixHeight >=? 0) && (newBlockHeight >=? fixHeight)
  then FixCompactEncoding bits else bits.

Definition eda_clamp (edaBits : Z) : Z :=
  let edaBits := if edaBits >? MAX_DIFFICULTY_BITS then MAX_DIFFICULTY_BITS else edaBits in
  if edaBits <? MIN_DIFFICULTY_BITS then MIN_DIFFICULTY_BITS else edaBits.

(** The EDA branch: [Some None] when no adjustment applies, [None] when the step
    size it divides by is 0. *)
Definition EDA_bits (params : ChainParams) (newBlockHeight nBlockTime lastTime prevBits : Z)
  : option (option Z) :=
  if (nBlockTime >? 0) && (edaActivationHeight params >=? 0)
     && (newBlockHeight >=? edaActivationHeight params) then
    let bt := blockTime params in
    let gap := i64 (nBlockTime - lastTime) in
    let v3 := newBlockHeight >=? difficultyV3ForkHeight params in
    let threshold := (if v3 then 15 else EDA_THRESHOLD_BLOCKS) * bt in
    if gap >? threshold then
      let stepSize := (if v3 then 15 else EDA_STEP_BLOCKS) * bt in
      if stepSize =? 0 then None
      else
        let stepsRaw := Z.quot (gap - threshold) stepSize + 1 in
        let steps := Z.min stepsRaw EDA_MAX_STEPS in
        let target := EDA_loop (Z.to_nat steps) (CompactToBig prevBits) in
        let edaBits := apply_fix params newBlockHeight (BigToCompact target) in
        Some (Some (eda_clamp edaBits))
    else Some None
  else Some None.

(** ** Dispatch *)

(** [for (i = 0; pindexFirst != nullptr && i < n; i++) pindexFirst = pindexFirst->pprev;] *)
Fixpoint prev_loop (st : index_store) (n : nat) (p : option addr) : option (option addr) :=
  match n, p with
  | O, _ => Some p
  | S _, None => Some None
  | S n', Some a => b ← st !! a; prev_loop st n' (pprev b)
  end.

Definition asert_dispatch (params : ChainParams) (st : index_store) (p : addr)
    (last : CBlockIndex) (anchorHeight : Z) : option Z :=
  anchor ← GetAncestor st p anchorHeight;
  match anchor with
  | None => Some (hnBits (header last))
  | Some a => ba ← st !! a; GetNextWorkRequiredASERT params last ba
  end.

(** The legacy rule at a retarget height. *)
Definition legacy_retarget (params : ChainParams) (st : index_store) (p : addr)
    (last : CBlockIndex) (newBlockHeight nInterval : Z) (useV2 : bool) : option Z :=
  pindexFirst ← prev_loop st (Z.to_nat (nInterval - 1)) (Some p);
  match pindexFirst with
  | None => Some (nBits last)
  | Some f =>
      first ← st !! f;
      (* both operands are [unsigned int]: the difference wraps before it is
         converted to [int64_t] *)
      let nActualTimespan := u32 (nTime last - nTime first) in
      let nTargetTimespan := nInterval * blockTime params in
      let nActualTimespan := if nActualTimespan <=? 0 then nTargetTimespan else nActualTimespan in
      let useV3 := newBlockHeight >=? difficultyV3ForkHeight params in
      let maxChange := if useV3 then 4 else if useV2 then difficultyMaxChange params else 4 in
      if maxChange =? 0 then None
      else
        let nBitsNew :=
          CalculateNextWorkRequired (nBits last) nActualTimespan nTargetTimespan maxChange in
        Some (apply_fix params newBlockHeight nBitsNew)
  end.

Definition legacy_bits (params : ChainParams) (st : index_store) (p : addr)
    (last : CBlockIndex) (nBlockTime : Z) : option Z :=
  let newBlockHeight := nHeight last + 1 in
  let useV2 := newBlockHeight >=? difficultyForkHeight params in
  let nInterval := if useV2 then i64 (difficultyAdjustmentV2 params)
                   else i64 (difficultyAdjustment params) in
  if nInterval =? 0 then None
  else if negb (Z.rem newBlockHeight nInterval =? 0) then
    let prevBits := hnBits (header last) in
    if prevBits =? 0 then Some (genesisNBits params)
    else
      eda ← EDA_bits params newBlockHeight nBlockTime (nTime last) prevBits;
      Some (default prevBits eda)
  else legacy_retarget params st p last newBlockHeight nInterval useV2.

Definition GetNextWorkRequired (g_chainParams : option ChainParams) (st : index_store)
    (pindexLast : option addr) (nBlockTime : Z) : option Z :=
  match pindexLast with
  | None => genesisNBits <$> g_chainParams
  | Some p =>
      let vdf_chain := match g_chainParams with
                       | Some params => IsDilV params || IsRegtest params
                       | None => false
                       end in
      if vdf_chain then genesisNBits <$> g_chainParams
      else if Z.pos p <? 0x10000 then genesisNBits <$> g_chainParams
      else
        last ← st !! p;
        match g_chainParams with
        | None => Some (hnBits (header last))
        | Some params =>
            let newBlockHeight := nHeight last + 1 in
            let tsValHeight := timestampValidationHeight params in
            let asertActivation := asertActivationHeight params in
            if (tsValHeight >? 0) && (newBlockHeight >=? tsValHeight) then
              asert_dispatch params st p last (tsValHeight - 1)
            else if (asertActivation >? 0) && (newBlockHeight >=? asertActivation) then
              asert_dispatch params st p last (asertActivation - 1)
            else legacy_bits params st p last nBlockTime
        end
  end.

(** ** Median time past and timestamp rules *)

(** [for (i = 0; i < 11 && pindexWalk != nullptr; i++)] *)
Fixpoint collect_times (st : index_store) (n : nat) (p : option addr) : option (list Z) :=
  match n, p with
  | O, _ | _, None => Some []
  | S n', Some a =>
      b ← st !! a;
      vTimes ← collect_times st n' (pprev b);
      Some (nTime b :: vTimes)
  end.

(** [std::sort] and [vTimes[vTimes.size() / 2]] (0 for an empty vector). *)
Definition median (vTimes : list Z) : Z :=
  nth (length vTimes / 2) (merge_sort Z.le vTimes) 0.

Definition GetMedianTimePast (st : index_store) (pindex : option addr) : option Z :=
  match pindex with
  | None => Some 0
  | Some _ =>
      vTimes ← collect_times st 11 pindex;
      if bool_decide (vTimes = []) then Some 0 else Some (median vTimes)
  end.

Definition MAX_FUTURE_BLOCK_TIME : Z := 7200.
Definition MAX_FUTURE_BLOCK_TIME_V2 : Z := 600.

Inductive TimestampError : Set :=
| ZeroTimestamp | TooFarInFuture | TooEarly | GapTooSmall.

Definition CheckBlockTimestamp (g_chainParams : option ChainParams) (st : index_store)
    (now : Z) (blockNTime : Z) (pindexPrev : option addr) (blockHeight : Z)
  : option (result TimestampError unit) :=
  if blockNTime =? 0 then Some (Err ZeroTimestamp)
  else
    let tsValHeight := match g_chainParams with
                       | Some params => timestampValidationHeight params
                       | None => 999999999
                       end in
    let maxFuture := if (blockHeight >=? 0) && (blockHeight >=? tsValHeight)
                     then MAX_FUTURE_BLOCK_TIME_V2 else MAX_FUTURE_BLOCK_TIME in
    if blockNTime >? now + maxFuture then Some (Err TooFarInFuture)
    else
      match pindexPrev with
      | None => Some (Ok tt)
      | Some p =>
          nMedianTimePast ← GetMedianTimePast st pindexPrev;
          if blockNTime <=? nMedianTimePast then Some (Err TooEarly)
          else
            match g_chainParams with
            | None => Some (Ok tt)
            | Some params =>
                let minGap := minBlockTimestampGap params in
                if (minGap >? 0) && (blockHeight >=? minBlockTimestampGapHeight params) then
                  prev ← st !! p;
                  Some (if blockNTime <? nTime prev + minGap then Err GapTooSmall else Ok tt)
                else Some (Ok tt)
            end
      end.

(** ** Bounds of the results *)

Definition bits_in_range (b : Z) : Prop := MIN_DIFFICULTY_BITS <= b <= MAX_DIFFICULTY_BITS.

Lemma clamp_bits_range b : bits_in_range (clamp_bits b).
Proof. unfold clamp_bits, bits_in_range, MIN_DIFFICULTY_BITS, MAX_DIFFICULTY_BITS. zcases. Qed.

Lemma clamp_bits_id b : bits_in_range b -> clamp_bits b = b.
Proof. unfold clamp_bits, bits_in_range, MIN_DIFFICULTY_BITS, MAX_DIFFICULTY_BITS. intros. zcases. Qed.

Lemma Fix_range b : bits_in_range b -> bits_in_range (FixCompactEncoding b).
Proof.
  unfold bits_in_range, MIN_DIFFICULTY_BITS, MAX_DIFFICULTY_BITS. intros Hb.
  rewrite FixCompactEncoding_val by lia. destruct (Z.ltb_spec (b mod 2 ^ 24) (2 ^ 23)); [lia|].
  pose proof (Z.div_mod b (2 ^ 24) ltac:(lia)).
  pose proof (Z.mod_pos_bound b (2 ^ 24) ltac:(lia)).
  assert (29 <= b / 2 ^ 24 <= 30) by lia.
  rewrite (Z.mod_small (b / 2 ^ 24 + 1) 256) by lia.
  set (q := b / 2 ^ 24) in *. set (m := b mod 2 ^ 24) in *.
  assert (0 <= m / 256 < 2 ^ 16) by (split; [apply Z.div_pos | apply Z.div_lt_upper_bound]; lia).
  lia.
Qed.

Lemma apply_fix_range params h b : bits_in_range b -> bits_in_range (apply_fix params h b).
Proof. unfold apply_fix. case_match; auto using Fix_range. Qed.

Lemma Calculate_range old act tgt mc :
  bits_in_range old -> bits_in_range (CalculateNextWorkRequired old act tgt mc).
Proof. unfold CalculateNextWorkRequired. intros. case_match; auto using clamp_bits_range. Qed.

Lemma eda_clamp_range b : bits_in_range (eda_clamp b).
Proof. unfold eda_clamp, bits_in_range, MIN_DIFFICULTY_BITS, MAX_DIFFICULTY_BITS. zcases. Qed.

Lemma EDA_bits_range params h t l prev b :
  EDA_bits params h t l prev = Some (Some b) -> bits_in_range b.
Proof.
  unfold EDA_bits. intros H. repeat (case_match; try done); injection H as <-;
    apply eda_clamp_range.
Qed.

Lemma EDA_bits_total params h t l prev : blockTime params <> 0 -> is_Some (EDA_bits params h t l prev).
Proof. intros Hb. unfold EDA_bits. unfold EDA_STEP_BLOCKS. repeat case_match; done || zprop; lia. Qed.

Lemma asert_range params prev anchor b :
  bits_in_range (hnBits (header anchor)) ->
  GetNextWorkRequiredASERT params prev anchor = Some b -> bits_in_range b.
Proof.
  unfold GetNextWorkRequiredASERT. intros Ha H. case_match; [done|].
  destruct (asert_split _) as [shifts frac]. simplify_eq.
  assert (bits_in_range MIN_DIFFICULTY_BITS /\ bits_in_range MAX_DIFFICULTY_BITS) as []
    by (unfold bits_in_range, MIN_DIFFICULTY_BITS, MAX_DIFFICULTY_BITS; lia).
  repeat case_match; auto using clamp_bits_range.
Qed.

(** The entries of the store carry difficulties in the allowed range. *)
Definition store_bits_ok (st : index_store) : Prop :=
  map_Forall (fun _ b => bits_in_range (hnBits (header b)) /\ bits_in_range (nBits b)) st.

(** What a network needs for [GetNextWorkRequired] to compute a difficulty. *)
Definition adjusts (params : ChainParams) : Prop :=
  bits_in_range (genesisNBits params) /\
  0 < difficultyAdjustment params < 2 ^ 31 /\ 0 < difficultyAdjustmentV2 params < 2 ^ 31 /\
  0 < difficultyMaxChange params /\ asertHalflife params <> 0 /\ blockTime params <> 0.

(** DilV and regtest keep the genesis difficulty and need nothing else. *)
Definition pow_params_ok (params : ChainParams) : Prop :=
  bits_in_range (genesisNBits params) /\ (IsDilV params || IsRegtest params = true \/ adjusts params).

Lemma prev_loop_walk st : index_wf st -> forall n p b,
  st !! p = Some b ->
  exists r, prev_loop st n (Some p) = Some r /\
    match r with
    | None => nHeight b < Z.of_nat n
    | Some q => pprev_walk st p n = Some q /\ exists bq, st !! q = Some bq
    end.
Proof.
  intros Hwf n. induction n as [|n IH]; intros p b Hp; simpl.
  { exists (Some p). eauto. }
  rewrite Hp. simpl. destruct (Hwf p b Hp) as [[H0 Hl] _].
  destruct (pprev b) as [q|].
  - destruct Hl as (bq & Hq & Hh). destruct (IH q bq Hq) as (r & -> & Hr).
    exists r. split; [done|]. destruct r; simpl; [done|lia].
  - exists None. split; [by destruct n|lia].
Qed.

Lemma legacy_retarget_total params st p last h n v2 :
  index_wf st -> store_bits_ok st -> adjusts params -> st !! p = Some last ->
  exists b, legacy_retarget params st p last h n v2 = Some b /\ bits_in_range b.
Proof.
  intros Hwf Hb Hp Hlast. unfold legacy_retarget.
  destruct (Hb p last Hlast) as [_ Hnb].
  destruct (prev_loop_walk st Hwf (Z.to_nat (n - 1)) p last Hlast) as (r & -> & Hr). simpl.
  destruct r as [f|]; [|eauto]. destruct Hr as [_ [bf ->]]. simpl.
  destruct Hp as (_ & _ & _ & Hmc & _).
  destruct (_ =? 0) eqn:E.
  - exfalso. apply Z.eqb_eq in E. repeat case_match; lia.
  - eexists. split; [done|]. by apply apply_fix_range, Calculate_range.
Qed.

Lemma legacy_bits_total params st p last t :
  index_wf st -> store_bits_ok st -> adjusts params -> st !! p = Some last ->
  exists b, legacy_bits params st p last t = Some b /\ bits_in_range b.
Proof.
  intros Hwf Hb Hp Hlast. unfold legacy_bits.
  pose proof Hp as (Hg & H1 & H2 & _ & _ & Hbt). destruct (Hb p last Hlast) as [Hhb _].
  rewrite !i64_small by lia.
  set (n := if nHeight last + 1 >=? difficultyForkHeight params
            then difficultyAdjustmentV2 params else difficultyAdjustment params).
  destruct (Z.eqb_spec n 0); [exfalso; unfold n in *; case_match; lia|].
  destruct (negb _); [|by apply legacy_retarget_total].
  destruct (Z.eqb_spec (hnBits (header last)) 0); [eauto|].
  destruct (EDA_bits_total params (nHeight last + 1) t (nTime last) (hnBits (header last)) Hbt) as [eda EE]. rewrite EE. cbn.
  eexists. split; [done|]. destruct eda as [b|]; cbn; [by eapply EDA_bits_range|done].
Qed.

Lemma asert_dispatch_total params st p last h :
  index_wf st -> store_bits_ok st -> adjusts params -> st !! p = Some last ->
  exists b, asert_dispatch params st p last h = Some b /\ bits_in_range b.
Proof.
  intros Hwf Hb Hp Hlast. unfold asert_dispatch.
  destruct (Hb p last Hlast) as [Hhb _].
  rewrite (GetAncestor_walk st p last h Hwf Hlast). simpl.
  destruct (_ && _) eqn:E; [|eauto]. zprop.
  destruct (pprev_walk_total st Hwf (Z.to_nat (nHeight last - h)) p last Hlast ltac:(lia))
    as (q & bq & -> & Hbq & _). simpl. rewrite Hbq. simpl.
  destruct Hp as (_ & _ & _ & _ & Hh & _).
  destruct (GetNextWorkRequiredASERT params last bq) eqn:EA.
  - eexists. split; [done|]. eapply asert_range; [apply (Hb q bq Hbq)|done].
  - exfalso. unfold GetNextWorkRequiredASERT in EA.
    destruct (Z.eqb_spec (asertHalflife params) 0); [lia|]. by destruct (asert_split _).
Qed.

(** C2: the difficulty rule is total and keeps difficulties in range.  With the
    parameters of any of the repository's four networks (see
    [networks_pow_ok]; more generally a genesis difficulty in range and, unless
    the chain keeps it forever, positive intervals and change limit and a
    non-zero half-life and block time), on a well-formed block index whose
    entries all carry difficulties between MIN_DIFFICULTY_BITS and
    MAX_DIFFICULTY_BITS, and for a last block that is none or in the index,
    [GetNextWorkRequired] never dereferences a bad pointer or divides by zero
    and returns a compact difficulty in the same range, on every branch
    (genesis, DilV and regtest, ASERT v1 and v2, retarget, EDA, no change). *)
Theorem GetNextWorkRequired_total_bounded (params : ChainParams) (st : index_store)
    (pindexLast : option addr) (nBlockTime : Z)
    (Hwf : index_wf st) (Hb : store_bits_ok st) (Hp : pow_params_ok params)
    (Hin : match pindexLast with Some p => is_Some (st !! p) | None => True end) :
  exists bits, GetNextWorkRequired (Some params) st pindexLast nBlockTime = Some bits /\
    bits_in_range bits.
Proof.
  unfold GetNextWorkRequired. pose proof Hp as [Hg HA].
  destruct pindexLast as [p|]; simpl; [|eauto].
  destruct (IsDilV params || IsRegtest params); [eauto|]. destruct HA as [|HA]; [done|]. case_match; [eauto|].
  destruct Hin as [last Hlast]. rewrite Hlast. simpl.
  repeat case_match; eauto using asert_dispatch_total, legacy_bits_total.
Qed.

Lemma store_bits_ok_dec st :
  forallb (fun '(_, b) =>
    (MIN_DIFFICULTY_BITS <=? hnBits (header b)) && (hnBits (header b) <=? MAX_DIFFICULTY_BITS) &&
    (MIN_DIFFICULTY_BITS <=? nBits b) && (nBits b <=? MAX_DIFFICULTY_BITS)) (map_to_list st) = true ->
  store_bits_ok st.
Proof.
  rewrite forallb_forall. intros H p b Hp. specialize (H (p, b)). simpl in H.
  assert (In (p, b) (map_to_list st)) as Hin
    by (apply list_elem_of_In, elem_of_map_to_list; done).
  apply H in Hin. unfold bits_in_range. lia.
Qed.

Lemma networks_pow_ok : Forall pow_params_ok [Mainnet; Testnet; DilV; Regtest].
Proof.
  unfold pow_params_ok, adjusts, bits_in_range, MIN_DIFFICULTY_BITS, MAX_DIFFICULTY_BITS.
  repeat constructor; cbn; try lia; try discriminate; try (left; reflexivity); right; lia.
Qed.

Lemma GetNextWorkRequired_total_bounded_witness :
  exists bits, GetNextWorkRequired (Some Mainnet) (sample_chain 12 1000 240 0x1e01fffe)
    (Some (sample_addr 11)) 5000 = Some bits /\ bits_in_range bits.
Proof.
  apply (GetNextWorkRequired_total_bounded Mainnet (sample_chain 12 1000 240 0x1e01fffe)
    (Some (sample_addr 11)) 5000).
  - apply index_wfb_sound. vm_compute. reflexivity.
  - apply store_bits_ok_dec. vm_compute. reflexivity.
  - exact (Forall_inv networks_pow_ok).
  - vm_compute. eexists. reflexivity.
Defined.

(** ** The periodic retarget is the clamped proportional rule *)

Lemma in_range_value b : bits_in_range b -> 0 <= compact_value b < 2 ^ 247.
Proof.
  unfold bits_in_range, MIN_DIFFICULTY_BITS, MAX_DIFFICULTY_BITS. intros Hb.
  unfold compact_value. pose proof (Z.mod_pos_bound b (2 ^ 23) ltac:(lia)) as Hm.
  set (m := b mod 2 ^ 23) in *.
  assert (29 <= b / 2 ^ 24 <= 31) as Hs.
  { split; [apply Z.div_le_lower_bound | apply Z.lt_succ_r, Z.div_lt_upper_bound]; lia. }
  set (s := b / 2 ^ 24) in *.
  assert (s = 29 \/ s = 30 \/ s = 31) as [->|[->| ->]] by lia; cbn [Z.eqb Z.gtb Z.compare orb Z.leb Pos.compare Pos.compare_cont Pos.eqb];
    split; lia.
Qed.

Definition clamp_timespan (act tgt mc : Z) : Z :=
  Z.min (Z.max act (Z.quot tgt mc)) (tgt * mc).

Lemma Calculate_exact old act tgt mc :
  bits_in_range old -> 0 < tgt < 2 ^ 40 -> 1 <= mc <= 256 -> 0 <= act ->
  exists t, u256_wf t /\
    le_val t = compact_value old * clamp_timespan act tgt mc / tgt /\
    CalculateNextWorkRequired old act tgt mc = clamp_bits (BigToCompact t).
Proof.
  intros Ho Ht Hmc Hact. unfold CalculateNextWorkRequired.
  pose proof (in_range_value old Ho) as HT.
  assert (0 <= Z.quot tgt mc <= tgt) as Hq.
  { split; [apply Z.quot_pos; lia | apply Z.quot_le_upper_bound; nia]. }
  rewrite (i64_small (tgt * mc)) by nia.
  set (a1 := if act <? Z.quot tgt mc then Z.quot tgt mc else act).
  set (a2 := if a1 >? tgt * mc then tgt * mc else a1).
  assert (a2 = clamp_timespan act tgt mc) as ->.
  { unfold a2, a1, clamp_timespan. zcases. }
  set (a := clamp_timespan act tgt mc).
  assert (0 <= a <= tgt * mc) as Ha by (unfold a, clamp_timespan; nia).
  rewrite (u64_small a), (u64_small tgt) by nia.
  destruct (Multiply256x64_total (CompactToBig old) a (CompactToBig_wf old) ltac:(nia)) as [p E].
  rewrite E. apply Multiply256x64_sound in E as (P1 & P2 & P3); [|apply CompactToBig_wf|nia].
  destruct (Divide320x64_val p tgt P1 P2 ltac:(lia)) as [W V].
  exists (Divide320x64 p tgt). split_and!; [done| |done].
  rewrite V, P3, CompactToBig_val.
  - apply Z.mod_small. split; [apply Z.div_pos; nia|]. apply Z.div_lt_upper_bound; [lia|]. nia.
  - unfold bits_in_range, MIN_DIFFICULTY_BITS, MAX_DIFFICULTY_BITS in Ho. lia.
Qed.

Lemma Fix_clamp_roundtrip n :
  canonical_compact n -> bits_in_range n ->
  FixCompactEncoding (clamp_bits (BigToCompact (CompactToBig n))) = n.
Proof.
  intros Hc Hr. pose proof (compact_roundtrip_fixed n Hc) as HR.
  pose proof Hc as [Hs Hm]. pose proof (Z.div_mod n (2 ^ 24) ltac:(lia)) as Hn.
  destruct (BigToCompact_canonical n Hc) as [[C E]|[C E]].
  - by rewrite E in *; rewrite clamp_bits_id.
  - set (b := BigToCompact (CompactToBig n)) in *.
    destruct (Z.le_gt_cases MIN_DIFFICULTY_BITS b) as [Hge|Hlt].
    + rewrite clamp_bits_id; [done|]. split; [done|].
      unfold bits_in_range, MIN_DIFFICULTY_BITS, MAX_DIFFICULTY_BITS in *. lia.
    + assert (n = MIN_DIFFICULTY_BITS) as Hmin.
      { unfold bits_in_range, MIN_DIFFICULTY_BITS, MAX_DIFFICULTY_BITS in *. lia. }
      replace (clamp_bits b) with MIN_DIFFICULTY_BITS.
      2: { unfold clamp_bits. by rewrite (proj2 (Z.ltb_lt _ _) Hlt). }
      rewrite Hmin. reflexivity.
Qed.

(** The periodic retarget scales the old target by the measured over the
    expected timespan, exactly: for every in-range old difficulty and every
    timespan, the new target before encoding is
    floor(old * clamp(actual, expected/maxChange, expected*maxChange) / expected),
    with no 320-bit or 256-bit overflow; a chain exactly on schedule keeps its
    (canonical) difficulty once the compact encoding fix is applied. *)
Theorem retarget_exact (old act tgt mc : Z)
    (Ho : bits_in_range old) (Ht : 0 < tgt < 2 ^ 40) (Hmc : 1 <= mc <= 256) (Ha : 0 <= act) :
  (exists t, u256_wf t /\
     le_val t = compact_value old * clamp_timespan act tgt mc / tgt /\
     CalculateNextWorkRequired old act tgt mc = clamp_bits (BigToCompact t)) /\
  (canonical_compact old ->
     FixCompactEncoding (CalculateNextWorkRequired old tgt tgt mc) = old).
Proof.
  split; [by apply Calculate_exact|]. intros Hc.
  destruct (Calculate_exact old tgt tgt mc Ho Ht Hmc ltac:(lia)) as (t & W & V & ->).
  assert (clamp_timespan tgt tgt mc = tgt) as Hcl.
  { unfold clamp_timespan.
    assert (Z.quot tgt mc <= tgt) by (apply Z.quot_le_upper_bound; nia). nia. }
  rewrite Hcl, Z.div_mul in V by lia.
  replace t with (CompactToBig old); [by apply Fix_clamp_roundtrip|].
  destruct (CompactToBig_wf old), W. apply le_val_inj; [done..|congruence|].
  rewrite CompactToBig_val; [done|].
  unfold bits_in_range, MIN_DIFFICULTY_BITS, MAX_DIFFICULTY_BITS in Ho. lia.
Qed.

Lemma retarget_exact_witness :
  FixCompactEncoding (CalculateNextWorkRequired 0x1e01fffe 86400 86400 4) = 0x1e01fffe /\
  CalculateNextWorkRequired 0x1e01fffe 172800 86400 4 = 0x1e03fffc.
Proof.
  split; [|vm_compute; reflexivity].
  apply (retarget_exact 0x1e01fffe 172800 86400 4);
    unfold bits_in_range, MIN_DIFFICULTY_BITS, MAX_DIFFICULTY_BITS; try lia.
  vm_compute. intuition congruence.
Defined.

(** ** ASERT computes the exponential rule *)

Lemma asert_split_floor e :
  asert_split e = (e / 65536, e mod 65536).
Proof.
  unfold asert_split. pose proof (Z.mod_pos_bound e 65536 ltac:(lia)).
  rewrite Z.geb_leb. destruct (Z.leb_spec 0 e).
  - rewrite Z.quot_div_nonneg, Z.rem_mod_nonneg, u16_small by lia. done.
  - pose proof (Z.quot_rem e 65536 ltac:(lia)).
    pose proof (Z.rem_bound_pos_neg e 65536 ltac:(lia) ltac:(lia)).
    pose proof (Z.div_mod e 65536 ltac:(lia)).
    set (q := Z.quot e 65536) in *. set (r := Z.rem e 65536) in *.
    set (d := e / 65536) in *. set (m := e mod 65536) in *. clearbody q r d m.
    change (2 ^ 16) with 65536 in *.
    destruct (Z.ltb_spec r 0); rewrite u16_small by lia; f_equal; lia.
Qed.

(** The cubic without machine arithmetic. *)
Definition asert_poly (f : Z) : Z :=
  (195766423245049 * f + 971821376 * f ^ 2 + 5127 * f ^ 3 + 2 ^ 47) / 2 ^ 48.

Lemma asert_poly_range f : 0 <= f < 65536 ->
  0 <= 195766423245049 * f + 971821376 * f ^ 2 + 5127 * f ^ 3 + 2 ^ 47 < 2 ^ 64.
Proof.
  intros Hf. assert (0 <= f ^ 2 <= 65535 ^ 2) by (split; [lia|]; apply Z.pow_le_mono_l; lia).
  assert (0 <= f ^ 3 <= 65535 ^ 3)
    by (split; [apply Z.pow_nonneg; lia | apply Z.pow_le_mono_l; lia]).
  lia.
Qed.

Lemma asert_factor_exact f : 0 <= f < 65536 ->
  asert_factor f = 65536 + asert_poly f /\ 65536 <= asert_factor f < 131072.
Proof.
  intros Hf. pose proof (asert_poly_range f Hf) as HR.
  assert (0 <= f ^ 2 <= 65535 ^ 2) by (split; [lia|]; apply Z.pow_le_mono_l; lia).
  assert (0 <= f ^ 3 <= 65535 ^ 3)
    by (split; [apply Z.pow_nonneg; lia | apply Z.pow_le_mono_l; lia]).
  assert (0 <= asert_poly f < 65536) as HP.
  { unfold asert_poly. split; [apply Z.div_pos; lia | apply Z.div_lt_upper_bound; lia]. }
  unfold asert_factor. change (Z.shiftl 1 47) with (2 ^ 47).
  rewrite (u64_small (f * f)) by nia. replace (f * f) with (f ^ 2) by ring.
  replace (f ^ 2 * f) with (f ^ 3) by ring. rewrite (u64_small (f ^ 3)) by lia.
  rewrite (u64_small (195766423245049 * f)), (u64_small (971821376 * f ^ 2)),
    (u64_small (5127 * f ^ 3)) by lia.
  rewrite (u64_small (_ + 971821376 * f ^ 2)) by lia.
  rewrite (u64_small (_ + 5127 * f ^ 3)) by lia. rewrite (u64_small (_ + 2 ^ 47)) by lia.
  rewrite Z.shiftr_div_pow2 by lia. fold (asert_poly f).
  rewrite (u32_small (asert_poly f)), (u32_small (65536 + _)) by lia. lia.
Qed.

Lemma asert_extract_val p : bytes_ok p -> length p = 40%nat ->
  u256_wf (asert_extract p) /\ le_val (asert_extract p) = (le_val p / 65536) mod 2 ^ 256.
Proof.
  intros Hb Hl. unfold asert_extract. split.
  { split; [rewrite length_take, length_drop; lia | auto using bytes_ok_take, bytes_ok_drop]. }
  pose proof (le_val_take_drop p 2 ltac:(lia)) as H2.
  pose proof (le_val_take_drop (drop 2 p) 32 ltac:(rewrite length_drop; lia)) as H32.
  pose proof (le_val_take_bound p 2 Hb) as B2.
  pose proof (le_val_take_bound (drop 2 p) 32 (bytes_ok_drop p 2 Hb)) as B32.
  change (256 ^ Z.of_nat 2) with 65536 in *. change (256 ^ Z.of_nat 32) with (2 ^ 256) in *.
  rewrite H2, (Z.mul_comm 65536), Z.div_add, Z.div_small by lia.
  rewrite Z.add_0_l, H32, (Z.mul_comm (2 ^ 256)), Z.mod_add, Z.mod_small by lia. done.
Qed.

(** The rule ASERT approximates: scale by [2^(e/65536)], the fraction by the
    cubic, the whole half-lives by shifts. *)
Definition asert_target (T e : Z) : Z :=
  let q := T * (65536 + asert_poly (e mod 65536)) / 65536 in
  if 0 <=? e / 65536 then q * 2 ^ (e / 65536) else q / 2 ^ (- (e / 65536)).

Definition asert_exponent (params : ChainParams) (prev anchor : CBlockIndex) : Z :=
  Z.quot ((nTime prev - nTime anchor
           - blockTime params * (nHeight prev - nHeight anchor + 1)) * 65536)
    (asertHalflife params).

Definition asert_inputs_ok (params : ChainParams) (prev anchor : CBlockIndex) : Prop :=
  0 <= nTime prev < 2 ^ 32 /\ 0 <= nTime anchor < 2 ^ 32 /\
  0 <= nHeight anchor <= nHeight prev /\ nHeight prev < 2 ^ 31 - 1 /\
  0 < blockTime params < 2 ^ 10 /\ 0 < asertHalflife params /\
  bits_in_range (hnBits (header anchor)).

Lemma asert_exact_lemma params prev anchor :
  asert_inputs_ok params prev anchor ->
  let e := asert_exponent params prev anchor in
  let T := compact_value (hnBits (header anchor)) in
  GetNextWorkRequiredASERT params prev anchor = Some (
    if e / 65536 >? 255 then MAX_DIFFICULTY_BITS
    else if - (e / 65536) >? 255 then MIN_DIFFICULTY_BITS
    else let t := asert_target T e mod 2 ^ 256 in
      if t =? 0 then MIN_DIFFICULTY_BITS
      else clamp_bits (FixCompactEncoding (BigToCompact (le_bytes 32 t)))).
Proof.
  intros (Hp & Ha & Hh & Hh' & Hbt & Hhl & Hbits) e T.
  unfold GetNextWorkRequiredASERT.
  rewrite (i32_small (nHeight prev - nHeight anchor)) by lia.
  rewrite (i64_small (blockTime params * _)) by nia.
  rewrite (i64_small (nTime prev - nTime anchor - _)) by nia.
  rewrite i64_small by nia. fold (asert_exponent params prev anchor). fold e.
  destruct (Z.eqb_spec (asertHalflife params) 0); [lia|].
  rewrite asert_split_floor. f_equal.
  pose proof (Z.mod_pos_bound e 65536 ltac:(lia)) as Hf.
  destruct (asert_factor_exact (e mod 65536) Hf) as [HF HR].
  destruct (Multiply256x64_total (CompactToBig (hnBits (header anchor)))
    (asert_factor (e mod 65536)) (CompactToBig_wf _) ltac:(lia)) as [p E]. rewrite E.
  apply Multiply256x64_sound in E as (P1 & P2 & P3); [|apply CompactToBig_wf|lia].
  rewrite CompactToBig_val in P3
    by (unfold bits_in_range, MIN_DIFFICULTY_BITS, MAX_DIFFICULTY_BITS in Hbits; lia).
  fold T in P3. rewrite HF in P3.
  destruct (asert_extract_val p P1 P2) as [W V].
  pose proof (in_range_value _ Hbits) as HT. fold T in HT.
  set (q := T * (65536 + asert_poly (e mod 65536)) / 65536).
  assert (0 <= q < 2 ^ 248) as Hq.
  { unfold q. split; [apply Z.div_pos; nia | apply Z.div_lt_upper_bound; nia]. }
  rewrite P3 in V. fold q in V. rewrite (Z.mod_small q) in V by lia.
  rewrite !(Z.gtb_ltb _ 255).
  destruct (Z.ltb_spec 255 (e / 65536)); [done|].
  destruct (Z.ltb_spec 255 (- (e / 65536))); [done|]. cbn zeta.
  assert (asert_target T e = if 0 <=? e / 65536 then q * 2 ^ (e / 65536)
                             else q / 2 ^ (- (e / 65536))) as Ht by done.
  set (s := e / 65536) in *.
  set (nt := if s >? 0 then _ else _).
  assert (u256_wf nt /\ le_val nt = asert_target T e mod 2 ^ 256) as [Wn Vn].
  { rewrite Ht. unfold nt. rewrite Z.gtb_ltb. destruct (Z.ltb_spec 0 s).
    - rewrite (proj2 (Z.leb_le 0 s)), <- V by lia. apply ShiftTargetLeft_val; [done|lia].
    - destruct (Z.ltb_spec s 0).
      + rewrite (proj2 (Z.leb_gt 0 s)), <- V by lia.
        destruct (ShiftTargetRight_val (asert_extract p) (- s) W ltac:(lia)) as [W' V'].
        split; [done|]. rewrite V', V. symmetry. apply Z.mod_small.
        assert (0 < 2 ^ (- s)) by (apply Z.pow_pos_nonneg; lia).
        split; [apply Z.div_pos; lia|]. apply Z.div_lt_upper_bound; nia.
      + assert (s = 0) as -> by lia. cbn [Z.leb Z.compare]. change (2 ^ 0) with 1.
        rewrite Z.mul_1_r, (Z.mod_small q) by lia. done. }
  rewrite IsTargetZero_val, Vn by done.
  replace (le_bytes 32 (asert_target T e mod 2 ^ 256)) with nt; [done|].
  destruct Wn as [Ln Bn]. rewrite <- Vn, <- Ln. by rewrite le_bytes_le_val.
Qed.

Lemma asert_target_whole T k : 0 <= T -> 0 <= k -> asert_target T (65536 * k) = T * 2 ^ k.
Proof.
  intros HT Hk. unfold asert_target.
  rewrite (Z.mul_comm 65536), Z.mod_mul, Z.div_mul by lia.
  change (asert_poly 0) with 0. rewrite (proj2 (Z.leb_le 0 k)) by lia.
  by rewrite Z.add_0_r, Z.div_mul by lia.
Qed.

(** C11: ASERT is the exponential rule, exactly where its target fits and
    modulo 2^256 where it does not.  For 32-bit times, a parent not below the
    anchor, a block time of at most 1023 seconds, a positive half-life and an
    anchor difficulty in range, nothing overflows in the exponent, the cubic or
    the 320-bit product: more than 255 half-lives late the result is the easiest
    difficulty, more than 255 early the hardest, and otherwise the clamped,
    sign-fixed encoding of the ideal target [asert_target T e] modulo 2^256 (e
    the fixed-point number of half-lives the parent is late), or the hardest
    difficulty when that is zero.  So an ideal target that is positive and below 2^256 is
    encoded exactly, and one of 2^256 or more wraps ([asert_stall_wraps]).  A
    parent exactly on schedule gets the anchor's own (canonical) difficulty
    back, and the ideal target of one exactly [k] half-lives late is the
    anchor's times 2^k. *)
Theorem asert_exact (params : ChainParams) (prev anchor : CBlockIndex)
    (Hok : asert_inputs_ok params prev anchor) :
  let e := asert_exponent params prev anchor in
  let T := compact_value (hnBits (header anchor)) in
  GetNextWorkRequiredASERT params prev anchor = Some (
    if e / 65536 >? 255 then MAX_DIFFICULTY_BITS
    else if - (e / 65536) >? 255 then MIN_DIFFICULTY_BITS
    else let t := asert_target T e mod 2 ^ 256 in
      if t =? 0 then MIN_DIFFICULTY_BITS
      else clamp_bits (FixCompactEncoding (BigToCompact (le_bytes 32 t)))) /\
  (-255 <= e / 65536 <= 255 -> 0 < asert_target T e < 2 ^ 256 ->
   GetNextWorkRequiredASERT params prev anchor =
     Some (clamp_bits (FixCompactEncoding (BigToCompact (le_bytes 32 (asert_target T e)))))) /\
  (e = 0 -> canonical_compact (hnBits (header anchor)) ->
   GetNextWorkRequiredASERT params prev anchor = Some (hnBits (header anchor))) /\
  (forall k, 0 <= k -> e = 65536 * k -> asert_target T e = T * 2 ^ k).
Proof.
  intros e T. pose proof (asert_exact_lemma params prev anchor Hok) as HL.
  cbn zeta in HL. fold e T in HL. destruct Hok as (_ & _ & _ & _ & _ & _ & Hbits).
  pose proof (in_range_value _ Hbits) as HT. fold T in HT.
  assert (-255 <= e / 65536 <= 255 -> 0 < asert_target T e < 2 ^ 256 ->
    GetNextWorkRequiredASERT params prev anchor =
     Some (clamp_bits (FixCompactEncoding (BigToCompact (le_bytes 32 (asert_target T e)))))) as HG.
  { intros Hs Ht. rewrite HL, !Z.gtb_ltb.
    rewrite (proj2 (Z.ltb_ge 255 (e / 65536))), (proj2 (Z.ltb_ge 255 (- (e / 65536)))) by lia.
    by rewrite Z.mod_small, (proj2 (Z.eqb_neq (asert_target T e) 0)) by lia. }
  split_and!; [exact HL|done| |].
  - intros He Hc.
    assert (asert_target T 0 = T) as H0.
    { pose proof (asert_target_whole T 0 ltac:(lia) ltac:(lia)) as H0.
      by rewrite Z.mul_0_r, Z.mul_1_r in H0. }
    rewrite HG; rewrite He, ?H0; [|done|].
    + unfold T. rewrite <- CompactToBig_val by (by apply canonical_range).
      destruct (CompactToBig_wf (hnBits (header anchor))) as [L B].
      rewrite <- L, le_bytes_le_val, compact_roundtrip_fixed by done.
      by rewrite clamp_bits_id.
    + split; [|lia]. unfold T. rewrite canonical_value by done. destruct Hc as [Hs Hm].
      apply Z.mul_pos_pos; [lia|]. apply Z.pow_pos_nonneg; lia.
  - intros k Hk ->. apply asert_target_whole; lia.
Qed.

Lemma asert_exact_witness :
  GetNextWorkRequiredASERT Mainnet
    (sample_block 24599 (1000000 + 240 * 101) 0x1e01fffe None None)
    (sample_block 24499 1000000 0x1e01fffe None None) = Some 0x1e01fffe.
Proof.
  apply (asert_exact Mainnet
    (sample_block 24599 (1000000 + 240 * 101) 0x1e01fffe None None)
    (sample_block 24499 1000000 0x1e01fffe None None)).
  - unfold asert_inputs_ok, bits_in_range, MIN_DIFFICULTY_BITS, MAX_DIFFICULTY_BITS. simpl. lia.
  - vm_compute. reflexivity.
  - vm_compute. intuition congruence.
Defined.

(** A stall turns the rule around: 40 half-lives (16 days on mainnet) behind
    schedule the ideal target exceeds 2^256, the left shift drops its high bits,
    and the result is the hardest difficulty instead of the easiest. *)
Example asert_stall_wraps :
  let prev := sample_block 24500 (1000000 + 480 + 40 * 34560) 0x1e01fffe None None in
  let anchor := sample_block 24499 1000000 0x1e01fffe None None in
  asert_exponent Mainnet prev anchor = 65536 * 40 /\
  2 ^ 256 <= asert_target (compact_value 0x1e01fffe) (65536 * 40) /\
  GetNextWorkRequiredASERT Mainnet prev anchor = Some MIN_DIFFICULTY_BITS.
Proof. vm_compute. intuition congruence. Qed.

(** The guard against decreasing timestamps does not see them: the [unsigned]
    difference wraps to a large positive timespan, and a first block one second
    later than the last makes the retarget ease the difficulty by the maximal
    factor instead of leaving it alone. *)
Example retarget_backwards_time :
  let last := sample_block 2015 1000 0x1e01fffe (Some (sample_addr 0)) None in
  let first := sample_block 0 1001 0x1e01fffe None None in
  u32 (nTime last - nTime first) = 4294967295 /\
  CalculateNextWorkRequired 0x1e01fffe (u32 (nTime last - nTime first)) (2016 * 240) 4 =
    0x1e07fff8.
Proof. vm_compute. split; reflexivity. Qed.

(** ** Emergency adjustment *)

Fixpoint eda_target (n : nat) (x : Z) : Z :=
  match n with O => x | S n' => eda_target n' (x * 5 / 4) end.

Lemma eda_target_mono n : forall x, 0 <= x -> x <= eda_target n x.
Proof.
  induction n as [|n IH]; intros x Hx; simpl; [lia|].
  assert (x <= x * 5 / 4) by (apply Z.div_le_lower_bound; lia).
  specialize (IH (x * 5 / 4)). lia.
Qed.

Lemma EDA_loop_val n : forall t k, u256_wf t -> 0 <= k -> le_val t * 5 ^ Z.of_nat n < k * 4 ^ Z.of_nat n ->
  k <= 2 ^ 254 ->
  u256_wf (EDA_loop n t) /\ le_val (EDA_loop n t) = eda_target n (le_val t).
Proof.
  induction n as [|n IH]; intros t k Hw Hk Hb Hk2; cbn [EDA_loop eda_target]; [done|].
  pose proof (le_val_u256 t Hw) as Ht.
  destruct (Multiply256x64_total t EDA_REDUCTION_NUMERATOR Hw
    ltac:(unfold EDA_REDUCTION_NUMERATOR; lia)) as [p E]. rewrite E.
  apply Multiply256x64_sound in E as (P1 & P2 & P3); [|done|unfold EDA_REDUCTION_NUMERATOR; lia].
  destruct (Divide320x64_val p EDA_REDUCTION_DENOMINATOR P1 P2) as [W V];
    [unfold EDA_REDUCTION_DENOMINATOR; lia|].
  unfold EDA_REDUCTION_NUMERATOR, EDA_REDUCTION_DENOMINATOR in *.
  rewrite P3 in V. rewrite Nat2Z.inj_succ, !Z.pow_succ_r in Hb by lia.
  assert (0 < 5 ^ Z.of_nat n) by (apply Z.pow_pos_nonneg; lia).
  assert (0 < 4 ^ Z.of_nat n) by (apply Z.pow_pos_nonneg; lia).
  assert (4 ^ Z.of_nat n <= 5 ^ Z.of_nat n) by (apply Z.pow_le_mono_l; lia).
  pose proof (Z.mul_div_le (le_val t * 5) 4 ltac:(lia)) as Hd.
  assert (0 <= le_val t * 5 / 4) by (apply Z.div_pos; lia).
  set (y := le_val t * 5 / 4) in *.
  assert (y * 5 ^ Z.of_nat n < k * 4 ^ Z.of_nat n) by nia.
  assert (y < k) by nia.
  rewrite Z.mod_small in V by lia. rewrite <- V.
  apply (IH _ k W Hk); [|done]. by rewrite V.
Qed.

Lemma pow_5_4 k : 0 <= k <= 20 -> 5 ^ k <= 4 ^ k * 2 ^ 7.
Proof.
  intros Hk. assert (In k (Z.of_nat <$> seq 0 21)) as Hin.
  { apply list_elem_of_In, list_elem_of_fmap. exists (Z.to_nat k).
    split; [lia|]. apply elem_of_seq. lia. }
  simpl in Hin. repeat destruct Hin as [<-|Hin]; [vm_compute; congruence..|done].
Qed.

(** the emergency adjustment: it fires exactly when EDA is active and the
    gap since the last block exceeds the threshold (6 blocks, 15 after the v3
    fork); it then eases the target by k rounds of exact floor(5x/4) with
    k = min((gap - threshold)/step + 1, 20) in 1..20, never making the raw
    target harder, and the answer stays in the allowed range. *)
Theorem EDA_correct (params : ChainParams) (h t l prev : Z)
    (Hprev : bits_in_range prev) (Hbt : 0 < blockTime params < 2 ^ 10)
    (Ht : 0 <= t < 2 ^ 32) (Hl : 0 <= l < 2 ^ 32) :
  let v3 := h >=? difficultyV3ForkHeight params in
  let threshold := (if v3 then 15 else 6) * blockTime params in
  let active := (t >? 0) && (edaActivationHeight params >=? 0)
                && (h >=? edaActivationHeight params) in
  let k := Z.min ((t - l - threshold) / threshold + 1) 20 in
  EDA_bits params h t l prev =
    (if active && (t - l >? threshold)
     then Some (Some (eda_clamp (apply_fix params h (BigToCompact
            (le_bytes 32 (eda_target (Z.to_nat k) (compact_value prev)))))))
     else Some None) /\
  (t - l > threshold -> 1 <= k <= 20) /\
  compact_value prev <= eda_target (Z.to_nat k) (compact_value prev) /\
  forall b, EDA_bits params h t l prev = Some (Some b) -> bits_in_range b.
Proof.
  intros v3 threshold active k. pose proof (in_range_value prev Hprev) as HT.
  assert (0 < threshold) as Hth by (unfold threshold; destruct v3; lia).
  assert (t - l > threshold -> 1 <= k <= 20) as Hk.
  { intros Hgt. unfold k. pose proof (Z.div_pos (t - l - threshold) threshold ltac:(lia) Hth). lia. }
  split_and!; [|done|apply eda_target_mono; lia|apply EDA_bits_range].
  unfold EDA_bits. fold active. destruct active; [|done]. cbn [andb].
  rewrite (i64_small (t - l)) by lia. fold v3.
  unfold EDA_THRESHOLD_BLOCKS, EDA_STEP_BLOCKS, EDA_MAX_STEPS. fold threshold.
  rewrite Z.gtb_ltb. destruct (Z.ltb_spec threshold (t - l)) as [Hgt|]; [|done].
  rewrite (proj2 (Z.eqb_neq threshold 0)), Z.quot_div_nonneg by lia. fold k.
  pose proof (CompactToBig_wf prev) as W0.
  assert (le_val (CompactToBig prev) = compact_value prev) as V0.
  { apply CompactToBig_val.
    unfold bits_in_range, MIN_DIFFICULTY_BITS, MAX_DIFFICULTY_BITS in Hprev. lia. }
  destruct (EDA_loop_val (Z.to_nat k) (CompactToBig prev) (2 ^ 254) W0) as [W V]; [lia| |lia|].
  { rewrite V0. rewrite Z2Nat.id by lia.
    pose proof (pow_5_4 k ltac:(lia)).
    assert (0 < 4 ^ k) by (apply Z.pow_pos_nonneg; lia). nia. }
  do 5 f_equal. rewrite <- V0, <- V. destruct W as [L B]. rewrite <- L. symmetry. by apply le_bytes_le_val.
Qed.

Lemma EDA_correct_witness :
  EDA_bits Mainnet 20000 (1000000 + 3000) 1000000 0x1e01fffe = Some (Some 0x1e031ffc).
Proof.
  destruct (EDA_correct Mainnet 20000 (1000000 + 3000) 1000000 0x1e01fffe) as [H _].
  - unfold bits_in_range, MIN_DIFFICULTY_BITS, MAX_DIFFICULTY_BITS. lia.
  - simpl. lia.
  - lia.
  - lia.
  - rewrite H. vm_compute. reflexivity.
Defined.

(** ** Median time past *)

Lemma collect_times_total st : index_wf st -> forall n p,
  match p with Some a => is_Some (st !! a) | None => True end ->
  exists ts, collect_times st n p = Some ts /\ (length ts <= n)%nat /\
    (ts = [] -> n = 0%nat \/ p = None).
Proof.
  intros Hwf n. induction n as [|n IH]; intros p Hp; simpl.
  { exists []. auto. }
  destruct p as [a|]; [|exists []; split_and!; auto; simpl; lia].
  destruct Hp as [b Hb]. rewrite Hb. simpl.
  destruct (IH (pprev b)) as (ts & -> & Hl & _).
  { destruct (Hwf a b Hb) as [[_ Hl] _]. destruct (pprev b); [|done].
    destruct Hl as (bq & -> & _). eauto. }
  exists (nTime b :: ts). simpl. split_and!; [done|lia|done].
Qed.

(** How many elements of a list are below [m]. *)
Definition count_lt (m : Z) (l : list Z) : nat := length (filter (fun x => x < m) l).

Lemma count_lt_perm m l k : l ≡ₚ k -> count_lt m l = count_lt m k.
Proof. intros H. unfold count_lt. by rewrite H. Qed.

Lemma count_lt_app m l k : count_lt m (l ++ k) = (count_lt m l + count_lt m k)%nat.
Proof. unfold count_lt. by rewrite filter_app, length_app. Qed.

Lemma count_lt_cons m x l :
  count_lt m (x :: l) = Nat.add (if decide (x < m) then 1%nat else 0%nat) (count_lt m l).
Proof. unfold count_lt. rewrite filter_cons. by case_decide. Qed.

Lemma count_lt_zero m l : Forall (fun x => m <= x) l -> count_lt m l = 0%nat.
Proof.
  induction 1 as [|x l Hx _ IH]; [done|]. rewrite count_lt_cons, IH. case_decide; lia.
Qed.

(** In a sorted list, position [k] is at least [m] iff at most [k] elements are below [m]. *)
Lemma sorted_nth_count l : StronglySorted Z.le l -> forall k m,
  (k < length l)%nat -> (m <= nth k l 0 <-> (count_lt m l <= k)%nat).
Proof.
  induction 1 as [|x l HS IH HF]; intros k m Hk; simpl in Hk; [lia|].
  rewrite count_lt_cons. destruct k as [|k]; simpl.
  - case_decide; [lia|]. split; [|lia]. intros _.
    rewrite count_lt_zero; [lia|]. eapply Forall_impl; [exact HF|]. simpl. lia.
  - destruct (decide (x < m)) as [|Hx].
    + rewrite IH by lia. lia.
    + split; intros _; [|].
      * rewrite count_lt_zero; [lia|]. eapply Forall_impl; [exact HF|]. simpl. lia.
      * apply IH; [lia|]. rewrite count_lt_zero; [lia|].
        eapply Forall_impl; [exact HF|]. simpl. lia.
Qed.

#[local] Instance Zle_total : Total Z.le.
Proof. intros x y. lia. Qed.

Lemma median_count l m : l <> [] -> (m <= median l <-> (count_lt m l <= length l / 2)%nat).
Proof.
  intros Hl. unfold median.
  rewrite (sorted_nth_count (merge_sort Z.le l)).
  - by rewrite (count_lt_perm m _ _ (merge_sort_Permutation Z.le l)).
  - apply Sorted_StronglySorted; [apply _|]. apply Sorted_merge_sort. apply _.
  - rewrite (Permutation_length (merge_sort_Permutation Z.le l)).
    destruct l; [done|]. apply Nat.div_lt; simpl; lia.
Qed.

Lemma median_elem l : l <> [] -> median l ∈ l.
Proof.
  intros Hl. unfold median. apply list_elem_of_In.
  eapply Permutation_in; [apply (merge_sort_Permutation Z.le l)|].
  apply nth_In. rewrite (Permutation_length (merge_sort_Permutation Z.le l)).
  destruct l; [done|]. apply Nat.div_lt; simpl; lia.
Qed.

(** The window of a child is the child's time in front of the parent's window,
    cut to 11. *)
Lemma median_push t ts :
  ts <> [] -> (length ts <= 11)%nat -> median ts < t ->
  median ts <= median (t :: take 10 ts).
Proof.
  intros Hts Hlen Ht. apply median_count; [done|].
  rewrite count_lt_cons. rewrite decide_False by lia. simpl (0 + _)%nat.
  pose proof (proj1 (median_count ts (median ts) Hts) ltac:(lia)) as Hc.
  set (m := median ts) in *. rewrite <- (take_drop 10 ts) in Hc at 1.
  rewrite count_lt_app in Hc. simpl length. rewrite length_take.
  destruct (le_lt_dec (length ts) 10).
  - rewrite Nat.min_r by lia.
    assert (length ts / 2 <= S (length ts) / 2)%nat by (apply Nat.Div0.div_le_mono; lia). lia.
  - replace (length ts) with 11%nat in * by lia.
    change (11 / 2)%nat with 5%nat in *. change (S (10 `min` 11) / 2)%nat with 5%nat. lia.
Qed.

Lemma collect_times_S st n a b :
  st !! a = Some b ->
  collect_times st (S n) (Some a) = (cons (nTime b)) <$> collect_times st n (pprev b).
Proof. intros H. simpl. rewrite H. simpl. by destruct (collect_times st n (pprev b)). Qed.

Lemma collect_times_take st n : forall k p ts,
  collect_times st n p = Some ts -> (k <= n)%nat -> collect_times st k p = Some (take k ts).
Proof.
  induction n as [|n IH]; intros [|k] p ts H Hk; try lia; simpl in *.
  - by simplify_eq.
  - by rewrite take_0.
  - destruct p as [a|]; [|by simplify_eq].
    destruct (st !! a) as [b|]; simpl in *; [|done].
    destruct (collect_times st n (pprev b)) as [ts'|] eqn:E; simpl in *; [|done].
    simplify_eq. simpl. by rewrite (IH k _ _ E) by lia.
Qed.

Lemma GetMedianTimePast_some st p b :
  index_wf st -> st !! p = Some b ->
  exists ts, collect_times st 11 (Some p) = Some ts /\ ts <> [] /\ (length ts <= 11)%nat /\
    GetMedianTimePast st (Some p) = Some (median ts).
Proof.
  intros Hwf Hp. destruct (collect_times_total st Hwf 11 (Some p)) as (ts & E & Hl & Hne); [eauto|].
  assert (ts <> []) by (intros H; destruct (Hne H); done).
  exists ts. split_and!; [done..|]. unfold GetMedianTimePast.
  rewrite E. simpl. by rewrite bool_decide_eq_false_2.
Qed.

(** the median time past of a block in a well-formed index is the median
    of the (at most 11) timestamps up to it: it is one of them, and a time is
    at most the median exactly when no more than half of them (rounded down)
    lie below it. *)
Theorem GetMedianTimePast_is_median (st : index_store) (p : addr) (b : CBlockIndex)
    (Hwf : index_wf st) (Hp : st !! p = Some b) :
  exists ts m, collect_times st 11 (Some p) = Some ts /\
    GetMedianTimePast st (Some p) = Some m /\
    (1 <= length ts <= 11)%nat /\ m ∈ ts /\
    (forall x, x <= m <-> (count_lt x ts <= length ts / 2)%nat).
Proof.
  destruct (GetMedianTimePast_some st p b Hwf Hp) as (ts & E & Hne & Hl & HM).
  exists ts, (median ts). split_and!; try done.
  - destruct ts; [done|simpl; lia].
  - by apply median_elem.
  - intros x. by apply median_count.
Qed.

Lemma GetMedianTimePast_is_median_witness :
  exists m, GetMedianTimePast (sample_chain 15 1000 240 0x1e01fffe) (Some (sample_addr 14)) = Some m
    /\ m = 1000 + 240 * 9.
Proof.
  destruct (GetMedianTimePast_is_median (sample_chain 15 1000 240 0x1e01fffe) (sample_addr 14)
    (sample_block 14 (1000 + 240 * 14) 0x1e01fffe (Some (sample_addr 13)) None)) as (ts & m & _ & H & _).
  - apply index_wfb_sound. vm_compute. reflexivity.
  - vm_compute. reflexivity.
  - exists m. split; [done|]. revert H. vm_compute. congruence.
Defined.

(** ** Timestamp rules *)

(** What the rules demand of a block on top of [p]. *)
Definition timestamp_rules (params : ChainParams) (st : index_store) (now t : Z)
    (p : addr) (prev : CBlockIndex) (h : Z) : Prop :=
  t <> 0 /\
  t <= now + (if (0 <=? h) && (timestampValidationHeight params <=? h) then 600 else 7200) /\
  (exists m, GetMedianTimePast st (Some p) = Some m /\ m < t) /\
  (0 < minBlockTimestampGap params -> minBlockTimestampGapHeight params <= h ->
   nTime prev + minBlockTimestampGap params <= t).

Lemma CheckBlockTimestamp_iff_lemma params st now t p prev h :
  index_wf st -> st !! p = Some prev ->
  CheckBlockTimestamp (Some params) st now t (Some p) h = Some (Ok tt) <->
  timestamp_rules params st now t p prev h.
Proof.
  intros Hwf Hp. unfold CheckBlockTimestamp, timestamp_rules.
  destruct (GetMedianTimePast_some st p prev Hwf Hp) as (ts & _ & _ & _ & HM).
  rewrite HM. cbn [mbind option_bind]. rewrite Hp. cbn [mbind option_bind].
  unfold MAX_FUTURE_BLOCK_TIME, MAX_FUTURE_BLOCK_TIME_V2. rewrite !Z.geb_leb, !Z.gtb_ltb.
  set (F := if (0 <=? h) && _ then 600 else 7200).
  destruct (Z.eqb_spec t 0); [split; [done|tauto]|].
  destruct (Z.ltb_spec (now + F) t); [split; [done|intros (_ & ? & _); lia]|].
  destruct (Z.leb_spec t (median ts)).
  { split; [done|]. intros (_ & _ & (m & Hm & Hlt) & _). simplify_eq. lia. }
  assert (exists m, Some (median ts) = Some m /\ m < t) by eauto.
  destruct (Z.ltb_spec 0 (minBlockTimestampGap params)),
    (Z.leb_spec (minBlockTimestampGapHeight params) h); cbn [andb];
    try (split; [intros _; split_and!; try done; lia | done]).
  destruct (Z.ltb_spec t (nTime prev + minBlockTimestampGap params)).
  - split; [done|]. intros (_ & _ & _ & Hg). specialize (Hg ltac:(lia) ltac:(lia)). lia.
  - split; [intros _; split_and!; try done; lia | done].
Qed.

(** [CheckBlockTimestamp] accepts a block on top of an indexed parent
    exactly when its time is non-zero, at most 600 s (7200 s before the fork)
    ahead of the clock, later than the parent's median time past, and, where
    the minimum-gap rule is active, at least the gap after the parent; it
    always produces a verdict on a well-formed index. *)
Theorem CheckBlockTimestamp_iff (params : ChainParams) (st : index_store) (now t : Z)
    (p : addr) (prev : CBlockIndex) (h : Z)
    (Hwf : index_wf st) (Hp : st !! p = Some prev) :
  is_Some (CheckBlockTimestamp (Some params) st now t (Some p) h) /\
  (CheckBlockTimestamp (Some params) st now t (Some p) h = Some (Ok tt) <->
   timestamp_rules params st now t p prev h).
Proof.
  split; [|by apply CheckBlockTimestamp_iff_lemma].
  unfold CheckBlockTimestamp.
  destruct (GetMedianTimePast_some st p prev Hwf Hp) as (ts & _ & _ & _ & ->).
  cbn [mbind option_bind]. rewrite Hp. cbn [mbind option_bind].
  repeat case_match; eauto.
Qed.

Lemma CheckBlockTimestamp_iff_witness :
  CheckBlockTimestamp (Some DilV) (sample_chain 15 1000 45 0x1d00ffff) 1700 1675
    (Some (sample_addr 14)) 37001 = Some (Ok tt).
Proof.
  apply (CheckBlockTimestamp_iff DilV (sample_chain 15 1000 45 0x1d00ffff) 1700 1675
    (sample_addr 14) (sample_block 14 1630 0x1d00ffff (Some (sample_addr 13)) None) 37001).
  - apply index_wfb_sound. vm_compute. reflexivity.
  - vm_compute. reflexivity.
  - unfold timestamp_rules. split_and!; [lia|simpl; lia| |simpl; lia].
    exists 1405. split; [vm_compute; reflexivity|lia].
Defined.

(** Accepted timestamps keep the median time past from going backwards:
    if the timestamp of an indexed block was accepted on top of its parent,
    the block's own median time past is at least its parent's. *)
Theorem median_time_monotone (g : option ChainParams) (st : index_store) (now h : Z)
    (c p : addr) (child : CBlockIndex)
    (Hwf : index_wf st) (Hc : st !! c = Some child) (Hprev : pprev child = Some p)
    (Hok : CheckBlockTimestamp g st now (nTime child) (Some p) h = Some (Ok tt)) :
  exists mp mc, GetMedianTimePast st (Some p) = Some mp /\
    GetMedianTimePast st (Some c) = Some mc /\ mp <= mc.
Proof.
  destruct (Hwf c child Hc) as [[_ Hl] _]. rewrite Hprev in Hl. destruct Hl as (bp & Hp & _).
  destruct (GetMedianTimePast_some st p bp Hwf Hp) as (ts & E & Hne & Hl & HM).
  destruct (GetMedianTimePast_some st c child Hwf Hc) as (tc & Ec & _ & _ & HMc).
  exists (median ts), (median tc). split_and!; [done..|].
  assert (tc = nTime child :: take 10 ts) as ->.
  { rewrite (collect_times_S st 10 c child Hc), Hprev in Ec.
    rewrite (collect_times_take st 11 10 _ _ E) in Ec by lia. injection Ec as <-. done. }
  apply median_push; [done..|].
  unfold CheckBlockTimestamp in Hok. rewrite HM in Hok. cbn [mbind option_bind] in Hok.
  destruct (Z.leb_spec (nTime child) (median ts)); [|done].
  repeat case_match; done.
Qed.

Lemma median_time_monotone_witness :
  exists mp mc,
    GetMedianTimePast (sample_chain 15 1000 240 0x1e01fffe) (Some (sample_addr 13)) = Some mp /\
    GetMedianTimePast (sample_chain 15 1000 240 0x1e01fffe) (Some (sample_addr 14)) = Some mc /\
    mp <= mc.
Proof.
  apply (median_time_monotone (Some Mainnet) (sample_chain 15 1000 240 0x1e01fffe) 5000 14
    (sample_addr 14) (sample_addr 13)
    (sample_block 14 (1000 + 240 * 14) 0x1e01fffe (Some (sample_addr 13)) None)).
  - apply index_wfb_sound. vm_compute. reflexivity.
  - vm_compute. reflexivity.
  - reflexivity.
  - vm_compute. reflexivity.
Defined.
