(* ===== verification/Transaction.v ===== *)
(** * Transactions (primitives/transaction.h, primitives/transaction.cpp)

    The transaction data types, the wire encoding with its CompactSize
    lengths, the bounds-checked decoder, the signing hash and the structural
    checks.  A decoder step is a function from the remaining bytes to a value
    and the bytes left, or to the error the code reports; [ptr] and [end] are
    the two ends of that remaining list.  SHA3-256 is third-party code and a
    section variable.  The [hash_cached] memo of [CTransaction] is not carried:
    the code resets it on construction, copy and decoding. *)

From S2P Require Import Prelude Uint256.

(** ** Data *)

Record COutPoint := mkOutPoint { op_hash : uint256; op_n : Z }.
Record CTxIn := mkTxIn { prevout : COutPoint; scriptSig : list Z; nSequence : Z }.
Record CTxOut := mkTxOut { nValue : Z; scriptPubKey : list Z }.
Record CTransaction := mkTx {
  tx_nVersion : Z;
  vin : list CTxIn;
  vout : list CTxOut;
  nLockTime : Z
}.

#[export] Instance COutPoint_eq_dec : EqDecision COutPoint.
Proof. solve_decision. Defined.
#[export] Instance CTxIn_eq_dec : EqDecision CTxIn.
Proof. solve_decision. Defined.
#[export] Instance CTxOut_eq_dec : EqDecision CTxOut.
Proof. solve_decision. Defined.
#[export] Instance CTransaction_eq_dec : EqDecision CTransaction.
Proof. solve_decision. Defined.
#[export] Instance COutPoint_countable : Countable COutPoint.
Proof.
  refine (inj_countable' (fun o => (op_hash o, op_n o)) (fun p => mkOutPoint p.1 p.2) _).
  by intros [].
Defined.

Definition SEQUENCE_FINAL : Z := 0xffffffff.

Definition OutPoint_IsNull (o : COutPoint) : bool :=
  IsNull (op_hash o) && (op_n o =? 0xffffffff).
Definition TxOut_IsNull (o : CTxOut) : bool :=
  (nValue o =? 0) && bool_decide (scriptPubKey o = []).
Definition Tx_IsNull (tx : CTransaction) : bool :=
  bool_decide (vin tx = []) && bool_decide (vout tx = []).
Definition IsCoinBase (tx : CTransaction) : bool :=
  match vin tx with
  | [i] => OutPoint_IsNull (prevout i)
  | _ => false
  end.

(** ** Encoding *)

Definition SerializeUint32 (value : Z) : list Z :=
  [u8 value; u8 (Z.shiftr value 8); u8 (Z.shiftr value 16); u8 (Z.shiftr value 24)].

Definition SerializeUint64 (value : Z) : list Z :=
  [u8 value; u8 (Z.shiftr value 8); u8 (Z.shiftr value 16); u8 (Z.shiftr value 24);
   u8 (Z.shiftr value 32); u8 (Z.shiftr value 40); u8 (Z.shiftr value 48);
   u8 (Z.shiftr value 56)].

Definition SerializeCompactSize (size : Z) : list Z :=
  if size <? 253 then [u8 size]
  else if size <=? 0xFFFF then [253; u8 size; u8 (Z.shiftr size 8)]
  else if size <=? 0xFFFFFFFF then 254 :: SerializeUint32 (u32 size)
  else 255 :: SerializeUint64 size.

(** [vector::size()] *)
Definition len {A} (l : list A) : Z := Z.of_nat (length l).

Definition SerializeTxIn (txin : CTxIn) : list Z :=
  op_hash (prevout txin) ++ SerializeUint32 (op_n (prevout txin)) ++
  SerializeCompactSize (len (scriptSig txin)) ++ scriptSig txin ++
  SerializeUint32 (nSequence txin).

Definition SerializeTxOut (txout : CTxOut) : list Z :=
  SerializeUint64 (nValue txout) ++
  SerializeCompactSize (len (scriptPubKey txout)) ++ scriptPubKey txout.

Definition Serialize (tx : CTransaction) : list Z :=
  SerializeUint32 (u32 (tx_nVersion tx)) ++
  SerializeCompactSize (len (vin tx)) ++ concat (SerializeTxIn <$> vin tx) ++
  SerializeCompactSize (len (vout tx)) ++ concat (SerializeTxOut <$> vout tx) ++
  SerializeUint32 (nLockTime tx).

(** The bytes [GetSigningHash] hashes: every scriptSig replaced by an empty one. *)
Definition SigningTxIn (txin : CTxIn) : list Z :=
  op_hash (prevout txin) ++ SerializeUint32 (op_n (prevout txin)) ++
  SerializeCompactSize 0 ++ SerializeUint32 (nSequence txin).

Definition SigningBytes (tx : CTransaction) : list Z :=
  SerializeUint32 (u32 (tx_nVersion tx)) ++
  SerializeCompactSize (len (vin tx)) ++ concat (SigningTxIn <$> vin tx) ++
  SerializeCompactSize (len (vout tx)) ++ concat (SerializeTxOut <$> vout tx) ++
  SerializeUint32 (nLockTime tx).

(** ** Size *)

Definition CompactSizeLen (n : Z) : Z :=
  if n <? 253 then 1 else if n <=? 0xFFFF then 3 else if n <=? 0xFFFFFFFF then 5 else 9.

Fixpoint sum_list (l : list Z) : Z :=
  match l with [] => 0 | x :: l' => x + sum_list l' end.

Definition GetSerializedSize (tx : CTransaction) : Z :=
  4 + CompactSizeLen (len (vin tx)) +
  sum_list ((fun i => 32 + 4 + CompactSizeLen (len (scriptSig i)) + len (scriptSig i) + 4)
              <$> vin tx) +
  CompactSizeLen (len (vout tx)) +
  sum_list ((fun o => 8 + CompactSizeLen (len (scriptPubKey o)) + len (scriptPubKey o))
              <$> vout tx) + 4.

(** ** Decoding *)

Inductive DeserError : Set :=
| InsufficientUint32 | InsufficientUint64 | InsufficientCompactSize | InsufficientCompactSize2
| TooManyInputs | ClaimsMoreInputs | InsufficientPrevout | ScriptSigTooLarge
| InsufficientScriptSig | TooManyOutputs | ClaimsMoreOutputs | ScriptPubKeyTooLarge
| InsufficientScriptPubKey | ExtraData.

Definition parser (A : Type) : Type := list Z -> result DeserError (A * list Z).

Definition p_ret {A} (a : A) : parser A := fun s => Ok (a, s).
Definition p_bind {A B} (p : parser A) (f : A -> parser B) : parser B :=
  fun s => match p s with Ok (a, s') => f a s' | Err e => Err e end.
Definition p_fail {A} (e : DeserError) : parser A := fun _ => Err e.

Notation "'parse' x 'from' p ; k" := (p_bind p (fun x => k))
  (at level 10, x binder, p at level 100, k at level 200,
   format "'[v' 'parse'  x  'from'  p ; '/' k ']'") : dil_scope.

(** [if (end - ptr < n) fail; take n bytes; ptr += n] *)
Definition p_bytes (n : Z) (e : DeserError) : parser (list Z) :=
  fun s => if len s <? n then Err e
           else Ok (take (Z.to_nat n) s, drop (Z.to_nat n) s).

(** [if (cond) fail] on the number of bytes that remain. *)
Definition p_remaining : parser Z := fun s => Ok (len s, s).

Definition DeserializeUint32 : parser Z :=
  parse d from p_bytes 4 InsufficientUint32;
  p_ret (Z.lor (Z.lor (Z.lor (byte_at d 0) (Z.shiftl (byte_at d 1) 8))
                      (Z.shiftl (byte_at d 2) 16)) (Z.shiftl (byte_at d 3) 24)).

Definition DeserializeUint64 : parser Z :=
  parse d from p_bytes 8 InsufficientUint64;
  p_ret (Z.lor (Z.lor (Z.lor (Z.lor (Z.lor (Z.lor (Z.lor
    (byte_at d 0) (Z.shiftl (byte_at d 1) 8)) (Z.shiftl (byte_at d 2) 16))
    (Z.shiftl (byte_at d 3) 24)) (Z.shiftl (byte_at d 4) 32)) (Z.shiftl (byte_at d 5) 40))
    (Z.shiftl (byte_at d 6) 48)) (Z.shiftl (byte_at d 7) 56)).

Definition DeserializeCompactSize : parser Z :=
  parse f from p_bytes 1 InsufficientCompactSize;
  let first := byte_at f 0 in
  if first <? 253 then p_ret first
  else if first =? 253 then
    parse d from p_bytes 2 InsufficientCompactSize2;
    p_ret (Z.lor (byte_at d 0) (Z.shiftl (byte_at d 1) 8))
  else if first =? 254 then DeserializeUint32
  else DeserializeUint64.

Definition MIN_TX_INPUT_SIZE : Z := 41.
Definition MIN_TX_OUTPUT_SIZE : Z := 9.

Definition DeserializeTxIn : parser CTxIn :=
  parse hash from p_bytes 32 InsufficientPrevout;
  parse n from DeserializeUint32;
  parse scriptSig_len from DeserializeCompactSize;
  if scriptSig_len >? 20000 then p_fail ScriptSigTooLarge
  else
    parse script from p_bytes scriptSig_len InsufficientScriptSig;
    parse sequence from DeserializeUint32;
    p_ret (mkTxIn (mkOutPoint hash n) script sequence).

Definition DeserializeTxOut : parser CTxOut :=
  parse value from DeserializeUint64;
  parse scriptPubKey_len from DeserializeCompactSize;
  if scriptPubKey_len >? 10000 then p_fail ScriptPubKeyTooLarge
  else
    parse script from p_bytes scriptPubKey_len InsufficientScriptPubKey;
    p_ret (mkTxOut value script).

(** [for (size_t i = 0; i < count; i++)] *)
Fixpoint p_repeat {A} (n : nat) (p : parser A) : parser (list A) :=
  match n with
  | O => p_ret []
  | S n' => parse x from p; parse xs from p_repeat n' p; p_ret (x :: xs)
  end.

(** [Deserialize] with [bytesConsumed]: the transaction and the bytes left. *)
Definition DeserializePrefix : parser CTransaction :=
  parse version from DeserializeUint32;
  parse vin_count from DeserializeCompactSize;
  if vin_count >? 100000 then p_fail TooManyInputs
  else
    parse left1 from p_remaining;
    if u64 (vin_count * MIN_TX_INPUT_SIZE) >? left1 then p_fail ClaimsMoreInputs
    else
      parse ins from p_repeat (Z.to_nat vin_count) DeserializeTxIn;
      parse vout_count from DeserializeCompactSize;
      if vout_count >? 100000 then p_fail TooManyOutputs
      else
        parse left2 from p_remaining;
        if u64 (vout_count * MIN_TX_OUTPUT_SIZE) >? left2 then p_fail ClaimsMoreOutputs
        else
          parse outs from p_repeat (Z.to_nat vout_count) DeserializeTxOut;
          parse locktime from DeserializeUint32;
          p_ret (mkTx (i32 version) ins outs locktime).

(** [Deserialize]: with a [bytesConsumed] pointer trailing data is allowed and
    the count of consumed bytes is returned, without one it is an error. *)
Definition Deserialize (data : list Z) (wantConsumed : bool)
  : result DeserError (CTransaction * Z) :=
  match DeserializePrefix data with
  | Err e => Err e
  | Ok (tx, rest) =>
      if negb wantConsumed && negb (bool_decide (rest = [])) then Err ExtraData
      else Ok (tx, len data - len rest)
  end.

(** ** Hashes, values and structure *)

Section Hashes.
  Variable SHA3_256 : list Z -> uint256.

Definition Tx_GetHash (tx : CTransaction) : uint256 := SHA3_256 (Serialize tx).
Definition GetSigningHash (tx : CTransaction) : uint256 := SHA3_256 (SigningBytes tx).
End Hashes.

(** [GetValueOut]: [None] is the [std::runtime_error] it throws. *)
Fixpoint GetValueOut_loop (total : Z) (outs : list CTxOut) : option Z :=
  match outs with
  | [] => Some total
  | o :: outs' =>
      if nValue o >? UINT64_MAX - total then None
      else GetValueOut_loop (u64 (total + nValue o)) outs'
  end.

Definition GetValueOut (tx : CTransaction) : option Z := GetValueOut_loop 0 (vout tx).

Fixpoint basic_outputs (totalOut : Z) (outs : list CTxOut) : bool :=
  match outs with
  | [] => true
  | o :: outs' =>
      if nValue o >? 21000000 * 100000000 then false
      else if nValue o >? UINT64_MAX - totalOut then false
      else basic_outputs (u64 (totalOut + nValue o)) outs'
  end.

(** The [std::set] scan for duplicate inputs. *)
Fixpoint unique_prevouts (seen : gset COutPoint) (ins : list CTxIn) : bool :=
  match ins with
  | [] => true
  | i :: ins' =>
      if bool_decide (prevout i ∈ seen) then false
      else unique_prevouts ({[ prevout i ]} ∪ seen) ins'
  end.

Definition CheckBasicStructure (tx : CTransaction) : bool :=
  if bool_decide (vin tx = []) then false
  else if bool_decide (vout tx = []) then false
  else if negb (basic_outputs 0 (vout tx)) then false
  else if GetSerializedSize tx >? 1000000 then false
  else if IsCoinBase tx then
    match vin tx with
    | i :: _ => negb ((len (scriptSig i) <? 2) || (len (scriptSig i) >? 6000))
    | [] => false
    end
  else
    forallb (fun i => negb (OutPoint_IsNull (prevout i))) (vin tx) &&
    unique_prevouts ∅ (vin tx).

(** ** Integers on the wire *)

Lemma SerializeUint32_le v : 0 <= v -> SerializeUint32 v = le_bytes 4 v.
Proof.
  intros Hv. unfold SerializeUint32, u8. cbn [le_bytes].
  rewrite !Z.shiftr_div_pow2 by lia. rewrite !Z.div_div by lia. reflexivity.
Qed.

Lemma SerializeUint64_le v : 0 <= v -> SerializeUint64 v = le_bytes 8 v.
Proof.
  intros Hv. unfold SerializeUint64, u8. cbn [le_bytes].
  rewrite !Z.shiftr_div_pow2 by lia. rewrite !Z.div_div by lia. reflexivity.
Qed.

(** A chain of ors of shifted bytes is the little-endian value. *)
Lemma lor_byte_step l k b :
  bytes_ok l -> k = 8 * Z.of_nat (length l) ->
  Z.lor (le_val l) (Z.shiftl b k) = le_val (l ++ [b]).
Proof.
  intros Hl ->. pose proof (le_val_bound l Hl) as Hb. rewrite pow_256 in Hb by lia.
  rewrite lor_shiftl_disjoint by lia. rewrite le_val_app. cbn [le_val].
  rewrite pow_256 by lia. lia.
Qed.

Ltac or_bytes :=
  unfold byte_at; cbn [nth];
  match goal with |- context [Z.lor ?a (Z.shiftl ?b 8)] =>
    replace (Z.lor a (Z.shiftl b 8)) with (Z.lor (le_val [a]) (Z.shiftl b 8))
      by (f_equal; cbn [le_val]; lia) end;
  repeat match goal with |- context [Z.lor (le_val ?l) (Z.shiftl ?b ?k)] =>
    rewrite (lor_byte_step l k b);
      [|repeat first [assumption | apply Forall_app_2 | apply Forall_cons_2 | apply Forall_nil_2]
       |reflexivity]
  end; reflexivity.

Lemma or2_le_val d : bytes_ok d -> length d = 2%nat ->
  Z.lor (byte_at d 0) (Z.shiftl (byte_at d 1) 8) = le_val d.
Proof.
  intros Hd Hl. destruct d as [|a [|b [|]]]; try done.
  rewrite !Forall_cons in Hd. destruct Hd as (H0 & H1 & _). or_bytes.
Qed.

Lemma or4_le_val d : bytes_ok d -> length d = 4%nat ->
  Z.lor (Z.lor (Z.lor (byte_at d 0) (Z.shiftl (byte_at d 1) 8))
               (Z.shiftl (byte_at d 2) 16)) (Z.shiftl (byte_at d 3) 24) = le_val d.
Proof.
  intros Hd Hl. destruct d as [|a [|b [|c [|e [|]]]]]; try done.
  rewrite !Forall_cons in Hd. destruct Hd as (H0 & H1 & H2 & H3 & _). or_bytes.
Qed.

Lemma or8_le_val d : bytes_ok d -> length d = 8%nat ->
  Z.lor (Z.lor (Z.lor (Z.lor (Z.lor (Z.lor (Z.lor
    (byte_at d 0) (Z.shiftl (byte_at d 1) 8)) (Z.shiftl (byte_at d 2) 16))
    (Z.shiftl (byte_at d 3) 24)) (Z.shiftl (byte_at d 4) 32)) (Z.shiftl (byte_at d 5) 40))
    (Z.shiftl (byte_at d 6) 48)) (Z.shiftl (byte_at d 7) 56) = le_val d.
Proof.
  intros Hd Hl. destruct d as [|a [|b [|c [|e [|f [|g [|h [|i [|]]]]]]]]]; try done.
  rewrite !Forall_cons in Hd. destruct Hd as (H0 & H1 & H2 & H3 & H4 & H5 & H6 & H7 & _).
  or_bytes.
Qed.

(** ** The decoder inverts the encoder *)

(** [p] reads [enc] back as [x], whatever follows. *)
Definition reads {A} (p : parser A) (enc : list Z) (x : A) : Prop :=
  forall rest, p (enc ++ rest) = Ok (x, rest).

Lemma reads_bind {A B} (p : parser A) (f : A -> parser B) e1 e2 x y :
  reads p e1 x -> reads (f x) e2 y -> reads (p_bind p f) (e1 ++ e2) y.
Proof.
  intros H1 H2 rest. unfold p_bind. rewrite <- app_assoc, H1. apply H2.
Qed.

Lemma reads_ret {A} (x : A) : reads (p_ret x) [] x.
Proof. intros rest. done. Qed.

Lemma reads_bytes l n e : len l = n -> reads (p_bytes n e) l l.
Proof.
  intros Hl rest. unfold p_bytes, len in *. rewrite length_app.
  rewrite (proj2 (Z.ltb_ge _ _)) by lia. replace (Z.to_nat n) with (length l) by lia.
  by rewrite take_app_length, drop_app_length.
Qed.

Lemma reads_bind_ret {A B} (p : parser A) (g : A -> B) e x y :
  reads p e x -> g x = y -> reads (p_bind p (fun a => p_ret (g a))) e y.
Proof.
  intros H1 <-. rewrite <- (app_nil_r e). eapply reads_bind; [done|]. apply reads_ret.
Qed.

Lemma reads_Uint32 v : 0 <= v < 2 ^ 32 -> reads DeserializeUint32 (SerializeUint32 v) v.
Proof.
  intros Hv. rewrite SerializeUint32_le by lia. unfold DeserializeUint32.
  apply reads_bind_ret with (x := le_bytes 4 v).
  - apply reads_bytes. unfold len. by rewrite length_le_bytes.
  - rewrite or4_le_val by (apply le_bytes_ok || apply length_le_bytes).
    rewrite le_val_le_bytes. apply Z.mod_small. exact Hv.
Qed.

Lemma reads_Uint64 v : 0 <= v < 2 ^ 64 -> reads DeserializeUint64 (SerializeUint64 v) v.
Proof.
  intros Hv. rewrite SerializeUint64_le by lia. unfold DeserializeUint64.
  apply reads_bind_ret with (x := le_bytes 8 v).
  - apply reads_bytes. unfold len. by rewrite length_le_bytes.
  - rewrite or8_le_val by (apply le_bytes_ok || apply length_le_bytes).
    rewrite le_val_le_bytes. apply Z.mod_small. exact Hv.
Qed.

Lemma reads_CompactSize n :
  0 <= n < 2 ^ 64 -> reads DeserializeCompactSize (SerializeCompactSize n) n.
Proof.
  intros Hn. unfold SerializeCompactSize, DeserializeCompactSize.
  destruct (Z.ltb_spec n 253).
  { rewrite <- (app_nil_r [u8 n]). apply reads_bind with (x := [u8 n]); [by apply reads_bytes|].
    unfold byte_at. cbn [nth]. rewrite u8_small by lia.
    rewrite (proj2 (Z.ltb_lt n 253)) by done. apply reads_ret. }
  destruct (Z.leb_spec n 0xFFFF).
  { change [253; u8 n; u8 (Z.shiftr n 8)] with ([253] ++ [u8 n; u8 (Z.shiftr n 8)]).
    apply reads_bind with (x := [253]); [by apply reads_bytes|]. cbn [byte_at nth Z.ltb Z.compare].
    apply reads_bind_ret with (x := [u8 n; u8 (Z.shiftr n 8)]); [by apply reads_bytes|].
    rewrite or2_le_val; [|repeat constructor; apply u8_range|done].
    unfold u8. rewrite Z.shiftr_div_pow2 by lia. cbn [le_val].
    rewrite (Z.mod_small (n / 2 ^ 8)) by (split; [apply Z.div_pos | apply Z.div_lt_upper_bound]; lia).
    pose proof (Z.div_mod n (2 ^ 8) ltac:(lia)). lia. }
  destruct (Z.leb_spec n 0xFFFFFFFF).
  - change (254 :: ?l) with ([254] ++ l). apply reads_bind with (x := [254]); [by apply reads_bytes|].
    rewrite u32_small by lia. apply reads_Uint32. lia.
  - change (255 :: ?l) with ([255] ++ l). apply reads_bind with (x := [255]); [by apply reads_bytes|].
    apply reads_Uint64. lia.
Qed.

Definition txin_wf (i : CTxIn) : Prop :=
  u256_wf (op_hash (prevout i)) /\ 0 <= op_n (prevout i) < 2 ^ 32 /\
  bytes_ok (scriptSig i) /\ len (scriptSig i) <= 20000 /\ 0 <= nSequence i < 2 ^ 32.

Definition txout_wf (o : CTxOut) : Prop :=
  0 <= nValue o < 2 ^ 64 /\ bytes_ok (scriptPubKey o) /\ len (scriptPubKey o) <= 10000.

(** The transactions the decoder can return. *)
Definition tx_wf (tx : CTransaction) : Prop :=
  - 2 ^ 31 <= tx_nVersion tx < 2 ^ 31 /\
  len (vin tx) <= 100000 /\ Forall txin_wf (vin tx) /\
  len (vout tx) <= 100000 /\ Forall txout_wf (vout tx) /\ 0 <= nLockTime tx < 2 ^ 32.

Lemma len_nonneg {A} (l : list A) : 0 <= len l.
Proof. unfold len. lia. Qed.

Lemma len_app {A} (l k : list A) : len (l ++ k) = len l + len k.
Proof. unfold len. rewrite length_app. lia. Qed.

Lemma len_app_ge {A} (l k : list A) : len l <= len (l ++ k).
Proof. rewrite len_app. pose proof (len_nonneg k). lia. Qed.

Lemma reads_TxIn i : txin_wf i -> reads DeserializeTxIn (SerializeTxIn i) i.
Proof.
  destruct i as [[h n] sc sq]. intros ([Lh Bh] & Hn & Bs & Ls & Hq). simpl in *.
  unfold DeserializeTxIn, SerializeTxIn.
  cbn [prevout op_hash op_n scriptSig nSequence]. pose proof (len_nonneg sc).
  apply reads_bind with (x := h); [apply reads_bytes; unfold len; lia|].
  apply reads_bind with (x := n); [by apply reads_Uint32|].
  apply reads_bind with (x := len sc); [apply reads_CompactSize; lia|].
  rewrite Z.gtb_ltb, (proj2 (Z.ltb_ge 20000 (len sc))) by lia.
  apply reads_bind with (x := sc); [by apply reads_bytes|].
  apply reads_bind_ret with (x := sq); [by apply reads_Uint32|done].
Qed.

Lemma reads_TxOut o : txout_wf o -> reads DeserializeTxOut (SerializeTxOut o) o.
Proof.
  destruct o as [v sc]. intros (Hv & Bs & Ls). simpl in *.
  unfold DeserializeTxOut, SerializeTxOut.
  cbn [nValue scriptPubKey]. pose proof (len_nonneg sc).
  apply reads_bind with (x := v); [by apply reads_Uint64|].
  apply reads_bind with (x := len sc); [apply reads_CompactSize; lia|].
  rewrite Z.gtb_ltb, (proj2 (Z.ltb_ge 10000 (len sc))) by lia.
  apply reads_bind_ret with (x := sc); [by apply reads_bytes|done].
Qed.

Lemma reads_repeat {A} (p : parser A) (enc : A -> list Z) (xs : list A) :
  Forall (fun x => reads p (enc x) x) xs ->
  reads (p_repeat (length xs) p) (concat (enc <$> xs)) xs.
Proof.
  induction 1 as [|x xs Hx _ IH]; [apply reads_ret|]. cbn [p_repeat length fmap list_fmap concat].
  apply reads_bind with (x := x); [done|].
  apply reads_bind_ret with (x := xs); [exact IH|done].
Qed.

(** The check of the claimed count against the bytes that remain. *)
Lemma reads_check {A} (n : Z) (err : DeserError) (k : parser A) e x :
  n <= len e -> reads k e x ->
  reads (p_bind p_remaining (fun l => if n >? l then p_fail err else k)) e x.
Proof.
  intros Hn Hk rest. unfold p_bind, p_remaining. pose proof (len_app_ge e rest).
  rewrite Z.gtb_ltb, (proj2 (Z.ltb_ge (len (e ++ rest)) n)) by lia. apply Hk.
Qed.

(** ** Sizes *)

Lemma len_SerializeUint32 v : len (SerializeUint32 v) = 4.
Proof. done. Qed.
Lemma len_SerializeUint64 v : len (SerializeUint64 v) = 8.
Proof. done. Qed.

Lemma CompactSizeLen_correct n : len (SerializeCompactSize n) = CompactSizeLen n.
Proof. unfold SerializeCompactSize, CompactSizeLen. zcases. Qed.

Lemma CompactSizeLen_pos n : 1 <= CompactSizeLen n.
Proof. unfold CompactSizeLen. zcases. Qed.

Lemma len_concat {A} (enc : A -> list Z) (f : A -> Z) (l : list A) :
  Forall (fun x => len (enc x) = f x) l ->
  len (concat (enc <$> l)) = sum_list (f <$> l).
Proof.
  induction 1 as [|x l Hx _ IH]; [done|]. cbn [fmap list_fmap concat sum_list].
  rewrite len_app, Hx. f_equal. exact IH.
Qed.

Lemma sum_list_ge (k : Z) {A} (f : A -> Z) (l : list A) :
  Forall (fun x => k <= f x) l -> k * len l <= sum_list (f <$> l).
Proof.
  induction 1 as [|x l Hx _ IH]; [unfold len; simpl; lia|]. cbn [fmap list_fmap sum_list].
  change (list_fmap A Z f l) with (f <$> l). unfold len in *. cbn [length]. lia.
Qed.

Definition txin_size (i : CTxIn) : Z :=
  32 + 4 + CompactSizeLen (len (scriptSig i)) + len (scriptSig i) + 4.
Definition txout_size (o : CTxOut) : Z :=
  8 + CompactSizeLen (len (scriptPubKey o)) + len (scriptPubKey o).

Lemma len_TxIn i : length (op_hash (prevout i)) = 32%nat -> len (SerializeTxIn i) = txin_size i.
Proof.
  intros Hh. unfold SerializeTxIn, txin_size.
  rewrite !len_app, !len_SerializeUint32, CompactSizeLen_correct. unfold len at 1. rewrite Hh. lia.
Qed.

Lemma len_TxOut o : len (SerializeTxOut o) = txout_size o.
Proof.
  unfold SerializeTxOut, txout_size.
  rewrite !len_app, len_SerializeUint64, CompactSizeLen_correct. lia.
Qed.

Definition hashes_wf (tx : CTransaction) : Prop :=
  Forall (fun i => length (op_hash (prevout i)) = 32%nat) (vin tx).

Lemma tx_wf_hashes tx : tx_wf tx -> hashes_wf tx.
Proof.
  intros (_ & _ & H & _). unfold hashes_wf. eapply Forall_impl; [exact H|]. by intros i [[? _] _].
Qed.

Lemma len_ins l : Forall (fun i => length (op_hash (prevout i)) = 32%nat) l ->
  len (concat (SerializeTxIn <$> l)) = sum_list (txin_size <$> l).
Proof. intros H. apply len_concat. eapply Forall_impl; [exact H|]. apply len_TxIn. Qed.

Lemma len_outs l : len (concat (SerializeTxOut <$> l)) = sum_list (txout_size <$> l).
Proof. apply len_concat. apply Forall_true. apply len_TxOut. Qed.

Lemma GetSerializedSize_correct tx :
  hashes_wf tx -> len (Serialize tx) = GetSerializedSize tx.
Proof.
  intros H. unfold Serialize, GetSerializedSize.
  rewrite !len_app, !len_SerializeUint32, !CompactSizeLen_correct, len_ins, len_outs by done.
  fold txin_size txout_size. unfold txin_size, txout_size. lia.
Qed.

Lemma ins_room l : Forall (fun i => length (op_hash (prevout i)) = 32%nat) l ->
  len l * 41 <= len (concat (SerializeTxIn <$> l)).
Proof.
  intros H. rewrite len_ins by done. rewrite Z.mul_comm. apply sum_list_ge.
  apply Forall_true. intros i. unfold txin_size.
  pose proof (CompactSizeLen_pos (len (scriptSig i))). pose proof (len_nonneg (scriptSig i)). lia.
Qed.

Lemma outs_room l : len l * 9 <= len (concat (SerializeTxOut <$> l)).
Proof.
  rewrite len_outs. rewrite Z.mul_comm. apply sum_list_ge.
  apply Forall_true. intros i. unfold txout_size.
  pose proof (CompactSizeLen_pos (len (scriptPubKey i))). pose proof (len_nonneg (scriptPubKey i)). lia.
Qed.

Lemma reads_Tx tx : tx_wf tx -> reads DeserializePrefix (Serialize tx) tx.
Proof.
  destruct tx as [ver ins outs lt]. intros Hwf. pose proof (tx_wf_hashes _ Hwf) as HH.
  destruct Hwf as (Hv & Li & Fi & Lo & Fo & Hl). unfold hashes_wf in HH. simpl in *.
  unfold DeserializePrefix, Serialize. cbn [tx_nVersion vin vout nLockTime].
  pose proof (len_nonneg ins). pose proof (len_nonneg outs).
  pose proof (ins_room ins HH) as Ri. pose proof (outs_room outs) as Ro.
  apply reads_bind with (x := u32 ver); [apply reads_Uint32, u32_range|].
  apply reads_bind with (x := len ins); [apply reads_CompactSize; lia|].
  rewrite (Z.gtb_ltb (len ins)), (proj2 (Z.ltb_ge 100000 (len ins))) by lia.
  apply reads_check.
  { rewrite u64_small by (unfold MIN_TX_INPUT_SIZE; lia). etrans; [exact Ri|]. apply len_app_ge. }
  replace (Z.to_nat (len ins)) with (length ins) by (unfold len; lia).
  apply reads_bind with (x := ins).
  { apply reads_repeat. eapply Forall_impl; [exact Fi|]. apply reads_TxIn. }
  apply reads_bind with (x := len outs); [apply reads_CompactSize; lia|].
  rewrite (Z.gtb_ltb (len outs)), (proj2 (Z.ltb_ge 100000 (len outs))) by lia.
  apply reads_check.
  { rewrite u64_small by (unfold MIN_TX_OUTPUT_SIZE; lia). etrans; [exact Ro|]. apply len_app_ge. }
  replace (Z.to_nat (len outs)) with (length outs) by (unfold len; lia).
  apply reads_bind with (x := outs).
  { apply reads_repeat. eapply Forall_impl; [exact Fo|]. apply reads_TxOut. }
  apply reads_bind_ret with (x := lt); [by apply reads_Uint32|].
  by rewrite i32_u32, i32_small.
Qed.

(** ** What the decoder accepts *)

(** Every successful run of [p] consumes a prefix whose length [k] is related
    to the result [x] by [R x k]. *)
Definition sound {A} (p : parser A) (R : A -> Z -> Prop) : Prop :=
  forall s x r, bytes_ok s -> p s = Ok (x, r) ->
    exists pre, s = pre ++ r /\ bytes_ok r /\ R x (len pre).

Lemma sound_ret {A} (x : A) (R : A -> Z -> Prop) : R x 0 -> sound (p_ret x) R.
Proof. intros HR s y r Hs [= <- <-]. by exists []. Qed.

Lemma sound_fail {A} e (R : A -> Z -> Prop) : sound (p_fail e) R.
Proof. done. Qed.

Lemma sound_bind {A B} (p : parser A) (f : A -> parser B) R1 R :
  sound p R1 -> (forall x k, R1 x k -> sound (f x) (fun y k' => R y (k + k'))) ->
  sound (p_bind p f) R.
Proof.
  intros Hp Hf s y r Hs. unfold p_bind. destruct (p s) as [[x s']|] eqn:E; [|done].
  destruct (Hp s x s' Hs E) as (pre & -> & Hs' & HR). intros E2.
  destruct (Hf x _ HR s' y r Hs' E2) as (pre' & -> & Hr & HR').
  exists (pre ++ pre'). rewrite <- app_assoc, len_app. done.
Qed.

Lemma sound_remaining {A} (f : Z -> parser A) R :
  (forall n, sound (f n) R) -> sound (p_bind p_remaining f) R.
Proof. intros Hf s y r Hs. apply Hf. done. Qed.

Lemma sound_bytes n e : 0 <= n ->
  sound (p_bytes n e) (fun l k => bytes_ok l /\ len l = n /\ k = n).
Proof.
  intros Hn s x r Hs. unfold p_bytes. destruct (Z.ltb_spec (len s) n); [done|].
  intros [= <- <-]. exists (take (Z.to_nat n) s). rewrite take_drop.
  split_and!; auto using Forall_take, Forall_drop; unfold len in *; rewrite ?length_take; lia.
Qed.

Lemma sound_Uint32 : sound DeserializeUint32 (fun v k => 0 <= v < 2 ^ 32 /\ k = 4).
Proof.
  eapply sound_bind; [apply sound_bytes; lia|]. intros d k (Bd & Ld & ->).
  apply sound_ret. assert (length d = 4%nat) as Ld' by (unfold len in Ld; lia).
  rewrite or4_le_val by done. pose proof (le_val_bound d Bd) as Hb. rewrite Ld' in Hb.
  split; [exact Hb|lia].
Qed.

Lemma sound_Uint64 : sound DeserializeUint64 (fun v k => 0 <= v < 2 ^ 64 /\ k = 8).
Proof.
  eapply sound_bind; [apply sound_bytes; lia|]. intros d k (Bd & Ld & ->).
  apply sound_ret. assert (length d = 8%nat) as Ld' by (unfold len in Ld; lia).
  rewrite or8_le_val by done. pose proof (le_val_bound d Bd) as Hb. rewrite Ld' in Hb.
  split; [exact Hb|lia].
Qed.

Lemma sound_weaken {A} (p : parser A) (R1 R : A -> Z -> Prop) :
  sound p R1 -> (forall x k, R1 x k -> R x k) -> sound p R.
Proof. intros H HR s x r Hs E. destruct (H s x r Hs E) as (pre & ? & ? & ?). eauto. Qed.

Lemma sound_CompactSize :
  sound DeserializeCompactSize (fun n k => 0 <= n < 2 ^ 64 /\ CompactSizeLen n <= k).
Proof.
  eapply sound_bind; [apply sound_bytes; lia|]. intros d k (Bd & Ld & ->).
  pose proof (byte_at_ok d 0 Bd) as Hb. cbn zeta. set (b := byte_at d 0) in *. unfold byte_ok in Hb.
  destruct (Z.ltb_spec b 253).
  { apply sound_ret. unfold CompactSizeLen. split; [lia|zcases]. }
  destruct (Z.eqb_spec b 253).
  { eapply sound_bind; [apply sound_bytes; lia|]. intros d2 k (Be & Le & ->).
    apply sound_ret. assert (length d2 = 2%nat) as Le' by (unfold len in Le; lia).
    rewrite or2_le_val by done. pose proof (le_val_bound d2 Be) as Hv. rewrite Le' in Hv.
    change (256 ^ Z.of_nat 2) with 65536 in Hv. unfold CompactSizeLen. split; [lia|zcases]. }
  destruct (Z.eqb_spec b 254).
  - eapply sound_weaken; [apply sound_Uint32|]. intros v k [Hv ->]. unfold CompactSizeLen.
    split; [lia|zcases].
  - eapply sound_weaken; [apply sound_Uint64|]. intros v k [Hv ->]. unfold CompactSizeLen.
    split; [lia|zcases].
Qed.

Lemma sound_TxIn : sound DeserializeTxIn (fun i k => txin_wf i /\ txin_size i <= k).
Proof.
  eapply sound_bind; [apply sound_bytes; lia|]. intros h k (Bh & Lh & ->).
  eapply sound_bind; [apply sound_Uint32|]. intros n k (Hn & ->).
  eapply sound_bind; [apply sound_CompactSize|]. intros m k (Hm & Hk).
  rewrite Z.gtb_ltb. destruct (Z.ltb_spec 20000 m); [apply sound_fail|].
  eapply sound_bind; [apply sound_bytes; lia|]. intros sc k' (Bs & Ls & ->).
  eapply sound_bind; [apply sound_Uint32|]. intros q k' (Hq & ->).
  apply sound_ret. unfold txin_wf, txin_size, u256_wf. simpl. unfold len in *.
  rewrite Ls. split_and!; try done; try lia.
Qed.

Lemma sound_TxOut : sound DeserializeTxOut (fun o k => txout_wf o /\ txout_size o <= k).
Proof.
  eapply sound_bind; [apply sound_Uint64|]. intros v k (Hv & ->).
  eapply sound_bind; [apply sound_CompactSize|]. intros m k (Hm & Hk).
  rewrite Z.gtb_ltb. destruct (Z.ltb_spec 10000 m); [apply sound_fail|].
  eapply sound_bind; [apply sound_bytes; lia|]. intros sc k' (Bs & Ls & ->).
  apply sound_ret. unfold txout_wf, txout_size. simpl. rewrite Ls. split_and!; try done; lia.
Qed.

Lemma sound_repeat {A} (p : parser A) (W : A -> Prop) (m : A -> Z) n :
  sound p (fun x k => W x /\ m x <= k) ->
  sound (p_repeat n p) (fun xs k => Forall W xs /\ length xs = n /\ sum_list (m <$> xs) <= k).
Proof.
  intros Hp. induction n as [|n IH]; cbn [p_repeat].
  { apply sound_ret. split_and!; [constructor|done|simpl; lia]. }
  eapply sound_bind; [apply Hp|]. intros x k [Hx Hm].
  eapply sound_bind; [apply IH|]. intros xs k' (HF & HL & HS).
  apply sound_ret. cbn [fmap list_fmap sum_list length].
  change (list_fmap A Z m xs) with (m <$> xs). split_and!; [by constructor|lia|lia].
Qed.

Lemma sound_Tx :
  sound DeserializePrefix (fun tx k => tx_wf tx /\ GetSerializedSize tx <= k).
Proof.
  eapply sound_bind; [apply sound_Uint32|]. intros v k (Hv & ->).
  eapply sound_bind; [apply sound_CompactSize|]. intros n k (Hn & Hk).
  rewrite Z.gtb_ltb. destruct (Z.ltb_spec 100000 n); [apply sound_fail|].
  apply sound_remaining. intros left1. destruct (_ >? left1); [apply sound_fail|].
  eapply sound_bind; [apply (sound_repeat _ txin_wf txin_size), sound_TxIn|].
  intros ins k1 (Fi & Li & Hk1).
  eapply sound_bind; [apply sound_CompactSize|]. intros n2 k2 (Hn2 & Hk2).
  rewrite Z.gtb_ltb. destruct (Z.ltb_spec 100000 n2); [apply sound_fail|].
  apply sound_remaining. intros left2. destruct (_ >? left2); [apply sound_fail|].
  eapply sound_bind; [apply (sound_repeat _ txout_wf txout_size), sound_TxOut|].
  intros outs k3 (Fo & Lo & Hk3).
  eapply sound_bind; [apply sound_Uint32|]. intros lt k4 (Hlt & ->).
  apply sound_ret. unfold tx_wf, GetSerializedSize, len.
  cbn [tx_nVersion vin vout nLockTime]. pose proof (i32_range v).
  change (fun i => 32 + 4 + _ + _ + 4) with txin_size.
  change (fun o => 8 + _ + _) with txout_size.
  rewrite Li, Lo, !Z2Nat.id by lia. split_and!; try done; lia.
Qed.

(** ** Properties *)

(** C12: transactions survive the wire: decoding the encoding of a transaction
    within the decoder's limits returns that transaction and consumes exactly
    its bytes (with or without trailing data, according to the mode);
    conversely every transaction the decoder returns on arbitrary input is
    within the limits, never encodes to more bytes than were consumed, and
    decodes from its own encoding to itself. *)
Theorem transaction_wire_roundtrip (tx : CTransaction) (rest data : list Z) (mode : bool)
    (tx' : CTransaction) (n : Z)
    (Hwf : tx_wf tx) (Hdata : bytes_ok data) (Hdec : Deserialize data mode = Ok (tx', n)) :
  Deserialize (Serialize tx ++ rest) true = Ok (tx, GetSerializedSize tx) /\
  Deserialize (Serialize tx) false = Ok (tx, GetSerializedSize tx) /\
  tx_wf tx' /\ GetSerializedSize tx' <= n <= len data /\
  Deserialize (Serialize tx') false = Ok (tx', GetSerializedSize tx').
Proof.
  assert (forall t, tx_wf t -> Deserialize (Serialize t) false = Ok (t, GetSerializedSize t)) as RT.
  { intros t Ht. unfold Deserialize. rewrite <- (app_nil_r (Serialize t)), (reads_Tx t Ht []).
    rewrite bool_decide_eq_true_2 by done. cbn [negb andb].
    rewrite app_nil_r, GetSerializedSize_correct by (by apply tx_wf_hashes).
    unfold len. cbn [length Z.of_nat]. by rewrite Z.sub_0_r. }
  assert (tx_wf tx' /\ GetSerializedSize tx' <= n <= len data) as [W' B'].
  { unfold Deserialize in Hdec. destruct (DeserializePrefix data) as [[t r]|] eqn:E; [|done].
    destruct (_ && _); [done|]. simplify_eq.
    destruct (sound_Tx data tx' r Hdata E) as (pre & -> & _ & HW & HS).
    rewrite len_app. pose proof (len_nonneg r). split; [done|]. lia. }
  split_and!; [|by apply RT|done|lia|lia|by apply RT].
  unfold Deserialize. rewrite (reads_Tx tx Hwf rest). cbn [negb andb].
  rewrite len_app, GetSerializedSize_correct by (by apply tx_wf_hashes).
  f_equal. f_equal. lia.
Qed.

Definition sample_tx : CTransaction :=
  mkTx 1 [mkTxIn (mkOutPoint (le_bytes 32 12345) 2) [1; 2; 3] SEQUENCE_FINAL]
    [mkTxOut 5000000000 (replicate 25 7); mkTxOut 0 []] 0.

Lemma sample_tx_wf : tx_wf sample_tx.
Proof.
  unfold tx_wf, sample_tx. simpl. unfold len. simpl.
  split_and!; try lia; repeat constructor; simpl; unfold len, byte_ok; simpl; try lia;
    vm_compute; intuition congruence.
Qed.

Lemma transaction_wire_roundtrip_witness :
  Deserialize (Serialize sample_tx ++ [9; 9]) true = Ok (sample_tx, 97).
Proof.
  apply (transaction_wire_roundtrip sample_tx [9; 9] (Serialize sample_tx) false sample_tx 97).
  - apply sample_tx_wf.
  - apply bytes_okb_sound. vm_compute. reflexivity.
  - vm_compute. reflexivity.
Defined.

(** CompactSize lengths are not required to be minimal: the same transaction is
    accepted from an encoding four bytes longer than its canonical one. *)
Example noncanonical_length_accepted :
  let data := SerializeUint32 1 ++ [253; 0; 0] ++ [253; 0; 0] ++ SerializeUint32 7 in
  Deserialize data false = Ok (mkTx 1 [] [] 7, 14) /\ len (Serialize (mkTx 1 [] [] 7)) = 10.
Proof. vm_compute. split; reflexivity. Qed.

(** ** The signing hash commits to everything but the scriptSigs *)

Definition strip_scripts (tx : CTransaction) : CTransaction :=
  mkTx (tx_nVersion tx) ((fun i => mkTxIn (prevout i) [] (nSequence i)) <$> vin tx)
    (vout tx) (nLockTime tx).

Lemma SigningBytes_strip tx : SigningBytes tx = Serialize (strip_scripts tx).
Proof.
  unfold SigningBytes, Serialize, strip_scripts. cbn [tx_nVersion vin vout nLockTime].
  unfold len at 3. rewrite length_fmap. fold (len (vin tx)).
  do 4 f_equal. rewrite <- list_fmap_compose. done.
Qed.

Lemma strip_wf tx : tx_wf tx -> tx_wf (strip_scripts tx).
Proof.
  intros (H1 & H2 & H3 & H4 & H5 & H6). unfold tx_wf, strip_scripts, len in *. simpl.
  rewrite length_fmap. split_and!; try done; try lia.
  apply Forall_fmap. eapply Forall_impl; [exact H3|].
  intros [[] ? ?] (?&?&?&?&?). unfold txin_wf, len in *. simpl in *.
  split_and!; try done; try lia.
Qed.

Lemma Serialize_inj a b : tx_wf a -> tx_wf b -> Serialize a = Serialize b -> a = b.
Proof.
  intros Ha Hb E. pose proof (reads_Tx a Ha []) as Ra. pose proof (reads_Tx b Hb []) as Rb.
  rewrite E, Rb in Ra. congruence.
Qed.

(** The signing bytes of well-formed transactions agree exactly when everything
    but the scriptSigs does. *)
Lemma SigningBytes_iff a b : tx_wf a -> tx_wf b ->
  SigningBytes a = SigningBytes b <->
  tx_nVersion a = tx_nVersion b /\ nLockTime a = nLockTime b /\ vout a = vout b /\
  (fun i => (prevout i, nSequence i)) <$> vin a = (fun i => (prevout i, nSequence i)) <$> vin b.
Proof.
  intros Ha Hb. rewrite !SigningBytes_strip. split.
  - intros E. apply Serialize_inj in E; [|by apply strip_wf..].
    unfold strip_scripts in E. injection E as E1 E2 E3 E4. split_and!; try done.
    apply (f_equal (fmap (fun i => (prevout i, nSequence i)))) in E2.
    rewrite <- !list_fmap_compose in E2. exact E2.
  - intros (E1 & E2 & E3 & E4). unfold strip_scripts. rewrite E1, E2, E3.
    do 2 f_equal.
    apply (f_equal (fmap (fun p : COutPoint * Z => mkTxIn p.1 [] p.2))) in E4.
    rewrite <- !list_fmap_compose in E4. exact E4.
Qed.

(** C13: the transaction id and the signing hash commit to the transaction.
    For well-formed transactions and any hash function: two with the same id are
    equal, or their serializations are a collision of the hash; two have the
    same signing hash when they agree on version, locktime, outputs and every
    input's outpoint and sequence, whatever their scriptSigs, and two with the
    same signing hash agree on all that, or their signing bytes are a collision
    of the hash. *)
Theorem signing_hash_commits (SHA3_256 : list Z -> uint256) (a b : CTransaction) (Ha : tx_wf a) (Hb : tx_wf b) :
  let same := tx_nVersion a = tx_nVersion b /\ nLockTime a = nLockTime b /\ vout a = vout b /\
    (fun i => (prevout i, nSequence i)) <$> vin a = (fun i => (prevout i, nSequence i)) <$> vin b in
  (Tx_GetHash SHA3_256 a = Tx_GetHash SHA3_256 b ->
     a = b \/ Serialize a <> Serialize b /\ SHA3_256 (Serialize a) = SHA3_256 (Serialize b)) /\
  (same -> GetSigningHash SHA3_256 a = GetSigningHash SHA3_256 b) /\
  (GetSigningHash SHA3_256 a = GetSigningHash SHA3_256 b ->
     same \/ SigningBytes a <> SigningBytes b /\ SHA3_256 (SigningBytes a) = SHA3_256 (SigningBytes b)).
Proof.
  intros same. pose proof (SigningBytes_iff a b Ha Hb) as HS. fold same in HS. unfold Tx_GetHash, GetSigningHash. split_and!.
  - intros E. destruct (decide (Serialize a = Serialize b)) as [ES|]; [left; by apply Serialize_inj|by right].
  - intros E. by rewrite (proj2 HS E).
  - intros E. destruct (decide (SigningBytes a = SigningBytes b)) as [ES|]; [left; by apply HS|by right].
Qed.

(** With a hash that keeps the first 200 bytes, and a transaction with the
    scriptSig of [sample_tx] removed. *)
Lemma signing_hash_commits_witness :
  let stripped := mkTx 1 [mkTxIn (mkOutPoint (le_bytes 32 12345) 2) [] SEQUENCE_FINAL] (vout sample_tx) 0 in
  GetSigningHash (take 200) sample_tx = GetSigningHash (take 200) stripped /\
  Tx_GetHash (take 200) sample_tx <> Tx_GetHash (take 200) stripped.
Proof.
  intros stripped. split; [|by vm_compute].
  apply (signing_hash_commits (take 200) sample_tx stripped).
  - apply sample_tx_wf.
  - apply (strip_wf sample_tx), sample_tx_wf.
  - split_and!; reflexivity.
Defined.

(** ** Structure and values *)

Definition value_sum (outs : list CTxOut) : Z := sum_list (nValue <$> outs).

Lemma value_sum_cons o outs : value_sum (o :: outs) = nValue o + value_sum outs.
Proof. done. Qed.

Lemma value_sum_nonneg outs : Forall (fun o => 0 <= nValue o) outs -> 0 <= value_sum outs.
Proof. induction 1; [done|]. rewrite value_sum_cons. lia. Qed.

Lemma GetValueOut_loop_spec outs : forall total,
  Forall (fun o => 0 <= nValue o) outs -> 0 <= total <= UINT64_MAX ->
  GetValueOut_loop total outs =
    if total + value_sum outs <=? UINT64_MAX then Some (total + value_sum outs) else None.
Proof.
  induction outs as [|o outs IH]; intros total HF Ht; cbn [GetValueOut_loop].
  { unfold value_sum. simpl. rewrite Z.add_0_r. by rewrite (proj2 (Z.leb_le _ _)) by lia. }
  apply Forall_cons in HF as [Ho HF]. pose proof (value_sum_nonneg outs HF).
  rewrite value_sum_cons, Z.gtb_ltb. destruct (Z.ltb_spec (UINT64_MAX - total) (nValue o)).
  { rewrite (proj2 (Z.leb_gt _ _)) by lia. done. }
  unfold UINT64_MAX in *. rewrite u64_small by lia. rewrite IH by (done || lia).
  by rewrite Z.add_assoc.
Qed.

Lemma basic_outputs_spec outs : forall total,
  Forall (fun o => 0 <= nValue o) outs -> 0 <= total <= UINT64_MAX ->
  basic_outputs total outs = true <->
  Forall (fun o => nValue o <= 21000000 * 100000000) outs /\ total + value_sum outs <= UINT64_MAX.
Proof.
  induction outs as [|o outs IH]; intros total HF Ht; cbn [basic_outputs].
  { unfold value_sum. simpl. split; [intros _; split; [constructor|lia]|done]. }
  apply Forall_cons in HF as [Ho HF]. pose proof (value_sum_nonneg outs HF).
  rewrite value_sum_cons, Forall_cons, !Z.gtb_ltb.
  destruct (Z.ltb_spec (21000000 * 100000000) (nValue o)); [split; [done|lia]|].
  destruct (Z.ltb_spec (UINT64_MAX - total) (nValue o)); [split; [done|lia]|].
  unfold UINT64_MAX in *. rewrite u64_small by lia. rewrite IH by (done || lia).
  intuition lia.
Qed.

Lemma unique_prevouts_spec ins : forall seen,
  unique_prevouts seen ins = true <->
  NoDup (prevout <$> ins) /\ Forall (fun i => prevout i ∉ seen) ins.
Proof.
  induction ins as [|i ins IH]; intros seen; cbn [unique_prevouts].
  { split; [intros _; split; constructor|done]. }
  rewrite fmap_cons, NoDup_cons, Forall_cons. case_bool_decide as E.
  { split; [done|tauto]. }
  rewrite IH, list_elem_of_fmap, !Forall_forall. split.
  - intros [HN HF]. split_and!; [|done|done|].
    + intros (j & Hj & Hin). specialize (HF j Hin). clear -Hj HF. set_solver.
    + intros j Hin. specialize (HF j Hin). clear -HF. set_solver.
  - intros [[HN HD] [HE HF]]. split; [done|]. intros j Hin.
    rewrite elem_of_union, elem_of_singleton. intros [Hj|Hj]; [|by apply (HF j)].
    apply HN. by exists j.
Qed.

(** The structural check accepts a transaction exactly when it has inputs
    and outputs, no output above 21 million coins, an output total that fits
    64 bits (so [GetValueOut] does not throw and returns it), at most 1,000,000
    bytes, and either is a coinbase with a scriptSig of 2..6000 bytes or has no
    null and no repeated prevout. *)
Theorem CheckBasicStructure_iff (tx : CTransaction) (Hwf : tx_wf tx) :
  (CheckBasicStructure tx = true <->
   vin tx <> [] /\ vout tx <> [] /\
   Forall (fun o => nValue o <= 21000000 * 100000000) (vout tx) /\
   GetValueOut tx = Some (value_sum (vout tx)) /\
   len (Serialize tx) <= 1000000 /\
   (if IsCoinBase tx
    then exists i, vin tx = [i] /\ 2 <= len (scriptSig i) <= 6000
    else Forall (fun i => OutPoint_IsNull (prevout i) = false) (vin tx) /\
         NoDup (prevout <$> vin tx))).
Proof.
  assert (Forall (fun o => 0 <= nValue o) (vout tx)) as HV.
  { destruct Hwf as (_ & _ & _ & _ & H & _). eapply Forall_impl; [exact H|]. intros o (? & _). lia. }
  assert (GetValueOut tx = Some (value_sum (vout tx)) <-> value_sum (vout tx) <= UINT64_MAX) as HG.
  { unfold GetValueOut. rewrite GetValueOut_loop_spec by (done || unfold UINT64_MAX; lia).
    rewrite Z.add_0_l. destruct (Z.leb_spec (value_sum (vout tx)) UINT64_MAX); split; intros; try done; lia. }
  rewrite HG, GetSerializedSize_correct by (by apply tx_wf_hashes).
  pose proof (basic_outputs_spec (vout tx) 0 HV ltac:(unfold UINT64_MAX; lia)) as HB.
  rewrite Z.add_0_l in HB. unfold CheckBasicStructure.
  case_bool_decide; [split; [done|tauto]|]. case_bool_decide; [split; [done|tauto]|].
  destruct (basic_outputs 0 (vout tx)); cbn [negb]; [|split; [done|]; intros; apply HB; tauto].
  rewrite Z.gtb_ltb. destruct (Z.ltb_spec 1000000 (GetSerializedSize tx)); [split; [done|lia]|].
  pose proof (proj1 HB eq_refl) as [HB1 HB2].
  destruct (IsCoinBase tx) eqn:EC.
  - unfold IsCoinBase in EC. destruct (vin tx) as [|i [|]]; try done.
    split.
    + intros Hs. split_and!; try done. exists i. split; [done|]. lia.
    + intros (_ & _ & _ & _ & _ & (j & [= ->] & Hj)). lia.
  - rewrite andb_true_iff, unique_prevouts_spec, forallb_forall, !Forall_forall.
    split.
    + intros (Hnn & Hnd & _). split_and!; try done.
      * by apply Forall_forall.
      * intros i Hi. apply negb_true_iff. apply Hnn. by apply list_elem_of_In.
    + intros (_ & _ & _ & _ & _ & Hnn & Hnd). split_and!; [|done|intros i _; apply not_elem_of_empty].
      intros i Hi. apply negb_true_iff, Hnn. by apply list_elem_of_In.
Qed.

Lemma CheckBasicStructure_iff_witness : CheckBasicStructure sample_tx = true.
Proof.
  apply (CheckBasicStructure_iff sample_tx sample_tx_wf).
  split; [discriminate|]. split; [discriminate|].
  split; [repeat constructor; simpl; lia|].
  split; [vm_compute; reflexivity|]. split; [vm_compute; discriminate|].
  change (IsCoinBase sample_tx) with false. cbn iota. split.
  - repeat constructor.
  - apply NoDup_singleton.
Defined.
