(* ===== verification/Fees.v ===== *)
(** * Fee rules (consensus/fees.h, consensus/fees.cpp)

    The consensus fee bounds and the wallet's size estimate.  [CAmount] is
    [int64_t]; [CalculateFeeRate], a floating-point value, is in [Mempool],
    where it orders the pool. *)

From S2P Require Import Prelude Uint256 Transaction.

Definition MIN_TX_FEE : Z := 0.
Definition FEE_PER_BYTE : Z := 5.
Definition MIN_RELAY_TX_FEE : Z := 10000.
Definition MAX_REASONABLE_FEE : Z := 10000000.

(** [tx_size] is [size_t]: the product is computed in [uint64_t] and converted. *)
Definition CalculateMinFee (tx_size : Z) : Z :=
  i64 (u64 (MIN_TX_FEE + u64 (tx_size * FEE_PER_BYTE))).

Inductive FeeError : Set := FeeTooLow | BelowRelayMin | FeeTooHigh.

Definition CheckFee (tx : CTransaction) (fee_paid : Z) (check_relay : bool)
  : result FeeError unit :=
  let tx_size := GetSerializedSize tx in
  let min_fee := CalculateMinFee tx_size in
  reject fee_paid <? min_fee with FeeTooLow;
  reject check_relay && (fee_paid <? MIN_RELAY_TX_FEE) with BelowRelayMin;
  reject fee_paid >? MAX_REASONABLE_FEE with FeeTooHigh;
  Ok tt.

Definition VarIntSize (value : Z) : Z :=
  if value <? 253 then 1 else if value <=? 0xFFFF then 3
  else if value <=? 0xFFFFFFFF then 5 else 9.

Definition EstimateDilithiumTxSize (num_inputs num_outputs extra_data_size : Z) : Z :=
  u64 (4 + VarIntSize num_inputs + num_inputs * 5308 +
       VarIntSize num_outputs + num_outputs * 34 + 4 + extra_data_size).

Lemma sum_list_const {A} (f : A -> Z) (c : Z) (l : list A) :
  Forall (fun x => f x = c) l -> sum_list (f <$> l) = len l * c.
Proof.
  induction 1 as [|x l Hx _ IH]; [done|]. rewrite fmap_cons. cbn [sum_list].
  rewrite IH, Hx. unfold len. cbn [length]. lia.
Qed.

(** A transaction of the wallet's shape: every input carries a Dilithium3
    signature and key (2 + 3309 + 2 + 1952 bytes), every output a 25-byte P2PKH
    script. *)
Definition standard_shape (tx : CTransaction) : Prop :=
  Forall (fun i => len (scriptSig i) = 5265) (vin tx) /\
  Forall (fun o => len (scriptPubKey o) = 25) (vout tx).

(** the wallet's size estimate is exact: a transaction of the standard
    Dilithium P2PKH shape has exactly the estimated number of bytes, so a fee
    computed from the estimate passes [CheckFee]; and [CheckFee] accepts
    exactly the fees between 5 per byte (and the relay floor, when asked) and
    the maximum. *)
Theorem fee_estimate_exact (tx : CTransaction) (fee : Z) (relay : bool)
    (Hwf : tx_wf tx) (Hs : standard_shape tx) :
  len (Serialize tx) = EstimateDilithiumTxSize (len (vin tx)) (len (vout tx)) 0 /\
  (CheckFee tx fee relay = Ok tt <->
   5 * EstimateDilithiumTxSize (len (vin tx)) (len (vout tx)) 0 <= fee <= 10000000 /\
   (relay = true -> 10000 <= fee)).
Proof.
  destruct Hs as [Hi Ho].
  pose proof Hwf as (_ & Li & _ & Lo & _ & _).
  pose proof (len_nonneg (vin tx)) as Ni. pose proof (len_nonneg (vout tx)) as No.
  assert (0 <= CompactSizeLen (len (vin tx)) <= 9 /\ 0 <= CompactSizeLen (len (vout tx)) <= 9) as [Bi Bo]
    by (unfold CompactSizeLen; zcases).
  assert (GetSerializedSize tx = EstimateDilithiumTxSize (len (vin tx)) (len (vout tx)) 0) as HE.
  { unfold GetSerializedSize, EstimateDilithiumTxSize.
    change VarIntSize with CompactSizeLen. rewrite u64_small by lia.
    rewrite (sum_list_const _ 5308), (sum_list_const _ 34); [lia| |].
    - eapply Forall_impl; [exact Ho|]. simpl. intros o ->. done.
    - eapply Forall_impl; [exact Hi|]. simpl. intros i ->. done. }
  rewrite GetSerializedSize_correct by (by apply tx_wf_hashes). split; [done|].
  rewrite <- HE. set (n := GetSerializedSize tx) in *.
  assert (0 <= n < 2 ^ 33) as Hn.
  { rewrite HE. unfold EstimateDilithiumTxSize. change VarIntSize with CompactSizeLen.
    rewrite u64_small; lia. }
  unfold CheckFee. fold n. unfold CalculateMinFee, MIN_TX_FEE, FEE_PER_BYTE.
  rewrite (u64_small (n * 5)), u64_small, i64_small by lia.
  unfold MIN_RELAY_TX_FEE, MAX_REASONABLE_FEE.
  destruct (Z.ltb_spec fee (0 + n * 5)); [split; [done|lia]|].
  destruct relay; cbn [andb].
  - destruct (Z.ltb_spec fee 10000).
    { split; [done|]. intros [_ H3]. specialize (H3 eq_refl). lia. }
    rewrite Z.gtb_ltb. destruct (Z.ltb_spec 10000000 fee); split; intros; try done; lia.
  - rewrite Z.gtb_ltb. destruct (Z.ltb_spec 10000000 fee); split; intros; try done; try lia.
Qed.

Definition standard_tx : CTransaction :=
  mkTx 1 [mkTxIn (mkOutPoint zero256 0) (replicate (Z.to_nat 5265) 1) SEQUENCE_FINAL]
    [mkTxOut 1000 (replicate 25 7)] 0.

Lemma fee_estimate_exact_witness :
  len (Serialize standard_tx) = EstimateDilithiumTxSize 1 1 0 /\
  CheckFee standard_tx 26760 true = Ok tt.
Proof.
  destruct (fee_estimate_exact standard_tx 26760 true) as [H1 H2].
  - unfold tx_wf, standard_tx. cbn [tx_nVersion vin vout nLockTime].
    split; [lia|]. split; [unfold len; simpl; lia|]. split.
    + apply Forall_singleton. unfold txin_wf. cbn [prevout op_hash op_n scriptSig nSequence].
      unfold len. rewrite length_replicate, Z2Nat.id by lia. unfold SEQUENCE_FINAL.
      split; [split; [done|apply Forall_replicate; unfold byte_ok; lia]|].
      split; [lia|]. split; [apply Forall_replicate; unfold byte_ok; lia|]. lia.
    + split; [unfold len; simpl; lia|]. split; [|lia].
      apply Forall_singleton. unfold txout_wf. cbn [nValue scriptPubKey].
      unfold len. rewrite length_replicate.
      split; [lia|]. split; [apply Forall_replicate; unfold byte_ok; lia|lia].
  - split; apply Forall_singleton; vm_compute; reflexivity.
  - split; [exact H1|]. apply H2. vm_compute. intuition congruence.
Defined.
