(* ===== verification/Script.v ===== *)
(** * Scripts and script numbers (script/script.h)

    Opcodes, the sign-magnitude script number, the push encodings of
    [CScript::operator<<] and the script templates. *)

From S2P Require Import Prelude Uint256 Transaction.

Definition MAX_SCRIPT_SIZE : Z := 20000.
Definition MAX_STACK_SIZE : Z := 1000.
Definition MAX_SCRIPT_ELEMENT_SIZE : Z := 5300.
Definition MAX_OPS_PER_SCRIPT : Z := 201.
Definition DILITHIUM3_SIG_SIZE : Z := 3309.
Definition DILITHIUM3_PK_SIZE : Z := 1952.

(** ** Opcodes *)

Definition OP_0 : Z := 0x00.
Definition OP_FALSE : Z := OP_0.
Definition OP_PUSHDATA1 : Z := 0x4c.
Definition OP_PUSHDATA2 : Z := 0x4d.
Definition OP_PUSHDATA4 : Z := 0x4e.
Definition OP_1NEGATE : Z := 0x4f.
Definition OP_1 : Z := 0x51.
Definition OP_TRUE : Z := OP_1.
Definition OP_16 : Z := 0x60.
Definition OP_NOP : Z := 0x61.
Definition OP_IF : Z := 0x63.
Definition OP_NOTIF : Z := 0x64.
Definition OP_ELSE : Z := 0x67.
Definition OP_ENDIF : Z := 0x68.
Definition OP_VERIFY : Z := 0x69.
Definition OP_RETURN : Z := 0x6a.
Definition OP_DROP : Z := 0x75.
Definition OP_DUP : Z := 0x76.
Definition OP_SWAP : Z := 0x7c.
Definition OP_SIZE : Z := 0x82.
Definition OP_EQUAL : Z := 0x87.
Definition OP_EQUALVERIFY : Z := 0x88.
Definition OP_SHA3_256 : Z := 0xa8.
Definition OP_HASH160 : Z := 0xa9.
Definition OP_CHECKSIG : Z := 0xac.
Definition OP_CHECKMULTISIG : Z := 0xae.
Definition OP_NOP1 : Z := 0xb0.
Definition OP_CHECKLOCKTIMEVERIFY : Z := 0xb1.
Definition OP_CHECKSEQUENCEVERIFY : Z := 0xb2.
Definition OP_NOP4 : Z := 0xb3.
Definition OP_NOP10 : Z := 0xb9.

(** ** Script numbers *)

(** [while (absvalue)]: at most 8 bytes of a [uint64_t]. *)
Fixpoint abs_bytes (fuel : nat) (absvalue : Z) : list Z :=
  match fuel with
  | O => []
  | S fuel' =>
      if absvalue =? 0 then []
      else u8 (Z.land absvalue 0xff) :: abs_bytes fuel' (Z.shiftr absvalue 8)
  end.

(** [result.back() |= 0x80] *)
Fixpoint or_back (l : list Z) (m : Z) : list Z :=
  match l with
  | [] => []
  | [b] => [Z.lor b m]
  | b :: l' => b :: or_back l' m
  end.

Definition back (l : list Z) : Z := List.last l 0.

(** [CScriptNum::serialize] *)
Definition ScriptNum_serialize (value : Z) : list Z :=
  if value =? 0 then []
  else
    let neg := value <? 0 in
    let absvalue := if neg then u64 (- value) else value in
    let result := abs_bytes 8 absvalue in
    if negb (Z.land (back result) 0x80 =? 0) then result ++ [if neg then 0x80 else 0x00]
    else if neg then or_back result 0x80
    else result.

(** [for (i...) result |= vch[i] << (8 * i)] *)
Fixpoint or_vch (i : Z) (result : Z) (vch : list Z) : Z :=
  match vch with
  | [] => result
  | b :: vch' => or_vch (i + 1) (Z.lor result (Z.shiftl b (8 * i))) vch'
  end.

(** [CScriptNum::set_vch]: called on at most 5 bytes, so [int64_t] does not wrap. *)
Definition set_vch (vch : list Z) : Z :=
  match vch with
  | [] => 0
  | _ =>
      let result := or_vch 0 0 vch in
      if negb (Z.land (back vch) 0x80 =? 0)
      then - Z.land result (Z.lnot (Z.shiftl 0x80 (8 * (len vch - 1))))
      else result
  end.

(** The constructor from bytes: [None] is the exception it throws. *)
Definition CScriptNum (vch : list Z) (nMaxNumSize : Z) : option Z :=
  if len vch >? nMaxNumSize then None else Some (set_vch vch).

(** ** Building scripts *)

Definition push_op (opcode : Z) : list Z := [u8 opcode].

Definition push_data (data : list Z) : list Z :=
  (if len data <? 0x4c then [u8 (len data)]
   else if len data <=? 0xff then [OP_PUSHDATA1; u8 (len data)]
   else if len data <=? 0xffff then
     [OP_PUSHDATA2; u8 (Z.land (len data) 0xff); u8 (Z.land (Z.shiftr (len data) 8) 0xff)]
   else
     let n := u32 (len data) in
     [OP_PUSHDATA4; u8 (Z.land n 0xff); u8 (Z.land (Z.shiftr n 8) 0xff);
      u8 (Z.land (Z.shiftr n 16) 0xff); u8 (Z.land (Z.shiftr n 24) 0xff)]) ++ data.

Definition push_int (n : Z) : list Z :=
  if (n =? -1) || ((n >=? 1) && (n <=? 16)) then [u8 (n + (OP_1 - 1))]
  else if n =? 0 then [OP_0]
  else push_data (ScriptNum_serialize n).

(** ** Templates *)

Definition IsPayToPublicKeyHash (s : list Z) : bool :=
  (len s =? 25) && (byte_at s 0 =? OP_DUP) && (byte_at s 1 =? OP_HASH160) &&
  (byte_at s 2 =? 0x14) && (byte_at s 23 =? OP_EQUALVERIFY) && (byte_at s 24 =? OP_CHECKSIG).

Definition IsPayToScriptHash (s : list Z) : bool :=
  (len s =? 23) && (byte_at s 0 =? OP_HASH160) && (byte_at s 1 =? 0x14) &&
  (byte_at s 22 =? OP_EQUAL).

Definition IsHTLC (s : list Z) : bool :=
  if len s <? 40 then false
  else existsb (fun b => b =? OP_IF) s && existsb (fun b => b =? OP_SHA3_256) s &&
       existsb (fun b => b =? OP_CHECKLOCKTIMEVERIFY) s.

Definition IsUnspendable (s : list Z) : bool := (len s >? 0) && (byte_at s 0 =? OP_RETURN).

Definition IsLegacyScriptSig (s : list Z) : bool :=
  let LEGACY_SIZE := 2 + DILITHIUM3_SIG_SIZE + 2 + DILITHIUM3_PK_SIZE in
  if negb (len s =? LEGACY_SIZE) then false
  else u16 (Z.lor (byte_at s 0) (Z.shiftl (byte_at s 1) 8)) =? DILITHIUM3_SIG_SIZE.

(** ** Script numbers round-trip *)

Lemma or_vch_val vch : forall i pre,
  bytes_ok pre -> bytes_ok vch -> i = len pre ->
  or_vch i (le_val pre) vch = le_val (pre ++ vch).
Proof.
  induction vch as [|b vch IH]; intros i pre Hp Hv ->; cbn [or_vch].
  { by rewrite app_nil_r. }
  apply Forall_cons in Hv as [Hb Hv].
  rewrite lor_byte_step by done. rewrite (IH _ (pre ++ [b])); [by rewrite <- app_assoc| |done|].
  - apply Forall_app; split; [done|by constructor].
  - rewrite len_app. done.
Qed.

Lemma abs_bytes_spec n : forall a, 0 <= a < 256 ^ Z.of_nat n ->
  bytes_ok (abs_bytes n a) /\ le_val (abs_bytes n a) = a /\
  (forall k, 0 <= k -> a < 256 ^ k -> len (abs_bytes n a) <= k) /\
  (0 < a -> 0 < back (abs_bytes n a) /\ abs_bytes n a <> []).
Proof.
  induction n as [|n IH]; intros a Ha; cbn [abs_bytes].
  { assert (a = 0) as -> by (change (256 ^ Z.of_nat 0) with 1 in Ha; lia).
    split_and!; try done; try lia. }
  destruct (Z.eqb_spec a 0) as [->|Hne].
  { split_and!; try done; try lia. }
  rewrite Nat2Z.inj_succ, Z.pow_succ_r in Ha by lia.
  change 0xff with (2 ^ 8 - 1). rewrite land_ones_mod, Z.shiftr_div_pow2 by lia.
  change (2 ^ 8) with 256.
  pose proof (Z.mod_pos_bound a 256 ltac:(lia)). pose proof (Z.div_mod a 256 ltac:(lia)) as Hdm.
  assert (0 <= a / 256) by (apply Z.div_pos; lia).
  destruct (IH (a / 256)) as (B & V & L & N).
  { split; [done|]. apply Z.div_lt_upper_bound; lia. }
  rewrite u8_small by lia. split_and!.
  - constructor; [unfold byte_ok; lia|done].
  - cbn [le_val]. rewrite V. lia.
  - intros k Hk Hak.
    assert (1 <= k). { destruct (Z.eq_dec k 0) as [->|]; [simpl in Hak; lia|lia]. }
    assert (len (abs_bytes n (a / 256)) <= k - 1).
    { apply L; [lia|]. apply Z.div_lt_upper_bound; [lia|].
      replace (256 * 256 ^ (k - 1)) with (256 ^ k); [done|].
      rewrite <- Z.pow_succ_r by lia. f_equal. lia. }
    unfold len in *. cbn [length]. lia.
  - intros _. split; [|done]. destruct (Z.eq_dec (a / 256) 0) as [E|E].
    + rewrite E in *. assert (abs_bytes n 0 = []) as -> by (by destruct n).
      cbn. lia.
    + destruct (N ltac:(lia)) as [N1 N2]. unfold back in *.
      destruct (abs_bytes n (a / 256)); [done|exact N1].
Qed.

Lemma or_back_app l b m : or_back (l ++ [b]) m = l ++ [Z.lor b m].
Proof.
  induction l as [|x l IH]; [done|]. cbn [app]. rewrite <- IH.
  by destruct l.
Qed.

Lemma back_app l b : back (l ++ [b]) = b.
Proof. unfold back. apply last_last. Qed.

Lemma land80 b : byte_ok b -> (Z.land b 0x80 =? 0) = (b <? 128).
Proof.
  unfold byte_ok. intros Hb. change 0x80 with (2 ^ 7). rewrite land_pow2_eqb by lia.
  rewrite (testbit_top b 7) by (change (2 ^ (7 + 1)) with 256; lia).
  change (2 ^ 7) with 128. rewrite Z.leb_antisym. by rewrite negb_involutive.
Qed.

Lemma clear_top x k : 0 <= k -> 2 ^ k <= x < 2 ^ (k + 1) -> Z.land x (Z.lnot (2 ^ k)) = x - 2 ^ k.
Proof.
  intros Hk Hx. rewrite <- Z.ldiff_land. symmetry. apply Z.sub_nocarry_ldiff.
  apply Z.bits_inj'. intros i Hi. rewrite Z.ldiff_spec, Z.pow2_bits_eqb, Z.bits_0 by lia.
  destruct (Z.eqb_spec k i) as [<-|]; [|done].
  rewrite (testbit_top x k) by (done || lia). rewrite (proj2 (Z.leb_le _ _)) by lia. done.
Qed.

(** The value of a script number: magnitude in the low bits, sign in the top one. *)
Lemma set_vch_val l b : bytes_ok l -> byte_ok b ->
  set_vch (l ++ [b]) =
    if b <? 128 then le_val (l ++ [b]) else - (le_val l + 256 ^ len l * (b - 128)).
Proof.
  intros Hl Hb. assert (bytes_ok (l ++ [b])) as Hlb by (apply Forall_app; split; [done|by constructor]).
  assert (set_vch (l ++ [b]) =
    if negb (Z.land b 0x80 =? 0)
    then - Z.land (le_val (l ++ [b])) (Z.lnot (Z.shiftl 0x80 (8 * (len (l ++ [b]) - 1))))
    else le_val (l ++ [b])) as ->.
  { unfold set_vch. rewrite back_app.
    replace (or_vch 0 0 (l ++ [b])) with (le_val (l ++ [b])).
    2: { symmetry. apply (or_vch_val (l ++ [b]) 0 []); [constructor|done|done]. }
    destruct (l ++ [b]) eqn:E; [by destruct l|done]. }
  rewrite land80 by done. destruct (Z.ltb_spec b 128); cbn [negb]; [done|]. f_equal.
  rewrite len_app. change (len [b]) with 1. replace (len l + 1 - 1) with (len l) by lia.
  pose proof (len_nonneg l) as Ln. pose proof (le_val_bound l Hl) as Bl. fold (len l) in Bl.
  rewrite le_val_app. cbn [le_val]. fold (len l). rewrite Z.mul_0_r, Z.add_0_r.
  change (256 ^ Z.of_nat (length l)) with (256 ^ len l) in *.
  rewrite Z.shiftl_mul_pow2 by lia. rewrite pow_256 in * by lia.
  change 0x80 with (2 ^ 7). rewrite <- Z.pow_add_r by lia. unfold byte_ok in Hb.
  assert (2 ^ (7 + 8 * len l) = 128 * 2 ^ (8 * len l)) as EP by (by rewrite Z.pow_add_r by lia).
  assert (2 ^ (7 + 8 * len l + 1) = 256 * 2 ^ (8 * len l)) as EP1.
  { replace (7 + 8 * len l + 1) with (8 + 8 * len l) by lia. by rewrite Z.pow_add_r by lia. }
  rewrite clear_top by (lia || (rewrite EP, EP1; nia)). rewrite EP. nia.
Qed.

Lemma abs_split a : 0 < a < 2 ^ 64 ->
  exists l b, abs_bytes 8 a = l ++ [b] /\ bytes_ok l /\ 0 < b < 256 /\
    a = le_val l + 256 ^ len l * b.
Proof.
  intros Ha. destruct (abs_bytes_spec 8 a) as (B & V & _ & N); [change (256 ^ Z.of_nat 8) with (2 ^ 64); lia|].
  destruct (N ltac:(lia)) as [Nb Ne]. destruct (exists_last Ne) as (l & b & E).
  rewrite E in *. rewrite back_app in Nb. apply Forall_app in B as [Bl Bb].
  apply Forall_cons in Bb as [Bb _]. exists l, b. split_and!; try done; try apply Bb.
  rewrite <- V, le_val_app. cbn [le_val]. unfold len. lia.
Qed.

Lemma ScriptNum_length v k : 1 <= k <= 8 -> Z.abs v < 2 ^ (8 * k - 1) ->
  len (ScriptNum_serialize v) <= k.
Proof.
  intros Hk Hv. unfold ScriptNum_serialize. destruct (Z.eqb_spec v 0); [unfold len; simpl; lia|].
  assert (2 ^ (8 * k - 1) <= 2 ^ 63) by (apply Z.pow_le_mono_r; lia).
  set (a := if v <? 0 then u64 (- v) else v).
  assert (a = Z.abs v) as Ea.
  { unfold a. destruct (Z.ltb_spec v 0); [rewrite u64_small|]; lia. }
  assert (2 * 2 ^ (8 * k - 1) = 256 ^ k) as EP.
  { rewrite pow_256 by lia. rewrite <- (Z.pow_succ_r 2) by lia. f_equal. lia. }
  destruct (abs_bytes_spec 8 a) as (_ & _ & L & _).
  { change (256 ^ Z.of_nat 8) with (2 ^ 64). lia. }
  specialize (L k ltac:(lia) ltac:(lia)).
  destruct (abs_split a ltac:(lia)) as (l & b & E & Bl & Bb & Va).
  rewrite E in *. rewrite back_app, or_back_app, land80 by (unfold byte_ok; lia).
  rewrite len_app in L. change (len [b]) with 1 in L.
  destruct (Z.ltb_spec b 128); cbn [negb].
  - destruct (v <? 0); rewrite len_app; change (len [?x]) with 1; lia.
  - rewrite !len_app. change (len [?x]) with 1.
    destruct (Z.eq_dec (len l + 1) k) as [Ek|]; [exfalso|lia].
    assert (256 ^ k = 256 * 256 ^ len l) as Ep.
    { rewrite <- Ek. rewrite Z.pow_add_r by (pose proof (len_nonneg l); lia). lia. }
    pose proof (le_val_bound l Bl). nia.
Qed.

Lemma ScriptNum_roundtrip_lemma v : Z.abs v < 2 ^ 63 -> set_vch (ScriptNum_serialize v) = v.
Proof.
  intros Hv. unfold ScriptNum_serialize. destruct (Z.eqb_spec v 0) as [->|]; [done|].
  set (a := if v <? 0 then u64 (- v) else v).
  assert (a = Z.abs v) as Ea.
  { unfold a. destruct (Z.ltb_spec v 0); [rewrite u64_small|]; lia. }
  destruct (abs_split a ltac:(lia)) as (l & b & E & Bl & Bb & Va).
  assert (byte_ok b) as Bb' by (unfold byte_ok; lia).
  rewrite E, back_app, or_back_app, land80 by done.
  pose proof (le_val_app l [b]) as VA. cbn [le_val] in VA. fold (len l) in VA.
  change (256 ^ Z.of_nat (length l)) with (256 ^ len l) in VA.
  destruct (Z.ltb_spec b 128); cbn [negb].
  - destruct (Z.ltb_spec v 0).
    + rewrite Z.lor_comm. change 0x80 with (1 * 2 ^ 7). rewrite Z.lor_comm, lor_disjoint by lia.
      change (1 * 2 ^ 7) with 128. rewrite set_vch_val by (done || unfold byte_ok; lia).
      rewrite (proj2 (Z.ltb_ge _ _)) by lia. lia.
    + rewrite set_vch_val by done. rewrite (proj2 (Z.ltb_lt b 128)) by lia. lia.
  - rewrite set_vch_val;
      [|by apply Forall_app; split; [|constructor]|destruct (v <? 0); unfold byte_ok; lia].
    rewrite le_val_app. destruct (Z.ltb_spec v 0).
    + change (128 <? 128) with false. cbn iota. lia.
    + change (0 <? 128) with true. cbn iota. cbn [le_val]. lia.
Qed.

(** script numbers round-trip: every integer below 2^63 in magnitude is
    recovered by [set_vch] from its encoding, and the ones below 2^(8k-1) fit
    in [k] bytes, so a 32-bit timeout always passes the 5-byte limit of the
    locktime opcodes. *)
Theorem ScriptNum_roundtrip (v k : Z) (Hv : Z.abs v < 2 ^ 63) (Hk : 1 <= k <= 8)
    (Hvk : Z.abs v < 2 ^ (8 * k - 1)) :
  set_vch (ScriptNum_serialize v) = v /\
  CScriptNum (ScriptNum_serialize v) k = Some v.
Proof.
  split; [by apply ScriptNum_roundtrip_lemma|]. unfold CScriptNum.
  rewrite Z.gtb_ltb, (proj2 (Z.ltb_ge _ _)) by (by apply ScriptNum_length).
  f_equal. by apply ScriptNum_roundtrip_lemma.
Qed.

Lemma ScriptNum_roundtrip_witness :
  CScriptNum (ScriptNum_serialize (2 ^ 32 - 1)) 5 = Some (2 ^ 32 - 1) /\
  ScriptNum_serialize (-128) = [0x80; 0x80].
Proof.
  split; [|vm_compute; reflexivity].
  apply (ScriptNum_roundtrip (2 ^ 32 - 1) 5); lia.
Defined.
