(* ===== verification/Interpreter.v ===== *)
(** * The script interpreter (script/interpreter.h, script/interpreter.cpp)

    The abstract [SignatureChecker] interface as a class, its transaction
    implementation, the stack machine and the two-phase verification.  The
    stack vector is a list with its back at the head, [vfExec] likewise; [pc]
    is the part of the script still to be read.  SHA3-256 and the Dilithium3
    verifier are third-party code and section variables. *)

From S2P Require Import Prelude Uint256 Transaction Script.

(** ** Signature checker interface *)

Class SignatureChecker : Type := mkChecker {
  CheckSig : list Z -> list Z -> bool;
  CheckLockTime : Z -> bool;
  CheckSequence : Z -> bool
}.

Definition SCRIPT_VERIFY_CHECKLOCKTIMEVERIFY : Z := Z.shiftl 1 1.
Definition SCRIPT_VERIFY_CHECKSEQUENCEVERIFY : Z := Z.shiftl 1 2.

Definition has_flag (flags f : Z) : bool := negb (Z.land flags f =? 0).

(** ** Stack helpers *)

(** [CastToBool]: the last byte may be a lone sign bit. *)
Fixpoint CastToBool (vch : list Z) : bool :=
  match vch with
  | [] => false
  | b :: vch' =>
      if negb (b =? 0) then
        if bool_decide (vch' = []) && (b =? 0x80) then false else true
      else CastToBool vch'
  end.

(** ** Stack machine *)

Inductive ScriptError : Set :=
| ScriptSizeExceeded | PushPastEnd | ElementTooLarge | PushData1PastEnd | PushData2PastEnd
| PushData4PastEnd | OpCountExceeded | NeedsElement | NeedsTwoElements | ElseWithoutIf
| EndifWithoutIf | VerifyFailed | ReturnEncountered | EqualVerifyFailed | ScriptException
| NegativeLockTime | LockTimeNotSatisfied | NegativeSequence | SequenceNotSatisfied
| MultisigNotImplemented | UnknownOpcode | StackSizeExceeded | UnmatchedIf
| EmptyStack | EvaluatedFalse.

Record EvalState := mkEval {
  stack : list (list Z);
  vfExec : list bool;
  nOpCount : Z;
  pc : list Z
}.

Definition set_stack (st : EvalState) (s : list (list Z)) : EvalState :=
  mkEval s (vfExec st) (nOpCount st) (pc st).
Definition set_vfExec (st : EvalState) (v : list bool) : EvalState :=
  mkEval (stack st) v (nOpCount st) (pc st).
Definition set_pc (st : EvalState) (p : list Z) : EvalState :=
  mkEval (stack st) (vfExec st) (nOpCount st) p.

(** [vfExec.empty() || vfExec.back()] *)
Definition fExec (st : EvalState) : bool :=
  match vfExec st with [] => true | b :: _ => b end.

(** The data push shared by the direct and the PUSHDATA forms. *)
Definition do_push (st : EvalState) (nSize : Z) (rest : list Z) : result ScriptError EvalState :=
  reject len rest <? nSize with PushPastEnd;
  reject nSize >? MAX_SCRIPT_ELEMENT_SIZE with ElementTooLarge;
  let data := take (Z.to_nat nSize) rest in
  let st := if fExec st then set_stack st (data :: stack st) else st in
  Ok (set_pc st (drop (Z.to_nat nSize) rest)).

Definition bool_elem (b : bool) : list Z := if b then [1] else [].

(** [opcode - (OP_1 - 1)] *)
Definition is_small_int (op : Z) : bool := (OP_1 <=? op) && (op <=? OP_16).

Section Machine.
  Variable SHA3_256 : list Z -> uint256.
  Context `{checker : SignatureChecker}.
  Variable flags : Z.

Definition HASH160 (data : list Z) : list Z := take 20 (SHA3_256 (SHA3_256 data)).

(** The body of an opcode that only acts when executing ([if (!fExec) break]). *)
Definition when_exec (st : EvalState) (k : result ScriptError EvalState)
  : result ScriptError EvalState := if fExec st then k else Ok st.

(** The [switch (opcode)] from the crypto cases to the default. *)
Definition exec_crypto (op : Z) (st : EvalState) : result ScriptError EvalState :=
  if op =? OP_SHA3_256 then
    when_exec st
      match stack st with
      | [] => Err NeedsElement
      | top :: s => Ok (set_stack st (SHA3_256 top :: s))
      end
  else if op =? OP_HASH160 then
    when_exec st
      match stack st with
      | [] => Err NeedsElement
      | top :: s => Ok (set_stack st (HASH160 top :: s))
      end
  else if op =? OP_CHECKSIG then
    when_exec st
      match stack st with
      | pubkey :: sig :: s => Ok (set_stack st (bool_elem (CheckSig sig pubkey) :: s))
      | _ => Err NeedsTwoElements
      end
  else if op =? OP_CHECKLOCKTIMEVERIFY then
    if negb (has_flag flags SCRIPT_VERIFY_CHECKLOCKTIMEVERIFY) then Ok st
    else
      when_exec st
        match stack st with
        | [] => Err NeedsElement
        | top :: _ =>
            match CScriptNum top 5 with
            | None => Err ScriptException
            | Some n =>
                if n <? 0 then Err NegativeLockTime
                else if CheckLockTime n then Ok st else Err LockTimeNotSatisfied
            end
        end
  else if op =? OP_CHECKSEQUENCEVERIFY then
    if negb (has_flag flags SCRIPT_VERIFY_CHECKSEQUENCEVERIFY) then Ok st
    else
      when_exec st
        match stack st with
        | [] => Err NeedsElement
        | top :: _ =>
            match CScriptNum top 5 with
            | None => Err ScriptException
            | Some n =>
                if n <? 0 then Err NegativeSequence
                else if CheckSequence n then Ok st else Err SequenceNotSatisfied
            end
        end
  else if (op =? OP_NOP1) || ((OP_NOP4 <=? op) && (op <=? OP_NOP10)) then Ok st
  else if op =? OP_CHECKMULTISIG then when_exec st (Err MultisigNotImplemented)
  else when_exec st (Err UnknownOpcode).

(** The [switch (opcode)]: push values, flow control, stack operations and
    comparison, then the cases above. *)
Definition exec_op (op : Z) (st : EvalState) : result ScriptError EvalState :=
  if op =? OP_0 then when_exec st (Ok (set_stack st ([] :: stack st)))
  else if op =? OP_1NEGATE then
    when_exec st (Ok (set_stack st (ScriptNum_serialize (-1) :: stack st)))
  else if is_small_int op then
    when_exec st (Ok (set_stack st (ScriptNum_serialize (op - (OP_1 - 1)) :: stack st)))
  else if op =? OP_NOP then Ok st
  else if (op =? OP_IF) || (op =? OP_NOTIF) then
    if fExec st then
      match stack st with
      | [] => Err NeedsElement
      | top :: s =>
          let fValue := CastToBool top in
          let fValue := if op =? OP_NOTIF then negb fValue else fValue in
          Ok (set_vfExec (set_stack st s) (fValue :: vfExec st))
      end
    else Ok (set_vfExec st (false :: vfExec st))
  else if op =? OP_ELSE then
    match vfExec st with
    | [] => Err ElseWithoutIf
    | b :: v =>
        let parentExec := match v with [] => true | p :: _ => p end in
        Ok (if parentExec then set_vfExec st (negb b :: v) else st)
    end
  else if op =? OP_ENDIF then
    match vfExec st with
    | [] => Err EndifWithoutIf
    | _ :: v => Ok (set_vfExec st v)
    end
  else if op =? OP_VERIFY then
    when_exec st
      match stack st with
      | [] => Err NeedsElement
      | top :: s => if CastToBool top then Ok (set_stack st s) else Err VerifyFailed
      end
  else if op =? OP_RETURN then when_exec st (Err ReturnEncountered)
  else if op =? OP_DUP then
    when_exec st
      match stack st with
      | [] => Err NeedsElement
      | top :: s => Ok (set_stack st (top :: top :: s))
      end
  else if op =? OP_DROP then
    when_exec st
      match stack st with
      | [] => Err NeedsElement
      | _ :: s => Ok (set_stack st s)
      end
  else if op =? OP_SWAP then
    when_exec st
      match stack st with
      | a :: b :: s => Ok (set_stack st (b :: a :: s))
      | _ => Err NeedsTwoElements
      end
  else if op =? OP_SIZE then
    when_exec st
      match stack st with
      | [] => Err NeedsElement
      | top :: s => Ok (set_stack st (ScriptNum_serialize (len top) :: top :: s))
      end
  else if (op =? OP_EQUAL) || (op =? OP_EQUALVERIFY) then
    when_exec st
      match stack st with
      | a :: b :: s =>
          let equal := bool_decide (a = b) in
          if op =? OP_EQUALVERIFY then
            if equal then Ok (set_stack st s) else Err EqualVerifyFailed
          else Ok (set_stack st (bool_elem equal :: s))
      | _ => Err NeedsTwoElements
      end
  else exec_crypto op st.

(** One round of [while (pc < pend)]; [rest] follows the opcode. *)
Definition step (op : Z) (rest : list Z) (st : EvalState) : result ScriptError EvalState :=
  if (op >? 0) && (op <? OP_PUSHDATA1) then do_push st op rest
  else if op =? OP_PUSHDATA1 then
    match rest with
    | n :: rest' => do_push st n rest'
    | _ => Err PushData1PastEnd
    end
  else if op =? OP_PUSHDATA2 then
    match rest with
    | a :: b :: rest' => do_push st (Z.lor a (Z.shiftl b 8)) rest'
    | _ => Err PushData2PastEnd
    end
  else if op =? OP_PUSHDATA4 then
    match rest with
    | a :: b :: c :: d :: rest' =>
        do_push st (Z.lor (Z.lor (Z.lor a (Z.shiftl b 8)) (Z.shiftl c 16)) (Z.shiftl d 24)) rest'
    | _ => Err PushData4PastEnd
    end
  else
    let n := if op >? OP_16 then nOpCount st + 1 else nOpCount st in
    if n >? MAX_OPS_PER_SCRIPT then Err OpCountExceeded
    else
      match exec_op op (mkEval (stack st) (vfExec st) n rest) with
      | Err e => Err e
      | Ok st' => if len (stack st') >? MAX_STACK_SIZE then Err StackSizeExceeded else Ok st'
      end.

(** The loop: [None] is a run that exhausts its fuel. *)
Fixpoint eval_loop (fuel : nat) (st : EvalState) : option (result ScriptError EvalState) :=
  match pc st with
  | [] => Some (Ok st)
  | op :: rest =>
      match fuel with
      | O => None
      | S fuel' =>
          match step op rest st with
          | Err e => Some (Err e)
          | Ok st' => eval_loop fuel' st'
          end
      end
  end.

(** [EvalScript]: each round reads at least one byte, so the script's length is
    enough fuel ([eval_loop_total]). *)
Definition EvalScript (stk : list (list Z)) (script : list Z)
  : option (result ScriptError (list (list Z))) :=
  if len script >? MAX_SCRIPT_SIZE then Some (Err ScriptSizeExceeded)
  else
    match eval_loop (length script) (mkEval stk [] 0 script) with
    | None => None
    | Some (Err e) => Some (Err e)
    | Some (Ok st) =>
        Some (if bool_decide (vfExec st = []) then Ok (stack st) else Err UnmatchedIf)
    end.

Definition VerifyScript (scriptSig scriptPubKey : list Z)
  : option (result ScriptError unit) :=
  match EvalScript [] scriptSig with
  | None => None
  | Some (Err e) => Some (Err e)
  | Some (Ok stk) =>
      match EvalScript stk scriptPubKey with
      | None => None
      | Some (Err e) => Some (Err e)
      | Some (Ok stk') =>
          Some match stk' with
               | [] => Err EmptyStack
               | top :: _ => if CastToBool top then Ok tt else Err EvaluatedFalse
               end
      end
  end.

End Machine.

(** ** The transaction checker *)

Definition LOCKTIME_THRESHOLD : Z := 500000000.
Definition SEQUENCE_LOCKTIME_TYPE_FLAG : Z := Z.shiftl 1 22.
Definition SEQUENCE_LOCKTIME_MASK : Z := 0x0000ffff.

(** The scan [for (...; i < n && (allZeros || allOnes); ...)]. *)
Definition all_zeros_or_ones (l : list Z) : bool :=
  forallb (fun b => b =? 0) l || forallb (fun b => b =? 0xff) l.

Section TxChecker.
  Variable SHA3_256 : list Z -> uint256.
  (** [pqcrystals_dilithium3_ref_verify sig msg pk] *)
  Variable dilithium_verify : list Z -> list Z -> list Z -> Z.

Definition le4 (x : Z) : list Z :=
  [u8 (Z.land x 0xff); u8 (Z.land (Z.shiftr x 8) 0xff); u8 (Z.land (Z.shiftr x 16) 0xff);
   u8 (Z.land (Z.shiftr x 24) 0xff)].

Definition sig_message (tx : CTransaction) (nIn chainId : Z) : list Z :=
  GetSigningHash SHA3_256 tx ++ le4 nIn ++ le4 (u32 (tx_nVersion tx)) ++ le4 chainId.

Definition Tx_CheckSig (tx : CTransaction) (nIn chainId : Z) (sig pubkey : list Z) : bool :=
  if negb (len sig =? DILITHIUM3_SIG_SIZE) then false
  else if negb (len pubkey =? DILITHIUM3_PK_SIZE) then false
  else if all_zeros_or_ones sig then false
  else if all_zeros_or_ones pubkey then false
  else
    let msg := sig_message tx nIn chainId in
    if negb (len msg =? 44) then false
    else dilithium_verify sig (SHA3_256 msg) pubkey =? 0.

Definition Tx_CheckLockTime (tx : CTransaction) (nIn : Z) (lockTime : Z) : bool :=
  if negb (Bool.eqb (nLockTime tx <? LOCKTIME_THRESHOLD) (lockTime <? LOCKTIME_THRESHOLD))
  then false
  else if lockTime >? nLockTime tx then false
  else
    match vin tx !! Z.to_nat nIn with
    | None => false
    | Some i => negb (nSequence i =? SEQUENCE_FINAL)
    end.

Definition Tx_CheckSequence (tx : CTransaction) (nIn : Z) (seq : Z) : bool :=
  if negb (Z.land seq (Z.shiftl 1 31) =? 0) then true
  else if tx_nVersion tx <? 2 then false
  else
    match vin tx !! Z.to_nat nIn with
    | None => false
    | Some i =>
        let txSequence := nSequence i in
        if negb (Z.land txSequence (Z.shiftl 1 31) =? 0) then false
        else if negb (Z.land txSequence SEQUENCE_LOCKTIME_TYPE_FLAG =?
                      Z.land (u32 seq) SEQUENCE_LOCKTIME_TYPE_FLAG) then false
        else negb (Z.land txSequence SEQUENCE_LOCKTIME_MASK <?
                   Z.land (u32 seq) SEQUENCE_LOCKTIME_MASK)
    end.

Definition TransactionSignatureChecker (tx : CTransaction) (nIn chainId : Z)
  : SignatureChecker :=
  mkChecker (Tx_CheckSig tx nIn chainId) (Tx_CheckLockTime tx nIn) (Tx_CheckSequence tx nIn).
End TxChecker.

(** ** Totality and resource bounds *)

(** The instructions of a script, read without executing them: [None] for a data
    push, [Some op] for an opcode.  No script when one is cut short. *)
Definition next_instruction (op : Z) (rest : list Z) : option (option Z * list Z) :=
  let push n r := if len r <? n then None else Some (None, drop (Z.to_nat n) r) in
  if (op >? 0) && (op <? OP_PUSHDATA1) then push op rest
  else if op =? OP_PUSHDATA1 then match rest with n :: r => push n r | _ => None end
  else if op =? OP_PUSHDATA2 then match rest with a :: b :: r => push (Z.lor a (Z.shiftl b 8)) r | _ => None end
  else if op =? OP_PUSHDATA4 then
    match rest with
    | a :: b :: c :: d :: r => push (Z.lor (Z.lor (Z.lor a (Z.shiftl b 8)) (Z.shiftl c 16)) (Z.shiftl d 24)) r
    | _ => None
    end
  else Some (Some op, rest).

Fixpoint instructions (fuel : nat) (script : list Z) : option (list (option Z)) :=
  match script, fuel with
  | [], _ => Some []
  | _, O => None
  | op :: rest, S fuel' => '(i, rest) ← next_instruction op rest; ins ← instructions fuel' rest; Some (i :: ins)
  end.

(** The opcodes that count against the limit, in executed branches or not. *)
Definition counted (i : option Z) : Z := match i with Some op => if op >? OP_16 then 1 else 0 | None => 0 end.
Definition op_count (ins : list (option Z)) : Z := foldr (fun i n => counted i + n) 0 ins.

(** The stack height an instruction allows: only opcodes enforce the limit. *)
Definition allowed (n : Z) (i : option Z) : Z := match i with None => n + 1 | Some _ => Z.min (n + 1) MAX_STACK_SIZE end.
Definition stack_allowed (n : Z) (ins : list (option Z)) : Z := foldl allowed n ins.

Lemma stack_allowed_mono ins : forall n m, n <= m -> stack_allowed n ins <= stack_allowed m ins.
Proof. induction ins as [|i ins IH]; intros n m H; cbn; [done|]. apply IH. destruct i; cbn; lia. Qed.

Section Facts.
  Variable SHA3_256 : list Z -> uint256.
  Context `{checker : SignatureChecker}.
  Variable flags : Z.

Abbreviation step' := (step SHA3_256 flags).
Abbreviation eval_loop' := (eval_loop SHA3_256 flags).

Lemma do_push_inv st n rest st' :
  do_push st n rest = Ok st' ->
  n <= len rest /\ n <= MAX_SCRIPT_ELEMENT_SIZE /\
  vfExec st' = vfExec st /\ nOpCount st' = nOpCount st /\
  pc st' = drop (Z.to_nat n) rest /\
  stack st' = (if fExec st then take (Z.to_nat n) rest :: stack st else stack st).
Proof.
  unfold do_push. intros H. guards H. zprop. injection H as <-.
  destruct (fExec st); simpl; split_and!; try done; lia.
Qed.

(** The branches of a successful opcode [H : exec_op op st = Ok st']. *)
Ltac op_cases H :=
  unfold exec_op, exec_crypto, when_exec in H;
  repeat match type of H with
  | Err _ = Ok _ => discriminate H
  | Ok (if ?b then _ else _) = Ok _ => destruct b
  | Ok _ = Ok _ => injection H as <-
  | (if ?b then _ else _) = Ok _ =>
      let E := fresh "B" in destruct b eqn:E
  | match ?x with _ => _ end = Ok _ =>
      let E := fresh "M" in destruct x eqn:E
  end.

(** What an executed opcode leaves alone, and how much it can push. *)
Lemma exec_op_inv op st st' :
  exec_op SHA3_256 flags op st = Ok st' ->
  pc st' = pc st /\ nOpCount st' = nOpCount st /\
  (length (stack st') <= S (length (stack st)))%nat.
Proof.
  intros H. op_cases H; simpl; split_and!; try done;
    try match goal with M : stack st = _ |- _ => rewrite M end; simpl; lia.
Qed.

Lemma step_inv op rest st st' :
  step' op rest st = Ok st' ->
  (length (pc st') <= length rest)%nat /\
  (length (stack st') <= S (length (stack st)))%nat.
Proof.
  unfold step. intros H.
  assert (forall n r, do_push st n r = Ok st' -> (length r <= length rest)%nat ->
    (length (pc st') <= length rest)%nat /\ (length (stack st') <= S (length (stack st)))%nat) as HP.
  { intros n r Hd Hr. apply do_push_inv in Hd as (_ & _ & _ & _ & -> & ->).
    rewrite length_drop. destruct (fExec st); simpl; lia. }
  destruct ((op >? 0) && _); [by eapply HP|].
  destruct (op =? OP_PUSHDATA1).
  { destruct rest; [done|]. eapply HP; [exact H|]. simpl. lia. }
  destruct (op =? OP_PUSHDATA2).
  { destruct rest as [|? [|? ?]]; try done. eapply HP; [exact H|]. simpl. lia. }
  destruct (op =? OP_PUSHDATA4).
  { destruct rest as [|? [|? [|? [|? ?]]]]; try done. eapply HP; [exact H|]. simpl. lia. }
  clear HP. cbv zeta in H. destruct (_ >? MAX_OPS_PER_SCRIPT); [done|].
  destruct (exec_op _ _ _ _) as [s|] eqn:E; [|done].
  destruct (_ >? MAX_STACK_SIZE); [done|]. injection H as <-.
  apply exec_op_inv in E as (-> & _ & Hs). simpl in *. lia.
Qed.

Lemma eval_loop_total fuel : forall st,
  (length (pc st) <= fuel)%nat -> is_Some (eval_loop' fuel st).
Proof.
  induction fuel as [|fuel IH]; intros st Hf; cbn [eval_loop].
  { destruct (pc st); [eauto|simpl in Hf; lia]. }
  destruct (pc st) as [|op rest]; [eauto|]. simpl in Hf.
  destruct (step' op rest st) as [st'|] eqn:E; [|eauto].
  apply IH. apply step_inv in E. lia.
Qed.

Lemma eval_loop_fuel fuel : forall st fuel',
  (length (pc st) <= fuel)%nat -> (length (pc st) <= fuel')%nat ->
  eval_loop' fuel st = eval_loop' fuel' st.
Proof.
  induction fuel as [|fuel IH]; intros st fuel' Hf Hf'.
  { assert (pc st = []) as E by (destruct (pc st); [done|simpl in Hf; lia]).
    destruct fuel'; cbn [eval_loop]; by rewrite E. }
  destruct (pc st) as [|op rest] eqn:E.
  { destruct fuel'; cbn [eval_loop]; by rewrite E. }
  simpl in *. destruct fuel' as [|fuel']; [lia|]. cbn [eval_loop]. rewrite E.
  destruct (step' op rest st) as [st'|] eqn:ES; [|done].
  apply step_inv in ES. apply IH; lia.
Qed.

(** The loop with the fuel it needs, and its unfolding. *)
Definition run (st : EvalState) : option (result ScriptError EvalState) :=
  eval_loop' (length (pc st)) st.

Lemma run_nil st : pc st = [] -> run st = Some (Ok st).
Proof. intros E. unfold run. rewrite E. simpl. by rewrite E. Qed.

Lemma run_step op rest st : pc st = op :: rest ->
  run st = match step' op rest st with
           | Err e => Some (Err e)
           | Ok st' => run st'
           end.
Proof.
  intros E. unfold run at 1. rewrite E. cbn [eval_loop length]. rewrite E.
  destruct (step' op rest st) as [st'|] eqn:ES; [|done].
  apply step_inv in ES. apply eval_loop_fuel; lia.
Qed.

(** *** Invariant of the run *)

Variable SHA3_len : forall l, length (SHA3_256 l) = 32%nat.

(** Element sizes, the op count, and the stack growth against the bytes read. *)
Definition eval_inv (bound : nat) (st : EvalState) : Prop :=
  Forall (fun e => len e <= MAX_SCRIPT_ELEMENT_SIZE) (stack st) /\
  0 <= nOpCount st <= MAX_OPS_PER_SCRIPT /\
  (length (stack st) + length (pc st) <= bound)%nat.

Lemma small_element (l : list Z) k : len l <= k -> k <= 5300 -> len l <= MAX_SCRIPT_ELEMENT_SIZE.
Proof. unfold MAX_SCRIPT_ELEMENT_SIZE. lia. Qed.

Lemma ScriptNum_small v : Z.abs v < 2 ^ 39 -> len (ScriptNum_serialize v) <= MAX_SCRIPT_ELEMENT_SIZE.
Proof. intros H. eapply small_element; [by apply (ScriptNum_length v 5)|lia]. Qed.

Lemma SHA3_small l : len (SHA3_256 l) <= MAX_SCRIPT_ELEMENT_SIZE.
Proof. unfold len. rewrite SHA3_len. unfold MAX_SCRIPT_ELEMENT_SIZE. lia. Qed.

Lemma HASH160_small l : len (HASH160 SHA3_256 l) <= MAX_SCRIPT_ELEMENT_SIZE.
Proof.
  unfold HASH160, len. rewrite length_take. unfold MAX_SCRIPT_ELEMENT_SIZE. lia.
Qed.

Lemma bool_elem_small b : len (bool_elem b) <= MAX_SCRIPT_ELEMENT_SIZE.
Proof. by destruct b. Qed.

Lemma exec_op_elements op st st' : 0 <= op < 256 ->
  exec_op SHA3_256 flags op st = Ok st' ->
  Forall (fun e => len e <= MAX_SCRIPT_ELEMENT_SIZE) (stack st) ->
  Forall (fun e => len e <= MAX_SCRIPT_ELEMENT_SIZE) (stack st').
Proof.
  intros Hop H HF. op_cases H; simpl in *; try done;
    try match goal with M : stack st = _ |- _ => rewrite M in HF end;
    rewrite ?Forall_cons in *; destruct_and?; split_and?; try done;
    try (apply ScriptNum_small; unfold OP_1, MAX_SCRIPT_ELEMENT_SIZE, len in *; lia);
    try apply SHA3_small; try apply HASH160_small; try apply bool_elem_small;
    match goal with M : stack st = _ |- Forall _ (stack st) => rewrite M; by constructor end.
Qed.

Lemma step_eval_inv bound op rest st st' :
  bytes_ok (op :: rest) -> pc st = op :: rest -> eval_inv bound st ->
  step' op rest st = Ok st' -> eval_inv bound st' /\ bytes_ok (pc st').
Proof.
  intros Hb Hpc (HF & HO & HL) H. apply Forall_cons in Hb as [Hop Hr]. rewrite Hpc in HL. simpl in HL.
  assert (forall n r, do_push st n r = Ok st' -> (length r <= length rest)%nat -> bytes_ok r ->
    eval_inv bound st' /\ bytes_ok (pc st')) as HP.
  { intros n r Hd Hlen Hbr. apply do_push_inv in Hd as (H1 & H2 & H3 & H4 & H5 & H6).
    unfold eval_inv. rewrite H4, H5, H6, length_drop. split; [|by apply Forall_drop].
    destruct (fExec st); simpl; split_and!; try done; try lia.
    constructor; [|done]. unfold len in *. rewrite length_take. unfold MAX_SCRIPT_ELEMENT_SIZE in *. lia. }
  unfold step in H. destruct ((op >? 0) && _); [by eapply HP|].
  destruct (op =? OP_PUSHDATA1).
  { destruct rest as [|? ?]; [done|]. apply Forall_cons in Hr as [_ Hr].
    eapply HP; [exact H| |done]. simpl. lia. }
  destruct (op =? OP_PUSHDATA2).
  { destruct rest as [|? [|? ?]]; try done. rewrite !Forall_cons in Hr. destruct Hr as (_ & _ & Hr).
    eapply HP; [exact H| |done]. simpl. lia. }
  destruct (op =? OP_PUSHDATA4).
  { destruct rest as [|? [|? [|? [|? ?]]]]; try done. rewrite !Forall_cons in Hr.
    destruct Hr as (_ & _ & _ & _ & Hr). eapply HP; [exact H| |done]. simpl. lia. }
  clear HP. cbv zeta in H. rewrite Z.gtb_ltb in H.
  set (n := if op >? OP_16 then nOpCount st + 1 else nOpCount st) in *.
  destruct (Z.ltb_spec MAX_OPS_PER_SCRIPT n) as [|Hn]; [done|].
  destruct (exec_op _ _ _ _) as [s|] eqn:E; [|done].
  destruct (_ >? MAX_STACK_SIZE); [done|]. injection H as <-.
  pose proof (exec_op_elements _ _ _ Hop E HF) as HF'.
  apply exec_op_inv in E as (E1 & E2 & E3). simpl in *. unfold eval_inv. rewrite E1, E2.
  split; [|done]. split_and!; [done| |lia|lia]. unfold n. destruct (op >? OP_16); lia.
Qed.

Lemma eval_loop_inv bound fuel : forall st st',
  bytes_ok (pc st) -> eval_inv bound st -> eval_loop' fuel st = Some (Ok st') ->
  eval_inv bound st' /\ pc st' = [].
Proof.
  induction fuel as [|fuel IH]; intros st st' Hb Hi; cbn [eval_loop].
  { destruct (pc st) eqn:E; [|done]. intros [= <-]. done. }
  destruct (pc st) as [|op rest] eqn:E; [by intros [= <-]|].
  destruct (step' op rest st) as [s|] eqn:ES; [|done].
  destruct (step_eval_inv bound op rest st s Hb E Hi ES) as [Hi' Hb']. by apply IH.
Qed.

Lemma step_instruction op rest st st' : step' op rest st = Ok st' -> exists i, next_instruction op rest = Some (i, pc st') /\
  nOpCount st' = nOpCount st + counted i /\ (nOpCount st <= MAX_OPS_PER_SCRIPT -> nOpCount st' <= MAX_OPS_PER_SCRIPT) /\
  len (stack st') <= allowed (len (stack st)) i.
Proof.
  unfold step, next_instruction. intros H.
  assert (forall n r, do_push st n r = Ok st' -> exists i, (if len r <? n then None else Some (None, drop (Z.to_nat n) r)) = Some (i, pc st') /\
    nOpCount st' = nOpCount st + counted i /\ (nOpCount st <= MAX_OPS_PER_SCRIPT -> nOpCount st' <= MAX_OPS_PER_SCRIPT) /\
    len (stack st') <= allowed (len (stack st)) i) as HP.
  { intros n r Hd. apply do_push_inv in Hd as (H1 & _ & _ & -> & -> & ->). exists None. rewrite (proj2 (Z.ltb_ge (len r) n)) by lia.
    split_and!; [done|cbn; lia|done|]. destruct (fExec st); unfold len; cbn [length allowed]; lia. }
  destruct ((op >? 0) && _); [by apply HP|]. destruct (op =? OP_PUSHDATA1); [destruct rest; [done|by apply HP]|].
  destruct (op =? OP_PUSHDATA2); [destruct rest as [|? [|? ?]]; [done..|by apply HP]|].
  destruct (op =? OP_PUSHDATA4); [destruct rest as [|? [|? [|? [|? ?]]]]; [done..|by apply HP]|].
  clear HP. cbv zeta in H. exists (Some op). rewrite Z.gtb_ltb in H.
  destruct (Z.ltb_spec MAX_OPS_PER_SCRIPT (if op >? OP_16 then nOpCount st + 1 else nOpCount st)); [done|].
  destruct (exec_op _ _ _ _) as [s|] eqn:E; [|done]. rewrite Z.gtb_ltb in H. destruct (Z.ltb_spec MAX_STACK_SIZE (len (stack s))); [done|].
  injection H as <-. apply exec_op_inv in E as (-> & -> & E3). cbn [pc nOpCount stack counted allowed] in *. unfold len in *.
  split_and!; [done|destruct (op >? OP_16); lia|done|lia].
Qed.

Lemma eval_loop_instructions fuel : forall st st', eval_loop' fuel st = Some (Ok st') -> exists ins,
  instructions fuel (pc st) = Some ins /\ nOpCount st' = nOpCount st + op_count ins /\
  (nOpCount st <= MAX_OPS_PER_SCRIPT -> nOpCount st' <= MAX_OPS_PER_SCRIPT) /\ len (stack st') <= stack_allowed (len (stack st)) ins.
Proof.
  induction fuel as [|fuel IH]; intros st st'; cbn [eval_loop instructions]; destruct (pc st) as [|op rest]; [|done| |].
  1,2: intros [= <-]; exists []; cbn; split_and!; done || lia.
  destruct (step' op rest st) as [s|] eqn:ES; [|done]. intros HL.
  destruct (step_instruction op rest st s ES) as (i & Ei & E1 & E2 & E3). destruct (IH s st' HL) as (ins & Eins & F1 & F2 & F3).
  exists (i :: ins). rewrite Ei. cbn. rewrite Eins. cbn. fold (op_count ins). split_and!; [done|lia|auto|]. etrans; [exact F3|]. by apply stack_allowed_mono.
Qed.

(** C14: script evaluation always returns and keeps to its limits.  On any
    bytes, and any stack whose elements have at most 5300 bytes, [EvalScript]
    returns a verdict (its loop never runs out of the script's length in fuel),
    and so does [VerifyScript].  On success the script has at most the maximal
    size and is a sequence of complete instructions, of which at most 201 are
    opcodes above OP_16, executed or not; every element left has at most 5300
    bytes; and the stack is no higher than what the instructions allow one
    after the other: each adds at most one element, and after an opcode there
    are at most 1000.  So only the data pushes that follow the last opcode can
    take the stack beyond 1000 elements (as they can, see
    [data_pushes_bypass_stack_limit]). *)
Theorem EvalScript_total_bounded (stk : list (list Z)) (script scriptPubKey : list Z)
    (Hs : bytes_ok script)
    (He : Forall (fun e => len e <= MAX_SCRIPT_ELEMENT_SIZE) stk) :
  (exists r, EvalScript SHA3_256 flags stk script = Some r /\
     forall stk', r = Ok stk' ->
       len script <= MAX_SCRIPT_SIZE /\ Forall (fun e => len e <= MAX_SCRIPT_ELEMENT_SIZE) stk' /\
       exists ins, instructions (length script) script = Some ins /\ op_count ins <= MAX_OPS_PER_SCRIPT /\
         len stk' <= stack_allowed (len stk) ins) /\
  is_Some (VerifyScript SHA3_256 flags script scriptPubKey).
Proof.
  assert (forall k s, is_Some (EvalScript SHA3_256 flags k s)) as HT.
  { intros k s. unfold EvalScript. destruct (_ >? _); [eauto|].
    destruct (eval_loop_total (length s) (mkEval k [] 0 s)) as [r Er]; [done|]. rewrite Er.
    destruct r; eauto. }
  split.
  - destruct (HT stk script) as [r Er]. exists r. split; [done|]. intros stk' ->.
    unfold EvalScript in Er. rewrite Z.gtb_ltb in Er.
    destruct (Z.ltb_spec MAX_SCRIPT_SIZE (len script)); [done|].
    destruct (eval_loop' (length script) _) as [[st|]|] eqn:E; try done.
    destruct (bool_decide (vfExec st = [])); [|done]. injection Er as <-.
    destruct (eval_loop_instructions _ _ _ E) as (ins & Eins & E1 & E2 & E3). cbn [nOpCount stack pc] in *.
    eapply (eval_loop_inv (length stk + length script)) in E as [(H1 & _) _]; [|done|].
    2: { unfold eval_inv. simpl. unfold MAX_OPS_PER_SCRIPT. split_and!; [done|lia|lia|lia]. }
    split_and!; [done|done|]. exists ins. split_and!; [done| |done]. unfold MAX_OPS_PER_SCRIPT in *. lia.
  - unfold VerifyScript. destruct (HT [] script) as [[k|] ->]; [|eauto].
    destruct (HT k scriptPubKey) as [[k'|] ->]; eauto.
Qed.
End Facts.

(** A concrete hash with 32-byte results, for witnesses. *)
Definition toy_sha (l : list Z) : uint256 := le_bytes 32 (le_val l).

Lemma toy_sha_len l : length (toy_sha l) = 32%nat.
Proof. apply length_le_bytes. Qed.

Definition toy_checker : SignatureChecker :=
  mkChecker (fun _ _ => true) (fun n => n <=? 100) (fun _ => false).

Lemma EvalScript_total_bounded_witness :
  exists r, @EvalScript toy_sha toy_checker 6 [] [0x51; 0x63; 0x52; 0x68] = Some r /\
    r = Ok [[2]].
Proof.
  destruct (@EvalScript_total_bounded toy_sha toy_checker 6 toy_sha_len [] [0x51; 0x63; 0x52; 0x68]
    [0x51]) as [(r & E & _) _].
  - apply bytes_okb_sound. reflexivity.
  - constructor.
  - exists r. split; [exact E|]. revert E. vm_compute. congruence.
Defined.

(** Data pushes leave the loop body before the stack size check: 1001 two-byte
    pushes succeed with 1001 elements on the stack, one more than
    MAX_STACK_SIZE. *)
Example data_pushes_bypass_stack_limit :
  exists stk, @EvalScript toy_sha toy_checker 0 [] (concat (replicate 1001 [1; 7])) = Some (Ok stk) /\
    len stk = MAX_STACK_SIZE + 1.
Proof. eexists. split; [vm_compute; reflexivity|]. vm_compute. reflexivity. Qed.

(** The final check looks at the top element only: a script pair that leaves a
    false element below a true one verifies. *)
Example verify_accepts_unclean_stack :
  @VerifyScript toy_sha toy_checker 0 [OP_0; OP_1] [OP_NOP] = Some (Ok tt).
Proof. vm_compute. reflexivity. Qed.
