(* ===== verification/Htlc.v ===== *)
(** * Script templates: P2PKH and hash time-locked contracts

    Symbolic execution of the interpreter on the standard templates
    (script/script.h), and the HTLC builder and decoder of script/htlc.cpp.
    Exceptions thrown by the builders are [None]. *)

From S2P Require Import Prelude Uint256 Transaction Script Interpreter.

(** ** HTLC construction *)

Record HTLCParameters := mkHTLC {
  hash_lock : list Z;
  claim_pubkey_hash : list Z;
  refund_pubkey_hash : list Z;
  timeout_height : Z
}.

Definition CreateHTLCScript (params : HTLCParameters) : option (list Z) :=
  if negb (len (hash_lock params) =? 32) then None
  else if negb (len (claim_pubkey_hash params) =? 20) then None
  else if negb (len (refund_pubkey_hash params) =? 20) then None
  else Some (
    push_op OP_IF ++ push_op OP_SHA3_256 ++ push_data (hash_lock params) ++
    push_op OP_EQUALVERIFY ++ push_op OP_DUP ++ push_op OP_HASH160 ++
    push_data (claim_pubkey_hash params) ++ push_op OP_EQUALVERIFY ++ push_op OP_CHECKSIG ++
    push_op OP_ELSE ++ push_data (ScriptNum_serialize (timeout_height params)) ++
    push_op OP_CHECKLOCKTIMEVERIFY ++ push_op OP_DROP ++ push_op OP_DUP ++
    push_op OP_HASH160 ++ push_data (refund_pubkey_hash params) ++
    push_op OP_EQUALVERIFY ++ push_op OP_CHECKSIG ++ push_op OP_ENDIF).

Definition CreateHTLCClaimScript (signature pubkey preimage : list Z) : option (list Z) :=
  if negb (len signature =? DILITHIUM3_SIG_SIZE) then None
  else if negb (len pubkey =? DILITHIUM3_PK_SIZE) then None
  else if negb (len preimage =? 32) then None
  else Some (push_data signature ++ push_data pubkey ++ push_data preimage ++ push_op OP_TRUE).

Definition CreateHTLCRefundScript (signature pubkey : list Z) : option (list Z) :=
  if negb (len signature =? DILITHIUM3_SIG_SIZE) then None
  else if negb (len pubkey =? DILITHIUM3_PK_SIZE) then None
  else Some (push_data signature ++ push_data pubkey ++ push_op OP_FALSE).

(** ** HTLC decoding *)

(** [readOp]: the byte at [pc] and the rest. *)
Definition readOp (pc : list Z) : option (Z * list Z) :=
  match pc with [] => None | op :: pc' => Some (op, pc') end.

(** [if (readOp() != expected) return false;] *)
Definition expectOp (op : Z) (pc : list Z) : option (list Z) :=
  '(b, pc') ← readOp pc; if b =? op then Some pc' else None.

Definition readPush (expectedSize : Z) (pc : list Z) : option (list Z * list Z) :=
  '(op, pc1) ← readOp pc;
  '(nSize, pc2) ←
    (if (op >? 0) && (op <? OP_PUSHDATA1) then Some (op, pc1)
     else if op =? OP_PUSHDATA1 then readOp pc1
     else if op =? OP_PUSHDATA2 then
       match pc1 with
       | a :: b :: pc2 => Some (Z.lor a (Z.shiftl b 8), pc2)
       | _ => None
       end
     else None);
  if (expectedSize >? 0) && negb (nSize =? expectedSize) then None
  else if len pc2 <? nSize then None
  else Some (take (Z.to_nat nSize) pc2, drop (Z.to_nat nSize) pc2).

Definition readNumPush (pc : list Z) : option (Z * list Z) :=
  '(op, pc1) ← readOp pc;
  '(nSize, pc2) ←
    (if (op >? 0) && (op <? OP_PUSHDATA1) then Some (op, pc1)
     else if op =? OP_PUSHDATA1 then readOp pc1
     else None);
  if (nSize >? 5) || (len pc2 <? nSize) then None
  else
    num ← CScriptNum (take (Z.to_nat nSize) pc2) 5;
    Some (num, drop (Z.to_nat nSize) pc2).

Definition DecodeHTLCScript (script : list Z) : option HTLCParameters :=
  if len script <? 80 then None
  else
    pc ← expectOp OP_IF script;
    pc ← expectOp OP_SHA3_256 pc;
    '(lock, pc) ← readPush 32 pc;
    pc ← expectOp OP_EQUALVERIFY pc;
    pc ← expectOp OP_DUP pc;
    pc ← expectOp OP_HASH160 pc;
    '(claim, pc) ← readPush 20 pc;
    pc ← expectOp OP_EQUALVERIFY pc;
    pc ← expectOp OP_CHECKSIG pc;
    pc ← expectOp OP_ELSE pc;
    '(timeout, pc) ← readNumPush pc;
    if timeout <? 0 then None
    else
      pc ← expectOp OP_CHECKLOCKTIMEVERIFY pc;
      pc ← expectOp OP_DROP pc;
      pc ← expectOp OP_DUP pc;
      pc ← expectOp OP_HASH160 pc;
      '(refund, pc) ← readPush 20 pc;
      pc ← expectOp OP_EQUALVERIFY pc;
      pc ← expectOp OP_CHECKSIG pc;
      pc ← expectOp OP_ENDIF pc;
      if bool_decide (pc = []) then Some (mkHTLC lock claim refund (u32 timeout)) else None.

Definition HashPreimage (SHA3_256 : list Z -> uint256) (preimage : list Z) : option (list Z) :=
  if negb (len preimage =? 32) then None else Some (SHA3_256 preimage).

(** ** Symbolic execution *)

Section Exec.
  Variable SHA3_256 : list Z -> uint256.
  Context `{checker : SignatureChecker}.
  Variable flags : Z.

Abbreviation run' := (run SHA3_256 flags).

Lemma EvalScript_run stk script :
  len script <= MAX_SCRIPT_SIZE ->
  EvalScript SHA3_256 flags stk script =
    match run' (mkEval stk [] 0 script) with
    | None => None
    | Some (Err e) => Some (Err e)
    | Some (Ok st) =>
        Some (if bool_decide (vfExec st = []) then Ok (stack st) else Err UnmatchedIf)
    end.
Proof.
  intros H. unfold EvalScript. by rewrite Z.gtb_ltb, (proj2 (Z.ltb_ge _ _)) by lia.
Qed.

Lemma do_push_ok stk vf n d rest :
  len d <= MAX_SCRIPT_ELEMENT_SIZE ->
  do_push (mkEval stk vf n []) (len d) (d ++ rest) =
    Ok (mkEval (if fExec (mkEval stk vf n []) then d :: stk else stk) vf n rest).
Proof.
  intros Hd. unfold do_push. pose proof (len_app_ge d rest).
  rewrite (proj2 (Z.ltb_ge _ _)) by lia. rewrite Z.gtb_ltb, (proj2 (Z.ltb_ge _ _)) by lia.
  unfold len. rewrite Nat2Z.id, take_app_length, drop_app_length.
  by destruct (fExec _).
Qed.

Lemma do_push_pc stk vf n p q m r :
  do_push (mkEval stk vf n p) m r = do_push (mkEval stk vf n q) m r.
Proof. unfold do_push. change (fExec (mkEval stk vf n p)) with (fExec (mkEval stk vf n q)). by destruct (fExec _). Qed.

Lemma run_push stk vf n d rest :
  1 <= len d <= MAX_SCRIPT_ELEMENT_SIZE ->
  run' (mkEval stk vf n (push_data d ++ rest)) =
  run' (mkEval (if fExec (mkEval stk vf n []) then d :: stk else stk) vf n rest).
Proof.
  intros Hd. unfold push_data, MAX_SCRIPT_ELEMENT_SIZE in *. rewrite <- app_assoc.
  destruct (Z.ltb_spec (len d) 0x4c).
  { cbn [app]. erewrite run_step by reflexivity. unfold step.
    rewrite u8_small by lia.
    rewrite Z.gtb_ltb, (proj2 (Z.ltb_lt 0 _)), (proj2 (Z.ltb_lt _ OP_PUSHDATA1))
      by (unfold OP_PUSHDATA1; lia). cbn [andb].
    rewrite (do_push_pc _ _ _ _ []), do_push_ok by (unfold MAX_SCRIPT_ELEMENT_SIZE; lia). done. }
  destruct (Z.leb_spec (len d) 0xff).
  { cbn [app]. erewrite run_step by reflexivity. unfold step.
    change ((OP_PUSHDATA1 >? 0) && (OP_PUSHDATA1 <? OP_PUSHDATA1)) with false.
    change (OP_PUSHDATA1 =? OP_PUSHDATA1) with true. cbn iota. rewrite u8_small by lia.
    rewrite (do_push_pc _ _ _ _ []), do_push_ok by (unfold MAX_SCRIPT_ELEMENT_SIZE; lia). done. }
  rewrite (proj2 (Z.leb_le (len d) 0xffff)) by lia.
  cbn [app]. erewrite run_step by reflexivity. unfold step.
  change ((OP_PUSHDATA2 >? 0) && (OP_PUSHDATA2 <? OP_PUSHDATA1)) with false.
  change (OP_PUSHDATA2 =? OP_PUSHDATA1) with false.
  change (OP_PUSHDATA2 =? OP_PUSHDATA2) with true. cbn iota.
  replace (Z.lor (u8 (Z.land (len d) 255)) (Z.shiftl (u8 (Z.land (Z.shiftr (len d) 8) 255)) 8))
    with (len d).
  - rewrite (do_push_pc _ _ _ _ []), do_push_ok by (unfold MAX_SCRIPT_ELEMENT_SIZE; lia). done.
  - rewrite !land_ff_mod, Z.shiftr_div_pow2 by lia. change (2 ^ 8) with 256.
    pose proof (Z.mod_pos_bound (len d) 256 ltac:(lia)).
    pose proof (Z.mod_pos_bound (len d / 256) 256 ltac:(lia)).
    rewrite !u8_small by lia. rewrite lor_shiftl_disjoint by lia.
    rewrite (Z.mod_small (len d / 256)) by (split; [apply Z.div_pos | apply Z.div_lt_upper_bound]; lia).
    pose proof (Z.div_mod (len d) 256 ltac:(lia)). lia.
Qed.

Lemma run_op stk vf n m op rest :
  (OP_16 <? op) = true -> (n <? MAX_OPS_PER_SCRIPT) = true -> m = n + 1 ->
  run' (mkEval stk vf n (op :: rest)) =
  match exec_op SHA3_256 flags op (mkEval stk vf m rest) with
  | Err e => Some (Err e)
  | Ok st => if len (stack st) >? MAX_STACK_SIZE then Some (Err StackSizeExceeded) else run' st
  end.
Proof.
  intros Hop Hn ->. erewrite run_step by reflexivity. unfold step, OP_16, MAX_OPS_PER_SCRIPT in *.
  zprop. unfold OP_PUSHDATA1, OP_PUSHDATA2, OP_PUSHDATA4.
  rewrite !Z.gtb_ltb, (proj2 (Z.ltb_ge op 0x4c)), andb_false_r by lia.
  rewrite !(proj2 (Z.eqb_neq op _)) by lia. rewrite (proj2 (Z.ltb_lt 0x60 op)) by lia.
  rewrite (proj2 (Z.ltb_ge 201 _)) by (cbn [nOpCount]; lia). cbn [nOpCount stack vfExec].
  destruct (exec_op _ _ _ _) as [st|]; [|done]. by destruct (_ >? MAX_STACK_SIZE).
Qed.

(** OP_0 and OP_1..OP_16 push a number and are not counted. *)
Lemma run_small stk n op rest :
  (op =? OP_0) = true \/ is_small_int op = true -> (len stk <? MAX_STACK_SIZE) = true ->
  0 <= n <= MAX_OPS_PER_SCRIPT ->
  run' (mkEval stk [] n (op :: rest)) =
  run' (mkEval ((if op =? OP_0 then [] else ScriptNum_serialize (op - 0x50)) :: stk) [] n rest).
Proof.
  intros Hop Hs Hn. erewrite run_step by reflexivity.
  unfold step, is_small_int, OP_0, OP_1, OP_16, MAX_OPS_PER_SCRIPT, MAX_STACK_SIZE in *. zprop.
  assert (op = 0 \/ 0x51 <= op <= 0x60) as Hr by (destruct Hop; zprop; lia).
  unfold OP_PUSHDATA1, OP_PUSHDATA2, OP_PUSHDATA4.
  assert ((op >? 0) && (op <? 0x4c) = false) as ->
    by (rewrite Z.gtb_ltb; destruct Hr as [->|]; [done|]; rewrite (proj2 (Z.ltb_ge op 0x4c)) by lia; apply andb_false_r).
  rewrite !(proj2 (Z.eqb_neq op _)) by lia. rewrite !Z.gtb_ltb, (proj2 (Z.ltb_ge 0x60 op)) by lia.
  rewrite (proj2 (Z.ltb_ge 201 _)) by (cbn [nOpCount]; lia). cbn [nOpCount stack vfExec].
  unfold exec_op, exec_crypto, is_small_int, OP_0, OP_1, OP_16, OP_1NEGATE, when_exec. cbn [fExec vfExec].
  destruct (Z.eqb_spec op 0) as [->|].
  - cbn [set_stack stack]. rewrite Z.gtb_ltb, (proj2 (Z.ltb_ge 1000 _)); [done|].
    unfold len in *. cbn [length]. lia.
  - rewrite (proj2 (Z.eqb_neq op 0x4f)) by lia.
    rewrite (proj2 (Z.leb_le 0x51 op)), (proj2 (Z.leb_le op 0x60)) by lia. cbn [andb set_stack stack].
    rewrite Z.gtb_ltb, (proj2 (Z.ltb_ge 1000 _)); [done|]. unfold len in *. cbn [length]. lia.
Qed.

End Exec.

#[global] Arguments run : simpl never.

(** Discharge the stack size checks on stacks of known depth. *)
Ltac settle :=
  cbn [stack];
  repeat match goal with |- context [if len ?l >? MAX_STACK_SIZE then ?a else ?b] =>
    change (if len l >? MAX_STACK_SIZE then a else b) with b end;
  cbn iota.

(** One counted opcode on a concrete control state. *)
Ltac exec1 :=
  match goal with |- context [run ?sha ?fl (mkEval ?stk ?vf ?n (?op :: ?rest))] =>
    let m := eval vm_compute in (n + 1) in
    rewrite (run_op sha fl stk vf n m op rest eq_refl eq_refl eq_refl)
  end;
  match goal with |- context [exec_op ?sha ?fl ?op (mkEval ?stk ?vf ?n ?rest)] =>
    let e := eval cbv [exec_op exec_crypto when_exec fExec vfExec stack set_stack set_vfExec pc nOpCount
      is_small_int orb andb negb
      OP_0 OP_1NEGATE OP_1 OP_16 OP_NOP OP_IF OP_NOTIF OP_ELSE OP_ENDIF OP_VERIFY OP_RETURN
      OP_DUP OP_DROP OP_SWAP OP_SIZE OP_EQUAL OP_EQUALVERIFY OP_SHA3_256 OP_HASH160 OP_CHECKSIG
      OP_CHECKLOCKTIMEVERIFY OP_CHECKSEQUENCEVERIFY OP_NOP1 OP_NOP4 OP_NOP10 OP_CHECKMULTISIG
      Z.eqb Z.leb Z.compare Pos.eqb Pos.compare Pos.compare_cont]
      in (exec_op sha fl op (mkEval stk vf n rest)) in
    change (exec_op sha fl op (mkEval stk vf n rest)) with e
  end; settle.

Section Templates.
  Variable SHA3_256 : list Z -> uint256.
  Context `{checker : SignatureChecker}.
  Variable flags : Z.

Abbreviation VerifyScript' := (VerifyScript SHA3_256 flags).
Abbreviation EvalScript' := (EvalScript SHA3_256 flags).

Lemma cast_bool_elem b : CastToBool (bool_elem b) = b.
Proof. by destruct b. Qed.

Lemma len_push_data d : len (push_data d) <= len d + 5.
Proof.
  unfold push_data. rewrite len_app. repeat case_match; unfold len; simpl; lia.
Qed.

Lemma p2pkh_shape s : IsPayToPublicKeyHash s = true ->
  exists h, len h = 20 /\ h = slice s 3 20 /\
    s = OP_DUP :: OP_HASH160 :: push_data h ++ [OP_EQUALVERIFY; OP_CHECKSIG].
Proof.
  unfold IsPayToPublicKeyHash. intros H. zprop. exists (slice s 3 20).
  unfold len in *. assert (length (slice s 3 20) = 20%nat) as L.
  { unfold slice. rewrite length_take, length_drop. lia. }
  split_and!; [by rewrite L|done|].
  unfold push_data, len. rewrite L. change (Z.of_nat 20) with 20.
  change (20 <? 76) with true. cbn iota. change (u8 20) with 20. cbn [app].
  do 25 (destruct s as [|? s]; [simpl in *; lia|]). destruct s; [|simpl in *; lia].
  cbn in *. by simplify_eq.
Qed.

Lemma EvalScript_two_pushes a b :
  1 <= len a <= MAX_SCRIPT_ELEMENT_SIZE -> 1 <= len b <= MAX_SCRIPT_ELEMENT_SIZE ->
  EvalScript' [] (push_data a ++ push_data b) = Some (Ok [b; a]).
Proof.
  intros Ha Hb. rewrite EvalScript_run.
  2: { rewrite len_app. pose proof (len_push_data a). pose proof (len_push_data b).
       unfold MAX_SCRIPT_SIZE, MAX_SCRIPT_ELEMENT_SIZE in *. lia. }
  rewrite run_push by done. rewrite <- (app_nil_r (push_data b)), run_push by done.
  by rewrite run_nil.
Qed.

(** The scriptSig of a P2PKH spend: the signature and the key. *)
Definition p2pkh_scriptSig (sig pubkey : list Z) : list Z := push_data sig ++ push_data pubkey.

Lemma p2pkh_verify s sig pubkey : IsPayToPublicKeyHash s = true ->
  1 <= len sig <= MAX_SCRIPT_ELEMENT_SIZE -> 1 <= len pubkey <= MAX_SCRIPT_ELEMENT_SIZE ->
  VerifyScript' (p2pkh_scriptSig sig pubkey) s = Some (Ok tt) <->
  HASH160 SHA3_256 pubkey = slice s 3 20 /\ CheckSig sig pubkey = true.
Proof.
  intros Hp Hs Hk. unfold p2pkh_scriptSig.
  destruct (p2pkh_shape s Hp) as (h & Lh & Eh & Es). rewrite <- Eh.
  unfold VerifyScript. rewrite EvalScript_two_pushes by done.
  rewrite EvalScript_run.
  2: { unfold IsPayToPublicKeyHash in Hp. zprop. unfold MAX_SCRIPT_SIZE. lia. }
  rewrite Es. exec1. exec1.
  rewrite run_push by (unfold MAX_SCRIPT_ELEMENT_SIZE; lia). cbn [fExec vfExec].
  exec1. case_bool_decide as E.
  - settle. exec1.
    rewrite run_nil by done. cbn [vfExec stack].
    rewrite bool_decide_eq_true_2, cast_bool_elem by done. destruct (CheckSig sig pubkey); split; try done.
    intros [_ ?]. done.
  - split; [done|]. intros [E' _]. congruence.
Qed.

(** Pay-to-public-key-hash: any script of the P2PKH shape is unlocked by a
    scriptSig that pushes a signature and a key exactly when the double SHA3
    hash of the key is the embedded 20-byte hash and the checker accepts the
    signature under that key. *)
Theorem p2pkh_spend_iff (s sig pubkey : list Z)
    (Hp : IsPayToPublicKeyHash s = true)
    (Hs : 1 <= len sig <= MAX_SCRIPT_ELEMENT_SIZE)
    (Hk : 1 <= len pubkey <= MAX_SCRIPT_ELEMENT_SIZE) :
  VerifyScript SHA3_256 flags (p2pkh_scriptSig sig pubkey) s = Some (Ok tt) <->
  HASH160 SHA3_256 pubkey = slice s 3 20 /\ CheckSig sig pubkey = true.
Proof. by apply p2pkh_verify. Qed.

(** *** Hash time-locked contracts *)

Definition htlc_wf (p : HTLCParameters) : Prop :=
  len (hash_lock p) = 32 /\ len (claim_pubkey_hash p) = 20 /\ len (refund_pubkey_hash p) = 20 /\
  1 <= timeout_height p < 2 ^ 32.

Definition htlc_script (lock claim refund : list Z) (t : Z) : list Z :=
  OP_IF :: OP_SHA3_256 :: push_data lock ++
  OP_EQUALVERIFY :: OP_DUP :: OP_HASH160 :: push_data claim ++
  OP_EQUALVERIFY :: OP_CHECKSIG :: OP_ELSE :: push_data (ScriptNum_serialize t) ++
  OP_CHECKLOCKTIMEVERIFY :: OP_DROP :: OP_DUP :: OP_HASH160 :: push_data refund ++
  [OP_EQUALVERIFY; OP_CHECKSIG; OP_ENDIF].

Lemma CreateHTLCScript_eq p : htlc_wf p ->
  CreateHTLCScript p = Some (htlc_script (hash_lock p) (claim_pubkey_hash p)
                               (refund_pubkey_hash p) (timeout_height p)).
Proof.
  intros (-> & -> & H3 & _) || intros (H1 & H2 & H3 & _). unfold CreateHTLCScript.
  rewrite ?H1, ?H2, ?H3. reflexivity.
Qed.

Lemma timeout_len t : 1 <= t < 2 ^ 32 -> 1 <= len (ScriptNum_serialize t) <= 5.
Proof.
  intros Ht. split; [|apply ScriptNum_length; lia].
  pose proof (ScriptNum_roundtrip_lemma t ltac:(lia)) as R.
  destruct (ScriptNum_serialize t); [simpl in R; lia|unfold len; cbn [length]; lia].
Qed.

Lemma len_cons {A} (x : A) l : len (x :: l) = 1 + len l.
Proof. unfold len. cbn [length]. lia. Qed.

Lemma htlc_script_len lock claim refund t :
  len lock = 32 -> len claim = 20 -> len refund = 20 -> 1 <= t < 2 ^ 32 ->
  len (htlc_script lock claim refund t) <= MAX_SCRIPT_SIZE.
Proof.
  intros H1 H2 H3 Ht. unfold htlc_script, MAX_SCRIPT_SIZE.
  pose proof (len_push_data lock). pose proof (len_push_data claim). pose proof (len_push_data refund).
  pose proof (len_push_data (ScriptNum_serialize t)). pose proof (timeout_len t Ht).
  repeat (rewrite ?len_cons, ?len_app). change (len (@nil Z)) with 0. lia.
Qed.

Ltac push1 := rewrite run_push by (unfold MAX_SCRIPT_ELEMENT_SIZE in *; lia); cbn [fExec vfExec].

Lemma htlc_claim_run p sig pk pre :
  htlc_wf p -> has_flag flags SCRIPT_VERIFY_CHECKLOCKTIMEVERIFY = true ->
  EvalScript' [[1]; pre; pk; sig]
    (htlc_script (hash_lock p) (claim_pubkey_hash p) (refund_pubkey_hash p) (timeout_height p)) =
  Some (if bool_decide (hash_lock p = SHA3_256 pre) then
          if bool_decide (claim_pubkey_hash p = HASH160 SHA3_256 pk)
          then Ok [bool_elem (CheckSig sig pk)] else Err EqualVerifyFailed
        else Err EqualVerifyFailed).
Proof.
  intros (H1 & H2 & H3 & Ht) Hf. pose proof (timeout_len _ Ht).
  rewrite EvalScript_run by (by apply htlc_script_len). unfold htlc_script.
  exec1. change (CastToBool [1]) with true.
  exec1. push1. exec1. case_bool_decide; [|done]. settle.
  exec1. exec1. push1. exec1. case_bool_decide; [|done]. settle.
  exec1. exec1. push1. exec1. rewrite Hf. settle.
  exec1. exec1. exec1. push1. exec1. exec1. exec1.
  rewrite run_nil by done. done.
Qed.

Lemma htlc_refund_run p sig pk :
  htlc_wf p -> has_flag flags SCRIPT_VERIFY_CHECKLOCKTIMEVERIFY = true ->
  EvalScript' [[]; pk; sig]
    (htlc_script (hash_lock p) (claim_pubkey_hash p) (refund_pubkey_hash p) (timeout_height p)) =
  Some (if CheckLockTime (timeout_height p) then
          if bool_decide (refund_pubkey_hash p = HASH160 SHA3_256 pk)
          then Ok [bool_elem (CheckSig sig pk)] else Err EqualVerifyFailed
        else Err LockTimeNotSatisfied).
Proof.
  intros (H1 & H2 & H3 & Ht) Hf. pose proof (timeout_len _ Ht).
  rewrite EvalScript_run by (by apply htlc_script_len). unfold htlc_script.
  exec1. change (CastToBool []) with false.
  exec1. push1. exec1. exec1. exec1. push1. exec1. exec1. exec1. push1.
  exec1. rewrite Hf. unfold CScriptNum.
  rewrite Z.gtb_ltb, (proj2 (Z.ltb_ge 5 _)) by lia. rewrite ScriptNum_roundtrip_lemma by lia.
  rewrite (proj2 (Z.ltb_ge (timeout_height p) 0)) by lia.
  destruct (CheckLockTime (timeout_height p)); [|done]. settle.
  exec1. exec1. exec1. push1. exec1. case_bool_decide; [|done]. settle.
  exec1. exec1. rewrite run_nil by done. done.
Qed.

Lemma claim_script_eval sig pk pre :
  len sig = DILITHIUM3_SIG_SIZE -> len pk = DILITHIUM3_PK_SIZE -> len pre = 32 ->
  EvalScript' [] (push_data sig ++ push_data pk ++ push_data pre ++ push_op OP_TRUE) =
    Some (Ok [[1]; pre; pk; sig]).
Proof.
  unfold DILITHIUM3_SIG_SIZE, DILITHIUM3_PK_SIZE. intros H1 H2 H3.
  rewrite EvalScript_run.
  2: { pose proof (len_push_data sig). pose proof (len_push_data pk). pose proof (len_push_data pre).
       rewrite !len_app. change (len (push_op OP_TRUE)) with 1. unfold MAX_SCRIPT_SIZE. lia. }
  push1. push1. push1. change (push_op OP_TRUE) with [OP_TRUE].
  rewrite run_small by (auto || (unfold MAX_OPS_PER_SCRIPT; lia)).
  rewrite run_nil by done. done.
Qed.

Lemma refund_script_eval sig pk :
  len sig = DILITHIUM3_SIG_SIZE -> len pk = DILITHIUM3_PK_SIZE ->
  EvalScript' [] (push_data sig ++ push_data pk ++ push_op OP_FALSE) = Some (Ok [[]; pk; sig]).
Proof.
  unfold DILITHIUM3_SIG_SIZE, DILITHIUM3_PK_SIZE. intros H1 H2.
  rewrite EvalScript_run.
  2: { pose proof (len_push_data sig). pose proof (len_push_data pk).
       rewrite !len_app. change (len (push_op OP_FALSE)) with 1. unfold MAX_SCRIPT_SIZE. lia. }
  push1. push1. change (push_op OP_FALSE) with [OP_FALSE].
  rewrite run_small by (auto || (unfold MAX_OPS_PER_SCRIPT; lia)).
  rewrite run_nil by done. done.
Qed.

(** C15: an HTLC output can be spent in exactly two ways by the scripts the code
    builds: the claim script unlocks it iff the preimage hashes to the lock,
    the key hashes to the claimer's hash and the signature checks; the refund
    script iff the transaction's locktime satisfies the timeout, the key hashes
    to the refund hash and the signature checks. *)
Theorem htlc_spend_iff (p : HTLCParameters) (sig pk pre htlc claimSig refundSig : list Z)
    (Hp : htlc_wf p) (Hf : has_flag flags SCRIPT_VERIFY_CHECKLOCKTIMEVERIFY = true)
    (Hh : CreateHTLCScript p = Some htlc)
    (Hc : CreateHTLCClaimScript sig pk pre = Some claimSig)
    (Hr : CreateHTLCRefundScript sig pk = Some refundSig) :
  (VerifyScript' claimSig htlc = Some (Ok tt) <->
   HashPreimage SHA3_256 pre = Some (hash_lock p) /\
   HASH160 SHA3_256 pk = claim_pubkey_hash p /\ CheckSig sig pk = true) /\
  (VerifyScript' refundSig htlc = Some (Ok tt) <->
   CheckLockTime (timeout_height p) = true /\
   HASH160 SHA3_256 pk = refund_pubkey_hash p /\ CheckSig sig pk = true).
Proof.
  rewrite CreateHTLCScript_eq in Hh by done. injection Hh as <-.
  unfold CreateHTLCClaimScript in Hc. unfold CreateHTLCRefundScript in Hr.
  destruct (Z.eqb_spec (len sig) DILITHIUM3_SIG_SIZE); [|done].
  destruct (Z.eqb_spec (len pk) DILITHIUM3_PK_SIZE); [|done]. cbn [negb] in *.
  destruct (Z.eqb_spec (len pre) 32) as [Lp|]; [|done]. cbn [negb] in *.
  injection Hc as <-. injection Hr as <-. unfold VerifyScript, HashPreimage. rewrite Lp. split.
  - rewrite claim_script_eval, htlc_claim_run by done. change (negb (32 =? 32)) with false. cbn iota.
    case_bool_decide as E1; [case_bool_decide as E2|].
    + rewrite cast_bool_elem. destruct (CheckSig sig pk).
        { split; [intros _; split_and!; congruence|done]. }
        split; [done|intros (_ & _ & ?); congruence].
    + split; [done|]. intros (_ & ? & _). congruence.
    + split; [done|]. intros (? & _ & _). congruence.
  - rewrite refund_script_eval, htlc_refund_run by done.
    destruct (CheckLockTime (timeout_height p)).
    + case_bool_decide as E2.
      * rewrite cast_bool_elem. destruct (CheckSig sig pk).
        { split; [intros _; split_and!; congruence|done]. }
        split; [done|intros (_ & _ & ?); congruence].
      * split; [done|]. intros (_ & ? & _). congruence.
    + split; [done|]. intros (? & _ & _). done.
Qed.
End Templates.

(** ** The decoder inverts the builder *)

Lemma push_small d : len d < 0x4c -> push_data d = len d :: d.
Proof.
  intros H. pose proof (len_nonneg d). unfold push_data.
  rewrite (proj2 (Z.ltb_lt (len d) 0x4c)) by done. cbn [app]. by rewrite u8_small by lia.
Qed.

Lemma expectOp_ok op rest : expectOp op (op :: rest) = Some rest.
Proof. unfold expectOp. simpl. by rewrite Z.eqb_refl. Qed.

Lemma readPush_ok d rest n : 1 <= len d < 0x4c -> n = len d ->
  readPush n (push_data d ++ rest) = Some (d, rest).
Proof.
  intros H ->. rewrite push_small by lia. unfold readPush. cbn [app readOp mbind option_bind].
  rewrite Z.gtb_ltb, (proj2 (Z.ltb_lt 0 _)), (proj2 (Z.ltb_lt _ OP_PUSHDATA1))
    by (unfold OP_PUSHDATA1; lia). cbn [andb mbind option_bind].
  rewrite Z.eqb_refl. cbn [negb].
  replace ((len d >? 0) && false) with false by (by rewrite andb_false_r). cbn iota.
  pose proof (len_app_ge d rest).
  rewrite (proj2 (Z.ltb_ge _ _)) by lia. unfold len.
  by rewrite Nat2Z.id, take_app_length, drop_app_length.
Qed.

Lemma readNumPush_ok t rest : 1 <= t < 2 ^ 32 ->
  readNumPush (push_data (ScriptNum_serialize t) ++ rest) = Some (t, rest).
Proof.
  intros Ht. pose proof (timeout_len t Ht) as HL. set (d := ScriptNum_serialize t) in *.
  rewrite push_small by lia. unfold readNumPush. cbn [app readOp mbind option_bind].
  rewrite Z.gtb_ltb, (proj2 (Z.ltb_lt 0 _)), (proj2 (Z.ltb_lt _ OP_PUSHDATA1))
    by (unfold OP_PUSHDATA1; lia). cbn [andb mbind option_bind].
  pose proof (len_app_ge d rest).
  rewrite Z.gtb_ltb, (proj2 (Z.ltb_ge 5 _)), (proj2 (Z.ltb_ge _ (len d))) by lia. cbn [orb].
  unfold len at 1 2. rewrite Nat2Z.id, take_app_length, drop_app_length.
  unfold CScriptNum. rewrite Z.gtb_ltb, (proj2 (Z.ltb_ge 5 _)) by lia.
  unfold d. by rewrite ScriptNum_roundtrip_lemma by lia.
Qed.

(** decoding the script built for an HTLC with a non-zero 32-bit timeout
    recovers exactly its parameters. *)
Theorem htlc_decode_roundtrip (p : HTLCParameters) (Hp : htlc_wf p) :
  exists s, CreateHTLCScript p = Some s /\ DecodeHTLCScript s = Some p.
Proof.
  exists (htlc_script (hash_lock p) (claim_pubkey_hash p) (refund_pubkey_hash p) (timeout_height p)).
  split; [by apply CreateHTLCScript_eq|]. destruct Hp as (H1 & H2 & H3 & Ht).
  unfold DecodeHTLCScript.
  assert (80 <= len (htlc_script (hash_lock p) (claim_pubkey_hash p) (refund_pubkey_hash p)
                       (timeout_height p))) as HL.
  { unfold htlc_script. rewrite (push_small (hash_lock p)),
      (push_small (claim_pubkey_hash p)), (push_small (refund_pubkey_hash p)) by lia.
    repeat (rewrite ?len_cons, ?len_app). rewrite H1, H2, H3. change (len (@nil Z)) with 0.
    pose proof (len_nonneg (push_data (ScriptNum_serialize (timeout_height p)))). lia. }
  rewrite (proj2 (Z.ltb_ge _ 80)) by done. unfold htlc_script.
  repeat (rewrite ?expectOp_ok; cbn [mbind option_bind];
    try (rewrite readPush_ok by (rewrite ?H1, ?H2, ?H3; lia); cbn [mbind option_bind])).
  rewrite readNumPush_ok by done. cbn [mbind option_bind].
  rewrite (proj2 (Z.ltb_ge (timeout_height p) 0)) by lia.
  repeat (rewrite ?expectOp_ok; cbn [mbind option_bind];
    try (rewrite readPush_ok by (rewrite ?H1, ?H2, ?H3; lia); cbn [mbind option_bind])).
  rewrite bool_decide_eq_true_2, u32_small by (done || lia). by destruct p.
Qed.

(** A zero timeout encodes as the empty number, which the decoder's number
    reader does not accept. *)
Example htlc_zero_timeout_not_decoded :
  let p := mkHTLC (replicate 32 1) (replicate 20 2) (replicate 20 3) 0 in
  exists s, CreateHTLCScript p = Some s /\ DecodeHTLCScript s = None.
Proof. eexists. split; [reflexivity|]. vm_compute. reflexivity. Qed.

(** ** Witnesses *)

Definition sample_htlc : HTLCParameters :=
  mkHTLC (toy_sha (replicate 32 9)) (HASH160 toy_sha (replicate (Z.to_nat 1952) 5))
    (HASH160 toy_sha (replicate (Z.to_nat 1952) 6)) 90.

Lemma sample_htlc_wf : htlc_wf sample_htlc.
Proof. vm_compute. intuition congruence. Qed.

Lemma p2pkh_spend_iff_witness :
  let h := HASH160 toy_sha [4; 4] in
  @VerifyScript toy_sha toy_checker 0 (push_data [3; 3] ++ push_data [4; 4])
    (OP_DUP :: OP_HASH160 :: 0x14 :: h ++ [OP_EQUALVERIFY; OP_CHECKSIG]) = Some (Ok tt).
Proof.
  intros h. apply (@p2pkh_spend_iff toy_sha toy_checker 0
    (OP_DUP :: OP_HASH160 :: 0x14 :: h ++ [OP_EQUALVERIFY; OP_CHECKSIG]) [3; 3] [4; 4]).
  - vm_compute. reflexivity.
  - vm_compute. intuition congruence.
  - vm_compute. intuition congruence.
  - split; [vm_compute|]; reflexivity.
Defined.

Lemma htlc_decode_roundtrip_witness :
  exists s, CreateHTLCScript sample_htlc = Some s /\ DecodeHTLCScript s = Some sample_htlc.
Proof. apply (htlc_decode_roundtrip sample_htlc sample_htlc_wf). Defined.

Lemma sample_spend_scripts : exists s1 s2,
  CreateHTLCClaimScript (replicate (Z.to_nat 3309) 8) (replicate (Z.to_nat 1952) 5)
    (replicate 32 9) = Some s1 /\
  CreateHTLCRefundScript (replicate (Z.to_nat 3309) 8) (replicate (Z.to_nat 1952) 5) = Some s2.
Proof.
  unfold CreateHTLCClaimScript, CreateHTLCRefundScript, len. rewrite !length_replicate.
  rewrite !Z2Nat.id by lia. unfold DILITHIUM3_SIG_SIZE, DILITHIUM3_PK_SIZE.
  change (Z.of_nat 32) with 32. rewrite !Z.eqb_refl. cbn [negb]. eauto.
Qed.

Lemma htlc_spend_iff_witness :
  exists htlc s1 s2,
    CreateHTLCScript sample_htlc = Some htlc /\
    CreateHTLCClaimScript (replicate (Z.to_nat 3309) 8) (replicate (Z.to_nat 1952) 5)
      (replicate 32 9) = Some s1 /\
    CreateHTLCRefundScript (replicate (Z.to_nat 3309) 8) (replicate (Z.to_nat 1952) 5) = Some s2 /\
    @VerifyScript toy_sha toy_checker 2 s1 htlc = Some (Ok tt).
Proof.
  set (sig := replicate (Z.to_nat 3309) 8). set (pk := replicate (Z.to_nat 1952) 5).
  set (pre := replicate 32 9).
  pose proof (CreateHTLCScript_eq sample_htlc sample_htlc_wf) as Eh.
  destruct sample_spend_scripts as (s1 & s2 & E1 & E2).
  exists (htlc_script (hash_lock sample_htlc) (claim_pubkey_hash sample_htlc)
    (refund_pubkey_hash sample_htlc) (timeout_height sample_htlc)), s1, s2.
  split; [exact Eh|]. split; [exact E1|]. split; [exact E2|].
  apply (@htlc_spend_iff toy_sha toy_checker 2 sample_htlc sig pk pre _ s1 s2
    sample_htlc_wf eq_refl Eh E1 E2).
  split; [vm_compute; reflexivity|]. split; [vm_compute; reflexivity|reflexivity].
Defined.
