(* ===== verification/BlockTxs.v ===== *)
(** * Block contents: subsidy, merkle root and transaction decoding
    (consensus/validation.cpp)

    The parts of [CBlockValidator] the chain state also calls.  SHA3-256 is a
    section variable. *)

From S2P Require Import Prelude Uint256 ChainParams Transaction.

Definition COIN : Z := 100000000.

(** ** Subsidy *)

Definition CalculateBlockSubsidy (g_chainParams : option ChainParams) (nHeight : Z) : Z :=
  let nSubsidy := match g_chainParams with Some p => initialReward p | None => 50 * COIN end in
  let nHalvingInterval := match g_chainParams with Some p => halvingInterval p | None => 210000 end in
  let nHalvings := u32 (nHeight / nHalvingInterval) in
  if nHalvings >=? 64 then 0 else Z.shiftr nSubsidy nHalvings.

(** ** Transaction list *)

Inductive BlockTxError : Set :=
| NoTxData | IncompleteCount253 | IncompleteCount254 | UnsupportedCount255 | ZeroTxs | TooManyTxs
| IncompleteTx | BadTx (e : DeserError) | ExtraBlockData.

(** The count prefix: the 255 form is refused. *)
Definition read_tx_count (data : list Z) : result BlockTxError (Z * list Z) :=
  match data with
  | [] => Err NoTxData
  | firstByte :: rest =>
      if firstByte <? 253 then Ok (firstByte, rest)
      else if firstByte =? 253 then
        match rest with
        | a :: b :: rest' => Ok (Z.lor a (Z.shiftl b 8), rest')
        | _ => Err IncompleteCount253
        end
      else if firstByte =? 254 then
        match rest with
        | a :: b :: c :: d :: rest' =>
            Ok (Z.lor (Z.lor (Z.lor a (Z.shiftl b 8)) (Z.shiftl c 16)) (Z.shiftl d 24), rest')
        | _ => Err IncompleteCount254
        end
      else Err UnsupportedCount255
  end.

(** [for (uint64_t i = 0; i < txCount; i++)]: each transaction is read from
    [data + offset] with its consumed length added to the offset. *)
Fixpoint read_txs (n : nat) (data : list Z) : result BlockTxError (list CTransaction * list Z) :=
  match n with
  | O => Ok ([], data)
  | S n' =>
      match data with
      | [] => Err IncompleteTx
      | _ =>
          match Deserialize data true with
          | Err e => Err (BadTx e)
          | Ok (tx, bytesConsumed) =>
              match read_txs n' (drop (Z.to_nat bytesConsumed) data) with
              | Err e => Err e
              | Ok (txs, rest) => Ok (tx :: txs, rest)
              end
          end
      end
  end.

Definition DeserializeBlockTransactions (vtx : list Z) : result BlockTxError (list CTransaction) :=
  match read_tx_count vtx with
  | Err e => Err e
  | Ok (txCount, data) =>
      if txCount =? 0 then Err ZeroTxs
      else if txCount >? 100000 then Err TooManyTxs
      else
        match read_txs (Z.to_nat txCount) data with
        | Err e => Err e
        | Ok (txs, rest) => if bool_decide (rest = []) then Ok txs else Err ExtraBlockData
        end
  end.

(** The block body a miner assembles: the count and the encoded transactions. *)
Definition SerializeBlockTransactions (txs : list CTransaction) : list Z :=
  SerializeCompactSize (len txs) ++ concat (Serialize <$> txs).

(** ** Merkle root *)

Section Merkle.
  Variable SHA3_256 : list Z -> uint256.

(** One level: [for (i = 0; i < levelSize; i += 2)] with
    [i2 = min(i + 1, levelSize - 1)]. *)
Fixpoint merkle_level (level : list uint256) : list uint256 :=
  match level with
  | [] => []
  | [a] => [SHA3_256 (a ++ a)]
  | a :: b :: level' => SHA3_256 (a ++ b) :: merkle_level level'
  end.

(** [for (levelSize = n; levelSize > 1; levelSize = (levelSize + 1) / 2)]; the
    vector's levels are the successive lists and its back the last of them. *)
Fixpoint merkle_levels (fuel : nat) (level : list uint256) : uint256 :=
  match fuel with
  | O => default zero256 (head level)
  | S fuel' =>
      match level with
      | _ :: _ :: _ => merkle_levels fuel' (merkle_level level)
      | _ => default zero256 (head level)
      end
  end.

Definition merkle_root (hashes : list uint256) : uint256 :=
  merkle_levels (length hashes) hashes.

Definition BuildMerkleRoot (transactions : list CTransaction) : uint256 :=
  match transactions with
  | [] => zero256
  | _ => merkle_root (Tx_GetHash SHA3_256 <$> transactions)
  end.

(** *** The root binds the leaves *)

Definition collision : Prop := exists x y, x <> y /\ SHA3_256 x = SHA3_256 y.

Variable SHA3_len : forall l, length (SHA3_256 l) = 32%nat.

Lemma pair_ind (P : list uint256 -> Prop) :
  P [] -> (forall a, P [a]) -> (forall a b l, P l -> P (a :: b :: l)) -> forall l, P l.
Proof.
  intros H0 H1 H2 l. enough (P l /\ forall a, P (a :: l)) by tauto.
  induction l as [|b l [IH1 IH2]]; [auto|]. split; [apply IH2|]. intros a. by apply H2.
Qed.

Lemma length_merkle_level l : length (merkle_level l) = Nat.div2 (S (length l)).
Proof. induction l as [| |a b l IH] using pair_ind; simpl in *; [done..|]. by rewrite IH. Qed.

Lemma merkle_level_wf l : Forall (fun h => length h = 32%nat) (merkle_level l).
Proof. induction l as [| |a b l IH] using pair_ind; simpl; repeat constructor; auto. Qed.

Lemma merkle_level_inj l : forall k,
  length l = length k -> Forall (fun h => length h = 32%nat) l -> Forall (fun h => length h = 32%nat) k ->
  merkle_level l = merkle_level k -> l = k \/ collision.
Proof.
  induction l as [|a|a b l IH] using pair_ind; intros k HL Hl Hk E.
  - destruct k; [by left|done].
  - destruct k as [|a' [|]]; try done. simpl in E. injection E as E.
    apply Forall_cons in Hl as [La _]. apply Forall_cons in Hk as [La' _].
    destruct (decide (a ++ a = a' ++ a')) as [Ea|Ne]; [|right; by exists (a ++ a), (a' ++ a')].
    apply app_inj_1 in Ea as [-> _]; [by left|lia].
  - destruct k as [|a' [|b' k]]; try done. simpl in E. injection E as E1 E2.
    rewrite !Forall_cons in Hl, Hk. destruct Hl as (La & Lb & Hl), Hk as (La' & Lb' & Hk).
    destruct (decide (a ++ b = a' ++ b')) as [Ea|Ne]; [|right; by exists (a ++ b), (a' ++ b')].
    apply app_inj_1 in Ea as [-> ->]; [|lia].
    destruct (IH k) as [->|C]; [simpl in HL; lia|done..|by left|by right].
Qed.

Lemma merkle_levels_inj fuel : forall l k,
  (length l <= S fuel)%nat -> length l = length k ->
  Forall (fun h => length h = 32%nat) l -> Forall (fun h => length h = 32%nat) k ->
  merkle_levels fuel l = merkle_levels fuel k -> l = k \/ collision.
Proof.
  induction fuel as [|fuel IH]; intros l k Hf HL Hl Hk; cbn [merkle_levels].
  { destruct l as [|a [|]], k as [|a' [|]]; simpl in *; try lia; intros; subst; by left. }
  destruct l as [|a [|b l]], k as [|a' [|b' k]]; try done; try (by left).
  { simpl. intros ->. by left. }
  intros E. apply IH in E as [E|C]; [|right; done| | | |].
  - destruct (merkle_level_inj _ _ HL Hl Hk E); auto.
  - rewrite length_merkle_level. cbn [length] in *.
    pose proof (Nat.div2_decr (S (S (length l))) (S (length l)) ltac:(lia)). 
    change (Nat.div2 (S (S (S (length l))))) with (S (Nat.div2 (S (length l)))).
    assert (Nat.div2 (S (length l)) <= length l)%nat by (apply Nat.div2_decr; lia). lia.
  - rewrite !length_merkle_level. by rewrite HL.
  - apply merkle_level_wf.
  - apply merkle_level_wf.
Qed.
End Merkle.

(** C16: the merkle root commits to the transactions: two non-empty lists of
    well-formed transactions of the same length with the same root are equal,
    unless SHA3-256 has a collision. *)
Theorem merkle_root_binding (SHA3_256 : list Z -> uint256) (a b : list CTransaction)
    (SHA3_len : forall l, length (SHA3_256 l) = 32%nat)
    (Hlen : length a = length b) (Ha : Forall tx_wf a) (Hb : Forall tx_wf b)
    (Hroot : BuildMerkleRoot SHA3_256 a = BuildMerkleRoot SHA3_256 b) :
  a = b \/ collision SHA3_256.
Proof.
  assert (forall txs, Forall (fun h => length h = 32%nat) (Tx_GetHash SHA3_256 <$> txs)) as HW.
  { intros txs. apply Forall_fmap, Forall_true. intros tx. apply SHA3_len. }
  assert (merkle_root SHA3_256 (Tx_GetHash SHA3_256 <$> a) =
          merkle_root SHA3_256 (Tx_GetHash SHA3_256 <$> b)) as HR.
  { destruct a, b; try done. }
  unfold merkle_root in HR. rewrite !length_fmap, Hlen in HR.
  apply merkle_levels_inj in HR as [HR|]; auto; [|rewrite length_fmap; lia|by rewrite !length_fmap].
  clear Hroot. revert b Hlen Hb HR. induction Ha as [|x a Hx _ IH]; intros b Hlen Hb HR.
  { destruct b; [by left|done]. }
  destruct b as [|y b]; [done|]. apply Forall_cons in Hb as [Hy Hb].
  rewrite !fmap_cons in HR. injection HR as E1 E2.
  destruct (decide (Serialize x = Serialize y)) as [Es|Ne].
  - apply Serialize_inj in Es as ->; [|done..].
    destruct (IH b) as [->|]; auto.
  - right. by exists (Serialize x), (Serialize y).
Qed.

Lemma merkle_root_binding_witness :
  let sha := fun l : list Z => le_bytes 32 (le_val l) in
  [sample_tx] = [sample_tx] \/ collision sha.
Proof.
  intros sha. apply (merkle_root_binding sha [sample_tx] [sample_tx]).
  - intros l. apply length_le_bytes.
  - reflexivity.
  - apply Forall_singleton, sample_tx_wf.
  - apply Forall_singleton, sample_tx_wf.
  - reflexivity.
Defined.

(** Lists of different lengths can share a root: repeating the last of an odd
    number of leaves does not change it, so the block validator has to reject
    repeated transactions itself. *)
Example merkle_root_duplicate_tail (SHA3_256 : list Z -> uint256) (a b c : uint256) :
  merkle_root SHA3_256 [a; b; c] = merkle_root SHA3_256 [a; b; c; c].
Proof. reflexivity. Qed.

(** ** Block bodies round-trip *)

Lemma Deserialize_prefix tx rest : tx_wf tx ->
  Deserialize (Serialize tx ++ rest) true = Ok (tx, len (Serialize tx)).
Proof.
  intros H. unfold Deserialize. rewrite (reads_Tx tx H rest). cbn [negb andb].
  rewrite len_app. f_equal. f_equal. lia.
Qed.

Lemma Serialize_nonempty tx rest : exists b l, Serialize tx ++ rest = b :: l.
Proof. unfold Serialize, SerializeUint32. cbn [app]. eauto. Qed.

Lemma read_txs_ok txs : forall rest, Forall tx_wf txs ->
  read_txs (length txs) (concat (Serialize <$> txs) ++ rest) = Ok (txs, rest).
Proof.
  induction txs as [|tx txs IH]; intros rest HF; [done|].
  apply Forall_cons in HF as [Hx HF]. rewrite fmap_cons. cbn [concat length read_txs].
  rewrite <- app_assoc.
  destruct (Serialize_nonempty tx (concat (Serialize <$> txs) ++ rest)) as (b & l & E).
  rewrite E, <- E, Deserialize_prefix by done. unfold len.
  by rewrite Nat2Z.id, drop_app_length, IH.
Qed.

Lemma read_tx_count_ok n rest : 0 <= n <= 0xFFFFFFFF ->
  read_tx_count (SerializeCompactSize n ++ rest) = Ok (n, rest).
Proof.
  intros Hn. unfold SerializeCompactSize. destruct (Z.ltb_spec n 253).
  { cbn [app read_tx_count]. rewrite u8_small by lia. by rewrite (proj2 (Z.ltb_lt n 253)). }
  destruct (Z.leb_spec n 0xFFFF).
  { cbn [app read_tx_count]. change (253 <? 253) with false. change (253 =? 253) with true. cbn iota.
    pose proof (or2_le_val [u8 n; u8 (Z.shiftr n 8)]) as HV. cbn [byte_at nth] in HV.
    rewrite HV; [|repeat constructor; apply u8_range|done]. do 2 f_equal.
    unfold u8. rewrite Z.shiftr_div_pow2 by lia. cbn [le_val].
    rewrite (Z.mod_small (n / 2 ^ 8)) by (split; [apply Z.div_pos | apply Z.div_lt_upper_bound]; lia).
    pose proof (Z.div_mod n (2 ^ 8) ltac:(lia)). lia. }
  rewrite (proj2 (Z.leb_le n 0xFFFFFFFF)) by lia. rewrite u32_small, SerializeUint32_le by lia.
  cbn [app read_tx_count le_bytes]. change (254 <? 253) with false.
  change (254 =? 253) with false. change (254 =? 254) with true. cbn iota.
  pose proof (or4_le_val (le_bytes 4 n) (le_bytes_ok 4 n) (length_le_bytes 4 n)) as HV.
  cbn [byte_at nth le_bytes] in HV. rewrite HV. do 2 f_equal.
  change (le_val _) with (le_val (le_bytes 4 n)). rewrite le_val_le_bytes. apply Z.mod_small. lia.
Qed.

Lemma read_txs_sound n : forall data txs rest, bytes_ok data ->
  read_txs n data = Ok (txs, rest) -> Forall tx_wf txs /\ length txs = n.
Proof.
  induction n as [|n IH]; intros data txs rest Hd; cbn [read_txs].
  { intros [= <- <-]. done. }
  destruct data as [|x data]; [done|]. set (d := x :: data) in *.
  destruct (Deserialize d true) as [[tx k]|] eqn:E; [|done].
  destruct (read_txs n _) as [[txs' r]|] eqn:E2; [|done]. intros [= <- <-].
  apply IH in E2 as [F L]; [|by apply Forall_drop].
  unfold Deserialize in E. destruct (DeserializePrefix d) as [[t r']|] eqn:E3; [|done].
  cbn [negb andb] in E. injection E as <- _.
  destruct (sound_Tx _ _ _ Hd E3) as (_ & _ & _ & Hwf & _).
  split; [by constructor|simpl; lia].
Qed.

(** An accepted body. *)
Lemma DeserializeBlockTransactions_wf vtx txs : bytes_ok vtx -> DeserializeBlockTransactions vtx = Ok txs ->
  Forall tx_wf txs /\ 1 <= len txs <= 100000.
Proof.
  intros Hb Hd.
  unfold DeserializeBlockTransactions in Hd.
  destruct (read_tx_count vtx) as [[n data]|] eqn:E; [|done].
  assert (bytes_ok data) as Hdata.
  { unfold read_tx_count in E. destruct vtx as [|x vtx]; [done|].
    repeat (case_match; try done); simplify_eq; rewrite ?Forall_cons in Hb; tauto. }
  destruct (Z.eqb_spec n 0); [done|]. rewrite Z.gtb_ltb in Hd.
  destruct (Z.ltb_spec 100000 n); [done|].
  destruct (read_txs (Z.to_nat n) data) as [[t r]|] eqn:E2; [|done].
  destruct (bool_decide (r = [])); [|done]. injection Hd as <-.
  apply read_txs_sound in E2 as [F L]; [|done]. split; [done|].
  unfold len. rewrite L.
  assert (0 <= n).
  { unfold read_tx_count in E. destruct vtx as [|x vtx]; [done|].
    repeat (case_match; try done); simplify_eq; rewrite ?Forall_cons in Hb; unfold byte_ok in Hb;
      rewrite ?Z.lor_nonneg, ?Z.shiftl_nonneg; lia. }
  lia.
Qed.

(** Block bodies round-trip: decoding the body assembled from between 1
    and 100,000 well-formed transactions returns those transactions, and every
    body the decoder accepts yields between 1 and 100,000 well-formed
    transactions. *)
Theorem block_body_roundtrip (txs txs' : list CTransaction) (vtx : list Z)
    (Hn : 1 <= len txs <= 100000) (Hw : Forall tx_wf txs)
    (Hb : bytes_ok vtx) (Hd : DeserializeBlockTransactions vtx = Ok txs') :
  DeserializeBlockTransactions (SerializeBlockTransactions txs) = Ok txs /\
  Forall tx_wf txs' /\ 1 <= len txs' <= 100000.
Proof.
  split.
  - unfold DeserializeBlockTransactions, SerializeBlockTransactions.
    rewrite read_tx_count_ok by lia. rewrite (proj2 (Z.eqb_neq (len txs) 0)) by lia.
    rewrite Z.gtb_ltb, (proj2 (Z.ltb_ge 100000 _)) by lia.
    unfold len at 1. rewrite Nat2Z.id, <- (app_nil_r (concat _)), read_txs_ok by done. done.
  - by apply (DeserializeBlockTransactions_wf vtx).
Qed.

Lemma block_body_roundtrip_witness :
  DeserializeBlockTransactions (SerializeBlockTransactions [sample_tx; sample_tx]) =
    Ok [sample_tx; sample_tx].
Proof.
  apply (block_body_roundtrip [sample_tx; sample_tx] [sample_tx]
    (SerializeBlockTransactions [sample_tx])).
  - vm_compute. intuition congruence.
  - repeat constructor; apply sample_tx_wf.
  - apply bytes_okb_sound. vm_compute. reflexivity.
  - vm_compute. reflexivity.
Defined.

(** ** Total supply *)

(** Coins created by the coinbases of heights 0 .. n-1. *)
Fixpoint total_subsidy (p : ChainParams) (n : nat) : Z :=
  match n with
  | O => 0
  | S m => total_subsidy p m + CalculateBlockSubsidy (Some p) (Z.of_nat m)
  end.

Lemma subsidy_le p h : 0 < halvingInterval p -> 0 <= initialReward p -> 0 <= h < 2 ^ 32 ->
  0 <= CalculateBlockSubsidy (Some p) h <= initialReward p / 2 ^ (h / halvingInterval p).
Proof.
  intros HH HR Hh. unfold CalculateBlockSubsidy.
  assert (0 <= h / halvingInterval p <= h) as Hq.
  { split; [apply Z.div_pos; lia|apply Z.div_le_upper_bound; nia]. }
  rewrite u32_small by lia. rewrite Z.geb_leb. set (q := h / halvingInterval p) in *.
  assert (0 < 2 ^ q) by (apply Z.pow_pos_nonneg; lia).
  destruct (Z.leb_spec 64 q).
  - split; [lia|]. apply Z.div_pos; lia.
  - rewrite Z.shiftr_div_pow2 by lia. split; [apply Z.div_pos; lia|lia].
Qed.

(** The potential: what has been paid, the rest of the epoch, and one more
    epoch at the current rate. *)
Lemma supply_potential p n : 0 < halvingInterval p -> 0 <= initialReward p -> Z.of_nat n <= 2 ^ 32 ->
  let H := halvingInterval p in
  let g := initialReward p / 2 ^ (Z.of_nat n / H) in
  total_subsidy p n + (H - Z.of_nat n mod H) * g + H * g <= 2 * H * initialReward p.
Proof.
  intros HH HR. cbn zeta. set (H := halvingInterval p) in *. set (R := initialReward p) in *.
  induction n as [|n IH]; intros Hn.
  { cbn [total_subsidy Z.of_nat]. rewrite Z.div_0_l, Z.mod_0_l, Z.pow_0_r, Z.div_1_r by lia. lia. }
  specialize (IH ltac:(lia)). cbn [total_subsidy]. rewrite Nat2Z.inj_succ. unfold Z.succ.
  set (m := Z.of_nat n) in *.
  pose proof (subsidy_le p m HH HR ltac:(lia)) as Hs. fold H R in Hs.
  set (s := CalculateBlockSubsidy (Some p) m) in *. set (g := R / 2 ^ (m / H)) in *.
  pose proof (Z.div_mod m H ltac:(lia)) as Hdm. pose proof (Z.mod_pos_bound m H HH) as Hmb.
  assert (0 <= m / H) as Hq by (apply Z.div_pos; lia).
  destruct (Z.eq_dec (m mod H) (H - 1)) as [Ee|Ne].
  - assert (m + 1 = (m / H + 1) * H) as En by lia.
    rewrite En, Z.mod_mul, Z.div_mul by lia.
    assert (2 * (R / 2 ^ (m / H + 1)) <= g) as Hg.
    { unfold g. rewrite Z.pow_add_r by lia. change (2 ^ 1) with 2.
      rewrite <- Z.div_div by (lia || apply Z.pow_nonzero; lia). apply Z.mul_div_le. lia. }
    nia.
  - assert ((m + 1) / H = m / H) as Ed.
    { symmetry. apply (Z.div_unique (m + 1) H (m / H) (m mod H + 1)); lia. }
    assert ((m + 1) mod H = m mod H + 1) as Em.
    { symmetry. apply (Z.mod_unique (m + 1) H (m / H) (m mod H + 1)); lia. }
    rewrite Ed, Em. fold g. nia.
Qed.

(** The money supply is bounded: however many blocks are mined, the
    subsidies paid never exceed twice the reward times the halving interval:
    21 million coins on mainnet and 210 million on DilV. *)
Theorem total_supply_bounded (p : ChainParams) (n : nat)
    (HH : 0 < halvingInterval p) (HR : 0 <= initialReward p) (Hn : Z.of_nat n <= 2 ^ 32) :
  total_subsidy p n <= 2 * halvingInterval p * initialReward p /\
  total_subsidy Mainnet n <= 21000000 * COIN /\
  total_subsidy DilV n <= 210000000 * COIN.
Proof.
  assert (forall q, 0 < halvingInterval q -> 0 <= initialReward q ->
    total_subsidy q n <= 2 * halvingInterval q * initialReward q) as HB.
  { intros q Hq Rq. pose proof (supply_potential q n Hq Rq Hn) as HP. cbn zeta in HP.
    pose proof (Z.mod_pos_bound (Z.of_nat n) _ Hq).
    assert (0 <= initialReward q / 2 ^ (Z.of_nat n / halvingInterval q)).
    { apply Z.div_pos; [lia|]. apply Z.pow_pos_nonneg; [lia|]. apply Z.div_pos; lia. }
    nia. }
  split_and!; [by apply HB| |].
  - etrans; [apply HB; simpl; lia|]. vm_compute. congruence.
  - etrans; [apply HB; simpl; lia|]. vm_compute. congruence.
Qed.

Lemma total_supply_bounded_witness :
  total_subsidy Testnet 5 = 5 * 50 * COIN /\
  total_subsidy Testnet 5 <= 2 * halvingInterval Testnet * initialReward Testnet.
Proof.
  split; [vm_compute; reflexivity|]. apply (total_supply_bounded Testnet 5); simpl; lia.
Defined.
