(* ===== verification/SigBatch.v ===== *)
(** * The parallel signature verifier (consensus/signature_batch_verifier.h,
    consensus/signature_batch_verifier.cpp)

    [CSignatureBatchVerifier] as a transition system: one client thread that
    calls [BeginBatch], [Add] and [Wait], and the worker threads, interleaved at
    their accesses to the shared state.  The verifier is running throughout:
    [Start] and [Stop] are not part of the system. *)

From S2P Require Import Prelude Uint256 Transaction Script.

Record CSignatureTask := mkTask {
  task_signature : list Z;
  task_message : list Z;
  task_pubkey : list Z;
  task_input_index : Z
}.

(** The atomics, the queue and the error string. *)
Record BatchState := mkBatch {
  m_queue : list CSignatureTask;
  m_pending_count : Z;
  m_batch_failed : bool;
  m_first_error : option Z
}.

(** Where a worker is in its loop: waiting for a task; holding one; having
    won the [compare_exchange] for a failed one; about to [fetch_sub]; about to
    notify. *)
Inductive WorkerPc : Type :=
| WIdle
| WHolding (t : CSignatureTask)
| WFailing (t : CSignatureTask)
| WFinished
| WNotify.

Inductive ClientOp : Type := CBegin | CAdd (t : CSignatureTask) | CWait.

(** The client between calls, inside [BeginBatch] (count reset), inside [Add]
    (count incremented), inside [Wait] having found the count non-zero, and
    blocked on the completion variable.  The workers do not take
    [m_complete_mutex], so they run between the last two. *)
Inductive ClientPc : Type :=
| CReady (ops : list ClientOp)
| CBeginning (ops : list ClientOp)
| CPushing (t : CSignatureTask) (ops : list ClientOp)
| CChecked (ops : list ClientOp)
| CBlocked (ops : list ClientOp).

Record System := mkSystem {
  batch : BatchState;
  workers : list WorkerPc;
  client : ClientPc;
  results : list bool
}.

Section Verifier.
  Variable dilithium_verify : list Z -> list Z -> list Z -> Z.

Definition VerifySingle (task : CSignatureTask) : bool :=
  if negb (len (task_signature task) =? DILITHIUM3_SIG_SIZE) then false
  else if negb (len (task_pubkey task) =? DILITHIUM3_PK_SIZE) then false
  else if negb (len (task_message task) =? 32) then false
  else dilithium_verify (task_signature task) (task_message task) (task_pubkey task) =? 0.

(** One shared access of [WorkerThread]; [None] when it waits for a task. *)
Definition worker_step (b : BatchState) (w : WorkerPc) : option (BatchState * WorkerPc) :=
  match w with
  | WIdle =>
      match m_queue b with
      | [] => None
      | t :: q => Some (mkBatch q (m_pending_count b) (m_batch_failed b) (m_first_error b), WHolding t)
      end
  | WHolding t =>
      if VerifySingle t then Some (b, WFinished)
      else if m_batch_failed b then Some (b, WFinished)
      else Some (mkBatch (m_queue b) (m_pending_count b) true (m_first_error b), WFailing t)
  | WFailing t =>
      Some (mkBatch (m_queue b) (m_pending_count b) (m_batch_failed b) (Some (task_input_index t)),
            WFinished)
  | WFinished =>
      let remaining := u64 (m_pending_count b - 1) in
      Some (mkBatch (m_queue b) remaining (m_batch_failed b) (m_first_error b),
            if remaining =? 0 then WNotify else WIdle)
  | WNotify => Some (b, WIdle)
  end.

(** One shared access of the client; [Wait] returns [!m_batch_failed] when the
    count is 0 and goes on to block otherwise. *)
Definition client_step (b : BatchState) (c : ClientPc) : option (BatchState * ClientPc * option bool) :=
  match c with
  | CReady [] => None
  | CReady (CBegin :: ops) =>
      Some (mkBatch (m_queue b) 0 (m_batch_failed b) (m_first_error b), CBeginning ops, None)
  | CBeginning ops =>
      Some (mkBatch (m_queue b) (m_pending_count b) false None, CReady ops, None)
  | CReady (CAdd t :: ops) =>
      Some (mkBatch (m_queue b) (u64 (m_pending_count b + 1)) (m_batch_failed b) (m_first_error b),
            CPushing t ops, None)
  | CPushing t ops =>
      Some (mkBatch (m_queue b ++ [t]) (m_pending_count b) (m_batch_failed b) (m_first_error b),
            CReady ops, None)
  | CReady (CWait :: ops) =>
      if m_pending_count b =? 0 then Some (b, CReady ops, Some (negb (m_batch_failed b)))
      else Some (b, CChecked ops, None)
  | CChecked ops => Some (b, CBlocked ops, None)
  | CBlocked _ => None
  end.

(** [notify_all] on the completion variable. *)
Definition notify (c : ClientPc) : ClientPc :=
  match c with CBlocked ops => CReady (CWait :: ops) | _ => c end.

Inductive sys_step : System -> System -> Prop :=
| step_client b ws c rs b' c' r :
    client_step b c = Some (b', c', r) ->
    sys_step (mkSystem b ws c rs)
      (mkSystem b' ws c' (match r with Some x => rs ++ [x] | None => rs end))
| step_worker b l1 w l2 c rs b' w' :
    worker_step b w = Some (b', w') ->
    sys_step (mkSystem b (l1 ++ w :: l2) c rs)
      (mkSystem b' (l1 ++ w' :: l2) (match w with WNotify => notify c | _ => c end) rs)
| step_spurious b ws ops rs :
    sys_step (mkSystem b ws (CBlocked ops) rs) (mkSystem b ws (CReady (CWait :: ops)) rs).

Inductive reachable (s0 : System) : System -> Prop :=
| reach_refl : reachable s0 s0
| reach_step s s' : reachable s0 s -> sys_step s s' -> reachable s0 s'.

(** The calls that verify a list of batches, one after the other. *)
Fixpoint batch_prog (batches : list (list CSignatureTask)) : list ClientOp :=
  match batches with
  | [] => []
  | ts :: rest => CBegin :: (CAdd <$> ts) ++ CWait :: batch_prog rest
  end.

(** No work in progress. *)
Definition quiet (w : WorkerPc) : bool := match w with WIdle | WNotify => true | _ => false end.

Definition start (ws : list WorkerPc) (b : BatchState) (batches : list (list CSignatureTask)) : System :=
  mkSystem b ws (CReady (batch_prog batches)) [].

(** ** Invariant *)

Definition invalid (t : CSignatureTask) : bool := negb (VerifySingle t).

Definition held1 (w : WorkerPc) : list CSignatureTask :=
  match w with WHolding t => [t] | _ => [] end.
Definition busy1 (w : WorkerPc) : Z := if quiet w then 0 else 1.
Definition held (ws : list WorkerPc) : list CSignatureTask := concat (held1 <$> ws).
Definition busy (ws : list WorkerPc) : Z := sum_list (busy1 <$> ws).

(** During a batch: what was added is queued, held or processed; the flag says
    whether a processed task is invalid; the count is the work in flight. *)
Definition batch_inv (b : BatchState) (ws : list WorkerPc) (added : list CSignatureTask) (extra : Z) : Prop :=
  exists processed, added ≡ₚ m_queue b ++ held ws ++ processed /\
    m_batch_failed b = existsb invalid processed /\
    m_pending_count b = len (m_queue b) + busy ws + extra.

(** The results so far are those of the finished batches, and the client is
    between two batches or inside the current one. *)
Inductive sys_inv (batches : list (list CSignatureTask)) : System -> Prop :=
| inv_between b ws done rest rs :
    batches = done ++ rest -> rs = forallb VerifySingle <$> done ->
    m_queue b = [] -> forallb quiet ws = true ->
    sys_inv batches (mkSystem b ws (CReady (batch_prog rest)) rs)
| inv_beginning b ws done ts rest rs :
    batches = done ++ ts :: rest -> rs = forallb VerifySingle <$> done ->
    m_queue b = [] -> forallb quiet ws = true -> m_pending_count b = 0 ->
    sys_inv batches (mkSystem b ws (CBeginning ((CAdd <$> ts) ++ CWait :: batch_prog rest)) rs)
| inv_adding b ws done added todo rest rs :
    batches = done ++ (added ++ todo) :: rest -> rs = forallb VerifySingle <$> done ->
    batch_inv b ws added 0 ->
    sys_inv batches (mkSystem b ws (CReady ((CAdd <$> todo) ++ CWait :: batch_prog rest)) rs)
| inv_pushing b ws done added t todo rest rs :
    batches = done ++ (added ++ t :: todo) :: rest -> rs = forallb VerifySingle <$> done ->
    batch_inv b ws added 1 ->
    sys_inv batches (mkSystem b ws (CPushing t ((CAdd <$> todo) ++ CWait :: batch_prog rest)) rs)
| inv_checked b ws done added rest rs :
    batches = done ++ added :: rest -> rs = forallb VerifySingle <$> done ->
    batch_inv b ws added 0 ->
    sys_inv batches (mkSystem b ws (CChecked (batch_prog rest)) rs)
| inv_blocked b ws done added rest rs :
    batches = done ++ added :: rest -> rs = forallb VerifySingle <$> done ->
    batch_inv b ws added 0 ->
    sys_inv batches (mkSystem b ws (CBlocked (batch_prog rest)) rs).

Lemma busy1_range w : 0 <= busy1 w <= 1.
Proof. unfold busy1. destruct (quiet w); lia. Qed.

Lemma busy_range ws : 0 <= busy ws <= len ws.
Proof.
  induction ws as [|w ws IH]; [done|]. pose proof (busy1_range w).
  change (busy (w :: ws)) with (busy1 w + busy ws). unfold len in *. cbn [length]. lia.
Qed.

Lemma busy_app l1 w l2 : busy (l1 ++ w :: l2) = busy1 w + busy (l1 ++ l2).
Proof.
  induction l1 as [|x l1 IH]; [done|]. cbn [app].
  change (busy (x :: ?l)) with (busy1 x + busy l). lia.
Qed.

Lemma held_app l1 w l2 : held (l1 ++ w :: l2) ≡ₚ held1 w ++ held (l1 ++ l2).
Proof.
  unfold held. rewrite !fmap_app, !concat_app. cbn [fmap list_fmap concat].
  rewrite !(app_assoc _ _ (concat (held1 <$> l2))). f_equiv. apply Permutation_app_comm.
Qed.

Lemma quiet_nothing ws : forallb quiet ws = true <-> busy ws = 0.
Proof.
  induction ws as [|w ws IH]; [done|]. change (busy (w :: ws)) with (busy1 w + busy ws).
  pose proof (busy_range ws). simpl. rewrite andb_true_iff, IH. unfold busy1. destruct (quiet w); lia.
Qed.

Lemma quiet_held ws : forallb quiet ws = true -> held ws = [].
Proof.
  induction ws as [|w ws IH]; [done|]. change (held (w :: ws)) with (held1 w ++ held ws).
  cbn [forallb]. rewrite andb_true_iff. intros [H1 H2]. rewrite IH by done. by destruct w.
Qed.

(** A worker's step keeps the batch invariant. *)
Lemma worker_step_inv b l1 w l2 b' w' added extra :
  batch_inv b (l1 ++ w :: l2) added extra -> worker_step b w = Some (b', w') ->
  0 <= extra <= 1 -> len added + len (l1 ++ w :: l2) + 1 < 2 ^ 64 ->
  batch_inv b' (l1 ++ w' :: l2) added extra.
Proof.
  intros (pr & HP & HF & HC) Hw He Hb. unfold batch_inv. rewrite held_app in HP. rewrite busy_app in HC.
  pose proof (busy_range (l1 ++ l2)) as Hbr.
  assert (len (m_queue b) <= len added) as Hq.
  { unfold len. apply Permutation_length in HP. rewrite HP, length_app. lia. }
  assert (len (l1 ++ w :: l2) = len (l1 ++ l2) + 1) as HL.
  { unfold len. rewrite !length_app. cbn [length]. lia. }
  destruct w as [|t|t| |]; cbn [worker_step] in Hw.
  - destruct (m_queue b) as [|t q] eqn:Eq; [done|]. injection Hw as <- <-. exists pr. rewrite held_app, busy_app.
    cbn [m_queue m_batch_failed m_pending_count held1 busy1 quiet app] in *.
    unfold len in *. cbn [length] in *. split_and!; [|done|lia].
    rewrite HP. cbn [app]. apply Permutation_middle.
  - destruct (VerifySingle t) eqn:Ev; [|destruct (m_batch_failed b) eqn:Ef]; injection Hw as <- <-;
      exists (t :: pr); rewrite held_app, busy_app; cbn [m_queue m_batch_failed m_pending_count held1 busy1 quiet app existsb] in *;
      (split_and!; [rewrite HP; f_equiv; apply Permutation_middle| |lia]);
      unfold invalid at 1; rewrite Ev; cbn [negb orb]; congruence.
  - injection Hw as <- <-. exists pr. rewrite held_app, busy_app. done.
  - injection Hw as <- <-. exists pr. rewrite held_app, busy_app.
    cbn [m_queue m_batch_failed m_pending_count held1 busy1 quiet] in *.
    pose proof (len_nonneg (m_queue b)). rewrite u64_small by lia.
    assert (held1 (if m_pending_count b - 1 =? 0 then WNotify else WIdle) = [] /\
            busy1 (if m_pending_count b - 1 =? 0 then WNotify else WIdle) = 0) as [-> ->].
    { by destruct (_ =? 0). }
    split_and!; [done|done|lia].
  - injection Hw as <- <-. exists pr. rewrite held_app, busy_app. done.
Qed.

Lemma forallb_perm (l k : list CSignatureTask) : l ≡ₚ k -> forallb VerifySingle l = forallb VerifySingle k.
Proof.
  intros HP. apply eq_iff_eq_true. rewrite !forallb_forall.
  setoid_rewrite <- list_elem_of_In. by setoid_rewrite HP.
Qed.

Lemma existsb_invalid l : negb (existsb invalid l) = forallb VerifySingle l.
Proof.
  induction l as [|t l IH]; [done|]. simpl. rewrite negb_orb, IH. unfold invalid. by rewrite negb_involutive.
Qed.

(** When the count is 0 the batch is over and the flag is its verdict. *)
Lemma batch_inv_over b ws added : batch_inv b ws added 0 -> m_pending_count b = 0 ->
  m_queue b = [] /\ forallb quiet ws = true /\ negb (m_batch_failed b) = forallb VerifySingle added.
Proof.
  intros (pr & HP & HF & HC) H0. pose proof (busy_range ws). pose proof (len_nonneg (m_queue b)).
  assert (m_queue b = []) as Eq. { destruct (m_queue b); [done|]. unfold len in *. cbn [length] in *. lia. }
  assert (forallb quiet ws = true) as Ew by (apply quiet_nothing; lia).
  split_and!; [done..|]. rewrite HF, existsb_invalid. symmetry. apply forallb_perm.
  by rewrite HP, Eq, (quiet_held ws Ew).
Qed.

(** Every batch and the workers fit the counter. *)
Definition fits (n : nat) (batches : list (list CSignatureTask)) : Prop :=
  Forall (fun ts => len ts + Z.of_nat n + 1 < 2 ^ 64) batches.

Lemma fits_current n done ts rest : fits n (done ++ ts :: rest) -> len ts + Z.of_nat n + 1 < 2 ^ 64.
Proof. unfold fits. rewrite Forall_app, Forall_cons. tauto. Qed.

Lemma client_step_inv batches b ws c rs b' c' r :
  fits (length ws) batches -> sys_inv batches (mkSystem b ws c rs) ->
  client_step b c = Some (b', c', r) ->
  sys_inv batches (mkSystem b' ws c' (match r with Some x => rs ++ [x] | None => rs end)).
Proof.
  intros Hf HI Hc. inversion HI as [b0 ws0 done rest rs0 EB ER EQ EW|b0 ws0 done ts rest rs0 EB ER EQ EW EP
    |b0 ws0 done added todo rest rs0 EB ER HB|b0 ws0 done added t todo rest rs0 EB ER HB
    |b0 ws0 done added rest rs0 EB ER HB|b0 ws0 done added rest rs0 EB ER HB]; subst b0 ws0 rs0 c.
  - destruct rest as [|ts rest]; [done|]. injection Hc as <- <- <-. by eapply inv_beginning.
  - injection Hc as <- <- <-. apply (inv_adding _ _ _ done [] ts rest); [done..|].
    exists []. rewrite EQ, (quiet_held ws EW). split_and!; [done..|]. cbn. rewrite EP.
    rewrite (proj1 (quiet_nothing ws) EW). done.
  - destruct todo as [|t todo]; cbn [fmap list_fmap app client_step] in Hc.
    + rewrite app_nil_r in EB. destruct (Z.eqb_spec (m_pending_count b) 0) as [E0|]; injection Hc as <- <- <-.
      * destruct (batch_inv_over b ws added HB E0) as (Eq & Ew & Ev).
        apply (inv_between _ _ _ (done ++ [added]) rest); [by rewrite <- app_assoc| |done..].
        by rewrite fmap_app, ER, Ev.
      * by apply (inv_checked _ _ _ done added rest).
    + injection Hc as <- <- <-. apply (inv_pushing _ _ _ done added t todo rest); [done..|].
      destruct HB as (pr & HP & HF & HC). exists pr. cbn. split_and!; [done..|].
      pose proof (len_nonneg (m_queue b)). pose proof (busy_range ws).
      rewrite EB in Hf. apply fits_current in Hf.
      assert (len (m_queue b) <= len added).
      { unfold len. apply Permutation_length in HP. rewrite HP, length_app. lia. }
      rewrite len_app in Hf. pose proof (len_nonneg (t :: todo)).
      unfold len in *. rewrite u64_small; lia.
  - injection Hc as <- <- <-. apply (inv_adding _ _ _ done (added ++ [t]) todo rest); [|done|].
    { by rewrite <- app_assoc. }
    destruct HB as (pr & HP & HF & HC). exists pr. cbn. split_and!; [|done|].
    + rewrite HP, <- !app_assoc. apply Permutation_app_head. rewrite (app_assoc _ _ [t]).
      by rewrite Permutation_app_comm.
    + rewrite len_app. unfold len at 2. cbn. lia.
  - injection Hc as <- <- <-. by apply (inv_blocked _ _ _ done added rest).
  - done.
Qed.

Lemma worker_sys_inv batches b l1 w l2 c rs b' w' :
  fits (length (l1 ++ w :: l2)) batches -> sys_inv batches (mkSystem b (l1 ++ w :: l2) c rs) ->
  worker_step b w = Some (b', w') ->
  sys_inv batches (mkSystem b' (l1 ++ w' :: l2) (match w with WNotify => notify c | _ => c end) rs).
Proof.
  intros Hf HI Hw.
  assert (m_queue b = [] -> forallb quiet (l1 ++ w :: l2) = true ->
    w = WNotify /\ b' = b /\ forallb quiet (l1 ++ w' :: l2) = true) as HQ.
  { intros EQ EW. rewrite forallb_app in *. cbn [forallb] in *.
    destruct w; cbn in EW, Hw; rewrite ?EQ, ?andb_false_r in *; try done. by injection Hw as <- <-. }
  assert (forall added extra, batch_inv b (l1 ++ w :: l2) added extra -> 0 <= extra <= 1 ->
    len added + len (l1 ++ w :: l2) + 1 < 2 ^ 64 -> batch_inv b' (l1 ++ w' :: l2) added extra) as HW.
  { intros added extra HB He Hb. by eapply worker_step_inv. }
  inversion HI as [b0 ws0 done rest rs0 EB ER EQ EW|b0 ws0 done ts rest rs0 EB ER EQ EW EP
    |b0 ws0 done added todo rest rs0 EB ER HB|b0 ws0 done added t todo rest rs0 EB ER HB
    |b0 ws0 done added rest rs0 EB ER HB|b0 ws0 done added rest rs0 EB ER HB]; subst b0 ws0 rs0 c.
  - destruct (HQ EQ EW) as (-> & -> & ?). by eapply inv_between.
  - destruct (HQ EQ EW) as (-> & -> & ?). by eapply inv_beginning.
  - assert (notify (CReady ((CAdd <$> todo) ++ CWait :: batch_prog rest)) =
      CReady ((CAdd <$> todo) ++ CWait :: batch_prog rest)) as EN by done.
    destruct w; rewrite ?EN; eapply inv_adding; try done; apply HW; try done;
      rewrite EB in Hf; apply fits_current in Hf; rewrite len_app in Hf; pose proof (len_nonneg todo);
      unfold len in *; lia.
  - assert (notify (CPushing t ((CAdd <$> todo) ++ CWait :: batch_prog rest)) =
      CPushing t ((CAdd <$> todo) ++ CWait :: batch_prog rest)) as EN by done.
    destruct w; rewrite ?EN; eapply inv_pushing; try done; apply HW; try done;
      rewrite EB in Hf; apply fits_current in Hf; rewrite len_app in Hf;
      pose proof (len_nonneg (t :: todo)); unfold len in *; lia.
  - assert (batch_inv b' (l1 ++ w' :: l2) added 0) as HB'.
    { apply HW; try done. rewrite EB in Hf. by apply fits_current in Hf. }
    destruct w; by eapply inv_checked.
  - assert (batch_inv b' (l1 ++ w' :: l2) added 0) as HB'.
    { apply HW; try done. rewrite EB in Hf. by apply fits_current in Hf. }
    destruct w; [by eapply inv_blocked..|]. cbn [notify].
    apply (inv_adding _ _ _ done added [] rest); [by rewrite app_nil_r|done..].
Qed.

Lemma reachable_inv batches s0 s : sys_inv batches s0 -> fits (length (workers s0)) batches ->
  reachable s0 s -> sys_inv batches s /\ length (workers s) = length (workers s0).
Proof.
  intros H0 Hf HR. induction HR as [|s s' _ [IH IL] Hs]; [done|].
  destruct Hs as [b ws c rs b' c' r Hc|b l1 w l2 c rs b' w' Hw|b ws ops rs]; cbn [workers] in *.
  - split; [|done]. eapply client_step_inv; [|done..]. by rewrite IL.
  - split; [eapply worker_sys_inv; [|done..]; by rewrite IL|]. rewrite <- IL, !length_app. done.
  - split; [|done]. inversion IH as [| | | | |b0 ws0 done added rest rs0 EB ER HB]; subst.
    apply (inv_adding _ _ _ done added [] rest); [by rewrite app_nil_r|done..].
Qed.
End Verifier.

(** From an idle verifier: the answers given are those of the finished batches, and when the client is done so is the verifier. *)
Lemma batches_finish (dilithium_verify : list Z -> list Z -> list Z -> Z) (ws : list WorkerPc) (b : BatchState)
    (batches : list (list CSignatureTask)) (s : System) :
  forallb quiet ws = true -> m_queue b = [] -> fits (length ws) batches -> reachable dilithium_verify (start ws b batches) s ->
  exists finished rest, batches = finished ++ rest /\
    results s = forallb (VerifySingle dilithium_verify) <$> finished /\
    (client s = CReady [] -> rest = [] /\ m_queue (batch s) = [] /\ forallb quiet (workers s) = true).
Proof.
  intros Hw Hq Hf Hr. destruct (reachable_inv dilithium_verify batches (start ws b batches) s) as [HI _]; [|done..|].
  { by apply (inv_between _ _ _ _ [] batches). }
  inversion HI as [b0 ws0 done rest rs0 EB ER EQ EW|b0 ws0 done ts rest rs0 EB ER EQ EW EP
    |b0 ws0 done added todo rest rs0 EB ER HB|b0 ws0 done added t todo rest rs0 EB ER HB
    |b0 ws0 done added rest rs0 EB ER HB|b0 ws0 done added rest rs0 EB ER HB]; subst s; cbn [results client batch workers].
  - exists done, rest. split_and!; [done..|]. intros [= E]. by destruct rest.
  - by exists done, (ts :: rest).
  - exists done, ((added ++ todo) :: rest). split_and!; [done..|]. by destruct todo.
  - by exists done, ((added ++ t :: todo) :: rest).
  - by exists done, (added :: rest).
  - by exists done, (added :: rest).
Qed.

(** C10: the parallel verifier gives right verdicts to a client that finishes
    its batches.  Started with an empty queue and workers that hold no task, for
    one client that calls [BeginBatch], [Add] and [Wait] for one batch after
    the other and abandons none, each batch and the workers together fewer than
    2^64 - 1: whatever the schedule of the workers and the spurious wake-ups, the
    answers of [Wait] so far are, in order, those of the first batches, true
    exactly when every signature added to the batch verifies; and when the
    client has made all its calls, all batches were answered and the verifier
    is idle again. *)
Theorem batch_verdicts_correct (dilithium_verify : list Z -> list Z -> list Z -> Z)
    (ws : list WorkerPc) (b : BatchState) (batches : list (list CSignatureTask)) (s : System)
    (Hw : forallb quiet ws = true) (Hq : m_queue b = [])
    (Hf : fits (length ws) batches)
    (Hr : reachable dilithium_verify (start ws b batches) s) :
  exists finished rest, batches = finished ++ rest /\
    results s = forallb (VerifySingle dilithium_verify) <$> finished /\
    (client s = CReady [] -> rest = [] /\ m_queue (batch s) = [] /\ forallb quiet (workers s) = true).
Proof. by eapply batches_finish. Qed.

(** ** Schedules *)

Inductive Choice : Set := Client | Worker (i : nat) | Spurious.

Section Schedules.
  Variable dilithium_verify : list Z -> list Z -> list Z -> Z.

(** The step a choice makes, if it is enabled. *)
Definition exec_choice (s : System) (c : Choice) : option System :=
  match c with
  | Client =>
      match client_step (batch s) (client s) with
      | Some (b', c', r) =>
          Some (mkSystem b' (workers s) c'
                  (match r with Some x => results s ++ [x] | None => results s end))
      | None => None
      end
  | Worker i =>
      match workers s !! i with
      | Some w =>
          match worker_step dilithium_verify (batch s) w with
          | Some (b', w') =>
              Some (mkSystem b' (<[i := w']> (workers s))
                      (match w with WNotify => notify (client s) | _ => client s end) (results s))
          | None => None
          end
      | None => None
      end
  | Spurious =>
      match client s with
      | CBlocked ops => Some (mkSystem (batch s) (workers s) (CReady (CWait :: ops)) (results s))
      | _ => None
      end
  end.

Fixpoint run_schedule (s : System) (cs : list Choice) : option System :=
  match cs with
  | [] => Some s
  | c :: cs' => match exec_choice s c with Some s' => run_schedule s' cs' | None => None end
  end.

Lemma exec_choice_step s c s' : exec_choice s c = Some s' -> sys_step dilithium_verify s s'.
Proof.
  destruct s as [b ws cl rs], c as [|i|]; cbn; intros H.
  - destruct (client_step b cl) as [[[b' c'] r]|] eqn:E; [|done]. injection H as <-. by apply step_client.
  - destruct (ws !! i) as [w|] eqn:Ew; [|done].
    destruct (worker_step dilithium_verify b w) as [[b' w']|] eqn:E; [|done]. injection H as <-.
    rewrite <- (take_drop_middle ws i w Ew) at 1. rewrite insert_take_drop.
    + by apply step_worker.
    + by apply lookup_lt_Some in Ew.
  - destruct cl; try done. injection H as <-. apply step_spurious.
Qed.

Lemma run_schedule_reachable s0 cs : forall s s', reachable dilithium_verify s0 s ->
  run_schedule s cs = Some s' -> reachable dilithium_verify s0 s'.
Proof.
  induction cs as [|c cs IH]; intros s s' HR; cbn; [by intros [= <-]|].
  destruct (exec_choice s c) as [s1|] eqn:E; [|done]. apply IH.
  eapply reach_step; [done|]. by apply exec_choice_step in E.
Qed.
End Schedules.

(** A verifier that accepts messages starting with 1. *)
Definition toy_verify (sig msg pk : list Z) : Z := if byte_at msg 0 =? 1 then 0 else -1.
Definition toy_task (b : Z) (i : Z) : CSignatureTask :=
  mkTask (replicate 3309 7) (b :: replicate 31 0) (replicate 1952 9) i.
Definition idle_batch : BatchState := mkBatch [] 0 false None.

Definition demo_schedule : list Choice :=
  [Client; Client; Client; Client; Client; Client; Worker 0; Client; Worker 1; Client; Worker 0; Worker 0;
   Worker 1; Worker 1; Worker 1; Worker 1; Client].

Definition demo_final : option System :=
  run_schedule toy_verify (start [WIdle; WIdle] idle_batch [[toy_task 1 0; toy_task 2 1]]) demo_schedule.

Lemma batch_verdicts_correct_witness :
  exists s, demo_final = Some s /\ results s = [false] /\
    exists finished rest, [[toy_task 1 0; toy_task 2 1]] = finished ++ rest /\
      results s = forallb (VerifySingle toy_verify) <$> finished /\
      (client s = CReady [] -> rest = [] /\ m_queue (batch s) = [] /\ forallb quiet (workers s) = true).
Proof.
  destruct demo_final as [s|] eqn:E; [|vm_compute in E; discriminate].
  exists s. split; [reflexivity|]. split; [vm_compute in E; injection E as <-; reflexivity|].
  apply (batch_verdicts_correct toy_verify [WIdle; WIdle] idle_batch).
  - reflexivity.
  - reflexivity.
  - apply Forall_singleton. vm_compute. reflexivity.
  - apply (run_schedule_reachable toy_verify _ demo_schedule _ s (reach_refl _ _)). exact E.
Defined.

(** A client that abandons a batch after adding a task (as the caller does when
    a later input is malformed) leaves the task in the queue.  The next batch's
    count then drops to 0 while its own, invalid, task is still queued, and
    [Wait] accepts it. *)
Example abandoned_batch_accepts_invalid :
  let prog := [CBegin; CAdd (toy_task 1 0); CBegin; CAdd (toy_task 2 0); CWait] in
  let s0 := mkSystem idle_batch [WIdle] (CReady prog) [] in
  match run_schedule toy_verify s0
          [Client; Client; Client; Client; Client; Client; Client; Client; Worker 0; Worker 0; Worker 0;
           Client] with
  | Some s => (results s, VerifySingle toy_verify (toy_task 2 0), len (m_queue (batch s)))
  | None => ([], true, 0)
  end = ([true], false, 1).
Proof. vm_compute. reflexivity. Qed.

(** The completion variable is notified without its mutex: when the last worker
    finishes between the client's check of the count and its wait, the
    notification is lost and nothing but a spurious wake-up can wake it. *)
Example lost_wakeup :
  let s0 := start [WIdle] idle_batch [[toy_task 1 0]] in
  match run_schedule toy_verify s0
          [Client; Client; Client; Client; Client; Worker 0; Worker 0; Worker 0; Worker 0; Client] with
  | Some s =>
      m_pending_count (batch s) = 0 /\ results s = [] /\ client s = CBlocked [] /\
      exec_choice toy_verify s Client = None /\ exec_choice toy_verify s (Worker 0) = None
  | None => False
  end.
Proof. vm_compute. auto. Qed.
