(* ===== verification/UtxoStore.v ===== *)
(** * The UTXO store (node/utxo_set.h, node/utxo_set.cpp)

    [CUTXOSet] without its block operations (UtxoBlock): the on-disk formats,
    the LRU cache, the pending additions and deletions, and the operations on
    single outputs.  LevelDB is third-party code: the class [LevelDB] states
    what the store relies on, and the store is proved to behave as a finite map
    from outpoints to entries against that interface. *)

From S2P Require Import Prelude Uint256 ChainParams Transaction.

(** ** Data *)

Record CUTXOEntry := mkEntry { ue_out : CTxOut; ue_nHeight : Z; ue_fCoinBase : bool }.

#[export] Instance CUTXOEntry_eq_dec : EqDecision CUTXOEntry.
Proof. solve_decision. Defined.

Record CUTXOStats := mkStats { nUTXOs : Z; nTotalAmount : Z; stats_nHeight : Z }.

(** ** LevelDB *)

Inductive BatchOp : Type :=
| Put (key value : list Z)
| Delete (key : list Z).

(** The value of [key] after a write batch, in order. *)
Fixpoint batch_get (ops : list BatchOp) (key : list Z) (old : option (list Z)) : option (list Z) :=
  match ops with
  | [] => old
  | Put k v :: ops' => batch_get ops' key (if decide (k = key) then Some v else old)
  | Delete k :: ops' => batch_get ops' key (if decide (k = key) then None else old)
  end.

(** [Get] returns the value or a non-ok status; [Write] applies a whole batch
    or fails and leaves the database as it was; an iterator walk visits pairs of
    the database, each key once, and all of them when its status is ok. *)
Class LevelDB (D : Type) := mkLevelDB {
  db_Get : D -> list Z -> option (list Z);
  db_Write : D -> list BatchOp -> option D;
  db_Iterate : D -> list (list Z * list Z) * bool;
  db_Get_Write : forall d ops d' key,
    db_Write d ops = Some d' -> db_Get d' key = batch_get ops key (db_Get d key);
  db_Iterate_sound : forall d key value,
    (key, value) ∈ (db_Iterate d).1 -> db_Get d key = Some value;
  db_Iterate_complete : forall d key value,
    (db_Iterate d).2 = true -> db_Get d key = Some value -> (key, value) ∈ (db_Iterate d).1;
  db_Iterate_NoDup : forall d, NoDup (db_Iterate d).1.*1
}.

(** The interface is satisfied by a finite map. *)
Definition mem_write (d : gmap (list Z) (list Z)) (op : BatchOp) : gmap (list Z) (list Z) :=
  match op with Put k v => <[k := v]> d | Delete k => delete k d end.

Lemma mem_write_get ops : forall d key,
  foldl mem_write d ops !! key = batch_get ops key (d !! key).
Proof.
  induction ops as [|[k v|k] ops IH]; intros d key; simpl; [done|rewrite IH..]; f_equal;
    destruct (decide (k = key)) as [->|]; by simplify_map_eq.
Qed.

#[export, program] Instance MemDB : LevelDB (gmap (list Z) (list Z)) := {
  db_Get d k := d !! k;
  db_Write d ops := Some (foldl mem_write d ops);
  db_Iterate d := (map_to_list d, true)
}.
Next Obligation. intros d ops d' key [= <-]. apply mem_write_get. Qed.
Next Obligation. intros d k v. apply elem_of_map_to_list. Qed.
Next Obligation. intros d k v _. apply elem_of_map_to_list. Qed.
Next Obligation. intros d. apply NoDup_fst_map_to_list. Qed.

(** ** Encodings *)

(** ['u' + txid (32 bytes) + index (4 bytes)] *)
Definition SerializeOutPoint (outpoint : COutPoint) : list Z :=
  117 :: op_hash outpoint ++ le_bytes 4 (op_n outpoint).

(** [height (4) + fCoinBase (1) + nValue (8) + scriptPubKey_size (4) + scriptPubKey] *)
Definition SerializeUTXOEntry (entry : CUTXOEntry) : list Z :=
  let script_size := u32 (len (scriptPubKey (ue_out entry))) in
  le_bytes 4 (ue_nHeight entry) ++ [if ue_fCoinBase entry then 1 else 0] ++
  le_bytes 8 (nValue (ue_out entry)) ++ le_bytes 4 script_size ++
  take (Z.to_nat script_size) (scriptPubKey (ue_out entry)).

Definition DeserializeUTXOEntry (data : list Z) : option CUTXOEntry :=
  if len data <? 17 then None
  else
    let nHeight := le_val (slice data 0 4) in
    let coinbase_flag := byte_at data 4 in
    let nValue := le_val (slice data 5 8) in
    let script_size := le_val (slice data 13 4) in
    if negb (17 + script_size =? len data) then None
    else Some (mkEntry (mkTxOut nValue (slice data 17 (Z.to_nat script_size)))
                 nHeight (negb (coinbase_flag =? 0))).

(** ["utxo_stats"], ["undo_" + block hash] *)
Definition stats_key : list Z := [117; 116; 120; 111; 95; 115; 116; 97; 116; 115].
Definition undo_key (blockHash : uint256) : list Z := [117; 110; 100; 111; 95] ++ blockHash.

Definition SerializeStats (st : CUTXOStats) : list Z :=
  le_bytes 8 (nUTXOs st) ++ le_bytes 8 (nTotalAmount st) ++ le_bytes 4 (stats_nHeight st).

(** ** The store *)

Definition MAX_CACHE_SIZE : Z := 1000000.
Definition COINBASE_MATURITY : Z := 100.

(** The cache's list iterators are positions of [lru_list]: the entry of
    [outpoint] points at the one occurrence of [outpoint] in the list. *)
Record CUTXOSet (D : Type) := mkUTXOSet {
  db : option D;
  lru_list : list COutPoint;
  cache : gmap COutPoint CUTXOEntry;
  cache_additions : gmap COutPoint CUTXOEntry;
  cache_deletions : gset COutPoint;
  stats : CUTXOStats
}.
Arguments mkUTXOSet {D} _ _ _ _ _ _.
Arguments db {D} _.
Arguments lru_list {D} _.
Arguments cache {D} _.
Arguments cache_additions {D} _.
Arguments cache_deletions {D} _.
Arguments stats {D} _.

Section Store.
  Context {D : Type} `{LDB : LevelDB D}.
  Implicit Types s : CUTXOSet D.

Definition set_cache s (l : list COutPoint) (c : gmap COutPoint CUTXOEntry) : CUTXOSet D :=
  mkUTXOSet (db s) l c (cache_additions s) (cache_deletions s) (stats s).
Definition set_stats s (st : CUTXOStats) : CUTXOSet D :=
  mkUTXOSet (db s) (lru_list s) (cache s) (cache_additions s) (cache_deletions s) st.
Definition set_db s (d : option D) : CUTXOSet D :=
  mkUTXOSet d (lru_list s) (cache s) (cache_additions s) (cache_deletions s) (stats s).
Definition set_pending s (a : gmap COutPoint CUTXOEntry) (x : gset COutPoint) : CUTXOSet D :=
  mkUTXOSet (db s) (lru_list s) (cache s) a x (stats s).

Definition IsOpen s : bool := match db s with Some _ => true | None => false end.

(** [lru_list.erase(it)] *)
Definition lru_erase (k : COutPoint) (l : list COutPoint) : list COutPoint :=
  filter (fun x => x <> k) l.

(** [UpdateCache]; at capacity the list is not empty ([store_ok]), so [back()]
    is defined. *)
Definition UpdateCache s (outpoint : COutPoint) (entry : CUTXOEntry) : CUTXOSet D :=
  match cache s !! outpoint with
  | Some _ =>
      set_cache s (outpoint :: lru_erase outpoint (lru_list s)) (<[outpoint := entry]> (cache s))
  | None =>
      if MAX_CACHE_SIZE <=? Z.of_nat (size (cache s)) then
        match list.last (lru_list s) with
        | Some lru =>
            set_cache s (outpoint :: removelast (lru_list s))
              (<[outpoint := entry]> (delete lru (cache s)))
        | None => s
        end
      else set_cache s (outpoint :: lru_list s) (<[outpoint := entry]> (cache s))
  end.

Definition RemoveFromCache s (outpoint : COutPoint) : CUTXOSet D :=
  match cache s !! outpoint with
  | Some _ => set_cache s (lru_erase outpoint (lru_list s)) (delete outpoint (cache s))
  | None => s
  end.

Definition GetFromCache s (outpoint : COutPoint) : option CUTXOEntry := cache s !! outpoint.

(** [db->Get] followed by [DeserializeUTXOEntry]. *)
Definition db_entry (d : D) (outpoint : COutPoint) : option CUTXOEntry :=
  match db_Get d (SerializeOutPoint outpoint) with
  | Some value => DeserializeUTXOEntry value
  | None => None
  end.

(** [GetUTXO]: the entry when it returns [true], and the store with its
    [mutable] cache updated. *)
Definition GetUTXO s (outpoint : COutPoint) : option CUTXOEntry * CUTXOSet D :=
  match db s with
  | None => (None, s)
  | Some d =>
      if decide (outpoint ∈ cache_deletions s) then (None, s)
      else
        match cache_additions s !! outpoint with
        | Some entry => (Some entry, s)
        | None =>
            match GetFromCache s outpoint with
            | Some entry => (Some entry, s)
            | None =>
                match db_entry d outpoint with
                | Some entry => (Some entry, UpdateCache s outpoint entry)
                | None => (None, s)
                end
            end
        end
  end.

Definition HaveUTXO s (outpoint : COutPoint) : bool * CUTXOSet D :=
  let '(e, s') := GetUTXO s outpoint in (match e with Some _ => true | None => false end, s').

Definition stats_add (st : CUTXOStats) (value : Z) : CUTXOStats :=
  mkStats (u64 (nUTXOs st + 1)) (u64 (nTotalAmount st + value)) (stats_nHeight st).

(** The two guarded decrements. *)
Definition stats_sub (st : CUTXOStats) (value : Z) : CUTXOStats :=
  mkStats (if nUTXOs st >? 0 then nUTXOs st - 1 else nUTXOs st)
    (if nTotalAmount st >=? value then nTotalAmount st - value else nTotalAmount st)
    (stats_nHeight st).

Definition AddUTXO s (outpoint : COutPoint) (out : CTxOut) (height : Z) (fCoinBase : bool)
  : bool * CUTXOSet D :=
  if negb (IsOpen s) then (false, s)
  else
    let entry := mkEntry out height fCoinBase in
    let s := set_pending s (<[outpoint := entry]> (cache_additions s))
               (cache_deletions s ∖ {[outpoint]}) in
    let s := UpdateCache s outpoint entry in
    (true, set_stats s (stats_add (stats s) (nValue out))).

Definition SpendUTXO s (outpoint : COutPoint) : bool * CUTXOSet D :=
  match db s with
  | None => (false, s)
  | Some d =>
      let found :=
        match cache_additions s !! outpoint with
        | Some entry => Some entry
        | None =>
            match GetFromCache s outpoint with
            | Some entry => Some entry
            | None => db_entry d outpoint
            end
        end in
      match found with
      | None => (false, s)
      | Some entry =>
          let s := set_pending s (delete outpoint (cache_additions s))
                     (cache_deletions s ∪ {[outpoint]}) in
          let s := RemoveFromCache s outpoint in
          (true, set_stats s (stats_sub (stats s) (nValue (ue_out entry))))
      end
  end.

(** The batch of the pending changes: the additions, then the deletions.  The
    maps are walked in outpoint order in the code; their keys are distinct, so
    the order does not matter. *)
Definition pending_batch s : list BatchOp :=
  ((fun '(k, e) => Put (SerializeOutPoint k) (SerializeUTXOEntry e)) <$>
     map_to_list (cache_additions s)) ++
  ((fun k => Delete (SerializeOutPoint k)) <$> elements (cache_deletions s)).

Definition Flush s : bool * CUTXOSet D :=
  match db s with
  | None => (false, s)
  | Some d =>
      match db_Write d (pending_batch s ++ [Put stats_key (SerializeStats (stats s))]) with
      | None => (false, s)
      | Some d' => (true, set_pending (set_db s (Some d')) ∅ ∅)
      end
  end.

(** [Open] on the result of [leveldb::DB::Open]. *)
Definition Open s (raw_db : option D) : bool * CUTXOSet D :=
  if IsOpen s then (true, s)
  else
    match raw_db with
    | None => (false, s)
    | Some d =>
        let s := set_db s (Some d) in
        match db_Get d stats_key with
        | Some v =>
            if len v >=? 20 then
              (true, set_stats s (mkStats (le_val (slice v 0 8)) (le_val (slice v 8 8))
                                   (le_val (slice v 16 4))))
            else (true, s)
        | None => (true, s)
        end
    end.

(** [Close]: the store and the contents of the database it leaves on disk; the
    status of the two writes is ignored. *)
Definition Close s : CUTXOSet D * option D :=
  let disk :=
    match db s with
    | None => None
    | Some d =>
        let d :=
          if decide (cache_additions s = ∅ /\ cache_deletions s = ∅) then d
          else default d (db_Write d (pending_batch s)) in
        Some (default d (db_Write d [Put stats_key (SerializeStats (stats s))]))
    end in
  (mkUTXOSet None [] ∅ ∅ ∅ (stats s), disk).

Definition IsCoinBaseMature (g_chainParams : option ChainParams) s (outpoint : COutPoint)
    (currentHeight : Z) : bool * CUTXOSet D :=
  let '(e, s') := GetUTXO s outpoint in
  match e with
  | None => (false, s')
  | Some entry =>
      if negb (ue_fCoinBase entry) then (true, s')
      else
        let coinbaseMaturity :=
          match g_chainParams with
          | Some p => u32 (coinbaseMaturity p)
          | None => COINBASE_MATURITY
          end in
        (negb (currentHeight <? u32 (ue_nHeight entry + coinbaseMaturity)), s')
  end.

(** ** Whole-database operations *)

(** The keys an iterator walk visits: those starting with ['u'] other than the
    statistics. *)
Definition walk_key (key : list Z) : bool :=
  match key with
  | b :: _ => (b =? 117) && negb (bool_decide (key = stats_key))
  | [] => false
  end.

Definition UpdateStats s : bool * CUTXOSet D :=
  match db s with
  | None => (false, s)
  | Some d =>
      match db_Iterate d with
      | (_, false) => (false, s)
      | (l, true) =>
          let entries := omap (fun '(k, v) => if walk_key k then DeserializeUTXOEntry v else None) l in
          (true, set_stats s
             (mkStats (u64 (len entries)) (u64 (sum_list (nValue ∘ ue_out <$> entries)))
                (stats_nHeight (stats s))))
      end
  end.

Definition VerifyConsistency s : bool :=
  match db s with
  | None => false
  | Some d =>
      match db_Iterate d with
      | (_, false) => false
      | (l, true) =>
          forallb (fun '(k, v) =>
            negb (walk_key k) ||
            (len k =? 37) &&
            match DeserializeUTXOEntry v with
            | Some entry => negb (TxOut_IsNull (ue_out entry))
            | None => false
            end) l
      end
  end.

(** The walk of [Clear] does not look at the iterator's status. *)
Definition Clear s : bool * CUTXOSet D :=
  match db s with
  | None => (false, s)
  | Some d =>
      let batch := omap (fun '(k, _) =>
        match k with b :: _ => if b =? 117 then Some (Delete k) else None | [] => None end)
        (db_Iterate d).1 in
      match db_Write d batch with
      | None => (false, s)
      | Some d' => (true, mkUTXOSet (Some d') [] ∅ ∅ ∅ (mkStats 0 0 0))
      end
  end.

Definition HasUndoData s (blockHash : uint256) : bool :=
  match db s with
  | None => false
  | Some d => match db_Get d (undo_key blockHash) with Some _ => true | None => false end
  end.
End Store.

(** ** Keys and values *)

(** Outpoints as they occur: a 32-byte id and a 32-bit index.  An id starting
    with ["ndo_"] would make its key look like an undo key. *)
Definition op_ok (k : COutPoint) : Prop :=
  u256_wf (op_hash k) /\ 0 <= op_n k < 2 ^ 32 /\ take 4 (op_hash k) <> [110; 100; 111; 95].

Definition entry_wf (e : CUTXOEntry) : Prop :=
  txout_wf (ue_out e) /\ 0 <= ue_nHeight e < 2 ^ 32.

Lemma SerializeOutPoint_inj a b : op_ok a -> op_ok b ->
  SerializeOutPoint a = SerializeOutPoint b -> a = b.
Proof.
  intros ([La _] & Na & _) ([Lb _] & Nb & _) E. unfold SerializeOutPoint in E.
  apply (f_equal tail) in E. cbn [tail] in E. destruct a as [ha na], b as [hb nb].
  cbn [op_hash op_n] in *. apply app_inj_1 in E as [-> E]; [|lia]. f_equal.
  apply (f_equal le_val) in E. rewrite !le_val_le_bytes, !Z.mod_small in E; [done|simpl; lia..].
Qed.

Lemma length_SerializeOutPoint k : op_ok k -> length (SerializeOutPoint k) = 37%nat.
Proof.
  intros ([L _] & _). unfold SerializeOutPoint. cbn [length]. rewrite length_app, length_le_bytes. lia.
Qed.

Lemma utxo_key_ne_stats k : op_ok k -> SerializeOutPoint k <> stats_key.
Proof. intros H E. apply length_SerializeOutPoint in H. rewrite E in H. done. Qed.

Lemma utxo_key_ne_undo k h : op_ok k -> SerializeOutPoint k <> undo_key h.
Proof.
  intros ([L _] & _ & H) E. unfold SerializeOutPoint in E.
  apply (f_equal tail) in E. cbn [tail] in E. apply H. rewrite <- (take_app_le _ (le_bytes 4 (op_n k))) by lia.
  by rewrite E.
Qed.

Lemma stats_key_ne_undo h : length h = 32%nat -> stats_key <> undo_key h.
Proof. intros L E. apply (f_equal length) in E. simpl in E. lia. Qed.

Lemma slice_app_skip a l off n : off = length a -> slice (a ++ l) off n = take n l.
Proof. intros ->. unfold slice. by rewrite drop_app_length. Qed.

Lemma slice_field a b c off n :
  off = length a -> n = length b -> slice (a ++ b ++ c) off n = b.
Proof. intros -> ->. rewrite slice_app_skip by done. apply take_app_length. Qed.

Lemma entry_roundtrip e : entry_wf e -> DeserializeUTXOEntry (SerializeUTXOEntry e) = Some e.
Proof.
  destruct e as [[v sc] h cb]. intros ((Hv & Hs & Hl) & Hh). cbn in Hv, Hs, Hl, Hh.
  unfold SerializeUTXOEntry. cbn [ue_nHeight ue_fCoinBase ue_out scriptPubKey nValue].
  pose proof (len_nonneg sc) as Hn. rewrite u32_small by lia.
  rewrite take_ge by (unfold len; lia).
  set (H4 := le_bytes 4 h). set (F1 := [if cb then 1 else 0]). set (V8 := le_bytes 8 v).
  set (L4 := le_bytes 4 (len sc)).
  assert (length H4 = 4 /\ length F1 = 1 /\ length V8 = 8 /\ length L4 = 4)%nat as (E1 & E2 & E3 & E4).
  { unfold H4, F1, V8, L4. by rewrite !length_le_bytes. }
  set (data := H4 ++ F1 ++ V8 ++ L4 ++ sc).
  assert (length data = 17 + length sc)%nat as ED.
  { unfold data. rewrite !length_app, E1, E2, E3, E4. lia. }
  assert (slice data 0 4 = H4) as S1 by (apply (slice_field [] H4); [done|lia]).
  assert (byte_at data 4 = if cb then 1 else 0) as S2.
  { unfold byte_at, data. rewrite app_nth2, E1 by lia. done. }
  assert (slice data 5 8 = V8) as S3.
  { unfold data. rewrite app_assoc. apply slice_field; [rewrite length_app; lia|lia]. }
  assert (slice data 13 4 = L4) as S4.
  { unfold data. rewrite (app_assoc F1), (app_assoc H4).
    apply slice_field; [rewrite !length_app; lia|lia]. }
  assert (le_val L4 = len sc) as VL.
  { unfold L4. rewrite le_val_le_bytes. apply Z.mod_small. simpl. lia. }
  unfold DeserializeUTXOEntry. rewrite S1, S2, S3, S4, VL. unfold len at 1 2 3. rewrite ED.
  rewrite (proj2 (Z.ltb_ge _ 17)) by lia.
  rewrite (proj2 (Z.eqb_eq (17 + len sc) _)) by (unfold len; lia). cbn [negb].
  unfold H4, V8. rewrite !le_val_le_bytes, !Z.mod_small by (simpl; lia).
  f_equal. f_equal; [f_equal|by destruct cb].
  unfold data. rewrite (app_assoc V8), (app_assoc F1), (app_assoc H4).
  rewrite slice_app_skip by (rewrite !length_app; lia). apply take_ge. unfold len. lia.
Qed.

Lemma stats_roundtrip st d :
  0 <= nUTXOs st < 2 ^ 64 -> 0 <= nTotalAmount st < 2 ^ 64 -> 0 <= stats_nHeight st < 2 ^ 32 ->
  d = SerializeStats st ->
  len d = 20 /\ mkStats (le_val (slice d 0 8)) (le_val (slice d 8 8)) (le_val (slice d 16 4)) = st.
Proof.
  destruct st as [a b c]. cbn [nUTXOs nTotalAmount stats_nHeight]. intros Ha Hb Hc ->.
  unfold SerializeStats. cbn [nUTXOs nTotalAmount stats_nHeight].
  split; [unfold len; by rewrite !length_app, !length_le_bytes|].
  set (A := le_bytes 8 a). change (A ++ ?l) with ([] ++ A ++ l) at 1.
  rewrite (slice_field [] A) by (unfold A; by rewrite ?length_le_bytes). unfold A. clear A.
  rewrite (slice_field (le_bytes 8 a) (le_bytes 8 b)) by (by rewrite ?length_le_bytes).
  rewrite (app_assoc (le_bytes 8 a)), slice_app_skip by (by rewrite length_app, !length_le_bytes).
  rewrite take_ge by (by rewrite length_le_bytes).
  rewrite !le_val_le_bytes, !Z.mod_small by (simpl; lia). done.
Qed.

(** ** The store as a finite map *)

Section Refinement.
  Context {D : Type} `{LDB : LevelDB D}.
  Implicit Types s : CUTXOSet D.
  Implicit Types k : COutPoint.

(** What the store contains: pending changes over the database. *)
Definition view s k : option CUTXOEntry :=
  if decide (k ∈ cache_deletions s) then None
  else match cache_additions s !! k with
       | Some e => Some e
       | None => match db s with Some d => db_entry d k | None => None end
       end.

Definition cache_wf (l : list COutPoint) (c : gmap COutPoint CUTXOEntry) : Prop :=
  NoDup l /\ forall k, k ∈ l <-> is_Some (c !! k).

Record store_ok s : Prop := {
  so_open : is_Some (db s);
  so_lru : cache_wf (lru_list s) (cache s);
  so_cache : forall k e, cache s !! k = Some e -> op_ok k /\ view s k = Some e;
  so_add : forall k e, cache_additions s !! k = Some e -> op_ok k /\ entry_wf e;
  so_del : forall k, k ∈ cache_deletions s -> op_ok k /\ cache_additions s !! k = None
}.

(** The map the store stands for. *)
Definition represents s (m : gmap COutPoint CUTXOEntry) : Prop :=
  forall k, op_ok k -> view s k = m !! k.

(** *** The LRU cache *)

Lemma cache_wf_length l c : cache_wf l c -> length l = size c.
Proof.
  intros [Hn Hl]. rewrite <- size_dom, <- (size_list_to_set (C := gset COutPoint) l Hn).
  f_equal. apply set_eq. intros k. by rewrite elem_of_list_to_set, elem_of_dom.
Qed.

Lemma elem_of_lru_erase k x l : x ∈ lru_erase k l <-> x <> k /\ x ∈ l.
Proof. unfold lru_erase. by rewrite list_elem_of_filter. Qed.

Lemma cache_wf_insert_old l c k e : cache_wf l c -> cache_wf (k :: lru_erase k l) (<[k := e]> c).
Proof.
  intros [Hn Hl]. split.
  - constructor; [rewrite elem_of_lru_erase; tauto|by apply NoDup_filter].
  - intros x. rewrite elem_of_cons, elem_of_lru_erase, Hl, lookup_insert_is_Some.
    destruct (decide (x = k)) as [->|]; intuition congruence.
Qed.

Lemma cache_wf_insert_new l c k e :
  cache_wf l c -> c !! k = None -> cache_wf (k :: l) (<[k := e]> c).
Proof.
  intros [Hn Hl] Hk. split.
  - constructor; [rewrite Hl, Hk; by intros []|done].
  - intros x. rewrite elem_of_cons, Hl, lookup_insert_is_Some.
    destruct (decide (x = k)) as [->|]; intuition congruence.
Qed.

Lemma cache_wf_delete l c k : cache_wf l c -> cache_wf (lru_erase k l) (delete k c).
Proof.
  intros [Hn Hl]. split; [by apply NoDup_filter|].
  intros x. rewrite elem_of_lru_erase, Hl, lookup_delete_is_Some. intuition congruence.
Qed.

Lemma cache_wf_evict l c x : cache_wf (l ++ [x]) c -> cache_wf l (delete x c).
Proof.
  intros [Hn Hl]. apply NoDup_app in Hn as (Hn & Hd & _). split; [done|].
  intros y. rewrite lookup_delete_is_Some, <- Hl, elem_of_app, list_elem_of_singleton.
  split; [intros Hy; split; [|tauto]; intros ->; apply (Hd y Hy); by apply list_elem_of_singleton|].
  intuition congruence.
Qed.

Lemma take_lru_erase k x l : forall n, x ∈ take n l -> x <> k -> x ∈ take n (lru_erase k l).
Proof.
  induction l as [|y l IH]; intros n Hx Hne; [rewrite take_nil in Hx; by inversion Hx|].
  destruct n as [|n]; cbn [take] in Hx; [by inversion Hx|].
  apply elem_of_cons in Hx. unfold lru_erase. rewrite filter_cons.
  destruct (decide (y <> k)) as [Hy|Hy].
  - cbn [take]. rewrite elem_of_cons. destruct Hx as [->|Hx]; [by left|right]. by apply IH.
  - destruct Hx as [->|Hx]; [done|]. apply (IH n) in Hx; [|done].
    apply elem_of_take in Hx as (i & Hi & Hlt). apply elem_of_take. exists i. split; [done|lia].
Qed.

(** What a cache update does: the new entry is in front; the others keep their
    entries and order, but for one that may be dropped from the back. *)
Lemma UpdateCache_spec s k e : cache_wf (lru_list s) (cache s) ->
  exists l c, UpdateCache s k e = set_cache s (k :: l) c /\ cache_wf (k :: l) c /\
    c !! k = Some e /\
    (forall x ex, x <> k -> c !! x = Some ex -> cache s !! x = Some ex) /\
    (forall n x, x ∈ take n (lru_list s) -> Z.of_nat n < MAX_CACHE_SIZE -> x <> k -> x ∈ take n l).
Proof.
  intros HW. pose proof (cache_wf_length _ _ HW) as HL. unfold UpdateCache.
  destruct (cache s !! k) as [old|] eqn:Ek.
  - exists (lru_erase k (lru_list s)), (<[k := e]> (cache s)).
    split_and!; [done|by apply cache_wf_insert_old|by simplify_map_eq| |].
    + intros x ex Hx. by rewrite lookup_insert_ne.
    + intros n x Hx _. by apply take_lru_erase.
  - destruct (Z.leb_spec MAX_CACHE_SIZE (Z.of_nat (size (cache s)))) as [Hcap|Hcap].
    + destruct (lru_list s) as [|y l'] eqn:El using rev_ind; [unfold MAX_CACHE_SIZE in *; simpl in *; lia|].
      clear IHl'. rewrite last_snoc, removelast_last. exists l', (<[k := e]> (delete y (cache s))).
      assert (Hk : delete y (cache s) !! k = None) by (apply lookup_delete_None; auto).
      split_and!; [done| |by simplify_map_eq| |].
      * apply cache_wf_insert_new; [by apply cache_wf_evict|done].
      * intros x ex Hx. rewrite lookup_insert_ne by done. by intros [_ ?]%lookup_delete_Some.
      * intros n x Hx Hn _. rewrite length_app in HL. simpl in HL.
        by rewrite take_app_le in Hx by lia.
    + exists (lru_list s), (<[k := e]> (cache s)).
      split_and!; [done|by apply cache_wf_insert_new|by simplify_map_eq| |done].
      intros x ex Hx. by rewrite lookup_insert_ne.
Qed.

Lemma RemoveFromCache_spec s k : cache_wf (lru_list s) (cache s) ->
  exists l c, RemoveFromCache s k = set_cache s l c /\ cache_wf l c /\
    c !! k = None /\
    (forall x ex, c !! x = Some ex -> cache s !! x = Some ex) /\
    (forall n x, x ∈ take n (lru_list s) -> x <> k -> x ∈ take n l).
Proof.
  intros HW. unfold RemoveFromCache. destruct (cache s !! k) as [old|] eqn:Ek.
  - exists (lru_erase k (lru_list s)), (delete k (cache s)).
    split_and!; [done|by apply cache_wf_delete|by simplify_map_eq| |].
    + by intros x ex [_ ?]%lookup_delete_Some.
    + intros n x Hx Hne. by apply take_lru_erase.
  - exists (lru_list s), (cache s). split_and!; try done. by destruct s.
Qed.

(** *** Single operations *)

Lemma store_ok_set_cache s l c : store_ok s -> cache_wf l c ->
  (forall k e, c !! k = Some e -> op_ok k /\ view s k = Some e) -> store_ok (set_cache s l c).
Proof. intros [] HW HC. by split. Qed.

Lemma UpdateCache_ok s k e : store_ok s -> op_ok k -> view s k = Some e ->
  store_ok (UpdateCache s k e) /\ exists l c, UpdateCache s k e = set_cache s l c.
Proof.
  intros HS Hk Hv. destruct (UpdateCache_spec s k e (so_lru _ HS)) as (l & c & -> & HW & Hc & Ho & _).
  split; [|eauto]. apply store_ok_set_cache; [done..|]. intros x ex Hx.
  destruct (decide (x = k)) as [->|Hne]; [simplify_eq; auto|].
  by apply (so_cache _ HS), Ho.
Qed.

Lemma GetUTXO_spec s k : store_ok s -> op_ok k ->
  fst (GetUTXO s k) = view s k /\
  store_ok (snd (GetUTXO s k)) /\ exists l c, snd (GetUTXO s k) = set_cache s l c.
Proof.
  intros HS Hk. assert (exists l c, s = set_cache s l c) as Hid.
  { exists (lru_list s), (cache s). by destruct s. }
  unfold GetUTXO. destruct (so_open _ HS) as [d Ed]. unfold view at 1. rewrite Ed.
  destruct (decide _) as [Hd|Hd]; [done|].
  destruct (cache_additions s !! k) as [e|] eqn:Ea; [done|].
  unfold GetFromCache. destruct (cache s !! k) as [e|] eqn:Ec.
  - apply (so_cache _ HS) in Ec as [_ Ev]. unfold view in Ev.
    rewrite decide_False, Ea, Ed in Ev by done. simpl. by rewrite Ev.
  - destruct (db_entry d k) as [e|] eqn:Ee; [|done]. simpl. split; [done|].
    apply UpdateCache_ok; [done..|]. unfold view. by rewrite decide_False, Ea, Ed.
Qed.

Lemma AddUTXO_spec s k out h cb : store_ok s -> op_ok k -> entry_wf (mkEntry out h cb) ->
  fst (AddUTXO s k out h cb) = true /\ store_ok (snd (AddUTXO s k out h cb)) /\
  forall x, view (snd (AddUTXO s k out h cb)) x =
    if decide (x = k) then Some (mkEntry out h cb) else view s x.
Proof.
  intros HS Hk He. destruct (so_open _ HS) as [d Ed]. unfold AddUTXO, IsOpen. rewrite Ed. cbn [negb].
  set (e := mkEntry out h cb) in *.
  set (s1 := set_pending s (<[k := e]> (cache_additions s)) (cache_deletions s ∖ {[k]})).
  assert (forall x, view s1 x = if decide (x = k) then Some e else view s x) as Hv.
  { intros x. unfold view, s1. cbn [cache_deletions cache_additions set_pending db].
    destruct (decide (x = k)) as [->|Hne].
    - rewrite decide_False by set_solver. by rewrite lookup_insert_eq.
    - rewrite lookup_insert_ne by done. destruct (decide (x ∈ cache_deletions s)).
      + by rewrite decide_True by set_solver.
      + by rewrite decide_False by set_solver. }
  destruct (UpdateCache_spec s1 k e (so_lru _ HS)) as (l & c & -> & HW & Hc & Ho & _).
  split_and!; [done| |done]. split; [by eexists|done| | |].
  - intros x ex Hx. change (view _ x) with (view s1 x). rewrite Hv.
    destruct (decide (x = k)) as [->|Hne]; [simpl in Hx; simplify_eq; auto|].
    apply (so_cache _ HS). by apply Ho.
  - simpl. intros x ex [[-> <-]|[Hne Hx]]%lookup_insert_Some; [done|by apply (so_add _ HS)].
  - simpl. intros x Hx. apply elem_of_difference in Hx as [Hx Hne].
    apply (so_del _ HS) in Hx as [? ?]. split; [done|]. rewrite lookup_insert_ne; set_solver.
Qed.

Lemma SpendUTXO_spec s k : store_ok s -> op_ok k -> k ∉ cache_deletions s ->
  (fst (SpendUTXO s k) = true <-> is_Some (view s k)) /\ store_ok (snd (SpendUTXO s k)) /\
  forall x, view (snd (SpendUTXO s k)) x = if decide (x = k) then None else view s x.
Proof.
  intros HS Hk Hd. destruct (so_open _ HS) as [d Ed]. unfold SpendUTXO. rewrite Ed.
  set (found := match cache_additions s !! k with Some _ => _ | None => _ end).
  assert (found = view s k) as ->.
  { unfold found, GetFromCache. destruct (cache_additions s !! k) eqn:Ea.
    { unfold view. by rewrite decide_False, Ea. }
    destruct (cache s !! k) eqn:Ec; [symmetry; by apply (so_cache _ HS)|].
    unfold view. by rewrite decide_False, Ea, Ed. }
  destruct (view s k) as [e|] eqn:Ev; simpl.
  - set (s1 := set_pending s (delete k (cache_additions s)) (cache_deletions s ∪ {[k]})).
    assert (forall x, view s1 x = if decide (x = k) then None else view s x) as Hv.
    { intros x. unfold view, s1. cbn [cache_deletions cache_additions set_pending db].
      destruct (decide (x = k)) as [->|Hne]; [by rewrite decide_True by set_solver|].
      rewrite lookup_delete_ne by done. destruct (decide (x ∈ cache_deletions s)).
      + by rewrite decide_True by set_solver.
      + by rewrite decide_False by set_solver. }
    destruct (RemoveFromCache_spec s1 k (so_lru _ HS)) as (l & c & -> & HW & Hc & Ho & _).
    split_and!; [split; eauto| |done]. split; [by eexists|done| | |].
    + intros x ex Hx. change (view _ x) with (view s1 x). rewrite Hv. simpl in Hx.
      destruct (decide (x = k)) as [->|Hne]; [congruence|]. apply (so_cache _ HS). by apply Ho.
    + simpl. intros x ex [_ Hx]%lookup_delete_Some. by apply (so_add _ HS).
    + simpl. intros x [Hx|Hx%elem_of_singleton]%elem_of_union; [|subst x].
      * apply (so_del _ HS) in Hx as [? ?]. split; [done|]. by apply lookup_delete_None; right.
      * split; [done|]. by apply lookup_delete_eq.
  - split_and!; [split; [done|by intros []]|done|]. intros x.
    destruct (decide (x = k)) as [->|]; done.
Qed.

(** *** Flush *)

Lemma batch_get_app a b key old : batch_get (a ++ b) key old = batch_get b key (batch_get a key old).
Proof. revert old. induction a as [|[]]; intros old; simpl; auto. Qed.

Definition op_key (op : BatchOp) : list Z := match op with Put k _ => k | Delete k => k end.

Lemma batch_get_other ops key old : Forall (fun op => op_key op <> key) ops ->
  batch_get ops key old = old.
Proof.
  intros HF. revert old. induction HF as [|[] ops Hop _ IH]; intros old; simpl in *; [done|..];
    by rewrite decide_False.
Qed.

Lemma batch_get_puts (l : list (COutPoint * CUTXOEntry)) k : op_ok k ->
  Forall (fun p => op_ok p.1) l -> NoDup l.*1 -> forall old,
  batch_get ((fun '(x, e) => Put (SerializeOutPoint x) (SerializeUTXOEntry e)) <$> l)
    (SerializeOutPoint k) old =
  match (list_to_map l : gmap COutPoint CUTXOEntry) !! k with
  | Some e => Some (SerializeUTXOEntry e)
  | None => old
  end.
Proof.
  intros Hk HF. induction HF as [|[x e] l Hx HF IH]; intros HN old; [done|]. simpl in *.
  apply NoDup_cons in HN as [Hni HN]. rewrite IH by done.
  destruct (decide (x = k)) as [->|Hne].
  - rewrite lookup_insert_eq, decide_True by done. by rewrite not_elem_of_list_to_map_1.
  - rewrite lookup_insert_ne, decide_False; [done| |done].
    intros E. apply Hne. by apply SerializeOutPoint_inj.
Qed.

Lemma batch_get_deletes (l : list COutPoint) k : op_ok k -> Forall op_ok l -> forall old,
  batch_get ((fun x => Delete (SerializeOutPoint x)) <$> l) (SerializeOutPoint k) old =
  if decide (k ∈ l) then None else old.
Proof.
  intros Hk HF. induction HF as [|x l Hx HF IH]; intros old;
    cbn [fmap list_fmap batch_get].
  { rewrite decide_False; [done|apply not_elem_of_nil]. }
  rewrite IH.
  destruct (decide (x = k)) as [->|Hne].
  - rewrite (decide_True None old (P := k ∈ k :: l)) by left.
    destruct (decide (k ∈ l)); [done|]. by rewrite decide_True.
  - rewrite (decide_False (P := SerializeOutPoint x = _)).
    + apply decide_ext. rewrite elem_of_cons. intuition congruence.
    + intros E. apply Hne. by apply SerializeOutPoint_inj.
Qed.

Lemma pending_batch_get s k d : store_ok s -> db s = Some d -> op_ok k ->
  match batch_get (pending_batch s) (SerializeOutPoint k) (db_Get d (SerializeOutPoint k)) with
  | Some v => DeserializeUTXOEntry v
  | None => None
  end = view s k.
Proof.
  intros HS Ed Hk. unfold pending_batch. rewrite batch_get_app, batch_get_puts; [|done| |].
  2: { apply Forall_forall. intros [x e] Hx%elem_of_map_to_list. by apply (so_add _ HS) in Hx as []. }
  2: apply NoDup_fst_map_to_list.
  rewrite list_to_map_to_list, batch_get_deletes; [|done|].
  2: { apply Forall_forall. intros x Hx%elem_of_elements. by apply (so_del _ HS). }
  unfold view. rewrite Ed. destruct (decide (k ∈ cache_deletions s)) as [Hd|Hd].
  - by rewrite decide_True by by apply elem_of_elements.
  - rewrite decide_False by by rewrite elem_of_elements.
    destruct (cache_additions s !! k) as [e|] eqn:Ea; [|done].
    apply entry_roundtrip. by apply (so_add _ HS) in Ea as [].
Qed.

Lemma pending_batch_keys s key : store_ok s ->
  (forall k, op_ok k -> SerializeOutPoint k <> key) ->
  Forall (fun op => op_key op <> key) (pending_batch s).
Proof.
  intros HS Hk. unfold pending_batch. rewrite Forall_app, !Forall_fmap, !Forall_forall. split.
  - intros [x e] Hx%elem_of_map_to_list. simpl. apply Hk. by apply (so_add _ HS) in Hx as [].
  - intros x Hx%elem_of_elements. apply Hk. by apply (so_del _ HS).
Qed.

(** What a successful flush leaves on disk. *)
Lemma Flush_spec s d d' : store_ok s -> db s = Some d ->
  db_Write d (pending_batch s ++ [Put stats_key (SerializeStats (stats s))]) = Some d' ->
  Flush s = (true, set_pending (set_db s (Some d')) ∅ ∅) /\
  store_ok (snd (Flush s)) /\
  (forall k, op_ok k -> db_entry d' k = view s k /\ view (snd (Flush s)) k = view s k) /\
  (forall h, length h = 32%nat -> db_Get d' (undo_key h) = db_Get d (undo_key h)) /\
  db_Get d' stats_key = Some (SerializeStats (stats s)).
Proof.
  intros HS Ed Hw. unfold Flush. rewrite Ed, Hw. set (s' := set_pending _ ∅ ∅).
  assert (forall k, op_ok k -> db_entry d' k = view s k) as Hd.
  { intros k Hk. unfold db_entry. erewrite db_Get_Write by done. rewrite batch_get_app. cbn [batch_get].
    rewrite decide_False by (intros E; by apply (utxo_key_ne_stats k Hk)).
    by apply pending_batch_get. }
  assert (forall k, op_ok k -> view s' k = view s k) as Hv by (intros; by apply Hd).
  split_and!; [done| |auto| |].
  - split; [by eexists|apply HS| | |]; simpl.
    + intros k e Hk. apply (so_cache _ HS) in Hk as [Hk Hx]. split; [done|]. by rewrite Hv.
    + by intros k e.
    + intros k Hk. set_solver.
  - intros h Hh. erewrite db_Get_Write by done. apply batch_get_other.
    rewrite Forall_app, Forall_singleton. split; [|by apply stats_key_ne_undo].
    apply pending_batch_keys; [done|]. intros k Hk. by apply utxo_key_ne_undo.
  - erewrite db_Get_Write by done. rewrite batch_get_app. cbn [batch_get]. by rewrite decide_True.
Qed.

(** *** Sequences of operations *)

Inductive StoreOp : Type :=
| OpGet (k : COutPoint)
| OpAdd (k : COutPoint) (out : CTxOut) (height : Z) (coinbase : bool)
| OpSpend (k : COutPoint)
| OpFlush.

Inductive StoreResp : Type := RespEntry (e : option CUTXOEntry) | RespBool (b : bool).

Definition exec_store s (op : StoreOp) : StoreResp * CUTXOSet D :=
  match op with
  | OpGet k => let '(e, s') := GetUTXO s k in (RespEntry e, s')
  | OpAdd k out h cb => let '(b, s') := AddUTXO s k out h cb in (RespBool b, s')
  | OpSpend k => let '(b, s') := SpendUTXO s k in (RespBool b, s')
  | OpFlush => let '(b, s') := Flush s in (RespBool b, s')
  end.

Fixpoint run_store s (ops : list StoreOp) : list StoreResp * CUTXOSet D :=
  match ops with
  | [] => ([], s)
  | op :: ops' =>
      let '(r, s1) := exec_store s op in
      let '(rs, s2) := run_store s1 ops' in (r :: rs, s2)
  end.
End Refinement.

(** The specification: a finite map.  Spending is specified for outputs that
    are present, as every caller looks an output up before spending it. *)
Definition spec_store (m : gmap COutPoint CUTXOEntry) (op : StoreOp)
  : option (StoreResp * gmap COutPoint CUTXOEntry) :=
  match op with
  | OpGet k => Some (RespEntry (m !! k), m)
  | OpAdd k out h cb => Some (RespBool true, <[k := mkEntry out h cb]> m)
  | OpSpend k => match m !! k with Some _ => Some (RespBool true, delete k m) | None => None end
  | OpFlush => Some (RespBool true, m)
  end.

Fixpoint run_spec (m : gmap COutPoint CUTXOEntry) (ops : list StoreOp)
  : option (list StoreResp * gmap COutPoint CUTXOEntry) :=
  match ops with
  | [] => Some ([], m)
  | op :: ops' =>
      match spec_store m op with
      | None => None
      | Some (r, m1) =>
          match run_spec m1 ops' with
          | None => None
          | Some (rs, m2) => Some (r :: rs, m2)
          end
      end
  end.

Definition store_op_ok (op : StoreOp) : Prop :=
  match op with
  | OpGet k | OpSpend k => op_ok k
  | OpAdd k out h cb => op_ok k /\ entry_wf (mkEntry out h cb)
  | OpFlush => True
  end.

Section Simulation.
  Context {D : Type} `{LDB : LevelDB D}.
  Implicit Types s : CUTXOSet D.

(** The disk accepts writes. *)
Definition writes_succeed : Prop := forall (d : D) ops, is_Some (db_Write d ops).

Lemma exec_store_simulates s m op r m' : writes_succeed -> store_ok s -> represents s m ->
  store_op_ok op -> spec_store m op = Some (r, m') ->
  fst (exec_store s op) = r /\ store_ok (snd (exec_store s op)) /\
  represents (snd (exec_store s op)) m'.
Proof.
  intros HD HS HR Hop Hs. destruct op as [k|k out h cb|k|]; simpl in Hop, Hs; unfold exec_store.
  - injection Hs as <- <-. destruct (GetUTXO_spec s k HS Hop) as (E1 & E2 & l & c & E3).
    destruct (GetUTXO s k) as [e s']. simpl in *. subst s'. rewrite E1, (HR k Hop). done.
  - injection Hs as <- <-. destruct Hop as [Hk He].
    destruct (AddUTXO_spec s k out h cb HS Hk He) as (E1 & E2 & E3).
    destruct (AddUTXO s k out h cb) as [b s']. simpl in *. subst b. split_and!; [done..|].
    intros x Hx. rewrite E3. destruct (decide (x = k)) as [->|]; simplify_map_eq; [done|by apply HR].
  - destruct (m !! k) as [e|] eqn:Em; [|done]. injection Hs as <- <-. rewrite <- (HR k Hop) in Em.
    assert (k ∉ cache_deletions s) as Hd.
    { intros Hd. unfold view in Em. by rewrite decide_True in Em. }
    destruct (SpendUTXO_spec s k HS Hop Hd) as (E1 & E2 & E3).
    destruct (SpendUTXO s k) as [b s']. simpl in *. split_and!; [|done|].
    { f_equal. apply E1. by rewrite Em. }
    intros x Hx. rewrite E3. destruct (decide (x = k)) as [->|]; simplify_map_eq; [done|by apply HR].
  - injection Hs as <- <-. destruct (so_open _ HS) as [d Ed].
    destruct (HD d (pending_batch s ++ [Put stats_key (SerializeStats (stats s))])) as [d' Hw].
    destruct (Flush_spec s d d' HS Ed Hw) as (E1 & E2 & E3 & _).
    rewrite E1 in *. simpl in *. split_and!; [done..|].
    intros k Hk. destruct (E3 k Hk) as [_ ->]. by apply HR.
Qed.
End Simulation.

(** The UTXO store behaves as a finite map from outpoints to entries: from
    any consistent store that stands for a map, any sequence of lookups,
    additions, spends of present outputs and flushes answers what the map
    answers, whatever the cache evicted, and leaves a consistent store that
    stands for the resulting map. *)
Theorem utxo_store_refines_map (D : Type) (LDB : LevelDB D) (s : CUTXOSet D)
    (m m' : gmap COutPoint CUTXOEntry) (ops : list StoreOp) (rs : list StoreResp)
    (HD : writes_succeed (D := D)) (HS : store_ok s) (HR : represents s m)
    (Hops : Forall store_op_ok ops) (Hrun : run_spec m ops = Some (rs, m')) :
  fst (run_store s ops) = rs /\ store_ok (snd (run_store s ops)) /\
  represents (snd (run_store s ops)) m'.
Proof.
  revert s m rs HS HR Hrun. induction Hops as [|op ops Hop _ IH]; intros s m rs HS HR Hrun.
  { simpl in Hrun. by injection Hrun as <- <-. }
  simpl in Hrun. destruct (spec_store m op) as [[r m1]|] eqn:E; [|done].
  destruct (run_spec m1 ops) as [[rs' m2]|] eqn:E2; [|done]. injection Hrun as <- <-.
  destruct (exec_store_simulates s m op r m1 HD HS HR Hop E) as (F1 & F2 & F3). simpl.
  destruct (exec_store s op) as [r' s1]. simpl in *. subst r'.
  specialize (IH s1 m1 rs' F2 F3 E2). destruct (run_store s1 ops) as [rs2 s2].
  simpl in *. destruct IH as (-> & ? & ?). done.
Qed.

(** closing and reopening the store loses nothing: when the disk accepts
    the writes, the database [Close] leaves, opened again, is a consistent
    store that stands for the same map with the same statistics. *)
Theorem close_open_roundtrip (D : Type) (LDB : LevelDB D) (s : CUTXOSet D)
    (m : gmap COutPoint CUTXOEntry)
    (HD : writes_succeed (D := D)) (HS : store_ok s) (HR : represents s m)
    (H1 : 0 <= nUTXOs (stats s) < 2 ^ 64) (H2 : 0 <= nTotalAmount (stats s) < 2 ^ 64)
    (H3 : 0 <= stats_nHeight (stats s) < 2 ^ 32) :
  let '(closed, disk) := Close s in
  let '(ok, s') := Open closed disk in
  ok = true /\ store_ok s' /\ represents s' m /\ stats s' = stats s.
Proof.
  destruct (so_open _ HS) as [d Ed]. unfold Close. rewrite Ed.
  set (d1 := if decide _ then d else _).
  assert (forall k, op_ok k -> db_entry d1 k = view s k) as Hd1.
  { intros k Hk. unfold d1. destruct (decide _) as [[Ha Hx]|_].
    { unfold view. rewrite Ha, Hx, Ed, decide_False by set_solver. by rewrite lookup_empty. }
    destruct (HD d (pending_batch s)) as [d' Hw]. rewrite Hw. cbn [default].
    unfold db_entry. erewrite db_Get_Write by done. by apply pending_batch_get. }
  destruct (HD d1 [Put stats_key (SerializeStats (stats s))]) as [d2 Hw]. rewrite Hw. cbn [default].
  assert (forall key, db_Get d2 key = batch_get [Put stats_key (SerializeStats (stats s))] key (db_Get d1 key))
    as Hd2 by (intros; by apply db_Get_Write).
  unfold Open, IsOpen. cbn [db]. rewrite Hd2. cbn [batch_get]. rewrite decide_True by done.
  destruct (stats_roundtrip (stats s) _ H1 H2 H3 eq_refl) as [L ->]. rewrite L. simpl (20 >=? 20).
  cbn iota. set (s' := set_stats _ _).
  assert (forall k, op_ok k -> view s' k = view s k) as Hv.
  { intros k Hk. unfold view at 1. simpl. rewrite decide_False by set_solver.
    rewrite <- Hd1 by done. unfold db_entry. rewrite Hd2. cbn [batch_get].
    by rewrite decide_False by (intros E; by apply (utxo_key_ne_stats k Hk)). }
  split_and!; [done| |intros k Hk; rewrite Hv by done; by apply HR|done].
  split; simpl; [by eexists|split; [constructor|]| | |].
  - intros k. rewrite lookup_empty. split; [intros Hx; inversion Hx|by intros []].
  - by intros k e.
  - by intros k e.
  - intros k Hk. set_solver.
Qed.

(** ** A store on an empty database *)

Definition empty_store : CUTXOSet (gmap (list Z) (list Z)) :=
  mkUTXOSet (Some ∅) [] ∅ ∅ ∅ (mkStats 0 0 0).

Lemma empty_store_ok : store_ok empty_store.
Proof.
  split; simpl; [by eexists|split; [constructor|]|done..|intros k Hk; set_solver].
  intros k. rewrite lookup_empty. split; [intros Hx; inversion Hx|by intros []].
Qed.

Lemma empty_store_represents : represents empty_store ∅.
Proof. intros k Hk. reflexivity. Qed.

Lemma MemDB_writes_succeed : writes_succeed (D := gmap (list Z) (list Z)).
Proof. intros d ops. by eexists. Qed.

Definition sample_op : COutPoint := mkOutPoint (le_bytes 32 7) 0.
Definition sample_out : CTxOut := mkTxOut 5000 [81].

Lemma sample_op_ok : op_ok sample_op.
Proof.
  split_and!; [split; [apply length_le_bytes|apply le_bytes_ok]|vm_compute; congruence..].
Qed.

Lemma sample_entry_wf : entry_wf (mkEntry sample_out 5 true).
Proof.
  split; [split; [|split]|]; cbn; try lia; [repeat constructor; lia|unfold len; simpl; lia].
Qed.

Definition sample_ops : list StoreOp :=
  [OpAdd sample_op sample_out 5 true; OpGet sample_op; OpFlush; OpSpend sample_op; OpGet sample_op].

Lemma utxo_store_refines_map_witness :
  fst (run_store empty_store sample_ops) =
    [RespBool true; RespEntry (Some (mkEntry sample_out 5 true)); RespBool true; RespBool true;
     RespEntry None].
Proof.
  apply (utxo_store_refines_map _ MemDB empty_store ∅ ∅ sample_ops).
  - exact MemDB_writes_succeed.
  - exact empty_store_ok.
  - exact empty_store_represents.
  - repeat apply Forall_cons_2; try exact sample_op_ok; try apply Forall_nil_2;
      [split; [exact sample_op_ok|exact sample_entry_wf]|exact I].
  - vm_compute. reflexivity.
Defined.

Lemma close_open_roundtrip_witness :
  let '(closed, disk) := Close empty_store in
  let '(ok, s') := Open closed disk in
  ok = true /\ store_ok s' /\ represents s' ∅ /\ stats s' = mkStats 0 0 0.
Proof.
  apply (close_open_roundtrip _ MemDB empty_store ∅).
  - exact MemDB_writes_succeed.
  - exact empty_store_ok.
  - exact empty_store_represents.
  - simpl. lia.
  - simpl. lia.
  - simpl. lia.
Defined.

(** [SpendUTXO] does not look at the pending deletions: spending an output of
    the database twice before the next flush succeeds twice, and takes its
    value off the statistics twice. *)
Example SpendUTXO_twice :
  let s0 := snd (run_store empty_store
    [OpAdd sample_op sample_out 5 true; OpAdd (mkOutPoint (le_bytes 32 8) 0) sample_out 5 true; OpFlush]) in
  let '(b1, s1) := SpendUTXO s0 sample_op in
  let '(b2, s2) := SpendUTXO s1 sample_op in
  (b1, b2, nUTXOs (stats s2), nTotalAmount (stats s2)) = (true, true, 0, 0).
Proof. vm_compute. reflexivity. Qed.
