(* ===== verification/UtxoBlock.v ===== *)
(** * Applying and undoing blocks (node/utxo_set.cpp)

    [ApplyBlock], [UndoBlock] and the undo records they share.  A function that
    returns [false] keeps the changes it had already made to the cache and the
    statistics; the model returns that store too. *)

From S2P Require Import Prelude Uint256 Block Transaction BlockTxs UtxoStore.

(** ** Undo records *)

(** [hash (32) + n (4) + nValue (8) + script length (4) + script + height (4)
    + fCoinBase (1)] *)
Definition undo_record (k : COutPoint) (e : CUTXOEntry) : list Z :=
  op_hash k ++ le_bytes 4 (op_n k) ++ le_bytes 8 (nValue (ue_out e)) ++
  le_bytes 4 (u32 (len (scriptPubKey (ue_out e)))) ++ scriptPubKey (ue_out e) ++
  le_bytes 4 (ue_nHeight e) ++ [if ue_fCoinBase e then 1 else 0].

(** Reading [n] bytes after the check [end - ptr < n]. *)
Definition cut (n : Z) (data : list Z) : option (list Z * list Z) :=
  if len data <? n then None else Some (take (Z.to_nat n) data, drop (Z.to_nat n) data).

Definition read_undo_record (data : list Z) : option (COutPoint * CUTXOEntry * list Z) :=
  match cut (32 + 4) data with
  | None => None
  | Some (op, data) =>
  match cut 8 data with
  | None => None
  | Some (v, data) =>
  match cut 4 data with
  | None => None
  | Some (l, data) =>
  match cut (le_val l) data with
  | None => None
  | Some (script, data) =>
  match cut (4 + 1) data with
  | None => None
  | Some (h, data) =>
      Some (mkOutPoint (take 32 op) (le_val (drop 32 op)),
            mkEntry (mkTxOut (le_val v) script) (le_val (take 4 h)) (negb (byte_at h 4 =? 0)),
            data)
  end end end end end.

Inductive UndoChecksumResult : Set := Valid | SizeInvalid | ChecksumMismatch.

Section Blocks.
  Context {D : Type} `{LDB : LevelDB D}.
  Variable SHA3_256 : list Z -> uint256.
  Variable randomx_hash_fast : list Z -> uint256.
  Implicit Types s : CUTXOSet D.

Definition VerifyUndoChecksum (undoValue : list Z) : UndoChecksumResult :=
  if len undoValue <? 36 then SizeInvalid
  else
    let payloadSize := (length undoValue - 32)%nat in
    if bool_decide (SHA3_256 (take payloadSize undoValue) = drop payloadSize undoValue)
    then Valid else ChecksumMismatch.

(** ** ApplyBlock *)

(** The locals of the transaction loop: the store, the batch, the undo records
    and [spentCount]. *)
Record BlockAcc := mkAcc {
  acc_set : CUTXOSet D;
  acc_batch : list BatchOp;
  acc_undo : list Z;
  acc_spent : Z
}.

(** Step 3a for one input; a missing input returns the store as it is. *)
Definition spend_input (a : BlockAcc) (txin : CTxIn) : result (CUTXOSet D) BlockAcc :=
  match GetUTXO (acc_set a) (prevout txin) with
  | (None, s) => Err s
  | (Some entry, s) =>
      let s := RemoveFromCache s (prevout txin) in
      Ok (mkAcc (set_stats s (stats_sub (stats s) (nValue (ue_out entry))))
            (acc_batch a ++ [Delete (SerializeOutPoint (prevout txin))])
            (acc_undo a ++ undo_record (prevout txin) entry)
            (u32 (acc_spent a + 1)))
  end.

Fixpoint spend_inputs (a : BlockAcc) (ins : list CTxIn) : result (CUTXOSet D) BlockAcc :=
  match ins with
  | [] => Ok a
  | txin :: ins' =>
      match spend_input a txin with
      | Err s => Err s
      | Ok a' => spend_inputs a' ins'
      end
  end.

(** Step 3b: the output of index [n]; the value written is the encoding of
    [SerializeUTXOEntry]. *)
Definition add_output (height : Z) (is_coinbase : bool) (txid : uint256) (a : BlockAcc) (n : Z)
    (txout : CTxOut) : BlockAcc :=
  let outpoint := mkOutPoint txid n in
  let entry := mkEntry txout height is_coinbase in
  let s := UpdateCache (acc_set a) outpoint entry in
  mkAcc (set_stats s (stats_add (stats s) (nValue txout)))
    (acc_batch a ++ [Put (SerializeOutPoint outpoint) (SerializeUTXOEntry entry)])
    (acc_undo a) (acc_spent a).

Fixpoint add_outputs (height : Z) (is_coinbase : bool) (txid : uint256) (a : BlockAcc) (n : Z)
    (outs : list CTxOut) : BlockAcc :=
  match outs with
  | [] => a
  | txout :: outs' =>
      add_outputs height is_coinbase txid (add_output height is_coinbase txid a n txout) (n + 1) outs'
  end.

Fixpoint apply_txs (height : Z) (is_coinbase : bool) (a : BlockAcc) (txs : list CTransaction)
  : result (CUTXOSet D) BlockAcc :=
  match txs with
  | [] => Ok a
  | tx :: txs' =>
      match (if is_coinbase then Ok a else spend_inputs a (vin tx)) with
      | Err s => Err s
      | Ok a' =>
          apply_txs height false
            (add_outputs height is_coinbase (Tx_GetHash SHA3_256 tx) a' 0 (vout tx)) txs'
      end
  end.

Definition set_height s (h : Z) : CUTXOSet D :=
  set_stats s (mkStats (nUTXOs (stats s)) (nTotalAmount (stats s)) h).

(** Writing the batch, then [Flush]. *)
Definition commit_batch s (batch : list BatchOp) : bool * CUTXOSet D :=
  match db s with
  | None => (false, s)
  | Some d =>
      match db_Write d batch with
      | None => (false, s)
      | Some d' => Flush (set_db s (Some d'))
      end
  end.

(** The undo value: [spentCount] over the reserved bytes, the records and the
    SHA3-256 checksum. *)
Definition undo_value (a : BlockAcc) : list Z :=
  let undoData := le_bytes 4 (acc_spent a) ++ drop 4 (acc_undo a) in
  undoData ++ SHA3_256 undoData.

Definition ApplyBlock s (block : CBlock) (height : Z) (blockHash : uint256) : bool * CUTXOSet D :=
  if negb (IsOpen s) then (false, s)
  else
    match DeserializeBlockTransactions (vtx block) with
    | Err _ => (false, s)
    | Ok transactions =>
        if bool_decide (transactions = []) then (false, s)
        else
          match apply_txs height true (mkAcc s [] (replicate 4 0) 0) transactions with
          | Err s' => (false, s')
          | Ok a =>
              commit_batch (set_height (acc_set a) height)
                (acc_batch a ++ [Put (undo_key blockHash) (undo_value a)])
          end
    end.

(** ** UndoBlock *)

(** Step 3a: delete the outputs of one transaction. *)
Fixpoint remove_outputs (txid : uint256) (n : Z) (outs : list CTxOut)
    (sb : CUTXOSet D * list BatchOp) : CUTXOSet D * list BatchOp :=
  match outs with
  | [] => sb
  | txout :: outs' =>
      let outpoint := mkOutPoint txid n in
      let s := RemoveFromCache (fst sb) outpoint in
      remove_outputs txid (n + 1) outs'
        (set_stats s (stats_sub (stats s) (nValue txout)),
         snd sb ++ [Delete (SerializeOutPoint outpoint)])
  end.

(** [for (tx_idx = transactions.size() - 1; tx_idx >= 0; --tx_idx)] *)
Definition remove_all_outputs (txs : list CTransaction) (sb : CUTXOSet D * list BatchOp)
  : CUTXOSet D * list BatchOp :=
  foldl (fun sb tx => remove_outputs (Tx_GetHash SHA3_256 tx) 0 (vout tx) sb) sb (rev txs).

(** Step 3b: restore [spentCount] inputs from the records at [ptr]. *)
Fixpoint restore_inputs (spentCount : nat) (ptr : list Z) (sb : CUTXOSet D * list BatchOp)
  : result (CUTXOSet D) (CUTXOSet D * list BatchOp) :=
  match spentCount with
  | O => Ok sb
  | S n =>
      match read_undo_record ptr with
      | None => Err (fst sb)
      | Some (outpoint, entry, ptr') =>
          let s := UpdateCache (fst sb) outpoint entry in
          restore_inputs n ptr'
            (set_stats s (stats_add (stats s) (nValue (ue_out entry))),
             snd sb ++ [Put (SerializeOutPoint outpoint) (SerializeUTXOEntry entry)])
      end
  end.

Definition dec_height s : CUTXOSet D :=
  if stats_nHeight (stats s) >? 0 then set_height s (stats_nHeight (stats s) - 1) else s.

(** The undo value and the key it was found under: the block index's hash, else
    the hash computed from the block. *)
Definition find_undo (d : D) (block : CBlock) (blockHash : uint256) : option (list Z * list Z) :=
  match db_Get d (undo_key blockHash) with
  | Some v => Some (undo_key blockHash, v)
  | None =>
      let computedHash := fst (GetHash SHA3_256 randomx_hash_fast (block_header block)) in
      if bool_decide (computedHash = blockHash) then None
      else
        match db_Get d (undo_key computedHash) with
        | Some v => Some (undo_key computedHash, v)
        | None => None
        end
  end.

(** The reconstruction for blocks whose only transaction with inputs is the
    coinbase. *)
Definition undo_reconstruct s (block : CBlock) : bool * CUTXOSet D :=
  match DeserializeBlockTransactions (vtx block) with
  | Err _ => (false, s)
  | Ok transactions =>
      if bool_decide (transactions = []) then (false, s)
      else if existsb (fun tx => negb (bool_decide (vin tx = []))) (tail transactions) then (false, s)
      else
        let '(s', batch) := remove_all_outputs transactions (s, []) in
        commit_batch (dec_height s') batch
  end.

Definition UndoBlock s (block : CBlock) (blockHash : uint256) : bool * CUTXOSet D :=
  match db s with
  | None => (false, s)
  | Some d =>
      match find_undo d block blockHash with
      | None => undo_reconstruct s block
      | Some (undoKey, undoValue) =>
          match VerifyUndoChecksum undoValue with
          | SizeInvalid | ChecksumMismatch => (false, s)
          | Valid =>
              let payload := take (length undoValue - 32) undoValue in
              let spentCount := le_val (take 4 payload) in
              match DeserializeBlockTransactions (vtx block) with
              | Err _ => (false, s)
              | Ok transactions =>
                  if bool_decide (transactions = []) then (false, s)
                  else
                    match restore_inputs (Z.to_nat spentCount) (drop 4 payload)
                            (remove_all_outputs transactions (s, [])) with
                    | Err s' => (false, s')
                    | Ok (s', batch) => commit_batch (dec_height s') (batch ++ [Delete undoKey])
                    end
              end
          end
      end
  end.

(** ** Reading and auditing undo data *)

Fixpoint read_undo_records (n : nat) (ptr : list Z)
  : option (list (COutPoint * CUTXOEntry) * list Z) :=
  match n with
  | O => Some ([], ptr)
  | S n' =>
      match read_undo_record ptr with
      | None => None
      | Some (k, e, ptr') =>
          match read_undo_records n' ptr' with
          | None => None
          | Some (l, rest) => Some ((k, e) :: l, rest)
          end
      end
  end.

Definition kMinRecordBytes : Z := 32 + 4 + 8 + 4 + 4 + 1.

Definition ReadUndoBlock s (blockHash : uint256) : option (list (COutPoint * CUTXOEntry)) :=
  match db s with
  | None => None
  | Some d =>
      match db_Get d (undo_key blockHash) with
      | None => None
      | Some undoValue =>
          if len undoValue <? 4 + 32 then None
          else
            let data_size := (length undoValue - 32)%nat in
            if negb (bool_decide (drop data_size undoValue = SHA3_256 (take data_size undoValue)))
            then None
            else
              let payload := take data_size undoValue in
              let spentCount := le_val (take 4 payload) in
              let ptr := drop 4 payload in
              if spentCount * kMinRecordBytes >? len ptr then None
              else
                match read_undo_records (Z.to_nat spentCount) ptr with
                | Some (vSpent, []) => Some vSpent
                | _ => None
                end
      end
  end.

Inductive UndoCause : Set :=
| CauseMissing | CauseSizeInvalid | CauseChecksumMismatch | CauseDbNotOpen | CauseAborted.

Record UndoIntegrityFailure := mkFailure { uf_height : Z; uf_blockHash : uint256; uf_cause : UndoCause }.

Definition FetchAndVerifyUndo (d : D) (blockHash : uint256) (height : Z)
  : result UndoIntegrityFailure unit :=
  match db_Get d (undo_key blockHash) with
  | None => Err (mkFailure height blockHash CauseMissing)
  | Some undoValue =>
      match VerifyUndoChecksum undoValue with
      | Valid => Ok tt
      | SizeInvalid => Err (mkFailure height blockHash CauseSizeInvalid)
      | ChecksumMismatch => Err (mkFailure height blockHash CauseChecksumMismatch)
      end
  end.

(** The walk over a snapshot; [abort i] is what the [i]th load of the abort
    flag returns ([false] when there is no flag). *)
Fixpoint verify_snapshot (d : D) (snapshot : list (Z * uint256)) (abort : nat -> bool)
    (readsSinceCheck loads : nat) : result UndoIntegrityFailure unit :=
  match snapshot with
  | [] => Ok tt
  | (height, h) :: rest =>
      let n := S readsSinceCheck in
      if (10 <=? n)%nat && abort loads then Err (mkFailure (-1) zero256 CauseAborted)
      else
        match FetchAndVerifyUndo d h height with
        | Err e => Err e
        | Ok _ =>
            if (10 <=? n)%nat then verify_snapshot d rest abort 0 (S loads)
            else verify_snapshot d rest abort n loads
        end
  end.

Definition VerifyUndoDataFromSnapshot s (snapshot : list (Z * uint256)) (abort : nat -> bool)
  : result UndoIntegrityFailure unit :=
  match db s with
  | None => Err (mkFailure (-1) zero256 CauseDbNotOpen)
  | Some d => verify_snapshot d snapshot abort 0 0
  end.
End Blocks.

(** ** The ledger specification *)

Abbreviation utxo_map := (gmap COutPoint CUTXOEntry).

Inductive LedgerError : Type := MissingInput (k : COutPoint) | DuplicateOutput (k : COutPoint).

(** Spending removes the output and records it; creating requires that it is
    not there. *)
Fixpoint ledger_inputs (m : utxo_map) (ins : list CTxIn)
  : result LedgerError (utxo_map * list (COutPoint * CUTXOEntry)) :=
  match ins with
  | [] => Ok (m, [])
  | i :: ins' =>
      match m !! prevout i with
      | None => Err (MissingInput (prevout i))
      | Some e =>
          match ledger_inputs (delete (prevout i) m) ins' with
          | Err x => Err x
          | Ok (m', l) => Ok (m', (prevout i, e) :: l)
          end
      end
  end.

Fixpoint ledger_outputs (height : Z) (cb : bool) (txid : uint256) (n : Z) (outs : list CTxOut)
    (m : utxo_map) : result LedgerError utxo_map :=
  match outs with
  | [] => Ok m
  | o :: outs' =>
      match m !! mkOutPoint txid n with
      | Some _ => Err (DuplicateOutput (mkOutPoint txid n))
      | None =>
          ledger_outputs height cb txid (n + 1) outs' (<[mkOutPoint txid n := mkEntry o height cb]> m)
      end
  end.

Section Ledger.
  Variable SHA3_256 : list Z -> uint256.

Fixpoint ledger_txs (height : Z) (cb : bool) (txs : list CTransaction) (m : utxo_map)
  : result LedgerError (utxo_map * list (COutPoint * CUTXOEntry)) :=
  match txs with
  | [] => Ok (m, [])
  | tx :: txs' =>
      match (if cb then Ok (m, []) else ledger_inputs m (vin tx)) with
      | Err x => Err x
      | Ok (m1, l1) =>
          match ledger_outputs height cb (Tx_GetHash SHA3_256 tx) 0 (vout tx) m1 with
          | Err x => Err x
          | Ok m2 =>
              match ledger_txs height false txs' m2 with
              | Err x => Err x
              | Ok (m3, l2) => Ok (m3, l1 ++ l2)
              end
          end
      end
  end.

(** The outpoints the transactions spend and create, and the outputs. *)
Fixpoint block_spends (cb : bool) (txs : list CTransaction) : list COutPoint :=
  match txs with
  | [] => []
  | tx :: txs' => (if cb then [] else prevout <$> vin tx) ++ block_spends false txs'
  end.

Fixpoint out_keys (txid : uint256) (n : Z) (outs : list CTxOut) : list COutPoint :=
  match outs with
  | [] => []
  | _ :: outs' => mkOutPoint txid n :: out_keys txid (n + 1) outs'
  end.

Fixpoint block_creates (txs : list CTransaction) : list COutPoint :=
  match txs with
  | [] => []
  | tx :: txs' => out_keys (Tx_GetHash SHA3_256 tx) 0 (vout tx) ++ block_creates txs'
  end.

Fixpoint block_outs (txs : list CTransaction) : list CTxOut :=
  match txs with
  | [] => []
  | tx :: txs' => vout tx ++ block_outs txs'
  end.
End Ledger.

(** Total value of a ledger. *)
Definition utxo_total (m : utxo_map) : Z :=
  map_fold (fun _ e acc => nValue (ue_out e) + acc) 0 m.

Definition utxo_wf (m : utxo_map) : Prop := map_Forall (fun k e => op_ok k /\ entry_wf e) m.

Lemma utxo_total_insert m k e : m !! k = None ->
  utxo_total (<[k := e]> m) = nValue (ue_out e) + utxo_total m.
Proof. intros H. unfold utxo_total. rewrite map_fold_insert_L; [done| |done]. intros; lia. Qed.

Lemma utxo_total_delete m k e : m !! k = Some e ->
  utxo_total m = nValue (ue_out e) + utxo_total (delete k m).
Proof. intros H. unfold utxo_total. rewrite map_fold_delete_L with (i := k) (x := e); [done| |done]. intros; lia. Qed.

Lemma utxo_total_nonneg m : utxo_wf m -> 0 <= utxo_total m.
Proof.
  unfold utxo_wf. induction m as [|k e m Hk IH] using map_ind; [done|].
  rewrite map_Forall_insert, utxo_total_insert by done. intros [(_ & [Hv _] & _) Hm].
  specialize (IH Hm). lia.
Qed.

(** ** The block loop keeps store and batch in step with the ledger *)

(** The statistics describe the ledger. *)
Definition stats_match (st : CUTXOStats) (m : utxo_map) : Prop :=
  nUTXOs st = Z.of_nat (size m) /\ nTotalAmount st = utxo_total m.

Lemma stats_match_sub st m k e : utxo_wf m -> m !! k = Some e -> stats_match st m ->
  stats_match (stats_sub st (nValue (ue_out e))) (delete k m).
Proof.
  intros Hwf Hk [H1 H2]. pose proof (utxo_total_delete m k e Hk) as HT.
  pose proof (utxo_total_nonneg _ (map_Forall_delete _ m k Hwf)) as Hn.
  assert (size m <> 0)%nat. { intros E. apply map_size_empty_inv in E as ->. by rewrite lookup_empty in Hk. }
  unfold stats_match, stats_sub. cbn [nUTXOs nTotalAmount]. rewrite Z.gtb_ltb, Z.geb_leb.
  rewrite (proj2 (Z.ltb_lt _ _)), (proj2 (Z.leb_le _ _)) by lia.
  rewrite map_size_delete, Hk. cbn. lia.
Qed.

Lemma stats_match_add st m k e : utxo_wf m -> entry_wf e -> m !! k = None ->
  Z.of_nat (size m) + 1 < 2 ^ 64 -> utxo_total m + nValue (ue_out e) < 2 ^ 64 ->
  stats_match st m -> stats_match (stats_add st (nValue (ue_out e))) (<[k := e]> m).
Proof.
  intros Hwf [[Hv _] _] Hk Hs Ht [H1 H2]. pose proof (utxo_total_nonneg m Hwf).
  unfold stats_match, stats_add. cbn [nUTXOs nTotalAmount].
  rewrite map_size_insert_None, utxo_total_insert, !u64_small by (done || lia). lia.
Qed.

Abbreviation records l := (concat ((fun p => undo_record p.1 p.2) <$> l)).

Section Loop.
  Context {D : Type} `{LDB : LevelDB D}.
  Variable SHA3_256 : list Z -> uint256.
  Variable d : D.
  Implicit Types s : CUTXOSet D.
  Implicit Types k : COutPoint.

(** The database with the batch applied. *)
Definition overlay (b : list BatchOp) k : option CUTXOEntry :=
  match batch_get b (SerializeOutPoint k) (db_Get d (SerializeOutPoint k)) with
  | Some v => DeserializeUTXOEntry v
  | None => None
  end.

Record sync s (b : list BatchOp) (m : utxo_map) : Prop := {
  sy_db : db s = Some d;
  sy_add : cache_additions s = ∅;
  sy_del : cache_deletions s = ∅;
  sy_lru : cache_wf (lru_list s) (cache s);
  sy_cache : forall k e, cache s !! k = Some e -> op_ok k /\ m !! k = Some e;
  sy_over : forall k, op_ok k -> overlay b k = m !! k;
  sy_keys : Forall (fun op => exists k, op_ok k /\ op_key op = SerializeOutPoint k) b
}.

Lemma overlay_snoc b op k :
  overlay (b ++ [op]) k =
    match op with
    | Put key v => if decide (key = SerializeOutPoint k) then DeserializeUTXOEntry v else overlay b k
    | Delete key => if decide (key = SerializeOutPoint k) then None else overlay b k
    end.
Proof. unfold overlay. rewrite batch_get_app. destruct op; simpl; by destruct (decide _). Qed.

Lemma sync_del s b m k st : sync s b m -> op_ok k ->
  sync (set_stats (RemoveFromCache s k) st) (b ++ [Delete (SerializeOutPoint k)]) (delete k m).
Proof.
  intros [] Hk. destruct (RemoveFromCache_spec s k sy_lru0) as (l & c & -> & HW & Hc & Ho & _).
  split; try done.
  - simpl. intros x e Hx. assert (x <> k) by congruence. rewrite lookup_delete_ne by done.
    by apply sy_cache0, Ho.
  - intros x Hx. rewrite overlay_snoc. destruct (decide (x = k)) as [->|Hne].
    + by rewrite decide_True, lookup_delete_eq.
    + rewrite lookup_delete_ne, decide_False; [by apply sy_over0| |done].
      intros E. apply Hne. by apply SerializeOutPoint_inj.
  - rewrite Forall_app, Forall_singleton. split; [done|]. by exists k.
Qed.

Lemma sync_put s b m k e st : sync s b m -> op_ok k -> entry_wf e ->
  sync (set_stats (UpdateCache s k e) st)
    (b ++ [Put (SerializeOutPoint k) (SerializeUTXOEntry e)]) (<[k := e]> m).
Proof.
  intros [] Hk He. destruct (UpdateCache_spec s k e sy_lru0) as (l & c & -> & HW & Hc & Ho & _).
  split; try done.
  - simpl. intros x ex Hx. destruct (decide (x = k)) as [->|Hne].
    + rewrite lookup_insert_eq. split; congruence.
    + rewrite lookup_insert_ne by done. by apply sy_cache0, Ho.
  - intros x Hx. rewrite overlay_snoc. destruct (decide (x = k)) as [->|Hne].
    + rewrite decide_True, lookup_insert_eq by done. by apply entry_roundtrip.
    + rewrite lookup_insert_ne, decide_False; [by apply sy_over0| |done].
      intros E. apply Hne. by apply SerializeOutPoint_inj.
  - rewrite Forall_app, Forall_singleton. split; [done|]. by exists k.
Qed.

(** Outputs the database does not have are among the [c] most recent entries of
    the cache, and outputs it has too many are those spent by the block. *)
Record ahead s (m : utxo_map) (c : nat) (Sp : gset COutPoint) : Prop := {
  ah_front : forall k e, op_ok k -> m !! k = Some e -> db_entry d k <> Some e -> k ∈ take c (lru_list s);
  ah_spent : forall k, op_ok k -> m !! k = None -> db_entry d k = None \/ k ∈ Sp
}.

Lemma take_S_mono {A} (x : A) c l : x ∈ take c l -> x ∈ take (S c) l.
Proof. rewrite !elem_of_take. intros (i & ? & ?). exists i. split; [done|lia]. Qed.

(** A lookup during the loop answers from the ledger. *)
Lemma GetUTXO_in_loop s b m c Sp k : sync s b m -> ahead s m c Sp -> op_ok k -> k ∉ Sp ->
  Z.of_nat c < MAX_CACHE_SIZE ->
  fst (GetUTXO s k) = m !! k /\ stats (snd (GetUTXO s k)) = stats s /\
  sync (snd (GetUTXO s k)) b m /\
  forall x, x <> k -> x ∈ take c (lru_list s) -> x ∈ take (S c) (lru_list (snd (GetUTXO s k))).
Proof.
  intros HY HA Hk HS Hc. unfold GetUTXO. rewrite (sy_db _ _ _ HY), (sy_add _ _ _ HY), (sy_del _ _ _ HY).
  rewrite decide_False by set_solver. rewrite lookup_empty. unfold GetFromCache.
  destruct (cache s !! k) as [e|] eqn:Ec.
  { simpl. split_and!; [|done..|intros; by apply take_S_mono].
    symmetry. by apply (sy_cache _ _ _ HY). }
  assert (db_entry d k = m !! k) as ->.
  { destruct (m !! k) as [e|] eqn:Em.
    - destruct (decide (db_entry d k = Some e)) as [|Hne]; [done|].
      pose proof (ah_front _ _ _ _ HA k e Hk Em Hne) as Hf.
      apply list_elem_of_lookup in Hf as (i & Hi). rewrite lookup_take_Some in Hi.
      destruct Hi as [Hi _]. apply list_elem_of_lookup_2 in Hi.
      apply (sy_lru _ _ _ HY) in Hi as [? Hi]. congruence.
    - destruct (ah_spent _ _ _ _ HA k Hk Em) as [|]; done. }
  destruct (m !! k) as [e|] eqn:Em; simpl; [|split_and!; [done..|intros; by apply take_S_mono]].
  destruct (UpdateCache_spec s k e (sy_lru _ _ _ HY)) as (l & c' & -> & HW & Hck & Ho & Hf).
  split_and!; [done..| |].
  - destruct HY. split; try done. intros x ex Hx. simpl in Hx.
    destruct (decide (x = k)) as [->|Hne]; [split; congruence|]. by apply sy_cache0, Ho.
  - intros x Hne Hx. simpl. apply elem_of_cons. right. by apply Hf.
Qed.

(** The loop's invariant after spending [l]. *)
Record blk (a : BlockAcc) (m : utxo_map) (c : nat) (Sp : gset COutPoint)
    (l : list (COutPoint * CUTXOEntry)) : Prop := {
  bk_sync : sync (acc_set a) (acc_batch a) m;
  bk_ahead : ahead (acc_set a) m c Sp;
  bk_wf : utxo_wf m;
  bk_stats : stats_match (stats (acc_set a)) m;
  bk_undo : acc_undo a = replicate 4 0 ++ records l;
  bk_spent : acc_spent a = u32 (len l);
  bk_l : Forall (fun p => op_ok p.1 /\ entry_wf p.2) l
}.

Lemma spend_input_ok a m c Sp l i : blk a m c Sp l -> op_ok (prevout i) -> prevout i ∉ Sp ->
  Z.of_nat c < MAX_CACHE_SIZE ->
  match m !! prevout i with
  | Some e => exists a', spend_input a i = Ok a' /\
      blk a' (delete (prevout i) m) (S c) ({[prevout i]} ∪ Sp) (l ++ [(prevout i, e)])
  | None => exists s', spend_input a i = Err s' /\ db s' = Some d
  end.
Proof.
  intros [HY HA Hwf Hst Hu Hn Hl] Hk HS Hc. set (k := prevout i) in *.
  destruct (GetUTXO_in_loop _ _ _ _ _ _ HY HA Hk HS Hc) as (E1 & E2 & E3 & E4).
  unfold spend_input. fold k. destruct (GetUTXO (acc_set a) k) as [o s1]. simpl in *. subst o.
  destruct (m !! k) as [e|] eqn:Em; [|exists s1; split; [done|apply E3]].
  eexists. split; [done|].
  pose proof (sync_del s1 (acc_batch a) m k
    (stats_sub (stats (RemoveFromCache s1 k)) (nValue (ue_out e))) E3 Hk) as HY'.
  destruct (RemoveFromCache_spec s1 k (sy_lru _ _ _ E3)) as (l' & c' & ER & _ & _ & _ & Hf).
  rewrite ER in *. split; simpl.
  - done.
  - split; simpl.
    + intros x ex Hx Hm Hd. apply lookup_delete_Some in Hm as [Hne Hm].
      apply (Hf (S c) x); [|done]. apply E4; [done|]. by apply (ah_front _ _ _ _ HA x ex).
    + intros x Hx Hm. apply lookup_delete_None in Hm as [<-|Hm]; [right; set_solver|].
      destruct (ah_spent _ _ _ _ HA x Hx Hm); [by left|right; set_solver].
  - by apply map_Forall_delete.
  - simpl. rewrite E2. by apply stats_match_sub.
  - rewrite Hu, fmap_app, concat_app. simpl. by rewrite app_nil_r.
  - rewrite Hn. unfold u32. rewrite Zplus_mod_idemp_l. f_equal. rewrite len_app. unfold len. simpl. lia.
  - rewrite Forall_app, Forall_singleton. split; [done|]. by apply Hwf.
Qed.

Lemma spend_inputs_ok ins : forall a m c Sp l, blk a m c Sp l ->
  Forall op_ok (prevout <$> ins) -> NoDup (prevout <$> ins) ->
  (forall k, k ∈ prevout <$> ins -> k ∉ Sp) ->
  Z.of_nat c + len ins <= MAX_CACHE_SIZE ->
  match ledger_inputs m ins with
  | Ok (m', l') => exists a', spend_inputs a ins = Ok a' /\
      blk a' m' (c + length ins) (list_to_set (prevout <$> ins) ∪ Sp) (l ++ l')
  | Err _ => exists s', spend_inputs a ins = Err s' /\ db s' = Some d
  end.
Proof.
  induction ins as [|i ins IH]; intros a m c Sp l HB HF HN HS Hc.
  { simpl. exists a. split; [done|]. rewrite app_nil_r, Nat.add_0_r, union_empty_l_L. done. }
  rewrite fmap_cons in *. apply Forall_cons in HF as [Hk HF]. apply NoDup_cons in HN as [Hni HN].
  unfold len in Hc. cbn [length] in Hc.
  pose proof (spend_input_ok a m c Sp l i HB Hk (HS _ (list_elem_of_here _ _)) ltac:(lia)) as HI.
  simpl. destruct (m !! prevout i) as [e|] eqn:Em.
  - destruct HI as (a1 & -> & HB1).
    specialize (IH a1 _ _ _ _ HB1 HF HN).
    destruct (ledger_inputs (delete (prevout i) m) ins) as [[m' l']|x].
    + destruct IH as (a2 & E & HB2).
      * intros k Hk'. specialize (HS k (list_elem_of_further _ _ _ Hk')). set_solver.
      * unfold len. lia.
      * exists a2. split; [done|]. rewrite Nat.add_succ_r. simpl in HB2.
        replace (l ++ (prevout i, e) :: l') with ((l ++ [(prevout i, e)]) ++ l') by by rewrite <- app_assoc.
        replace ({[prevout i]} ∪ list_to_set (prevout <$> ins) ∪ Sp : gset COutPoint)
          with (list_to_set (prevout <$> ins) ∪ ({[prevout i]} ∪ Sp) : gset COutPoint) by set_solver.
        done.
    + apply IH; [|unfold len; lia].
      intros k Hk'. specialize (HS k (list_elem_of_further _ _ _ Hk')). set_solver.
  - destruct HI as (s' & -> & ?). eauto.
Qed.

Lemma value_sum_app a b : value_sum (a ++ b) = value_sum a + value_sum b.
Proof. unfold value_sum. rewrite fmap_app. induction (nValue <$> a) as [|x l IH]; simpl; lia. Qed.

Lemma outs_value_nonneg outs : Forall txout_wf outs -> 0 <= value_sum outs.
Proof.
  intros HW. induction HW as [|x outs [Hx _] _ IHo]; [done|].
  change (value_sum (x :: outs)) with (nValue x + value_sum outs). lia.
Qed.

Lemma add_output_ok a m c Sp l h cb txid n o : blk a m c Sp l ->
  op_ok (mkOutPoint txid n) -> entry_wf (mkEntry o h cb) -> m !! mkOutPoint txid n = None ->
  Z.of_nat c < MAX_CACHE_SIZE -> Z.of_nat (size m) + 1 < 2 ^ 64 -> utxo_total m + nValue o < 2 ^ 64 ->
  blk (add_output h cb txid a n o) (<[mkOutPoint txid n := mkEntry o h cb]> m) (S c) Sp l.
Proof.
  intros [HY HA Hwf Hst Hu Hn Hsp] Hk He Hm Hc Hs Ht. unfold add_output.
  set (k := mkOutPoint txid n) in *. set (e := mkEntry o h cb) in *.
  pose proof (sync_put (acc_set a) (acc_batch a) m k e
    (stats_add (stats (UpdateCache (acc_set a) k e)) (nValue o)) HY Hk He) as HY'.
  destruct (UpdateCache_spec (acc_set a) k e (sy_lru _ _ _ HY)) as (l' & c' & EU & _ & _ & _ & Hf).
  rewrite EU in *. split; simpl; [done| | | |done..].
  - split; simpl.
    + intros x ex Hx Hl Hd. apply elem_of_cons.
      apply lookup_insert_Some in Hl as [[-> _]|[Hne Hl]]; [by left|right].
      apply Hf; [by apply (ah_front _ _ _ _ HA x ex)|done..].
    + intros x Hx [Hl Hne]%lookup_insert_None. by apply (ah_spent _ _ _ _ HA).
  - by apply map_Forall_insert_2.
  - by apply (stats_match_add _ m k e).
Qed.

Lemma add_outputs_ok h cb txid outs : forall a m c Sp l n, blk a m c Sp l ->
  Forall op_ok (out_keys txid n outs) -> Forall txout_wf outs -> 0 <= h < 2 ^ 32 ->
  Z.of_nat c + len outs <= MAX_CACHE_SIZE ->
  Z.of_nat (size m) + len outs < 2 ^ 64 -> utxo_total m + value_sum outs < 2 ^ 64 ->
  match ledger_outputs h cb txid n outs m with
  | Ok m' => blk (add_outputs h cb txid a n outs) m' (c + length outs) Sp l /\
      size m' = (size m + length outs)%nat /\ utxo_total m' = utxo_total m + value_sum outs
  | Err (DuplicateOutput _) => True
  | Err (MissingInput _) => False
  end.
Proof.
  induction outs as [|o outs IH]; intros a m c Sp l n HB HF HW Hh Hc Hs Ht.
  { cbn. rewrite !Nat.add_0_r, Z.add_0_r. done. }
  apply Forall_cons in HF as [Hk HF]. apply Forall_cons in HW as [Ho HW].
  change (value_sum (o :: outs)) with (nValue o + value_sum outs) in *.
  pose proof (outs_value_nonneg outs HW) as Hv.
  unfold len in *. cbn [length] in *. simpl.
  destruct (m !! mkOutPoint txid n) eqn:Em; [done|].
  pose proof (utxo_total_insert m (mkOutPoint txid n) (mkEntry o h cb) Em) as HT. cbn in HT.
  pose proof (map_size_insert_None (mkOutPoint txid n) (mkEntry o h cb) m Em) as HZ.
  assert (blk (add_output h cb txid a n o) (<[mkOutPoint txid n := mkEntry o h cb]> m) (S c) Sp l) as HB1.
  { apply add_output_ok; [done|done|by split|done|lia..]. }
  specialize (IH _ _ _ _ _ _ HB1 HF HW Hh). rewrite HT, HZ in IH.
  specialize (IH ltac:(lia) ltac:(lia) ltac:(lia)).
  destruct (ledger_outputs _ _ _ _ _ _) as [m'|[|]]; [|done..].
  destruct IH as (H1 & H2 & H3). rewrite Nat.add_succ_r. split_and!; [done|lia..].
Qed.

(** The side conditions on a block's transactions. *)
Record txs_fit (cb : bool) (txs : list CTransaction) (m : utxo_map) (c : nat) (Sp : gset COutPoint)
  : Prop := {
  tf_in : Forall op_ok (block_spends cb txs);
  tf_nodup : NoDup (block_spends cb txs);
  tf_fresh : forall k, k ∈ block_spends cb txs -> k ∉ Sp;
  tf_out : Forall op_ok (block_creates SHA3_256 txs);
  tf_outwf : Forall txout_wf (block_outs txs);
  tf_cache : Z.of_nat c + len (block_spends cb txs) + len (block_outs txs) <= MAX_CACHE_SIZE;
  tf_size : Z.of_nat (size m) + len (block_outs txs) < 2 ^ 64;
  tf_total : utxo_total m + value_sum (block_outs txs) < 2 ^ 64
}.

(** Spending only shrinks the ledger. *)
Lemma ledger_inputs_shrink ins : forall m m' l, utxo_wf m -> ledger_inputs m ins = Ok (m', l) ->
  (size m' <= size m)%nat /\ utxo_total m' <= utxo_total m.
Proof.
  induction ins as [|i ins IH]; intros m m' l Hwf; simpl; [by intros [= <- <-]|].
  destruct (m !! prevout i) as [e|] eqn:Em; [|done].
  destruct (ledger_inputs _ ins) as [[m1 l1]|] eqn:E; [|done]. intros [= <- <-].
  apply IH in E as [H1 H2]; [|by apply map_Forall_delete].
  rewrite map_size_delete, Em in H1. cbn in H1.
  pose proof (utxo_total_delete m _ _ Em). destruct (Hwf _ _ Em) as (_ & [Hv _] & _). lia.
Qed.

Lemma txs_fit_step cb tx txs m m1 m2 c Sp :
  txs_fit cb (tx :: txs) m c Sp ->
  (size m1 <= size m)%nat -> utxo_total m1 <= utxo_total m ->
  size m2 = (size m1 + length (vout tx))%nat -> utxo_total m2 = utxo_total m1 + value_sum (vout tx) ->
  let ins := if cb then [] else prevout <$> vin tx in
  txs_fit false txs m2 (c + length ins + length (vout tx)) (list_to_set ins ∪ Sp).
Proof.
  intros [] H1 H2 H3 H4. cbn [block_spends block_creates block_outs] in *.
  set (ins := if cb then [] else prevout <$> vin tx) in *.
  apply Forall_app in tf_in0 as [_ ?]. apply Forall_app in tf_out0 as [_ ?].
  apply Forall_app in tf_outwf0 as [_ ?]. apply NoDup_app in tf_nodup0 as (_ & Hd & ?).
  rewrite value_sum_app in tf_total0. rewrite !len_app in tf_cache0. rewrite len_app in tf_size0.
  unfold len in *.
  cbn zeta. split; [done|done| |done|done|unfold len; lia..|lia].
  intros k Hk Hin. apply elem_of_union in Hin as [Hin|Hin].
  - apply elem_of_list_to_set in Hin. by apply (Hd k).
  - apply (tf_fresh0 k); [|done]. apply elem_of_app. by right.
Qed.

Lemma apply_txs_ok h txs : 0 <= h < 2 ^ 32 -> forall cb a m c Sp l,
  blk a m c Sp l -> txs_fit cb txs m c Sp ->
  match ledger_txs SHA3_256 h cb txs m with
  | Ok (m', l') => exists a' c' Sp', apply_txs SHA3_256 h cb a txs = Ok a' /\ blk a' m' c' Sp' (l ++ l')
  | Err (MissingInput _) => exists s', apply_txs SHA3_256 h cb a txs = Err s' /\ db s' = Some d
  | Err (DuplicateOutput _) => True
  end.
Proof.
  intros Hh. induction txs as [|tx txs IH]; intros cb a m c Sp l HB HT.
  { simpl. exists a, c, Sp. by rewrite app_nil_r. }
  pose proof HT as [T1 T2 T3 T4 T5 T6 T7 T8]. cbn [block_spends block_creates block_outs] in *.
  set (ins := if cb then [] else prevout <$> vin tx) in *.
  apply Forall_app in T1 as [T1 _]. apply NoDup_app in T2 as (T2 & _ & _).
  apply Forall_app in T4 as [T4 _]. apply Forall_app in T5 as [T5 T5'].
  pose proof (outs_value_nonneg _ T5'). rewrite value_sum_app in T8.
  rewrite !len_app in T6. rewrite len_app in T7.
  pose proof (len_nonneg (block_spends false txs)). pose proof (len_nonneg (block_outs txs)).
  assert (match (if cb then Ok (m, []) else ledger_inputs m (vin tx)) with
    | Ok (m1, l1) => exists a1, (if cb then Ok a else spend_inputs a (vin tx)) = Ok a1 /\
        blk a1 m1 (c + length ins) (list_to_set ins ∪ Sp) (l ++ l1) /\
        (size m1 <= size m)%nat /\ utxo_total m1 <= utxo_total m
    | Err (MissingInput _) => exists s', (if cb then Ok a else spend_inputs a (vin tx)) = Err s' /\
        db s' = Some d
    | Err _ => True
    end) as HI.
  { destruct cb; simpl in ins.
    - exists a. split; [done|]. simpl. rewrite Nat.add_0_r, app_nil_r, union_empty_l_L. done.
    - pose proof (spend_inputs_ok (vin tx) a m c Sp l HB T1 T2) as HI.
      destruct (ledger_inputs m (vin tx)) as [[m1 l1]|x] eqn:E.
      + destruct HI as (a1 & E1 & HB1).
        * intros k Hk. apply T3, elem_of_app. by left.
        * unfold ins, len in *. rewrite length_fmap in T6. lia.
        * exists a1. split; [done|]. unfold ins. rewrite length_fmap. split; [done|].
          eapply ledger_inputs_shrink; [|done]. apply HB.
      + destruct x as [k0|]; [|done]. apply HI.
        * intros k Hk. apply T3, elem_of_app. by left.
        * unfold ins, len in *. rewrite length_fmap in T6. lia. }
  cbn [ledger_txs apply_txs].
  destruct (if cb then Ok (m, []) else ledger_inputs m (vin tx)) as [[m1 l1]|[k|k]] eqn:EI;
    [|destruct HI as (s' & -> & ?); eauto|done].
  destruct HI as (a1 & -> & HB1 & S1 & S2).
  pose proof (add_outputs_ok h cb (Tx_GetHash SHA3_256 tx) (vout tx) a1 m1 _ _ _ 0 HB1 T4 T5 Hh) as HO.
  specialize (HO ltac:(unfold len in *; lia) ltac:(unfold len in *; lia) ltac:(lia)).
  destruct (ledger_outputs _ _ _ _ _ m1) as [m2|[k|k]]; [|done..].
  destruct HO as (HB2 & E1 & E2).
  pose proof (txs_fit_step _ _ _ _ _ _ _ _ HT S1 S2 E1 E2) as HT2. cbn zeta in HT2. fold ins in HT2.
  specialize (IH false _ _ _ _ _ HB2 HT2).
  destruct (ledger_txs SHA3_256 h false txs m2) as [[m3 l2]|[k|k]]; [|done..].
  destruct IH as (a' & c' & Sp' & E & HB3). exists a', c', Sp'. by rewrite <- app_assoc in HB3.
Qed.

(** *** Committing *)

Definition flushed s : Prop := cache_additions s = ∅ /\ cache_deletions s = ∅.

Lemma commit_ok s b m extra : writes_succeed (D := D) -> sync s b m ->
  Forall (fun op => exists h, op_key op = undo_key h) extra ->
  exists s' d', commit_batch s (b ++ extra) = (true, s') /\ store_ok s' /\ flushed s' /\
    represents s' m /\ stats s' = stats s /\ db s' = Some d' /\
    forall h, length h = 32%nat ->
      db_Get d' (undo_key h) = batch_get extra (undo_key h) (db_Get d (undo_key h)).
Proof.
  intros HD HY HE. unfold commit_batch. rewrite (sy_db _ _ _ HY).
  destruct (HD d (b ++ extra)) as [d1 Hw]. rewrite Hw. set (s1 := set_db s (Some d1)).
  assert (forall k, op_ok k -> view s1 k = m !! k) as Hv.
  { intros k Hk. unfold view, s1. simpl. rewrite (sy_add _ _ _ HY), (sy_del _ _ _ HY).
    rewrite decide_False by set_solver. rewrite lookup_empty, <- (sy_over _ _ _ HY k Hk).
    unfold db_entry, overlay. erewrite db_Get_Write by done. rewrite batch_get_app.
    rewrite (batch_get_other extra); [done|]. eapply Forall_impl; [exact HE|].
    intros op (h & ->) E. by apply (utxo_key_ne_undo k h Hk). }
  assert (store_ok s1) as HS1.
  { split; [by eexists|apply HY| | |]; simpl.
    - intros k e Hk. apply (sy_cache _ _ _ HY) in Hk as [Hk Hm]. by rewrite Hv.
    - intros k e. rewrite (sy_add _ _ _ HY). by rewrite lookup_empty.
    - intros k. rewrite (sy_del _ _ _ HY). set_solver. }
  destruct (HD d1 (pending_batch s1 ++ [Put stats_key (SerializeStats (stats s1))])) as [d2 Hw2].
  destruct (Flush_spec s1 d1 d2 HS1 eq_refl Hw2) as (E1 & E2 & E3 & E4 & _).
  rewrite E1 in *. simpl in E2, E3. eexists _, d2. split_and!; [done..| |done|done|].
  - intros k Hk. rewrite <- Hv by done. by apply E3.
  - intros h Hh. rewrite E4 by done. erewrite db_Get_Write by done. rewrite batch_get_app. f_equal.
    apply batch_get_other. eapply Forall_impl; [exact (sy_keys _ _ _ HY)|].
    intros op (k & Hk & ->). by apply utxo_key_ne_undo.
Qed.
End Loop.

(** *** Undo records *)

Lemma cut_app n a b : n = len a -> cut n (a ++ b) = Some (a, b).
Proof.
  intros ->. unfold cut. rewrite len_app. pose proof (len_nonneg b).
  rewrite (proj2 (Z.ltb_ge _ _)) by lia. unfold len. rewrite Nat2Z.id.
  by rewrite take_app_length, drop_app_length.
Qed.

Lemma read_undo_record_ok k e rest : op_ok k -> entry_wf e ->
  read_undo_record (undo_record k e ++ rest) = Some (k, e, rest).
Proof.
  destruct k as [h n], e as [[v sc] ht cb]. intros ([Lh _] & Hn & _) ((Hv & _ & Hs) & Ht).
  cbn [op_hash op_n ue_out nValue scriptPubKey ue_nHeight] in *.
  unfold undo_record. cbn [op_hash op_n ue_out nValue scriptPubKey ue_nHeight ue_fCoinBase].
  pose proof (len_nonneg sc). rewrite u32_small by lia.
  rewrite (app_assoc h), <- !app_assoc, (app_assoc h). unfold read_undo_record.
  rewrite cut_app by (unfold len; rewrite length_app, length_le_bytes; lia).
  rewrite cut_app by (unfold len; by rewrite length_le_bytes).
  rewrite cut_app by (unfold len; by rewrite length_le_bytes).
  rewrite le_val_le_bytes, Z.mod_small by (simpl; lia). rewrite cut_app by done.
  rewrite (app_assoc (le_bytes 4 ht)).
  rewrite cut_app by (unfold len; by rewrite length_app, length_le_bytes).
  rewrite take_app_le, take_ge, drop_app_length' by lia.
  rewrite take_app_le, take_ge by (by rewrite length_le_bytes).
  rewrite !le_val_le_bytes, !Z.mod_small by (simpl; lia).
  unfold byte_at. rewrite app_nth2, length_le_bytes by (rewrite length_le_bytes; lia).
  by destruct cb.
Qed.

Lemma read_undo_records_ok l : forall rest, Forall (fun p => op_ok p.1 /\ entry_wf p.2) l ->
  read_undo_records (length l) (records l ++ rest) = Some (l, rest).
Proof.
  induction l as [|[k e] l IH]; intros rest HF; [done|]. apply Forall_cons in HF as [[Hk He] HF].
  rewrite fmap_cons. cbn [length read_undo_records concat fst snd]. rewrite <- app_assoc.
  by rewrite read_undo_record_ok, IH.
Qed.

Lemma records_len l : Forall (fun p => op_ok p.1 /\ entry_wf p.2) l ->
  len l * kMinRecordBytes <= len (records l).
Proof.
  intros HF. induction HF as [|[k e] l [([Lh _] & _) _] _ IH]; [done|].
  rewrite fmap_cons. cbn [concat fst snd]. rewrite len_app. set (R := records l) in *.
  unfold undo_record. rewrite !len_app. unfold len in *. rewrite !length_le_bytes. cbn [length fst] in *. unfold kMinRecordBytes in *. lia.
Qed.

Lemma ledger_inputs_keys ins : forall m m' l, ledger_inputs m ins = Ok (m', l) -> l.*1 = prevout <$> ins.
Proof.
  induction ins as [|i ins IH]; intros m m' l; simpl; [by intros [= <- <-]|].
  destruct (m !! prevout i) as [e|]; [|done].
  destruct (ledger_inputs _ ins) as [[m1 l1]|] eqn:E; [|done]. intros [= <- <-]. simpl.
  f_equal. by eapply IH.
Qed.

Lemma ledger_txs_keys SHA3_256 h txs : forall cb m m' l,
  ledger_txs SHA3_256 h cb txs m = Ok (m', l) -> l.*1 = block_spends cb txs.
Proof.
  induction txs as [|tx txs IH]; intros cb m m' l; simpl; [by intros [= <- <-]|].
  destruct (if cb then _ else _) as [[m1 l1]|] eqn:E1; [|done].
  destruct (ledger_outputs _ _ _ _ _ _) as [m2|]; [|done].
  destruct (ledger_txs _ _ _ txs m2) as [[m3 l2]|] eqn:E3; [|done]. intros [= <- <-].
  rewrite fmap_app. f_equal; [|by eapply IH].
  destruct cb; [by injection E1 as <- <-|by eapply ledger_inputs_keys].
Qed.

(** The store before and after a block. *)
Record ledger_state {D} `{LDB : LevelDB D} (s : CUTXOSet D) (m : utxo_map) : Prop := {
  ls_ok : store_ok s;
  ls_flushed : flushed s;
  ls_map : represents s m;
  ls_wf : utxo_wf m;
  ls_stats : stats_match (stats s) m
}.

Section Theorems.
  Context {D : Type} `{LDB : LevelDB D}.
  Implicit Types s : CUTXOSet D.

Lemma ledger_state_blk s m d : ledger_state s m -> db s = Some d ->
  blk d (mkAcc s [] (replicate 4 0) 0) m 0 ∅ [].
Proof.
  intros [HS [Fa Fd] HR Hwf Hst] Ed.
  assert (forall k, op_ok k -> db_entry d k = m !! k) as Hv.
  { intros k Hk. rewrite <- HR by done. unfold view. rewrite Fa, Fd, Ed.
    by rewrite decide_False by set_solver. }
  split; simpl; [| |done..|by constructor].
  - split; simpl; [done..|apply HS| | |constructor].
    + intros k e Hk. apply (so_cache _ HS) in Hk as [Hk Hx]. by rewrite <- HR.
    + intros k Hk. by apply Hv.
  - split; simpl.
    + intros k e Hk Hm Hd. by rewrite Hv in Hd.
    + intros k Hk Hm. left. by rewrite Hv.
Qed.

  Variable SHA3_256 : list Z -> uint256.
  Hypothesis SHA3_len : forall l, length (SHA3_256 l) = 32%nat.

(** What [ApplyBlock] stores for the block. *)
Lemma undo_value_ok d a m c Sp l : blk d a m c Sp l -> len l < 2 ^ 32 ->
  undo_value SHA3_256 a =
    (le_bytes 4 (len l) ++ records l) ++ SHA3_256 (le_bytes 4 (len l) ++ records l).
Proof.
  intros [] Hl. unfold undo_value. rewrite bk_undo0, bk_spent0. pose proof (len_nonneg l).
  rewrite u32_small by lia. by rewrite drop_app_length'.
Qed.

Lemma undo_value_framing p : (4 <= length p)%nat ->
  VerifyUndoChecksum SHA3_256 (p ++ SHA3_256 p) = Valid /\
  take (length (p ++ SHA3_256 p) - 32) (p ++ SHA3_256 p) = p /\
  drop (length (p ++ SHA3_256 p) - 32) (p ++ SHA3_256 p) = SHA3_256 p.
Proof.
  intros Hp. assert (length (p ++ SHA3_256 p) - 32 = length p)%nat as EL.
  { rewrite length_app, SHA3_len. lia. }
  unfold VerifyUndoChecksum. rewrite EL, take_app_length, drop_app_length.
  split_and!; [|done..]. rewrite (proj2 (Z.ltb_ge _ _)).
  - by rewrite bool_decide_true.
  - unfold len. rewrite length_app, SHA3_len. lia.
Qed.

Lemma ReadUndoBlock_ok s d h l : db s = Some d ->
  Forall (fun p => op_ok p.1 /\ entry_wf p.2) l -> len l < 2 ^ 32 ->
  let p := le_bytes 4 (len l) ++ records l in
  db_Get d (undo_key h) = Some (p ++ SHA3_256 p) -> ReadUndoBlock SHA3_256 s h = Some l.
Proof.
  intros Ed HF Hl p Hg. pose proof (len_nonneg l).
  assert (4 <= length p)%nat as Hp by (unfold p; rewrite length_app, length_le_bytes; lia).
  destruct (undo_value_framing p Hp) as (_ & E1 & E2).
  unfold ReadUndoBlock. rewrite Ed, Hg, E1, E2.
  rewrite (proj2 (Z.ltb_ge _ _)) by (unfold len; rewrite length_app, SHA3_len; lia).
  rewrite bool_decide_true by done. cbn [negb]. unfold p.
  rewrite take_app_length', drop_app_length' by (by rewrite length_le_bytes).
  rewrite le_val_le_bytes, Z.mod_small by (simpl; lia).
  rewrite Z.gtb_ltb, (proj2 (Z.ltb_ge _ _)) by (by apply records_len).
  unfold len. rewrite Nat2Z.id. rewrite <- (app_nil_r (records l)).
  by rewrite read_undo_records_ok.
Qed.

(** [ApplyBlock] when the ledger accepts the block. *)
Lemma ApplyBlock_ok s m block txs height blockHash m' spent :
  writes_succeed (D := D) -> ledger_state s m ->
  DeserializeBlockTransactions (vtx block) = Ok txs -> txs <> [] ->
  txs_fit SHA3_256 true txs m 0 ∅ -> 0 <= height < 2 ^ 32 -> length blockHash = 32%nat ->
  ledger_txs SHA3_256 height true txs m = Ok (m', spent) ->
  let p := le_bytes 4 (len spent) ++ records spent in
  exists s' d', ApplyBlock SHA3_256 s block height blockHash = (true, s') /\
    ledger_state s' m' /\ stats_nHeight (stats s') = height /\ db s' = Some d' /\
    db_Get d' (undo_key blockHash) = Some (p ++ SHA3_256 p) /\
    Forall (fun p => op_ok p.1 /\ entry_wf p.2) spent /\ len spent < 2 ^ 32 /\
    forall h, length h = 32%nat -> h <> blockHash -> db_Get d' (undo_key h) = (d ← db s; db_Get d (undo_key h)).
Proof.
  intros HD HS Htx Hne Hfit Hh Hb EL p.
  destruct (so_open _ (ls_ok _ _ HS)) as [d Ed]. unfold ApplyBlock, IsOpen. rewrite Ed, Htx.
  cbn [negb]. rewrite bool_decide_false by done.
  pose proof (apply_txs_ok SHA3_256 d height txs Hh true _ _ _ _ _
    (ledger_state_blk s m d HS Ed) Hfit) as HA. rewrite EL in HA.
  destruct HA as (a & c & Sp & -> & HB). simpl in HB.
  assert (len spent < 2 ^ 32) as Hl.
  { pose proof (tf_cache _ _ _ _ _ _ Hfit) as Hc. rewrite <- (ledger_txs_keys _ _ _ _ _ _ _ EL) in Hc.
    unfold len in *. rewrite length_fmap in Hc. unfold MAX_CACHE_SIZE in Hc. lia. }
  assert (sync d (set_height (acc_set a) height) (acc_batch a) m') as HY.
  { destruct HB as [[] _ _ _ _ _ _]; by split. }
  destruct (commit_ok d _ _ _ [Put (undo_key blockHash) (undo_value SHA3_256 a)] HD HY)
    as (s' & d' & E1 & E2 & E3 & E4 & E5 & E6 & E7).
  { apply Forall_singleton. by exists blockHash. }
  exists s', d'. split_and!; [done| |by rewrite E5|done| |by destruct HB|done|].
  - split; [done..|by destruct HB|]. rewrite E5. by destruct HB.
  - rewrite E7 by done. cbn [batch_get]. rewrite decide_True by done. f_equal.
    by eapply undo_value_ok.
  - intros h Hl' Hne'. rewrite E7 by done. cbn [batch_get mbind option_bind].
    rewrite decide_False; [done|]. intros E. by apply app_inj_1 in E as [_ ->].
Qed.

Lemma ApplyBlock_missing s m block txs height blockHash k :
  ledger_state s m -> DeserializeBlockTransactions (vtx block) = Ok txs -> txs <> [] ->
  txs_fit SHA3_256 true txs m 0 ∅ -> 0 <= height < 2 ^ 32 ->
  ledger_txs SHA3_256 height true txs m = Err (MissingInput k) ->
  exists s', ApplyBlock SHA3_256 s block height blockHash = (false, s') /\ db s' = db s.
Proof.
  intros HS Htx Hne Hfit Hh EL. destruct (so_open _ (ls_ok _ _ HS)) as [d Ed].
  unfold ApplyBlock, IsOpen. rewrite Ed, Htx. cbn [negb]. rewrite bool_decide_false by done.
  pose proof (apply_txs_ok SHA3_256 d height txs Hh true _ _ _ _ _
    (ledger_state_blk s m d HS Ed) Hfit) as HA. rewrite EL in HA.
  destruct HA as (s' & -> & ?). eauto.
Qed.
End Theorems.

(** C17: applying a block implements the ledger, for blocks without repeated inputs. The store stands for a ledger
    with matching statistics and its database accepts every write; the block decodes to a non-empty list of
    transactions whose inputs, over the whole block, are distinct (otherwise see [ApplyBlock_accepts_double_spend]),
    with well-formed outpoints and outputs, which fit the cache and keep the ledger's size and value below 2^64. When
    the ledger allows the block (every input present, no output existing already), [ApplyBlock] succeeds and leaves a
    flushed store that stands for the new ledger, with matching statistics, the new height and undo data listing
    exactly the spent outputs; when an input is missing it fails and leaves the database untouched; of a block that
    creates an existing output nothing is said. *)
Theorem ApplyBlock_refines_ledger (D : Type) (LDB : LevelDB D) (SHA3_256 : list Z -> uint256)
    (SHA3_len : forall l, length (SHA3_256 l) = 32%nat)
    (s : CUTXOSet D) (m : utxo_map) (block : CBlock) (txs : list CTransaction)
    (height : Z) (blockHash : uint256)
    (HD : writes_succeed (D := D)) (HS : ledger_state s m)
    (Htx : DeserializeBlockTransactions (vtx block) = Ok txs) (Hne : txs <> [])
    (Hfit : txs_fit SHA3_256 true txs m 0 ∅)
    (Hh : 0 <= height < 2 ^ 32) (Hb : length blockHash = 32%nat) :
  match ledger_txs SHA3_256 height true txs m with
  | Ok (m', spent) => exists s', ApplyBlock SHA3_256 s block height blockHash = (true, s') /\
      ledger_state s' m' /\ stats_nHeight (stats s') = height /\
      ReadUndoBlock SHA3_256 s' blockHash = Some spent
  | Err (MissingInput _) => exists s', ApplyBlock SHA3_256 s block height blockHash = (false, s') /\
      db s' = db s
  | Err (DuplicateOutput _) => True
  end.
Proof.
  destruct (ledger_txs SHA3_256 height true txs m) as [[m' spent]|[k|k]] eqn:EL; [| |done].
  - destruct (ApplyBlock_ok SHA3_256 s m block txs height blockHash m' spent HD HS Htx Hne Hfit Hh Hb EL)
      as (s' & d' & E1 & E2 & E3 & E4 & E5 & E6 & E7 & _).
    exists s'. split_and!; [done..|]. by apply (ReadUndoBlock_ok SHA3_256 SHA3_len s' d').
  - by eapply ApplyBlock_missing.
Qed.

(** ** Undoing a block *)

Fixpoint out_pairs (txid : uint256) (n : Z) (outs : list CTxOut) : list (COutPoint * CTxOut) :=
  match outs with
  | [] => []
  | o :: outs' => (mkOutPoint txid n, o) :: out_pairs txid (n + 1) outs'
  end.

Lemma out_pairs_keys txid outs : forall n, (out_pairs txid n outs).*1 = out_keys txid n outs.
Proof. induction outs as [|o outs IH]; intros n; [done|]. simpl. by rewrite IH. Qed.

(** *** What an accepted block does to the ledger *)

Lemma ledger_inputs_spec ins : forall m m' l, ledger_inputs m ins = Ok (m', l) ->
  (forall x, m' !! x = if decide (x ∈ prevout <$> ins) then None else m !! x) /\
  (forall k e, (k, e) ∈ l -> m !! k = Some e).
Proof.
  induction ins as [|i ins IH]; intros m m' l; cbn [ledger_inputs fmap list_fmap].
  { intros [= <- <-]. split; [|by intros k e Hk; inversion Hk].
    intros x. rewrite decide_False; [done|apply not_elem_of_nil]. }
  destruct (m !! prevout i) as [e|] eqn:Em; [|done].
  destruct (ledger_inputs _ ins) as [[m1 l1]|] eqn:E; [|done]. intros [= <- <-].
  apply IH in E as [H1 H2]. split.
  - intros x. rewrite H1. destruct (decide (x = prevout i)) as [->|Hne].
    + rewrite (decide_True (P := _ ∈ _ :: _)) by left. rewrite lookup_delete_eq. by destruct (decide _).
    + rewrite lookup_delete_ne by done. apply decide_ext. rewrite elem_of_cons. intuition congruence.
  - intros k e' [[= -> ->]|Hk]%elem_of_cons; [done|]. by apply H2, lookup_delete_Some in Hk as [_ ?].
Qed.

Lemma ledger_outputs_spec h cb txid outs : forall n m m',
  ledger_outputs h cb txid n outs m = Ok m' ->
  NoDup (out_keys txid n outs) /\
  (forall k, k ∈ out_keys txid n outs -> m !! k = None) /\
  (forall k o, (k, o) ∈ out_pairs txid n outs -> m' !! k = Some (mkEntry o h cb)) /\
  (forall k, k ∉ out_keys txid n outs -> m' !! k = m !! k).
Proof.
  induction outs as [|o outs IH]; intros n m m'; simpl.
  { intros [= <-]. split_and!; [constructor|intros k Hk; inversion Hk|intros k o Hk; inversion Hk|done]. }
  destruct (m !! mkOutPoint txid n) as [|] eqn:Em; [done|]. intros H.
  apply IH in H as (H1 & H2 & H3 & H4).
  assert (mkOutPoint txid n ∉ out_keys txid (n + 1) outs) as Hni.
  { intros Hx. apply H2 in Hx. by rewrite lookup_insert_eq in Hx. }
  split_and!.
  - by constructor.
  - intros k [->|Hk]%elem_of_cons; [done|]. by apply H2, lookup_insert_None in Hk as [? _].
  - intros k o' [[= -> ->]|Hk]%elem_of_cons; [|by apply H3].
    rewrite H4 by done. by rewrite lookup_insert_eq.
  - intros k Hk. apply not_elem_of_cons in Hk as [Hne Hk]. rewrite H4 by done.
    by rewrite lookup_insert_ne.
Qed.

Section LedgerFacts.
  Variable SHA3_256 : list Z -> uint256.

Fixpoint block_pairs (txs : list CTransaction) : list (COutPoint * CTxOut) :=
  match txs with
  | [] => []
  | tx :: txs' => out_pairs (Tx_GetHash SHA3_256 tx) 0 (vout tx) ++ block_pairs txs'
  end.

Lemma block_pairs_keys txs : (block_pairs txs).*1 = block_creates SHA3_256 txs.
Proof. induction txs as [|tx txs IH]; [done|]. simpl. by rewrite fmap_app, out_pairs_keys, IH. Qed.

(** No transaction spends an output of the same block. *)
Definition no_chained_spend (cb : bool) (txs : list CTransaction) : Prop :=
  forall k, k ∈ block_spends cb txs -> k ∉ block_creates SHA3_256 txs.

Lemma ledger_txs_spec h txs : forall cb m m' l,
  no_chained_spend cb txs -> ledger_txs SHA3_256 h cb txs m = Ok (m', l) ->
  NoDup (block_creates SHA3_256 txs) /\
  (forall k, k ∈ block_creates SHA3_256 txs -> m !! k = None) /\
  (forall k o, (k, o) ∈ block_pairs txs -> exists b, m' !! k = Some (mkEntry o h b)) /\
  (forall k e, (k, e) ∈ l -> m !! k = Some e) /\
  (forall k, k ∉ block_creates SHA3_256 txs ->
     m' !! k = if decide (k ∈ block_spends cb txs) then None else m !! k).
Proof.
  induction txs as [|tx txs IH]; intros cb m m' l HN; cbn [ledger_txs].
  { intros [= <- <-]. cbn [block_creates block_pairs block_spends].
    split_and!; [constructor|intros k Hk; inversion Hk|intros k o Hk; inversion Hk
      |intros k e Hk; inversion Hk|].
    intros k _. rewrite decide_False; [done|apply not_elem_of_nil]. }
  destruct (if cb then _ else _) as [[m1 l1]|] eqn:E1; [|done].
  destruct (ledger_outputs _ _ _ _ _ _) as [m2|] eqn:E2; [|done].
  destruct (ledger_txs _ _ _ txs m2) as [[m3 l2]|] eqn:E3; [|done]. intros [= <- <-].
  set (ins := if cb then [] else prevout <$> vin tx).
  assert ((forall x, m1 !! x = if decide (x ∈ ins) then None else m !! x) /\
    (forall k e, (k, e) ∈ l1 -> (m !! k = Some e))) as [A1 A2].
  { destruct cb; [|by apply ledger_inputs_spec]. injection E1 as <- <-.
    split; [|intros k e Hk; inversion Hk].
    intros x. rewrite decide_False; [done|apply not_elem_of_nil]. }
  apply ledger_outputs_spec in E2 as (B1 & B2 & B3 & B4).
  unfold no_chained_spend in HN. cbn [block_spends block_creates block_pairs] in *. fold ins in HN.
  set (ks := out_keys (Tx_GetHash SHA3_256 tx) 0 (vout tx)) in *.
  assert (forall k, k ∈ ins ++ block_spends false txs -> (k ∉ ks) /\ k ∉ block_creates SHA3_256 txs) as HN'.
  { intros k Hk. apply HN in Hk. by apply not_elem_of_app in Hk. }
  destruct (IH false m2 m3 l2) as (C1 & C2 & C3 & C4 & C5); [|done|].
  { intros k Hk. apply HN'. apply elem_of_app. by right. }
  assert (forall k, m1 !! k = None -> k ∈ ks \/ k ∈ block_creates SHA3_256 txs -> m !! k = None) as Hm.
  { intros k Hk Hin. rewrite A1 in Hk. destruct (decide (k ∈ ins)) as [Hi|]; [|done].
    destruct (HN' k); [apply elem_of_app; by left|]. tauto. }
  assert (forall k, k ∈ ks -> m2 !! k <> None) as Hks.
  { intros k Hk. unfold ks in Hk. rewrite <- out_pairs_keys in Hk.
    apply list_elem_of_fmap in Hk as ([k' o] & -> & Hp). simpl. by rewrite (B3 _ _ Hp). }
  fold ins. split_and!.
  - apply NoDup_app. split_and!; [done| |done]. intros k Hk Hk'. by apply (Hks k Hk), C2.
  - intros k [Hk|Hk]%elem_of_app; [apply Hm; auto|]. apply Hm; [|auto].
    rewrite <- B4; [by apply C2|]. intros Hx. by apply (Hks k Hx), C2.
  - intros k o [Hk|Hk]%elem_of_app; [|by apply C3]. exists cb.
    assert (k ∈ ks) as Hin. { unfold ks. rewrite <- out_pairs_keys. by apply (list_elem_of_fmap_2 fst _ (k, o)). }
    rewrite C5; [|intros Hx; by apply (Hks k Hin), C2]. rewrite decide_False; [by apply B3|].
    intros Hs. destruct (HN' k); [apply elem_of_app; by right|done].
  - intros k e [Hk|Hk]%elem_of_app; [by apply A2|]. pose proof (C4 _ _ Hk) as Hm2.
    assert (k ∈ block_spends false txs) as Hs.
    { rewrite <- (ledger_txs_keys _ _ _ _ _ _ _ E3). by apply (list_elem_of_fmap_2 fst _ (k, e)). }
    destruct (HN' k) as [Hk1 _]; [apply elem_of_app; by right|].
    rewrite B4, A1 in Hm2 by done. by destruct (decide (k ∈ ins)).
  - intros k [Hk1 Hk2]%not_elem_of_app. rewrite C5, B4, A1 by done.
    destruct (decide (k ∈ ins ++ block_spends false txs)) as [Hx|Hx]; rewrite elem_of_app in Hx;
      destruct (decide (k ∈ block_spends false txs)), (decide (k ∈ ins)); first [done|tauto].
Qed.
End LedgerFacts.

(** *** The undo loops *)

Section UndoLoop.
  Context {D : Type} `{LDB : LevelDB D}.
  Variable SHA3_256 : list Z -> uint256.
  Variable d : D.
  Implicit Types s : CUTXOSet D.

(** Store, batch and statistics in step with a ledger. *)
Record tracks (sb : CUTXOSet D * list BatchOp) (m : utxo_map) (h : Z) : Prop := {
  tk_sync : sync d (fst sb) (snd sb) m;
  tk_wf : utxo_wf m;
  tk_stats : stats_match (stats (fst sb)) m;
  tk_height : stats_nHeight (stats (fst sb)) = h
}.

Lemma remove_outputs_ok h txid outs : forall n sb m, tracks sb m h ->
  Forall op_ok (out_keys txid n outs) -> NoDup (out_keys txid n outs) ->
  (forall k o, (k, o) ∈ out_pairs txid n outs -> exists e, m !! k = Some e /\ ue_out e = o) ->
  exists m', tracks (remove_outputs txid n outs sb) m' h /\
    forall x, m' !! x = if decide (x ∈ out_keys txid n outs) then None else m !! x.
Proof.
  induction outs as [|o outs IH]; intros n sb m HT HF HN HP; cbn [remove_outputs out_keys out_pairs] in *.
  { exists m. split; [done|]. intros x. rewrite decide_False; [done|apply not_elem_of_nil]. }
  apply Forall_cons in HF as [Hk HF]. apply NoDup_cons in HN as [Hni HN].
  set (k := mkOutPoint txid n) in *. destruct (HP k o) as (e & Hm & <-); [left|].
  set (sb1 := (set_stats (RemoveFromCache (fst sb) k)
                 (stats_sub (stats (RemoveFromCache (fst sb) k)) (nValue (ue_out e))),
               snd sb ++ [Delete (SerializeOutPoint k)])).
  destruct (IH (n + 1) sb1 (delete k m)) as (m' & HT' & Hx); [|done|done| |].
  - destruct HT as [HY Hwf Hst Hh]. split; [by apply sync_del|by apply map_Forall_delete|..];
      unfold sb1; simpl;
      destruct (RemoveFromCache_spec (fst sb) k (sy_lru _ _ _ _ HY)) as (l & c & -> & _);
      [by apply stats_match_sub|done].
  - intros k' o' Hk'. destruct (HP k' o') as (e' & He' & ?); [by right|]. exists e'.
    rewrite lookup_delete_ne; [done|]. intros <-. apply Hni. rewrite <- out_pairs_keys.
    by apply (list_elem_of_fmap_2 fst _ (k, o')).
  - exists m'. split; [done|]. intros x. rewrite Hx. destruct (decide (x = k)) as [->|Hne].
    + rewrite decide_False by done. rewrite lookup_delete_eq. by rewrite decide_True by left.
    + rewrite lookup_delete_ne by done. apply decide_ext. rewrite elem_of_cons. intuition congruence.
Qed.

Lemma remove_all_outputs_cons tx txs (sb : CUTXOSet D * list BatchOp) :
  remove_all_outputs SHA3_256 (tx :: txs) sb =
  remove_outputs (Tx_GetHash SHA3_256 tx) 0 (vout tx) (remove_all_outputs SHA3_256 txs sb).
Proof. unfold remove_all_outputs. cbn [rev]. by rewrite foldl_app. Qed.

Lemma remove_all_outputs_ok h txs : forall sb m, tracks sb m h ->
  Forall op_ok (block_creates SHA3_256 txs) -> NoDup (block_creates SHA3_256 txs) ->
  (forall k o, (k, o) ∈ block_pairs SHA3_256 txs -> exists e, m !! k = Some e /\ ue_out e = o) ->
  exists m', tracks (remove_all_outputs SHA3_256 txs sb) m' h /\
    forall x, m' !! x = if decide (x ∈ block_creates SHA3_256 txs) then None else m !! x.
Proof.
  induction txs as [|tx txs IH]; intros sb m HT HF HN HP.
  { exists m. split; [done|]. intros x. rewrite decide_False; [done|apply not_elem_of_nil]. }
  cbn [block_creates block_pairs] in *. rewrite remove_all_outputs_cons.
  apply Forall_app in HF as [HF1 HF2]. apply NoDup_app in HN as (HN1 & Hd & HN2).
  destruct (IH sb m HT HF2 HN2) as (m1 & HT1 & H1).
  { intros k o Hk. apply HP, elem_of_app. by right. }
  destruct (remove_outputs_ok h _ (vout tx) 0 _ m1 HT1 HF1 HN1) as (m2 & HT2 & H2).
  { intros k o Hk. destruct (HP k o) as (e & He & ?); [apply elem_of_app; by left|]. exists e.
    rewrite H1, decide_False; [done|]. apply Hd. rewrite <- out_pairs_keys.
    by apply (list_elem_of_fmap_2 fst _ (k, o)). }
  exists m2. split; [done|]. intros x. rewrite H2, H1.
  set (ks := out_keys (Tx_GetHash SHA3_256 tx) 0 (vout tx)) in *.
  destruct (decide (x ∈ ks ++ block_creates SHA3_256 txs)) as [Hx|Hx]; rewrite elem_of_app in Hx;
    destruct (decide (x ∈ ks)), (decide (x ∈ block_creates SHA3_256 txs)); first [done|tauto].
Qed.

Definition put_all (m : utxo_map) (l : list (COutPoint * CUTXOEntry)) : utxo_map :=
  foldl (fun m p => <[p.1 := p.2]> m) m l.

Definition spent_value (l : list (COutPoint * CUTXOEntry)) : Z :=
  sum_list ((fun p => nValue (ue_out p.2)) <$> l).

Lemma put_all_spec l : forall m, NoDup l.*1 -> (forall k, k ∈ l.*1 -> m !! k = None) ->
  (forall k e, (k, e) ∈ l -> put_all m l !! k = Some e) /\
  (forall k, k ∉ l.*1 -> put_all m l !! k = m !! k) /\
  size (put_all m l) = (size m + length l)%nat /\
  utxo_total (put_all m l) = utxo_total m + spent_value l.
Proof.
  induction l as [|[k e] l IH]; intros m HN Hf; simpl in *.
  { unfold spent_value. simpl. split_and!; [intros k e Hk; inversion Hk|done|lia|lia]. }
  apply NoDup_cons in HN as [Hni HN]. assert (m !! k = None) as Hk by (apply Hf; left).
  destruct (IH (<[k := e]> m) HN) as (H1 & H2 & H3 & H4).
  { intros x Hx. rewrite lookup_insert_ne; [apply Hf; by right|]. by intros ->. }
  split_and!.
  - intros x ex [[= -> ->]|Hx]%elem_of_cons; [|by apply H1]. rewrite H2 by done. by rewrite lookup_insert_eq.
  - intros x [Hne Hx]%not_elem_of_cons. rewrite H2 by done. by rewrite lookup_insert_ne.
  - rewrite H3, map_size_insert_None by done. lia.
  - rewrite H4, utxo_total_insert by done.
    change (spent_value ((k, e) :: l)) with (nValue (ue_out e) + spent_value l). lia.
Qed.

Lemma restore_inputs_ok h l : forall sb m rest, tracks sb m h ->
  Forall (fun p => op_ok p.1 /\ entry_wf p.2) l -> NoDup l.*1 -> (forall k, k ∈ l.*1 -> m !! k = None) ->
  Z.of_nat (size m) + len l < 2 ^ 64 -> utxo_total m + spent_value l < 2 ^ 64 ->
  exists sb', restore_inputs (length l) (records l ++ rest) sb = Ok sb' /\ tracks sb' (put_all m l) h.
Proof.
  induction l as [|[k e] l IH]; intros sb m rest HT HF HN Hf Hs Hv; [by exists sb|].
  apply Forall_cons in HF as [[Hk He] HF]. simpl in HN, Hf, Hk, He.
  apply NoDup_cons in HN as [Hni HN]. assert (m !! k = None) as Hm by (apply Hf; left).
  change (spent_value ((k, e) :: l)) with (nValue (ue_out e) + spent_value l) in Hv.
  assert (0 <= spent_value l) as Hpos.
  { clear -HF. induction HF as [|[k e] l [_ ([Hx _] & _)] _ IHl]; [done|].
    change (spent_value ((k, e) :: l)) with (nValue (ue_out e) + spent_value l). simpl in Hx. lia. }
  unfold len in *. cbn [length] in *.
  rewrite fmap_cons. cbn [concat fst snd restore_inputs]. rewrite <- app_assoc, read_undo_record_ok by done.
  apply (IH _ (<[k := e]> m)); [|done..| | |].
  - destruct HT as [HY Hwf Hst Hh]. split; [by apply sync_put|by apply map_Forall_insert_2|..]; simpl;
      destruct (UpdateCache_spec (fst sb) k e (sy_lru _ _ _ _ HY)) as (l' & c & -> & _);
      [apply stats_match_add; [done..|lia|lia|done]|done].
  - intros x Hx. rewrite lookup_insert_ne; [apply Hf; by right|]. by intros ->.
  - rewrite map_size_insert_None by done. lia.
  - rewrite utxo_total_insert by done. lia.
Qed.
End UndoLoop.

(** Removing what the block created and putting back what it spent gives the
    ledger before it. *)
Lemma ledger_undo SHA3_256 h txs m m' mr l :
  no_chained_spend SHA3_256 true txs -> NoDup (block_spends true txs) ->
  ledger_txs SHA3_256 h true txs m = Ok (m', l) ->
  (forall x, mr !! x = if decide (x ∈ block_creates SHA3_256 txs) then None else m' !! x) ->
  (forall k, k ∈ l.*1 -> mr !! k = None) /\ put_all mr l = m.
Proof.
  intros HC HN EL Hmr. destruct (ledger_txs_spec _ _ _ _ _ _ _ HC EL) as (F1 & F2 & F3 & F4 & F5).
  pose proof (ledger_txs_keys _ _ _ _ _ _ _ EL) as EK.
  assert (forall k, k ∈ l.*1 -> mr !! k = None) as Hf.
  { intros k Hk. rewrite EK in Hk. rewrite Hmr. destruct (decide _) as [|Hc]; [done|].
    by rewrite F5, decide_True. }
  split; [done|]. apply map_eq. intros k.
  destruct (put_all_spec l mr) as (P1 & P2 & _); [by rewrite EK|done|].
  destruct (decide (k ∈ l.*1)) as [Hk|Hk].
  - apply list_elem_of_fmap in Hk as ([k' e] & -> & Hp). simpl. by rewrite (P1 _ _ Hp), (F4 _ _ Hp).
  - rewrite P2, Hmr by done. destruct (decide _) as [Hc|Hc]; [by rewrite F2|].
    rewrite F5 by done. rewrite EK in Hk. by rewrite decide_False.
Qed.

(** [UndoBlock] on any store that stands for the ledger after the block and
    holds its undo data. *)
Lemma UndoBlock_ok {D : Type} `{LDB : LevelDB D} (SHA3_256 randomx_hash_fast : list Z -> uint256)
    (SHA3_len : forall l, length (SHA3_256 l) = 32%nat) (s1 : CUTXOSet D) (d : D) (m m' : utxo_map)
    (spent : list (COutPoint * CUTXOEntry)) (block : CBlock) (txs : list CTransaction) (height : Z) (blockHash : uint256) :
  let p := le_bytes 4 (len spent) ++ records spent in
  writes_succeed (D := D) -> ledger_state s1 m' -> db s1 = Some d ->
  db_Get d (undo_key blockHash) = Some (p ++ SHA3_256 p) ->
  Forall (fun p => op_ok p.1 /\ entry_wf p.2) spent -> len spent < 2 ^ 32 ->
  DeserializeBlockTransactions (vtx block) = Ok txs -> txs <> [] ->
  txs_fit SHA3_256 true txs m 0 ∅ -> no_chained_spend SHA3_256 true txs -> length blockHash = 32%nat ->
  ledger_txs SHA3_256 height true txs m = Ok (m', spent) ->
  exists s2 d2, UndoBlock SHA3_256 randomx_hash_fast s1 block blockHash = (true, s2) /\ ledger_state s2 m /\
    stats_nHeight (stats s2) = (if stats_nHeight (stats s1) >? 0 then stats_nHeight (stats s1) - 1 else stats_nHeight (stats s1)) /\
    db s2 = Some d2 /\ db_Get d2 (undo_key blockHash) = None /\
    forall h, length h = 32%nat -> h <> blockHash -> db_Get d2 (undo_key h) = db_Get d (undo_key h).
Proof.
  intros p HD E2 E4 E5 E6 E7 Htx Hne Hfit Hc Hb HL.
  assert (4 <= length p)%nat as Hp by (unfold p; rewrite length_app, length_le_bytes; lia).
  destruct (undo_value_framing SHA3_256 SHA3_len p Hp) as (V1 & V2 & _).
  unfold UndoBlock, find_undo. rewrite E4, E5, V1, V2, Htx, bool_decide_false by done.
  pose proof (len_nonneg spent). unfold p at 1 2.
  rewrite take_app_length', drop_app_length' by (by rewrite length_le_bytes).
  rewrite le_val_le_bytes, Z.mod_small by (simpl; lia). unfold len at 1. rewrite Nat2Z.id.
  pose proof (ledger_state_blk s1 m' d E2 E4) as [HY _ _ _ _ _ _]. set (h0 := stats_nHeight (stats s1)).
  assert (tracks d (s1, []) m' h0) as HT by (destruct E2; by split).
  destruct (ledger_txs_spec _ _ _ _ _ _ _ Hc HL) as (F1 & F2 & F3 & F4 & F5).
  destruct (remove_all_outputs_ok SHA3_256 d h0 txs (s1, []) m' HT) as (mr & HTr & Hr);
    [apply Hfit|done| |].
  { intros k o Hk. destruct (F3 k o Hk) as [b Hkb]. by eexists. }
  destruct (ledger_undo SHA3_256 height txs m m' mr spent Hc (tf_nodup _ _ _ _ _ _ Hfit) HL Hr) as [Hf EM].
  assert (NoDup spent.*1) as HN by (rewrite (ledger_txs_keys _ _ _ _ _ _ _ HL); apply Hfit).
  destruct (put_all_spec spent mr HN Hf) as (_ & _ & Z1 & Z2). rewrite EM in Z1, Z2.
  pose proof (tf_size _ _ _ _ _ _ Hfit). pose proof (tf_total _ _ _ _ _ _ Hfit).
  pose proof (len_nonneg (block_outs txs)). pose proof (outs_value_nonneg _ (tf_outwf _ _ _ _ _ _ Hfit)).
  destruct (restore_inputs_ok d h0 spent _ mr [] HTr E6 HN Hf) as ([s' b'] & ER & HT');
    [unfold len in *; lia|lia|].
  rewrite app_nil_r in ER. rewrite ER, EM in *. destruct HT' as [HY' Hwf' Hst' Hh'].
  cbn [fst snd] in *.
  assert (sync d (dec_height s') b' m /\ stats_match (stats (dec_height s')) m /\
    stats_nHeight (stats (dec_height s')) = if h0 >? 0 then h0 - 1 else h0) as (HY2 & Hst2 & Hh2).
  { unfold dec_height. rewrite Hh'. destruct (h0 >? 0); [|done]. split_and!; [by destruct HY'; split|done..]. }
  destruct (commit_ok d _ _ _ [Delete (undo_key blockHash)] HD HY2)
    as (s2 & d2 & G1 & G2 & G3 & G4 & G5 & G6 & G7).
  { apply Forall_singleton. by exists blockHash. }
  exists s2, d2. split_and!; [done..| |by rewrite G5|done| |].
  - split; [done..|by rewrite G5].
  - rewrite G7 by done. cbn [batch_get]. by rewrite decide_True.
  - intros h Hl' Hne'. rewrite G7 by done. cbn [batch_get].
    rewrite decide_False; [done|]. intros E. by apply app_inj_1 in E as [_ ->].
Qed.

(** C18: undoing a block restores the ledger, for blocks none of whose transactions spends an output of the same block
    (otherwise see [UndoBlock_resurrects_chained_output]). From a store that stands for a ledger with matching
    statistics and whose database accepts every write, after [ApplyBlock] of a block the ledger allows, with distinct
    inputs and within the limits of C17, [UndoBlock] succeeds and leaves a flushed store that stands for the ledger
    before the block, with matching statistics and the previous height, and deletes the undo data. *)
Theorem UndoBlock_inverts_ApplyBlock (D : Type) (LDB : LevelDB D)
    (SHA3_256 randomx_hash_fast : list Z -> uint256)
    (SHA3_len : forall l, length (SHA3_256 l) = 32%nat)
    (s : CUTXOSet D) (m m' : utxo_map) (spent : list (COutPoint * CUTXOEntry))
    (block : CBlock) (txs : list CTransaction) (height : Z) (blockHash : uint256)
    (HD : writes_succeed (D := D)) (HS : ledger_state s m)
    (Htx : DeserializeBlockTransactions (vtx block) = Ok txs) (Hne : txs <> [])
    (Hfit : txs_fit SHA3_256 true txs m 0 ∅) (Hc : no_chained_spend SHA3_256 true txs)
    (Hh : 0 <= height < 2 ^ 32) (Hb : length blockHash = 32%nat)
    (HL : ledger_txs SHA3_256 height true txs m = Ok (m', spent)) :
  exists s1 s2, ApplyBlock SHA3_256 s block height blockHash = (true, s1) /\
    UndoBlock SHA3_256 randomx_hash_fast s1 block blockHash = (true, s2) /\
    ledger_state s2 m /\ stats_nHeight (stats s2) = Z.max 0 (height - 1) /\
    HasUndoData s2 blockHash = false.
Proof.
  destruct (ApplyBlock_ok SHA3_256 s m block txs height blockHash m' spent HD HS Htx Hne Hfit Hh Hb HL)
    as (s1 & d & E1 & E2 & E3 & E4 & E5 & E6 & E7 & _).
  destruct (UndoBlock_ok SHA3_256 randomx_hash_fast SHA3_len s1 d m m' spent block txs height blockHash
    HD E2 E4 E5 E6 E7 Htx Hne Hfit Hc Hb HL) as (s2 & d2 & G1 & G2 & G3 & G4 & G5 & _).
  exists s1, s2. split_and!; [done..| |].
  - rewrite G3, E3, Z.gtb_ltb. destruct (Z.ltb_spec 0 height); lia.
  - unfold HasUndoData. by rewrite G4, G5.
Qed.

(** ** A block on a small ledger *)

Definition op_okb (k : COutPoint) : bool :=
  (length (op_hash k) =? 32)%nat && bytes_okb (op_hash k) && (0 <=? op_n k) && (op_n k <? 2 ^ 32) &&
  negb (bool_decide (take 4 (op_hash k) = [110; 100; 111; 95])).

Lemma op_okb_sound k : op_okb k = true -> op_ok k.
Proof.
  unfold op_okb. rewrite !andb_true_iff, negb_true_iff, bool_decide_eq_false, Nat.eqb_eq.
  intros ((((H1 & H2) & H3) & H4) & H5). apply bytes_okb_sound in H2. by split_and!; [split|lia|lia|].
Qed.

Lemma op_okb_Forall l : forallb op_okb l = true -> Forall op_ok l.
Proof.
  intros H. apply Forall_forall. intros k Hk. apply op_okb_sound.
  rewrite forallb_forall in H. apply H. by apply list_elem_of_In.
Qed.

Definition mem_sha (l : list Z) : uint256 := le_bytes 32 (le_val l).

Lemma mem_sha_len l : length (mem_sha l) = 32%nat.
Proof. apply length_le_bytes. Qed.

(** One output on the ledger; a coinbase and a transaction that spends it. *)
Definition demo_entry : CUTXOEntry := mkEntry sample_out 5 true.
Definition demo_ledger : utxo_map := {[ sample_op := demo_entry ]}.
Definition demo_store : CUTXOSet (gmap (list Z) (list Z)) :=
  snd (run_store empty_store [OpAdd sample_op sample_out 5 true; OpFlush]).
Definition demo_txs : list CTransaction :=
  [mkTx 1 [mkTxIn (mkOutPoint zero256 0xffffffff) [1; 2] 0xffffffff] [mkTxOut 5000000000 [81]] 0;
   mkTx 1 [mkTxIn sample_op [3] 0xffffffff] [mkTxOut 1000 [82]; mkTxOut 2000 [83]] 0].
Definition demo_block : CBlock := mkBlock Header_SetNull (SerializeBlockTransactions demo_txs).

Definition demo_result : utxo_map * list (COutPoint * CUTXOEntry) :=
  match ledger_txs mem_sha 6 true demo_txs demo_ledger with Ok r => r | Err _ => (∅, []) end.

Lemma demo_state : ledger_state demo_store demo_ledger.
Proof.
  destruct (exec_store_simulates empty_store ∅ (OpAdd sample_op sample_out 5 true) (RespBool true)
    demo_ledger MemDB_writes_succeed empty_store_ok empty_store_represents
    (conj sample_op_ok sample_entry_wf) eq_refl) as (_ & S1 & R1).
  destruct (exec_store_simulates _ demo_ledger OpFlush (RespBool true) demo_ledger
    MemDB_writes_succeed S1 R1 I eq_refl) as (_ & S2 & R2).
  split; [exact S2|split; reflexivity|exact R2| |split; reflexivity].
  apply map_Forall_singleton. split; [exact sample_op_ok|exact sample_entry_wf].
Qed.

Lemma demo_fit : txs_fit mem_sha true demo_txs demo_ledger 0 ∅.
Proof.
  split.
  - apply op_okb_Forall. vm_compute. reflexivity.
  - apply (bool_decide_unpack _). vm_compute. exact I.
  - intros k _. apply not_elem_of_empty.
  - apply op_okb_Forall. vm_compute. reflexivity.
  - apply Forall_forall. intros o Ho. cbn in Ho.
    repeat (apply elem_of_cons in Ho as [->|Ho]); [..|inversion Ho];
      (split; [simpl; lia|split; [by apply bytes_okb_sound|vm_compute; congruence]]).
  - vm_compute. congruence.
  - vm_compute. reflexivity.
  - vm_compute. reflexivity.
Qed.

Lemma ApplyBlock_refines_ledger_witness :
  match ledger_txs mem_sha 6 true demo_txs demo_ledger with
  | Ok (m', spent) => exists s', ApplyBlock mem_sha demo_store demo_block 6 zero256 = (true, s') /\
      ledger_state s' m' /\ stats_nHeight (stats s') = 6 /\
      ReadUndoBlock mem_sha s' zero256 = Some spent
  | Err (MissingInput _) => exists s', ApplyBlock mem_sha demo_store demo_block 6 zero256 = (false, s') /\
      db s' = db demo_store
  | Err (DuplicateOutput _) => True
  end.
Proof.
  apply (ApplyBlock_refines_ledger _ MemDB mem_sha mem_sha_len demo_store demo_ledger demo_block demo_txs 6
    zero256 MemDB_writes_succeed demo_state).
  - vm_compute. reflexivity.
  - discriminate.
  - exact demo_fit.
  - lia.
  - reflexivity.
Defined.

Lemma UndoBlock_inverts_ApplyBlock_witness :
  exists s1 s2, ApplyBlock mem_sha demo_store demo_block 6 zero256 = (true, s1) /\
    UndoBlock mem_sha mem_sha s1 demo_block zero256 = (true, s2) /\
    ledger_state s2 demo_ledger /\ stats_nHeight (stats s2) = Z.max 0 (6 - 1) /\
    HasUndoData s2 zero256 = false.
Proof.
  apply (UndoBlock_inverts_ApplyBlock _ MemDB mem_sha mem_sha mem_sha_len demo_store demo_ledger
    (fst demo_result) (snd demo_result) demo_block demo_txs 6 zero256 MemDB_writes_succeed demo_state).
  - vm_compute. reflexivity.
  - discriminate.
  - exact demo_fit.
  - intros k Hk. cbn in Hk. apply list_elem_of_singleton in Hk as ->.
    apply (bool_decide_unpack _). vm_compute. exact I.
  - lia.
  - reflexivity.
  - vm_compute. reflexivity.
Defined.

(** An output created and spent in the same block comes back when the block is
    undone: the undo data lists it like any other spent output. *)
Definition chained_txs : list CTransaction :=
  let coinbase := mkTx 1 [mkTxIn (mkOutPoint zero256 0xffffffff) [1; 2] 0xffffffff] [mkTxOut 5000 [81]] 0 in
  let tx1 := mkTx 1 [mkTxIn sample_op [3] 0xffffffff] [mkTxOut 1000 [82]] 0 in
  [coinbase; tx1;
   mkTx 1 [mkTxIn (mkOutPoint (Tx_GetHash mem_sha tx1) 0) [4] 0xffffffff] [mkTxOut 900 [83]] 0].

Definition chained_outpoint : COutPoint :=
  mkOutPoint (Tx_GetHash mem_sha
    (mkTx 1 [mkTxIn sample_op [3] 0xffffffff] [mkTxOut 1000 [82]] 0)) 0.

Example UndoBlock_resurrects_chained_output :
  let block := mkBlock Header_SetNull (SerializeBlockTransactions chained_txs) in
  let '(b1, s1) := ApplyBlock mem_sha demo_store block 6 zero256 in
  let '(b2, s2) := UndoBlock mem_sha mem_sha s1 block zero256 in
  (b1, b2, fst (HaveUTXO demo_store chained_outpoint), fst (HaveUTXO s2 chained_outpoint),
   nUTXOs (stats demo_store), nUTXOs (stats s2)) = (true, true, false, true, 1, 2).
Proof. vm_compute. reflexivity. Qed.

(** A block that fails on a later input leaves the outputs of its earlier
    transactions visible in the cache. *)
Example ApplyBlock_failure_leaves_phantom :
  let coinbase := mkTx 1 [mkTxIn (mkOutPoint zero256 0xffffffff) [1; 2] 0xffffffff] [mkTxOut 5000 [81]] 0 in
  let bad := mkTx 1 [mkTxIn (mkOutPoint (le_bytes 32 99) 0) [4] 0xffffffff] [mkTxOut 900 [83]] 0 in
  let block := mkBlock Header_SetNull (SerializeBlockTransactions [coinbase; bad]) in
  let '(b1, s1) := ApplyBlock mem_sha demo_store block 6 zero256 in
  let phantom := mkOutPoint (Tx_GetHash mem_sha coinbase) 0 in
  (b1, fst (HaveUTXO demo_store phantom), fst (HaveUTXO s1 phantom)) = (false, false, true).
Proof. vm_compute. reflexivity. Qed.

(** A block that spends the same database output twice is applied: its deletion
    is still in the batch when the second input is looked up. *)
Example ApplyBlock_accepts_double_spend :
  let coinbase := mkTx 1 [mkTxIn (mkOutPoint zero256 0xffffffff) [1; 2] 0xffffffff] [mkTxOut 5000 [81]] 0 in
  let a := mkTx 1 [mkTxIn sample_op [4] 0xffffffff] [mkTxOut 900 [83]] 0 in
  let b := mkTx 2 [mkTxIn sample_op [4] 0xffffffff] [mkTxOut 901 [83]] 0 in
  let block := mkBlock Header_SetNull (SerializeBlockTransactions [coinbase; a; b]) in
  fst (ApplyBlock mem_sha demo_store block 6 zero256) = true.
Proof. vm_compute. reflexivity. Qed.

(** An undo record is stored under a key the consistency walk takes for an
    output, so the walk fails as soon as a block has been applied. *)
Example VerifyConsistency_fails_on_undo_data :
  let s1 := snd (ApplyBlock mem_sha demo_store demo_block 6 zero256) in
  (VerifyConsistency demo_store, VerifyConsistency s1) = (true, false).
Proof. vm_compute. reflexivity. Qed.
