(* ===== verification/TxValidation.v ===== *)
(** * Transaction validation (consensus/tx_validation.h, consensus/tx_validation.cpp)

    [CTransactionValidator] over an abstract coins view: the class [CoinsView]
    states what validation relies on, and the UTXO store provides it.  The
    chain parameters, the clock and the batch verifier (its state and the
    schedule of its threads, when it runs) are arguments; SHA3-256 and Dilithium verification are section variables. *)

From S2P Require Import Prelude Uint256 ChainParams Transaction Fees Script Interpreter Htlc.
From S2P Require Import BlockTxs SigBatch UtxoStore.

(** ** The coins view *)

Class CoinsView (S : Type) := mkCoinsView {
  coins_get : S -> COutPoint -> option CUTXOEntry * S;
  coins_rep : S -> gmap COutPoint CUTXOEntry -> Prop;
  coins_get_rep : forall s m k, coins_rep s m -> op_ok k ->
    fst (coins_get s k) = m !! k /\ coins_rep (snd (coins_get s k)) m
}.

#[export, program] Instance StoreView {D} `{LDB : LevelDB D} : CoinsView (CUTXOSet D) := {
  coins_get := GetUTXO;
  coins_rep s m := store_ok s /\ represents s m
}.
Next Obligation.
  intros D LDB s m k [HS HR] Hk. destruct (GetUTXO_spec s k HS Hk) as (E1 & E2 & l & c & E3).
  rewrite E1, (HR k Hk). split; [done|]. split; [done|]. rewrite E3. exact HR.
Qed.

(** A plain map is a coins view too. *)
#[export, program] Instance MapView : CoinsView (gmap COutPoint CUTXOEntry) := {
  coins_get m k := (m !! k, m);
  coins_rep s m := s = m
}.
Next Obligation. by intros s m k -> _. Qed.

(** ** Errors *)

Inductive TxError : Type :=
| TxNull | VersionZero | VersionTooBig
| CoinbaseInputs | CoinbasePrevout | CoinbaseScriptSize
| NoInputs | NullPrevout | NoOutputs | TooManyOutputs
| OutputNotPositive | OutputDust | OutputRange | OutputTotalRange
| TxTooLarge | DuplicateInputs
| LockTimeHeight | LockTimeClock | MissingUTXO | RelativeLock
| MissingForMaturity | Immature | MissingForTotal | InputRange | InputTotalRange
| NegativeFee | FeeRange | FeeCheck (e : FeeError)
| TooManyInputs | ScriptNotActive | MissingForScript
| PubKeyScriptTooLarge | SigScriptTooLarge | ScriptFailed (e : ScriptError) | ScriptNoFuel
| NoBatchVerifier | PrepareFailed | BatchFailed | WaitPending.

(** A validation step over the view: a result and the view after it. *)
Definition Val (S A : Type) : Type := S -> result TxError A * S.

Definition v_ret {S A} (a : A) : Val S A := fun s => (Ok a, s).
Definition v_err {S A} (e : TxError) : Val S A := fun s => (Err e, s).
Definition v_bind {S A B} (x : Val S A) (f : A -> Val S B) : Val S B :=
  fun s => match x s with (Ok a, s') => f a s' | (Err e, s') => (Err e, s') end.
Definition v_lift {S A} (r : result TxError A) : Val S A := fun s => (r, s).

Notation "'check' x 'from' m ; k" := (v_bind m (fun x => k))
  (at level 10, x name, m at level 100, k at level 200,
   format "'[v' 'check'  x  'from'  m ; '/' k ']'") : dil_scope.
Notation "'refuse' b 'with' e ; k" := (if b then v_err e else k)
  (at level 10, b at level 100, e at level 100, k at level 200,
   format "'[v' 'refuse'  b  'with'  e ; '/' k ']'") : dil_scope.

(** ** Structure *)

Definition MAX_MONEY : Z := 21000000 * COIN.
Definition MoneyRange (nValue : Z) : bool := (nValue >=? 0) && (nValue <=? MAX_MONEY).
Definition MAX_TRANSACTION_SIZE : Z := 1000000.
Definition MAX_OUTPUT_COUNT : Z := 10000.
Definition CONSENSUS_DUST_THRESHOLD : Z := 50000.
Definition TX_COINBASE_MATURITY : Z := 100.
Definition MAX_INPUT_COUNT_PER_TX : Z := 10000.

Definition is_op_return (o : CTxOut) : bool :=
  match scriptPubKey o with b :: _ => b =? 0x6a | [] => false end.

(** The output loop; [totalOut += txout.nValue] adds in [uint64_t] and stores
    an [int64_t]. *)
Fixpoint check_outputs (totalOut : Z) (outs : list CTxOut) : result TxError unit :=
  match outs with
  | [] => Ok tt
  | txout :: outs' =>
      if is_op_return txout then check_outputs totalOut outs'
      else
        reject nValue txout <=? 0 with OutputNotPositive;
        reject nValue txout <? CONSENSUS_DUST_THRESHOLD with OutputDust;
        reject negb (MoneyRange (i64 (nValue txout))) with OutputRange;
        let totalOut := i64 (u64 (totalOut + nValue txout)) in
        reject negb (MoneyRange totalOut) with OutputTotalRange;
        check_outputs totalOut outs'
  end.

Definition CheckDuplicateInputs (tx : CTransaction) : bool := unique_prevouts ∅ (vin tx).

Definition CheckTransactionBasic (tx : CTransaction) : result TxError unit :=
  reject Tx_IsNull tx with TxNull;
  reject tx_nVersion tx =? 0 with VersionZero;
  reject tx_nVersion tx >? 255 with VersionTooBig;
  match
    (if IsCoinBase tx then
       match vin tx with
       | [txin] =>
           reject negb (OutPoint_IsNull (prevout txin)) with CoinbasePrevout;
           reject (len (scriptSig txin) <? 2) || (len (scriptSig txin) >? 20000) with CoinbaseScriptSize;
           Ok tt
       | _ => Err CoinbaseInputs
       end
     else
       reject bool_decide (vin tx = []) with NoInputs;
       reject existsb (fun txin => OutPoint_IsNull (prevout txin)) (vin tx) with NullPrevout;
       Ok tt)
  with
  | Err e => Err e
  | Ok _ =>
      reject bool_decide (vout tx = []) with NoOutputs;
      reject len (vout tx) >? MAX_OUTPUT_COUNT with TooManyOutputs;
      match check_outputs 0 (vout tx) with
      | Err e => Err e
      | Ok _ =>
          reject GetSerializedSize tx >? MAX_TRANSACTION_SIZE with TxTooLarge;
          reject negb (CheckDuplicateInputs tx) with DuplicateInputs;
          Ok tt
      end
  end.

(** ** Inputs *)

Section Inputs.
  Context {S : Type} `{CV : CoinsView S}.
  Variable g_chainParams : option ChainParams.

Definition get_coin (k : COutPoint) : Val S (option CUTXOEntry) :=
  fun s => let '(e, s') := coins_get s k in (Ok e, s').

(** Run a check on each input's coin. *)
Fixpoint for_coins {A} (f : A -> CTxIn -> option CUTXOEntry -> result TxError A) (a : A) (ins : list CTxIn)
  : Val S A :=
  match ins with
  | [] => v_ret a
  | txin :: ins' =>
      check e from get_coin (prevout txin);
      check a' from v_lift (f a txin e);
      for_coins f a' ins'
  end.

Definition have_inputs (ins : list CTxIn) : Val S unit :=
  for_coins (fun _ _ e => match e with Some _ => Ok tt | None => Err MissingUTXO end) tt ins.

Definition maturity : Z :=
  match g_chainParams with Some p => u32 (coinbaseMaturity p) | None => TX_COINBASE_MATURITY end.

Definition CheckCoinbaseMaturity (tx : CTransaction) (currentHeight : Z) : Val S unit :=
  for_coins (fun _ _ e =>
    match e with
    | None => Err MissingForMaturity
    | Some entry =>
        if ue_fCoinBase entry then
          let confirmations := u32 (currentHeight - ue_nHeight entry) in
          reject confirmations <? maturity with Immature; Ok tt
        else Ok tt
    end) tt (vin tx).

Definition CalculateTotalInputValue (tx : CTransaction) : Val S Z :=
  for_coins (fun totalIn _ e =>
    match e with
    | None => Err MissingForTotal
    | Some entry =>
        reject negb (MoneyRange (i64 (nValue (ue_out entry)))) with InputRange;
        let newTotal := i64 (u64 (totalIn + nValue (ue_out entry))) in
        reject negb (MoneyRange newTotal) with InputTotalRange;
        Ok newTotal
    end) 0 (vin tx).

(** BIP-68 for block-based locks; the inputs whose disable bit is set are
    skipped before the lookup. *)
Fixpoint relative_locks (currentHeight : Z) (ins : list CTxIn) : Val S unit :=
  match ins with
  | [] => v_ret tt
  | txin :: ins' =>
      let seq := nSequence txin in
      if negb (Z.land seq (Z.shiftl 1 31) =? 0) then relative_locks currentHeight ins'
      else
        check e from get_coin (prevout txin);
        match e with
        | None => relative_locks currentHeight ins'
        | Some entry =>
            let requiredValue := Z.land seq SEQUENCE_LOCKTIME_MASK in
            if negb (Z.land seq SEQUENCE_LOCKTIME_TYPE_FLAG =? 0) then relative_locks currentHeight ins'
            else
              let heightDiff := u32 (currentHeight - ue_nHeight entry) in
              refuse heightDiff <? requiredValue with RelativeLock;
              relative_locks currentHeight ins'
        end
  end.

(** [totalOut] summed in [int64_t], with no range check. *)
Fixpoint sum_outputs (totalOut : Z) (outs : list CTxOut) : Z :=
  match outs with
  | [] => totalOut
  | txout :: outs' => sum_outputs (i64 (u64 (totalOut + nValue txout))) outs'
  end.

(** The absolute lock: [now] is [GetTime()]. *)
Definition lock_time_ok (tx : CTransaction) (currentHeight now : Z) : result TxError unit :=
  let locktime_active := existsb (fun txin => negb (nSequence txin =? 0xFFFFFFFF)) (vin tx) in
  if locktime_active && negb (nLockTime tx =? 0) then
    if nLockTime tx <? LOCKTIME_THRESHOLD then
      reject nLockTime tx >? currentHeight with LockTimeHeight; Ok tt
    else
      reject nLockTime tx >? now with LockTimeClock; Ok tt
  else Ok tt.

Definition CheckTransactionInputs (tx : CTransaction) (currentHeight now : Z) : Val S Z :=
  if IsCoinBase tx then v_ret 0
  else
    check _ from v_lift (lock_time_ok tx currentHeight now);
    check _ from have_inputs (vin tx);
    check _ from (if tx_nVersion tx >=? 2 then relative_locks currentHeight (vin tx) else v_ret tt);
    check _ from CheckCoinbaseMaturity tx currentHeight;
    check totalIn from CalculateTotalInputValue tx;
    let totalOut := sum_outputs 0 (vout tx) in
    refuse totalIn <? totalOut with NegativeFee;
    let txFee := i64 (totalIn - totalOut) in
    refuse negb (MoneyRange txFee) with FeeRange;
    refuse txFee <? 0 with NegativeFee;
    match CheckFee tx txFee true with
    | Err e => v_err (FeeCheck e)
    | Ok _ => v_ret txFee
    end.

(** ** Scripts *)

  Variable SHA3_256 : list Z -> uint256.
  Variable dilithium_verify : list Z -> list Z -> list Z -> Z.

(** A legacy scriptSig rewritten with push opcodes. *)
Definition convert_scriptSig (ss : list Z) : list Z :=
  if IsLegacyScriptSig ss then
    [OP_PUSHDATA2; Z.land DILITHIUM3_SIG_SIZE 0xff; Z.land (Z.shiftr DILITHIUM3_SIG_SIZE 8) 0xff] ++
    slice ss 2 (Z.to_nat DILITHIUM3_SIG_SIZE) ++
    [OP_PUSHDATA2; Z.land DILITHIUM3_PK_SIZE 0xff; Z.land (Z.shiftr DILITHIUM3_PK_SIZE 8) 0xff] ++
    drop (Z.to_nat (2 + DILITHIUM3_SIG_SIZE + 2)) ss
  else ss.

Definition chain_id : Z := match g_chainParams with Some p => chainID p | None => 1 end.

(** [CTransactionValidator::VerifyScript] *)
Definition TxVerifyScript (tx : CTransaction) (inputIdx : Z) (scriptSig scriptPubKey : list Z)
  : result TxError unit :=
  reject len scriptPubKey >? MAX_SCRIPT_SIZE with PubKeyScriptTooLarge;
  reject len scriptSig >? MAX_SCRIPT_SIZE with SigScriptTooLarge;
  let sig := convert_scriptSig scriptSig in
  let flags := Z.lor SCRIPT_VERIFY_CHECKLOCKTIMEVERIFY SCRIPT_VERIFY_CHECKSEQUENCEVERIFY in
  match VerifyScript SHA3_256
          (checker := TransactionSignatureChecker SHA3_256 dilithium_verify tx inputIdx chain_id)
          flags sig scriptPubKey with
  | Some (Ok _) => Ok tt
  | Some (Err e) => Err (ScriptFailed e)
  | None => Err ScriptNoFuel
  end.

(** One input of the sequential path; [idx] counts the inputs. *)
Definition sequential_step (tx : CTransaction) (idx : Z) (txin : CTxIn) (e : option CUTXOEntry)
  : result TxError Z :=
  match e with
  | None => Err MissingForScript
  | Some entry =>
      match TxVerifyScript tx idx (scriptSig txin) (scriptPubKey (ue_out entry)) with
      | Ok _ => Ok (idx + 1)
      | Err err => Err err
      end
  end.

Definition verify_sequential (tx : CTransaction) : Val S Z :=
  for_coins (sequential_step tx) 0 (vin tx).

Definition PrepareSignatureData (tx : CTransaction) (inputIdx : Z) (scriptSig scriptPubKey : list Z)
  : option CSignatureTask :=
  let EXPECTED_SCRIPTSIG_SIZE := 2 + DILITHIUM3_SIG_SIZE + 2 + DILITHIUM3_PK_SIZE in
  if negb (len scriptPubKey =? 25) then None
  else if negb ((byte_at scriptPubKey 0 =? 0x76) && (byte_at scriptPubKey 1 =? 0xa9) &&
                (byte_at scriptPubKey 2 =? 0x14) && (byte_at scriptPubKey 23 =? 0x88) &&
                (byte_at scriptPubKey 24 =? 0xac)) then None
  else if negb (len scriptSig =? EXPECTED_SCRIPTSIG_SIZE) then None
  else
    let sig_size := u16 (Z.lor (byte_at scriptSig 0) (Z.shiftl (byte_at scriptSig 1) 8)) in
    if negb (sig_size =? DILITHIUM3_SIG_SIZE) then None
    else
      let signature := slice scriptSig 2 (Z.to_nat sig_size) in
      let pos := Z.to_nat (2 + sig_size) in
      let pk_size := u16 (Z.lor (byte_at scriptSig pos) (Z.shiftl (byte_at scriptSig (pos + 1)) 8)) in
      if negb (pk_size =? DILITHIUM3_PK_SIZE) then None
      else
        let pubkey := slice scriptSig (pos + 2) (Z.to_nat pk_size) in
        if negb (bool_decide (take 20 (SHA3_256 (SHA3_256 pubkey)) = slice scriptPubKey 3 20)) then None
        else
          match g_chainParams with
          | None => None
          | Some p =>
              Some (mkTask signature
                      (SHA3_256 (sig_message SHA3_256 tx (u32 inputIdx) (chainID p)))
                      pubkey inputIdx)
          end.

(** The shared verifier as a caller finds it, and the schedule of its threads
    until the caller is done with it. *)
Record Verifier := mkVerifier { vf_batch : BatchState; vf_workers : list WorkerPc; vf_schedule : list Choice }.

Definition verifier_run (v : Verifier) (calls : list ClientOp) : option System :=
  run_schedule dilithium_verify (mkSystem (vf_batch v) (vf_workers v) (CReady calls) []) (vf_schedule v).

(** The loop of [BatchVerifyScripts]: the tasks added, and the error with which
    it returned before the end, if it did. *)
Fixpoint add_tasks (tx : CTransaction) (i : Z) (ins : list CTxIn) : Val S (list CSignatureTask * option TxError) :=
  match ins with
  | [] => v_ret ([], None)
  | txin :: ins' =>
      check e from get_coin (prevout txin);
      match e with
      | None => v_ret ([], Some MissingForScript)
      | Some entry =>
          match PrepareSignatureData tx i (scriptSig txin) (scriptPubKey (ue_out entry)) with
          | None => v_ret ([], Some PrepareFailed)
          | Some t => check r from add_tasks tx (i + 1) ins'; v_ret (t :: fst r, snd r)
          end
      end
  end.

(** The calls made to the verifier: a batch that is given up is not waited for,
    and its tasks stay where they are. *)
Definition batch_calls (r : list CSignatureTask * option TxError) : list ClientOp :=
  CBegin :: (CAdd <$> fst r) ++ match snd r with None => [CWait] | Some _ => [] end.

(** [WaitPending] when [Wait] has not returned by the end of the schedule. *)
Definition BatchVerifyScripts (verifier : option Verifier) (tx : CTransaction) : Val S unit :=
  match verifier with
  | None => v_err NoBatchVerifier
  | Some v =>
      check r from add_tasks tx 0 (vin tx);
      match snd r with
      | Some err => v_err err
      | None =>
          match results <$> verifier_run v (batch_calls r) with
          | Some [true] => v_ret tt
          | Some [false] => v_err BatchFailed
          | _ => v_err WaitPending
          end
      end
  end.

(** The verifier as the next caller finds it. *)
Definition verifier_after (v : Verifier) (tx : CTransaction) (s : S) : option (BatchState * list WorkerPc) :=
  match fst (add_tasks tx 0 (vin tx) s) with
  | Ok r => (fun sys => (batch sys, workers sys)) <$> verifier_run v (batch_calls r)
  | Err _ => None
  end.

(** The scan for inputs that all spend P2PKH with a legacy scriptSig; it stops
    at the first that does not. *)
Fixpoint all_p2pkh (ins : list CTxIn) : Val S bool :=
  match ins with
  | [] => v_ret true
  | txin :: ins' =>
      check e from get_coin (prevout txin);
      match e with
      | None => all_p2pkh ins'
      | Some entry =>
          if negb (IsPayToPublicKeyHash (scriptPubKey (ue_out entry))) ||
             negb (IsLegacyScriptSig (scriptSig txin))
          then v_ret false else all_p2pkh ins'
      end
  end.

Definition scripts_active (tx : CTransaction) (currentHeight : Z) : bool :=
  match g_chainParams with
  | None => true
  | Some p =>
      if i32 currentHeight <? scriptV2ActivationHeight p then
        forallb (fun o => IsPayToPublicKeyHash (scriptPubKey o) || IsUnspendable (scriptPubKey o)) (vout tx)
      else true
  end.

Definition CheckTransaction (verifier : option Verifier) (tx : CTransaction) (currentHeight now : Z)
  : Val S Z :=
  check _ from v_lift (CheckTransactionBasic tx);
  check txFee from CheckTransactionInputs tx currentHeight now;
  if IsCoinBase tx then v_ret txFee
  else
    refuse len (vin tx) >? MAX_INPUT_COUNT_PER_TX with TooManyInputs;
    refuse negb (scripts_active tx currentHeight) with ScriptNotActive;
    check p2pkh from all_p2pkh (vin tx);
    let use_batch := p2pkh && bool_decide (is_Some verifier) && (len (vin tx) >=? 2) in
    if use_batch then
      check _ from BatchVerifyScripts verifier tx;
      v_ret txFee
    else
      check _ from verify_sequential tx;
      v_ret txFee.

(** ** Policy *)

Definition legacy_p2pkh37 (s : list Z) : bool :=
  (len s =? 37) && (byte_at s 0 =? 0x76) && (byte_at s 1 =? 0xa9) && (byte_at s 2 =? 0x20) &&
  (byte_at s 35 =? 0x88) && (byte_at s 36 =? 0xac).

Definition IsStandardTransaction (tx : CTransaction) (currentHeight : Z) : bool :=
  let scriptV2Active :=
    match g_chainParams with
    | Some p => currentHeight >=? u32 (scriptV2ActivationHeight p)
    | None => false
    end in
  (tx_nVersion tx =? 1) &&
  negb (GetSerializedSize tx >? MAX_TRANSACTION_SIZE / 10) &&
  forallb (fun o => is_op_return o || negb (nValue o <? 1000)) (vout tx) &&
  forallb (fun o =>
    let s := scriptPubKey o in
    IsPayToPublicKeyHash s || IsUnspendable s || scriptV2Active && IsHTLC s || legacy_p2pkh37 s)
    (vout tx).

Definition GetTransactionWeight (tx : CTransaction) : Z := GetSerializedSize tx.
Definition GetMinimumFee (tx : CTransaction) : Z := CalculateMinFee (GetSerializedSize tx).

Definition CheckDoubleSpend (tx : CTransaction) : Val S unit :=
  refuse negb (CheckDuplicateInputs tx) with DuplicateInputs;
  have_inputs (vin tx).
End Inputs.

(** ** Validation does not depend on the view's implementation *)

Section Agreement.
  Context {S : Type} `{CV : CoinsView S}.

(** The same answer from the view and from the map it stands for. *)
Definition agrees {A} (f : Val S A) (g : Val (gmap COutPoint CUTXOEntry) A) : Prop :=
  forall s m, coins_rep s m -> fst (f s) = fst (g m) /\ coins_rep (snd (f s)) m /\ snd (g m) = m.

Lemma agrees_lift {A} (r : result TxError A) : agrees (v_lift r) (v_lift r).
Proof. by intros s m H. Qed.

Lemma agrees_bind {A B} (f : Val S A) g (h : A -> Val S B) k :
  agrees f g -> (forall a, agrees (h a) (k a)) -> agrees (v_bind f h) (v_bind g k).
Proof.
  intros HF HH s m Hr. destruct (HF s m Hr) as (E1 & E2 & E3). unfold v_bind.
  destruct (f s) as [r s'], (g m) as [r' m']. simpl in *. subst r' m'.
  destruct r as [a|e]; [by apply HH|done].
Qed.

Lemma agrees_get k : op_ok k -> agrees (get_coin k) (get_coin k).
Proof.
  intros Hk s m Hr. destruct (coins_get_rep s m k Hr Hk) as [E1 E2]. unfold get_coin.
  destruct (coins_get s k) as [e s']. simpl in *. by subst.
Qed.

Lemma agrees_if {A} (b : bool) (f1 f2 : Val S A) g1 g2 :
  agrees f1 g1 -> agrees f2 g2 -> agrees (if b then f1 else f2) (if b then g1 else g2).
Proof. by destruct b. Qed.

Lemma agrees_for_coins {A} (f : A -> CTxIn -> option CUTXOEntry -> result TxError A) ins :
  Forall op_ok (prevout <$> ins) -> forall a, agrees (for_coins f a ins) (for_coins f a ins).
Proof.
  induction ins as [|i ins IH]; intros HF a; [apply (agrees_lift (Ok a))|].
  rewrite fmap_cons in HF. apply Forall_cons in HF as [Hk HF]. cbn [for_coins].
  apply agrees_bind; [by apply agrees_get|]. intros e.
  apply agrees_bind; [apply agrees_lift|]. intros a'. by apply IH.
Qed.

Lemma agrees_relative_locks h ins : Forall op_ok (prevout <$> ins) ->
  agrees (relative_locks h ins) (relative_locks h ins).
Proof.
  induction ins as [|i ins IH]; intros HF; [apply (agrees_lift (Ok tt))|].
  rewrite fmap_cons in HF. apply Forall_cons in HF as [Hk HF]. cbn [relative_locks].
  apply agrees_if; [by apply IH|]. apply agrees_bind; [by apply agrees_get|]. intros [e|]; [|by apply IH].
  apply agrees_if; [by apply IH|]. apply agrees_if; [apply (agrees_lift (Err RelativeLock))|by apply IH].
Qed.

Lemma agrees_all_p2pkh ins : Forall op_ok (prevout <$> ins) -> agrees (all_p2pkh ins) (all_p2pkh ins).
Proof.
  induction ins as [|i ins IH]; intros HF; [apply (agrees_lift (Ok true))|].
  rewrite fmap_cons in HF. apply Forall_cons in HF as [Hk HF]. cbn [all_p2pkh].
  apply agrees_bind; [by apply agrees_get|]. intros [e|]; [|by apply IH].
  apply agrees_if; [apply (agrees_lift (Ok false))|by apply IH].
Qed.

Lemma agrees_add_tasks gp sha tx ins : Forall op_ok (prevout <$> ins) -> forall i, agrees (add_tasks gp sha tx i ins) (add_tasks gp sha tx i ins).
Proof.
  induction ins as [|txin ins IH]; intros HF i; [apply (agrees_lift (Ok ([], None)))|].
  rewrite fmap_cons in HF. apply Forall_cons in HF as [Hk HF]. cbn [add_tasks].
  apply agrees_bind; [by apply agrees_get|]. intros [e|]; [|apply (agrees_lift (Ok ([], Some MissingForScript)))].
  destruct (PrepareSignatureData _ _ _ _ _ _) as [t|]; [|apply (agrees_lift (Ok ([], Some PrepareFailed)))].
  apply agrees_bind; [by apply IH|]. intros r. apply (agrees_lift (Ok (t :: fst r, snd r))).
Qed.
End Agreement.

Create HintDb agrees.
#[export] Hint Resolve agrees_lift agrees_bind agrees_get agrees_if agrees_for_coins
  agrees_relative_locks agrees_all_p2pkh agrees_add_tasks : agrees.

(** Prove [agrees] of two copies of the same validation code. *)
Ltac agree :=
  repeat first
    [ done
    | apply agrees_bind; [|intros ?]
    | apply agrees_if
    | eapply (agrees_lift (Ok _)) | eapply (agrees_lift (Err _))
    | by eauto with agrees
    | match goal with |- agrees (match ?x with _ => _ end) _ => destruct x end ].

Lemma CheckTransactionInputs_agrees {S} `{CV : CoinsView S} gp tx h now :
  Forall op_ok (prevout <$> vin tx) ->
  agrees (S := S) (CheckTransactionInputs gp tx h now) (CheckTransactionInputs gp tx h now).
Proof.
  intros HF. unfold CheckTransactionInputs, have_inputs, CheckCoinbaseMaturity, CalculateTotalInputValue.
  agree.
Qed.
#[export] Hint Resolve CheckTransactionInputs_agrees : agrees.

Lemma BatchVerifyScripts_agrees {S} `{CV : CoinsView S} gp sha dil v tx :
  Forall op_ok (prevout <$> vin tx) -> agrees (S := S) (BatchVerifyScripts gp sha dil v tx) (BatchVerifyScripts gp sha dil v tx).
Proof. intros HF. unfold BatchVerifyScripts. agree. Qed.
#[export] Hint Resolve BatchVerifyScripts_agrees : agrees.

Lemma CheckTransaction_agrees {S} `{CV : CoinsView S} gp sha dil verifier tx h now :
  Forall op_ok (prevout <$> vin tx) ->
  agrees (S := S) (CheckTransaction gp sha dil verifier tx h now) (CheckTransaction gp sha dil verifier tx h now).
Proof. intros HF. unfold CheckTransaction, verify_sequential. agree. Qed.

(** ** What an accepted transaction satisfies *)

(** On a map a scan is a fold over the inputs' coins. *)
Fixpoint fold_coins {A} (f : A -> CTxIn -> option CUTXOEntry -> result TxError A) (a : A) (ins : list CTxIn)
    (m : gmap COutPoint CUTXOEntry) : result TxError A :=
  match ins with
  | [] => Ok a
  | i :: ins' => match f a i (m !! prevout i) with Ok a' => fold_coins f a' ins' m | Err e => Err e end
  end.

Lemma for_coins_map {A} (f : A -> CTxIn -> option CUTXOEntry -> result TxError A) ins :
  forall a (m : gmap COutPoint CUTXOEntry), for_coins f a ins m = (fold_coins f a ins m, m).
Proof.
  induction ins as [|i ins IH]; intros a m; [done|]. cbn. unfold v_bind, get_coin, v_lift. cbn.
  destruct (f a i (m !! prevout i)); [apply IH|done].
Qed.

Lemma v_bind_map_ok {A B} (x : Val (gmap COutPoint CUTXOEntry) A) (k : A -> Val _ B) m b :
  fst (v_bind x k m) = Ok b -> exists a, fst (x m) = Ok a /\ fst (k a (snd (x m))) = Ok b.
Proof. unfold v_bind. destruct (x m) as [[a|e] m']; simpl; [eauto|done]. Qed.

Definition coins_of (m : gmap COutPoint CUTXOEntry) (ins : list CTxIn) (es : list CUTXOEntry) : Prop :=
  Forall2 (fun i e => m !! prevout i = Some e) ins es.

Definition entries_value (es : list CUTXOEntry) : Z := sum_list ((fun e => nValue (ue_out e)) <$> es).

Lemma MoneyRange_true x : MoneyRange x = true <-> 0 <= x <= MAX_MONEY.
Proof. unfold MoneyRange. rewrite andb_true_iff, Z.geb_leb, !Z.leb_le. done. Qed.

Lemma i64_money x : 0 <= x < 2 ^ 64 -> MoneyRange (i64 x) = true -> i64 x = x /\ x <= MAX_MONEY.
Proof.
  intros Hx [H1 H2]%MoneyRange_true. unfold MAX_MONEY, COIN in *.
  assert (x < 2 ^ 63).
  { destruct (Z.lt_ge_cases x (2 ^ 63)); [done|]. unfold i64 in H1.
    rewrite <- (Z.mod_unique (x + 2 ^ 63) (2 ^ 64) 1 (x - 2 ^ 63)) in H1; lia. }
  rewrite i64_small in * by lia. lia.
Qed.

(** The input total is the exact sum of the coins spent. *)
Lemma total_input_exact m ins : map_Forall (fun _ e => 0 <= nValue (ue_out e) < 2 ^ 64) m ->
  forall t0 t, 0 <= t0 <= MAX_MONEY ->
  fold_coins (fun totalIn _ e =>
    match e with
    | None => Err MissingForTotal
    | Some entry =>
        reject negb (MoneyRange (i64 (nValue (ue_out entry)))) with InputRange;
        let newTotal := i64 (u64 (totalIn + nValue (ue_out entry))) in
        reject negb (MoneyRange newTotal) with InputTotalRange;
        Ok newTotal
    end) t0 ins m = Ok t ->
  0 <= t <= MAX_MONEY /\ exists es, coins_of m ins es /\ t = t0 + entries_value es.
Proof.
  intros Hm. induction ins as [|i ins IH]; intros t0 t Ht0; cbn [fold_coins].
  { intros [= <-]. split; [done|]. exists []. split; [constructor|]. cbn. lia. }
  destruct (m !! prevout i) as [e|] eqn:Ee; [|done].
  destruct (MoneyRange (i64 (nValue (ue_out e)))) eqn:E1; [|done]. cbn [negb].
  destruct (i64_money _ (Hm _ _ Ee) E1) as [Ev Hv]. pose proof (Hm _ _ Ee) as Hp.
  assert (i64 (u64 (t0 + nValue (ue_out e))) = t0 + nValue (ue_out e)) as EN.
  { unfold MAX_MONEY, COIN in *. simpl in Hp. rewrite u64_small, i64_small by lia. done. }
  rewrite EN. destruct (MoneyRange (t0 + nValue (ue_out e))) eqn:E2; [|done]. cbn [negb]. intros H.
  apply MoneyRange_true in E2. apply IH in H as (Hr & es & Hc & ->); [|done]. split; [done|].
  exists (e :: es). split; [by constructor|].
  change (entries_value (e :: es)) with (nValue (ue_out e) + entries_value es). lia.
Qed.

Lemma sum_outputs_exact outs : forall t, 0 <= t -> Forall (fun o => 0 <= nValue o) outs ->
  t + value_sum outs < 2 ^ 63 -> sum_outputs t outs = t + value_sum outs.
Proof.
  induction outs as [|o outs IH]; intros t Ht HF Hs; [cbn; lia|].
  apply Forall_cons in HF as [Ho HF]. rewrite value_sum_cons in *. cbn [sum_outputs].
  pose proof (value_sum_nonneg outs HF). rewrite u64_small, i64_small by lia. rewrite IH; [lia..|done|lia].
Qed.

Lemma maturity_sound gp m ins h :
  fold_coins (fun _ _ e =>
    match e with
    | None => Err MissingForMaturity
    | Some entry =>
        if ue_fCoinBase entry then
          let confirmations := u32 (h - ue_nHeight entry) in
          reject confirmations <? maturity gp with Immature; Ok tt
        else Ok tt
    end) tt ins m = Ok tt ->
  Forall (fun i => exists e, m !! prevout i = Some e /\
    (ue_fCoinBase e = true -> maturity gp <= u32 (h - ue_nHeight e))) ins.
Proof.
  induction ins as [|i ins IH]; cbn [fold_coins]; [constructor|].
  destruct (m !! prevout i) as [e|] eqn:Ee; [|done]. intros H.
  destruct (ue_fCoinBase e) eqn:Ec.
  - destruct (Z.ltb_spec (u32 (h - ue_nHeight e)) (maturity gp)); [done|].
    constructor; [|by apply IH]. exists e. split; [done|]. intros _. lia.
  - constructor; [|by apply IH]. exists e. split; [done|]. congruence.
Qed.

Lemma check_outputs_sound outs : forall t, check_outputs t outs = Ok tt ->
  Forall (fun o => 0 <= nValue o < 2 ^ 64) outs ->
  Forall (fun o => is_op_return o = true \/ CONSENSUS_DUST_THRESHOLD <= nValue o <= MAX_MONEY) outs.
Proof.
  induction outs as [|o outs IH]; intros t H HF; [constructor|]. cbn [check_outputs] in H.
  apply Forall_cons in HF as [Ho HF]. destruct (is_op_return o) eqn:Eo.
  { constructor; [by left|]. by eapply IH. }
  destruct (nValue o <=? 0); [done|].
  destruct (Z.ltb_spec (nValue o) CONSENSUS_DUST_THRESHOLD); [done|].
  destruct (MoneyRange (i64 (nValue o))) eqn:E1; [|done]. cbn [negb] in H.
  destruct (MoneyRange _) in H; [|done]. cbn [negb] in H.
  constructor; [right|by eapply IH]. by destruct (i64_money _ Ho E1).
Qed.

Lemma sequential_sound gp sha dil tx m ins : forall idx n,
  fold_coins (sequential_step gp sha dil tx) idx ins m = Ok n ->
  forall j i, ins !! j = Some i -> exists e, m !! prevout i = Some e /\
    TxVerifyScript gp sha dil tx (idx + Z.of_nat j) (scriptSig i) (scriptPubKey (ue_out e)) = Ok tt.
Proof.
  induction ins as [|i ins IH]; intros idx n H j i' Hj; [done|]. cbn [fold_coins] in H.
  unfold sequential_step at 1 in H.
  destruct (m !! prevout i) as [e|] eqn:Ee; [|done].
  destruct (TxVerifyScript _ _ _ _ _ _ _) as [[]|] eqn:Ev; [|done].
  destruct j as [|j]; cbn in Hj.
  - injection Hj as <-. exists e. split; [done|]. by rewrite Z.add_0_r.
  - destruct (IH _ _ H j i' Hj) as (e' & ? & HV). exists e'. split; [done|].
    replace (idx + Z.of_nat (S j)) with (idx + 1 + Z.of_nat j) by lia. exact HV.
Qed.

Lemma CheckTransactionBasic_inv tx : CheckTransactionBasic tx = Ok tt -> IsCoinBase tx = false ->
  vin tx <> [] /\ NoDup (prevout <$> vin tx) /\ check_outputs 0 (vout tx) = Ok tt.
Proof.
  unfold CheckTransactionBasic. intros H Hc. rewrite Hc in H.
  destruct (Tx_IsNull tx); [done|]. destruct (tx_nVersion tx =? 0); [done|].
  destruct (tx_nVersion tx >? 255); [done|].
  case_bool_decide as Ev; [done|]. destruct (existsb _ _); [done|].
  case_bool_decide; [done|]. destruct (len (vout tx) >? _); [done|].
  destruct (check_outputs 0 (vout tx)) as [[]|]; [|done]. destruct (GetSerializedSize tx >? _); [done|].
  destruct (CheckDuplicateInputs tx) eqn:Ed; [|done]. split_and!; [done| |done].
  by apply unique_prevouts_spec in Ed as [? _].
Qed.

(** A step that succeeds on a map leaves it and passes its value on. *)
Lemma bind_ok {A B} (x : Val (gmap COutPoint CUTXOEntry) A) (k : A -> Val _ B) m b :
  agrees x x -> fst (v_bind x k m) = Ok b -> exists a, fst (x m) = Ok a /\ fst (k a m) = Ok b.
Proof.
  intros HA H. apply v_bind_map_ok in H as (a & E1 & E2). exists a. split; [done|].
  by rewrite (proj2 (proj2 (HA m m eq_refl))) in E2.
Qed.

Lemma CheckTransactionInputs_inv gp tx h now (m : gmap COutPoint CUTXOEntry) fee :
  Forall op_ok (prevout <$> vin tx) -> IsCoinBase tx = false ->
  fst (CheckTransactionInputs gp tx h now m) = Ok fee ->
  fst (CheckCoinbaseMaturity gp tx h m) = Ok tt /\
  exists t, fst (CalculateTotalInputValue tx m) = Ok t /\ sum_outputs 0 (vout tx) <= t /\
    fee = i64 (t - sum_outputs 0 (vout tx)) /\ 0 <= fee /\ CheckFee tx fee true = Ok tt.
Proof.
  intros HF Hc H. unfold CheckTransactionInputs in H. rewrite Hc in H.
  apply bind_ok in H as (? & _ & H); [|by apply agrees_lift].
  apply bind_ok in H as (? & _ & H); [|by apply agrees_for_coins].
  apply bind_ok in H as (? & _ & H); [|by agree].
  apply bind_ok in H as ([] & EM & H); [|by apply agrees_for_coins].
  apply bind_ok in H as (t & ET & H); [|by apply agrees_for_coins]. cbn zeta in H.
  split; [done|]. exists t. destruct (Z.ltb_spec t (sum_outputs 0 (vout tx))); [done|].
  destruct (MoneyRange _); [|done]. cbn [negb] in H.
  destruct (Z.ltb_spec (i64 (t - sum_outputs 0 (vout tx))) 0); [done|].
  destruct (CheckFee _ _ _) as [[]|] eqn:EF; [|done]. injection H as <-. split_and!; done.
Qed.

Lemma CheckFee_bounds tx fee : CheckFee tx fee true = Ok tt ->
  CalculateMinFee (GetSerializedSize tx) <= fee /\ MIN_RELAY_TX_FEE <= fee <= MAX_REASONABLE_FEE.
Proof.
  unfold CheckFee. destruct (Z.ltb_spec fee (CalculateMinFee (GetSerializedSize tx))); [done|].
  cbn [andb]. destruct (Z.ltb_spec fee MIN_RELAY_TX_FEE); [done|].
  rewrite Z.gtb_ltb. destruct (Z.ltb_spec MAX_REASONABLE_FEE fee); [done|]. lia.
Qed.

(** ** The batch *)

(** The tasks of the inputs over a map. *)
Fixpoint tasks_of (gp : option ChainParams) (sha : list Z -> uint256) (tx : CTransaction) (i : Z) (ins : list CTxIn)
    (m : gmap COutPoint CUTXOEntry) : list CSignatureTask * option TxError :=
  match ins with
  | [] => ([], None)
  | txin :: ins' =>
      match m !! prevout txin with
      | None => ([], Some MissingForScript)
      | Some e =>
          match PrepareSignatureData gp sha tx i (scriptSig txin) (scriptPubKey (ue_out e)) with
          | None => ([], Some PrepareFailed)
          | Some t => let r := tasks_of gp sha tx (i + 1) ins' m in (t :: fst r, snd r)
          end
      end
  end.

Lemma add_tasks_map gp sha tx ins (m : gmap COutPoint CUTXOEntry) : forall i, add_tasks gp sha tx i ins m = (Ok (tasks_of gp sha tx i ins m), m).
Proof.
  induction ins as [|txin ins IH]; intros i; [done|]. cbn [add_tasks tasks_of]. unfold v_bind, get_coin. cbn [coins_get MapView].
  destruct (m !! prevout txin) as [e|]; [|done]. destruct (PrepareSignatureData _ _ _ _ _ _) as [t|]; [|done]. by rewrite IH.
Qed.

Lemma tasks_of_length gp sha tx ins m : forall i, (length (fst (tasks_of gp sha tx i ins m)) <= length ins)%nat.
Proof.
  induction ins as [|txin ins IH]; intros i; cbn; [lia|]. destruct (m !! prevout txin) as [e|]; [|cbn; lia].
  destruct (PrepareSignatureData _ _ _ _ _ _) as [t|]; cbn; [|lia]. specialize (IH (i + 1)). lia.
Qed.

Lemma tasks_of_sound gp sha dil tx ins m : forall i, snd (tasks_of gp sha tx i ins m) = None ->
  forallb (VerifySingle dil) (fst (tasks_of gp sha tx i ins m)) = true ->
  forall j txin, ins !! j = Some txin -> exists e t, m !! prevout txin = Some e /\
    PrepareSignatureData gp sha tx (i + Z.of_nat j) (scriptSig txin) (scriptPubKey (ue_out e)) = Some t /\ VerifySingle dil t = true.
Proof.
  induction ins as [|x ins IH]; intros i HN HV j txin Hj; [done|]. cbn [tasks_of] in HN, HV.
  destruct (m !! prevout x) as [e|] eqn:Ee; [|done]. destruct (PrepareSignatureData _ _ _ _ _ _) as [t|] eqn:Et; [|done].
  cbn in HN, HV. apply andb_true_iff in HV as [HV HVs]. destruct j as [|j].
  - injection Hj as <-. exists e, t. rewrite Z.add_0_r. done.
  - replace (i + Z.of_nat (Datatypes.S j)) with (i + 1 + Z.of_nat j) by lia. by apply IH.
Qed.

(** No task queued or held, and room for the batch in the counter. *)
Definition verifier_idle (v : Verifier) (tx : CTransaction) : Prop :=
  m_queue (vf_batch v) = [] /\ forallb quiet (vf_workers v) = true /\ len (vin tx) + len (vf_workers v) + 1 < 2 ^ 64.

(** From an idle verifier [Wait] answers for the batch, and leaves the verifier idle. *)
Lemma idle_wait dil v tx ts sys : verifier_idle v tx -> (length ts <= length (vin tx))%nat ->
  verifier_run dil v (batch_calls (ts, None)) = Some sys ->
  (forall x, results sys = [x] -> x = forallb (VerifySingle dil) ts) /\
  (client sys = CReady [] -> m_queue (batch sys) = [] /\ forallb quiet (workers sys) = true).
Proof.
  intros (HQ & HW & HS) HL HR. unfold verifier_run in HR.
  apply (run_schedule_reachable dil (start (vf_workers v) (vf_batch v) [ts])) in HR; [|apply reach_refl].
  destruct (batches_finish dil _ _ [ts] sys HW HQ) as (fin & rest & EB & ER & EC); [|exact HR|].
  { apply Forall_singleton. unfold len in *. lia. }
  split; [|intros HC; by destruct (EC HC)]. intros x Ex. rewrite ER in Ex. destruct fin as [|f [|]]; [done| |done].
  injection EB as -> _. injection Ex as <-. done.
Qed.

Lemma BatchVerifyScripts_ok gp sha dil v tx (m : gmap COutPoint CUTXOEntry) : verifier_idle v tx ->
  fst (BatchVerifyScripts gp sha dil (Some v) tx m) <> Err WaitPending ->
  fst (BatchVerifyScripts gp sha dil (Some v) tx m) = Ok tt <->
  snd (tasks_of gp sha tx 0 (vin tx) m) = None /\ forallb (VerifySingle dil) (fst (tasks_of gp sha tx 0 (vin tx) m)) = true.
Proof.
  intros HI. cbn [BatchVerifyScripts]. unfold v_bind. rewrite add_tasks_map. pose proof (tasks_of_length gp sha tx (vin tx) m 0) as HL.
  destruct (tasks_of gp sha tx 0 (vin tx) m) as [ts err]. cbn [fst snd] in *. destruct err as [err|]; cbn; [by intros _; split; [|intros [? _]]|].
  destruct (verifier_run dil v _) as [sys|] eqn:ER; cbn; [|done]. destruct (idle_wait dil v tx ts sys HI HL ER) as [HX _].
  destruct (results sys) as [|x [|]]; cbn; [done| |by destruct x]. rewrite <- (HX x eq_refl). destruct x; cbn; by intuition.
Qed.

(** C7: an accepted transaction is valid and conserves value.  Over a coins
    view that stands for a map of coins with 64-bit values, a non-coinbase
    transaction with 64-bit output values whose sum is below 2^63 that
    [CheckTransaction] accepts with a fee spends distinct coins that exist; its
    inputs are worth exactly its outputs plus the fee; coinbase coins have the
    required confirmations (a difference of 32-bit heights); the fee is within
    the consensus bounds; every output that is not a data carrier is worth at
    least the dust threshold and at most the supply limit; and every input is
    authorised: its scripts pass the interpreter, or, where the batch verifier
    is used, which was idle, the signature prepared for it verifies.  The
    condition on the sum is needed: data-carrier values are not range-checked. *)
Theorem CheckTransaction_sound (S : Type) (CV : CoinsView S) (g_chainParams : option ChainParams)
    (SHA3_256 : list Z -> uint256) (dilithium_verify : list Z -> list Z -> list Z -> Z)
    (verifier : option Verifier) (tx : CTransaction) (height now fee : Z) (s : S)
    (m : gmap COutPoint CUTXOEntry)
    (Hr : coins_rep s m) (Hm : map_Forall (fun _ e => 0 <= nValue (ue_out e) < 2 ^ 64) m)
    (Hin : Forall op_ok (prevout <$> vin tx)) (Hcb : IsCoinBase tx = false)
    (Hout : Forall (fun o => 0 <= nValue o < 2 ^ 64) (vout tx)) (Hsum : value_sum (vout tx) < 2 ^ 63)
    (Hidle : match verifier with Some v => verifier_idle v tx | None => True end)
    (Hacc : fst (CheckTransaction g_chainParams SHA3_256 dilithium_verify verifier tx height now s) = Ok fee) :
  vin tx <> [] /\ NoDup (prevout <$> vin tx) /\
  (exists es, coins_of m (vin tx) es /\ entries_value es = value_sum (vout tx) + fee) /\
  CalculateMinFee (GetSerializedSize tx) <= fee /\ MIN_RELAY_TX_FEE <= fee <= MAX_REASONABLE_FEE /\
  Forall (fun i => exists e, m !! prevout i = Some e /\
    (ue_fCoinBase e = true -> maturity g_chainParams <= u32 (height - ue_nHeight e))) (vin tx) /\
  Forall (fun o => is_op_return o = true \/ CONSENSUS_DUST_THRESHOLD <= nValue o <= MAX_MONEY) (vout tx) /\
  (forall j i, vin tx !! j = Some i -> exists e, m !! prevout i = Some e /\
    (TxVerifyScript g_chainParams SHA3_256 dilithium_verify tx (Z.of_nat j) (scriptSig i)
       (scriptPubKey (ue_out e)) = Ok tt \/
     is_Some verifier /\ exists t, VerifySingle dilithium_verify t = true /\
       PrepareSignatureData g_chainParams SHA3_256 tx (Z.of_nat j) (scriptSig i) (scriptPubKey (ue_out e)) = Some t)).
Proof.
  rewrite (proj1 (CheckTransaction_agrees _ _ _ _ _ _ _ Hin s m Hr)) in Hacc.
  unfold CheckTransaction in Hacc.
  apply bind_ok in Hacc as ([] & EB & H); [|by apply agrees_lift].
  apply bind_ok in H as (f & EI & H); [|by apply CheckTransactionInputs_agrees]. rewrite Hcb in H.
  destruct (CheckTransactionBasic_inv tx EB Hcb) as (B1 & B2 & B3).
  destruct (CheckTransactionInputs_inv _ _ _ _ _ _ Hin Hcb EI) as (EM & t & ET & Ht & Ef & Hf & EC).
  assert (f = fee /\ ((exists n, fst (verify_sequential g_chainParams SHA3_256 dilithium_verify tx m) = Ok n) \/
    exists v, verifier = Some v /\ fst (BatchVerifyScripts g_chainParams SHA3_256 dilithium_verify (Some v) tx m) = Ok tt)) as [-> HV].
  { destruct (len (vin tx) >? _); [done|]. destruct (scripts_active _ _ _); [|done]. cbn [negb] in H.
    apply bind_ok in H as (p & _ & H); [|by apply agrees_all_p2pkh]. cbn zeta in H.
    destruct (p && _ && _) eqn:Eu.
    - apply bind_ok in H as ([] & EV & H); [|by apply BatchVerifyScripts_agrees]. injection H as <-. split; [done|]. right.
      destruct verifier as [v|]; [by exists v|]. by rewrite andb_false_r in Eu.
    - apply bind_ok in H as (n & EV & H); [|by apply agrees_for_coins]. injection H as <-.
      split; [done|]. left. by exists n. }
  unfold CalculateTotalInputValue in ET. rewrite for_coins_map in ET.
  apply total_input_exact in ET as (Htr & es & Hes & ->); [|done|unfold MAX_MONEY, COIN; lia].
  assert (sum_outputs 0 (vout tx) = value_sum (vout tx)) as EO.
  { rewrite sum_outputs_exact; [lia|lia| |lia]. eapply Forall_impl; [done|]. cbn. lia. }
  rewrite EO in *. unfold CheckCoinbaseMaturity in EM. rewrite for_coins_map in EM.
  destruct (CheckFee_bounds _ _ EC) as [F1 F2].
  assert (0 <= value_sum (vout tx)).
  { apply value_sum_nonneg. eapply Forall_impl; [done|]. cbn. lia. }
  split_and!; [done|done| |done|lia|lia|by apply maturity_sound|by eapply check_outputs_sound|].
  - exists es. split; [done|]. rewrite Ef, i64_small by (unfold MAX_MONEY, COIN in *; lia). lia.
  - intros j i Hj. destruct HV as [[n EV]|(v & -> & EV)].
    + unfold verify_sequential in EV. rewrite for_coins_map in EV.
      destruct (sequential_sound _ _ _ _ _ _ _ _ EV j i Hj) as (e & Ee & HE). exists e. by split; [|left].
    + apply BatchVerifyScripts_ok in EV as [EN EV]; [|done|by rewrite EV].
      destruct (tasks_of_sound _ _ _ _ _ _ 0 EN EV j i Hj) as (e & t & Ee & Et & HT). exists e. split; [done|]. right.
      split; [done|]. by exists t.
Qed.

(** ** The batch path and the sequential path *)

Section BatchPath.
  Variable SHA3_256 : list Z -> uint256.
  Variable dilithium_verify : list Z -> list Z -> list Z -> Z.
  Variable p : ChainParams.
  Variable tx : CTransaction.
  Hypothesis SHA3_len : forall l, length (SHA3_256 l) = 32%nat.

(** The parts of a legacy scriptSig. *)
Definition legacy_sig (ss : list Z) : list Z := slice ss 2 (Z.to_nat DILITHIUM3_SIG_SIZE).
Definition legacy_pk (ss : list Z) : list Z := drop (Z.to_nat (2 + DILITHIUM3_SIG_SIZE + 2)) ss.

(** A legacy P2PKH input whose key-size prefix is right and whose signature and
    key are not constant. *)
Definition clean_legacy (ss spk : list Z) : Prop :=
  IsPayToPublicKeyHash spk = true /\ IsLegacyScriptSig ss = true /\
  u16 (Z.lor (byte_at ss (Z.to_nat 3311)) (Z.shiftl (byte_at ss (Z.to_nat 3312)) 8)) = DILITHIUM3_PK_SIZE /\
  all_zeros_or_ones (legacy_sig ss) = false /\ all_zeros_or_ones (legacy_pk ss) = false.

Lemma legacy_lengths ss : IsLegacyScriptSig ss = true ->
  len ss = 5265 /\ len (legacy_sig ss) = 3309 /\ len (legacy_pk ss) = 1952 /\
  convert_scriptSig ss = p2pkh_scriptSig (legacy_sig ss) (legacy_pk ss) /\
  u16 (Z.lor (byte_at ss 0) (Z.shiftl (byte_at ss 1) 8)) = DILITHIUM3_SIG_SIZE.
Proof.
  intros H. pose proof H as HL. unfold IsLegacyScriptSig in HL.
  change (2 + DILITHIUM3_SIG_SIZE + 2 + DILITHIUM3_PK_SIZE) with 5265 in HL.
  destruct (Z.eqb_spec (len ss) 5265) as [E|]; [|done]. cbn [negb] in HL. apply Z.eqb_eq in HL.
  assert (len (legacy_sig ss) = 3309) as E1.
  { unfold legacy_sig, slice, len, DILITHIUM3_SIG_SIZE in *. rewrite length_take, length_drop. lia. }
  assert (len (legacy_pk ss) = 1952) as E2.
  { unfold legacy_pk, len, DILITHIUM3_SIG_SIZE in *. rewrite length_drop. lia. }
  split_and!; [done..| |done].
  unfold convert_scriptSig. rewrite H. unfold p2pkh_scriptSig, push_data. rewrite E1, E2.
  rewrite <- app_assoc. reflexivity.
Qed.

Lemma len_sig_message i c : len (sig_message SHA3_256 tx i c) = 44.
Proof. unfold sig_message. rewrite !len_app. unfold len at 1, GetSigningHash. by rewrite SHA3_len. Qed.

Lemma input_paths_agree idx ss spk : clean_legacy ss spk -> 0 <= idx < 2 ^ 32 ->
  TxVerifyScript (Some p) SHA3_256 dilithium_verify tx idx ss spk = Ok tt <->
  exists t, PrepareSignatureData (Some p) SHA3_256 tx idx ss spk = Some t /\
    VerifySingle dilithium_verify t = true.
Proof.
  intros (Hp & Hl & Hk & Hz1 & Hz2) Hi.
  destruct (legacy_lengths ss Hl) as (L & L1 & L2 & EC & ES).
  assert (len spk = 25) as Ls by (unfold IsPayToPublicKeyHash in Hp; zprop; lia).
  assert (TxVerifyScript (Some p) SHA3_256 dilithium_verify tx idx ss spk = Ok tt <->
    HASH160 SHA3_256 (legacy_pk ss) = slice spk 3 20 /\
    Tx_CheckSig SHA3_256 dilithium_verify tx idx (chainID p) (legacy_sig ss) (legacy_pk ss) = true) as ->.
  { unfold TxVerifyScript. rewrite L, Ls. change (25 >? MAX_SCRIPT_SIZE) with false.
    change (5265 >? MAX_SCRIPT_SIZE) with false. cbn iota. rewrite EC.
    change (chain_id (Some p)) with (chainID p).
    etrans; [|apply (p2pkh_verify SHA3_256 (checker := TransactionSignatureChecker SHA3_256 dilithium_verify
      tx idx (chainID p)) (Z.lor SCRIPT_VERIFY_CHECKLOCKTIMEVERIFY SCRIPT_VERIFY_CHECKSEQUENCEVERIFY)
      spk (legacy_sig ss) (legacy_pk ss) Hp); unfold MAX_SCRIPT_ELEMENT_SIZE; lia].
    destruct (VerifyScript _ _ _ _) as [[[]|]|]; split; congruence. }
  assert (Tx_CheckSig SHA3_256 dilithium_verify tx idx (chainID p) (legacy_sig ss) (legacy_pk ss) =
    (dilithium_verify (legacy_sig ss) (SHA3_256 (sig_message SHA3_256 tx idx (chainID p))) (legacy_pk ss) =? 0))
    as ->.
  { unfold Tx_CheckSig. by rewrite L1, L2, Hz1, Hz2, len_sig_message. }
  unfold PrepareSignatureData. rewrite Ls, L, ES.
  assert ((byte_at spk 0 =? 0x76) && (byte_at spk 1 =? 0xa9) && (byte_at spk 2 =? 0x14) &&
    (byte_at spk 23 =? 0x88) && (byte_at spk 24 =? 0xac) = true) as ->.
  { unfold IsPayToPublicKeyHash, OP_DUP, OP_HASH160, OP_EQUALVERIFY, OP_CHECKSIG in Hp. zprop.
    by repeat match goal with H : byte_at spk _ = _ |- _ => rewrite H; clear H end. }
  change (negb (25 =? 25)) with false. change (5265 =? _) with true. cbn [negb]. cbn iota.
  change (negb (DILITHIUM3_SIG_SIZE =? DILITHIUM3_SIG_SIZE)) with false. cbn iota.
  change (2 + DILITHIUM3_SIG_SIZE) with 3311.
  replace (Z.to_nat 3311 + 1)%nat with (Z.to_nat 3312) by lia. rewrite Hk.
  change (negb (DILITHIUM3_PK_SIZE =? DILITHIUM3_PK_SIZE)) with false. cbn iota.
  assert (slice ss (Z.to_nat 3311 + 2) (Z.to_nat DILITHIUM3_PK_SIZE) = legacy_pk ss) as ->.
  { replace (Z.to_nat 3311 + 2)%nat with (Z.to_nat (2 + DILITHIUM3_SIG_SIZE + 2))
      by (unfold DILITHIUM3_SIG_SIZE; lia). unfold slice.
    fold (legacy_pk ss). apply take_ge. unfold len in L2. unfold DILITHIUM3_PK_SIZE. lia. }
  fold (legacy_sig ss). rewrite u32_small by lia. unfold HASH160.
  case_bool_decide as EH; cbn [negb].
  - assert (VerifySingle dilithium_verify (mkTask (legacy_sig ss)
      (SHA3_256 (sig_message SHA3_256 tx idx (chainID p))) (legacy_pk ss) idx) =
      (dilithium_verify (legacy_sig ss) (SHA3_256 (sig_message SHA3_256 tx idx (chainID p))) (legacy_pk ss) =? 0))
      as EV.
    { unfold VerifySingle. cbn [task_signature task_pubkey task_message]. rewrite L1, L2.
      unfold len. by rewrite SHA3_len. }
    split; [intros [_ HV]; eexists; split; [done|]; by rewrite EV|].
    intros (t & [= <-] & HV). rewrite EV in HV. done.
  - split; [by intros []|by intros (t & ? & _)].
Qed.

Abbreviation seq_fold := (fold_coins (sequential_step (Some p) SHA3_256 dilithium_verify tx)).

Lemma paths_agree m ins : forall idx, 0 <= idx -> idx + len ins < 2 ^ 32 ->
  Forall (fun i => exists e, m !! prevout i = Some e /\ clean_legacy (scriptSig i) (scriptPubKey (ue_out e))) ins ->
  snd (tasks_of (Some p) SHA3_256 tx idx ins m) = None /\
    forallb (VerifySingle dilithium_verify) (fst (tasks_of (Some p) SHA3_256 tx idx ins m)) = true <->
  exists n, seq_fold idx ins m = Ok n.
Proof.
  induction ins as [|i ins IH]; intros idx Hi Hn HF; cbn [fold_coins tasks_of].
  { split; [eauto|]. by intros _. }
  apply Forall_cons in HF as [(e & Ee & HC) HF]. unfold len in *. cbn [length] in Hn. rewrite Ee.
  pose proof (input_paths_agree idx _ _ HC ltac:(lia)) as HP. specialize (IH (idx + 1) ltac:(lia) ltac:(lia) HF).
  unfold sequential_step at 1.
  destruct (PrepareSignatureData _ _ _ _ _ _) as [t|].
  - cbn [fst snd forallb]. rewrite andb_true_iff. destruct (TxVerifyScript _ _ _ _ _ _ _) as [[]|err].
    + rewrite <- IH. destruct HP as [HP _]. destruct (HP eq_refl) as (t' & [= <-] & ->). tauto.
    + split; [|by intros [n ?]]. intros (_ & HV & _). destruct HP as [_ HP]. discriminate HP. eauto.
  - split; [by intros [? _]|]. intros [n H].
    destruct (TxVerifyScript _ _ _ _ _ _ _) as [[]|err]; [|done].
    destruct HP as [HP _]. by destruct (HP eq_refl) as (t' & ? & _).
Qed.
End BatchPath.

(** C9: the parallel signature path accepts what the sequential path accepts.
    For a transaction of fewer than 2^32 inputs that all spend existing P2PKH
    coins with a well-formed legacy scriptSig (right key-size prefix, no constant
    signature or key), with the chain parameters set, and a batch verifier with
    nothing queued or held: under every schedule in which [Wait] returns, the
    batch is accepted exactly when every input passes the script interpreter,
    whatever the coins view. *)
Theorem batch_equals_sequential (S : Type) (CV : CoinsView S) (p : ChainParams)
    (SHA3_256 : list Z -> uint256) (dilithium_verify : list Z -> list Z -> list Z -> Z)
    (v : Verifier) (tx : CTransaction) (s : S) (m : gmap COutPoint CUTXOEntry)
    (SHA3_len : forall l, length (SHA3_256 l) = 32%nat)
    (Hr : coins_rep s m) (Hin : Forall op_ok (prevout <$> vin tx)) (Hn : len (vin tx) < 2 ^ 32)
    (Hc : Forall (fun i => exists e, m !! prevout i = Some e /\
            clean_legacy (scriptSig i) (scriptPubKey (ue_out e))) (vin tx))
    (Hidle : verifier_idle v tx)
    (Hwait : fst (BatchVerifyScripts (Some p) SHA3_256 dilithium_verify (Some v) tx s) <> Err WaitPending) :
  fst (BatchVerifyScripts (Some p) SHA3_256 dilithium_verify (Some v) tx s) = Ok tt <->
  exists n, fst (verify_sequential (Some p) SHA3_256 dilithium_verify tx s) = Ok n.
Proof.
  assert (fst (verify_sequential (Some p) SHA3_256 dilithium_verify tx s) =
    fst (verify_sequential (Some p) SHA3_256 dilithium_verify tx m)) as -> by (apply agrees_for_coins; [done|exact Hr]).
  rewrite (proj1 (BatchVerifyScripts_agrees _ _ _ _ _ Hin s m Hr)) in *.
  rewrite BatchVerifyScripts_ok by done. unfold verify_sequential. rewrite for_coins_map. cbn [fst].
  apply (paths_agree SHA3_256 dilithium_verify p tx SHA3_len m (vin tx) 0); done || lia.
Qed.

(** ** Concrete transactions *)

Definition accept_all (sig msg pk : list Z) : Z := 0.

Definition p2pkh_of (h : list Z) : list Z := [0x76; 0xa9; 0x14] ++ h ++ [0x88; 0xac].

(** A coin anyone can spend ([OP_1]) and a transaction that spends it. *)
Definition open_coin : CUTXOEntry := mkEntry (mkTxOut 1000000 [OP_1]) 5 false.
Definition open_coins : gmap COutPoint CUTXOEntry := {[ sample_op := open_coin ]}.
Definition open_spend : CTransaction :=
  mkTx 1 [mkTxIn sample_op [] 0xffffffff] [mkTxOut 900000 (p2pkh_of (replicate 20 0))] 0.

Lemma CheckTransaction_sound_witness :
  fst (CheckTransaction (Some Testnet) toy_sha accept_all None open_spend 10 0 open_coins) = Ok 100000 /\
  exists es, coins_of open_coins (vin open_spend) es /\
    entries_value es = value_sum (vout open_spend) + 100000.
Proof.
  split; [vm_compute; reflexivity|].
  apply (CheckTransaction_sound _ MapView (Some Testnet) toy_sha accept_all None open_spend 10 0 100000
    open_coins open_coins).
  - reflexivity.
  - apply map_Forall_singleton. simpl. lia.
  - apply Forall_singleton. exact sample_op_ok.
  - reflexivity.
  - apply Forall_singleton. simpl. lia.
  - vm_compute. reflexivity.
  - exact I.
  - vm_compute. reflexivity.
Defined.

(** A legacy scriptSig whose key-size prefix is [k]. *)
Definition legacy_script (k : list Z) : list Z :=
  [237; 12] ++ replicate (Z.to_nat 3309) 7 ++ k ++ replicate (Z.to_nat 1952) 9.
Definition key_coin : CUTXOEntry :=
  mkEntry (mkTxOut 1000000 (p2pkh_of (HASH160 toy_sha (replicate (Z.to_nat 1952) 9)))) 5 false.
Definition key_coins : gmap COutPoint CUTXOEntry := {[ sample_op := key_coin ]}.
Definition key_spend (k : list Z) : CTransaction :=
  mkTx 1 [mkTxIn sample_op (legacy_script k) 0xffffffff] [mkTxOut 900000 (p2pkh_of (replicate 20 0))] 0.

(** An idle verifier of one thread, and a schedule that runs one task. *)
Definition one_worker (schedule : list Choice) : Verifier := mkVerifier idle_batch [WIdle] schedule.
Definition one_task : list Choice := [Client; Client; Client; Client; Worker 0; Worker 0; Worker 0; Client].

Lemma batch_equals_sequential_witness :
  fst (BatchVerifyScripts (Some Testnet) toy_sha accept_all (Some (one_worker one_task)) (key_spend [160; 7]) key_coins) = Ok tt /\
  exists n, fst (verify_sequential (Some Testnet) toy_sha accept_all (key_spend [160; 7]) key_coins) = Ok n.
Proof.
  assert (fst (BatchVerifyScripts (Some Testnet) toy_sha accept_all (Some (one_worker one_task)) (key_spend [160; 7]) key_coins) = Ok tt)
    as HB by (vm_compute; reflexivity).
  split; [exact HB|].
  apply (batch_equals_sequential _ MapView Testnet toy_sha accept_all (one_worker one_task) (key_spend [160; 7]) key_coins key_coins).
  - exact toy_sha_len.
  - reflexivity.
  - apply Forall_singleton. exact sample_op_ok.
  - vm_compute. reflexivity.
  - apply Forall_singleton. exists key_coin. split; [reflexivity|]. split_and!; vm_compute; reflexivity.
  - split_and!; vm_compute; reflexivity.
  - rewrite HB. discriminate.
  - exact HB.
Defined.

(** The two paths read the key-size prefix differently: the interpreter path
    ignores it, the batch path refuses a wrong one, so whether such a
    transaction is accepted depends on whether the batch verifier runs. *)
Example key_size_prefix_splits_paths :
  fst (verify_sequential (Some Testnet) toy_sha accept_all (key_spend [0; 0]) key_coins) = Ok 1 /\
  fst (BatchVerifyScripts (Some Testnet) toy_sha accept_all (Some (one_worker one_task)) (key_spend [0; 0]) key_coins) =
    Err PrepareFailed.
Proof. split; vm_compute; reflexivity. Qed.

(** A second input that cannot be prepared ends the batch, and the task of the
    first stays in the queue for whoever comes next. *)
Example refused_batch_leaves_task :
  let tx := mkTx 1 [mkTxIn sample_op (legacy_script [160; 7]) 0xffffffff; mkTxIn sample_op [] 0xffffffff] [] 0 in
  let v := one_worker [Client; Client; Client; Client] in
  fst (BatchVerifyScripts (Some Testnet) toy_sha accept_all (Some v) tx key_coins) = Err PrepareFailed /\
  (fun st => len (m_queue (fst st))) <$> verifier_after (Some Testnet) toy_sha accept_all v tx key_coins = Some 1.
Proof. split; vm_compute; reflexivity. Qed.

(** The value of a data-carrier output is not range-checked but is added to the
    output total, which wraps: a transaction can create more spendable value
    than it consumes. *)
Definition inflating_spend : CTransaction :=
  mkTx 1 [mkTxIn sample_op [] 0xffffffff]
    [mkTxOut 2000000 (p2pkh_of (replicate 20 0)); mkTxOut (2 ^ 64 - 1100000) [OP_RETURN]] 0.

Example data_carrier_inflates :
  fst (CheckTransaction (Some Testnet) toy_sha accept_all None inflating_spend 10 0 open_coins) = Ok 100000 /\
  entries_value [open_coin] = 1000000.
Proof. split; vm_compute; reflexivity. Qed.

(** A negative version passes the structural check. *)
Example negative_version_accepted :
  CheckTransactionBasic (mkTx (-1) (vin open_spend) (vout open_spend) 0) = Ok tt.
Proof. vm_compute. reflexivity. Qed.
