(* ===== verification/Dfmp.v ===== *)
(** * Fair mining: identities, heat and difficulty multipliers (dfmp/dfmp.h, dfmp/dfmp.cpp)

    Miner identities, the sliding-window heat tracker with its file format, the
    fixed-point penalty curves of every protocol version and the target they
    scale.  Multipliers are [int64_t] and wrap; SHA3-256 is a variable. *)

From S2P Require Import Prelude Uint256 Transaction.

(** ** Identities *)

Abbreviation Identity := (list Z).

Definition null_identity : Identity := replicate 20 0.
Definition Identity_IsNull (id : Identity) : bool := forallb (fun b => b =? 0) id.
(** [Identity(const uint8_t* bytes)] copies 20 bytes. *)
Definition Identity_of (bytes : list Z) : Identity := take 20 bytes.

Section Derive.
  Variable SHA3_256 : list Z -> uint256.

Definition DeriveIdentityFromScript (scriptPubKey : list Z) : Identity :=
  match scriptPubKey with
  | [] => null_identity
  | _ => Identity_of (SHA3_256 scriptPubKey)
  end.

Definition DeriveIdentity (coinbaseTx : CTransaction) : Identity :=
  match vout coinbaseTx with
  | [] => null_identity
  | out :: _ => DeriveIdentityFromScript (scriptPubKey out)
  end.
End Derive.

(** ** The heat tracker *)

Definition OBSERVATION_WINDOW : Z := 360.
Definition FREE_TIER_THRESHOLD : Z := 12.

Record CHeatTracker := mkTracker {
  m_window : list (Z * Identity);
  m_heatCache : gmap Identity Z
}.

Definition empty_tracker : CHeatTracker := mkTracker [] ∅.

(** [m_heatCache[identity]++] and its guarded decrement. *)
Definition cache_inc (c : gmap Identity Z) (id : Identity) : gmap Identity Z :=
  <[id := default 0 (c !! id) + 1]> c.
Definition cache_dec (c : gmap Identity Z) (id : Identity) : gmap Identity Z :=
  match c !! id with
  | Some n => if n - 1 <=? 0 then delete id c else <[id := n - 1]> c
  | None => c
  end.

(** [while (!m_window.empty() && m_window.front().first <= bound) pop_front]. *)
Fixpoint pop_old (bound : Z) (w : list (Z * Identity)) (c : gmap Identity Z) : CHeatTracker :=
  match w with
  | [] => mkTracker [] c
  | (h, id) :: w' => if h <=? bound then pop_old bound w' (cache_dec c id) else mkTracker w c
  end.

Definition OnBlockConnected (t : CHeatTracker) (height : Z) (identity : Identity) : CHeatTracker :=
  pop_old (height - OBSERVATION_WINDOW) (m_window t ++ [(height, identity)])
          (cache_inc (m_heatCache t) identity).

(** [while (!m_window.empty() && m_window.back().first >= height) pop_back], on
    the reversed window. *)
Fixpoint pop_recent (height : Z) (rw : list (Z * Identity)) (c : gmap Identity Z) : CHeatTracker :=
  match rw with
  | [] => mkTracker [] c
  | (h, id) :: rw' => if h >=? height then pop_recent height rw' (cache_dec c id)
                      else mkTracker (rev rw) c
  end.

Definition OnBlockDisconnected (t : CHeatTracker) (height : Z) : CHeatTracker :=
  pop_recent height (rev (m_window t)) (m_heatCache t).

Definition GetHeat (t : CHeatTracker) (identity : Identity) : Z := default 0 (m_heatCache t !! identity).
Definition GetEffectiveHeat (t : CHeatTracker) (identity : Identity) : Z :=
  Z.max 0 (GetHeat t identity - FREE_TIER_THRESHOLD).
Definition Heat_Clear (t : CHeatTracker) : CHeatTracker := empty_tracker.
Definition GetWindowSize (t : CHeatTracker) : Z := len (m_window t).
Definition GetUniqueMinerCount (t : CHeatTracker) : Z := Z.of_nat (size (m_heatCache t)).

(** *** Persistence *)

Definition HEAT_FILE_MAGIC : Z := 0x48454154.
Definition HEAT_FILE_VERSION : Z := 1.

Definition heat_entry (e : Z * Identity) : list Z := le_bytes 4 (u32 e.1) ++ e.2.

Definition SaveToFile (t : CHeatTracker) (tipHeight : Z) : list Z :=
  le_bytes 4 HEAT_FILE_MAGIC ++ le_bytes 4 HEAT_FILE_VERSION ++ le_bytes 4 (u32 tipHeight) ++
  le_bytes 4 (u32 (len (m_window t))) ++ concat (heat_entry <$> m_window t).

Inductive HeatFileError : Set := HeatCorrupt | HeatStale | HeatTooMany | HeatTruncated.

(** [file.read(buf, n)]: a short read leaves the stream in a failed state. *)
Definition file_read (n : nat) (file : list Z) : option (list Z * list Z) :=
  if (n <=? length file)%nat then Some (take n file, drop n file) else None.

(** The entry loop: a short read clears the tracker. *)
Fixpoint read_heat_entries (count : nat) (file : list Z) (t : CHeatTracker)
  : option HeatFileError * CHeatTracker :=
  match count with
  | O => (None, t)
  | S count' =>
      match file_read 4 file with
      | None => (Some HeatTruncated, empty_tracker)
      | Some (hb, file1) =>
          match file_read 20 file1 with
          | None => (Some HeatTruncated, empty_tracker)
          | Some (id, file2) =>
              read_heat_entries count' file2
                (mkTracker (m_window t ++ [(i32 (le_val hb), id)]) (cache_inc (m_heatCache t) id))
          end
      end
  end.

(** No error, or the reason for rebuilding from the chain; and the tracker. *)
Definition LoadFromFile (t : CHeatTracker) (file : list Z) (expectedTipHeight : Z)
  : option HeatFileError * CHeatTracker :=
  if (length file <? 16)%nat then (Some HeatCorrupt, t)
  else
    let magic := le_val (slice file 0 4) in
    let version := le_val (slice file 4 4) in
    let tip := i32 (le_val (slice file 8 4)) in
    let count := le_val (slice file 12 4) in
    if negb (magic =? HEAT_FILE_MAGIC) || negb (version =? HEAT_FILE_VERSION) then (Some HeatCorrupt, t)
    else if negb (tip =? i32 expectedTipHeight) then (Some HeatStale, t)
    else if count >? OBSERVATION_WINDOW + 10 then (Some HeatTooMany, t)
    else read_heat_entries (Z.to_nat count) (drop 16 file) empty_tracker.

(** ** Multipliers *)

Definition FP_SCALE : Z := 1000000.
Definition FP_PENDING_START : Z := 5000000.
Definition FP_PENDING_END : Z := 1000000.
Definition FP_HEAT_CLIFF : Z := 2000000.
Definition FP_HEAT_GROWTH : Z := 158.
Definition DORMANCY_THRESHOLD : Z := 720.
Definition DORMANCY_DECAY_BLOCKS : Z := 400.
Definition REGISTRATION_POW_BITS : Z := 28.
Definition FREE_TIER_THRESHOLD_V31 : Z := 36.
Definition FP_PENDING_START_V31 : Z := 2000000.
Definition FP_HEAT_CLIFF_V31 : Z := 1500000.
Definition FP_HEAT_GROWTH_V31 : Z := 108.
Definition FREE_TIER_THRESHOLD_V32 : Z := 12.
Definition FP_PENDING_START_V32 : Z := 2500000.
Definition FP_HEAT_CLIFF_V32 : Z := 2000000.
Definition FP_HEAT_GROWTH_V32 : Z := 158.
Definition FREE_TIER_THRESHOLD_V33 : Z := 12.
Definition LINEAR_ZONE_END_V33 : Z := 24.
Definition FP_LINEAR_END_PENALTY_V33 : Z := 4000000.
Definition FP_HEAT_GROWTH_V33 : Z := 158.
Definition FREE_TIER_THRESHOLD_V34_VERIFIED : Z := 12.
Definition FREE_TIER_THRESHOLD_V34_UNVERIFIED : Z := 3.
Definition LINEAR_ZONE_END_V34 : Z := 24.
Definition FP_LINEAR_END_PENALTY_V34 : Z := 4000000.
Definition FP_HEAT_GROWTH_V34 : Z := 158.

(** [for (i = 0; i < exponent; i++) penalty = (penalty * growth) / 100]. *)
Fixpoint grow_penalty (exponent : nat) (growth penalty : Z) : Z :=
  match exponent with
  | O => penalty
  | S n => grow_penalty n growth (Z.quot (i64 (penalty * growth)) 100)
  end.

(** The free tier, scaled by the number of active miners. *)
Definition dynamic_threshold (base uniqueMiners : Z) : Z :=
  if uniqueMiners >? 0 then Z.max base (Z.quot OBSERVATION_WINDOW (Z.max 1 uniqueMiners)) else base.

(** Free tier, cliff, then exponential growth (v3.0 to v3.2). *)
Definition cliff_penalty (free cliff growth heat uniqueMiners : Z) : Z :=
  let effectiveFreeThreshold := dynamic_threshold free uniqueMiners in
  if heat <=? effectiveFreeThreshold then FP_SCALE
  else grow_penalty (Z.to_nat (heat - effectiveFreeThreshold - 1)) growth cliff.

(** [(pendingFP * heatFP) / FP_SCALE]. *)
Definition total_multiplier (pendingFP heatFP : Z) : Z := Z.quot (i64 (pendingFP * heatFP)) FP_SCALE.

Definition CalculatePendingPenaltyFP (currentHeight firstSeenHeight : Z) : Z :=
  if firstSeenHeight <? 0 then FP_PENDING_START
  else
    let age := currentHeight - firstSeenHeight in
    if age <? 160 then 5000000 else if age <? 320 then 4000000 else if age <? 480 then 3000000
    else if age <? 640 then 2000000 else if age <? 800 then 1500000 else FP_PENDING_END.

Definition CalculateHeatMultiplierFP (heat uniqueMiners : Z) : Z :=
  cliff_penalty FREE_TIER_THRESHOLD FP_HEAT_CLIFF FP_HEAT_GROWTH heat uniqueMiners.

Definition CalculateTotalMultiplierFP (currentHeight firstSeenHeight heat uniqueMiners : Z) : Z :=
  total_multiplier (CalculatePendingPenaltyFP currentHeight firstSeenHeight)
                   (CalculateHeatMultiplierFP heat uniqueMiners).

Definition CalculatePendingPenaltyFP_V31 (currentHeight firstSeenHeight : Z) : Z :=
  if firstSeenHeight <? 0 then FP_PENDING_START_V31
  else
    let age := currentHeight - firstSeenHeight in
    if age <? 100 then 2000000 else if age <? 200 then 1500000 else if age <? 300 then 1250000
    else if age <? 400 then 1100000 else FP_PENDING_END.

Definition CalculateHeatMultiplierFP_V31 (heat uniqueMiners : Z) : Z :=
  cliff_penalty FREE_TIER_THRESHOLD_V31 FP_HEAT_CLIFF_V31 FP_HEAT_GROWTH_V31 heat uniqueMiners.

Definition CalculateTotalMultiplierFP_V31 (currentHeight firstSeenHeight heat uniqueMiners : Z) : Z :=
  total_multiplier (CalculatePendingPenaltyFP_V31 currentHeight firstSeenHeight)
                   (CalculateHeatMultiplierFP_V31 heat uniqueMiners).

Definition CalculatePendingPenaltyFP_V32 (currentHeight firstSeenHeight : Z) : Z :=
  if firstSeenHeight <? 0 then FP_PENDING_START_V32
  else
    let age := currentHeight - firstSeenHeight in
    if age <? 100 then 2500000 else if age <? 200 then 2000000 else if age <? 300 then 1500000
    else if age <? 400 then 1250000 else if age <? 500 then 1100000 else FP_PENDING_END.

Definition CalculateHeatMultiplierFP_V32 (heat uniqueMiners : Z) : Z :=
  cliff_penalty FREE_TIER_THRESHOLD_V32 FP_HEAT_CLIFF_V32 FP_HEAT_GROWTH_V32 heat uniqueMiners.

Definition CalculateTotalMultiplierFP_V32 (currentHeight firstSeenHeight heat uniqueMiners : Z) : Z :=
  total_multiplier (CalculatePendingPenaltyFP_V32 currentHeight firstSeenHeight)
                   (CalculateHeatMultiplierFP_V32 heat uniqueMiners).

Definition CalculatePendingPenaltyFP_V33 (currentHeight firstSeenHeight : Z) : Z :=
  CalculatePendingPenaltyFP_V32 currentHeight firstSeenHeight.

Definition CalculateHeatMultiplierFP_V33 (heat : Z) : Z :=
  if heat <=? FREE_TIER_THRESHOLD_V33 then FP_SCALE
  else if heat <=? LINEAR_ZONE_END_V33 then
    FP_SCALE + Z.quot ((heat - FREE_TIER_THRESHOLD_V33) * FP_SCALE) 4
  else grow_penalty (Z.to_nat (heat - LINEAR_ZONE_END_V33)) FP_HEAT_GROWTH_V33 FP_LINEAR_END_PENALTY_V33.

Definition CalculateTotalMultiplierFP_V33 (currentHeight firstSeenHeight heat : Z) : Z :=
  total_multiplier (CalculatePendingPenaltyFP_V33 currentHeight firstSeenHeight)
                   (CalculateHeatMultiplierFP_V33 heat).

Definition CalculatePendingPenaltyFP_V34 (currentHeight firstSeenHeight : Z) : Z :=
  CalculatePendingPenaltyFP_V32 currentHeight firstSeenHeight.

Definition CalculateHeatMultiplierFP_V34 (heat : Z) (isVerified : bool) : Z :=
  let freeTier := if isVerified then FREE_TIER_THRESHOLD_V34_VERIFIED
                  else FREE_TIER_THRESHOLD_V34_UNVERIFIED in
  if heat <=? freeTier then FP_SCALE
  else if heat <=? LINEAR_ZONE_END_V34 then
    FP_SCALE + Z.quot ((heat - freeTier) * 3 * FP_SCALE) (LINEAR_ZONE_END_V34 - freeTier)
  else grow_penalty (Z.to_nat (heat - LINEAR_ZONE_END_V34)) FP_HEAT_GROWTH_V34 FP_LINEAR_END_PENALTY_V34.

Definition CalculateTotalMultiplierFP_V34 (currentHeight firstSeenHeight heat : Z) (isVerified : bool) : Z :=
  total_multiplier (CalculatePendingPenaltyFP_V34 currentHeight firstSeenHeight)
                   (CalculateHeatMultiplierFP_V34 heat isVerified).

(** Version 2.0 (dfmp/mik.cpp). *)
Definition OBSERVATION_WINDOW_V2 : Z := 360.
Definition FREE_TIER_THRESHOLD_V2 : Z := 20.
Definition LINEAR_ZONE_UPPER_V2 : Z := 25.
Definition FP_LINEAR_INCREMENT_V2 : Z := 100000.
Definition FP_MATURITY_START_V2 : Z := 3000000.
Definition FP_MATURITY_STEP_25 : Z := 2500000.
Definition FP_MATURITY_STEP_20 : Z := 2000000.
Definition FP_MATURITY_STEP_15 : Z := 1500000.

Definition CalculateMaturityPenaltyFP_V2 (currentHeight firstSeenHeight : Z) : Z :=
  if firstSeenHeight <? 0 then FP_MATURITY_START_V2
  else
    let age := currentHeight - firstSeenHeight in
    if age <? 100 then FP_MATURITY_START_V2 else if age <? 200 then FP_MATURITY_STEP_25
    else if age <? 300 then FP_MATURITY_STEP_20 else if age <? 400 then FP_MATURITY_STEP_15 else FP_SCALE.

Definition CalculateHeatPenaltyFP_V2 (blocksInWindow uniqueMiners : Z) : Z :=
  let effectiveFreeThreshold :=
    if uniqueMiners >? 0
    then Z.max FREE_TIER_THRESHOLD_V2 (Z.quot OBSERVATION_WINDOW_V2 (Z.max 1 uniqueMiners))
    else FREE_TIER_THRESHOLD_V2 in
  let linearZoneWidth := LINEAR_ZONE_UPPER_V2 - FREE_TIER_THRESHOLD_V2 in
  let effectiveLinearUpper := effectiveFreeThreshold + linearZoneWidth in
  if blocksInWindow <=? effectiveFreeThreshold then FP_SCALE
  else if blocksInWindow <=? effectiveLinearUpper then
    FP_SCALE + FP_LINEAR_INCREMENT_V2 * (blocksInWindow - effectiveFreeThreshold)
  else grow_penalty (Z.to_nat (blocksInWindow - effectiveLinearUpper)) 108 FP_MATURITY_STEP_15.

Definition CalculateTotalMultiplierFP_V2 (currentHeight firstSeenHeight blocksInWindow uniqueMiners : Z) : Z :=
  total_multiplier (CalculateMaturityPenaltyFP_V2 currentHeight firstSeenHeight)
                   (CalculateHeatPenaltyFP_V2 blocksInWindow uniqueMiners).

(** ** The effective target *)

(** The four little-endian 64-bit words of a target ([memcpy]). *)
Definition words_of (t : uint256) : list Z :=
  [le_val (slice t 0 8); le_val (slice t 8 8); le_val (slice t 16 8); le_val (slice t 24 8)].

(** The words times [FP_SCALE] and the carry out of the top one. *)
Fixpoint scale_words (words : list Z) (carry : Z) : list Z * Z :=
  match words with
  | [] => ([], carry)
  | w :: words' =>
      let product := w * FP_SCALE + carry in
      let '(rest, carry') := scale_words words' (Z.shiftr product 64) in
      (u64 product :: rest, carry')
  end.

(** Long division from the most significant word; the result's words are
    little-endian again. *)
Fixpoint divide_words (rwords : list Z) (divisor remainder : Z) (acc : list Z) : list Z :=
  match rwords with
  | [] => acc
  | w :: rwords' =>
      let remainder := Z.lor (Z.shiftl remainder 64 mod 2 ^ 128) w in
      divide_words rwords' divisor (remainder mod divisor) (u64 (remainder / divisor) :: acc)
  end.

Definition CalculateEffectiveTarget (baseTarget : uint256) (multiplierFP : Z) : uint256 :=
  let multiplierFP := if multiplierFP <? FP_SCALE then FP_SCALE else multiplierFP in
  let divisor := u64 multiplierFP in
  let '(words, carry) := scale_words (words_of baseTarget) 0 in
  let result := concat (le_bytes 8 <$> divide_words (rev words) divisor carry []) in
  if isZero_loop 32 result 0 then <[0%nat := 1]> result else result.

(** ** The tracker counts its window *)

Definition heat_in (w : list (Z * Identity)) (id : Identity) : Z := len (filter (fun e => e.2 = id) w).

Definition cache_rep (c : gmap Identity Z) (w : list (Z * Identity)) : Prop :=
  forall id, c !! id = if heat_in w id =? 0 then None else Some (heat_in w id).

Definition tracker_ok (t : CHeatTracker) : Prop := cache_rep (m_heatCache t) (m_window t).

Lemma heat_in_nonneg w id : 0 <= heat_in w id.
Proof. unfold heat_in, len. lia. Qed.

Lemma heat_in_app w v id : heat_in (w ++ v) id = heat_in w id + heat_in v id.
Proof. unfold heat_in, len. rewrite filter_app, length_app. lia. Qed.

Lemma heat_in_one h x id : heat_in [(h, x)] id = if decide (x = id) then 1 else 0.
Proof. unfold heat_in, len. rewrite filter_cons, filter_nil. simpl. by case_decide. Qed.

Lemma heat_in_cons h x w id : heat_in ((h, x) :: w) id = (if decide (x = id) then 1 else 0) + heat_in w id.
Proof. change ((h, x) :: w) with ([(h, x)] ++ w). by rewrite heat_in_app, heat_in_one. Qed.

Lemma heat_in_rev w id : heat_in (rev w) id = heat_in w id.
Proof.
  induction w as [|[h x] w IH]; [done|]. cbn [rev]. rewrite heat_in_app, IH, heat_in_one, heat_in_cons. lia.
Qed.

Lemma cache_rep_inc c w h x : cache_rep c w -> cache_rep (cache_inc c x) (w ++ [(h, x)]).
Proof.
  intros H id. unfold cache_inc. rewrite heat_in_app, heat_in_one, (H x).
  pose proof (heat_in_nonneg w id) as Hn. case_decide as Hd; [subst x|].
  - rewrite lookup_insert_eq. destruct (Z.eqb_spec (heat_in w id) 0) as [E|E];
      (destruct (Z.eqb_spec (heat_in w id + 1) 0); [lia|]); simpl; f_equal; lia.
  - rewrite lookup_insert_ne by done. rewrite (H id). by rewrite Z.add_0_r.
Qed.

Lemma cache_rep_dec c w h x : cache_rep c ((h, x) :: w) -> cache_rep (cache_dec c x) w.
Proof.
  intros H id. unfold cache_dec. rewrite (H x), heat_in_cons, decide_True by done.
  pose proof (heat_in_nonneg w x) as Hx. pose proof (H id) as Hid. rewrite heat_in_cons in Hid.
  destruct (Z.eqb_spec (1 + heat_in w x) 0); [lia|].
  destruct (Z.leb_spec (1 + heat_in w x - 1) 0), (decide (x = id)) as [->|Hne].
  - rewrite lookup_delete_eq. replace (heat_in w id) with 0 by lia. done.
  - by rewrite lookup_delete_ne, Hid by done.
  - rewrite lookup_insert_eq. destruct (Z.eqb_spec (heat_in w id) 0); [lia|]. f_equal. lia.
  - by rewrite lookup_insert_ne, Hid by done.
Qed.

Lemma cache_rep_rev c w : cache_rep c (rev w) <-> cache_rep c w.
Proof. unfold cache_rep. split; intros H id; specialize (H id); by rewrite heat_in_rev in *. Qed.

Lemma pop_old_ok b w : forall c, cache_rep c w -> tracker_ok (pop_old b w c).
Proof.
  induction w as [|[h x] w IH]; intros c H; cbn [pop_old]; [done|].
  destruct (h <=? b); [|done]. by apply IH, (cache_rep_dec _ _ h).
Qed.

Lemma pop_recent_ok b rw : forall c, cache_rep c rw -> tracker_ok (pop_recent b rw c).
Proof.
  induction rw as [|[h x] rw IH]; intros c H; cbn [pop_recent]; [done|].
  destruct (h >=? b); [by apply IH, (cache_rep_dec _ _ h)|]. red. cbn -[rev]. by rewrite cache_rep_rev.
Qed.

Lemma OnBlockConnected_ok t h id : tracker_ok t -> tracker_ok (OnBlockConnected t h id).
Proof. intros H. apply pop_old_ok. by apply cache_rep_inc. Qed.

Lemma OnBlockDisconnected_ok t h : tracker_ok t -> tracker_ok (OnBlockDisconnected t h).
Proof. intros H. apply pop_recent_ok. by rewrite cache_rep_rev. Qed.

Lemma empty_tracker_ok : tracker_ok empty_tracker.
Proof. intros id. done. Qed.
#[export] Hint Resolve OnBlockConnected_ok OnBlockDisconnected_ok empty_tracker_ok : dil.

Lemma GetHeat_ok t id : tracker_ok t -> GetHeat t id = heat_in (m_window t) id.
Proof. intros H. unfold GetHeat. rewrite (H id). destruct (Z.eqb_spec (heat_in (m_window t) id) 0); [by simpl|done]. Qed.

Lemma heat_in_pos w id : 0 < heat_in w id <-> id ∈ w.*2.
Proof.
  induction w as [|[h x] w IH]; cbn [fmap list_fmap].
  { rewrite elem_of_nil. unfold heat_in, len. simpl. lia. }
  rewrite heat_in_cons, elem_of_cons, <- IH. pose proof (heat_in_nonneg w id).
  case_decide; simpl; intuition (try lia; try congruence).
Qed.

Lemma GetUniqueMinerCount_ok t : tracker_ok t ->
  GetUniqueMinerCount t = len (remove_dups (m_window t).*2).
Proof.
  intros H. unfold GetUniqueMinerCount, len. f_equal.
  rewrite <- (size_dom (D := gset Identity)).
  replace (dom (m_heatCache t)) with (list_to_set (remove_dups (m_window t).*2) : gset Identity).
  { apply size_list_to_set, NoDup_remove_dups. }
  apply set_eq. intros id. rewrite elem_of_list_to_set, elem_of_remove_dups, elem_of_dom, (H id), <- heat_in_pos.
  pose proof (heat_in_nonneg (m_window t) id).
  destruct (Z.eqb_spec (heat_in (m_window t) id) 0); split; intros Hx; try lia; try done; by destruct Hx.
Qed.

(** ** The window is the recent chain

    The chain as the list of miners from height [base], and the index below
    which blocks no longer count.  Disconnecting lowers the tip but never brings
    back a block that has left the window. *)

Inductive HeatOp : Type := HConnect (id : Identity) | HDisconnect (k : nat).

Definition heat_spec_step (s : list Identity * nat) (op : HeatOp) : list Identity * nat :=
  match op with
  | HConnect id => (s.1 ++ [id], Nat.max s.2 (S (length s.1) - 360))
  | HDisconnect k => (take k s.1, Nat.min s.2 (length (take k s.1)))
  end.

Definition heat_step (base : Z) (s : list Identity * nat) (t : CHeatTracker) (op : HeatOp) : CHeatTracker :=
  match op with
  | HConnect id => OnBlockConnected t (base + len s.1) id
  | HDisconnect k => OnBlockDisconnected t (base + Z.of_nat k)
  end.

Fixpoint heat_run (base : Z) (s : list Identity * nat) (t : CHeatTracker) (ops : list HeatOp)
  : (list Identity * nat) * CHeatTracker :=
  match ops with
  | [] => (s, t)
  | op :: ops' => heat_run base (heat_spec_step s op) (heat_step base s t op) ops'
  end.

Fixpoint numbered (h : Z) (ids : list Identity) : list (Z * Identity) :=
  match ids with
  | [] => []
  | id :: ids' => (h, id) :: numbered (h + 1) ids'
  end.

Lemma numbered_app h l k : numbered h (l ++ k) = numbered h l ++ numbered (h + len l) k.
Proof.
  revert h; induction l as [|x l IH]; intros h; unfold len; cbn [numbered app length].
  - by rewrite Z.add_0_r.
  - rewrite IH. unfold len. do 3 f_equal. lia.
Qed.

Lemma numbered_snd h l : (numbered h l).*2 = l.
Proof. revert h; induction l as [|x l IH]; intros h; cbn; [done|]. by rewrite IH. Qed.

Lemma pop_old_numbered b l : forall h c,
  m_window (pop_old b (numbered h l) c) = numbered (h + Z.of_nat (Nat.min (Z.to_nat (b - h + 1)) (length l)))
                                                  (drop (Z.to_nat (b - h + 1)) l).
Proof.
  induction l as [|x l IH]; intros h c; cbn [numbered pop_old length].
  { rewrite drop_nil. done. }
  destruct (Z.leb_spec h b).
  - rewrite IH. replace (Z.to_nat (b - h + 1)) with (S (Z.to_nat (b - (h + 1) + 1))) by lia.
    cbn [drop]. f_equal. lia.
  - replace (Z.to_nat (b - h + 1)) with O by lia. cbn -[numbered]. by rewrite Z.add_0_r.
Qed.

Lemma pop_recent_numbered b l : forall h c,
  m_window (pop_recent b (rev (numbered h l)) c) = numbered h (take (Z.to_nat (b - h)) l).
Proof.
  induction l as [|x l IH] using rev_ind; intros h c.
  { by rewrite take_nil. }
  rewrite numbered_app, rev_app_distr. cbn [numbered rev app pop_recent]. rewrite Z.geb_leb.
  destruct (Z.leb_spec b (h + len l)); unfold len in *.
  - rewrite IH, take_app_le by lia. done.
  - rewrite (take_ge (l ++ [x])) by (rewrite length_app; simpl; lia).
    cbn [m_window rev]. by rewrite rev_involutive, numbered_app.
Qed.

Definition heat_inv (base : Z) (s : list Identity * nat) (t : CHeatTracker) : Prop :=
  tracker_ok t /\ (s.2 <= length s.1 <= s.2 + 360)%nat /\
  m_window t = numbered (base + Z.of_nat s.2) (drop s.2 s.1).

Lemma heat_step_inv base s t op : heat_inv base s t ->
  heat_inv base (heat_spec_step s op) (heat_step base s t op).
Proof.
  destruct s as [l lo]. intros (Hok & Hlo & Hw); cbn [fst snd] in *.
  unfold heat_inv. destruct op as [id|k]; cbn [heat_spec_step heat_step fst snd].
  - split; [auto with dil|]. rewrite length_app; cbn [length fst snd]. split; [lia|].
    unfold OnBlockConnected. rewrite Hw.
    replace (base + len l) with (base + Z.of_nat lo + len (drop lo l)) by (unfold len; rewrite length_drop; lia).
    change [(?h, id)] with (numbered h [id]). rewrite <- numbered_app, <- drop_app_le by lia.
    rewrite pop_old_numbered, drop_drop. unfold len, OBSERVATION_WINDOW. rewrite !length_drop, length_app. cbn [length].
    f_equal; [lia|]. f_equal. lia.
  - split; [auto with dil|]. rewrite length_take. cbn [fst snd]. split; [lia|].
    unfold OnBlockDisconnected. rewrite Hw, pop_recent_numbered.
    destruct (Nat.le_gt_cases lo k).
    + replace (Nat.min lo (Nat.min k (length l))) with lo by lia.
      rewrite take_drop_commute. f_equal. f_equal. f_equal. lia.
    + replace (Nat.min lo (Nat.min k (length l))) with k by lia.
      replace (Z.to_nat _) with O by lia. rewrite take_0, (drop_ge (take k l)) by (rewrite length_take; lia).
      done.
Qed.

Lemma heat_run_inv base ops : forall s t, heat_inv base s t ->
  heat_inv base (heat_run base s t ops).1 (heat_run base s t ops).2.
Proof. induction ops as [|op ops IH]; intros s t H; cbn [heat_run]; [done|]. by apply IH, heat_step_inv. Qed.

Definition miner_count (l : list Identity) (id : Identity) : Z := len (filter (fun x => x = id) l).

Lemma heat_in_numbered h l id : heat_in (numbered h l) id = miner_count l id.
Proof.
  revert h; induction l as [|x l IH]; intros h; [done|]. cbn [numbered]. rewrite heat_in_cons, IH.
  unfold miner_count, len. rewrite filter_cons. case_decide; cbn [length]; lia.
Qed.

Lemma miner_count_le l id : miner_count l id <= len l.
Proof. unfold miner_count, len. pose proof (length_filter (fun x => x = id) l). lia. Qed.

(** C20: the heat tracker implements its specification over the chain: after
    any sequence of connected and disconnected blocks, an identity's heat is the
    number of its blocks among those of the chain that are still in the window
    (at most 360), the miner count is the number of distinct identities there,
    and without a reorganisation the window is exactly the last 360 blocks. *)
Theorem heat_tracker_refines_chain (base : Z) (ops : list HeatOp) :
  let '((chain, lo), t) := heat_run base ([], O) empty_tracker ops in
  (forall id, GetHeat t id = miner_count (drop lo chain) id /\ 0 <= GetHeat t id <= OBSERVATION_WINDOW) /\
  GetUniqueMinerCount t = len (remove_dups (drop lo chain)) /\
  GetWindowSize t = len (drop lo chain) /\
  (forall ids, ops = HConnect <$> ids -> chain = ids /\ lo = (length ids - 360)%nat).
Proof.
  assert (Hinv : heat_inv base ([], O) empty_tracker) by (split; [apply empty_tracker_ok|cbn; split; [lia|done]]).
  apply (heat_run_inv base ops) in Hinv.
  assert (Hc : forall ids s t, (heat_run base s t (HConnect <$> ids)).1 =
    (s.1 ++ ids, Nat.max s.2 (if decide (ids = []) then O else length s.1 + length ids - 360)%nat)).
  { induction ids as [|i ids IH]; intros [l lo] t; cbn [fmap list_fmap heat_run].
    - by rewrite app_nil_r, decide_True, Nat.max_0_r.
    - rewrite IH. cbn [heat_spec_step fst snd]. rewrite <- app_assoc, length_app. cbn [app length]. f_equal.
      rewrite (decide_False (P := i :: ids = [])) by discriminate.
      destruct ids as [|j ids]; [rewrite decide_True by done|rewrite decide_False by discriminate]; cbn [length]; lia. }
  assert (Hall : forall ids, ops = HConnect <$> ids ->
    (heat_run base ([], O) empty_tracker ops).1 = (ids, (length ids - 360)%nat)).
  { intros ids ->. rewrite Hc. simpl. f_equal. case_decide; subst; simpl; lia. }
  destruct (heat_run base ([], O) empty_tracker ops) as [[chain lo] t].
  destruct Hinv as (Hok & Hlo & Hw); cbn [fst snd] in *.
  assert (forall id, GetHeat t id = miner_count (drop lo chain) id) as HH.
  { intros id. by rewrite GetHeat_ok, Hw, heat_in_numbered. }
  split_and!.
  - intros id. rewrite HH. split; [done|]. pose proof (miner_count_le (drop lo chain) id).
    unfold miner_count, len, OBSERVATION_WINDOW in *. rewrite length_drop in *. lia.
  - by rewrite GetUniqueMinerCount_ok, Hw, numbered_snd.
  - unfold GetWindowSize. rewrite Hw. unfold len. f_equal.
    rewrite <- (length_fmap snd (numbered _ _)), numbered_snd. done.
  - intros ids E. specialize (Hall ids E). by injection Hall as -> ->.
Qed.

(** A one-block reorganisation at the tip costs the oldest block of the window
    its place: the tracker then reports less heat than one rebuilt from the same
    chain. *)
Example reorg_forgets_heat :
  let ids := replicate 361 [1] in
  let run ops := (heat_run 0 ([], O) empty_tracker ops).2 in
  GetHeat (run (HConnect <$> ids)) [1] = 360 /\
  GetHeat (run ((HConnect <$> ids) ++ [HDisconnect 360; HConnect [2]])) [1] = 359 /\
  GetHeat (run (HConnect <$> (replicate 360 [1] ++ [[2]]))) [1] = 359 /\
  GetHeat (run ((HConnect <$> ids) ++ [HDisconnect 360])) [1] = 359 /\
  GetHeat (run (HConnect <$> replicate 360 [1])) [1] = 360.
Proof. vm_compute. done. Qed.

(** ** Persistence *)

Definition tracker_wf (t : CHeatTracker) : Prop :=
  Forall (fun e => - 2 ^ 31 <= e.1 < 2 ^ 31 /\ length e.2 = 20%nat) (m_window t) /\
  len (m_window t) <= OBSERVATION_WINDOW + 10.

Lemma file_read_app n a b : length a = n -> file_read n (a ++ b) = Some (a, b).
Proof.
  intros <-. unfold file_read. rewrite length_app. destruct (Nat.leb_spec (length a) (length a + length b)); [|lia].
  by rewrite take_app_length, drop_app_length.
Qed.

Lemma heat_entry_height h : - 2 ^ 31 <= h < 2 ^ 31 -> i32 (le_val (le_bytes 4 (u32 h))) = h.
Proof.
  intros. rewrite le_val_le_bytes. change (256 ^ Z.of_nat 4) with (2 ^ 32).
  rewrite Z.mod_small by apply u32_range. rewrite i32_u32. by apply i32_small.
Qed.

Lemma read_heat_entries_spec w : forall t,
  Forall (fun e => - 2 ^ 31 <= e.1 < 2 ^ 31 /\ length e.2 = 20%nat) w -> tracker_ok t ->
  exists t', read_heat_entries (length w) (concat (heat_entry <$> w)) t = (None, t') /\
    tracker_ok t' /\ m_window t' = m_window t ++ w.
Proof.
  induction w as [|[h id] w IH]; intros t Hw Ht; cbn [length read_heat_entries fmap list_fmap concat].
  { exists t. by rewrite app_nil_r. }
  apply Forall_cons in Hw as [[Hh Hid] Hw]. cbn [fst snd] in *.
  unfold heat_entry at 1. cbn [fst snd]. rewrite <- !app_assoc.
  rewrite file_read_app, file_read_app, heat_entry_height by (done || apply length_le_bytes).
  destruct (IH (mkTracker (m_window t ++ [(h, id)]) (cache_inc (m_heatCache t) id)) Hw) as (t' & E & Hok & Ew).
  { red. cbn. by apply cache_rep_inc. }
  exists t'. split; [done|]. split; [done|]. rewrite Ew. cbn [m_window]. by rewrite <- app_assoc.
Qed.

Lemma tracker_ok_unique t t' : tracker_ok t -> tracker_ok t' -> m_window t = m_window t' -> t = t'.
Proof.
  destruct t as [w c], t' as [w' c']. unfold tracker_ok, cache_rep. cbn. intros H H' <-. f_equal.
  apply map_eq. intros id. by rewrite H, H'.
Qed.

Lemma slice_bytes k pre v post off : off = length pre -> length v = k -> slice (pre ++ v ++ post) off k = v.
Proof. intros -> <-. unfold slice. by rewrite drop_app_length, take_app_length. Qed.

Definition heat_header (t : CHeatTracker) (tip : Z) : list Z :=
  le_bytes 4 HEAT_FILE_MAGIC ++ le_bytes 4 HEAT_FILE_VERSION ++ le_bytes 4 (u32 tip) ++
  le_bytes 4 (u32 (len (m_window t))).

Lemma SaveToFile_header t tip : SaveToFile t tip = heat_header t tip ++ concat (heat_entry <$> m_window t).
Proof. unfold SaveToFile, heat_header. by rewrite !app_assoc. Qed.

Lemma length_heat_header t tip : length (heat_header t tip) = 16%nat.
Proof. done. Qed.

(** saving the heat tracker and loading it back gives the same tracker (its
    cache rebuilt from the window) when the chain tip has not moved, and a file
    of another tip is refused, leaving the tracker as it was. *)
Theorem heat_file_roundtrip (t t0 : CHeatTracker) (tip tip' : Z)
    (Hok : tracker_ok t) (Hwf : tracker_wf t) (Htip : - 2 ^ 31 <= tip < 2 ^ 31) (Htip' : - 2 ^ 31 <= tip' < 2 ^ 31) :
  LoadFromFile t0 (SaveToFile t tip) tip' =
    (if tip =? tip' then (None, t) else (Some HeatStale, t0)).
Proof.
  destruct Hwf as [Hw Hlen]. unfold LoadFromFile. rewrite SaveToFile_header, length_app, length_heat_header.
  destruct (Nat.ltb_spec (16 + length (concat (heat_entry <$> m_window t))) 16); [lia|].
  rewrite (drop_app_length' _ _ 16) by done.
  set (body := concat (heat_entry <$> m_window t)).
  assert (E : forall off v pre post, heat_header t tip = pre ++ v ++ post -> off = length pre -> length v = 4%nat ->
    slice (heat_header t tip ++ body) off 4 = v).
  { intros off v pre post Eh Ho Hv. rewrite Eh, <- !app_assoc. by apply slice_bytes. }
  rewrite (E 0%nat (le_bytes 4 HEAT_FILE_MAGIC) []
             (le_bytes 4 HEAT_FILE_VERSION ++ le_bytes 4 (u32 tip) ++ le_bytes 4 (u32 (len (m_window t))))) by done.
  rewrite (E 4%nat (le_bytes 4 HEAT_FILE_VERSION) (le_bytes 4 HEAT_FILE_MAGIC)
             (le_bytes 4 (u32 tip) ++ le_bytes 4 (u32 (len (m_window t))))) by done.
  rewrite (E 8%nat (le_bytes 4 (u32 tip)) (le_bytes 4 HEAT_FILE_MAGIC ++ le_bytes 4 HEAT_FILE_VERSION)
             (le_bytes 4 (u32 (len (m_window t))))) by done.
  rewrite (E 12%nat (le_bytes 4 (u32 (len (m_window t))))
             (le_bytes 4 HEAT_FILE_MAGIC ++ le_bytes 4 HEAT_FILE_VERSION ++ le_bytes 4 (u32 tip)) []) by done.
  rewrite heat_entry_height, !le_val_le_bytes, (i32_small tip') by done.
  change (256 ^ Z.of_nat 4) with (2 ^ 32).
  change (negb (HEAT_FILE_MAGIC mod 2 ^ 32 =? HEAT_FILE_MAGIC) || _) with false.
  rewrite (Z.mod_small (u32 _)), u32_small by (apply u32_range || (unfold len, OBSERVATION_WINDOW in *; lia)).
  destruct (Z.eqb_spec tip tip') as [->|]; [|done]. cbn [negb].
  destruct (Z.gtb_spec (len (m_window t)) (OBSERVATION_WINDOW + 10)); [lia|].
  unfold len, body. rewrite Nat2Z.id.
  destruct (read_heat_entries_spec (m_window t) empty_tracker Hw empty_tracker_ok) as (t' & -> & Hok' & Ew).
  f_equal. by apply tracker_ok_unique.
Qed.

Lemma heat_file_roundtrip_witness :
  let t := OnBlockConnected (OnBlockConnected empty_tracker 7 (replicate 20 1)) 8 (replicate 20 2) in
  LoadFromFile empty_tracker (SaveToFile t 8) 8 = (None, t) /\
  LoadFromFile empty_tracker (SaveToFile t 8) 9 = (Some HeatStale, empty_tracker).
Proof.
  set (t := OnBlockConnected (OnBlockConnected empty_tracker 7 (replicate 20 1)) 8 (replicate 20 2)).
  assert (tracker_ok t) by (unfold t; auto with dil).
  assert (tracker_wf t) by (split; [repeat constructor; simpl; lia|vm_compute; discriminate]).
  split.
  - apply (heat_file_roundtrip t empty_tracker 8 8); (assumption || lia).
  - apply (heat_file_roundtrip t empty_tracker 8 9); (assumption || lia).
Defined.

(** ** Arithmetic of the effective target *)

Fixpoint words_val (ws : list Z) : Z :=
  match ws with [] => 0 | w :: ws' => w + 2 ^ 64 * words_val ws' end.

Definition word_ok (w : Z) : Prop := 0 <= w < 2 ^ 64.

Lemma words_val_app a b : words_val (a ++ b) = words_val a + 2 ^ (64 * len a) * words_val b.
Proof.
  induction a as [|w a IH]; unfold len in *; cbn [words_val app length]; [lia|].
  rewrite IH, Nat2Z.inj_succ, Z.mul_succ_r, Z.pow_add_r by lia. ring.
Qed.

Lemma words_of_spec t : u256_wf t -> words_val (words_of t) = le_val t /\ Forall word_ok (words_of t).
Proof.
  intros [Hl Hb]. split.
  - rewrite (le_val_take_drop t 8) by lia.
    rewrite (le_val_take_drop (drop 8 t) 8) by (rewrite length_drop; lia). rewrite drop_drop. cbn [Nat.add].
    rewrite (le_val_take_drop (drop 16 t) 8) by (rewrite length_drop; lia). rewrite drop_drop. cbn [Nat.add].
    change (256 ^ Z.of_nat 8) with (2 ^ 64). cbn [words_of words_val].
    unfold slice. rewrite drop_0. rewrite (take_ge (drop 24 t)) by (rewrite length_drop; lia). lia.
  - unfold words_of, slice. repeat constructor; apply (le_val_take_bound _ 8); auto with dil.
Qed.

Lemma scale_words_spec ws : forall c, Forall word_ok ws -> 0 <= c < FP_SCALE ->
  let '(ws', c') := scale_words ws c in
  length ws' = length ws /\ Forall word_ok ws' /\ 0 <= c' < FP_SCALE /\
  words_val ws' + 2 ^ (64 * len ws) * c' = words_val ws * FP_SCALE + c.
Proof.
  unfold FP_SCALE. induction ws as [|w ws IH]; intros c Hw Hc; cbn [scale_words]; unfold len in *.
  { split_and!; [done|done|lia|lia|]. cbn. lia. }
  apply Forall_cons in Hw as [Hw Hws]. unfold word_ok in Hw. rewrite Z.shiftr_div_pow2 by lia.
  pose proof (Z.div_mod (w * 1000000 + c) (2 ^ 64) ltac:(lia)) as Hd.
  pose proof (u64_range (w * FP_SCALE + c)) as Hr. unfold u64, FP_SCALE in *.
  specialize (IH ((w * 1000000 + c) / 2 ^ 64) Hws). 
  destruct (scale_words ws ((w * 1000000 + c) / 2 ^ 64)) as [ws' c'].
  destruct IH as (L & Hok & Hc' & E).
  { split; [apply Z.div_pos; lia|]. apply Z.div_lt_upper_bound; lia. }
  split_and!; [cbn [length]; by rewrite L|by constructor|lia|lia|].
  cbn [words_val length]. rewrite Nat2Z.inj_succ, Z.mul_succ_r, Z.pow_add_r by lia.
  change (2 ^ 64) with 18446744073709551616 in *. nia.
Qed.

Lemma divide_words_spec rws : forall d r acc, Forall word_ok rws -> 0 <= r < d -> d <= 2 ^ 63 -> Forall word_ok acc ->
  let q := divide_words rws d r acc in
  length q = (length rws + length acc)%nat /\ Forall word_ok q /\
  words_val q = (r * 2 ^ (64 * len rws) + words_val (rev rws)) / d + 2 ^ (64 * len rws) * words_val acc.
Proof.
  induction rws as [|w rws IH]; intros d r acc Hw Hr Hd Hacc; cbn [divide_words].
  { split_and!; [done|done|]. unfold len. cbn [length words_val rev]. change (2 ^ (64 * Z.of_nat 0)) with 1.
    rewrite Z.div_small by lia. lia. }
  apply Forall_cons in Hw as [Hw Hws]. unfold word_ok in Hw.
  assert (Er : Z.lor (Z.shiftl r 64 mod 2 ^ 128) w = r * 2 ^ 64 + w).
  { rewrite Z.shiftl_mul_pow2, Z.mod_small by lia. rewrite Z.lor_comm, lor_disjoint by lia. lia. }
  rewrite Er. set (R := r * 2 ^ 64 + w).
  assert (HR : 0 <= R < d * 2 ^ 64) by (unfold R; nia).
  assert (Hq : 0 <= R / d < 2 ^ 64) by (split; [apply Z.div_pos; lia|apply Z.div_lt_upper_bound; lia]).
  rewrite u64_small by done.
  destruct (IH d (R mod d) (R / d :: acc) Hws (Z.mod_pos_bound R d ltac:(lia)) Hd ltac:(by constructor)) as (L & Hok & E).
  split_and!; [cbn [length] in *; lia|done|]. rewrite E. cbn [words_val rev].
  rewrite words_val_app. unfold len in *. rewrite length_rev. cbn [words_val length].
  rewrite Nat2Z.inj_succ, Z.mul_succ_r, Z.pow_add_r by lia.
  set (P := 2 ^ (64 * Z.of_nat (length rws))). set (X := words_val (rev rws)).
  replace (r * (P * 2 ^ 64) + (X + P * (w + 2 ^ 64 * 0))) with (R * P + X) by (unfold R; ring).
  assert (E2 : R * P + X = (R mod d * P + X) + R / d * P * d) by (rewrite (Z.div_mod R d) at 1 by lia; ring).
  rewrite E2, Z.div_add by lia. ring.
Qed.

Lemma concat_words ws : Forall word_ok ws ->
  le_val (concat (le_bytes 8 <$> ws)) = words_val ws /\ bytes_ok (concat (le_bytes 8 <$> ws)) /\
  length (concat (le_bytes 8 <$> ws)) = (8 * length ws)%nat.
Proof.
  induction 1 as [|w ws Hw _ (IH1 & IH2 & IH3)]; cbn [fmap list_fmap concat]; [done|]. fold (le_bytes 8 <$> ws) in *.
  rewrite le_val_app, length_app, length_le_bytes, le_val_le_bytes.
  change (concat (list_fmap _ _ (le_bytes 8) ws)) with (concat (le_bytes 8 <$> ws)). rewrite IH1, IH3.
  change (256 ^ Z.of_nat 8) with (2 ^ 64). rewrite Z.mod_small by apply Hw.
  split_and!; [done| |cbn [length]; lia]. apply Forall_app; split; [apply le_bytes_ok|done].
Qed.

Lemma effective_target_exact_lemma (baseTarget : uint256) (multiplierFP : Z)
    (Hb : u256_wf baseTarget) (Hm : - 2 ^ 63 <= multiplierFP < 2 ^ 63) :
  u256_wf (CalculateEffectiveTarget baseTarget multiplierFP) /\
  le_val (CalculateEffectiveTarget baseTarget multiplierFP) =
    Z.max 1 (le_val baseTarget * FP_SCALE / Z.max FP_SCALE multiplierFP) /\
  (0 < le_val baseTarget -> le_val (CalculateEffectiveTarget baseTarget multiplierFP) <= le_val baseTarget).
Proof.
  unfold CalculateEffectiveTarget.
  set (m := if multiplierFP <? FP_SCALE then FP_SCALE else multiplierFP).
  assert (Em : m = Z.max FP_SCALE multiplierFP /\ FP_SCALE <= m < 2 ^ 63).
  { unfold m, FP_SCALE in *. zcases; lia. }
  destruct Em as [Em Hmr]. assert (0 < FP_SCALE) by done. rewrite u64_small by lia.
  destruct (words_of_spec baseTarget Hb) as [Ev Hok].
  pose proof (scale_words_spec (words_of baseTarget) 0 Hok ltac:(lia)) as Hs.
  destruct (scale_words (words_of baseTarget) 0) as [ws c]. destruct Hs as (L & Hws & Hc & Es).
  destruct (divide_words_spec (rev ws) m c [] ltac:(by apply Forall_rev) ltac:(lia) ltac:(lia) ltac:(constructor))
    as (Lq & Hq & Eq).
  set (q := divide_words (rev ws) m c []) in *.
  rewrite rev_involutive, length_rev, Z.mul_0_r, Z.add_0_r in *. unfold len in Eq, Es. rewrite length_rev, L in *.
  assert (Eq' : words_val q = le_val baseTarget * FP_SCALE / Z.max FP_SCALE multiplierFP).
  { rewrite Eq, <- Ev, <- Em. f_equal. rewrite <- (Z.add_0_r (words_val (words_of baseTarget) * _)), <- Es. ring. }
  destruct (concat_words q Hq) as (E1 & E2 & E3). rewrite Lq in E3. cbn [length words_of Nat.mul Nat.add] in E3.
  pose proof (le_val_u256 baseTarget Hb). assert (Hwq : u256_wf (concat (le_bytes 8 <$> q))) by done.
  rewrite (isZero_val _ Hwq). rewrite E1, <- Eq'.
  assert (0 <= words_val q) by (rewrite Eq'; apply Z.div_pos; lia).
  assert (words_val q <= le_val baseTarget).
  { rewrite Eq'. apply Z.div_le_upper_bound; [lia|]. rewrite Z.mul_comm. apply Z.mul_le_mono_nonneg_r; lia. }
  destruct (Z.eqb_spec (words_val q) 0) as [E0|E0].
  - split; [apply u256_wf_insert; [done|unfold byte_ok; lia]|].
    assert (Ei : le_val (<[0%nat := 1]> (concat (le_bytes 8 <$> q))) = 1).
    { rewrite le_val_insert by (rewrite E3; lia). rewrite E1, E0.
      rewrite byte_at_le_val by (done || (rewrite E3; lia)). rewrite E1, E0. done. }
    rewrite Ei. split; [lia|]. lia.
  - split; [done|]. rewrite E1. split; lia.
Qed.

(** the difficulty multiplier divides the target exactly: the effective
    target is the base target times 1,000,000 divided by the multiplier (clamped
    to at least 1x), rounded down and never zero; so it never exceeds the base
    target, and no carry of the word arithmetic is lost. *)
Theorem effective_target_exact (baseTarget : uint256) (multiplierFP : Z)
    (Hb : u256_wf baseTarget) (Hm : - 2 ^ 63 <= multiplierFP < 2 ^ 63) :
  u256_wf (CalculateEffectiveTarget baseTarget multiplierFP) /\
  le_val (CalculateEffectiveTarget baseTarget multiplierFP) =
    Z.max 1 (le_val baseTarget * FP_SCALE / Z.max FP_SCALE multiplierFP) /\
  (0 < le_val baseTarget -> le_val (CalculateEffectiveTarget baseTarget multiplierFP) <= le_val baseTarget).
Proof. by apply effective_target_exact_lemma. Qed.

Lemma effective_target_exact_witness :
  le_val (CalculateEffectiveTarget (CompactToBig 0x1e7fffff) 2500000) <= le_val (CompactToBig 0x1e7fffff).
Proof.
  apply (effective_target_exact (CompactToBig 0x1e7fffff) 2500000); [apply CompactToBig_wf|lia|vm_compute; done].
Defined.

(** ** The penalty curves *)

Inductive DfmpVersion : Set := V2 | V30 | V31 | V32 | V33 | V34 (isVerified : bool).

Definition heat_multiplier (v : DfmpVersion) (heat uniqueMiners : Z) : Z :=
  match v with
  | V2 => CalculateHeatPenaltyFP_V2 heat uniqueMiners
  | V30 => CalculateHeatMultiplierFP heat uniqueMiners
  | V31 => CalculateHeatMultiplierFP_V31 heat uniqueMiners
  | V32 => CalculateHeatMultiplierFP_V32 heat uniqueMiners
  | V33 => CalculateHeatMultiplierFP_V33 heat
  | V34 b => CalculateHeatMultiplierFP_V34 heat b
  end.

Definition pending_multiplier (v : DfmpVersion) (currentHeight firstSeenHeight : Z) : Z :=
  match v with
  | V2 => CalculateMaturityPenaltyFP_V2 currentHeight firstSeenHeight
  | V30 => CalculatePendingPenaltyFP currentHeight firstSeenHeight
  | V31 => CalculatePendingPenaltyFP_V31 currentHeight firstSeenHeight
  | V32 => CalculatePendingPenaltyFP_V32 currentHeight firstSeenHeight
  | V33 => CalculatePendingPenaltyFP_V33 currentHeight firstSeenHeight
  | V34 _ => CalculatePendingPenaltyFP_V34 currentHeight firstSeenHeight
  end.

(** A heat up to which the product stays within [int64_t], whatever
    the maturity penalty. *)
Definition heat_limit (v : DfmpVersion) : Z :=
  match v with V2 => 200 | V30 => 43 | V31 => 231 | V32 => 44 | V33 | V34 _ => 54 end.

(** The growth loop over the integers. *)
Fixpoint grow_exact (n : nat) (growth penalty : Z) : Z :=
  match n with O => penalty | S n' => grow_exact n' growth (penalty * growth / 100) end.

Lemma grow_step_le g p : 100 <= g -> 0 <= p -> p <= p * g / 100.
Proof. intros. apply Z.div_le_lower_bound; nia. Qed.

Lemma grow_exact_ge n : forall g p, 100 <= g -> 0 <= p -> p <= grow_exact n g p.
Proof.
  induction n as [|n IH]; intros g p Hg Hp; cbn [grow_exact]; [lia|].
  pose proof (grow_step_le g p Hg Hp). pose proof (IH g (p * g / 100) Hg ltac:(lia)). lia.
Qed.

Lemma grow_exact_mono n : forall m g p, (n <= m)%nat -> 100 <= g -> 0 <= p -> grow_exact n g p <= grow_exact m g p.
Proof.
  induction n as [|n IH]; intros m g p Hm Hg Hp; cbn [grow_exact]; [by apply grow_exact_ge|].
  destruct m as [|m]; [lia|]. cbn [grow_exact]. pose proof (grow_step_le g p Hg Hp). apply IH; lia.
Qed.

Lemma grow_penalty_exact n : forall g p, 100 <= g -> 0 <= p -> grow_exact n g p * g < 2 ^ 63 ->
  grow_penalty n g p = grow_exact n g p.
Proof.
  induction n as [|n IH]; intros g p Hg Hp Hb; cbn [grow_exact grow_penalty] in *; [done|].
  pose proof (grow_step_le g p Hg Hp). pose proof (grow_exact_ge n g (p * g / 100) Hg ltac:(lia)).
  rewrite i64_small by nia. rewrite Z.quot_div_nonneg by nia. by apply IH; [|lia|].
Qed.

(** A curve on [heat]: [FP_SCALE] up to a free tier, then the growth loop. *)
Lemma grow_bounded N n g p : 100 <= g -> 0 <= p -> (n <= N)%nat -> grow_exact N g p * g < 2 ^ 63 ->
  grow_penalty n g p = grow_exact n g p /\ p <= grow_exact n g p <= grow_exact N g p.
Proof.
  intros Hg Hp Hn HN. pose proof (grow_exact_mono n N g p Hn Hg Hp). pose proof (grow_exact_ge n g p Hg Hp).
  split; [apply grow_penalty_exact; nia|lia].
Qed.

Lemma dynamic_threshold_ge b u : b <= dynamic_threshold b u.
Proof. unfold dynamic_threshold. destruct (u >? 0); lia. Qed.

Lemma cliff_penalty_curve free cliff growth N u h h' :
  100 <= growth -> FP_SCALE <= cliff -> h <= h' <= free + 1 + Z.of_nat N -> 0 <= Z.of_nat N ->
  grow_exact N growth cliff * growth < 2 ^ 63 ->
  FP_SCALE <= cliff_penalty free cliff growth h u <= cliff_penalty free cliff growth h' u /\
  cliff_penalty free cliff growth h' u <= grow_exact N growth cliff.
Proof.
  intros Hg Hc Hh _ HN. unfold cliff_penalty. pose proof (dynamic_threshold_ge free u).
  pose proof (grow_exact_ge N growth cliff Hg ltac:(unfold FP_SCALE in *; lia)).
  assert (0 <= cliff) by (unfold FP_SCALE in *; lia).
  assert (B : forall x, x <= h' -> let n := Z.to_nat (x - dynamic_threshold free u - 1) in
    grow_penalty n growth cliff = grow_exact n growth cliff /\
    cliff <= grow_exact n growth cliff <= grow_exact N growth cliff).
  { intros x Hx n. apply grow_bounded; (done || lia). }
  zcases; repeat match goal with |- context [grow_penalty ?n growth cliff] =>
    match n with Z.to_nat (?x - _ - 1) => destruct (B x ltac:(lia)) as [-> ?] end end; try lia.
  split; [|lia]. split; [lia|]. apply grow_exact_mono; lia.
Qed.

(** Monotonicity of a curve from its table of steps. *)
Lemma monotone_by_steps (f : Z -> Z) (hi : Z) :
  (forall h, h <= 0 -> f h = FP_SCALE) ->
  forallb (fun h => f h <=? f (h + 1)) (seqZ 0 hi) = true ->
  forall h h', h <= h' <= hi -> FP_SCALE <= f h <= f h'.
Proof.
  intros H0 Ht.
  assert (Hs : forall h, 0 <= h < hi -> f h <= f (h + 1)).
  { intros h Hh. rewrite forallb_forall in Ht. apply Z.leb_le, Ht. apply list_elem_of_In, elem_of_seqZ. lia. }
  assert (Hm : forall n h, 0 <= h -> h + Z.of_nat n <= hi -> f h <= f (h + Z.of_nat n)).
  { induction n as [|n IH]; intros h Hh Hn; [by rewrite Z.add_0_r|].
    etrans; [apply (IH h); lia|]. replace (h + Z.of_nat (S n)) with (h + Z.of_nat n + 1) by lia. apply Hs. lia. }
  assert (Hp : forall x, x <= hi -> FP_SCALE <= f x).
  { intros x Hx. destruct (Z.le_gt_cases x 0); [by rewrite H0|].
    rewrite <- (H0 0) by lia. pose proof (Hm (Z.to_nat x) 0 ltac:(lia) ltac:(lia)) as E.
    by replace (0 + Z.of_nat (Z.to_nat x)) with x in E by lia. }
  intros h h' Hh. split; [apply Hp; lia|]. destruct (Z.le_gt_cases h 0); [rewrite (H0 h); auto; apply Hp; lia|].
  pose proof (Hm (Z.to_nat (h' - h)) h ltac:(lia) ltac:(lia)) as E.
  by replace (h + Z.of_nat (Z.to_nat (h' - h))) with h' in E by lia.
Qed.

(** Version 2.0 depends on the excess over its free tier. *)
Definition heat_v2_excess (x : Z) : Z :=
  if x <=? 0 then FP_SCALE else if x <=? 5 then FP_SCALE + FP_LINEAR_INCREMENT_V2 * x
  else grow_penalty (Z.to_nat (x - 5)) 108 FP_MATURITY_STEP_15.

Lemma heat_v2_shift heat u :
  CalculateHeatPenaltyFP_V2 heat u = heat_v2_excess (heat - dynamic_threshold FREE_TIER_THRESHOLD_V2 u).
Proof.
  unfold CalculateHeatPenaltyFP_V2, heat_v2_excess. fold (dynamic_threshold FREE_TIER_THRESHOLD_V2 u).
  change (if u >? 0 then _ else _) with (dynamic_threshold FREE_TIER_THRESHOLD_V2 u).
  set (t := dynamic_threshold FREE_TIER_THRESHOLD_V2 u). unfold LINEAR_ZONE_UPPER_V2, FREE_TIER_THRESHOLD_V2.
  zcases. do 2 f_equal. lia.
Qed.

(** The largest heat and maturity penalties within the limit. *)
Definition heat_cap (v : DfmpVersion) : Z :=
  match v with
  | V2 => heat_v2_excess 180 | V30 => grow_exact 30 158 2000000 | V31 => grow_exact 194 108 1500000
  | V32 => grow_exact 31 158 2000000 | V33 => CalculateHeatMultiplierFP_V33 54
  | V34 b => CalculateHeatMultiplierFP_V34 54 b
  end.

Lemma heat_multiplier_curve v heat heat' u : heat <= heat' <= heat_limit v ->
  FP_SCALE <= heat_multiplier v heat u <= heat_multiplier v heat' u /\
  heat_multiplier v heat' u <= heat_cap v.
Proof.
  intros H. destruct v as [| | | | |b]; cbn [heat_multiplier heat_limit heat_cap] in *.
  - rewrite !heat_v2_shift. pose proof (dynamic_threshold_ge FREE_TIER_THRESHOLD_V2 u).
    unfold FREE_TIER_THRESHOLD_V2 in *.
    assert (M : forall x x', x <= x' <= 180 -> FP_SCALE <= heat_v2_excess x <= heat_v2_excess x').
    { apply monotone_by_steps; [intros x Hx; unfold heat_v2_excess; zcases|vm_compute; reflexivity]. }
    split; [apply M; lia|apply (M _ 180); lia].
  - apply (cliff_penalty_curve _ _ _ 30); [done..|unfold FREE_TIER_THRESHOLD; lia|lia|done].
  - apply (cliff_penalty_curve _ _ _ 194); [done..|unfold FREE_TIER_THRESHOLD_V31; lia|lia|done].
  - apply (cliff_penalty_curve _ _ _ 31); [done..|unfold FREE_TIER_THRESHOLD_V32; lia|lia|done].
  - assert (M : forall x x', x <= x' <= 54 ->
      FP_SCALE <= CalculateHeatMultiplierFP_V33 x <= CalculateHeatMultiplierFP_V33 x').
    { apply monotone_by_steps; [intros x Hx; unfold CalculateHeatMultiplierFP_V33, FREE_TIER_THRESHOLD_V33; zcases
                               |vm_compute; reflexivity]. }
    split; [apply M; lia|apply (M _ 54); lia].
  - assert (M : forall x x', x <= x' <= 54 ->
      FP_SCALE <= CalculateHeatMultiplierFP_V34 x b <= CalculateHeatMultiplierFP_V34 x' b).
    { apply monotone_by_steps; [|destruct b; vm_compute; reflexivity].
      intros x Hx. unfold CalculateHeatMultiplierFP_V34, FREE_TIER_THRESHOLD_V34_VERIFIED,
        FREE_TIER_THRESHOLD_V34_UNVERIFIED. destruct b; zcases. }
    split; [apply M; lia|apply (M _ 54); lia].
Qed.

Definition pending_cap (v : DfmpVersion) : Z :=
  match v with V2 => 3000000 | V30 => 5000000 | V31 => 2000000 | V32 | V33 | V34 _ => 2500000 end.

Ltac unfold_pending := unfold pending_multiplier, CalculateMaturityPenaltyFP_V2, CalculatePendingPenaltyFP,
  CalculatePendingPenaltyFP_V31, CalculatePendingPenaltyFP_V33, CalculatePendingPenaltyFP_V34,
  CalculatePendingPenaltyFP_V32, FP_MATURITY_START_V2, FP_MATURITY_STEP_25, FP_MATURITY_STEP_20,
  FP_MATURITY_STEP_15, FP_PENDING_START, FP_PENDING_START_V31, FP_PENDING_START_V32, FP_PENDING_END, FP_SCALE.

Lemma pending_multiplier_curve v h fs fs' : 0 <= fs <= fs' ->
  FP_SCALE <= pending_multiplier v h fs <= pending_multiplier v h fs' /\
  pending_multiplier v h fs' <= pending_multiplier v h (-1) /\ pending_multiplier v h (-1) = pending_cap v.
Proof. intros H. destruct v; unfold_pending; cbn [pending_cap]; zcases. Qed.

Lemma pending_multiplier_range v h fs : FP_SCALE <= pending_multiplier v h fs <= pending_cap v.
Proof. destruct v; unfold_pending; cbn [pending_cap]; zcases. Qed.

Lemma caps_fit v : pending_cap v * heat_cap v < 2 ^ 63.
Proof. destruct v as [| | | | |[]]; vm_compute; reflexivity. Qed.

(** Within the limits, the product is exact. *)
Lemma total_multiplier_exact v p h : FP_SCALE <= p <= pending_cap v -> FP_SCALE <= h <= heat_cap v ->
  total_multiplier p h = p * h / FP_SCALE /\ FP_SCALE <= total_multiplier p h < 2 ^ 63.
Proof.
  unfold total_multiplier, FP_SCALE. intros Hp Hh. pose proof (caps_fit v).
  rewrite i64_small by nia. rewrite Z.quot_div_nonneg by nia. split; [done|].
  split; [apply Z.div_le_lower_bound; nia|apply Z.div_lt_upper_bound; nia].
Qed.

(** The penalty of every protocol version is exact and fair up to its heat
    limit: the multiplier is the integer product of the maturity and the heat
    penalty over 1,000,000 with no overflow, it is at least 1x, it never falls
    when a miner has found more blocks, it never rises when an identity is
    older, and a new identity pays the most. *)
Theorem multipliers_exact_and_monotone (v : DfmpVersion) (height firstSeen firstSeen' heat heat' uniqueMiners : Z)
    (Hheat : heat <= heat' <= heat_limit v) (Hseen : 0 <= firstSeen <= firstSeen') :
  let total fs h := total_multiplier (pending_multiplier v height fs) (heat_multiplier v h uniqueMiners) in
  total firstSeen heat = pending_multiplier v height firstSeen * heat_multiplier v heat uniqueMiners / FP_SCALE /\
  FP_SCALE <= total firstSeen heat < 2 ^ 63 /\
  total firstSeen heat <= total firstSeen heat' /\
  total firstSeen heat <= total firstSeen' heat <= total (-1) heat.
Proof.
  destruct (heat_multiplier_curve v heat heat' uniqueMiners Hheat) as [[H1 H2] H3].
  destruct (pending_multiplier_curve v height firstSeen firstSeen' Hseen) as ([P1 P2] & P3 & P4).
  assert (0 < FP_SCALE) by done.
  destruct (total_multiplier_exact v (pending_multiplier v height firstSeen) (heat_multiplier v heat uniqueMiners)) as [E R]; [lia..|].
  destruct (total_multiplier_exact v (pending_multiplier v height firstSeen) (heat_multiplier v heat' uniqueMiners)) as [E1 _]; [lia..|].
  destruct (total_multiplier_exact v (pending_multiplier v height firstSeen') (heat_multiplier v heat uniqueMiners)) as [E2 _]; [lia..|].
  destruct (total_multiplier_exact v (pending_multiplier v height (-1)) (heat_multiplier v heat uniqueMiners)) as [E3 _]; [lia..|].
  cbn zeta. split; [done|]. split; [done|]. rewrite E, E1, E2, E3.
  split; [|split]; apply Z.div_le_mono; nia.
Qed.

Lemma multipliers_exact_and_monotone_witness :
  13 <= 20 <= heat_limit V33 /\
  total_multiplier (pending_multiplier V33 1000 400) (heat_multiplier V33 13 5) <=
  total_multiplier (pending_multiplier V33 1000 400) (heat_multiplier V33 20 5).
Proof.
  split; [cbn; lia|]. apply (multipliers_exact_and_monotone V33 1000 400 950 13 20 5); cbn; lia.
Defined.

(** Past the limit the product wraps: with 57 blocks in the window the
    [int64_t] product is negative, so the clamp in [CalculateEffectiveTarget]
    drops the penalty and the heaviest miner mines at the base target. *)
Example heat_overflow_drops_penalty :
  total_multiplier (pending_multiplier V33 100000 0) (heat_multiplier V33 56 0) = 9100950305400 /\
  total_multiplier (pending_multiplier V33 100000 0) (heat_multiplier V33 57 0) = -4067242591177 /\
  CalculateEffectiveTarget (CompactToBig 0x1e7fffff)
    (total_multiplier (pending_multiplier V33 100000 0) (heat_multiplier V33 57 0)) = CompactToBig 0x1e7fffff.
Proof. vm_compute. done. Qed.
