(* ===== verification/Mik.v ===== *)
(** * Mining identity keys (dfmp/mik.h, dfmp/mik.cpp)

    The miner's identity data in a coinbase scriptSig: its parser and builders,
    the signed message with the backward timestamp window, and the
    registration proof of work.  SHA3-256 and Dilithium3 verification are
    variables. *)

From S2P Require Import Prelude Uint256 Transaction Dfmp.

Definition MIK_PUBKEY_SIZE : Z := 1952.
Definition MIK_SIGNATURE_SIZE : Z := 3309.
Definition MIK_IDENTITY_SIZE : Z := 20.
Definition MIK_MARKER : Z := 0xDF.
Definition MIK_TYPE_REGISTRATION : Z := 0x01.
Definition MIK_TYPE_REFERENCE : Z := 0x02.
Definition MIK_REFERENCE_MIN_SIZE : Z := 1 + 1 + 20 + 3309.
Definition DNA_COMMITMENT_MARKER : Z := 0xDD.
Definition DNA_COMMITMENT_SIZE : Z := 1 + 32.
Definition ATTEST_MARKER : Z := 0xDA.
Definition kMIKVerifyBackwardWindowSeconds : nat := 180.

Record AttestationEntry := mkAttest {
  seedId : Z; att_timestamp : Z; att_signature : list Z
}.

Record CMIKScriptData := mkMik {
  isRegistration : bool;
  mik_identity : Identity;
  mik_pubkey : list Z;
  mik_signature : list Z;
  registrationNonce : Z;
  dna_hash : list Z;
  has_dna_hash : bool;
  has_attestations : bool;
  attestation_count : Z;
  attestations : list AttestationEntry
}.

Definition CMIKScriptData_IsValid (d : CMIKScriptData) : bool :=
  negb (Identity_IsNull (mik_identity d)) && (len (mik_signature d) =? MIK_SIGNATURE_SIZE).

(** The optional DNA commitment at the head of [rest]: the hash and what
    follows. *)
Definition parse_dna (rest : list Z) : option (list Z) * list Z :=
  if (DNA_COMMITMENT_SIZE <=? len rest) && (byte_at rest 0 =? DNA_COMMITMENT_MARKER)
  then (Some (slice rest 1 32), drop 33 rest)
  else (None, rest).

(** [attCount] entries of seed id, timestamp and signature. *)
Fixpoint parse_attestations (attCount : nat) (rest : list Z) : list AttestationEntry :=
  match attCount with
  | O => []
  | S n =>
      mkAttest (byte_at rest 0) (le_val (slice rest 1 4)) (slice rest 5 (Z.to_nat MIK_SIGNATURE_SIZE))
      :: parse_attestations n (drop (Z.to_nat (1 + 4 + MIK_SIGNATURE_SIZE)) rest)
  end.

Definition ATTEST_ENTRY_SIZE : Z := 1 + 4 + MIK_SIGNATURE_SIZE.

Definition parse_attestation_set (rest : list Z) : option (list AttestationEntry) :=
  if (2 <=? len rest) && (byte_at rest 0 =? ATTEST_MARKER) then
    let attCount := byte_at rest 1 in
    let rest := drop 2 rest in
    if attCount * ATTEST_ENTRY_SIZE <=? len rest
    then Some (parse_attestations (Z.to_nat attCount) rest) else None
  else None.

Section Mik.
  Variable SHA3_256 : list Z -> uint256.
  Variable dilithium_verify : list Z -> list Z -> list Z -> Z.

Definition DeriveIdentityFromMIK (pubkey : list Z) : Identity :=
  if negb (len pubkey =? MIK_PUBKEY_SIZE) then null_identity else Identity_of (SHA3_256 pubkey).

(** ** Parsing *)

Definition parse_registration (rest : list Z) : option CMIKScriptData :=
  if len rest <? MIK_PUBKEY_SIZE + MIK_SIGNATURE_SIZE then None
  else
    let pubkey := take (Z.to_nat MIK_PUBKEY_SIZE) rest in
    let identity := DeriveIdentityFromMIK pubkey in
    if Identity_IsNull identity then None
    else
      let signature := slice rest (Z.to_nat MIK_PUBKEY_SIZE) (Z.to_nat MIK_SIGNATURE_SIZE) in
      let rest := drop (Z.to_nat (MIK_PUBKEY_SIZE + MIK_SIGNATURE_SIZE)) rest in
      let '(nonce, rest) :=
        if 8 <=? len rest then (le_val (take 8 rest), drop 8 rest) else (0, rest) in
      let '(dna, rest) := parse_dna rest in
      let atts := parse_attestation_set rest in
      Some (mkMik true identity pubkey signature nonce
              (default zero256 dna) (match dna with Some _ => true | None => false end)
              (match atts with Some _ => true | None => false end)
              (match atts with Some _ => byte_at rest 1 | None => 0 end)
              (default [] atts)).

Definition parse_reference (rest : list Z) : option CMIKScriptData :=
  if len rest <? MIK_IDENTITY_SIZE + MIK_SIGNATURE_SIZE then None
  else
    let identity := Identity_of rest in
    let signature := slice rest (Z.to_nat MIK_IDENTITY_SIZE) (Z.to_nat MIK_SIGNATURE_SIZE) in
    let rest := drop (Z.to_nat (MIK_IDENTITY_SIZE + MIK_SIGNATURE_SIZE)) rest in
    let '(dna, rest) := parse_dna rest in
    Some (mkMik false identity [] signature 0
            (default zero256 dna) (match dna with Some _ => true | None => false end) false 0 []).

(** [while (pos < scriptSig.size())]: the bytes from [pos] on; an unknown type
    byte is skipped together with its marker. *)
Fixpoint search_marker (s : list Z) : option CMIKScriptData :=
  match s with
  | [] => None
  | b :: s' =>
      if b =? MIK_MARKER then
        match s' with
        | [] => None
        | mikType :: rest =>
            if mikType =? MIK_TYPE_REGISTRATION then parse_registration rest
            else if mikType =? MIK_TYPE_REFERENCE then parse_reference rest
            else search_marker rest
        end
      else search_marker s'
  end.

(** The height push at the head of the scriptSig is skipped. *)
Definition height_skip (scriptSig : list Z) : nat :=
  match scriptSig with
  | [] => O
  | heightLen :: _ =>
      if (1 <=? heightLen) && (heightLen <=? 4) && (heightLen <? len scriptSig)
      then Z.to_nat (1 + heightLen) else O
  end.

(** [ParseMIKFromScriptSig] into a fresh [CMIKScriptData]. *)
Definition ParseMIKFromScriptSig (scriptSig : list Z) : option CMIKScriptData :=
  if len scriptSig <? MIK_REFERENCE_MIN_SIZE then None
  else search_marker (drop (height_skip scriptSig) scriptSig).

(** ** Building *)

Definition BuildMIKScriptSigRegistrationV2 (pubkey signature : list Z) : option (list Z) :=
  if negb (len pubkey =? MIK_PUBKEY_SIZE) then None
  else if negb (len signature =? MIK_SIGNATURE_SIZE) then None
  else Some ([MIK_MARKER; MIK_TYPE_REGISTRATION] ++ pubkey ++ signature).

Definition BuildMIKScriptSigReference (identity : Identity) (signature : list Z) : option (list Z) :=
  if Identity_IsNull identity then None
  else if negb (len signature =? MIK_SIGNATURE_SIZE) then None
  else Some ([MIK_MARKER; MIK_TYPE_REFERENCE] ++ identity ++ signature).

Definition BuildMIKScriptSigRegistration (pubkey signature : list Z) (nonce : Z) : option (list Z) :=
  if negb (len pubkey =? MIK_PUBKEY_SIZE) then None
  else if negb (len signature =? MIK_SIGNATURE_SIZE) then None
  else Some ([MIK_MARKER; MIK_TYPE_REGISTRATION] ++ pubkey ++ signature ++ le_bytes 8 nonce).

Definition BuildDNACommitment (hash : list Z) : list Z := DNA_COMMITMENT_MARKER :: hash.

(** ** Signatures *)

Definition BuildMIKSignatureMessage (prevHash : uint256) (height timestamp : Z) (identity : Identity) : uint256 :=
  SHA3_256 (prevHash ++ le_bytes 4 (u32 height) ++ le_bytes 4 timestamp ++ identity).

Definition VerifyMIKSignatureExact (pubkey signature : list Z) (prevHash : uint256) (height timestamp : Z)
    (identity : Identity) : bool :=
  if negb (len pubkey =? MIK_PUBKEY_SIZE) then false
  else if negb (len signature =? MIK_SIGNATURE_SIZE) then false
  else if bool_decide (DeriveIdentityFromMIK pubkey <> identity) then false
  else dilithium_verify signature (BuildMIKSignatureMessage prevHash height timestamp identity) pubkey =? 0.

(** [for (k = 1; k <= window; ++k)] over earlier timestamps. *)
Fixpoint backward_scan (n : nat) (k : Z) (pubkey signature : list Z) (prevHash : uint256) (height timestamp : Z)
    (identity : Identity) : bool :=
  match n with
  | O => false
  | S n' =>
      if timestamp <=? k then false
      else
        let earlier := timestamp - k in
        if earlier <? 1 then false
        else if VerifyMIKSignatureExact pubkey signature prevHash height earlier identity then true
        else backward_scan n' (k + 1) pubkey signature prevHash height timestamp identity
  end.

Definition VerifyMIKSignature (pubkey signature : list Z) (prevHash : uint256) (height timestamp : Z)
    (identity : Identity) : bool :=
  if VerifyMIKSignatureExact pubkey signature prevHash height timestamp identity then true
  else if negb (len pubkey =? MIK_PUBKEY_SIZE) || negb (len signature =? MIK_SIGNATURE_SIZE) then false
  else if bool_decide (DeriveIdentityFromMIK pubkey <> identity) then false
  else backward_scan kMIKVerifyBackwardWindowSeconds 1 pubkey signature prevHash height timestamp identity.

Definition VerifyArbitrarySignature (pubkey signature message : list Z) : bool :=
  if negb (len pubkey =? MIK_PUBKEY_SIZE) || negb (len signature =? MIK_SIGNATURE_SIZE) then false
  else dilithium_verify signature message pubkey =? 0.

(** ** Registration proof of work *)

(** [while ((b & 0x80) == 0 && zeroBits < requiredBits) { zeroBits++; b <<= 1; }]
    on a non-zero byte; eight rounds always suffice. *)
Fixpoint byte_zero_bits (fuel : nat) (b zeroBits requiredBits : Z) : Z :=
  match fuel with
  | O => zeroBits
  | S fuel' =>
      if (Z.land b 0x80 =? 0) && (zeroBits <? requiredBits)
      then byte_zero_bits fuel' (u8 (Z.shiftl b 1)) (zeroBits + 1) requiredBits
      else zeroBits
  end.

(** [for (i = 0; i < 32 && zeroBits < requiredBits; i++)] over the hash. *)
Fixpoint leading_zero_bits (hash : list Z) (zeroBits requiredBits : Z) : Z :=
  match hash with
  | [] => zeroBits
  | b :: hash' =>
      if zeroBits <? requiredBits then
        if b =? 0 then leading_zero_bits hash' (zeroBits + 8) requiredBits
        else byte_zero_bits 8 b zeroBits requiredBits
      else zeroBits
  end.

Definition registration_preimage (pubkey : list Z) (nonce : Z) (dnaHash : option (list Z)) : list Z :=
  pubkey ++
  match dnaHash with
  | Some dna => if forallb (fun b => b =? 0) dna then [] else dna
  | None => []
  end ++ le_bytes 8 nonce.

Definition VerifyRegistrationPoW (pubkey : list Z) (nonce requiredBits : Z) (dnaHash : option (list Z)) : bool :=
  if negb (len pubkey =? MIK_PUBKEY_SIZE) || (requiredBits <=? 0) || (requiredBits >? 256) then false
  else
    let hash := SHA3_256 (registration_preimage pubkey nonce dnaHash) in
    leading_zero_bits hash 0 requiredBits >=? requiredBits.

(** The search: nonces from 0, [steps] of them (the loop ends at 2^64 - 1 or at
    shutdown). *)
Fixpoint mine_loop (steps : nat) (n : Z) (pubkey : list Z) (requiredBits : Z) (dnaHash : option (list Z)) : option Z :=
  match steps with
  | O => None
  | S steps' =>
      let hash := SHA3_256 (registration_preimage pubkey n dnaHash) in
      if leading_zero_bits hash 0 requiredBits >=? requiredBits then Some n
      else mine_loop steps' (n + 1) pubkey requiredBits dnaHash
  end.

Definition MineRegistrationPoW (steps : nat) (pubkey : list Z) (requiredBits : Z) (dnaHash : option (list Z))
  : option Z :=
  if negb (len pubkey =? MIK_PUBKEY_SIZE) || (requiredBits <=? 0) then None
  else mine_loop steps 0 pubkey requiredBits dnaHash.

End Mik.

(** ** Parsed data is well formed *)

Section MikFacts.
  Variable SHA3_256 : list Z -> uint256.
  Variable dilithium_verify : list Z -> list Z -> list Z -> Z.
  Hypothesis SHA3_wf : forall l, u256_wf (SHA3_256 l).

Lemma length_take_len (l : list Z) n : 0 <= n <= len l -> len (take (Z.to_nat n) l) = n.
Proof. unfold len. intros. rewrite length_take. lia. Qed.

Lemma length_slice_len (l : list Z) off n : 0 <= off -> 0 <= n -> off + n <= len l ->
  len (slice l (Z.to_nat off) (Z.to_nat n)) = n.
Proof. unfold len, slice. intros. rewrite length_take, length_drop. lia. Qed.

Lemma DeriveIdentityFromMIK_wf pk :
  length (DeriveIdentityFromMIK SHA3_256 pk) = 20%nat /\ bytes_ok (DeriveIdentityFromMIK SHA3_256 pk).
Proof.
  unfold DeriveIdentityFromMIK. destruct (SHA3_wf pk) as [L B].
  destruct (negb _); [split; [done|by apply bytes_okb_sound]|].
  unfold Identity_of. rewrite length_take, L. split; [done|auto with dil].
Qed.

(** What a parser result guarantees. *)
Definition mik_wf (d : CMIKScriptData) : Prop :=
  len (mik_signature d) = MIK_SIGNATURE_SIZE /\ length (mik_identity d) = 20%nat /\ bytes_ok (mik_identity d) /\
  0 <= registrationNonce d < 2 ^ 64 /\ length (dna_hash d) = 32%nat /\
  (has_dna_hash d = false -> dna_hash d = zero256) /\
  len (attestations d) = attestation_count d /\ 0 <= attestation_count d < 256 /\
  Forall (fun a => len (att_signature a) = MIK_SIGNATURE_SIZE /\ byte_ok (seedId a) /\ 0 <= att_timestamp a < 2 ^ 32)
    (attestations d) /\
  (has_attestations d = false -> attestations d = []) /\
  if isRegistration d then
    len (mik_pubkey d) = MIK_PUBKEY_SIZE /\ Identity_IsNull (mik_identity d) = false /\
    mik_identity d = DeriveIdentityFromMIK SHA3_256 (mik_pubkey d)
  else mik_pubkey d = [] /\ registrationNonce d = 0 /\ has_attestations d = false.

Lemma parse_dna_wf rest : let '(dna, rest') := parse_dna rest in
  (forall h, dna = Some h -> length h = 32%nat) /\ (exists pre, rest = pre ++ rest').
Proof.
  unfold parse_dna. destruct (_ && _) eqn:E; (split; [|]).
  - intros h [= <-]. zprop. unfold slice. rewrite length_take, length_drop. unfold len, DNA_COMMITMENT_SIZE in *. lia.
  - exists (take 33 rest). by rewrite take_drop.
  - done.
  - by exists [].
Qed.

Lemma parse_attestations_wf n : forall rest,
  bytes_ok rest -> Z.of_nat n * ATTEST_ENTRY_SIZE <= len rest ->
  Forall (fun a => len (att_signature a) = MIK_SIGNATURE_SIZE /\ byte_ok (seedId a) /\ 0 <= att_timestamp a < 2 ^ 32)
    (parse_attestations n rest) /\ length (parse_attestations n rest) = n.
Proof.
  unfold ATTEST_ENTRY_SIZE, MIK_SIGNATURE_SIZE.
  induction n as [|n IH]; intros rest Hb Hl; cbn [parse_attestations]; [by split|].
  destruct (IH (drop (Z.to_nat (1 + 4 + 3309)) rest)) as [IH1 IH2].
  { by apply bytes_ok_drop. } { unfold len in *. rewrite length_drop. lia. }
  split; [|cbn [length]; f_equal; apply IH2].
  constructor; [|apply IH1]. cbn [att_signature seedId att_timestamp]. split_and!.
  - apply (length_slice_len rest 5 3309); unfold len in *; lia.
  - auto with dil.
  - pose proof (le_val_take_bound (drop 1 rest) 4 ltac:(auto with dil)) as B. unfold slice. lia.
  - pose proof (le_val_take_bound (drop 1 rest) 4 ltac:(auto with dil)) as B. unfold slice.
    change (256 ^ Z.of_nat 4) with (2 ^ 32) in B. lia.
Qed.

Lemma parse_attestation_set_wf rest atts : bytes_ok rest -> parse_attestation_set rest = Some atts ->
  len atts = byte_at rest 1 /\ byte_ok (byte_at rest 1) /\
  Forall (fun a => len (att_signature a) = MIK_SIGNATURE_SIZE /\ byte_ok (seedId a) /\ 0 <= att_timestamp a < 2 ^ 32) atts.
Proof.
  unfold parse_attestation_set. intros Hb H. destruct (_ && _); [|done].
  destruct (Z.leb_spec (byte_at rest 1 * ATTEST_ENTRY_SIZE) (len (drop 2 rest))); [|done].
  injection H as <-. pose proof (byte_at_ok rest 1 Hb) as Hc. unfold byte_ok in Hc.
  destruct (parse_attestations_wf (Z.to_nat (byte_at rest 1)) (drop 2 rest)) as [F L];
    [auto with dil|by rewrite Z2Nat.id by lia|].
  split; [|done]. unfold len. rewrite L. lia.
Qed.

Lemma parse_registration_wf rest d : bytes_ok rest -> parse_registration SHA3_256 rest = Some d ->
  mik_wf d /\ isRegistration d = true.
Proof.
  unfold parse_registration. intros Hb H. destruct (Z.ltb_spec (len rest) (MIK_PUBKEY_SIZE + MIK_SIGNATURE_SIZE)); [done|].
  destruct (Identity_IsNull _) eqn:En; [done|].
  set (r1 := drop (Z.to_nat (MIK_PUBKEY_SIZE + MIK_SIGNATURE_SIZE)) rest) in *.
  assert (Hr1 : bytes_ok r1) by (unfold r1; auto with dil).
  destruct (if 8 <=? len r1 then _ else _) as [nonce r2] eqn:E2.
  assert (H2 : 0 <= nonce < 2 ^ 64 /\ bytes_ok r2).
  { destruct (8 <=? len r1); injection E2 as <- <-; [|by split].
    pose proof (le_val_take_bound r1 8 Hr1) as B. change (256 ^ Z.of_nat 8) with (2 ^ 64) in B. split; [lia|auto with dil]. }
  destruct H2 as [Hn Hr2]. pose proof (parse_dna_wf r2) as Hd. destruct (parse_dna r2) as [dna r3].
  destruct Hd as [Hdna [pre Epre]]. assert (Hr3 : bytes_ok r3) by (rewrite Epre in Hr2; by apply Forall_app in Hr2 as [_ ?]).
  injection H as <-. split; [|done]. unfold mik_wf; cbn.
  pose proof (length_take_len rest MIK_PUBKEY_SIZE ltac:(unfold MIK_PUBKEY_SIZE, MIK_SIGNATURE_SIZE in *; lia)) as Hpk.
  split_and!; try done; try lia.
  - apply (length_slice_len rest MIK_PUBKEY_SIZE MIK_SIGNATURE_SIZE); done || lia.
  - apply DeriveIdentityFromMIK_wf.
  - apply DeriveIdentityFromMIK_wf.
  - destruct dna as [h|]; [by apply Hdna|done].
  - by destruct dna.
  - destruct (parse_attestation_set r3) as [atts|] eqn:Ea; [|done]. by destruct (parse_attestation_set_wf _ _ Hr3 Ea).
  - destruct (parse_attestation_set r3) as [atts|] eqn:Ea; [|done].
    destruct (parse_attestation_set_wf _ _ Hr3 Ea) as (_ & B & _). apply B.
  - destruct (parse_attestation_set r3) as [atts|] eqn:Ea; [|done].
    destruct (parse_attestation_set_wf _ _ Hr3 Ea) as (_ & B & _). apply B.
  - destruct (parse_attestation_set r3) as [atts|] eqn:Ea; [|constructor].
    by destruct (parse_attestation_set_wf _ _ Hr3 Ea) as (_ & _ & ?).
  - by destruct (parse_attestation_set r3).
Qed.

Lemma parse_reference_wf rest d : bytes_ok rest -> parse_reference rest = Some d -> mik_wf d /\ isRegistration d = false.
Proof.
  unfold parse_reference. intros Hb H. destruct (Z.ltb_spec (len rest) (MIK_IDENTITY_SIZE + MIK_SIGNATURE_SIZE)); [done|].
  set (r1 := drop _ rest) in *. pose proof (parse_dna_wf r1) as Hd. destruct (parse_dna r1) as [dna r2].
  destruct Hd as [Hdna _]. injection H as <-. split; [|done]. unfold mik_wf; cbn.
  split_and!; try done; try lia.
  - apply (length_slice_len rest MIK_IDENTITY_SIZE MIK_SIGNATURE_SIZE); done || lia.
  - unfold Identity_of. rewrite length_take. unfold len, MIK_IDENTITY_SIZE, MIK_SIGNATURE_SIZE in *. lia.
  - unfold Identity_of. auto with dil.
  - destruct dna as [h|]; [by apply Hdna|done].
  - by destruct dna.
Qed.

Lemma search_marker_wf s : forall d, bytes_ok s -> search_marker SHA3_256 s = Some d -> mik_wf d.
Proof.
  induction s as [s IH] using (well_founded_induction (well_founded_ltof _ (@length Z))). unfold ltof in IH.
  intros d Hb H. destruct s as [|b s]; cbn [search_marker] in H; [done|]. apply Forall_cons in Hb as [_ Hb].
  destruct (b =? MIK_MARKER); [|apply (IH s); [simpl; lia|done..]].
  destruct s as [|ty rest]; [done|]. apply Forall_cons in Hb as [_ Hb].
  destruct (ty =? MIK_TYPE_REGISTRATION); [by destruct (parse_registration_wf _ _ Hb H)|].
  destruct (ty =? MIK_TYPE_REFERENCE); [by destruct (parse_reference_wf _ _ Hb H)|].
  apply (IH rest); [simpl; lia|done..].
Qed.
End MikFacts.

(** ** Leading zero bits are a bound on the big-endian value *)

Definition be_val (l : list Z) : Z := le_val (rev l).

Lemma be_val_cons b l : be_val (b :: l) = be_val l + 256 ^ Z.of_nat (length l) * b.
Proof. unfold be_val. cbn [rev]. rewrite le_val_app, length_rev. cbn [le_val]. lia. Qed.

Lemma be_val_bound l : bytes_ok l -> 0 <= be_val l < 256 ^ Z.of_nat (length l).
Proof. intros. unfold be_val. rewrite <- (length_rev l). apply le_val_bound. by apply Forall_rev. Qed.

Lemma byte_zero_bits_shift f : forall b z r, byte_zero_bits f b z r = z + byte_zero_bits f b 0 (r - z).
Proof.
  induction f as [|f IH]; intros b z r; cbn [byte_zero_bits]; [lia|].
  replace (0 <? r - z) with (z <? r) by (destruct (Z.ltb_spec z r), (Z.ltb_spec 0 (r - z)); lia).
  destruct (_ && _); [|lia]. rewrite IH, (IH _ (0 + 1)). replace (r - z - (0 + 1)) with (r - (z + 1)) by lia. lia.
Qed.

Lemma byte_zero_bits_le f : forall b z r, byte_zero_bits f b z r <= z + Z.of_nat f.
Proof.
  induction f as [|f IH]; intros b z r; cbn [byte_zero_bits]; [lia|].
  destruct (_ && _); [|lia]. pose proof (IH (u8 (Z.shiftl b 1)) (z + 1) r). lia.
Qed.

Lemma byte_zero_bits_spec b z r : 0 < b < 256 -> z < r ->
  r <= byte_zero_bits 8 b z r <-> r - z <= 8 /\ b < 2 ^ (8 - (r - z)).
Proof.
  intros Hb Hr. rewrite byte_zero_bits_shift. set (R := r - z). assert (HR : 0 < R) by lia.
  assert (E : forall b R, 0 < b < 256 -> 0 < R <= 8 -> (R <=? byte_zero_bits 8 b 0 R) = (b <? 2 ^ (8 - R))).
  { assert (T : forallb (fun b => forallb (fun R => Bool.eqb (R <=? byte_zero_bits 8 b 0 R) (b <? 2 ^ (8 - R)))
                                          (seqZ 1 8)) (seqZ 1 255) = true) by (vm_compute; reflexivity).
    intros b' R' Hb' HR'. rewrite forallb_forall in T. specialize (T b').
    rewrite forallb_forall in T. apply eqb_prop. apply (T ltac:(apply list_elem_of_In, elem_of_seqZ; lia)).
    apply list_elem_of_In, elem_of_seqZ; lia. }
  destruct (Z.le_gt_cases R 8).
  - specialize (E b R Hb ltac:(lia)).
    destruct (Z.leb_spec R (byte_zero_bits 8 b 0 R)), (Z.ltb_spec b (2 ^ (8 - R))); try done; lia.
  - pose proof (byte_zero_bits_le 8 b 0 R). lia.
Qed.

Lemma leading_zero_bits_spec l : forall z r, bytes_ok l -> z < r ->
  r <= leading_zero_bits l z r <->
  r - z <= 8 * len l /\ be_val l < 2 ^ (8 * len l - (r - z)).
Proof.
  induction l as [|b l IH]; intros z r Hb Hr; cbn [leading_zero_bits].
  { unfold len; simpl. lia. }
  apply Forall_cons in Hb as [Hb Hl]. unfold byte_ok in Hb. pose proof (be_val_bound l Hl) as Bl.
  rewrite pow_256 in Bl by lia.
  destruct (Z.ltb_spec z r); [|lia]. rewrite be_val_cons, pow_256 by lia. unfold len in *. cbn [length].
  set (n := 8 * Z.of_nat (length l)) in *. replace (8 * Z.of_nat (S (length l))) with (n + 8) by lia.
  assert (0 <= n) by lia.
  destruct (Z.eqb_spec b 0) as [->|Hn].
  - rewrite Z.mul_0_r, Z.add_0_r. destruct (Z.le_gt_cases (r - z) 8).
    + assert (A : 2 ^ n <= 2 ^ (n + 8 - (r - z))) by (apply Z.pow_le_mono_r; lia).
      assert (B : r <= leading_zero_bits l (z + 8) r).
      { destruct l; cbn [leading_zero_bits]; [lia|]. destruct (Z.ltb_spec (z + 8) r); lia. }
      lia.
    + rewrite IH by (done || lia). replace (n - (r - (z + 8))) with (n + 8 - (r - z)) by lia. lia.
  - rewrite byte_zero_bits_spec by lia. destruct (Z.le_gt_cases (r - z) 8).
    + replace (n + 8 - (r - z)) with (n + (8 - (r - z))) by lia. rewrite Z.pow_add_r by lia.
      split; intros [? ?]; split; nia.
    + split; [lia|]. intros [Hx Hv].
      assert (A : 2 ^ (n + 8 - (r - z)) <= 2 ^ n) by (apply Z.pow_le_mono_r; lia). nia.
Qed.

Section Registration.
  Variable SHA3_256 : list Z -> uint256.
  Hypothesis SHA3_wf : forall l, u256_wf (SHA3_256 l).

Lemma registration_hash_spec l r : 0 < r <= 256 ->
  (leading_zero_bits (SHA3_256 l) 0 r >=? r) = (be_val (SHA3_256 l) <? 2 ^ (256 - r)).
Proof.
  intros Hr. destruct (SHA3_wf l) as [HL Hb].
  pose proof (leading_zero_bits_spec (SHA3_256 l) 0 r Hb ltac:(lia)) as S.
  unfold len in S. rewrite HL in S. change (8 * Z.of_nat 32) with 256 in S. rewrite Z.sub_0_r in S.
  rewrite Z.geb_leb. destruct (Z.leb_spec r (leading_zero_bits (SHA3_256 l) 0 r)), (Z.ltb_spec (be_val (SHA3_256 l)) (2 ^ (256 - r)));
    try done; lia.
Qed.

Lemma mine_loop_spec steps : forall n pk bits dna,
  match mine_loop SHA3_256 steps n pk bits dna with
  | Some m => n <= m < n + Z.of_nat steps /\
      (leading_zero_bits (SHA3_256 (registration_preimage pk m dna)) 0 bits >=? bits) = true /\
      forall k, n <= k < m -> (leading_zero_bits (SHA3_256 (registration_preimage pk k dna)) 0 bits >=? bits) = false
  | None => forall k, n <= k < n + Z.of_nat steps ->
      (leading_zero_bits (SHA3_256 (registration_preimage pk k dna)) 0 bits >=? bits) = false
  end.
Proof.
  induction steps as [|steps IH]; intros n pk bits dna; cbn [mine_loop]; [intros; lia|].
  destruct (_ >=? bits) eqn:E.
  { split; [lia|]. split; [done|]. intros; lia. }
  specialize (IH (n + 1) pk bits dna). destruct (mine_loop SHA3_256 steps (n + 1) pk bits dna) as [m|].
  - destruct IH as (H1 & H2 & H3). split; [lia|]. split; [done|].
    intros k Hk. destruct (Z.eq_dec k n) as [->|]; [done|]. apply H3; lia.
  - intros k Hk. destruct (Z.eq_dec k n) as [->|]; [done|]. apply IH; lia.
Qed.
End Registration.

(** The registration proof of work is a difficulty target: a nonce is
    accepted exactly when the hash of key, hardware commitment and nonce, read
    as a big-endian number, is below 2^(256 - bits); and the miner's search
    returns the least accepted nonce of its range, or reports that there is
    none. *)
Theorem registration_pow_correct (SHA3_256 : list Z -> uint256) (pubkey : list Z) (nonce bits : Z)
    (dna : option (list Z)) (steps : nat)
    (SHA3_wf : forall l, u256_wf (SHA3_256 l)) (Hbits : 0 < bits <= 256) (Hpk : len pubkey = MIK_PUBKEY_SIZE) :
  (VerifyRegistrationPoW SHA3_256 pubkey nonce bits dna = true <->
     be_val (SHA3_256 (registration_preimage pubkey nonce dna)) < 2 ^ (256 - bits)) /\
  match MineRegistrationPoW SHA3_256 steps pubkey bits dna with
  | Some m => 0 <= m < Z.of_nat steps /\ VerifyRegistrationPoW SHA3_256 pubkey m bits dna = true /\
              forall k, 0 <= k < m -> VerifyRegistrationPoW SHA3_256 pubkey k bits dna = false
  | None => forall k, 0 <= k < Z.of_nat steps -> VerifyRegistrationPoW SHA3_256 pubkey k bits dna = false
  end.
Proof.
  assert (EV : forall k, VerifyRegistrationPoW SHA3_256 pubkey k bits dna =
    (leading_zero_bits (SHA3_256 (registration_preimage pubkey k dna)) 0 bits >=? bits)).
  { intros k. unfold VerifyRegistrationPoW. rewrite Hpk, Z.eqb_refl. cbn [negb orb].
    destruct (Z.leb_spec bits 0), (Z.gtb_spec bits 256); try lia. done. }
  split.
  - rewrite EV, registration_hash_spec by done. apply Z.ltb_lt.
  - unfold MineRegistrationPoW. rewrite Hpk, Z.eqb_refl. cbn [negb orb].
    destruct (Z.leb_spec bits 0); [lia|].
    pose proof (mine_loop_spec SHA3_256 steps 0 pubkey bits dna) as M.
    destruct (mine_loop SHA3_256 steps 0 pubkey bits dna) as [m|].
    + destruct M as (M1 & M2 & M3). split; [lia|]. split; [by rewrite EV|]. intros. rewrite EV. by apply M3.
    + intros k Hk. rewrite EV. by apply M.
Qed.

(** A toy hash whose digest is the nonce's low byte, for concrete runs. *)
Definition toy_sha3 (l : list Z) : uint256 := le_bytes 32 (255 - le_val (take 8 (drop (length l - 8) l))).

Lemma registration_pow_correct_witness :
  MineRegistrationPoW toy_sha3 300 (replicate 1952 7) 8 None = Some 255 /\
  VerifyRegistrationPoW toy_sha3 (replicate 1952 7) 255 8 None = true.
Proof.
  destruct (registration_pow_correct toy_sha3 (replicate 1952 7) 255 8 None 300) as [_ H].
  { intros l. split; [apply length_le_bytes|apply le_bytes_ok]. } { lia. } { vm_compute. reflexivity. }
  assert (E : MineRegistrationPoW toy_sha3 300 (replicate 1952 7) 8 None = Some 255) by (vm_compute; reflexivity).
  rewrite E in H. split; [exact E|apply H].
Defined.

(** ** Building and parsing *)

(** A BIP-34 height push. *)
Definition height_push (hp : list Z) : Prop := exists n hb, hp = n :: hb /\ 1 <= n <= 4 /\ len hb = n.

Definition dna_bytes (dna : option (list Z)) : list Z :=
  match dna with Some h => BuildDNACommitment h | None => [] end.

Definition dna_ok (dna : option (list Z)) : Prop := match dna with Some h => length h = 32%nat | None => True end.

Lemma search_marker_skip SHA3_256 extra s :
  Forall (fun b => b <> MIK_MARKER) extra -> search_marker SHA3_256 (extra ++ s) = search_marker SHA3_256 s.
Proof.
  induction 1 as [|b extra Hb _ IH]; [done|]. cbn [app search_marker].
  destruct (Z.eqb_spec b MIK_MARKER); [done|]. exact IH.
Qed.

Lemma height_skip_push hp s : height_push hp -> s <> [] -> drop (height_skip (hp ++ s)) (hp ++ s) = s.
Proof.
  intros (n & hb & -> & Hn & Hl) Hs. cbn [app height_skip].
  destruct (Z.leb_spec 1 n); [|lia]. destruct (Z.leb_spec n 4); [|lia].
  destruct s as [|b s]; [done|].
  destruct (Z.ltb_spec n (len (n :: hb ++ b :: s))); [|unfold len in *; cbn [length] in *; rewrite length_app in *; lia].
  cbn [andb]. replace (Z.to_nat (1 + n)) with (S (Z.to_nat n)) by lia. cbn [drop].
  rewrite <- Hl. unfold len. rewrite Nat2Z.id. apply drop_app_length.
Qed.

Lemma parse_dna_bytes dna : dna_ok dna -> parse_dna (dna_bytes dna) = (dna, []).
Proof.
  destruct dna as [h|]; cbn [dna_ok dna_bytes]; intros H; [|done].
  unfold parse_dna, BuildDNACommitment, len, DNA_COMMITMENT_SIZE. cbn [length]. rewrite H.
  cbn [byte_at nth Z.eqb]. change ((1 + 32 <=? Z.of_nat 33) && (DNA_COMMITMENT_MARKER =? DNA_COMMITMENT_MARKER)) with true.
  cbn iota. unfold slice. change (drop 1 (DNA_COMMITMENT_MARKER :: h)) with h.
  change (drop 33 (DNA_COMMITMENT_MARKER :: h)) with (drop 32 h). by rewrite (take_ge h 32), (drop_ge h 32) by lia.
Qed.

Lemma parse_registration_built SHA3_256 pk sig nonce dna :
  len pk = MIK_PUBKEY_SIZE -> len sig = MIK_SIGNATURE_SIZE -> 0 <= nonce < 2 ^ 64 -> dna_ok dna ->
  Identity_IsNull (DeriveIdentityFromMIK SHA3_256 pk) = false ->
  parse_registration SHA3_256 (pk ++ sig ++ le_bytes 8 nonce ++ dna_bytes dna) =
    Some (mkMik true (DeriveIdentityFromMIK SHA3_256 pk) pk sig nonce (default zero256 dna)
            (match dna with Some _ => true | None => false end) false 0 []).
Proof.
  intros Hpk Hsig Hn Hd Hid. unfold parse_registration. rewrite !len_app.
  destruct (Z.ltb_spec (len pk + (len sig + (len (le_bytes 8 nonce) + len (dna_bytes dna)))) (MIK_PUBKEY_SIZE + MIK_SIGNATURE_SIZE));
    [unfold len in *; lia|].
  assert (E1 : take (Z.to_nat MIK_PUBKEY_SIZE) (pk ++ sig ++ le_bytes 8 nonce ++ dna_bytes dna) = pk).
  { rewrite <- Hpk. unfold len. by rewrite Nat2Z.id, take_app_length. }
  rewrite E1, Hid.
  assert (E2 : slice (pk ++ sig ++ le_bytes 8 nonce ++ dna_bytes dna) (Z.to_nat MIK_PUBKEY_SIZE) (Z.to_nat MIK_SIGNATURE_SIZE) = sig).
  { apply slice_bytes; unfold len in *; lia. }
  assert (E3 : drop (Z.to_nat (MIK_PUBKEY_SIZE + MIK_SIGNATURE_SIZE)) (pk ++ sig ++ le_bytes 8 nonce ++ dna_bytes dna)
               = le_bytes 8 nonce ++ dna_bytes dna).
  { rewrite app_assoc, <- Hpk, <- Hsig, <- len_app. unfold len. by rewrite Nat2Z.id, drop_app_length. }
  rewrite E2, E3. destruct (Z.leb_spec 8 (len (le_bytes 8 nonce ++ dna_bytes dna))) as [_|Hx];
    [|rewrite len_app in Hx; unfold len in Hx; rewrite length_le_bytes in Hx; lia].
  rewrite (take_app_length' _ _ 8), (drop_app_length' _ _ 8), le_val_le_bytes by (by rewrite length_le_bytes).
  rewrite Z.mod_small by done. rewrite (parse_dna_bytes dna Hd). done.
Qed.

Lemma parse_reference_built id sig dna :
  length id = 20%nat -> len sig = MIK_SIGNATURE_SIZE -> dna_ok dna ->
  parse_reference (id ++ sig ++ dna_bytes dna) =
    Some (mkMik false id [] sig 0 (default zero256 dna) (match dna with Some _ => true | None => false end) false 0 []).
Proof.
  intros Hid Hsig Hd. unfold parse_reference. rewrite !len_app.
  destruct (Z.ltb_spec (len id + (len sig + len (dna_bytes dna))) (MIK_IDENTITY_SIZE + MIK_SIGNATURE_SIZE));
    [unfold len, MIK_IDENTITY_SIZE in *; lia|].
  unfold Identity_of. rewrite (take_app_length' id _ 20) by done.
  rewrite (slice_bytes _ id sig) by (unfold len, MIK_IDENTITY_SIZE in *; lia).
  replace (drop (Z.to_nat (MIK_IDENTITY_SIZE + MIK_SIGNATURE_SIZE)) (id ++ sig ++ dna_bytes dna)) with (dna_bytes dna).
  - rewrite (parse_dna_bytes dna Hd). done.
  - rewrite app_assoc, (drop_app_length' (id ++ sig)); [done|].
    rewrite length_app. unfold len, MIK_IDENTITY_SIZE in *. lia.
Qed.

(** identity data round-trips through a coinbase scriptSig: after the
    height push and any extra nonce without the marker byte, the data a miner
    builds (registration with nonce, or reference, with or without a hardware
    commitment) is parsed back field by field. *)
Theorem mik_script_roundtrip (SHA3_256 : list Z -> uint256) (hp extra pubkey signature id : list Z) (nonce : Z)
    (dna : option (list Z)) (reg ref : list Z)
    (Hhp : height_push hp) (Hextra : Forall (fun b => b <> MIK_MARKER) extra)
    (Hnonce : 0 <= nonce < 2 ^ 64) (Hdna : dna_ok dna) (Hid : length id = 20%nat)
    (Hnull : Identity_IsNull (DeriveIdentityFromMIK SHA3_256 pubkey) = false)
    (Hreg : BuildMIKScriptSigRegistration pubkey signature nonce = Some reg)
    (Href : BuildMIKScriptSigReference id signature = Some ref) :
  ParseMIKFromScriptSig SHA3_256 (hp ++ extra ++ reg ++ dna_bytes dna) =
    Some (mkMik true (DeriveIdentityFromMIK SHA3_256 pubkey) pubkey signature nonce (default zero256 dna)
            (match dna with Some _ => true | None => false end) false 0 []) /\
  ParseMIKFromScriptSig SHA3_256 (hp ++ extra ++ ref ++ dna_bytes dna) =
    Some (mkMik false id [] signature 0 (default zero256 dna)
            (match dna with Some _ => true | None => false end) false 0 []).
Proof.
  unfold BuildMIKScriptSigRegistration in Hreg. unfold BuildMIKScriptSigReference in Href.
  destruct (Z.eqb_spec (len pubkey) MIK_PUBKEY_SIZE) as [Hpk|]; [|done].
  destruct (Identity_IsNull id); [done|].
  destruct (Z.eqb_spec (len signature) MIK_SIGNATURE_SIZE) as [Hsig|]; [|done].
  injection Hreg as <-. injection Href as <-. unfold ParseMIKFromScriptSig. cbn [app].
  unfold MIK_REFERENCE_MIN_SIZE, MIK_PUBKEY_SIZE, MIK_SIGNATURE_SIZE in *.
  split; (match goal with |- context [if ?a <? ?b then _ else _] => destruct (Z.ltb_spec a b) as [Hx|_] end;
    [exfalso; revert Hx; rewrite !len_app; unfold len in *; cbn [length]; rewrite ?length_app; lia|]);
    rewrite height_skip_push by (try done; by destruct extra); rewrite search_marker_skip by done;
    cbn [search_marker Z.eqb Pos.eqb MIK_MARKER MIK_TYPE_REGISTRATION MIK_TYPE_REFERENCE].
  - change (MIK_MARKER =? MIK_MARKER) with true. cbn iota. rewrite <- !app_assoc.
    by apply parse_registration_built.
  - rewrite <- !app_assoc. by apply parse_reference_built.
Qed.

Lemma mik_script_roundtrip_witness :
  let hp := [3; 1; 2; 3] in
  ParseMIKFromScriptSig toy_sha3
    (hp ++ [7] ++ ([MIK_MARKER; MIK_TYPE_REGISTRATION] ++ replicate 1952 7 ++ replicate 3309 9 ++ le_bytes 8 5) ++
     dna_bytes (Some (replicate 32 1))) =
  Some (mkMik true (DeriveIdentityFromMIK toy_sha3 (replicate 1952 7)) (replicate 1952 7) (replicate 3309 9) 5
          (replicate 32 1) true false 0 []).
Proof.
  refine (proj1 (mik_script_roundtrip toy_sha3 [3; 1; 2; 3] [7] (replicate 1952 7) (replicate 3309 9) (replicate 20 1) 5
    (Some (replicate 32 1)) _ ([MIK_MARKER; MIK_TYPE_REFERENCE] ++ replicate 20 1 ++ replicate 3309 9) _ _ _ _ _ _ _ _)).
  - exists 3, [1; 2; 3]. split; [reflexivity|]. split; [lia|reflexivity].
  - repeat constructor. discriminate.
  - lia.
  - reflexivity.
  - reflexivity.
  - vm_compute. reflexivity.
  - vm_compute. reflexivity.
  - vm_compute. reflexivity.
Defined.

(** An extra nonce that ends in the marker byte hides the data behind it: the
    real marker is read as an unknown type and skipped. *)
Example marker_in_extra_nonce_hides_identity :
  ParseMIKFromScriptSig toy_sha3
    ([3; 1; 2; 3; MIK_MARKER] ++ [MIK_MARKER; MIK_TYPE_REFERENCE] ++ replicate 20 1 ++ replicate 3309 9) = None.
Proof. vm_compute. done. Qed.

Lemma mik_parse_wf_lemma (SHA3_256 : list Z -> uint256) (scriptSig : list Z) (d : CMIKScriptData)
    (SHA3_wf : forall l, u256_wf (SHA3_256 l)) (Hb : bytes_ok scriptSig)
    (H : ParseMIKFromScriptSig SHA3_256 scriptSig = Some d) :
  mik_wf SHA3_256 d.
Proof.
  unfold ParseMIKFromScriptSig in H. destruct (_ <? _); [done|].
  apply (search_marker_wf SHA3_256 SHA3_wf (drop (height_skip scriptSig) scriptSig)); [auto with dil|done].
Qed.

(** Whatever bytes a coinbase carries, identity data that parses has its
    documented shape: a full-size signature, a 20-byte identity, a 64-bit nonce,
    a 32-byte hardware commitment (zero when absent) and as many attestations as
    announced; a registration carries a full-size key whose hash is the claimed
    identity, and a reference carries no key. *)
Theorem mik_parse_well_formed (SHA3_256 : list Z -> uint256) (scriptSig : list Z) (d : CMIKScriptData)
    (SHA3_wf : forall l, u256_wf (SHA3_256 l)) (Hb : bytes_ok scriptSig)
    (H : ParseMIKFromScriptSig SHA3_256 scriptSig = Some d) :
  mik_wf SHA3_256 d.
Proof. by apply (mik_parse_wf_lemma SHA3_256 scriptSig). Qed.

Lemma mik_parse_well_formed_witness :
  exists d, ParseMIKFromScriptSig toy_sha3
    ([1; 9] ++ [MIK_MARKER; MIK_TYPE_REFERENCE] ++ replicate 20 1 ++ replicate 3309 9) = Some d /\ mik_wf toy_sha3 d.
Proof.
  eexists. split; [vm_compute; reflexivity|].
  eapply (mik_parse_well_formed toy_sha3 ([1; 9] ++ [MIK_MARKER; MIK_TYPE_REFERENCE] ++ replicate 20 1 ++ replicate 3309 9)).
  - intros l. split; [apply length_le_bytes|apply le_bytes_ok].
  - apply bytes_okb_sound. vm_compute. reflexivity.
  - vm_compute. reflexivity.
Defined.

(** ** The signature window *)

Section Window.
  Variable SHA3_256 : list Z -> uint256.
  Variable dilithium_verify : list Z -> list Z -> list Z -> Z.

Lemma backward_scan_spec n : forall k pk sig prev h t id, 1 <= k ->
  backward_scan SHA3_256 dilithium_verify n k pk sig prev h t id = true <->
  exists j, k <= j < k + Z.of_nat n /\ 1 <= t - j /\
    VerifyMIKSignatureExact SHA3_256 dilithium_verify pk sig prev h (t - j) id = true.
Proof.
  induction n as [|n IH]; intros k pk sig prev h t id Hk; cbn [backward_scan].
  { split; [done|]. intros (j & ? & _). lia. }
  destruct (Z.leb_spec t k).
  { split; [done|]. intros (j & ? & ? & _). lia. }
  destruct (Z.ltb_spec (t - k) 1); [lia|].
  destruct (VerifyMIKSignatureExact _ _ pk sig prev h (t - k) id) eqn:E.
  { split; [|done]. intros _. exists k. split; [lia|]. split; [lia|done]. }
  rewrite IH by lia. split; intros (j & H1 & H2 & H3); exists j.
  - split; [lia|done].
  - destruct (Z.eq_dec j k) as [->|]; [congruence|]. split; [lia|done].
Qed.

(** A block's miner signature is accepted exactly when the key hashes to the
    claimed identity and some timestamp at most 180 seconds before the block's
    was signed for this parent and height. *)
Lemma VerifyMIKSignature_iff pk sig prev h t id :
  VerifyMIKSignature SHA3_256 dilithium_verify pk sig prev h t id = true <->
  len pk = MIK_PUBKEY_SIZE /\ len sig = MIK_SIGNATURE_SIZE /\ DeriveIdentityFromMIK SHA3_256 pk = id /\
  exists j, 0 <= j <= 180 /\ (j = 0 \/ 1 <= t - j) /\
    dilithium_verify sig (BuildMIKSignatureMessage SHA3_256 prev h (t - j) id) pk = 0.
Proof.
  assert (EX : forall t', VerifyMIKSignatureExact SHA3_256 dilithium_verify pk sig prev h t' id = true <->
    len pk = MIK_PUBKEY_SIZE /\ len sig = MIK_SIGNATURE_SIZE /\ DeriveIdentityFromMIK SHA3_256 pk = id /\
    dilithium_verify sig (BuildMIKSignatureMessage SHA3_256 prev h t' id) pk = 0).
  { intros t'. unfold VerifyMIKSignatureExact. destruct (Z.eqb_spec (len pk) MIK_PUBKEY_SIZE); cbn [negb]; [|naive_solver].
    destruct (Z.eqb_spec (len sig) MIK_SIGNATURE_SIZE); cbn [negb]; [|naive_solver].
    case_bool_decide; [naive_solver|]. rewrite Z.eqb_eq. split; [|naive_solver]. intros. split_and!; (done || by apply dec_stable). }
  unfold VerifyMIKSignature. destruct (VerifyMIKSignatureExact _ _ pk sig prev h t id) eqn:E0.
  { split; [|done]. intros _. apply EX in E0 as (H1 & H2 & H3 & H4). split_and!; try done.
    exists 0. rewrite Z.sub_0_r. split; [lia|]. split; [by left|done]. }
  assert (N0 : ~ VerifyMIKSignatureExact SHA3_256 dilithium_verify pk sig prev h t id = true) by congruence.
  rewrite EX in N0.
  destruct (Z.eqb_spec (len pk) MIK_PUBKEY_SIZE); cbn [negb orb]; [|naive_solver].
  destruct (Z.eqb_spec (len sig) MIK_SIGNATURE_SIZE); cbn [negb orb]; [|naive_solver].
  case_bool_decide as Hd; [naive_solver|].
  rewrite backward_scan_spec by lia. unfold kMIKVerifyBackwardWindowSeconds.
  split.
  - intros (j & H1 & H2 & H3). apply EX in H3 as (_ & _ & _ & H3). split_and!; try done. exists j.
    split; [lia|]. split; [right; lia|done].
  - intros (_ & _ & _ & j & H1 & H2 & H3). exists j. destruct (Z.eq_dec j 0) as [->|].
    + rewrite Z.sub_0_r in H3. exfalso. apply N0. done.
    + split; [lia|]. split; [lia|]. apply EX. done.
Qed.
End Window.
