(* ===== verification/IdentityDb.v ===== *)
(** * The identity database (dfmp/identity_db.h, dfmp/identity_db.cpp)

    First-seen heights, registered mining keys and last-mined heights of miner
    identities, each with a write-through cache over LevelDB (that of the last-mined heights has no
    size limit).  The LevelDB
    interface is the one of the UTXO store. *)

From S2P Require Import Prelude Uint256 Transaction UtxoStore Dfmp Mik.

(** ** Keys and values *)

(** [GetHex]: two lower-case digits per byte. *)
Definition hex_digit (d : Z) : Z := if d <? 10 then 48 + d else 87 + d.
Definition Identity_GetHex (id : Identity) : list Z :=
  concat ((fun b => [hex_digit (b / 16); hex_digit (b mod 16)]) <$> id).

(** ["dfmp:"], ["mikpk:"], ["dfmplm:"] *)
Definition KEY_PREFIX : list Z := [100; 102; 109; 112; 58].
Definition MIK_PUBKEY_PREFIX : list Z := [109; 105; 107; 112; 107; 58].
Definition LAST_MINED_PREFIX : list Z := [100; 102; 109; 112; 108; 109; 58].

Definition MakeKey (id : Identity) : list Z := KEY_PREFIX ++ Identity_GetHex id.
Definition MakeMIKPubkeyKey (id : Identity) : list Z := MIK_PUBKEY_PREFIX ++ Identity_GetHex id.
Definition MakeLastMinedKey (id : Identity) : list Z := LAST_MINED_PREFIX ++ Identity_GetHex id.

Definition height_value (height : Z) : list Z := le_bytes 4 (u32 height).
Definition parse_height (value : list Z) : Z := i32 (le_val value).

(** ** Cache eviction: the first half in key order *)

(** [memcmp(a, b) <= 0] on equal-length identities. *)
Fixpoint memcmp_le (a b : list Z) : bool :=
  match a, b with
  | x :: a', y :: b' => if x =? y then memcmp_le a' b' else x <? y
  | _, _ => true
  end.
Definition identity_le (a b : Identity) : Prop := memcmp_le a b = true.
#[export] Instance identity_le_dec : RelDecision identity_le.
Proof. intros a b. unfold identity_le. apply _. Defined.

Definition IDENTITY_MAX_CACHE_SIZE : Z := 10000.
Definition MAX_MIK_CACHE_SIZE : Z := 1000.

Definition evict_half {A} (limit : Z) (c : gmap Identity A) : gmap Identity A :=
  if Z.of_nat (size c) >? limit
  then foldr delete c (take (size c / 2) (merge_sort identity_le (map_to_list c).*1))
  else c.

(** ** The database *)

Record CIdentityDB (D : Type) := mkIdentityDB {
  m_db : option D;
  m_cache : gmap Identity Z;
  m_mikPubkeyCache : gmap Identity (list Z);
  m_lastMinedCache : gmap Identity Z
}.
Arguments mkIdentityDB {D} _ _ _ _.
Arguments m_db {D} _.
Arguments m_cache {D} _.
Arguments m_mikPubkeyCache {D} _.
Arguments m_lastMinedCache {D} _.

Section IdentityDB.
  Context {D : Type} `{LDB : LevelDB D}.
  Variable SHA3_256 : list Z -> uint256.
  Implicit Types s : CIdentityDB D.

Definition cache_first_seen s (id : Identity) (h : Z) : CIdentityDB D :=
  mkIdentityDB (m_db s) (<[id := h]> (evict_half IDENTITY_MAX_CACHE_SIZE (m_cache s)))
    (m_mikPubkeyCache s) (m_lastMinedCache s).
Definition cache_pubkey s (id : Identity) (pk : list Z) : CIdentityDB D :=
  mkIdentityDB (m_db s) (m_cache s) (<[id := pk]> (evict_half MAX_MIK_CACHE_SIZE (m_mikPubkeyCache s)))
    (m_lastMinedCache s).
Definition cache_last_mined s (id : Identity) (h : Z) : CIdentityDB D :=
  mkIdentityDB (m_db s) (m_cache s) (m_mikPubkeyCache s) (<[id := h]> (m_lastMinedCache s)).
Definition set_db s (d : D) : CIdentityDB D :=
  mkIdentityDB (Some d) (m_cache s) (m_mikPubkeyCache s) (m_lastMinedCache s).

(** [Open] on the handle LevelDB returns; only [m_cache] is cleared. *)
Definition IdentityDB_Open s (opened : option D) : bool * CIdentityDB D :=
  match m_db s with
  | Some _ => (true, s)
  | None =>
      match opened with
      | None => (false, s)
      | Some d => (true, mkIdentityDB (Some d) ∅ (m_mikPubkeyCache s) (m_lastMinedCache s))
      end
  end.

Definition IdentityDB_Close s : CIdentityDB D :=
  match m_db s with Some _ => mkIdentityDB None ∅ ∅ ∅ | None => s end.

Definition IdentityDB_IsOpen s : bool := match m_db s with Some _ => true | None => false end.

Definition GetFirstSeen s (id : Identity) : Z * CIdentityDB D :=
  match m_db s with
  | None => (-1, s)
  | Some d =>
      match m_cache s !! id with
      | Some h => (h, s)
      | None =>
          match db_Get d (MakeKey id) with
          | None => (-1, s)
          | Some value =>
              if negb (len value =? 4) then (-1, s)
              else let height := parse_height value in (height, cache_first_seen s id height)
          end
      end
  end.

Definition SetFirstSeen s (id : Identity) (height : Z) : bool * CIdentityDB D :=
  match m_db s with
  | None => (false, s)
  | Some d =>
      match m_cache s !! id with
      | Some _ => (false, s)
      | None =>
          match db_Get d (MakeKey id) with
          | Some existingValue =>
              let existingHeight := if len existingValue =? 4 then parse_height existingValue else 0 in
              (false, cache_first_seen s id existingHeight)
          | None =>
              match db_Write d [Put (MakeKey id) (height_value height)] with
              | None => (false, s)
              | Some d' => (true, cache_first_seen (set_db s d') id height)
              end
          end
      end
  end.

Definition IdentityDB_Exists s (id : Identity) : bool * CIdentityDB D :=
  let '(h, s') := GetFirstSeen s id in (h >=? 0, s').

Definition is_prefix (p key : list Z) : bool := bool_decide (take (length p) key = p).

Definition GetIdentityCount s : Z :=
  match m_db s with
  | None => 0
  | Some d => len (filter (fun kv => is_prefix KEY_PREFIX kv.1 = true) (db_Iterate d).1)
  end.

Definition IdentityDB_Clear s : CIdentityDB D :=
  match m_db s with
  | None => s
  | Some d =>
      let doomed := filter (fun kv => is_prefix KEY_PREFIX kv.1 || is_prefix MIK_PUBKEY_PREFIX kv.1
                                      || is_prefix LAST_MINED_PREFIX kv.1 = true) (db_Iterate d).1 in
      mkIdentityDB (Some (default d (db_Write d ((fun kv => Delete kv.1) <$> doomed)))) ∅ ∅ ∅
  end.

Definition SetMIKPubKey s (id : Identity) (pubkey : list Z) : bool * CIdentityDB D :=
  match m_db s with
  | None => (false, s)
  | Some d =>
      if negb (len pubkey =? MIK_PUBKEY_SIZE) then (false, s)
      else if bool_decide (DeriveIdentityFromMIK SHA3_256 pubkey <> id) then (false, s)
      else
        match m_mikPubkeyCache s !! id with
        | Some _ => (false, s)
        | None =>
            match db_Get d (MakeMIKPubkeyKey id) with
            | Some existingValue => (false, cache_pubkey s id existingValue)
            | None =>
                match db_Write d [Put (MakeMIKPubkeyKey id) pubkey] with
                | None => (false, s)
                | Some d' => (true, cache_pubkey (set_db s d') id pubkey)
                end
            end
        end
  end.

Definition GetMIKPubKey s (id : Identity) : option (list Z) * CIdentityDB D :=
  match m_db s with
  | None => (None, s)
  | Some d =>
      match m_mikPubkeyCache s !! id with
      | Some pk => (Some pk, s)
      | None =>
          match db_Get d (MakeMIKPubkeyKey id) with
          | None => (None, s)
          | Some value =>
              if negb (len value =? MIK_PUBKEY_SIZE) then (None, s)
              else (Some value, cache_pubkey s id value)
          end
      end
  end.

Definition HasMIKPubKey s (id : Identity) : bool :=
  match m_db s with
  | None => false
  | Some d =>
      match m_mikPubkeyCache s !! id with
      | Some _ => true
      | None => match db_Get d (MakeMIKPubkeyKey id) with Some _ => true | None => false end
      end
  end.

Definition RemoveMIKPubKey s (id : Identity) : bool * CIdentityDB D :=
  match m_db s with
  | None => (false, s)
  | Some d =>
      match db_Get d (MakeMIKPubkeyKey id) with
      | None => (false, s)
      | Some _ =>
          match db_Write d [Delete (MakeMIKPubkeyKey id)] with
          | None => (false, s)
          | Some d' => (true, mkIdentityDB (Some d') (m_cache s) (delete id (m_mikPubkeyCache s)) (m_lastMinedCache s))
          end
      end
  end.

Definition RemoveFirstSeen s (id : Identity) : bool * CIdentityDB D :=
  match m_db s with
  | None => (false, s)
  | Some d =>
      match db_Get d (MakeKey id) with
      | None => (false, s)
      | Some _ =>
          match db_Write d [Delete (MakeKey id)] with
          | None => (false, s)
          | Some d' => (true, mkIdentityDB (Some d') (delete id (m_cache s)) (m_mikPubkeyCache s) (m_lastMinedCache s))
          end
      end
  end.

Definition SetLastMined s (id : Identity) (height : Z) : CIdentityDB D :=
  match m_db s with
  | None => s
  | Some d =>
      match db_Write d [Put (MakeLastMinedKey id) (height_value height)] with
      | None => s
      | Some d' => cache_last_mined (set_db s d') id height
      end
  end.

Definition GetLastMined s (id : Identity) : Z * CIdentityDB D :=
  match m_lastMinedCache s !! id with
  | Some h => (h, s)
  | None =>
      match m_db s with
      | None => (-1, s)
      | Some d =>
          match db_Get d (MakeLastMinedKey id) with
          | None => (-1, s)
          | Some value =>
              if negb (len value =? 4) then (-1, s)
              else let height := parse_height value in (height, cache_last_mined s id height)
          end
      end
  end.
End IdentityDB.

(** ** Keys are distinct *)

Definition id_ok (id : Identity) : Prop := length id = 20%nat /\ bytes_ok id.

Lemma hex_digit_inj a b : 0 <= a < 16 -> 0 <= b < 16 -> hex_digit a = hex_digit b -> a = b.
Proof. unfold hex_digit. intros. zcases. Qed.

Lemma Identity_GetHex_inj a : forall b, bytes_ok a -> bytes_ok b -> Identity_GetHex a = Identity_GetHex b -> a = b.
Proof.
  induction a as [|x a IH]; intros [|y b] Ha Hb E; try done.
  apply Forall_cons in Ha as [Hx Ha]. apply Forall_cons in Hb as [Hy Hb]. unfold byte_ok in *.
  unfold Identity_GetHex in E. cbn [fmap list_fmap concat app] in E. injection E as E1 E2 E3.
  apply hex_digit_inj in E1; [|split; [apply Z.div_pos|apply Z.div_lt_upper_bound]; lia..].
  apply hex_digit_inj in E2; [|apply Z.mod_pos_bound; lia..].
  f_equal; [|by apply IH]. rewrite (Z.div_mod x 16), (Z.div_mod y 16) by lia. congruence.
Qed.

Lemma MakeKey_inj a b : id_ok a -> id_ok b -> MakeKey a = MakeKey b <-> a = b.
Proof. intros [_ Ha] [_ Hb]. split; [|by intros ->]. intros E. apply app_inv_head in E. by apply Identity_GetHex_inj. Qed.
Lemma MakeMIKPubkeyKey_inj a b : id_ok a -> id_ok b -> MakeMIKPubkeyKey a = MakeMIKPubkeyKey b <-> a = b.
Proof. intros [_ Ha] [_ Hb]. split; [|by intros ->]. intros E. apply app_inv_head in E. by apply Identity_GetHex_inj. Qed.
Lemma MakeLastMinedKey_inj a b : id_ok a -> id_ok b -> MakeLastMinedKey a = MakeLastMinedKey b <-> a = b.
Proof. intros [_ Ha] [_ Hb]. split; [|by intros ->]. intros E. apply app_inv_head in E. by apply Identity_GetHex_inj. Qed.

Lemma identity_keys_disjoint a b :
  MakeKey a <> MakeMIKPubkeyKey b /\ MakeKey a <> MakeLastMinedKey b /\ MakeMIKPubkeyKey a <> MakeLastMinedKey b.
Proof. split_and!; intros E; discriminate E. Qed.

Lemma foldr_delete_Some {A} (l : list Identity) (c : gmap Identity A) id x :
  foldr delete c l !! id = Some x -> c !! id = Some x.
Proof. induction l as [|k l IH]; simpl; [done|]. intros H%lookup_delete_Some. apply IH, H. Qed.

Lemma evict_half_Some {A} (limit : Z) (c : gmap Identity A) id x : evict_half limit c !! id = Some x -> c !! id = Some x.
Proof. unfold evict_half. destruct (_ >? limit); [apply foldr_delete_Some|done]. Qed.

(** ** Specification: three maps *)

Record IdSpec := mkIdSpec {
  first_seen : gmap Identity Z;
  mik_keys : gmap Identity (list Z);
  last_mined : gmap Identity Z
}.

Inductive IdOp : Type :=
| IGetFirstSeen (id : Identity) | ISetFirstSeen (id : Identity) (h : Z)
| IGetKey (id : Identity) | ISetKey (id : Identity) (pk : list Z)
| IRemoveKey (id : Identity) | IRemoveFirstSeen (id : Identity)
| ISetLastMined (id : Identity) (h : Z) | IGetLastMined (id : Identity)
| IExists (id : Identity) | IHasKey (id : Identity) | IClear | IReopen.

Inductive IdAns : Type := AInt (z : Z) | ABool (b : bool) | AKey (k : option (list Z)) | ADone.

Definition height_ok (h : Z) : Prop := 0 <= h < 2 ^ 31.

Definition idop_ok (op : IdOp) : Prop :=
  match op with
  | IGetFirstSeen id | IGetKey id | ISetKey id _ | IRemoveKey id | IRemoveFirstSeen id | IGetLastMined id
  | IExists id | IHasKey id => id_ok id
  | ISetFirstSeen id h | ISetLastMined id h => id_ok id /\ height_ok h
  | IClear | IReopen => True
  end.

Section Refine.
  Context {D : Type} `{LDB : LevelDB D}.
  Variable SHA3_256 : list Z -> uint256.

(** First-seen heights and keys are written once; removal is only for undo.  A
    write that the database refuses ([ok] is false) changes nothing. *)
Definition id_spec_step (ok : bool) (a : IdSpec) (op : IdOp) : IdAns * IdSpec :=
  match op with
  | IGetFirstSeen id => (AInt (default (-1) (first_seen a !! id)), a)
  | IExists id => (ABool (bool_decide (is_Some (first_seen a !! id))), a)
  | ISetFirstSeen id h =>
      match first_seen a !! id with
      | Some _ => (ABool false, a)
      | None => (ABool ok, if ok then mkIdSpec (<[id := h]> (first_seen a)) (mik_keys a) (last_mined a) else a)
      end
  | IGetKey id => (AKey (mik_keys a !! id), a)
  | IHasKey id => (ABool (bool_decide (is_Some (mik_keys a !! id))), a)
  | ISetKey id pk =>
      if (len pk =? MIK_PUBKEY_SIZE) && bool_decide (DeriveIdentityFromMIK SHA3_256 pk = id)
      then match mik_keys a !! id with
           | Some _ => (ABool false, a)
           | None => (ABool ok, if ok then mkIdSpec (first_seen a) (<[id := pk]> (mik_keys a)) (last_mined a) else a)
           end
      else (ABool false, a)
  | IRemoveKey id =>
      (ABool (ok && bool_decide (is_Some (mik_keys a !! id))),
       if ok then mkIdSpec (first_seen a) (delete id (mik_keys a)) (last_mined a) else a)
  | IRemoveFirstSeen id =>
      (ABool (ok && bool_decide (is_Some (first_seen a !! id))),
       if ok then mkIdSpec (delete id (first_seen a)) (mik_keys a) (last_mined a) else a)
  | ISetLastMined id h => (ADone, if ok then mkIdSpec (first_seen a) (mik_keys a) (<[id := h]> (last_mined a)) else a)
  | IGetLastMined id => (AInt (default (-1) (last_mined a !! id)), a)
  | IClear => (ADone, if ok then mkIdSpec ∅ ∅ ∅ else a)
  | IReopen => (ABool true, a)
  end.

Definition id_impl_step (s : CIdentityDB D) (op : IdOp) : IdAns * CIdentityDB D :=
  match op with
  | IGetFirstSeen id => let '(h, s') := GetFirstSeen s id in (AInt h, s')
  | ISetFirstSeen id h => let '(b, s') := SetFirstSeen s id h in (ABool b, s')
  | IGetKey id => let '(k, s') := GetMIKPubKey s id in (AKey k, s')
  | ISetKey id pk => let '(b, s') := SetMIKPubKey SHA3_256 s id pk in (ABool b, s')
  | IRemoveKey id => let '(b, s') := RemoveMIKPubKey s id in (ABool b, s')
  | IRemoveFirstSeen id => let '(b, s') := RemoveFirstSeen s id in (ABool b, s')
  | ISetLastMined id h => (ADone, SetLastMined s id h)
  | IGetLastMined id => let '(h, s') := GetLastMined s id in (AInt h, s')
  | IExists id => let '(b, s') := IdentityDB_Exists s id in (ABool b, s')
  | IHasKey id => (ABool (HasMIKPubKey s id), s)
  | IClear => (ADone, IdentityDB_Clear s)
  | IReopen => let '(b, s') := IdentityDB_Open (IdentityDB_Close s) (m_db s) in (ABool b, s')
  end.

Fixpoint id_run (s : CIdentityDB D) (ops : list IdOp) : list IdAns * CIdentityDB D :=
  match ops with
  | [] => ([], s)
  | op :: ops' =>
      let '(ans, s1) := id_impl_step s op in
      let '(anss, s2) := id_run s1 ops' in (ans :: anss, s2)
  end.

Fixpoint id_spec_run (oks : list bool) (a : IdSpec) (ops : list IdOp) : list IdAns * IdSpec :=
  match ops with
  | [] => ([], a)
  | op :: ops' =>
      let '(ans, a1) := id_spec_step (hd true oks) a op in
      let '(anss, a2) := id_spec_run (tl oks) a1 ops' in (ans :: anss, a2)
  end.

(** One table: the database holds the encoded map, the cache part of it. *)
Definition table_rep {A} (enc : A -> list Z) (mk : Identity -> list Z) (P : A -> Prop) (d : D)
    (m c : gmap Identity A) : Prop :=
  (forall id, id_ok id -> db_Get d (mk id) = enc <$> m !! id) /\
  (forall id x, c !! id = Some x -> m !! id = Some x) /\
  (forall id x, m !! id = Some x -> P x).

Definition key_ok (k : list Z) : Prop := len k = MIK_PUBKEY_SIZE.

Definition ids_rep (s : CIdentityDB D) (a : IdSpec) : Prop :=
  exists d, m_db s = Some d /\
  table_rep height_value MakeKey height_ok d (first_seen a) (m_cache s) /\
  table_rep (fun k => k) MakeMIKPubkeyKey key_ok d (mik_keys a) (m_mikPubkeyCache s) /\
  table_rep height_value MakeLastMinedKey height_ok d (last_mined a) (m_lastMinedCache s).

Lemma put_get d d' k v key : db_Write d [Put k v] = Some d' ->
  db_Get d' key = if decide (k = key) then Some v else db_Get d key.
Proof. intros H. by rewrite (db_Get_Write _ _ _ key H). Qed.

Lemma delete_get d d' k key : db_Write d [Delete k] = Some d' ->
  db_Get d' key = if decide (k = key) then None else db_Get d key.
Proof. intros H. by rewrite (db_Get_Write _ _ _ key H). Qed.

Section Table.
  Context {A : Type} (enc : A -> list Z) (mk : Identity -> list Z) (P : A -> Prop).
  Hypothesis mk_inj : forall a b, id_ok a -> id_ok b -> mk a = mk b <-> a = b.

Lemma table_cache d m c c' id x : table_rep enc mk P d m c -> m !! id = Some x ->
  (forall i y, c' !! i = Some y -> c !! i = Some y) -> table_rep enc mk P d m (<[id := x]> c').
Proof.
  intros (H1 & H2 & H3) Hx Hsub. split_and!; [done| |done].
  intros i y [[<- <-]|[_ Hy]]%lookup_insert_Some; [done|]. by apply H2, Hsub.
Qed.

Lemma table_put d d' m c c' id x : table_rep enc mk P d m c -> id_ok id -> P x ->
  (forall i y, c' !! i = Some y -> c !! i = Some y) ->
  db_Write d [Put (mk id) (enc x)] = Some d' -> table_rep enc mk P d' (<[id := x]> m) (<[id := x]> c').
Proof.
  intros (H1 & H2 & H3) Hid HP Hsub HW. split_and!.
  - intros i Hi. rewrite (put_get _ _ _ _ _ HW). rewrite (decide_ext _ _ _ _ (mk_inj id i Hid Hi)).
    case_decide as E; [subst; by rewrite lookup_insert_eq|]. by rewrite lookup_insert_ne, H1.
  - intros i y [[<- <-]|[Hn Hy]]%lookup_insert_Some; [by rewrite lookup_insert_eq|].
    rewrite lookup_insert_ne by done. by apply H2, Hsub.
  - intros i y [[<- <-]|[_ Hy]]%lookup_insert_Some; [done|by eapply H3].
Qed.

Lemma table_delete d d' m c id : table_rep enc mk P d m c -> id_ok id ->
  db_Write d [Delete (mk id)] = Some d' -> table_rep enc mk P d' (delete id m) (delete id c).
Proof.
  intros (H1 & H2 & H3) Hid HW. split_and!.
  - intros i Hi. rewrite (delete_get _ _ _ _ HW). rewrite (decide_ext _ _ _ _ (mk_inj id i Hid Hi)).
    case_decide as E; [subst; by rewrite lookup_delete_eq|]. by rewrite lookup_delete_ne, H1.
  - intros i y [Hn Hy]%lookup_delete_Some. rewrite lookup_delete_ne by done. by apply H2.
  - intros i y [_ Hy]%lookup_delete_Some. by eapply H3.
Qed.

Lemma table_frame_put d d' m c k v : table_rep enc mk P d m c ->
  db_Write d [Put k v] = Some d' -> (forall i, k <> mk i) -> table_rep enc mk P d' m c.
Proof.
  intros (H1 & H2 & H3) HW Hk. split_and!; [|done..]. intros i Hi.
  rewrite (put_get _ _ _ _ _ HW), decide_False by apply Hk. by apply H1.
Qed.

Lemma table_frame_delete d d' m c k : table_rep enc mk P d m c ->
  db_Write d [Delete k] = Some d' -> (forall i, k <> mk i) -> table_rep enc mk P d' m c.
Proof.
  intros (H1 & H2 & H3) HW Hk. split_and!; [|done..]. intros i Hi.
  rewrite (delete_get _ _ _ _ HW), decide_False by apply Hk. by apply H1.
Qed.
End Table.

Lemma len_height_value h : len (height_value h) = 4.
Proof. unfold len, height_value. by rewrite length_le_bytes. Qed.

Lemma parse_height_value h : height_ok h -> parse_height (height_value h) = h.
Proof. unfold height_ok. intros. apply heat_entry_height. lia. Qed.

Create HintDb idb.
#[local] Hint Resolve MakeKey_inj MakeMIKPubkeyKey_inj MakeLastMinedKey_inj evict_half_Some : idb.
#[local] Hint Extern 1 (forall i, _ <> _) => (intros i E; discriminate E) : idb.

(** A write to one table leaves the other two alone. *)
Ltac write_ok HW := first [
    solve [eapply table_put; eauto with idb] | solve [eapply table_delete; eauto with idb]
  | solve [eapply table_frame_put; eauto with idb] | solve [eapply table_frame_delete; eauto with idb] ].

(** One operation answers as the maps do and keeps the representation. *)
Definition refines_with (ok : bool) (s : CIdentityDB D) (a : IdSpec) (op : IdOp) : Prop :=
  (id_impl_step s op).1 = (id_spec_step ok a op).1 /\ ids_rep (id_impl_step s op).2 (id_spec_step ok a op).2.
Definition refines_at (s : CIdentityDB D) (a : IdSpec) (op : IdOp) : Prop :=
  exists ok, refines_with ok s a op /\ (writes_succeed (D := D) -> ok = true).

(** A write either takes effect or is refused. *)
Lemma write_cases s a op (d : D) ops : (forall d', db_Write d ops = Some d' -> refines_with true s a op) ->
  (db_Write d ops = None -> refines_with false s a op) -> refines_at s a op.
Proof.
  intros H1 H2. destruct (db_Write d ops) as [d'|] eqn:E; [exists true; split; [by eapply H1|done]|].
  exists false. split; [by apply H2|]. intros HW. destruct (HW d ops) as [d' E']. congruence.
Qed.

Lemma read_refines s a op : refines_with true s a op -> refines_at s a op.
Proof. intros H. by exists true. Qed.

Ltac unrep := cbn [m_db m_cache m_mikPubkeyCache m_lastMinedCache cache_first_seen cache_pubkey cache_last_mined
  set_db first_seen mik_keys last_mined fst snd].
Ltac same d := split; [done|by exists d].

Lemma GetFirstSeen_refines s a id : ids_rep s a -> id_ok id -> refines_with true s a (IGetFirstSeen id).
Proof.
  intros (d & Ed & HF & HK & HL) Hid. unfold refines_with; cbn [id_impl_step id_spec_step]. unfold GetFirstSeen.
  rewrite Ed. pose proof HF as (F1 & F2 & F3).
  destruct (m_cache s !! id) as [h|] eqn:Ec; [rewrite (F2 _ _ Ec); same d|].
  rewrite (F1 id Hid). destruct (first_seen a !! id) as [h|] eqn:Ef; cbn [fmap option_fmap option_map]; [|same d].
  rewrite len_height_value, Z.eqb_refl. cbn [negb]. rewrite parse_height_value by eauto. split; [done|].
  exists d. unrep. split_and!; try done. eapply table_cache; eauto with idb.
Qed.

Lemma SetFirstSeen_refines s a id h : ids_rep s a -> id_ok id -> height_ok h -> refines_at s a (ISetFirstSeen id h).
Proof.
  intros (d & Ed & HF & HK & HL) Hid Hh. apply (write_cases _ _ _ d [Put (MakeKey id) (height_value h)]); [intros d' HW|intros HW];
    unfold refines_with; cbn [id_impl_step id_spec_step]; unfold SetFirstSeen; rewrite Ed; pose proof HF as (F1 & F2 & F3);
    (destruct (m_cache s !! id) as [h0|] eqn:Ec; [rewrite (F2 _ _ Ec); same d|]);
    rewrite (F1 id Hid); destruct (first_seen a !! id) as [h0|] eqn:Ef; cbn [fmap option_fmap option_map]; rewrite ?HW; try same d.
  1,3: rewrite len_height_value, Z.eqb_refl, parse_height_value by eauto; split; [done|];
    exists d; unrep; split_and!; try done; eapply table_cache; eauto with idb.
  split; [done|]. exists d'. unrep. split_and!; [done|write_ok HW..].
Qed.

Lemma GetMIKPubKey_refines s a id : ids_rep s a -> id_ok id -> refines_with true s a (IGetKey id).
Proof.
  intros (d & Ed & HF & HK & HL) Hid. unfold refines_with; cbn [id_impl_step id_spec_step]. unfold GetMIKPubKey.
  rewrite Ed. pose proof HK as (F1 & F2 & F3).
  destruct (m_mikPubkeyCache s !! id) as [k|] eqn:Ec; [rewrite (F2 _ _ Ec); same d|].
  rewrite (F1 id Hid). destruct (mik_keys a !! id) as [k|] eqn:Ek; cbn [fmap option_fmap option_map]; [|same d].
  rewrite (F3 id k Ek), Z.eqb_refl. split; [done|].
  exists d. unrep. split_and!; try done. eapply table_cache; eauto with idb.
Qed.

Lemma SetMIKPubKey_refines s a id pk : ids_rep s a -> id_ok id -> refines_at s a (ISetKey id pk).
Proof.
  intros (d & Ed & HF & HK & HL) Hid. apply (write_cases _ _ _ d [Put (MakeMIKPubkeyKey id) pk]); [intros d' HW|intros HW];
    unfold refines_with; cbn [id_impl_step id_spec_step]; unfold SetMIKPubKey; rewrite Ed; pose proof HK as (F1 & F2 & F3);
    (destruct (Z.eqb_spec (len pk) MIK_PUBKEY_SIZE) as [Hpk|]; cbn [negb andb]; [|same d]);
    (destruct (decide (DeriveIdentityFromMIK SHA3_256 pk = id)) as [Hd|Hd];
      [rewrite (bool_decide_false (_ <> _)), (bool_decide_true (_ = _)) by tauto
      |rewrite (bool_decide_true (_ <> _)), (bool_decide_false (_ = _)) by done; same d]);
    (destruct (m_mikPubkeyCache s !! id) as [k|] eqn:Ec; [rewrite (F2 _ _ Ec); same d|]);
    rewrite (F1 id Hid); destruct (mik_keys a !! id) as [k|] eqn:Ek; cbn [fmap option_fmap option_map]; rewrite ?HW; try same d.
  1,3: split; [done|]; exists d; unrep; split_and!; try done; eapply table_cache; eauto with idb.
  split; [done|]. exists d'. unrep. split_and!; [done|write_ok HW| |write_ok HW]. eapply (table_put (fun k => k)); eauto with idb.
Qed.

Lemma RemoveMIKPubKey_refines s a id : ids_rep s a -> id_ok id -> refines_at s a (IRemoveKey id).
Proof.
  intros (d & Ed & HF & HK & HL) Hid. pose proof HK as (F1 & F2 & F3). destruct (mik_keys a !! id) as [k|] eqn:Ek.
  - apply (write_cases _ _ _ d [Delete (MakeMIKPubkeyKey id)]); [intros d' HW|intros HW]; unfold refines_with; cbn [id_impl_step id_spec_step];
      unfold RemoveMIKPubKey; rewrite Ed, (F1 id Hid), Ek; cbn [fmap option_fmap option_map]; rewrite HW, bool_decide_true by done; [|same d].
    split; [done|]. exists d'. unrep. split_and!; [done|write_ok HW..].
  - apply read_refines. unfold refines_with; cbn [id_impl_step id_spec_step]. unfold RemoveMIKPubKey. rewrite Ed, (F1 id Hid), Ek.
    cbn [fmap option_fmap option_map]. rewrite bool_decide_false by (by intros []). rewrite delete_id by done. split; [done|]. exists d. by destruct a.
Qed.

Lemma RemoveFirstSeen_refines s a id : ids_rep s a -> id_ok id -> refines_at s a (IRemoveFirstSeen id).
Proof.
  intros (d & Ed & HF & HK & HL) Hid. pose proof HF as (F1 & F2 & F3). destruct (first_seen a !! id) as [k|] eqn:Ek.
  - apply (write_cases _ _ _ d [Delete (MakeKey id)]); [intros d' HW|intros HW]; unfold refines_with; cbn [id_impl_step id_spec_step];
      unfold RemoveFirstSeen; rewrite Ed, (F1 id Hid), Ek; cbn [fmap option_fmap option_map]; rewrite HW, bool_decide_true by done; [|same d].
    split; [done|]. exists d'. unrep. split_and!; [done|write_ok HW..].
  - apply read_refines. unfold refines_with; cbn [id_impl_step id_spec_step]. unfold RemoveFirstSeen. rewrite Ed, (F1 id Hid), Ek.
    cbn [fmap option_fmap option_map]. rewrite bool_decide_false by (by intros []). rewrite delete_id by done. split; [done|]. exists d. by destruct a.
Qed.

Lemma SetLastMined_refines s a id h : ids_rep s a -> id_ok id -> height_ok h -> refines_at s a (ISetLastMined id h).
Proof.
  intros (d & Ed & HF & HK & HL) Hid Hh. apply (write_cases _ _ _ d [Put (MakeLastMinedKey id) (height_value h)]); [intros d' HW|intros HW];
    unfold refines_with; cbn [id_impl_step id_spec_step]; unfold SetLastMined; rewrite Ed, HW; [|same d].
  split; [done|]. exists d'. unrep. split_and!; [done|write_ok HW..].
Qed.

Lemma Exists_refines s a id : ids_rep s a -> id_ok id -> refines_with true s a (IExists id).
Proof.
  intros Hr Hid. destruct (GetFirstSeen_refines s a id Hr Hid) as [E R]. unfold refines_with; cbn [id_impl_step id_spec_step] in *.
  unfold IdentityDB_Exists. destruct (GetFirstSeen s id) as [h s']. cbn [fst snd] in *. injection E as ->. split; [|done]. cbn. f_equal.
  destruct Hr as (d & _ & (_ & _ & F3) & _). destruct (first_seen a !! id) as [h|] eqn:Ef; cbn; [|done].
  specialize (F3 _ _ Ef). unfold height_ok in F3. rewrite Z.geb_leb. apply Z.leb_le. lia.
Qed.

Lemma HasMIKPubKey_refines s a id : ids_rep s a -> id_ok id -> refines_with true s a (IHasKey id).
Proof.
  intros (d & Ed & HF & HK & HL) Hid. split; [|by exists d]. cbn [id_impl_step id_spec_step fst]. unfold HasMIKPubKey. rewrite Ed.
  destruct HK as (F1 & F2 & _). destruct (m_mikPubkeyCache s !! id) as [k|] eqn:Ec; [by rewrite (F2 _ _ Ec)|]. rewrite (F1 id Hid).
  by destruct (mik_keys a !! id).
Qed.

Lemma table_no_cache {A} (enc : A -> list Z) mk P (d : D) m c : table_rep enc mk P d m c -> table_rep enc mk P d m ∅.
Proof. intros (H1 & _ & H3). split_and!; [done|by intros ? ? ?%lookup_empty_Some|done]. Qed.

Lemma Reopen_refines s a : ids_rep s a -> refines_with true s a IReopen.
Proof.
  intros (d & Ed & HF & HK & HL). unfold refines_with; cbn [id_impl_step id_spec_step]. unfold IdentityDB_Close. rewrite Ed. cbn.
  split; [done|]. exists d. unrep. split_and!; [done|..]; by eapply table_no_cache.
Qed.

(** Deleting the keys of a list. *)
Lemma batch_get_erased (l : list (list Z * list Z)) key old :
  batch_get ((fun kv => Delete kv.1) <$> l) key old = if decide (key ∈ l.*1) then None else old.
Proof.
  revert old. induction l as [|[k v] l IH]; intros old; [done|]. cbn [fmap list_fmap batch_get fst]. rewrite IH.
  pose proof (elem_of_cons (l.*1) key k) as HC. repeat case_decide; naive_solver.
Qed.

Definition ours (key : list Z) : bool := is_prefix KEY_PREFIX key || is_prefix MIK_PUBKEY_PREFIX key || is_prefix LAST_MINED_PREFIX key.

(** A complete scan finds every key of the three tables. *)
Lemma clear_get (d d' : D) key : (db_Iterate d).2 = true -> ours key = true ->
  db_Write d ((fun kv => Delete kv.1) <$> filter (fun kv => is_prefix KEY_PREFIX kv.1 || is_prefix MIK_PUBKEY_PREFIX kv.1
                                      || is_prefix LAST_MINED_PREFIX kv.1 = true) (db_Iterate d).1) = Some d' -> db_Get d' key = None.
Proof.
  intros HI Hk HW. rewrite (db_Get_Write _ _ _ key HW), batch_get_erased. case_decide as Hn; [done|]. destruct (db_Get d key) as [v|] eqn:E; [|done].
  destruct Hn. apply list_elem_of_fmap. exists (key, v). split; [done|]. apply list_elem_of_filter. split; [exact Hk|].
  by apply db_Iterate_complete.
Qed.

Lemma empty_table {A} (enc : A -> list Z) mk P (d : D) : (forall id, db_Get d (mk id) = None) -> table_rep enc mk P d ∅ ∅.
Proof. intros H. split_and!; [intros id _; by rewrite H, lookup_empty|by intros ? ? ?%lookup_empty_Some..]. Qed.

Lemma Clear_refines s a : (forall d : D, (db_Iterate d).2 = true) -> ids_rep s a -> refines_at s a IClear.
Proof.
  intros HI (d & Ed & HF & HK & HL).
  apply (write_cases _ _ _ d ((fun kv => Delete kv.1) <$> filter (fun kv => is_prefix KEY_PREFIX kv.1 || is_prefix MIK_PUBKEY_PREFIX kv.1
                                      || is_prefix LAST_MINED_PREFIX kv.1 = true) (db_Iterate d).1)); [intros d' HW|intros HW];
    (split; [done|]); cbn [id_impl_step id_spec_step snd]; unfold IdentityDB_Clear; rewrite Ed, HW; cbn [default].
  - exists d'. unrep. split_and!; [done|..]; apply empty_table; intros id; apply (clear_get d d' _ (HI d)); done.
  - exists d. unrep. split_and!; [done|..]; by eapply table_no_cache.
Qed.

Lemma GetLastMined_refines s a id : ids_rep s a -> id_ok id -> refines_with true s a (IGetLastMined id).
Proof.
  intros (d & Ed & HF & HK & HL) Hid. unfold refines_with; cbn [id_impl_step id_spec_step]. unfold GetLastMined.
  pose proof HL as (F1 & F2 & F3).
  destruct (m_lastMinedCache s !! id) as [h|] eqn:Ec; [rewrite (F2 _ _ Ec); same d|].
  rewrite Ed, (F1 id Hid). destruct (last_mined a !! id) as [h|] eqn:Ef; cbn [fmap option_fmap option_map]; [|same d].
  rewrite len_height_value, Z.eqb_refl. cbn [negb]. rewrite parse_height_value by eauto. split; [done|].
  exists d. unrep. split_and!; try done. eapply table_cache; eauto with idb.
Qed.

#[local] Hint Resolve GetFirstSeen_refines SetFirstSeen_refines GetMIKPubKey_refines SetMIKPubKey_refines
  RemoveMIKPubKey_refines RemoveFirstSeen_refines SetLastMined_refines GetLastMined_refines Exists_refines
  HasMIKPubKey_refines Reopen_refines Clear_refines read_refines : idb.

Lemma id_step_refines s a op : ids_rep s a -> idop_ok op -> (op = IClear -> forall d : D, (db_Iterate d).2 = true) -> refines_at s a op.
Proof. intros Hr Ho HI. destruct op; cbn [idop_ok] in Ho; destruct_and?; eauto with idb. Qed.

Lemma id_run_refines ops : forall s a, ids_rep s a -> Forall idop_ok ops -> (IClear ∈ ops -> forall d : D, (db_Iterate d).2 = true) ->
  exists oks, length oks = length ops /\ (id_run s ops).1 = (id_spec_run oks a ops).1 /\
    ids_rep (id_run s ops).2 (id_spec_run oks a ops).2 /\ (writes_succeed (D := D) -> Forall (eq true) oks).
Proof.
  induction ops as [|op ops IH]; intros s a Hr Ho HI; [by exists []|]. apply Forall_cons in Ho as [Ho Hos].
  destruct (id_step_refines s a op Hr Ho) as (ok & [E R] & HW); [intros ->; apply HI; left|].
  cbn [id_run]. destruct (id_impl_step s op) as [x s1]. destruct (id_spec_step ok a op) as [y a1] eqn:Ea. cbn [fst snd] in E, R. subst y.
  destruct (IH s1 a1 R Hos ltac:(intros H; apply HI; by right)) as (oks & HL & E2 & R2 & HW2). exists (ok :: oks).
  cbn [id_spec_run hd tl length]. rewrite Ea. destruct (id_run s1 ops), (id_spec_run oks a1 ops). cbn [fst snd] in *. subst.
  split_and!; [by rewrite HL|done|done|]. intros H. constructor; [symmetry; auto|auto].
Qed.
End Refine.

(** C22: the cached identity database behaves as three maps.  From an open
    database that stands for maps of first-seen heights, registered keys and
    last-mined heights, every sequence of queries, updates, removals, clearings
    and reopenings, for identities of 20 bytes and heights below 2^31, gets the
    answers of the maps, whatever the caches hold and evict: a first-seen height
    and a key are never overwritten, a key is stored only under its own hash,
    and a write that LevelDB refuses is answered false and changes nothing;
    when LevelDB accepts every write none is refused.  Clearing needs scans that
    reach the end of the database.  Queries while the database is closed are
    not covered. *)
Theorem identity_db_refines_maps (D : Type) (LDB : LevelDB D) (SHA3_256 : list Z -> uint256)
    (s : CIdentityDB D) (a : IdSpec) (ops : list IdOp)
    (Hrep : ids_rep s a) (Hops : Forall idop_ok ops) (Hscan : IClear ∈ ops -> forall d : D, (db_Iterate d).2 = true) :
  exists oks, length oks = length ops /\
    (id_run SHA3_256 s ops).1 = (id_spec_run SHA3_256 oks a ops).1 /\
    ids_rep (id_run SHA3_256 s ops).2 (id_spec_run SHA3_256 oks a ops).2 /\
    (writes_succeed (D := D) -> Forall (eq true) oks).
Proof. by apply id_run_refines. Qed.

Definition empty_identity_db : CIdentityDB (gmap (list Z) (list Z)) := mkIdentityDB (Some ∅) ∅ ∅ ∅.
Definition demo_id : Identity := replicate 20 3.

Lemma identity_db_refines_maps_witness : exists oks,
  (id_spec_run toy_sha3 oks (mkIdSpec ∅ ∅ ∅)
     [ISetFirstSeen demo_id 5; IGetFirstSeen demo_id; ISetFirstSeen demo_id 6; IReopen; IGetFirstSeen demo_id;
      IClear; IExists demo_id]).1 =
  [ABool true; AInt 5; ABool false; ABool true; AInt 5; ADone; ABool false] /\ Forall (eq true) oks.
Proof.
  assert (Hid : id_ok demo_id) by (split; [reflexivity|apply bytes_okb_sound; reflexivity]).
  destruct (identity_db_refines_maps _ MemDB toy_sha3 empty_identity_db (mkIdSpec ∅ ∅ ∅)
    [ISetFirstSeen demo_id 5; IGetFirstSeen demo_id; ISetFirstSeen demo_id 6; IReopen; IGetFirstSeen demo_id; IClear; IExists demo_id])
    as (oks & _ & E & _ & HW).
  - exists ∅. split; [reflexivity|]. unfold table_rep. split_and!; intros *; done.
  - repeat constructor; (done || (split; [done|lia]) || exact Hid).
  - reflexivity.
  - exists oks. split; [|apply HW, MemDB_writes_succeed]. rewrite <- E. vm_compute. reflexivity.
Defined.
