(* ===== verification/DfmpPow.v ===== *)
(** * Proof of work under fair mining (consensus/pow.cpp, [CheckProofOfWorkDFMP])

    The check that combines the block's hash, the miner identity in its
    coinbase, the identity database and the heat trackers.  The chain
    parameters, the trackers and the DNA registry's verification query are the
    environment; SHA3-256 and Dilithium3 verification are variables. *)

From S2P Require Import Prelude Uint256 ChainParams Block Transaction BlockTxs UtxoStore Dfmp Mik IdentityDb.

Record DfmpEnv (D : Type) := mkEnv {
  env_params : option ChainParams;
  env_identityDb : option (CIdentityDB D);
  env_heat : option CHeatTracker;
  env_payout_heat : option CHeatTracker;
  env_dna_verified : option (Identity -> bool)
}.
Arguments mkEnv {D} _ _ _ _ _.
Arguments env_params {D} _.
Arguments env_identityDb {D} _.
Arguments env_heat {D} _.
Arguments env_payout_heat {D} _.
Arguments env_dna_verified {D} _.

(** Where the identity's key comes from. *)
Inductive KeyLookup : Type := KeyFound (pk : list Z) | KeyMismatch | KeyUnknown.

Section DfmpPow.
  Context {D : Type} `{LDB : LevelDB D}.
  Variable SHA3_256 : list Z -> uint256.
  Variable dilithium_verify : list Z -> list Z -> list Z -> Z.

Definition param {A} (env : DfmpEnv D) (f : ChainParams -> A) (dflt : A) : A :=
  match env_params env with Some p => f p | None => dflt end.

Definition mik_key (env : DfmpEnv D) (mik : CMIKScriptData) : KeyLookup * option (CIdentityDB D) :=
  if isRegistration mik then
    if bool_decide (DeriveIdentityFromMIK SHA3_256 (mik_pubkey mik) <> mik_identity mik)
    then (KeyMismatch, env_identityDb env) else (KeyFound (mik_pubkey mik), env_identityDb env)
  else
    match env_identityDb env with
    | None => (KeyUnknown, None)
    | Some db =>
        let '(k, db') := GetMIKPubKey db (mik_identity mik) in
        (match k with Some pk => KeyFound pk | None => KeyUnknown end, Some db')
    end.

(** The bits a registration must show, by height. *)
Definition registration_bits (env : DfmpEnv D) (height : Z) : Z :=
  match env_params env with
  | None => REGISTRATION_POW_BITS
  | Some p =>
      let dnaHeight := dnaCommitmentActivationHeight p in
      if (dnaHeight =? 0) || (height >=? dnaHeight) then registrationPowBits p else REGISTRATION_POW_BITS
  end.

Definition registration_ok (env : DfmpEnv D) (height : Z) (mik : CMIKScriptData) : bool :=
  if (height >=? param env dfmpV3ActivationHeight 0) && isRegistration mik then
    VerifyRegistrationPoW SHA3_256 (mik_pubkey mik) (registrationNonce mik) (registration_bits env height)
      (if has_dna_hash mik then Some (dna_hash mik) else None)
  else true.

(** First-seen height, with the dormancy reset. *)
Definition effective_first_seen (env : DfmpEnv D) (db : option (CIdentityDB D)) (height : Z) (identity : Identity)
  : (Z * Z) * option (CIdentityDB D) :=
  match db with
  | None => ((-1, -1), None)
  | Some db0 =>
      let '(firstSeen, db1) := GetFirstSeen db0 identity in
      if (height >=? param env dfmpV3ActivationHeight 0) && (firstSeen >=? 0) then
        let '(lastMined, db2) := GetLastMined db1 identity in
        let effective :=
          if (lastMined >=? 0) && (height - lastMined >? DORMANCY_THRESHOLD)
          then height - DORMANCY_DECAY_BLOCKS else firstSeen in
        ((firstSeen, effective), Some db2)
      else ((firstSeen, firstSeen), Some db1)
  end.

(** The protocol version in force; the DNA registry is only asked from v3.4 on. *)
Definition dfmp_version (env : DfmpEnv D) (height : Z) (identity : Identity) : DfmpVersion :=
  if height >=? param env dfmpV34ActivationHeight 999999999 then
    V34 (match env_dna_verified env with Some f => f identity | None => true end)
  else if height >=? param env dfmpV33ActivationHeight 999999999 then V33
  else if height >=? param env dfmpV32ActivationHeight 999999999 then V32
  else if height >=? param env dfmpV31ActivationHeight 999999999 then V31
  else if height >=? param env dfmpV3ActivationHeight 0 then V30
  else V2.

Definition tracker_heat (t : option CHeatTracker) (id : Identity) : Z :=
  match t with Some t => GetHeat t id | None => 0 end.

Definition tracker_miners (env : DfmpEnv D) (t : option CHeatTracker) (height : Z) : Z :=
  match t with
  | Some t => if height >=? param env dfmpDynamicScalingHeight 999999999 then GetUniqueMinerCount t else 0
  | None => 0
  end.

Definition payout_penalty (env : DfmpEnv D) (v : DfmpVersion) (height : Z) (coinbaseTx : CTransaction) : Z :=
  match env_payout_heat env, vout coinbaseTx with
  | Some t, out :: _ =>
      let payoutIdentity := DeriveIdentityFromScript SHA3_256 (scriptPubKey out) in
      heat_multiplier v (GetHeat t payoutIdentity) (tracker_miners env (Some t) height)
  | _, _ => FP_SCALE
  end.

Definition dfmp_multiplier (env : DfmpEnv D) (height : Z) (identity : Identity) (coinbaseTx : CTransaction)
    (seen : Z * Z) : Z :=
  let '(firstSeen, effectiveFirstSeen) := seen in
  let blocksInWindow := tracker_heat (env_heat env) identity in
  let uniqueMiners := tracker_miners env (env_heat env) height in
  match dfmp_version env height identity with
  | V2 => CalculateTotalMultiplierFP_V2 height firstSeen blocksInWindow uniqueMiners
  | v =>
      let mikHeatPenalty := heat_multiplier v blocksInWindow uniqueMiners in
      let effectiveHeatPenalty := Z.max mikHeatPenalty (payout_penalty env v height coinbaseTx) in
      total_multiplier (pending_multiplier v height effectiveFirstSeen) effectiveHeatPenalty
  end.

Definition assume_valid (env : DfmpEnv D) (height : Z) : bool :=
  let h := param env dfmpAssumeValidHeight 0 in (h >? 0) && (height <=? h).

(** The coinbase's identity, its key and signature, the registration work, and
    at last the penalised target. *)
Definition check_identity (env : DfmpEnv D) (block : CBlock) (hash baseTarget : uint256) (height : Z)
    (coinbaseTx : CTransaction) (scriptSig0 : list Z) : bool * option (CIdentityDB D) :=
  let skip := assume_valid env height in
  let plain := HashLessThan hash baseTarget in
  match ParseMIKFromScriptSig SHA3_256 scriptSig0 with
  | None => (if skip then plain else false, env_identityDb env)
  | Some mik =>
      let identity := mik_identity mik in
      let '(key, db) := mik_key env mik in
      match key with
      | KeyMismatch => (false, db)
      | KeyUnknown => (if skip then plain else false, db)
      | KeyFound pubkey =>
          if negb (VerifyMIKSignature SHA3_256 dilithium_verify pubkey (mik_signature mik)
                     (hashPrevBlock (block_header block)) height (hnTime (block_header block)) identity)
          then (if skip then plain else false, db)
          else if negb (registration_ok env height mik) then (false, db)
          else if skip then (plain, db)
          else
            let '(seen, db) := effective_first_seen env db height identity in
            let multiplierFP := dfmp_multiplier env height identity coinbaseTx seen in
            (HashLessThan hash (CalculateEffectiveTarget baseTarget multiplierFP), db)
      end
  end.

(** [None]: the code reads [coinbaseTx.vin[0]] of a coinbase without inputs. *)
Definition CheckProofOfWorkDFMP (env : DfmpEnv D) (block : CBlock) (hash : uint256) (nBits height activationHeight : Z)
  : option bool * option (CIdentityDB D) :=
  let idb := env_identityDb env in
  let ret b := (Some b, idb) in
  if IsVDFBlock (block_header block) then
    ret (match env_params env with Some p => height >=? vdfActivationHeight p | None => false end)
  else if match env_params env with Some p => height >=? vdfExclusiveHeight p | None => false end then ret false
  else
    let baseTarget := CompactToBig nBits in
    if isZero_loop 32 baseTarget 0 then ret false
    else if height <? activationHeight then ret (HashLessThan hash baseTarget)
    else
      match vtx block with
      | [] => ret false
      | _ =>
          match DeserializeBlockTransactions (vtx block) with
          | Err _ => ret false
          | Ok [] => ret false
          | Ok (coinbaseTx :: _) =>
              match vin coinbaseTx with
              | [] => (None, idb)
              | txin :: _ =>
                  let '(b, db) := check_identity env block hash baseTarget height coinbaseTx (scriptSig txin) in
                  (Some b, db)
              end
          end
      end.
End DfmpPow.

(** ** The penalty only makes the target harder *)

Lemma total_multiplier_range p h : - 2 ^ 63 <= total_multiplier p h < 2 ^ 63.
Proof.
  unfold total_multiplier. pose proof (i64_range (p * h)). unfold FP_SCALE.
  pose proof (Z.quot_rem' (i64 (p * h)) 1000000). pose proof (Z.rem_bound_abs (i64 (p * h)) 1000000).
  destruct (Z.le_gt_cases 0 (i64 (p * h))).
  - rewrite Z.quot_div_nonneg by lia. split; [|apply Z.div_lt_upper_bound; lia].
    pose proof (Z.div_pos (i64 (p * h)) 1000000). lia.
  - replace (i64 (p * h)) with (- - i64 (p * h)) by lia. rewrite Z.quot_opp_l by lia.
    rewrite Z.quot_div_nonneg by lia. pose proof (Z.div_pos (- i64 (p * h)) 1000000).
    assert (- i64 (p * h) / 1000000 <= 2 ^ 63) by (apply Z.div_le_upper_bound; lia). lia.
Qed.

Lemma dfmp_multiplier_range {D} `{LevelDB D} SHA3_256 (env : DfmpEnv D) h id tx seen :
  - 2 ^ 63 <= dfmp_multiplier SHA3_256 env h id tx seen < 2 ^ 63.
Proof.
  unfold dfmp_multiplier. destruct seen as [fs efs].
  destruct (dfmp_version env h id); apply total_multiplier_range.
Qed.

Lemma effective_below_base hash base m : u256_wf hash -> u256_wf base -> - 2 ^ 63 <= m < 2 ^ 63 ->
  0 < le_val base -> HashLessThan hash (CalculateEffectiveTarget base m) = true ->
  le_val hash < Z.max 1 (le_val base * FP_SCALE / Z.max FP_SCALE m) /\ le_val hash < le_val base.
Proof.
  intros Hh Hb Hm Hp H. destruct (effective_target_exact_lemma base m Hb Hm) as (Hw & E & Hle).
  rewrite HashLessThan_val in H by done. apply Z.ltb_lt in H. rewrite E in H. specialize (Hle Hp).
  rewrite E in Hle. lia.
Qed.

Section Sound.
  Context {D : Type} `{LDB : LevelDB D}.
  Variable SHA3_256 : list Z -> uint256.
  Variable dilithium_verify : list Z -> list Z -> list Z -> Z.
  Hypothesis SHA3_wf : forall l, u256_wf (SHA3_256 l).

(** The first-seen heights that the maps give. *)
Definition spec_seen (env : DfmpEnv D) (a : IdSpec) (height : Z) (id : Identity) : Z * Z :=
  let firstSeen := default (-1) (first_seen a !! id) in
  if (height >=? param env dfmpV3ActivationHeight 0) && (firstSeen >=? 0) then
    let lastMined := default (-1) (last_mined a !! id) in
    (firstSeen, if (lastMined >=? 0) && (height - lastMined >? DORMANCY_THRESHOLD)
                then height - DORMANCY_DECAY_BLOCKS else firstSeen)
  else (firstSeen, firstSeen).

Lemma effective_first_seen_spec env db a height id : ids_rep db a -> id_ok id ->
  exists db', effective_first_seen env (Some db) height id = (spec_seen env a height id, Some db') /\ ids_rep db' a.
Proof.
  intros Hr Hid. unfold effective_first_seen, spec_seen.
  destruct (GetFirstSeen_refines SHA3_256 db a id Hr Hid) as [E R]. cbn [id_impl_step id_spec_step] in E, R.
  destruct (GetFirstSeen db id) as [fs db1]. cbn [fst snd] in E, R. injection E as E. rewrite E.
  destruct (_ && _); [|by exists db1].
  destruct (GetLastMined_refines SHA3_256 db1 a id R Hid) as [E2 R2]. cbn [id_impl_step id_spec_step] in E2, R2.
  destruct (GetLastMined db1 id) as [lm db2]. cbn [fst snd] in E2, R2. injection E2 as E2. rewrite E2.
  by exists db2.
Qed.

(** The key the maps give. *)
Definition spec_key (a : IdSpec) (mik : CMIKScriptData) : option (list Z) :=
  if isRegistration mik then Some (mik_pubkey mik) else mik_keys a !! mik_identity mik.

Lemma mik_key_spec env db a mik : env_identityDb env = Some db -> ids_rep db a -> mik_wf SHA3_256 mik ->
  exists db', mik_key SHA3_256 env mik =
    (match spec_key a mik with Some pk => KeyFound pk | None => KeyUnknown end, Some db') /\ ids_rep db' a.
Proof.
  intros Edb Hr Hw. assert (id_ok (mik_identity mik)) as Hid by (split; apply Hw).
  unfold mik_key, spec_key. destruct (isRegistration mik) eqn:Ereg.
  - destruct Hw as (_ & _ & _ & _ & _ & _ & _ & _ & _ & _ & Hreg). rewrite Ereg in Hreg.
    rewrite bool_decide_false by (intros N; apply N; symmetry; apply Hreg). rewrite Edb. by exists db.
  - rewrite Edb. destruct (GetMIKPubKey_refines SHA3_256 db a _ Hr Hid) as [E R].
    cbn [id_impl_step id_spec_step] in E, R.
    destruct (GetMIKPubKey db (mik_identity mik)) as [k db1]. cbn [fst snd] in E, R. injection E as ->. by exists db1.
Qed.

(** What a block accepted past the assume-valid height shows. *)
Definition dfmp_proof (env : DfmpEnv D) (a : IdSpec) (block : CBlock) (hash : uint256) (nBits height : Z)
    (coinbaseTx : CTransaction) (mik : CMIKScriptData) : Prop :=
  let identity := mik_identity mik in
  let multiplier := dfmp_multiplier SHA3_256 env height identity coinbaseTx (spec_seen env a height identity) in
  (exists pk, spec_key a mik = Some pk /\
     VerifyMIKSignature SHA3_256 dilithium_verify pk (mik_signature mik) (hashPrevBlock (block_header block)) height
       (hnTime (block_header block)) identity = true) /\
  registration_ok SHA3_256 env height mik = true /\
  le_val hash < Z.max 1 (le_val (CompactToBig nBits) * FP_SCALE / Z.max FP_SCALE multiplier) /\
  le_val hash < le_val (CompactToBig nBits).

Lemma check_identity_sound env db a block hash nBits height coinbaseTx ss db' :
  env_identityDb env = Some db -> ids_rep db a -> u256_wf hash -> bytes_ok ss -> 0 < le_val (CompactToBig nBits) ->
  assume_valid env height = false ->
  check_identity SHA3_256 dilithium_verify env block hash (CompactToBig nBits) height coinbaseTx ss = (true, db') ->
  exists mik, ParseMIKFromScriptSig SHA3_256 ss = Some mik /\
    dfmp_proof env a block hash nBits height coinbaseTx mik /\ exists db1, db' = Some db1 /\ ids_rep db1 a.
Proof.
  intros Edb Hr Hh Hss Hpos Hskip. unfold check_identity. rewrite Hskip.
  destruct (ParseMIKFromScriptSig SHA3_256 ss) as [mik|] eqn:EP; [|done].
  pose proof (mik_parse_wf_lemma SHA3_256 ss mik SHA3_wf Hss EP) as Hw.
  destruct (mik_key_spec env db a mik Edb Hr Hw) as (db1 & -> & R1).
  destruct (spec_key a mik) as [pk|] eqn:EK; [|done].
  destruct (VerifyMIKSignature _ _ _ _ _ _ _ _) eqn:EV; cbn [negb]; [|done].
  destruct (registration_ok SHA3_256 env height mik) eqn:ER; cbn [negb]; [|done].
  destruct (effective_first_seen_spec env db1 a height (mik_identity mik) R1 ltac:(split; apply Hw)) as (db2 & -> & R2).
  intros [= H <-]. exists mik. split; [done|]. split; [|by exists db2].
  apply effective_below_base in H; [|done|apply CompactToBig_wf|apply dfmp_multiplier_range|done].
  red. split; [by exists pk|]. split; [done|]. exact H.
Qed.
End Sound.

(** C19: no block gets past the fair-mining check without its proof: from the
    activation height on and past the assume-valid height, a RandomX block that
    is accepted has a coinbase with parseable identity data, signed for this
    parent, height and time by the key the chain has registered for the identity
    (or by the key it registers now, with its registration work), its hash is
    below the base target divided by the identity's multiplier, and the lookups
    leave the database's contents alone. *)
Theorem CheckProofOfWorkDFMP_sound (D : Type) (LDB : LevelDB D) (SHA3_256 : list Z -> uint256)
    (dilithium_verify : list Z -> list Z -> list Z -> Z) (env : DfmpEnv D) (db : CIdentityDB D) (a : IdSpec)
    (block : CBlock) (hash : uint256) (nBits height activationHeight : Z) (db' : option (CIdentityDB D))
    (SHA3_wf : forall l, u256_wf (SHA3_256 l)) (Edb : env_identityDb env = Some db) (Hrep : ids_rep db a)
    (Hhash : u256_wf hash) (Hvtx : bytes_ok (vtx block)) (Hlegacy : IsVDFBlock (block_header block) = false)
    (Hact : activationHeight <= height) (Hassume : assume_valid env height = false)
    (Hacc : CheckProofOfWorkDFMP SHA3_256 dilithium_verify env block hash nBits height activationHeight
            = (Some true, db')) :
  exists coinbaseTx txs txin ins mik db1,
    DeserializeBlockTransactions (vtx block) = Ok (coinbaseTx :: txs) /\ vin coinbaseTx = txin :: ins /\
    ParseMIKFromScriptSig SHA3_256 (scriptSig txin) = Some mik /\
    dfmp_proof SHA3_256 dilithium_verify env a block hash nBits height coinbaseTx mik /\
    db' = Some db1 /\ ids_rep db1 a.
Proof.
  unfold CheckProofOfWorkDFMP in Hacc. rewrite Hlegacy in Hacc.
  destruct (match env_params env with Some p => _ | None => _ end); [done|].
  rewrite (isZero_val _ (CompactToBig_wf nBits)) in Hacc.
  destruct (Z.eqb_spec (le_val (CompactToBig nBits)) 0); [done|].
  assert (0 < le_val (CompactToBig nBits)) by (pose proof (le_val_u256 _ (CompactToBig_wf nBits)); lia).
  destruct (Z.ltb_spec height activationHeight); [lia|].
  destruct (vtx block) as [|v0 vs] eqn:Ev; [done|]. rewrite <- Ev in *.
  destruct (DeserializeBlockTransactions (vtx block)) as [[|coinbaseTx txs]|] eqn:ED; try done.
  destruct (DeserializeBlockTransactions_wf _ _ Hvtx ED) as [Hwf _].
  destruct (vin coinbaseTx) as [|txin ins] eqn:Ei; [done|].
  destruct (check_identity _ _ _ _ _ _ _ _ _) as [b dbx] eqn:EC. injection Hacc as -> <-.
  assert (Hss : bytes_ok (scriptSig txin)).
  { apply Forall_cons in Hwf as [(_ & _ & Hin & _) _]. rewrite Ei in Hin. apply Forall_cons in Hin as [Hin _]. apply Hin. }
  destruct (check_identity_sound SHA3_256 dilithium_verify SHA3_wf env db a block hash nBits height coinbaseTx
    (scriptSig txin) dbx Edb Hrep Hhash Hss ltac:(done) Hassume EC) as (mik & EP & Hp & db1 & E1 & R1).
  by exists coinbaseTx, txs, txin, ins, mik, db1.
Qed.

(** A registration block for a toy hash and an accepting signature scheme. *)
Definition toy_key : list Z := replicate 1952 7.
Definition toy_coinbase : CTransaction :=
  mkTx 1 [mkTxIn (mkOutPoint zero256 (2 ^ 32 - 1))
            ([1; 9] ++ [MIK_MARKER; MIK_TYPE_REGISTRATION] ++ toy_key ++ replicate 3309 9 ++ le_bytes 8 255)
            (2 ^ 32 - 1)] [mkTxOut 5000000000 [81]] 0.
Definition toy_block : CBlock :=
  mkBlock (mkHeader 1 zero256 zero256 1000 0x1f060000 0 zero256 zero256 zero256 false)
          (SerializeBlockTransactions [toy_coinbase]).
Definition toy_env : DfmpEnv (gmap (list Z) (list Z)) :=
  mkEnv None (Some empty_identity_db) (Some empty_tracker) (Some empty_tracker) None.

Lemma empty_identity_db_rep : ids_rep empty_identity_db (mkIdSpec ∅ ∅ ∅).
Proof. exists ∅. split; [done|]. unfold table_rep. split_and!; intros *; done. Qed.

Lemma CheckProofOfWorkDFMP_sound_witness :
  exists coinbaseTx txs txin ins mik db1,
    DeserializeBlockTransactions (vtx toy_block) = Ok (coinbaseTx :: txs) /\ vin coinbaseTx = txin :: ins /\
    ParseMIKFromScriptSig toy_sha3 (scriptSig txin) = Some mik /\
    dfmp_proof toy_sha3 (fun _ _ _ => 0) toy_env (mkIdSpec ∅ ∅ ∅) toy_block zero256 0x1f060000 7 coinbaseTx mik /\
    (CheckProofOfWorkDFMP toy_sha3 (fun _ _ _ => 0) toy_env toy_block zero256 0x1f060000 7 0).2 = Some db1 /\
    ids_rep db1 (mkIdSpec ∅ ∅ ∅).
Proof.
  apply (CheckProofOfWorkDFMP_sound _ _ toy_sha3 (fun _ _ _ => 0) toy_env empty_identity_db (mkIdSpec ∅ ∅ ∅)
    toy_block zero256 0x1f060000 7 0).
  - intros l. split; [apply length_le_bytes|apply le_bytes_ok].
  - reflexivity.
  - exact empty_identity_db_rep.
  - exact zero256_wf.
  - apply bytes_okb_sound. vm_compute. reflexivity.
  - reflexivity.
  - lia.
  - reflexivity.
  - vm_compute. reflexivity.
Defined.

(** A coinbase without inputs reaches the unguarded read of its first input. *)
Example dfmp_reads_missing_input :
  let block := mkBlock (block_header toy_block) (SerializeBlockTransactions [mkTx 1 [] [mkTxOut 5000000000 [81]] 0]) in
  (CheckProofOfWorkDFMP toy_sha3 (fun _ _ _ => 0) toy_env block zero256 0x1f060000 7 0).1 = None.
Proof. vm_compute. done. Qed.

(** ** Every accepted RandomX block meets the base target *)

Lemma check_identity_base {D} `{LDB : LevelDB D} SHA3_256 dilithium_verify (env : DfmpEnv D) block hash nBits height tx ss db' :
  u256_wf hash -> 0 < le_val (CompactToBig nBits) ->
  check_identity SHA3_256 dilithium_verify env block hash (CompactToBig nBits) height tx ss = (true, db') ->
  HashLessThan hash (CompactToBig nBits) = true.
Proof.
  intros Hh Hp. unfold check_identity.
  assert (forall b : bool, (if assume_valid env height then b else false) = true -> b = true) as Hs
    by (intros b; by destruct (assume_valid env height)).
  destruct (ParseMIKFromScriptSig SHA3_256 ss) as [mik|]; [|by intros [= ? _]; auto].
  destruct (mik_key SHA3_256 env mik) as [[pk| |] db]; [|done|by intros [= ? _]; auto].
  destruct (negb (VerifyMIKSignature _ _ _ _ _ _ _ _)); [by intros [= ? _]; auto|].
  destruct (negb (registration_ok _ _ _ _)); [done|].
  destruct (assume_valid env height); [by intros [= ? _]|].
  destruct (effective_first_seen env db height (mik_identity mik)) as [seen db2]. intros [= H _].
  apply effective_below_base in H; [|done|apply CompactToBig_wf|apply dfmp_multiplier_range|done].
  rewrite HashLessThan_val by (done || apply CompactToBig_wf). apply Z.ltb_lt. lia.
Qed.

(** The fair-mining check never weakens proof of work: whatever the
    databases, the trackers, the multiplier (overflowed or not) and the
    assume-valid height, an accepted RandomX block's hash is below the target
    its difficulty bits encode. *)
Theorem dfmp_never_weakens_pow (D : Type) (LDB : LevelDB D) (SHA3_256 : list Z -> uint256)
    (dilithium_verify : list Z -> list Z -> list Z -> Z) (env : DfmpEnv D)
    (block : CBlock) (hash : uint256) (nBits height activationHeight : Z)
    (Hhash : u256_wf hash) (Hlegacy : IsVDFBlock (block_header block) = false)
    (Hacc : (CheckProofOfWorkDFMP SHA3_256 dilithium_verify env block hash nBits height activationHeight).1 = Some true) :
  le_val hash < le_val (CompactToBig nBits) /\ HashLessThan hash (CompactToBig nBits) = true /\
  match env_params env with Some p => height < vdfExclusiveHeight p | None => True end.
Proof.
  unfold CheckProofOfWorkDFMP in Hacc. rewrite Hlegacy in Hacc.
  assert (Hv : match env_params env with Some p => height < vdfExclusiveHeight p | None => True end).
  { destruct (env_params env) as [p|]; [|done]. rewrite Z.geb_leb in Hacc.
    destruct (Z.leb_spec (vdfExclusiveHeight p) height); [done|lia]. }
  destruct (match env_params env with Some p => height >=? _ | None => _ end); [done|].
  rewrite (isZero_val _ (CompactToBig_wf nBits)) in Hacc.
  destruct (Z.eqb_spec (le_val (CompactToBig nBits)) 0); [done|].
  assert (0 < le_val (CompactToBig nBits)) by (pose proof (le_val_u256 _ (CompactToBig_wf nBits)); lia).
  enough (HashLessThan hash (CompactToBig nBits) = true) as Hlt.
  { split; [|done]. rewrite HashLessThan_val in Hlt by (done || apply CompactToBig_wf). by apply Z.ltb_lt. }
  destruct (height <? activationHeight); [by injection Hacc|].
  destruct (vtx block); [done|].
  destruct (DeserializeBlockTransactions _) as [[|coinbaseTx txs]|]; try done.
  destruct (vin coinbaseTx) as [|txin ins]; [done|].
  destruct (check_identity _ _ _ _ _ _ _ _ _) as [b dbx] eqn:EC. injection Hacc as ->.
  by apply check_identity_base in EC.
Qed.

Lemma dfmp_never_weakens_pow_witness :
  (CheckProofOfWorkDFMP toy_sha3 (fun _ _ _ => 0) toy_env toy_block zero256 0x1f060000 7 0).1 = Some true /\
  le_val zero256 < le_val (CompactToBig 0x1f060000).
Proof.
  split; [vm_compute; reflexivity|].
  apply (dfmp_never_weakens_pow _ _ toy_sha3 (fun _ _ _ => 0) toy_env toy_block zero256 0x1f060000 7 0);
    [exact zero256_wf|reflexivity|vm_compute; reflexivity].
Defined.
