(* ===== verification/Cooldown.v ===== *)
(** * Miner cooldown (vdf/cooldown_tracker.h, vdf/cooldown_tracker.cpp)

    [CCooldownTracker]: who won which height, how long a winner must wait, the
    lifetime miner counts and the registration rate.  A [std::map] is a [gmap]
    whose ordered iteration is [map_ordered]; a [std::multiset<int>] is a sorted
    list.  The lazily filled counters are state, so a query returns the tracker
    it leaves behind. *)

From S2P Require Import Prelude Transaction Dfmp IdentityDb.

Abbreviation Address := (list Z).

(** ** Ordered iteration *)

Definition key_le {A} (a b : Z * A) : Prop := a.1 <= b.1.
#[export] Instance key_le_dec {A} : RelDecision (@key_le A).
Proof. intros a b. unfold key_le. apply _. Defined.

Definition map_ordered {A} (m : gmap Z A) : list (Z * A) := merge_sort key_le (map_to_list m).

(** [lower_bound(lo)] while [it->first <= hi]. *)
Definition in_range {A} (m : gmap Z A) (lo hi : Z) : list (Z * A) :=
  filter (fun e => lo <= e.1 <= hi) (map_ordered m).

Definition unique_winners (m : gmap Z Address) (lo hi : Z) : Z :=
  Z.of_nat (size (list_to_set (in_range m lo hi).*2 : gset Address)).

(** The [rbegin]-to-[rend] search for an address's latest height. *)
Definition last_height (m : gmap Z Address) (a : Address) : option Z :=
  match filter (fun e => e.2 = a) (rev (map_ordered m)) with
  | e :: _ => Some e.1
  | [] => None
  end.

(** Iteration over a map keyed by address, in [std::array]'s order. *)
Definition addr_le {A} (a b : Address * A) : Prop := identity_le a.1 b.1.
#[export] Instance addr_le_dec {A} : RelDecision (@addr_le A).
Proof. intros a b. unfold addr_le. apply _. Defined.
Definition addr_ordered {A} (m : gmap Address A) : list (Address * A) := merge_sort addr_le (map_to_list m).

Fixpoint ms_insert (x : Z) (l : list Z) : list Z :=
  match l with
  | [] => [x]
  | y :: l' => if y <=? x then y :: ms_insert x l' else x :: l
  end.

Fixpoint ms_erase (x : Z) (l : list Z) : list Z :=
  match l with
  | [] => []
  | y :: l' => if y =? x then l' else y :: ms_erase x l'
  end.

(** ** The tracker *)

Record CooldownConfig := mkCooldownConfig {
  m_activeWindow : Z;
  m_shortWindow : Z;
  m_stabilizationHeight : Z;
  m_targetBlockTime : Z;
  m_timeBasedExpiryRetiredHeight : Z;
  m_timeDecayActivationHeight : Z;
  m_timeDecaySeconds : Z
}.

(** The constructor's arguments; the decay must be positive. *)
Definition cooldown_config (activeWindow shortWindow activationHeight targetBlockTime
    timeBasedExpiryRetiredHeight timeDecayActivationHeight timeDecaySeconds : Z) : CooldownConfig :=
  mkCooldownConfig activeWindow shortWindow activationHeight targetBlockTime timeBasedExpiryRetiredHeight
    timeDecayActivationHeight (if timeDecaySeconds >? 0 then timeDecaySeconds else 60).

Record CCooldownTracker := mkCooldown {
  cd_config : CooldownConfig;
  m_lastWinHeight : gmap Address Z;
  m_heightToWinner : gmap Z Address;
  m_lastWinTimestamp : gmap Address Z;
  m_heightToTimestamp : gmap Z Z;
  m_heightToRegistration : gmap Z Address;
  m_lifetimeBlockCount : gmap Address Z;
  m_mikHeights : gmap Address (list Z);
  m_cachedActiveMiners : Z;
  m_cachedAtHeight : Z;
  m_cachedShortActiveMiners : Z;
  m_cachedShortAtHeight : Z
}.

Definition new_cooldown (c : CooldownConfig) : CCooldownTracker := mkCooldown c ∅ ∅ ∅ ∅ ∅ ∅ ∅ 0 (-1) 0 (-1).

Definition set_wins (t : CCooldownTracker) lastWin h2w lastTs h2ts : CCooldownTracker :=
  mkCooldown (cd_config t) lastWin h2w lastTs h2ts (m_heightToRegistration t) (m_lifetimeBlockCount t)
    (m_mikHeights t) (m_cachedActiveMiners t) (m_cachedAtHeight t)
    (m_cachedShortActiveMiners t) (m_cachedShortAtHeight t).

Definition set_lifetime (t : CCooldownTracker) counts heights : CCooldownTracker :=
  mkCooldown (cd_config t) (m_lastWinHeight t) (m_heightToWinner t) (m_lastWinTimestamp t)
    (m_heightToTimestamp t) (m_heightToRegistration t) counts heights (m_cachedActiveMiners t)
    (m_cachedAtHeight t) (m_cachedShortActiveMiners t) (m_cachedShortAtHeight t).

Definition set_registrations (t : CCooldownTracker) regs : CCooldownTracker :=
  mkCooldown (cd_config t) (m_lastWinHeight t) (m_heightToWinner t) (m_lastWinTimestamp t)
    (m_heightToTimestamp t) regs (m_lifetimeBlockCount t) (m_mikHeights t) (m_cachedActiveMiners t)
    (m_cachedAtHeight t) (m_cachedShortActiveMiners t) (m_cachedShortAtHeight t).

Definition set_caches (t : CCooldownTracker) n h sn sh : CCooldownTracker :=
  mkCooldown (cd_config t) (m_lastWinHeight t) (m_heightToWinner t) (m_lastWinTimestamp t)
    (m_heightToTimestamp t) (m_heightToRegistration t) (m_lifetimeBlockCount t) (m_mikHeights t) n h sn sh.

(** ** Cooldown length *)

Definition MIN_COOLDOWN : Z := 2.
Definition MAX_COOLDOWN : Z := 100.
Definition ACTIVE_WINDOW : Z := 360.

(** [std::clamp(activeMiners * 67 / 100, MIN_COOLDOWN, MAX_COOLDOWN)] *)
Definition CalculateCooldown (activeMiners : Z) : Z :=
  let cooldown := Z.quot (activeMiners * 67) 100 in
  if cooldown <? MIN_COOLDOWN then MIN_COOLDOWN
  else if MAX_COOLDOWN <? cooldown then MAX_COOLDOWN else cooldown.

Definition RecalcActiveMiners (t : CCooldownTracker) (height : Z) : CCooldownTracker :=
  if m_cachedAtHeight t =? height then t
  else
    let cutoff := height - m_activeWindow (cd_config t) + 1 in
    set_caches t (unique_winners (m_heightToWinner t) cutoff height) height
      (m_cachedShortActiveMiners t) (m_cachedShortAtHeight t).

Definition RecalcShortActiveMiners (t : CCooldownTracker) (height : Z) : CCooldownTracker :=
  if m_cachedShortAtHeight t =? height then t
  else if m_shortWindow (cd_config t) <=? 0 then
    set_caches t (m_cachedActiveMiners t) (m_cachedAtHeight t) 0 height
  else
    let cutoff := height - m_shortWindow (cd_config t) + 1 in
    set_caches t (m_cachedActiveMiners t) (m_cachedAtHeight t)
      (unique_winners (m_heightToWinner t) cutoff height) height.

Definition ComputeEffectiveCooldownUnlocked (t : CCooldownTracker) (height : Z) : Z * CCooldownTracker :=
  let t := RecalcActiveMiners t height in
  let longCooldown := CalculateCooldown (m_cachedActiveMiners t) in
  if (height >=? m_stabilizationHeight (cd_config t)) && (m_shortWindow (cd_config t) >? 0) then
    let t := RecalcShortActiveMiners t height in
    let shortCooldown := CalculateCooldown (m_cachedShortActiveMiners t) in
    (Z.min longCooldown shortCooldown, t)
  else (longCooldown, t).

(** ** Queries *)

(** The time-decay rule: [ts] is the last win's recorded timestamp. *)
Definition time_decay_rule (c : CooldownConfig) (ts : option Z) (blocksSince cooldownBlocks currentTimestamp : Z)
  : bool :=
  let timeSince :=
    match ts with
    | Some v => if (v >? 0) && (currentTimestamp >? 0) then Z.max 0 (currentTimestamp - v) else 0
    | None => 0
    end in
  let decay := if m_timeDecaySeconds c >? 0 then m_timeDecaySeconds c else 60 in
  let timeDecrement := Z.quot timeSince decay in
  let effective := Z.max 0 (cooldownBlocks - timeDecrement) in
  blocksSince <? effective.

(** The rule before the time-decay height: block gap, then time-based expiry. *)
Definition legacy_rule (c : CooldownConfig) (ts : option Z) (height blockGap cooldown currentTimestamp : Z) : bool :=
  if blockGap >=? cooldown then false
  else if (height >=? m_stabilizationHeight c) && (currentTimestamp >? 0) &&
          (height <? m_timeBasedExpiryRetiredHeight c) then
    match ts with
    | Some v => if v >? 0 then negb (currentTimestamp - v >=? cooldown * m_targetBlockTime c) else true
    | None => true
    end
  else true.

Definition cooldown_rule (c : CooldownConfig) (ts : option Z) (height lastWin cooldown currentTimestamp : Z) : bool :=
  if height >=? m_timeDecayActivationHeight c
  then time_decay_rule c ts (height - lastWin) cooldown currentTimestamp
  else legacy_rule c ts height (height - lastWin) cooldown currentTimestamp.

Definition IsInCooldown (t : CCooldownTracker) (addr : Address) (height currentTimestamp : Z)
  : bool * CCooldownTracker :=
  match m_lastWinHeight t !! addr with
  | None => (false, t)
  | Some lastWin =>
      let '(cooldown, t') := ComputeEffectiveCooldownUnlocked t height in
      (cooldown_rule (cd_config t) (m_lastWinTimestamp t !! addr) height lastWin cooldown currentTimestamp, t')
  end.

(** The win maps with [excludeHeight] taken out. *)
Definition exclude_win (t : CCooldownTracker) (excludeHeight : Z) (excludedWinner : Address) : CCooldownTracker :=
  let h2w := delete excludeHeight (m_heightToWinner t) in
  let h2ts := delete excludeHeight (m_heightToTimestamp t) in
  match last_height h2w excludedWinner with
  | Some lastWin =>
      if lastWin >=? 0 then
        set_wins t (<[excludedWinner := lastWin]> (m_lastWinHeight t)) h2w
          (match h2ts !! lastWin with
           | Some ts => <[excludedWinner := ts]> (m_lastWinTimestamp t)
           | None => delete excludedWinner (m_lastWinTimestamp t)
           end) h2ts
      else
        set_wins t (delete excludedWinner (m_lastWinHeight t)) h2w
          (delete excludedWinner (m_lastWinTimestamp t)) h2ts
  | None =>
      set_wins t (delete excludedWinner (m_lastWinHeight t)) h2w
        (delete excludedWinner (m_lastWinTimestamp t)) h2ts
  end.

Definition IsInCooldownExcludingHeight (t : CCooldownTracker) (addr : Address)
    (height currentTimestamp excludeHeight : Z) : bool * CCooldownTracker :=
  match (if excludeHeight <? 0 then None else m_heightToWinner t !! excludeHeight) with
  | None => IsInCooldown t addr height currentTimestamp
  | Some excludedWinner =>
      let sim := exclude_win t excludeHeight excludedWinner in
      (match m_lastWinHeight sim !! addr with
       | None => false
       | Some lastWin =>
           let c := cd_config t in
           let longCooldown :=
             CalculateCooldown (unique_winners (m_heightToWinner sim) (height - m_activeWindow c + 1) height) in
           let cooldown :=
             if (height >=? m_stabilizationHeight c) && (m_shortWindow c >? 0) then
               Z.min longCooldown
                 (CalculateCooldown (unique_winners (m_heightToWinner sim) (height - m_shortWindow c + 1) height))
             else longCooldown in
           cooldown_rule c (m_lastWinTimestamp sim !! addr) height lastWin cooldown currentTimestamp
       end, t)
  end.

Definition GetActiveMinersExcludingHeight (t : CCooldownTracker) (height excludeHeight : Z) : Z :=
  let h2w :=
    match (if excludeHeight <? 0 then None else m_heightToWinner t !! excludeHeight) with
    | None => m_heightToWinner t
    | Some _ => delete excludeHeight (m_heightToWinner t)
    end in
  unique_winners h2w (height - m_activeWindow (cd_config t) + 1) height.

Definition GetCooldownBlocks (t : CCooldownTracker) : Z := CalculateCooldown (m_cachedActiveMiners t).
Definition GetActiveMiners (t : CCooldownTracker) : Z := m_cachedActiveMiners t.
Definition GetShortActiveMiners (t : CCooldownTracker) : Z := m_cachedShortActiveMiners t.

Definition GetBlockCountInWindow (t : CCooldownTracker) (addr : Address) (height window : Z) : Z :=
  let fromHeight := Z.max 0 (height - window + 1) in
  len (filter (fun e => e.2 = addr) (in_range (m_heightToWinner t) fromHeight height)).

Definition GetKnownAddresses (t : CCooldownTracker) : list Address := (addr_ordered (m_lastWinHeight t)).*1.
Definition GetLastWinHeight (t : CCooldownTracker) (addr : Address) : Z := default (-1) (m_lastWinHeight t !! addr).
Definition GetEffectiveCooldown (t : CCooldownTracker) (height : Z) : Z * CCooldownTracker :=
  ComputeEffectiveCooldownUnlocked t height.
Definition IsTimeDecayActive (t : CCooldownTracker) (height : Z) : bool :=
  height >=? m_timeDecayActivationHeight (cd_config t).

Definition GetLifetimeMinerCount (t : CCooldownTracker) : Z := Z.of_nat (size (m_lifetimeBlockCount t)).

Definition mined_by (atHeight : Z) (heights : list Z) : bool :=
  match heights with h :: _ => h <=? atHeight | [] => false end.

Definition GetLifetimeMinerCountAtHeight (t : CCooldownTracker) (atHeight : Z) : Z :=
  len (filter (fun e => mined_by atHeight e.2 = true) (addr_ordered (m_mikHeights t))).

Definition GetRegistrationCount (t : CCooldownTracker) (height window : Z) : Z :=
  len (in_range (m_heightToRegistration t) (Z.max 0 (height - window + 1)) height).

(** ** Mutations *)

Definition evict_one (t : CCooldownTracker) (h : Z) (w : Address) : CCooldownTracker :=
  let stale := bool_decide (m_lastWinHeight t !! w = Some h) in
  set_wins t
    (if stale then delete w (m_lastWinHeight t) else m_lastWinHeight t)
    (delete h (m_heightToWinner t))
    (if stale then delete w (m_lastWinTimestamp t) else m_lastWinTimestamp t)
    (delete h (m_heightToTimestamp t)).

(** [while (it != end && it->first < cutoff)] from [begin]. *)
Fixpoint evict_old (cutoff : Z) (l : list (Z * Address)) (t : CCooldownTracker) : CCooldownTracker :=
  match l with
  | (h, w) :: l' => if h <? cutoff then evict_old cutoff l' (evict_one t h w) else t
  | [] => t
  end.

Definition record_win (t : CCooldownTracker) (height : Z) (winner : Address) (blockTimestamp : Z)
  : CCooldownTracker :=
  let t := set_wins t (<[winner := height]> (m_lastWinHeight t)) (<[height := winner]> (m_heightToWinner t))
             (if blockTimestamp >? 0 then <[winner := blockTimestamp]> (m_lastWinTimestamp t)
              else m_lastWinTimestamp t)
             (if blockTimestamp >? 0 then <[height := blockTimestamp]> (m_heightToTimestamp t)
              else m_heightToTimestamp t) in
  set_lifetime t
    (<[winner := default 0 (m_lifetimeBlockCount t !! winner) + 1]> (m_lifetimeBlockCount t))
    (<[winner := ms_insert height (default [] (m_mikHeights t !! winner))]> (m_mikHeights t)).

Definition Cooldown_OnBlockConnected (t : CCooldownTracker) (height : Z) (winner : Address) (blockTimestamp : Z)
  : CCooldownTracker :=
  let t := record_win t height winner blockTimestamp in
  let cutoff := height - m_activeWindow (cd_config t) + 1 in
  let t := evict_old cutoff (map_ordered (m_heightToWinner t)) t in
  let t := RecalcActiveMiners t height in
  set_caches t (m_cachedActiveMiners t) (m_cachedAtHeight t) (m_cachedShortActiveMiners t) (-1).

(** The scan of the lifetime multisets, in address order. *)
Definition lifetime_winner (t : CCooldownTracker) (height : Z) : option Address :=
  match filter (fun e : Address * list Z => height ∈ e.2) (addr_ordered (m_mikHeights t)) with
  | e :: _ => Some e.1
  | [] => None
  end.

Definition forget_win (t : CCooldownTracker) (height : Z) (winner : Address) : CCooldownTracker :=
  set_lifetime t
    (match m_lifetimeBlockCount t !! winner with
     | Some n => if n - 1 <=? 0 then delete winner (m_lifetimeBlockCount t)
                 else <[winner := n - 1]> (m_lifetimeBlockCount t)
     | None => m_lifetimeBlockCount t
     end)
    (match m_mikHeights t !! winner with
     | Some l => let l' := ms_erase height l in
                 match l' with [] => delete winner (m_mikHeights t) | _ => <[winner := l']> (m_mikHeights t) end
     | None => m_mikHeights t
     end).

Definition drop_caches (t : CCooldownTracker) : CCooldownTracker :=
  set_caches t (m_cachedActiveMiners t) (-1) (m_cachedShortActiveMiners t) (-1).

Definition Cooldown_OnBlockDisconnected (t : CCooldownTracker) (height : Z) : CCooldownTracker :=
  match m_heightToWinner t !! height with
  | Some winner =>
      let t := exclude_win t height winner in
      let t := set_registrations t (delete height (m_heightToRegistration t)) in
      drop_caches (forget_win t height winner)
  | None =>
      match lifetime_winner t height with
      | None => t
      | Some winner =>
          let t := set_wins t (m_lastWinHeight t) (m_heightToWinner t) (m_lastWinTimestamp t)
                     (delete height (m_heightToTimestamp t)) in
          let t := set_registrations t (delete height (m_heightToRegistration t)) in
          drop_caches (forget_win t height winner)
      end
  end.

Definition OnRegistrationConnected (t : CCooldownTracker) (height : Z) (mikId : Address) : CCooldownTracker :=
  set_registrations t (<[height := mikId]> (m_heightToRegistration t)).

Definition Cooldown_Clear (t : CCooldownTracker) : CCooldownTracker := new_cooldown (cd_config t).

(** ** Ordered iteration: facts *)

Lemma map_ordered_perm {A} (m : gmap Z A) : map_ordered m ≡ₚ map_to_list m.
Proof. apply merge_sort_Permutation. Qed.

Lemma map_ordered_elem {A} (m : gmap Z A) h a : (h, a) ∈ map_ordered m <-> m !! h = Some a.
Proof. by rewrite map_ordered_perm, elem_of_map_to_list. Qed.

#[export] Instance key_le_total {A} : Total (@key_le A).
Proof. intros a b. unfold key_le. lia. Qed.
#[export] Instance key_le_trans {A} : Transitive (@key_le A).
Proof. intros a b c. unfold key_le. lia. Qed.

Lemma map_ordered_sorted {A} (m : gmap Z A) : StronglySorted key_le (map_ordered m).
Proof. apply StronglySorted_merge_sort; apply _. Qed.

Lemma addr_ordered_perm {A} (m : gmap Address A) : addr_ordered m ≡ₚ map_to_list m.
Proof. apply merge_sort_Permutation. Qed.

(** The greatest height an address holds. *)
Definition is_last (m : gmap Z Address) (a : Address) (h : Z) : Prop :=
  m !! h = Some a /\ forall h', m !! h' = Some a -> h' <= h.

Lemma filter_head {A} (P : A -> Prop) `{forall x, Decision (P x)} (R : relation A) `{!Reflexive R} l :
  StronglySorted R l -> match filter P l with
  | x :: _ => x ∈ l /\ P x /\ forall y, y ∈ l -> P y -> R x y
  | [] => forall y, y ∈ l -> ~ P y
  end.
Proof.
  induction 1 as [|x l Hs IH Hx]; [intros y []%elem_of_nil|]. rewrite filter_cons. case_decide.
  - split; [left|]. split; [done|]. intros y [->|Hy]%elem_of_cons _; [done|]. rewrite Forall_forall in Hx. auto.
  - destruct (filter P l) as [|z k] eqn:E.
    + intros y [->|Hy]%elem_of_cons; auto.
    + destruct IH as (Hz & HPz & Hall). split; [by right|]. split; [done|].
      intros y [->|Hy]%elem_of_cons HPy; [done|auto].
Qed.

Lemma StronglySorted_rev {A} (R : relation A) l : StronglySorted R l -> StronglySorted (flip R) (rev l).
Proof.
  induction 1 as [|x l Hs IH Hx]; cbn [rev]; [constructor|]. rewrite Forall_forall in Hx.
  apply StronglySorted_app_2; [|done|repeat constructor].
  intros y z Hy Hz. apply list_elem_of_singleton in Hz as ->.
  apply Hx. rewrite list_elem_of_In in Hy |- *. by apply in_rev.
Qed.

Lemma last_height_spec m a :
  match last_height m a with
  | Some h => is_last m a h
  | None => forall h, m !! h <> Some a
  end.
Proof.
  unfold last_height, is_last.
  assert (HR : Reflexive (flip (@key_le Address))) by (intros x; unfold flip, key_le; lia).
  pose proof (filter_head (fun e : Z * Address => e.2 = a) _ _
                (StronglySorted_rev _ _ (map_ordered_sorted m))) as H.
  assert (Hin : forall h b, (h, b) ∈ rev (map_ordered m) <-> m !! h = Some b).
  { intros h b. rewrite <- map_ordered_elem, !list_elem_of_In. symmetry. apply in_rev. }
  destruct (filter _ _) as [|[h b] l].
  - intros h Hh. by apply (H (h, a)); [apply Hin|].
  - destruct H as (Hm & <- & Hall). cbn [fst snd] in *. apply Hin in Hm. split; [done|].
    intros h' Hh'. by apply (Hall (h', b)); [apply Hin|].
Qed.

Lemma last_height_Some m a h : last_height m a = Some h <-> is_last m a h.
Proof.
  pose proof (last_height_spec m a) as H. destruct (last_height m a) as [k|]; split; intros E.
  - by simplify_eq.
  - f_equal. destruct E as [E1 E2], H as [H1 H2]. apply E2 in H1. apply H2 in E1. lia.
  - done.
  - destruct E as [E _]. by apply H in E.
Qed.

Lemma last_height_None m a : last_height m a = None <-> forall h, m !! h <> Some a.
Proof.
  pose proof (last_height_spec m a) as H. destruct (last_height m a) as [k|]; split; intros E; try done.
  destruct H as [H _]. by apply E in H.
Qed.

(** Removing or adding a height of another address, or a height that is not the
    latest, leaves the latest height alone. *)
Lemma last_height_delete m a w h : m !! h = Some w -> last_height m a <> Some h ->
  last_height (delete h m) a = last_height m a.
Proof.
  intros Hm Hne. destruct (last_height m a) as [k|] eqn:E.
  - apply last_height_Some in E as [E1 E2]. apply last_height_Some. split.
    + rewrite lookup_delete_ne by congruence. done.
    + intros h' [_ Hh']%lookup_delete_Some. auto.
  - rewrite last_height_None in E |- *. intros h' [_ Hh']%lookup_delete_Some. by apply E in Hh'.
Qed.

Lemma last_height_insert m a w h : (forall h', is_Some (m !! h') -> h' < h) ->
  last_height (<[h := w]> m) a = if decide (a = w) then Some h else last_height m a.
Proof.
  intros Hnew. case_decide as Ha; [subst a|].
  - apply last_height_Some. split; [by rewrite lookup_insert_eq|].
    intros h' [[<- _]|[_ Hh']]%lookup_insert_Some; [lia|].
    specialize (Hnew h' ltac:(eauto)). lia.
  - destruct (last_height m a) as [k|] eqn:E.
    + apply last_height_Some in E as [E1 E2]. apply last_height_Some. split.
      * rewrite lookup_insert_ne; [done|]. intros ->. specialize (Hnew k ltac:(eauto)). lia.
      * intros h' [[<- ?]|[_ Hh']]%lookup_insert_Some; [congruence|]. auto.
    + rewrite last_height_None in E |- *. intros h' [[<- ?]|[_ Hh']]%lookup_insert_Some; [congruence|].
      by apply E in Hh'.
Qed.

Lemma in_range_elem {A} (m : gmap Z A) lo hi h a : (h, a) ∈ in_range m lo hi <-> lo <= h <= hi /\ m !! h = Some a.
Proof. unfold in_range. rewrite list_elem_of_filter, map_ordered_elem. done. Qed.

(** The set of winners in a range. *)
Definition winners (m : gmap Z Address) (lo hi : Z) : gset Address := list_to_set (in_range m lo hi).*2.

Lemma elem_of_winners m lo hi a : a ∈ winners m lo hi <-> exists h, lo <= h <= hi /\ m !! h = Some a.
Proof.
  unfold winners. rewrite elem_of_list_to_set, list_elem_of_fmap. split.
  - intros ([h b] & -> & H). apply in_range_elem in H. eauto.
  - intros (h & H). exists (h, a). split; [done|]. by apply in_range_elem.
Qed.

(** ** The win maps agree

    The latest win of every address is its greatest height in the window map,
    and its timestamp is the one recorded for that height. *)

Record wins_ok (t : CCooldownTracker) : Prop := {
  wo_last : forall a, m_lastWinHeight t !! a = last_height (m_heightToWinner t) a;
  wo_time : forall a, m_lastWinTimestamp t !! a = m_lastWinHeight t !! a ≫= fun h => m_heightToTimestamp t !! h;
  wo_dom : forall h, is_Some (m_heightToTimestamp t !! h) <-> is_Some (m_heightToWinner t !! h);
  wo_pos : forall h, is_Some (m_heightToWinner t !! h) -> 0 <= h
}.

Lemma new_cooldown_ok c : wins_ok (new_cooldown c).
Proof.
  split; cbn; intros.
  - symmetry. rewrite lookup_empty. apply last_height_None. intros h. by rewrite lookup_empty.
  - by rewrite !lookup_empty.
  - rewrite !lookup_empty. split; intros []; done.
  - rewrite lookup_empty in H. by destruct H.
Qed.

(** Taking one height out: [m_lastWinHeight] must be recomputed for its winner
    only. *)
Lemma wins_ok_remove t h w lastWin lastTs : wins_ok t -> m_heightToWinner t !! h = Some w ->
  (forall a, a <> w -> lastWin !! a = m_lastWinHeight t !! a /\ lastTs !! a = m_lastWinTimestamp t !! a) ->
  lastWin !! w = last_height (delete h (m_heightToWinner t)) w ->
  lastTs !! w = (lastWin !! w ≫= fun k => delete h (m_heightToTimestamp t) !! k) ->
  wins_ok (set_wins t lastWin (delete h (m_heightToWinner t)) lastTs (delete h (m_heightToTimestamp t))).
Proof.
  intros [H1 H2 H3 H4] Hw Hother Hl Hts. split; cbn.
  - intros a. destruct (decide (a = w)) as [->|Ha]; [done|]. destruct (Hother a Ha) as [-> _].
    rewrite H1. symmetry. eapply last_height_delete; [done|]. intros [E _]%last_height_Some. congruence.
  - intros a. destruct (decide (a = w)) as [->|Ha]; [done|]. destruct (Hother a Ha) as [-> ->].
    rewrite H2, H1. destruct (last_height (m_heightToWinner t) a) as [k|] eqn:E; [|done]. cbn.
    apply last_height_Some in E as [E _]. rewrite lookup_delete_ne by congruence. done.
  - intros k. destruct (decide (k = h)) as [->|Hk]; [by rewrite !lookup_delete_eq|].
    rewrite !lookup_delete_ne by done. apply H3.
  - intros k [v [_ Hv]%lookup_delete_Some]. eauto.
Qed.

Lemma exclude_win_ok t h w : wins_ok t -> m_heightToWinner t !! h = Some w -> wins_ok (exclude_win t h w).
Proof.
  intros HO Hw. unfold exclude_win.
  destruct (last_height (delete h (m_heightToWinner t)) w) as [k|] eqn:E.
  - assert (0 <= k).
    { apply last_height_Some in E as [[_ E]%lookup_delete_Some _]. apply (wo_pos _ HO). eauto. }
    rewrite (proj2 (Z.geb_le k 0)) by lia.
    apply wins_ok_remove with (w := w); try done.
    + intros a Ha. rewrite lookup_insert_ne by done. split; [done|].
      destruct (delete h (m_heightToTimestamp t) !! k); [by rewrite lookup_insert_ne|by rewrite lookup_delete_ne].
    + by rewrite lookup_insert_eq.
    + rewrite lookup_insert_eq. cbn. destruct (delete h (m_heightToTimestamp t) !! k) eqn:Et;
        [by rewrite lookup_insert_eq|by rewrite lookup_delete_eq].
  - apply wins_ok_remove with (w := w); try done.
    + intros a Ha. by rewrite !lookup_delete_ne.
    + by rewrite lookup_delete_eq.
    + by rewrite !lookup_delete_eq.
Qed.

Lemma evict_one_ok t h w : wins_ok t -> m_heightToWinner t !! h = Some w ->
  (forall h', m_heightToWinner t !! h' = Some w -> h <= h') -> wins_ok (evict_one t h w).
Proof.
  intros HO Hw Hmin. unfold evict_one. case_bool_decide as E.
  - apply wins_ok_remove with (w := w); try done.
    + intros a Ha. by rewrite !lookup_delete_ne.
    + rewrite lookup_delete_eq. symmetry. apply last_height_None. intros k [Hk Hkw]%lookup_delete_Some.
      rewrite (wo_last _ HO) in E. apply last_height_Some in E as [_ E]. apply E in Hkw as ?.
      apply Hmin in Hkw. lia.
    + by rewrite !lookup_delete_eq.
  - apply wins_ok_remove with (w := w); try done.
    + rewrite (wo_last _ HO) in E |- *. symmetry. by eapply last_height_delete.
    + rewrite (wo_time _ HO). destruct (m_lastWinHeight t !! w) as [k|] eqn:Ek; [|done]. cbn.
      rewrite lookup_delete_ne; [done|]. congruence.
Qed.

Lemma record_win_ok t h w ts : wins_ok t -> 0 <= h -> 0 < ts ->
  (forall h', is_Some (m_heightToWinner t !! h') -> h' < h) -> wins_ok (record_win t h w ts).
Proof.
  intros HO Hh Hts Hnew. unfold record_win. rewrite (proj2 (Z.gtb_lt ts 0)) by lia. split; cbn.
  - intros a. rewrite last_height_insert by done. case_decide as Ha; [subst; by rewrite lookup_insert_eq|].
    rewrite lookup_insert_ne by done. apply (wo_last _ HO).
  - intros a. destruct (decide (a = w)) as [->|Ha].
    + rewrite !lookup_insert_eq. cbn. by rewrite lookup_insert_eq.
    + rewrite !lookup_insert_ne by done. rewrite (wo_time _ HO), (wo_last _ HO).
      destruct (last_height (m_heightToWinner t) a) as [k|] eqn:Ek; [|done]. cbn.
      apply last_height_Some in Ek as [Ek _]. specialize (Hnew k ltac:(eauto)).
      rewrite lookup_insert_ne by lia. done.
  - intros k. destruct (decide (k = h)) as [->|Hk]; [rewrite !lookup_insert_eq; split; eauto|].
    rewrite !lookup_insert_ne by done. apply (wo_dom _ HO).
  - intros k [v [[<- _]|[_ Hv]]%lookup_insert_Some]; [done|]. apply (wo_pos _ HO). eauto.
Qed.

Lemma evict_old_spec cutoff l : forall t, wins_ok t -> StronglySorted key_le l -> NoDup l.*1 ->
  (forall h w, (h, w) ∈ l <-> m_heightToWinner t !! h = Some w) ->
  wins_ok (evict_old cutoff l t) /\
  (forall h, m_heightToWinner (evict_old cutoff l t) !! h = if h <? cutoff then None else m_heightToWinner t !! h) /\
  (forall h, m_heightToTimestamp (evict_old cutoff l t) !! h
             = if h <? cutoff then None else m_heightToTimestamp t !! h).
Proof.
  induction l as [|[h w] l IH]; intros t HO Hs Hnd Hl; cbn [evict_old].
  - assert (He : forall h, m_heightToWinner t !! h = None).
    { intros h. destruct (m_heightToWinner t !! h) eqn:E; [|done]. apply Hl, elem_of_nil in E as []. }
    assert (Ht : forall h, m_heightToTimestamp t !! h = None).
    { intros h. apply eq_None_not_Some. rewrite (wo_dom _ HO), He. by intros []. }
    split; [done|]. split; intros h; [rewrite He|rewrite Ht]; by destruct (h <? cutoff).
  - apply StronglySorted_inv in Hs as [Hs Hh]. rewrite Forall_forall in Hh. cbn in Hnd.
    apply NoDup_cons in Hnd as [Hni Hnd].
    assert (Hw : m_heightToWinner t !! h = Some w) by (apply Hl; left).
    assert (Hmin : forall h' w', m_heightToWinner t !! h' = Some w' -> h <= h').
    { intros h' w' Hh'. apply Hl in Hh' as [[= -> ->]|Hin]%elem_of_cons; [lia|]. apply (Hh _ Hin). }
    destruct (Z.ltb_spec h cutoff).
    + destruct (IH (evict_one t h w)) as (I1 & I2 & I3); [|done|done| |].
      { apply evict_one_ok; eauto. }
      { intros h' w'. cbn. rewrite lookup_delete_Some, <- Hl, elem_of_cons. split.
        - intros Hin. split; [|auto]. intros <-. apply Hni. apply list_elem_of_fmap. by exists (h, w').
        - intros [Hne [[= -> _]|Hin]]; [done|done]. }
      split; [done|]. split; intros k; [rewrite I2|rewrite I3]; cbn;
        (destruct (k <? cutoff) eqn:Ek; [done|]; rewrite lookup_delete_ne; [done|zprop; lia]).
    + assert (Hnone : forall k, k < cutoff -> m_heightToWinner t !! k = None).
      { intros k Hk. destruct (m_heightToWinner t !! k) eqn:E; [|done]. apply Hmin in E. lia. }
      assert (Ht : forall k, k < cutoff -> m_heightToTimestamp t !! k = None).
      { intros k Hk. apply eq_None_not_Some. rewrite (wo_dom _ HO), Hnone by done. by intros []. }
      split; [done|]. split; intros k; destruct (Z.ltb_spec k cutoff); auto.
Qed.

Lemma map_ordered_NoDup {A} (m : gmap Z A) : NoDup (map_ordered m).*1.
Proof. rewrite map_ordered_perm. apply NoDup_fst_map_to_list. Qed.

Lemma evict_map_spec cutoff t : wins_ok t ->
  let t' := evict_old cutoff (map_ordered (m_heightToWinner t)) t in
  wins_ok t' /\
  (forall h, m_heightToWinner t' !! h = if h <? cutoff then None else m_heightToWinner t !! h) /\
  (forall h, m_heightToTimestamp t' !! h = if h <? cutoff then None else m_heightToTimestamp t !! h).
Proof.
  intros HO. apply evict_old_spec; [done|apply map_ordered_sorted|apply map_ordered_NoDup|].
  intros. apply map_ordered_elem.
Qed.

(** The eviction touches the win maps only. *)
Lemma evict_old_frame cutoff l : forall t, let t' := evict_old cutoff l t in
  cd_config t' = cd_config t /\ m_heightToRegistration t' = m_heightToRegistration t /\
  m_lifetimeBlockCount t' = m_lifetimeBlockCount t /\ m_mikHeights t' = m_mikHeights t /\
  m_cachedAtHeight t' = m_cachedAtHeight t /\ m_cachedActiveMiners t' = m_cachedActiveMiners t.
Proof.
  induction l as [|[h w] l IH]; intros t; cbn; [done|]. destruct (h <? cutoff); [|done]. apply (IH (evict_one t h w)).
Qed.

(** ** The tracker over a chain

    The chain from height [base] as the list of winners with their timestamps,
    and the height below which wins have left the window: connecting raises it,
    disconnecting never brings a win back. *)

Inductive CooldownOp : Type := CConnect (w : Address) (ts : Z) | CDisconnect.
#[export] Instance CooldownOp_eq_dec : EqDecision CooldownOp.
Proof. solve_decision. Defined.

Section Chain.
  Variable base : Z.

Definition next_height (chain : list (Address * Z)) : Z := base + len chain.

Definition chain_at (chain : list (Address * Z)) (h : Z) : option (Address * Z) :=
  if h <? base then None else chain !! Z.to_nat (h - base).

Definition cooldown_spec_step (window : Z) (s : list (Address * Z) * Z) (op : CooldownOp)
  : list (Address * Z) * Z :=
  match op with
  | CConnect w ts => (s.1 ++ [(w, ts)], Z.max s.2 (next_height s.1 - window + 1))
  | CDisconnect => let chain := take (length s.1 - 1) s.1 in (chain, Z.min s.2 (next_height chain))
  end.

Definition cooldown_step (s : list (Address * Z) * Z) (t : CCooldownTracker) (op : CooldownOp) : CCooldownTracker :=
  match op with
  | CConnect w ts => Cooldown_OnBlockConnected t (next_height s.1) w ts
  | CDisconnect => Cooldown_OnBlockDisconnected t (next_height s.1 - 1)
  end.

Fixpoint cooldown_run (window : Z) (s : list (Address * Z) * Z) (t : CCooldownTracker) (ops : list CooldownOp)
  : (list (Address * Z) * Z) * CCooldownTracker :=
  match ops with
  | [] => (s, t)
  | op :: ops' => cooldown_run window (cooldown_spec_step window s op) (cooldown_step s t op) ops'
  end.

(** The heights an address won, in order. *)
Fixpoint heights_from (h : Z) (chain : list (Address * Z)) (a : Address) : list Z :=
  match chain with
  | [] => []
  | (w, _) :: chain' => if decide (w = a) then h :: heights_from (h + 1) chain' a else heights_from (h + 1) chain' a
  end.
Definition heights_by (chain : list (Address * Z)) (a : Address) : list Z := heights_from base chain a.

Definition op_pos (op : CooldownOp) : Prop := match op with CConnect _ ts => 0 < ts | CDisconnect => True end.

Record cooldown_rep (window : Z) (s : list (Address * Z) * Z) (t : CCooldownTracker) : Prop := {
  cr_window : m_activeWindow (cd_config t) = window;
  cr_low : s.2 <= next_height s.1;
  cr_wins : wins_ok t;
  cr_h2w : forall h, m_heightToWinner t !! h = if h <? s.2 then None else fst <$> chain_at s.1 h;
  cr_h2t : forall h, m_heightToTimestamp t !! h = if h <? s.2 then None else snd <$> chain_at s.1 h;
  cr_count : forall a, m_lifetimeBlockCount t !! a
               = match heights_by s.1 a with [] => None | l => Some (len l) end;
  cr_heights : forall a, m_mikHeights t !! a = match heights_by s.1 a with [] => None | l => Some l end
}.

Lemma chain_at_bound chain h e : chain_at chain h = Some e -> base <= h < next_height chain.
Proof.
  unfold chain_at, next_height, len. destruct (Z.ltb_spec h base); [done|]. intros E.
  apply lookup_lt_Some in E. lia.
Qed.

Lemma chain_at_snoc chain e h :
  chain_at (chain ++ [e]) h = if h =? next_height chain then Some e else chain_at chain h.
Proof.
  unfold chain_at, next_height, len. destruct (Z.ltb_spec h base), (Z.eqb_spec h (base + Z.of_nat (length chain)));
    try lia; [done|subst; by rewrite Z.add_simpl_l, Nat2Z.id, lookup_app_r, Nat.sub_diag by lia|].
  destruct (Nat.lt_ge_cases (Z.to_nat (h - base)) (length chain)).
  - by rewrite lookup_app_l.
  - rewrite lookup_app_r, (lookup_ge_None_2 chain) by lia. apply lookup_ge_None_2. cbn. lia.
Qed.

Lemma heights_from_app chain k a : forall h,
  heights_from h (chain ++ k) a = heights_from h chain a ++ heights_from (h + len chain) k a.
Proof.
  induction chain as [|[w ts] chain IH]; intros h; cbn [heights_from app len length].
  - unfold len; cbn. by rewrite Z.add_0_r.
  - rewrite IH. unfold len. rewrite length_cons. replace (h + 1 + Z.of_nat (length chain))
      with (h + Z.of_nat (S (length chain))) by lia. by case_decide.
Qed.

Lemma heights_by_snoc chain w ts a :
  heights_by (chain ++ [(w, ts)]) a = heights_by chain a ++ if decide (w = a) then [next_height chain] else [].
Proof. unfold heights_by. rewrite heights_from_app. cbn. by case_decide. Qed.

Lemma heights_from_elem chain a : forall h k,
  k ∈ heights_from h chain a <-> h <= k /\ exists ts, chain !! Z.to_nat (k - h) = Some (a, ts).
Proof.
  induction chain as [|[w ts] chain IH]; intros h k; cbn [heights_from].
  - split; [intros []%elem_of_nil|]. intros (_ & ts & E). by rewrite lookup_nil in E.
  - assert (Hk : forall b, h + 1 <= k -> ((w, ts) :: chain) !! Z.to_nat (k - h) = Some b <->
                                chain !! Z.to_nat (k - (h + 1)) = Some b).
    { intros b Hk. replace (Z.to_nat (k - h)) with (S (Z.to_nat (k - (h + 1)))) by lia. done. }
    case_decide as Hw; [subst w; rewrite elem_of_cons|]; rewrite IH; split.
    + intros [->|(H1 & ts' & E)]; [split; [lia|]; rewrite Z.sub_diag; eauto|].
      split; [lia|]. exists ts'. by apply Hk.
    + intros (H1 & ts' & E). destruct (decide (k = h)) as [->|]; [by left|]. right.
      split; [lia|]. exists ts'. apply Hk; [lia|done].
    + intros (H1 & ts' & E). split; [lia|]. exists ts'. by apply Hk.
    + intros (H1 & ts' & E). destruct (decide (k = h)) as [->|].
      { rewrite Z.sub_diag in E. simpl in E. congruence. }
      split; [lia|]. exists ts'. apply Hk; [lia|done].
Qed.

Lemma heights_by_elem chain a h : h ∈ heights_by chain a <-> exists ts, chain_at chain h = Some (a, ts).
Proof.
  unfold heights_by, chain_at. rewrite heights_from_elem. destruct (Z.ltb_spec h base); split.
  - intros [H1 _]. lia.
  - by intros [ts E].
  - by intros [_ E].
  - by intros E.
Qed.

Lemma ms_insert_end l x : Forall (fun y => y <= x) l -> ms_insert x l = l ++ [x].
Proof.
  induction 1 as [|y l Hy _ IH]; cbn; [done|]. rewrite (proj2 (Z.leb_le y x)) by lia. by rewrite IH.
Qed.

Lemma ms_erase_end l x : Forall (fun y => y <> x) l -> ms_erase x (l ++ [x]) = l.
Proof.
  induction 1 as [|y l Hy _ IH]; cbn; [by rewrite Z.eqb_refl|]. rewrite (proj2 (Z.eqb_neq y x)) by lia. by rewrite IH.
Qed.

Lemma heights_by_below chain a : Forall (fun y => y < next_height chain) (heights_by chain a).
Proof. rewrite Forall_forall. intros y [ts E]%heights_by_elem. apply chain_at_bound in E. lia. Qed.

Lemma RecalcActiveMiners_frame t h : let t' := RecalcActiveMiners t h in
  cd_config t' = cd_config t /\ m_lastWinHeight t' = m_lastWinHeight t /\ m_heightToWinner t' = m_heightToWinner t /\
  m_lastWinTimestamp t' = m_lastWinTimestamp t /\ m_heightToTimestamp t' = m_heightToTimestamp t /\
  m_lifetimeBlockCount t' = m_lifetimeBlockCount t /\ m_mikHeights t' = m_mikHeights t.
Proof. unfold RecalcActiveMiners. by destruct (m_cachedAtHeight t =? h). Qed.

(** Only the win maps matter to [wins_ok]. *)
Lemma wins_ok_ext t t' : m_lastWinHeight t' = m_lastWinHeight t -> m_heightToWinner t' = m_heightToWinner t ->
  m_lastWinTimestamp t' = m_lastWinTimestamp t -> m_heightToTimestamp t' = m_heightToTimestamp t ->
  wins_ok t -> wins_ok t'.
Proof. intros E1 E2 E3 E4 [H1 H2 H3 H4]. split; rewrite ?E1, ?E2, ?E3, ?E4; done. Qed.

(** What connecting a block does to the maps. *)
Lemma connect_spec t h w ts : wins_ok t -> 0 <= h -> 0 < ts ->
  (forall h', is_Some (m_heightToWinner t !! h') -> h' < h) ->
  let t' := Cooldown_OnBlockConnected t h w ts in
  let cutoff := h - m_activeWindow (cd_config t) + 1 in
  wins_ok t' /\ cd_config t' = cd_config t /\
  (forall k, m_heightToWinner t' !! k = if k <? cutoff then None else <[h := w]> (m_heightToWinner t) !! k) /\
  (forall k, m_heightToTimestamp t' !! k = if k <? cutoff then None else <[h := ts]> (m_heightToTimestamp t) !! k) /\
  m_lifetimeBlockCount t' = <[w := default 0 (m_lifetimeBlockCount t !! w) + 1]> (m_lifetimeBlockCount t) /\
  m_mikHeights t' = <[w := ms_insert h (default [] (m_mikHeights t !! w))]> (m_mikHeights t).
Proof.
  intros HO Hh Hts Hnew. cbv zeta. unfold Cooldown_OnBlockConnected.
  pose proof (record_win_ok t h w ts HO Hh Hts Hnew) as HR.
  set (r := record_win t h w ts) in *. change (cd_config r) with (cd_config t).
  destruct (evict_map_spec (h - m_activeWindow (cd_config t) + 1) r HR) as (E1 & E2 & E3).
  pose proof (evict_old_frame (h - m_activeWindow (cd_config t) + 1) (map_ordered (m_heightToWinner r)) r) as F.
  set (e := evict_old _ _ r) in *. destruct F as (F1 & _ & F3 & F4 & _).
  destruct (RecalcActiveMiners_frame e h) as (R1 & R2 & R3 & R4 & R5 & R6 & R7).
  split; [by eapply (wins_ok_ext e)|]. cbn. rewrite R1, R3, R5, R6, R7, F1, F3, F4.
  split; [done|]. split; [exact E2|]. split; [|done]. intros k. rewrite E3. cbn.
  by rewrite (proj2 (Z.gtb_lt ts 0)) by lia.
Qed.

Lemma connect_rep window s t w ts : 0 <= base -> 0 < window -> 0 < ts -> cooldown_rep window s t ->
  cooldown_rep window (cooldown_spec_step window s (CConnect w ts)) (cooldown_step s t (CConnect w ts)).
Proof.
  destruct s as [chain low]. intros Hb Hwin Hts [Hw Hlow HO Hh2w Hh2t Hc Hh]; cbn [fst snd] in *.
  set (n := next_height chain) in *.
  assert (Hn : 0 <= n) by (unfold n, next_height, len; lia).
  assert (Hnew : forall h', is_Some (m_heightToWinner t !! h') -> h' < n).
  { intros h' [v E]. rewrite Hh2w in E. destruct (h' <? low); [done|].
    apply fmap_Some in E as ([? ?] & E & _). apply chain_at_bound in E. unfold n. lia. }
  destruct (connect_spec t n w ts HO Hn Hts Hnew) as (C1 & C2 & C3 & C4 & C5 & C6).
  assert (Hnext : next_height (chain ++ [(w, ts)]) = n + 1).
  { unfold n, next_height, len. rewrite length_app; cbn. lia. }
  split; cbn [cooldown_spec_step cooldown_step fst snd]; fold n.
  - by rewrite C2.
  - rewrite Hnext. lia.
  - done.
  - intros h. rewrite C3, Hw, chain_at_snoc. fold n.
    destruct (Z.ltb_spec h (n - window + 1)), (Z.ltb_spec h (Z.max low (n - window + 1))); try lia; try done.
    + assert (h <> n) by lia. rewrite lookup_insert_ne, Hh2w by done. by rewrite (proj2 (Z.ltb_lt h low)) by lia.
    + destruct (Z.eqb_spec h n) as [->|]; [by rewrite lookup_insert_eq|].
      rewrite lookup_insert_ne, Hh2w by done. by rewrite (proj2 (Z.ltb_ge h low)) by lia.
  - intros h. rewrite C4, Hw, chain_at_snoc. fold n.
    destruct (Z.ltb_spec h (n - window + 1)), (Z.ltb_spec h (Z.max low (n - window + 1))); try lia; try done.
    + assert (h <> n) by lia. rewrite lookup_insert_ne, Hh2t by done. by rewrite (proj2 (Z.ltb_lt h low)) by lia.
    + destruct (Z.eqb_spec h n) as [->|]; [by rewrite lookup_insert_eq|].
      rewrite lookup_insert_ne, Hh2t by done. by rewrite (proj2 (Z.ltb_ge h low)) by lia.
  - intros a. rewrite C5, heights_by_snoc. case_decide as Ha; [subst a|by rewrite lookup_insert_ne, Hc, app_nil_r].
    rewrite lookup_insert_eq, Hc. destruct (heights_by chain w); [done|]. cbn [app default]. f_equal.
    unfold len. cbn [length]. rewrite length_app. cbn. lia.
  - intros a. rewrite C6, heights_by_snoc. case_decide as Ha; [subst a|by rewrite lookup_insert_ne, Hh, app_nil_r].
    rewrite lookup_insert_eq, Hh. pose proof (heights_by_below chain w) as Hbel. fold n in Hbel |- *.
    assert (Hle : Forall (fun y => y <= n) (heights_by chain w)) by (eapply Forall_impl; [done|]; cbn; lia).
    destruct (heights_by chain w) as [|y l] eqn:E; [done|]. cbn [default].
    rewrite ms_insert_end by done. done.
Qed.

Lemma exclude_win_frame t h w : let t' := exclude_win t h w in
  cd_config t' = cd_config t /\ m_heightToWinner t' = delete h (m_heightToWinner t) /\
  m_heightToTimestamp t' = delete h (m_heightToTimestamp t) /\
  m_lifetimeBlockCount t' = m_lifetimeBlockCount t /\ m_mikHeights t' = m_mikHeights t /\
  m_heightToRegistration t' = m_heightToRegistration t.
Proof.
  unfold exclude_win. destruct (last_height (delete h (m_heightToWinner t)) w) as [k|]; [|done].
  by destruct (k >=? 0).
Qed.

(** Forgetting the tip's win, on either path. *)
Lemma forget_win_spec chain w ts t :
  (forall a, m_lifetimeBlockCount t !! a = match heights_by (chain ++ [(w, ts)]) a with [] => None | l => Some (len l) end) ->
  (forall a, m_mikHeights t !! a = match heights_by (chain ++ [(w, ts)]) a with [] => None | l => Some l end) ->
  let t' := forget_win t (next_height chain) w in
  (forall a, m_lifetimeBlockCount t' !! a = match heights_by chain a with [] => None | l => Some (len l) end) /\
  (forall a, m_mikHeights t' !! a = match heights_by chain a with [] => None | l => Some l end).
Proof.
  intros Hc Hh. cbn.
  pose proof (Hc w) as Hcw. pose proof (Hh w) as Hhw.
  rewrite heights_by_snoc, decide_True in Hcw, Hhw by done.
  set (n := next_height chain) in *. pose proof (heights_by_below chain w) as Hb. fold n in Hb.
  assert (Hne : Forall (fun y => y <> n) (heights_by chain w)) by (eapply Forall_impl; [done|]; cbn; lia).
  assert (Er : ms_erase n (heights_by chain w ++ [n]) = heights_by chain w) by (by apply ms_erase_end).
  assert (Hother : forall a, a <> w -> heights_by (chain ++ [(w, ts)]) a = heights_by chain a).
  { intros a Ha. rewrite heights_by_snoc, decide_False by done. apply app_nil_r. }
  assert (Hl : len (heights_by chain w ++ [n]) = len (heights_by chain w) + 1).
  { unfold len. rewrite length_app. cbn. lia. }
  destruct (heights_by chain w ++ [n]) as [|x l] eqn:E; [by destruct (heights_by chain w)|].
  rewrite Hcw, Hhw, Er, Hl. split; intros a.
  - destruct (decide (a = w)) as [->|Ha].
    + destruct (heights_by chain w) as [|y k] eqn:Ey.
      * rewrite Z.add_simpl_r. change (len [] <=? 0) with true. cbn iota. by rewrite lookup_delete_eq.
      * rewrite Z.add_simpl_r, (proj2 (Z.leb_gt _ 0)) by (unfold len; cbn; lia). by rewrite lookup_insert_eq.
    + rewrite <- (Hother a), <- Hc by done. destruct (_ <=? 0); [by rewrite lookup_delete_ne|by rewrite lookup_insert_ne].
  - destruct (decide (a = w)) as [->|Ha].
    + destruct (heights_by chain w) as [|y k] eqn:Ey; [by rewrite lookup_delete_eq|by rewrite lookup_insert_eq].
    + rewrite <- (Hother a), <- Hh by done.
      destruct (heights_by chain w); [by rewrite lookup_delete_ne|by rewrite lookup_insert_ne].
Qed.

(** The scan of the lifetime multisets finds the winner of any height of the
    chain, also of one that has left the window. *)
Lemma lifetime_winner_spec chain t h :
  (forall a, m_mikHeights t !! a = match heights_by chain a with [] => None | l => Some l end) ->
  lifetime_winner t h = fst <$> chain_at chain h.
Proof.
  intros Hh. unfold lifetime_winner.
  assert (Hin : forall a l, (a, l) ∈ addr_ordered (m_mikHeights t) -> h ∈ l -> exists ts, chain_at chain h = Some (a, ts)).
  { intros a l Hal Hl. rewrite addr_ordered_perm, elem_of_map_to_list, Hh in Hal. apply heights_by_elem.
    destruct (heights_by chain a); [done|]. by simplify_eq. }
  destruct (filter _ _) as [|[a l] k] eqn:E.
  - destruct (chain_at chain h) as [[w ts]|] eqn:Ec; [|done]. exfalso.
    assert (Hw : h ∈ heights_by chain w) by (apply heights_by_elem; eauto).
    assert (Hm : m_mikHeights t !! w = Some (heights_by chain w)).
    { rewrite Hh. destruct (heights_by chain w); [by apply elem_of_nil in Hw|done]. }
    assert (Hf : (w, heights_by chain w) ∈ filter (fun e : Address * list Z => h ∈ e.2) (addr_ordered (m_mikHeights t))).
    { apply list_elem_of_filter. split; [done|]. by rewrite addr_ordered_perm, elem_of_map_to_list. }
    rewrite E in Hf. by apply elem_of_nil in Hf.
  - assert (Ha : (a, l) ∈ (a, l) :: k) by left. rewrite <- E in Ha. apply list_elem_of_filter in Ha as [H1 H2].
    destruct (Hin a l H2 H1) as [ts ->]. done.
Qed.

Lemma disconnect_rep window s t : cooldown_rep window s t ->
  cooldown_rep window (cooldown_spec_step window s CDisconnect) (cooldown_step s t CDisconnect).
Proof.
  destruct s as [chain low]. intros [Hw Hlow HO Hh2w Hh2t Hc Hh].
  destruct chain as [|[w ts] chain _] using rev_ind; cbn [fst snd cooldown_spec_step cooldown_step] in *.
  { unfold Cooldown_OnBlockDisconnected.
    assert (Hnil : forall h, chain_at [] h = None) by (intros h; unfold chain_at; by destruct (h <? base)).
    rewrite Hh2w, Hnil. replace (if _ <? low then _ else _) with (@None Address) by (by destruct (_ <? low)).
    rewrite (lifetime_winner_spec [] t) by done. rewrite Hnil. split; cbn [fst snd]; try done; [lia| |].
    all: intros h; rewrite ?Hh2w, ?Hh2t, take_nil, !Hnil; by repeat case_match. }
  assert (Hn : next_height (chain ++ [(w, ts)]) = next_height chain + 1).
  { unfold next_height, len. rewrite length_app; cbn. lia. }
  rewrite Hn, Z.add_simpl_r, length_app, Nat.add_sub, take_app_length. set (n := next_height chain) in *.
  assert (Hat : chain_at (chain ++ [(w, ts)]) n = Some (w, ts)) by (rewrite chain_at_snoc; fold n; by rewrite Z.eqb_refl).
  assert (Hnone : forall h, n <= h -> chain_at chain h = None).
  { intros h Hh'. destruct (chain_at chain h) eqn:E; [|done]. apply chain_at_bound in E. unfold n in *. lia. }
  unfold Cooldown_OnBlockDisconnected. rewrite Hh2w, Hat. destruct (Z.ltb_spec n low) as [Hlt|Hge]; cbn [fmap option_fmap option_map fst].
  - rewrite (lifetime_winner_spec (chain ++ [(w, ts)]) t), Hat by done. cbn [fmap option_fmap option_map fst].
    match goal with |- cooldown_rep _ _ (drop_caches (forget_win ?x _ _)) => set (r := x) end.
    destruct (forget_win_spec chain w ts r Hc Hh) as [F1 F2]. fold n in F1, F2.
    assert (Hdel : delete n (m_heightToTimestamp t) = m_heightToTimestamp t).
    { apply delete_id. rewrite Hh2t. by rewrite (proj2 (Z.ltb_lt n low)). }
    split; cbn [fst snd]; try done; [lia| | |].
    + apply (wins_ok_ext t); [done|done|done|exact Hdel|done].
    + intros h. change (m_heightToWinner (drop_caches _)) with (m_heightToWinner t). rewrite Hh2w, chain_at_snoc. fold n.
      destruct (Z.ltb_spec h low), (Z.ltb_spec h (Z.min low n)), (Z.eqb_spec h n); try lia; try done.
      all: rewrite Hnone by lia; done.
    + intros h. change (m_heightToTimestamp (drop_caches _)) with (delete n (m_heightToTimestamp t)).
      rewrite Hdel, Hh2t, chain_at_snoc. fold n.
      destruct (Z.ltb_spec h low), (Z.ltb_spec h (Z.min low n)), (Z.eqb_spec h n); try lia; try done.
      all: rewrite Hnone by lia; done.
  - assert (Hwin : m_heightToWinner t !! n = Some w).
    { rewrite Hh2w, Hat, (proj2 (Z.ltb_ge n low)) by lia. done. }
    pose proof (exclude_win_ok t n w HO Hwin) as HE.
    destruct (exclude_win_frame t n w) as (F1 & F2 & F3 & F4 & F5 & _). set (e := exclude_win t n w) in *.
    match goal with |- cooldown_rep _ _ (drop_caches (forget_win ?x _ _)) => set (r := x) end.
    destruct (forget_win_spec chain w ts r) as [G1 G2]; [intros a; cbn; by rewrite F4|intros a; cbn; by rewrite F5|].
    fold n in G1, G2.
    split; cbn [fst snd]; try done; [cbn; congruence|lia|by apply (wins_ok_ext e)| |].
    + intros h. change (m_heightToWinner (drop_caches _)) with (m_heightToWinner e). rewrite F2, Z.min_l by lia.
      destruct (decide (h = n)) as [->|Hh'].
      * rewrite lookup_delete_eq, Hnone by lia. by destruct (n <? low).
      * rewrite lookup_delete_ne, Hh2w, chain_at_snoc by done. fold n. by rewrite (proj2 (Z.eqb_neq h n)).
    + intros h. change (m_heightToTimestamp (drop_caches _)) with (m_heightToTimestamp e). rewrite F3, Z.min_l by lia.
      destruct (decide (h = n)) as [->|Hh'].
      * rewrite lookup_delete_eq, Hnone by lia. by destruct (n <? low).
      * rewrite lookup_delete_ne, Hh2t, chain_at_snoc by done. fold n. by rewrite (proj2 (Z.eqb_neq h n)).
Qed.
End Chain.

Lemma cooldown_run_rep base window ops : 0 <= base -> 0 < window -> Forall op_pos ops -> forall s t,
  cooldown_rep base window s t ->
  cooldown_rep base window (cooldown_run base window s t ops).1 (cooldown_run base window s t ops).2.
Proof.
  intros Hb Hw. induction 1 as [|op ops Hop _ IH]; intros s t HR; cbn [cooldown_run]; [done|].
  apply IH. destruct op; [by apply connect_rep|by apply disconnect_rep].
Qed.

Lemma cooldown_step_config base s t op : cd_config (cooldown_step base s t op) = cd_config t.
Proof.
  destruct op as [w ts|]; cbn [cooldown_step].
  - unfold Cooldown_OnBlockConnected. cbn. destruct (RecalcActiveMiners_frame
      (evict_old (next_height base s.1 - m_activeWindow (cd_config t) + 1)
         (map_ordered (<[next_height base s.1:=w]> (m_heightToWinner t)))
         (record_win t (next_height base s.1) w ts)) (next_height base s.1)) as [-> _].
    by destruct (evict_old_frame (next_height base s.1 - m_activeWindow (cd_config t) + 1)
         (map_ordered (<[next_height base s.1:=w]> (m_heightToWinner t)))
         (record_win t (next_height base s.1) w ts)) as [-> _].
  - unfold Cooldown_OnBlockDisconnected. destruct (m_heightToWinner t !! _) as [w|].
    + cbn. by destruct (exclude_win_frame t (next_height base s.1 - 1) w) as [-> _].
    + by destruct (lifetime_winner t _).
Qed.

Lemma cooldown_run_config base window ops : forall s t,
  cd_config (cooldown_run base window s t ops).2 = cd_config t.
Proof.
  induction ops as [|op ops IH]; intros s t; cbn [cooldown_run]; [done|]. by rewrite IH, cooldown_step_config.
Qed.

Lemma new_cooldown_rep base c : cooldown_rep base (m_activeWindow c) ([], base) (new_cooldown c).
Proof.
  split; cbn; try done; [unfold next_height, len; cbn; lia|apply new_cooldown_ok| |].
  all: intros h; rewrite lookup_empty; unfold chain_at; by destruct (h <? base).
Qed.

Lemma heights_from_sorted chain a : forall h, StronglySorted Z.lt (heights_from h chain a).
Proof.
  induction chain as [|[w ts] chain IH]; intros h; cbn [heights_from]; [constructor|].
  case_decide; [|apply IH]. constructor; [apply IH|]. rewrite Forall_forall. intros k [Hk _]%heights_from_elem. lia.
Qed.

Lemma heights_by_NoDup base chain a : NoDup (heights_by base chain a).
Proof.
  unfold heights_by. generalize (heights_from_sorted chain a base). generalize (heights_from base chain a).
  induction 1 as [|x l Hs IH Hx]; constructor; [|done]. rewrite Forall_forall in Hx. intros Hin. apply Hx in Hin. lia.
Qed.

Lemma heights_by_nil base chain a : heights_by base chain a = [] <-> a ∉ chain.*1.
Proof.
  split.
  - intros E Hin. apply list_elem_of_lookup in Hin as [i Hi]. rewrite list_lookup_fmap in Hi.
    apply fmap_Some in Hi as ([w ts] & Hi & ->). cbn [fst] in E.
    assert (Hx : base + Z.of_nat i ∈ heights_by base chain w).
    { unfold heights_by. rewrite heights_from_elem. split; [lia|]. exists ts. by rewrite Z.add_simpl_l, Nat2Z.id. }
    rewrite E in Hx. by apply elem_of_nil in Hx.
  - intros Hni. destruct (heights_by base chain a) as [|h l] eqn:E; [done|]. exfalso. apply Hni.
    assert (Hx : h ∈ heights_by base chain a) by (rewrite E; left).
    unfold heights_by in Hx. rewrite heights_from_elem in Hx. destruct Hx as (_ & ts & Hl).
    apply list_elem_of_fmap. exists (a, ts). split; [done|]. by eapply list_elem_of_lookup_2.
Qed.

(** Two duplicate-free lists with the same elements have the same length. *)
Lemma len_same_elements {A} (l k : list A) : NoDup l -> NoDup k -> (forall x, x ∈ l <-> x ∈ k) -> len l = len k.
Proof. intros H1 H2 H. unfold len. f_equal. apply Permutation_length. by apply NoDup_Permutation. Qed.

Lemma lifetime_count_ok base window s t : cooldown_rep base window s t ->
  GetLifetimeMinerCount t = len (remove_dups s.1.*1).
Proof.
  intros HR. unfold GetLifetimeMinerCount.
  rewrite <- length_map_to_list, <- (length_fmap fst).
  apply (len_same_elements (map_to_list (m_lifetimeBlockCount t)).*1);
    [apply NoDup_fst_map_to_list|apply NoDup_remove_dups|].
  intros a. rewrite elem_of_remove_dups. split.
  - intros ([? c] & -> & Hin)%list_elem_of_fmap. apply elem_of_map_to_list in Hin.
    rewrite (cr_count _ _ _ _ HR) in Hin. cbn [fst].
    destruct (decide (l ∈ s.1.*1)) as [|Hn]; [done|]. apply (heights_by_nil base) in Hn. by rewrite Hn in Hin.
  - intros Hin. destruct (m_lifetimeBlockCount t !! a) as [c|] eqn:E.
    + apply list_elem_of_fmap. exists (a, c). split; [done|]. by apply elem_of_map_to_list.
    + rewrite (cr_count _ _ _ _ HR) in E. destruct (heights_by base s.1 a) eqn:Eh; [|done].
      by apply heights_by_nil in Eh.
Qed.

Lemma mined_by_spec base chain a H : mined_by H (heights_by base chain a) = true <->
  a ∈ (take (Z.to_nat (H - base + 1)) chain).*1.
Proof.
  transitivity (exists k, k ∈ heights_by base chain a /\ k <= H).
  - unfold heights_by. pose proof (heights_from_sorted chain a base) as Hs.
    destruct (heights_from base chain a) as [|h l]; cbn [mined_by].
    + split; [done|]. by intros (k & []%elem_of_nil & _).
    + apply StronglySorted_inv in Hs as [_ Hh]. rewrite Forall_forall in Hh. split.
      * intros E. exists h. split; [left|]. by apply Z.leb_le.
      * intros (k & [->|Hk]%elem_of_cons & Hle); apply Z.leb_le; [done|]. apply Hh in Hk. lia.
  - split.
    + intros (k & Hk & Hle). unfold heights_by in Hk. rewrite heights_from_elem in Hk. destruct Hk as (H1 & ts & Hl).
      apply list_elem_of_fmap. exists (a, ts). split; [done|].
      apply list_elem_of_lookup. exists (Z.to_nat (k - base)). rewrite lookup_take_lt by lia. done.
    + intros ([? ts] & -> & Hin)%list_elem_of_fmap. apply list_elem_of_lookup in Hin as [i Hi]. cbn [fst].
      apply lookup_take_Some in Hi as [Hi Hlt]. exists (base + Z.of_nat i). split; [|lia].
      unfold heights_by. rewrite heights_from_elem. split; [lia|]. exists ts. by rewrite Z.add_simpl_l, Nat2Z.id.
Qed.

Lemma lifetime_at_height_ok base window s t H : cooldown_rep base window s t ->
  GetLifetimeMinerCountAtHeight t H = len (remove_dups (take (Z.to_nat (H - base + 1)) s.1).*1).
Proof.
  intros HR. unfold GetLifetimeMinerCountAtHeight. unfold len at 1. rewrite <- (length_fmap fst).
  apply (len_same_elements (filter _ (addr_ordered (m_mikHeights t))).*1); [|apply NoDup_remove_dups|].
  - assert (Hnd : NoDup (addr_ordered (m_mikHeights t)).*1).
    { rewrite addr_ordered_perm. apply NoDup_fst_map_to_list. }
    eapply sublist_NoDup; [done|]. apply fmap_sublist, sublist_filter.
  - intros a. rewrite elem_of_remove_dups, <- mined_by_spec. split.
    + intros ([b l] & -> & Hin)%list_elem_of_fmap. apply list_elem_of_filter in Hin as [Hm Hin]. cbn [fst snd] in *.
      rewrite addr_ordered_perm, elem_of_map_to_list, (cr_heights _ _ _ _ HR) in Hin.
      destruct (heights_by base s.1 b); [done|]. by simplify_eq.
    + intros Hm. apply list_elem_of_fmap. exists (a, heights_by base s.1 a). split; [done|].
      apply list_elem_of_filter. split; [done|].
      rewrite addr_ordered_perm, elem_of_map_to_list, (cr_heights _ _ _ _ HR).
      by destruct (heights_by base s.1 a).
Qed.

(** The wins of an address that the window still holds. *)
Definition held_wins (base low : Z) (chain : list (Address * Z)) (a : Address) : list Z :=
  filter (fun h => low <= h) (heights_by base chain a).

Lemma held_wins_elem base window s t a h : cooldown_rep base window s t ->
  h ∈ held_wins base s.2 s.1 a <-> m_heightToWinner t !! h = Some a.
Proof.
  intros HR. unfold held_wins. rewrite list_elem_of_filter, heights_by_elem, (cr_h2w _ _ _ _ HR).
  destruct (Z.ltb_spec h s.2); split; try done; [intros [? _]; lia|intros [_ [ts ->]]; done|].
  intros ([? ts] & E & ->)%fmap_Some. eauto.
Qed.

Lemma sorted_last (l : list Z) h : StronglySorted Z.lt l -> last l = Some h -> h ∈ l /\ forall k, k ∈ l -> k <= h.
Proof.
  destruct l as [|x l _] using rev_ind; [done|]. rewrite last_snoc. intros Hs [= ->].
  apply StronglySorted_app in Hs as (Hs & _). split; [apply elem_of_app; right; left|].
  intros k [Hk|Hk]%elem_of_app; [|apply list_elem_of_singleton in Hk; lia]. specialize (Hs k h Hk ltac:(left)). lia.
Qed.

Lemma StronglySorted_filter_lt (P : Z -> Prop) `{forall x, Decision (P x)} l :
  StronglySorted Z.lt l -> StronglySorted Z.lt (filter P l).
Proof.
  induction 1 as [|x l Hs IH Hx]; [constructor|]. rewrite filter_cons. case_decide; [|done].
  constructor; [done|]. rewrite Forall_forall in Hx |- *. intros y [_ Hy]%list_elem_of_filter. auto.
Qed.

Lemma last_win_ok base window s t a : cooldown_rep base window s t ->
  m_lastWinHeight t !! a = last (held_wins base s.2 s.1 a).
Proof.
  intros HR. rewrite (wo_last _ (cr_wins _ _ _ _ HR)).
  destruct (last (held_wins base s.2 s.1 a)) as [h|] eqn:E.
  - apply sorted_last in E as [E1 E2]; [|apply StronglySorted_filter_lt, heights_from_sorted].
    apply last_height_Some. split; [by eapply held_wins_elem|].
    intros h' Hh'. apply E2. by eapply held_wins_elem.
  - apply last_None in E. apply last_height_None. intros h Hh. eapply held_wins_elem in Hh; [|done].
    rewrite E in Hh. by apply elem_of_nil in Hh.
Qed.

Lemma last_time_ok base window s t a : cooldown_rep base window s t ->
  m_lastWinTimestamp t !! a = last (held_wins base s.2 s.1 a) ≫= fun h => snd <$> chain_at base s.1 h.
Proof.
  intros HR. rewrite (wo_time _ (cr_wins _ _ _ _ HR)), (last_win_ok base window s t a HR).
  destruct (last (held_wins base s.2 s.1 a)) as [h|] eqn:E; [|done]. cbn. rewrite (cr_h2t _ _ _ _ HR).
  apply last_Some_elem_of in E. apply list_elem_of_filter in E as [E _]. by rewrite (proj2 (Z.ltb_ge h s.2)) by lia.
Qed.

Lemma window_count_ok base window s t a h w : cooldown_rep base window s t -> 0 <= base ->
  GetBlockCountInWindow t a h w = len (filter (fun k => h - w + 1 <= k <= h) (held_wins base s.2 s.1 a)).
Proof.
  intros HR Hb. unfold GetBlockCountInWindow. unfold len at 1. rewrite <- (length_fmap fst).
  apply (len_same_elements (filter _ (in_range (m_heightToWinner t) _ h)).*1).
  - eapply sublist_NoDup; [apply (map_ordered_NoDup (m_heightToWinner t))|].
    apply fmap_sublist. unfold in_range. etransitivity; apply sublist_filter.
  - apply NoDup_filter, NoDup_filter, heights_by_NoDup.
  - intros k. rewrite list_elem_of_filter, (held_wins_elem base window s t a k HR). split.
    + intros ([? b] & -> & [Hb' Hin]%list_elem_of_filter)%list_elem_of_fmap. cbn [fst snd] in *. subst b.
      apply in_range_elem in Hin as [? ?]. split; [lia|done].
    + intros [Hk Hm]. apply list_elem_of_fmap. exists (k, a). split; [done|]. apply list_elem_of_filter.
      split; [done|]. apply in_range_elem. split; [|done].
      pose proof (wo_pos _ (cr_wins _ _ _ _ HR) k ltac:(eauto)). lia.
Qed.

Lemma connects_low base window l : forall s t,
  (cooldown_run base window s t ((fun e => CConnect e.1 e.2) <$> l)).1
  = (s.1 ++ l, match l with [] => s.2 | _ => Z.max s.2 (next_height base s.1 + len l - window) end).
Proof.
  induction l as [|[w ts] l IH]; intros s t; cbn [cooldown_run fmap list_fmap].
  - destruct s. by rewrite app_nil_r.
  - rewrite IH. cbn [cooldown_spec_step fst snd]. rewrite <- app_assoc. f_equal.
    unfold next_height, len. rewrite length_app. cbn [length]. destruct l; cbn [length]; lia.
Qed.

(** C23: the cooldown tracker follows the chain.  Started empty at a
    non-negative height with a positive window, after any sequence of connected
    tips with positive timestamps and disconnected tips: the winner and the time
    kept for a height are those of the block there, for the heights from the
    lowest one kept on, and nothing is kept below it; an address's last win is
    its highest win kept, with that block's time, and its count in a window that
    of its wins kept; the lifetime counts are the numbers of blocks won on the
    whole chain, the lifetime miner count is the number of distinct winners, and
    the count at a height that of the blocks up to it, whatever has left the
    window and however deep the reorganisation.  Without disconnects the lowest
    height kept is [m_activeWindow] below the next one; a disconnect does not
    bring back what the window has dropped. *)
Theorem cooldown_tracker_refines_chain (c : CooldownConfig) (base : Z) (ops : list CooldownOp)
  (Hbase : 0 <= base) (Hwindow : 0 < m_activeWindow c) (Hops : Forall op_pos ops) :
  let '((chain, low), t) := cooldown_run base (m_activeWindow c) ([], base) (new_cooldown c) ops in
  (forall h, m_heightToWinner t !! h = if h <? low then None else fst <$> chain_at base chain h) /\
  (forall h, m_heightToTimestamp t !! h = if h <? low then None else snd <$> chain_at base chain h) /\
  (forall a, m_lastWinTimestamp t !! a = last (held_wins base low chain a) ≫= fun h => snd <$> chain_at base chain h) /\
  (forall a, m_lifetimeBlockCount t !! a = match heights_by base chain a with [] => None | l => Some (len l) end) /\
  GetLifetimeMinerCount t = len (remove_dups chain.*1) /\
  (forall h, GetLifetimeMinerCountAtHeight t h = len (remove_dups (take (Z.to_nat (h - base + 1)) chain).*1)) /\
  (forall a, GetLastWinHeight t a = default (-1) (last (held_wins base low chain a))) /\
  (forall a h w, GetBlockCountInWindow t a h w
                 = len (filter (fun k => h - w + 1 <= k <= h) (held_wins base low chain a))) /\
  (forall l, ops = (fun e => CConnect e.1 e.2) <$> l ->
     chain = l /\ low = Z.max base (base + len l - m_activeWindow c)).
Proof.
  pose proof (cooldown_run_rep base _ ops Hbase Hwindow Hops _ _ (new_cooldown_rep base c)) as HR.
  destruct (cooldown_run _ _ _ _ _) as [[chain low] t] eqn:E. cbn [fst snd] in HR.
  split_and!.
  - apply (cr_h2w _ _ _ _ HR).
  - apply (cr_h2t _ _ _ _ HR).
  - intros a. by apply (last_time_ok _ _ _ _ a HR).
  - apply (cr_count _ _ _ _ HR).
  - apply (lifetime_count_ok _ _ _ _ HR).
  - intros h. apply (lifetime_at_height_ok _ _ _ _ h HR).
  - intros a. unfold GetLastWinHeight. by rewrite (last_win_ok _ _ _ _ a HR).
  - intros a h w. by apply (window_count_ok _ _ _ _ a h w HR).
  - intros l ->. pose proof (connects_low base (m_activeWindow c) l ([], base) (new_cooldown c)) as Hl.
    rewrite E in Hl. cbn [fst snd] in Hl. injection Hl as -> ->. split; [done|].
    unfold next_height, len. destruct l; cbn [length]; lia.
Qed.

Lemma cooldown_tracker_refines_chain_witness :
  let ops := [CConnect [1] 10; CConnect [2] 20; CConnect [1] 30; CDisconnect] in
  0 <= 7 /\ GetLifetimeMinerCount (cooldown_run 7 2 ([], 7) (new_cooldown (cooldown_config 2 0 0 45 0 0 60)) ops).2 = 2.
Proof.
  split; [lia|].
  pose proof (cooldown_tracker_refines_chain (cooldown_config 2 0 0 45 0 0 60) 7
    [CConnect [1] 10; CConnect [2] 20; CConnect [1] 30; CDisconnect] ltac:(lia) ltac:(cbn; lia)
    ltac:(repeat constructor)) as H.
  destruct H as (_ & _ & _ & _ & H & _). exact (eq_trans H eq_refl).
Defined.

(** ** The preflight simulation is the disconnect *)

Lemma drop_caches_cooldown t h : h <> -1 -> m_cachedAtHeight t = -1 -> m_cachedShortAtHeight t = -1 ->
  fst (ComputeEffectiveCooldownUnlocked t h) =
  let c := cd_config t in
  let long := CalculateCooldown (unique_winners (m_heightToWinner t) (h - m_activeWindow c + 1) h) in
  if (h >=? m_stabilizationHeight c) && (m_shortWindow c >? 0)
  then Z.min long (CalculateCooldown (unique_winners (m_heightToWinner t) (h - m_shortWindow c + 1) h))
  else long.
Proof.
  intros Hh H1 H2. unfold ComputeEffectiveCooldownUnlocked, RecalcActiveMiners.
  rewrite H1, (proj2 (Z.eqb_neq (-1) h)) by lia. cbn [cd_config set_caches].
  destruct (h >=? m_stabilizationHeight (cd_config t)), (m_shortWindow (cd_config t) >? 0) eqn:E; try done. cbn [andb].
  unfold RecalcShortActiveMiners. cbn. rewrite H2, (proj2 (Z.eqb_neq (-1) h)) by lia.
  rewrite (proj2 (Z.leb_gt _ 0)) by (rewrite Z.gtb_ltb in E; zprop; lia). done.
Qed.

Lemma disconnect_window t ex w : m_heightToWinner t !! ex = Some w ->
  let t' := Cooldown_OnBlockDisconnected t ex in let sim := exclude_win t ex w in
  cd_config t' = cd_config t /\ m_heightToWinner t' = m_heightToWinner sim /\
  m_lastWinHeight t' = m_lastWinHeight sim /\ m_lastWinTimestamp t' = m_lastWinTimestamp sim /\
  m_cachedAtHeight t' = -1 /\ m_cachedShortAtHeight t' = -1.
Proof.
  intros Hw. cbv zeta. unfold Cooldown_OnBlockDisconnected. rewrite Hw. cbn.
  destruct (exclude_win_frame t ex w) as (-> & _). done.
Qed.

Lemma cooldown_preflight_lemma (t : CCooldownTracker) (addr winner : Address)
  (height currentTimestamp excludeHeight : Z)
  (Hheight : 0 <= height) (Hexclude : 0 <= excludeHeight)
  (Hwinner : m_heightToWinner t !! excludeHeight = Some winner) :
  let t' := Cooldown_OnBlockDisconnected t excludeHeight in
  IsInCooldownExcludingHeight t addr height currentTimestamp excludeHeight
    = (fst (IsInCooldown t' addr height currentTimestamp), t) /\
  GetActiveMinersExcludingHeight t height excludeHeight = GetActiveMiners (RecalcActiveMiners t' height).
Proof.
  destruct (disconnect_window t excludeHeight winner Hwinner) as (D1 & D2 & D3 & D4 & D5 & D6).
  destruct (exclude_win_frame t excludeHeight winner) as (_ & F2 & _).
  cbv zeta. set (t' := Cooldown_OnBlockDisconnected t excludeHeight) in *. split.
  - unfold IsInCooldownExcludingHeight, IsInCooldown. rewrite (proj2 (Z.ltb_ge _ 0)), Hwinner, D1, D3, D4 by lia.
    f_equal. destruct (m_lastWinHeight (exclude_win t excludeHeight winner) !! addr) as [k|]; [|done].
    pose proof (drop_caches_cooldown t' height ltac:(lia) D5 D6) as Hc. rewrite D1, D2 in Hc.
    destruct (ComputeEffectiveCooldownUnlocked t' height) as [cd t'']. cbn [fst] in *. by rewrite Hc.
  - unfold GetActiveMinersExcludingHeight, GetActiveMiners, RecalcActiveMiners.
    rewrite (proj2 (Z.ltb_ge _ 0)), Hwinner, D5, (proj2 (Z.eqb_neq (-1) height)), D1 by lia. cbn.
    by rewrite D2, F2.
Qed.

(** Evaluating a rival block at the tip's height as if the tip were
    disconnected gives exactly the answers the tracker gives after really
    disconnecting it, for the cooldown and for the active-miner count, and
    leaves the tracker itself untouched. *)
Theorem cooldown_preflight_exact (t : CCooldownTracker) (addr winner : Address)
  (height currentTimestamp excludeHeight : Z)
  (Hheight : 0 <= height) (Hexclude : 0 <= excludeHeight)
  (Hwinner : m_heightToWinner t !! excludeHeight = Some winner) :
  let t' := Cooldown_OnBlockDisconnected t excludeHeight in
  IsInCooldownExcludingHeight t addr height currentTimestamp excludeHeight
    = (fst (IsInCooldown t' addr height currentTimestamp), t) /\
  GetActiveMinersExcludingHeight t height excludeHeight = GetActiveMiners (RecalcActiveMiners t' height).
Proof. by apply (cooldown_preflight_lemma t addr winner). Qed.

(** ** The caches are transparent at the height they were filled for *)

Lemma recalc_at t h : m_cachedAtHeight (RecalcActiveMiners t h) = h.
Proof. unfold RecalcActiveMiners. destruct (Z.eqb_spec (m_cachedAtHeight t) h); done. Qed.

Lemma recalc_short_at t h : m_cachedShortAtHeight (RecalcShortActiveMiners t h) = h /\
  m_cachedAtHeight (RecalcShortActiveMiners t h) = m_cachedAtHeight t /\
  m_cachedActiveMiners (RecalcShortActiveMiners t h) = m_cachedActiveMiners t /\
  cd_config (RecalcShortActiveMiners t h) = cd_config t.
Proof.
  unfold RecalcShortActiveMiners. destruct (Z.eqb_spec (m_cachedShortAtHeight t) h); [done|].
  by destruct (m_shortWindow (cd_config t) <=? 0).
Qed.

Lemma effective_idem t h :
  let r := ComputeEffectiveCooldownUnlocked t h in ComputeEffectiveCooldownUnlocked (snd r) h = r.
Proof.
  cbv zeta. pose proof (recalc_at t h) as Ha. set (t1 := RecalcActiveMiners t h) in *.
  set (b := (h >=? m_stabilizationHeight (cd_config t1)) && (m_shortWindow (cd_config t1) >? 0)).
  set (t2 := RecalcShortActiveMiners t1 h). destruct (recalc_short_at t1 h) as (S1 & S2 & S3 & S4). fold t2 in S1, S2, S3, S4.
  assert (Hr : ComputeEffectiveCooldownUnlocked t h =
    if b then (Z.min (CalculateCooldown (m_cachedActiveMiners t1)) (CalculateCooldown (m_cachedShortActiveMiners t2)), t2)
    else (CalculateCooldown (m_cachedActiveMiners t1), t1)) by reflexivity.
  rewrite Hr. destruct b eqn:Eb; cbn [snd]; unfold ComputeEffectiveCooldownUnlocked.
  - assert (E1 : RecalcActiveMiners t2 h = t2) by (unfold RecalcActiveMiners; by rewrite S2, Ha, Z.eqb_refl).
    assert (E2 : RecalcShortActiveMiners t2 h = t2) by (unfold RecalcShortActiveMiners; by rewrite S1, Z.eqb_refl).
    rewrite E1, S3, S4. fold b. by rewrite Eb, E2.
  - assert (E1 : RecalcActiveMiners t1 h = t1) by (unfold RecalcActiveMiners; by rewrite Ha, Z.eqb_refl).
    rewrite E1. fold b. by rewrite Eb.
Qed.

(** What a query leaves behind: only the caches differ. *)
Lemma effective_frame t h : exists n sn sh,
  snd (ComputeEffectiveCooldownUnlocked t h) = set_caches t n h sn sh /\
  (m_cachedAtHeight t <> h -> n = unique_winners (m_heightToWinner t) (h - m_activeWindow (cd_config t) + 1) h).
Proof.
  unfold ComputeEffectiveCooldownUnlocked, RecalcActiveMiners, RecalcShortActiveMiners.
  destruct (Z.eqb_spec (m_cachedAtHeight t) h) as [E|E].
  - destruct (_ && _); cbn [snd].
    + destruct (m_cachedShortAtHeight t =? h); [|destruct (m_shortWindow (cd_config t) <=? 0)];
        destruct t; cbn in *; subst; do 3 eexists; (split; [reflexivity|done]).
    + destruct t; cbn in *; subst; do 3 eexists; (split; [reflexivity|done]).
  - destruct (_ && _); cbn.
    + destruct (m_cachedShortAtHeight t =? h); [|destruct (m_shortWindow (cd_config t) <=? 0)];
        cbn; do 3 eexists; (split; [reflexivity|done]).
    + do 3 eexists; (split; [reflexivity|done]).
Qed.

(** A query after the caches were filled answers as before and changes nothing. *)
Lemma IsInCooldown_filled t h a ts : let t1 := snd (ComputeEffectiveCooldownUnlocked t h) in
  fst (IsInCooldown t1 a h ts) = fst (IsInCooldown t a h ts) /\ snd (IsInCooldown t1 a h ts) = t1.
Proof.
  cbv zeta. pose proof (effective_idem t h) as Hi. cbv zeta in Hi.
  destruct (effective_frame t h) as (n & sn & sh & Hf & _).
  destruct (ComputeEffectiveCooldownUnlocked t h) as [cd t1] eqn:E. cbn [snd] in *. unfold IsInCooldown.
  rewrite E, Hi, Hf. cbn. by destruct (m_lastWinHeight t !! a).
Qed.

(** ** The cooldown never deadlocks *)

Lemma CalculateCooldown_bounds n : MIN_COOLDOWN <= CalculateCooldown n <= MAX_COOLDOWN /\
  (0 <= n -> CalculateCooldown n <= Z.max MIN_COOLDOWN (n * 67 / 100)).
Proof.
  unfold CalculateCooldown, MIN_COOLDOWN, MAX_COOLDOWN. split; [zcases|]. intros Hn.
  rewrite Z.quot_div_nonneg by lia. zcases.
Qed.

(** A miner in cooldown won fewer blocks ago than the cooldown is long. *)
Lemma cooldown_rule_gap c ts h last cd now : last < h -> cooldown_rule c ts h last cd now = true -> h - last < cd.
Proof.
  unfold cooldown_rule, time_decay_rule, legacy_rule. intros Hl H.
  destruct (h >=? m_timeDecayActivationHeight c).
  - apply Z.ltb_lt in H. set (d := Z.quot _ _) in H.
    assert (0 <= d); [|lia]. unfold d. apply Z.quot_pos; [|zcases]. destruct ts; [|lia]. destruct (_ && _); lia.
  - destruct (h - last >=? cd) eqn:E; [done|]. zprop. lia.
Qed.

(** The cached count is the true one, or is not the one for this height. *)
Definition cache_fresh (t : CCooldownTracker) (h : Z) : Prop :=
  m_cachedAtHeight t = h ->
  m_cachedActiveMiners t = unique_winners (m_heightToWinner t) (h - m_activeWindow (cd_config t) + 1) h.

Lemma effective_cooldown_le t h : cache_fresh t h ->
  fst (ComputeEffectiveCooldownUnlocked t h)
    <= CalculateCooldown (unique_winners (m_heightToWinner t) (h - m_activeWindow (cd_config t) + 1) h).
Proof.
  intros HF. unfold ComputeEffectiveCooldownUnlocked, RecalcActiveMiners.
  destruct (Z.eqb_spec (m_cachedAtHeight t) h) as [E|E].
  - rewrite (HF E). destruct (_ && _); cbn [fst]; lia.
  - destruct (_ && _); cbn; lia.
Qed.

Definition active_at (t : CCooldownTracker) (h : Z) : gset Address :=
  winners (m_heightToWinner t) (h - m_activeWindow (cd_config t) + 1) h.

Definition eligible_at (t : CCooldownTracker) (h now : Z) : gset Address :=
  filter (fun a => fst (IsInCooldown t a h now) = false) (active_at t h).

Lemma size_omap_le (m : gmap Z Address) (l : list Z) :
  (size (list_to_set (omap (fun k => m !! k) l) : gset Address) <= length l)%nat.
Proof.
  induction l as [|k l IH]; cbn -[union singleton]; [by rewrite size_empty|].
  destruct (m !! k) as [a|]; cbn -[union singleton]; [|lia].
  rewrite size_union_alt, size_singleton.
  assert (size (list_to_set (omap (λ k, m !! k) l) ∖ {[a]} : gset Address)
          <= size (list_to_set (omap (λ k, m !! k) l) : gset Address))%nat by (apply subseteq_size; set_solver).
  lia.
Qed.

Lemma cooled_size t h now : wins_ok t -> cache_fresh t h ->
  (forall k, is_Some (m_heightToWinner t !! k) -> k < h) ->
  Z.of_nat (size (active_at t h ∖ eligible_at t h now))
    <= CalculateCooldown (Z.of_nat (size (active_at t h))) - 1.
Proof.
  intros HO HF Hbelow. set (n := Z.of_nat (size (active_at t h))).
  set (cd := CalculateCooldown n). pose proof (CalculateCooldown_bounds n) as [Hb _]. fold cd in Hb.
  unfold MIN_COOLDOWN, MAX_COOLDOWN in Hb.
  assert (Hsub : active_at t h ∖ eligible_at t h now
                 ⊆ list_to_set (omap (fun k => m_heightToWinner t !! k) (seqZ (h - cd + 1) (cd - 1)))).
  { intros a [Ha Hne]%elem_of_difference. apply elem_of_list_to_set, list_elem_of_omap.
    assert (Hcd : fst (IsInCooldown t a h now) = true).
    { destruct (fst (IsInCooldown t a h now)) eqn:E; [done|]. exfalso. apply Hne. by apply elem_of_filter. }
    unfold IsInCooldown in Hcd. rewrite (wo_last _ HO) in Hcd.
    destruct (last_height (m_heightToWinner t) a) as [k|] eqn:Ek; [|done].
    apply last_height_Some in Ek as [Ek _]. pose proof (Hbelow k ltac:(eauto)).
    pose proof (effective_cooldown_le t h HF) as Hle.
    destruct (ComputeEffectiveCooldownUnlocked t h) as [e t']. cbn [fst] in *.
    apply cooldown_rule_gap in Hcd; [|done]. exists k. split; [|done]. apply elem_of_seqZ.
    change (unique_winners (m_heightToWinner t) (h - m_activeWindow (cd_config t) + 1) h) with n in Hle.
    fold cd in Hle. lia. }
  apply subseteq_size in Hsub.
  pose proof (size_omap_le (m_heightToWinner t) (seqZ (h - cd + 1) (cd - 1))) as Hs.
  rewrite length_seqZ in Hs. lia.
Qed.

(** With two or more active miners at least a third of them are eligible. *)
Lemma eligible_third t h now : wins_ok t -> cache_fresh t h ->
  (forall k, is_Some (m_heightToWinner t !! k) -> k < h) -> (2 <= size (active_at t h))%nat ->
  (1 <= size (eligible_at t h now))%nat /\ (size (active_at t h) <= 3 * size (eligible_at t h now))%nat.
Proof.
  intros HO HF Hb Hn. pose proof (cooled_size t h now HO HF Hb) as Hc.
  assert (Hs : size (active_at t h) = (size (eligible_at t h now) + size (active_at t h ∖ eligible_at t h now))%nat).
  { rewrite <- size_union_alt. f_equal.
    assert (eligible_at t h now ⊆ active_at t h) by (intros a [_ Ha]%elem_of_filter; done).
    apply set_eq. intros a. rewrite elem_of_union. split; [auto|]. intros [|]; auto. }
  pose proof (CalculateCooldown_bounds (Z.of_nat (size (active_at t h)))) as [[H1 H2] H3].
  specialize (H3 ltac:(lia)). unfold MIN_COOLDOWN, MAX_COOLDOWN in *.
  set (n := Z.of_nat (size (active_at t h))) in *.
  pose proof (Z.div_mod (n * 67) 100 ltac:(lia)). pose proof (Z.mod_pos_bound (n * 67) 100 ltac:(lia)).
  set (q := n * 67 / 100) in *. lia.
Qed.

(** Above the time-decay height a winner's cooldown has run out after
    [MAX_COOLDOWN] decay periods. *)
Lemma decay_expires c ts h last cd now : (h >=? m_timeDecayActivationHeight c) = true -> 0 < m_timeDecaySeconds c ->
  0 < ts -> last < h -> cd <= MAX_COOLDOWN -> ts + MAX_COOLDOWN * m_timeDecaySeconds c <= now ->
  cooldown_rule c (Some ts) h last cd now = false.
Proof.
  intros Hh Hd Hts Hl Hcd Hnow. unfold cooldown_rule, time_decay_rule, MAX_COOLDOWN in *. rewrite Hh.
  rewrite !Z.gtb_ltb, (proj2 (Z.ltb_lt 0 ts)), (proj2 (Z.ltb_lt 0 now)), (proj2 (Z.ltb_lt 0 (m_timeDecaySeconds c))) by lia.
  cbn [andb]. apply Z.ltb_ge. rewrite (Z.max_r 0 (now - ts)) by lia. rewrite Z.quot_div_nonneg by lia.
  assert (100 <= (now - ts) / m_timeDecaySeconds c); [|lia]. apply Z.div_le_lower_bound; lia.
Qed.

(** The cooldown rules never stop the chain.  For a tracker over any chain
    whose count cache is fresh and any timestamp, when two or more miners are
    active at least a third of them may mine the next height; and from the
    time-decay height on any recorded winner, a solo miner included, may mine
    again once [MAX_COOLDOWN] decay periods have passed since its last block. *)
Theorem cooldown_never_deadlocks (c : CooldownConfig) (base : Z) (ops : list CooldownOp)
  (Hbase : 0 <= base) (Hwindow : 0 < m_activeWindow c) (Hdecay : 0 < m_timeDecaySeconds c)
  (Hops : Forall op_pos ops) :
  let '((chain, _), t) := cooldown_run base (m_activeWindow c) ([], base) (new_cooldown c) ops in
  let h := next_height base chain in
  cache_fresh t h ->
  (forall now, (2 <= size (active_at t h))%nat ->
     (1 <= size (eligible_at t h now))%nat /\ (size (active_at t h) <= 3 * size (eligible_at t h now))%nat) /\
  (forall a last ts now, m_timeDecayActivationHeight c <= h ->
     m_lastWinHeight t !! a = Some last -> m_heightToTimestamp t !! last = Some ts -> 0 < ts ->
     ts + MAX_COOLDOWN * m_timeDecaySeconds c <= now -> fst (IsInCooldown t a h now) = false).
Proof.
  pose proof (cooldown_run_rep base _ ops Hbase Hwindow Hops _ _ (new_cooldown_rep base c)) as HR.
  pose proof (cooldown_run_config base (m_activeWindow c) ops ([], base) (new_cooldown c)) as Hcfg.
  destruct (cooldown_run _ _ _ _ _) as [[chain low] t] eqn:E. cbn [fst snd] in *.
  change (cd_config (new_cooldown c)) with c in Hcfg. intros HF.
  pose proof (cr_wins _ _ _ _ HR) as HO.
  assert (Hbelow : forall k, is_Some (m_heightToWinner t !! k) -> k < next_height base chain).
  { intros k [v Hk]. rewrite (cr_h2w _ _ _ _ HR) in Hk. cbn [fst snd] in Hk. destruct (k <? low); [done|].
    apply fmap_Some in Hk as (? & Hk & _). apply chain_at_bound in Hk. lia. }
  split; [intros now; by apply eligible_third|].
  intros a last ts now Hact Hl Hts Hpos Hnow. unfold IsInCooldown. rewrite Hl, (wo_time _ HO), Hl, Hcfg. cbn [mbind option_bind].
  rewrite Hts. pose proof (effective_cooldown_le t _ HF) as Hle.
  pose proof (CalculateCooldown_bounds (unique_winners (m_heightToWinner t)
    (next_height base chain - m_activeWindow (cd_config t) + 1) (next_height base chain))) as [[_ Hm] _].
  destruct (ComputeEffectiveCooldownUnlocked t (next_height base chain)) as [e t']. cbn [fst] in *.
  apply decay_expires; try done; [apply Z.geb_le; lia| |lia].
  apply Hbelow. rewrite (wo_last _ HO) in Hl. apply last_height_Some in Hl as [Hl _]. eauto.
Qed.

Lemma cooldown_preflight_exact_witness :
  let t := (cooldown_run 0 5 ([], 0) (new_cooldown (cooldown_config 5 0 0 45 0 0 60))
              [CConnect [1] 10; CConnect [2] 20; CConnect [1] 30]).2 in
  IsInCooldownExcludingHeight t [1] 2 40 2
    = (fst (IsInCooldown (Cooldown_OnBlockDisconnected t 2) [1] 2 40), t) /\
  fst (IsInCooldown (Cooldown_OnBlockDisconnected t 2) [1] 2 40) = false /\ fst (IsInCooldown t [1] 3 40) = true.
Proof.
  split; [|split; vm_compute; reflexivity].
  apply (cooldown_preflight_exact _ [1] [1] 2 40 2); [lia|lia|]. vm_compute. reflexivity.
Defined.

Lemma cooldown_never_deadlocks_witness :
  let c := cooldown_config 10 0 0 45 0 0 60 in
  let ops := [CConnect [1] 10; CConnect [2] 20; CConnect [3] 30] in
  let t := (cooldown_run 0 10 ([], 0) (new_cooldown c) ops).2 in
  (1 <= size (eligible_at t 3 31))%nat /\ fst (IsInCooldown t [3] 3 31) = true /\
  fst (IsInCooldown t [3] 3 6030) = false.
Proof.
  pose proof (cooldown_never_deadlocks (cooldown_config 10 0 0 45 0 0 60) 0
    [CConnect [1] 10; CConnect [2] 20; CConnect [3] 30] ltac:(lia) ltac:(cbn; lia) ltac:(cbn; lia)
    ltac:(repeat constructor)) as H.
  assert (HF : cache_fresh (cooldown_run 0 10 ([], 0) (new_cooldown (cooldown_config 10 0 0 45 0 0 60))
                 [CConnect [1] 10; CConnect [2] 20; CConnect [3] 30]).2 3) by (intros E; vm_compute in E; done).
  destruct (H HF) as [H1 H2]. split; [|split].
  - apply (H1 31). vm_compute. lia.
  - vm_compute. reflexivity.
  - apply (H2 [3] 2 30 6030); [cbn; unfold next_height, len; cbn; lia|vm_compute; reflexivity|vm_compute; reflexivity|lia|].
    unfold MAX_COOLDOWN. cbn. lia.
Defined.

(** ** Observations *)

(** A query at the height about to be connected fills the cache for that
    height, and connecting the block then keeps the cached count: the new
    winner is not counted. *)
Example connect_keeps_stale_count :
  let t := new_cooldown (cooldown_config 360 0 0 45 0 0 60) in
  let t := Cooldown_OnBlockConnected t 1 [1] 10 in
  let queried := snd (IsInCooldown t [1] 2 20) in
  GetActiveMiners (Cooldown_OnBlockConnected t 2 [2] 20) = 2 /\
  GetActiveMiners (Cooldown_OnBlockConnected queried 2 [2] 20) = 1.
Proof. vm_compute. done. Qed.

(** Disconnecting does not bring evicted wins back: after a reorganisation two
    blocks deep the window has a miner less than that of a tracker rebuilt from
    the same chain, and the two disagree on whether a miner is in cooldown. *)
Example reorg_changes_cooldown :
  let c := cooldown_config 6 0 0 45 0 999 60 in
  let wins := (fun i => CConnect [i] 10) <$> [1; 2; 3; 4; 5] in
  let rebuilt := (cooldown_run 0 6 ([], 0) (new_cooldown c) wins).2 in
  let reorged := (cooldown_run 0 6 ([], 0) (new_cooldown c)
                    (wins ++ [CConnect [6] 10; CConnect [7] 10; CDisconnect; CDisconnect])).2 in
  GetActiveMiners (RecalcActiveMiners rebuilt 5) = 5 /\ GetActiveMiners (RecalcActiveMiners reorged 5) = 4 /\
  fst (IsInCooldown rebuilt [4] 5 20) = true /\ fst (IsInCooldown reorged [4] 5 20) = false.
Proof. vm_compute. done. Qed.

(** Recording the same block twice and disconnecting it once leaves its miner
    in the lifetime count. *)
Example double_connect_overcounts :
  let t := new_cooldown (cooldown_config 360 0 0 45 0 0 60) in
  let t := Cooldown_OnBlockConnected (Cooldown_OnBlockConnected t 1 [1] 10) 1 [1] 10 in
  GetLifetimeMinerCount (Cooldown_OnBlockDisconnected t 1) = 1.
Proof. vm_compute. done. Qed.
