(* ===== verification/Attestation.v ===== *)
(** * Seed attestations (attestation/seed_attestation.h, attestation/seed_attestation.cpp)

    The attestations a miner's registration carries: the signed message, the
    verification of one attestation and of a set, the script encoding and the
    key file.  The HTTP collection of attestations from seed nodes is not
    modelled.  [CAttestation] is [Mik.AttestationEntry]. *)

From S2P Require Import Prelude Uint256 Transaction Dfmp Mik.

Definition NUM_SEEDS : Z := 4.
Definition MIN_ATTESTATIONS : Z := 3.
Definition ATTESTATION_MARKER : Z := 0xDA.
(** "DILV_ATTEST" *)
Definition ATTESTATION_DOMAIN : list Z := [68; 73; 76; 86; 95; 65; 84; 84; 69; 83; 84].
Definition ATTESTATION_VALIDITY_WINDOW : Z := 3600.
Definition ATTESTATION_ENTRY_SIZE : Z := 1 + 4 + MIK_SIGNATURE_SIZE.

Definition CAttestation_IsValid (a : AttestationEntry) : bool :=
  (seedId a <? NUM_SEEDS) && (len (att_signature a) =? MIK_SIGNATURE_SIZE).

Inductive AttestError : Set := BadSeedKeyCount | TooFewValid (n : Z).

Section Attest.
  Variable SHA3_256 : list Z -> uint256.
  Variable dilithium_verify : list Z -> list Z -> list Z -> Z.

Definition BuildAttestationMessage (mikPubkey dnaHash : list Z) (timestamp seed : Z) : list Z :=
  SHA3_256 (ATTESTATION_DOMAIN ++ mikPubkey ++ dnaHash ++ le_bytes 4 timestamp ++ [seed]).

Definition VerifyAttestation (a : AttestationEntry) (mikPubkey dnaHash seedPubkey : list Z) : bool :=
  if negb (CAttestation_IsValid a) then false
  else if negb (len seedPubkey =? MIK_PUBKEY_SIZE) then false
  else
    let message := BuildAttestationMessage mikPubkey dnaHash (att_timestamp a) (seedId a) in
    dilithium_verify (att_signature a) message seedPubkey =? 0.

(** The loop over the entries: [usedSeed] and [validCount]. *)
Fixpoint count_attestations (mikPubkey dnaHash : list Z) (seedPubkeys : list (list Z)) (blockTimestamp : Z)
    (usedSeed : gset Z) (validCount : Z) (atts : list AttestationEntry) : Z :=
  match atts with
  | [] => validCount
  | att :: atts' =>
      let skip := count_attestations mikPubkey dnaHash seedPubkeys blockTimestamp usedSeed validCount atts' in
      if seedId att >=? NUM_SEEDS then skip
      else if bool_decide (seedId att ∈ usedSeed) then skip
      else
        let timeDiff := blockTimestamp - att_timestamp att in
        if (timeDiff <? 0) || (timeDiff >? ATTESTATION_VALIDITY_WINDOW) then skip
        else if VerifyAttestation att mikPubkey dnaHash (nth (Z.to_nat (seedId att)) seedPubkeys []) then
          count_attestations mikPubkey dnaHash seedPubkeys blockTimestamp
            ({[seedId att]} ∪ usedSeed) (validCount + 1) atts'
        else skip
  end.

Definition VerifyAttestationSet (atts : list AttestationEntry) (mikPubkey dnaHash : list Z)
    (seedPubkeys : list (list Z)) (blockTimestamp : Z) : result AttestError unit :=
  reject negb (len seedPubkeys =? NUM_SEEDS) with BadSeedKeyCount;
  let validCount := count_attestations mikPubkey dnaHash seedPubkeys blockTimestamp ∅ 0 atts in
  reject validCount <? MIN_ATTESTATIONS with TooFewValid validCount;
  Ok tt.

End Attest.

(** ** Script encoding *)

Definition attestation_entry (a : AttestationEntry) : list Z :=
  seedId a :: le_bytes 4 (att_timestamp a) ++ att_signature a.

Fixpoint build_entries (atts : list AttestationEntry) : option (list Z) :=
  match atts with
  | [] => Some []
  | a :: atts' =>
      if negb (CAttestation_IsValid a) then None
      else match build_entries atts' with Some l => Some (attestation_entry a ++ l) | None => None end
  end.

Definition BuildAttestationScriptData (atts : list AttestationEntry) : option (list Z) :=
  if bool_decide (atts = []) then None
  else if len atts >? 255 then None
  else match build_entries atts with
       | Some l => Some (ATTESTATION_MARKER :: u8 (len atts) :: l)
       | None => None
       end.

(** The entries and the number of bytes consumed. *)
Definition ParseAttestationScriptData (data : list Z) : option (list AttestationEntry * Z) :=
  if len data <? 2 then None
  else if negb (byte_at data 0 =? ATTESTATION_MARKER) then None
  else
    let count := byte_at data 1 in
    let expectedSize := 2 + count * ATTESTATION_ENTRY_SIZE in
    if len data <? expectedSize then None
    else Some (parse_attestations (Z.to_nat count) (drop 2 data), expectedSize).

(** ** Key file *)

Definition KEY_FILE_MAGIC : Z := 0x444C4154.
Definition KEY_FILE_VERSION : Z := 1.
Definition MIK_PRIVKEY_SIZE : Z := 4032.

Record CSeedAttestationKey := mkSeedKey { m_pubkey : list Z; m_privkey : list Z }.

Definition SeedKey_Clear (k : CSeedAttestationKey) : CSeedAttestationKey := mkSeedKey [] [].
Definition SeedKey_IsValid (k : CSeedAttestationKey) : bool := len (m_pubkey k) =? MIK_PUBKEY_SIZE.

(** The bytes [Save] writes, [None] when it writes no file. *)
Definition SeedKey_Save (k : CSeedAttestationKey) : option (list Z) :=
  if negb (SeedKey_IsValid k) then None
  else Some (le_bytes 4 KEY_FILE_MAGIC ++ [KEY_FILE_VERSION] ++ m_pubkey k ++ m_privkey k).

(** [Load] from the file's bytes: the verdict and the key object after it.  A
    short read leaves the buffer's zeros in place and clears [good()]. *)
Definition SeedKey_Load (k : CSeedAttestationKey) (file : list Z) : bool * CSeedAttestationKey :=
  if negb (le_val (take 4 file) =? KEY_FILE_MAGIC) then (false, k)
  else if negb (byte_at file 4 =? KEY_FILE_VERSION) then (false, k)
  else
    let body := drop 5 file in
    if len body <? MIK_PUBKEY_SIZE + MIK_PRIVKEY_SIZE then (false, SeedKey_Clear k)
    else (true, mkSeedKey (take (Z.to_nat MIK_PUBKEY_SIZE) body)
                  (slice body (Z.to_nat MIK_PUBKEY_SIZE) (Z.to_nat MIK_PRIVKEY_SIZE))).

(** ** Verification counts seeds *)

Section AttestFacts.
  Variable SHA3_256 : list Z -> uint256.
  Variable dilithium_verify : list Z -> list Z -> list Z -> Z.
  Variables (mikPubkey dnaHash : list Z) (seedPubkeys : list (list Z)) (blockTimestamp : Z).

(** An entry that counts: a known seed, fresh, and signed with that seed's key. *)
Definition attests (a : AttestationEntry) : bool :=
  (seedId a <? NUM_SEEDS) &&
  (0 <=? blockTimestamp - att_timestamp a) && (blockTimestamp - att_timestamp a <=? ATTESTATION_VALIDITY_WINDOW) &&
  VerifyAttestation SHA3_256 dilithium_verify a mikPubkey dnaHash (nth (Z.to_nat (seedId a)) seedPubkeys []).

(** The seeds that vouch for the key. *)
Definition attesting_seeds (atts : list AttestationEntry) : gset Z :=
  list_to_set (seedId <$> filter (fun a => attests a = true) atts).

Lemma count_attestations_spec atts : forall used n,
  count_attestations SHA3_256 dilithium_verify mikPubkey dnaHash seedPubkeys blockTimestamp used n atts
  = n + Z.of_nat (size (attesting_seeds atts ∖ used)).
Proof.
  induction atts as [|a atts IH]; intros used n; cbn [count_attestations].
  - unfold attesting_seeds. cbn. rewrite (proj2 (size_empty_iff (∅ ∖ used : gset Z))) by set_solver. lia.
  - assert (Hno : attests a = false -> attesting_seeds (a :: atts) = attesting_seeds atts).
    { intros E. unfold attesting_seeds. rewrite filter_cons, decide_False by congruence. done. }
    assert (Hyes : attests a = true -> attesting_seeds (a :: atts) = {[seedId a]} ∪ attesting_seeds atts).
    { intros E. unfold attesting_seeds. rewrite filter_cons, decide_True by done. done. }
    unfold attests in Hno, Hyes.
    destruct (seedId a >=? NUM_SEEDS) eqn:E1.
    { rewrite IH, Hno; [done|]. zprop. by rewrite (proj2 (Z.ltb_ge _ _)). }
    case_bool_decide as E2.
    { rewrite IH. f_equal. f_equal. f_equal.
      destruct (attests a) eqn:Ea; unfold attests in Ea; [rewrite Hyes by done; set_solver|by rewrite Hno]. }
    destruct ((blockTimestamp - att_timestamp a <? 0) || (blockTimestamp - att_timestamp a >? ATTESTATION_VALIDITY_WINDOW)) eqn:E3.
    { rewrite IH, Hno; [done|]. apply orb_true_iff in E3 as [E3|E3]; zprop.
      - rewrite (proj2 (Z.leb_gt 0 _)) by lia. by rewrite andb_false_r.
      - rewrite (proj2 (Z.leb_gt _ ATTESTATION_VALIDITY_WINDOW)) by lia. by rewrite andb_false_r. }
    zprop. destruct (VerifyAttestation _ _ _ _ _ _) eqn:E4.
    + rewrite IH, Hyes.
      2:{ rewrite (proj2 (Z.ltb_lt _ _)), (proj2 (Z.leb_le 0 _)), (proj2 (Z.leb_le _ ATTESTATION_VALIDITY_WINDOW)) by lia. done. }
      assert (Hs : ({[seedId a]} ∪ attesting_seeds atts) ∖ used
                   = {[seedId a]} ∪ (attesting_seeds atts ∖ ({[seedId a]} ∪ used))).
      { apply set_eq. intros x. destruct (decide (x = seedId a)); set_solver. }
      pose proof (size_union {[seedId a]} (attesting_seeds atts ∖ ({[seedId a]} ∪ used)) ltac:(set_solver)) as Hu.
      rewrite Hs, Hu, size_singleton. lia.
    + rewrite IH, Hno; [done|]. by rewrite andb_false_r.
Qed.

End AttestFacts.

(** A set of attestations is accepted exactly when at least three different
    seeds vouch for the key: each with an entry whose timestamp is at most an
    hour before the block's and whose signature over the key, the hardware
    commitment, the timestamp and the seed's own index verifies under that
    seed's key.  Repeated, stale or forged entries never count and never spoil
    a set. *)
Theorem attestation_quorum_iff (SHA3_256 : list Z -> uint256) (dilithium_verify : list Z -> list Z -> list Z -> Z)
    (atts : list AttestationEntry) (mikPubkey dnaHash : list Z) (seedPubkeys : list (list Z)) (blockTimestamp : Z) :
  VerifyAttestationSet SHA3_256 dilithium_verify atts mikPubkey dnaHash seedPubkeys blockTimestamp = Ok tt <->
  len seedPubkeys = NUM_SEEDS /\
  exists seeds : gset Z, (3 <= size seeds)%nat /\ forall s, s ∈ seeds -> exists a, a ∈ atts /\ seedId a = s /\
    s < NUM_SEEDS /\ 0 <= blockTimestamp - att_timestamp a <= ATTESTATION_VALIDITY_WINDOW /\
    len (att_signature a) = MIK_SIGNATURE_SIZE /\ len (nth (Z.to_nat s) seedPubkeys []) = MIK_PUBKEY_SIZE /\
    dilithium_verify (att_signature a)
      (BuildAttestationMessage SHA3_256 mikPubkey dnaHash (att_timestamp a) s) (nth (Z.to_nat s) seedPubkeys []) = 0.
Proof.
  unfold VerifyAttestationSet. rewrite count_attestations_spec.
  set (S0 := attesting_seeds SHA3_256 dilithium_verify mikPubkey dnaHash seedPubkeys blockTimestamp atts).
  replace (S0 ∖ ∅) with S0 by (apply set_eq; set_solver).
  assert (Hin : forall s, s ∈ S0 <-> exists a, a ∈ atts /\ seedId a = s /\
    attests SHA3_256 dilithium_verify mikPubkey dnaHash seedPubkeys blockTimestamp a = true).
  { intros s. unfold S0, attesting_seeds. rewrite elem_of_list_to_set, list_elem_of_fmap. split.
    - intros (a & -> & [Ha Hi]%list_elem_of_filter). eauto.
    - intros (a & Hi & <- & Ha). exists a. split; [done|]. by apply list_elem_of_filter. }
  destruct (Z.eqb_spec (len seedPubkeys) NUM_SEEDS) as [Hk|Hk]; cbn [negb]; [|split; [done|by intros [? _]]].
  assert (Hatt : forall a, attests SHA3_256 dilithium_verify mikPubkey dnaHash seedPubkeys blockTimestamp a = true <->
    seedId a < NUM_SEEDS /\ 0 <= blockTimestamp - att_timestamp a <= ATTESTATION_VALIDITY_WINDOW /\
    len (att_signature a) = MIK_SIGNATURE_SIZE /\
    len (nth (Z.to_nat (seedId a)) seedPubkeys []) = MIK_PUBKEY_SIZE /\
    dilithium_verify (att_signature a) (BuildAttestationMessage SHA3_256 mikPubkey dnaHash (att_timestamp a) (seedId a))
      (nth (Z.to_nat (seedId a)) seedPubkeys []) = 0).
  { intros a. unfold attests, VerifyAttestation, CAttestation_IsValid.
    destruct (Z.ltb_spec (seedId a) NUM_SEEDS), (Z.leb_spec 0 (blockTimestamp - att_timestamp a)),
      (Z.leb_spec (blockTimestamp - att_timestamp a) ATTESTATION_VALIDITY_WINDOW),
      (Z.eqb_spec (len (att_signature a)) MIK_SIGNATURE_SIZE),
      (Z.eqb_spec (len (nth (Z.to_nat (seedId a)) seedPubkeys [])) MIK_PUBKEY_SIZE);
      cbn [andb negb]; try (split; [done|lia]). rewrite Z.eqb_eq. tauto. }
  split.
  - intros H. guards H. zprop. split; [done|]. exists S0. unfold MIN_ATTESTATIONS in *. split; [lia|].
    intros s Hs. apply Hin in Hs as (a & Ha & <- & Hat). exists a. apply Hatt in Hat. tauto.
  - intros (_ & seeds & Hsize & Hs). assert (seeds ⊆ S0) as Hsub.
    { intros s Hx. apply Hin. destruct (Hs s Hx) as (a & Ha & <- & Hrest). exists a. rewrite Hatt. tauto. }
    apply subseteq_size in Hsub. unfold MIN_ATTESTATIONS. rewrite (proj2 (Z.ltb_ge _ 3)) by lia. done.
Qed.

(** ** Round trips *)

Definition attestation_wf (a : AttestationEntry) : Prop :=
  byte_ok (seedId a) /\ 0 <= att_timestamp a < 2 ^ 32 /\ len (att_signature a) = MIK_SIGNATURE_SIZE.

Lemma parse_entry a rest : attestation_wf a ->
  parse_attestations 1 (attestation_entry a ++ rest) = [a] /\
  drop (Z.to_nat (1 + 4 + MIK_SIGNATURE_SIZE)) (attestation_entry a ++ rest) = rest.
Proof.
  intros (Hs & Ht & Hl). destruct a as [s t sg]. unfold attestation_entry.
  cbn [seedId att_timestamp att_signature] in *. split.
  - cbn [parse_attestations]. do 2 f_equal.
    + change (s :: le_bytes 4 t ++ sg) with ([s] ++ le_bytes 4 t ++ sg). rewrite <- !app_assoc.
      rewrite (slice_bytes 4 [s]) by (done || apply length_le_bytes). rewrite le_val_le_bytes. apply Z.mod_small. lia.
    + change (s :: le_bytes 4 t ++ sg) with (([s] ++ le_bytes 4 t) ++ sg). rewrite <- (app_assoc _ sg).
      apply slice_bytes; [by rewrite length_app, length_le_bytes|]. unfold len in Hl. lia.
  - apply (drop_app_length' (s :: le_bytes 4 t ++ sg)). cbn [length]. rewrite length_app, length_le_bytes.
    unfold len, MIK_SIGNATURE_SIZE in *. lia.
Qed.

Lemma parse_attestations_S n l : parse_attestations (S n) l =
  parse_attestations 1 l ++ parse_attestations n (drop (Z.to_nat (1 + 4 + MIK_SIGNATURE_SIZE)) l).
Proof. done. Qed.

Lemma parse_entries atts rest : Forall attestation_wf atts ->
  parse_attestations (length atts) (concat (attestation_entry <$> atts) ++ rest) = atts.
Proof.
  induction 1 as [|a atts Ha _ IH]; [done|]. cbn [fmap list_fmap concat length].
  rewrite <- app_assoc. destruct (parse_entry a (concat (attestation_entry <$> atts) ++ rest) Ha) as [E1 E2].
  rewrite parse_attestations_S, E1, E2, IH. done.
Qed.

Lemma build_entries_spec atts l : build_entries atts = Some l ->
  l = concat (attestation_entry <$> atts) /\ Forall (fun a => CAttestation_IsValid a = true) atts.
Proof.
  revert l. induction atts as [|a atts IH]; intros l; cbn [build_entries fmap list_fmap concat]; [intros [= <-]; done|].
  destruct (CAttestation_IsValid a) eqn:Ea; cbn [negb]; [|done].
  destruct (build_entries atts) as [k|]; [|done]. intros [= <-]. destruct (IH k eq_refl) as [-> ?]. auto.
Qed.

Lemma len_entries atts : Forall attestation_wf atts ->
  len (concat (attestation_entry <$> atts)) = len atts * ATTESTATION_ENTRY_SIZE.
Proof.
  induction 1 as [|a atts (_ & _ & Hl) _ IH]; cbn [fmap list_fmap concat]; [done|].
  unfold len in *. rewrite length_app, Nat2Z.inj_add, IH. unfold attestation_entry. cbn [length].
  rewrite length_app, length_le_bytes. unfold ATTESTATION_ENTRY_SIZE in *. lia.
Qed.

(** the attestation encoding round-trips, through the component's own
    parser (which also reports the exact size) and through the coinbase parser
    that consensus uses; and a seed key file that was saved loads back to the
    same key. *)
Theorem attestation_roundtrip (atts : list AttestationEntry) (data rest : list Z) (k k0 : CSeedAttestationKey) (file : list Z)
    (Hwf : Forall (fun a => 0 <= seedId a /\ 0 <= att_timestamp a < 2 ^ 32) atts)
    (Hbuild : BuildAttestationScriptData atts = Some data)
    (Hpriv : len (m_privkey k) = MIK_PRIVKEY_SIZE) (Hsave : SeedKey_Save k = Some file) :
  ParseAttestationScriptData (data ++ rest) = Some (atts, len data) /\
  parse_attestation_set (data ++ rest) = Some atts /\
  SeedKey_Load k0 file = (true, k).
Proof.
  unfold BuildAttestationScriptData in Hbuild. case_bool_decide as Hne; [done|].
  destruct (len atts >? 255) eqn:Hlen; [done|]. zprop.
  destruct (build_entries atts) as [l|] eqn:Eb; [|done]. injection Hbuild as <-.
  apply build_entries_spec in Eb as [-> Hv].
  assert (Hw : Forall attestation_wf atts).
  { rewrite Forall_forall in Hwf, Hv |- *. intros a Ha. specialize (Hwf a Ha). specialize (Hv a Ha).
    unfold CAttestation_IsValid, NUM_SEEDS in Hv. zprop. unfold attestation_wf, byte_ok. lia. }
  assert (Hn : 0 <= len atts) by (unfold len; lia).
  rewrite u8_small by lia. set (body := concat (attestation_entry <$> atts)).
  assert (Hb : len body = len atts * ATTESTATION_ENTRY_SIZE) by (by apply len_entries).
  assert (HL : len ((ATTESTATION_MARKER :: len atts :: body) ++ rest) = 2 + len body + len rest).
  { unfold len. cbn [app length]. rewrite length_app. lia. }
  assert (Hr : 0 <= len rest) by (unfold len; lia).
  assert (HP : parse_attestations (Z.to_nat (len atts)) (body ++ rest) = atts).
  { unfold len. rewrite Nat2Z.id. by apply parse_entries. }
  assert (0 <= len body) by (unfold len; lia).
  split; [|split].
  - unfold ParseAttestationScriptData. rewrite HL, (proj2 (Z.ltb_ge _ 2)) by lia.
    cbn [app byte_at nth]. rewrite Z.eqb_refl. cbn [negb drop].
    rewrite (proj2 (Z.ltb_ge _ _)) by lia. rewrite drop_0, HP. do 2 f_equal. unfold len in *. cbn [length]. lia.
  - unfold parse_attestation_set. rewrite HL, (proj2 (Z.leb_le 2 _)) by lia. cbn [app byte_at nth].
    change (ATTESTATION_MARKER =? ATTEST_MARKER) with true. cbn [andb drop]. rewrite drop_0.
    assert (len (body ++ rest) = len body + len rest) as -> by (unfold len; rewrite length_app; lia).
    change ATTEST_ENTRY_SIZE with ATTESTATION_ENTRY_SIZE. rewrite (proj2 (Z.leb_le _ _)) by lia. by rewrite HP.
  - unfold SeedKey_Save, SeedKey_IsValid in Hsave.
    destruct (Z.eqb_spec (len (m_pubkey k)) MIK_PUBKEY_SIZE) as [Hpk|]; [|done]. apply (inj Some) in Hsave as <-.
    destruct k as [pk sk]; cbn [m_pubkey m_privkey] in *. unfold SeedKey_Load.
    rewrite (take_app_length' (le_bytes 4 KEY_FILE_MAGIC)) by (by rewrite length_le_bytes).
    replace (le_val (le_bytes 4 KEY_FILE_MAGIC) =? KEY_FILE_MAGIC) with true by (vm_compute; reflexivity).
    replace (byte_at (le_bytes 4 KEY_FILE_MAGIC ++ [KEY_FILE_VERSION] ++ pk ++ sk) 4) with KEY_FILE_VERSION by reflexivity.
    rewrite Z.eqb_refl. cbn [negb].
    replace (drop 5 (le_bytes 4 KEY_FILE_MAGIC ++ [KEY_FILE_VERSION] ++ pk ++ sk)) with (pk ++ sk) by reflexivity.
    assert (len (pk ++ sk) = len pk + len sk) as -> by (unfold len; rewrite length_app; lia).
    rewrite Hpk, Hpriv, Z.ltb_irrefl. unfold slice, len in *.
    rewrite (take_app_length' pk), (drop_app_length' pk), (take_ge sk) by lia. done.
Qed.

Definition toy_att (s : Z) : AttestationEntry := mkAttest s 100 (replicate 3309 s).
Definition toy_seed_key : CSeedAttestationKey := mkSeedKey (replicate 1952 1) (replicate 4032 2).

Lemma attestation_roundtrip_witness :
  match BuildAttestationScriptData [toy_att 0; toy_att 2], SeedKey_Save toy_seed_key with
  | Some data, Some file =>
      ParseAttestationScriptData (data ++ [5]) = Some ([toy_att 0; toy_att 2], len data) /\
      parse_attestation_set (data ++ [5]) = Some [toy_att 0; toy_att 2] /\
      SeedKey_Load (mkSeedKey [] []) file = (true, toy_seed_key)
  | _, _ => False
  end.
Proof.
  apply attestation_roundtrip.
  - repeat constructor; cbn; lia.
  - vm_compute. reflexivity.
  - vm_compute. reflexivity.
  - vm_compute. reflexivity.
Defined.

(** A short key file is refused and wipes the key that was in memory; a file
    with a foreign magic leaves it. *)
Example short_key_file_clears :
  SeedKey_Load toy_seed_key (le_bytes 4 KEY_FILE_MAGIC ++ [1; 9]) = (false, mkSeedKey [] []) /\
  SeedKey_Load toy_seed_key [0; 0; 0; 0; 1; 9] = (false, toy_seed_key).
Proof. vm_compute. done. Qed.
