(* ===== verification/VdfValidation.v ===== *)
(** * VDF block rules (consensus/vdf_validation.h, consensus/vdf_validation.cpp, vdf/coinbase_vdf.h)

    The proof in the coinbase and its commitment, the miner's challenge, and the
    rules on who may mine: cooldown, consecutive blocks, window cap, hardware
    commitment, attestations, expiry and registration rate, with the preflight a
    rival tip goes through.  The Wesolowski verifier, SHA3-256 and Dilithium3
    are variables; the block database is a partial function from hashes to
    blocks and the DNA registry one from identities to the stored hash. *)

From S2P Require Import Prelude Uint256 ChainParams Block BlockIndex Transaction BlockTxs UtxoStore.
From S2P Require Import Dfmp Mik IdentityDb Cooldown Attestation.

Inductive VdfError : Set :=
| NotVdfBlock | NullVdfOutput | NullVdfProofHash | CoinbaseUndecodable | FirstNotCoinbase
| NoVdfProof | ProofHashMismatch | NoMinerAddress | WesolowskiFailed
| NoMikIdentity | InCooldown | ConsecutiveLimit (n : Z)
| EmptyVtx | UnsupportedTxCount | CoinbaseNoInputs | MikParseFailed
| MissingDnaCommitment | DnaHashMismatch | WindowCapExceeded (n : Z)
| MissingAttestations | TooFewAttestations (n : Z) | SeedKeysMissing | AttestationsInvalid (e : AttestError)
| UnknownReference | MikExpired | RegistrationRate (n : Z).

(** ** The proof in the coinbase *)

Definition VDF_TAG : list Z := [0x56; 0x44; 0x46; 0x01].
Definition MAX_PROOF_SIZE : Z := 512.

(** [EmbedProof]: the scriptSig with the proof appended. *)
Definition EmbedProof (scriptSig proof : list Z) : list Z :=
  let l := u16 (len proof) in
  scriptSig ++ VDF_TAG ++ [Z.land l 0xFF; Z.land (Z.shiftr l 8) 0xFF] ++ proof.

(** The scan for the tag; [s] is the script from position [i] on, and the first
    tag decides. *)
Fixpoint find_proof (s : list Z) : list Z :=
  match s with
  | [] => []
  | _ :: s' =>
      if len s <? 4 + 2 then []
      else if bool_decide (take 4 s = VDF_TAG) then
        let proofLen := u16 (Z.lor (byte_at s 4) (Z.shiftl (byte_at s 5) 8)) in
        if (proofLen =? 0) || (proofLen >? MAX_PROOF_SIZE) then []
        else if 4 + 2 + proofLen >? len s then []
        else slice s 6 (Z.to_nat proofLen)
      else find_proof s'
  end.

Definition ExtractProof (scriptSig : list Z) : list Z :=
  if len scriptSig <? 4 + 2 + 1 then [] else find_proof scriptSig.

Section Vdf.
  Context {D : Type} `{LDB : LevelDB D}.
  Variable SHA3_256 : list Z -> uint256.
  Variable dilithium_verify : list Z -> list Z -> list Z -> Z.
  Variable vdf_verify : list Z -> uint256 -> list Z -> Z -> bool.
  Variable g_chainParams : option ChainParams.

Definition ComputeProofHash (proof : list Z) : uint256 := SHA3_256 proof.

Definition ValidateProofCommitment (scriptSig : list Z) (expectedHash : uint256) : bool :=
  let proof := ExtractProof scriptSig in
  if bool_decide (proof = []) then false else bool_decide (ComputeProofHash proof = expectedHash).

Definition gp {A} (f : ChainParams -> A) (dflt : A) : A :=
  match g_chainParams with Some p => f p | None => dflt end.

Definition ComputeVDFChallenge (prevHash : uint256) (height : Z) (minerAddress : Address) : list Z :=
  SHA3_256 (prevHash ++ le_bytes 4 (u32 height) ++ minerAddress).

(** ** The miner of a block *)

Definition block_coinbase (block : CBlock) : option CTransaction :=
  match vtx block with
  | [] => None
  | _ => match DeserializeBlockTransactions (vtx block) with Ok (tx :: _) => Some tx | _ => None end
  end.

Definition ExtractCoinbaseAddress (block : CBlock) : option Address :=
  match block_coinbase block with
  | None => None
  | Some coinbase =>
      if negb (IsCoinBase coinbase) then None
      else match vout coinbase with
           | [] => None
           | out :: _ => if len (scriptPubKey out) <? 25 then None else Some (slice (scriptPubKey out) 3 20)
           end
  end.

Definition ExtractCoinbaseMIKIdentity (block : CBlock) : option Address :=
  match block_coinbase block with
  | None => None
  | Some coinbase =>
      if negb (IsCoinBase coinbase) then None
      else match vin coinbase with
           | [] => None
           | txin :: _ =>
               match ParseMIKFromScriptSig SHA3_256 (scriptSig txin) with
               | Some mikData =>
                   if negb (Identity_IsNull (mik_identity mikData)) then Some (mik_identity mikData)
                   else ExtractCoinbaseAddress block
               | None => ExtractCoinbaseAddress block
               end
           end
  end.

(** ** The proof *)

Definition CheckVDFProof (block : CBlock) (height : Z) (prevHash : uint256) (vdfIterations : Z)
  : result VdfError unit :=
  let h := block_header block in
  reject negb (IsVDFBlock h) with NotVdfBlock;
  reject IsNull (vdfOutput h) with NullVdfOutput;
  reject IsNull (vdfProofHash h) with NullVdfProofHash;
  match DeserializeBlockTransactions (vtx block) with
  | Err _ | Ok [] => Err CoinbaseUndecodable
  | Ok (coinbase :: _) =>
      reject negb (IsCoinBase coinbase) with FirstNotCoinbase;
      let proof := ExtractProof (match vin coinbase with txin :: _ => scriptSig txin | [] => [] end) in
      reject bool_decide (proof = []) with NoVdfProof;
      reject bool_decide (ComputeProofHash proof <> vdfProofHash h) with ProofHashMismatch;
      match ExtractCoinbaseAddress block with
      | None => Err NoMinerAddress
      | Some minerAddr =>
          let challenge := ComputeVDFChallenge prevHash height minerAddr in
          reject negb (vdf_verify challenge (vdfOutput h) proof vdfIterations) with WesolowskiFailed;
          Ok tt
      end
  end.

(** ** Cooldown and consecutive blocks *)

(** The tracker's caches are filled by the logging call before the test. *)
Definition CheckVDFCooldown (block : CBlock) (height : Z) (tracker : CCooldownTracker) (blockTimestamp : Z)
  : result VdfError unit * CCooldownTracker :=
  if height <? gp dfmpCooldownConsensusHeight 999999999 then (Ok tt, tracker)
  else if negb (IsVDFBlock (block_header block)) then (Ok tt, tracker)
  else if height =? 0 then (Ok tt, tracker)
  else match ExtractCoinbaseMIKIdentity block with
       | None => (Err NoMikIdentity, tracker)
       | Some mikId =>
           let tracker := snd (GetEffectiveCooldown tracker height) in
           let '(cooling, tracker) := IsInCooldown tracker mikId height blockTimestamp in
           (if cooling then Err InCooldown else Ok tt, tracker)
       end.

Definition MAX_CONSECUTIVE_SAME_MINER : Z := 3.
Definition kBootstrapMinerThreshold : Z := 5.
Definition CONSECUTIVE_STALL_THRESHOLD_SECS : Z := 3600.

(** The walk back over at most [n] parents mined by [mik].  [None]: a dangling
    pointer. *)
Fixpoint consecutive_run (n : nat) (st : index_store) (db : option (uint256 -> option CBlock)) (mik : Address)
    (pWalk : option addr) : option Z :=
  match n, pWalk, db with
  | S n', Some p, Some ReadBlock =>
      b ← st !! p;
      match ReadBlock (GetBlockHash b) with
      | None => Some 0
      | Some prevBlock =>
          match ExtractCoinbaseMIKIdentity prevBlock with
          | None => Some 0
          | Some prevMik =>
              if bool_decide (prevMik <> mik) then Some 0
              else c ← consecutive_run n' st db mik (pprev b); Some (c + 1)
          end
      end
  | _, _, _ => Some 0
  end.

(** The pre-retirement exemption after an hour without a block. *)
Definition stall_exempt (st : index_store) (block : CBlock) (prev : option addr) (height : Z) : option bool :=
  if height <? gp consecutiveMinerStallExemptionRetiredHeight 999999999 then
    match prev with
    | None => Some false
    | Some q => bq ← st !! q;
        Some (hnTime (block_header block) - nTime bq >=? CONSECUTIVE_STALL_THRESHOLD_SECS)
    end
  else Some false.

Definition CheckConsecutiveMiner (st : index_store) (block : CBlock) (pindex : CBlockIndex)
    (db : option (uint256 -> option CBlock)) (tracker : CCooldownTracker)
  : option (result VdfError unit * CCooldownTracker) :=
  if nHeight pindex <? gp consecutiveMinerCheckHeight 999999999 then Some (Ok tt, tracker)
  else if negb (IsVDFBlock (block_header block)) then Some (Ok tt, tracker)
  else match ExtractCoinbaseMIKIdentity block with
       | None => Some (Err NoMikIdentity, tracker)
       | Some currentMik =>
           let tracker := snd (IsInCooldown tracker currentMik (nHeight pindex) 0) in
           let activeMiners := GetActiveMiners tracker in
           let solo :=
             (activeMiners <=? 1) &&
             ((nHeight pindex <? gp soloExemptionLifetimeGateHeight 999999999) ||
              (GetLifetimeMinerCount tracker <=? kBootstrapMinerThreshold)) in
           if solo then Some (Ok tt, tracker)
           else
             consecutiveCount ← consecutive_run 3 st db currentMik (pprev pindex);
             if consecutiveCount >=? MAX_CONSECUTIVE_SAME_MINER then
               exempt ← stall_exempt st block (pprev pindex) (nHeight pindex);
               Some (if exempt : bool then Ok tt else Err (ConsecutiveLimit (consecutiveCount + 1)), tracker)
             else Some (Ok tt, tracker)
       end.

(** ** The window cap *)

Definition CheckMIKWindowCap (block : CBlock) (height : Z) (tracker : CCooldownTracker) (prevBlockTime blockTime : Z)
  : result VdfError unit :=
  match g_chainParams with
  | None => Ok tt
  | Some p =>
      let window := mikWindowCapWindow p in
      let cap := mikWindowCapFloor p in
      if (window <=? 0) || (cap <=? 0) then Ok tt
      else if negb (IsVDFBlock (block_header block)) then Ok tt
      else if height =? 0 then Ok tt
      else if GetActiveMiners tracker <=? 1 then Ok tt
      else if (livenessTimeoutSec p >? 0) && (prevBlockTime >? 0) && (blockTime >? 0) &&
              (blockTime - prevBlockTime >=? livenessTimeoutSec p) then Ok tt
      else match ExtractCoinbaseMIKIdentity block with
           | None => Err NoMikIdentity
           | Some mikId =>
               let count := GetBlockCountInWindow tracker mikId (height - 1) window in
               reject count >=? cap with WindowCapExceeded count; Ok tt
           end
  end.

(** ** Rules on the identity data *)

(** The coinbase read directly after the count prefix, with trailing data
    allowed, and the identity data in its first input. *)
Definition coinbase_mik (block : CBlock) : result VdfError CMIKScriptData :=
  match vtx block with
  | [] => Err EmptyVtx
  | b0 :: _ =>
      let data := vtx block in
      match (if b0 <? 253 then Some 1%nat
             else if (b0 =? 253) && (len data >=? 3) then Some 3%nat else None) with
      | None => Err UnsupportedTxCount
      | Some txCountSize =>
          match Deserialize (drop txCountSize data) true with
          | Err _ => Err CoinbaseUndecodable
          | Ok (coinbase, _) =>
              match vin coinbase with
              | [] => Err CoinbaseNoInputs
              | txin :: _ =>
                  match ParseMIKFromScriptSig SHA3_256 (scriptSig txin) with
                  | None => Err MikParseFailed
                  | Some mikData => Ok mikData
                  end
              end
          end
      end
  end.

Definition CheckDNACommitment (block : CBlock) (height : Z) : result VdfError unit :=
  if height <? gp dnaCommitmentActivationHeight 999999999 then Ok tt
  else if negb (IsVDFBlock (block_header block)) then Ok tt
  else match coinbase_mik block with
       | Err e => Err e
       | Ok mikData => reject negb (has_dna_hash mikData) with MissingDnaCommitment; Ok tt
       end.

Definition CheckDNAHashEquality (block : CBlock) (height : Z) (registry : Identity -> option (list Z))
  : result VdfError unit :=
  if height <? gp dnaHashEnforcementHeight 999999999 then Ok tt
  else if negb (IsVDFBlock (block_header block)) then Ok tt
  else match coinbase_mik block with
       | Err e => Err e
       | Ok mikData =>
           if negb (has_dna_hash mikData) then Ok tt
           else match registry (mik_identity mikData) with
                | None => Ok tt
                | Some localHash => reject bool_decide (localHash <> dna_hash mikData) with DnaHashMismatch; Ok tt
                end
       end.

(** The seed keys are those of the chain parameters. *)
Definition CheckMIKAttestations (seedPubkeys : list (list Z)) (block : CBlock) (height : Z) : result VdfError unit :=
  if height <? gp seedAttestationActivationHeight 999999999 then Ok tt
  else match coinbase_mik block with
       | Err e => Err e
       | Ok mikData =>
           if negb (isRegistration mikData) then Ok tt
           else
             reject negb (has_attestations mikData) with MissingAttestations;
             reject attestation_count mikData <? MIN_ATTESTATIONS with TooFewAttestations (attestation_count mikData);
             reject negb (len seedPubkeys =? NUM_SEEDS) with SeedKeysMissing;
             let dnaHash := if has_dna_hash mikData then dna_hash mikData else zero256 in
             match VerifyAttestationSet SHA3_256 dilithium_verify (attestations mikData) (mik_pubkey mikData) dnaHash
                     seedPubkeys (hnTime (block_header block)) with
             | Ok _ => Ok tt
             | Err e => Err (AttestationsInvalid e)
             end
       end.

(** A reference from an identity that has not mined for too long. *)
Definition CheckMIKExpiration (block : CBlock) (height : Z) (db : option (CIdentityDB D))
  : result VdfError unit * option (CIdentityDB D) :=
  if height <? gp mikExpirationActivationHeight 999999999 then (Ok tt, db)
  else match coinbase_mik block with
       | Err _ => (Ok tt, db)
       | Ok mikData =>
           if isRegistration mikData then (Ok tt, db)
           else match db with
                | None => (Ok tt, None)
                | Some d0 =>
                    let threshold := gp mikExpirationThreshold 5760 in
                    let '(lastMined, d1) := GetLastMined d0 (mik_identity mikData) in
                    if lastMined <? 0 then
                      let '(firstSeen, d2) := GetFirstSeen d1 (mik_identity mikData) in
                      if firstSeen >=? 0
                      then (if height - firstSeen >? threshold then Err MikExpired else Ok tt, Some d2)
                      else (Err UnknownReference, Some d2)
                    else (if height - lastMined >? threshold then Err MikExpired else Ok tt, Some d1)
                end
       end.

Definition CheckRegistrationRateLimit (block : CBlock) (height : Z) (tracker : CCooldownTracker)
  : result VdfError unit :=
  if height <? gp mikRegistrationRateLimitHeight 999999999 then Ok tt
  else match coinbase_mik block with
       | Err _ => Ok tt
       | Ok mikData =>
           if negb (isRegistration mikData) then Ok tt
           else
             let count := GetRegistrationCount tracker (height - 1) (gp mikRegistrationRateWindow 200) in
             reject count >=? gp mikRegistrationMaxPerWindow 10 with RegistrationRate count; Ok tt
       end.

(** ** The preflight of a rival tip *)

Definition preflight_consecutive (st : index_store) (block : CBlock) (pindexNew : option CBlockIndex)
    (db : option (uint256 -> option CBlock)) (height excludeHeight : Z) (tracker : CCooldownTracker)
    (mikId : Address) : option (result VdfError unit) :=
  if GetActiveMinersExcludingHeight tracker height excludeHeight >? 1 then
    let prev := pindexNew ≫= pprev in
    consecutiveCount ← consecutive_run 3 st db mikId prev;
    if consecutiveCount >=? MAX_CONSECUTIVE_SAME_MINER then
      exempt ← stall_exempt st block prev height;
      Some (if exempt : bool then Ok tt else Err (ConsecutiveLimit (consecutiveCount + 1)))
    else Some (Ok tt)
  else Some (Ok tt).

Definition preflight_cap (st : index_store) (p : ChainParams) (block : CBlock) (pindexNew : option CBlockIndex)
    (height excludeHeight : Z) (tracker : CCooldownTracker) (mikId : Address) : option (result VdfError unit) :=
  let window := mikWindowCapWindow p in
  let cap := mikWindowCapFloor p in
  if (window >? 0) && (cap >? 0) && (height >? 0) then
    if GetActiveMinersExcludingHeight tracker height excludeHeight >? 1 then
      prevBlockTime ← match pindexNew ≫= pprev with
                      | Some q => bq ← st !! q; Some (nTime bq)
                      | None => Some 0
                      end;
      if (livenessTimeoutSec p >? 0) && (prevBlockTime >? 0) &&
         (hnTime (block_header block) - prevBlockTime >=? livenessTimeoutSec p) then Some (Ok tt)
      else
        let count := GetBlockCountInWindow tracker mikId (height - 1) window in
        Some (if count >=? cap then Err (WindowCapExceeded count) else Ok tt)
    else Some (Ok tt)
  else Some (Ok tt).

Definition CheckVDFReplacementPreflight (st : index_store) (block : CBlock)
    (pindexNew pindexTip : option CBlockIndex) (db : option (uint256 -> option CBlock)) (height : Z)
    (tracker : CCooldownTracker) : option (result VdfError unit * CCooldownTracker) :=
  if negb (IsVDFBlock (block_header block)) then Some (Ok tt, tracker)
  else match g_chainParams with
  | None => Some (Ok tt, tracker)
  | Some p =>
      let excludeHeight := match pindexTip with Some b => nHeight b | None => -1 end in
      match ExtractCoinbaseMIKIdentity block with
      | None => Some (Err NoMikIdentity, tracker)
      | Some mikId =>
          let '(cooling, tracker) :=
            if height >=? dfmpCooldownConsensusHeight p
            then IsInCooldownExcludingHeight tracker mikId height (hnTime (block_header block)) excludeHeight
            else (false, tracker) in
          if cooling then Some (Err InCooldown, tracker)
          else
            c ← (if height >=? consecutiveMinerCheckHeight p
                 then preflight_consecutive st block pindexNew db height excludeHeight tracker mikId
                 else Some (Ok tt));
            match c with
            | Err e => Some (Err e, tracker)
            | Ok _ =>
                r ← preflight_cap st p block pindexNew height excludeHeight tracker mikId;
                Some (r, tracker)
            end
      end
  end.

End Vdf.

(** ** The proof in the coinbase: round trip *)

(** The tag does not occur in [s]. *)
Fixpoint no_tag (s : list Z) : Prop :=
  match s with
  | [] => True
  | _ :: s' => take 4 s <> VDF_TAG /\ no_tag s'
  end.

Lemma tag_not_across x s rest : take 4 (x :: s) <> VDF_TAG -> take 4 ((x :: s) ++ VDF_TAG ++ rest) <> VDF_TAG.
Proof. unfold VDF_TAG. intros H. destruct s as [|a [|b [|c s]]]; cbn in *; [intros [=]..|done]. Qed.

Lemma find_proof_skip s rest : no_tag s -> 2 <= len rest ->
  find_proof (s ++ VDF_TAG ++ rest) = find_proof (VDF_TAG ++ rest).
Proof.
  intros H Hr. induction s as [|x s IH]; [done|]. destruct H as [Hx Hs].
  change ((x :: s) ++ VDF_TAG ++ rest) with (x :: (s ++ VDF_TAG ++ rest)) at 1.
  unfold find_proof at 1; fold find_proof.
  rewrite (proj2 (Z.ltb_ge _ _)) by (unfold len in *; cbn [length]; rewrite !length_app; cbn; lia).
  rewrite bool_decide_eq_false_2; [auto|]. by apply (tag_not_across x s rest).
Qed.

Lemma proof_length_bytes l : 0 <= l < 2 ^ 16 ->
  u16 (Z.lor (Z.land l 0xFF) (Z.shiftl (Z.land (Z.shiftr l 8) 0xFF) 8)) = l.
Proof.
  intros Hl. change 0xFF with (2 ^ 8 - 1). rewrite !land_ones_mod by lia.
  rewrite Z.shiftr_div_pow2, lor_shiftl_disjoint by (lia || apply Z.mod_pos_bound; lia).
  change (2 ^ 8) with 256. change (2 ^ 16) with 65536 in Hl.
  rewrite (Z.mod_small (l / 256)) by (split; [apply Z.div_pos; lia|apply Z.div_lt_upper_bound; lia]).
  rewrite u16_small; pose proof (Z.div_mod l 256 ltac:(lia)); lia.
Qed.

(** a proof embedded in a coinbase script is the one validators extract, as
    long as the script before it does not contain the tag and the proof has
    between 1 and 512 bytes; the header commitment then holds exactly for the
    hash of that proof. *)
Theorem vdf_proof_roundtrip (SHA3_256 : list Z -> uint256) (scriptSig proof : list Z) (expectedHash : uint256)
    (Htag : no_tag scriptSig) (Hlen : 1 <= len proof <= MAX_PROOF_SIZE) :
  ExtractProof (EmbedProof scriptSig proof) = proof /\
  (ValidateProofCommitment SHA3_256 (EmbedProof scriptSig proof) expectedHash = true <-> SHA3_256 proof = expectedHash).
Proof.
  unfold MAX_PROOF_SIZE in Hlen.
  assert (E : ExtractProof (EmbedProof scriptSig proof) = proof).
  { unfold ExtractProof, EmbedProof. rewrite u16_small by lia. set (l := len proof) in *.
    rewrite (proj2 (Z.ltb_ge _ _)) by (unfold len in *; rewrite !length_app; cbn [length VDF_TAG]; lia).
    rewrite find_proof_skip by (done || (unfold len; rewrite length_app; cbn; lia)).
    unfold VDF_TAG. cbn [app]. unfold find_proof; fold find_proof. cbn iota beta.
    rewrite (proj2 (Z.ltb_ge _ _)) by (unfold len in *; cbn [length]; lia).
    rewrite bool_decide_eq_true_2 by reflexivity. cbn [byte_at nth].
    rewrite proof_length_bytes by lia. unfold MAX_PROOF_SIZE.
    rewrite (proj2 (Z.eqb_neq l 0)), !Z.gtb_ltb, (proj2 (Z.ltb_ge 512 l)) by lia. cbn [orb].
    rewrite (proj2 (Z.ltb_ge _ _)) by (unfold len in *; cbn [length]; lia).
    unfold slice. cbn [drop]. apply take_ge. unfold l, len. lia. }
  split; [done|]. unfold ValidateProofCommitment. rewrite E, bool_decide_eq_false_2.
  - unfold ComputeProofHash. apply bool_decide_eq_true.
  - intros ->. unfold len in Hlen. cbn in Hlen. lia.
Qed.

Lemma vdf_proof_roundtrip_witness :
  ExtractProof (EmbedProof [1; 0x56; 0x44; 0x46] [7; 8; 9]) = [7; 8; 9].
Proof.
  apply (vdf_proof_roundtrip (fun _ => zero256) [1; 0x56; 0x44; 0x46] [7; 8; 9] zero256).
  - cbn. repeat split; discriminate.
  - vm_compute. split; discriminate.
Defined.

(** ** The proof check *)

(** A VDF block passes the proof check exactly when its header carries a
    non-zero output and commitment, its body decodes to transactions whose first
    is a coinbase with a proof that hashes to the commitment and pays a 20-byte
    address from an output script of at least 25 bytes, and the Wesolowski
    verifier accepts that proof and the header's output for the challenge
    derived from the previous block, the height and that address, at the chain's
    iteration count. *)
Theorem CheckVDFProof_iff (SHA3_256 : list Z -> uint256) (vdf_verify : list Z -> uint256 -> list Z -> Z -> bool)
    (block : CBlock) (height : Z) (prevHash : uint256) (vdfIterations : Z) :
  CheckVDFProof SHA3_256 vdf_verify block height prevHash vdfIterations = Ok tt <->
  VDF_VERSION <= nVersion (block_header block) /\
  IsNull (vdfOutput (block_header block)) = false /\ IsNull (vdfProofHash (block_header block)) = false /\
  exists coinbase txs txin out outs proof,
    DeserializeBlockTransactions (vtx block) = Ok (coinbase :: txs) /\
    vin coinbase = [txin] /\ OutPoint_IsNull (prevout txin) = true /\
    vout coinbase = out :: outs /\ 25 <= len (scriptPubKey out) /\
    ExtractProof (scriptSig txin) = proof /\ proof <> [] /\
    SHA3_256 proof = vdfProofHash (block_header block) /\
    vdf_verify (SHA3_256 (prevHash ++ le_bytes 4 (u32 height) ++ slice (scriptPubKey out) 3 20))
      (vdfOutput (block_header block)) proof vdfIterations = true.
Proof.
  unfold CheckVDFProof, ExtractCoinbaseAddress, block_coinbase, ComputeProofHash, ComputeVDFChallenge. split.
  - intros H. guards H. zprop.
    destruct (DeserializeBlockTransactions (vtx block)) as [[|coinbase txs]|] eqn:Ed; try done.
    guards H. zprop. destruct (vtx block) as [|b0 l] eqn:Ev; [done|].
    rewrite G2 in H. cbn [negb] in H. unfold IsCoinBase in G2.
    destruct (vin coinbase) as [|txin [|]] eqn:Evin; try done.
    destruct (vout coinbase) as [|out outs] eqn:Eo; [done|].
    destruct (Z.ltb_spec (len (scriptPubKey out)) 25); [done|]. guards H. zprop.
    apply bool_decide_eq_false in G3, G4. apply Z.geb_le in G. split; [lia|]. split; [done|]. split; [done|].
    exists coinbase, txs, txin, out, outs, (ExtractProof (scriptSig txin)). split_and!; try done.
    by apply dec_stable.
  - intros (Hv & Ho & Hp & coinbase & txs & txin & out & outs & proof & Ed & Evin & Hn & Eo & Hl & Ep & Hne & Hh & Hver).
    unfold IsVDFBlock. rewrite (proj2 (Z.geb_le _ _)) by lia. cbn [negb]. rewrite Ho, Hp, Ed.
    assert (Hcb : IsCoinBase coinbase = true) by (unfold IsCoinBase; by rewrite Evin).
    rewrite Hcb, Evin, Ep. cbn [negb]. rewrite bool_decide_eq_false_2 by done.
    rewrite bool_decide_eq_false_2 by (intros Hx; by apply Hx).
    destruct (vtx block) as [|b0 l] eqn:Ev; [cbn in Ed; done|].
    rewrite Hcb, Eo. cbn [negb].
    rewrite (proj2 (Z.ltb_ge _ 25)) by done. by rewrite Hver.
Qed.

(** ** Preflight and connection agree *)

(** Blocks at a disconnected height do not count below it. *)
Lemma window_count_disconnect t h w a win : m_heightToWinner t !! h = Some w ->
  GetBlockCountInWindow (Cooldown_OnBlockDisconnected t h) a (h - 1) win = GetBlockCountInWindow t a (h - 1) win.
Proof.
  intros Hw. destruct (disconnect_window t h w Hw) as (_ & D2 & _).
  destruct (exclude_win_frame t h w) as (_ & F2 & _).
  unfold GetBlockCountInWindow. rewrite D2, F2. set (lo := Z.max 0 (h - 1 - win + 1)).
  unfold len. rewrite <- !(length_fmap fst). apply (len_same_elements
    (filter (fun e => e.2 = a) (in_range (delete h (m_heightToWinner t)) lo (h - 1))).*1
    (filter (fun e => e.2 = a) (in_range (m_heightToWinner t) lo (h - 1))).*1).
  - eapply sublist_NoDup; [apply (map_ordered_NoDup (delete h (m_heightToWinner t)))|].
    apply fmap_sublist. unfold in_range. etransitivity; apply sublist_filter.
  - eapply sublist_NoDup; [apply (map_ordered_NoDup (m_heightToWinner t))|].
    apply fmap_sublist. unfold in_range. etransitivity; apply sublist_filter.
  - intros k. rewrite !list_elem_of_fmap. split; intros ([k' b] & -> & [Ha Hin]%list_elem_of_filter);
      exists (k', b); (split; [done|]); apply list_elem_of_filter; (split; [done|]);
      apply in_range_elem in Hin as [Hr Hl]; apply in_range_elem; (split; [done|]).
    + by apply lookup_delete_Some in Hl as [_ Hl].
    + rewrite lookup_delete_ne by (cbn in *; lia). done.
Qed.

(** Parent's time, as the connection reads it. *)
Definition prev_time (st : index_store) (pindex : CBlockIndex) : option Z :=
  match pprev pindex with Some q => bq ← st !! q; Some (nTime bq) | None => Some 0 end.

Section Preflight.
  Variable SHA3_256 : list Z -> uint256.
  Variable p : ChainParams.

(** The cap check ignores the extra test that the block's time is positive. *)
Lemma liveness_escape a prevT blkT : 0 <= blkT -> 0 < a -> 0 < prevT ->
  (blkT >? 0) && (blkT - prevT >=? a) = (blkT - prevT >=? a).
Proof.
  intros H1 H2 H3. rewrite Z.gtb_ltb, Z.geb_leb. destruct (Z.ltb_spec 0 blkT); [done|].
  cbn. symmetry. apply Z.leb_gt. lia.
Qed.

Lemma cap_agrees st block pindex h t t2 w mik prevT :
  IsVDFBlock (block_header block) = true -> 0 < h -> 0 <= hnTime (block_header block) ->
  m_heightToWinner t !! h = Some w -> ExtractCoinbaseMIKIdentity SHA3_256 block = Some mik ->
  prev_time st pindex = Some prevT ->
  GetActiveMiners t2 = GetActiveMinersExcludingHeight t h h ->
  (forall win, GetBlockCountInWindow t2 mik (h - 1) win = GetBlockCountInWindow t mik (h - 1) win) ->
  preflight_cap st p block (Some pindex) h h t mik = Some (Ok tt) ->
  CheckMIKWindowCap SHA3_256 (Some p) block h t2 prevT (hnTime (block_header block)) = Ok tt.
Proof.
  intros HV Hh Ht Hw Hmik Hprev Hact Hcount H. unfold CheckMIKWindowCap, preflight_cap in *.
  change (Some pindex ≫= pprev) with (pprev pindex) in H. fold (prev_time st pindex) in H.
  rewrite HV, Hmik, Hact, Hcount. rewrite (proj2 (Z.eqb_neq h 0)) by lia. cbn [negb].
  rewrite !Z.gtb_ltb in *. rewrite (proj2 (Z.ltb_lt 0 h)) in H by lia. rewrite andb_true_r in H.
  destruct (Z.leb_spec (mikWindowCapWindow p) 0); [done|]. destruct (Z.leb_spec (mikWindowCapFloor p) 0); [done|].
  rewrite (proj2 (Z.ltb_lt 0 (mikWindowCapWindow p))), (proj2 (Z.ltb_lt 0 (mikWindowCapFloor p))) in H by lia.
  cbn [orb andb] in H |- *. destruct (Z.leb_spec (GetActiveMinersExcludingHeight t h h) 1); [done|].
  rewrite (proj2 (Z.ltb_lt 1 _)), Hprev in H by lia. cbn [mbind option_bind] in H. rewrite ?Z.gtb_ltb in H.
  destruct (Z.ltb_spec 0 (livenessTimeoutSec p)), (Z.ltb_spec 0 prevT); cbn [andb] in *.
  - rewrite <- (Z.gtb_ltb (hnTime (block_header block)) 0), liveness_escape by lia.
    repeat case_match; done.
  - repeat case_match; done.
  - repeat case_match; done.
  - repeat case_match; done.
Qed.

Lemma consecutive_agrees st block pindex db h t t1 mik :
  IsVDFBlock (block_header block) = true -> nHeight pindex = h ->
  ExtractCoinbaseMIKIdentity SHA3_256 block = Some mik ->
  snd (IsInCooldown t1 mik h 0) = t1 ->
  GetActiveMiners t1 = GetActiveMinersExcludingHeight t h h ->
  h < soloExemptionLifetimeGateHeight p \/ GetLifetimeMinerCount t1 <= kBootstrapMinerThreshold \/ 2 <= GetActiveMiners t1 ->
  preflight_consecutive SHA3_256 (Some p) st block (Some pindex) db h h t mik = Some (Ok tt) ->
  CheckConsecutiveMiner SHA3_256 (Some p) st block pindex db t1 = Some (Ok tt, t1).
Proof.
  intros HV Hh Hmik Hsnd Hact Hsolo H. unfold CheckConsecutiveMiner, preflight_consecutive in *.
  rewrite HV, Hmik, Hh, Hsnd. cbn [gp negb]. destruct (h <? consecutiveMinerCheckHeight p); [done|].
  change (Some pindex ≫= pprev) with (pprev pindex) in H. rewrite <- Hact in H.
  destruct (Z.leb_spec (GetActiveMiners t1) 1) as [Hle|Hgt]; cbn [andb].
  - replace ((h <? soloExemptionLifetimeGateHeight p) || (GetLifetimeMinerCount t1 <=? kBootstrapMinerThreshold)) with true; [done|].
    symmetry. apply orb_true_iff. destruct Hsolo as [?|[?|?]]; [left; by apply Z.ltb_lt|right; by apply Z.leb_le|lia].
  - rewrite Z.gtb_ltb, (proj2 (Z.ltb_lt 1 _)) in H by lia.
    destruct (consecutive_run SHA3_256 3 st db mik (pprev pindex)) as [c|]; [|done]. cbn [mbind option_bind] in *.
    destruct (c >=? MAX_CONSECUTIVE_SAME_MINER); [|done].
    destruct (stall_exempt (Some p) st block (pprev pindex) h) as [[]|]; cbn in *; done.
Qed.

End Preflight.

(** C24: the preflight that lets a rival block replace the tip at its height is
    as strict as connecting the rival: when it passes (with the cooldown and
    consecutive-miner rules active, and outside the solo case above the lifetime
    gate), then after the tip is disconnected the cooldown, consecutive-miner
    and window-cap checks, run in the order of connection with the tracker they
    leave each other, all accept the rival. *)
Theorem preflight_predicts_connection (SHA3_256 : list Z -> uint256) (p : ChainParams) (st : index_store)
    (block : CBlock) (pindexNew pindexTip : CBlockIndex) (db : option (uint256 -> option CBlock))
    (tracker tracker' : CCooldownTracker) (height prevT : Z) (winner : Address)
    (HV : IsVDFBlock (block_header block) = true) (Hheight : 0 < height)
    (Htime : 0 <= hnTime (block_header block))
    (Hnew : nHeight pindexNew = height) (Htip : nHeight pindexTip = height)
    (Hwinner : m_heightToWinner tracker !! height = Some winner)
    (Hcool : dfmpCooldownConsensusHeight p <= height) (Hcons : consecutiveMinerCheckHeight p <= height)
    (Hprev : prev_time st pindexNew = Some prevT)
    (Hsolo : height < soloExemptionLifetimeGateHeight p \/
             GetLifetimeMinerCount (Cooldown_OnBlockDisconnected tracker height) <= kBootstrapMinerThreshold \/
             2 <= GetActiveMinersExcludingHeight tracker height height)
    (Hpre : CheckVDFReplacementPreflight SHA3_256 (Some p) st block (Some pindexNew) (Some pindexTip) db height tracker
            = Some (Ok tt, tracker')) :
  exists t1, CheckVDFCooldown SHA3_256 (Some p) block height (Cooldown_OnBlockDisconnected tracker height)
               (hnTime (block_header block)) = (Ok tt, t1) /\
    CheckConsecutiveMiner SHA3_256 (Some p) st block pindexNew db t1 = Some (Ok tt, t1) /\
    CheckMIKWindowCap SHA3_256 (Some p) block height t1 prevT (hnTime (block_header block)) = Ok tt.
Proof.
  set (t' := Cooldown_OnBlockDisconnected tracker height) in *.
  destruct (disconnect_window tracker height winner Hwinner) as (_ & _ & _ & _ & D5 & _). fold t' in D5.
  unfold CheckVDFReplacementPreflight in Hpre. rewrite HV in Hpre. cbn [negb] in Hpre. rewrite Htip in Hpre.
  destruct (ExtractCoinbaseMIKIdentity SHA3_256 block) as [mik|] eqn:Hmik; [|done].
  rewrite (proj2 (Z.geb_le _ _)) in Hpre by lia.
  destruct (cooldown_preflight_lemma tracker mik winner height (hnTime (block_header block)) height
              ltac:(lia) ltac:(lia) Hwinner) as [P1 P2]. fold t' in P1, P2. rewrite P1 in Hpre.
  destruct (fst (IsInCooldown t' mik height (hnTime (block_header block)))) eqn:Ecd; [done|].
  rewrite (proj2 (Z.geb_le _ _)) in Hpre by lia.
  destruct (preflight_consecutive _ _ _ _ _ _ _ _ _ _) as [[[]|]|] eqn:Ec; try done. cbn [mbind option_bind] in Hpre.
  destruct (preflight_cap _ _ _ _ _ _ _ _) as [[[]|]|] eqn:Ek; try done.
  exists (snd (GetEffectiveCooldown t' height)).
  destruct (effective_frame t' height) as (n & sn & sh & Ef & En). specialize (En ltac:(lia)).
  destruct (IsInCooldown_filled t' height mik (hnTime (block_header block))) as [I1 I2].
  destruct (IsInCooldown_filled t' height mik 0) as [_ I3].
  unfold GetEffectiveCooldown. set (t1 := snd (ComputeEffectiveCooldownUnlocked t' height)) in *.
  assert (Hact : GetActiveMiners t1 = GetActiveMinersExcludingHeight tracker height height).
  { rewrite P2. unfold GetActiveMiners, RecalcActiveMiners. rewrite D5, (proj2 (Z.eqb_neq (-1) height)), Ef by lia.
    cbn. exact En. }
  split; [|split].
  - unfold CheckVDFCooldown. cbn [gp]. rewrite (proj2 (Z.ltb_ge _ _)), HV, (proj2 (Z.eqb_neq height 0)), Hmik by lia.
    cbn [negb]. unfold GetEffectiveCooldown. fold t1.
    destruct (IsInCooldown t1 mik height (hnTime (block_header block))) as [c t2]. cbn [fst snd] in *.
    rewrite Ecd in I1. by rewrite I1, I2.
  - apply (consecutive_agrees SHA3_256 p st block pindexNew db height tracker t1 mik); try done.
    rewrite Hact. replace (GetLifetimeMinerCount t1) with (GetLifetimeMinerCount t') by (by rewrite Ef). done.
  - apply (cap_agrees SHA3_256 p st block pindexNew height tracker t1 winner mik); try done.
    intros win. rewrite Ef. change (GetBlockCountInWindow (set_caches t' n height sn sh) mik (height - 1) win)
      with (GetBlockCountInWindow t' mik (height - 1) win). by apply (window_count_disconnect tracker height winner).
Qed.

(** ** Concrete blocks *)

(** A VDF block paying the address [replicate 20 a]; without identity data the
    payout address stands for the miner. *)
Definition toy_spk (a : Z) : list Z := [0x76; 0xa9; 0x14] ++ replicate 20 a ++ [0x88; 0xac].
Definition toy_vdf_block (a time : Z) : CBlock :=
  mkBlock (mkHeader 4 zero256 zero256 time 0x1f060000 0 zero256 zero256 zero256 false)
    (SerializeBlockTransactions
       [mkTx 1 [mkTxIn (mkOutPoint zero256 (2 ^ 32 - 1)) [1; 9] (2 ^ 32 - 1)] [mkTxOut 5000000000 (toy_spk a)] 0]).
Definition toy_index (h t : Z) (prev : option addr) : CBlockIndex := sample_block h t 0x1f060000 prev None.
Definition toy_miner (a : Z) : Address := replicate 20 a.

Definition dilv_cooldown : CooldownConfig :=
  cooldown_config (vdfCooldownActiveWindow DilV) (vdfCooldownShortWindow DilV) (stabilizationForkHeight DilV) 45
    (timeBasedCooldownExpiryRetiredHeight DilV) (timeDecayCooldownActivationHeight DilV)
    (cooldownTimeDecaySeconds DilV).

Definition toy_tracker : CCooldownTracker :=
  (cooldown_run 0 200 ([], 0) (new_cooldown dilv_cooldown)
     [CConnect (toy_miner 1) 100; CConnect (toy_miner 2) 200; CConnect (toy_miner 3) 300;
      CConnect (toy_miner 4) 400; CConnect (toy_miner 5) 500]).2.
Definition toy_store : index_store := {[ sample_addr 3 := toy_index 3 400 None ]}.

Lemma preflight_predicts_connection_witness :
  exists t1, CheckVDFCooldown toy_sha3 (Some DilV) (toy_vdf_block 1 510) 4
               (Cooldown_OnBlockDisconnected toy_tracker 4) 510 = (Ok tt, t1) /\
    CheckConsecutiveMiner toy_sha3 (Some DilV) toy_store (toy_vdf_block 1 510)
      (toy_index 4 510 (Some (sample_addr 3))) (Some (fun _ => None)) t1 = Some (Ok tt, t1) /\
    CheckMIKWindowCap toy_sha3 (Some DilV) (toy_vdf_block 1 510) 4 t1 400 510 = Ok tt.
Proof.
  apply (preflight_predicts_connection toy_sha3 DilV toy_store (toy_vdf_block 1 510)
    (toy_index 4 510 (Some (sample_addr 3))) (toy_index 4 500 (Some (sample_addr 3)))
    (Some (fun _ => None)) toy_tracker toy_tracker 4 400 (toy_miner 5)).
  all: try (vm_compute; reflexivity).
  all: try (vm_compute; discriminate).
  left. vm_compute. reflexivity.
Defined.

(** ** Observations *)

(** Above the lifetime gate the preflight still exempts a window with a single
    active miner, which the connection check no longer does: a rival passes the
    preflight and fails to connect. *)
Example preflight_misses_lifetime_gate :
  let c := cooldown_config 6 0 0 45 44233 44250 60 in
  let tracker := (cooldown_run 44300 6 ([], 44300) (new_cooldown c)
     ((fun i => CConnect (toy_miner i) 100) <$> ([1; 2; 3; 4; 5; 6; 7] ++ replicate 9 9))).2 in
  let height := 44315 in
  let st : index_store :=
    {[ sample_addr 1 := toy_index 44312 100 None;
       sample_addr 2 := toy_index 44313 100 (Some (sample_addr 1));
       sample_addr 3 := toy_index 44314 100 (Some (sample_addr 2)) ]} in
  let rival := toy_vdf_block 9 200000 in
  let pindexNew := toy_index height 200000 (Some (sample_addr 3)) in
  let db := Some (fun _ : uint256 => Some (toy_vdf_block 9 100)) in
  (fst <$> CheckVDFReplacementPreflight toy_sha3 (Some DilV) st rival (Some pindexNew)
             (Some (toy_index height 100 (Some (sample_addr 3)))) db height tracker) = Some (Ok tt) /\
  (fst <$> CheckConsecutiveMiner toy_sha3 (Some DilV) st rival pindexNew db
             (Cooldown_OnBlockDisconnected tracker height)) = Some (Err (ConsecutiveLimit 4)).
Proof. vm_compute. done. Qed.

(** The cap is meant for 480 blocks, but the tracker forgets wins older than its
    active window of 200: a miner with 48 of the last 480 blocks, twice the cap,
    is counted with 20 and accepted. *)
Definition busy_wins : list (Address * Z) :=
  (fun i => (toy_miner (if Z.of_nat i mod 10 =? 0 then 9 else Z.of_nat i mod 10), 100)) <$> seq 0 480.

Example cap_counts_active_window_only :
  let tracker := (cooldown_run 0 200 ([], 0) (new_cooldown dilv_cooldown)
                    ((fun e => CConnect e.1 e.2) <$> busy_wins)).2 in
  len (filter (fun e => e.1 = toy_miner 1) busy_wins) = 48 /\
  GetBlockCountInWindow tracker (toy_miner 1) 479 (mikWindowCapWindow DilV) = 20 /\
  CheckMIKWindowCap toy_sha3 (Some DilV) (toy_vdf_block 1 101) 480 tracker 100 101 = Ok tt.
Proof.
  set (r := cooldown_run 0 200 ([], 0) (new_cooldown dilv_cooldown) ((fun e => CConnect e.1 e.2) <$> busy_wins)).
  assert (HR : cooldown_rep 0 200 r.1 r.2).
  { apply cooldown_run_rep; [lia|lia| |apply (new_cooldown_rep 0 dilv_cooldown)].
    apply Forall_fmap, Forall_fmap, Forall_forall. intros i _. cbn. lia. }
  assert (E : r.1 = (busy_wins, 280)).
  { unfold r. rewrite connects_low. vm_compute. reflexivity. }
  assert (Hc : GetBlockCountInWindow r.2 (toy_miner 1) 479 480 = 20).
  { rewrite (window_count_ok 0 200 r.1 r.2 (toy_miner 1) 479 480 HR ltac:(lia)), E. vm_compute. reflexivity. }
  cbv zeta. clearbody r. split; [vm_compute; reflexivity|]. split; [exact Hc|].
  unfold CheckMIKWindowCap. replace (ExtractCoinbaseMIKIdentity toy_sha3 (toy_vdf_block 1 101)) with (Some (toy_miner 1))
    by (vm_compute; reflexivity).
  change (480 - 1) with 479. change (mikWindowCapWindow DilV) with 480. rewrite Hc.
  destruct (GetActiveMiners r.2 <=? 1); vm_compute; reflexivity.
Qed.

(** The query meant to refresh the count returns early for a miner without a
    recorded win, so a newcomer is judged on a stale count. *)
Example newcomer_sees_stale_count :
  let t := (cooldown_run 0 200 ([], 0) (new_cooldown dilv_cooldown) [CConnect (toy_miner 1) 100]).2 in
  let t := Cooldown_OnBlockConnected (snd (IsInCooldown t (toy_miner 1) 1 200)) 1 (toy_miner 2) 200 in
  GetActiveMiners (snd (IsInCooldown t (toy_miner 1) 2 0)) = 2 /\
  GetActiveMiners (snd (IsInCooldown t (toy_miner 3) 2 0)) = 1.
Proof. vm_compute. done. Qed.
