(* ===== verification/BlockValidation.v ===== *)
(** * Block validation (consensus/validation.cpp, node/block_processing.cpp)

    [CBlockValidator]: the header check, the coinbase check with the mining
    contribution, the duplicate and double-spend checks, the fee total and
    [CheckBlock], which runs them in order with the fair-mining proof of work
    and the VDF proof; and the coinbase admission step of block processing.
    The chain parameters come from the environment of the proof-of-work check;
    the hashes, the signature scheme and the VDF verifier are variables. *)

From S2P Require Import Prelude Uint256 ChainParams Block Transaction Fees BlockTxs UtxoStore UtxoBlock.
From S2P Require Import TxValidation Dfmp Mik IdentityDb DfmpPow VdfValidation.

Inductive BlockError : Type :=
| PowInvalid | BlockVersion
| CbNotCoinbase | CbInputCount | CbPrevout | CbScriptSigSize | CbNoOutputs
| CbMaxOverflow | CbOutputOverflow | CbExceeds
| CbTooFewOutputs | DevFundInsufficient | DevRewardInsufficient | MissingDevFund | MissingDevReward
| DuplicateTxid | DoubleSpendInBlock | MerkleMismatch
| FeeInputMissing | FeeInputOverflow | FeeOutputOverflow | FeeNegative | FeeTotalOverflow
| BlockTooLarge | BlockEmpty | BodyError (e : BlockTxError) | BodyEmpty | DfmpRejected
| VdfRejected (e : VdfError) | FirstTxNotCoinbase | MultipleCoinbase
| CoinbaseInvalid (e : TxError) | TxInvalid (i : Z) (e : TxError) | TxInputsInvalid (i : Z) (e : TxError)
| TxFeeNegative (i : Z) | CoinbaseValueOverflow | CoinbaseValueExceeds.

(** ** Mining contribution (consensus/params.h) *)

Definition MINING_TAX_PERCENT : Z := 2.
Definition DEV_FUND_SHARE : Z := 50.
Definition DEV_FUND_PUBKEY_HASH : list Z :=
  [0x96; 0x85; 0x9a; 0x6f; 0x0b; 0xf2; 0x80; 0xb9; 0x5e; 0x36;
   0xbb; 0xe6; 0xaf; 0x01; 0x02; 0x5f; 0x9e; 0xd4; 0x5f; 0xce].
Definition DEV_REWARD_PUBKEY_HASH : list Z :=
  [0xe2; 0x7c; 0x4c; 0x3f; 0xd6; 0x4a; 0x06; 0xc9; 0x6a; 0x11;
   0x85; 0xa3; 0xcc; 0xc2; 0x0c; 0xc6; 0x96; 0x93; 0xa1; 0xd5].

Definition MAX_BLOCK_VERSION : Z := 4.

(** The pubkey hash of a P2PKH script, empty for any other script. *)
Definition extractPubKeyHash (script : list Z) : list Z :=
  if (len script =? 25) && (byte_at script 0 =? 0x76) && (byte_at script 1 =? 0xa9) &&
     (byte_at script 2 =? 0x14) && (byte_at script 23 =? 0x88) && (byte_at script 24 =? 0xac)
  then slice script 3 20 else [].

(** The required contributions at a subsidy, in [uint64_t]. *)
Definition tax_total (nSubsidy : Z) : Z := u64 (nSubsidy * MINING_TAX_PERCENT) / 100.
Definition required_dev_fund (nSubsidy : Z) : Z := u64 (tax_total nSubsidy * DEV_FUND_SHARE) / 100.
Definition required_dev_reward (nSubsidy : Z) : Z := u64 (tax_total nSubsidy - required_dev_fund nSubsidy).

(** The scan for the two outputs; the casts to [CAmount] and the comparison in
    [uint64_t] keep the value. *)
Fixpoint scan_dev_outputs (requiredDevFund requiredDevReward : Z) (foundDevFund foundDevReward : bool)
    (outs : list CTxOut) : result BlockError (bool * bool) :=
  match outs with
  | [] => Ok (foundDevFund, foundDevReward)
  | out :: outs' =>
      let scriptHash := extractPubKeyHash (scriptPubKey out) in
      if negb (len scriptHash =? 20) then
        scan_dev_outputs requiredDevFund requiredDevReward foundDevFund foundDevReward outs'
      else
        let isFund := bool_decide (scriptHash = DEV_FUND_PUBKEY_HASH) in
        let isReward := bool_decide (scriptHash = DEV_REWARD_PUBKEY_HASH) in
        reject isFund && (nValue out <? u64 (i64 requiredDevFund)) with DevFundInsufficient;
        reject isReward && (nValue out <? u64 (i64 requiredDevReward)) with DevRewardInsufficient;
        scan_dev_outputs requiredDevFund requiredDevReward (isFund || foundDevFund) (isReward || foundDevReward) outs'
  end.

(** The coinbase value, summed in [uint64_t] with a wrap check. *)
Fixpoint coinbase_sum (nCoinbaseValue : Z) (outs : list CTxOut) : option Z :=
  match outs with
  | [] => Some nCoinbaseValue
  | output :: outs' =>
      let sum := u64 (nCoinbaseValue + nValue output) in
      if sum <? nCoinbaseValue then None else coinbase_sum sum outs'
  end.

Section Validator.
  Variable SHA3_256 : list Z -> uint256.
  Variable randomx_hash_fast : list Z -> uint256.
  Variable g_chainParams : option ChainParams.

(** [CheckBlockHeader]; the header is returned with its hash cache. *)
Definition CheckBlockHeader (h : CBlockHeader) (nBits : Z) : result BlockError unit * CBlockHeader :=
  let '(powOk, h) :=
    if IsVDFBlock h then (true, h)
    else let '(hash, h) := GetHash SHA3_256 randomx_hash_fast h in (CheckProofOfWork hash nBits, h) in
  (reject negb powOk with PowInvalid;
   reject (nVersion h <? 1) || (nVersion h >? MAX_BLOCK_VERSION) with BlockVersion;
   Ok tt, h).

(** The contribution of a coinbase, skipped on the test network. *)
Definition check_mining_tax (coinbase : CTransaction) (nHeight : Z) : result BlockError unit :=
  if match g_chainParams with Some p => IsTestnet p | None => false end then Ok tt
  else
    let nSubsidy := CalculateBlockSubsidy g_chainParams nHeight in
    reject len (vout coinbase) <? 3 with CbTooFewOutputs;
    match scan_dev_outputs (required_dev_fund nSubsidy) (required_dev_reward nSubsidy) false false (vout coinbase) with
    | Err e => Err e
    | Ok (foundDevFund, foundDevReward) =>
        reject negb foundDevFund with MissingDevFund;
        reject negb foundDevReward with MissingDevReward;
        Ok tt
    end.

Definition coinbase_shape (coinbase : CTransaction) : result BlockError unit :=
  reject negb (IsCoinBase coinbase) with CbNotCoinbase;
  match vin coinbase with
  | [txin] =>
      reject negb (OutPoint_IsNull (prevout txin)) with CbPrevout;
      reject (len (scriptSig txin) <? 2) || (len (scriptSig txin) >? 20000) with CbScriptSigSize;
      reject bool_decide (vout coinbase = []) with CbNoOutputs;
      Ok tt
  | _ => Err CbInputCount
  end.

(** [totalFees] is a [CAmount]. *)
Definition CheckCoinbase (coinbase : CTransaction) (nHeight totalFees : Z) : result BlockError unit :=
  match coinbase_shape coinbase with
  | Err e => Err e
  | Ok _ =>
      if nHeight =? 0 then Ok tt
      else
        let nSubsidy := CalculateBlockSubsidy g_chainParams nHeight in
        let nMaxValue := if totalFees >? 0 then u64 (nSubsidy + totalFees) else nSubsidy in
        reject (totalFees >? 0) && (nMaxValue <? nSubsidy) with CbMaxOverflow;
        match coinbase_sum 0 (vout coinbase) with
        | None => Err CbOutputOverflow
        | Some nCoinbaseValue =>
            reject nCoinbaseValue >? nMaxValue with CbExceeds;
            check_mining_tax coinbase nHeight
        end
  end.

(** ** Sets of ids and outpoints *)

Fixpoint unique_txids (seenTxIds : gset uint256) (txs : list CTransaction) : bool :=
  match txs with
  | [] => true
  | tx :: txs' =>
      let txid := Tx_GetHash SHA3_256 tx in
      if decide (txid ∈ seenTxIds) then false else unique_txids ({[ txid ]} ∪ seenTxIds) txs'
  end.

Definition CheckNoDuplicateTransactions (txs : list CTransaction) : result BlockError unit :=
  reject negb (unique_txids ∅ txs) with DuplicateTxid; Ok tt.

(** One transaction's inputs; [None] is the double spend. *)
Fixpoint spend_all (spentOutputs : gset COutPoint) (ins : list CTxIn) : option (gset COutPoint) :=
  match ins with
  | [] => Some spentOutputs
  | txin :: ins' =>
      if decide (prevout txin ∈ spentOutputs) then None
      else spend_all ({[ prevout txin ]} ∪ spentOutputs) ins'
  end.

Fixpoint no_double_spends (skipCoinbase : bool) (spentOutputs : gset COutPoint) (txs : list CTransaction) : bool :=
  match txs with
  | [] => true
  | tx :: txs' =>
      if skipCoinbase && IsCoinBase tx then no_double_spends skipCoinbase spentOutputs txs'
      else match spend_all spentOutputs (vin tx) with
           | None => false
           | Some spent => no_double_spends skipCoinbase spent txs'
           end
  end.

Definition CheckNoDoubleSpends (txs : list CTransaction) : result BlockError unit :=
  reject negb (no_double_spends true ∅ txs) with DoubleSpendInBlock; Ok tt.

Definition VerifyMerkleRoot (block : CBlock) (txs : list CTransaction) : result BlockError unit :=
  reject bool_decide (BuildMerkleRoot SHA3_256 txs <> hashMerkleRoot (block_header block)) with MerkleMismatch; Ok tt.

(** ** Fees *)

Section View.
  Context {S : Type} `{CV : CoinsView S}.

Fixpoint fee_inputs (nInputValue : Z) (ins : list CTxIn) (s : S) : result BlockError Z * S :=
  match ins with
  | [] => (Ok nInputValue, s)
  | input :: ins' =>
      match coins_get s (prevout input) with
      | (None, s') => (Err FeeInputMissing, s')
      | (Some utxoEntry, s') =>
          let sum := u64 (nInputValue + nValue (ue_out utxoEntry)) in
          if sum <? nInputValue then (Err FeeInputOverflow, s') else fee_inputs sum ins' s'
      end
  end.

(** [totalFees] is an [int64_t] and [txFee] a [uint64_t]: the sum and the
    comparison are in [uint64_t]. *)
Fixpoint fee_loop (totalFees : Z) (txs : list CTransaction) (s : S) : result BlockError Z * S :=
  match txs with
  | [] => (Ok totalFees, s)
  | tx :: txs' =>
      match fee_inputs 0 (vin tx) s with
      | (Err e, s') => (Err e, s')
      | (Ok nInputValue, s') =>
          match coinbase_sum 0 (vout tx) with
          | None => (Err FeeOutputOverflow, s')
          | Some nOutputValue =>
              if nOutputValue >? nInputValue then (Err FeeNegative, s')
              else
                let sum := u64 (u64 totalFees + (nInputValue - nOutputValue)) in
                if sum <? u64 totalFees then (Err FeeTotalOverflow, s') else fee_loop (i64 sum) txs' s'
          end
      end
  end.

Definition CalculateTotalFees (txs : list CTransaction) (s : S) : result BlockError Z * S :=
  fee_loop 0 (drop 1 txs) s.

(** The transaction loop of [CheckBlock]. *)
Fixpoint accumulate_fees (nHeight now idx totalFees : Z) (txs : list CTransaction) (s : S) : result BlockError Z * S :=
  match txs with
  | [] => (Ok totalFees, s)
  | tx :: txs' =>
      match CheckTransactionBasic tx with
      | Err e => (Err (TxInvalid idx e), s)
      | Ok _ =>
          match CheckTransactionInputs g_chainParams tx nHeight now s with
          | (Err e, s') => (Err (TxInputsInvalid idx e), s')
          | (Ok txFee, s') =>
              if txFee <? 0 then (Err (TxFeeNegative idx), s')
              else if u64 (totalFees + txFee) <? totalFees then (Err FeeTotalOverflow, s')
              else accumulate_fees nHeight now (idx + 1) (u64 (totalFees + txFee)) txs' s'
          end
      end
  end.
End View.
End Validator.

(** ** CheckBlock *)

Section CheckBlock.
  Context {D : Type} `{LDB : LevelDB D} {S : Type} `{CV : CoinsView S}.
  Variable SHA3_256 : list Z -> uint256.
  Variable randomx_hash_fast : list Z -> uint256.
  Variable dilithium_verify : list Z -> list Z -> list Z -> Z.
  Variable vdf_verify : list Z -> uint256 -> list Z -> Z -> bool.
  Variable env : DfmpEnv D.

(** What the checks on the decoded transactions decide before the coins are
    consulted. *)
Definition check_transaction_list (block : CBlock) (coinbase : CTransaction) (rest : list CTransaction)
  : result BlockError unit :=
  reject negb (IsCoinBase coinbase) with FirstTxNotCoinbase;
  reject existsb IsCoinBase rest with MultipleCoinbase;
  reject negb (unique_txids SHA3_256 ∅ (coinbase :: rest)) with DuplicateTxid;
  reject negb (no_double_spends false ∅ rest) with DoubleSpendInBlock;
  reject bool_decide (BuildMerkleRoot SHA3_256 (coinbase :: rest) <> hashMerkleRoot (block_header block))
    with MerkleMismatch;
  match CheckTransactionBasic coinbase with
  | Err e => Err (CoinbaseInvalid e)
  | Ok _ => Ok tt
  end.

(** The coinbase value against the subsidy and the fees, which add in
    [uint64_t] unchecked. *)
Definition check_coinbase_value (coinbase : CTransaction) (nHeight totalFees : Z) : result BlockError unit :=
  if nHeight =? 0 then Ok tt
  else
    let maxCoinbaseValue := u64 (CalculateBlockSubsidy (env_params env) nHeight + totalFees) in
    match GetValueOut coinbase with
    | None => Err CoinbaseValueOverflow
    | Some coinbaseValue => reject coinbaseValue >? maxCoinbaseValue with CoinbaseValueExceeds; Ok tt
    end.

Definition check_block_txs (block : CBlock) (nHeight now : Z) (coinbase : CTransaction) (rest : list CTransaction)
    (s : S) : result BlockError unit * S :=
  match check_transaction_list block coinbase rest with
  | Err e => (Err e, s)
  | Ok _ =>
      match accumulate_fees (env_params env) nHeight now 1 0 rest s with
      | (Err e, s') => (Err e, s')
      | (Ok totalFees, s') => (check_coinbase_value coinbase nHeight totalFees, s')
      end
  end.

(** The VDF proof of a version-4 block. *)
Definition check_block_vdf (block : CBlock) (nHeight : Z) : result BlockError unit :=
  if IsVDFBlock (block_header block) then
    let vdfIters := match env_params env with Some p => vdfIterations p | None => 0 end in
    match CheckVDFProof SHA3_256 vdf_verify block (i32 nHeight) (hashPrevBlock (block_header block)) vdfIters with
    | Err e => Err (VdfRejected e)
    | Ok _ => Ok tt
    end
  else Ok tt.

(** [None]: the fair-mining check reads the input of a coinbase that has none.
    [now] is the clock of the lock-time check. *)
Definition CheckBlock (block : CBlock) (nHeight now : Z) (s : S)
  : option (result BlockError unit) * S * option (CIdentityDB D) :=
  let idb := env_identityDb env in
  let fail e := (Some (Err e), s, idb) in
  if len (vtx block) >? MAX_BLOCK_SIZE then fail BlockTooLarge
  else if bool_decide (vtx block = []) then fail BlockEmpty
  else
    let '(hdr, h) := CheckBlockHeader SHA3_256 randomx_hash_fast (block_header block) (hnBits (block_header block)) in
    match hdr with
    | Err e => fail e
    | Ok _ =>
        let block := mkBlock h (vtx block) in
        match DeserializeBlockTransactions (vtx block) with
        | Err e => fail (BodyError e)
        | Ok [] => fail BodyEmpty
        | Ok (coinbase :: rest) =>
            let '(blockHash, h) := GetHash SHA3_256 randomx_hash_fast h in
            let block := mkBlock h (vtx block) in
            let dfmpActivation := match env_params env with Some p => dfmpActivationHeight p | None => 0 end in
            match CheckProofOfWorkDFMP SHA3_256 dilithium_verify env block blockHash (hnBits h) (i32 nHeight) dfmpActivation with
            | (None, db) => (None, s, db)
            | (Some false, db) => (Some (Err DfmpRejected), s, db)
            | (Some true, db) =>
                match check_block_vdf block nHeight with
                | Err e => (Some (Err e), s, db)
                | Ok _ => let '(r, s') := check_block_txs block nHeight now coinbase rest s in (Some r, s', db)
                end
            end
        end
    end.

(** ** Coinbase admission in block processing *)

(** The fee loop: a failing transaction makes the total unreliable and the loop
    goes on. *)
Fixpoint admission_fees (nHeight now totalFees : Z) (reliable : bool) (txs : list CTransaction) (s : S)
  : Z * bool * S :=
  match txs with
  | [] => (totalFees, reliable, s)
  | tx :: txs' =>
      match CheckTransactionInputs (env_params env) tx nHeight now s with
      | (Ok txFee, s') =>
          admission_fees nHeight now (if txFee >? 0 then u64 (totalFees + txFee) else totalFees) reliable txs' s'
      | (Err _, s') => admission_fees nHeight now totalFees false txs' s'
      end
  end.

(** [UINT64_MAX / 2] as a [CAmount]. *)
Definition maxFees : Z := (2 ^ 64 - 1) / 2.

(** The verdict of the admission step; without a UTXO set ([None]) the fees of
    a block with more than a coinbase are unknown. *)
Definition coinbase_admission (nHeight now : Z) (coinbase : CTransaction) (rest : list CTransaction)
    (utxo : option S) : result BlockError unit * option S :=
  let height := u32 nHeight in
  let '(totalFees, feeCalcReliable, utxo) :=
    match utxo with
    | Some s =>
        if bool_decide (rest = []) then (0, true, Some s)
        else let '(f, b, s') := admission_fees height now 0 true rest s in (f, b, Some s')
    | None => (0, bool_decide (rest = []), None)
    end in
  (if feeCalcReliable then CheckCoinbase (env_params env) coinbase height (i64 totalFees)
   else match CheckCoinbase (env_params env) coinbase height maxFees with
        | Err CbExceeds => Ok tt
        | r => r
        end, utxo).
End CheckBlock.

(** ** The coinbase check *)

Definition values_ok (outs : list CTxOut) : Prop := Forall (fun o => 0 <= nValue o < 2 ^ 64) outs.

Lemma values_ok_nonneg outs : values_ok outs -> Forall (fun o => 0 <= nValue o) outs.
Proof. intros H. eapply Forall_impl; [exact H|]. cbn. lia. Qed.

Lemma u64_wrap_check a b : 0 <= a < 2 ^ 64 -> 0 <= b < 2 ^ 64 -> (u64 (a + b) <? a) = negb (a + b <? 2 ^ 64).
Proof.
  intros Ha Hb. destruct (Z.ltb_spec (a + b) (2 ^ 64)).
  - rewrite u64_small by lia. apply Z.ltb_ge. lia.
  - cbn [negb]. apply Z.ltb_lt. unfold u64. rewrite <- (Z.mod_unique (a + b) (2 ^ 64) 1 (a + b - 2 ^ 64)); lia.
Qed.

Lemma coinbase_sum_spec outs : values_ok outs -> forall t, 0 <= t < 2 ^ 64 ->
  coinbase_sum t outs = if t + value_sum outs <? 2 ^ 64 then Some (t + value_sum outs) else None.
Proof.
  induction 1 as [|o outs Ho HF IH]; intros t Ht; cbn [coinbase_sum].
  { unfold value_sum. simpl. rewrite Z.add_0_r. by rewrite (proj2 (Z.ltb_lt _ _)) by lia. }
  pose proof (value_sum_nonneg _ (values_ok_nonneg _ HF)). rewrite value_sum_cons, u64_wrap_check by lia.
  destruct (Z.ltb_spec (t + nValue o) (2 ^ 64)); cbn [negb].
  - rewrite u64_small, IH by lia. by rewrite Z.add_assoc.
  - by rewrite (proj2 (Z.ltb_ge _ _)) by lia.
Qed.

(** An output that pays a pubkey hash. *)
Definition pays (hash : list Z) (o : CTxOut) : bool := bool_decide (extractPubKeyHash (scriptPubKey o) = hash).

Definition pays_enough (fund reward : Z) (o : CTxOut) : Prop :=
  (pays DEV_FUND_PUBKEY_HASH o = true -> fund <= nValue o) /\
  (pays DEV_REWARD_PUBKEY_HASH o = true -> reward <= nValue o).

Lemma u64_i64 x : 0 <= x < 2 ^ 64 -> u64 (i64 x) = x.
Proof.
  intros Hx. unfold u64, i64. rewrite Zminus_mod_idemp_l. replace (x + 2 ^ 63 - 2 ^ 63) with x by lia.
  by apply Z.mod_small.
Qed.

Lemma scan_dev_outputs_spec fund reward outs : 0 <= fund < 2 ^ 64 -> 0 <= reward < 2 ^ 64 ->
  forall ff fr ff' fr', scan_dev_outputs fund reward ff fr outs = Ok (ff', fr') <->
  Forall (pays_enough fund reward) outs /\
  ff' = existsb (pays DEV_FUND_PUBKEY_HASH) outs || ff /\
  fr' = existsb (pays DEV_REWARD_PUBKEY_HASH) outs || fr.
Proof.
  intros Hf Hr. induction outs as [|o outs IH]; intros ff fr ff' fr'; cbn [scan_dev_outputs existsb].
  { cbn [orb]. split; [intros [= <- <-]; by split; [constructor|]|intros (_ & -> & ->); done]. }
  rewrite Forall_cons, !u64_i64 by done. unfold pays_enough at 1. fold (pays DEV_FUND_PUBKEY_HASH o) (pays DEV_REWARD_PUBKEY_HASH o).
  assert (forall h, pays h o = true -> length h = 20%nat -> len (extractPubKeyHash (scriptPubKey o)) = 20) as HL.
  { intros h Hp Hh. apply bool_decide_eq_true in Hp. unfold len. by rewrite Hp, Hh. }
  destruct (Z.eqb_spec (len (extractPubKeyHash (scriptPubKey o))) 20) as [E|E]; cbn [negb].
  - destruct (pays DEV_FUND_PUBKEY_HASH o), (pays DEV_REWARD_PUBKEY_HASH o); cbn [andb orb];
      repeat (match goal with |- context [?x <? ?y] => destruct (Z.ltb_spec x y) end);
      rewrite ?IH, ?orb_true_r; first [split; [done|intros ([H1 _] & _); naive_solver lia]|clear IH HL; naive_solver].
  - rewrite IH. assert (pays DEV_FUND_PUBKEY_HASH o = false /\ pays DEV_REWARD_PUBKEY_HASH o = false) as [-> ->].
    { split; apply not_true_is_false; intros Hp; exact (E (HL _ Hp eq_refl)). }
    cbn [orb]. clear IH HL. naive_solver.
Qed.

(** The shape of a coinbase. *)
Definition coinbase_wf (coinbase : CTransaction) : Prop :=
  IsCoinBase coinbase = true /\ vout coinbase <> [] /\
  Forall (fun i => 2 <= len (scriptSig i) <= 20000) (vin coinbase).

Lemma coinbase_shape_iff coinbase : coinbase_shape coinbase = Ok tt <-> coinbase_wf coinbase.
Proof.
  unfold coinbase_shape, coinbase_wf, IsCoinBase.
  destruct (vin coinbase) as [|i [|]] eqn:Ev; cbn [negb]; [naive_solver| |naive_solver].
  rewrite Forall_singleton. destruct (OutPoint_IsNull (prevout i)); cbn [negb]; [|naive_solver].
  rewrite Z.gtb_ltb. destruct (Z.ltb_spec (len (scriptSig i)) 2), (Z.ltb_spec 20000 (len (scriptSig i))); cbn [orb];
    try (split; [done|lia]).
  case_bool_decide; naive_solver lia.
Qed.

(** The contribution rule, off the test network. *)
Definition tax_paid (subsidy : Z) (outs : list CTxOut) : Prop :=
  3 <= len outs /\ Forall (pays_enough (required_dev_fund subsidy) (required_dev_reward subsidy)) outs /\
  existsb (pays DEV_FUND_PUBKEY_HASH) outs = true /\ existsb (pays DEV_REWARD_PUBKEY_HASH) outs = true.

Lemma required_shares s : 0 <= s < 2 ^ 63 ->
  0 <= required_dev_fund s < 2 ^ 64 /\ 0 <= required_dev_reward s < 2 ^ 64 /\
  (s * 50 < 2 ^ 63 -> required_dev_fund s + required_dev_reward s = s * 2 / 100).
Proof.
  intros Hs. unfold required_dev_reward, required_dev_fund, tax_total, MINING_TAX_PERCENT, DEV_FUND_SHARE.
  rewrite (u64_small (s * 2)) by lia. assert (0 <= s * 2 / 100 <= s) as Ht by (Z.to_euclidean_division_equations; lia).
  set (t := s * 2 / 100) in *. pose proof (u64_range (t * 50)) as Hu.
  assert (0 <= u64 (t * 50) / 100 < 2 ^ 64) as Hq by (clear - Hu; Z.to_euclidean_division_equations; lia).
  split_and!; [lia|lia|apply u64_range|apply u64_range|]. intros Hsmall.
  rewrite (u64_small (t * 50)) by lia. assert (0 <= t * 50 / 100 <= t) by (clear - Ht; Z.to_euclidean_division_equations; lia). rewrite u64_small by lia. lia.
Qed.

Lemma check_mining_tax_iff gp coinbase h : 0 <= CalculateBlockSubsidy gp h < 2 ^ 63 ->
  check_mining_tax gp coinbase h = Ok tt <->
  (match gp with Some p => IsTestnet p | None => false end = true \/
   tax_paid (CalculateBlockSubsidy gp h) (vout coinbase)).
Proof.
  intros Hs. unfold check_mining_tax. destruct (match gp with Some p => _ | None => _ end); [naive_solver|].
  destruct (required_shares _ Hs) as (Hf & Hr & _). unfold tax_paid.
  destruct (Z.ltb_spec (len (vout coinbase)) 3); [split; [done|intros [|[]]; [done|lia]]|].
  pose proof (scan_dev_outputs_spec (required_dev_fund (CalculateBlockSubsidy gp h))
    (required_dev_reward (CalculateBlockSubsidy gp h)) (vout coinbase) Hf Hr false false) as HS.
  setoid_rewrite orb_false_r in HS.
  destruct (scan_dev_outputs _ _ _ _ _) as [[ff fr]|e] eqn:ES.
  - destruct (proj1 (HS ff fr) eq_refl) as (H1 & -> & ->).
    destruct (existsb (pays DEV_FUND_PUBKEY_HASH) _), (existsb (pays DEV_REWARD_PUBKEY_HASH) _); naive_solver.
  - split; [done|]. intros [|(_ & H1 & H2 & H3)]; [done|]. by specialize (proj2 (HS _ _) (conj H1 (conj eq_refl eq_refl))).
Qed.

Lemma CheckCoinbase_iff_lemma gp coinbase h fees : values_ok (vout coinbase) ->
  0 <= CalculateBlockSubsidy gp h < 2 ^ 63 -> 0 <= fees < 2 ^ 63 -> h <> 0 ->
  CheckCoinbase gp coinbase h fees = Ok tt <->
  coinbase_wf coinbase /\ value_sum (vout coinbase) <= CalculateBlockSubsidy gp h + fees /\
  (match gp with Some p => IsTestnet p | None => false end = true \/
   tax_paid (CalculateBlockSubsidy gp h) (vout coinbase)).
Proof.
  intros Hv Hs Hf Hh. unfold CheckCoinbase. pose proof (coinbase_shape_iff coinbase) as HW.
  destruct (coinbase_shape coinbase) as [[]|e]; [|split; [done|]; intros [W _]; by apply HW in W].
  rewrite (proj2 (Z.eqb_neq _ _)) by done.
  set (sub := CalculateBlockSubsidy gp h) in *.
  assert ((if fees >? 0 then u64 (sub + fees) else sub) = sub + fees) as ->.
  { rewrite Z.gtb_ltb. destruct (Z.ltb_spec 0 fees); [apply u64_small|]; lia. }
  rewrite (proj2 (Z.ltb_ge (sub + fees) sub)), andb_false_r, coinbase_sum_spec by (done || lia).
  destruct (Z.ltb_spec (0 + value_sum (vout coinbase)) (2 ^ 64)); [|split; [done|]; lia].
  rewrite Z.gtb_ltb. destruct (Z.ltb_spec (sub + fees) (0 + value_sum (vout coinbase))); [split; [done|]; lia|].
  rewrite check_mining_tax_iff by done. fold sub. intuition lia.
Qed.

(** Which coinbases pass: above height 0, with fees and subsidy below 2^63,
    [CheckCoinbase] accepts exactly the coinbases of the right shape whose
    outputs are worth, as an exact sum, no more than subsidy plus fees and
    which, off the test network, have at least three outputs, one to each of
    the two development addresses, none of them below its share; and for
    every subsidy below 2^63/50 the two shares add up to two percent of it. *)
Theorem CheckCoinbase_iff (g_chainParams : option ChainParams) (coinbase : CTransaction) (nHeight totalFees : Z)
    (Hvalues : values_ok (vout coinbase)) (Hsubsidy : 0 <= CalculateBlockSubsidy g_chainParams nHeight < 2 ^ 63)
    (Hfees : 0 <= totalFees < 2 ^ 63) (Hheight : nHeight <> 0) :
  let subsidy := CalculateBlockSubsidy g_chainParams nHeight in
  (CheckCoinbase g_chainParams coinbase nHeight totalFees = Ok tt <->
   coinbase_wf coinbase /\ value_sum (vout coinbase) <= subsidy + totalFees /\
   (match g_chainParams with Some p => IsTestnet p | None => false end = true \/ tax_paid subsidy (vout coinbase))) /\
  (subsidy * 50 < 2 ^ 63 -> required_dev_fund subsidy + required_dev_reward subsidy = subsidy * 2 / 100).
Proof. split; [by apply CheckCoinbase_iff_lemma|by apply required_shares]. Qed.

(** Fees only move the value limit. *)
Lemma CheckCoinbase_fees gp coinbase h f1 f2 : values_ok (vout coinbase) ->
  0 <= CalculateBlockSubsidy gp h < 2 ^ 63 -> 0 <= f1 <= f2 -> f2 < 2 ^ 63 ->
  CheckCoinbase gp coinbase h f1 = CheckCoinbase gp coinbase h f2 \/
  CheckCoinbase gp coinbase h f1 = Err CbExceeds.
Proof.
  intros Hv Hs Hf Hf2. unfold CheckCoinbase.
  destruct (coinbase_shape coinbase) as [[]|e]; [|by left]. destruct (h =? 0); [by left|].
  set (sub := CalculateBlockSubsidy gp h) in *.
  assert (forall f, 0 <= f < 2 ^ 63 -> (if f >? 0 then u64 (sub + f) else sub) = sub + f) as E.
  { intros f Hff. rewrite Z.gtb_ltb. destruct (Z.ltb_spec 0 f); [apply u64_small|]; lia. }
  rewrite !E by lia. rewrite !(proj2 (Z.ltb_ge _ _)), !andb_false_r by lia.
  destruct (coinbase_sum 0 (vout coinbase)) as [v|]; [|by left]. rewrite !Z.gtb_ltb.
  destruct (Z.ltb_spec (sub + f1) v); [by right|]. left. by rewrite (proj2 (Z.ltb_ge _ _)) by lia.
Qed.

(** ** Fees over a ledger *)

Definition tx_fee (gp : option ChainParams) (h now : Z) (m : utxo_map) (tx : CTransaction) : option Z :=
  match fst (CheckTransactionInputs gp tx h now m) with Ok f => Some f | Err _ => None end.

Lemma tx_fee_nonneg gp h now m tx f : Forall op_ok (prevout <$> vin tx) ->
  tx_fee gp h now m tx = Some f -> 0 <= f < 2 ^ 63.
Proof.
  intros HF. unfold tx_fee. destruct (CheckTransactionInputs gp tx h now m) as [[f'|e] m'] eqn:E; [|done].
  intros [= <-]. assert (fst (CheckTransactionInputs gp tx h now m) = Ok f') as E' by by rewrite E.
  destruct (IsCoinBase tx) eqn:Ec.
  - unfold CheckTransactionInputs in E. rewrite Ec in E. injection E as <-. lia.
  - destruct (CheckTransactionInputs_inv _ _ _ _ _ _ HF Ec E') as (_ & t & _ & _ & Ef & Hf & _).
    pose proof (i64_range (t - sum_outputs 0 (vout tx))). lia.
Qed.

Section Admission.
  Context {D : Type} {S : Type} `{CV : CoinsView S}.
  Variable env : DfmpEnv D.

Lemma inputs_step tx h now (s : S) m : coins_rep s m -> Forall op_ok (prevout <$> vin tx) ->
  exists r s', CheckTransactionInputs (env_params env) tx h now s = (r, s') /\ coins_rep s' m /\
    r = fst (CheckTransactionInputs (env_params env) tx h now m).
Proof.
  intros HR HF. destruct (CheckTransactionInputs_agrees (env_params env) tx h now HF s m HR) as (E1 & E2 & _).
  destruct (CheckTransactionInputs (env_params env) tx h now s) as [r s']. by exists r, s'.
Qed.

Lemma admission_fees_spec h now txs m : Forall (fun tx => Forall op_ok (prevout <$> vin tx)) txs ->
  forall t b (s : S), coins_rep s m -> 0 <= t ->
  exists t' b' s', admission_fees env h now t b txs s = (t', b', s') /\ coins_rep s' m /\
    match mapM (tx_fee (env_params env) h now m) txs with
    | Some fs => b' = b /\ Forall (fun f => 0 <= f < 2 ^ 63) fs /\ (t + sum_list fs < 2 ^ 64 -> t' = t + sum_list fs)
    | None => b' = false
    end.
Proof.
  induction 1 as [|tx txs Htx HF IH]; intros t b s HR Ht; cbn [admission_fees].
  { exists t, b, s. cbn. split_and!; [done..|constructor|lia]. }
  destruct (inputs_step tx h now s m HR Htx) as (r & s1 & E & HR1 & Er).  rewrite E.
  cbn [mapM]. pose proof (tx_fee_nonneg (env_params env) h now m tx) as Hfee.
  assert (tx_fee (env_params env) h now m tx = match r with Ok f => Some f | Err _ => None end) as EF by (subst r; done).
  rewrite EF in *. clear Er EF. destruct r as [f|e].
  - specialize (Hfee f Htx eq_refl).
    assert (0 <= (if f >? 0 then u64 (t + f) else t)) as Ht' by (destruct (f >? 0); [apply u64_range|done]).
    destruct (IH _ b s1 HR1 Ht') as (t' & b' & s' & -> & HR' & Hm). exists t', b', s'. split_and!; [done|done|].
    cbn. destruct (mapM (tx_fee (env_params env) h now m) txs) as [fs|]; cbn; [|done].
    destruct Hm as (-> & Hfs & Hsum). split_and!; [done|by constructor|]. intros Hlt.
    assert (0 <= sum_list fs) by (clear - Hfs; induction Hfs; cbn; lia).
    rewrite Z.gtb_ltb in *. destruct (Z.ltb_spec 0 f); [rewrite u64_small in Hsum by lia|]; rewrite Hsum; lia.
  - destruct (IH t false s1 HR1 Ht) as (t' & b' & s' & -> & HR' & Hm). exists t', b', s'.
    split_and!; [done|done|]. cbn. destruct (mapM _ txs); [by destruct Hm as [-> _]|done].
Qed.
End Admission.

(** What an admission verdict says about a coinbase.  When every
    transaction's fee can be computed, admission is [CheckCoinbase] at their
    exact total.  When one cannot (an input is not in the set yet), or there is
    no set, the deferred check is sound and loses nothing but the value rule:
    a rejection would have happened at every possible fee total, with that
    error or with the value error, and an acceptance can only turn into a
    rejection for the value. *)
Theorem coinbase_admission_verdict (D S : Type) (CV : CoinsView S) (env : DfmpEnv D) (nHeight now : Z)
    (coinbase : CTransaction) (rest : list CTransaction) (s : S) (m : utxo_map)
    (Hrep : coins_rep s m) (Hrest : rest <> []) (Hheight : 0 <= nHeight < 2 ^ 32)
    (Hops : Forall (fun tx => Forall op_ok (prevout <$> vin tx)) rest) (Hvalues : values_ok (vout coinbase))
    (Hsubsidy : 0 <= CalculateBlockSubsidy (env_params env) nHeight < 2 ^ 63) :
  let verdict utxo := fst (coinbase_admission env nHeight now coinbase rest utxo) in
  let deferred v := forall f, 0 <= f < 2 ^ 63 ->
    CheckCoinbase (env_params env) coinbase nHeight f = v \/
    CheckCoinbase (env_params env) coinbase nHeight f = Err CbExceeds in
  deferred (verdict None) /\
  match mapM (tx_fee (env_params env) nHeight now m) rest with
  | Some fs => sum_list fs < 2 ^ 63 ->
      verdict (Some s) = CheckCoinbase (env_params env) coinbase nHeight (sum_list fs)
  | None => deferred (verdict (Some s))
  end.
Proof.
  cbn zeta. set (gp := env_params env).
  assert (forall f, 0 <= f < 2 ^ 63 ->
    CheckCoinbase gp coinbase nHeight f =
      match CheckCoinbase gp coinbase nHeight maxFees with Err CbExceeds => Ok tt | r => r end \/
    CheckCoinbase gp coinbase nHeight f = Err CbExceeds) as HD.
  { intros f Hf. assert (maxFees = 2 ^ 63 - 1) as Em by done.
    destruct (CheckCoinbase_fees gp coinbase nHeight f maxFees Hvalues Hsubsidy) as [E|E]; [lia..| |by right]. rewrite E.
    destruct (CheckCoinbase gp coinbase nHeight maxFees) as [[]|[]]; auto. }
  unfold coinbase_admission. fold gp. rewrite u32_small, bool_decide_false by done. split; [exact HD|].
  destruct (admission_fees_spec env nHeight now rest m Hops 0 true s Hrep ltac:(lia)) as (t & b & s' & -> & _ & Hm).
  fold gp in Hm. destruct (mapM _ rest) as [fs|]; [|rewrite Hm; exact HD].
  destruct Hm as (-> & Hfs & Hsum). intros Hlt. rewrite Hsum by lia. cbn [fst].
  assert (0 <= sum_list fs) by (clear - Hfs; induction Hfs; cbn; lia). by rewrite i64_small by lia.
Qed.

(** ** What an accepted block does to the ledger *)

Lemma spend_all_spec ins : forall sp sp', spend_all sp ins = Some sp' ->
  NoDup (prevout <$> ins) /\ (forall k, k ∈ prevout <$> ins -> k ∉ sp) /\
  (forall k, k ∈ sp' <-> k ∈ prevout <$> ins \/ k ∈ sp).
Proof.
  induction ins as [|i ins IH]; intros sp sp'; cbn [spend_all fmap list_fmap].
  { intros [= <-]. split_and!; [constructor|by intros k Hk; inversion Hk|set_solver]. }
  destruct (decide (prevout i ∈ sp)); [done|]. intros (H1 & H2 & H3)%IH. split_and!.
  - constructor; [|done]. intros Hk. apply H2 in Hk. set_solver.
  - intros k [->|Hk]%elem_of_cons; [done|]. apply H2 in Hk. set_solver.
  - intros k. rewrite H3. set_solver.
Qed.

Lemma no_double_spends_spec txs : forall sp, no_double_spends false sp txs = true ->
  NoDup (block_spends false txs) /\ (forall k, k ∈ block_spends false txs -> k ∉ sp).
Proof.
  induction txs as [|tx txs IH]; intros sp; cbn [no_double_spends block_spends andb].
  { intros _. split; [constructor|by intros k Hk; inversion Hk]. }
  destruct (spend_all sp (vin tx)) as [sp'|] eqn:E; [|done]. intros [H1 H2]%IH.
  apply spend_all_spec in E as (H3 & H4 & H5). split.
  - apply NoDup_app. split_and!; [done| |done]. intros k Hk Hk'. apply (H2 k Hk'), H5. by left.
  - intros k [Hk|Hk]%elem_of_app; [by apply H4|]. intros Hs. apply (H2 k Hk), H5. by right.
Qed.

Lemma ledger_inputs_coins ins : forall m es, coins_of m ins es -> NoDup (prevout <$> ins) ->
  exists m' l, ledger_inputs m ins = Ok (m', l) /\ utxo_total m = utxo_total m' + entries_value es.
Proof.
  induction ins as [|i ins IH]; intros m es Hc HN; inversion Hc as [|? e ? es' He Hes]; subst; cbn [ledger_inputs].
  { exists m, []. split; [done|]. cbn. lia. }
  cbn [fmap list_fmap] in HN. apply NoDup_cons in HN as [Hni HN]. rewrite He.
  destruct (IH (delete (prevout i) m) es') as (m' & l & -> & Et); [|done|].
  { clear - Hes Hni. induction Hes as [|j e' js es' He' Hes IH]; [constructor|].
    cbn [fmap list_fmap] in Hni. apply not_elem_of_cons in Hni as [Hne Hni].
    constructor; [by rewrite lookup_delete_ne|by apply IH]. }
  exists m', ((prevout i, e) :: l). split; [done|]. rewrite (utxo_total_delete m _ _ He), Et.
  unfold entries_value. cbn. lia.
Qed.

Lemma ledger_outputs_total h cb txid outs : forall n m,
  match ledger_outputs h cb txid n outs m with
  | Ok m' => utxo_total m' = utxo_total m + value_sum outs
  | Err (MissingInput _) => False
  | Err (DuplicateOutput _) => True
  end.
Proof.
  induction outs as [|o outs IH]; intros n m; cbn [ledger_outputs]; [cbn; lia|].
  destruct (m !! mkOutPoint txid n) as [|] eqn:E; [done|].
  specialize (IH (n + 1) (<[mkOutPoint txid n := mkEntry o h cb]> m)).
  destruct (ledger_outputs _ _ _ _ _ _) as [m'|[|]]; [|done..].
  rewrite IH, utxo_total_insert, value_sum_cons by done. cbn. lia.
Qed.

(** A transaction whose inputs are coins of [m0] worth its outputs and a fee. *)
Definition conserves (m0 : utxo_map) (tx : CTransaction) (f : Z) : Prop :=
  exists es, coins_of m0 (vin tx) es /\ entries_value es = value_sum (vout tx) + f.

Lemma conserves_spends m0 txs fs k : Forall2 (conserves m0) txs fs -> k ∈ block_spends false txs -> is_Some (m0 !! k).
Proof.
  induction 1 as [|tx f txs fs (es & Hes & _) HF IH]; cbn [block_spends]; [by intros Hk; inversion Hk|].
  intros [Hk|Hk]%elem_of_app; [|by apply IH]. clear - Hes Hk.
  induction Hes as [|i e ins es He Hes IH]; cbn [fmap list_fmap] in Hk; [inversion Hk|].
  apply elem_of_cons in Hk as [->|Hk]; [by exists e|by apply IH].
Qed.

Lemma ledger_txs_value SHA3_256 h txs : forall m0 m fs,
  (forall k, k ∈ block_spends false txs -> m !! k = m0 !! k) -> NoDup (block_spends false txs) ->
  Forall2 (conserves m0) txs fs ->
  match ledger_txs SHA3_256 h false txs m with
  | Ok (m', _) => utxo_total m' + sum_list fs = utxo_total m
  | Err (MissingInput _) => False
  | Err (DuplicateOutput _) => True
  end.
Proof.
  induction txs as [|tx txs IH]; intros m0 m fs Hag HN HF; inversion HF as [|? f ? fs' (es & Hes & Ev) HF']; subst;
    cbn [ledger_txs]; [cbn; lia|].
  cbn [block_spends] in Hag, HN. apply NoDup_app in HN as (HN1 & HN2 & HN3).
  assert (coins_of m (vin tx) es) as Hes'.
  { clear - Hes Hag. assert (forall k, k ∈ prevout <$> vin tx -> m !! k = m0 !! k) as H.
    { intros k Hk. apply Hag, elem_of_app. by left. }
    clear Hag. induction Hes as [|i e ins es He Hes IH]; [constructor|].
    constructor; [rewrite H; [done|left]|apply IH; intros k Hk; apply H; by right]. }
  destruct (ledger_inputs_coins _ m es Hes' HN1) as (m1 & l1 & E1 & Et1). rewrite E1.
  pose proof (ledger_outputs_total h false (Tx_GetHash SHA3_256 tx) (vout tx) 0 m1) as Et2.
  destruct (ledger_outputs h false _ 0 (vout tx) m1) as [m2|[|]] eqn:E2; [|done..].
  assert (forall k, k ∈ block_spends false txs -> m2 !! k = m0 !! k) as Hag2.
  { intros k Hk. apply ledger_inputs_spec in E1 as [A1 _]. apply ledger_outputs_spec in E2 as (_ & B2 & _ & B4).
    assert (m1 !! k = m0 !! k) as Em.
    { rewrite A1, decide_False by (intros Hx; by apply (HN2 k Hx)). apply Hag, elem_of_app. by right. }
    rewrite B4; [done|]. intros Hx. apply B2 in Hx. destruct (conserves_spends _ _ _ _ HF' Hk) as [e He]. congruence. }
  specialize (IH m0 m2 fs' Hag2 HN3 HF'). destruct (ledger_txs SHA3_256 h false txs m2) as [[m3 l2]|x]; [|done].
  cbn [sum_list] in *. lia.
Qed.

(** An accepted fee is what the transaction's coins exceed its outputs by. *)
Lemma fee_conserves gp h now m tx f : utxo_wf m -> Forall op_ok (prevout <$> vin tx) -> IsCoinBase tx = false ->
  values_ok (vout tx) -> value_sum (vout tx) < 2 ^ 63 ->
  fst (CheckTransactionInputs gp tx h now m) = Ok f -> conserves m tx f.
Proof.
  intros Hm HF Hc Hv Hs HI.
  destruct (CheckTransactionInputs_inv _ _ _ _ _ _ HF Hc HI) as (_ & t & ET & Ht & Ef & _).
  unfold CalculateTotalInputValue in ET. rewrite for_coins_map in ET.
  apply total_input_exact in ET as (Htr & es & Hes & ->);
    [|intros k e He; by destruct (Hm k e He) as (_ & [? _] & _)|unfold MAX_MONEY, COIN; lia].
  pose proof (value_sum_nonneg _ (values_ok_nonneg _ Hv)).
  rewrite sum_outputs_exact, !Z.add_0_l in * by (done || lia || by apply values_ok_nonneg).
  exists es. split; [done|]. rewrite Ef, i64_small by (unfold MAX_MONEY, COIN in *; lia). lia.
Qed.

Lemma accumulate_fees_spec {S} `{CV : CoinsView S} gp h now m txs :
  Forall (fun tx => Forall op_ok (prevout <$> vin tx)) txs ->
  forall idx t (s : S), coins_rep s m -> 0 <= t < 2 ^ 64 ->
  exists r s', accumulate_fees gp h now idx t txs s = (r, s') /\ coins_rep s' m /\
    forall total, r = Ok total -> exists fs, 0 <= total < 2 ^ 64 /\ total = t + sum_list fs /\
      Forall2 (fun tx f => fst (CheckTransactionInputs gp tx h now m) = Ok f) txs fs.
Proof.
  induction 1 as [|tx txs Htx HF IH]; intros idx t s HR Ht; cbn [accumulate_fees].
  { exists (Ok t), s. split_and!; [done..|]. intros total [= <-]. exists []. cbn. split_and!; [lia..|constructor]. }
  destruct (CheckTransactionBasic tx) as [_|e]; [|by exists (Err (TxInvalid idx e)), s].
  destruct (CheckTransactionInputs_agrees gp tx h now Htx s m HR) as (E1 & HR1 & _).
  destruct (CheckTransactionInputs gp tx h now s) as [[f|e] s1] eqn:E; cbn in E1, HR1; [|by eexists _, _].
  assert (0 <= f < 2 ^ 63) as Hf by (apply (tx_fee_nonneg gp h now m tx); [done|]; unfold tx_fee; by rewrite <- E1).
  rewrite (proj2 (Z.ltb_ge _ _)), u64_wrap_check by lia.
  destruct (Z.ltb_spec (t + f) (2 ^ 64)); cbn [negb]; [|by eexists _, _]. rewrite u64_small by lia.
  destruct (IH (idx + 1) (t + f) s1 HR1 ltac:(lia)) as (r & s2 & -> & HR2 & Hr). exists r, s2. split_and!; [done..|].
  intros total (fs & Hb & -> & HF2)%Hr. exists (f :: fs). split_and!; [lia..|cbn; lia|by constructor].
Qed.

(** The store with its statistics is a coins view. *)
#[program] Definition LedgerView {E} `{LDB : LevelDB E} : CoinsView (CUTXOSet E) :=
  mkCoinsView _ GetUTXO ledger_state _.
Next Obligation.
  intros E LDB s m k [HS [Fa Fd] HR Hwf Hst] Hk. destruct (GetUTXO_spec s k HS Hk) as (E1 & E2 & l & c & E3).
  rewrite E1, (HR k Hk). split; [done|]. rewrite E3 in *. split; [done|by split|exact HR|done|done].
Qed.

(** The transactions of an accepted block. *)
Lemma CheckBlock_inv {D S : Type} `{LDB : LevelDB D} `{CV : CoinsView S} SHA3_256 rx dil vv (env : DfmpEnv D)
    block nHeight now (s s1 : S) idb coinbase rest :
  CheckBlock SHA3_256 rx dil vv env block nHeight now s = (Some (Ok tt), s1, idb) ->
  DeserializeBlockTransactions (vtx block) = Ok (coinbase :: rest) ->
  exists block', vtx block' = vtx block /\
    check_block_txs SHA3_256 env block' nHeight now coinbase rest s = (Ok tt, s1).
Proof.
  unfold CheckBlock. intros H Htx. destruct (len (vtx block) >? MAX_BLOCK_SIZE); [done|].
  destruct (bool_decide (vtx block = [])); [done|].
  destruct (CheckBlockHeader _ _ _ _) as [[[]|] h]; [|done]. cbn [vtx] in H. rewrite Htx in H.
  destruct (GetHash _ _ h) as [hash h']. destruct (CheckProofOfWorkDFMP _ _ _ _ _ _ _ _) as [[[]|] db]; [|done..].
  destruct (check_block_vdf _ _ _ _ _) as [[]|]; [|done].
  exists (mkBlock h' (vtx block)). split; [done|].
  destruct (check_block_txs _ _ _ _ _ _ _ _) as [r s']. by injection H as -> -> _.
Qed.
Lemma check_block_txs_inv {D S : Type} `{CV : CoinsView S} SHA3_256 (env : DfmpEnv D) block nHeight now
    coinbase rest (s s1 : S) m : coins_rep s m -> 0 < nHeight ->
  Forall (fun tx => Forall op_ok (prevout <$> vin tx)) rest -> values_ok (vout coinbase) ->
  0 <= CalculateBlockSubsidy (env_params env) nHeight ->
  check_block_txs SHA3_256 env block nHeight now coinbase rest s = (Ok tt, s1) ->
  coins_rep s1 m /\ existsb IsCoinBase rest = false /\ NoDup (block_spends false rest) /\
  exists fs, Forall2 (fun tx f => fst (CheckTransactionInputs (env_params env) tx nHeight now m) = Ok f) rest fs /\
    value_sum (vout coinbase) <= CalculateBlockSubsidy (env_params env) nHeight + sum_list fs.
Proof.
  intros HR Hh HF Hv Hsub. unfold check_block_txs.
  destruct (check_transaction_list _ _ _ _) as [[]|] eqn:EL; [|done].
  destruct (accumulate_fees_spec (env_params env) nHeight now m rest HF 1 0 s HR ltac:(lia))
    as (r & s2 & -> & HR2 & Hr).
  destruct r as [total|]; [|done]. destruct (Hr total eq_refl) as (fs & Hb & -> & HF2). intros [= EC <-].
  split; [done|]. unfold check_transaction_list in EL. destruct (IsCoinBase coinbase); [|done].
  destruct (existsb IsCoinBase rest); [done|]. destruct (unique_txids _ _ _); [|done].
  destruct (no_double_spends false ∅ rest) eqn:EN; [|done]. apply no_double_spends_spec in EN as [HN _].
  split_and!; [done..|]. exists fs. split; [done|]. unfold check_coinbase_value in EC.
  rewrite (proj2 (Z.eqb_neq _ _)) in EC by lia. unfold GetValueOut in EC.
  rewrite GetValueOut_loop_spec in EC by (by apply values_ok_nonneg || done).
  destruct (Z.leb_spec (0 + value_sum (vout coinbase)) UINT64_MAX); [|done]. rewrite Z.gtb_ltb in EC.
  destruct (Z.ltb_spec (u64 (CalculateBlockSubsidy (env_params env) nHeight + (0 + sum_list fs)))
    (0 + value_sum (vout coinbase))); [done|].
  assert (u64 (CalculateBlockSubsidy (env_params env) nHeight + (0 + sum_list fs)) <=
    CalculateBlockSubsidy (env_params env) nHeight + (0 + sum_list fs)) by (apply Z.mod_le; lia). lia.
Qed.

Lemma block_outs_sum tx txs : tx ∈ txs -> Forall txout_wf (block_outs txs) ->
  0 <= value_sum (vout tx) <= value_sum (block_outs txs).
Proof.
  induction txs as [|tx' txs IH]; intros Hin; cbn [block_outs]; [inversion Hin|].
  rewrite Forall_app, value_sum_app. intros [H1 H2]. pose proof (outs_value_nonneg _ H1). pose proof (outs_value_nonneg _ H2).
  apply elem_of_cons in Hin as [->|Hin]; [lia|]. specialize (IH Hin H2). lia.
Qed.

Lemma block_outs_wf txs : Forall tx_wf txs -> Forall txout_wf (block_outs txs).
Proof. induction 1 as [|tx txs (_ & _ & _ & _ & Ho & _) _ IH]; [constructor|]. by apply Forall_app. Qed.

Lemma block_spends_each txs : Forall op_ok (block_spends false txs) ->
  Forall (fun tx => Forall op_ok (prevout <$> vin tx)) txs.
Proof. induction txs as [|tx txs IH]; [constructor|]. intros [H1 H2]%Forall_app. constructor; auto. Qed.

(** The ledger step of a block whose transactions conserve value. *)
Lemma block_ledger_value SHA3_256 h coinbase rest m fs sub :
  NoDup (block_spends false rest) -> Forall2 (conserves m) rest fs ->
  value_sum (vout coinbase) <= sub + sum_list fs ->
  match ledger_txs SHA3_256 h true (coinbase :: rest) m with
  | Ok (m', _) => utxo_total m' <= utxo_total m + sub
  | Err (MissingInput _) => False
  | Err (DuplicateOutput _) => True
  end.
Proof.
  intros HN HF Hv. cbn [ledger_txs].
  pose proof (ledger_outputs_total h true (Tx_GetHash SHA3_256 coinbase) (vout coinbase) 0 m) as Et.
  destruct (ledger_outputs h true _ 0 (vout coinbase) m) as [m2|[|]] eqn:E2; [|done..].
  assert (forall k, k ∈ block_spends false rest -> m2 !! k = m !! k) as Hag.
  { intros k Hk. apply ledger_outputs_spec in E2 as (_ & B2 & _ & B4). apply B4. intros Hx. apply B2 in Hx.
    destruct (conserves_spends _ _ _ _ HF Hk) as [e He]. congruence. }
  pose proof (ledger_txs_value SHA3_256 h rest m m2 fs Hag HN HF) as HL.
  destruct (ledger_txs SHA3_256 h false rest m2) as [[m3 l]|]; [|done]. lia.
Qed.

(** C3: a block that passes [CheckBlock] connects and, within the money range, mints at most the subsidy. The UTXO
    store stands for a ledger and its database accepts writes; the block is above genesis, its subsidy is not
    negative, its outpoints are well-formed, its inputs and outputs fit the UTXO cache, and the ledger's value and the
    block's outputs, data carriers included, together stay below 2^63, the range in which the output sums do not wrap
    (beyond it see [data_carrier_inflates]). When [CheckBlock] accepts such a block, connecting it cannot meet a
    missing input; and unless one of its outputs already exists, a case about which nothing more is said, the ledger
    takes the block, its total grows by no more than the block subsidy, and [ApplyBlock], run on the store
    [CheckBlock] leaves, succeeds and leaves a store that stands for the new ledger with its statistics. *)
Theorem accepted_block_connects (D E : Type) (LDB : LevelDB D) (LDE : LevelDB E)
    (SHA3_256 randomx_hash_fast : list Z -> uint256) (dilithium_verify : list Z -> list Z -> list Z -> Z)
    (vdf_verify : list Z -> uint256 -> list Z -> Z -> bool) (env : DfmpEnv D)
    (block : CBlock) (coinbase : CTransaction) (rest : list CTransaction) (nHeight now : Z) (blockHash : uint256)
    (s s1 : CUTXOSet E) (m : utxo_map) (idb : option (CIdentityDB D))
    (SHA3_len : forall l, length (SHA3_256 l) = 32%nat) (HD : writes_succeed (D := E)) (HS : ledger_state s m)
    (Hbytes : bytes_ok (vtx block)) (Htx : DeserializeBlockTransactions (vtx block) = Ok (coinbase :: rest))
    (Hheight : 0 < nHeight < 2 ^ 32) (Hb : length blockHash = 32%nat)
    (Hsubsidy : 0 <= CalculateBlockSubsidy (env_params env) nHeight)
    (Hin : Forall op_ok (block_spends false rest)) (Hout : Forall op_ok (block_creates SHA3_256 (coinbase :: rest)))
    (Hcache : len (block_spends false rest) + len (block_outs (coinbase :: rest)) <= MAX_CACHE_SIZE)
    (Hsize : Z.of_nat (size m) + len (block_outs (coinbase :: rest)) < 2 ^ 64)
    (Hmoney : utxo_total m + value_sum (block_outs (coinbase :: rest)) < 2 ^ 63)
    (Hacc : CheckBlock (CV := LedgerView) SHA3_256 randomx_hash_fast dilithium_verify vdf_verify env block nHeight now s
            = (Some (Ok tt), s1, idb)) :
  match ledger_txs SHA3_256 nHeight true (coinbase :: rest) m with
  | Ok (m', _) =>
      utxo_total m' <= utxo_total m + CalculateBlockSubsidy (env_params env) nHeight /\
      exists s', ApplyBlock SHA3_256 s1 block nHeight blockHash = (true, s') /\ ledger_state s' m' /\
        stats_nHeight (stats s') = nHeight
  | Err (MissingInput _) => False
  | Err (DuplicateOutput _) => True
  end.
Proof.
  destruct (CheckBlock_inv (CV := LedgerView) _ _ _ _ _ _ _ _ _ _ _ _ _ Hacc Htx) as (block' & _ & EC).
  destruct (DeserializeBlockTransactions_wf _ _ Hbytes Htx) as [Hwf _].
  pose proof (block_outs_wf _ Hwf) as Howf.
  assert (forall tx, tx ∈ coinbase :: rest -> values_ok (vout tx) /\ value_sum (vout tx) < 2 ^ 63) as Hvals.
  { intros tx Hx. pose proof (block_outs_sum tx _ Hx Howf). pose proof (utxo_total_nonneg m (ls_wf _ _ HS)).
    split; [|lia]. rewrite Forall_forall in Hwf. destruct (Hwf tx Hx) as (_ & _ & _ & _ & Ho & _).
    eapply Forall_impl; [exact Ho|]. intros o [Hv _]. exact Hv. }
  pose proof (block_spends_each _ Hin) as Heach.
  destruct (check_block_txs_inv (CV := LedgerView) _ _ _ _ _ _ _ _ _ m HS (proj1 Hheight) Heach
    (proj1 (Hvals coinbase ltac:(left))) Hsubsidy EC) as (HR1 & Hncb & HN & fs & HF & Hv).
  assert (Forall2 (conserves m) rest fs) as HC.
  { apply Forall2_same_length_lookup_2; [by eapply Forall2_length|]. intros i tx f Hi Hf.
    pose proof (proj1 (Forall2_lookup _ _ _) HF i) as Hl. rewrite Hi, Hf in Hl. inversion Hl as [? ? HI|]; subst.
    apply list_elem_of_lookup_2 in Hi. rewrite Forall_forall in Heach.
    destruct (Hvals tx ltac:(by right)) as [V1 V2].
    eapply fee_conserves; [apply HS|by apply Heach| |done|done|exact HI].
    destruct (IsCoinBase tx) eqn:Ec; [|done]. rewrite <- Hncb. symmetry. apply existsb_exists.
    exists tx. split; [|done]. by apply list_elem_of_In. }
  pose proof (block_ledger_value SHA3_256 nHeight coinbase rest m fs _ HN HC Hv) as HL.
  destruct (ledger_txs SHA3_256 nHeight true (coinbase :: rest) m) as [[m' spent]|] eqn:EL; [|done].
  split; [done|].
  assert (txs_fit SHA3_256 true (coinbase :: rest) m 0 ∅) as Hfit.
  { split; [done..| |done|done|exact Hcache|exact Hsize|lia]. intros k _. set_solver. }
  destruct (ApplyBlock_ok SHA3_256 s1 m block (coinbase :: rest) nHeight blockHash m' spent HD HR1 Htx ltac:(done)
    Hfit ltac:(lia) Hb EL) as (s' & d' & E1 & E2 & E3 & _).
  by exists s'.
Qed.

(** ** A concrete block: a registration coinbase that takes the subsidy and the
    fee, and a transaction that spends an open coin *)

Definition accepted_coinbase : CTransaction := mkTx 1 (vin toy_coinbase) [mkTxOut 5000100000 [81]] 0.
Definition accepted_block : CBlock :=
  mkBlock (mkHeader 1 zero256 (BuildMerkleRoot toy_sha3 [accepted_coinbase; open_spend]) 1000 0x1f060000 0
             zero256 zero256 zero256 false)
          (SerializeBlockTransactions [accepted_coinbase; open_spend]).
Definition coin_store : CUTXOSet (gmap (list Z) (list Z)) :=
  snd (run_store empty_store [OpAdd sample_op (ue_out open_coin) 5 false; OpFlush]).

Lemma coin_state : ledger_state coin_store open_coins.
Proof.
  assert (entry_wf open_coin) as Hw.
  { split; [split; [simpl; lia|split; [by apply bytes_okb_sound|vm_compute; congruence]]|simpl; lia]. }
  destruct (exec_store_simulates empty_store ∅ (OpAdd sample_op (ue_out open_coin) 5 false) (RespBool true)
    open_coins MemDB_writes_succeed empty_store_ok empty_store_represents (conj sample_op_ok Hw) eq_refl)
    as (_ & S1 & R1).
  destruct (exec_store_simulates _ open_coins OpFlush (RespBool true) open_coins
    MemDB_writes_succeed S1 R1 I eq_refl) as (_ & S2 & R2).
  split; [exact S2|split; reflexivity|exact R2| |split; reflexivity].
  apply map_Forall_singleton. split; [exact sample_op_ok|exact Hw].
Qed.

Definition accepted_check :=
  CheckBlock (CV := LedgerView) toy_sha3 (fun _ => zero256) accept_all (fun _ _ _ _ => true) toy_env accepted_block 7 0
    coin_store.

Lemma accepted_block_connects_witness :
  fst (fst accepted_check) = Some (Ok tt) /\
  match ledger_txs toy_sha3 7 true [accepted_coinbase; open_spend] open_coins with
  | Ok (m', _) =>
      utxo_total m' <= utxo_total open_coins + CalculateBlockSubsidy None 7 /\
      exists s', ApplyBlock toy_sha3 (snd (fst accepted_check)) accepted_block 7 zero256 = (true, s') /\
        ledger_state s' m' /\ stats_nHeight (stats s') = 7
  | Err (MissingInput _) => False
  | Err (DuplicateOutput _) => True
  end.
Proof.
  assert (fst (fst accepted_check) = Some (Ok tt)) as E by (vm_compute; reflexivity). split; [exact E|].
  apply (accepted_block_connects _ _ MemDB MemDB toy_sha3 (fun _ => zero256) accept_all (fun _ _ _ _ => true) toy_env
    accepted_block accepted_coinbase [open_spend] 7 0 zero256 coin_store (snd (fst accepted_check)) open_coins
    (snd accepted_check) (fun l => length_le_bytes _ _) MemDB_writes_succeed coin_state).
  - apply bytes_okb_sound. vm_compute. reflexivity.
  - vm_compute. reflexivity.
  - lia.
  - reflexivity.
  - vm_compute. discriminate.
  - apply op_okb_Forall. vm_compute. reflexivity.
  - apply op_okb_Forall. vm_compute. reflexivity.
  - vm_compute. discriminate.
  - vm_compute. reflexivity.
  - vm_compute. reflexivity.
  - change (accepted_check = (Some (Ok tt), snd (fst accepted_check), snd accepted_check)).
    rewrite <- E. destruct accepted_check as [[? ?] ?]. reflexivity.
Defined.

(** The ledger gains exactly the subsidy. *)
Example accepted_block_mints :
  match ledger_txs toy_sha3 7 true [accepted_coinbase; open_spend] open_coins with
  | Ok (m', _) => utxo_total m' = utxo_total open_coins + 50 * COIN
  | Err _ => False
  end.
Proof. vm_compute. reflexivity. Qed.

Definition mainnet_coinbase : CTransaction :=
  mkTx 1 [mkTxIn (mkOutPoint zero256 0xffffffff) [1; 2] 0xffffffff]
    [mkTxOut 4900000000 (p2pkh_of (replicate 20 1)); mkTxOut 50000000 (p2pkh_of DEV_FUND_PUBKEY_HASH);
     mkTxOut 50000000 (p2pkh_of DEV_REWARD_PUBKEY_HASH)] 0.

Lemma CheckCoinbase_iff_witness :
  CheckCoinbase (Some Mainnet) mainnet_coinbase 5 0 = Ok tt /\ coinbase_wf mainnet_coinbase /\
  tax_paid (CalculateBlockSubsidy (Some Mainnet) 5) (vout mainnet_coinbase).
Proof.
  assert (CheckCoinbase (Some Mainnet) mainnet_coinbase 5 0 = Ok tt) as E by (vm_compute; reflexivity).
  split; [exact E|].
  destruct (CheckCoinbase_iff (Some Mainnet) mainnet_coinbase 5 0) as [[H _] _].
  - repeat (apply Forall_cons; split; [simpl; lia|]). by apply Forall_nil.
  - vm_compute. split; [discriminate|reflexivity].
  - lia.
  - lia.
  - destruct (H E) as (H1 & _ & [H2|H2]); [vm_compute in H2; discriminate|]. by split.
Defined.

Lemma coinbase_admission_verdict_witness :
  mapM (tx_fee None 7 0 open_coins) [open_spend] = Some [100000] /\
  fst (coinbase_admission (S := utxo_map) toy_env 7 0 mainnet_coinbase [open_spend] (Some open_coins))
    = CheckCoinbase None mainnet_coinbase 7 (sum_list [100000]).
Proof.
  assert (mapM (tx_fee None 7 0 open_coins) [open_spend] = Some [100000]) as E by (vm_compute; reflexivity).
  split; [exact E|].
  pose proof (coinbase_admission_verdict (gmap (list Z) (list Z)) utxo_map MapView toy_env 7 0 mainnet_coinbase
    [open_spend] open_coins open_coins) as H.
  cbv zeta in H. change (env_params toy_env) with (@None ChainParams) in H. rewrite E in H. apply H.
  - reflexivity.
  - discriminate.
  - lia.
  - apply Forall_singleton, Forall_singleton. exact sample_op_ok.
  - repeat (apply Forall_cons; split; [simpl; lia|]). by apply Forall_nil.
  - vm_compute. split; [discriminate|reflexivity].
  - simpl. lia.
Defined.
