(* ===== verification/ChainState.v ===== *)
(** * The block tree and chain selection (consensus/chain.h, consensus/chain.cpp)

    [CChainState]'s map of block index entries, the search for the fork point
    of two chains, failure marks and their propagation, and the candidate set
    from which the best chain is chosen.  Pointers are addresses of the store
    [arena]; [mapBlockIndex] owns the entries, so its addresses are always in
    the store.  A [ConsensusInvariant] that fails aborts the process: [None]. *)

From S2P Require Import Prelude Uint256 ChainParams Block BlockIndex Dfmp Cooldown.

Inductive ChainRebuildReason : Set :=
| UndoFailure | DepthRejection | ConnectTipFailure | DisconnectTipFailure | ReadBlockFailure | WriteBestBlockFailure.

Record CChainState := mkChainState {
  arena : index_store;
  mapBlockIndex : gmap uint256 addr;
  pindexTip : option addr;
  m_setBlockIndexCandidates : gset addr;
  m_cachedHeight : Z;
  m_consecutive_utxo_failures : Z;
  m_utxo_needs_rebuild : bool;
  m_consecutive_undo_failures : Z;
  m_last_undo_failure_hash : uint256;
  m_chain_needs_rebuild : bool;
  m_chain_rebuild_reason : ChainRebuildReason;
  m_vdfTipAcceptTime : Z;
  m_vdfTipAcceptHeight : Z
}.

Definition empty_chain : CChainState := mkChainState ∅ ∅ None ∅ (-1) 0 false 0 zero256 false UndoFailure 0 (-1).

Definition set_arena (s : CChainState) (st : index_store) : CChainState :=
  mkChainState st (mapBlockIndex s) (pindexTip s) (m_setBlockIndexCandidates s) (m_cachedHeight s)
    (m_consecutive_utxo_failures s) (m_utxo_needs_rebuild s) (m_consecutive_undo_failures s)
    (m_last_undo_failure_hash s) (m_chain_needs_rebuild s) (m_chain_rebuild_reason s)
    (m_vdfTipAcceptTime s) (m_vdfTipAcceptHeight s).
Definition set_map (s : CChainState) (m : gmap uint256 addr) : CChainState :=
  mkChainState (arena s) m (pindexTip s) (m_setBlockIndexCandidates s) (m_cachedHeight s)
    (m_consecutive_utxo_failures s) (m_utxo_needs_rebuild s) (m_consecutive_undo_failures s)
    (m_last_undo_failure_hash s) (m_chain_needs_rebuild s) (m_chain_rebuild_reason s)
    (m_vdfTipAcceptTime s) (m_vdfTipAcceptHeight s).
Definition set_candidates (s : CChainState) (c : gset addr) : CChainState :=
  mkChainState (arena s) (mapBlockIndex s) (pindexTip s) c (m_cachedHeight s)
    (m_consecutive_utxo_failures s) (m_utxo_needs_rebuild s) (m_consecutive_undo_failures s)
    (m_last_undo_failure_hash s) (m_chain_needs_rebuild s) (m_chain_rebuild_reason s)
    (m_vdfTipAcceptTime s) (m_vdfTipAcceptHeight s).
(** The tip with its cached height. *)
Definition move_tip (s : CChainState) (tip : option addr) (height : Z) : CChainState :=
  mkChainState (arena s) (mapBlockIndex s) tip (m_setBlockIndexCandidates s) height
    (m_consecutive_utxo_failures s) (m_utxo_needs_rebuild s) (m_consecutive_undo_failures s)
    (m_last_undo_failure_hash s) (m_chain_needs_rebuild s) (m_chain_rebuild_reason s)
    (m_vdfTipAcceptTime s) (m_vdfTipAcceptHeight s).
Definition set_utxo_failures (s : CChainState) (n : Z) (b : bool) : CChainState :=
  mkChainState (arena s) (mapBlockIndex s) (pindexTip s) (m_setBlockIndexCandidates s) (m_cachedHeight s)
    n b (m_consecutive_undo_failures s)
    (m_last_undo_failure_hash s) (m_chain_needs_rebuild s) (m_chain_rebuild_reason s)
    (m_vdfTipAcceptTime s) (m_vdfTipAcceptHeight s).
Definition set_undo_failures (s : CChainState) (n : Z) (h : uint256) : CChainState :=
  mkChainState (arena s) (mapBlockIndex s) (pindexTip s) (m_setBlockIndexCandidates s) (m_cachedHeight s)
    (m_consecutive_utxo_failures s) (m_utxo_needs_rebuild s) n h
    (m_chain_needs_rebuild s) (m_chain_rebuild_reason s) (m_vdfTipAcceptTime s) (m_vdfTipAcceptHeight s).
Definition set_rebuild (s : CChainState) (b : bool) (r : ChainRebuildReason) : CChainState :=
  mkChainState (arena s) (mapBlockIndex s) (pindexTip s) (m_setBlockIndexCandidates s) (m_cachedHeight s)
    (m_consecutive_utxo_failures s) (m_utxo_needs_rebuild s) (m_consecutive_undo_failures s)
    (m_last_undo_failure_hash s) b r (m_vdfTipAcceptTime s) (m_vdfTipAcceptHeight s).
Definition set_grace (s : CChainState) (t h : Z) : CChainState :=
  mkChainState (arena s) (mapBlockIndex s) (pindexTip s) (m_setBlockIndexCandidates s) (m_cachedHeight s)
    (m_consecutive_utxo_failures s) (m_utxo_needs_rebuild s) (m_consecutive_undo_failures s)
    (m_last_undo_failure_hash s) (m_chain_needs_rebuild s) (m_chain_rebuild_reason s) t h.

Definition set_pprev (b : CBlockIndex) (p : option addr) : CBlockIndex :=
  mkIndex (header b) p (pnext b) (pskip b) (nHeight b) (nFile b) (nDataPos b)
    (nUndoPos b) (nChainWork b) (nTx b) (nStatus b) (nSequenceId b) (nTime b) (nBits b)
    (inNonce b) (inVersion b) (phashBlock b).
Definition set_pnext (b : CBlockIndex) (p : option addr) : CBlockIndex :=
  mkIndex (header b) (pprev b) p (pskip b) (nHeight b) (nFile b) (nDataPos b)
    (nUndoPos b) (nChainWork b) (nTx b) (nStatus b) (nSequenceId b) (nTime b) (nBits b)
    (inNonce b) (inVersion b) (phashBlock b).

(** [nStatus |= flag] and [nStatus &= ~flag] on a 32-bit field. *)
Definition or_status (b : CBlockIndex) (flag : Z) : CBlockIndex := set_nStatus b (Z.lor (nStatus b) flag).
Definition clear_status (b : CBlockIndex) (flag : Z) : CBlockIndex :=
  set_nStatus b (Z.land (nStatus b) (2 ^ 32 - 1 - flag)).

(** The map in the order of its keys ([operator<] compares bytes). *)
Definition entries (s : CChainState) : list (uint256 * addr) := addr_ordered (mapBlockIndex s).

(** ** The map *)

Definition GetBlockIndex (s : CChainState) (hash : uint256) : option addr := mapBlockIndex s !! hash.
Definition HasBlockIndex (s : CChainState) (hash : uint256) : bool := bool_decide (is_Some (mapBlockIndex s !! hash)).

Definition abort_unless {A} (b : bool) (k : option A) : option A := if b then k else None.

(** The merge into an existing entry: status bits accumulate and a missing
    parent is adopted. *)
Definition merge_entry (s : CChainState) (p : addr) (existing pindex : CBlockIndex) : option (bool * CChainState) :=
  abort_unless (nHeight existing =? nHeight pindex)
  (abort_unless (bool_decide (nChainWork existing = nChainWork pindex))
  (merged ←
     match pprev existing, pprev pindex with
     | Some q, Some r =>
         bq ← arena s !! q; br ← arena s !! r;
         abort_unless (bool_decide (GetBlockHash bq = GetBlockHash br)) (Some existing)
     | None, Some r =>
         br ← arena s !! r;
         abort_unless (HasBlockIndex s (GetBlockHash br)) (Some (set_pprev existing (Some r)))
     | _, None => Some existing
     end;
   Some (true, set_arena s (<[p := or_status merged (nStatus pindex)]> (arena s))))).

(** [AddBlockIndex]; the new object's address is outside the store until the
    map owns it, and a null pointer is refused. *)
Definition AddBlockIndex (s : CChainState) (hash : uint256) (pindex : option (addr * CBlockIndex))
  : option (bool * CChainState) :=
  match pindex with
  | None => Some (false, s)
  | Some (p, pindex) =>
      abort_unless (bool_decide (GetBlockHash pindex = hash))
      match mapBlockIndex s !! hash with
      | Some q => existing ← arena s !! q; merge_entry s q existing pindex
      | None =>
          let add := Some (true, set_map (set_arena s (<[p := pindex]> (arena s))) (<[hash := p]> (mapBlockIndex s))) in
          match pprev pindex with
          | Some q =>
              bq ← arena s !! q;
              abort_unless (HasBlockIndex s (GetBlockHash bq)) (abort_unless (nHeight pindex =? nHeight bq + 1) add)
          | None => abort_unless (nHeight pindex =? 0) add
          end
      end
  end.

Definition GetTip (s : CChainState) : option addr := pindexTip s.

Definition SetTip (s : CChainState) (pindex : option addr) : option CChainState :=
  match pindex with
  | None => Some (move_tip s None (-1))
  | Some p =>
      b ← arena s !! p;
      abort_unless (HasBlockIndex s (GetBlockHash b)) (abort_unless (0 <=? nHeight b) (Some (move_tip s (Some p) (nHeight b))))
  end.

Definition GetHeight (s : CChainState) : Z := m_cachedHeight s.
Definition GetChainWork (s : CChainState) : option uint256 :=
  match pindexTip s with None => Some zero256 | Some p => nChainWork <$> arena s !! p end.

Definition GetBlocksAtHeight (s : CChainState) (height : Z) : list uint256 :=
  (filter (fun e => nHeight <$> arena s !! e.2 = Some height) (entries s)).*1.

(** ** The fork point *)

(** [while (p->nHeight > h) { p = p->pprev; if (!p) return nullptr; }] *)
Fixpoint walk_down (fuel : nat) (st : index_store) (p : addr) (h : Z) : option (option addr) :=
  match fuel with
  | O => None
  | S fuel' =>
      b ← st !! p;
      if nHeight b >? h then match pprev b with None => Some None | Some q => walk_down fuel' st q h end
      else Some (Some p)
  end.

Fixpoint walk_together (fuel : nat) (st : index_store) (p q : addr) : option (option addr) :=
  match fuel with
  | O => None
  | S fuel' =>
      if decide (p = q) then Some (Some p)
      else
        bp ← st !! p; bq ← st !! q;
        match pprev bp, pprev bq with
        | Some p', Some q' => walk_together fuel' st p' q'
        | _, _ => Some None
        end
  end.

Definition FindFork (st : index_store) (pindex1 pindex2 : option addr) : option (option addr) :=
  match pindex1, pindex2 with
  | Some p1, Some p2 =>
      b1 ← st !! p1; b2 ← st !! p2;
      r1 ← walk_down (S (Z.to_nat (nHeight b1))) st p1 (nHeight b2);
      match r1 with
      | None => Some None
      | Some p1 =>
          b1 ← st !! p1;
          r2 ← walk_down (S (Z.to_nat (nHeight b2))) st p2 (nHeight b1);
          match r2 with
          | None => Some None
          | Some p2 => walk_together (S (Z.to_nat (nHeight b1))) st p1 p2
          end
      end
  | _, _ => Some None
  end.

(** ** Failure marks *)

(** One visit of the sweeps in [MarkBlockAsFailed] and [MarkBlockAsValid]: an
    entry outside the set whose parent is in it is updated, and joins the set
    when [step] says so.  The state is the store, the set and [changed]. *)
Definition sweep_visit (step : CBlockIndex -> CBlockIndex * bool) (acc : index_store * gset addr * bool)
    (e : uint256 * addr) : index_store * gset addr * bool :=
  let '(st, marked, changed) := acc in
  let p := e.2 in
  if decide (p ∈ marked) then acc
  else match st !! p with
       | None => acc
       | Some b =>
           match pprev b with
           | None => acc
           | Some q =>
               if decide (q ∈ marked) then
                 let '(b', joins) := step b in
                 let st := <[p := b']> st in
                 if joins then (st, {[ p ]} ∪ marked, true) else (st, marked, changed)
               else acc
           end
       end.

Definition sweep_round (step : CBlockIndex -> CBlockIndex * bool) (es : list (uint256 * addr))
    (st : index_store) (marked : gset addr) : index_store * gset addr * bool :=
  foldl (sweep_visit step) (st, marked, false) es.

(** [while (changed)]; every round but the last adds an entry of the map. *)
Fixpoint sweep (fuel : nat) (step : CBlockIndex -> CBlockIndex * bool) (es : list (uint256 * addr))
    (st : index_store) (marked : gset addr) : option (index_store * gset addr) :=
  match fuel with
  | O => None
  | S fuel' =>
      let '(st', marked', changed) := sweep_round step es st marked in
      if changed then sweep fuel' step es st' marked' else Some (st', marked')
  end.

Definition fail_child (b : CBlockIndex) : CBlockIndex * bool := (or_status b BLOCK_FAILED_CHILD, true).
Definition unfail_child (b : CBlockIndex) : CBlockIndex * bool :=
  let b := clear_status b BLOCK_FAILED_CHILD in (b, negb (IsInvalid b)).

Definition sweep_fuel (s : CChainState) : nat := S (size (mapBlockIndex s)).

Definition MarkBlockAsFailed (s : CChainState) (pindex : addr) : option CChainState :=
  b ← arena s !! pindex;
  r ← sweep (sweep_fuel s) fail_child (entries s) (<[pindex := or_status b BLOCK_FAILED_VALID]> (arena s)) {[ pindex ]};
  let '(st, failed) := r in
  Some (set_candidates (set_arena s st) (m_setBlockIndexCandidates s ∖ failed)).

(** ** Candidates *)

Definition IsBlockACandidateForActivation (b : CBlockIndex) : bool :=
  negb (IsInvalid b) && (Z.land (nStatus b) BLOCK_VALID_MASK >=? BLOCK_VALID_TRANSACTIONS).

Definition has_children (s : CChainState) : gset addr :=
  list_to_set (omap (fun e : uint256 * addr => arena s !! e.2 ≫= pprev) (entries s)).

Definition RecomputeCandidates (s : CChainState) : CChainState :=
  set_candidates s (list_to_set (filter (fun p =>
    p ∉ has_children s /\ IsBlockACandidateForActivation <$> arena s !! p = Some true) (entries s).*2)).

Definition PruneBlockIndexCandidates (s : CChainState) : CChainState :=
  match pindexTip s with
  | None => s
  | Some tip =>
      match arena s !! tip with
      | None => s
      | Some bt =>
          set_candidates s (filter (fun p => p = tip \/
            (fun b => ChainWorkGreaterThan (nChainWork bt) (nChainWork b)) <$> arena s !! p <> Some true)
            (m_setBlockIndexCandidates s))
      end
  end.

Definition MarkBlockAsValid (s : CChainState) (pindex : addr) : option CChainState :=
  b ← arena s !! pindex;
  r ← sweep (sweep_fuel s) unfail_child (entries s) (<[pindex := clear_status b BLOCK_FAILED_MASK]> (arena s)) {[ pindex ]};
  Some (RecomputeCandidates (set_arena s (fst r))).

Definition InvalidateBlockImpl (s : CChainState) (hash : uint256) : option (bool * CChainState) :=
  match mapBlockIndex s !! hash with
  | None => Some (false, s)
  | Some p => s' ← MarkBlockAsFailed s p; Some (true, RecomputeCandidates s')
  end.

Definition ReconsiderBlockImpl (s : CChainState) (hash : uint256) : option (bool * CChainState) :=
  match mapBlockIndex s !! hash with
  | None => Some (false, s)
  | Some p => s' ← MarkBlockAsValid s p; Some (true, s')
  end.

(** [CBlockIndexWorkComparator]: whether [a] comes before [b]. *)
Definition candidate_before (a : addr) (ba : CBlockIndex) (b : addr) (bb : CBlockIndex) : bool :=
  if ChainWorkGreaterThan (nChainWork ba) (nChainWork bb) then true
  else if ChainWorkGreaterThan (nChainWork bb) (nChainWork ba) then false
  else
    let vdfA := vdfOutput (header ba) in
    let vdfB := vdfOutput (header bb) in
    let both := negb (IsNull vdfA) && negb (IsNull vdfB) in
    if both && HashLessThan vdfA vdfB then true
    else if both && HashLessThan vdfB vdfA then false
    else if nSequenceId ba <? nSequenceId bb then true
    else if nSequenceId bb <? nSequenceId ba then false
    else bool_decide (a < b)%positive.

(** [begin()] of the set: the element no other element comes before. *)
Definition first_candidate (st : index_store) (best : option (addr * CBlockIndex)) (p : addr)
  : option (addr * CBlockIndex) :=
  match st !! p with
  | None => best
  | Some b =>
      match best with
      | None => Some (p, b)
      | Some (q, bq) => if candidate_before p b q bq then Some (p, b) else best
      end
  end.

Definition candidates_begin (s : CChainState) : option (addr * CBlockIndex) :=
  foldl (first_candidate (arena s)) None (elements (m_setBlockIndexCandidates s)).

Inductive Ancestry : Set := AncestryOk | AncestryInvalid | AncestryMissingData.

(** The walk from a candidate to the active chain. *)
Fixpoint check_ancestry (fuel : nat) (s : CChainState) (leaf pancestor : addr) : option Ancestry :=
  match fuel with
  | O => None
  | S fuel' =>
      b ← arena s !! pancestor;
      if IsInvalid b then Some AncestryInvalid
      else if bool_decide (Some pancestor = pindexTip s) then Some AncestryOk
      else if IsOnMainChain b then Some AncestryOk
      else if nHeight b =? 0 then Some AncestryOk
      else if bool_decide (pancestor <> leaf) && (Z.land (nStatus b) BLOCK_HAVE_DATA =? 0) then Some AncestryMissingData
      else match pprev b with None => Some AncestryOk | Some q => check_ancestry fuel' s leaf q end
  end.

(** The retry loop; each round drops a candidate. *)
Fixpoint find_most_work (fuel : nat) (s : CChainState) : option (option addr * CChainState) :=
  match fuel with
  | O => None
  | S fuel' =>
      match candidates_begin s with
      | None => Some (None, s)
      | Some (p, b) =>
          a ← check_ancestry (S (Z.to_nat (nHeight b))) s p p;
          let dropped := set_candidates s (m_setBlockIndexCandidates s ∖ {[ p ]}) in
          match a with
          | AncestryOk => Some (Some p, s)
          | AncestryInvalid =>
              find_most_work fuel'
                (if IsInvalid b then dropped
                 else set_arena dropped (<[p := or_status b BLOCK_FAILED_CHILD]> (arena s)))
          | AncestryMissingData => find_most_work fuel' dropped
          end
      end
  end.

Definition FindMostWorkChainImpl (s : CChainState) : option (option addr * CChainState) :=
  find_most_work (S (size (m_setBlockIndexCandidates s))) s.

(** ** Eviction *)

(** The addresses from the tip to genesis. *)
Fixpoint chain_from (fuel : nat) (st : index_store) (p : option addr) : option (list addr) :=
  match p, fuel with
  | None, _ => Some []
  | Some _, O => None
  | Some a, S fuel' => b ← st !! a; rest ← chain_from fuel' st (pprev b); Some (a :: rest)
  end.

Definition tip_height (s : CChainState) : Z :=
  match pindexTip s ≫= fun p => arena s !! p with Some b => nHeight b | None => -1 end.

Definition active_chain (s : CChainState) : option (list addr) :=
  chain_from (S (Z.to_nat (tip_height s))) (arena s) (pindexTip s).

(** The scan for the least work off the active chain; the first of equals
    stays. *)
Definition evict_scan (s : CChainState) (active : gset uint256) (worst : option (addr * CBlockIndex))
    (e : uint256 * addr) : option (addr * CBlockIndex) :=
  match arena s !! e.2 with
  | None => worst
  | Some b =>
      if decide (e.1 ∈ active) then worst
      else match worst with
           | None => Some (e.2, b)
           | Some (_, bw) => if ChainWorkGreaterThan (nChainWork bw) (nChainWork b) then Some (e.2, b) else worst
           end
  end.

Definition EvictLowestWorkNotOnBestChain (s : CChainState) : option (bool * CChainState) :=
  if bool_decide (mapBlockIndex s = ∅) then Some (false, s)
  else
    active ← active_chain s;
    let hashes := list_to_set (omap (fun p => GetBlockHash <$> arena s !! p) active) in
    match foldl (evict_scan s hashes) None (entries s) with
    | None => Some (false, s)
    | Some (p, b) =>
        let s := set_candidates s (m_setBlockIndexCandidates s ∖ {[ p ]}) in
        let s := set_map s (delete (GetBlockHash b) (mapBlockIndex s)) in
        Some (true, set_arena s (delete p (arena s)))
    end.

(** The first [maxBlocks] blocks of the active chain at or above [minHeight];
    a negative [maxBlocks] makes [reserve] throw. *)
Fixpoint snapshot_from (n : nat) (st : index_store) (p : option addr) (minHeight : Z)
  : option (list (Z * uint256)) :=
  match n, p with
  | O, _ | _, None => Some []
  | S n', Some a =>
      b ← st !! a;
      if nHeight b <? minHeight then Some []
      else rest ← snapshot_from n' st (pprev b) minHeight; Some ((nHeight b, GetBlockHash b) :: rest)
  end.

Definition GetChainSnapshot (s : CChainState) (maxBlocks minHeight : Z) : option (list (Z * uint256)) :=
  abort_unless (0 <=? maxBlocks) (snapshot_from (Z.to_nat maxBlocks) (arena s) (pindexTip s) minHeight).

(** ** Failure counters *)

Definition MAX_UTXO_FAILURES_BEFORE_REBUILD : Z := 3.
Definition kPersistentUndoFailureThreshold : Z := 3.

Definition FlagChainRebuild (s : CChainState) (reason : ChainRebuildReason) : CChainState := set_rebuild s true reason.

Definition RecordUndoFailure (s : CChainState) (blockHash : uint256) : CChainState :=
  let failures := if decide (blockHash = m_last_undo_failure_hash s) then i32 (m_consecutive_undo_failures s + 1) else 1 in
  let s := set_undo_failures s failures blockHash in
  if failures >=? kPersistentUndoFailureThreshold then FlagChainRebuild s UndoFailure else s.

Definition ResetUndoFailureCounter (s : CChainState) : CChainState := set_undo_failures s 0 zero256.

Definition ClearChainRebuildFlag (s : CChainState) : CChainState :=
  ResetUndoFailureCounter (set_rebuild s false UndoFailure).

Definition ClearUTXORebuildFlag (s : CChainState) : CChainState := set_utxo_failures s 0 false.

(** ** Ancestors *)

Definition ancestor (st : index_store) (a p : addr) : Prop := exists n, pprev_walk st p n = Some a.

Lemma pprev_walk_add st n k : forall p, pprev_walk st p (n + k) = pprev_walk st p n ≫= fun q => pprev_walk st q k.
Proof.
  induction n as [|n IH]; intros p; [done|]. cbn [pprev_walk Nat.add]. destruct (st !! p) as [b|]; [|done]. cbn.
  destruct (pprev b) as [q|]; [|done]. cbn. apply IH.
Qed.

Lemma pprev_walk_height st n : index_wf st -> forall p b q, st !! p = Some b -> pprev_walk st p n = Some q ->
  exists bq, st !! q = Some bq /\ nHeight bq = nHeight b - Z.of_nat n.
Proof.
  intros Hwf. induction n as [|n IH]; intros p b q Hp; cbn [pprev_walk].
  { intros [= <-]. exists b. split; [done|lia]. }
  rewrite Hp. cbn. destruct (pprev b) as [r|] eqn:Er; [|done]. cbn. intros H.
  destruct (Hwf p b Hp) as [[_ Hl] _]. rewrite Er in Hl. destruct Hl as (br & Hr & Hh).
  destruct (IH r br q Hr H) as (bq & Hq & Hbq). exists bq. split; [done|lia].
Qed.

Lemma ancestor_refl st p : ancestor st p p.
Proof. by exists 0%nat. Qed.

Lemma ancestor_trans st a b c : ancestor st a b -> ancestor st b c -> ancestor st a c.
Proof. intros [n Hn] [k Hk]. exists (k + n)%nat. rewrite pprev_walk_add, Hk. exact Hn. Qed.

Lemma ancestor_step st a p q b : st !! p = Some b -> pprev b = Some q -> ancestor st a q -> ancestor st a p.
Proof. intros Hp Hq [n Hn]. exists (S n). cbn. rewrite Hp. cbn. by rewrite Hq. Qed.

(** Two ancestors of one block at the same height are the same. *)
Lemma ancestor_at_height st p a b ba bb bp : index_wf st -> st !! p = Some bp ->
  ancestor st a p -> ancestor st b p -> st !! a = Some ba -> st !! b = Some bb -> nHeight ba = nHeight bb -> a = b.
Proof.
  intros Hwf Hp [n Hn] [k Hk] Ha Hb Hh.
  destruct (pprev_walk_height st n Hwf p bp a Hp Hn) as (x & Hx & E1).
  destruct (pprev_walk_height st k Hwf p bp b Hp Hk) as (y & Hy & E2).
  assert (n = k) as -> by (rewrite Ha in Hx; rewrite Hb in Hy; injection Hx as <-; injection Hy as <-; lia). congruence.
Qed.

(** An ancestor no higher than another ancestor is an ancestor of it. *)
Lemma ancestor_below st p a b ba bb bp : index_wf st -> st !! p = Some bp ->
  ancestor st a p -> ancestor st b p -> st !! a = Some ba -> st !! b = Some bb -> nHeight ba <= nHeight bb ->
  ancestor st a b.
Proof.
  intros Hwf Hp [n Hn] [k Hk] Ha Hb Hh.
  destruct (pprev_walk_height st n Hwf p bp a Hp Hn) as (x & Hx & E1).
  destruct (pprev_walk_height st k Hwf p bp b Hp Hk) as (y & Hy & E2).
  rewrite Ha in Hx. rewrite Hb in Hy. injection Hx as <-. injection Hy as <-.
  exists (n - k)%nat. replace n with (k + (n - k))%nat in Hn by lia. by rewrite pprev_walk_add, Hk in Hn.
Qed.

(** ** The fork point is the last common ancestor *)

Lemma walk_down_spec st h : index_wf st -> forall fuel p b, st !! p = Some b -> (Z.to_nat (nHeight b) < fuel)%nat ->
  0 <= h -> exists q bq, walk_down fuel st p h = Some (Some q) /\ st !! q = Some bq /\ ancestor st q p /\
    nHeight bq = Z.min (nHeight b) h.
Proof.
  intros Hwf fuel. induction fuel as [|fuel IH]; intros p b Hp Hf Hh; [lia|]. cbn [walk_down]. rewrite Hp. cbn.
  destruct (Hwf p b Hp) as [[H0 Hl] _]. rewrite Z.gtb_ltb. destruct (Z.ltb_spec h (nHeight b)).
  - destruct (pprev b) as [q|] eqn:Eq; [|lia]. destruct Hl as (bq & Hq & Hb).
    destruct (IH q bq Hq ltac:(lia) Hh) as (r & br & -> & Hr & Ha & Er). exists r, br. split_and!; [done..|by eapply ancestor_step|lia].
  - exists p, b. split_and!; [done..|apply ancestor_refl|lia].
Qed.

Lemma walk_together_spec st : index_wf st -> forall fuel p q bp bq, st !! p = Some bp -> st !! q = Some bq ->
  nHeight bp = nHeight bq -> (Z.to_nat (nHeight bp) < fuel)%nat ->
  exists r, walk_together fuel st p q = Some r /\
  match r with
  | Some f => ancestor st f p /\ ancestor st f q /\ (forall g, ancestor st g p -> ancestor st g q -> ancestor st g f)
  | None => forall g, ancestor st g p -> ~ ancestor st g q
  end.
Proof.
  intros Hwf fuel. induction fuel as [|fuel IH]; intros p q bp bq Hp Hq Hh Hf; [lia|]. cbn [walk_together].
  destruct (decide (p = q)) as [->|Hne].
  { exists (Some q). split; [done|]. split_and!; [apply ancestor_refl..|done]. }
  rewrite Hp, Hq. cbn. destruct (Hwf p bp Hp) as [[Hp0 Lp] _]. destruct (Hwf q bq Hq) as [[Hq0 Lq] _].
  assert (forall g, ancestor st g p -> ancestor st g q -> g <> p /\ g <> q) as Hg.
  { intros g Hgp Hgq. split; intros ->; apply Hne.
    - destruct Hgq as [n Hn]. destruct (pprev_walk_height st n Hwf q bq p Hq Hn) as (x & Hx & Ex).
      assert (n = 0%nat) as -> by (rewrite Hp in Hx; injection Hx as <-; lia). cbn in Hn. congruence.
    - destruct Hgp as [n Hn]. destruct (pprev_walk_height st n Hwf p bp q Hp Hn) as (x & Hx & Ex).
      assert (n = 0%nat) as -> by (rewrite Hq in Hx; injection Hx as <-; lia). cbn in Hn. congruence. }
  assert (forall g a b, st !! a = Some b -> ancestor st g a -> g <> a -> exists a', pprev b = Some a' /\ ancestor st g a') as Hup.
  { intros g a b Ha [[|n] Hn] Hga; cbn in Hn; [congruence|]. rewrite Ha in Hn. cbn in Hn.
    destruct (pprev b) as [a'|]; [|done]. exists a'. split; [done|]. by exists n. }
  destruct (pprev bp) as [p'|] eqn:Ep; [destruct (pprev bq) as [q'|] eqn:Eq|];
    [|destruct Lp as (bp' & Hp' & Hhp); destruct (Hwf p' bp' Hp') as [[? _] _]; lia|].
  - destruct Lp as (bp' & Hp' & Hhp). destruct Lq as (bq' & Hq' & Hhq). destruct (Hwf p' bp' Hp') as [[? _] _].
    destruct (IH p' q' bp' bq' Hp' Hq' ltac:(lia) ltac:(lia)) as (r & E & Hr). rewrite E. exists r. split; [done|].
    destruct r as [f|].
    + destruct Hr as (A1 & A2 & A3). split_and!.
      * by eapply ancestor_step.
      * by eapply ancestor_step.
      * intros g Gp Gq. destruct (Hg g Gp Gq) as [N1 N2].
        destruct (Hup g p bp Hp Gp N1) as (a1 & Q1 & G1). destruct (Hup g q bq Hq Gq N2) as (a2 & Q2 & G2).
        rewrite Ep in Q1. rewrite Eq in Q2. injection Q1 as <-. injection Q2 as <-. by apply A3.
    + intros g Gp Gq. destruct (Hg g Gp Gq) as [N1 N2].
      destruct (Hup g p bp Hp Gp N1) as (a1 & Q1 & G1). destruct (Hup g q bq Hq Gq N2) as (a2 & Q2 & G2).
      rewrite Ep in Q1. rewrite Eq in Q2. injection Q1 as <-. injection Q2 as <-. by apply (Hr g).
  - exists None. split; [by destruct (pprev bq)|]. intros g Gp Gq. destruct (Hg g Gp Gq) as [N1 _].
    destruct (Hup g p bp Hp Gp N1) as (a1 & Q1 & _). congruence.
Qed.

Lemma FindFork_lemma st p1 p2 b1 b2 : index_wf st -> st !! p1 = Some b1 -> st !! p2 = Some b2 ->
  exists r, FindFork st (Some p1) (Some p2) = Some r /\
  match r with
  | Some f => ancestor st f p1 /\ ancestor st f p2 /\
      (forall g, ancestor st g p1 -> ancestor st g p2 -> ancestor st g f)
  | None => forall g, ancestor st g p1 -> ~ ancestor st g p2
  end.
Proof.
  intros Hwf H1 H2. destruct (Hwf p1 b1 H1) as [[G1 _] _]. destruct (Hwf p2 b2 H2) as [[G2 _] _].
  unfold FindFork. rewrite H1, H2. cbn [mbind option_bind].
  destruct (walk_down_spec st (nHeight b2) Hwf (S (Z.to_nat (nHeight b1))) p1 b1 H1 ltac:(lia) G2)
    as (q1 & c1 & -> & Q1 & A1 & E1). cbn [mbind option_bind]. rewrite Q1. cbn [mbind option_bind].
  destruct (Hwf q1 c1 Q1) as [[G3 _] _].
  destruct (walk_down_spec st (nHeight c1) Hwf (S (Z.to_nat (nHeight b2))) p2 b2 H2 ltac:(lia) G3)
    as (q2 & c2 & -> & Q2 & A2 & E2). cbn [mbind option_bind].
  destruct (walk_together_spec st Hwf (S (Z.to_nat (nHeight c1))) q1 q2 c1 c2 Q1 Q2 ltac:(lia) ltac:(lia))
    as (r & -> & Hr).
  exists r. split; [done|].
  assert (forall g, ancestor st g p1 -> ancestor st g p2 -> ancestor st g q1 /\ ancestor st g q2) as Hg.
  { intros g [n Hn] [k Hk]. destruct (pprev_walk_height st n Hwf p1 b1 g H1 Hn) as (bg & Bg & F1).
    destruct (pprev_walk_height st k Hwf p2 b2 g H2 Hk) as (bg' & Bg' & F2).
    rewrite Bg in Bg'. injection Bg' as <-.
    split; [apply (ancestor_below st p1 g q1 bg c1 b1)|apply (ancestor_below st p2 g q2 bg c2 b2)];
      first [done|by exists n|by exists k|lia]. }
  destruct r as [f|].
  - destruct Hr as (R1 & R2 & R3). split_and!; [by apply (ancestor_trans st f q1 p1)|by apply (ancestor_trans st f q2 p2)|].
    intros g Gp Gq. destruct (Hg g Gp Gq). by apply R3.
  - intros g Gp Gq. destruct (Hg g Gp Gq). by apply (Hr g).
Qed.

(** [FindFork] finds the last common ancestor.  On a well-formed block index
    it terminates without a bad dereference for any two blocks, also of
    different heights; the block it returns is an ancestor of both and every
    common ancestor is an ancestor of it, and it returns null only when the
    two have no common ancestor. *)
Theorem FindFork_correct (st : index_store) (p1 p2 : addr) (b1 b2 : CBlockIndex)
    (Hwf : index_wf st) (H1 : st !! p1 = Some b1) (H2 : st !! p2 = Some b2) :
  exists r, FindFork st (Some p1) (Some p2) = Some r /\
  match r with
  | Some f => ancestor st f p1 /\ ancestor st f p2 /\
      (forall g, ancestor st g p1 -> ancestor st g p2 -> ancestor st g f)
  | None => forall g, ancestor st g p1 -> ~ ancestor st g p2
  end.
Proof. by apply (FindFork_lemma st p1 p2 b1 b2). Qed.

(** ** A sweep reaches exactly the descendants *)

Section Sweep.
  Variable step : CBlockIndex -> CBlockIndex * bool.
  Variable f : CBlockIndex -> CBlockIndex.
  Variable es : list (uint256 * addr).
  Variable st0 : index_store.
  Variable root : addr.
  Hypothesis Hroot : is_Some (st0 !! root).
  Hypothesis Hes : forall p, is_Some (st0 !! p) <-> p ∈ es.*2.
  Hypothesis Hstep : forall p b, p <> root -> st0 !! p = Some b -> ancestor st0 root p -> step b = (f b, true).

Definition swept (marked : gset addr) (p : addr) : option CBlockIndex :=
  if decide (p ∈ marked /\ p <> root) then f <$> st0 !! p else st0 !! p.

Record sweep_inv (st : index_store) (marked : gset addr) : Prop := {
  si_root : root ∈ marked;
  si_desc : forall p, p ∈ marked -> is_Some (st0 !! p) /\ ancestor st0 root p;
  si_store : forall p, st !! p = swept marked p
}.

Lemma sweep_start : sweep_inv st0 {[ root ]}.
Proof.
  split; [set_solver| |].
  - intros p ->%elem_of_singleton. split; [done|apply ancestor_refl].
  - intros p. unfold swept. rewrite decide_False; [done|]. intros [->%elem_of_singleton ?]. done.
Qed.

Lemma sweep_visit_spec st marked changed e : e ∈ es -> sweep_inv st marked ->
  exists st' marked' changed', sweep_visit step (st, marked, changed) e = (st', marked', changed') /\
    sweep_inv st' marked' /\
    ((marked' = marked /\ changed' = changed /\
      (forall b q, st0 !! e.2 = Some b -> pprev b = Some q -> q ∈ marked -> e.2 ∈ marked)) \/
     (changed' = true /\ marked ⊂ marked')).
Proof.
  intros He HI. destruct e as [h p]. cbn [snd] in *. unfold sweep_visit. cbn [snd].
  destruct (decide (p ∈ marked)) as [Hin|Hni]; [exists st, marked, changed; split_and!; [done..|by left]|].
  assert (st !! p = st0 !! p) as Est.
  { rewrite (si_store _ _ HI). unfold swept. by rewrite decide_False by tauto. }
  rewrite Est. destruct (st0 !! p) as [b|] eqn:Eb;
    [|exists st, marked, changed; split_and!; [done..|left; split_and!; [done..|by intros]]].
  destruct (pprev b) as [q|] eqn:Eq;
    [|exists st, marked, changed; split_and!; [done..|left; split_and!; [done..|intros ? ? [= <-]; congruence]]].
  destruct (decide (q ∈ marked)) as [Hq|Hq];
    [|exists st, marked, changed; split_and!; [done..|left; split_and!; [done..|intros ? ? [= <-]; congruence]]].
  assert (ancestor st0 root p) as Hanc by (eapply ancestor_step; [done..|]; by apply (si_desc _ _ HI)).
  assert (p <> root) as Hpr by (intros ->; apply Hni, HI).
  rewrite (Hstep p b Hpr Eb Hanc).
  exists (<[p := f b]> st), ({[ p ]} ∪ marked), true. split; [done|]. split; [|right; set_solver].
  split; [set_solver by apply HI| |].
  - intros x [->%elem_of_singleton|Hx]%elem_of_union; [by split|by apply HI].
  - intros x. destruct (decide (x = p)) as [->|Hne].
    + rewrite lookup_insert_eq. unfold swept. rewrite decide_True by set_solver. by rewrite Eb.
    + rewrite lookup_insert_ne, (si_store _ _ HI) by done. unfold swept. apply decide_ext. set_solver.
Qed.

Lemma sweep_fold_spec l : l ⊆ es -> forall st marked changed, sweep_inv st marked ->
  exists st' marked' changed', foldl (sweep_visit step) (st, marked, changed) l = (st', marked', changed') /\
    sweep_inv st' marked' /\
    ((marked' = marked /\ changed' = changed /\
      (forall e b q, e ∈ l -> st0 !! e.2 = Some b -> pprev b = Some q -> q ∈ marked -> e.2 ∈ marked)) \/
     (changed' = true /\ marked ⊂ marked')).
Proof.
  induction l as [|e l IH]; intros Hl st marked changed HI; cbn [foldl].
  { exists st, marked, changed. split_and!; [done..|]. left. split_and!; [done..|]. intros e b q Hx. inversion Hx. }
  destruct (sweep_visit_spec st marked changed e) as (st1 & m1 & c1 & -> & HI1 & H1); [apply Hl; left|done|].
  destruct (IH ltac:(intros x Hx; apply Hl; by right) st1 m1 c1 HI1) as (st2 & m2 & c2 & -> & HI2 & H2).
  exists st2, m2, c2. split_and!; [done..|]. destruct H1 as [(-> & -> & C1)|[-> S1]], H2 as [(-> & -> & C2)|[-> S2]].
  - left. split_and!; [done..|]. intros e' b q [->|Hx]%elem_of_cons; [apply C1|by apply C2].
  - by right.
  - by right.
  - right. split; [done|]. set_solver.
Qed.

Lemma sweep_closed (marked : gset addr) : (forall p, p ∈ marked -> is_Some (st0 !! p) /\ ancestor st0 root p) -> root ∈ marked ->
  (forall e b q, e ∈ es -> st0 !! e.2 = Some b -> pprev b = Some q -> q ∈ marked -> e.2 ∈ marked) ->
  forall p, p ∈ marked <-> is_Some (st0 !! p) /\ ancestor st0 root p.
Proof.
  intros Hd Hr Hc p. split; [apply Hd|]. intros [Hp [n Hn]]. revert p Hp Hn.
  induction n as [|n IH]; intros p Hp Hn; cbn in Hn; [by injection Hn as ->|].
  destruct (st0 !! p) as [b|] eqn:Eb; [|done]. cbn in Hn. destruct (pprev b) as [q|] eqn:Eq; [|done]. cbn in Hn.
  assert (p ∈ es.*2) as Hin by (apply Hes; by exists b). apply list_elem_of_fmap in Hin as ([h p'] & -> & Hin).
  apply (Hc _ b q Hin Eb Eq). apply IH; [|done].
  destruct n; cbn in Hn; [by injection Hn as ->|]. destruct (st0 !! q); [done|discriminate].
Qed.

Lemma sweep_exact fuel : forall st marked, sweep_inv st marked ->
  (size (dom st0) < fuel + size marked)%nat ->
  exists st' marked', sweep fuel step es st marked = Some (st', marked') /\
    (forall p, p ∈ marked' <-> is_Some (st0 !! p) /\ ancestor st0 root p) /\ forall p, st' !! p = swept marked' p.
Proof.
  assert (forall st marked, sweep_inv st marked -> (size marked <= size (dom st0))%nat) as Hle.
  { intros st marked HI. apply subseteq_size. intros p Hp. apply elem_of_dom. by apply (si_desc _ _ HI). }
  induction fuel as [|fuel IH]; intros st marked HI Hf; cbn [sweep]; [specialize (Hle _ _ HI); lia|].
  unfold sweep_round. destruct (sweep_fold_spec es ltac:(done) st marked false HI) as (st1 & m1 & c1 & -> & HI1 & H1).
  destruct H1 as [(-> & -> & Hc)|[-> Hsub]].
  - exists st1, marked. split; [done|]. split; [apply sweep_closed; [apply HI1|apply HI1|done]|apply HI1].
  - apply IH; [done|]. apply subset_size in Hsub. lia.
Qed.
End Sweep.

(** ** Invalidating and reconsidering a block *)

Definition status_ok (b : CBlockIndex) : Prop := 0 <= nStatus b < 2 ^ 32.

(** The map owns exactly the entries of the store, under their hashes. *)
Record tree_wf (s : CChainState) : Prop := {
  tw_index : index_wf (arena s);
  tw_status : map_Forall (fun _ => status_ok) (arena s);
  tw_owned : forall p, is_Some (arena s !! p) <-> exists h, mapBlockIndex s !! h = Some p
}.

Lemma elem_of_entries s p : p ∈ (entries s).*2 <-> exists h, mapBlockIndex s !! h = Some p.
Proof.
  unfold entries. rewrite list_elem_of_fmap. split.
  - intros ([h q] & -> & Hin). rewrite addr_ordered_perm in Hin. apply elem_of_map_to_list in Hin. by exists h.
  - intros [h Hh]. exists (h, p). split; [done|]. rewrite addr_ordered_perm. by apply elem_of_map_to_list.
Qed.

Lemma entries_cover s : tree_wf s -> forall p, is_Some (arena s !! p) <-> p ∈ (entries s).*2.
Proof. intros Hwf p. by rewrite elem_of_entries, (tw_owned _ Hwf). Qed.

Lemma sweep_fuel_enough s (st : index_store) (m : gset addr) : (forall p, is_Some (st !! p) <-> p ∈ (entries s).*2) ->
  (size (dom st) < sweep_fuel s + size m)%nat.
Proof.
  intros Hc. unfold sweep_fuel.
  assert (dom st ⊆ (list_to_set (entries s).*2 : gset addr)) as Hsub.
  { intros p Hp. apply elem_of_dom in Hp. apply elem_of_list_to_set. by apply Hc. }
  apply subseteq_size in Hsub.
  assert (forall l : list addr, (size (list_to_set l : gset addr) <= length l)%nat) as Hlen.
  { intros l. induction l as [|a l IH]; cbn; [by rewrite size_empty|]. rewrite size_union_alt, size_singleton.
    pose proof (subseteq_size (list_to_set l ∖ {[ a ]} : gset addr) (list_to_set l) ltac:(set_solver)). lia. }
  specialize (Hlen (entries s).*2). rewrite length_fmap in Hlen. unfold entries in *.
  rewrite (Permutation_length (addr_ordered_perm (mapBlockIndex s))), length_map_to_list in Hlen. lia.
Qed.

Lemma ldiff_lor_sub x f m : Z.land x m = 0 -> Z.ldiff f m = 0 -> Z.ldiff (Z.lor x f) m = x.
Proof.
  intros Hx Hf. apply Z.bits_inj'. intros i Hi. rewrite Z.ldiff_spec, Z.lor_spec.
  assert (Z.testbit x i && Z.testbit m i = false) as Bx by (rewrite <- Z.land_spec, Hx; apply Z.bits_0).
  assert (Z.testbit f i && negb (Z.testbit m i) = false) as Bf by (rewrite <- Z.ldiff_spec, Hf; apply Z.bits_0).
  destruct (Z.testbit x i), (Z.testbit f i), (Z.testbit m i); done.
Qed.

Lemma testbit_above x i : 0 <= x < 2 ^ 32 -> 32 <= i -> Z.testbit x i = false.
Proof.
  intros Hx Hi. destruct (Z.eq_dec x 0) as [->|]; [apply Z.bits_0|]. apply Z.bits_above_log2; [lia|].
  eapply Z.lt_le_trans; [|exact Hi]. apply Z.log2_lt_pow2; lia.
Qed.

Lemma land_complement x m : 0 <= x < 2 ^ 32 -> 0 <= m < 2 ^ 32 -> Z.land x (2 ^ 32 - 1 - m) = Z.ldiff x m.
Proof.
  intros Hx Hm. replace (2 ^ 32 - 1 - m) with (Z.ldiff (Z.ones 32) m).
  - apply Z.bits_inj'. intros i Hi. rewrite Z.land_spec, !Z.ldiff_spec.
    destruct (Z.lt_ge_cases i 32); [by rewrite Z.ones_spec_low by lia|]. by rewrite (testbit_above x).
  - rewrite <- Z.sub_nocarry_ldiff; [done|]. apply Z.bits_inj'. intros i Hi. rewrite Z.ldiff_spec, Z.bits_0.
    destruct (Z.lt_ge_cases i 32); [by rewrite Z.ones_spec_low, andb_false_r by lia|]. by rewrite (testbit_above m).
Qed.

Lemma pprev_walk_ext st st' : (forall p, pprev <$> st !! p = pprev <$> st' !! p) ->
  forall n p, pprev_walk st p n = pprev_walk st' p n.
Proof.
  intros He n. induction n as [|n IH]; intros p; [done|]. cbn. specialize (He p).
  destruct (st !! p) as [b|], (st' !! p) as [b'|]; cbn in *; try done. injection He as ->.
  destruct (pprev b') as [q|]; [apply IH|done].
Qed.

Lemma ancestor_ext st st' a p : (forall p, pprev <$> st !! p = pprev <$> st' !! p) -> ancestor st a p <-> ancestor st' a p.
Proof. intros He. unfold ancestor. by setoid_rewrite (pprev_walk_ext st st' He). Qed.

Lemma not_invalid b : IsInvalid b = false <-> Z.land (nStatus b) BLOCK_FAILED_MASK = 0.
Proof. unfold IsInvalid. rewrite negb_false_iff. apply Z.eqb_eq. Qed.

Lemma set_nStatus_same b : set_nStatus b (nStatus b) = b.
Proof. by destruct b. Qed.

(** Clearing undoes setting on an entry without failure marks. *)
Lemma clear_or b flag mask : status_ok b -> IsInvalid b = false ->
  (flag = BLOCK_FAILED_VALID /\ mask = BLOCK_FAILED_MASK) \/ (flag = BLOCK_FAILED_CHILD /\ mask = BLOCK_FAILED_CHILD) ->
  clear_status (or_status b flag) mask = b.
Proof.
  intros Hs Hi%not_invalid Hc. rewrite <- (set_nStatus_same b) at 2. unfold clear_status, or_status. cbn. f_equal.
  assert (0 <= mask < 2 ^ 32 /\ Z.ldiff flag mask = 0 /\ Z.land (nStatus b) mask = 0 /\ 0 <= flag < 2 ^ 32) as (Hm & Hf & Hl & Hg).
  { destruct Hc as [[-> ->]|[-> ->]]; split_and!; try done.
    apply Z.bits_inj'. intros i Hx. rewrite Z.land_spec, Z.bits_0.
    assert (Z.testbit (nStatus b) i && Z.testbit BLOCK_FAILED_MASK i = false) as Hb
      by (rewrite <- Z.land_spec, Hi; apply Z.bits_0).
    unfold BLOCK_FAILED_MASK in Hb. rewrite Z.lor_spec in Hb.
    destruct (Z.testbit (nStatus b) i), (Z.testbit BLOCK_FAILED_VALID i), (Z.testbit BLOCK_FAILED_CHILD i); done. }
  rewrite land_complement; [by apply ldiff_lor_sub| |done].
  split; [apply Z.lor_nonneg; unfold status_ok in Hs; lia|]. by apply lor_range.
Qed.

(** What [MarkBlockAsFailed] leaves. *)
Lemma MarkBlockAsFailed_spec s p b : tree_wf s -> arena s !! p = Some b ->
  exists st failed, MarkBlockAsFailed s p =
      Some (set_candidates (set_arena s st) (m_setBlockIndexCandidates s ∖ failed)) /\
    (forall q, q ∈ failed <-> is_Some (arena s !! q) /\ ancestor (arena s) p q) /\
    st !! p = Some (or_status b BLOCK_FAILED_VALID) /\
    (forall q, q <> p -> q ∈ failed -> st !! q = (fun x => or_status x BLOCK_FAILED_CHILD) <$> arena s !! q) /\
    (forall q, q ∉ failed -> st !! q = arena s !! q).
Proof.
  intros Hwf Hp. set (st0 := <[p := or_status b BLOCK_FAILED_VALID]> (arena s)).
  assert (forall q, pprev <$> st0 !! q = pprev <$> arena s !! q) as Hpp.
  { intros q. unfold st0. destruct (decide (q = p)) as [->|]; [by rewrite lookup_insert_eq, Hp|by rewrite lookup_insert_ne]. }
  assert (forall q, is_Some (st0 !! q) <-> is_Some (arena s !! q)) as Hdom.
  { intros q. unfold st0. destruct (decide (q = p)) as [->|]; [by rewrite lookup_insert_eq, Hp|by rewrite lookup_insert_ne]. }
  assert (forall q, is_Some (st0 !! q) <-> q ∈ (entries s).*2) as Hes by (intros q; rewrite Hdom; by apply entries_cover).
  assert (is_Some (st0 !! p)) as Hr by (apply Hdom; by rewrite Hp).
  destruct (sweep_exact fail_child (fun x => or_status x BLOCK_FAILED_CHILD) (entries s) st0 p Hr Hes
    ltac:(done) (sweep_fuel s) st0 {[ p ]}) as (st & failed & E & Hf & Hst).
  { by apply (sweep_start fail_child _ (entries s)). }
  { by apply sweep_fuel_enough. }
  exists st, failed. unfold MarkBlockAsFailed. rewrite Hp. cbn [mbind option_bind]. fold st0. rewrite E.
  split; [done|]. split_and!.
  - intros q. rewrite Hf, Hdom. by rewrite (ancestor_ext _ _ _ _ Hpp).
  - rewrite Hst. unfold swept. rewrite decide_False by tauto. apply lookup_insert_eq.
  - intros q Hne Hq. rewrite Hst. unfold swept. rewrite decide_True by done. unfold st0. by rewrite lookup_insert_ne.
  - intros q Hq. rewrite Hst. unfold swept. rewrite decide_False by tauto. unfold st0. rewrite lookup_insert_ne; [done|].
    intros <-. apply Hq, Hf. split; [by apply Hdom; rewrite Hp|apply ancestor_refl].
Qed.

Lemma RecomputeCandidates_valid s p b : arena s !! p = Some b -> IsInvalid b = true ->
  p ∉ m_setBlockIndexCandidates (RecomputeCandidates s).
Proof.
  intros Hp Hi Hin. unfold RecomputeCandidates in Hin. cbn in Hin.
  apply elem_of_list_to_set, list_elem_of_filter in Hin as [[_ Hc] _]. rewrite Hp in Hc. cbn in Hc.
  unfold IsBlockACandidateForActivation in Hc. by rewrite Hi in Hc.
Qed.

Lemma or_invalid b flag : flag = BLOCK_FAILED_VALID \/ flag = BLOCK_FAILED_CHILD -> IsInvalid (or_status b flag) = true.
Proof.
  intros Hf. apply not_false_iff_true. intros H%not_invalid. cbn in H.
  assert (exists i, 0 <= i /\ Z.testbit flag i = true /\ Z.testbit BLOCK_FAILED_MASK i = true) as (i & Hi & H1 & H2).
  { destruct Hf as [->| ->]; [exists 5|exists 6]; done. }
  apply (f_equal (fun x => Z.testbit x i)) in H. rewrite Z.land_spec, Z.lor_spec, H1, H2, orb_true_r, Z.bits_0 in H. done.
Qed.

(** Reconsidering restores a tree that had no marks. *)
Lemma reconsider_restores s s1 hash p b failed : tree_wf s -> mapBlockIndex s !! hash = Some p ->
  arena s !! p = Some b -> (forall q bq, arena s !! q = Some bq -> IsInvalid bq = false) ->
  mapBlockIndex s1 = mapBlockIndex s ->
  (forall q, q ∈ failed <-> is_Some (arena s !! q) /\ ancestor (arena s) p q) ->
  arena s1 !! p = Some (or_status b BLOCK_FAILED_VALID) ->
  (forall q, q <> p -> q ∈ failed -> arena s1 !! q = (fun x => or_status x BLOCK_FAILED_CHILD) <$> arena s !! q) ->
  (forall q, q ∉ (failed : gset addr) -> arena s1 !! q = arena s !! q) ->
  exists s'', ReconsiderBlockImpl (RecomputeCandidates s1) hash = Some (true, s'') /\ arena s'' = arena s.
Proof.
  intros Hwf Hhash Hp Hclean Hmap Hf Hr Hd Hn. set (s2 := RecomputeCandidates s1).
  set (st1 := <[p := clear_status (or_status b BLOCK_FAILED_VALID) BLOCK_FAILED_MASK]> (arena s2)).
  assert (forall q bq, arena s !! q = Some bq -> status_ok bq) as Hok by (intros q bq Hq; by apply (tw_status _ Hwf q)).
  assert (st1 !! p = arena s !! p) as Ep.
  { unfold st1. rewrite lookup_insert_eq, Hp. f_equal. apply clear_or; [by apply (Hok p)|by apply (Hclean p)|by left]. }
  assert (forall q, q <> p -> st1 !! q = if decide (q ∈ failed)
    then (fun x => or_status x BLOCK_FAILED_CHILD) <$> arena s !! q else arena s !! q) as Eq.
  { intros q Hne. unfold st1. rewrite lookup_insert_ne by done. destruct (decide _); [by apply Hd|by apply Hn]. }
  assert (forall q, pprev <$> st1 !! q = pprev <$> arena s !! q) as Hpp.
  { intros q. destruct (decide (q = p)) as [->|Hne]; [by rewrite Ep|]. rewrite Eq by done.
    destruct (decide _); [|done]. by destruct (arena s !! q). }
  assert (forall q, is_Some (st1 !! q) <-> is_Some (arena s !! q)) as Hdom.
  { intros q. specialize (Hpp q). destruct (st1 !! q), (arena s !! q); cbn in *; try done; by split; intros []. }
  assert (entries s2 = entries s) as He by (unfold entries, s2; cbn; by rewrite Hmap).
  assert (forall q, is_Some (st1 !! q) <-> q ∈ (entries s2).*2) as Hes
    by (intros q; rewrite Hdom, He; by apply entries_cover).
  assert (is_Some (st1 !! p)) as Hr1 by (apply Hdom; by rewrite Hp).
  assert (forall q bq, q <> p -> st1 !! q = Some bq -> ancestor st1 p q ->
    exists b0, arena s !! q = Some b0 /\ clear_status bq BLOCK_FAILED_CHILD = b0) as Hback.
  { intros q bq Hne Hq Ha. apply (ancestor_ext _ _ _ _ Hpp) in Ha. rewrite Eq in Hq by done.
    destruct (arena s !! q) as [b0|] eqn:E0; [|by destruct (decide _)]. exists b0. split; [done|].
    rewrite decide_True in Hq by (apply Hf; rewrite E0; done). injection Hq as <-.
    apply clear_or; [by apply (Hok q)|by apply (Hclean q)|by right]. }
  assert (forall q bq, q <> p -> st1 !! q = Some bq -> ancestor st1 p q ->
    unfail_child bq = (clear_status bq BLOCK_FAILED_CHILD, true)) as Hstep.
  { intros q bq Hne Hq Ha. destruct (Hback q bq Hne Hq Ha) as (b0 & H0 & Hc). unfold unfail_child.
    by rewrite Hc, (Hclean q b0 H0). }
  destruct (sweep_exact unfail_child (fun x => clear_status x BLOCK_FAILED_CHILD) (entries s2) st1 p Hr1 Hes Hstep
    (sweep_fuel s2) st1 {[ p ]}) as (st2 & marked & E & Hm & Hst).
  { by apply (sweep_start unfail_child _ (entries s2)). }
  { by apply sweep_fuel_enough. }
  eexists. unfold ReconsiderBlockImpl. change (mapBlockIndex s2) with (mapBlockIndex s1). rewrite Hmap, Hhash.
  unfold MarkBlockAsValid. change (arena s2 !! p) with (arena s1 !! p). rewrite Hr. cbn [mbind option_bind].
  fold st1. rewrite E. cbn. split; [done|]. apply map_eq. intros q. rewrite Hst. unfold swept.
  destruct (decide (q ∈ marked /\ q <> p)) as [[Hq Hne]|Hq].
  - apply Hm in Hq as [[bq Hbq] Ha]. destruct (Hback q bq Hne Hbq Ha) as (b0 & H0 & Hc). rewrite Hbq, H0. cbn. by rewrite Hc.
  - destruct (decide (q = p)) as [->|Hne]; [done|]. rewrite Eq by done. destruct (decide (q ∈ failed)) as [Hin|]; [|done].
    exfalso. apply Hq. split; [|done]. apply Hm. apply Hf in Hin. by rewrite Hdom, (ancestor_ext _ _ _ _ Hpp).
Qed.

(** Invalidating a block marks exactly its subtree and reconsidering it
    undoes the marks.  On a well-formed tree [InvalidateBlockImpl] terminates,
    sets the failed flag of the block and the failed-child flag of each
    descendant and nothing else, and leaves none of them among the candidates;
    when no block was marked before, [ReconsiderBlockImpl] of the same hash
    restores every entry. *)
Theorem invalidate_reconsider (s : CChainState) (hash : uint256) (p : addr) (b : CBlockIndex)
    (Hwf : tree_wf s) (Hhash : mapBlockIndex s !! hash = Some p) (Hp : arena s !! p = Some b) :
  exists s', InvalidateBlockImpl s hash = Some (true, s') /\
    arena s' !! p = Some (or_status b BLOCK_FAILED_VALID) /\
    (forall q bq, q <> p -> arena s !! q = Some bq ->
       (ancestor (arena s) p q -> arena s' !! q = Some (or_status bq BLOCK_FAILED_CHILD)) /\
       (~ ancestor (arena s) p q -> arena s' !! q = Some bq)) /\
    (forall q, ancestor (arena s) p q -> q ∉ m_setBlockIndexCandidates s') /\
    ((forall q bq, arena s !! q = Some bq -> IsInvalid bq = false) ->
     exists s'', ReconsiderBlockImpl s' hash = Some (true, s'') /\ arena s'' = arena s).
Proof.
  destruct (MarkBlockAsFailed_spec s p b Hwf Hp) as (st & failed & E & Hf & Hr & Hd & Hn).
  set (s1 := set_candidates (set_arena s st) (m_setBlockIndexCandidates s ∖ failed)) in *.
  exists (RecomputeCandidates s1). unfold InvalidateBlockImpl. rewrite Hhash, E. split; [done|].
  assert (forall q bq, q <> p -> arena s !! q = Some bq -> ancestor (arena s) p q ->
    st !! q = Some (or_status bq BLOCK_FAILED_CHILD)) as Hdesc.
  { intros q bq Hne Hq Ha. rewrite Hd; [by rewrite Hq|done|]. apply Hf. split; [by rewrite Hq|done]. }
  split_and!; [exact Hr| | |].
  - intros q bq Hne Hq. split; [by apply Hdesc|]. intros Ha. change (st !! q = Some bq). rewrite Hn; [done|].
    intros [_ ?]%Hf. done.
  - intros q Ha. destruct (decide (q = p)) as [->|Hne].
    { eapply RecomputeCandidates_valid; [exact Hr|]. apply or_invalid. by left. }
    destruct (arena s !! q) as [bq|] eqn:Eq.
    + eapply RecomputeCandidates_valid; [by apply (Hdesc q bq)|]. apply or_invalid. by right.
    + intros Hin. unfold RecomputeCandidates in Hin. cbn in Hin.
      apply elem_of_list_to_set, list_elem_of_filter in Hin as [[_ Hc] _].
      rewrite Hn, Eq in Hc; [done|]. intros [[? ?] _]%Hf. congruence.
  - intros Hclean. apply (reconsider_restores s s1 hash p b failed); done.
Qed.

(** ** The best candidate *)

(** A walk stops here. *)
Definition walk_stop (s : CChainState) (p : addr) (b : CBlockIndex) : bool :=
  bool_decide (Some p = pindexTip s) || IsOnMainChain b || (nHeight b =? 0).
Definition data_ok (leaf p : addr) (b : CBlockIndex) : bool :=
  negb (bool_decide (p <> leaf) && (Z.land (nStatus b) BLOCK_HAVE_DATA =? 0)).

(** From [p] down to the active chain every block is unmarked and, but for the
    leaf, has its data. *)
Inductive chain_ok (s : CChainState) (leaf : addr) : addr -> Prop :=
| chain_ok_stop p b : arena s !! p = Some b -> IsInvalid b = false ->
    walk_stop s p b = true \/ (data_ok leaf p b = true /\ pprev b = None) -> chain_ok s leaf p
| chain_ok_step p b q : arena s !! p = Some b -> IsInvalid b = false -> walk_stop s p b = false ->
    data_ok leaf p b = true -> pprev b = Some q -> chain_ok s leaf q -> chain_ok s leaf p.

(** The same without the data. *)
Inductive unmarked_path (s : CChainState) : addr -> Prop :=
| unmarked_stop p b : arena s !! p = Some b -> IsInvalid b = false ->
    walk_stop s p b = true \/ pprev b = None -> unmarked_path s p
| unmarked_step p b q : arena s !! p = Some b -> IsInvalid b = false -> pprev b = Some q ->
    unmarked_path s q -> unmarked_path s p.

Lemma chain_ok_unmarked s leaf p : chain_ok s leaf p -> unmarked_path s p.
Proof.
  induction 1 as [p b Hp Hi [Hs|[_ Hs]]|p b q Hp Hi _ _ Hq _ IH];
    [eapply unmarked_stop; eauto..|by eapply unmarked_step].
Qed.

(** One step of the walk. *)
Lemma check_ancestry_S fuel s leaf p b : arena s !! p = Some b ->
  check_ancestry (S fuel) s leaf p =
    if IsInvalid b then Some AncestryInvalid
    else if walk_stop s p b then Some AncestryOk
    else if negb (data_ok leaf p b) then Some AncestryMissingData
    else match pprev b with None => Some AncestryOk | Some q => check_ancestry fuel s leaf q end.
Proof.
  intros Hp. cbn [check_ancestry]. rewrite Hp. cbn [mbind option_bind]. unfold walk_stop, data_ok.
  rewrite negb_involutive. destruct (IsInvalid b); [done|]. destruct (bool_decide (Some p = pindexTip s)); [done|].
  destruct (IsOnMainChain b); [done|]. by destruct (nHeight b =? 0).
Qed.

Lemma check_ancestry_spec s leaf : index_wf (arena s) -> forall fuel p b, arena s !! p = Some b ->
  (Z.to_nat (nHeight b) < fuel)%nat ->
  exists a, check_ancestry fuel s leaf p = Some a /\ (a = AncestryOk <-> chain_ok s leaf p) /\
    (a = AncestryInvalid -> ~ unmarked_path s p).
Proof.
  intros Hwf fuel. induction fuel as [|fuel IH]; intros p b Hp Hf; [lia|]. rewrite (check_ancestry_S _ _ _ _ _ Hp).
  destruct (IsInvalid b) eqn:Ei.
  { exists AncestryInvalid. split; [done|]. split; [split; [done|]|]; [intros Hc|intros _ Hc];
      inversion Hc; congruence. }
  destruct (walk_stop s p b) eqn:Ew.
  { exists AncestryOk. split_and!; [done| |done]. split; [|done]. intros _. by eapply chain_ok_stop; eauto. }
  destruct (data_ok leaf p b) eqn:Ed; cbn [negb].
  2:{ exists AncestryMissingData. split_and!; [done| |done]. split; [done|]. intros Hc.
      inversion Hc as [? b' Hp' ? [?|[? ?]]|? b' ? Hp' ? ? ?]; congruence. }
  destruct (Hwf p b Hp) as [[H0 Hl] _]. destruct (pprev b) as [q|] eqn:Eq.
  - destruct Hl as (bq & Hq & Hh). destruct (Hwf q bq Hq) as [[Hq0 _] _].
    destruct (IH q bq Hq ltac:(lia)) as (a & -> & H1 & H2). exists a. split; [done|]. split.
    + rewrite H1. split; [by intros; eapply chain_ok_step|]. intros Hc.
      inversion Hc as [? b' Hp' ? [?|[? ?]]|? b' ? Hp' ? ? ? ? ?]; congruence.
    + intros Ha Hc. apply (H2 Ha). inversion Hc as [? b' Hp' ? [?|?]|? b' ? Hp' ? ? ?]; congruence.
  - exists AncestryOk. split_and!; [done| |done]. split; [|done]. intros _. eapply chain_ok_stop; [done..|]. by right.
Qed.

Definition work (b : CBlockIndex) : Z := le_val (nChainWork b).

Lemma candidate_before_work p b q bq : u256_wf (nChainWork b) -> u256_wf (nChainWork bq) ->
  if candidate_before p b q bq then work bq <= work b else work b <= work bq.
Proof.
  intros H1 H2. unfold candidate_before. rewrite !ChainWorkGreaterThan_val by done. fold (work b) (work bq).
  destruct (Z.ltb_spec (work bq) (work b)); [lia|]. destruct (Z.ltb_spec (work b) (work bq)); [lia|].
  repeat (case_match; try lia).
Qed.

Lemma first_candidate_some st p b : st !! p = Some b -> forall best,
  first_candidate st best p = match best with
    | None => Some (p, b) | Some (q, bq) => if candidate_before p b q bq then Some (p, b) else best end.
Proof. intros Hp best. unfold first_candidate. by rewrite Hp. Qed.

Lemma first_candidate_none st p best : st !! p = None -> first_candidate st best p = best.
Proof. intros Hp. unfold first_candidate. by rewrite Hp. Qed.

(** The best so far is an entry of the store at least as good as those seen. *)
Definition scan_ok (st : index_store) (seen : gset addr) (best : option (addr * CBlockIndex)) : Prop :=
  match best with
  | Some (p, b) => st !! p = Some b /\ p ∈ seen /\ forall q bq, q ∈ seen -> st !! q = Some bq -> work bq <= work b
  | None => forall q, q ∈ seen -> st !! q = None
  end.

Lemma first_candidate_step st seen best x : map_Forall (fun _ b => u256_wf (nChainWork b)) st ->
  scan_ok st seen best -> scan_ok st ({[ x ]} ∪ seen) (first_candidate st best x).
Proof.
  intros Hw Hb. destruct (st !! x) as [bx|] eqn:Ex.
  2:{ rewrite first_candidate_none by done. destruct best as [[p b]|]; cbn in *; [|set_solver].
      destruct Hb as (H1 & H2 & H3). split_and!; [done|set_solver|]. intros q bq Hq Hbq. apply (H3 q); [|done].
      apply elem_of_union in Hq as [->%elem_of_singleton|]; [congruence|done]. }
  rewrite (first_candidate_some _ _ _ Ex). destruct best as [[p b]|].
  - destruct Hb as (H1 & H2 & H3). pose proof (candidate_before_work x bx p b (Hw x bx Ex) (Hw p b H1)) as Hc.
    destruct candidate_before; cbn; (split_and!; [done|set_solver|]);
      intros q bq [->%elem_of_singleton|Hq]%elem_of_union Hbq; try (rewrite Ex in Hbq; injection Hbq as <-; lia);
      specialize (H3 q bq Hq Hbq); lia.
  - cbn in *. split_and!; [done|set_solver|]. intros q bq [->%elem_of_singleton|Hq]%elem_of_union Hbq.
    + rewrite Ex in Hbq. injection Hbq as <-. lia.
    + rewrite Hb in Hbq by done. done.
Qed.

Lemma first_candidate_fold st l : map_Forall (fun _ b => u256_wf (nChainWork b)) st -> forall seen best,
  scan_ok st seen best -> scan_ok st (list_to_set l ∪ seen) (foldl (first_candidate st) best l).
Proof.
  intros Hw. induction l as [|x l IH]; intros seen best Hb; cbn [foldl list_to_set]; [by rewrite union_empty_l_L|].
  replace ({[ x ]} ∪ list_to_set l ∪ seen : gset addr) with (list_to_set l ∪ ({[ x ]} ∪ seen) : gset addr) by set_solver.
  by apply IH, first_candidate_step.
Qed.

Lemma candidates_begin_best s : map_Forall (fun _ b => u256_wf (nChainWork b)) (arena s) ->
  (forall q, q ∈ m_setBlockIndexCandidates s -> is_Some (arena s !! q)) ->
  match candidates_begin s with
  | Some (p, b) => arena s !! p = Some b /\ p ∈ m_setBlockIndexCandidates s /\
      forall q bq, q ∈ m_setBlockIndexCandidates s -> arena s !! q = Some bq -> work bq <= work b
  | None => m_setBlockIndexCandidates s = ∅
  end.
Proof.
  intros Hw Hc. unfold candidates_begin.
  pose proof (first_candidate_fold (arena s) (elements (m_setBlockIndexCandidates s)) Hw ∅ None ltac:(cbn; set_solver)) as H.
  rewrite list_to_set_elements_L, union_empty_r_L in H. destruct foldl as [[p b]|]; [done|]. cbn in H.
  apply set_eq. intros q. split; [|set_solver]. intros Hq. destruct (Hc q Hq) as [bq Hbq]. by rewrite H in Hbq.
Qed.

(** Marking a block that has a marked block below it changes no good chain. *)
Lemma chain_ok_mark s s' p b : arena s !! p = Some b -> ~ unmarked_path s p ->
  arena s' = <[p := or_status b BLOCK_FAILED_CHILD]> (arena s) -> pindexTip s' = pindexTip s ->
  forall leaf q, chain_ok s' leaf q <-> chain_ok s leaf q.
Proof.
  intros Hp Hu Ha Ht leaf q.
  assert (forall x bx, x <> p -> arena s' !! x = Some bx <-> arena s !! x = Some bx) as Hsame
    by (intros x bx Hne; by rewrite Ha, lookup_insert_ne).
  assert (forall x bx, walk_stop s' x bx = walk_stop s x bx) as Hw by (intros; unfold walk_stop; by rewrite Ht).
  assert (forall x bx, arena s' !! x = Some bx -> IsInvalid bx = false -> x <> p) as Hne.
  { intros x bx Hx Hi ->. rewrite Ha, lookup_insert_eq in Hx. injection Hx as <-.
    by rewrite or_invalid in Hi by (by right). }
  split; induction 1 as [x bx Hx Hi Hs|x bx y Hx Hi Hs Hd Hy Hc IH].
  - eapply chain_ok_stop; [by apply Hsame, Hx; eauto|done|by rewrite <- Hw].
  - eapply chain_ok_step; [by apply Hsame, Hx; eauto|done|by rewrite <- Hw|done..].
  - eapply chain_ok_stop; [apply Hsame, Hx|done|by rewrite Hw].
    intros ->. apply Hu. eapply unmarked_stop; [done..|naive_solver].
  - eapply chain_ok_step; [apply Hsame, Hx|done|by rewrite Hw|done..].
    intros ->. apply Hu. eapply unmarked_step; [done..|]. by eapply chain_ok_unmarked.
Qed.

Lemma chain_ok_ext s s' : arena s' = arena s -> pindexTip s' = pindexTip s ->
  forall leaf q, chain_ok s' leaf q <-> chain_ok s leaf q.
Proof.
  intros Ha Ht leaf q. assert (forall x bx, walk_stop s' x bx = walk_stop s x bx) as Hw
    by (intros; unfold walk_stop; by rewrite Ht).
  split; (induction 1; [eapply chain_ok_stop|eapply chain_ok_step]); rewrite ?Ha, ?Hw in *; eauto.
  all: by rewrite <- Ha.
Qed.

(** What the search needs of the tree. *)
Record candidates_wf (s : CChainState) : Prop := {
  cw_index : index_wf (arena s);
  cw_work : map_Forall (fun _ b => u256_wf (nChainWork b)) (arena s);
  cw_owned : forall q, q ∈ m_setBlockIndexCandidates s -> is_Some (arena s !! q)
}.

Lemma index_wf_status st p b flag : st !! p = Some b -> index_wf st -> index_wf (<[p := or_status b flag]> st).
Proof.
  intros Hp Hwf. assert (forall x, link_wf st x -> link_wf (<[p := or_status b flag]> st) x) as Hl.
  { intros x [H0 H1]. split; [done|]. destruct (pprev x) as [q|]; [|done]. destruct H1 as (bq & Hq & Hh).
    destruct (decide (q = p)) as [->|]; [|exists bq; by rewrite lookup_insert_ne].
    exists (or_status b flag). rewrite lookup_insert_eq. rewrite Hp in Hq. injection Hq as ->. done. }
  apply map_Forall_insert_2.
  - destruct (Hwf p b Hp) as [H1 H2]. split; [by apply (Hl b)|done].
  - intros x bx Hx. destruct (Hwf x bx Hx). auto.
Qed.

(** Dropping a candidate, with or without the mark. *)
Lemma candidates_wf_drop s p b st : candidates_wf s -> arena s !! p = Some b ->
  st = arena s \/ st = <[p := or_status b BLOCK_FAILED_CHILD]> (arena s) ->
  candidates_wf (set_arena (set_candidates s (m_setBlockIndexCandidates s ∖ {[ p ]})) st).
Proof.
  intros [H1 H2 H3] Hp [->| ->]; split; cbn; try done.
  - intros q Hq. apply H3. set_solver.
  - by apply index_wf_status.
  - apply map_Forall_insert_2; [by apply (H2 p b Hp)|done].
  - intros q Hq. rewrite lookup_insert_is_Some. destruct (decide (p = q)); [by left|]. right. split; [done|]. apply H3. set_solver.
Qed.

(** What the search returns. *)
Definition best_choice (s : CChainState) (r : option addr) (s' : CChainState) : Prop :=
  match r with
  | Some p => p ∈ m_setBlockIndexCandidates s /\ chain_ok s p p /\
      forall q bp bq, q ∈ m_setBlockIndexCandidates s -> chain_ok s q q ->
        arena s !! p = Some bp -> arena s !! q = Some bq -> work bq <= work bp
  | None => forall q, q ∈ m_setBlockIndexCandidates s -> ~ chain_ok s q q
  end /\ forall q, q ∈ m_setBlockIndexCandidates s -> chain_ok s q q -> q ∈ m_setBlockIndexCandidates s'.

(** Entries keep their work and the rest of the chains' verdicts when a
    candidate that has no good chain is dropped. *)
Lemma best_choice_drop s p b st r s' : arena s !! p = Some b -> ~ chain_ok s p p ->
  st = arena s \/ (st = <[p := or_status b BLOCK_FAILED_CHILD]> (arena s) /\ ~ unmarked_path s p) ->
  best_choice (set_arena (set_candidates s (m_setBlockIndexCandidates s ∖ {[ p ]})) st) r s' -> best_choice s r s'.
Proof.
  intros Hp Hn Hst. set (s1 := set_arena _ _).
  assert (forall leaf q, chain_ok s1 leaf q <-> chain_ok s leaf q) as Hc.
  { destruct Hst as [->|[-> Hu]]; [by apply chain_ok_ext|by apply (chain_ok_mark s s1 p b)]. }
  assert (forall q bq, arena s !! q = Some bq -> exists b', arena s1 !! q = Some b' /\ work b' = work bq) as Hw.
  { intros q bq Hq. destruct Hst as [->|[-> _]]; cbn; [by exists bq|]. destruct (decide (p = q)) as [->|Hne].
    - exists (or_status b BLOCK_FAILED_CHILD). rewrite lookup_insert_eq. split; [done|]. by replace bq with b by congruence.
    - exists bq. by rewrite lookup_insert_ne. }
  assert (forall q, q ∈ m_setBlockIndexCandidates s -> chain_ok s q q -> q ∈ m_setBlockIndexCandidates s1) as Hin.
  { intros q Hq Hok. cbn. apply elem_of_difference. split; [done|]. intros ->%elem_of_singleton. done. }
  intros [H1 H2]. split; [|intros q Hq Hok; apply H2; [auto|by apply Hc]]. destruct r as [x|].
  - destruct H1 as (X1 & X2 & X3). split_and!; [cbn in X1; set_solver|by apply Hc|]. intros q bp bq Hq Hok Hbp Hbq.
    destruct (Hw x bp Hbp) as (b1 & B1 & <-). destruct (Hw q bq Hbq) as (b2 & B2 & <-). apply (X3 q); auto. by apply Hc.
  - intros q Hq Hok. apply (H1 q); [auto|by apply Hc].
Qed.

Lemma find_most_work_spec fuel : forall s, candidates_wf s -> (size (m_setBlockIndexCandidates s) < fuel)%nat ->
  exists r s', find_most_work fuel s = Some (r, s') /\ best_choice s r s'.
Proof.
  induction fuel as [|fuel IH]; intros s Hwf Hf; [lia|]. cbn [find_most_work].
  pose proof (candidates_begin_best s (cw_work _ Hwf) (cw_owned _ Hwf)) as Hb.
  destruct (candidates_begin s) as [[p b]|].
  2:{ exists None, s. split; [done|]. split; [|done]. rewrite Hb. set_solver. }
  destruct Hb as (Hp & Hin & Hmax).
  destruct (check_ancestry_spec s p (cw_index _ Hwf) (S (Z.to_nat (nHeight b))) p b Hp ltac:(lia)) as (a & -> & Hok & Hinv).
  cbn [mbind option_bind].
  assert (forall st, a <> AncestryOk ->
    st = arena s \/ (st = <[p := or_status b BLOCK_FAILED_CHILD]> (arena s) /\ ~ unmarked_path s p) ->
    exists r s', find_most_work fuel (set_arena (set_candidates s (m_setBlockIndexCandidates s ∖ {[ p ]})) st)
      = Some (r, s') /\ best_choice s r s') as Hnext.
  { intros st Ha Hst. edestruct (IH _ (candidates_wf_drop s p b st Hwf Hp ltac:(tauto))) as (r & s' & -> & Hr).
    - cbn. rewrite size_difference, size_singleton by set_solver.
      assert (size ({[ p ]} : gset addr) <= size (m_setBlockIndexCandidates s))%nat by (apply subseteq_size; set_solver).
      rewrite size_singleton in *. lia.
    - exists r, s'. split; [done|]. eapply best_choice_drop; [done|by rewrite <- Hok|done|done]. }
  destruct a.
  - exists (Some p), s. split; [done|]. split; [|done]. split_and!; [done|by apply Hok|].
    intros q bp bq Hq _ Hbp Hbq. replace bp with b by congruence. by apply (Hmax q).
  - destruct (IsInvalid b); [by apply (Hnext (arena s)); auto|]. apply Hnext; auto.
  - by apply (Hnext (arena s)); auto.
Qed.

(** C26: [FindMostWorkChainImpl] terminates with the best candidate whose chain
    can be activated.  On a well-formed tree it returns a candidate from which
    every block down to the active chain is free of failure marks and (but for
    the leaf) has its data, and no such candidate has more work; it returns
    null only when there is none, and it never drops such a candidate. *)
Theorem FindMostWork_best (s : CChainState) (Hwf : candidates_wf s) :
  exists r s', FindMostWorkChainImpl s = Some (r, s') /\ best_choice s r s'.
Proof. apply find_most_work_spec; [done|lia]. Qed.

(** ** Adding entries *)

Lemma status_ok_or b flag : status_ok b -> 0 <= flag < 2 ^ 32 -> status_ok (or_status b flag).
Proof. intros Hs Hf. unfold status_ok in *. cbn. split; [apply Z.lor_nonneg; lia|by apply lor_range]. Qed.

Lemma index_wf_add st p b : st !! p = None -> link_wf st b -> pskip b = None -> index_wf st -> index_wf (<[p := b]> st).
Proof.
  intros Hp Hl Hk Hwf. assert (forall x, link_wf st x -> link_wf (<[p := b]> st) x) as Hx.
  { intros x [H0 H1]. split; [done|]. destruct (pprev x) as [q|]; [|done]. destruct H1 as (bq & Hq & Hh).
    exists bq. rewrite lookup_insert_ne; [done|]. intros ->. congruence. }
  apply map_Forall_insert_2; [by split; [apply Hx|]|]. intros x bx E. destruct (Hwf x bx E). auto.
Qed.

Lemma tree_wf_new s hash p b : tree_wf s -> mapBlockIndex s !! hash = None -> arena s !! p = None ->
  link_wf (arena s) b -> pskip b = None -> status_ok b ->
  tree_wf (set_map (set_arena s (<[p := b]> (arena s))) (<[hash := p]> (mapBlockIndex s))).
Proof.
  intros [H1 H2 H3] Hh Hp Hl Hk Hs. split; cbn.
  - by apply index_wf_add.
  - by apply map_Forall_insert_2.
  - intros q. rewrite lookup_insert_is_Some. split.
    + intros [<-|[Hne Hq]]; [exists hash; apply lookup_insert_eq|]. apply H3 in Hq as [h Hh']. exists h.
      rewrite lookup_insert_ne; [done|]. intros ->. congruence.
    + intros [h Hh']. destruct (decide (hash = h)) as [->|Hne].
      * rewrite lookup_insert_eq in Hh'. injection Hh' as <-. by left.
      * rewrite lookup_insert_ne in Hh' by done. right. split; [|apply H3; by exists h]. intros <-.
        assert (is_Some (arena s !! p)) as [? ?] by (apply H3; by exists h). congruence.
Qed.

Lemma tree_wf_status s p b flag : tree_wf s -> arena s !! p = Some b -> 0 <= flag < 2 ^ 32 ->
  tree_wf (set_arena s (<[p := or_status b flag]> (arena s))).
Proof.
  intros [H1 H2 H3] Hp Hf. split; cbn.
  - by apply index_wf_status.
  - apply map_Forall_insert_2; [|done]. apply status_ok_or; [by apply (H2 p)|done].
  - intros q. rewrite lookup_insert_is_Some, <- H3. split; [intros [<-|[_ ?]]; [by rewrite Hp|done]|].
    destruct (decide (p = q)); [by left|by right].
Qed.

(** [AddBlockIndex] keeps the tree well-formed.  Whenever it returns (the
    invariants hold), every entry's parent is in the store one height below,
    genesis entries are at height 0, the map owns exactly the store's entries
    and the hash is known afterwards; an existing entry only gains status bits,
    and no other entry changes. *)
Theorem AddBlockIndex_preserves (s s' : CChainState) (hash : uint256) (p : addr) (b : CBlockIndex) (r : bool)
    (Hwf : tree_wf s) (Hfresh : arena s !! p = None) (Hskip : pskip b = None) (Hstatus : status_ok b)
    (Hlink : HasBlockIndex s hash = true -> link_wf (arena s) b)
    (Hrun : AddBlockIndex s hash (Some (p, b)) = Some (r, s')) :
  r = true /\ tree_wf s' /\ GetBlockHash b = hash /\ HasBlockIndex s' hash = true /\
  match mapBlockIndex s !! hash with
  | None => GetBlockIndex s' hash = Some p /\ arena s' = <[p := b]> (arena s)
  | Some q => mapBlockIndex s' = mapBlockIndex s /\
      arena s' = alter (fun e => or_status e (nStatus b)) q (arena s)
  end.
Proof.
  cbn [AddBlockIndex] in Hrun. destruct (decide (GetBlockHash b = hash)) as [Eh|]; [|by rewrite bool_decide_false in Hrun].
  rewrite bool_decide_true in Hrun by done. cbn [abort_unless] in Hrun. unfold HasBlockIndex in *.
  destruct (mapBlockIndex s !! hash) as [q|] eqn:Em.
  - specialize (Hlink eq_refl). assert (is_Some (arena s !! q)) as [e He] by (apply (tw_owned _ Hwf); by exists hash).
    rewrite He in Hrun. cbn [mbind option_bind] in Hrun. unfold merge_entry in Hrun.
    destruct (Z.eqb_spec (nHeight e) (nHeight b)) as [Hh|]; [|done].
    destruct (bool_decide _) in Hrun; [|done]. cbn [abort_unless] in Hrun.
    assert (Some (true, set_arena s (<[q := or_status e (nStatus b)]> (arena s))) = Some (r, s')) as [= <- <-].
    { destruct (tw_index _ Hwf q e He) as [[Hq0 Hql] _]. destruct Hlink as [Hb0 Hbl].
      destruct (pprev e) as [x|] eqn:Ex, (pprev b) as [y|] eqn:Ey; try exact Hrun.
      - destruct (arena s !! x); [|done]. destruct (arena s !! y); [|done]. cbn [mbind option_bind] in Hrun.
        destruct (bool_decide _) in Hrun; [exact Hrun|done].
      - destruct Hbl as (bq & Hq & Hhq). destruct (tw_index _ Hwf y bq Hq) as [[? _] _]. lia. }
    cbn. rewrite Em. split_and!; [done|by apply tree_wf_status|done|done|done|].
    apply map_eq. intros x. destruct (decide (q = x)) as [->|Hne].
    + by rewrite lookup_insert_eq, lookup_alter_eq, He.
    + by rewrite lookup_insert_ne, lookup_alter_ne.
  - assert (link_wf (arena s) b /\ Some (true, set_map (set_arena s (<[p := b]> (arena s))) (<[hash := p]> (mapBlockIndex s)))
      = Some (r, s')) as [Hl [= <- <-]].
    { unfold link_wf. destruct (pprev b) as [q|].
      - destruct (arena s !! q) as [bq|] eqn:Eq; [|done]. cbn [mbind option_bind] in Hrun.
        case_bool_decide; [|discriminate Hrun]. cbn [abort_unless] in Hrun.
        destruct (Z.eqb_spec (nHeight b) (nHeight bq + 1)); [|done]. destruct (tw_index _ Hwf q bq Eq) as [[? _] _].
        split_and!; [lia|by exists bq|exact Hrun].
      - destruct (Z.eqb_spec (nHeight b) 0); [|done]. split_and!; [lia|done|exact Hrun]. }
    unfold GetBlockIndex. cbn. rewrite lookup_insert_eq. split_and!; try done. by apply tree_wf_new.
Qed.

(** ** Instances *)

Definition sample_hash (n : Z) : uint256 := le_bytes 32 n.

(** A fork: 1 <- 2 <- 3 and 1 <- 4, the block's number as its hash. *)
Definition sample_entry (n : Z) (prev : option addr) (height work : Z) : CBlockIndex :=
  mkIndex (mkHeader 1 zero256 zero256 0 0 0 zero256 zero256 zero256 false) prev None None height 0 0 0
    (le_bytes 32 work) 1 (BLOCK_VALID_TRANSACTIONS + BLOCK_HAVE_DATA) n 0 0 0 1 (sample_hash n).

Definition sample_tree : CChainState :=
  mkChainState
    (list_to_map [(1%positive, sample_entry 1 None 0 10); (2%positive, sample_entry 2 (Some 1%positive) 1 20);
                  (3%positive, sample_entry 3 (Some 2%positive) 2 30); (4%positive, sample_entry 4 (Some 1%positive) 1 25)])
    (list_to_map [(sample_hash 1, 1%positive); (sample_hash 2, 2%positive);
                  (sample_hash 3, 3%positive); (sample_hash 4, 4%positive)])
    (Some 4%positive) {[ 3%positive; 4%positive ]} 1 0 false 0 zero256 false UndoFailure 0 (-1).

Definition tree_wfb (s : CChainState) : bool :=
  index_wfb (arena s) && forallb (fun e => (0 <=? nStatus e.2) && (nStatus e.2 <? 2 ^ 32)) (map_to_list (arena s)) &&
  forallb (fun p => bool_decide (p ∈ (map_to_list (mapBlockIndex s)).*2)) (map_to_list (arena s)).*1 &&
  forallb (fun p => bool_decide (is_Some (arena s !! p))) (map_to_list (mapBlockIndex s)).*2.

Lemma tree_wfb_sound s : tree_wfb s = true -> tree_wf s.
Proof.
  unfold tree_wfb. rewrite !andb_true_iff. intros [[[H1 H2] H3] H4]. rewrite !forallb_forall in *. split.
  - by apply index_wfb_sound.
  - intros p b Hp. apply elem_of_map_to_list, list_elem_of_In in Hp. apply H2 in Hp. unfold status_ok. cbn in Hp. lia.
  - intros p. split.
    + intros [b Hp]. assert (In p (map_to_list (arena s)).*1) as Hin.
      { apply list_elem_of_In, list_elem_of_fmap. exists (p, b). split; [done|]. by apply elem_of_map_to_list. }
      apply H3, bool_decide_eq_true, list_elem_of_fmap in Hin as ([h q] & -> & Hin).
      exists h. by apply elem_of_map_to_list.
    + intros [h Hh]. apply (bool_decide_eq_true (is_Some (arena s !! p))). apply H4, list_elem_of_In, list_elem_of_fmap. exists (h, p).
      split; [done|]. by apply elem_of_map_to_list.
Qed.

Lemma sample_tree_wf : tree_wf sample_tree.
Proof. apply tree_wfb_sound. vm_compute. reflexivity. Qed.

Lemma FindFork_correct_witness :
  FindFork (arena sample_tree) (Some 3%positive) (Some 4%positive) = Some (Some 1%positive) /\
  ancestor (arena sample_tree) 1%positive 3%positive /\ ancestor (arena sample_tree) 1%positive 4%positive.
Proof.
  destruct (FindFork_correct (arena sample_tree) 3%positive 4%positive
    (sample_entry 3 (Some 2%positive) 2 30) (sample_entry 4 (Some 1%positive) 1 25)) as (r & E & H).
  - apply sample_tree_wf.
  - vm_compute. reflexivity.
  - vm_compute. reflexivity.
  - assert (FindFork (arena sample_tree) (Some 3%positive) (Some 4%positive) = Some (Some 1%positive)) as E'
      by (vm_compute; reflexivity).
    rewrite E' in E. injection E as <-. destruct H as (H1 & H2 & _). split; [exact E'|]. split; assumption.
Defined.

Lemma invalidate_reconsider_witness :
  exists s' s'', InvalidateBlockImpl sample_tree (sample_hash 2) = Some (true, s') /\
    3%positive ∉ m_setBlockIndexCandidates s' /\
    ReconsiderBlockImpl s' (sample_hash 2) = Some (true, s'') /\ arena s'' = arena sample_tree.
Proof.
  destruct (invalidate_reconsider sample_tree (sample_hash 2) 2%positive (sample_entry 2 (Some 1%positive) 1 20))
    as (s' & E & _ & _ & Hc & Hr).
  - apply sample_tree_wf.
  - vm_compute. reflexivity.
  - vm_compute. reflexivity.
  - destruct Hr as (s'' & E' & Ha).
    { apply (map_Forall_to_list (fun _ b => IsInvalid b = false)). vm_compute. repeat constructor. }
    exists s', s''. split; [exact E|]. split; [|split; assumption]. apply Hc. exists 1%nat. vm_compute. reflexivity.
Defined.

Lemma FindMostWork_best_witness :
  exists r s', FindMostWorkChainImpl sample_tree = Some (r, s') /\ r = Some 3%positive /\ best_choice sample_tree r s'.
Proof.
  destruct (FindMostWork_best sample_tree) as (r & s' & E & H).
  - split; [apply sample_tree_wf| |].
    + apply map_Forall_to_list. vm_compute. repeat constructor; discriminate.
    + intros q Hq. apply elem_of_union in Hq as [->%elem_of_singleton| ->%elem_of_singleton]; by eexists; vm_compute.
  - exists r, s'. split; [exact E|]. split; [|exact H].
    assert (fst <$> FindMostWorkChainImpl sample_tree = Some (Some 3%positive)) as E' by (vm_compute; reflexivity).
    rewrite E in E'. cbn in E'. by injection E' as ->.
Defined.

Lemma AddBlockIndex_preserves_witness :
  exists s', AddBlockIndex sample_tree (sample_hash 5) (Some (5%positive, sample_entry 5 (Some 3%positive) 3 40)) = Some (true, s') /\
    tree_wf s' /\ GetBlockIndex s' (sample_hash 5) = Some 5%positive.
Proof.
  destruct (AddBlockIndex sample_tree (sample_hash 5) (Some (5%positive, sample_entry 5 (Some 3%positive) 3 40)))
    as [[r s']|] eqn:E; [|vm_compute in E; discriminate E].
  destruct (AddBlockIndex_preserves sample_tree s' (sample_hash 5) 5%positive (sample_entry 5 (Some 3%positive) 3 40) r)
    as (-> & Hwf & _ & _ & H); try reflexivity.
  - apply sample_tree_wf.
  - unfold status_ok. vm_compute. split; [discriminate|reflexivity].
  - intros Hin. vm_compute in Hin. discriminate Hin.
  - exact E.
  - exists s'. split; [reflexivity|]. split; [exact Hwf|]. apply H.
Defined.

(** Evicting a block on a side branch frees it under its descendants: after the
    eviction block 3 is still owned by the map and its parent is gone. *)
Example evict_leaves_dangling_parent :
  (fun r => (r.1, GetBlockIndex r.2 (sample_hash 3), arena r.2 !! 3%positive ≫= pprev, bool_decide (is_Some (arena r.2 !! 2%positive))))
    <$> EvictLowestWorkNotOnBestChain sample_tree
  = Some (true, Some 3%positive, Some 2%positive, false).
Proof. vm_compute. reflexivity. Qed.

(** Three candidates of equal work that each come before the next: the
    comparison of [std::set] is not a strict weak ordering. *)
Definition tied_entry (vdf seq : Z) : CBlockIndex :=
  mkIndex (mkHeader 1 zero256 zero256 0 0 0 (le_bytes 32 vdf) zero256 zero256 false) None None None 0 0 0 0
    (le_bytes 32 1) 1 11 seq 0 0 0 1 (le_bytes 32 (seq + 1)).

Example comparator_cycle :
  let a := tied_entry 0 2 in let b := tied_entry 1 3 in let c := tied_entry 9 1 in
  candidate_before 1 a 2 b = true /\ candidate_before 2 b 3 c = true /\ candidate_before 3 c 1 a = true.
Proof. vm_compute. done. Qed.
