(* ===== verification/Doubles.v ===== *)
(** * IEEE 754 doubles and byte-string order

    The [double]s of the source as the binary64 instance of the Standard
    Library's [SpecFloat], which evaluates, with what ordering code needs: the
    comparison is a total order outside NaN, and a quotient of amounts is not
    NaN.  [memcmp_lt] is [memcmp(a, b, n) < 0], the order of the containers
    keyed by hashes. *)

From Stdlib Require Import SpecFloat.
From S2P Require Import Prelude.

Abbreviation double := spec_float.

(** [static_cast<double>(z)] and [a / b]. *)
Definition double_of_Z (z : Z) : double := binary_normalize 53 1024 z 0 false.
Definition double_div (a b : double) : double := SFdiv 53 1024 a b.
Definition double_lt (a b : double) : bool := SFltb a b.
Definition double_eq (a b : double) : bool := SFeqb a b.

(** ** Comparison *)

(** A double's place in the order: class, exponent, mantissa. *)
Definition double_key (x : double) : Z * Z * Z :=
  match x with
  | S754_infinity true => (0, 0, 0)
  | S754_finite true m e => (1, - e, - Z.pos m)
  | S754_zero _ | S754_nan => (2, 0, 0)
  | S754_finite false m e => (3, e, Z.pos m)
  | S754_infinity false => (4, 0, 0)
  end.

Definition key_lt (a b : Z * Z * Z) : Prop :=
  a.1.1 < b.1.1 \/ (a.1.1 = b.1.1 /\ (a.1.2 < b.1.2 \/ (a.1.2 = b.1.2 /\ a.2 < b.2))).

Lemma SFcompare_key x y : x <> S754_nan -> y <> S754_nan ->
  match SFcompare x y with
  | Some Lt => key_lt (double_key x) (double_key y)
  | Some Eq => double_key x = double_key y
  | Some Gt => key_lt (double_key y) (double_key x)
  | None => False
  end.
Proof.
  intros Hx Hy. unfold key_lt.
  destruct x as [[]|[]| |[] m e], y as [[]|[]| |[] m' e']; cbn; try done; try lia.
  - change (Pos.compare_cont Eq m m') with (m ?= m')%positive.
    destruct (Z.compare_spec e e'); cbn; try lia. destruct (Pos.compare_spec m m'); cbn; try lia. congruence.
  - change (Pos.compare_cont Eq m m') with (m ?= m')%positive.
    destruct (Z.compare_spec e e'); cbn; try lia. destruct (Pos.compare_spec m m'); cbn; try lia. congruence.
Qed.

Lemma double_lt_key x y : x <> S754_nan -> y <> S754_nan ->
  double_lt x y = true <-> key_lt (double_key x) (double_key y).
Proof.
  intros Hx Hy. pose proof (SFcompare_key x y Hx Hy) as H. unfold double_lt, SFltb.
  destruct (SFcompare x y) as [[]|]; [|done| |done].
  - split; [done|]. rewrite H. unfold key_lt. lia.
  - split; [done|]. revert H. unfold key_lt. lia.
Qed.

Lemma double_eq_key x y : x <> S754_nan -> y <> S754_nan ->
  double_eq x y = true <-> double_key x = double_key y.
Proof.
  intros Hx Hy. pose proof (SFcompare_key x y Hx Hy) as H. unfold double_eq, SFeqb.
  destruct (SFcompare x y) as [[]|]; [done| | |done]; (split; [done|]; intros E; rewrite E in H; unfold key_lt in H; lia).
Qed.

Lemma key_lt_trans a b c : key_lt a b -> key_lt b c -> key_lt a c.
Proof. unfold key_lt. lia. Qed.

Lemma key_trichotomy a b : key_lt a b \/ a = b \/ key_lt b a.
Proof.
  destruct a as [[a1 a2] a3], b as [[b1 b2] b3]. unfold key_lt. cbn.
  destruct (decide (a1 = b1)) as [->|], (decide (a2 = b2)) as [->|], (decide (a3 = b3)) as [->|]; auto; lia.
Qed.

Lemma key_lt_irrefl a : ~ key_lt a a.
Proof. unfold key_lt. lia. Qed.

(** ** Conversions and quotients are not NaN *)

Lemma iter_shr_nonneg n : forall mrs, 0 <= shr_m mrs -> 0 <= shr_m (SpecFloat.iter_pos shr_1 n mrs).
Proof.
  assert (forall mrs, 0 <= shr_m mrs -> 0 <= shr_m (shr_1 mrs)) as H1.
  { intros [[|[p|p|]|p] r s]; cbn; lia. }
  induction n as [n IH|n IH|]; intros mrs H; cbn [SpecFloat.iter_pos]; auto.
Qed.

Lemma shr_fexp_nonneg m e l : 0 <= m -> 0 <= shr_m (shr_fexp 53 1024 m e l).1.
Proof.
  intros Hm. assert (0 <= shr_m (shr_record_of_loc m l)) as H by (destruct l as [|[]]; done).
  unfold shr_fexp, shr. destruct (_ - e); cbn [fst]; [done| |done]. by apply iter_shr_nonneg.
Qed.

Lemma round_aux_not_nan s m e l : 0 <= m -> binary_round_aux 53 1024 s m e l <> S754_nan.
Proof.
  intros Hm. unfold binary_round_aux. pose proof (shr_fexp_nonneg m e l Hm) as H1.
  destruct (shr_fexp 53 1024 m e l) as [mrs e1]. cbn [fst] in H1.
  assert (0 <= round_nearest_even (shr_m mrs) (loc_of_shr_record mrs)) as H2.
  { destruct (loc_of_shr_record mrs) as [|[]]; cbn; try lia. destruct (Z.even _); lia. }
  pose proof (shr_fexp_nonneg _ e1 loc_Exact H2) as H3.
  destruct (shr_fexp 53 1024 (round_nearest_even _ _) e1 loc_Exact) as [mrs2 e2]. cbn [fst] in H3.
  destruct (shr_m mrs2); [done| |lia]. by destruct (_ <=? _).
Qed.

Lemma double_of_Z_not_nan z : double_of_Z z <> S754_nan.
Proof.
  unfold double_of_Z, binary_normalize, binary_round. destruct z as [|p|p]; [done| |];
    destruct (shl_align _ _ _); by apply round_aux_not_nan.
Qed.

Lemma digits_iter p k : Z.pos (digits2_pos (Pos.iter xO p k)) = Z.pos (digits2_pos p) + Z.pos k.
Proof.
  induction k as [|k IH] using Pos.peano_ind; cbn; [lia|]. rewrite Pos.iter_succ. cbn [digits2_pos]. lia.
Qed.

Lemma digits_bound p n : Z.pos p < 2 ^ n -> 0 <= n -> Z.pos (digits2_pos p) <= n.
Proof.
  revert n. induction p as [p IH|p IH|]; intros n Hp Hn; cbn [digits2_pos].
  - assert (n <> 0) by (intros ->; lia). replace n with (Z.succ (n - 1)) in Hp by lia. rewrite Z.pow_succ_r in Hp by lia.
    specialize (IH (n - 1) ltac:(lia) ltac:(lia)). lia.
  - assert (n <> 0) by (intros ->; lia). replace n with (Z.succ (n - 1)) in Hp by lia. rewrite Z.pow_succ_r in Hp by lia.
    specialize (IH (n - 1) ltac:(lia) ltac:(lia)). lia.
  - assert (n <> 0) by (intros ->; lia). lia.
Qed.

(** An integer below 2^53 converts exactly. *)
Lemma double_of_Z_finite z : 0 < z < 2 ^ 53 -> exists m e, double_of_Z z = S754_finite false m e.
Proof.
  intros Hz. destruct z as [|p|p]; [lia| |lia]. pose proof (digits_bound p 53 ltac:(lia) ltac:(lia)) as Hd.
  unfold double_of_Z, binary_normalize, binary_round.
  assert (exists m, shl_align p 0 (fexp 53 1024 (Z.pos (digits2_pos p) + 0)) = (m, Z.pos (digits2_pos p) - 53) /\
    Z.pos (digits2_pos m) = 53) as (m & -> & Hm).
  { unfold fexp, emin, shl_align. rewrite Z.max_l by lia.
    replace (Z.pos (digits2_pos p) + 0 - 53 - 0) with (Z.pos (digits2_pos p) - 53) by lia.
    destruct (Z.pos (digits2_pos p) - 53) as [|k|k] eqn:E; [|lia|].
    - exists p. split; [done|lia].
    - exists (Pos.iter xO p k). split; [f_equal; lia|]. rewrite digits_iter. lia. }
  set (e := Z.pos (digits2_pos p) - 53) in *. exists m, e.
  assert (shr_fexp 53 1024 (Z.pos m) e loc_Exact = (Build_shr_record (Z.pos m) false false, e)) as Hs.
  { unfold shr_fexp, fexp, emin, shr. cbn [Zdigits2]. rewrite Hm, Z.max_l by lia.
    by replace (53 + e - 53 - e) with 0 by lia. }
  unfold binary_round_aux. rewrite Hs. cbn [shr_m loc_of_shr_record round_nearest_even]. rewrite Hs. cbn [shr_m].
  destruct (Z.leb_spec e (1024 - 53)); [done|lia].
Qed.

Lemma double_div_not_nan x z : x <> S754_nan -> 0 < z < 2 ^ 53 -> double_div x (double_of_Z z) <> S754_nan.
Proof.
  intros Hx (m & e & ->)%double_of_Z_finite. unfold double_div. destruct x as [s|s| |s m1 e1]; cbn [SFdiv]; try done.
  destruct (SFdiv_core_binary 53 1024 (Z.pos m1) e1 (Z.pos m) e) as [[q e'] l] eqn:E. apply round_aux_not_nan.
  unfold SFdiv_core_binary in E. destruct (Z.div_eucl _ (Z.pos m)) as [q' r] eqn:Ed. injection E as <- _ _.
  match type of Ed with Z.div_eucl ?a ?b = _ => assert (0 <= a) as Ha; [|replace q' with (a / b) by (unfold Z.div; by rewrite Ed)] end.
  - case_match; [lia|by apply Z.shiftl_nonneg|lia].
  - by apply Z.div_pos.
Qed.

(** ** Byte strings *)

Fixpoint memcmp_lt (a b : list Z) : bool :=
  match a, b with
  | x :: a', y :: b' => if x =? y then memcmp_lt a' b' else x <? y
  | [], _ :: _ => true
  | _, [] => false
  end.

Lemma memcmp_lt_irrefl a : memcmp_lt a a = false.
Proof. induction a as [|x a IH]; cbn; [done|]. by rewrite Z.eqb_refl. Qed.

Lemma memcmp_lt_trans a : forall b c, memcmp_lt a b = true -> memcmp_lt b c = true -> memcmp_lt a c = true.
Proof.
  induction a as [|x a IH]; intros [|y b] [|z c]; cbn; try done.
  intros H1 H2. destruct (Z.eqb_spec x y), (Z.eqb_spec y z), (Z.eqb_spec x z); subst; rewrite ?Z.ltb_lt in *; try lia; eauto.
Qed.

Lemma memcmp_lt_total a : forall b, memcmp_lt a b = false -> memcmp_lt b a = false -> a = b.
Proof.
  induction a as [|x a IH]; intros [|y b]; cbn; try done. rewrite (Z.eqb_sym y x).
  destruct (Z.eqb_spec x y) as [->|]; [|rewrite !Z.ltb_ge; lia]. intros H1 H2. f_equal. by apply IH.
Qed.
