(* ===== verification/Mempool.v ===== *)
(** * The memory pool (node/mempool.h, node/mempool.cpp)

    [CTxMemPool] with all its operations: validation, insertion under the
    rollback guard, eviction, expiry, replacement by fee, removal of confirmed
    transactions and the queries.  An entry is never changed while the map owns
    it, so an element of [setEntries], a pointer into the map, is the entry
    itself.  Allocation can fail at a chosen point of an insertion
    ([alloc_failure]).  The calls into the fee estimator, made after the lock
    is released, are returned as a list of events. *)

From Stdlib Require Import SpecFloat.
From S2P Require Import Prelude Uint256 Doubles Transaction Fees.

(** ** Data *)

(** [Consensus::CalculateFeeRate] (consensus/fees.cpp) *)
Definition CalculateFeeRate (fee_paid tx_size : Z) : double :=
  if tx_size =? 0 then S754_zero false else double_div (double_of_Z fee_paid) (double_of_Z tx_size).

Record CTxMemPoolEntry := mkEntry {
  e_tx : CTransaction;
  tx_hash : uint256;
  e_fee : Z;
  tx_size : Z;
  fee_rate : double;
  e_time : Z;
  e_height : Z
}.

#[export] Instance double_eq_dec : EqDecision double.
Proof. solve_decision. Defined.
#[export] Instance CTxMemPoolEntry_eq_dec : EqDecision CTxMemPoolEntry.
Proof. solve_decision. Defined.

(** [CompareTxMemPoolEntryByFeeRate] *)
Definition entry_before (a b : CTxMemPoolEntry) : bool :=
  if negb (double_eq (fee_rate a) (fee_rate b)) then double_lt (fee_rate b) (fee_rate a)
  else if negb (e_time a =? e_time b) then e_time a <? e_time b
  else memcmp_lt (tx_hash a) (tx_hash b).

(** [std::set] under that order: an element equivalent to the key is not
    inserted again, and erasing a key erases the elements equivalent to it. *)
Fixpoint set_insert (e : CTxMemPoolEntry) (l : list CTxMemPoolEntry) : list CTxMemPoolEntry :=
  match l with
  | [] => [e]
  | x :: l' => if entry_before x e then x :: set_insert e l' else if entry_before e x then e :: l else l
  end.
Definition set_erase (e : CTxMemPoolEntry) (l : list CTxMemPoolEntry) : list CTxMemPoolEntry :=
  filter (fun x => entry_before x e = true \/ entry_before e x = true) l.

Record MempoolMetrics := mkMetrics {
  total_adds : Z;
  total_removes : Z;
  total_evictions : Z;
  total_expirations : Z;
  total_rbf_replacements : Z;
  total_add_failures : Z;
  total_rbf_failures : Z;
  total_rebroadcasts : Z
}.

Record CTxMemPool := mkPool {
  mapTx : gmap uint256 CTxMemPoolEntry;
  setEntries : list CTxMemPoolEntry;
  mapSpentOutpoints : gset COutPoint;
  mapDescendants : gmap uint256 (gset uint256);
  mempool_size : Z;
  mempool_count : Z;
  max_mempool_size : Z;
  max_mempool_count : Z;
  mp_nHeight : Z;
  metrics : MempoolMetrics;
  m_pending_estimator_evictions : list uint256
}.

Definition DEFAULT_MAX_MEMPOOL_SIZE : Z := 300 * 1024 * 1024.
Definition DEFAULT_MAX_MEMPOOL_COUNT : Z := 100000.
Definition MEMPOOL_EXPIRY_SECONDS : Z := 14 * 24 * 60 * 60.
Definition MAX_TIME_SKEW : Z := 2 * 60 * 60.
Definition MAX_TX_SIZE : Z := 1000000.
Definition SIZE_MAX : Z := 2 ^ 64 - 1.

(** [CTxMemPool::CTxMemPool] *)
Definition empty_pool : CTxMemPool :=
  mkPool ∅ [] ∅ ∅ 0 0 DEFAULT_MAX_MEMPOOL_SIZE DEFAULT_MAX_MEMPOOL_COUNT 0 (mkMetrics 0 0 0 0 0 0 0 0) [].

(** The transactions and their indexes. *)
Definition set_core (p : CTxMemPool) (m : gmap uint256 CTxMemPoolEntry) (s : list CTxMemPoolEntry) (sp : gset COutPoint)
    (d : gmap uint256 (gset uint256)) (sz n : Z) : CTxMemPool :=
  mkPool m s sp d sz n (max_mempool_size p) (max_mempool_count p) (mp_nHeight p) (metrics p) (m_pending_estimator_evictions p).
Definition set_map (p : CTxMemPool) m : CTxMemPool :=
  set_core p m (setEntries p) (mapSpentOutpoints p) (mapDescendants p) (mempool_size p) (mempool_count p).
Definition set_entries (p : CTxMemPool) s : CTxMemPool :=
  set_core p (mapTx p) s (mapSpentOutpoints p) (mapDescendants p) (mempool_size p) (mempool_count p).
Definition set_spent (p : CTxMemPool) sp : CTxMemPool :=
  set_core p (mapTx p) (setEntries p) sp (mapDescendants p) (mempool_size p) (mempool_count p).
Definition set_descendants (p : CTxMemPool) d : CTxMemPool :=
  set_core p (mapTx p) (setEntries p) (mapSpentOutpoints p) d (mempool_size p) (mempool_count p).
Definition set_size (p : CTxMemPool) n : CTxMemPool :=
  set_core p (mapTx p) (setEntries p) (mapSpentOutpoints p) (mapDescendants p) n (mempool_count p).
Definition set_count (p : CTxMemPool) n : CTxMemPool :=
  set_core p (mapTx p) (setEntries p) (mapSpentOutpoints p) (mapDescendants p) (mempool_size p) n.
Definition set_metrics (p : CTxMemPool) (m : MempoolMetrics) : CTxMemPool :=
  mkPool (mapTx p) (setEntries p) (mapSpentOutpoints p) (mapDescendants p) (mempool_size p) (mempool_count p)
    (max_mempool_size p) (max_mempool_count p) (mp_nHeight p) m (m_pending_estimator_evictions p).
Definition set_pending (p : CTxMemPool) (l : list uint256) : CTxMemPool :=
  mkPool (mapTx p) (setEntries p) (mapSpentOutpoints p) (mapDescendants p) (mempool_size p) (mempool_count p)
    (max_mempool_size p) (max_mempool_count p) (mp_nHeight p) (metrics p) l.

Definition count_add (m : MempoolMetrics) : MempoolMetrics :=
  mkMetrics (u64 (total_adds m + 1)) (total_removes m) (total_evictions m) (total_expirations m)
    (total_rbf_replacements m) (total_add_failures m) (total_rbf_failures m) (total_rebroadcasts m).
Definition count_eviction (m : MempoolMetrics) : MempoolMetrics :=
  mkMetrics (total_adds m) (total_removes m) (u64 (total_evictions m + 1)) (total_expirations m)
    (total_rbf_replacements m) (total_add_failures m) (total_rbf_failures m) (total_rebroadcasts m).
Definition count_expiration (m : MempoolMetrics) : MempoolMetrics :=
  mkMetrics (total_adds m) (total_removes m) (total_evictions m) (u64 (total_expirations m + 1))
    (total_rbf_replacements m) (total_add_failures m) (total_rbf_failures m) (total_rebroadcasts m).
Definition count_rbf (m : MempoolMetrics) : MempoolMetrics :=
  mkMetrics (total_adds m) (total_removes m) (total_evictions m) (total_expirations m)
    (u64 (total_rbf_replacements m + 1)) (total_add_failures m) (total_rbf_failures m) (total_rebroadcasts m).
Definition count_add_failure (m : MempoolMetrics) : MempoolMetrics :=
  mkMetrics (total_adds m) (total_removes m) (total_evictions m) (total_expirations m)
    (total_rbf_replacements m) (u64 (total_add_failures m + 1)) (total_rbf_failures m) (total_rebroadcasts m).
Definition count_rbf_failure (m : MempoolMetrics) : MempoolMetrics :=
  mkMetrics (total_adds m) (total_removes m) (total_evictions m) (total_expirations m)
    (total_rbf_replacements m) (total_add_failures m) (u64 (total_rbf_failures m + 1)) (total_rebroadcasts m).
Definition count_rebroadcast (m : MempoolMetrics) : MempoolMetrics :=
  mkMetrics (total_adds m) (total_removes m) (total_evictions m) (total_expirations m)
    (total_rbf_replacements m) (total_add_failures m) (total_rbf_failures m) (u64 (total_rebroadcasts m + 1)).

Inductive PoolError : Set :=
| NullTx | CoinbaseNotAllowed | AlreadyInMempool | DoubleSpend | NegativeFee | TimeNotPositive | TimeTooFarInFuture
| HeightZero | FeeRejected (e : FeeError) | ExceedsMaxSize | SizeOverflow | FullCount | FullSize
| CannotEvict | InsertionFailed
| NullReplacement | NoConflicts | OriginalNotReplaceable | ReplacementNotSignalling | FeeNotHigher
| BandwidthNotPaid | TooManyReplaced | ConflictHasDescendants | RemoveConflictFailed.

(** What the estimator is told. *)
Inductive EstimatorEvent : Set :=
| EstRemove (txid : uint256) (in_block : bool)
| EstProcess (txid : uint256) (height fee size : Z) (valid_fee_estimate : bool).

(** Iteration over a map or set keyed by hash, in [std::map]'s order. *)
Definition hash_le (a b : uint256) : Prop := memcmp_lt b a = false.
#[export] Instance hash_le_dec : RelDecision hash_le.
Proof. intros a b. unfold hash_le. apply _. Defined.
Definition hashes_ordered (l : list uint256) : list uint256 := merge_sort hash_le l.
Definition map_entries (p : CTxMemPool) : list CTxMemPoolEntry :=
  omap (fun h => mapTx p !! h) (hashes_ordered (map_to_list (mapTx p)).*1).

(** Where an insertion can run out of memory: building the entry, the map, the
    set, the k-th spent outpoint, the guard's record of it, the k-th update of
    the descendants. *)
Inductive alloc_failure : Set :=
| FailEntry | FailMap | FailSet | FailSpent (k : nat) | FailTrack (k : nat) | FailDescendants (k : nat).

#[export] Instance alloc_failure_eq_dec : EqDecision alloc_failure.
Proof. solve_decision. Defined.

(** [MempoolInsertionGuard] *)
Record MempoolInsertionGuard := mkGuard {
  map_inserted : bool;
  set_inserted : bool;
  outpoints_added : list COutPoint;
  size_added : Z;
  count_incremented : bool;
  descendants_updated : bool
}.
Definition new_guard : MempoolInsertionGuard := mkGuard false false [] 0 false false.

Section Pool.
  Variable SHA3_256 : list Z -> uint256.

Definition make_entry (tx : CTransaction) (fee time height : Z) : CTxMemPoolEntry :=
  let size := GetSerializedSize tx in
  mkEntry tx (Tx_GetHash SHA3_256 tx) fee size (CalculateFeeRate fee size) time height.

(** ** Descendants *)

Definition HasDescendants (p : CTxMemPool) (txid : uint256) : bool :=
  match mapDescendants p !! txid with Some s => negb (bool_decide (s = ∅)) | None => false end.

Definition add_descendant (p : CTxMemPool) (txid : uint256) (input : CTxIn) : CTxMemPool :=
  let parent := op_hash (prevout input) in
  if bool_decide (is_Some (mapTx p !! parent))
  then set_descendants p (<[parent := {[ txid ]} ∪ default ∅ (mapDescendants p !! parent)]> (mapDescendants p))
  else p.

Definition UpdateDescendantsAdd (p : CTxMemPool) (tx : CTransaction) : CTxMemPool :=
  foldl (fun p i => add_descendant p (Tx_GetHash SHA3_256 tx) i) p (vin tx).

Definition remove_descendant (txid : uint256) (d : gmap uint256 (gset uint256)) (input : CTxIn)
  : gmap uint256 (gset uint256) :=
  let parent := op_hash (prevout input) in
  match d !! parent with
  | None => d
  | Some s => let s := s ∖ {[ txid ]} in if bool_decide (s = ∅) then delete parent d else <[parent := s]> d
  end.

Definition UpdateDescendantsRemove (p : CTxMemPool) (txid : uint256) : CTxMemPool :=
  match mapTx p !! txid with
  | None => p
  | Some e => set_descendants p (delete txid (foldl (remove_descendant txid) (mapDescendants p) (vin (e_tx e))))
  end.

(** ** Removal *)

Definition unspend (sp : gset COutPoint) (ins : list CTxIn) : gset COutPoint :=
  foldl (fun sp i => sp ∖ {[ prevout i ]}) sp ins.

(** The body shared by [RemoveTxUnlocked] and [RemoveConfirmedTxs]. *)
Definition RemoveTxUnlocked (p : CTxMemPool) (txid : uint256) : bool * CTxMemPool :=
  match mapTx p !! txid with
  | None => (false, p)
  | Some e =>
      let p := UpdateDescendantsRemove p txid in
      let p := set_spent p (unspend (mapSpentOutpoints p) (vin (e_tx e))) in
      let p := set_entries p (set_erase e (setEntries p)) in
      let p := set_size p (if mempool_size p <? tx_size e then 0 else mempool_size p - tx_size e) in
      let p := set_count p (if mempool_count p >? 0 then mempool_count p - 1 else mempool_count p) in
      (true, set_map p (delete txid (mapTx p)))
  end.

Definition RemoveTx (p : CTxMemPool) (txid : uint256) : bool * CTxMemPool * list EstimatorEvent :=
  let '(removed, p) := RemoveTxUnlocked p txid in
  (removed, p, if removed then [EstRemove txid false] else []).

Definition RemoveConfirmedTxs (p : CTxMemPool) (block_txs : list CTransaction) : CTxMemPool :=
  foldl (fun p tx => snd (RemoveTxUnlocked p (Tx_GetHash SHA3_256 tx))) p block_txs.

(** Removal of a list, counting each success and reporting it. *)
Definition remove_counted (count : MempoolMetrics -> MempoolMetrics) (acc : CTxMemPool * list uint256) (txid : uint256)
  : CTxMemPool * list uint256 :=
  let '(removed, p) := RemoveTxUnlocked acc.1 txid in
  if removed then (set_metrics p (count (metrics p)), acc.2 ++ [txid]) else (p, acc.2).

(** ** Eviction *)

(** The scan from the lowest fee rate; returns the chosen ids and the bytes. *)
Fixpoint select_evictions (p : CTxMemPool) (bytes_needed freed : Z) (l : list CTxMemPoolEntry) : list uint256 * Z :=
  match l with
  | [] => ([], freed)
  | e :: l' =>
      if HasDescendants p (tx_hash e) then select_evictions p bytes_needed freed l'
      else
        let freed := u64 (freed + tx_size e) in
        if freed >=? bytes_needed then ([tx_hash e], freed)
        else let '(ids, f) := select_evictions p bytes_needed freed l' in (tx_hash e :: ids, f)
  end.

Definition EvictTransactions (p : CTxMemPool) (bytes_needed : Z) : result PoolError unit * CTxMemPool :=
  let '(to_evict, bytes_freed) := select_evictions p bytes_needed 0 (rev (setEntries p)) in
  if bytes_freed <? bytes_needed then (Err CannotEvict, p)
  else
    let '(p, evicted) := foldl (remove_counted count_eviction) (p, []) to_evict in
    (Ok tt, set_pending p (m_pending_estimator_evictions p ++ evicted)).

Definition CleanupExpiredTransactions (p : CTxMemPool) (current_time : Z) : CTxMemPool * list EstimatorEvent :=
  let to_remove := omap (fun e => if (i64 (current_time - e_time e) >? MEMPOOL_EXPIRY_SECONDS) && negb (HasDescendants p (tx_hash e))
                                  then Some (tx_hash e) else None) (map_entries p) in
  let '(p, expired) := foldl (remove_counted count_expiration) (p, []) to_remove in
  (p, (fun txid => EstRemove txid false) <$> expired).

(** ** Admission *)

Definition ValidateLocked (p : CTxMemPool) (tx : option CTransaction) (fee time height current_time : Z)
    (bypass_fee_check : bool) : result PoolError unit :=
  match tx with
  | None => Err NullTx
  | Some tx =>
      reject IsCoinBase tx with CoinbaseNotAllowed;
      reject bool_decide (is_Some (mapTx p !! Tx_GetHash SHA3_256 tx)) with AlreadyInMempool;
      reject existsb (fun i => bool_decide (prevout i ∈ mapSpentOutpoints p)) (vin tx) with DoubleSpend;
      reject fee <? 0 with NegativeFee;
      reject time <=? 0 with TimeNotPositive;
      reject time >? i64 (current_time + MAX_TIME_SKEW) with TimeTooFarInFuture;
      reject height =? 0 with HeightZero;
      match (if bypass_fee_check then Ok tt else CheckFee tx fee true) with
      | Err e => Err (FeeRejected e)
      | Ok _ =>
          let size := GetSerializedSize tx in
          reject size >? MAX_TX_SIZE with ExceedsMaxSize;
          reject mempool_size p >? SIZE_MAX - size with SizeOverflow;
          reject mempool_count p >=? max_mempool_count p with FullCount;
          reject u64 (mempool_size p + size) >? max_mempool_size p with FullSize;
          Ok tt
      end
  end.

Definition TestAccept := ValidateLocked.

Definition Rollback (p : CTxMemPool) (txid : uint256) (g : MempoolInsertionGuard) : CTxMemPool :=
  let p := if descendants_updated g then UpdateDescendantsRemove p txid else p in
  let p := if count_incremented g && (mempool_count p >? 0) then set_count p (mempool_count p - 1) else p in
  let p := if size_added g >? 0
           then set_size p (if mempool_size p >=? size_added g then mempool_size p - size_added g else 0) else p in
  let p := set_spent p (foldl (fun sp o => sp ∖ {[ o ]}) (mapSpentOutpoints p) (outpoints_added g)) in
  let p := if set_inserted g
           then match mapTx p !! txid with Some e => set_entries p (set_erase e (setEntries p)) | None => p end else p in
  if map_inserted g then set_map p (delete txid (mapTx p)) else p.

(** Step 4; [true] when it completed. *)
Fixpoint track_outpoints (fail : option alloc_failure) (k : nat) (p : CTxMemPool) (ops : list COutPoint) (ins : list CTxIn)
  : bool * CTxMemPool * list COutPoint :=
  match ins with
  | [] => (true, p, ops)
  | i :: ins' =>
      if bool_decide (fail = Some (FailSpent k)) then (false, p, ops)
      else
        let p := set_spent p ({[ prevout i ]} ∪ mapSpentOutpoints p) in
        if bool_decide (fail = Some (FailTrack k)) then (false, p, ops)
        else track_outpoints fail (S k) p (ops ++ [prevout i]) ins'
  end.

(** Step 7; the k-th update may throw. *)
Fixpoint track_descendants (fail : option alloc_failure) (k : nat) (txid : uint256) (p : CTxMemPool) (ins : list CTxIn)
  : bool * CTxMemPool :=
  match ins with
  | [] => (true, p)
  | i :: ins' =>
      if bool_decide (fail = Some (FailDescendants k)) then (false, p)
      else track_descendants fail (S k) txid (add_descendant p txid i) ins'
  end.

(** The guarded insertion: whether it threw, the pool and the guard then. *)
Definition try_insert (fail : option alloc_failure) (p : CTxMemPool) (tx : CTransaction) (fee time height : Z)
  : bool * CTxMemPool * MempoolInsertionGuard :=
  let txid := Tx_GetHash SHA3_256 tx in
  let size := GetSerializedSize tx in
  if bool_decide (fail = Some FailEntry) then (true, p, new_guard)
  else
  let entry := make_entry tx fee time height in
  if bool_decide (fail = Some FailMap) then (true, p, new_guard)
  else
  let p := set_map p (<[txid := entry]> (mapTx p)) in
  if bool_decide (fail = Some FailSet) then (true, p, mkGuard true false [] 0 false false)
  else
  let p := set_entries p (set_insert entry (setEntries p)) in
  let '(done, p, ops) := track_outpoints fail 0 p [] (vin tx) in
  if negb done then (true, p, mkGuard true true ops 0 false false)
  else
  let p := set_size p (u64 (mempool_size p + size)) in
  let p := set_count p (u64 (mempool_count p + 1)) in
  let '(done, p) := track_descendants fail 0 txid p (vin tx) in
  if negb done then (true, p, mkGuard true true ops size true false)
  else (false, set_metrics p (count_add (metrics p)), mkGuard true true ops size true true).

Definition guarded_insert (fail : option alloc_failure) (p : CTxMemPool) (tx : CTransaction) (fee time height : Z)
  : result PoolError unit * CTxMemPool :=
  let '(threw, p', g) := try_insert fail p tx fee time height in
  if threw then
    let p' := set_metrics p' (count_add_failure (metrics p')) in
    (Err InsertionFailed, Rollback p' (Tx_GetHash SHA3_256 tx) g)
  else (Ok tt, p').

Definition is_full (e : PoolError) : bool := match e with FullCount | FullSize => true | _ => false end.

Definition make_room (p : CTxMemPool) (size : Z) : result PoolError unit * CTxMemPool :=
  let '(r, p) := if mempool_count p >=? max_mempool_count p then EvictTransactions p 1 else (Ok tt, p) in
  match r with
  | Err e => (Err e, p)
  | Ok _ =>
      if u64 (mempool_size p + size) >? max_mempool_size p
      then EvictTransactions p (u64 (u64 (mempool_size p + size) - max_mempool_size p)) else (Ok tt, p)
  end.

Definition AddTxUnlocked (fail : option alloc_failure) (p : CTxMemPool) (tx : option CTransaction)
    (fee time height current_time : Z) (bypass_fee_check : bool) : result PoolError unit * CTxMemPool :=
  match ValidateLocked p tx fee time height current_time bypass_fee_check, tx with
  | _, None => (Err NullTx, p)
  | v, Some tx =>
      if match v with Ok _ => true | Err e => is_full e end then
        let '(r, p) := make_room p (GetSerializedSize tx) in
        match r with
        | Err e => (Err e, p)
        | Ok _ => guarded_insert fail p tx fee time height
        end
      else (v, p)
  end.

Definition AddTx (fail : option alloc_failure) (p : CTxMemPool) (tx : option CTransaction) (fee time height current_time : Z)
    (bypass_fee_check : bool) : result PoolError unit * CTxMemPool * list EstimatorEvent :=
  let '(r, p) := AddTxUnlocked fail (set_pending p []) tx fee time height current_time bypass_fee_check in
  let evicted := (fun txid => EstRemove txid false) <$> m_pending_estimator_evictions p in
  let admitted := match r, tx with
                  | Ok _, Some tx => [EstProcess (Tx_GetHash SHA3_256 tx) height fee (GetSerializedSize tx) (negb bypass_fee_check)]
                  | _, _ => []
                  end in
  (r, set_pending p [], evicted ++ admitted).

(** ** Replacement by fee *)

Definition signals_rbf (tx : CTransaction) : bool := existsb (fun i => nSequence i <? 0xfffffffe) (vin tx).

Definition spends (tx : CTransaction) (o : COutPoint) : bool := existsb (fun i => bool_decide (prevout i = o)) (vin tx).

(** The conflicts with their fees, added up once for every input they share. *)
Definition find_conflicts (p : CTxMemPool) (acc : gset uint256 * Z) (input : CTxIn) : gset uint256 * Z :=
  if bool_decide (prevout input ∈ mapSpentOutpoints p) then
    foldl (fun acc e => if spends (e_tx e) (prevout input)
                        then ({[ tx_hash e ]} ∪ acc.1, i64 (acc.2 + e_fee e)) else acc) acc (map_entries p)
  else acc.

Fixpoint remove_conflicts (p : CTxMemPool) (ids : list uint256) : bool * CTxMemPool * list uint256 :=
  match ids with
  | [] => (true, p, [])
  | id :: ids' =>
      let '(removed, p) := RemoveTxUnlocked p id in
      if removed then let '(ok, p, done) := remove_conflicts p ids' in (ok, p, id :: done) else (false, p, [])
  end.

Definition check_replacement (p : CTxMemPool) (tx : CTransaction) (fee : Z) (conflicts : list uint256) (replaced_fees : Z)
  : result PoolError unit :=
  reject bool_decide (conflicts = []) with NoConflicts;
  reject existsb (fun id => match mapTx p !! id with Some e => negb (signals_rbf (e_tx e)) | None => false end) conflicts
    with OriginalNotReplaceable;
  reject negb (signals_rbf tx) with ReplacementNotSignalling;
  reject fee <=? replaced_fees with FeeNotHigher;
  reject i64 (fee - replaced_fees) <? i64 (GetSerializedSize tx) with BandwidthNotPaid;
  reject len conflicts >? 100 with TooManyReplaced;
  reject existsb (HasDescendants p) conflicts with ConflictHasDescendants;
  Ok tt.

Definition ReplaceTransactionLocked (fail : option alloc_failure) (p : CTxMemPool) (tx : option CTransaction)
    (fee time height current_time : Z) : result PoolError unit * CTxMemPool * list uint256 :=
  match tx with
  | None => (Err NullReplacement, p, [])
  | Some tx =>
      let '(set, replaced_fees) := foldl (find_conflicts p) (∅, 0) (vin tx) in
      let conflicts := hashes_ordered (elements set) in
      match check_replacement p tx fee conflicts replaced_fees with
      | Err e => (Err e, p, [])
      | Ok _ =>
          let '(ok, p, evicted) := remove_conflicts p conflicts in
          if ok then
            let '(r, p) := AddTxUnlocked fail p (Some tx) fee time height current_time false in
            match r with
            | Err e => (Err e, set_metrics p (count_rbf_failure (metrics p)), evicted)
            | Ok _ => (Ok tt, set_metrics p (count_rbf (metrics p)), evicted)
            end
          else (Err RemoveConflictFailed, p, evicted)
      end
  end.

Definition ReplaceTransaction (fail : option alloc_failure) (p : CTxMemPool) (tx : option CTransaction)
    (fee time height current_time : Z) (bypass_fee_check : bool) : result PoolError unit * CTxMemPool * list EstimatorEvent :=
  let '(r, p, conflicts) := ReplaceTransactionLocked fail (set_pending p []) tx fee time height current_time in
  let evicted := (fun txid => EstRemove txid false) <$> (conflicts ++ m_pending_estimator_evictions p) in
  let admitted := match r, tx with
                  | Ok _, Some tx => [EstProcess (Tx_GetHash SHA3_256 tx) height fee (GetSerializedSize tx) (negb bypass_fee_check)]
                  | _, _ => []
                  end in
  (r, set_pending p [], evicted ++ admitted).

(** ** Queries and the rest *)

Definition Exists (p : CTxMemPool) (txid : uint256) : bool := bool_decide (is_Some (mapTx p !! txid)).
Definition IsSpent (p : CTxMemPool) (o : COutPoint) : bool := bool_decide (o ∈ mapSpentOutpoints p).
Definition GetTxIfExists (p : CTxMemPool) (txid : uint256) : option CTxMemPoolEntry := mapTx p !! txid.
Definition MAX_ORDERED_TXS : Z := 10000.
Definition GetTopTxs (p : CTxMemPool) (n : Z) : list CTransaction :=
  e_tx <$> take (Z.to_nat (if n >? MAX_ORDERED_TXS then MAX_ORDERED_TXS else n)) (setEntries p).
Definition GetOrderedTxs (p : CTxMemPool) : list CTransaction := e_tx <$> take (Z.to_nat MAX_ORDERED_TXS) (setEntries p).
Definition GetAllEntries (p : CTxMemPool) : list CTxMemPoolEntry := map_entries p.
Definition Size (p : CTxMemPool) : Z := Z.of_nat (size (mapTx p)).
Definition GetMempoolSize (p : CTxMemPool) : Z := mempool_size p.
Definition GetStats (p : CTxMemPool) : Z * Z * double * double :=
  (Size p, mempool_size p,
   match last (setEntries p) with Some e => fee_rate e | None => S754_zero false end,
   match setEntries p with e :: _ => fee_rate e | [] => S754_zero false end).

Definition Clear (p : CTxMemPool) : CTxMemPool := set_core p ∅ [] ∅ ∅ 0 0.
Definition SetHeight (p : CTxMemPool) (height : Z) : CTxMemPool :=
  mkPool (mapTx p) (setEntries p) (mapSpentOutpoints p) (mapDescendants p) (mempool_size p) (mempool_count p)
    (max_mempool_size p) (max_mempool_count p) height (metrics p) (m_pending_estimator_evictions p).
Definition SetMaxMempoolCountForTesting (p : CTxMemPool) (count : Z) : CTxMemPool :=
  mkPool (mapTx p) (setEntries p) (mapSpentOutpoints p) (mapDescendants p) (mempool_size p) (mempool_count p)
    (max_mempool_size p) (if count =? 0 then 1 else count) (mp_nHeight p) (metrics p) (m_pending_estimator_evictions p).
Definition GetUnconfirmedOlderThan (p : CTxMemPool) (now age_seconds : Z) : list CTransaction :=
  e_tx <$> filter (fun e => e_time e < i64 (now - age_seconds)) (map_entries p).
Definition MarkRebroadcast (p : CTxMemPool) (txid : uint256) : CTxMemPool :=
  if Exists p txid then set_metrics p (count_rebroadcast (metrics p)) else p.
End Pool.

(** ** The order of the entries *)

Definition entry_lt (a b : CTxMemPoolEntry) : Prop := entry_before a b = true.
Definition rated (e : CTxMemPoolEntry) : Prop := fee_rate e <> S754_nan.

Lemma entry_lt_spec a b : rated a -> rated b -> entry_lt a b <->
  key_lt (double_key (fee_rate b)) (double_key (fee_rate a)) \/
  (double_key (fee_rate a) = double_key (fee_rate b) /\
   (e_time a < e_time b \/ (e_time a = e_time b /\ memcmp_lt (tx_hash a) (tx_hash b) = true))).
Proof.
  intros Ha Hb. unfold entry_lt, entry_before.
  pose proof (double_eq_key (fee_rate a) (fee_rate b) Ha Hb) as HE.
  pose proof (double_lt_key (fee_rate b) (fee_rate a) Hb Ha) as HL.
  pose proof (key_lt_irrefl (double_key (fee_rate a))) as HI.
  destruct (double_eq (fee_rate a) (fee_rate b)); cbn [negb].
  - assert (double_key (fee_rate a) = double_key (fee_rate b)) as E by (by apply HE). rewrite E in *.
    destruct (Z.eqb_spec (e_time a) (e_time b)); cbn [negb]; rewrite ?Z.ltb_lt; naive_solver lia.
  - rewrite HL. assert (double_key (fee_rate a) <> double_key (fee_rate b)) by (intros E; by apply HE in E). naive_solver.
Qed.

Lemma entry_lt_irrefl a : rated a -> ~ entry_lt a a.
Proof.
  intros Ha. rewrite entry_lt_spec by done. pose proof (key_lt_irrefl (double_key (fee_rate a))).
  pose proof (memcmp_lt_irrefl (tx_hash a)). intuition (try lia; try congruence).
Qed.

Lemma entry_lt_trans a b c : rated a -> rated b -> rated c -> entry_lt a b -> entry_lt b c -> entry_lt a c.
Proof.
  intros Ha Hb Hc. rewrite !entry_lt_spec by done.
  intros [H1|[E1 H1]] [H2|[E2 H2]].
  - left. by eapply key_lt_trans.
  - left. by rewrite <- E2.
  - left. by rewrite E1.
  - right. split; [congruence|]. destruct H1 as [?|[? ?]], H2 as [?|[? ?]]; try lia. right. split; [lia|].
    by eapply memcmp_lt_trans.
Qed.

Lemma entry_lt_total a b : rated a -> rated b -> ~ entry_lt a b -> ~ entry_lt b a -> tx_hash a = tx_hash b.
Proof.
  intros Ha Hb. rewrite !entry_lt_spec by done. intros H1 H2.
  destruct (key_trichotomy (double_key (fee_rate a)) (double_key (fee_rate b))) as [?|[E|?]]; [tauto| |tauto].
  rewrite E in *. destruct (Z.lt_trichotomy (e_time a) (e_time b)) as [?|[Et|?]]; [tauto| |tauto].
  apply memcmp_lt_total; apply not_true_is_false; intros ?; [apply H1|apply H2]; right; (split; [done|]); right; by split.
Qed.

Abbreviation fee_sorted := (StronglySorted entry_lt).

Lemma entry_lt_false a b : entry_before a b = false <-> ~ entry_lt a b.
Proof. unfold entry_lt. by destruct (entry_before a b). Qed.

Lemma set_insert_perm e l : rated e -> Forall rated l -> tx_hash e ∉ tx_hash <$> l -> set_insert e l ≡ₚ e :: l.
Proof.
  intros He. induction 1 as [|x l Hx Hl IH]; intros Hn; cbn [set_insert]; [done|].
  rewrite fmap_cons, not_elem_of_cons in Hn. destruct Hn as [Hne Hn].
  destruct (entry_before x e) eqn:E1; [rewrite IH by done; apply Permutation_swap|].
  destruct (entry_before e x) eqn:E2; [done|]. exfalso. apply Hne, entry_lt_total; try done; by apply entry_lt_false.
Qed.

Lemma set_insert_sorted e l : rated e -> Forall rated l -> tx_hash e ∉ tx_hash <$> l -> fee_sorted l -> fee_sorted (set_insert e l).
Proof.
  intros He Hl Hn Hs. induction Hs as [|x l Hs IH Hx]; cbn [set_insert]; [repeat constructor|].
  rewrite fmap_cons, not_elem_of_cons in Hn. destruct Hn as [Hne Hn]. apply Forall_cons in Hl as [Rx Rl].
  destruct (entry_before x e) eqn:E1.
  - constructor; [by apply IH|]. rewrite (set_insert_perm e l) by done. by constructor.
  - destruct (entry_before e x) eqn:E2.
    + constructor; [by constructor|]. constructor; [exact E2|]. rewrite Forall_forall in Hx, Rl |- *.
      intros y Hy. apply (entry_lt_trans e x y); auto.
    + exfalso. apply Hne, entry_lt_total; try done; by apply entry_lt_false.
Qed.

Lemma fee_sorted_NoDup l : Forall rated l -> fee_sorted l -> NoDup l.
Proof.
  intros Hl Hs. induction Hs as [|x l Hs IH Hx]; [constructor|]. apply Forall_cons in Hl as [Rx Rl].
  constructor; [|by apply IH]. intros Hin. rewrite Forall_forall in Hx. apply (entry_lt_irrefl x Rx), Hx, Hin.
Qed.

Lemma fee_sorted_filter (P : CTxMemPoolEntry -> Prop) `{!forall x, Decision (P x)} l : fee_sorted l -> fee_sorted (filter P l).
Proof.
  induction 1 as [|x l Hs IH Hx]; [constructor|]. rewrite filter_cons. destruct (decide (P x)); [|done].
  constructor; [done|]. rewrite Forall_forall in *. intros y Hy. apply list_elem_of_filter in Hy as [_ Hy]. auto.
Qed.

(** Erasing an entry of a set whose entries have different hashes takes that
    entry out. *)
Lemma set_erase_perm e l : Forall rated l -> NoDup l -> e ∈ l ->
  (forall x, x ∈ l -> tx_hash x = tx_hash e -> x = e) -> l ≡ₚ e :: set_erase e l.
Proof.
  intros Hl Hd He Hu. rewrite Forall_forall in Hl. apply NoDup_Permutation; [done| |].
  - constructor; [|by apply NoDup_filter]. unfold set_erase. rewrite list_elem_of_filter.
    pose proof (entry_lt_irrefl e (Hl e He)). unfold entry_lt in *. tauto.
  - intros x. unfold set_erase. rewrite elem_of_cons, list_elem_of_filter. split.
    + intros Hx. destruct (decide (x = e)) as [->|Hne]; [by left|]. right. split; [|done].
      destruct (entry_before x e) eqn:E1; [by left|]. destruct (entry_before e x) eqn:E2; [by right|]. exfalso.
      apply Hne, Hu; [done|]. apply entry_lt_total; auto; by apply entry_lt_false.
    + intros [->|[_ ?]]; done.
Qed.

Lemma CalculateFeeRate_not_nan fee size : size < 2 ^ 53 -> 0 <= size -> CalculateFeeRate fee size <> S754_nan.
Proof.
  intros H1 H2. unfold CalculateFeeRate. destruct (Z.eqb_spec size 0); [done|].
  apply double_div_not_nan; [apply double_of_Z_not_nan|lia].
Qed.

Lemma GetSerializedSize_pos tx : 0 < GetSerializedSize tx.
Proof.
  unfold GetSerializedSize.
  assert (forall {A} (f : A -> Z) l, (forall x, 0 <= f x) -> 0 <= sum_list (f <$> l)) as Hs.
  { intros A f l Hf. induction l as [|x l IH]; cbn; [lia|]. specialize (Hf x). lia. }
  assert (forall n, 0 < CompactSizeLen n) as Hc by (intros n; unfold CompactSizeLen; zcases).
  pose proof (Hs _ (fun i => 32 + 4 + CompactSizeLen (len (scriptSig i)) + len (scriptSig i) + 4) (vin tx)
    ltac:(intros x; pose proof (len_nonneg (scriptSig x)); pose proof (Hc (len (scriptSig x))); lia)).
  pose proof (Hs _ (fun o => 8 + CompactSizeLen (len (scriptPubKey o)) + len (scriptPubKey o)) (vout tx)
    ltac:(intros x; pose proof (len_nonneg (scriptPubKey x)); pose proof (Hc (len (scriptPubKey x))); lia)).
  pose proof (Hc (len (vin tx))). pose proof (Hc (len (vout tx))). lia.
Qed.

(** ** The invariant *)

Definition prevouts (e : CTxMemPoolEntry) : list COutPoint := prevout <$> vin (e_tx e).
Definition parents (e : CTxMemPoolEntry) : list uint256 := op_hash <$> prevouts e.

(** Indexes, counters and limits agree with the transactions; no outpoint is
    spent by two of them; every recorded descendant is in the pool and spends
    an output of the transaction it is recorded for. *)
Record pool_wf (SHA3_256 : list Z -> uint256) (p : CTxMemPool) : Prop := {
  pw_entry : map_Forall (fun h e => h = tx_hash e /\
    e = make_entry SHA3_256 (e_tx e) (e_fee e) (e_time e) (e_height e) /\ tx_size e <= MAX_TX_SIZE) (mapTx p);
  pw_set : forall e, e ∈ setEntries p <-> mapTx p !! tx_hash e = Some e;
  pw_sorted : fee_sorted (setEntries p);
  pw_spent : forall o, o ∈ mapSpentOutpoints p <-> exists e, e ∈ setEntries p /\ o ∈ prevouts e;
  pw_single : forall o a b, a ∈ setEntries p -> b ∈ setEntries p -> o ∈ prevouts a -> o ∈ prevouts b -> a = b;
  pw_size : mempool_size p = sum_list (tx_size <$> setEntries p);
  pw_count : mempool_count p = len (setEntries p);
  pw_desc : forall q s, mapDescendants p !! q = Some s -> s <> ∅ /\ is_Some (mapTx p !! q) /\
    forall c, c ∈ s -> exists e, mapTx p !! c = Some e /\ q ∈ parents e;
  pw_limits : mempool_count p <= max_mempool_count p /\ mempool_size p <= max_mempool_size p /\
    0 < max_mempool_count p < 2 ^ 63 /\ 0 < max_mempool_size p < 2 ^ 63
}.

Section PoolProofs.
  Variable SHA3_256 : list Z -> uint256.
  Abbreviation wf := (pool_wf SHA3_256).

Lemma make_entry_rated tx fee time height : GetSerializedSize tx <= MAX_TX_SIZE -> rated (make_entry SHA3_256 tx fee time height).
Proof.
  intros Hs. unfold rated, make_entry. cbn. pose proof (GetSerializedSize_pos tx).
  apply CalculateFeeRate_not_nan; unfold MAX_TX_SIZE in *; lia.
Qed.

Lemma pool_rated p : wf p -> Forall rated (setEntries p).
Proof.
  intros Hwf. apply Forall_forall. intros e He%(pw_set _ _ Hwf).
  destruct (pw_entry _ _ Hwf _ _ He) as (_ & E & Hs). rewrite E in Hs |- *. by apply make_entry_rated.
Qed.

Lemma pool_NoDup p : wf p -> NoDup (setEntries p).
Proof. intros Hwf. apply fee_sorted_NoDup; [by apply pool_rated|by apply Hwf]. Qed.

Lemma pool_by_hash p a b : wf p -> a ∈ setEntries p -> b ∈ setEntries p -> tx_hash a = tx_hash b -> a = b.
Proof. intros Hwf Ha%(pw_set _ _ Hwf) Hb%(pw_set _ _ Hwf) E. congruence. Qed.

Lemma pool_size_pos p e : wf p -> e ∈ setEntries p -> 0 < tx_size e <= MAX_TX_SIZE.
Proof.
  intros Hwf He%(pw_set _ _ Hwf). destruct (pw_entry _ _ Hwf _ _ He) as (_ & E & Hs). split; [|done].
  rewrite E. cbn. apply GetSerializedSize_pos.
Qed.

Lemma sum_sizes_nonneg p : wf p -> 0 <= sum_list (tx_size <$> setEntries p).
Proof.
  intros Hwf. assert (forall e, e ∈ setEntries p -> 0 <= tx_size e) as H
    by (intros e He; pose proof (pool_size_pos p e Hwf He); lia).
  induction (setEntries p) as [|x l IH]; cbn; [lia|]. pose proof (H x ltac:(left)). specialize (IH ltac:(intros; apply H; by right)). lia.
Qed.

Lemma sum_list_perm (l l' : list Z) : l ≡ₚ l' -> sum_list l = sum_list l'.
Proof. induction 1; cbn; lia. Qed.

Lemma sum_list_app (l l' : list Z) : sum_list (l ++ l') = sum_list l + sum_list l'.
Proof. induction l; cbn; lia. Qed.

(** *** Descendant sets *)

Definition drop_id (id : uint256) (s : gset uint256) : option (gset uint256) :=
  if decide (s ∖ {[ id ]} = ∅) then None else Some (s ∖ {[ id ]}).

Lemma remove_descendant_lookup id d i q : remove_descendant id d i !! q =
  if decide (q = op_hash (prevout i)) then d !! q ≫= drop_id id else d !! q.
Proof.
  unfold remove_descendant, drop_id. destruct (decide (q = op_hash (prevout i))) as [->|Hne].
  - destruct (d !! op_hash (prevout i)) as [s|] eqn:E; cbn; [|by rewrite E].
    case_bool_decide as Hs; [rewrite decide_True by done; apply lookup_delete_eq|].
    rewrite decide_False by done. apply lookup_insert_eq.
  - destruct (d !! op_hash (prevout i)) as [s|] eqn:E; [|done].
    case_bool_decide; [by rewrite lookup_delete_ne by congruence|by rewrite lookup_insert_ne by congruence].
Qed.

Lemma drop_id_idemp (id : uint256) (o : option (gset uint256)) : (o ≫= drop_id id) ≫= drop_id id = o ≫= drop_id id.
Proof.
  destruct o as [s|]; [|done]. cbn. unfold drop_id. destruct (decide (s ∖ {[ id ]} = ∅)) as [|Hne]; [done|]. cbn.
  replace (s ∖ {[ id ]} ∖ {[ id ]}) with (s ∖ {[ id ]}) by set_solver. by rewrite decide_False.
Qed.

Lemma remove_descendants_lookup id ins : forall d q, foldl (remove_descendant id) d ins !! q =
  if decide (q ∈ op_hash <$> (prevout <$> ins)) then d !! q ≫= drop_id id else d !! q.
Proof.
  induction ins as [|i ins IH]; intros d q; cbn [foldl fmap list_fmap].
  { rewrite decide_False; [done|]. intros H. inversion H. }
  rewrite IH, remove_descendant_lookup.
  destruct (decide (q = op_hash (prevout i))) as [->|Hne].
  - rewrite (decide_True (P := _ ∈ _ :: _)) by left. destruct (decide _); [apply drop_id_idemp|done].
  - destruct (decide (q ∈ op_hash <$> (prevout <$> ins))) as [Hin|Hni].
    + by rewrite decide_True by (by right).
    + rewrite decide_False; [done|]. by intros [?|?]%elem_of_cons.
Qed.

Lemma unspend_elem o ins : forall sp, o ∈ unspend sp ins <-> o ∈ sp /\ o ∉ prevout <$> ins.
Proof.
  induction ins as [|i ins IH]; intros sp; cbn [unspend foldl fmap list_fmap]; [set_solver|].
  fold (unspend (sp ∖ {[ prevout i ]}) ins). rewrite IH, not_elem_of_cons. set_solver.
Qed.

(** *** Removal *)

Definition removed (p : CTxMemPool) (id : uint256) (e : CTxMemPoolEntry) : CTxMemPool :=
  set_core p (delete id (mapTx p)) (set_erase e (setEntries p)) (unspend (mapSpentOutpoints p) (vin (e_tx e)))
    (delete id (foldl (remove_descendant id) (mapDescendants p) (vin (e_tx e))))
    (mempool_size p - tx_size e) (mempool_count p - 1).

Lemma removed_perm p id e : wf p -> mapTx p !! id = Some e -> setEntries p ≡ₚ e :: set_erase e (setEntries p).
Proof.
  intros Hwf He. destruct (pw_entry _ _ Hwf _ _ He) as (-> & _ & _).
  assert (e ∈ setEntries p) as Hin by (by apply Hwf). apply set_erase_perm; [by apply pool_rated|by apply pool_NoDup|done|].
  intros x Hx Hh. by apply (pool_by_hash p).
Qed.

Lemma RemoveTxUnlocked_spec p id e : wf p -> mapTx p !! id = Some e -> RemoveTxUnlocked p id = (true, removed p id e).
Proof.
  intros Hwf He. unfold RemoveTxUnlocked, UpdateDescendantsRemove. rewrite He. cbn. f_equal. unfold removed, set_core. cbn.
  pose proof (removed_perm p id e Hwf He) as HP.
  assert (mempool_size p = tx_size e + sum_list (tx_size <$> set_erase e (setEntries p))) as Hs.
  { rewrite (pw_size _ _ Hwf). rewrite (sum_list_perm (tx_size <$> setEntries p) (tx_size <$> (e :: set_erase e (setEntries p))))
      by (by apply fmap_Permutation). done. }
  assert (0 <= sum_list (tx_size <$> set_erase e (setEntries p))) as Hnn.
  { assert (forall l, l ⊆ setEntries p -> 0 <= sum_list (tx_size <$> l)) as H.
    { intros l Hl. induction l as [|x l IH]; cbn; [lia|].
      pose proof (pool_size_pos p x Hwf (Hl x ltac:(left))). specialize (IH ltac:(intros y Hy; apply Hl; by right)). lia. }
    apply H. unfold set_erase. intros x Hx. by apply list_elem_of_filter in Hx as [_ ?]. }
  assert (mempool_count p = 1 + len (set_erase e (setEntries p))) as Hc.
  { rewrite (pw_count _ _ Hwf). unfold len. rewrite HP at 1. cbn [length]. lia. }
  pose proof (len_nonneg (set_erase e (setEntries p))).
  destruct (Z.ltb_spec (mempool_size p) (tx_size e)); [lia|]. rewrite Z.gtb_ltb.
  destruct (Z.ltb_spec 0 (mempool_count p)); [done|lia].
Qed.

Lemma removed_elem p id e : wf p -> mapTx p !! id = Some e -> forall x, x ∈ setEntries (removed p id e) <-> x ∈ setEntries p /\ x <> e.
Proof.
  intros Hwf He x. pose proof (removed_perm p id e Hwf He) as HP. pose proof (pool_NoDup p Hwf) as HN.
  rewrite HP in HN. apply NoDup_cons in HN as [HN _]. cbn. rewrite HP at 2. rewrite elem_of_cons. split.
  - intros Hx. split; [by right|]. by intros ->.
  - intros [[->|?] ?]; done.
Qed.

Lemma removed_wf p id e : wf p -> mapTx p !! id = Some e -> wf (removed p id e).
Proof.
  intros Hwf He. pose proof (removed_perm p id e Hwf He) as HP. pose proof (removed_elem p id e Hwf He) as HE.
  destruct (pw_entry _ _ Hwf _ _ He) as (Hid & _ & _).
  assert (e ∈ setEntries p) as Hin by (apply Hwf; by rewrite <- Hid).
  assert (0 < tx_size e) by (pose proof (pool_size_pos p e Hwf Hin); lia).
  split.
  - by apply map_Forall_delete, Hwf.
  - intros x. rewrite HE, (pw_set _ _ Hwf). cbn. rewrite lookup_delete_Some. split.
    + intros [Hx Hne]. split; [|done]. intros E. apply Hne. congruence.
    + intros [Hne Hx]. split; [done|]. intros ->. by apply Hne.
  - by apply fee_sorted_filter, Hwf.
  - intros o. cbn [removed set_core mapSpentOutpoints]. rewrite unspend_elem, (pw_spent _ _ Hwf). split.
    + intros [(x & Hx & Ho) Hn]. exists x. split; [|done]. apply HE. split; [done|]. by intros ->.
    + intros (x & [Hx Hne]%HE & Ho). split; [by exists x|]. intros Ho'. apply Hne. by apply (pw_single _ _ Hwf o).
  - intros o a b [Ha _]%HE [Hb _]%HE. by apply (pw_single _ _ Hwf).
  - cbn. rewrite (pw_size _ _ Hwf).
    rewrite (sum_list_perm (tx_size <$> setEntries p) (tx_size <$> (e :: set_erase e (setEntries p)))) by (by apply fmap_Permutation).
    cbn. lia.
  - cbn. rewrite (pw_count _ _ Hwf). unfold len. rewrite HP at 1. cbn [length]. lia.
  - intros q s. cbn. rewrite lookup_delete_Some, remove_descendants_lookup. intros [Hne Hq].
    assert (exists s0, mapDescendants p !! q = Some s0 /\ s ⊆ s0 /\ s <> ∅ /\ (q ∈ parents e -> id ∉ s)) as (s0 & H0 & Hsub & Hs & Hp).
    { unfold parents, prevouts. destruct (decide (q ∈ _)) as [Hpq|Hpq].
      - destruct (mapDescendants p !! q) as [s0|]; [|done]. cbn in Hq. unfold drop_id in Hq. destruct (decide _) as [|Hn]; [done|].
        injection Hq as <-. exists s0. split_and!; [done|set_solver|done|set_solver].
      - exists s. split_and!; [done|done| |done]. by apply (pw_desc _ _ Hwf q s). }
    destruct (pw_desc _ _ Hwf q s0 H0) as (_ & Hmq & Hc). split_and!; [done|by rewrite lookup_delete_ne|].
    intros c Hcs. destruct (Hc c (Hsub c Hcs)) as (ec & Hec & Hpar). exists ec. split; [|done].
    rewrite lookup_delete_ne; [done|]. intros <-. rewrite He in Hec. injection Hec as <-. by apply Hp.
  - destruct (pw_limits _ _ Hwf) as (? & ? & ?). cbn. split_and!; lia.
Qed.

(** *** Insertion *)

Lemma set_core_id p : set_core p (mapTx p) (setEntries p) (mapSpentOutpoints p) (mapDescendants p) (mempool_size p) (mempool_count p) = p.
Proof. by destruct p. Qed.

(** Spent outpoints are recorded one by one; unless the guard's own record
    fails, what was added is what the guard knows. *)
Lemma track_outpoints_spec fail ins : (forall j, fail <> Some (FailTrack j)) -> forall k p ops,
  exists n b, track_outpoints fail k p ops ins =
    (b, set_spent p (list_to_set (take n (prevout <$> ins)) ∪ mapSpentOutpoints p), ops ++ take n (prevout <$> ins)) /\
    (b = true -> n = length ins) /\ ((forall j, fail <> Some (FailSpent j)) -> b = true) /\
    (forall j, fail = Some (FailSpent j) -> (k <= j < k + length ins)%nat -> b = false).
Proof.
  intros Hf. induction ins as [|i ins IH]; intros k p ops; cbn [track_outpoints].
  { exists 0%nat, true. cbn. rewrite union_empty_l_L, app_nil_r. unfold set_spent. rewrite set_core_id.
    split_and!; [done..|lia]. }
  destruct (decide (fail = Some (FailSpent k))) as [->|Hne].
  { rewrite bool_decide_true by done. exists 0%nat, false. cbn. rewrite union_empty_l_L, app_nil_r. unfold set_spent.
    rewrite set_core_id. split_and!; [done|done|intros H; by destruct (H k)|done]. }
  rewrite (bool_decide_false (fail = Some (FailSpent k))), (bool_decide_false (fail = Some (FailTrack k))) by auto.
  destruct (IH (S k) (set_spent p ({[ prevout i ]} ∪ mapSpentOutpoints p)) (ops ++ [prevout i])) as (n & b & -> & H1 & H2 & H3).
  exists (S n), b. cbn [fmap list_fmap take]. split_and!; [|intros; cbn; f_equal; auto|done|].
  - rewrite <- app_assoc. cbn. f_equal. f_equal. unfold set_spent, set_core. cbn. f_equal. set_solver.
  - intros j Hj Hk. cbn in Hk. apply (H3 j); [done|]. assert (j <> k) by (intros ->; done). lia.
Qed.

Lemma track_descendants_ok fail txid ins : (forall j, fail <> Some (FailDescendants j)) -> forall k p,
  track_descendants fail k txid p ins = (true, foldl (fun p i => add_descendant p txid i) p ins).
Proof.
  intros Hf. induction ins as [|i ins IH]; intros k p; cbn; [done|]. rewrite bool_decide_false by auto. apply IH.
Qed.

Definition add_children (m : gmap uint256 CTxMemPoolEntry) (txid : uint256) (d : gmap uint256 (gset uint256)) (ins : list CTxIn)
  : gmap uint256 (gset uint256) :=
  foldl (fun d i => if bool_decide (is_Some (m !! op_hash (prevout i)))
                    then <[op_hash (prevout i) := {[ txid ]} ∪ default ∅ (d !! op_hash (prevout i))]> d else d) d ins.

Lemma add_descendants_fold txid ins : forall p,
  foldl (fun p i => add_descendant p txid i) p ins = set_descendants p (add_children (mapTx p) txid (mapDescendants p) ins).
Proof.
  induction ins as [|i ins IH]; intros p; cbn; [unfold set_descendants; by rewrite set_core_id|].
  rewrite IH. unfold add_descendant. by destruct (bool_decide _).
Qed.

Lemma add_children_lookup m txid ins q : forall d, add_children m txid d ins !! q =
  if decide (is_Some (m !! q) /\ q ∈ op_hash <$> (prevout <$> ins)) then Some ({[ txid ]} ∪ default ∅ (d !! q)) else d !! q.
Proof.
  induction ins as [|i ins IH]; intros d; cbn [add_children foldl fmap list_fmap].
  { rewrite decide_False; [done|]. intros [_ H]. inversion H. }
  fold (add_children m txid (if bool_decide (is_Some (m !! op_hash (prevout i)))
    then <[op_hash (prevout i) := {[ txid ]} ∪ default ∅ (d !! op_hash (prevout i))]> d else d) ins). rewrite IH.
  destruct (decide (q = op_hash (prevout i))) as [->|Hne].
  - destruct (decide (is_Some (m !! op_hash (prevout i)))) as [Hs|Hs].
    + rewrite (bool_decide_true _ Hs), lookup_insert_eq. cbn.
      rewrite (decide_True (P := _ /\ _ ∈ _ :: _)) by (split; [done|left]).
      destruct (decide _); [f_equal; set_solver|done].
    + rewrite (bool_decide_false _ Hs). rewrite !decide_False by tauto. done.
  - assert ((if bool_decide (is_Some (m !! op_hash (prevout i)))
      then <[op_hash (prevout i) := {[ txid ]} ∪ default ∅ (d !! op_hash (prevout i))]> d else d) !! q = d !! q) as ->
      by (case_bool_decide; [by rewrite lookup_insert_ne|done]).
    apply decide_ext. rewrite elem_of_cons. tauto.
Qed.

(** The pool after a completed insertion. *)
Definition inserted (p : CTxMemPool) (e : CTxMemPoolEntry) : CTxMemPool :=
  let m := <[tx_hash e := e]> (mapTx p) in
  set_core p m (set_insert e (setEntries p)) (list_to_set (prevouts e) ∪ mapSpentOutpoints p)
    (add_children m (tx_hash e) (mapDescendants p) (vin (e_tx e)))
    (mempool_size p + tx_size e) (mempool_count p + 1).

Lemma guarded_insert_ok p tx fee time height : wf p -> GetSerializedSize tx <= MAX_TX_SIZE ->
  guarded_insert SHA3_256 None p tx fee time height =
    (Ok tt, set_metrics (inserted p (make_entry SHA3_256 tx fee time height)) (count_add (metrics p))).
Proof.
  intros Hwf Hs. unfold guarded_insert, try_insert.
  rewrite !(bool_decide_false (None = Some _)) by done.
  set (p1 := set_entries _ _).
  destruct (track_outpoints_spec None (vin tx) ltac:(done) 0 p1 []) as (n & b & -> & H1 & H2 & _).
  assert (b = true) as -> by (by apply H2). rewrite (H1 eq_refl). cbn [negb].
  rewrite track_descendants_ok by done. rewrite add_descendants_fold. cbn [negb]. f_equal.
  unfold inserted, prevouts, set_metrics, set_descendants, set_count, set_size, set_spent, set_entries, set_map, set_core, p1.
  cbn. rewrite take_ge by (by rewrite length_fmap).
  destruct (pw_limits _ _ Hwf) as (? & ? & ? & ?). pose proof (sum_sizes_nonneg p Hwf) as Hn. rewrite <- (pw_size _ _ Hwf) in Hn.
  pose proof (GetSerializedSize_pos tx). pose proof (len_nonneg (setEntries p)) as Hl. rewrite <- (pw_count _ _ Hwf) in Hl.
  unfold MAX_TX_SIZE in Hs. rewrite !u64_small by lia. done.
Qed.

Lemma wf_metrics p m : wf p -> wf (set_metrics p m).
Proof. intros []. by split. Qed.
Lemma wf_pending p l : wf p -> wf (set_pending p l).
Proof. intros []. by split. Qed.

Lemma inserted_wf p e : wf p -> e = make_entry SHA3_256 (e_tx e) (e_fee e) (e_time e) (e_height e) -> tx_size e <= MAX_TX_SIZE ->
  mapTx p !! tx_hash e = None -> (forall o, o ∈ prevouts e -> o ∉ mapSpentOutpoints p) ->
  mempool_count p + 1 <= max_mempool_count p -> mempool_size p + tx_size e <= max_mempool_size p -> wf (inserted p e).
Proof.
  intros Hwf Hm Hs Hn Ho Hc Hz.
  assert (rated e) as Hr by (rewrite Hm in Hs |- *; by apply make_entry_rated).
  assert (tx_hash e ∉ tx_hash <$> setEntries p) as Hh.
  { intros (x & Ex & Hx%(pw_set _ _ Hwf))%list_elem_of_fmap. congruence. }
  pose proof (set_insert_perm e (setEntries p) Hr (pool_rated p Hwf) Hh) as HP.
  assert (forall x, x ∈ setEntries (inserted p e) <-> x = e \/ x ∈ setEntries p) as HE
    by (intros x; cbn; rewrite HP; apply elem_of_cons).
  assert (forall x o, x ∈ setEntries p -> o ∈ prevouts x -> o ∈ mapSpentOutpoints p) as Hsp
    by (intros x o Hx Hxo; apply Hwf; by exists x).
  split.
  - by apply map_Forall_insert_2, Hwf.
  - intros x. rewrite HE, (pw_set _ _ Hwf). cbn. destruct (decide (tx_hash x = tx_hash e)) as [E|E].
    + rewrite E, lookup_insert_eq. split; [|intros [= ->]; by left]. intros [->|H]; [done|congruence].
    + rewrite lookup_insert_ne by done. split; [|by right]. intros [->|H]; done.
  - by apply set_insert_sorted; [|apply pool_rated| |apply Hwf].
  - intros o. cbn [inserted set_core mapSpentOutpoints]. rewrite elem_of_union, elem_of_list_to_set, (pw_spent _ _ Hwf).
    setoid_rewrite HE. split; [intros [H|(x & H1 & H2)]; eauto|]. intros (x & [->|Hx] & H); [by left|right; eauto].
  - intros o a b [->|Ha]%HE [->|Hb]%HE Hoa Hob; [done| | |by apply (pw_single _ _ Hwf o)].
    + exfalso. apply (Ho o Hoa). by apply (Hsp b).
    + exfalso. apply (Ho o Hob). by apply (Hsp a).
  - cbn. rewrite (pw_size _ _ Hwf). rewrite (sum_list_perm (tx_size <$> set_insert e (setEntries p)) (tx_size <$> (e :: setEntries p)))
      by (by apply fmap_Permutation). cbn. lia.
  - cbn. rewrite (pw_count _ _ Hwf). unfold len. rewrite HP. cbn [length]. lia.
  - intros q s. cbn [inserted set_core mapDescendants mapTx]. rewrite add_children_lookup.
    assert (forall c ec, mapTx p !! c = Some ec -> <[tx_hash e := e]> (mapTx p) !! c = Some ec) as Hkeep
      by (intros c ec Hce; rewrite lookup_insert_ne; [done|congruence]).
    destruct (decide _) as [[Hq Hpar]|_]; [intros [= <-]|intros Hq].
    + split_and!; [set_solver|done|]. intros c [->%elem_of_singleton|Hcs]%elem_of_union.
      * exists e. by rewrite lookup_insert_eq.
      * destruct (mapDescendants p !! q) as [s0|] eqn:E0; [|set_solver].
        destruct (pw_desc _ _ Hwf q s0 E0) as (_ & _ & H). destruct (H c Hcs) as (ec & Hec & ?). eauto.
    + destruct (pw_desc _ _ Hwf q s Hq) as (H1 & [eq Hmq] & H3). split_and!; [done|eauto|].
      intros c Hcs. destruct (H3 c Hcs) as (ec & Hec & ?). eauto.
  - destruct (pw_limits _ _ Hwf) as (? & ? & ?). cbn. split_and!; lia.
Qed.

(** *** Exception safety *)

Lemma set_erase_insert e l : rated e -> Forall rated l -> tx_hash e ∉ tx_hash <$> l -> set_erase e (set_insert e l) = l.
Proof.
  intros He Hl Hn. unfold set_erase. assert (forall x, x ∈ l -> entry_before x e = true \/ entry_before e x = true) as Hx.
  { intros x Hx. destruct (entry_before x e) eqn:E1; [by left|]. destruct (entry_before e x) eqn:E2; [by right|]. exfalso.
    apply Hn. apply list_elem_of_fmap. exists x. split; [|done]. rewrite Forall_forall in Hl.
    apply entry_lt_total; [done|by apply Hl| |]; by apply entry_lt_false. }
  assert (forall l', l' ⊆ l -> filter (fun x => entry_before x e = true \/ entry_before e x = true) l' = l') as Hf.
  { intros l' Hs. induction l' as [|x l' IH]; [done|]. rewrite filter_cons_True by (apply Hx, Hs; left).
    f_equal. apply IH. intros y Hy. apply Hs. by right. }
  clear Hl Hn. revert Hf. induction l as [|x l IH]; intros Hf; cbn [set_insert].
  { rewrite filter_cons_False; [done|]. pose proof (entry_lt_irrefl e He). unfold entry_lt in *. tauto. }
  destruct (entry_before x e) eqn:E1.
  - rewrite filter_cons_True by auto. f_equal. apply IH; [intros y Hy; apply Hx; by right|].
    intros l' Hs. apply Hf. intros y Hy. right. by apply Hs.
  - destruct (entry_before e x) eqn:E2; [|destruct (Hx x ltac:(left)); congruence].
    rewrite filter_cons_False; [by apply Hf|]. pose proof (entry_lt_irrefl e He). unfold entry_lt in *. tauto.
Qed.

Lemma undo_spent (ops : list COutPoint) : forall sp : gset COutPoint, (forall o, o ∈ ops -> o ∉ sp) ->
  foldl (fun sp o => sp ∖ {[ o ]}) (list_to_set ops ∪ sp) ops = sp.
Proof.
  assert (forall (l : list COutPoint) (s : gset COutPoint), foldl (fun sp o => sp ∖ {[ o ]}) s l = s ∖ list_to_set l) as H.
  { intros l. induction l as [|o l IH]; intros s; cbn; [set_solver|]. rewrite IH. set_solver. }
  intros sp Ho. rewrite H. apply set_eq. intros o. rewrite elem_of_difference, elem_of_union, elem_of_list_to_set.
  specialize (Ho o). destruct (decide (o ∈ ops)); naive_solver.
Qed.

(** Where a failure leaves nothing behind. *)
Definition clean_failure (tx : CTransaction) (f : alloc_failure) : bool :=
  match f with
  | FailEntry | FailMap | FailSet => true
  | FailSpent k => bool_decide (k < length (vin tx))%nat
  | FailTrack _ | FailDescendants _ => false
  end.

Lemma Rollback_spec p tx fee time height (ops : list COutPoint) m :
  wf p -> GetSerializedSize tx <= MAX_TX_SIZE -> mapTx p !! Tx_GetHash SHA3_256 tx = None ->
  (forall o, o ∈ ops -> o ∉ mapSpentOutpoints p) ->
  let e := make_entry SHA3_256 tx fee time height in
  Rollback (set_metrics (set_core p (<[tx_hash e := e]> (mapTx p)) (set_insert e (setEntries p))
      (list_to_set ops ∪ mapSpentOutpoints p) (mapDescendants p) (mempool_size p) (mempool_count p)) m)
    (Tx_GetHash SHA3_256 tx) (mkGuard true true ops 0 false false) = set_metrics p m.
Proof.
  intros Hwf Hs Hn Ho e. unfold Rollback. cbn -[set_erase set_insert]. rewrite lookup_insert_eq. cbn -[set_erase set_insert].
  unfold set_metrics, set_core. cbn -[set_erase set_insert]. rewrite undo_spent by done.
  rewrite set_erase_insert; [|by apply make_entry_rated|by apply pool_rated|].
  - rewrite delete_insert_id by done. done.
  - intros (x & Ex & Hx%(pw_set _ _ Hwf))%list_elem_of_fmap. cbn in Ex. congruence.
Qed.

Lemma guarded_insert_fails f p tx fee time height : wf p -> GetSerializedSize tx <= MAX_TX_SIZE ->
  mapTx p !! Tx_GetHash SHA3_256 tx = None -> (forall i, i ∈ vin tx -> prevout i ∉ mapSpentOutpoints p) ->
  clean_failure tx f = true ->
  guarded_insert SHA3_256 (Some f) p tx fee time height = (Err InsertionFailed, set_metrics p (count_add_failure (metrics p))).
Proof.
  intros Hwf Hs Hn Ho Hf. unfold guarded_insert, try_insert.
  assert (forall m, Rollback (set_metrics p m) (Tx_GetHash SHA3_256 tx) new_guard = set_metrics p m) as H0.
  { intros m. unfold Rollback. cbn. by destruct p. }
  destruct f as [| | |k|k|k]; try discriminate Hf.
  - by rewrite bool_decide_true, H0 by done.
  - rewrite (bool_decide_false (_ = Some FailEntry)), bool_decide_true by done. by rewrite H0.
  - rewrite (bool_decide_false (_ = Some FailEntry)), (bool_decide_false (_ = Some FailMap)), bool_decide_true by done.
    f_equal. unfold Rollback. cbn. rewrite delete_insert_id by done. by destruct p.
  - rewrite !bool_decide_false by done. set (p1 := set_entries _ _).
    destruct (track_outpoints_spec (Some (FailSpent k)) (vin tx) ltac:(done) 0 p1 []) as (n & b & -> & _ & _ & H3).
    cbn [clean_failure] in Hf. apply bool_decide_eq_true in Hf. rewrite (H3 k eq_refl) by lia. cbn [negb app].
    f_equal. apply (Rollback_spec p tx fee time height (take n (prevout <$> vin tx))); try done.
    intros o Hin. apply elem_of_take in Hin as (j & Hj & _). apply list_elem_of_lookup_2, list_elem_of_fmap in Hj as (i & -> & Hi). auto.
Qed.

(** *** Eviction *)

Definition same_limits (p p' : CTxMemPool) : Prop :=
  max_mempool_size p' = max_mempool_size p /\ max_mempool_count p' = max_mempool_count p.

(** Removing some entries of the pool leaves the others. *)
Lemma remove_all_spec count es : forall p acc, wf p -> NoDup es -> es ⊆ setEntries p ->
  exists p', foldl (remove_counted count) (p, acc) (tx_hash <$> es) = (p', acc ++ (tx_hash <$> es)) /\ wf p' /\
    setEntries p ≡ₚ es ++ setEntries p' /\ same_limits p p' /\
    m_pending_estimator_evictions p' = m_pending_estimator_evictions p.
Proof.
  induction es as [|e es IH]; intros p acc Hwf Hd Hsub; cbn [foldl fmap list_fmap].
  { exists p. rewrite app_nil_r. done. }
  apply NoDup_cons in Hd as [Hne Hd]. assert (mapTx p !! tx_hash e = Some e) as He by (apply Hwf, Hsub; left).
  unfold remove_counted at 2. cbn [fst snd]. rewrite (RemoveTxUnlocked_spec p _ e Hwf He).
  set (p1 := set_metrics (removed p (tx_hash e) e) _).
  assert (wf p1) as Hwf1 by (by apply wf_metrics, removed_wf).
  assert (es ⊆ setEntries p1) as Hsub1.
  { intros x Hx. apply (removed_elem p (tx_hash e) e Hwf He). split; [apply Hsub; by right|]. by intros ->. }
  destruct (IH p1 (acc ++ [tx_hash e]) Hwf1 Hd Hsub1) as (p' & -> & Hwf' & HP & [L1 L2] & Hpend).
  exists p'. rewrite <- app_assoc. split_and!; [done|done| |by split|done].
  rewrite (removed_perm p (tx_hash e) e Hwf He). cbn. by constructor.
Qed.

Lemma select_evictions_spec p n l : (forall e, e ∈ l -> 0 < tx_size e) -> forall freed, 0 <= freed ->
  freed + sum_list (tx_size <$> l) < 2 ^ 64 ->
  exists k, let es := filter (fun e => HasDescendants p (tx_hash e) = false) (take k l) in
    select_evictions p n freed l = (tx_hash <$> es, freed + sum_list (tx_size <$> es)).
Proof.
  intros Hl. induction l as [|e l IH]; intros freed H0 Hs; cbn [select_evictions].
  { exists 0%nat. cbn. by rewrite Z.add_0_r. }
  pose proof (Hl e ltac:(left)) as He. specialize (IH ltac:(intros x Hx; apply Hl; by right)).
  cbn [fmap list_fmap sum_list] in Hs.
  assert (0 <= sum_list (tx_size <$> l)) as Hnn.
  { clear -Hl. induction l as [|x l IH]; cbn; [lia|]. pose proof (Hl x ltac:(right; left)).
    enough (0 <= sum_list (tx_size <$> l)) by lia. apply IH. intros y [->|Hy]%elem_of_cons; apply Hl; [by left|by do 2 right]. }
  destruct (HasDescendants p (tx_hash e)) eqn:Eh.
  { destruct (IH freed H0 ltac:(lia)) as (k & ->). exists (S k). cbn [take]. rewrite filter_cons_False by congruence. done. }
  rewrite u64_small by lia. rewrite Z.geb_leb. destruct (Z.leb_spec n (freed + tx_size e)).
  - exists 1%nat. cbn [take]. rewrite take_0, filter_cons_True, filter_nil by done. cbn. f_equal. lia.
  - destruct (IH (freed + tx_size e) ltac:(lia) ltac:(lia)) as (k & ->). exists (S k). cbn [take].
    rewrite filter_cons_True by done. cbn [fmap list_fmap sum_list]. f_equal. lia.
Qed.

(** A successful eviction takes the entries without recorded descendants from
    the lowest fee rate on, and frees what was asked. *)
Lemma EvictTransactions_spec p n : wf p -> exists r p', EvictTransactions p n = (r, p') /\ wf p' /\ same_limits p p' /\
  match r with
  | Err e => e = CannotEvict /\ p' = p
  | Ok _ => exists k, let es := filter (fun e => HasDescendants p (tx_hash e) = false) (take k (rev (setEntries p))) in
      setEntries p ≡ₚ es ++ setEntries p' /\ n <= sum_list (tx_size <$> es) /\
      m_pending_estimator_evictions p' = m_pending_estimator_evictions p ++ (tx_hash <$> es)
  end.
Proof.
  intros Hwf. unfold EvictTransactions.
  assert (setEntries p ≡ₚ rev (setEntries p)) as Hrev by apply Permutation_rev.
  destruct (select_evictions_spec p n (rev (setEntries p))) with (freed := 0) as (k & ->); [|done| |].
  { intros e He. rewrite <- Hrev in He. by apply (pool_size_pos p e Hwf). }
  { rewrite <- (sum_list_perm (tx_size <$> setEntries p)) by (by apply fmap_Permutation). rewrite <- (pw_size _ _ Hwf).
    destruct (pw_limits _ _ Hwf) as (_ & ? & _ & ?). lia. }
  set (es := filter _ _). rewrite Z.add_0_l. destruct (Z.ltb_spec (sum_list (tx_size <$> es)) n).
  { exists (Err CannotEvict), p. split_and!; [done|done|by split|done|done]. }
  assert (NoDup es) as Hd.
  { apply NoDup_filter, (sublist_NoDup _ (rev (setEntries p))); [rewrite <- Hrev; by apply pool_NoDup|apply sublist_take]. }
  assert (es ⊆ setEntries p) as Hsub.
  { intros x Hx. apply list_elem_of_filter in Hx as [_ Hx]. rewrite Hrev. eapply sublist_subseteq; [apply sublist_take|exact Hx]. }
  destruct (remove_all_spec count_eviction es p [] Hwf Hd Hsub) as (p' & -> & Hwf' & HP & HL & Hpend).
  exists (Ok tt), (set_pending p' (m_pending_estimator_evictions p' ++ (tx_hash <$> es))). rewrite app_nil_l.
  split_and!; [done|by apply wf_pending|done|]. exists k. fold es. split_and!; [done|done|]. cbn. by rewrite Hpend.
Qed.

Lemma evicted_totals p p' es : wf p -> wf p' -> setEntries p ≡ₚ es ++ setEntries p' ->
  mempool_size p = sum_list (tx_size <$> es) + mempool_size p' /\ mempool_count p = len es + mempool_count p' /\
  setEntries p' ⊆ setEntries p.
Proof.
  intros H1 H2 HP. split_and!.
  - rewrite (pw_size _ _ H1), (pw_size _ _ H2), (sum_list_perm _ (tx_size <$> (es ++ setEntries p'))) by (by apply fmap_Permutation).
    rewrite fmap_app. apply sum_list_app.
  - rewrite (pw_count _ _ H1), (pw_count _ _ H2). unfold len. rewrite HP, length_app. lia.
  - intros x Hx. rewrite HP. apply elem_of_app. by right.
Qed.

(** *** Admission *)

(** [p'] holds some of the transactions of [p]. *)
Definition shrunk (p p' : CTxMemPool) : Prop := wf p' /\ same_limits p p' /\ setEntries p' ⊆ setEntries p.

Lemma shrunk_absent p p' h : wf p -> shrunk p p' -> mapTx p !! h = None -> mapTx p' !! h = None.
Proof.
  intros Hwf (Hwf' & _ & Hs) Hn. destruct (mapTx p' !! h) as [e|] eqn:E; [|done]. exfalso.
  destruct (pw_entry _ _ Hwf' _ _ E) as (-> & _ & _). apply (pw_set _ _ Hwf') in E. apply Hs, (pw_set _ _ Hwf) in E. congruence.
Qed.

Lemma shrunk_unspent p p' o : wf p -> shrunk p p' -> o ∉ mapSpentOutpoints p -> o ∉ mapSpentOutpoints p'.
Proof.
  intros Hwf (Hwf' & _ & Hs) Hn Ho. apply Hn. apply (pw_spent _ _ Hwf') in Ho as (e & He & Ho). apply Hwf. exists e. auto.
Qed.

Lemma evict_shrinks p n r p' : wf p -> EvictTransactions p n = (r, p') -> shrunk p p' /\
  (r = Ok tt -> mempool_size p' <= mempool_size p - n /\ (1 <= n -> mempool_count p' < mempool_count p)).
Proof.
  intros Hwf E. destruct (EvictTransactions_spec p n Hwf) as (r' & p0 & E' & Hwf' & HL & H). rewrite E in E'. injection E' as <- <-.
  destruct r as [[]|e].
  - destruct H as (k & HP & Hn & _). destruct (evicted_totals p p' _ Hwf Hwf' HP) as (H1 & H2 & H3).
    split; [done|]. intros _. split; [lia|]. intros H4.
    set (es := filter _ _) in *. destruct es as [|x es]; [cbn in Hn; lia|].
    unfold len in H2. cbn [length] in H2. lia.
  - destruct H as [_ ->]. split; [|done]. done.
Qed.

Lemma make_room_spec p size r p' : wf p -> 0 < size <= MAX_TX_SIZE -> make_room p size = (r, p') -> shrunk p p' /\
  (r = Ok tt -> mempool_count p' + 1 <= max_mempool_count p' /\ mempool_size p' + size <= max_mempool_size p').
Proof.
  intros Hwf Hsz. unfold make_room.
  assert (exists r1 p1, (if mempool_count p >=? max_mempool_count p then EvictTransactions p 1 else (Ok tt, p)) = (r1, p1) /\
    shrunk p p1 /\ (r1 = Ok tt -> mempool_count p1 + 1 <= max_mempool_count p1)) as (r1 & p1 & -> & (Hwf1 & HL1 & HS1) & Hc).
  { rewrite Z.geb_leb. destruct (Z.leb_spec (max_mempool_count p) (mempool_count p)).
    - destruct (EvictTransactions p 1) as [r1 p1] eqn:E. destruct (evict_shrinks p 1 r1 p1 Hwf E) as [HS H1].
      exists r1, p1. split_and!; [done|done|]. intros Hr. destruct (H1 Hr) as [_ H2]. destruct HS as (_ & [_ ->] & _).
      destruct (pw_limits _ _ Hwf) as (? & _). specialize (H2 ltac:(lia)). lia.
    - exists (Ok tt), p. split_and!; [done|done|]. intros _. lia. }
  destruct r1 as [[]|e]; [|intros [= <- <-]; done]. specialize (Hc eq_refl).
  destruct (pw_limits _ _ Hwf1) as (L1 & L2 & L3 & L4). pose proof (sum_sizes_nonneg p1 Hwf1) as Hn. rewrite <- (pw_size _ _ Hwf1) in Hn.
  unfold MAX_TX_SIZE in Hsz. rewrite !(u64_small (_ + size)) by lia. rewrite Z.gtb_ltb.
  destruct (Z.ltb_spec (max_mempool_size p1) (mempool_size p1 + size)).
  - rewrite u64_small by lia. intros E. destruct (evict_shrinks p1 _ r p' Hwf1 E) as [(Hwf' & [M1 M2] & HS') H1].
    split; [split_and!; [done|destruct HL1; split; congruence|set_solver]|]. intros Hr. destruct (H1 Hr) as [H2 H3].
    specialize (H3 ltac:(lia)). lia.
  - intros [= <- <-]. split; [done|]. intros _. lia.
Qed.

(** What passing the checks, up to the limits, means. *)
Lemma ValidateLocked_inv p tx fee time height now bypass :
  match ValidateLocked SHA3_256 p (Some tx) fee time height now bypass with Ok _ => true | Err e => is_full e end = true ->
  IsCoinBase tx = false /\ mapTx p !! Tx_GetHash SHA3_256 tx = None /\ (forall i, i ∈ vin tx -> prevout i ∉ mapSpentOutpoints p) /\
  0 <= fee /\ GetSerializedSize tx <= MAX_TX_SIZE /\ (bypass = false -> CheckFee tx fee true = Ok tt).
Proof.
  cbn [ValidateLocked]. destruct (IsCoinBase tx); [done|]. case_bool_decide as Hm; [done|].
  destruct (existsb _ (vin tx)) eqn:Ee; [done|]. destruct (Z.ltb_spec fee 0); [done|]. destruct (time <=? 0); [done|].
  destruct (time >? _); [done|]. destruct (height =? 0); [done|].
  destruct (if bypass then Ok tt else CheckFee tx fee true) as [[]|fe] eqn:Ef; [|done].
  rewrite Z.gtb_ltb. destruct (Z.ltb_spec MAX_TX_SIZE (GetSerializedSize tx)); [done|]. intros _. split_and!; try done.
  - destruct (mapTx p !! Tx_GetHash SHA3_256 tx); [|done]. exfalso. apply Hm. eauto.
  - intros i Hi Hs. assert (existsb (fun i => bool_decide (prevout i ∈ mapSpentOutpoints p)) (vin tx) = true) as E2; [|congruence].
    apply existsb_exists. exists i. split; [by apply list_elem_of_In|by apply bool_decide_eq_true].
  - intros ->. exact Ef.
Qed.

Lemma TestAccept_room p tx fee time height now bypass : wf p ->
  ValidateLocked SHA3_256 p (Some tx) fee time height now bypass = Ok tt -> make_room p (GetSerializedSize tx) = (Ok tt, p).
Proof.
  intros Hwf. cbn [ValidateLocked]. destruct (IsCoinBase tx); [done|]. case_bool_decide; [done|]. destruct (existsb _ (vin tx)); [done|].
  destruct (fee <? 0); [done|]. destruct (time <=? 0); [done|]. destruct (time >? _); [done|]. destruct (height =? 0); [done|].
  destruct (if bypass then Ok tt else CheckFee tx fee true); [|done]. destruct (_ >? MAX_TX_SIZE); [done|].
  destruct (_ >? SIZE_MAX - _); [done|]. unfold make_room. destruct (mempool_count p >=? _); [done|].
  by destruct (u64 _ >? _).
Qed.

(** Every outcome of an admission keeps the invariant. *)
Lemma AddTxUnlocked_wf fail p tx fee time height now bypass r p' : wf p ->
  match fail, tx with Some f, Some tx => clean_failure tx f = true | _, _ => True end ->
  AddTxUnlocked SHA3_256 fail p tx fee time height now bypass = (r, p') -> wf p' /\ same_limits p p'.
Proof.
  intros Hwf Hf. unfold AddTxUnlocked. destruct tx as [tx|]; [|cbn [ValidateLocked]; intros [= <- <-]; done].
  pose proof (ValidateLocked_inv p tx fee time height now bypass) as HV.
  destruct (ValidateLocked _ p (Some tx) fee time height now bypass) as [v|e]; [|destruct (is_full e); [|intros [= <- <-]; done]];
    destruct (HV eq_refl) as (_ & Hn & Hs & _ & Hz & _); clear HV;
    (destruct (make_room p (GetSerializedSize tx)) as [r1 p1] eqn:E1;
     destruct (make_room_spec p (GetSerializedSize tx) r1 p1 Hwf (conj (GetSerializedSize_pos tx) Hz) E1) as [HS HR];
     pose proof HS as (Hwf1 & HL1 & _); destruct r1 as [[]|]; [|intros [= <- <-]; done];
     destruct (HR eq_refl) as [R1 R2];
     assert (mapTx p1 !! Tx_GetHash SHA3_256 tx = None) as Hn1 by (by apply (shrunk_absent p p1));
     assert (forall i, i ∈ vin tx -> prevout i ∉ mapSpentOutpoints p1) as Hs1
       by (intros i Hi; apply (shrunk_unspent p p1 _ Hwf HS); auto);
     destruct fail as [f|];
       [rewrite guarded_insert_fails by done; intros [= <- <-]; split; [by apply wf_metrics|done]
       |rewrite guarded_insert_ok by done; intros [= <- <-]; split; [|done]; apply wf_metrics, inserted_wf; try done;
        intros o (i & -> & Hi)%list_elem_of_fmap; auto]).
Qed.

(** *** Replacement *)

Lemma hashes_ordered_perm l : hashes_ordered l ≡ₚ l.
Proof. apply merge_sort_Permutation. Qed.

Lemma map_entries_perm p : wf p -> map_entries p ≡ₚ setEntries p.
Proof.
  intros Hwf. unfold map_entries. apply NoDup_Permutation; [|by apply pool_NoDup|].
  - assert (NoDup (hashes_ordered (map_to_list (mapTx p)).*1)) as Hd by (rewrite hashes_ordered_perm; apply NoDup_fst_map_to_list).
    induction Hd as [|h l Hn Hd IH]; cbn; [constructor|]. destruct (mapTx p !! h) as [e|] eqn:E; [|done]. constructor; [|done].
    intros (h' & Hh & E')%list_elem_of_omap. destruct (pw_entry _ _ Hwf _ _ E) as (-> & _). destruct (pw_entry _ _ Hwf _ _ E') as (-> & _). done.
  - intros e. rewrite list_elem_of_omap, (pw_set _ _ Hwf). split.
    + intros (h & _ & E). by destruct (pw_entry _ _ Hwf _ _ E) as (<- & _).
    + intros E. exists (tx_hash e). split; [|done]. rewrite hashes_ordered_perm. apply list_elem_of_fmap. exists (tx_hash e, e).
      split; [done|]. by apply elem_of_map_to_list.
Qed.

Lemma spends_elem e o : spends (e_tx e) o = true <-> o ∈ prevouts e.
Proof.
  unfold spends, prevouts. rewrite existsb_exists, list_elem_of_fmap. split.
  - intros (i & Hi & Hb%bool_decide_eq_true). exists i. split; [done|]. by apply list_elem_of_In.
  - intros (i & -> & Hi). exists i. split; [by apply list_elem_of_In|by apply bool_decide_eq_true].
Qed.

Definition add_conflict (o : COutPoint) (acc : gset uint256 * Z) (e : CTxMemPoolEntry) : gset uint256 * Z :=
  if spends (e_tx e) o then ({[ tx_hash e ]} ∪ acc.1, i64 (acc.2 + e_fee e)) else acc.

Lemma add_conflict_none o l acc : (forall e, e ∈ l -> o ∉ prevouts e) -> foldl (add_conflict o) acc l = acc.
Proof.
  revert acc. induction l as [|e l IH]; intros acc Hl; cbn; [done|]. unfold add_conflict at 2.
  destruct (spends (e_tx e) o) eqn:E; [exfalso; apply spends_elem in E; by apply (Hl e); [left|]|].
  apply IH. intros x Hx. apply Hl. by right.
Qed.

Lemma add_conflict_one o l acc e : NoDup l -> e ∈ l -> o ∈ prevouts e -> (forall x, x ∈ l -> o ∈ prevouts x -> x = e) ->
  foldl (add_conflict o) acc l = ({[ tx_hash e ]} ∪ acc.1, i64 (acc.2 + e_fee e)).
Proof.
  intros Hd. revert acc. induction Hd as [|x l Hx Hd IH]; intros acc He Ho Hu; [inversion He|]. cbn.
  apply elem_of_cons in He as [<-|He].
  - rewrite add_conflict_none; [unfold add_conflict; by rewrite (proj2 (spends_elem e o) Ho)|].
    intros y Hy Hoy. apply Hx. rewrite <- (Hu y ltac:(by right) Hoy). done.
  - unfold add_conflict at 2. destruct (spends (e_tx x) o) eqn:E.
    + exfalso. apply Hx. rewrite (Hu x ltac:(left) ltac:(by apply spends_elem)). done.
    + apply IH; [done|done|]. intros y Hy. apply Hu. by right.
Qed.

Definition fee_of (p : CTxMemPool) (h : uint256) : Z := match mapTx p !! h with Some e => e_fee e | None => 0 end.
Definition fees_of (p : CTxMemPool) (s : gset uint256) : Z := sum_list (fee_of p <$> elements s).

Lemma fees_of_add p s h : h ∉ s -> fees_of p ({[ h ]} ∪ s) = fee_of p h + fees_of p s.
Proof.
  intros Hn. unfold fees_of. rewrite (sum_list_perm _ (fee_of p <$> (h :: elements s)))
    by (by apply fmap_Permutation, elements_union_singleton). done.
Qed.

(** The conflicting entries of a list of inputs. *)
Definition conflicts_with (p : CTxMemPool) (ins : list CTxIn) (e : CTxMemPoolEntry) : Prop :=
  e ∈ setEntries p /\ exists i, i ∈ ins /\ prevout i ∈ prevouts e.

Lemma find_conflicts_spec p ins : wf p -> (forall e, e ∈ setEntries p -> 0 <= e_fee e <= MAX_REASONABLE_FEE) ->
  forall s f k,
  fees_of p s <= f <= k -> 0 <= f -> k + len ins * MAX_REASONABLE_FEE < 2 ^ 63 ->
  exists s' f', foldl (find_conflicts p) (s, f) ins = (s', f') /\ fees_of p s' <= f' /\
    forall h, h ∈ s' <-> h ∈ s \/ exists e, tx_hash e = h /\ conflicts_with p ins e.
Proof.
  intros Hwf Hfee. induction ins as [|i ins IH]; intros s f k Hf H0 Hk; cbn [foldl].
  { exists s, f. split_and!; [done|lia|]. intros h. split; [by left|]. intros [?|(e & _ & _ & i & Hi & _)]; [done|inversion Hi]. }
  assert (len (i :: ins) = 1 + len ins) as Hlen by (unfold len; cbn [length]; lia). rewrite Hlen in Hk.
  assert (0 <= MAX_REASONABLE_FEE) as Hmf by (unfold MAX_REASONABLE_FEE; lia). pose proof (len_nonneg ins) as Hli.
  pose proof (map_entries_perm p Hwf) as HP.
  assert (forall h, (exists e, tx_hash e = h /\ conflicts_with p (i :: ins) e) <->
    (exists e, tx_hash e = h /\ e ∈ setEntries p /\ prevout i ∈ prevouts e) \/ (exists e, tx_hash e = h /\ conflicts_with p ins e)) as Hsplit.
  { intros h. unfold conflicts_with. split.
    - intros (e & Eh & Hin & j & [->|Hj]%elem_of_cons & Ho); [left|right]; eauto 6.
    - intros [(e & Eh & Hin & Ho)|(e & Eh & Hin & j & Hj & Ho)]; exists e; (split; [done|]); (split; [done|]).
      + exists i. split; [left|done].
      + exists j. split; [by right|done]. }
  unfold find_conflicts at 2. fold (add_conflict (prevout i)). case_bool_decide as Hsp.
  - apply (pw_spent _ _ Hwf) in Hsp as (e & He & Ho).
    rewrite (add_conflict_one (prevout i) (map_entries p) (s, f) e);
      [|rewrite HP; by apply pool_NoDup|by rewrite HP|done|intros x Hx Hox; rewrite HP in Hx; by apply (pw_single _ _ Hwf (prevout i))].
    cbn [fst snd]. pose proof (Hfee e He). rewrite i64_small by lia.
    assert (fee_of p (tx_hash e) = e_fee e) as Hfe by (unfold fee_of; by rewrite (proj1 (pw_set _ _ Hwf e) He)).
    assert (fees_of p ({[ tx_hash e ]} ∪ s) <= f + e_fee e) as Hle.
    { destruct (decide (tx_hash e ∈ s)); [rewrite subseteq_union_1_L by set_solver; lia|rewrite fees_of_add by done; lia]. }
    destruct (IH ({[ tx_hash e ]} ∪ s) (f + e_fee e) (k + MAX_REASONABLE_FEE)) as (s' & f' & -> & H1 & H2); [lia..|].
    exists s', f'. split_and!; [done|done|]. intros h. rewrite H2, Hsplit, elem_of_union, elem_of_singleton. split.
    + intros [[->|?]|?]; [right; left; eauto|by left|by right; right].
    + intros [?|[(x & <- & Hx & Hox)|?]]; [by left; right| |by right].
      left; left. by rewrite (pw_single _ _ Hwf (prevout i) x e Hx He Hox Ho).
  - destruct (IH s f k) as (s' & f' & -> & H1 & H2); [lia..|]. exists s', f'. split_and!; [done|done|].
    intros h. rewrite H2, Hsplit. split; [intros [?|?]; auto|]. intros [?|[(x & _ & Hx & Hox)|?]]; auto.
    exfalso. apply Hsp. apply Hwf. eauto.
Qed.

Lemma remove_conflicts_spec es : forall p, wf p -> NoDup es -> es ⊆ setEntries p ->
  exists p', remove_conflicts p (tx_hash <$> es) = (true, p', tx_hash <$> es) /\ wf p' /\ setEntries p ≡ₚ es ++ setEntries p' /\
    same_limits p p'.
Proof.
  induction es as [|e es IH]; intros p Hwf Hd Hsub; cbn [remove_conflicts fmap list_fmap]; [by exists p|].
  apply NoDup_cons in Hd as [Hne Hd]. assert (mapTx p !! tx_hash e = Some e) as He by (apply Hwf, Hsub; left).
  rewrite (RemoveTxUnlocked_spec p _ e Hwf He).
  assert (es ⊆ setEntries (removed p (tx_hash e) e)) as Hsub1.
  { intros x Hx. apply (removed_elem p (tx_hash e) e Hwf He). split; [apply Hsub; by right|]. by intros ->. }
  destruct (IH (removed p (tx_hash e) e) (removed_wf p _ e Hwf He) Hd Hsub1) as (p' & -> & Hwf' & HP & [L1 L2]).
  exists p'. split_and!; [done|done| |done]. rewrite (removed_perm p (tx_hash e) e Hwf He). cbn. by constructor.
Qed.

(** The entries behind a list of hashes of the pool. *)
Lemma entries_of_hashes p (l : list uint256) : wf p -> (forall h, h ∈ l -> exists e, e ∈ setEntries p /\ tx_hash e = h) -> NoDup l ->
  exists es, l = tx_hash <$> es /\ NoDup es /\ es ⊆ setEntries p.
Proof.
  intros Hwf Hl Hd. induction Hd as [|h l Hn Hd IH]; [exists []; split_and!; [done|apply NoDup_nil_2|intros x Hx; inversion Hx]|].
  destruct IH as (es & -> & Hde & Hs); [intros; apply Hl; by right|]. destruct (Hl h ltac:(left)) as (e & He & <-).
  exists (e :: es). split_and!; [done| |].
  - constructor; [|done]. intros Hin. apply Hn. apply list_elem_of_fmap. eauto.
  - intros x [->|Hx]%elem_of_cons; [done|by apply Hs].
Qed.

Lemma size_inputs tx : len (vin tx) <= GetSerializedSize tx.
Proof.
  unfold GetSerializedSize.
  assert (forall l : list CTxIn, len l <= sum_list ((fun i => 32 + 4 + CompactSizeLen (len (scriptSig i)) + len (scriptSig i) + 4) <$> l)) as H1.
  { intros l. unfold len at 1. induction l as [|i l IH]; cbn [length fmap list_fmap sum_list]; [lia|].
    pose proof (len_nonneg (scriptSig i)). assert (0 < CompactSizeLen (len (scriptSig i))) by (unfold CompactSizeLen; zcases). lia. }
  assert (forall l : list CTxOut, 0 <= sum_list ((fun o => 8 + CompactSizeLen (len (scriptPubKey o)) + len (scriptPubKey o)) <$> l)) as H2.
  { intros l. induction l as [|i l IH]; cbn [fmap list_fmap sum_list]; [lia|].
    pose proof (len_nonneg (scriptPubKey i)). assert (0 < CompactSizeLen (len (scriptPubKey i))) by (unfold CompactSizeLen; zcases). lia. }
  assert (0 < CompactSizeLen (len (vin tx)) /\ 0 < CompactSizeLen (len (vout tx))) by (unfold CompactSizeLen; split; zcases).
  specialize (H1 (vin tx)). specialize (H2 (vout tx)). lia.
Qed.

(** The rules a replacement has passed. *)
Lemma check_replacement_inv p tx fee ids f : check_replacement p tx fee ids f = Ok tt ->
  ids <> [] /\ (forall h e, h ∈ ids -> mapTx p !! h = Some e -> signals_rbf (e_tx e) = true) /\ signals_rbf tx = true /\ f < fee /\
  i64 (GetSerializedSize tx) <= i64 (fee - f) /\ len ids <= 100 /\ (forall h, h ∈ ids -> HasDescendants p h = false).
Proof.
  unfold check_replacement. case_bool_decide as H0; [done|]. destruct (existsb _ ids) eqn:E1; [done|].
  destruct (signals_rbf tx) eqn:Es; [|done]. cbn [negb]. destruct (Z.leb_spec fee f); [done|].
  destruct (Z.ltb_spec (i64 (fee - f)) (i64 (GetSerializedSize tx))); [done|]. rewrite Z.gtb_ltb.
  destruct (Z.ltb_spec 100 (len ids)); [done|]. destruct (existsb (HasDescendants p) ids) eqn:E2; [done|]. intros _.
  split_and!; try done.
  - intros h e Hh He. destruct (signals_rbf (e_tx e)) eqn:E; [done|]. exfalso. assert (existsb (fun id => match mapTx p !! id with
      Some e => negb (signals_rbf (e_tx e)) | None => false end) ids = true) as E3; [|congruence].
    apply existsb_exists. exists h. split; [by apply list_elem_of_In|]. by rewrite He, E.
  - intros h Hh. destruct (HasDescendants p h) eqn:E; [|done]. exfalso.
    assert (existsb (HasDescendants p) ids = true) as E3; [|congruence]. apply existsb_exists. exists h. split; [by apply list_elem_of_In|done].
Qed.

Lemma conflict_hashes p s : wf p -> (forall h : uint256, h ∈ s -> exists e, e ∈ setEntries p /\ tx_hash e = h) ->
  exists es, hashes_ordered (elements s) = tx_hash <$> es /\ NoDup es /\ es ⊆ setEntries p /\ fees_of p s = sum_list (e_fee <$> es).
Proof.
  intros Hwf Hs. destruct (entries_of_hashes p (hashes_ordered (elements s)) Hwf) as (es & E & Hd & Hsub).
  - intros h Hh. rewrite hashes_ordered_perm, elem_of_elements in Hh. auto.
  - rewrite hashes_ordered_perm. apply NoDup_elements.
  - exists es. split_and!; [done..|]. unfold fees_of.
    rewrite (sum_list_perm _ (fee_of p <$> (tx_hash <$> es))) by (apply fmap_Permutation; rewrite <- E; by rewrite hashes_ordered_perm).
    f_equal. rewrite <- list_fmap_compose. apply list_fmap_ext. intros i e He. apply list_elem_of_lookup_2 in He. cbn.
    unfold fee_of. by rewrite (proj1 (pw_set _ _ Hwf e) (Hsub e He)).
Qed.

Lemma ReplaceTransactionLocked_wf fail p tx fee time height now r p' ev : wf p ->
  match fail, tx with Some f, Some tx => clean_failure tx f = true | _, _ => True end ->
  ReplaceTransactionLocked SHA3_256 fail p tx fee time height now = (r, p', ev) -> wf p' /\ same_limits p p'.
Proof.
  intros Hwf Hf. unfold ReplaceTransactionLocked. destruct tx as [tx|]; [|intros [= <- <- <-]; done].
  assert (exists s f, foldl (find_conflicts p) (∅, 0) (vin tx) = (s, f) /\
    forall h, h ∈ s -> exists e, e ∈ setEntries p /\ tx_hash e = h) as (s & f & -> & Hs).
  { assert (forall l acc, (forall h, h ∈ acc.1 -> exists e, e ∈ setEntries p /\ tx_hash e = h) ->
      forall h, h ∈ (foldl (find_conflicts p) acc l).1 -> exists e, e ∈ setEntries p /\ tx_hash e = h) as H.
    { intros l. induction l as [|i l IH]; intros acc Ha; cbn [foldl]; [done|]. apply IH. unfold find_conflicts.
      case_bool_decide; [|done]. pose proof (map_entries_perm p Hwf) as HP.
      assert (forall l' acc, l' ⊆ map_entries p -> (forall h, h ∈ acc.1 -> exists e, e ∈ setEntries p /\ tx_hash e = h) ->
        forall h, h ∈ (foldl (add_conflict (prevout i)) acc l').1 -> exists e, e ∈ setEntries p /\ tx_hash e = h) as H2.
      { intros l'. induction l' as [|e l' IH']; intros a Hl Ha' h; cbn [foldl]; [by apply Ha'|].
        apply IH'; [intros x Hx; apply Hl; by right|]. unfold add_conflict. destruct (spends (e_tx e) (prevout i)); [|done].
        cbn. intros h' [->%elem_of_singleton|Hh]%elem_of_union; [|by apply Ha']. exists e. split; [|done]. rewrite <- HP. apply Hl. left. }
      by apply (H2 (map_entries p) acc). }
    destruct (foldl (find_conflicts p) (∅, 0) (vin tx)) as [s f] eqn:E. exists s, f. split; [done|]. intros h Hh.
    apply (H (vin tx) (∅, 0)); [set_solver|by rewrite E]. }
  destruct (check_replacement _ _ _ _ _) as [[]|]; [|intros [= <- <- <-]; done].
  destruct (conflict_hashes p s Hwf Hs) as (es & -> & Hd & Hsub & _).
  destruct (remove_conflicts_spec es p Hwf Hd Hsub) as (p1 & -> & Hwf1 & _ & [L1 L2]).
  destruct (AddTxUnlocked SHA3_256 fail p1 (Some tx) fee time height now false) as [r2 p2] eqn:E.
  destruct (AddTxUnlocked_wf fail p1 (Some tx) fee time height now false r2 p2 Hwf1 ltac:(by destruct fail) E) as [Hwf2 [M1 M2]].
  destruct r2; intros [= <- <- <-]; (split; [by apply wf_metrics|split; cbn; congruence]).
Qed.

(** *** Expiry and confirmation *)

Lemma remove_wf p id : wf p -> wf (RemoveTxUnlocked p id).2 /\ same_limits p (RemoveTxUnlocked p id).2.
Proof.
  intros Hwf. destruct (mapTx p !! id) as [e|] eqn:E.
  - rewrite (RemoveTxUnlocked_spec p id e Hwf E). split; [by apply removed_wf|done].
  - unfold RemoveTxUnlocked. rewrite E. done.
Qed.

Lemma remove_counted_wf count ids : forall acc, wf acc.1 -> wf (foldl (remove_counted count) acc ids).1.
Proof.
  induction ids as [|id ids IH]; intros acc Hwf; cbn [foldl]; [done|]. apply IH. unfold remove_counted.
  destruct (remove_wf acc.1 id Hwf) as [H _]. destruct (RemoveTxUnlocked acc.1 id) as [[] p]; [by apply wf_metrics|done].
Qed.

Lemma RemoveConfirmedTxs_wf txs : forall p, wf p -> wf (RemoveConfirmedTxs SHA3_256 p txs).
Proof. induction txs as [|tx txs IH]; intros p Hwf; cbn; [done|]. apply IH. by apply remove_wf. Qed.
End PoolProofs.

(** ** Every reachable pool *)

(** The operations a node performs on the pool, with any arguments; an
    insertion may run out of memory where that leaves nothing behind. *)
Inductive pool_step (SHA3_256 : list Z -> uint256) : CTxMemPool -> CTxMemPool -> Prop :=
| step_add fail p tx fee time height now bypass :
    match fail, tx with Some f, Some tx => clean_failure tx f = true | _, _ => True end ->
    pool_step SHA3_256 p (AddTx SHA3_256 fail p tx fee time height now bypass).1.2
| step_remove p id : pool_step SHA3_256 p (RemoveTx p id).1.2
| step_replace fail p tx fee time height now bypass :
    match fail, tx with Some f, Some tx => clean_failure tx f = true | _, _ => True end ->
    pool_step SHA3_256 p (ReplaceTransaction SHA3_256 fail p tx fee time height now bypass).1.2
| step_expire p now : pool_step SHA3_256 p (CleanupExpiredTransactions p now).1
| step_confirm p txs : pool_step SHA3_256 p (RemoveConfirmedTxs SHA3_256 p txs)
| step_clear p : pool_step SHA3_256 p (Clear p)
| step_height p h : pool_step SHA3_256 p (SetHeight p h)
| step_rebroadcast p id : pool_step SHA3_256 p (MarkRebroadcast p id).

Lemma empty_pool_wf SHA3_256 : pool_wf SHA3_256 empty_pool.
Proof.
  split; cbn; try done.
  - intros e. rewrite lookup_empty. split; [intros H; inversion H|done].
  - constructor.
  - intros o. split; [set_solver|]. intros (e & He & _). inversion He.
  - intros o a b Ha. inversion Ha.
Qed.

Lemma pool_step_wf SHA3_256 p p' : pool_step SHA3_256 p p' -> pool_wf SHA3_256 p -> pool_wf SHA3_256 p'.
Proof.
  intros Hstep Hwf. destruct Hstep as [fail p tx fee time height now bypass Hf|p id|fail p tx fee time height now bypass Hf|p now|p txs|p|p h|p id].
  - unfold AddTx. destruct (AddTxUnlocked _ _ _ _ _ _ _ _) as [r p'] eqn:E. cbn.
    apply (AddTxUnlocked_wf SHA3_256) in E; [|by apply wf_pending|by destruct fail, tx]. by apply wf_pending, E.
  - unfold RemoveTx. destruct (remove_wf SHA3_256 p id Hwf) as [H _]. by destruct (RemoveTxUnlocked p id).
  - unfold ReplaceTransaction. destruct (ReplaceTransactionLocked _ _ _ _ _ _ _ _) as [[r p'] ev] eqn:E. cbn.
    apply (ReplaceTransactionLocked_wf SHA3_256) in E; [|by apply wf_pending|by destruct fail, tx]. by apply wf_pending, E.
  - unfold CleanupExpiredTransactions. pose proof (remove_counted_wf SHA3_256 count_expiration) as H.
    match goal with |- context [foldl _ (p, []) ?l] => specialize (H l (p, []) Hwf) end.
    by destruct (foldl _ _ _).
  - by apply RemoveConfirmedTxs_wf.
  - destruct (empty_pool_wf SHA3_256) as [H1 H2 H3 H4 H5 H6 H7 H8 _]. destruct (pw_limits _ _ Hwf) as (_ & _ & ? & ?).
    split; try done. cbn. split_and!; lia.
  - destruct Hwf. by split.
  - unfold MarkRebroadcast. destruct (Exists p id); [by apply wf_metrics|done].
Qed.

(** C8: the memory pool never holds a double spend and its books always balance. In every pool reachable from the
    empty one, by admissions with or without eviction, replacements, removals, expiry, block confirmations and
    clearings in any order, where an insertion may fail for want of memory while the entry is built or while the map,
    the fee-rate set or the set of spent outpoints grows: no outpoint is spent by two transactions; the fee-rate set
    is sorted and holds exactly the map's entries; the spent outpoints are exactly those of the entries; the byte and
    transaction counters are exact and within their limits; and every recorded descendant is in the pool and spends an
    output of its recorded parent. Two failures are excluded because they do leave something behind: of the list by
    which the guard remembers an outpoint ([track_failure_leaks_outpoint]) and of the descendant records
    ([descendants_failure_leaks_child]). *)
Theorem mempool_invariant (SHA3_256 : list Z -> uint256) (p : CTxMemPool) (Hreach : rtc (pool_step SHA3_256) empty_pool p) :
  pool_wf SHA3_256 p /\ Size p = mempool_count p.
Proof.
  assert (pool_wf SHA3_256 p) as Hwf.
  { revert Hreach. apply (rtc_ind_r (fun p => pool_wf SHA3_256 p)); [apply empty_pool_wf|]. intros y z _ Hs Hy. by apply (pool_step_wf _ y z). }
  split; [done|]. rewrite (pw_count _ _ Hwf). unfold Size, len. f_equal.
  assert ((map_to_list (mapTx p)).*2 ≡ₚ setEntries p) as <-; [|by rewrite length_fmap, length_map_to_list].
  apply NoDup_Permutation; [|by apply (pool_NoDup SHA3_256)|].
  - apply NoDup_fmap_2_strong; [|apply NoDup_map_to_list].
    intros [h1 e1] [h2 e2] H1%elem_of_map_to_list H2%elem_of_map_to_list E. cbn in E. subst e2.
    destruct (pw_entry _ _ Hwf _ _ H1) as (E1 & _), (pw_entry _ _ Hwf _ _ H2) as (E2 & _). congruence.
  - intros e. rewrite list_elem_of_fmap, (pw_set _ _ Hwf). split.
    + intros ([h x] & -> & H%elem_of_map_to_list). cbn. destruct (pw_entry _ _ Hwf _ _ H) as (E & _). by rewrite <- E.
    + intros H. exists (tx_hash e, e). split; [done|]. by apply elem_of_map_to_list.
Qed.

(** What a completed admission adds. *)
Lemma AddTxUnlocked_ok SHA3_256 p tx fee time height now bypass p' : pool_wf SHA3_256 p ->
  AddTxUnlocked SHA3_256 None p (Some tx) fee time height now bypass = (Ok tt, p') ->
  let e := make_entry SHA3_256 tx fee time height in mapTx p' !! tx_hash e = Some e /\ setEntries p' ⊆ e :: setEntries p.
Proof.
  intros Hwf. unfold AddTxUnlocked. pose proof (ValidateLocked_inv SHA3_256 p tx fee time height now bypass) as HV.
  destruct (ValidateLocked SHA3_256 p (Some tx) fee time height now bypass) as [v|reason]; [|destruct (is_full reason); [|done]];
    destruct (HV eq_refl) as (_ & Hn & Hs & _ & Hz & _);
    (destruct (make_room p (GetSerializedSize tx)) as [[[]|e1] p1] eqn:E1; [|done];
     destruct (make_room_spec SHA3_256 p (GetSerializedSize tx) _ p1 Hwf (conj (GetSerializedSize_pos tx) Hz) E1) as [(Hwf1 & _ & Hsub) _];
     rewrite guarded_insert_ok by done; intros [= <-]; split; [apply lookup_insert_eq|];
     intros x Hx; cbn in Hx; rewrite set_insert_perm in Hx; [|by apply make_entry_rated|by apply (pool_rated SHA3_256)|];
     [apply elem_of_cons in Hx as [->|Hx]; [left|right; by apply Hsub]
     |intros (y & Ey & Hy%(pw_set _ _ Hwf1))%list_elem_of_fmap; cbn in Ey;
      apply (pw_set _ _ Hwf1), Hsub, (pw_set _ _ Hwf) in Hy; congruence]).
Qed.

(** [testmempoolaccept] predicts [sendrawtransaction].  When [TestAccept]
    says yes, [AddTx] admits the transaction without evicting anything, and the
    new pool is the old one with exactly that entry added; when it refuses for
    a reason other than a full pool, [AddTx] fails with the same reason and
    changes nothing; when the pool is full, an admission keeps the new entry
    and adds no other. *)
Theorem test_accept_predicts_add (SHA3_256 : list Z -> uint256) (p : CTxMemPool) (tx : CTransaction)
    (fee time height now : Z) (bypass : bool) (Hwf : pool_wf SHA3_256 p) (Hpending : m_pending_estimator_evictions p = []) :
  let e := make_entry SHA3_256 tx fee time height in
  let '(r, p', events) := AddTx SHA3_256 None p (Some tx) fee time height now bypass in
  match TestAccept SHA3_256 p (Some tx) fee time height now bypass with
  | Ok _ => r = Ok tt /\ p' = set_metrics (inserted p e) (count_add (metrics p)) /\
      events = [EstProcess (tx_hash e) height fee (tx_size e) (negb bypass)]
  | Err reason => if is_full reason
      then r = Ok tt -> mapTx p' !! tx_hash e = Some e /\ setEntries p' ⊆ e :: setEntries p
      else r = Err reason /\ p' = p /\ events = []
  end.
Proof.
  unfold AddTx. replace (set_pending p []) with p by (destruct p; cbn in *; by subst).
  assert (forall q, m_pending_estimator_evictions q = [] -> set_pending q [] = q) as Hp by (intros [] E; cbn in E; by subst).
  unfold AddTxUnlocked, TestAccept. pose proof (ValidateLocked_inv SHA3_256 p tx fee time height now bypass) as HV.
  destruct (ValidateLocked SHA3_256 p (Some tx) fee time height now bypass) as [[]|reason] eqn:E.
  - destruct (HV eq_refl) as (_ & _ & _ & _ & Hz & _). rewrite (TestAccept_room SHA3_256 p tx fee time height now bypass Hwf E).
    rewrite guarded_insert_ok by done. cbn. rewrite Hpending. split_and!; [done|by apply Hp|done].
  - destruct (is_full reason) eqn:Ef; [|rewrite Hpending; cbn; by rewrite Hp].
    pose proof (AddTxUnlocked_ok SHA3_256 p tx fee time height now bypass) as HA. unfold AddTxUnlocked in HA. rewrite E, Ef in HA.
    destruct (make_room p (GetSerializedSize tx)) as [[[]|e1] p1]; [|done].
    destruct (guarded_insert SHA3_256 None p1 tx fee time height) as [r p2]. intros ->. by destruct (HA p2 Hwf eq_refl).
Qed.

(** An insertion that runs out of memory is undone.  When building the
    entry, the map node, the set node or any spent-outpoint node fails, the
    guard's rollback leaves the pool as it was but for the failure counter. *)
Theorem failed_insertion_rolled_back (SHA3_256 : list Z -> uint256) (p : CTxMemPool) (tx : CTransaction) (f : alloc_failure)
    (fee time height now : Z) (bypass : bool) (Hwf : pool_wf SHA3_256 p) (Hpending : m_pending_estimator_evictions p = [])
    (Haccept : TestAccept SHA3_256 p (Some tx) fee time height now bypass = Ok tt) (Hclean : clean_failure tx f = true) :
  AddTx SHA3_256 (Some f) p (Some tx) fee time height now bypass =
    (Err InsertionFailed, set_metrics p (count_add_failure (metrics p)), []).
Proof.
  unfold AddTx. replace (set_pending p []) with p by (destruct p; cbn in *; by subst).
  unfold AddTxUnlocked, TestAccept in *. pose proof (ValidateLocked_inv SHA3_256 p tx fee time height now bypass) as HV.
  rewrite Haccept in *. destruct (HV eq_refl) as (_ & Hn & Hs & _ & Hz & _).
  rewrite (TestAccept_room SHA3_256 p tx fee time height now bypass Hwf Haccept).
  rewrite guarded_insert_fails by done. cbn. rewrite Hpending. destruct p; cbn in *; by subst.
Qed.

(** A replacement pays for what it replaces.  A successful
    [ReplaceTransactionLocked] has removed exactly the transactions that share
    an input with the replacement, between one and a hundred, each of which
    signals replaceability and has no recorded descendant; the replacement pays
    at least their fees plus one unit per byte of its own; and the pool stays
    well-formed with the replacement in it. *)
Theorem replacement_sound (SHA3_256 : list Z -> uint256) (p p' : CTxMemPool) (tx : CTransaction) (fee time height now : Z)
    (evicted : list uint256) (Hwf : pool_wf SHA3_256 p)
    (Hfees : forall e, e ∈ setEntries p -> 0 <= e_fee e <= MAX_REASONABLE_FEE)
    (Hinputs : len (vin tx) < 2 ^ 32) (Hfee : 0 <= fee < 2 ^ 62) (Hsize : GetSerializedSize tx < 2 ^ 62)
    (Hrun : ReplaceTransactionLocked SHA3_256 None p (Some tx) fee time height now = (Ok tt, p', evicted)) :
  exists es, evicted = tx_hash <$> es /\ NoDup es /\ (forall e, e ∈ es <-> conflicts_with p (vin tx) e) /\
    1 <= len es <= 100 /\
    (forall e, e ∈ es -> signals_rbf (e_tx e) = true /\ HasDescendants p (tx_hash e) = false) /\
    signals_rbf tx = true /\ sum_list (e_fee <$> es) + GetSerializedSize tx <= fee /\
    pool_wf SHA3_256 p' /\ is_Some (mapTx p' !! Tx_GetHash SHA3_256 tx) /\
    forall e, e ∈ es -> tx_hash e <> Tx_GetHash SHA3_256 tx -> mapTx p' !! tx_hash e = None.
Proof.
  destruct (ReplaceTransactionLocked_wf SHA3_256 None p (Some tx) fee time height now _ p' evicted Hwf ltac:(done) Hrun) as [Hwf' _].
  unfold ReplaceTransactionLocked in Hrun. unfold MAX_REASONABLE_FEE in Hfees.
  destruct (find_conflicts_spec SHA3_256 p (vin tx) Hwf Hfees ∅ 0 0) as (s & f & E & Hle & Hs);
    [unfold fees_of; rewrite elements_empty; cbn; lia|lia|unfold MAX_REASONABLE_FEE; lia|]. rewrite E in Hrun.
  destruct (conflict_hashes SHA3_256 p s Hwf) as (es & Eh & Hd & Hsub & Hf).
  { intros h [Hh|(e & <- & He & _)]%Hs; [set_solver|]. eauto. }
  rewrite Eh in Hrun. destruct (check_replacement p tx fee (tx_hash <$> es) f) as [[]|] eqn:Ec; [|done].
  destruct (check_replacement_inv p tx fee _ f Ec) as (C1 & C2 & C3 & C4 & C5 & C6 & C7).
  destruct (remove_conflicts_spec SHA3_256 es p Hwf Hd Hsub) as (p1 & E1 & Hwf1 & HP & _). rewrite E1 in Hrun.
  assert (forall e, e ∈ es <-> conflicts_with p (vin tx) e) as Hes.
  { intros e. assert (tx_hash e ∈ tx_hash <$> es <-> tx_hash e ∈ s) as Hh
      by (by rewrite <- Eh, hashes_ordered_perm, elem_of_elements).
    split.
    - intros He. destruct (proj1 (Hs (tx_hash e)) ltac:(apply Hh, list_elem_of_fmap; eauto)) as [?|(x & Ex & Hx & Hi)]; [set_solver|].
      rewrite (pool_by_hash SHA3_256 p e x Hwf (Hsub e He) Hx ltac:(done)). done.
    - intros Hc. assert (tx_hash e ∈ tx_hash <$> es) as (x & Ex & Hx)%list_elem_of_fmap by (apply Hh, Hs; right; eauto).
      by rewrite (pool_by_hash SHA3_256 p e x Hwf (proj1 Hc) (Hsub x Hx) Ex). }
  assert (0 <= f) as Hf0.
  { transitivity (sum_list (e_fee <$> es)); [|lia]. clear -Hfees Hsub. induction es as [|x es IH]; cbn; [lia|].
    pose proof (Hfees x (Hsub x ltac:(left))). specialize (IH ltac:(intros y Hy; apply Hsub; by right)). lia. }
  pose proof (GetSerializedSize_pos tx). rewrite !i64_small in C5 by lia.
  exists es. destruct (AddTxUnlocked SHA3_256 None p1 (Some tx) fee time height now false) as [[[]|] p2] eqn:E2; [|done].
  injection Hrun as <- <-. split_and!; [done|done|done| |by unfold len in *; rewrite length_fmap in C6| |done|lia|done| |].
  - unfold len. destruct es; [done|]. cbn [length]. lia.
  - intros e He. split; [|apply C7, list_elem_of_fmap; eauto]. apply (C2 (tx_hash e) e); [apply list_elem_of_fmap; eauto|].
    apply Hwf. auto.
  - destruct (AddTxUnlocked_ok SHA3_256 p1 tx fee time height now false p2 Hwf1 E2) as [H1 _]. eauto.
  - intros e He Hne. destruct (AddTxUnlocked_ok SHA3_256 p1 tx fee time height now false p2 Hwf1 E2) as [_ H2].
    destruct (mapTx p2 !! tx_hash e) as [x|] eqn:Ex; [|done]. exfalso.
    assert (tx_hash e = tx_hash x) as Hx by (by apply (pw_entry _ _ Hwf' _ _ Ex)).
    assert (x ∈ setEntries p2) as Hin by (apply Hwf'; by rewrite <- Hx).
    apply H2, elem_of_cons in Hin as [->|Hin]; [done|].
    assert (x = e) as -> by (apply (pool_by_hash SHA3_256 p); [done|rewrite HP; apply elem_of_app; by right|by apply Hsub|done]).
    pose proof (pool_NoDup SHA3_256 p Hwf) as HN. rewrite HP in HN. apply NoDup_app in HN as (_ & HN & _). by apply (HN e).
Qed.

(** ** Instances *)

Definition toy_hash (l : list Z) : uint256 := le_bytes 32 (foldl (fun a b => (a * 257 + b + 1) mod 2 ^ 256) 7 l).

Definition toy_in (parent : uint256) (n : Z) : CTxIn := mkTxIn (mkOutPoint parent n) [] 0.
Definition toy_tx (ins : list CTxIn) (value : Z) : CTransaction := mkTx 1 ins [mkTxOut value []] 0.
Definition tx_a : CTransaction := toy_tx [toy_in (le_bytes 32 100) 0; toy_in (le_bytes 32 100) 1] 5.
Definition tx_b : CTransaction := toy_tx [toy_in (Tx_GetHash toy_hash tx_a) 0] 4.
Definition tx_c : CTransaction := toy_tx [toy_in (le_bytes 32 100) 0; toy_in (le_bytes 32 100) 1] 3.
Definition tx_d : CTransaction := toy_tx [toy_in (le_bytes 32 200) 0] 2.

Definition add (p : CTxMemPool) (tx : CTransaction) (fee : Z) : CTxMemPool :=
  (AddTx toy_hash None p (Some tx) fee 1000 5 1000 false).1.2.
Definition pool_a : CTxMemPool := add empty_pool tx_a 20000.

Lemma pool_a_reachable : rtc (pool_step toy_hash) empty_pool pool_a.
Proof. apply rtc_once. unfold pool_a, add. by apply step_add. Qed.

Lemma mempool_invariant_witness :
  rtc (pool_step toy_hash) empty_pool pool_a /\ mempool_count pool_a = 1 /\ pool_wf toy_hash pool_a /\ Size pool_a = mempool_count pool_a.
Proof.
  split; [apply pool_a_reachable|]. split; [vm_compute; reflexivity|]. apply (mempool_invariant toy_hash pool_a). apply pool_a_reachable.
Defined.

Lemma pool_a_wf : pool_wf toy_hash pool_a.
Proof. apply (pool_step_wf toy_hash empty_pool); [|apply empty_pool_wf]. unfold pool_a, add. by apply step_add. Qed.

Lemma test_accept_predicts_add_witness :
  TestAccept toy_hash pool_a (Some tx_b) 15000 1000 5 1000 false = Ok tt /\
  (AddTx toy_hash None pool_a (Some tx_b) 15000 1000 5 1000 false).1.1 = Ok tt.
Proof.
  assert (TestAccept toy_hash pool_a (Some tx_b) 15000 1000 5 1000 false = Ok tt) as E by (vm_compute; reflexivity).
  split; [exact E|]. pose proof (test_accept_predicts_add toy_hash pool_a tx_b 15000 1000 5 1000 false pool_a_wf ltac:(vm_compute; reflexivity)) as H.
  rewrite E in H. destruct (AddTx _ _ _ _ _ _ _ _) as [[r p'] ev]. apply H.
Defined.

Lemma failed_insertion_rolled_back_witness :
  AddTx toy_hash (Some (FailSpent 0)) pool_a (Some tx_b) 15000 1000 5 1000 false =
    (Err InsertionFailed, set_metrics pool_a (count_add_failure (metrics pool_a)), []).
Proof.
  apply (failed_insertion_rolled_back toy_hash pool_a tx_b (FailSpent 0) 15000 1000 5 1000 false).
  - apply pool_a_wf.
  - vm_compute. reflexivity.
  - vm_compute. reflexivity.
  - vm_compute. reflexivity.
Defined.

Lemma replacement_sound_witness :
  exists p' ev, ReplaceTransactionLocked toy_hash None pool_a (Some tx_c) 50000 1000 5 1000 = (Ok tt, p', ev) /\
    ev = [Tx_GetHash toy_hash tx_a] /\ pool_wf toy_hash p'.
Proof.
  assert ((ReplaceTransactionLocked toy_hash None pool_a (Some tx_c) 50000 1000 5 1000).1.1 = Ok tt) as Er by (vm_compute; reflexivity).
  assert ((ReplaceTransactionLocked toy_hash None pool_a (Some tx_c) 50000 1000 5 1000).2 = [Tx_GetHash toy_hash tx_a]) as Ev
    by (vm_compute; reflexivity).
  destruct (ReplaceTransactionLocked toy_hash None pool_a (Some tx_c) 50000 1000 5 1000) as [[r p'] ev] eqn:E.
  cbn [fst snd] in Er, Ev. subst r.
  destruct (replacement_sound toy_hash pool_a p' tx_c 50000 1000 5 1000 ev) as (es & He & _ & _ & _ & _ & _ & _ & Hwf & _).
  - apply pool_a_wf.
  - apply Forall_forall. assert (e_fee <$> setEntries pool_a = [20000]) as Ef by (vm_compute; reflexivity).
    destruct (setEntries pool_a) as [|e [|]]; try discriminate Ef. injection Ef as Ef. constructor; [|constructor].
    rewrite Ef. unfold MAX_REASONABLE_FEE. lia.
  - vm_compute. reflexivity.
  - lia.
  - vm_compute. reflexivity.
  - exact E.
  - exists p', ev. split; [reflexivity|]. split; [exact Ev|exact Hwf].
Defined.

(** The fees of a conflict are counted once for every input it shares with the
    replacement: at twice the old fee and more the replacement is refused. *)
Example rbf_counts_shared_inputs_twice :
  (ReplaceTransactionLocked toy_hash None pool_a (Some tx_c) 40000 1000 5 1000).1.1 = Err FeeNotHigher.
Proof. vm_compute. reflexivity. Qed.

(** A replacement that fails after the conflicts are removed loses both. *)
Example rbf_failure_loses_both :
  let '(r, p', _) := ReplaceTransaction toy_hash None pool_a (Some tx_c) 50000 0 5 1000 false in
  r = Err TimeNotPositive /\ Size p' = 0.
Proof. vm_compute. done. Qed.

(** A full pool evicts for any newcomer: a transaction that pays less takes
    the place of one that pays more, and a child that of its own parent. *)
Example eviction_prefers_newcomer :
  let p := add (SetMaxMempoolCountForTesting empty_pool 1) tx_a 90000 in
  let p' := add p tx_d 10000 in
  Exists p (Tx_GetHash toy_hash tx_a) = true /\ Exists p' (Tx_GetHash toy_hash tx_a) = false /\
  Exists p' (Tx_GetHash toy_hash tx_d) = true.
Proof. vm_compute. done. Qed.

Example eviction_orphans_newcomer :
  let p := add (SetMaxMempoolCountForTesting empty_pool 1) tx_a 90000 in
  let p' := add p tx_b 90000 in
  Exists p' (Tx_GetHash toy_hash tx_a) = false /\ Exists p' (Tx_GetHash toy_hash tx_b) = true.
Proof. vm_compute. done. Qed.

(** A parent that arrives after its child has no recorded descendant. *)
Example late_parent_has_no_descendants :
  let p := add (add empty_pool tx_b 15000) tx_a 20000 in
  Size p = 2 /\ HasDescendants p (Tx_GetHash toy_hash tx_a) = false.
Proof. vm_compute. done. Qed.

(** A failure between recording an outpoint and telling the guard leaves the
    outpoint spent by no transaction, and one while updating the descendants
    leaves an absent transaction recorded as a child. *)
Example track_failure_leaks_outpoint :
  let p := (AddTx toy_hash (Some (FailTrack 0)) empty_pool (Some tx_d) 20000 1000 5 1000 false).1.2 in
  Size p = 0 /\ IsSpent p (mkOutPoint (le_bytes 32 200) 0) = true.
Proof. vm_compute. done. Qed.

Example descendants_failure_leaks_child :
  let tx := toy_tx [toy_in (Tx_GetHash toy_hash tx_a) 0; toy_in (le_bytes 32 300) 0] 1 in
  let p := (AddTx toy_hash (Some (FailDescendants 1)) pool_a (Some tx) 20000 1000 5 1000 false).1.2 in
  Exists p (Tx_GetHash toy_hash tx) = false /\ HasDescendants p (Tx_GetHash toy_hash tx_a) = true.
Proof. vm_compute. done. Qed.

(** Removals are not counted. *)
Example removals_not_counted :
  let '(r, p, _) := RemoveTx pool_a (Tx_GetHash toy_hash tx_a) in r = true /\ total_removes (metrics p) = 0.
Proof. vm_compute. done. Qed.
