(* ===== verification/BlockStorage.v ===== *)
(** * Block storage (node/blockchain_storage.h, node/blockchain_storage.cpp)

    [CBlockchainDB]: blocks, index entries and the best-block pointer as
    versioned, checksummed records of LevelDB.  The interface of LevelDB is the
    one of the UTXO store; a [Put] or [Delete] is a batch of one operation.
    A read that fails leaves its argument to be discarded, so it is [None].
    Path validation and the disk-space checks are file-system calls and are left
    out; [Open] is given the handle that LevelDB returned. *)

From S2P Require Import Prelude Uint256 ChainParams Block BlockIndex Transaction UtxoStore UtxoBlock Dfmp IdentityDb.

(** ** Hexadecimal hashes (primitives/block.cpp) *)

(** [uint256::GetHex]: the most significant byte first. *)
Definition GetHex (h : uint256) : list Z := Identity_GetHex (rev h).

Definition hex_value (c : Z) : option Z :=
  if (48 <=? c) && (c <=? 57) then Some (c - 48)
  else if (97 <=? c) && (c <=? 102) then Some (c - 87)
  else if (65 <=? c) && (c <=? 70) then Some (c - 55)
  else None.

Definition is_space (c : Z) : bool := (c =? 32) || ((9 <=? c) && (c <=? 13)).

(** [static_cast<uint8_t>(std::stoi(str, nullptr, 16))] of two characters: blanks
    and a sign are skipped, parsing stops at the first other character, and no
    digit at all is an exception. *)
Definition stoi_hex2 (a b : Z) : option Z :=
  match hex_value a with
  | Some x => Some (match hex_value b with Some y => 16 * x + y | None => x end)
  | None =>
      if is_space a || (a =? 43) then hex_value b
      else if a =? 45 then u8 ∘ Z.opp <$> hex_value b
      else None
  end.

(** The string from its end; an odd leading digit gets a zero before it. *)
Fixpoint hex_pairs (rs : list Z) : option (list Z) :=
  match rs with
  | [] => Some []
  | [c] => x ← stoi_hex2 48 c; Some [x]
  | lo :: hi :: rs' => x ← stoi_hex2 hi lo; l ← hex_pairs rs'; Some (x :: l)
  end.

(** [uint256::SetHex]; [None] is the exception. *)
Definition SetHex (str : list Z) : option uint256 :=
  l ← hex_pairs (rev (take 64 str)); Some (l ++ replicate (32 - length l) 0).

(** ** Records: version, data length, data, checksum *)

Definition SERIALIZATION_VERSION : Z := 1.

Definition block_key (hash : uint256) : list Z := 98 :: GetHex hash.
Definition index_key (hash : uint256) : list Z := 105 :: GetHex hash.
(** ["bestblock"] *)
Definition best_key : list Z := [98; 101; 115; 116; 98; 108; 111; 99; 107].

Definition SerializeBlockData (block : CBlock) : list Z :=
  SerializeHeader (block_header block) ++ bytes32 (len (vtx block)) ++ vtx block.

Definition SerializeIndexData (index : CBlockIndex) : list Z :=
  bytes32 (nHeight index) ++ bytes32 (nStatus index) ++ bytes32 (nTime index) ++ bytes32 (nBits index) ++
  bytes32 (inNonce index) ++ bytes32 (inVersion index) ++ bytes32 (nTx index) ++
  GetHex (phashBlock index) ++ GetHex (hashPrevBlock (header index)) ++ GetHex (hashMerkleRoot (header index)) ++
  (if IsVDFBlock (header index) then GetHex (vdfOutput (header index)) ++ GetHex (vdfProofHash (header index)) else []).

(** [read_uint32] and [read_int32]: zero when fewer than four bytes are left. *)
Definition read_uint32 (data : list Z) : Z * list Z :=
  match cut 4 data with Some (v, rest) => (le_val v, rest) | None => (0, data) end.
Definition read_int32 (data : list Z) : Z * list Z :=
  let '(v, rest) := read_uint32 data in (i32 v, rest).

(** The fields of a block; the object starts as a null header. *)
Definition DeserializeBlockData (data : list Z) : option CBlock :=
  let '(version, data) := read_int32 data in
  '(prev, data) ← cut 32 data;
  '(merkle, data) ← cut 32 data;
  let '(time, data) := read_uint32 data in
  let '(bits, data) := read_uint32 data in
  let '(nonce, data) := read_uint32 data in
  '(output, proof, data) ←
    (if version >=? VDF_VERSION
     then '(output, data) ← cut 32 data; '(proof, data) ← cut 32 data; Some (output, proof, data)
     else Some (zero256, zero256, data));
  let '(vtx_size, data) := read_uint32 data in
  '(txs, _) ← cut vtx_size data;
  Some (mkBlock (mkHeader version prev merkle time bits nonce output proof zero256 false) txs).

(** The fields of an index entry; [None] is a short record or a hash that is not
    hexadecimal. *)
Definition DeserializeIndexData (data : list Z) : option CBlockIndex :=
  let '(height, data) := read_int32 data in
  let '(status, data) := read_uint32 data in
  let '(time, data) := read_uint32 data in
  let '(bits, data) := read_uint32 data in
  let '(nonce, data) := read_uint32 data in
  let '(version, data) := read_int32 data in
  let '(tx, data) := read_uint32 data in
  '(hashHex, data) ← cut 64 data; hash ← SetHex hashHex;
  '(prevHex, data) ← cut 64 data; prev ← SetHex prevHex;
  '(merkle, data) ←
    match cut 64 data with
    | Some (merkleHex, data) => merkle ← SetHex merkleHex; Some (merkle, data)
    | None => Some (zero256, data)
    end;
  '(output, proof) ←
    (if (version >=? VDF_VERSION) && (128 <=? len data)
     then output ← SetHex (take 64 data); proof ← SetHex (slice data 64 64); Some (output, proof)
     else Some (zero256, zero256));
  Some (mkIndex (mkHeader version prev merkle time bits nonce output proof zero256 false)
          None None None height 0 0 0 zero256 tx status 0 time bits nonce version hash).

(** ** The database *)

Record CBlockchainDB (D : Type) := mkBlockchainDB { bdb : option D }.
Arguments mkBlockchainDB {D} _.
Arguments bdb {D} _.

Section Storage.
  Context {D : Type} `{LDB : LevelDB D}.
  Variable SHA3_256 : list Z -> uint256.
  Variable randomx_hash_fast : list Z -> uint256.
  Implicit Types s : CBlockchainDB D.

Definition BlockchainDB_Open s (opened : option D) : bool * CBlockchainDB D :=
  match bdb s, opened with
  | Some _, _ => (true, s)
  | None, Some d => (true, mkBlockchainDB (Some d))
  | None, None => (false, s)
  end.
Definition BlockchainDB_Close s : CBlockchainDB D := mkBlockchainDB None.
Definition BlockchainDB_IsOpen s : bool := match bdb s with Some _ => true | None => false end.

(** [db->Put], [db->Delete], [db->Write] on the open handle. *)
Definition put_batch s (ops : list BatchOp) : bool * CBlockchainDB D :=
  match bdb s with
  | None => (false, s)
  | Some d => match db_Write d ops with Some d' => (true, mkBlockchainDB (Some d')) | None => (false, s) end
  end.

(** Length, data and a checksum of [n] bytes of SHA3-256. *)
Definition seal (n : nat) (data : list Z) : list Z :=
  bytes32 SERIALIZATION_VERSION ++ bytes32 (len data) ++ data ++ take n (SHA3_256 data).

Definition unseal (n : nat) (value : list Z) : option (list Z) :=
  if len value <? 4 + 4 + Z.of_nat n then None
  else
    let version := le_val (take 4 value) in
    if negb (version =? 1) then None
    else
      let data_length := le_val (slice value 4 4) in
      if negb (len value =? 4 + 4 + data_length + Z.of_nat n) then None
      else
        let data := slice value 8 (Z.to_nat data_length) in
        let stored := slice value (8 + Z.to_nat data_length) n in
        if bool_decide (stored <> take n (SHA3_256 data)) then None else Some data.

Definition WriteBlock s (hash : uint256) (block : CBlock) : bool * CBlockchainDB D :=
  if negb (BlockchainDB_IsOpen s) then (false, s)
  else if len (vtx block) >? 2 ^ 32 - 1 then (false, s)
  else if len (vtx block) >? MAX_BLOCK_SIZE then (false, s)
  else put_batch s [Put (block_key hash) (seal 32 (SerializeBlockData block))].

(** The length field is bounded before it is compared with the record's size. *)
Definition ReadBlock s (hash : uint256) : option CBlock :=
  d ← bdb s;
  value ← db_Get d (block_key hash);
  if len value <? 4 * 2 + 32 then None
  else if negb (le_val (take 4 value) =? 1) then None
  else if le_val (slice value 4 4) >? MAX_BLOCK_SIZE then None
  else data ← unseal 32 value; DeserializeBlockData data.

Definition WriteBlockIndex s (hash : uint256) (index : CBlockIndex) : bool * CBlockchainDB D :=
  if negb (BlockchainDB_IsOpen s) then (false, s)
  else put_batch s [Put (index_key hash) (seal 4 (SerializeIndexData index))].

Definition ReadBlockIndex s (hash : uint256) : option CBlockIndex :=
  d ← bdb s;
  value ← db_Get d (index_key hash);
  data ← unseal 4 value; DeserializeIndexData data.

Definition WriteBestBlock s (hash : uint256) : bool * CBlockchainDB D :=
  if negb (BlockchainDB_IsOpen s) then (false, s) else put_batch s [Put best_key (GetHex hash)].

Definition ReadBestBlock s : option uint256 :=
  d ← bdb s;
  value ← db_Get d best_key;
  if bool_decide (value = []) then None else SetHex value.

Definition BlockExists s (hash : uint256) : bool :=
  match bdb s with Some d => bool_decide (is_Some (db_Get d (block_key hash))) | None => false end.

Definition EraseBlock s (hash : uint256) : bool * CBlockchainDB D :=
  if negb (BlockchainDB_IsOpen s) then (false, s) else put_batch s [Delete (block_key hash)].

(** The values of the batch are never filled in. *)
Definition WriteBlockWithIndex s (hash : uint256) (block : CBlock) (index : CBlockIndex) (setBest : bool)
  : bool * CBlockchainDB D :=
  if negb (BlockchainDB_IsOpen s) then (false, s)
  else put_batch s ([Put (block_key hash) []; Put (index_key hash) []] ++
                    (if setBest then [Put best_key (GetHex hash)] else [])).

Definition VerifyWrite s (key expected_value : list Z) : bool :=
  match bdb s with Some d => bool_decide (db_Get d key = Some expected_value) | None => false end.

(** Keys are ordered, so the walk from ["b"] to the first other key visits the
    keys that start with it. *)
Definition block_hash_of_key (key : list Z) : option uint256 :=
  match key with
  | b :: hex_hash =>
      if (b =? 98) && (len key =? 65) && forallb (fun c => bool_decide (is_Some (hex_value c))) hex_hash
      then SetHex hex_hash else None
  | [] => None
  end.
Definition GetAllBlockHashes s : bool * list uint256 :=
  match bdb s with
  | None => (false, [])
  | Some d => ((db_Iterate d).2, omap (fun kv => block_hash_of_key kv.1) (db_Iterate d).1)
  end.

Definition RebuildBlockIndex s : bool :=
  if negb (BlockchainDB_IsOpen s) then false else (GetAllBlockHashes s).1.

Definition migrate_one (acc : Z * CBlockchainDB D) (hash : uint256) : Z * CBlockchainDB D :=
  let '(errors, s) := acc in
  match ReadBlock s hash with
  | None => (errors + 1, s)
  | Some block =>
      if BlockExists s (GetFastHash SHA3_256 (block_header block)) &&
         BlockExists s (fst (GetHash SHA3_256 randomx_hash_fast (block_header block)))
      then (errors, s)
      else let '(ok, s') := WriteBlock s hash block in (if ok then errors else errors + 1, s')
  end.
Definition MigrateToDualHashStorage s : bool * CBlockchainDB D :=
  if negb (BlockchainDB_IsOpen s) then (false, s)
  else match GetAllBlockHashes s with
       | (false, _) => (false, s)
       | (true, hashes) => let '(errors, s') := foldl migrate_one (0, s) hashes in (errors =? 0, s')
       end.
End Storage.

(** ** Hexadecimal round trip *)

Lemma hex_value_digit d : 0 <= d < 16 -> hex_value (hex_digit d) = Some d.
Proof.
  intros H. unfold hex_value, hex_digit. destruct (Z.ltb_spec d 10);
    repeat match goal with |- context [?a <=? ?b] => destruct (Z.leb_spec a b); try lia end; simpl; f_equal; lia.
Qed.

Lemma stoi_hex2_byte b : byte_ok b -> stoi_hex2 (hex_digit (b / 16)) (hex_digit (b mod 16)) = Some b.
Proof.
  intros H. unfold byte_ok in H. pose proof (Z.div_mod b 16 ltac:(lia)). pose proof (Z.mod_pos_bound b 16 ltac:(lia)).
  assert (0 <= b / 16 < 16) by (split; [apply Z.div_pos|apply Z.div_lt_upper_bound]; lia).
  unfold stoi_hex2. rewrite !hex_value_digit by lia. f_equal. lia.
Qed.

Lemma length_Identity_GetHex l : length (Identity_GetHex l) = (2 * length l)%nat.
Proof. unfold Identity_GetHex. induction l as [|b l IH]; [done|]. rewrite fmap_cons. cbn [concat length app]. rewrite IH. lia. Qed.

Lemma length_GetHex h : u256_wf h -> length (GetHex h) = 64%nat.
Proof. intros [H _]. unfold GetHex. rewrite length_Identity_GetHex, length_rev, H. done. Qed.

Lemma hex_pairs_GetHex h : bytes_ok h -> hex_pairs (rev (GetHex h)) = Some h.
Proof.
  induction 1 as [|b h Hb _ IH]; [done|]. unfold GetHex in *. cbn [rev].
  assert (Identity_GetHex (rev h ++ [b]) = Identity_GetHex (rev h) ++ [hex_digit (b / 16); hex_digit (b mod 16)]) as ->.
  { unfold Identity_GetHex. by rewrite fmap_app, concat_app. }
  rewrite rev_app_distr. cbn [rev app hex_pairs]. rewrite stoi_hex2_byte by done. cbn. by rewrite IH.
Qed.

Lemma SetHex_GetHex h : u256_wf h -> SetHex (GetHex h) = Some h.
Proof.
  intros Hh. unfold SetHex. rewrite take_ge by (by rewrite length_GetHex). rewrite hex_pairs_GetHex by apply Hh.
  cbn. destruct Hh as [-> _]. by rewrite app_nil_r.
Qed.

Lemma GetHex_inj a b : u256_wf a -> u256_wf b -> GetHex a = GetHex b -> a = b.
Proof. intros Ha Hb E. apply (f_equal SetHex) in E. rewrite !SetHex_GetHex in E by done. congruence. Qed.

Lemma block_key_inj a b : u256_wf a -> u256_wf b -> block_key a = block_key b <-> a = b.
Proof. intros Ha Hb. split; [|by intros ->]. intros [= E]. by apply GetHex_inj. Qed.
Lemma index_key_inj a b : u256_wf a -> u256_wf b -> index_key a = index_key b <-> a = b.
Proof. intros Ha Hb. split; [|by intros ->]. intros [= E]. by apply GetHex_inj. Qed.
Lemma block_key_best a : u256_wf a -> block_key a <> best_key.
Proof. intros Ha E. apply (f_equal length) in E. cbn [block_key best_key length] in E. rewrite length_GetHex in E by done. lia. Qed.
Lemma index_key_best a : index_key a <> best_key.
Proof. by unfold index_key. Qed.
Lemma block_index_key a b : block_key a <> index_key b.
Proof. done. Qed.

(** ** Record round trips *)

Lemma read_uint32_bytes x rest : 0 <= x < 2 ^ 32 -> read_uint32 (bytes32 x ++ rest) = (x, rest).
Proof.
  intros Hx. unfold read_uint32, bytes32. rewrite u32_small by done.
  rewrite cut_app by (unfold len; by rewrite length_le_bytes).
  by rewrite le_val_le_bytes, Z.mod_small by (simpl; lia).
Qed.

Lemma read_int32_bytes x rest : - 2 ^ 31 <= x < 2 ^ 31 -> read_int32 (bytes32 x ++ rest) = (x, rest).
Proof.
  intros Hx. unfold read_int32. replace (bytes32 x) with (bytes32 (u32 x)) by (unfold bytes32; by rewrite (u32_small (u32 x)) by apply u32_range).
  rewrite read_uint32_bytes by apply u32_range. by rewrite i32_u32, i32_small.
Qed.

Lemma cut_all l : cut (len l) l = Some (l, []).
Proof. rewrite <- (app_nil_r l) at 2. by apply cut_app. Qed.
Lemma cut_u256 h rest : u256_wf h -> cut 32 (h ++ rest) = Some (h, rest).
Proof. intros [H _]. apply cut_app. unfold len. by rewrite H. Qed.
Lemma cut_hex h rest : u256_wf h -> cut 64 (GetHex h ++ rest) = Some (GetHex h, rest).
Proof. intros H. apply cut_app. unfold len. by rewrite length_GetHex. Qed.

(** What a record keeps of a block: the fields without the cached hash, and the
    VDF fields of VDF blocks only. *)
Definition stored_block (block : CBlock) : CBlock :=
  let h := block_header block in
  let vdf v := if IsVDFBlock h then v else zero256 in
  mkBlock (mkHeader (nVersion h) (hashPrevBlock h) (hashMerkleRoot h) (hnTime h) (hnBits h) (nNonce h)
             (vdf (vdfOutput h)) (vdf (vdfProofHash h)) zero256 false) (vtx block).

(** What a record keeps of an index entry: no links, positions or work, and a
    header rebuilt from the entry's own fields. *)
Definition stored_index (i : CBlockIndex) : CBlockIndex :=
  let h := header i in
  let vdf v := if IsVDFBlock h && (inVersion i >=? VDF_VERSION) then v else zero256 in
  mkIndex (mkHeader (inVersion i) (hashPrevBlock h) (hashMerkleRoot h) (nTime i) (nBits i) (inNonce i)
             (vdf (vdfOutput h)) (vdf (vdfProofHash h)) zero256 false)
    None None None (nHeight i) 0 0 0 zero256 (nTx i) (nStatus i) 0 (nTime i) (nBits i) (inNonce i) (inVersion i)
    (phashBlock i).

Definition block_wf (b : CBlock) : Prop := header_wf (block_header b).
Definition index_rec_wf (i : CBlockIndex) : Prop :=
  - 2 ^ 31 <= nHeight i < 2 ^ 31 /\ 0 <= nStatus i < 2 ^ 32 /\ 0 <= nTime i < 2 ^ 32 /\ 0 <= nBits i < 2 ^ 32 /\
  0 <= inNonce i < 2 ^ 32 /\ - 2 ^ 31 <= inVersion i < 2 ^ 31 /\ 0 <= nTx i < 2 ^ 32 /\
  u256_wf (phashBlock i) /\ header_wf (header i).

Lemma block_data_roundtrip b : block_wf b -> len (vtx b) < 2 ^ 32 ->
  DeserializeBlockData (SerializeBlockData b) = Some (stored_block b).
Proof.
  intros (Hv & Hp & Hm & Ht & Hb & Hn & Ho & Hq) Hl. pose proof (len_nonneg (vtx b)).
  unfold SerializeBlockData, SerializeHeader, DeserializeBlockData, stored_block. rewrite <- !app_assoc.
  rewrite read_int32_bytes by done. rewrite cut_u256 by done. cbn [mbind option_bind].
  rewrite cut_u256 by done. cbn [mbind option_bind]. rewrite !read_uint32_bytes by done.
  fold (IsVDFBlock (block_header b)). destruct (IsVDFBlock (block_header b)).
  - rewrite <- !app_assoc, cut_u256 by done. cbn [mbind option_bind]. rewrite cut_u256 by done.
    cbn [mbind option_bind]. rewrite read_uint32_bytes by lia. by rewrite cut_all.
  - cbn [app mbind option_bind]. rewrite read_uint32_bytes by lia. by rewrite cut_all.
Qed.

Lemma index_data_roundtrip i : index_rec_wf i -> DeserializeIndexData (SerializeIndexData i) = Some (stored_index i).
Proof.
  intros (H1 & H2 & H3 & H4 & H5 & H6 & H7 & H8 & (_ & Hp & Hm & _ & _ & _ & Ho & Hq)).
  unfold SerializeIndexData, DeserializeIndexData, stored_index.
  rewrite !read_int32_bytes, !read_uint32_bytes, !read_int32_bytes, !read_uint32_bytes by done.
  do 3 (rewrite cut_hex by done; cbn [mbind option_bind]; rewrite SetHex_GetHex by done; cbn [mbind option_bind]).
  rewrite andb_comm. destruct (IsVDFBlock (header i)).
  - rewrite (proj2 (Z.leb_le _ _)) by (rewrite len_app; unfold len; rewrite !length_GetHex by done; lia).
    rewrite take_app_length' by (by rewrite length_GetHex). unfold slice.
    rewrite drop_app_length' by (by rewrite length_GetHex). rewrite take_ge by (by rewrite length_GetHex).
    rewrite !SetHex_GetHex by done. by destruct (inVersion i >=? VDF_VERSION).
  - done.
Qed.

(** ** The store as three maps *)

Record BlockMaps := mkMaps {
  sp_blocks : gmap uint256 CBlock;
  sp_index : gmap uint256 CBlockIndex;
  sp_best : option uint256
}.

Inductive BlockOp : Type :=
| SWriteBlock (h : uint256) (b : CBlock) | SReadBlock (h : uint256) | SExists (h : uint256) | SErase (h : uint256)
| SWriteIndex (h : uint256) (i : CBlockIndex) | SReadIndex (h : uint256)
| SWriteBest (h : uint256) | SReadBest.

Inductive BlockAns : Type :=
| BBool (b : bool) | BBlock (b : option CBlock) | BIndex (i : option CBlockIndex) | BHash (h : option uint256).

Definition blockop_ok (op : BlockOp) : Prop :=
  match op with
  | SWriteBlock h b => u256_wf h /\ block_wf b
  | SWriteIndex h i => u256_wf h /\ index_rec_wf i
  | SReadBlock h | SExists h | SErase h | SReadIndex h | SWriteBest h => u256_wf h
  | SReadBest => True
  end.

(** A record is read back only when its data part fits the block size limit. *)
Definition readable (b : CBlock) : bool := len (SerializeBlockData b) <=? MAX_BLOCK_SIZE.

(** The intended step; [ok] says whether the database accepts a write. *)
Definition maps_step (ok : bool) (a : BlockMaps) (op : BlockOp) : BlockAns * BlockMaps :=
  let '(mkMaps blocks index best) := a in
  match op with
  | SWriteBlock h b =>
      if (len (vtx b) <=? MAX_BLOCK_SIZE) && ok then (BBool true, mkMaps (<[h := b]> blocks) index best) else (BBool false, a)
  | SReadBlock h => (BBlock (b ← blocks !! h; if readable b then Some (stored_block b) else None), a)
  | SExists h => (BBool (bool_decide (is_Some (blocks !! h))), a)
  | SErase h => if ok then (BBool true, mkMaps (delete h blocks) index best) else (BBool false, a)
  | SWriteIndex h i => if ok then (BBool true, mkMaps blocks (<[h := i]> index) best) else (BBool false, a)
  | SReadIndex h => (BIndex (stored_index <$> index !! h), a)
  | SWriteBest h => if ok then (BBool true, mkMaps blocks index (Some h)) else (BBool false, a)
  | SReadBest => (BHash best, a)
  end.

Section Refinement.
  Context {D : Type} `{LDB : LevelDB D}.
  Variable SHA3_256 : list Z -> uint256.
  Hypothesis SHA3_len : forall l, length (SHA3_256 l) = 32%nat.
  Implicit Types s : CBlockchainDB D.

Definition storage_step s (op : BlockOp) : BlockAns * CBlockchainDB D :=
  let bool_ans (r : bool * CBlockchainDB D) := (BBool r.1, r.2) in
  match op with
  | SWriteBlock h b => bool_ans (WriteBlock SHA3_256 s h b)
  | SReadBlock h => (BBlock (ReadBlock SHA3_256 s h), s)
  | SExists h => (BBool (BlockExists s h), s)
  | SErase h => bool_ans (EraseBlock s h)
  | SWriteIndex h i => bool_ans (WriteBlockIndex SHA3_256 s h i)
  | SReadIndex h => (BIndex (ReadBlockIndex SHA3_256 s h), s)
  | SWriteBest h => bool_ans (WriteBestBlock s h)
  | SReadBest => (BHash (ReadBestBlock s), s)
  end.

Lemma unseal_seal n data : (n <= 32)%nat -> len data < 2 ^ 32 -> unseal SHA3_256 n (seal SHA3_256 n data) = Some data.
Proof.
  intros Hn Hd. pose proof (len_nonneg data). assert (length (take n (SHA3_256 data)) = n) as Hc.
  { rewrite length_take, SHA3_len. lia. }
  unfold unseal, seal, slice.
  assert (len (bytes32 SERIALIZATION_VERSION ++ bytes32 (len data) ++ data ++ take n (SHA3_256 data))
          = 4 + 4 + len data + Z.of_nat n) as ->.
  { unfold len in *. rewrite !length_app, !length_bytes32, Hc. lia. }
  rewrite (proj2 (Z.ltb_ge _ _)) by lia.
  rewrite take_app_length' by (by rewrite length_bytes32). cbn [SERIALIZATION_VERSION].
  replace (le_val (bytes32 SERIALIZATION_VERSION)) with 1 by reflexivity. cbn [Z.eqb negb Pos.eqb].
  rewrite drop_app_length' by (by rewrite length_bytes32). rewrite take_app_length' by (by rewrite length_bytes32).
  assert (le_val (bytes32 (len data)) = len data) as ->.
  { unfold bytes32. rewrite u32_small, le_val_le_bytes, Z.mod_small by (simpl; lia). done. }
  rewrite Z.eqb_refl. cbn [negb]. set (C := take n (SHA3_256 data)) in *. set (V := bytes32 SERIALIZATION_VERSION).
  assert (drop 8 (V ++ bytes32 (len data) ++ data ++ C) = data ++ C) as E.
  { rewrite app_assoc. by apply drop_app_length'. }
  assert (Z.to_nat (len data) = length data) as -> by (unfold len; lia).
  assert (drop (8 + length data) (V ++ bytes32 (len data) ++ data ++ C) = C) as ->.
  { rewrite <- drop_drop, E. apply drop_app_length. }
  rewrite E, take_app_length, (take_ge C) by lia. unfold C. by rewrite bool_decide_false by auto.
Qed.

Record rep_at (d : D) (a : BlockMaps) : Prop := {
  mr_blocks : forall h, u256_wf h ->
    db_Get d (block_key h) = (fun b => seal SHA3_256 32 (SerializeBlockData b)) <$> sp_blocks a !! h;
  mr_index : forall h, u256_wf h ->
    db_Get d (index_key h) = (fun i => seal SHA3_256 4 (SerializeIndexData i)) <$> sp_index a !! h;
  mr_best : db_Get d best_key = GetHex <$> sp_best a;
  mr_blocks_wf : map_Forall (fun _ b => block_wf b /\ len (vtx b) <= MAX_BLOCK_SIZE) (sp_blocks a);
  mr_index_wf : map_Forall (fun _ i => index_rec_wf i) (sp_index a);
  mr_best_wf : forall h, sp_best a = Some h -> u256_wf h
}.
Definition maps_rep s (a : BlockMaps) : Prop := exists d, bdb s = Some d /\ rep_at d a.

(** A read sees the write when the keys agree and the old value otherwise. *)
Lemma lookup_after_put {A B} (f : A -> B) (m : gmap uint256 A) (h k : uint256) (x : A) (K : uint256 -> list Z) :
  (K h = K k <-> h = k) ->
  (if decide (K h = K k) then Some (f x) else f <$> m !! k) = f <$> <[h := x]> m !! k.
Proof.
  intros E. destruct (decide (K h = K k)) as [Hk|Hk].
  - apply E in Hk as ->. by rewrite lookup_insert_eq.
  - rewrite lookup_insert_ne; [done|]. intros Hx. by apply Hk, E.
Qed.

Lemma len_block_data b : block_wf b -> len (SerializeBlockData b) <= 148 + len (vtx b).
Proof.
  intros (_ & [Hp _] & [Hm _] & _ & _ & _ & [Ho _] & [Hq _]). unfold SerializeBlockData, SerializeHeader, len.
  rewrite !length_app, !length_bytes32, Hp, Hm. destruct (IsVDFBlock _); rewrite ?length_app, ?Ho, ?Hq; simpl; lia.
Qed.

Lemma len_index_data i : index_rec_wf i -> len (SerializeIndexData i) <= 348.
Proof.
  intros (_ & _ & _ & _ & _ & _ & _ & Hh & (_ & Hp & Hm & _ & _ & _ & Ho & Hq)). unfold SerializeIndexData, len.
  rewrite !length_app, !length_bytes32, !length_GetHex by done.
  destruct (IsVDFBlock _); rewrite ?length_app, ?length_GetHex by done; simpl; lia.
Qed.

Lemma ReadBlock_rep s a h : maps_rep s a -> u256_wf h ->
  ReadBlock SHA3_256 s h = b ← sp_blocks a !! h; if readable b then Some (stored_block b) else None.
Proof.
  intros (d & Hd & HR) Hh. unfold ReadBlock. rewrite Hd. cbn [mbind option_bind]. rewrite (mr_blocks d a HR) by done.
  destruct (sp_blocks a !! h) as [b|] eqn:Eb; [|done]. cbn [fmap option_fmap option_map mbind option_bind].
  destruct (mr_blocks_wf d a HR _ _ Eb) as [Hwf Hl]. pose proof (len_block_data b Hwf) as Hn.
  unfold MAX_BLOCK_SIZE in Hl. pose proof (len_nonneg (SerializeBlockData b)) as H0.
  assert (len (SerializeBlockData b) < 2 ^ 32) as Hs by lia.
  pose proof (unseal_seal 32 (SerializeBlockData b) ltac:(lia) Hs) as Hu. revert Hu. unfold readable.
  assert (4 * 2 + 32 <= len (seal SHA3_256 32 (SerializeBlockData b))) as Hlen.
  { unfold seal, len in *. rewrite !length_app, !length_bytes32, length_take, SHA3_len. lia. }
  assert (le_val (take 4 (seal SHA3_256 32 (SerializeBlockData b))) = 1) as Hv.
  { unfold seal. by rewrite take_app_length' by (by rewrite length_bytes32). }
  assert (le_val (slice (seal SHA3_256 32 (SerializeBlockData b)) 4 4) = len (SerializeBlockData b)) as Hdl.
  { unfold seal, slice. rewrite drop_app_length', take_app_length' by (by rewrite length_bytes32).
    unfold bytes32. rewrite u32_small, le_val_le_bytes, Z.mod_small by (simpl; lia). done. }
  rewrite (proj2 (Z.ltb_ge _ _)) by lia. rewrite Hv, Hdl. intros ->. cbn [Z.eqb Pos.eqb negb].
  rewrite Z.gtb_ltb, Z.ltb_antisym. destruct (len (SerializeBlockData b) <=? MAX_BLOCK_SIZE); [|done].
  cbn [negb mbind option_bind]. apply block_data_roundtrip; [done|lia].
Qed.

Lemma ReadBlockIndex_rep s a h : maps_rep s a -> u256_wf h ->
  ReadBlockIndex SHA3_256 s h = stored_index <$> sp_index a !! h.
Proof.
  intros (d & Hd & HR) Hh. unfold ReadBlockIndex. rewrite Hd. cbn [mbind option_bind]. rewrite (mr_index d a HR) by done.
  destruct (sp_index a !! h) as [i|] eqn:Ei; [|done]. cbn [fmap option_fmap option_map mbind option_bind].
  pose proof (mr_index_wf d a HR _ _ Ei) as Hwf. pose proof (len_index_data i Hwf).
  rewrite unseal_seal by lia. cbn [mbind option_bind]. by apply index_data_roundtrip.
Qed.

Lemma ReadBestBlock_rep s a : maps_rep s a -> ReadBestBlock s = sp_best a.
Proof.
  intros (d & Hd & HR). unfold ReadBestBlock. rewrite Hd. cbn [mbind option_bind]. rewrite (mr_best d a HR).
  destruct (sp_best a) as [h|] eqn:Eh; [|done]. pose proof (mr_best_wf d a HR h Eh) as Hh.
  cbn [fmap option_fmap option_map mbind option_bind]. rewrite bool_decide_false; [by apply SetHex_GetHex|].
  intros E. apply (f_equal length) in E. by rewrite length_GetHex in E.
Qed.

Lemma put_batch_rep s a a' ops : maps_rep s a ->
  (forall d d', rep_at d a -> (forall k, db_Get d' k = batch_get ops k (db_Get d k)) -> rep_at d' a') ->
  exists ok s', put_batch s ops = (ok, s') /\ maps_rep s' (if ok then a' else a) /\ (writes_succeed (D := D) -> ok = true).
Proof.
  intros (d & Hd & HR) Hstep. unfold put_batch. rewrite Hd. destruct (db_Write d ops) as [d'|] eqn:Ew.
  - exists true, (mkBlockchainDB (Some d')). split_and!; [done| |done]. exists d'. split; [done|].
    apply (Hstep d); [done|]. intros k. by apply db_Get_Write.
  - exists false, s. split_and!; [done|by exists d|]. intros HD. destruct (HD d ops) as [? E]. by rewrite Ew in E.
Qed.

Lemma put_block_rep d d' a h b : u256_wf h -> block_wf b -> len (vtx b) <= MAX_BLOCK_SIZE -> rep_at d a ->
  (forall k, db_Get d' k = batch_get [Put (block_key h) (seal SHA3_256 32 (SerializeBlockData b))] k (db_Get d k)) ->
  rep_at d' (mkMaps (<[h := b]> (sp_blocks a)) (sp_index a) (sp_best a)).
Proof.
  intros Hh Hb Hl [R1 R2 R3 R4 R5 R6] HW. split; cbn [sp_blocks sp_index sp_best]; try done.
  - intros k Hk. rewrite HW, R1 by done. cbn [batch_get].
    by apply (lookup_after_put (fun b => seal SHA3_256 32 (SerializeBlockData b))), block_key_inj.
  - intros k Hk. by rewrite HW, R2 by done.
  - rewrite HW, R3. cbn [batch_get]. by rewrite decide_False by (by apply block_key_best).
  - by apply map_Forall_insert_2.
Qed.

Lemma erase_block_rep d d' a h : u256_wf h -> rep_at d a ->
  (forall k, db_Get d' k = batch_get [Delete (block_key h)] k (db_Get d k)) ->
  rep_at d' (mkMaps (delete h (sp_blocks a)) (sp_index a) (sp_best a)).
Proof.
  intros Hh [R1 R2 R3 R4 R5 R6] HW. split; cbn [sp_blocks sp_index sp_best]; try done.
  - intros k Hk. rewrite HW, R1 by done. cbn [batch_get]. destruct (decide (block_key h = block_key k)) as [E|E].
    + apply block_key_inj in E as ->; [|done..]. by rewrite lookup_delete_eq.
    + rewrite lookup_delete_ne; [done|]. by intros ->.
  - intros k Hk. by rewrite HW, R2 by done.
  - rewrite HW, R3. cbn [batch_get]. by rewrite decide_False by (by apply block_key_best).
  - by apply map_Forall_delete.
Qed.

Lemma put_index_rep d d' a h i : u256_wf h -> index_rec_wf i -> rep_at d a ->
  (forall k, db_Get d' k = batch_get [Put (index_key h) (seal SHA3_256 4 (SerializeIndexData i))] k (db_Get d k)) ->
  rep_at d' (mkMaps (sp_blocks a) (<[h := i]> (sp_index a)) (sp_best a)).
Proof.
  intros Hh Hi [R1 R2 R3 R4 R5 R6] HW. split; cbn [sp_blocks sp_index sp_best]; try done.
  - intros k Hk. by rewrite HW, R1 by done.
  - intros k Hk. rewrite HW, R2 by done. cbn [batch_get].
    by apply (lookup_after_put (fun i => seal SHA3_256 4 (SerializeIndexData i))), index_key_inj.
  - by rewrite HW, R3.
  - by apply map_Forall_insert_2.
Qed.

Lemma put_best_rep d d' a h : u256_wf h -> rep_at d a ->
  (forall k, db_Get d' k = batch_get [Put best_key (GetHex h)] k (db_Get d k)) ->
  rep_at d' (mkMaps (sp_blocks a) (sp_index a) (Some h)).
Proof.
  intros Hh [R1 R2 R3 R4 R5 R6] HW. split; cbn [sp_blocks sp_index sp_best]; try done.
  - intros k Hk. rewrite HW, R1 by done. cbn [batch_get].
    by rewrite decide_False by (intros E; by apply (block_key_best k)).
  - intros k Hk. by rewrite HW, R2 by done.
  - by intros ? [= <-].
Qed.

Lemma storage_step_simulates s a op : maps_rep s a -> blockop_ok op ->
  exists ok, (storage_step s op).1 = (maps_step ok a op).1 /\ maps_rep (storage_step s op).2 (maps_step ok a op).2 /\
    (writes_succeed (D := D) -> ok = true).
Proof.
  intros HR Hop. assert (BlockchainDB_IsOpen s = true) as Ho.
  { destruct HR as (d & Hd & _). unfold BlockchainDB_IsOpen. by rewrite Hd. }
  destruct a as [blocks index best] eqn:Ea. rewrite <- Ea in HR.
  destruct op as [h b|h|h|h|h i|h|h|]; cbn [blockop_ok storage_step maps_step] in *.
  - destruct Hop as [Hh Hb]. unfold WriteBlock. rewrite Ho, !Z.gtb_ltb, !Z.ltb_antisym. cbn [negb].
    destruct (Z.leb_spec (len (vtx b)) MAX_BLOCK_SIZE) as [Hl|Hl].
    + rewrite (proj2 (Z.leb_le _ _)) by (unfold MAX_BLOCK_SIZE in Hl; lia). cbn [negb andb].
      destruct (put_batch_rep s a _ _ HR (fun d d' => put_block_rep d d' a h b Hh Hb Hl)) as (ok & s' & -> & Hs & Hw).
      exists ok. rewrite Ea in *. by destruct ok.
    + exists true. rewrite Ea in HR. by destruct (len (vtx b) <=? 2 ^ 32 - 1).
  - exists true. cbn [fst snd]. rewrite (ReadBlock_rep s a h HR Hop). by rewrite Ea in *.
  - exists true. cbn [fst snd]. split_and!; [|by rewrite Ea in HR|done]. destruct HR as (d & Hd & HR).
    unfold BlockExists. rewrite Hd, (mr_blocks d a HR) by done. rewrite Ea. cbn [sp_blocks]. f_equal.
    apply bool_decide_ext. by rewrite fmap_is_Some.
  - unfold EraseBlock. rewrite Ho. cbn [negb].
    destruct (put_batch_rep s a _ _ HR (fun d d' => erase_block_rep d d' a h Hop)) as (ok & s' & -> & Hs & Hw).
    exists ok. rewrite Ea in *. by destruct ok.
  - destruct Hop as [Hh Hi]. unfold WriteBlockIndex. rewrite Ho. cbn [negb].
    destruct (put_batch_rep s a _ _ HR (fun d d' => put_index_rep d d' a h i Hh Hi)) as (ok & s' & -> & Hs & Hw).
    exists ok. rewrite Ea in *. by destruct ok.
  - exists true. cbn [fst snd]. rewrite (ReadBlockIndex_rep s a h HR Hop). by rewrite Ea in *.
  - unfold WriteBestBlock. rewrite Ho. cbn [negb].
    destruct (put_batch_rep s a _ _ HR (fun d d' => put_best_rep d d' a h Hop)) as (ok & s' & -> & Hs & Hw).
    exists ok. rewrite Ea in *. by destruct ok.
  - exists true. cbn [fst snd]. rewrite (ReadBestBlock_rep s a HR). by rewrite Ea in *.
Qed.

(** Runs: the answers of a sequence of operations. *)
Fixpoint storage_run s (ops : list BlockOp) : list BlockAns * CBlockchainDB D :=
  match ops with
  | [] => ([], s)
  | op :: ops' =>
      let '(r, s') := storage_step s op in let '(rs, s'') := storage_run s' ops' in (r :: rs, s'')
  end.
Fixpoint maps_run (oks : list bool) (a : BlockMaps) (ops : list BlockOp) : list BlockAns * BlockMaps :=
  match ops with
  | [] => ([], a)
  | op :: ops' =>
      let '(r, a') := maps_step (hd true oks) a op in let '(rs, a'') := maps_run (tl oks) a' ops' in (r :: rs, a'')
  end.
End Refinement.


Definition toy_sha3 (l : list Z) : uint256 := le_bytes 32 (len l + 7 * sum_list l).
Definition sample_stored_block : CBlock :=
  mkBlock (mkHeader 4 zero256 (replicate 32 1) 1000 0x1f060000 7 (replicate 32 2) (replicate 32 3) zero256 false) [1; 2; 3].


(** *** Where the code departs from its documentation *)

(** A block whose transactions use the last bytes of the size limit is written
    and never read: the limit is applied to the record's whole data part. *)
Lemma full_block_unreadable (SHA3_256 : list Z -> uint256) (SHA3_len : forall l, length (SHA3_256 l) = 32%nat)
    (b : CBlock) (Hb : block_wf b) (Hl : MAX_BLOCK_SIZE - 84 < len (vtx b) <= MAX_BLOCK_SIZE) :
  exists s, WriteBlock SHA3_256 (mkBlockchainDB (D := gmap (list Z) (list Z)) (Some ∅)) zero256 b = (true, s) /\
    BlockExists s zero256 = true /\ ReadBlock SHA3_256 s zero256 = None.
Proof.
  set (d := {[ block_key zero256 := seal SHA3_256 32 (SerializeBlockData b) ]} : gmap (list Z) (list Z)).
  exists (mkBlockchainDB (Some d)). split_and!.
  - unfold WriteBlock, MAX_BLOCK_SIZE in *. cbn [BlockchainDB_IsOpen bdb negb].
    rewrite !Z.gtb_ltb, !(proj2 (Z.ltb_ge _ _)) by lia. done.
  - unfold BlockExists, d. cbn [bdb db_Get MemDB]. rewrite lookup_singleton_eq. done.
  - rewrite (ReadBlock_rep SHA3_256 SHA3_len _ (mkMaps {[ zero256 := b ]} ∅ None)); [| |apply zero256_wf].
    + cbn [sp_blocks]. rewrite lookup_singleton_eq. cbn [mbind option_bind]. unfold readable.
      rewrite (proj2 (Z.leb_gt _ _)); [done|]. destruct Hb as (_ & [Hp _] & [Hm _] & _).
      unfold SerializeBlockData, SerializeHeader. unfold len in *. rewrite !length_app, !length_bytes32, Hp, Hm. lia.
    + exists d. split; [done|]. unfold d. split; cbn [sp_blocks sp_index sp_best db_Get MemDB].
      * intros h Hh. destruct (decide (h = zero256)) as [->|Hne]; [by rewrite !lookup_singleton_eq|].
        rewrite (lookup_singleton_ne zero256) by done. apply lookup_singleton_ne.
        intros E. apply Hne. symmetry. by apply block_key_inj; [apply zero256_wf|..].
      * intros h Hh. by rewrite lookup_singleton_ne, lookup_empty.
      * rewrite lookup_singleton_ne; [done|]. apply block_key_best, zero256_wf.
      * apply map_Forall_singleton. split; [done|lia].
      * by intros ? ? ?%lookup_empty_Some.
      * done.
Qed.

(** The atomic write of block and index stores empty values, so it destroys the
    block it is given. *)
Example WriteBlockWithIndex_destroys_block :
  let s := (WriteBlock toy_sha3 (mkBlockchainDB (D := gmap (list Z) (list Z)) (Some ∅)) zero256 sample_stored_block).2 in
  ReadBlock toy_sha3 s zero256 = Some sample_stored_block /\
  (WriteBlockWithIndex s zero256 sample_stored_block (CBlockIndex_of_header Header_SetNull) true).1 = true /\
  ReadBlock toy_sha3 (WriteBlockWithIndex s zero256 sample_stored_block (CBlockIndex_of_header Header_SetNull) true).2 zero256 = None.
Proof. vm_compute. done. Qed.

(** The migration reports success although no block is stored under both hashes. *)
Example migration_adds_no_key :
  let rx l := le_bytes 32 (sum_list l + 999) in
  let b := mkBlock (mkHeader 1 zero256 zero256 1000 0x1f060000 7 zero256 zero256 zero256 false) [1] in
  let s := (WriteBlock toy_sha3 (mkBlockchainDB (D := gmap (list Z) (list Z)) (Some ∅)) zero256 b).2 in
  (MigrateToDualHashStorage toy_sha3 rx s).1 = true /\
  BlockExists (MigrateToDualHashStorage toy_sha3 rx s).2 (rx (SerializeHeader (block_header b))) = false.
Proof. split; vm_compute; reflexivity. Qed.
