(* ===== verification/ReorgWal.v ===== *)
(** * The reorganisation log (consensus/reorg_wal.h, consensus/reorg_wal.cpp)

    [CReorgWAL] records on disk which reorganisation is under way, so that a
    crash in the middle of one is noticed at the next start.  The file at
    [m_walPath] is the class [WalDisk]; the directory and its permissions are
    file-system calls and are left out.  [ReadWAL] reads into uninitialised
    variables, so a file that is too short is undefined behaviour: [None]. *)

From S2P Require Import Prelude Uint256 Block Transaction UtxoStore UtxoBlock Dfmp IdentityDb BlockStorage.

(** One file: its contents if it exists, a rewrite that reports whether it could
    be opened and written, and a removal that may fail.  [win32] says which of
    the two bodies of [WriteWAL] is compiled; [stream_fileno] is the number that
    [fileno] yields for the stream's buffer object reinterpreted as a [FILE],
    about which C++ promises nothing, and [disk_fsync] the [fsync] of it, which
    changes the contents of no file. *)
Class WalDisk (F : Type) := mkWalDisk {
  win32 : bool;
  disk_read : F -> option (list Z);
  disk_write : F -> list Z -> bool * F;
  disk_remove : F -> F;
  stream_fileno : F -> Z;
  disk_fsync : F -> Z -> F;
  disk_write_read : forall f data f', disk_write f data = (true, f') -> disk_read f' = Some data;
  disk_fsync_read : forall f fd, disk_read (disk_fsync f fd) = disk_read f
}.

#[export, program] Instance MemDisk : WalDisk (option (list Z)) := {
  win32 := false;
  disk_read f := f;
  disk_write _ data := (true, Some data);
  disk_remove _ := None;
  stream_fileno _ := 3;
  disk_fsync f _ := f
}.
Next Obligation. by intros f data f' [= <-]. Qed.
Next Obligation. done. Qed.

(** [ReorgPhase] is an enumeration over a byte; [ReadWAL] casts any byte to it. *)
Definition INITIALIZED : Z := 0.
Definition DISCONNECTING : Z := 1.
Definition CONNECTING : Z := 2.
Definition COMPLETED : Z := 3.

(** ["DILITHION_WAL_1"] with its terminator *)
Definition WAL_MAGIC : list Z := [68; 73; 76; 73; 84; 72; 73; 79; 78; 95; 87; 65; 76; 95; 49; 0].
Definition WAL_VERSION : Z := 1.

Record CReorgWAL (F : Type) := mkWAL {
  w_disk : F;
  m_active : bool;
  m_forkPointHash : uint256;
  m_currentTipHash : uint256;
  m_targetTipHash : uint256;
  m_disconnectHashes : list uint256;
  m_connectHashes : list uint256;
  m_phase : Z;
  m_disconnectedCount : Z;
  m_connectedCount : Z
}.
Arguments mkWAL {F} _ _ _ _ _ _ _ _ _ _.
Arguments w_disk {F} _.
Arguments m_active {F} _.
Arguments m_forkPointHash {F} _.
Arguments m_currentTipHash {F} _.
Arguments m_targetTipHash {F} _.
Arguments m_disconnectHashes {F} _.
Arguments m_connectHashes {F} _.
Arguments m_phase {F} _.
Arguments m_disconnectedCount {F} _.
Arguments m_connectedCount {F} _.

Section WAL.
  Context {F : Type} `{WD : WalDisk F}.
  Variable SHA3_256 : list Z -> uint256.
  Implicit Types w : CReorgWAL F.

Definition set_disk w (f : F) : CReorgWAL F :=
  mkWAL f (m_active w) (m_forkPointHash w) (m_currentTipHash w) (m_targetTipHash w) (m_disconnectHashes w)
    (m_connectHashes w) (m_phase w) (m_disconnectedCount w) (m_connectedCount w).
Definition set_progress w (phase disconnected connected : Z) : CReorgWAL F :=
  mkWAL (w_disk w) (m_active w) (m_forkPointHash w) (m_currentTipHash w) (m_targetTipHash w) (m_disconnectHashes w)
    (m_connectHashes w) phase disconnected connected.
Definition set_active w (b : bool) : CReorgWAL F :=
  mkWAL (w_disk w) b (m_forkPointHash w) (m_currentTipHash w) (m_targetTipHash w) (m_disconnectHashes w)
    (m_connectHashes w) (m_phase w) (m_disconnectedCount w) (m_connectedCount w).

(** The fields between the version and the checksum; [ComputeChecksum] hashes
    the same bytes in the same order. *)
Definition wal_body w : list Z :=
  [u8 (m_phase w)] ++ m_forkPointHash w ++ m_currentTipHash w ++ m_targetTipHash w ++
  bytes32 (len (m_disconnectHashes w)) ++ concat (m_disconnectHashes w) ++
  bytes32 (len (m_connectHashes w)) ++ concat (m_connectHashes w) ++
  bytes32 (m_disconnectedCount w) ++ bytes32 (m_connectedCount w).
Definition ComputeChecksum w : uint256 := SHA3_256 (wal_body w).

Definition wal_record w : list Z := WAL_MAGIC ++ bytes32 WAL_VERSION ++ wal_body w ++ ComputeChecksum w.
(** The stream writes, the flush and the close are one rewrite of the file, which
    may fail.  Between the flush and the close the body for Unix calls [fsync] on
    what [fileno] makes of the reinterpreted buffer.  That call is undefined: the
    model covers the executions in which it returns, with any number at all, and
    nothing says that the record is durable. *)
Definition WriteWAL w : bool * CReorgWAL F :=
  let '(ok, f) := disk_write (w_disk w) (wal_record w) in
  let f := if win32 (F := F) then f
           else let fd := stream_fileno f in if fd >=? 0 then disk_fsync f fd else f in
  (ok, set_disk w f).

Fixpoint read_hashes (n : nat) (data : list Z) : option (list uint256 * list Z) :=
  match n with
  | O => Some ([], data)
  | S n' => '(h, data) ← cut 32 data; '(hs, data) ← read_hashes n' data; Some (h :: hs, data)
  end.

(** A file with the right magic and version fills the members even when its
    checksum is wrong. *)
Definition ReadWAL w : option (bool * CReorgWAL F) :=
  match disk_read (w_disk w) with
  | None => Some (false, w)
  | Some file =>
      '(magic, file) ← cut 16 file;
      if bool_decide (magic <> WAL_MAGIC) then Some (false, w)
      else
        '(version, file) ← cut 4 file;
        if negb (le_val version =? WAL_VERSION) then Some (false, w)
        else
          '(phase, file) ← cut 1 file;
          '(fork, file) ← cut 32 file;
          '(current, file) ← cut 32 file;
          '(target, file) ← cut 32 file;
          '(disconnectCount, file) ← cut 4 file;
          '(disconnects, file) ← read_hashes (Z.to_nat (le_val disconnectCount)) file;
          '(connectCount, file) ← cut 4 file;
          '(connects, file) ← read_hashes (Z.to_nat (le_val connectCount)) file;
          '(disconnected, file) ← cut 4 file;
          '(connected, file) ← cut 4 file;
          '(storedChecksum, _) ← cut 32 file;
          let w := mkWAL (w_disk w) (m_active w) fork current target disconnects connects
                     (le_val phase) (le_val disconnected) (le_val connected) in
          if bool_decide (storedChecksum <> ComputeChecksum w) then Some (false, w)
          else Some (true, set_active w (negb (m_phase w =? COMPLETED)))
  end.

(** Deletes the file and forgets the plan. *)
Definition CompleteReorg w : bool * CReorgWAL F :=
  (true, mkWAL (disk_remove (w_disk w)) false (m_forkPointHash w) (m_currentTipHash w) (m_targetTipHash w) [] []
           COMPLETED 0 0).
Definition AbortReorg w : bool * CReorgWAL F := CompleteReorg w.

(** The constructor: what a start of the node finds. *)
Definition new_CReorgWAL (f : F) : option (CReorgWAL F) :=
  let w := mkWAL f false zero256 zero256 zero256 [] [] INITIALIZED 0 0 in
  match disk_read f with
  | None => Some w
  | Some _ =>
      '(ok, w) ← ReadWAL w;
      if ok : bool then Some (if m_phase w =? COMPLETED then snd (CompleteReorg w) else w)
      else Some (set_disk w (disk_remove (w_disk w)))
  end.

Definition HasIncompleteReorg w : bool :=
  match disk_read (w_disk w) with
  | None => false
  | Some _ => negb (m_phase w =? COMPLETED) && negb (m_phase w =? INITIALIZED)
  end.

Definition BeginReorg w (forkPoint currentTip targetTip : uint256) (disconnectBlocks connectBlocks : list uint256)
  : bool * CReorgWAL F :=
  if m_active w then (false, w)
  else WriteWAL (mkWAL (w_disk w) true forkPoint currentTip targetTip disconnectBlocks connectBlocks INITIALIZED 0 0).

Definition EnterDisconnectPhase w : bool * CReorgWAL F :=
  if negb (m_active w) then (false, w) else WriteWAL (set_progress w DISCONNECTING 0 (m_connectedCount w)).
Definition UpdateDisconnectProgress w (count : Z) : bool * CReorgWAL F :=
  if negb (m_active w) || negb (m_phase w =? DISCONNECTING) then (false, w)
  else WriteWAL (set_progress w (m_phase w) count (m_connectedCount w)).
Definition EnterConnectPhase w : bool * CReorgWAL F :=
  if negb (m_active w) then (false, w) else WriteWAL (set_progress w CONNECTING (m_disconnectedCount w) 0).
Definition UpdateConnectProgress w (count : Z) : bool * CReorgWAL F :=
  if negb (m_active w) || negb (m_phase w =? CONNECTING) then (false, w)
  else WriteWAL (set_progress w (m_phase w) (m_disconnectedCount w) count).

(** [CChainState::InitializeWAL]: the log and whether a reindex is required. *)
Definition InitializeWAL (f : F) : option (bool * CReorgWAL F) :=
  w ← new_CReorgWAL f; Some (negb (HasIncompleteReorg w), w).
End WAL.

(** ** The record round trip *)

Definition wal_wf {F} (w : CReorgWAL F) : Prop :=
  u256_wf (m_forkPointHash w) /\ u256_wf (m_currentTipHash w) /\ u256_wf (m_targetTipHash w) /\
  Forall u256_wf (m_disconnectHashes w) /\ Forall u256_wf (m_connectHashes w) /\
  len (m_disconnectHashes w) < 2 ^ 32 /\ len (m_connectHashes w) < 2 ^ 32 /\ 0 <= m_phase w < 256 /\
  0 <= m_disconnectedCount w < 2 ^ 32 /\ 0 <= m_connectedCount w < 2 ^ 32.

Lemma read_hashes_concat hs rest : Forall u256_wf hs -> read_hashes (length hs) (concat hs ++ rest) = Some (hs, rest).
Proof.
  induction 1 as [|h hs Hh _ IH]; [done|]. cbn [length read_hashes concat]. rewrite <- app_assoc, cut_u256 by done.
  cbn [mbind option_bind]. rewrite IH. done.
Qed.

Lemma cut_bytes32 x rest : 0 <= x < 2 ^ 32 -> cut 4 (bytes32 x ++ rest) = Some (bytes32 x, rest).
Proof. intros. apply cut_app. unfold len. by rewrite length_bytes32. Qed.
Lemma le_val_bytes32 x : 0 <= x < 2 ^ 32 -> le_val (bytes32 x) = x.
Proof. intros H. unfold bytes32. rewrite u32_small, le_val_le_bytes, Z.mod_small by (simpl; lia). done. Qed.

Section Recovery.
  Context {F : Type} `{WD : WalDisk F}.
  Variable SHA3_256 : list Z -> uint256.
  Hypothesis SHA3_len : forall l, length (SHA3_256 l) = 32%nat.
  Implicit Types w : CReorgWAL F.

Lemma ReadWAL_record w v : wal_wf w -> disk_read (w_disk v) = Some (wal_record SHA3_256 w) ->
  ReadWAL SHA3_256 v = Some (true, set_active (set_disk w (w_disk v)) (negb (m_phase w =? COMPLETED))).
Proof.
  intros (Hf & Hc & Ht & Hd & Hn & Ld & Ln & Hp & Hx & Hy) HR. unfold ReadWAL. rewrite HR. unfold wal_record, wal_body.
  pose proof (len_nonneg (m_disconnectHashes w)). pose proof (len_nonneg (m_connectHashes w)).
  rewrite <- !app_assoc. rewrite (cut_app 16) by done. cbn [mbind option_bind].
  rewrite bool_decide_false by auto. rewrite (cut_bytes32 WAL_VERSION) by done. cbn [mbind option_bind].
  rewrite le_val_bytes32 by done. cbn [Z.eqb Pos.eqb negb WAL_VERSION]. rewrite (cut_app 1) by done.
  cbn [mbind option_bind]. do 3 (rewrite cut_u256 by done; cbn [mbind option_bind]).
  rewrite cut_bytes32 by lia. cbn [mbind option_bind]. rewrite le_val_bytes32 by lia.
  replace (Z.to_nat (len (m_disconnectHashes w))) with (length (m_disconnectHashes w)) by (unfold len; lia).
  rewrite read_hashes_concat by done. cbn [mbind option_bind].
  rewrite cut_bytes32 by lia. cbn [mbind option_bind]. rewrite le_val_bytes32 by lia.
  replace (Z.to_nat (len (m_connectHashes w))) with (length (m_connectHashes w)) by (unfold len; lia).
  rewrite read_hashes_concat by done. cbn [mbind option_bind].
  do 2 (rewrite cut_bytes32 by lia; cbn [mbind option_bind]). rewrite !le_val_bytes32 by lia.
  assert (cut 32 (ComputeChecksum SHA3_256 w) = Some (ComputeChecksum SHA3_256 w, [])) as ->.
  { unfold ComputeChecksum. pose proof (cut_all (SHA3_256 (wal_body w))) as E. unfold len in E.
    by rewrite SHA3_len in E. }
  cbn [mbind option_bind]. replace (le_val [u8 (m_phase w)]) with (m_phase w) by (cbn [le_val]; rewrite u8_small by done; lia).
  rewrite bool_decide_false by (intros E; apply E; by destruct w). by destruct w.
Qed.

(** A disk on which every write and every removal succeeds. *)
Definition disk_reliable : Prop :=
  (forall (f : F) data, (disk_write f data).1 = true) /\ (forall f : F, disk_read (disk_remove f) = None).

(** ** The intended protocol *)

Record Plan := mkPlan {
  pl_fork : uint256; pl_current : uint256; pl_target : uint256; pl_disconnect : list uint256; pl_connect : list uint256
}.
(** No reorganisation, or a plan with its phase and progress. *)
Abbreviation Session := (option (Plan * Z * Z * Z)).

Inductive WalOp : Type :=
| WBegin (p : Plan) | WEnterDisconnect | WUpdateDisconnect (n : Z) | WEnterConnect | WUpdateConnect (n : Z)
| WComplete | WAbort.

Definition plan_ok (p : Plan) : Prop :=
  u256_wf (pl_fork p) /\ u256_wf (pl_current p) /\ u256_wf (pl_target p) /\ Forall u256_wf (pl_disconnect p) /\
  Forall u256_wf (pl_connect p) /\ len (pl_disconnect p) < 2 ^ 32 /\ len (pl_connect p) < 2 ^ 32.
Definition walop_ok (op : WalOp) : Prop :=
  match op with WBegin p => plan_ok p | WUpdateDisconnect n | WUpdateConnect n => 0 <= n < 2 ^ 32 | _ => True end.

Definition session_step (s : Session) (op : WalOp) : Session :=
  match op, s with
  | WBegin p, None => Some (p, INITIALIZED, 0, 0)
  | WEnterDisconnect, Some (p, _, _, c) => Some (p, DISCONNECTING, 0, c)
  | WUpdateDisconnect n, Some (p, ph, d, c) => if ph =? DISCONNECTING then Some (p, ph, n, c) else s
  | WEnterConnect, Some (p, _, d, _) => Some (p, CONNECTING, d, 0)
  | WUpdateConnect n, Some (p, ph, d, c) => if ph =? CONNECTING then Some (p, ph, d, n) else s
  | WComplete, _ | WAbort, _ => None
  | _, _ => s
  end.
Definition session_run (ops : list WalOp) : Session := foldl session_step None ops.

Definition wal_step w (op : WalOp) : CReorgWAL F :=
  snd match op with
  | WBegin p => BeginReorg SHA3_256 w (pl_fork p) (pl_current p) (pl_target p) (pl_disconnect p) (pl_connect p)
  | WEnterDisconnect => EnterDisconnectPhase SHA3_256 w
  | WUpdateDisconnect n => UpdateDisconnectProgress SHA3_256 w n
  | WEnterConnect => EnterConnectPhase SHA3_256 w
  | WUpdateConnect n => UpdateConnectProgress SHA3_256 w n
  | WComplete => CompleteReorg w
  | WAbort => AbortReorg w
  end.

(** The log holds the session and the disk its record. *)
Definition holds w (s : Session) : Prop :=
  match s with
  | None => m_active w = false /\ disk_read (w_disk w) = None
  | Some (p, ph, d, c) =>
      m_active w = true /\ disk_read (w_disk w) = Some (wal_record SHA3_256 w) /\ wal_wf w /\
      ph ∈ [INITIALIZED; DISCONNECTING; CONNECTING] /\
      (m_forkPointHash w, m_currentTipHash w, m_targetTipHash w, m_disconnectHashes w, m_connectHashes w) =
      (pl_fork p, pl_current p, pl_target p, pl_disconnect p, pl_connect p) /\
      (m_phase w, m_disconnectedCount w, m_connectedCount w) = (ph, d, c)
  end.

Lemma WriteWAL_holds w p ph d c : disk_reliable -> m_active w = true -> plan_ok p ->
  ph ∈ [INITIALIZED; DISCONNECTING; CONNECTING] -> 0 <= d < 2 ^ 32 -> 0 <= c < 2 ^ 32 ->
  (m_forkPointHash w, m_currentTipHash w, m_targetTipHash w, m_disconnectHashes w, m_connectHashes w) =
  (pl_fork p, pl_current p, pl_target p, pl_disconnect p, pl_connect p) ->
  (m_phase w, m_disconnectedCount w, m_connectedCount w) = (ph, d, c) ->
  (WriteWAL SHA3_256 w).1 = true /\ holds (WriteWAL SHA3_256 w).2 (Some (p, ph, d, c)).
Proof.
  intros [HW _] Ha Hp Hph Hd Hc E1 E2. unfold WriteWAL. pose proof (HW (w_disk w) (wal_record SHA3_256 w)) as Hw.
  destruct (disk_write (w_disk w) (wal_record SHA3_256 w)) as [ok f] eqn:Ef. cbn in Hw. subst ok. split; [done|].
  apply disk_write_read in Ef. set (g := if win32 then f else _).
  assert (disk_read g = Some (wal_record SHA3_256 w)) as Eg
    by (unfold g; destruct win32; [|destruct (_ >=? 0)]; by rewrite ?disk_fsync_read).
  cbn [snd holds set_disk m_active w_disk m_forkPointHash m_currentTipHash m_targetTipHash m_disconnectHashes
    m_connectHashes m_phase m_disconnectedCount m_connectedCount].
  split_and!; [done| | |done|done|done].
  - exact Eg.
  - injection E1 as A1 A2 A3 A4 A5. injection E2 as A6 A7 A8. destruct Hp as (? & ? & ? & ? & ? & ? & ?).
    unfold wal_wf, set_disk; cbn. rewrite A1, A2, A3, A4, A5, A6, A7, A8. split_and!; try done; try lia.
    all: assert (ph = INITIALIZED \/ ph = DISCONNECTING \/ ph = CONNECTING) as Hx by set_solver;
      unfold INITIALIZED, DISCONNECTING, CONNECTING in Hx; lia.
Qed.

Lemma holds_plan w p ph d c : holds w (Some (p, ph, d, c)) -> plan_ok p /\ 0 <= d < 2 ^ 32 /\ 0 <= c < 2 ^ 32.
Proof.
  intros (_ & _ & (W1 & W2 & W3 & W4 & W5 & W6 & W7 & _ & W8 & W9) & _ & E1 & E2). injection E1 as E1 E3 E4 E5 E6.
  injection E2 as E7 E8 E9. unfold plan_ok. rewrite <- E1, <- E3, <- E4, <- E5, <- E6, <- E8, <- E9. auto 10.
Qed.

Lemma wal_step_holds w s op : disk_reliable -> holds w s -> walop_ok op -> holds (wal_step w op) (session_step s op).
Proof.
  intros HD HS Hop. destruct s as [[[[p ph] d] c]|].
  - pose proof (holds_plan _ _ _ _ _ HS) as (Hp & Hd & Hc). pose proof HS as (Ha & _ & _ & Hph & E1 & E2).
    injection E2 as Eph Ed Ec.
    assert (forall ph' d' c', ph' ∈ [INITIALIZED; DISCONNECTING; CONNECTING] -> 0 <= d' < 2 ^ 32 -> 0 <= c' < 2 ^ 32 ->
      holds (WriteWAL SHA3_256 (set_progress w ph' d' c')).2 (Some (p, ph', d', c'))) as Hwr.
    { intros. by apply WriteWAL_holds. }
    destruct op as [q| |n| |n| |]; cbn [session_step walop_ok] in *;
      unfold wal_step, BeginReorg, EnterDisconnectPhase, UpdateDisconnectProgress, EnterConnectPhase, UpdateConnectProgress;
      rewrite ?Ha, ?Eph, ?Ed, ?Ec; cbn [negb orb snd].
    + exact HS.
    + apply Hwr; [set_solver|lia|done].
    + destruct (ph =? DISCONNECTING); cbn [negb]; [by apply Hwr|done].
    + apply Hwr; [set_solver|done|lia].
    + destruct (ph =? CONNECTING); cbn [negb]; [by apply Hwr|done].
    + split; [done|]. apply HD.
    + split; [done|]. apply HD.
  - destruct HS as [Ha Hr]. destruct op as [q| |n| |n| |]; cbn [session_step walop_ok] in *;
      unfold wal_step, BeginReorg, EnterDisconnectPhase, UpdateDisconnectProgress, EnterConnectPhase, UpdateConnectProgress;
      rewrite ?Ha; cbn [negb orb snd]; try done.
    + apply WriteWAL_holds; try done; [set_solver|lia..].
    + split; [done|]. apply HD.
    + split; [done|]. apply HD.
Qed.

Lemma wal_run_holds ops : disk_reliable -> Forall walop_ok ops -> forall w s, holds w s ->
  holds (foldl wal_step w ops) (foldl session_step s ops).
Proof.
  intros HD HF. induction HF as [|op ops Hop _ IH]; intros w s HS; [done|]. cbn [foldl]. by apply IH, wal_step_holds.
Qed.

(** What a restart makes of the disk. *)
Lemma restart_holds w s : holds w s -> exists w', new_CReorgWAL SHA3_256 (w_disk w) = Some w' /\ w_disk w' = w_disk w /\
  match s with
  | None => m_active w' = false /\ HasIncompleteReorg w' = false
  | Some (p, ph, d, c) => m_active w' = true /\ HasIncompleteReorg w' = negb (ph =? INITIALIZED) /\
      (m_forkPointHash w', m_currentTipHash w', m_targetTipHash w', m_disconnectHashes w', m_connectHashes w') =
      (pl_fork p, pl_current p, pl_target p, pl_disconnect p, pl_connect p) /\
      (m_phase w', m_disconnectedCount w', m_connectedCount w') = (ph, d, c)
  end.
Proof.
  intros HS. unfold new_CReorgWAL, HasIncompleteReorg. destruct s as [[[[p ph] d] c]|].
  - destruct HS as (Ha & HR & Hwf & Hph & E1 & E2). rewrite HR. erewrite ReadWAL_record by (try exact Hwf; done).
    cbn [mbind option_bind w_disk set_active set_disk m_phase]. injection E2 as E2 E3 E4.
    assert (m_phase w =? COMPLETED = false) as Hnc.
    { rewrite E2. apply Z.eqb_neq. intros ->. set_solver. }
    rewrite Hnc. eexists. split; [done|]. split; [done|].
    cbn [w_disk set_active set_disk m_active m_phase m_forkPointHash m_currentTipHash m_targetTipHash m_disconnectHashes
      m_connectHashes m_disconnectedCount m_connectedCount]. rewrite HR, Hnc, E2, E3, E4. by rewrite E1.
  - destruct HS as [Ha HR]. rewrite HR. eexists. split; [done|]. cbn. by rewrite HR.
Qed.
End Recovery.

(** C28: crash detection is exact on a disk that does what it is told. No write and no removal of the log file fails
    or is torn, the file is absent at first, and plans have well-formed hashes and fewer than 2^32 blocks on each
    side. Then after any sequence of log operations a restart finds an incomplete reorganisation exactly when one was
    begun, had entered the disconnect or the connect phase and was neither completed nor aborted; the recovered log
    then holds the plan, the phase and the progress recorded last. Failed and torn writes are outside this statement:
    see [failed_begin_blocks_reorgs] and [torn_record_undefined]. *)
Theorem wal_restart_exact (F : Type) (WD : WalDisk F) (SHA3_256 : list Z -> uint256)
    (SHA3_len : forall l, length (SHA3_256 l) = 32%nat) (HD : disk_reliable (F := F)) (f : F)
    (Hf : disk_read f = None) (ops : list WalOp) (Hops : Forall walop_ok ops) :
  exists w0 w', new_CReorgWAL SHA3_256 f = Some w0 /\
    new_CReorgWAL SHA3_256 (w_disk (foldl (wal_step SHA3_256) w0 ops)) = Some w' /\
    match session_run ops with
    | None => HasIncompleteReorg w' = false
    | Some (p, ph, d, c) => HasIncompleteReorg w' = negb (ph =? INITIALIZED) /\
        (m_forkPointHash w', m_currentTipHash w', m_targetTipHash w', m_disconnectHashes w', m_connectHashes w') =
        (pl_fork p, pl_current p, pl_target p, pl_disconnect p, pl_connect p) /\
        (m_phase w', m_disconnectedCount w', m_connectedCount w') = (ph, d, c)
    end.
Proof.
  unfold new_CReorgWAL at 1. rewrite Hf. eexists. set (w0 := mkWAL f _ _ _ _ _ _ _ _ _).
  pose proof (wal_run_holds SHA3_256 SHA3_len ops HD Hops w0 None (conj eq_refl Hf)) as HS.
  destruct (restart_holds SHA3_256 SHA3_len _ _ HS) as (w' & E & _ & Hw). exists w'. split_and!; [done..|].
  unfold session_run. destruct (foldl session_step None ops) as [[[[p ph] d] c]|]; intuition.
Qed.

Definition toy_plan : Plan := mkPlan zero256 (replicate 32 1) (replicate 32 2) [replicate 32 1] [replicate 32 2].

Lemma wal_restart_exact_witness : exists w0 w', new_CReorgWAL toy_sha3 None = Some w0 /\
  new_CReorgWAL toy_sha3 (w_disk (foldl (wal_step toy_sha3) w0 [WBegin toy_plan; WEnterDisconnect; WUpdateDisconnect 1])) = Some w' /\
  HasIncompleteReorg w' = true /\ m_disconnectedCount w' = 1.
Proof.
  assert (forall b, 0 <= b < 256 -> u256_wf (replicate 32 b)) as Hrep.
  { intros b Hb. split; [apply length_replicate|]. by apply Forall_replicate. }
  destruct (wal_restart_exact (option (list Z)) MemDisk toy_sha3 (fun l => length_le_bytes 32 _)
    (conj (fun _ _ => eq_refl) (fun _ => eq_refl)) None eq_refl [WBegin toy_plan; WEnterDisconnect; WUpdateDisconnect 1])
    as (w0 & w' & E1 & E2 & E3 & _ & E4).
  - repeat constructor; cbn; try lia; try (apply Forall_replicate; unfold byte_ok; lia); apply zero256_wf.
  - exists w0, w'. split_and!; [done|done|exact E3|]. by injection E4.
Defined.

(** *** Where the code departs from its documentation *)

(** A log left in its first phase is documented as safe to ignore; the restarted
    node keeps it active and refuses every later reorganisation. *)
Example initialized_log_blocks_reorgs :
  let crashed := w_disk (wal_step toy_sha3 (mkWAL None false zero256 zero256 zero256 [] [] INITIALIZED 0 0) (WBegin toy_plan)) in
  exists w, InitializeWAL toy_sha3 crashed = Some (true, w) /\
    (BeginReorg toy_sha3 w zero256 zero256 zero256 [] []).1 = false.
Proof. eexists. split; vm_compute; reflexivity. Qed.

(** A disk that refuses the first write only. *)
#[program] Definition FlakyDisk : WalDisk (bool * option (list Z)) := {|
  win32 := true;
  disk_read f := f.2;
  disk_write f data := if f.1 then (false, (false, f.2)) else (true, (false, Some data));
  disk_remove f := (f.1, None);
  stream_fileno _ := -1;
  disk_fsync f _ := f
|}.
Next Obligation. intros [[] o] data f'; cbn; [done|]. by intros [= <-]. Qed.
Next Obligation. done. Qed.

(** When the first record cannot be written the reorganisation is given up, but
    the log stays active: all later ones are refused as well. *)
Example failed_begin_blocks_reorgs :
  let w := mkWAL (true, None) false zero256 zero256 zero256 [] [] INITIALIZED 0 0 in
  let r := BeginReorg (WD := FlakyDisk) toy_sha3 w zero256 zero256 zero256 [] [] in
  r.1 = false /\ (BeginReorg (WD := FlakyDisk) toy_sha3 r.2 zero256 zero256 zero256 [] []).1 = false.
Proof. split; vm_compute; reflexivity. Qed.

(** The record is rewritten in place: a crash after the file is truncated and
    before it is written again leaves an empty file, which the next start reads
    into uninitialised variables. *)
Example torn_record_undefined : new_CReorgWAL toy_sha3 (Some []) = None.
Proof. reflexivity. Qed.
