(* ===== verification/TipUpdate.v ===== *)
(** * Connecting and disconnecting the tip (consensus/chain.cpp)

    [ConnectTip] runs the rules that depend on the chain, applies the block to
    the UTXO set, links it into the active chain and clears its transactions
    from the pool; [DisconnectTip] takes it back.  The node's parts are one
    record: the chain state, the block store, the UTXO set, the pool, the
    fair-mining environment, the cooldown tracker, the DNA registry, the
    reorganisation log and whatever else the callbacks keep ([n_other]).
    A registered callback is a function on the trackers, the environment and
    [n_other]; one that throws is cut short and the exception is dropped, so it
    is a function as well.  Clocks are read by position ([n_ticks]).
    [None] is a dangling pointer or the undefined read of a coinbase without
    inputs. *)

From S2P Require Import Prelude Uint256 ChainParams Block BlockIndex Transaction BlockTxs UtxoStore UtxoBlock.
From S2P Require Import Dfmp Mik IdentityDb DfmpPow Cooldown VdfValidation ChainState Mempool BlockStorage ReorgWal.

(** [BLOCK_VALID_CHAIN] of node/block_index.h *)
Definition BLOCK_VALID_CHAIN : Z := 4.

(** Why [ConnectTip] returned [false]. *)
Inductive ConnectError : Set :=
| MikInvalid | MikExpired | DnaMismatch | AttestationFailed | InCooldown | TooManyConsecutive | WindowCapExceeded
| RegistrationRateExceeded | UtxoFailure.

Inductive DisconnectError : Set := BlockNotLoaded | NoDatabase | UndoFailed.

Record Node (D F X : Type) := mkNode {
  n_chain : CChainState;
  n_pdb : option (CBlockchainDB D);
  n_utxo : option (CUTXOSet D);
  n_pool : option CTxMemPool;
  n_env : DfmpEnv D;
  n_cooldown : option CCooldownTracker;
  n_dna : option (Identity -> option (list Z));
  n_wal : option (CReorgWAL F);
  n_other : X;
  n_ticks : nat;
  n_notified : list addr
}.
Arguments mkNode {D F X} _ _ _ _ _ _ _ _ _ _ _.
Arguments n_chain {D F X} _.
Arguments n_pdb {D F X} _.
Arguments n_utxo {D F X} _.
Arguments n_pool {D F X} _.
Arguments n_env {D F X} _.
Arguments n_cooldown {D F X} _.
Arguments n_dna {D F X} _.
Arguments n_wal {D F X} _.
Arguments n_other {D F X} _.
Arguments n_ticks {D F X} _.
Arguments n_notified {D F X} _.

(** What the callbacks act on. *)
Definition Observed (D X : Type) : Type := DfmpEnv D * option CCooldownTracker * X.

Section Node.
  Context {D F X : Type} `{LDB : LevelDB D} `{WD : WalDisk F}.
  Variable SHA3_256 : list Z -> uint256.
  Variable randomx_hash_fast : list Z -> uint256.
  Variable dilithium_verify : list Z -> list Z -> list Z -> Z.
  Variable seedPubkeys : list (list Z).
  (** [system_clock] in seconds, by reading. *)
  Variable system_clock : nat -> Z.

  Variable m_blockConnectCallbacks : list (CBlock -> Z -> uint256 -> Observed D X -> Observed D X).
  Variable m_blockDisconnectCallbacks : list (CBlock -> Z -> uint256 -> Observed D X -> Observed D X).
  Implicit Types n : Node D F X.

Definition set_chain n (c : CChainState) : Node D F X :=
  mkNode c (n_pdb n) (n_utxo n) (n_pool n) (n_env n) (n_cooldown n) (n_dna n) (n_wal n) (n_other n) (n_ticks n) (n_notified n).
Definition set_pdb n (b : option (CBlockchainDB D)) : Node D F X :=
  mkNode (n_chain n) b (n_utxo n) (n_pool n) (n_env n) (n_cooldown n) (n_dna n) (n_wal n) (n_other n) (n_ticks n) (n_notified n).
Definition set_utxo n (u : CUTXOSet D) : Node D F X :=
  mkNode (n_chain n) (n_pdb n) (Some u) (n_pool n) (n_env n) (n_cooldown n) (n_dna n) (n_wal n) (n_other n) (n_ticks n) (n_notified n).
Definition set_pool n (p : option CTxMemPool) (ticks : nat) : Node D F X :=
  mkNode (n_chain n) (n_pdb n) (n_utxo n) p (n_env n) (n_cooldown n) (n_dna n) (n_wal n) (n_other n) ticks (n_notified n).
Definition set_observed n (o : Observed D X) : Node D F X :=
  mkNode (n_chain n) (n_pdb n) (n_utxo n) (n_pool n) o.1.1 o.1.2 (n_dna n) (n_wal n) o.2 (n_ticks n) (n_notified n).
Definition set_wal n (w : option (CReorgWAL F)) : Node D F X :=
  mkNode (n_chain n) (n_pdb n) (n_utxo n) (n_pool n) (n_env n) (n_cooldown n) (n_dna n) w (n_other n) (n_ticks n) (n_notified n).
Definition tick n : Node D F X :=
  mkNode (n_chain n) (n_pdb n) (n_utxo n) (n_pool n) (n_env n) (n_cooldown n) (n_dna n) (n_wal n) (n_other n) (S (n_ticks n)) (n_notified n).
Definition NotifyTipUpdate n (p : addr) : Node D F X :=
  mkNode (n_chain n) (n_pdb n) (n_utxo n) (n_pool n) (n_env n) (n_cooldown n) (n_dna n) (n_wal n) (n_other n) (n_ticks n)
    (n_notified n ++ [p]).

Definition observed n : Observed D X := (n_env n, n_cooldown n, n_other n).
Definition with_idb (env : DfmpEnv D) (idb : option (CIdentityDB D)) : DfmpEnv D :=
  mkEnv (env_params env) idb (env_heat env) (env_payout_heat env) (env_dna_verified env).
Definition set_idb n (idb : option (CIdentityDB D)) : Node D F X :=
  set_observed n (with_idb (n_env n) idb, n_cooldown n, n_other n).
Definition set_cooldown n (t : CCooldownTracker) : Node D F X := set_observed n (n_env n, Some t, n_other n).

Definition params n : option ChainParams := env_params (n_env n).
Definition node_param {A} n (f : ChainParams -> A) (dflt : A) : A := gp (params n) f dflt.

(** [*pindex] and an assignment through it. *)
Definition deref n (p : addr) : option CBlockIndex := arena (n_chain n) !! p.
Definition update_index n (p : addr) (f : CBlockIndex -> CBlockIndex) : option (Node D F X) :=
  b ← deref n p; Some (set_chain n (set_arena (n_chain n) (<[p := f b]> (arena (n_chain n))))).

(** [pdb->ReadBlock]; a null [pdb] reads nothing. *)
Definition read_block n (hash : uint256) : option CBlock := db ← n_pdb n; ReadBlock SHA3_256 db hash.
Definition block_reader n : option (uint256 -> option CBlock) := (fun db => ReadBlock SHA3_256 db) <$> n_pdb n.

Definition write_index n (p : addr) : option (Node D F X) :=
  b ← deref n p;
  Some (match n_pdb n with
        | Some db => set_pdb n (Some (snd (WriteBlockIndex SHA3_256 db (GetBlockHash b) b)))
        | None => n
        end).

(** ** ConnectTip *)

(** The mark every failed rule leaves. *)
Definition mark_failed n (p : addr) : option (Node D F X) :=
  n ← update_index n p (fun b => or_status b BLOCK_FAILED_VALID); write_index n p.

Definition node_assume_valid n (height : Z) : bool :=
  let h := node_param n dfmpAssumeValidHeight 0 in (h >? 0) && (height <=? h).

(** A rule: whether the block passes, and the node with its caches updated. *)
Definition Rule : Type := Node D F X -> option (bool * Node D F X).

Definition rule_mik (skipValidation : bool) (b : CBlockIndex) (block : CBlock) : Rule := fun n =>
  let act := node_param n dfmpActivationHeight 0 in
  if negb skipValidation && (nHeight b >? 0) && (nHeight b >=? act) then
    let '(r, idb) := CheckProofOfWorkDFMP SHA3_256 dilithium_verify (n_env n) block (GetBlockHash b)
                       (hnBits (block_header block)) (nHeight b) act in
    ok ← r; Some (ok, set_idb n idb)
  else Some (true, n).

Definition rule_expiration (skipValidation : bool) (b : CBlockIndex) (block : CBlock) : Rule := fun n =>
  if negb skipValidation && IsVDFBlock (block_header block) && negb (node_assume_valid n (nHeight b)) && (nHeight b >? 0) then
    let '(r, idb) := CheckMIKExpiration SHA3_256 (params n) block (nHeight b) (env_identityDb (n_env n)) in
    Some (is_ok r, set_idb n idb)
  else Some (true, n).

(** Below the assume-valid height the tracker is kept up to date only. *)
Definition track_assumed (skipValidation : bool) (b : CBlockIndex) (block : CBlock) : Rule := fun n =>
  Some (true,
    match n_cooldown n, ExtractCoinbaseMIKIdentity SHA3_256 block with
    | Some t, Some mikId =>
        if negb skipValidation && node_assume_valid n (nHeight b) && IsVDFBlock (block_header block)
        then set_cooldown n (Cooldown_OnBlockConnected t (nHeight b) mikId (hnTime (block_header block))) else n
    | _, _ => n
    end).

Definition rule_dna (b : CBlockIndex) (block : CBlock) : Rule := fun n =>
  Some (match n_dna n with
        | Some registry =>
            if IsVDFBlock (block_header block)
            then is_ok (CheckDNAHashEquality SHA3_256 (params n) block (nHeight b) registry) else true
        | None => true
        end, n).

Definition rule_attestation (b : CBlockIndex) (block : CBlock) : Rule := fun n =>
  Some (if (nHeight b >? 0) && negb (node_assume_valid n (nHeight b))
        then is_ok (CheckMIKAttestations SHA3_256 dilithium_verify (params n) seedPubkeys block (nHeight b)) else true, n).

Definition STALL_THRESHOLD_V2 : Z := 600.
Definition STALL_UNCONDITIONAL : Z := 1200.

(** Whether a stall lifts the cooldown, and the tracker whose count was renewed. *)
Definition chain_stalled n (b : CBlockIndex) (block : CBlock) (t : CCooldownTracker) : option (bool * CCooldownTracker) :=
  if nHeight b >=? node_param n stabilizationForkHeight 999999999 then Some (false, t)
  else match pprev b with
  | None => Some (false, t)
  | Some q =>
      bq ← deref n q;
      let gap := i64 (hnTime (block_header block) - nTime bq) in
      if nHeight b >=? node_param n stallExemptionV2Height 999999999 then
        if (gap >=? STALL_THRESHOLD_V2) && (gap <? STALL_UNCONDITIONAL) then
          match ExtractCoinbaseMIKIdentity SHA3_256 block,
                (prevBlock ← read_block n (GetBlockHash bq); ExtractCoinbaseMIKIdentity SHA3_256 prevBlock) with
          | Some currentMik, Some prevMik =>
              if bool_decide (currentMik = prevMik) then
                let t := snd (IsInCooldown t currentMik (nHeight b) 0) in
                Some (negb (GetActiveMiners t >? 1), t)
              else Some (true, t)
          | _, _ => Some (true, t)
          end
        else Some (gap >=? STALL_THRESHOLD_V2, t)
      else Some (gap >=? 300, t)
  end.

(** The tracker's rules apply to VDF blocks above the assume-valid height. *)
Definition tracker_rule (b : CBlockIndex) (block : CBlock)
    (k : Node D F X -> CCooldownTracker -> option (bool * CCooldownTracker)) : Rule := fun n =>
  match n_cooldown n with
  | Some t =>
      if IsVDFBlock (block_header block) && negb (node_assume_valid n (nHeight b))
      then '(ok, t) ← k n t; Some (ok, set_cooldown n t) else Some (true, n)
  | None => Some (true, n)
  end.

Definition check_cooldown n (b : CBlockIndex) (block : CBlock) (t : CCooldownTracker) : bool * CCooldownTracker :=
  let '(r, t) := CheckVDFCooldown SHA3_256 (params n) block (nHeight b) t (hnTime (block_header block)) in (is_ok r, t).

Definition rule_cooldown (b : CBlockIndex) (block : CBlock) : Rule :=
  tracker_rule b block (fun n t =>
    if nHeight b >=? node_param n timeDecayCooldownActivationHeight 999999999 then Some (check_cooldown n b block t)
    else '(stalled, t) ← chain_stalled n b block t;
         Some (if stalled : bool then (true, t) else check_cooldown n b block t)).

Definition rule_consecutive (b : CBlockIndex) (block : CBlock) : Rule :=
  tracker_rule b block (fun n t =>
    '(r, t) ← CheckConsecutiveMiner SHA3_256 (params n) (arena (n_chain n)) block b (block_reader n) t;
    Some (is_ok r, t)).

Definition rule_window_cap (b : CBlockIndex) (block : CBlock) : Rule :=
  tracker_rule b block (fun n t =>
    prevTime ← match pprev b with Some q => bq ← deref n q; Some (nTime bq) | None => Some 0 end;
    Some (is_ok (CheckMIKWindowCap SHA3_256 (params n) block (nHeight b) t prevTime (hnTime (block_header block))), t)).

Definition rule_rate_limit (b : CBlockIndex) (block : CBlock) : Rule :=
  tracker_rule b block (fun n t =>
    Some (is_ok (CheckRegistrationRateLimit SHA3_256 (params n) block (nHeight b) t), t)).

(** The rules in the order of the code. *)
Definition connect_rules (skipValidation : bool) (b : CBlockIndex) (block : CBlock) : list (ConnectError * Rule) :=
  [(MikInvalid, rule_mik skipValidation b block); (MikExpired, rule_expiration skipValidation b block);
   (MikInvalid, track_assumed skipValidation b block); (DnaMismatch, rule_dna b block);
   (AttestationFailed, rule_attestation b block); (InCooldown, rule_cooldown b block);
   (TooManyConsecutive, rule_consecutive b block); (WindowCapExceeded, rule_window_cap b block);
   (RegistrationRateExceeded, rule_rate_limit b block)].

Fixpoint run_rules n (rules : list (ConnectError * Rule)) : option (result ConnectError unit * Node D F X) :=
  match rules with
  | [] => Some (Ok tt, n)
  | (e, rule) :: rules' =>
      '(ok, n) ← rule n;
      if ok : bool then run_rules n rules' else Some (Err e, n)
  end.

(** Step 1: the UTXO set; failures are counted, not marked. *)
Definition apply_to_utxo n (b : CBlockIndex) (block : CBlock) : bool * Node D F X :=
  match n_utxo n with
  | None => (true, n)
  | Some u =>
      let '(ok, u) := ApplyBlock SHA3_256 u block (nHeight b) (GetBlockHash b) in (ok, set_utxo n u)
  end.
Definition count_utxo_failure n : Node D F X :=
  let failures := i32 (m_consecutive_utxo_failures (n_chain n) + 1) in
  set_chain n (set_utxo_failures (n_chain n) failures
    (if failures >=? MAX_UTXO_FAILURES_BEFORE_REBUILD then true else m_utxo_needs_rebuild (n_chain n))).

(** Steps 2 and 3: the parent's [pnext] and the block's own status. *)
Definition link_tip n (p : addr) (b : CBlockIndex) : option (Node D F X) :=
  n ← match pprev b with Some q => update_index n q (fun bq => set_pnext bq (Some p)) | None => Some n end;
  update_index n p (fun b => or_status b (Z.lor BLOCK_VALID_CHAIN BLOCK_HAVE_DATA)).

Definition run_callbacks (cbs : list (CBlock -> Z -> uint256 -> Observed D X -> Observed D X)) n (block : CBlock) (height : Z)
    (hash : uint256) : Node D F X :=
  set_observed n (foldl (fun o cb => cb block height hash o) (observed n) cbs).

Definition clear_pool n (block : CBlock) : Node D F X :=
  match n_pool n, DeserializeBlockTransactions (vtx block) with
  | Some pool, Ok block_txs => set_pool n (Some (RemoveConfirmedTxs SHA3_256 pool block_txs)) (n_ticks n)
  | _, _ => n
  end.

Definition ConnectTip n (p : addr) (block : CBlock) (skipValidation : bool)
  : option (result ConnectError unit * Node D F X) :=
  b ← deref n p;
  '(r, n) ← run_rules n (connect_rules skipValidation b block);
  match r with
  | Err e => n ← mark_failed n p; Some (Err e, n)
  | Ok _ =>
      let '(ok, n) := apply_to_utxo n b block in
      if negb ok then Some (Err UtxoFailure, count_utxo_failure n)
      else
        let n := set_chain n (set_utxo_failures (n_chain n) 0 (m_utxo_needs_rebuild (n_chain n))) in
        n ← link_tip n p b;
        let n := run_callbacks m_blockConnectCallbacks n block (nHeight b) (GetBlockHash b) in
        Some (Ok tt, clear_pool n block)
  end.

(** ** DisconnectTip *)

(** An identity first seen in the block is forgotten. *)
Definition undo_identity n (block : CBlock) (height : Z) : Node D F X :=
  match env_identityDb (n_env n), DeserializeBlockTransactions (vtx block) with
  | Some idb, Ok (tx :: _) =>
      match vin tx with
      | [] => n
      | txin :: _ =>
          match ParseMIKFromScriptSig SHA3_256 (scriptSig txin) with
          | Some mikData =>
              let identity := mik_identity mikData in
              if Identity_IsNull identity then n
              else
                let '(firstSeen, idb) := GetFirstSeen idb identity in
                set_idb n (Some (if firstSeen =? height
                                 then snd (RemoveFirstSeen (snd (RemoveMIKPubKey idb identity)) identity) else idb))
          | None => n
          end
      end
  | _, _ => n
  end.

Definition unlink_tip n (p : addr) (b : CBlockIndex) : option (Node D F X) :=
  n ← match pprev b with Some q => update_index n q (fun bq => set_pnext bq None) | None => Some n end;
  update_index n p (fun b => clear_status (set_pnext b None) BLOCK_VALID_CHAIN).

(** The transactions other than coinbases go back to the pool. *)
Definition return_tx (height : Z) (acc : CTxMemPool * nat) (tx : CTransaction) : CTxMemPool * nat :=
  let '(pool, ticks) := acc in
  if IsCoinBase tx then acc
  else
    let current_time := system_clock ticks in
    (snd (fst (AddTx SHA3_256 None pool (Some tx) 0 current_time (height - 1) (system_clock (S ticks)) true)), S (S ticks)).
Definition return_txs n (block : CBlock) (height : Z) : Node D F X :=
  match n_pool n, DeserializeBlockTransactions (vtx block) with
  | Some pool, Ok block_txs =>
      let '(pool, ticks) := foldl (return_tx height) (pool, n_ticks n) block_txs in set_pool n (Some pool) ticks
  | _, _ => n
  end.

(** Step 2: undoing the UTXO changes; a failure is counted unless forced. *)
Definition undo_utxo n (b : CBlockIndex) (block : CBlock) (force_skip_utxo : bool) : bool * Node D F X :=
  match n_utxo n with
  | None => (true, n)
  | Some u =>
      let '(ok, u) := UndoBlock SHA3_256 randomx_hash_fast u block (GetBlockHash b) in
      let n := set_utxo n u in
      if ok then (true, set_chain n (ResetUndoFailureCounter (n_chain n)))
      else if force_skip_utxo then (true, n)
      else (false, set_chain n (RecordUndoFailure (n_chain n) (GetBlockHash b)))
  end.

(** The callbacks get an empty block when none was loaded. *)
Definition finish_disconnect n (p : addr) (b : CBlockIndex) (block : option CBlock) : option (Node D F X) :=
  let n := match block with Some block => undo_identity n block (nHeight b) | None => n end in
  n ← unlink_tip n p b;
  let n := match block with Some block => return_txs n block (nHeight b) | None => n end in
  Some (run_callbacks m_blockDisconnectCallbacks n (default (mkBlock Header_SetNull []) block) (nHeight b) (GetBlockHash b)).

Definition DisconnectTip n (p : addr) (force_skip_utxo : bool) : option (result DisconnectError unit * Node D F X) :=
  b ← deref n p;
  match n_pdb n, read_block n (GetBlockHash b) with
  | Some _, Some block =>
      let '(ok, n) := undo_utxo n b block force_skip_utxo in
      if negb ok then Some (Err UndoFailed, n)
      else n ← finish_disconnect n p b (Some block); Some (Ok tt, n)
  | pdb, _ =>
      if force_skip_utxo then n ← finish_disconnect n p b None; Some (Ok tt, n)
      else Some (Err (match pdb with Some _ => BlockNotLoaded | None => NoDatabase end), n)
  end.
End Node.

(** ** What the two operations leave alone *)

Section Frames.
  Context {D F X : Type} `{LDB : LevelDB D} `{WD : WalDisk F}.
  Variable SHA3_256 : list Z -> uint256.
  Variable randomx_hash_fast : list Z -> uint256.
  Variable dilithium_verify : list Z -> list Z -> list Z -> Z.
  Variable seedPubkeys : list (list Z).
  Variable system_clock : nat -> Z.
  Variable connect_callbacks disconnect_callbacks : list (CBlock -> Z -> uint256 -> Observed D X -> Observed D X).
  Implicit Types n : Node D F X.

(** A step on the trackers and caches only. *)
Definition observes n n' : Prop := exists o, n' = set_observed n o.

Lemma observes_refl n : observes n n.
Proof. exists (observed n). by destruct n. Qed.
Lemma observes_trans n1 n2 n3 : observes n1 n2 -> observes n2 n3 -> observes n1 n3.
Proof. intros [o ->] [o' ->]. by exists o'. Qed.
Lemma observes_idb n idb : observes n (set_idb n idb).
Proof. by eexists. Qed.
Lemma observes_cooldown n t : observes n (set_cooldown n t).
Proof. by eexists. Qed.
#[local] Hint Resolve observes_refl observes_idb observes_cooldown : core.

Definition rule_frame (rule : Rule (D := D) (F := F) (X := X)) : Prop :=
  forall n ok n', rule n = Some (ok, n') -> observes n n'.

Lemma tracker_rule_frame b block k : rule_frame (tracker_rule b block k).
Proof.
  intros n ok n'. unfold tracker_rule. destruct (n_cooldown n) as [t|]; [|intros [= <- <-]; auto].
  destruct (_ && _); [|intros [= <- <-]; auto]. destruct (k n t) as [[ok' t']|]; [|done]. cbn. intros [= <- <-]. auto.
Qed.

Lemma connect_rules_frame skip b block :
  Forall (fun r => rule_frame r.2) (connect_rules SHA3_256 dilithium_verify seedPubkeys skip b block).
Proof.
  unfold connect_rules. repeat constructor; cbn [snd]; try apply tracker_rule_frame; intros n ok n'.
  - unfold rule_mik. destruct (_ && _); [|intros [= <- <-]; auto].
    destruct (CheckProofOfWorkDFMP _ _ _ _ _ _ _ _) as [[r|] idb]; [|done]. cbn. intros [= <- <-]. auto.
  - unfold rule_expiration. destruct (_ && _ && _ && _); [|intros [= <- <-]; auto].
    destruct (CheckMIKExpiration _ _ _ _ _) as [r idb]. intros [= <- <-]. auto.
  - unfold track_assumed. intros [= <- <-]. destruct (n_cooldown n); [|auto].
    destruct (ExtractCoinbaseMIKIdentity _ _); [|auto]. destruct (_ && _ && _); auto.
  - intros [= <- <-]. auto.
  - intros [= <- <-]. auto.
Qed.

Lemma run_rules_frame rules : Forall (fun r => rule_frame r.2) rules -> forall n r n',
  run_rules n rules = Some (r, n') -> observes n n'.
Proof.
  induction 1 as [|[e rule] rules Hr _ IH]; intros n r n'; cbn [run_rules]; [intros [= <- <-]; auto|].
  destruct (rule n) as [[ok n1]|] eqn:E; [|done]. cbn [mbind option_bind]. apply Hr in E. cbn [snd] in E.
  destruct ok; [|intros [= <- <-]; done]. intros H. eapply observes_trans; [done|by eapply IH].
Qed.

(** The parts of an index entry that tip updates never change. *)
Definition identity_of (b : CBlockIndex) : uint256 * Z * option addr := (GetBlockHash b, nHeight b, pprev b).

(** The index keeps its tree, the block store its blocks, and the tip, the log
    and the rebuild flag are as before. *)
Record tip_frame n n' : Prop := {
  tf_index : forall p, identity_of <$> deref n' p = identity_of <$> deref n p;
  tf_blocks : forall h, length h = 32%nat -> read_block SHA3_256 n' h = read_block SHA3_256 n h;
  tf_tip : pindexTip (n_chain n') = pindexTip (n_chain n);
  tf_rebuild : m_chain_needs_rebuild (n_chain n) = true -> m_chain_needs_rebuild (n_chain n') = true;
  tf_wal : n_wal n' = n_wal n
}.

Lemma tip_frame_refl n : tip_frame n n.
Proof. by split; auto. Qed.
Lemma tip_frame_trans n1 n2 n3 : tip_frame n1 n2 -> tip_frame n2 n3 -> tip_frame n1 n3.
Proof.
  intros [A1 A2 A3 A4 A5] [B1 B2 B3 B4 B5]. split; [intros p; by rewrite B1, A1|intros h Hh; by rewrite B2, A2|congruence|auto|congruence].
Qed.
#[local] Hint Resolve tip_frame_refl : core.

Lemma observes_tip_frame n n' : observes n n' -> tip_frame n n'.
Proof. intros [o ->]. by split. Qed.
Lemma observes_utxo n n' : observes n n' -> n_utxo n' = n_utxo n /\ n_pdb n' = n_pdb n /\ n_chain n' = n_chain n.
Proof. by intros [o ->]. Qed.

Lemma set_utxo_tip_frame n u : tip_frame n (set_utxo n u).
Proof. by split. Qed.
Lemma set_pool_tip_frame n p t : tip_frame n (set_pool n p t).
Proof. by split. Qed.

(** Counters of the chain state. *)
Lemma set_chain_tip_frame n c : arena c = arena (n_chain n) -> pindexTip c = pindexTip (n_chain n) ->
  (m_chain_needs_rebuild (n_chain n) = true -> m_chain_needs_rebuild c = true) -> tip_frame n (set_chain n c).
Proof. intros Ha Ht Hr. split; try done. intros p. unfold deref. cbn. by rewrite Ha. Qed.

Lemma update_index_tip_frame n p f n' : (forall b, identity_of (f b) = identity_of b) ->
  update_index n p f = Some n' -> tip_frame n n' /\ n_utxo n' = n_utxo n.
Proof.
  intros Hf. unfold update_index. destruct (deref n p) as [b|] eqn:Eb; [|done]. cbn. intros [= <-]. split; [|done].
  split; try done. intros q. unfold deref in *. cbn. destruct (decide (q = p)) as [->|Hne].
  - rewrite lookup_insert_eq, Eb. cbn. by rewrite Hf.
  - by rewrite lookup_insert_ne.
Qed.

Lemma put_other_read_block (db : CBlockchainDB D) key value h : (forall k : uint256, length k = 32%nat -> block_key k <> key) ->
  length h = 32%nat ->
  ReadBlock SHA3_256 (snd (put_batch db [Put key value])) h = ReadBlock SHA3_256 db h.
Proof.
  intros Hk Hh. unfold put_batch. destruct (bdb db) as [d|] eqn:Ed; [|done].
  destruct (db_Write d _) as [d'|] eqn:Ew; [|done]. unfold ReadBlock. cbn [snd bdb]. rewrite Ed.
  cbn [mbind option_bind]. rewrite (db_Get_Write _ _ _ (block_key h) Ew). cbn [batch_get].
  rewrite decide_False; [done|]. intros E. by apply (Hk h).
Qed.

Lemma block_key_not_best h : length h = 32%nat -> block_key h <> best_key.
Proof.
  intros Hh E. apply (f_equal length) in E. unfold block_key, GetHex in E. cbn [length best_key] in E.
  rewrite length_Identity_GetHex, length_rev, Hh in E. lia.
Qed.

Lemma write_index_tip_frame n p n' : write_index SHA3_256 n p = Some n' -> tip_frame n n' /\ n_utxo n' = n_utxo n.
Proof.
  unfold write_index. destruct (deref n p) as [b|]; [|done]. cbn. intros [= <-].
  destruct (n_pdb n) as [db|] eqn:Ed; [|done]. split; [|done]. split; try done. intros h Hh. unfold read_block.
  cbn [n_pdb set_pdb mbind option_bind]. rewrite Ed. unfold WriteBlockIndex. destruct (negb _); [done|].
  by apply put_other_read_block.
Qed.

Lemma mark_failed_tip_frame n p n' : mark_failed SHA3_256 n p = Some n' -> tip_frame n n' /\ n_utxo n' = n_utxo n.
Proof.
  unfold mark_failed. destruct (update_index n p _) as [n1|] eqn:E1; [|done]. cbn [mbind option_bind]. intros E2.
  apply update_index_tip_frame in E1 as [H1 U1]; [|done]. apply write_index_tip_frame in E2 as [H2 U2].
  split; [by eapply tip_frame_trans|congruence].
Qed.

Lemma link_tip_frame n p b n' : link_tip n p b = Some n' -> tip_frame n n' /\ n_utxo n' = n_utxo n.
Proof.
  unfold link_tip. destruct (pprev b) as [q|]; cbn [mbind option_bind].
  - destruct (update_index n q _) as [n1|] eqn:E1; [|done]. cbn. intros E2.
    apply update_index_tip_frame in E1 as [H1 U1]; [|done]. apply update_index_tip_frame in E2 as [H2 U2]; [|done].
    split; [by eapply tip_frame_trans|congruence].
  - intros E2. by apply update_index_tip_frame in E2.
Qed.

Lemma unlink_tip_frame n p b n' : unlink_tip n p b = Some n' -> tip_frame n n' /\ n_utxo n' = n_utxo n.
Proof.
  unfold unlink_tip. destruct (pprev b) as [q|]; cbn [mbind option_bind].
  - destruct (update_index n q _) as [n1|] eqn:E1; [|done]. cbn. intros E2.
    apply update_index_tip_frame in E1 as [H1 U1]; [|done]. apply update_index_tip_frame in E2 as [H2 U2]; [|done].
    split; [by eapply tip_frame_trans|congruence].
  - intros E2. by apply update_index_tip_frame in E2.
Qed.

Lemma run_callbacks_observes cbs n block h hash : observes n (run_callbacks cbs n block h hash).
Proof. by eexists. Qed.

Lemma run_rules_error rules : forall n e n', run_rules n rules = Some (Err e, n') -> e ∈ rules.*1.
Proof.
  induction rules as [|[e0 rule] rules IH]; intros n e n'; cbn [run_rules]; [done|].
  destruct (rule n) as [[ok n1]|]; [|done]. cbn [mbind option_bind]. destruct ok.
  - intros H. apply IH in H. by right.
  - intros [= <- _]. by left.
Qed.

Lemma clear_pool_tip_frame n block : tip_frame n (clear_pool SHA3_256 n block) /\ n_utxo (clear_pool SHA3_256 n block) = n_utxo n.
Proof.
  unfold clear_pool. destruct (n_pool n); [|done]. destruct (DeserializeBlockTransactions _); [|done].
  split; [apply set_pool_tip_frame|done].
Qed.
Lemma return_txs_tip_frame n block h :
  tip_frame n (return_txs SHA3_256 system_clock n block h) /\ n_utxo (return_txs SHA3_256 system_clock n block h) = n_utxo n.
Proof.
  unfold return_txs. destruct (n_pool n); [|done]. destruct (DeserializeBlockTransactions _); [|done].
  destruct (foldl _ _ _) as [pool t]. split; [apply set_pool_tip_frame|done].
Qed.
Lemma undo_identity_observes n block h : observes n (undo_identity SHA3_256 n block h).
Proof.
  unfold undo_identity. destruct (env_identityDb (n_env n)); [|auto]. destruct (DeserializeBlockTransactions _) as [[|tx txs]|]; auto.
  destruct (vin tx); [auto|]. destruct (ParseMIKFromScriptSig _ _); [|auto]. destruct (Identity_IsNull _); [auto|].
  destruct (GetFirstSeen _ _). auto.
Qed.

(** After the UTXO set is updated. *)
Lemma connect_tail_frame n p b block r n' :
  (n1 ← link_tip (set_chain n (set_utxo_failures (n_chain n) 0 (m_utxo_needs_rebuild (n_chain n)))) p b;
   Some (Ok (E := ConnectError) tt,
         clear_pool SHA3_256 (run_callbacks connect_callbacks n1 block (nHeight b) (GetBlockHash b)) block)) = Some (r, n') ->
  tip_frame n n' /\ n_utxo n' = n_utxo n /\ r = Ok tt.
Proof.
  destruct (link_tip _ p b) as [n1|] eqn:E1; [|done]. cbn [mbind option_bind]. intros [= <- <-].
  apply link_tip_frame in E1 as [F1 U1]. set (n2 := run_callbacks _ _ _ _ _).
  destruct (clear_pool_tip_frame n2 block) as [F3 U3].
  pose proof (run_callbacks_observes connect_callbacks n1 block (nHeight b) (GetBlockHash b)) as O.
  destruct (observes_utxo _ _ O) as (U2 & _). apply observes_tip_frame in O. split_and!; [|etrans; [exact U3|etrans; [exact U2|exact U1]]|done].
  eapply tip_frame_trans; [|eapply tip_frame_trans; [exact F1|eapply tip_frame_trans; [exact O|exact F3]]].
  by apply set_chain_tip_frame.
Qed.

Lemma finish_disconnect_frame n p b block r n' :
  (n1 ← finish_disconnect SHA3_256 system_clock disconnect_callbacks n p b (Some block);
   Some (Ok (E := DisconnectError) tt, n1)) = Some (r, n') ->
  tip_frame n n' /\ n_utxo n' = n_utxo n /\ r = Ok tt.
Proof.
  unfold finish_disconnect. pose proof (undo_identity_observes n block (nHeight b)) as O. set (n1 := undo_identity _ _ _ _) in *.
  destruct (unlink_tip n1 p b) as [n2|] eqn:E2; [|done]. cbn [mbind option_bind]. intros [= <- <-].
  apply unlink_tip_frame in E2 as [F2 U2]. destruct (return_txs_tip_frame n2 block (nHeight b)) as [F3 U3].
  set (n3 := return_txs _ _ _ _ _) in *.
  pose proof (run_callbacks_observes disconnect_callbacks n3 (default (mkBlock Header_SetNull []) (Some block)) (nHeight b)
    (GetBlockHash b)) as O4.
  destruct (observes_utxo _ _ O) as (U1 & _). destruct (observes_utxo _ _ O4) as (U4 & _).
  apply observes_tip_frame in O, O4. split_and!; [|etrans; [exact U4|etrans; [exact U3|etrans; [exact U2|exact U1]]]|done].
  eapply tip_frame_trans; [exact O|eapply tip_frame_trans; [exact F2|eapply tip_frame_trans; [exact F3|exact O4]]].
Qed.

(** [ConnectTip]: the UTXO set changes only by [ApplyBlock]. *)
Lemma ConnectTip_frame n p block skip r n' b : deref n p = Some b ->
  ConnectTip SHA3_256 dilithium_verify seedPubkeys connect_callbacks n p block skip = Some (r, n') ->
  tip_frame n n' /\
  match n_utxo n with
  | None => n_utxo n' = None
  | Some u =>
      let '(ok, u') := ApplyBlock SHA3_256 u block (nHeight b) (GetBlockHash b) in
      match r with
      | Ok _ => ok = true /\ n_utxo n' = Some u'
      | Err UtxoFailure => ok = false /\ n_utxo n' = Some u'
      | Err _ => n_utxo n' = Some u
      end
  end.
Proof.
  intros Hb. unfold ConnectTip. rewrite Hb. cbn [mbind option_bind].
  destruct (run_rules n _) as [[r1 n1]|] eqn:E1; [|done]. cbn [mbind option_bind].
  pose proof E1 as E0. apply run_rules_frame in E1; [|apply connect_rules_frame]. pose proof (observes_tip_frame _ _ E1) as F1.
  destruct (observes_utxo _ _ E1) as (U1 & _ & _). destruct r1 as [[]|e].
  - unfold apply_to_utxo. rewrite U1. destruct (n_utxo n) as [u|] eqn:Eu.
    + destruct (ApplyBlock SHA3_256 u block (nHeight b) (GetBlockHash b)) as [ok u'] eqn:Ea.
      destruct ok; cbn [negb].
      * intros H. apply connect_tail_frame in H as (F2 & U2 & ->).
        split; [|by rewrite U2]. eapply tip_frame_trans; [exact F1|]. eapply tip_frame_trans; [apply (set_utxo_tip_frame _ u')|done].
      * intros [= <- <-]. split; [|done]. eapply tip_frame_trans; [exact F1|].
        eapply tip_frame_trans; [apply (set_utxo_tip_frame _ u')|]. by apply set_chain_tip_frame.
    + cbn [negb]. intros H. apply connect_tail_frame in H as (F2 & U2 & ->). split; [by eapply tip_frame_trans|congruence].
  - destruct (mark_failed SHA3_256 n1 p) as [n2|] eqn:E2; [|done]. cbn. intros [= <- <-].
    apply mark_failed_tip_frame in E2 as [F2 U2]. split; [by eapply tip_frame_trans|]. rewrite U2, U1.
    destruct (n_utxo n) as [u|]; [|done]. destruct (ApplyBlock _ _ _ _ _) as [ok u'].
    apply run_rules_error in E0. unfold connect_rules in E0. cbn in E0. by destruct e; try done; set_solver.
Qed.

Lemma DisconnectTip_frame n p r n' b : deref n p = Some b ->
  DisconnectTip SHA3_256 randomx_hash_fast system_clock disconnect_callbacks n p false = Some (r, n') ->
  tip_frame n n' /\
  match read_block SHA3_256 n (GetBlockHash b), n_utxo n with
  | Some block, Some u =>
      let '(ok, u') := UndoBlock SHA3_256 randomx_hash_fast u block (GetBlockHash b) in
      n_utxo n' = Some u' /\ (is_ok r = ok)
  | _, _ => n_utxo n' = n_utxo n
  end.
Proof.
  intros Hb. unfold DisconnectTip. rewrite Hb. cbn [mbind option_bind].
  destruct (read_block SHA3_256 n (GetBlockHash b)) as [block|] eqn:Er.
  - unfold read_block in Er. destruct (n_pdb n) as [db|] eqn:Ed; [|done]. unfold undo_utxo.
    destruct (n_utxo n) as [u|] eqn:Eu.
    + destruct (UndoBlock SHA3_256 randomx_hash_fast u block (GetBlockHash b)) as [ok u'] eqn:Ea. destruct ok; cbn [negb].
      * intros H. apply finish_disconnect_frame in H as (F2 & U2 & ->). split; [|by rewrite U2].
        eapply tip_frame_trans; [apply (set_utxo_tip_frame _ u')|]. eapply tip_frame_trans; [|exact F2].
        by apply set_chain_tip_frame.
      * intros [= <- <-]. split; [|done]. eapply tip_frame_trans; [apply (set_utxo_tip_frame _ u')|].
        apply set_chain_tip_frame; unfold RecordUndoFailure; by destruct (decide _), (_ >=? _).
    + cbn [negb]. intros H. apply finish_disconnect_frame in H as (F2 & U2 & ->). split; [done|congruence].
  - destruct (n_pdb n); intros [= <- <-]; done.
Qed.

(** The links and marks of a connected tip. *)
Lemma link_tip_spec n p b n' : link_tip n p b = Some n' ->
  (exists b', deref n' p = Some b' /\ Z.land (nStatus b') (Z.lor BLOCK_VALID_CHAIN BLOCK_HAVE_DATA) =
                                     Z.lor BLOCK_VALID_CHAIN BLOCK_HAVE_DATA) /\
  (forall q, pprev b = Some q -> exists bq, deref n' q = Some bq /\ pnext bq = Some p) /\ n_pool n' = n_pool n.
Proof.
  assert (forall x f, Z.land (Z.lor x f) f = f) as Hland.
  { intros x f. apply Z.bits_inj'. intros i _. rewrite Z.land_spec, Z.lor_spec. by destruct (Z.testbit x i), (Z.testbit f i). }
  unfold link_tip. destruct (pprev b) as [q|]; cbn [mbind option_bind].
  - unfold update_index at 2. destruct (deref n q) as [bq|] eqn:Eq; [|done]. cbn [mbind option_bind].
    unfold update_index. destruct (deref (set_chain n _) p) as [bp|] eqn:Ep; [|done]. cbn [mbind option_bind].
    intros [= <-]. unfold deref in *. cbn in *. split_and!; [| |done].
    + eexists. rewrite lookup_insert_eq. split; [done|]. apply Hland.
    + intros q' [= <-]. destruct (decide (p = q)) as [->|Hne].
      * rewrite lookup_insert_eq in *. injection Ep as <-. by eexists.
      * rewrite lookup_insert_ne, lookup_insert_eq by done. by eexists.
  - unfold update_index. destruct (deref n p) as [bp|]; [|done]. cbn [mbind option_bind]. intros [= <-].
    unfold deref. cbn. split_and!; [|done|done]. eexists. rewrite lookup_insert_eq. split; [done|]. apply Hland.
Qed.

Lemma mark_failed_spec n p n' : mark_failed SHA3_256 n p = Some n' ->
  (exists b', deref n' p = Some b' /\ IsInvalid b' = true) /\ n_pool n' = n_pool n.
Proof.
  unfold mark_failed, update_index. destruct (deref n p) as [b|]; [|done]. cbn [mbind option_bind].
  unfold write_index. destruct (deref _ p) as [b'|] eqn:E; [|done]. cbn [mbind option_bind]. intros [= <-].
  unfold deref in E. cbn in E. rewrite lookup_insert_eq in E. injection E as <-.
  assert (IsInvalid (or_status b BLOCK_FAILED_VALID) = true) as Hi.
  { unfold IsInvalid, or_status. cbn [nStatus set_nStatus]. apply negb_true_iff, Z.eqb_neq. intros E.
    apply (f_equal (fun z => Z.testbit z 5)) in E. rewrite Z.land_spec, Z.lor_spec in E. cbn in E.
    by rewrite orb_true_r in E. }
  destruct (n_pdb _); cbn; unfold deref; cbn; (split; [|done]); eexists; by rewrite lookup_insert_eq.
Qed.

Lemma ConnectTip_inv n p block skip r n' b : deref n p = Some b ->
  ConnectTip SHA3_256 dilithium_verify seedPubkeys connect_callbacks n p block skip = Some (r, n') ->
  exists r1 n1, run_rules n (connect_rules SHA3_256 dilithium_verify seedPubkeys skip b block) = Some (r1, n1) /\
  match r1 with
  | Err e => r = Err e /\ mark_failed SHA3_256 n1 p = Some n'
  | Ok _ =>
      let '(ok, n2) := apply_to_utxo SHA3_256 n1 b block in
      if ok : bool then
        exists n3, link_tip (set_chain n2 (set_utxo_failures (n_chain n2) 0 (m_utxo_needs_rebuild (n_chain n2)))) p b = Some n3 /\
        r = Ok tt /\ n' = clear_pool SHA3_256 (run_callbacks connect_callbacks n3 block (nHeight b) (GetBlockHash b)) block
      else r = Err UtxoFailure /\ n' = count_utxo_failure n2
  end.
Proof.
  intros Hb. unfold ConnectTip. rewrite Hb. cbn [mbind option_bind].
  destruct (run_rules n _) as [[r1 n1]|]; [|done]. cbn [mbind option_bind]. intros H. exists r1, n1. split; [done|].
  destruct r1 as [[]|e].
  - destruct (apply_to_utxo SHA3_256 n1 b block) as [ok n2]. destruct ok; cbn [negb] in H.
    + destruct (link_tip _ p b) as [n3|]; [|done]. exists n3. by injection H as <- <-.
    + by injection H as <- <-.
  - destruct (mark_failed SHA3_256 n1 p) as [n2|]; [|done]. by injection H as <- <-.
Qed.
End Frames.

(** C25: the verdict of [ConnectTip].  It succeeds exactly when every rule passes
    in turn and the block applies to the UTXO set; the block is then marked as
    connected and having data, its parent points to it, and its transactions are
    removed from the pool.  A failed rule marks the block as invalid and changes
    neither the UTXO set nor the pool.  A block that does not apply is counted
    as a UTXO failure, which asks for a rebuild at the third in a row, and is
    not marked: the index is as before.  The tip moves in no case. *)
Theorem ConnectTip_verdict (D F X : Type) (LDB : LevelDB D) (SHA3_256 : list Z -> uint256)
    (dilithium_verify : list Z -> list Z -> list Z -> Z) (seedPubkeys : list (list Z))
    (callbacks : list (CBlock -> Z -> uint256 -> Observed D X -> Observed D X))
    (n : Node D F X) (p : addr) (b : CBlockIndex) (block : CBlock) (skip : bool) (r : result ConnectError unit) (n' : Node D F X)
    (Hb : deref n p = Some b)
    (HC : ConnectTip SHA3_256 dilithium_verify seedPubkeys callbacks n p block skip = Some (r, n')) :
  pindexTip (n_chain n') = pindexTip (n_chain n) /\
  (exists v n1, run_rules n (connect_rules SHA3_256 dilithium_verify seedPubkeys skip b block) = Some (v, n1) /\
     match r with
     | Ok _ | Err UtxoFailure => v = Ok tt
     | Err e => v = Err e
     end) /\
  match r with
  | Ok _ =>
      match n_utxo n with
      | Some u => (ApplyBlock SHA3_256 u block (nHeight b) (GetBlockHash b)).1 = true /\
                  n_utxo n' = Some (ApplyBlock SHA3_256 u block (nHeight b) (GetBlockHash b)).2
      | None => n_utxo n' = None
      end /\
      (exists b', deref n' p = Some b' /\ Z.land (nStatus b') (Z.lor BLOCK_VALID_CHAIN BLOCK_HAVE_DATA) =
                                         Z.lor BLOCK_VALID_CHAIN BLOCK_HAVE_DATA) /\
      (forall q, pprev b = Some q -> exists bq, deref n' q = Some bq /\ pnext bq = Some p) /\
      n_pool n' = match n_pool n, DeserializeBlockTransactions (vtx block) with
                  | Some pool, Ok txs => Some (RemoveConfirmedTxs SHA3_256 pool txs)
                  | pool, _ => pool
                  end
  | Err UtxoFailure =>
      (exists u, n_utxo n = Some u /\ (ApplyBlock SHA3_256 u block (nHeight b) (GetBlockHash b)).1 = false) /\
      arena (n_chain n') = arena (n_chain n) /\ n_pool n' = n_pool n /\
      m_consecutive_utxo_failures (n_chain n') = i32 (m_consecutive_utxo_failures (n_chain n) + 1) /\
      (m_consecutive_utxo_failures (n_chain n') >= MAX_UTXO_FAILURES_BEFORE_REBUILD ->
       m_utxo_needs_rebuild (n_chain n') = true)
  | Err _ => n_utxo n' = n_utxo n /\ n_pool n' = n_pool n /\ exists b', deref n' p = Some b' /\ IsInvalid b' = true
  end.
Proof.
  pose proof (ConnectTip_frame SHA3_256 dilithium_verify seedPubkeys callbacks n p block skip r n' b Hb HC) as [HF HU].
  destruct (ConnectTip_inv SHA3_256 dilithium_verify seedPubkeys callbacks n p block skip r n' b Hb HC) as (v & n1 & E1 & H).
  split; [apply HF|]. pose proof E1 as E0. pose proof E1 as O. apply run_rules_frame in O; [|apply connect_rules_frame].
  assert (n_pool n1 = n_pool n /\ n_utxo n1 = n_utxo n /\ n_chain n1 = n_chain n) as (P1 & U1 & C1) by (by destruct O as [o ->]).
  destruct v as [[]|e].
  - unfold apply_to_utxo in H. rewrite U1 in H. destruct (n_utxo n) as [u|] eqn:Eu.
    + destruct (ApplyBlock SHA3_256 u block (nHeight b) (GetBlockHash b)) as [ok u'] eqn:Ea. destruct ok.
      * destruct H as (n3 & E3 & -> & ->). split; [by exists (Ok tt), n1|]. destruct HU as [_ HU].
        apply link_tip_spec in E3 as (L1 & L2 & L3). cbn [n_pool set_chain set_utxo] in L3.
        unfold clear_pool in *. cbn [n_pool run_callbacks set_observed] in *. rewrite L3, P1 in *.
        destruct (n_pool n); [destruct (DeserializeBlockTransactions _)|]; auto.
      * destruct H as [-> ->]. split; [by exists (Ok tt), n1|]. split_and!; [by exists u; rewrite Ea|..]; cbn; rewrite ?C1; try done.
        intros Hge. by rewrite (proj2 (Z.geb_le _ _)) by lia.
    + destruct H as (n3 & E3 & -> & ->). split; [by exists (Ok tt), n1|].
      apply link_tip_spec in E3 as (L1 & L2 & L3). cbn [n_pool set_chain set_utxo] in L3.
      unfold clear_pool in *. cbn [n_pool run_callbacks set_observed] in *. rewrite L3, P1 in *.
      destruct (n_pool n); [destruct (DeserializeBlockTransactions _)|]; auto.
  - destruct H as [-> H]. apply run_rules_error in E0. unfold connect_rules in E0. cbn in E0.
    assert (e <> UtxoFailure) as He by (intros ->; set_solver).
    split. { exists (Err e), n1. split; [done|]. by destruct e. }
    apply mark_failed_tip_frame in H as HU2. destruct HU2 as [_ HU2]. apply mark_failed_spec in H as [HI HP].
    destruct e; try done; split_and!; congruence || done.
Qed.
