(* ===== verification/Activation.v ===== *)
(** * Activating the best chain (consensus/chain.cpp)

    [ActivateBestChain] with its checkpoint tiers, the four cases of the default
    path (first block, extension of the tip, replacement of a VDF tip, and
    reorganisation with rollback), the opt-in path over the candidate set with
    its step function, and [DisconnectToHeight].  The environment variable that
    selects the path is an argument.  Instead of a [bool] the functions return
    which statement they returned from. *)

From S2P Require Import Prelude Uint256 ChainParams Block BlockIndex Transaction BlockTxs UtxoStore UtxoBlock.
From S2P Require Import Dfmp DfmpPow Cooldown VdfValidation ChainState Mempool BlockStorage ReorgWal TipUpdate.

Definition MAX_REORG_DEPTH : Z := 100.

Inductive Activation : Set :=
| NullIndex | CheckpointAtTip | CheckpointHighest | CheckpointAncestor
| FirstConnected | Extended | Replaced | Reorganised | Activated
| NotBest | ForkMarkedInvalid
| ConnectRefused | NoExtraWork | DisconnectRefused | ReplacementLost
| NoForkPoint | NegativeDepth | TooDeep | PastCheckpoint | BrokenChain | NoBlockStore | BlockMissing | LogRefused
| RolledBack | RollbackFailed | StepFailed.

(** The value [ActivateBestChain] returns. *)
Definition activation_result (a : Activation) : bool :=
  match a with
  | FirstConnected | Extended | Replaced | Reorganised | Activated | NotBest | ForkMarkedInvalid => true
  | _ => false
  end.

(** [reorgOccurred]: a replaced or reorganised tip, or on the candidate-set path
    any tip that moved. *)
Definition reorgOccurred (a : Activation) (old new : option addr) : bool :=
  match a with Replaced | Reorganised => true | Activated => bool_decide (new <> old) | _ => false end.

(** The returns of [ActivateBestChainStep]. *)
Inductive StepResult : Set :=
| AlreadyThere | StepDone | StepTooDeep | StepUnreadable | StepLogRefused | StepDisconnectFailed | StepWriteFailed
| StepReadFailed | StepConnectFailed | StepTruncated.

(** The value it returns, and [fInvalidFound]. *)
Definition step_result (r : StepResult) : bool :=
  match r with AlreadyThere | StepDone | StepConnectFailed => true | _ => false end.
Definition step_invalid (r : StepResult) : bool :=
  match r with StepConnectFailed | StepTruncated => true | _ => false end.

Section Activation.
  Context {D F X : Type} `{LDB : LevelDB D} `{WD : WalDisk F}.
  Variable SHA3_256 : list Z -> uint256.
  Variable randomx_hash_fast : list Z -> uint256.
  Variable dilithium_verify : list Z -> list Z -> list Z -> Z.
  Variable seedPubkeys : list (list Z).
  Variable system_clock : nat -> Z.
  (** [steady_clock] in nanoseconds, by reading. *)
  Variable steady_clock : nat -> Z.
  Variable connect_callbacks disconnect_callbacks : list (CBlock -> Z -> uint256 -> Observed D X -> Observed D X).
  Implicit Types n : Node D F X.

Definition connect_tip n (p : addr) (block : CBlock) (skip : bool) : option (result ConnectError unit * Node D F X) :=
  ConnectTip SHA3_256 dilithium_verify seedPubkeys connect_callbacks n p block skip.
Definition disconnect_tip n (p : addr) : option (result DisconnectError unit * Node D F X) :=
  DisconnectTip SHA3_256 randomx_hash_fast system_clock disconnect_callbacks n p false.

Definition node_hash n (p : addr) : option uint256 := GetBlockHash <$> deref n p.
Definition tip n : option addr := pindexTip (n_chain n).

(** [pindexTip = p] with the cached height; [pdb->WriteBestBlock]. *)
Definition set_tip n (p : addr) : option (Node D F X) :=
  b ← deref n p; Some (set_chain n (move_tip (n_chain n) (Some p) (nHeight b))).
Definition write_best n (p : addr) : option (bool * Node D F X) :=
  h ← node_hash n p;
  Some (match n_pdb n with
        | Some db => let '(ok, db) := WriteBestBlock db h in (ok, set_pdb n (Some db))
        | None => (true, n)
        end).
Definition persist_tip n (p : addr) : option (Node D F X) :=
  n ← set_tip n p; '(_, n) ← write_best n p; Some n.

(** A call on the log, if there is one. *)
Definition with_wal n (f : CReorgWAL F -> bool * CReorgWAL F) : bool * Node D F X :=
  match n_wal n with
  | Some w => let '(ok, w) := f w in (ok, set_wal n (Some w))
  | None => (true, n)
  end.
Definition log n (f : CReorgWAL F -> bool * CReorgWAL F) : Node D F X := snd (with_wal n f).

(** Whole seconds since the grace clock was set. *)
Definition elapsed n : Z * Node D F X :=
  (Z.quot (steady_clock (n_ticks n) - m_vdfTipAcceptTime (n_chain n)) 1000000000, tick n).
Definition anchor_grace n (height : Z) : Node D F X :=
  tick (set_chain n (set_grace (n_chain n) (steady_clock (n_ticks n)) height)).

(** ** Checkpoints *)

Definition highest_checkpoint (cps : list CCheckpoint) : option CCheckpoint :=
  foldl (fun best cp => if cp_nHeight cp >? match best with Some c => cp_nHeight c | None => -1 end then Some cp else best)
    None cps.

Definition ancestor_is n (p : addr) (cp : CCheckpoint) : option bool :=
  a ← GetAncestor (arena (n_chain n)) p (cp_nHeight cp);
  match a with
  | None => Some false
  | Some a => h ← node_hash n a; Some (bool_decide (h = cp_hashBlock cp))
  end.

Fixpoint ancestors_match n (p : addr) (height : Z) (highest : option CCheckpoint) (cps : list CCheckpoint) : option bool :=
  match cps with
  | [] => Some true
  | cp :: cps' =>
      if (cp_nHeight cp >? height) || (cp_nHeight cp =? height) ||
         match highest with Some c => cp_nHeight cp =? cp_nHeight c | None => false end
      then ancestors_match n p height highest cps'
      else ok ← ancestor_is n p cp; if ok : bool then ancestors_match n p height highest cps' else Some false
  end.

(** The three tiers; [None] inside is a pass. *)
Definition checkpoint_tiers n (p : addr) (b : CBlockIndex) : option (option Activation) :=
  match params n with
  | None => Some None
  | Some cp =>
      if negb (CheckpointCheck cp (nHeight b) (GetBlockHash b)) then Some (Some CheckpointAtTip)
      else
        let highest := highest_checkpoint (checkpoints cp) in
        tier2 ← match highest with
                | Some c => if nHeight b >? cp_nHeight c then ancestor_is n p c else Some true
                | None => Some true
                end;
        if negb tier2 then Some (Some CheckpointHighest)
        else if bool_decide (tip n = None) || bool_decide (pprev b <> tip n) then
          ok ← ancestors_match n p (nHeight b) highest (checkpoints cp);
          Some (if ok : bool then None else Some CheckpointAncestor)
        else Some None
  end.

(** ** Competing VDF tips *)

(** The preflight on the tracker; a node without one passes. *)
Definition preflight n (bnew btip : CBlockIndex) (block : CBlock) : option (bool * Node D F X) :=
  match n_cooldown n with
  | None => Some (true, n)
  | Some t =>
      '(r, t) ← CheckVDFReplacementPreflight SHA3_256 (params n) (arena (n_chain n)) block (Some bnew) (Some btip)
                  (block_reader SHA3_256 n) (nHeight bnew) t;
      Some (is_ok r, set_cooldown n t)
  end.

Definition both_outputs (bnew btip : CBlockIndex) : bool :=
  negb (IsNull (vdfOutput (header bnew))) && negb (IsNull (vdfOutput (header btip))).
Definition lower_output (bnew btip : CBlockIndex) : bool :=
  both_outputs bnew btip && HashLessThan (vdfOutput (header bnew)) (vdfOutput (header btip)).

Definition ShouldReplaceVDFTip n (bnew btip : CBlockIndex) (block : CBlock) : option (bool * Node D F X) :=
  match params n with
  | None => Some (false, n)
  | Some cp =>
      if (nHeight bnew <? vdfLotteryActivationHeight cp) || (inVersion bnew <? 4) || (inVersion btip <? 4) ||
         negb (nHeight bnew =? nHeight btip) || bool_decide (pprev bnew <> pprev btip) || negb (lower_output bnew btip) ||
         negb (m_vdfTipAcceptHeight (n_chain n) =? nHeight btip)
      then Some (false, n)
      else
        let '(e, n) := elapsed n in
        if e >? vdfLotteryGracePeriod cp then Some (false, n) else preflight n bnew btip block
  end.

(** The tiebreak between tips of equal work on different branches. *)
Definition vdf_tiebreak n (bnew btip : CBlockIndex) (block : CBlock) : option (bool * Node D F X) :=
  match params n with
  | None => Some (false, n)
  | Some cp =>
      if (nHeight bnew >=? vdfLotteryActivationHeight cp) && (nHeight bnew =? nHeight btip) &&
         (inVersion bnew >=? 4) && (inVersion btip >=? 4) && lower_output bnew btip
      then
        let '(grace, n) :=
          if m_vdfTipAcceptHeight (n_chain n) =? nHeight btip
          then let '(e, n) := elapsed n in (negb (e >? vdfLotteryGracePeriod cp), n) else (true, n) in
        if grace then preflight n bnew btip block else Some (false, n)
      else Some (false, n)
  end.

Definition MaybeAnchorVdfGrace n (p : addr) : option (bool * Node D F X) :=
  b ← deref n p;
  match params n with
  | Some cp =>
      if (inVersion b <? 4) || (nHeight b <? vdfLotteryActivationHeight cp) ||
         (nHeight b =? m_vdfTipAcceptHeight (n_chain n))
      then Some (false, n) else Some (true, anchor_grace n (nHeight b))
  | None => Some (false, n)
  end.

(** ** The reorganisation *)

(** The blocks from [p] down to [fork], exclusive; the inner [None] is a chain
    that ends before it. *)
Fixpoint path_down (fuel : nat) (st : index_store) (p fork : addr) : option (option (list addr)) :=
  if bool_decide (p = fork) then Some (Some [])
  else match fuel with
  | O => None
  | S fuel' =>
      b ← st !! p;
      match pprev b with
      | None => Some None
      | Some q => r ← path_down fuel' st q fork; Some (cons p <$> r)
      end
  end.

Definition readable_block n (p : addr) : option bool :=
  h ← node_hash n p; Some (bool_decide (is_Some (read_block SHA3_256 n h))).
Fixpoint all_readable n (l : list addr) : option bool :=
  match l with
  | [] => Some true
  | p :: l' => ok ← readable_block n p; if ok : bool then all_readable n l' else Some false
  end.

(** Reconnecting the old blocks; the list is the stack of those disconnected. *)
Fixpoint reconnect_all n (stack : list addr) : option (bool * Node D F X) :=
  match stack with
  | [] => Some (true, n)
  | p :: stack' =>
      h ← node_hash n p;
      match read_block SHA3_256 n h with
      | None => Some (false, n)
      | Some block =>
          '(r, n) ← connect_tip n p block true;
          if is_ok r then reconnect_all n stack' else Some (false, n)
      end
  end.
Fixpoint disconnect_all n (stack : list addr) : option (bool * Node D F X) :=
  match stack with
  | [] => Some (true, n)
  | p :: stack' =>
      '(r, n) ← disconnect_tip n p;
      if is_ok r then disconnect_all n stack' else Some (false, n)
  end.

(** Undo the new blocks, put the old ones back, delete the log. *)
Definition rollback n (connected disconnected : list addr) : option (Activation * Node D F X) :=
  '(ok, n) ← disconnect_all n connected;
  '(ok, n) ← (if ok : bool then reconnect_all n disconnected else Some (false, n));
  Some (if ok : bool then RolledBack else RollbackFailed, log n AbortReorg).

(** The disconnect loop; on success the stack of disconnected blocks. *)
Fixpoint disconnect_loop n (stack todo : list addr) : option (result Activation (list addr) * Node D F X) :=
  match todo with
  | [] => Some (Ok stack, n)
  | p :: todo' =>
      '(r, n) ← disconnect_tip n p;
      if is_ok r then
        disconnect_loop (log n (fun w => UpdateDisconnectProgress SHA3_256 w (u32 (len (p :: stack))))) (p :: stack) todo'
      else '(a, n) ← rollback n [] stack; Some (Err a, n)
  end.

(** The descendants of a block that failed to connect. *)
Fixpoint fail_children n (l : list addr) : option (Node D F X) :=
  match l with
  | [] => Some n
  | p :: l' =>
      b ← deref n p;
      if negb (Z.land (nStatus b) BLOCK_FAILED_MASK =? 0) then fail_children n l'
      else n ← update_index n p (fun b => or_status b BLOCK_FAILED_CHILD); n ← write_index SHA3_256 n p; fail_children n l'
  end.

Fixpoint connect_loop n (pindexNew : addr) (block : CBlock) (disconnected stack todo : list addr)
  : option (result Activation unit * Node D F X) :=
  match todo with
  | [] => Some (Ok tt, n)
  | p :: todo' =>
      h ← node_hash n p;
      match (if bool_decide (p = pindexNew) then Some block else read_block SHA3_256 n h) with
      | None => '(a, n) ← rollback n stack disconnected; Some (Err a, n)
      | Some connectBlock =>
          '(r, n) ← connect_tip n p connectBlock true;
          if is_ok r then
            connect_loop (log n (fun w => UpdateConnectProgress SHA3_256 w (u32 (len (p :: stack)))))
              pindexNew block disconnected (p :: stack) todo'
          else n ← fail_children n todo'; '(a, n) ← rollback n stack disconnected; Some (Err a, n)
      end
  end.

Fixpoint any_invalid n (l : list addr) : option bool :=
  match l with
  | [] => Some false
  | p :: l' => b ← deref n p; if IsInvalid b then Some true else any_invalid n l'
  end.

(** Everything after the two lists are built: the checks that nothing is
    touched before, then the two loops. *)
Definition perform_reorg n (pindexFork pindexOld pindexNew : addr) (block : CBlock) (disconnects connects : list addr)
  : option (Activation * Node D F X) :=
  invalid ← any_invalid n connects;
  if invalid : bool then Some (ForkMarkedInvalid, n)
  else if bool_decide (n_pdb n = None) && negb (bool_decide (disconnects = [])) then Some (NoBlockStore, n)
  else
    ok1 ← all_readable n disconnects;
    if negb ok1 then Some (BlockMissing, n)
    else
      abort_unless (negb (bool_decide (n_pdb n = None)) || bool_decide (filter (fun p => p <> pindexNew) connects = []))
      (ok2 ← all_readable n (filter (fun p => p <> pindexNew) connects);
       if negb ok2 then Some (BlockMissing, n)
       else
         forkHash ← node_hash n pindexFork; oldHash ← node_hash n pindexOld; newHash ← node_hash n pindexNew;
         dHashes ← mapM (node_hash n) disconnects; cHashes ← mapM (node_hash n) connects;
         let '(ok3, n) := with_wal n (fun w => BeginReorg SHA3_256 w forkHash oldHash newHash dHashes cHashes) in
         if negb ok3 then Some (LogRefused, n)
         else
           '(r, n) ← disconnect_loop (log n (EnterDisconnectPhase SHA3_256)) [] disconnects;
           match r with
           | Err a => Some (a, n)
           | Ok disconnected =>
               '(r, n) ← connect_loop (log n (EnterConnectPhase SHA3_256)) pindexNew block disconnected [] connects;
               match r with
               | Err a => Some (a, n)
               | Ok _ => n ← persist_tip n pindexNew; Some (Reorganised, NotifyTipUpdate (log n CompleteReorg) pindexNew)
               end
           end).

(** Case 3 from the fork point on. *)
Definition reorganise n (pindexOld : addr) (btip : CBlockIndex) (pindexNew : addr) (bnew : CBlockIndex) (block : CBlock)
  : option (Activation * Node D F X) :=
  fork ← FindFork (arena (n_chain n)) (Some pindexOld) (Some pindexNew);
  match fork with
  | None => Some (NoForkPoint, n)
  | Some pindexFork =>
      bfork ← deref n pindexFork;
      let reorg_depth := nHeight btip - nHeight bfork in
      if reorg_depth <? 0 then Some (NegativeDepth, n)
      else if reorg_depth >? MAX_REORG_DEPTH then Some (TooDeep, n)
      else if match params n with
              | Some cp => match GetLastCheckpoint cp (nHeight btip) with
                           | Some c => nHeight bfork <? cp_nHeight c
                           | None => false
                           end
              | None => false
              end then Some (PastCheckpoint, n)
      else
        d ← path_down (S (Z.to_nat (nHeight btip))) (arena (n_chain n)) pindexOld pindexFork;
        c ← path_down (S (Z.to_nat (nHeight bnew))) (arena (n_chain n)) pindexNew pindexFork;
        match d, c with
        | Some disconnects, Some connects =>
            perform_reorg n pindexFork pindexOld pindexNew block disconnects (rev connects)
        | _, _ => Some (BrokenChain, n)
        end
  end.

(** ** The default path *)

Definition legacy_activate n (pindexNew : addr) (bnew : CBlockIndex) (block : CBlock) : option (Activation * Node D F X) :=
  match tip n with
  | None =>
      '(r, n) ← connect_tip n pindexNew block false;
      if negb (is_ok r) then Some (ConnectRefused, n) else n ← persist_tip n pindexNew; Some (FirstConnected, n)
  | Some pindexOld =>
      btip ← deref n pindexOld;
      if bool_decide (pprev bnew = Some pindexOld) then
        if negb (ChainWorkGreaterThan (nChainWork bnew) (nChainWork btip)) then Some (NoExtraWork, n)
        else
          '(r, n) ← connect_tip n pindexNew block false;
          if negb (is_ok r) then Some (ConnectRefused, n)
          else
            n ← set_tip n pindexNew;
            let n := match params n with
                     | Some cp => if (inVersion bnew >=? 4) && (nHeight bnew >=? vdfLotteryActivationHeight cp)
                                  then anchor_grace n (nHeight bnew) else n
                     | None => n
                     end in
            '(_, n) ← write_best n pindexNew; Some (Extended, NotifyTipUpdate n pindexNew)
      else
        '(replace, n) ← ShouldReplaceVDFTip n bnew btip block;
        if replace : bool then
          '(r, n) ← disconnect_tip n pindexOld;
          if negb (is_ok r) then Some (DisconnectRefused, n)
          else
            '(r, n) ← connect_tip n pindexNew block false;
            if negb (is_ok r) then Some (ReplacementLost, set_chain n (FlagChainRebuild (n_chain n) ConnectTipFailure))
            else n ← persist_tip n pindexNew; Some (Replaced, NotifyTipUpdate n pindexNew)
        else if ChainWorkGreaterThan (nChainWork bnew) (nChainWork btip) then
          reorganise n pindexOld btip pindexNew bnew block
        else
          '(tiebreak, n) ← vdf_tiebreak n bnew btip block;
          if tiebreak : bool then reorganise n pindexOld btip pindexNew bnew block else Some (NotBest, n)
  end.

(** ** The candidate-set path *)

(** The blocks from [p] down to [fork], exclusive, or down to the first block. *)
Fixpoint path_until (fuel : nat) (st : index_store) (p fork : option addr) : option (list addr) :=
  match p with
  | None => Some []
  | Some a =>
      if bool_decide (p = fork) then Some []
      else match fuel with
      | O => None
      | S fuel' => b ← st !! a; l ← path_until fuel' st (pprev b) fork; Some (a :: l)
      end
  end.

(** [pindexTip = p] with its height; a failed write of the best hash is reported. *)
Definition retreat_tip n (p : option addr) : option (bool * Node D F X) :=
  match p with
  | None => Some (true, set_chain n (move_tip (n_chain n) None (-1)))
  | Some p => n ← set_tip n p; write_best n p
  end.

Fixpoint step_disconnect n (count : Z) (todo : list addr) : option (result StepResult unit * Node D F X) :=
  match todo with
  | [] => Some (Ok tt, n)
  | p :: todo' =>
      '(r, n) ← disconnect_tip n p;
      if negb (is_ok r) then
        let n := log n AbortReorg in
        Some (Err StepDisconnectFailed, set_chain n (FlagChainRebuild (n_chain n) DisconnectTipFailure))
      else
        b ← deref n p;
        '(ok, n) ← retreat_tip n (pprev b);
        if negb ok then
          let n := log n AbortReorg in
          Some (Err StepWriteFailed, set_chain n (FlagChainRebuild (n_chain n) WriteBestBlockFailure))
        else step_disconnect (log n (fun w => UpdateDisconnectProgress SHA3_256 w (u32 (count + 1)))) (count + 1) todo'
  end.

(** The caller's block when its hash matches, the stored one otherwise. *)
Definition block_for n (block : CBlock) (h : uint256) : option CBlock :=
  if bool_decide (fst (GetHash SHA3_256 randomx_hash_fast (block_header block)) = h) then Some block
  else read_block SHA3_256 n h.

Fixpoint step_connect n (block : CBlock) (any_disconnect_committed : bool) (count : Z) (todo : list addr)
  : option (result StepResult unit * Node D F X) :=
  match todo with
  | [] => Some (Ok tt, n)
  | p :: todo' =>
      h ← node_hash n p;
      match block_for n block h with
      | None =>
          let n := log n AbortReorg in
          Some (Err StepReadFailed,
                if any_disconnect_committed then set_chain n (FlagChainRebuild (n_chain n) ReadBlockFailure) else n)
      | Some connectBlock =>
          '(r, n) ← connect_tip n p connectBlock false;
          if negb (is_ok r) then
            c ← MarkBlockAsFailed (n_chain n) p;
            let n := log (set_chain n c) AbortReorg in
            Some (if any_disconnect_committed
                  then (Err StepTruncated, set_chain n (FlagChainRebuild (n_chain n) ConnectTipFailure))
                  else (Err StepConnectFailed, n))
          else
            n ← set_tip n p;
            '(_, n) ← MaybeAnchorVdfGrace n p;
            '(ok, n) ← write_best n p;
            if negb ok then
              let n := log n AbortReorg in
              Some (Err StepWriteFailed, set_chain n (FlagChainRebuild (n_chain n) WriteBestBlockFailure))
            else
              let n := log n (fun w => UpdateConnectProgress SHA3_256 w (u32 (count + 1))) in
              step_connect (set_chain n (PruneBlockIndexCandidates (n_chain n))) block any_disconnect_committed (count + 1) todo'
      end
  end.

Fixpoint all_available n (block : CBlock) (l : list addr) : option bool :=
  match l with
  | [] => Some true
  | p :: l' =>
      h ← node_hash n p;
      if bool_decide (is_Some (block_for n block h)) then all_available n block l' else Some false
  end.

Definition hash_or_null n (p : option addr) : option uint256 :=
  match p with Some p => node_hash n p | None => Some zero256 end.

Definition step_fuel n : nat := S (size (arena (n_chain n))).

Definition ActivateBestChainStep n (pindexMostWork : addr) (block : CBlock) : option (StepResult * Node D F X) :=
  if bool_decide (Some pindexMostWork = tip n) then Some (AlreadyThere, n)
  else
    fork ← match tip n with
           | Some _ => FindFork (arena (n_chain n)) (tip n) (Some pindexMostWork)
           | None => Some None
           end;
    too_deep ← match tip n, fork with
               | Some t, Some f => bt ← deref n t; bf ← deref n f; Some (nHeight bt - nHeight bf >? MAX_REORG_DEPTH)
               | _, _ => Some false
               end;
    if too_deep : bool then
      let c := set_candidates (n_chain n) (m_setBlockIndexCandidates (n_chain n) ∖ {[ pindexMostWork ]}) in
      Some (StepTooDeep, set_chain n (FlagChainRebuild c DepthRejection))
    else
      disconnects ← path_until (step_fuel n) (arena (n_chain n)) (tip n) fork;
      connects ← path_until (step_fuel n) (arena (n_chain n)) (Some pindexMostWork) fork;
      let connects := rev connects in
      ok1 ← (if bool_decide (n_pdb n = None) then Some true else all_readable n disconnects);
      ok2 ← (if bool_decide (n_pdb n = None) then Some true else all_available n block connects);
      if negb (ok1 && ok2) then Some (StepUnreadable, n)
      else
        forkHash ← hash_or_null n fork; oldHash ← hash_or_null n (tip n); newHash ← node_hash n pindexMostWork;
        dHashes ← mapM (node_hash n) disconnects; cHashes ← mapM (node_hash n) connects;
        let '(ok3, n) := with_wal n (fun w => BeginReorg SHA3_256 w forkHash oldHash newHash dHashes cHashes) in
        if negb ok3 then Some (StepLogRefused, n)
        else
          '(r, n) ← step_disconnect (log n (EnterDisconnectPhase SHA3_256)) 0 disconnects;
          match r with
          | Err e => Some (e, n)
          | Ok _ =>
              '(r, n) ← step_connect (log n (EnterConnectPhase SHA3_256)) block (negb (bool_decide (disconnects = []))) 0 connects;
              match r with
              | Err e => Some (e, n)
              | Ok _ =>
                  n ← match tip n with Some p => '(_, n) ← write_best n p; Some n | None => Some n end;
                  Some (StepDone, log n CompleteReorg)
              end
          end.

(** The first block, from the leaf down to the fork point, that violates a
    checkpoint. *)
Fixpoint checkpoint_violation n (cp : ChainParams) (l : list addr) : option (option addr) :=
  match l with
  | [] => Some None
  | p :: l' => b ← deref n p; if CheckpointCheck cp (nHeight b) (GetBlockHash b) then checkpoint_violation n cp l' else Some (Some p)
  end.

(** Whether the grace period keeps the tip against a sibling of equal work. *)
Definition grace_expired n (bmost btip : CBlockIndex) : bool * Node D F X :=
  match params n with
  | Some cp =>
      if (nHeight bmost =? nHeight btip) && bool_decide (pprev bmost = pprev btip) && both_outputs bmost btip &&
         negb (ChainWorkGreaterThan (nChainWork bmost) (nChainWork btip)) &&
         negb (ChainWorkGreaterThan (nChainWork btip) (nChainWork bmost)) &&
         (m_vdfTipAcceptHeight (n_chain n) =? nHeight btip)
      then let '(e, n) := elapsed n in (e >? vdfLotteryGracePeriod cp, n) else (false, n)
  | None => (false, n)
  end.

(** The activation loop; each further round follows a failure mark. *)
Fixpoint port_loop (fuel : nat) n (block : CBlock) : option (Activation * Node D F X) :=
  match fuel with
  | O => None
  | S fuel' =>
      '(best, c) ← FindMostWorkChainImpl (n_chain n);
      let n := set_chain n c in
      match best with
      | None => Some (Activated, n)
      | Some most =>
          if bool_decide (Some most = tip n) then Some (Activated, n)
          else
            bmost ← deref n most;
            '(keep, n) ← match tip n with
                         | None => Some (false, n)
                         | Some t =>
                             bt ← deref n t;
                             if ChainWorkGreaterThan (nChainWork bt) (nChainWork bmost) then Some (true, n)
                             else Some (grace_expired n bmost bt)
                         end;
            if keep : bool then Some (Activated, n)
            else
              violating ← match params n with
                          | None => Some None
                          | Some cp =>
                              fork ← match tip n with
                                     | Some _ => FindFork (arena (n_chain n)) (tip n) (Some most)
                                     | None => Some None
                                     end;
                              l ← path_until (step_fuel n) (arena (n_chain n)) (Some most) fork;
                              checkpoint_violation n cp l
                          end;
              match violating with
              | Some p => c ← MarkBlockAsFailed (n_chain n) p; port_loop fuel' (set_chain n c) block
              | None =>
                  '(r, n) ← ActivateBestChainStep n most block;
                  if negb (step_result r) then Some (StepFailed, n)
                  else if step_invalid r then port_loop fuel' n block
                  else Some (Activated, n)
              end
      end
  end.

Definition port_activate n (pindexNew : addr) (bnew : CBlockIndex) (block : CBlock) : option (Activation * Node D F X) :=
  let c := n_chain n in
  let n := if IsBlockACandidateForActivation bnew
           then set_chain n (set_candidates c (m_setBlockIndexCandidates c ∪ {[ pindexNew ]})) else n in
  '(a, n) ← port_loop (S (size (mapBlockIndex (n_chain n)))) n block;
  Some (a, match a, tip n with Activated, Some p => NotifyTipUpdate n p | _, _ => n end).

(** ** ActivateBestChain *)

Definition ActivateBestChain (useNewPath : bool) n (pindexNew : option addr) (block : CBlock)
  : option (Activation * Node D F X) :=
  match pindexNew with
  | None => Some (NullIndex, n)
  | Some p =>
      b ← deref n p;
      refused ← checkpoint_tiers n p b;
      match refused with
      | Some a => Some (a, n)
      | None => if useNewPath then port_activate n p b block else legacy_activate n p b block
      end
  end.

(** ** DisconnectToHeight *)

Fixpoint hashes_above (fuel : nat) n (p : option addr) (targetHeight : Z) : option (list uint256 * uint256) :=
  match p with
  | None => Some ([], zero256)
  | Some a =>
      b ← deref n a;
      if nHeight b >? targetHeight then
        match fuel with
        | O => None
        | S fuel' => '(l, fork) ← hashes_above fuel' n (pprev b) targetHeight; Some (GetBlockHash b :: l, fork)
        end
      else Some ([], GetBlockHash b)
  end.

(** The end of a batch: the best hash and the log's progress. *)
Definition end_batch n (total : Z) : option (Node D F X) :=
  n ← match tip n with Some p => '(_, n) ← write_best n p; Some n | None => Some n end;
  Some (log n (fun w => UpdateDisconnectProgress SHA3_256 w (u32 total))).

(** Both loops: [batchCount] blocks of the current batch are done.  Between two
    batches the lock is released; other threads are not modelled.  A negative
    batch size never makes progress. *)
Fixpoint disconnect_down (fuel : nat) n (targetHeight batchSize batchCount total : Z) : option (Z * Node D F X) :=
  match fuel with
  | O => None
  | S fuel' =>
      match tip n with
      | None => n ← (if batchCount >? 0 then end_batch n total else Some n); Some (total, n)
      | Some p =>
          b ← deref n p;
          if nHeight b >? targetHeight then
            '(r, n) ← disconnect_tip n p;
            if negb (is_ok r) then Some (-1, log n AbortReorg)
            else
              h ← match pprev b with Some q => bq ← deref n q; Some (nHeight bq) | None => Some (-1) end;
              let n := set_chain n (move_tip (n_chain n) (pprev b) h) in
              if negb (batchSize =? 0) && (batchCount + 1 >=? batchSize) then
                n ← end_batch n (total + 1); disconnect_down fuel' n targetHeight batchSize 0 (total + 1)
              else disconnect_down fuel' n targetHeight batchSize (batchCount + 1) (total + 1)
          else n ← (if batchCount >? 0 then end_batch n total else Some n); Some (total, n)
      end
  end.

Definition DisconnectToHeight n (targetHeight batchSize : Z) : option (Z * Node D F X) :=
  match tip n with
  | None => Some (-1, n)
  | Some p =>
      b ← deref n p;
      if targetHeight <? 0 then Some (-1, n)
      else if nHeight b <=? targetHeight then Some (0, n)
      else if match params n with
              | Some cp => match GetLastCheckpoint cp (nHeight b) with Some c => targetHeight <? cp_nHeight c | None => false end
              | None => false
              end then Some (-1, n)
      else abort_unless (0 <=? batchSize) (
        let fuel := S (Z.to_nat (nHeight b)) in
        '(hashes, forkHash) ← hashes_above fuel n (Some p) targetHeight;
        let n := log n (fun w => BeginReorg SHA3_256 w forkHash (GetBlockHash b) zero256 hashes []) in
        let n := log n (EnterDisconnectPhase SHA3_256) in
        '(r, n) ← disconnect_down (S fuel) n targetHeight batchSize 0 0;
        if r <? 0 then Some (r, n)
        else
          n ← match tip n with Some p => '(_, n) ← write_best n p; Some n | None => Some n end;
          Some (r, log n CompleteReorg))
  end.
End Activation.

(** ** The ledger of a chain *)

(** A block as the index, the block store and the decoder describe it. *)
Record Blk := mkBlk {
  k_addr : addr; k_hash : uint256; k_height : Z; k_prev : option addr; k_block : CBlock; k_txs : list CTransaction
}.

Section Ledger.
  Context {D F X : Type} `{LDB : LevelDB D} `{WD : WalDisk F}.
  Variable SHA3_256 : list Z -> uint256.
  Implicit Types n : Node D F X.
  Implicit Types ks : list Blk.

Definition described n (k : Blk) : Prop :=
  identity_of <$> deref n (k_addr k) = Some (k_hash k, k_height k, k_prev k) /\
  read_block SHA3_256 n (k_hash k) = Some (k_block k) /\
  DeserializeBlockTransactions (vtx (k_block k)) = Ok (k_txs k) /\ k_txs k <> [] /\
  no_chained_spend SHA3_256 true (k_txs k) /\ length (k_hash k) = 32%nat /\ 0 <= k_height k < 2 ^ 32.

(** Each block's parent is the next of the list; the last is the first block. *)
Fixpoint linked ks : Prop :=
  match ks with
  | [] => True
  | k :: ks' => k_prev k = k_addr <$> head ks' /\ linked ks'
  end.

(** One block applied to a ledger it fits. *)
Definition extends (m : utxo_map) (k : Blk) (m' : utxo_map) (spent : list (COutPoint * CUTXOEntry)) : Prop :=
  txs_fit SHA3_256 true (k_txs k) m 0 ∅ /\ ledger_txs SHA3_256 (k_height k) true (k_txs k) m = Ok (m', spent).

(** The ledger accepts the blocks in this order. *)
Inductive accepts : utxo_map -> list Blk -> utxo_map -> Prop :=
| acc_nil m : accepts m [] m
| acc_cons m k m1 spent ks m2 : extends m k m1 spent -> accepts m1 ks m2 -> accepts m (k :: ks) m2.

(** The undo record of a block. *)
Definition undo_stored (u : CUTXOSet D) (h : uint256) (spent : list (COutPoint * CUTXOEntry)) : Prop :=
  let p := le_bytes 4 (len spent) ++ records spent in
  (d ← db u; db_Get d (undo_key h)) = Some (p ++ SHA3_256 p) /\
  Forall (fun p => op_ok p.1 /\ entry_wf p.2) spent /\ len spent < 2 ^ 32.

(** The blocks, newest first, give the ledger and their undo records are kept. *)
Inductive stacked (u : CUTXOSet D) : list Blk -> utxo_map -> Prop :=
| st_nil : stacked u [] ∅
| st_cons k ks m m' spent : stacked u ks m -> extends m k m' spent -> undo_stored u (k_hash k) spent ->
    stacked u (k :: ks) m'.

(** The UTXO set stands for the ledger of the chain. *)
Record agrees n ks (m : utxo_map) : Prop := {
  ag_utxo : exists u, n_utxo n = Some u /\ ledger_state u m /\ stacked u ks m;
  ag_desc : Forall (described n) ks;
  ag_hashes : NoDup (k_hash <$> ks)
}.

Lemma extends_fun m k m1 s1 m2 s2 : extends m k m1 s1 -> extends m k m2 s2 -> m1 = m2 /\ s1 = s2.
Proof. intros [_ E1] [_ E2]. rewrite E1 in E2. by injection E2. Qed.

Lemma accepts_app m ks1 ks2 m2 : accepts m (ks1 ++ ks2) m2 <-> exists m1, accepts m ks1 m1 /\ accepts m1 ks2 m2.
Proof.
  revert m. induction ks1 as [|k ks1 IH]; intros m; cbn [app].
  - split; [intros H; exists m; by split; [constructor|]|]. intros (m1 & H1 & H2). by inversion H1; subst.
  - split.
    + inversion 1; subst. match goal with H : accepts _ (_ ++ _) _ |- _ => apply IH in H as (m' & H1 & H2) end.
      exists m'. split; [by econstructor|done].
    + intros (m1 & H1 & H2). inversion H1; subst. econstructor; [done|]. apply IH. eauto.
Qed.

Lemma accepts_fun ks : forall m m1 m2, accepts m ks m1 -> accepts m ks m2 -> m1 = m2.
Proof.
  induction ks as [|k ks IH]; intros m m1 m2 H1 H2; inversion H1; inversion H2; subst; [done|].
  match goal with H : extends _ _ _ _, H' : extends _ _ _ _ |- _ => destruct (extends_fun _ _ _ _ _ _ H H') as [-> _] end.
  by eapply IH.
Qed.

Lemma stacked_accepts u ks m : stacked u ks m -> accepts ∅ (rev ks) m.
Proof.
  induction 1 as [|k ks m m' spent _ IH HE _]; [constructor|]. cbn [rev]. apply accepts_app. exists m. split; [done|].
  econstructor; [done|constructor].
Qed.

Lemma stacked_fun u u' ks m m' : stacked u ks m -> stacked u' ks m' -> m = m'.
Proof. intros H1 H2. apply stacked_accepts in H1, H2. by eapply accepts_fun. Qed.

(** Undo records of other blocks are not touched. *)
Lemma stacked_frame u u' ks m : (forall k, k ∈ ks -> forall v, (d ← db u; db_Get d (undo_key (k_hash k))) = Some v ->
    (d ← db u'; db_Get d (undo_key (k_hash k))) = Some v) ->
  stacked u ks m -> stacked u' ks m.
Proof.
  intros HF. induction 1 as [|k ks m m' spent _ IH HE (HU & HW)]; [constructor|]. econstructor; [|done|].
  - apply IH. intros k' Hk'. apply HF. by right.
  - split; [|done]. apply HF; [by left|done].
Qed.

(** Nodes with the same tree and blocks. *)
Record same_store n n' : Prop := {
  ss_index : forall p, identity_of <$> deref n' p = identity_of <$> deref n p;
  ss_blocks : forall h, length h = 32%nat -> read_block SHA3_256 n' h = read_block SHA3_256 n h
}.

Lemma same_store_refl n : same_store n n.
Proof. by split. Qed.
Lemma same_store_trans n1 n2 n3 : same_store n1 n2 -> same_store n2 n3 -> same_store n1 n3.
Proof. intros [A1 A2] [B1 B2]. split; [intros p; by rewrite B1, A1|intros h Hh; by rewrite B2, A2]. Qed.
Lemma tip_frame_same n n' : tip_frame SHA3_256 n n' -> same_store n n'.
Proof. by intros [H1 H2 _ _ _]. Qed.

Lemma described_same n n' k : same_store n n' -> described n k -> described n' k.
Proof.
  intros [HI HB] (H1 & H2 & H3 & H4 & H5 & H6 & H7). split_and!; try done; try lia; [by rewrite HI|by rewrite HB].
Qed.
Lemma described_all n n' ks : same_store n n' -> Forall (described n) ks -> Forall (described n') ks.
Proof. intros HS HF. eapply Forall_impl; [exact HF|]. intros k. by apply described_same. Qed.

Lemma agrees_same n n' ks m : same_store n n' -> n_utxo n' = n_utxo n -> agrees n ks m -> agrees n' ks m.
Proof. intros HS HU [H1 H2 H3]. split; [by rewrite HU|by eapply described_all|done]. Qed.

Lemma described_fun n k k' : described n k -> described n k' -> k_addr k = k_addr k' -> k = k'.
Proof.
  destruct k as [a h ht pv b ts], k' as [a' h' ht' pv' b' ts']. intros (H1 & H2 & H3 & _) (G1 & G2 & G3 & _).
  cbn in *. intros <-. rewrite H1 in G1. injection G1 as <- <- <-. rewrite H2 in G2. injection G2 as <-.
  rewrite H3 in G3. by injection G3 as <-.
Qed.

Lemma linked_unique n ks : forall ks', Forall (described n) ks -> Forall (described n) ks' -> linked ks -> linked ks' ->
  k_addr <$> head ks = k_addr <$> head ks' -> ks = ks'.
Proof.
  induction ks as [|k ks IH]; intros [|k' ks'] HF HF' HL HL' E; try done.
  apply Forall_cons in HF as [Hk HF], HF' as [Hk' HF']. destruct HL as [E1 HL], HL' as [E2 HL'].
  injection E as E. pose proof (described_fun n k k' Hk Hk' E) as ->. f_equal. apply IH; try done. congruence.
Qed.
End Ledger.

Section Moves.
  Context {D F X : Type} `{LDB : LevelDB D} `{WD : WalDisk F}.
  Variable SHA3_256 : list Z -> uint256.
  Hypothesis SHA3_len : forall l, length (SHA3_256 l) = 32%nat.
  Hypothesis HD : writes_succeed (D := D).
  Variable randomx_hash_fast : list Z -> uint256.
  Variable dilithium_verify : list Z -> list Z -> list Z -> Z.
  Variable seedPubkeys : list (list Z).
  Variable system_clock steady_clock : nat -> Z.
  Variable connect_callbacks disconnect_callbacks : list (CBlock -> Z -> uint256 -> Observed D X -> Observed D X).
  Implicit Types n : Node D F X.
  Implicit Types ks : list Blk.

  #[local] Abbreviation agrees := (agrees SHA3_256).
  #[local] Abbreviation described := (described SHA3_256).
  #[local] Abbreviation accepts := (accepts SHA3_256).
  #[local] Abbreviation same_store := (same_store SHA3_256).
  #[local] Abbreviation connect := (connect_tip SHA3_256 dilithium_verify seedPubkeys connect_callbacks).
  #[local] Abbreviation disconnect := (disconnect_tip SHA3_256 randomx_hash_fast system_clock disconnect_callbacks).

(** Connecting a block the ledger accepts pushes it, or refuses and leaves the
    ledger. *)
Lemma connect_agrees n ks m k blk skip r n' m' spent : agrees n ks m -> described n k ->
  k_hash k ∉ k_hash <$> ks -> DeserializeBlockTransactions (vtx blk) = Ok (k_txs k) -> extends SHA3_256 m k m' spent ->
  connect n (k_addr k) blk skip = Some (r, n') ->
  tip_frame SHA3_256 n n' /\ (if is_ok r then agrees n' (k :: ks) m' else agrees n' ks m).
Proof.
  intros [(u & Hu & HL & HS) HF HN] Hk Hni Htx [Hfit Hled] HC.
  pose proof Hk as (Hid & _ & _ & Hne & _ & Hh & Hht).
  destruct (deref n (k_addr k)) as [b|] eqn:Eb; [|done]. injection Hid as E1 E2 E3.
  destruct (ConnectTip_frame SHA3_256 dilithium_verify seedPubkeys connect_callbacks n (k_addr k) blk skip r n' b Eb HC)
    as [HT HU]. split; [done|]. rewrite Hu in HU.
  destruct (ApplyBlock_ok SHA3_256 u m blk (k_txs k) (k_height k) (k_hash k) m' spent HD HL Htx Hne Hfit Hht Hh Hled)
    as (u' & d' & A1 & A2 & A3 & A4 & A5 & A6 & A7 & A8).
  rewrite E1, E2, A1 in HU. apply tip_frame_same in HT.
  assert (Forall (described n') ks) as HF' by (by eapply described_all).
  destruct r as [[]|e]; cbn [is_ok].
  - destruct HU as [_ HU]. split; [|constructor; [by eapply described_same|done]|by rewrite fmap_cons; constructor].
    exists u'. split_and!; [done..|]. econstructor; [|by split|].
    + eapply stacked_frame; [|exact HS]. intros k' Hk' v Hv. rewrite A4. cbn [mbind option_bind]. rewrite A8.
      * destruct (db u); [done|discriminate Hv].
      * rewrite Forall_forall in HF. by apply HF in Hk' as (_ & _ & _ & _ & _ & ? & _).
      * intros E. apply Hni. rewrite <- E. by apply list_elem_of_fmap_2.
    + split_and!; [|done|done]. by rewrite A4.
  - split; [|done|done]. exists u. split_and!; [|done|done]. destruct e; [done..|]. by destruct HU.
Qed.

(** Disconnecting the newest block always succeeds and pops it. *)
Lemma disconnect_agrees n k ks m' r n' : agrees n (k :: ks) m' -> disconnect n (k_addr k) = Some (r, n') ->
  tip_frame SHA3_256 n n' /\ is_ok r = true /\ exists m spent, agrees n' ks m /\ extends SHA3_256 m k m' spent.
Proof.
  intros [(u & Hu & HL & HS) HF HN] HC. apply Forall_cons in HF as [Hk HF]. rewrite fmap_cons in HN.
  apply NoDup_cons in HN as [Hni HN]. pose proof Hk as (Hid & Hrd & Htx & Hne & Hcs & Hh & Hht).
  destruct (deref n (k_addr k)) as [b|] eqn:Eb; [|done]. injection Hid as E1 E2 E3.
  destruct (DisconnectTip_frame SHA3_256 randomx_hash_fast system_clock disconnect_callbacks n (k_addr k) r n' b Eb HC)
    as [HT HU]. split; [done|]. rewrite E1, Hrd, Hu in HU.
  inversion HS as [|k0 ks0 m m0 spent HS' [Hfit Hled] (HU1 & HU2 & HU3)]; subst.
  destruct (so_open _ (ls_ok _ _ HL)) as [d Ed]. rewrite Ed in HU1. cbn [mbind option_bind] in HU1.
  destruct (UndoBlock_ok SHA3_256 randomx_hash_fast SHA3_len u d m m' spent (k_block k) (k_txs k) (k_height k) (k_hash k)
    HD HL Ed HU1 HU2 HU3 Htx Hne Hfit Hcs Hh Hled) as (u' & d' & A1 & A2 & _ & A3 & _ & A4).
  rewrite A1 in HU. destruct HU as [HU Hr]. split; [done|]. exists m, spent. split; [|by split].
  apply tip_frame_same in HT. split; [|by eapply described_all|done]. exists u'. split_and!; [done..|].
  eapply stacked_frame; [|exact HS']. intros k' Hk' v Hv. rewrite A3. cbn [mbind option_bind]. rewrite A4.
  - by rewrite Ed in Hv.
  - rewrite Forall_forall in HF. by apply HF in Hk' as (_ & _ & _ & _ & _ & ? & _).
  - intros E. apply Hni. rewrite <- E. by apply list_elem_of_fmap_2.
Qed.

Lemma log_same n f : same_store n (log n f) /\ n_utxo (log n f) = n_utxo n /\ tip (log n f) = tip n.
Proof. unfold log, with_wal. destruct (n_wal n) as [w|]; [|done]. by destruct (f w). Qed.

Lemma log_agrees n f ks m : agrees n ks m -> agrees (log n f) ks m.
Proof. destruct (log_same n f) as (H1 & H2 & _). by apply agrees_same. Qed.

(** Where a step leaves the tree, the blocks and the tip. *)
Definition keeps n n' : Prop := same_store n n' /\ tip n' = tip n.
Lemma keeps_refl n : keeps n n.
Proof. by split. Qed.
Lemma keeps_trans n1 n2 n3 : keeps n1 n2 -> keeps n2 n3 -> keeps n1 n3.
Proof. intros [A1 A2] [B1 B2]. split; [by eapply same_store_trans|congruence]. Qed.
Lemma keeps_frame n n' : tip_frame SHA3_256 n n' -> keeps n n'.
Proof. intros H. split; [by apply tip_frame_same|apply H]. Qed.
Lemma keeps_log n f : keeps n (log n f).
Proof. by destruct (log_same n f) as (H1 & _ & H2). Qed.

Lemma disconnect_all_agrees ks : forall n base m ok n', agrees n (ks ++ base) m ->
  disconnect_all SHA3_256 randomx_hash_fast system_clock disconnect_callbacks n (k_addr <$> ks) = Some (ok, n') ->
  keeps n n' /\ ok = true /\ exists m0, agrees n' base m0 /\ accepts m0 (rev ks) m.
Proof.
  induction ks as [|k ks IH]; intros n base m ok n' HA; cbn [fmap list_fmap disconnect_all app rev].
  { intros [= <- <-]. split_and!; [apply keeps_refl|done|]. exists m. by split; [|constructor]. }
  destruct (disconnect n (k_addr k)) as [[r n1]|] eqn:E; [|done]. cbn [mbind option_bind].
  destruct (disconnect_agrees n k (ks ++ base) m r n1 HA E) as (HT & Hr & m1 & spent & HA1 & HE). rewrite Hr.
  intros H. destruct (IH n1 base m1 ok n' HA1 H) as (HK & Hok & m0 & HA0 & Hacc).
  split_and!; [eapply keeps_trans; [by apply keeps_frame|done]|done|]. exists m0. split; [done|]. apply accepts_app.
  exists m1. split; [done|]. econstructor; [done|constructor].
Qed.

Lemma reconnect_all_agrees ks : forall n base m m' ok n', agrees n base m -> Forall (described n) ks ->
  NoDup (k_hash <$> ks ++ base) -> accepts m ks m' ->
  reconnect_all SHA3_256 dilithium_verify seedPubkeys connect_callbacks n (k_addr <$> ks) = Some (ok, n') ->
  keeps n n' /\ (ok = true -> agrees n' (rev ks ++ base) m').
Proof.
  induction ks as [|k ks IH]; intros n base m m' ok n' HA HF HN Hacc; cbn [fmap list_fmap reconnect_all app rev].
  { intros [= <- <-]. inversion Hacc; subst. by split; [apply keeps_refl|]. }
  apply Forall_cons in HF as [Hk HF]. cbn [app] in HN. rewrite fmap_cons in HN. apply NoDup_cons in HN as [Hni HN].
  inversion Hacc as [|? ? m1 spent ? ? HE Hacc']; subst. pose proof Hk as (Hid & Hrd & Htx & _).
  unfold node_hash. destruct (deref n (k_addr k)) as [b|] eqn:Eb; [|done]. injection Hid as E1 _ _.
  cbn [fmap option_fmap option_map mbind option_bind]. rewrite E1, Hrd.
  destruct (connect n (k_addr k) (k_block k) true) as [[r n1]|] eqn:E; [|done]. cbn [mbind option_bind].
  assert (k_hash k ∉ k_hash <$> base) as Hnb. { intros Hx. apply Hni. rewrite fmap_app. apply elem_of_app. by right. }
  destruct (connect_agrees n base m k (k_block k) true r n1 m1 spent HA Hk Hnb Htx HE E) as [HT HA1].
  destruct (is_ok r).
  - intros H. destruct (IH n1 (k :: base) m1 m' ok n' HA1) as [HK HA2]; [|  |done|done|].
    + eapply described_all; [|done]. by apply tip_frame_same.
    + rewrite fmap_app, fmap_cons, NoDup_app, NoDup_cons in *. destruct HN as (N1 & N2 & N3).
      split_and!; [done| |done|done]. intros h Hh [->|Hx]%elem_of_cons; [|by eapply N2].
      apply Hni. apply elem_of_app. by left.
    + split; [eapply keeps_trans; [by apply keeps_frame|done]|]. intros Hok. rewrite <- app_assoc. by apply HA2.
  - intros [= <- <-]. split; [by apply keeps_frame|done].
Qed.

Lemma rollback_agrees n conn disc base m m0 mold a n' : agrees n (conn ++ base) m -> Forall (described n) disc ->
  NoDup (k_hash <$> disc ++ base) -> accepts m0 disc mold ->
  (forall u m1, stacked SHA3_256 (D := D) u base m1 -> m1 = m0) ->
  rollback SHA3_256 randomx_hash_fast dilithium_verify seedPubkeys system_clock connect_callbacks disconnect_callbacks n
    (k_addr <$> conn) (k_addr <$> disc) = Some (a, n') ->
  keeps n n' /\ (a = RolledBack /\ agrees n' (rev disc ++ base) mold \/ a = RollbackFailed).
Proof.
  intros HA HF HN Hacc Hm0. unfold rollback.
  destruct (disconnect_all _ _ _ _ n _) as [[ok n1]|] eqn:E1; [|done]. cbn [mbind option_bind].
  destruct (disconnect_all_agrees conn n base m ok n1 HA E1) as (K1 & -> & m1 & HA1 & _).
  assert (m1 = m0) as ->. { destruct HA1 as [(u & _ & _ & HS) _ _]. by eapply Hm0. }
  destruct (reconnect_all _ _ _ _ n1 _) as [[ok n2]|] eqn:E2; [|done]. cbn [mbind option_bind]. intros [= <- <-].
  destruct (reconnect_all_agrees disc n1 base m0 mold ok n2 HA1) as [K2 HA2]; [|done|done|done|].
  { eapply described_all; [apply K1|done]. }
  split; [eapply keeps_trans; [exact K1|eapply keeps_trans; [exact K2|apply keeps_log]]|].
  destruct ok; [left; split; [done|]|by right]. by apply log_agrees, HA2.
Qed.

Lemma disconnect_loop_agrees ks : forall n base stack m mold r n', agrees n (ks ++ base) m -> accepts m stack mold ->
  disconnect_loop SHA3_256 randomx_hash_fast dilithium_verify seedPubkeys system_clock connect_callbacks disconnect_callbacks n
    (k_addr <$> stack) (k_addr <$> ks) = Some (r, n') ->
  keeps n n' /\ r = Ok (k_addr <$> rev ks ++ stack) /\ exists m0, agrees n' base m0 /\ accepts m0 (rev ks ++ stack) mold.
Proof.
  induction ks as [|k ks IH]; intros n base stack m mold r n' HA Hacc; cbn [fmap list_fmap disconnect_loop app rev].
  { intros [= <- <-]. split_and!; [apply keeps_refl|done|]. by exists m. }
  destruct (disconnect n (k_addr k)) as [[r1 n1]|] eqn:E; [|done]. cbn [mbind option_bind].
  destruct (disconnect_agrees n k (ks ++ base) m r1 n1 HA E) as (HT & Hr & m1 & spent & HA1 & HE). rewrite Hr.
  set (n2 := log n1 _). intros H.
  destruct (IH n2 base (k :: stack) m1 mold r n') as (HK & Hres & m0 & HA0 & Hacc0); [by apply log_agrees| |done|].
  { by econstructor. }
  rewrite <- app_assoc. split_and!; [|done|by exists m0].
  eapply keeps_trans; [by apply keeps_frame|]. eapply keeps_trans; [apply keeps_log|done].
Qed.

Lemma fail_children_keeps l : forall n n', fail_children SHA3_256 n l = Some n' -> keeps n n' /\ n_utxo n' = n_utxo n.
Proof.
  induction l as [|p l IH]; intros n n'; cbn [fail_children]; [intros [= <-]; split; [apply keeps_refl|done]|].
  destruct (deref n p) as [b|]; [|done]. cbn [mbind option_bind]. destruct (negb _); [apply IH|].
  destruct (update_index n p _) as [n1|] eqn:E1; [|done]. cbn [mbind option_bind].
  destruct (write_index SHA3_256 n1 p) as [n2|] eqn:E2; [|done]. cbn [mbind option_bind]. intros H.
  apply (update_index_tip_frame SHA3_256) in E1 as [F1 U1]; [|done]. apply write_index_tip_frame in E2 as [F2 U2].
  apply IH in H as [K3 U3]. split; [|congruence].
  eapply keeps_trans; [by apply keeps_frame|]. eapply keeps_trans; [by apply keeps_frame|done].
Qed.

Lemma connect_loop_agrees pindexNew block disc base m0 mold ks : forall n stack m mnew r n',
  agrees n (stack ++ base) m -> Forall (described n) ks -> NoDup (k_hash <$> rev ks ++ stack ++ base) ->
  (forall k, k ∈ ks -> k_addr k = pindexNew -> DeserializeBlockTransactions (vtx block) = Ok (k_txs k)) ->
  accepts m ks mnew -> Forall (described n) disc -> NoDup (k_hash <$> disc ++ base) -> accepts m0 disc mold ->
  (forall u m1, stacked SHA3_256 (D := D) u base m1 -> m1 = m0) ->
  connect_loop SHA3_256 randomx_hash_fast dilithium_verify seedPubkeys system_clock connect_callbacks disconnect_callbacks n
    pindexNew block (k_addr <$> disc) (k_addr <$> stack) (k_addr <$> ks) = Some (r, n') ->
  keeps n n' /\
  match r with
  | Ok _ => agrees n' (rev ks ++ stack ++ base) mnew
  | Err a => a = RolledBack /\ agrees n' (rev disc ++ base) mold \/ a = RollbackFailed
  end.
Proof.
  induction ks as [|k ks IH]; intros n stack m mnew r n' HA HF HN Hblk Hacc HFd HNd Haccd Hm0; cbn [fmap list_fmap connect_loop].
  { intros [= <- <-]. inversion Hacc; subst. by split; [apply keeps_refl|]. }
  apply Forall_cons in HF as [Hk HF]. inversion Hacc as [|? ? m1 spent ? ? HE Hacc']; subst.
  pose proof Hk as (Hid & Hrd & Htx & _). unfold node_hash.
  destruct (deref n (k_addr k)) as [b|] eqn:Eb; [|done]. injection Hid as E1 _ _.
  cbn [fmap option_fmap option_map mbind option_bind]. rewrite E1, Hrd.
  set (blk := if bool_decide (k_addr k = pindexNew) then block else k_block k).
  assert ((if bool_decide (k_addr k = pindexNew) then Some block else Some (k_block k)) = Some blk) as ->.
  { unfold blk. by destruct (bool_decide _). }
  assert (DeserializeBlockTransactions (vtx blk) = Ok (k_txs k)) as Hbt.
  { unfold blk. destruct (bool_decide_reflect (k_addr k = pindexNew)); [|done]. apply Hblk; [by left|done]. }
  destruct (connect n (k_addr k) blk true) as [[r1 n1]|] eqn:E; [|done]. cbn [mbind option_bind].
  cbn [rev] in HN. rewrite <- app_assoc in HN. cbn [app] in HN. rewrite fmap_app, fmap_cons in HN.
  assert (k_hash k ∉ k_hash <$> stack ++ base) as Hni by (apply NoDup_app in HN as (_ & _ & HN); by apply NoDup_cons in HN as [? _]).
  destruct (connect_agrees n (stack ++ base) m k blk true r1 n1 m1 spent HA Hk Hni Hbt HE E) as [HT HA1].
  pose proof (tip_frame_same _ _ _ HT) as HSS. destruct (is_ok r1).
  - set (n2 := log n1 _). intros H. assert (same_store n n2) as HS2.
    { eapply same_store_trans; [exact HSS|apply log_same]. }
    destruct (IH n2 (k :: stack) m1 mnew r n') as [HK HR]; try done.
    + by apply log_agrees.
    + by eapply described_all.
    + cbn [app]. by rewrite fmap_app, fmap_cons.
    + intros k' Hk'. apply Hblk. by right.
    + by eapply described_all.
    + split; [eapply keeps_trans; [by apply keeps_frame|eapply keeps_trans; [apply keeps_log|done]]|].
      cbn [rev]. rewrite <- app_assoc. done.
  - destruct (fail_children SHA3_256 n1 _) as [n2|] eqn:E2; [|done]. cbn [mbind option_bind].
    apply fail_children_keeps in E2 as [K2 U2].
    destruct (rollback _ _ _ _ _ _ _ n2 _ _) as [[a n3]|] eqn:E3; [|done]. cbn [mbind option_bind]. intros [= <- <-].
    assert (keeps n n2) as K12 by (eapply keeps_trans; [by apply keeps_frame|done]).
    destruct (rollback_agrees n2 stack disc base m m0 mold a n3) as [K3 HR]; try done.
    + eapply agrees_same; [apply K2|done|done].
    + eapply described_all; [apply K12|done].
    + split; [by eapply keeps_trans|done].
Qed.

Lemma set_tip_spec n p n' : set_tip n p = Some n' -> same_store n n' /\ n_utxo n' = n_utxo n /\ tip n' = Some p.
Proof. unfold set_tip. destruct (deref n p); [|done]. cbn. by intros [= <-]. Qed.

Lemma write_best_spec n p ok n' : write_best n p = Some (ok, n') -> keeps n n' /\ n_utxo n' = n_utxo n.
Proof.
  unfold write_best. destruct (node_hash n p) as [h|]; [|done]. cbn [mbind option_bind].
  destruct (n_pdb n) as [db|] eqn:Ed; [|intros [= <- <-]; split; [apply keeps_refl|done]].
  destruct (WriteBestBlock db h) as [ok' db'] eqn:Ew. intros [= <- <-]. split; [|done]. split; [|done]. split; [done|].
  intros h' Hh'. unfold read_block. cbn [n_pdb set_pdb mbind option_bind]. rewrite Ed. cbn [mbind option_bind].
  unfold WriteBestBlock in Ew. destruct (negb _); [by injection Ew as _ <-|].
  assert (db' = snd (put_batch db [Put best_key (GetHex h)])) as -> by (by rewrite Ew).
  apply put_other_read_block; [|done]. intros k. apply block_key_not_best.
Qed.

Lemma notify_keeps n p : keeps n (NotifyTipUpdate n p).
Proof. by split. Qed.

Lemma persist_agrees n p n' ks m : agrees n ks m -> persist_tip n p = Some n' ->
  same_store n n' /\ agrees n' ks m /\ tip n' = Some p.
Proof.
  intros HA. unfold persist_tip. destruct (set_tip n p) as [n1|] eqn:E1; [|done]. cbn [mbind option_bind].
  destruct (write_best n1 p) as [[ok n2]|] eqn:E2; [|done]. cbn [mbind option_bind]. intros [= <-].
  apply set_tip_spec in E1 as (S1 & U1 & T1). apply write_best_spec in E2 as ([S2 T2] & U2).
  split_and!; [by eapply same_store_trans| |congruence].
  eapply agrees_same; [|exact U2|]; [done|]. by eapply agrees_same.
Qed.

(** The whole reorganisation: either the new branch, or the old chain, or a
    rollback that failed. *)
Lemma perform_reorg_agrees n fork pold pindexNew block old new base m0 mold mnew a n' :
  agrees n (old ++ base) mold -> Forall (described n) new -> NoDup (k_hash <$> rev new ++ base) ->
  (forall k, k ∈ new -> k_addr k = pindexNew -> DeserializeBlockTransactions (vtx block) = Ok (k_txs k)) ->
  (forall u m1, stacked SHA3_256 (D := D) u base m1 -> m1 = m0) -> accepts m0 new mnew ->
  perform_reorg SHA3_256 randomx_hash_fast dilithium_verify seedPubkeys system_clock connect_callbacks disconnect_callbacks n
    fork pold pindexNew block (k_addr <$> old) (k_addr <$> new) = Some (a, n') ->
  same_store n n' /\
  match a with
  | Reorganised => agrees n' (rev new ++ base) mnew /\ tip n' = Some pindexNew
  | RollbackFailed => tip n' = tip n
  | FirstConnected | Extended | Replaced | ReplacementLost => False
  | _ => agrees n' (old ++ base) mold /\ tip n' = tip n
  end.
Proof.
  intros HA HF HN Hblk Hm0 Hacc. unfold perform_reorg.
  assert (same_store n n /\ agrees n (old ++ base) mold /\ tip n = tip n) as Hstay by (split_and!; [apply same_store_refl|done..]).
  destruct (any_invalid n _) as [[]|]; cbn [mbind option_bind]; [intros [= <- <-]; done| |done].
  destruct (_ && _); [intros [= <- <-]; done|].
  destruct (all_readable SHA3_256 n (k_addr <$> old)) as [[]|]; cbn [mbind option_bind negb]; [|intros [= <- <-]; done|done].
  unfold abort_unless. destruct (_ || _); [|done].
  destruct (all_readable SHA3_256 n _) as [[]|]; cbn [mbind option_bind negb]; [|intros [= <- <-]; done|done].
  destruct (node_hash n fork) as [forkHash|]; [|done]. destruct (node_hash n pold) as [oldHash|]; [|done].
  destruct (node_hash n pindexNew) as [newHash|]; [|done]. destruct (mapM (node_hash n) (k_addr <$> old)) as [dh|]; [|done].
  destruct (mapM (node_hash n) (k_addr <$> new)) as [ch|]; [|done]. cbn [mbind option_bind].
  set (f := fun w => BeginReorg SHA3_256 w forkHash oldHash newHash dh ch).
  destruct (with_wal n f) as [ok3 n1] eqn:Ew. assert (n1 = log n f) as -> by (unfold log; by rewrite Ew).
  destruct ok3; cbn [negb].
  2: { intros [= <- <-]. split; [apply log_same|]. split; [by apply log_agrees|apply log_same]. }
  set (n2 := log (log n f) _). assert (keeps n n2) as K2 by (eapply keeps_trans; apply keeps_log).
  assert (agrees n2 (old ++ base) mold) as HA2 by (by apply log_agrees, log_agrees).
  destruct (disconnect_loop _ _ _ _ _ _ _ n2 [] _) as [[r n3]|] eqn:E3; [|done]. cbn [mbind option_bind].
  destruct (disconnect_loop_agrees old n2 base [] mold mold r n3 HA2 (acc_nil _ _) E3) as (K3 & -> & m0' & HA3 & Hacc3).
  rewrite app_nil_r in *. assert (m0' = m0) as ->. { destruct HA3 as [(u & _ & _ & HS) _ _]. by eapply Hm0. }
  set (n4 := log n3 _). assert (keeps n n4) as K4.
  { eapply keeps_trans; [exact K2|]. eapply keeps_trans; [exact K3|apply keeps_log]. }
  destruct (connect_loop _ _ _ _ _ _ _ n4 _ _ _ _ _) as [[r n5]|] eqn:E5; [|done]. cbn [mbind option_bind].
  destruct (connect_loop_agrees pindexNew block (rev old) base m0 mold new n4 [] m0 mnew r n5) as [K5 HR]; try done.
  - by apply log_agrees.
  - eapply described_all; [apply K4|done].
  - eapply described_all; [apply K4|]. apply Forall_rev. destruct HA as [_ HFd _]. by apply Forall_app in HFd as [? _].
  - destruct HA as [_ _ HNd]. eapply NoDup_Permutation_proper; [|exact HNd]. apply fmap_Permutation.
    by rewrite <- Permutation_rev.
  - assert (same_store n n5) as S5 by (eapply same_store_trans; [apply K4|apply K5]).
    assert (tip n5 = tip n) as T5 by (destruct K4 as [_ E4], K5 as [_ E6]; congruence).
    destruct r as [[]|a'].
    + destruct (persist_tip n5 pindexNew) as [n6|] eqn:E6; [|done]. cbn [mbind option_bind]. intros [= <- <-].
      destruct (persist_agrees n5 pindexNew n6 _ _ HR E6) as (S6 & HA6 & T6).
      assert (keeps n6 (NotifyTipUpdate (log n6 CompleteReorg) pindexNew)) as [S7 T7]
        by (eapply keeps_trans; [apply keeps_log|apply notify_keeps]).
      split; [|split; [|congruence]].
      * eapply same_store_trans; [exact S5|]. by eapply same_store_trans.
      * eapply agrees_same; [exact S7|apply log_same|done].
    + intros [= <- <-]. destruct HR as [[-> HR]| ->]; [|done]. rewrite rev_involutive in HR. done.
Qed.

Lemma path_down_spec n ks : forall fuel p fork l, Forall (described n) ks -> linked ks -> k_addr <$> head ks = Some p ->
  path_down fuel (arena (n_chain n)) p fork = Some (Some l) ->
  exists ks1 k ks2, ks = ks1 ++ k :: ks2 /\ k_addr k = fork /\ l = k_addr <$> ks1.
Proof.
  induction ks as [|k ks IH]; intros fuel p fork l HF HL Hp; [done|]. apply Forall_cons in HF as [Hk HF].
  destruct HL as [E HL]. cbn in Hp. injection Hp as <-. destruct fuel as [|fuel]; cbn [path_down].
  - destruct (bool_decide_reflect (k_addr k = fork)) as [<-|]; [|done]. intros [= <-]. by exists [], k, ks.
  - destruct (bool_decide_reflect (k_addr k = fork)) as [<-|]; [intros [= <-]; by exists [], k, ks|].
    destruct Hk as (Hid & _). unfold deref in Hid. destruct (arena (n_chain n) !! k_addr k) as [b|]; [|done].
    cbn [mbind option_bind]. injection Hid as _ _ Hpv. rewrite Hpv, E. destruct ks as [|k2 ks]; [done|].
    cbn [head fmap option_fmap option_map]. destruct (path_down fuel _ _ fork) as [[l2|]|] eqn:E2; [|done|done].
    cbn. intros [= <-]. destruct (IH fuel (k_addr k2) fork l2 HF HL eq_refl E2) as (ks1 & kf & ks2 & -> & <- & ->).
    by exists (k :: ks1), kf, ks2.
Qed.

Lemma linked_suffix ks1 k ks2 : linked (ks1 ++ k :: ks2) -> linked (k :: ks2).
Proof. induction ks1 as [|k1 ks1 IH]; [done|]. cbn [app linked]. intros [_ H]. by apply IH. Qed.

(** Two linked chains that reach a common block share everything below it. *)
Lemma common_suffix n c1 k1 r1 c2 k2 r2 : Forall (described n) (c1 ++ k1 :: r1) -> Forall (described n) (c2 ++ k2 :: r2) ->
  linked (c1 ++ k1 :: r1) -> linked (c2 ++ k2 :: r2) -> k_addr k1 = k_addr k2 -> k1 :: r1 = k2 :: r2.
Proof.
  intros F1 F2 L1 L2 E. apply Forall_app in F1 as [_ F1], F2 as [_ F2]. apply linked_suffix in L1, L2.
  apply (linked_unique SHA3_256 n); try done. cbn. by rewrite E.
Qed.

(** What every outcome must leave. *)
Definition sound_outcome n (chain branch : list Blk) (m mnew : utxo_map) (p : addr) (a : Activation) n' : Prop :=
  match a with
  | FirstConnected | Extended | Replaced | Reorganised => agrees n' branch mnew /\ tip n' = Some p
  | ReplacementLost => m_chain_needs_rebuild (n_chain n') = true
  | RollbackFailed => tip n' = tip n
  | _ => agrees n' chain m /\ tip n' = tip n
  end.

Section Outcome.
  Context (chain branch : list Blk) (m mnew : utxo_map) (p : addr) (block : CBlock).
  Hypothesis Hchain : linked chain.
  Hypothesis Hbranch : linked branch.
  Hypothesis Hp : k_addr <$> head branch = Some p.
  Hypothesis Hhashes : NoDup (k_hash <$> branch).
  Hypothesis Hacc : accepts ∅ (rev branch) mnew.
  Hypothesis Hblk : forall k, head branch = Some k -> DeserializeBlockTransactions (vtx block) = Ok (k_txs k).

Lemma head_block n k : Forall (described n) branch -> described n k -> k_addr k = p ->
  DeserializeBlockTransactions (vtx block) = Ok (k_txs k).
Proof.
  intros HF Hk E. destruct branch as [|k0 br] eqn:Eb; [done|]. cbn in Hp. injection Hp as E0.
  apply Forall_cons in HF as [Hk0 _]. assert (k = k0) as ->. { eapply described_fun; [exact Hk|exact Hk0|congruence]. }
  by apply Hblk.
Qed.

Lemma reorganise_sound n pold btip bnew a n' : agrees n chain m -> Forall (described n) branch -> tip n = Some pold ->
  k_addr <$> head chain = Some pold ->
  reorganise SHA3_256 randomx_hash_fast dilithium_verify seedPubkeys system_clock connect_callbacks disconnect_callbacks n
    pold btip p bnew block = Some (a, n') ->
  sound_outcome n chain branch m mnew p a n'.
Proof.
  intros HA HF HT Hh. unfold reorganise.
  destruct (FindFork _ _ _) as [[fork|]|]; cbn [mbind option_bind]; [|intros [= <- <-]; done|done].
  destruct (deref n fork) as [bf|]; [|done]. cbn [mbind option_bind].
  destruct (_ <? 0); [intros [= <- <-]; done|]. destruct (_ >? MAX_REORG_DEPTH); [intros [= <- <-]; done|].
  destruct (match params n with Some _ => _ | None => _ end); [intros [= <- <-]; done|].
  destruct (path_down _ _ pold fork) as [[d|]|] eqn:Ed; cbn [mbind option_bind]; [| |done];
    (destruct (path_down _ _ p fork) as [[c|]|] eqn:Ec; cbn [mbind option_bind]; [| |done]);
    try (intros [= <- <-]; done).
  destruct (path_down_spec n chain _ pold fork d (ag_desc _ _ _ _ HA) Hchain Hh Ed) as (d1 & kd & base & Echain & Ekd & ->).
  destruct (path_down_spec n branch _ p fork c HF Hbranch Hp Ec) as (c1 & kc & base' & Ebranch & Ekc & ->).
  assert (kd :: base = kc :: base') as E.
  { eapply (common_suffix n d1 kd base c1 kc base'); [..|congruence]; rewrite <- ?Echain, <- ?Ebranch; try done. apply HA. }
  injection E as <- <-. set (b := kd :: base) in *. intros H.
  assert (rev (k_addr <$> c1) = k_addr <$> rev c1) as Hrev by (symmetry; apply map_rev). rewrite Hrev in H.
  pose proof Hacc as Hacc2. rewrite Ebranch, rev_app_distr in Hacc2. apply accepts_app in Hacc2 as (m0 & Hm0 & Hacc2).
  destruct (perform_reorg_agrees n fork pold p block d1 (rev c1) b m0 m mnew a n') as [_ HR]; try done.
  - by rewrite <- Echain.
  - apply Forall_rev. rewrite Ebranch in HF. by apply Forall_app in HF as [? _].
  - rewrite rev_involutive, <- Ebranch. done.
  - intros k Hk. apply (head_block n); [done|]. rewrite Ebranch in HF. apply Forall_app in HF as [HF _].
    rewrite Forall_forall in HF. apply HF, list_elem_of_In, in_rev. by apply list_elem_of_In.
  - intros u m1 HS. apply stacked_accepts in HS. by eapply accepts_fun.
  - rewrite rev_involutive, <- Ebranch, <- Echain in HR. by destruct a.
Qed.

(** Steps on the clocks and the tracker. *)
Lemma elapsed_keeps n e n' : elapsed steady_clock n = (e, n') -> keeps n n' /\ n_utxo n' = n_utxo n.
Proof. by intros [= <- <-]. Qed.

Lemma preflight_keeps n bn bt blk ok n' : preflight SHA3_256 n bn bt blk = Some (ok, n') -> keeps n n' /\ n_utxo n' = n_utxo n.
Proof.
  unfold preflight. destruct (n_cooldown n); [|by intros [= <- <-]].
  destruct (CheckVDFReplacementPreflight _ _ _ _ _ _ _ _ _) as [[r t]|]; [|done]. cbn. by intros [= <- <-].
Qed.

Lemma ShouldReplace_keeps n bn bt blk ok n' : ShouldReplaceVDFTip SHA3_256 steady_clock n bn bt blk = Some (ok, n') ->
  keeps n n' /\ n_utxo n' = n_utxo n /\
  (ok = true -> nHeight bn = nHeight bt /\ pprev bn = pprev bt).
Proof.
  unfold ShouldReplaceVDFTip. destruct (params n) as [cp|]; [|by intros [= <- <-]].
  destruct (_ || _) eqn:Eg; [by intros [= <- <-]|]. destruct (elapsed steady_clock n) as [e n1] eqn:Ee.
  apply elapsed_keeps in Ee as [K1 U1]. destruct (e >? _); [intros [= <- <-]; by split_and!|].
  intros H. apply preflight_keeps in H as [K2 U2]. split_and!; [by eapply keeps_trans|congruence|]. intros _.
  repeat (apply orb_false_iff in Eg as [Eg ?]). zprop. split; [done|].
  match goal with H : bool_decide (pprev bn <> pprev bt) = false |- _ => apply bool_decide_eq_false in H; by apply dec_stable in H end.
Qed.

Lemma tiebreak_keeps n bn bt blk ok n' : vdf_tiebreak SHA3_256 steady_clock n bn bt blk = Some (ok, n') ->
  keeps n n' /\ n_utxo n' = n_utxo n.
Proof.
  unfold vdf_tiebreak. destruct (params n) as [cp|]; [|by intros [= <- <-]].
  destruct (_ && _); [|by intros [= <- <-]].
  destruct (m_vdfTipAcceptHeight _ =? _); [|apply preflight_keeps].
  destruct (elapsed steady_clock n) as [e n1] eqn:Ee. apply elapsed_keeps in Ee as [K1 U1].
  destruct (negb _); [|by intros [= <- <-]]. intros H. apply preflight_keeps in H as [K2 U2].
  split; [by eapply keeps_trans|congruence].
Qed.

Lemma sound_transfer n n1 a n' : tip n1 = tip n ->
  sound_outcome n1 chain branch m mnew p a n' -> sound_outcome n chain branch m mnew p a n'.
Proof. intros E. unfold sound_outcome. rewrite E. by destruct a. Qed.

(** Connecting the branch's head on top of the rest of the branch. *)
Lemma connect_head n k rest m1 skip r n' : branch = k :: rest -> agrees n rest m1 -> Forall (described n) branch ->
  connect n p block skip = Some (r, n') ->
  tip_frame SHA3_256 n n' /\ (if is_ok r then agrees n' branch mnew else agrees n' rest m1).
Proof.
  intros Eb HA HF HC. pose proof Hp as Hp'. pose proof Hhashes as HN. pose proof Hacc as Ha. rewrite Eb in *. cbn in Hp'.
  injection Hp' as <-. apply Forall_cons in HF as [Hk _]. rewrite fmap_cons in HN. apply NoDup_cons in HN as [Hni _].
  cbn [rev] in Ha. apply accepts_app in Ha as (m1' & H1 & H2).
  assert (m1' = m1) as ->. { destruct HA as [(u & _ & _ & HS) _ _]. apply stacked_accepts in HS. by eapply accepts_fun. }
  inversion H2 as [|? ? m2 spent ? ? HE H3]; subst. inversion H3; subst.
  eapply connect_agrees; try done. by apply Hblk.
Qed.

(** What is known of the branch's head in the index. *)
Lemma branch_head n bnew : Forall (described n) branch -> deref n p = Some bnew ->
  exists kb rest, branch = kb :: rest /\ k_addr kb = p /\ pprev bnew = k_addr <$> head rest /\ Forall (described n) rest /\ linked rest.
Proof.
  intros HF Hb. pose proof Hp as Hp'. pose proof Hbranch as HL. destruct branch as [|kb rest]; [done|]. exists kb, rest.
  cbn in Hp'. injection Hp' as <-. apply Forall_cons in HF as [(Hid & _) HF]. destruct HL as [E HL]. split_and!; try done.
  rewrite Hb in Hid. injection Hid as _ _ Hpv. congruence.
Qed.

Lemma first_sound n kb r n1 n2 : branch = [kb] -> agrees n [] m -> Forall (described n) branch ->
  connect n p block false = Some (r, n1) ->
  if is_ok r then persist_tip n1 p = Some n2 -> agrees n2 branch mnew /\ tip n2 = Some p
  else agrees n1 [] m /\ tip n1 = tip n.
Proof.
  intros Ebr HA HF E. destruct (connect_head n kb [] m false r n1 Ebr HA HF E) as [F1 HA1]. destruct (is_ok r).
  - intros E2. destruct (persist_agrees n1 p n2 _ _ HA1 E2) as (_ & ? & ?). by split.
  - split; [done|]. apply F1.
Qed.

Lemma extend_sound n kb bnew a n' : branch = kb :: chain -> agrees n chain m -> Forall (described n) branch ->
  ('(r, n) ← connect n p block false;
   if negb (is_ok r) then Some (ConnectRefused, n)
   else n ← set_tip n p;
        let n := match params n with
                 | Some cp => if (inVersion bnew >=? 4) && (nHeight bnew >=? vdfLotteryActivationHeight cp)
                              then anchor_grace steady_clock n (nHeight bnew) else n
                 | None => n
                 end in
        '(_, n) ← write_best n p; Some (Extended, NotifyTipUpdate n p)) = Some (a, n') ->
  sound_outcome n chain branch m mnew p a n'.
Proof.
  intros Ebr HA HF. destruct (connect n p block false) as [[r n1]|] eqn:E; [|done]. cbn [mbind option_bind].
  destruct (connect_head n kb chain m false r n1 Ebr HA HF E) as [F1 HA1]. destruct (is_ok r); cbn [negb].
  - destruct (set_tip n1 p) as [n2|] eqn:E2; [|done]. cbn [mbind option_bind]. apply set_tip_spec in E2 as (S2 & U2 & T2).
    set (n3 := match params n2 with Some _ => _ | None => _ end).
    assert (keeps n2 n3 /\ n_utxo n3 = n_utxo n2) as [K3 U3].
    { unfold n3. destruct (params n2); [|by split; [apply keeps_refl|]]. destruct (_ && _); by split. }
    destruct (write_best n3 p) as [[ok n4]|] eqn:E4; [|done]. cbn. intros [= <- <-].
    apply write_best_spec in E4 as [K4 U4]. assert (keeps n2 n4) as [S4 T4] by (by eapply keeps_trans).
    split; [|etrans; [exact T4|exact T2]].
    eapply (agrees_same _ n4); [apply notify_keeps|done|]. eapply (agrees_same _ n2); [done|congruence|].
    by eapply agrees_same.
  - intros [= <- <-]. split; [done|]. apply F1.
Qed.

Lemma replace_sound n kb kt base a n' : branch = kb :: base -> chain = kt :: base -> agrees n chain m ->
  Forall (described n) branch ->
  ('(r, n) ← disconnect n (k_addr kt);
   if negb (is_ok r) then Some (DisconnectRefused, n)
   else
     '(r, n) ← connect n p block false;
     if negb (is_ok r) then Some (ReplacementLost, set_chain n (FlagChainRebuild (n_chain n) ConnectTipFailure))
     else n ← persist_tip n p; Some (Replaced, NotifyTipUpdate n p)) = Some (a, n') ->
  sound_outcome n chain branch m mnew p a n'.
Proof.
  intros Ebr Ech HA HF. assert (agrees n (kt :: base) m) as HA1 by (by rewrite <- Ech).
  destruct (disconnect n (k_addr kt)) as [[r n2]|] eqn:E2; [|done]. cbn [mbind option_bind].
  destruct (disconnect_agrees n kt base m r n2 HA1 E2) as (F2 & Hr & m2 & spent & HA2 & _). rewrite Hr. cbn [negb].
  destruct (connect n2 p block false) as [[r2 n3]|] eqn:E3; [|done]. cbn [mbind option_bind].
  destruct (connect_head n2 kb base m2 false r2 n3 Ebr HA2 (described_all _ _ _ _ (tip_frame_same _ _ _ F2) HF) E3) as [F3 HA3].
  destruct (is_ok r2); cbn [negb]; [|by intros [= <- <-]].
  destruct (persist_tip n3 p) as [n4|] eqn:E4; [|done]. cbn. intros [= <- <-].
  destruct (persist_agrees n3 p n4 _ _ HA3 E4) as (_ & HA4 & T4). split; [|exact T4].
  eapply (agrees_same _ n4); [apply notify_keeps|done|done].
Qed.

Lemma legacy_sound n bnew a n' : (chain = [] -> tail branch = []) -> agrees n chain m -> Forall (described n) branch ->
  tip n = k_addr <$> head chain -> deref n p = Some bnew ->
  legacy_activate SHA3_256 randomx_hash_fast dilithium_verify seedPubkeys system_clock steady_clock connect_callbacks
    disconnect_callbacks n p bnew block = Some (a, n') ->
  sound_outcome n chain branch m mnew p a n'.
Proof.
  intros Hgen HA HF HT Hb. destruct (branch_head n bnew HF Hb) as (kb & rest & Ebr & Ekb & Hpv & HFr & HLr).
  unfold legacy_activate. rewrite HT.
  assert (chain = [] \/ exists kt base, chain = kt :: base) as [Ech|(kt & base & Ech)] by (destruct chain; eauto).
  - assert (rest = []) as -> by (specialize (Hgen Ech); by rewrite Ebr in Hgen). rewrite Ech at 1. cbn [head fmap option_fmap option_map].
    destruct (connect n p block false) as [[r n1]|] eqn:E; [|done]. cbn [mbind option_bind]. rewrite Ech in HA.
    assert (forall n2, _) as HFirst by (intros n2; exact (first_sound n kb r n1 n2 Ebr HA HF E)). destruct (is_ok r); cbn [negb].
    + destruct (persist_tip n1 p) as [n2|]; [|done]. cbn. intros [= <- <-]. by apply HFirst.
    + intros [= <- <-]. unfold sound_outcome. rewrite Ech. by apply HFirst.
  - rewrite Ech at 1. cbn [head fmap option_fmap option_map].
    destruct (deref n (k_addr kt)) as [bt|] eqn:Et; [|done]. cbn [mbind option_bind].
    assert (tip n = Some (k_addr kt) /\ k_addr <$> head chain = Some (k_addr kt)) as [HT' Hhead] by (by rewrite HT, Ech).
    destruct (bool_decide_reflect (pprev bnew = Some (k_addr kt))) as [Epv|Npv].
    + assert (rest = chain) as ->.
      { apply (linked_unique SHA3_256 n); try done; [apply HA|]. by rewrite <- Hpv, Epv, Ech. }
      destruct (negb _); [intros [= <- <-]; by split|]. by eapply extend_sound.
    + destruct (ShouldReplaceVDFTip _ _ n bnew bt block) as [[rep n1]|] eqn:E1; [|done]. cbn [mbind option_bind].
      apply ShouldReplace_keeps in E1 as (K1 & U1 & Hrep).
      assert (agrees n1 chain m /\ Forall (described n1) branch) as [HA1 HF1].
      { split; [eapply agrees_same|eapply described_all]; try apply K1; done. }
      destruct rep; [|destruct (ChainWorkGreaterThan _ _)]; intros H; apply (sound_transfer n n1); try apply K1.
      * destruct (Hrep eq_refl) as [_ Epp]. assert (rest = base) as ->; [|by eapply replace_sound].
        destruct HA as [_ HFc _]. pose proof Hchain as HLc. rewrite Ech in HFc, HLc. destruct HLc as [Ekt HLc].
        apply Forall_cons in HFc as [(Hid & _) HFb]. rewrite Et in Hid. injection Hid as _ _ Hpt.
        apply (linked_unique SHA3_256 n); try done. congruence.
      * eapply reorganise_sound; try done. by destruct K1 as [_ ->].
      * revert H. destruct (vdf_tiebreak _ _ n1 bnew bt block) as [[tb n2]|] eqn:E2; [|done]. cbn [mbind option_bind].
        apply tiebreak_keeps in E2 as [K2 U2].
        assert (agrees n2 chain m) as HA2 by (eapply agrees_same; [apply K2|done..]).
        destruct tb; [|intros [= <- <-]; split; [done|apply K2]].
        intros H. apply (sound_transfer n1 n2); [apply K2|]. eapply reorganise_sound; try done.
        -- eapply described_all; [apply K2|done].
        -- destruct K2 as [_ ->]. by destruct K1 as [_ ->].
Qed.

Lemma ActivateBestChain_sound n a n' : (chain = [] -> tail branch = []) -> agrees n chain m -> Forall (described n) branch ->
  tip n = k_addr <$> head chain ->
  ActivateBestChain SHA3_256 randomx_hash_fast dilithium_verify seedPubkeys system_clock steady_clock
    connect_callbacks disconnect_callbacks false n (Some p) block = Some (a, n') ->
  sound_outcome n chain branch m mnew p a n'.
Proof.
  intros Hfirst HA HB HT. unfold ActivateBestChain.
  destruct (deref n p) as [b|] eqn:Eb; [|done]. cbn [mbind option_bind].
  destruct (checkpoint_tiers n p b) as [refused|] eqn:Ec; [|done]. cbn [mbind option_bind]. destruct refused as [a'|].
  - intros [= <- <-]. unfold checkpoint_tiers in Ec. destruct (params n) as [cp|]; [|done].
    destruct (negb (CheckpointCheck _ _ _)); [by injection Ec as <-|].
    destruct (match highest_checkpoint _ with Some _ => _ | None => _ end) as [[]|]; cbn in Ec; [|by injection Ec as <-|done].
    destruct (_ || _); [|done]. destruct (ancestors_match _ _ _ _ _) as [[]|]; [done| |done]. by injection Ec as <-.
  - by apply legacy_sound.
Qed.
End Outcome.
End Moves.

(** C4: activating a block keeps the tip and the ledger together, on the default path and for a branch that is a
    ledger. The active chain is linked down to the first block, the UTXO set is its ledger and its undo records are
    kept; the new block's branch, also linked down to the first block, is described by the index and the block store,
    and its blocks applied in order to the empty ledger are accepted, each within the store's limits and with no
    missing or repeated input; no block of either chain spends an output created in the same block; the database
    accepts every write. When [ActivateBestChain] reports that the block was connected, the tip is that block and the
    UTXO set is the ledger of its branch, whichever way it got there: first block, extension, VDF replacement, or a
    reorganisation over any fork point. In every other outcome the tip and the ledger are those of the old chain, also
    when a reorganisation fails halfway and is rolled back; the exceptions are a failed replacement, after which a
    rebuild is requested, and a rollback that itself fails, after which only the tip is known to be the old one. *)
Theorem activation_keeps_ledger (D F X : Type) (LDB : LevelDB D) (WD : WalDisk F) (SHA3_256 randomx_hash_fast : list Z -> uint256)
    (SHA3_len : forall l, length (SHA3_256 l) = 32%nat) (HD : writes_succeed (D := D))
    (dilithium_verify : list Z -> list Z -> list Z -> Z) (seedPubkeys : list (list Z)) (system_clock steady_clock : nat -> Z)
    (connect_callbacks disconnect_callbacks : list (CBlock -> Z -> uint256 -> Observed D X -> Observed D X))
    (n n' : Node D F X) (chain branch : list Blk) (m mnew : utxo_map) (p : addr) (block : CBlock) (a : Activation)
    (HA : agrees SHA3_256 n chain m) (HT : tip n = k_addr <$> head chain) (HL : linked chain)
    (HB : Forall (described SHA3_256 n) branch) (HBL : linked branch) (Hp : k_addr <$> head branch = Some p)
    (HN : NoDup (k_hash <$> branch)) (Hacc : accepts SHA3_256 ∅ (rev branch) mnew)
    (Hblk : forall k, head branch = Some k -> DeserializeBlockTransactions (vtx block) = Ok (k_txs k))
    (Hfirst : chain = [] -> tail branch = [])
    (HC : ActivateBestChain SHA3_256 randomx_hash_fast dilithium_verify seedPubkeys system_clock steady_clock
            connect_callbacks disconnect_callbacks false n (Some p) block = Some (a, n')) :
  match a with
  | FirstConnected | Extended | Replaced | Reorganised => agrees SHA3_256 n' branch mnew /\ tip n' = Some p
  | ReplacementLost => m_chain_needs_rebuild (n_chain n') = true
  | RollbackFailed => tip n' = tip n
  | _ => agrees SHA3_256 n' chain m /\ tip n' = tip n
  end.
Proof.
  by eapply (ActivateBestChain_sound SHA3_256 SHA3_len HD) in HC.
Qed.

(** ** A reorganisation on a small tree *)

(** The tree 1 <- 2 <- 3 and 1 <- 4 <- 5 <- 6; every block has a coinbase only. *)
Definition toy_tx (i : Z) : CTransaction :=
  mkTx 1 [mkTxIn (mkOutPoint zero256 0xffffffff) [i; i] 0xffffffff] [mkTxOut (1000 + i) [81]] 0.
Definition toy_body (i : Z) : CBlock :=
  mkBlock (mkHeader 1 zero256 zero256 0 0 0 zero256 zero256 zero256 false) (SerializeBlockTransactions [toy_tx i]).
Definition toy_blk (i : Z) (prev : option addr) (height : Z) : Blk :=
  mkBlk (Z.to_pos i) (sample_hash i) height prev (toy_body i) [toy_tx i].
Definition k1 : Blk := toy_blk 1 None 0.
Definition k2 : Blk := toy_blk 2 (Some 1%positive) 1.
Definition k3 : Blk := toy_blk 3 (Some 2%positive) 2.
Definition k4 : Blk := toy_blk 4 (Some 1%positive) 1.
Definition k5 : Blk := toy_blk 5 (Some 4%positive) 2.
Definition k6 : Blk := toy_blk 6 (Some 5%positive) 3.

Definition reorg_tree : CChainState :=
  mkChainState
    (list_to_map ((fun '(k, w) => (k_addr k, sample_entry (Zpos (k_addr k)) (k_prev k) (k_height k) w)) <$>
       [(k1, 10); (k2, 20); (k3, 30); (k4, 20); (k5, 30); (k6, 40)]))
    ∅ None ∅ (-1) 0 false 0 zero256 false UndoFailure 0 (-1).

Abbreviation ToyNode := (Node (gmap (list Z) (list Z)) (option (list Z)) unit).

Definition reorg_store : CBlockchainDB (gmap (list Z) (list Z)) :=
  foldl (fun s k => snd (WriteBlock toy_sha3 s (k_hash k) (k_block k))) (mkBlockchainDB (Some ∅)) [k1; k2; k3; k4; k5; k6].
Definition toy_node0 : ToyNode :=
  mkNode reorg_tree (Some reorg_store) (Some empty_store) None (mkEnv None None None None None) None None
    (Some (mkWAL None false zero256 zero256 zero256 [] [] INITIALIZED 0 0)) tt 0 [].

Definition toy_activate (n : ToyNode) (k : Blk) : option (Activation * ToyNode) :=
  ActivateBestChain toy_sha3 toy_sha3 (fun _ _ _ => 0) [] (fun _ => 0) (fun _ => 0) [] [] false n (Some (k_addr k)) (k_block k).
Definition toy_next (n : ToyNode) (k : Blk) : ToyNode := match toy_activate n k with Some (_, n') => n' | None => n end.
Lemma toy_next_eq n k a : fst <$> toy_activate n k = Some a -> toy_activate n k = Some (a, toy_next n k).
Proof. unfold toy_next. destruct (toy_activate n k) as [[a' n']|]; [|done]. cbn. by intros [= ->]. Qed.
Definition toy_node1 : ToyNode := toy_next toy_node0 k1.
Definition toy_node2 : ToyNode := toy_next toy_node1 k3.

Definition toy_apply (m : utxo_map) (k : Blk) : utxo_map :=
  match ledger_txs toy_sha3 (k_height k) true (k_txs k) m with Ok (m', _) => m' | Err _ => m end.

Lemma toy_describedb (n : ToyNode) (k : Blk) (i : Z) : k_txs k = [toy_tx i] ->
  (bool_decide (identity_of <$> deref n (k_addr k) = Some (k_hash k, k_height k, k_prev k)) &&
   bool_decide (vtx <$> read_block toy_sha3 n (k_hash k) = Some (vtx (k_block k))) &&
   bool_decide (length (k_hash k) = 32%nat) && (0 <=? k_height k) && (k_height k <? 2 ^ 32)) = true ->
  read_block toy_sha3 n (k_hash k) = Some (k_block k) ->
  DeserializeBlockTransactions (vtx (k_block k)) = Ok (k_txs k) -> described toy_sha3 n k.
Proof.
  intros Ht Hb Hr Hd. repeat (apply andb_true_iff in Hb as [Hb ?]). repeat split; try done.
  - by apply bool_decide_eq_true in Hb.
  - by rewrite Ht.
  - rewrite Ht. intros k' Hk'. by inversion Hk'.
  - by match goal with H : bool_decide (length _ = _) = true |- _ => apply bool_decide_eq_true in H end.
  - zprop. lia.
  - zprop. lia.
Qed.

Lemma toy_extends (m : utxo_map) (k : Blk) (i : Z) : k_txs k = [toy_tx i] -> 0 <= i < 10 ->
  forallb op_okb (block_creates toy_sha3 [toy_tx i]) = true ->
  (Z.of_nat (size m) + 1 <? 2 ^ 64) && (utxo_total m + (1000 + i) <? 2 ^ 64) = true ->
  match ledger_txs toy_sha3 (k_height k) true (k_txs k) m with Ok (_, []) => true | _ => false end = true ->
  extends toy_sha3 m k (toy_apply m k) [].
Proof.
  intros Ht Hi Ho Hs HL. split; [|unfold toy_apply; by destruct (ledger_txs _ _ _ _ _) as [[m' [|]]|]]. rewrite Ht. apply andb_true_iff in Hs as [Hs1 Hs2]. zprop. split.
  - constructor.
  - constructor.
  - intros x Hx. by inversion Hx.
  - by apply op_okb_Forall.
  - apply Forall_singleton. split; [cbn; lia|split; [by apply bytes_okb_sound|vm_compute; congruence]].
  - cbn. unfold MAX_CACHE_SIZE, len. cbn. lia.
  - unfold len. cbn. lia.
  - unfold value_sum. cbn. lia.
Qed.

Ltac toy_described i := apply (toy_describedb _ _ i); vm_compute; reflexivity.
Ltac toy_fit i := apply (toy_extends _ _ i); [done|lia|vm_compute; reflexivity..].

Definition toy_m1 : utxo_map := toy_apply ∅ k1.
Definition toy_m2 : utxo_map := toy_apply (toy_apply toy_m1 k2) k3.
Definition toy_m3 : utxo_map := toy_apply (toy_apply (toy_apply toy_m1 k4) k5) k6.

Lemma toy_accepts :
  accepts toy_sha3 ∅ [k1] toy_m1 /\ accepts toy_sha3 ∅ [k1; k2; k3] toy_m2 /\ accepts toy_sha3 ∅ [k1; k4; k5; k6] toy_m3.
Proof.
  assert (extends toy_sha3 ∅ k1 toy_m1 []) as H1 by toy_fit 1.
  split_and!.
  - econstructor; [exact H1|constructor].
  - econstructor; [exact H1|]. econstructor; [toy_fit 2|]. econstructor; [toy_fit 3|constructor].
  - econstructor; [exact H1|]. econstructor; [toy_fit 4|]. econstructor; [toy_fit 5|]. econstructor; [toy_fit 6|constructor].
Qed.

Lemma toy_start : agrees toy_sha3 toy_node0 [] ∅.
Proof.
  split; [|constructor|constructor]. exists empty_store. split_and!; [done| |constructor].
  split; [apply empty_store_ok|split; reflexivity|apply empty_store_represents| |split; reflexivity].
  by intros ? ? ?%lookup_empty_Some.
Qed.

Lemma toy_runs :
  toy_activate toy_node0 k1 = Some (FirstConnected, toy_node1) /\
  toy_activate toy_node1 k3 = Some (Reorganised, toy_node2) /\
  toy_activate toy_node2 k6 = Some (Reorganised, toy_next toy_node2 k6).
Proof.
  split_and!; [apply (toy_next_eq toy_node0 k1)|apply (toy_next_eq toy_node1 k3)|apply (toy_next_eq toy_node2 k6)];
    vm_compute; reflexivity.
Qed.

Lemma toy_sha3_len l : length (toy_sha3 l) = 32%nat.
Proof. apply length_le_bytes. Qed.

(** The node follows 1, then 1 <- 2 <- 3. *)
Lemma toy_ledger1 : agrees toy_sha3 toy_node1 [k1] toy_m1 /\ tip toy_node1 = Some (k_addr k1).
Proof.
  destruct toy_accepts as (A1 & _ & _). destruct toy_runs as (C1 & _ & _).
  apply (ActivateBestChain_sound (WD := MemDisk) toy_sha3 toy_sha3_len MemDB_writes_succeed toy_sha3 (fun _ _ _ => 0) [] (fun _ => 0)
    (fun _ => 0) [] [] [] [k1] ∅ toy_m1 (k_addr k1) (k_block k1)) with (n := toy_node0) (a := FirstConnected);
    [exact I| | |apply (bool_decide_unpack _); vm_compute; exact I|exact A1| |reflexivity|exact toy_start| | |exact C1].
  - repeat split.
  - reflexivity.
  - intros k [= <-]. vm_compute. reflexivity.
  - constructor; [toy_described 1|constructor].
  - vm_compute. reflexivity.
Qed.

Lemma toy_ledger2 : agrees toy_sha3 toy_node2 [k3; k2; k1] toy_m2 /\ tip toy_node2 = Some (k_addr k3).
Proof.
  destruct toy_accepts as (_ & A2 & _). destruct toy_runs as (_ & C2 & _). destruct toy_ledger1 as [H1 T1].
  apply (ActivateBestChain_sound (WD := MemDisk) toy_sha3 toy_sha3_len MemDB_writes_succeed toy_sha3 (fun _ _ _ => 0) [] (fun _ => 0)
    (fun _ => 0) [] [] [k1] [k3; k2; k1] toy_m1 toy_m2 (k_addr k3) (k_block k3)) with (n := toy_node1) (a := Reorganised);
    [| | |apply (bool_decide_unpack _); vm_compute; exact I|exact A2| |discriminate|exact H1| |exact T1|exact C2].
  - repeat split.
  - repeat split.
  - reflexivity.
  - intros k [= <-]. vm_compute. reflexivity.
  - constructor; [toy_described 3|constructor; [toy_described 2|constructor; [toy_described 1|constructor]]].
Qed.

Lemma activation_keeps_ledger_witness : exists n3, toy_activate toy_node2 k6 = Some (Reorganised, n3) /\
  agrees toy_sha3 toy_node2 [k3; k2; k1] toy_m2 /\ agrees toy_sha3 n3 [k6; k5; k4; k1] toy_m3 /\ tip n3 = Some (k_addr k6).
Proof.
  destruct toy_accepts as (_ & _ & A3). destruct toy_runs as (_ & _ & C3). destruct toy_ledger2 as [H2 T2].
  exists (toy_next toy_node2 k6). split; [exact C3|]. split; [exact H2|].
  apply (activation_keeps_ledger _ _ _ MemDB MemDisk toy_sha3 toy_sha3 toy_sha3_len MemDB_writes_succeed (fun _ _ _ => 0) []
      (fun _ => 0) (fun _ => 0) [] [] toy_node2 (toy_next toy_node2 k6) [k3; k2; k1] [k6; k5; k4; k1] toy_m2 toy_m3 (k_addr k6)
      (k_block k6) Reorganised H2 T2).
  - repeat split.
  - constructor; [toy_described 6|constructor; [toy_described 5|constructor; [toy_described 4|constructor; [toy_described 1|constructor]]]].
  - repeat split.
  - reflexivity.
  - apply (bool_decide_unpack _). vm_compute. exact I.
  - exact A3.
  - intros k [= <-]. vm_compute. reflexivity.
  - discriminate.
  - exact C3.
Defined.

(** The first block of the tree, connected on the empty node. *)
Definition toy_connect : option (result ConnectError unit * ToyNode) :=
  ConnectTip toy_sha3 (fun _ _ _ => 0) [] [] toy_node0 1%positive (toy_body 1) false.

Lemma ConnectTip_verdict_witness : exists n', toy_connect = Some (Ok tt, n') /\
  pindexTip (n_chain n') = None /\
  n_utxo n' = Some (ApplyBlock toy_sha3 empty_store (toy_body 1) 0 (sample_hash 1)).2.
Proof.
  assert (fst <$> toy_connect = Some (Ok tt)) as HF by (vm_compute; reflexivity).
  assert (exists b, deref toy_node0 1%positive = Some b /\ nHeight b = 0 /\ GetBlockHash b = sample_hash 1) as (b & Hb & Hh & Hg)
    by (eexists; split; [reflexivity|split; reflexivity]).
  destruct toy_connect as [[r n']|] eqn:HC; [|discriminate HF]. cbn in HF. injection HF as ->.
  pose proof (ConnectTip_verdict _ _ _ _ toy_sha3 _ _ _ _ _ b _ _ _ _ Hb HC) as (HT & _ & (_ & HU) & _).
  exists n'. rewrite Hh, Hg in HU. split; [reflexivity|]. split; [exact HT|exact HU].
Defined.

(** *** Where the code departs from its documentation *)

(** A tree 1 <- 2 and 1 <- 3 <- 4 at heights where registrations need
    attestations, which these coinbases do not carry; 2 is the tip. *)
Definition late_blk (i : Z) (prev : option addr) (height : Z) : Blk := toy_blk i prev (100000 + height).
Definition late_tree : CChainState :=
  mkChainState
    (list_to_map ((fun '(k, w) => (k_addr k, sample_entry (Zpos (k_addr k)) (k_prev k) (k_height k) w)) <$>
       [(late_blk 1 None 0, 10); (late_blk 2 (Some 1%positive) 1, 20); (late_blk 3 (Some 1%positive) 1, 20);
        (late_blk 4 (Some 3%positive) 2, 30)]))
    ∅ (Some 2%positive) ∅ 100001 0 false 0 zero256 false UndoFailure 0 (-1).
Definition late_utxo : CUTXOSet (gmap (list Z) (list Z)) :=
  foldl (fun u k => snd (ApplyBlock toy_sha3 u (k_block k) (k_height k) (k_hash k))) empty_store
    [late_blk 1 None 0; late_blk 2 (Some 1%positive) 1].
Definition late_node : ToyNode :=
  mkNode late_tree (Some reorg_store) (Some late_utxo) None (mkEnv (Some Mainnet) None None None None) None None
    (Some (mkWAL None false zero256 zero256 zero256 [] [] INITIALIZED 0 0)) tt 0 [].

(** The coinbase output of block [i]. *)
Definition toy_output (i : Z) : COutPoint := mkOutPoint (Tx_GetHash toy_sha3 (toy_tx i)) 0.
Definition node_has (n : ToyNode) (k : COutPoint) : bool :=
  match n_utxo n with Some u => fst (HaveUTXO u k) | None => false end.

(** When the rollback of a reorganisation fails, the tip stays on a block whose
    outputs have been removed, no rebuild is requested, and the log that would
    report the state after a restart is deleted. *)
Example failed_rollback_is_silent :
  match reorganise toy_sha3 toy_sha3 (fun _ _ _ => 0) [] (fun _ => 0) [] [] late_node 2%positive
          (sample_entry 2 (Some 1%positive) 100001 20) 4%positive (sample_entry 4 (Some 3%positive) 100002 30) (toy_body 4) with
  | Some (a, n') =>
      a = RollbackFailed /\ tip n' = Some 2%positive /\ node_has late_node (toy_output 2) = true /\
      node_has n' (toy_output 2) = false /\ m_chain_needs_rebuild (n_chain n') = false /\
      m_utxo_needs_rebuild (n_chain n') = false /\ (w_disk <$> n_wal n') = Some None
  | None => False
  end.
Proof. vm_compute. repeat split. Qed.

(** A block whose validity level was set to [BLOCK_VALID_CHAIN] loses the level
    when it is disconnected and can never be a candidate again. *)
Example disconnected_block_not_candidate :
  let b := set_nStatus (sample_entry 2 None 0 10) (Z.lor BLOCK_VALID_CHAIN BLOCK_HAVE_DATA) in
  IsBlockACandidateForActivation b = true /\
  IsBlockACandidateForActivation (clear_status b BLOCK_VALID_CHAIN) = false.
Proof. vm_compute. done. Qed.
