(* ===== verification/ActivationReturns.v ===== *)
(** * Activation always returns (consensus/chain.cpp)

    The default path of [ActivateBestChain] has loops over [pprev] links,
    dereferences index entries it has only an address of, and reads the first
    input of the coinbase.  On a well-formed index with an open block store and
    a coinbase that has an input it returns, whatever the stores answer. *)

From S2P Require Import Prelude Uint256 ChainParams Block BlockIndex Transaction BlockTxs UtxoStore UtxoBlock.
From S2P Require Import Dfmp DfmpPow Cooldown VdfValidation ChainState Mempool BlockStorage ReorgWal TipUpdate Activation.

Section Returns.
  Context {D F X : Type} `{LDB : LevelDB D} `{WD : WalDisk F}.
  Variable SHA3_256 : list Z -> uint256.
  Variable randomx_hash_fast : list Z -> uint256.
  Variable dilithium_verify : list Z -> list Z -> list Z -> Z.
  Variable seedPubkeys : list (list Z).
  Variable system_clock steady_clock : nat -> Z.
  Variable connect_callbacks disconnect_callbacks : list (CBlock -> Z -> uint256 -> Observed D X -> Observed D X).
  Implicit Types n : Node D F X.

  #[local] Abbreviation connect := (connect_tip SHA3_256 dilithium_verify seedPubkeys connect_callbacks).
  #[local] Abbreviation disconnect := (disconnect_tip SHA3_256 randomx_hash_fast system_clock disconnect_callbacks).

(** ** Results that keep the tree *)

Definition keeps_tree n n' : Prop := forall p, identity_of <$> deref n' p = identity_of <$> deref n p.
Definition has n (p : addr) : Prop := is_Some (deref n p).
(** Every parent is in the store. *)
Definition closed n : Prop := forall p b q, deref n p = Some b -> pprev b = Some q -> has n q.

Lemma keeps_tree_refl n : keeps_tree n n.
Proof. done. Qed.
Lemma keeps_tree_trans n1 n2 n3 : keeps_tree n1 n2 -> keeps_tree n2 n3 -> keeps_tree n1 n3.
Proof. intros H1 H2 p. by rewrite H2. Qed.
Lemma keeps_tree_frame n n' : tip_frame SHA3_256 n n' -> keeps_tree n n'.
Proof. by intros [H _ _ _ _]. Qed.

Lemma has_keeps n n' p : keeps_tree n n' -> has n p -> has n' p.
Proof. intros HK [b Hb]. specialize (HK p). rewrite Hb in HK. unfold has. by destruct (deref n' p). Qed.
Lemma deref_keeps n n' p b' : keeps_tree n n' -> deref n' p = Some b' ->
  exists b, deref n p = Some b /\ nHeight b' = nHeight b /\ pprev b' = pprev b.
Proof.
  intros HK Hb. specialize (HK p). rewrite Hb in HK. destruct (deref n p) as [b|]; [|done]. injection HK as H1 H2 H3. eauto.
Qed.
Lemma closed_keeps n n' : keeps_tree n n' -> closed n -> closed n'.
Proof.
  intros HK HC p b' q Hb Hq. destruct (deref_keeps _ _ _ _ HK Hb) as (b & Hb0 & _ & E). rewrite E in Hq.
  eapply has_keeps; [done|]. by eapply HC.
Qed.
Lemma has_all_keeps n n' l : keeps_tree n n' -> Forall (has n) l -> Forall (has n') l.
Proof. intros HK HF. eapply Forall_impl; [exact HF|]. intros p. by apply has_keeps. Qed.

(** The computation returns, with a node that has the same tree. *)
Definition safe {A} n (x : option (A * Node D F X)) : Prop := exists a n', x = Some (a, n') /\ keeps_tree n n'.

Lemma safe_ret {A} n n' (a : A) : keeps_tree n n' -> safe n (Some (a, n')).
Proof. intros. by exists a, n'. Qed.
Lemma safe_here {A} n (a : A) : safe n (Some (a, n)).
Proof. by apply safe_ret. Qed.
Lemma safe_bind {A B} n (x : option (A * Node D F X)) (k : A * Node D F X -> option (B * Node D F X)) :
  safe n x -> (forall a n', keeps_tree n n' -> safe n' (k (a, n'))) -> safe n (x ≫= k).
Proof.
  intros (a & n1 & -> & K1) Hk. destruct (Hk a n1 K1) as (b & n2 & E2 & K2). exists b, n2. split; [done|].
  by eapply keeps_tree_trans.
Qed.
Lemma safe_get {A B} n (x : option A) (k : A -> option (B * Node D F X)) :
  is_Some x -> (forall a, x = Some a -> safe n (k a)) -> safe n (x ≫= k).
Proof. intros [a ->] Hk. by apply Hk. Qed.
Lemma safe_move {A} n n' (x : option (A * Node D F X)) : keeps_tree n n' -> safe n' x -> safe n x.
Proof. intros K1 (a & n2 & -> & K2). exists a, n2. split; [done|]. by eapply keeps_tree_trans. Qed.

(** Steps without a result. *)
Definition safe1 n (x : option (Node D F X)) : Prop := exists n', x = Some n' /\ keeps_tree n n'.
Lemma safe1_bind {B} n (x : option (Node D F X)) (k : Node D F X -> option (B * Node D F X)) :
  safe1 n x -> (forall n', keeps_tree n n' -> safe n' (k n')) -> safe n (x ≫= k).
Proof.
  intros (n1 & -> & K1) Hk. destruct (Hk n1 K1) as (b & n2 & E2 & K2). exists b, n2. split; [done|].
  by eapply keeps_tree_trans.
Qed.

Lemma update_index_safe n p f : (forall b, identity_of (f b) = identity_of b) -> has n p -> safe1 n (update_index n p f).
Proof.
  intros Hf [b Hb]. unfold update_index. rewrite Hb. cbn [mbind option_bind]. eexists. split; [done|].
  eapply keeps_tree_frame, (update_index_tip_frame _ n p f); [done|]. unfold update_index. by rewrite Hb.
Qed.
Lemma write_index_safe n p : has n p -> safe1 n (write_index SHA3_256 n p).
Proof.
  intros [b Hb]. unfold write_index. rewrite Hb. cbn [mbind option_bind]. eexists. split; [done|].
  apply keeps_tree_frame, (write_index_tip_frame SHA3_256 n p). unfold write_index. by rewrite Hb.
Qed.
Lemma mark_failed_safe n p : has n p -> safe1 n (mark_failed SHA3_256 n p).
Proof.
  intros Hp. destruct (update_index_safe n p (fun b => or_status b BLOCK_FAILED_VALID)) as (n1 & E1 & K1); [done..|].
  destruct (write_index_safe n1 p) as (n2 & E2 & K2); [by eapply has_keeps|]. exists n2. unfold mark_failed. rewrite E1.
  split; [done|]. by eapply keeps_tree_trans.
Qed.

Lemma log_keeps_tree n f : keeps_tree n (log n f).
Proof. intros p. unfold log, with_wal. destruct (n_wal n) as [w|]; [|done]. by destruct (f w). Qed.
Lemma observes_keeps_tree n n' : observes n n' -> keeps_tree n n'.
Proof. by intros [o ->]. Qed.

(** ** The rules *)

Lemma consecutive_run_total n mik db : closed n -> forall k q, (forall p, q = Some p -> has n p) ->
  is_Some (consecutive_run SHA3_256 k (arena (n_chain n)) db mik q).
Proof.
  intros HC. induction k as [|k IH]; intros q Hq; [done|]. cbn [consecutive_run]. destruct q as [p|]; [|done].
  destruct db as [rd|]; [|done]. destruct (Hq p eq_refl) as [b Hb]. unfold deref in Hb. rewrite Hb. cbn [mbind option_bind].
  destruct (rd _); [|done]. destruct (ExtractCoinbaseMIKIdentity _ _); [|done]. destruct (bool_decide _); [done|].
  destruct (IH (pprev b)) as [cnt ->]; [|done]. intros p' Hp'. by eapply HC.
Qed.

Lemma stall_exempt_total n params block q h : (forall p, q = Some p -> has n p) ->
  is_Some (stall_exempt params (arena (n_chain n)) block q h).
Proof.
  intros Hq. unfold stall_exempt. destruct (_ <? _); [|done]. destruct q as [p|]; [|done].
  destruct (Hq p eq_refl) as [b Hb]. unfold deref in Hb. by rewrite Hb.
Qed.

Lemma CheckConsecutiveMiner_total n params block b db t : closed n -> (forall p, pprev b = Some p -> has n p) ->
  is_Some (CheckConsecutiveMiner SHA3_256 params (arena (n_chain n)) block b db t).
Proof.
  intros HC Hb. unfold CheckConsecutiveMiner. destruct (_ <? _); [done|]. destruct (negb _); [done|].
  destruct (ExtractCoinbaseMIKIdentity _ _) as [mik|]; [|done]. cbv zeta. destruct (_ && _); [done|].
  destruct (consecutive_run_total n mik db HC 3 (pprev b) Hb) as [c ->]. cbn [mbind option_bind].
  destruct (_ >=? _); [|done]. destruct (stall_exempt_total n params block (pprev b) (nHeight b) Hb) as [e ->]. done.
Qed.

Lemma preflight_total n bnew btip block : closed n -> (forall p, pprev bnew = Some p -> has n p) ->
  exists ok n', preflight SHA3_256 n bnew btip block = Some (ok, n') /\ n_chain n' = n_chain n /\ n_pdb n' = n_pdb n.
Proof.
  intros HC Hb. unfold preflight. destruct (n_cooldown n) as [t|]; [|by exists true, n].
  assert (is_Some (CheckVDFReplacementPreflight SHA3_256 (params n) (arena (n_chain n)) block (Some bnew) (Some btip)
            (block_reader SHA3_256 n) (nHeight bnew) t)) as [[r t'] ->]; [|by exists (is_ok r), (set_cooldown n t')].
  unfold CheckVDFReplacementPreflight. destruct (negb _); [done|]. destruct (params n) as [cp|]; [|done].
  destruct (ExtractCoinbaseMIKIdentity _ _) as [mik|]; [|done].
  destruct (if nHeight bnew >=? _ then _ else _) as [cooling t1]. destruct cooling; [done|].
  assert (forall q, Some bnew ≫= pprev = Some q -> has n q) as Hb' by done.
  assert (forall A (x : option A) (k : A -> option (result VdfError unit * CCooldownTracker)),
    is_Some x -> (forall a, is_Some (k a)) -> is_Some (x ≫= k)) as Hbind by (intros A x k [a ->] Hk; apply Hk).
  apply Hbind.
  - destruct (_ >=? _); [|done]. unfold preflight_consecutive. destruct (_ >? 1); [|done].
    destruct (consecutive_run_total n mik (block_reader SHA3_256 n) HC 3 _ Hb') as [c ->]. cbn [mbind option_bind].
    destruct (_ >=? _); [|done]. destruct (stall_exempt_total n (Some cp) block (pprev bnew) (nHeight bnew) Hb) as [e ->]. done.
  - intros [[]|e]; [|done]. apply Hbind; [|done]. unfold preflight_cap. destruct (_ && _ && _); [|done].
    destruct (_ >? 1); [|done]. cbn [mbind option_bind]. destruct (pprev bnew) as [q|]; cbn [mbind option_bind].
    + destruct (Hb q eq_refl) as [bq Hq]. unfold deref in Hq. rewrite Hq. cbn. by destruct (_ && _ && _).
    + by destruct (_ && _ && _).
Qed.

(** The coinbase, when it decodes, has an input. *)
Definition has_coinbase_input (block : CBlock) : Prop :=
  forall tx txs, DeserializeBlockTransactions (vtx block) = Ok (tx :: txs) -> vin tx <> [].

Lemma rule_mik_total n skip b block : skip = true \/ has_coinbase_input block ->
  is_Some (rule_mik SHA3_256 dilithium_verify skip b block n).
Proof.
  intros Hs. unfold rule_mik. destruct (_ && _ && _) eqn:Eg; [|done].
  destruct Hs as [->|Hin]; [discriminate Eg|].
  unfold CheckProofOfWorkDFMP. destruct (IsVDFBlock _); [done|]. destruct (match env_params _ with Some _ => _ | None => _ end); [done|].
  destruct (isZero_loop _ _ _); [done|]. destruct (_ <? _); [done|]. destruct (vtx block) as [|x l] eqn:Ev; [done|].
  destruct (DeserializeBlockTransactions (x :: l)) as [[|tx txs]|] eqn:Ed; [done| |done].
  specialize (Hin tx txs). rewrite Ev in Hin. specialize (Hin Ed).
  destruct (vin tx); [done|]. by destruct (check_identity _ _ _ _ _ _ _ _ _).
Qed.

Lemma tracker_rule_total n b block k : (forall t, is_Some (k n t)) -> is_Some (tracker_rule b block k n).
Proof.
  intros Hk. unfold tracker_rule. destruct (n_cooldown n) as [t|]; [|done]. destruct (_ && _); [|done].
  destruct (Hk t) as [[ok t'] ->]. done.
Qed.

Lemma chain_stalled_total n b block t : (forall p, pprev b = Some p -> has n p) -> is_Some (chain_stalled SHA3_256 n b block t).
Proof.
  intros Hb. unfold chain_stalled. destruct (_ >=? _); [done|]. destruct (pprev b) as [q|]; [|done].
  destruct (Hb q eq_refl) as [bq ->]. cbn [mbind option_bind]. destruct (_ >=? _); [|done]. destruct (_ && _); [|done].
  destruct (ExtractCoinbaseMIKIdentity _ _); [|done]. destruct (_ ≫= _); [|done]. by destruct (bool_decide _).
Qed.

Lemma connect_rules_total n skip b block : closed n -> (forall p, pprev b = Some p -> has n p) ->
  skip = true \/ has_coinbase_input block ->
  Forall (fun r => is_Some (r.2 n)) (connect_rules SHA3_256 dilithium_verify seedPubkeys skip b block).
Proof.
  intros HC Hb Hs. unfold connect_rules. repeat constructor; cbn [snd]; try done.
  - by apply rule_mik_total.
  - unfold rule_expiration. destruct (_ && _ && _ && _); [|done]. by destruct (CheckMIKExpiration _ _ _ _ _).
  - apply tracker_rule_total. intros t. destruct (_ >=? _); [done|].
    destruct (chain_stalled_total n b block t Hb) as [[st t'] ->]. done.
  - apply tracker_rule_total. intros t.
    destruct (CheckConsecutiveMiner_total n (params n) block b (block_reader SHA3_256 n) t HC Hb) as [[r t'] ->]. done.
  - apply tracker_rule_total. intros t. destruct (pprev b) as [q|]; cbn [mbind option_bind]; [|done].
    by destruct (Hb q eq_refl) as [bq ->].
  - apply tracker_rule_total. done.
Qed.

Lemma run_rules_safe (P : Node D F X -> Prop) rules : (forall n n', observes n n' -> P n -> P n') ->
  Forall (fun r => rule_frame r.2) rules -> (forall n, P n -> Forall (fun r => is_Some (r.2 n)) rules) ->
  forall n, P n -> safe n (run_rules n rules).
Proof.
  intros HP. induction rules as [|[e rule] rules IH]; intros HF HT n Hn; [apply safe_here|]. cbn [run_rules].
  apply Forall_cons in HF as [Hr HF]. pose proof (HT n Hn) as HT1. apply Forall_cons in HT1 as [[[ok n1] E] _].
  cbn [snd] in Hr, E. rewrite E. cbn [mbind option_bind]. apply Hr in E. destruct ok; [|apply safe_ret; by apply observes_keeps_tree].
  eapply safe_move; [by apply observes_keeps_tree|]. apply IH; [done| |by eapply HP].
  intros n2 Hn2. by apply HT, Forall_cons in Hn2 as [_ ?].
Qed.

(** ** Connecting and disconnecting *)

(** The links of a block and its parent. *)
Lemma relink_safe n p (q : option addr) f g : (forall b, identity_of (f b) = identity_of b) ->
  (forall b, identity_of (g b) = identity_of b) -> has n p -> (forall a, q = Some a -> has n a) ->
  safe1 n (n' ← match q with Some a => update_index n a f | None => Some n end; update_index n' p g).
Proof.
  intros Hf Hg Hp Hq. destruct q as [a|]; cbn [mbind option_bind].
  - destruct (update_index_safe n a f Hf (Hq a eq_refl)) as (n1 & -> & K1). cbn [mbind option_bind].
    destruct (update_index_safe n1 p g Hg) as (n2 & -> & K2); [by eapply has_keeps|]. exists n2. split; [done|].
    by eapply keeps_tree_trans.
  - by apply update_index_safe.
Qed.

Lemma ConnectTip_safe n p block skip : closed n -> has n p -> skip = true \/ has_coinbase_input block ->
  safe n (connect n p block skip).
Proof.
  intros HC [b Hb] Hs. assert (exists r n', connect n p block skip = Some (r, n')) as (r & n' & E).
  - unfold connect_tip, ConnectTip. rewrite Hb. cbn [mbind option_bind].
    destruct (run_rules_safe (fun m => n_chain m = n_chain n)
      (connect_rules SHA3_256 dilithium_verify seedPubkeys skip b block)) with (n := n) as (r1 & n1 & E1 & K1); [..|done|].
    { intros m m' [o ->] <-. done. }
    { apply connect_rules_frame. }
    { intros m Hm. apply connect_rules_total; [|intros q Hq|done].
      - intros p0 b0 q0 H1 H2. unfold has, deref in *. rewrite Hm in *. by eapply HC.
      - unfold has, deref. rewrite Hm. by eapply HC. }
    rewrite E1. cbn [mbind option_bind]. destruct r1 as [[]|e].
    + unfold apply_to_utxo. destruct (match n_utxo n1 with Some _ => _ | None => _ end) as [ok n2] eqn:E2.
      assert (arena (n_chain n2) = arena (n_chain n1)) as A2.
      { destruct (n_utxo n1) as [u|]; [destruct (ApplyBlock _ _ _ _ _)|]; by injection E2 as <- <-. }
      destruct ok; cbn [negb]; [|eauto].
      set (n3 := set_chain n2 _).
      assert (forall q, has n1 q -> has n3 q) as Hhas by (intros q; unfold has, deref; cbn; by rewrite A2).
      destruct (relink_safe n3 p (pprev b) (fun bq => set_pnext bq (Some p))
        (fun b => or_status b (Z.lor BLOCK_VALID_CHAIN BLOCK_HAVE_DATA))) as (n4 & E4 & _); [done|done|..].
      { apply Hhas. eapply has_keeps; [done|]. by exists b. }
      { intros q Hq. apply Hhas. eapply has_keeps; [done|]. by eapply HC. }
      unfold link_tip. rewrite E4. cbn. eauto.
    + destruct (mark_failed_safe n1 p) as (n2 & -> & _); [eapply has_keeps; [done|by exists b]|]. cbn. eauto.
  - exists r, n'. split; [done|]. by eapply keeps_tree_frame, ConnectTip_frame.
Qed.

Lemma RecordUndoFailure_arena c h : arena (RecordUndoFailure c h) = arena c.
Proof. unfold RecordUndoFailure. by destruct (_ >=? _). Qed.

Lemma DisconnectTip_safe n p : closed n -> has n p -> safe n (disconnect n p).
Proof.
  intros HC [b Hb]. assert (exists r n', disconnect n p = Some (r, n')) as (r & n' & E).
  - unfold disconnect_tip, DisconnectTip. rewrite Hb. cbn [mbind option_bind].
    destruct (n_pdb n) as [pdb|]; [|eauto]. destruct (read_block _ _ _) as [block|]; [|eauto].
    destruct (undo_utxo SHA3_256 randomx_hash_fast n b block false) as [ok n1] eqn:E1.
    assert (arena (n_chain n1) = arena (n_chain n)) as A1.
    { unfold undo_utxo in E1. destruct (n_utxo n) as [u|]; [|by injection E1 as <- <-].
      destruct (UndoBlock _ _ _ _ _) as [[] u']; injection E1 as <- <-; [done|].
      apply RecordUndoFailure_arena. }
    destruct ok; cbn [negb]; [|eauto]. unfold finish_disconnect.
    set (n2 := undo_identity SHA3_256 n1 block (nHeight b)).
    assert (keeps_tree n n2) as K2.
    { eapply keeps_tree_trans; [|apply observes_keeps_tree, undo_identity_observes]. intros q. unfold deref. by rewrite A1. }
    destruct (relink_safe n2 p (pprev b) (fun bq => set_pnext bq None)
      (fun b => clear_status (set_pnext b None) BLOCK_VALID_CHAIN)) as (n3 & E3 & _); [done|done|..].
    { eapply has_keeps; [done|]. by exists b. }
    { intros q Hq. eapply has_keeps; [done|]. by eapply HC. }
    unfold unlink_tip. rewrite E3. cbn. eauto.
  - exists r, n'. split; [done|]. by eapply keeps_tree_frame, DisconnectTip_frame.
Qed.

(** ** The reorganisation *)

Lemma node_hash_total n p : has n p -> is_Some (node_hash n p).
Proof. intros [b Hb]. unfold node_hash. by rewrite Hb. Qed.
Lemma node_hashes_total n l : Forall (has n) l -> is_Some (mapM (node_hash n) l).
Proof. intros HF. apply mapM_is_Some. eapply Forall_impl; [exact HF|]. intros p. apply node_hash_total. Qed.
Lemma deref_all_total n l : Forall (has n) l -> is_Some (any_invalid n l) /\ is_Some (all_readable SHA3_256 n l).
Proof.
  induction 1 as [|p l [b Hb] _ [IH1 IH2]]; [done|]. cbn [any_invalid all_readable]. rewrite Hb. cbn [mbind option_bind].
  split; [by destruct (IsInvalid b)|]. unfold readable_block, node_hash. rewrite Hb. cbn. by destruct (bool_decide _).
Qed.

Lemma reconnect_all_safe l : forall n, closed n -> Forall (has n) l ->
  safe n (reconnect_all SHA3_256 dilithium_verify seedPubkeys connect_callbacks n l).
Proof.
  induction l as [|p l IH]; intros n HC HF; [apply safe_here|]. apply Forall_cons in HF as [Hp HF]. cbn [reconnect_all].
  eapply safe_get; [by apply node_hash_total|]. intros h _. destruct (read_block _ _ _) as [block|]; [|apply safe_here].
  eapply safe_bind; [apply ConnectTip_safe; auto|]. intros r n1 K1. cbn beta iota. destruct (is_ok r); [|apply safe_here].
  apply IH; [by eapply closed_keeps|by eapply has_all_keeps].
Qed.

Lemma disconnect_all_safe l : forall n, closed n -> Forall (has n) l ->
  safe n (disconnect_all SHA3_256 randomx_hash_fast system_clock disconnect_callbacks n l).
Proof.
  induction l as [|p l IH]; intros n HC HF; [apply safe_here|]. apply Forall_cons in HF as [Hp HF]. cbn [disconnect_all].
  eapply safe_bind; [by apply DisconnectTip_safe|]. intros r n1 K1. cbn beta iota. destruct (is_ok r); [|apply safe_here].
  apply IH; [by eapply closed_keeps|by eapply has_all_keeps].
Qed.

  #[local] Abbreviation rollback := (rollback SHA3_256 randomx_hash_fast dilithium_verify seedPubkeys system_clock
    connect_callbacks disconnect_callbacks).

Lemma rollback_safe n l1 l2 : closed n -> Forall (has n) l1 -> Forall (has n) l2 -> safe n (rollback n l1 l2).
Proof.
  intros HC H1 H2. unfold rollback. eapply safe_bind; [by apply disconnect_all_safe|]. intros ok n1 K1. cbn beta iota.
  eapply safe_bind; [|intros ok2 n2 K2; apply safe_ret, log_keeps_tree]. destruct ok; [|apply safe_here].
  apply reconnect_all_safe; [by eapply closed_keeps|by eapply has_all_keeps].
Qed.

Lemma log_move {A} n f (x : option (A * Node D F X)) : safe (log n f) x -> safe n x.
Proof. apply safe_move, log_keeps_tree. Qed.
Lemma closed_log n f : closed n -> closed (log n f).
Proof. apply closed_keeps, log_keeps_tree. Qed.
Lemma has_all_log n f l : Forall (has n) l -> Forall (has (log n f)) l.
Proof. apply has_all_keeps, log_keeps_tree. Qed.

Lemma disconnect_loop_safe todo : forall n stack, closed n -> Forall (has n) stack -> Forall (has n) todo ->
  exists r n', disconnect_loop SHA3_256 randomx_hash_fast dilithium_verify seedPubkeys system_clock connect_callbacks
           disconnect_callbacks n stack todo = Some (r, n') /\ keeps_tree n n' /\
  match r with Ok l => Forall (has n) l | Err _ => True end.
Proof.
  induction todo as [|p todo IH]; intros n stack HC HS HF; [by exists (Ok stack), n|].
  apply Forall_cons in HF as [Hp HF]. cbn [disconnect_loop].
  destruct (DisconnectTip_safe n p HC Hp) as (r & n1 & E1 & K1). rewrite E1. cbn [mbind option_bind].
  assert (closed n1 /\ Forall (has n1) stack /\ Forall (has n1) todo /\ has n1 p) as (C1 & S1 & T1 & P1).
  { split_and!; [by eapply closed_keeps|by eapply has_all_keeps|by eapply has_all_keeps|by eapply has_keeps]. }
  destruct (is_ok r).
  - set (n2 := log n1 _). destruct (IH n2 (p :: stack)) as (r2 & n3 & -> & K3 & H3).
    + by apply closed_log.
    + apply has_all_log. by constructor.
    + by apply has_all_log.
    + assert (keeps_tree n n2) as K2 by (eapply keeps_tree_trans; [exact K1|apply log_keeps_tree]).
      exists r2, n3. split_and!; [done|by eapply keeps_tree_trans|]. destruct r2 as [l|]; [|done].
      eapply (has_all_keeps n2); [|done]. intros q. by rewrite K2.
  - destruct (rollback_safe n1 [] stack C1) as (a & n2 & -> & K2); [done..|]. cbn. exists (Err a), n2.
    split_and!; [done|by eapply keeps_tree_trans|done].
Qed.

Lemma fail_children_safe l : forall n, Forall (has n) l -> safe1 n (fail_children SHA3_256 n l).
Proof.
  induction l as [|p l IH]; intros n HF; [by exists n|]. apply Forall_cons in HF as [Hp HF]. cbn [fail_children].
  pose proof Hp as [b ->]. cbn [mbind option_bind]. destruct (negb _); [by apply IH|].
  destruct (update_index_safe n p (fun b => or_status b BLOCK_FAILED_CHILD)) as (n1 & -> & K1); [done..|]. cbn [mbind option_bind].
  destruct (write_index_safe n1 p) as (n2 & -> & K2); [by eapply has_keeps|]. cbn [mbind option_bind].
  assert (keeps_tree n n2) as K by (by eapply keeps_tree_trans).
  destruct (IH n2) as (n3 & -> & K3); [by eapply has_all_keeps|]. exists n3. split; [done|]. by eapply keeps_tree_trans.
Qed.

Lemma connect_loop_safe pindexNew block disc todo : forall n stack, closed n -> Forall (has n) disc -> Forall (has n) stack ->
  Forall (has n) todo ->
  safe n (connect_loop SHA3_256 randomx_hash_fast dilithium_verify seedPubkeys system_clock connect_callbacks
           disconnect_callbacks n pindexNew block disc stack todo).
Proof.
  induction todo as [|p todo IH]; intros n stack HC HD HS HF; [apply safe_here|].
  apply Forall_cons in HF as [Hp HF]. cbn [connect_loop]. eapply safe_get; [by apply node_hash_total|]. intros h _.
  destruct (if bool_decide _ then _ else _) as [blk|].
  - eapply safe_bind; [apply ConnectTip_safe; auto|]. intros r n1 K1. cbn beta iota.
    assert (closed n1 /\ Forall (has n1) disc /\ Forall (has n1) stack /\ Forall (has n1) todo /\ has n1 p)
      as (C1 & D1 & S1 & T1 & P1).
    { split_and!; [by eapply closed_keeps|by eapply has_all_keeps..|by eapply has_keeps]. }
    destruct (is_ok r).
    + eapply log_move. apply IH; [by apply closed_log|by apply has_all_log|apply has_all_log; by constructor|by apply has_all_log].
    + eapply safe1_bind; [by apply fail_children_safe|]. intros n2 K2.
      eapply safe_bind; [|intros a n3 K3; apply safe_here].
      apply rollback_safe; [by eapply closed_keeps|by eapply has_all_keeps..].
  - eapply safe_bind; [|intros a n1 K1; apply safe_here]. by apply rollback_safe.
Qed.

Lemma set_tip_safe n p : has n p -> safe1 n (set_tip n p).
Proof. intros [b Hb]. unfold set_tip. rewrite Hb. by eexists. Qed.
Lemma write_best_safe n p : has n p -> safe n (write_best n p).
Proof.
  intros Hp. unfold write_best. destruct (node_hash_total n p Hp) as [h ->]. cbn [mbind option_bind].
  destruct (n_pdb n) as [db|]; [|apply safe_here]. destruct (WriteBestBlock db h) as [ok db']. by apply safe_ret.
Qed.
Lemma persist_tip_safe n p : has n p -> safe1 n (persist_tip n p).
Proof.
  intros Hp. unfold persist_tip. destruct (set_tip_safe n p Hp) as (n1 & -> & K1). cbn [mbind option_bind].
  destruct (write_best_safe n1 p) as (ok & n2 & -> & K2); [by eapply has_keeps|]. exists n2. split; [done|].
  by eapply keeps_tree_trans.
Qed.

Lemma with_wal_keeps n f ok n' : with_wal n f = (ok, n') -> keeps_tree n n' /\ n_pdb n' = n_pdb n.
Proof. unfold with_wal. destruct (n_wal n) as [w|]; [destruct (f w)|]; by intros [= <- <-]. Qed.

Lemma perform_reorg_safe n fork pold pnew block disc conn : closed n -> n_pdb n <> None -> has n fork -> has n pold ->
  has n pnew -> Forall (has n) disc -> Forall (has n) conn ->
  safe n (perform_reorg SHA3_256 randomx_hash_fast dilithium_verify seedPubkeys system_clock connect_callbacks
            disconnect_callbacks n fork pold pnew block disc conn).
Proof.
  intros HC Hdb Hf Ho Hn HD HN. unfold perform_reorg.
  eapply safe_get; [by apply deref_all_total|]. intros [] _; [apply safe_here|].
  rewrite (bool_decide_eq_false_2 _ Hdb). cbn [andb negb orb].
  eapply safe_get; [by apply deref_all_total|]. intros [] _; cbn [negb]; [|apply safe_here]. cbn [abort_unless].
  assert (Forall (has n) (filter (fun p => p <> pnew) conn)) as HN2.
  { apply Forall_forall. intros q [_ Hq]%list_elem_of_filter. by eapply Forall_forall in HN. }
  eapply safe_get; [by apply deref_all_total|].
  intros [] _; cbn [negb]; [|apply safe_here].
  do 3 (eapply safe_get; [by apply node_hash_total|]; intros ? _).
  do 2 (eapply safe_get; [by apply node_hashes_total|]; intros ? _).
  destruct (with_wal n _) as [ok n1] eqn:E1. apply with_wal_keeps in E1 as [K1 _]. destruct ok; cbn [negb]; [|by apply safe_ret].
  eapply safe_move; [exact K1|]. apply log_move with (f := EnterDisconnectPhase SHA3_256). set (n2 := log n1 _).
  assert (keeps_tree n n2) as K2 by (eapply keeps_tree_trans; [exact K1|apply log_keeps_tree]).
  destruct (disconnect_loop_safe disc n2 []) as (r & n3 & -> & K3 & H3);
    [by eapply closed_keeps|done|by eapply has_all_keeps|]. cbn [mbind option_bind]. destruct r as [l|e]; [|by apply safe_ret].
  eapply safe_move; [exact K3|]. apply log_move with (f := EnterConnectPhase SHA3_256). set (n4 := log n3 _).
  assert (keeps_tree n2 n4) as K4 by (eapply keeps_tree_trans; [exact K3|apply log_keeps_tree]).
  assert (keeps_tree n n4) as K5 by (by eapply keeps_tree_trans).
  eapply safe_bind.
  - apply connect_loop_safe; [by eapply (closed_keeps n)|by eapply (has_all_keeps n2)|done|by eapply (has_all_keeps n)].
  - intros r n5 K6. cbn beta iota. destruct r as [[]|e]; [|apply safe_here].
    eapply safe1_bind; [apply persist_tip_safe; eapply has_keeps; [|exact Hn]; by eapply keeps_tree_trans|].
    intros n6 K7. apply safe_ret. eapply keeps_tree_trans; [apply log_keeps_tree|done].
Qed.

(** ** The default path *)

Lemma index_wf_closed n : index_wf (arena (n_chain n)) -> closed n.
Proof.
  intros Hwf p b q Hb Hq. destruct (Hwf p b Hb) as [[_ HL] _]. rewrite Hq in HL. destruct HL as (bq & H & _). by exists bq.
Qed.

Lemma pprev_walk_has n : closed n -> forall k p q, has n p -> pprev_walk (arena (n_chain n)) p k = Some q -> has n q.
Proof.
  intros HC. induction k as [|k IH]; intros p q Hp; cbn [pprev_walk]; [by intros [= <-]|].
  destruct (arena (n_chain n) !! p) as [b|] eqn:Eb; [|done]. cbn [mbind option_bind].
  destruct (pprev b) as [r|] eqn:Er; [|done]. cbn. apply IH. by eapply HC.
Qed.

Lemma path_down_total n fork : index_wf (arena (n_chain n)) -> forall fuel p b, deref n p = Some b ->
  (Z.to_nat (nHeight b) < fuel)%nat ->
  exists r, path_down fuel (arena (n_chain n)) p fork = Some r /\ match r with Some l => Forall (has n) l | None => True end.
Proof.
  intros Hwf. induction fuel as [|fuel IH]; intros p b Hb Hf; [lia|]. cbn [path_down].
  destruct (bool_decide (p = fork)); [by exists (Some [])|]. unfold deref in Hb. rewrite Hb. cbn [mbind option_bind].
  destruct (Hwf p b Hb) as [[H0 HL] _]. destruct (pprev b) as [q|]; [|by exists None].
  destruct HL as (bq & Hq & Hh). destruct (Hwf q bq Hq) as [[H1 _] _].
  destruct (IH q bq Hq) as (r & -> & Hr); [lia|]. exists (cons p <$> r). split; [done|]. destruct r; [|done].
  constructor; [by exists b|done].
Qed.

  #[local] Abbreviation reorganise := (reorganise SHA3_256 randomx_hash_fast dilithium_verify seedPubkeys system_clock
    connect_callbacks disconnect_callbacks).

Lemma reorganise_safe n pold btip pnew bnew block : index_wf (arena (n_chain n)) -> n_pdb n <> None ->
  deref n pold = Some btip -> deref n pnew = Some bnew -> safe n (reorganise n pold btip pnew bnew block).
Proof.
  intros Hwf Hdb Ho Hn. pose proof (index_wf_closed n Hwf) as HC. unfold reorganise.
  destruct (FindFork_lemma (arena (n_chain n)) pold pnew btip bnew Hwf Ho Hn) as (r & -> & Hr). cbn [mbind option_bind].
  destruct r as [f|]; [|apply safe_here]. destruct Hr as ([k Hk] & _).
  assert (has n f) as Hf by (eapply pprev_walk_has; [done| |exact Hk]; by exists btip).
  pose proof Hf as [bf Hbf]. rewrite Hbf. cbn [mbind option_bind]. destruct (_ <? 0); [apply safe_here|].
  destruct (_ >? MAX_REORG_DEPTH); [apply safe_here|]. destruct (match params n with Some _ => _ | None => _ end); [apply safe_here|].
  destruct (path_down_total n f Hwf (S (Z.to_nat (nHeight btip))) pold btip Ho ltac:(lia)) as (d & -> & HD). cbn [mbind option_bind].
  destruct (path_down_total n f Hwf (S (Z.to_nat (nHeight bnew))) pnew bnew Hn ltac:(lia)) as (c & -> & HCn). cbn [mbind option_bind].
  destruct d as [d|]; [|apply safe_here]. destruct c as [c|]; [|apply safe_here].
  apply perform_reorg_safe; try done; [by eexists..|by apply Forall_rev].
Qed.

Lemma ShouldReplace_total n bnew btip block : closed n -> (forall p, pprev bnew = Some p -> has n p) ->
  exists ok n', ShouldReplaceVDFTip SHA3_256 steady_clock n bnew btip block = Some (ok, n') /\ n_chain n' = n_chain n /\
    n_pdb n' = n_pdb n.
Proof.
  intros HC Hb. unfold ShouldReplaceVDFTip. destruct (params n) as [cp|]; [|by exists false, n].
  destruct (_ || _); [by exists false, n|]. cbn [elapsed]. destruct (_ >? _); [by exists false, (tick n)|].
  destruct (preflight_total (tick n) bnew btip block) as (ok & n' & E & H & H'); [done..|]. by exists ok, n'.
Qed.

Lemma vdf_tiebreak_total n bnew btip block : closed n -> (forall p, pprev bnew = Some p -> has n p) ->
  exists ok n', vdf_tiebreak SHA3_256 steady_clock n bnew btip block = Some (ok, n') /\ n_chain n' = n_chain n /\
    n_pdb n' = n_pdb n.
Proof.
  intros HC Hb. unfold vdf_tiebreak. destruct (params n) as [cp|]; [|by exists false, n].
  destruct (_ && _); [|by exists false, n]. destruct (_ =? nHeight btip); [|by apply preflight_total].
  cbn [elapsed]. destruct (negb _); [|by exists false, (tick n)]. by apply (preflight_total (tick n)).
Qed.

Lemma extension_safe n pnew bnew block : closed n -> has n pnew -> has_coinbase_input block ->
  safe n ('(r, n) ← connect n pnew block false;
          if negb (is_ok r) then Some (ConnectRefused, n)
          else n ← set_tip n pnew;
               let n := match params n with
                        | Some cp => if (inVersion bnew >=? 4) && (nHeight bnew >=? vdfLotteryActivationHeight cp)
                                     then anchor_grace steady_clock n (nHeight bnew) else n
                        | None => n
                        end in
               '(_, n) ← write_best n pnew; Some (Extended, NotifyTipUpdate n pnew)).
Proof.
  intros HC Hn Hin. eapply safe_bind; [apply ConnectTip_safe; auto|]. intros r n1 K1. cbn beta iota.
  destruct (negb _); [apply safe_here|]. eapply safe1_bind; [apply set_tip_safe; by eapply has_keeps|]. intros n2 K2.
  set (n3 := match params n2 with Some _ => _ | None => _ end).
  assert (keeps_tree n2 n3) as K3 by (unfold n3; destruct (params n2); [destruct (_ && _)|]; done).
  eapply safe_move; [exact K3|]. eapply safe_bind; [|intros ok n4 K4; by apply safe_ret].
  apply write_best_safe. do 3 (eapply has_keeps; [done|]). done.
Qed.

Lemma replacement_safe n pold pnew block : closed n -> has n pold -> has n pnew -> has_coinbase_input block ->
  safe n ('(r, n) ← disconnect n pold;
          if negb (is_ok r) then Some (DisconnectRefused, n)
          else
            '(r, n) ← connect n pnew block false;
            if negb (is_ok r) then Some (ReplacementLost, set_chain n (FlagChainRebuild (n_chain n) ConnectTipFailure))
            else n ← persist_tip n pnew; Some (Replaced, NotifyTipUpdate n pnew)).
Proof.
  intros HC Ho Hn Hin. eapply safe_bind; [by apply DisconnectTip_safe|]. intros r n1 K1. cbn beta iota.
  destruct (negb _); [apply safe_here|]. eapply safe_bind.
  - apply ConnectTip_safe; [by eapply closed_keeps|by eapply has_keeps|auto].
  - intros r2 n2 K2. cbn beta iota. destruct (negb _); [by apply safe_ret|].
    eapply safe1_bind; [apply persist_tip_safe; do 2 (eapply has_keeps; [done|]); done|]. intros n3 K3. by apply safe_ret.
Qed.

Lemma legacy_activate_safe n pnew bnew block : index_wf (arena (n_chain n)) -> n_pdb n <> None ->
  (forall p, tip n = Some p -> has n p) -> deref n pnew = Some bnew -> has_coinbase_input block ->
  safe n (legacy_activate SHA3_256 randomx_hash_fast dilithium_verify seedPubkeys system_clock steady_clock
            connect_callbacks disconnect_callbacks n pnew bnew block).
Proof.
  intros Hwf Hdb Ht Hn Hin. pose proof (index_wf_closed n Hwf) as HC. assert (has n pnew) as Hp by (by exists bnew).
  assert (forall q, pprev bnew = Some q -> has n q) as Hpp by (intros q Hq; by eapply HC).
  unfold legacy_activate. destruct (tip n) as [pold|].
  - destruct (Ht pold eq_refl) as [btip Ho]. rewrite Ho. cbn [mbind option_bind]. assert (has n pold) as Hold by (by exists btip).
    destruct (bool_decide _); [destruct (negb _); [apply safe_here|by apply extension_safe]|].
    destruct (ShouldReplace_total n bnew btip block HC Hpp) as (rep & n1 & -> & C1 & B1). cbn [mbind option_bind].
    assert (keeps_tree n n1) as K1 by (intros q; unfold deref; by rewrite C1).
    eapply safe_move; [exact K1|]. destruct rep.
    { apply replacement_safe; [by eapply closed_keeps|by eapply has_keeps..|done]. }
    destruct (ChainWorkGreaterThan _ _).
    + apply reorganise_safe; unfold deref; by rewrite ?C1, ?B1.
    + destruct (vdf_tiebreak_total n1 bnew btip block) as (tb & n2 & -> & C2 & B2); [by eapply closed_keeps| |].
      { intros q Hq. eapply has_keeps; [done|]. by apply Hpp. }
      cbn [mbind option_bind]. assert (keeps_tree n1 n2) as K2 by (intros q; unfold deref; by rewrite C2).
      eapply safe_move; [exact K2|]. destruct tb; [|apply safe_here].
      apply reorganise_safe; unfold deref; by rewrite ?C2, ?C1, ?B2, ?B1.
  - eapply safe_bind; [apply ConnectTip_safe; auto|]. intros r n1 K1. cbn beta iota. destruct (negb _); [apply safe_here|].
    eapply safe1_bind; [apply persist_tip_safe; by eapply has_keeps|]. intros n2 K2. apply safe_here.
Qed.

(** ** The checkpoints *)

Lemma ancestor_is_total n p cp : index_wf (arena (n_chain n)) -> has n p -> is_Some (ancestor_is n p cp).
Proof.
  intros Hwf [b Hb]. unfold ancestor_is. rewrite (GetAncestor_walk _ p b _ Hwf Hb). cbn [mbind option_bind].
  destruct (_ && _); [|done]. destruct (pprev_walk _ _ _) as [q|] eqn:E; [|done].
  apply pprev_walk_has in E; [|by apply index_wf_closed|by exists b]. by destruct (node_hash_total n q E) as [h ->].
Qed.

Lemma checkpoint_tiers_total n p b : index_wf (arena (n_chain n)) -> deref n p = Some b -> is_Some (checkpoint_tiers n p b).
Proof.
  intros Hwf Hb. assert (has n p) as Hp by (by exists b). unfold checkpoint_tiers. destruct (params n) as [cp|]; [|done].
  destruct (negb _); [done|].
  assert (forall hc l, is_Some (ancestors_match n p (nHeight b) hc l)) as HM.
  { intros hc. induction l as [|c l IH]; [done|]. cbn [ancestors_match]. destruct (_ || _); [done|].
    destruct (ancestor_is_total n p c Hwf Hp) as [[] ->]; done. }
  assert (is_Some (match highest_checkpoint (checkpoints cp) with
                   | Some c => if nHeight b >? cp_nHeight c then ancestor_is n p c else Some true
                   | None => Some true
                   end)) as [t ->].
  { destruct (highest_checkpoint _) as [c|]; [|done]. destruct (_ >? _); [|done]. by apply ancestor_is_total. }
  cbn [mbind option_bind]. destruct t; cbn [negb]; [|done]. destruct (_ || _); [|done].
  by destruct (HM (highest_checkpoint (checkpoints cp)) (checkpoints cp)) as [ok ->].
Qed.
End Returns.

(** C5: on the default path [ActivateBestChain] terminates with one of its return
    statements, without following a dangling pointer or reading past a vector,
    for every node whose index is well-formed (heights count the parent links),
    whose tip is in the index and which has a block store, and for every block
    of the index whose coinbase, if it decodes, has an input.  Nothing is asked
    of the UTXO set, the pool, the trackers, the log, the callbacks or of what
    the databases answer.  The tree it leaves is the one it found. *)
Theorem activation_returns (D F X : Type) (LDB : LevelDB D) (WD : WalDisk F) (SHA3_256 randomx_hash_fast : list Z -> uint256)
    (dilithium_verify : list Z -> list Z -> list Z -> Z) (seedPubkeys : list (list Z)) (system_clock steady_clock : nat -> Z)
    (connect_callbacks disconnect_callbacks : list (CBlock -> Z -> uint256 -> Observed D X -> Observed D X))
    (n : Node D F X) (pindexNew : option addr) (block : CBlock)
    (Hwf : index_wf (arena (n_chain n))) (Hdb : n_pdb n <> None)
    (Hin : has_coinbase_input block) (Hnew : forall p, pindexNew = Some p \/ tip n = Some p -> is_Some (deref n p)) :
  exists a n', ActivateBestChain SHA3_256 randomx_hash_fast dilithium_verify seedPubkeys system_clock steady_clock
                 connect_callbacks disconnect_callbacks false n pindexNew block = Some (a, n') /\
    forall p, identity_of <$> deref n' p = identity_of <$> deref n p.
Proof.
  destruct pindexNew as [p|]; [|by exists NullIndex, n]. cbn [ActivateBestChain].
  destruct (Hnew p (or_introl eq_refl)) as [b Hb]. rewrite Hb. cbn [mbind option_bind].
  destruct (checkpoint_tiers_total n p b Hwf Hb) as [refused ->]. cbn [mbind option_bind]. destruct refused as [a|]; [by exists a, n|].
  apply legacy_activate_safe; try done. intros q Hq. apply Hnew. by right.
Qed.

(** Whether [p] and the tip are in the index. *)
Definition entries_known (n : ToyNode) (p : addr) : bool :=
  bool_decide (is_Some (deref n p)) &&
  match tip n with Some q => bool_decide (is_Some (deref n q)) | None => true end.
Lemma entries_known_sound n p : entries_known n p = true ->
  forall q, Some p = Some q \/ tip n = Some q -> is_Some (deref n q).
Proof.
  unfold entries_known. intros [H1 H2]%andb_true_iff q [[= <-]|Hq]; [by apply bool_decide_eq_true in H1|].
  rewrite Hq in H2. by apply bool_decide_eq_true in H2.
Qed.

Lemma activation_returns_witness : exists a n', toy_activate toy_node2 k6 = Some (a, n') /\
  identity_of <$> deref n' 6%positive = Some (sample_hash 6, 3, Some 5%positive).
Proof.
  destruct (activation_returns _ _ _ _ MemDisk toy_sha3 toy_sha3 (fun _ _ _ => 0) [] (fun _ => 0) (fun _ => 0) [] []
    toy_node2 (Some (k_addr k6)) (k_block k6)) as (a & n' & E & HI).
  - apply index_wfb_sound. vm_compute. reflexivity.
  - assert (bool_decide (is_Some (n_pdb toy_node2)) = true) as H by (vm_compute; reflexivity).
    intros E. rewrite E in H. discriminate H.
  - intros tx txs Htx. assert (DeserializeBlockTransactions (vtx (k_block k6)) = Ok [toy_tx 6]) as E
      by (vm_compute; reflexivity). rewrite E in Htx. injection Htx as <- <-. discriminate.
  - apply entries_known_sound. vm_compute. reflexivity.
  - exists a, n'. split; [exact E|]. rewrite HI. vm_compute. reflexivity.
Defined.
