(* ===== verification/Rewind.v ===== *)
(** * Rewinding the chain to a height ([CChainState::DisconnectToHeight])

    From a state in which tip, index, block store and UTXO set describe one
    chain, the function disconnects exactly the blocks above the target height,
    whatever the batch size, and leaves a state that describes the rest. *)

From S2P Require Import Prelude Uint256 ChainParams Block BlockIndex Transaction BlockTxs UtxoStore UtxoBlock.
From S2P Require Import Dfmp DfmpPow Cooldown VdfValidation ChainState Mempool BlockStorage ReorgWal TipUpdate Activation ActivationReturns.

Section Rewind.
  Context {D F X : Type} `{LDB : LevelDB D} `{WD : WalDisk F}.
  Variable SHA3_256 : list Z -> uint256.
  Hypothesis SHA3_len : forall l, length (SHA3_256 l) = 32%nat.
  Hypothesis HD : writes_succeed (D := D).
  Variable randomx_hash_fast : list Z -> uint256.
  Variable system_clock : nat -> Z.
  Variable disconnect_callbacks : list (CBlock -> Z -> uint256 -> Observed D X -> Observed D X).
  Implicit Types n : Node D F X.
  Implicit Types ks base : list Blk.

  #[local] Abbreviation agrees := (agrees SHA3_256).
  #[local] Abbreviation described := (described SHA3_256).
  #[local] Abbreviation keeps := (keeps SHA3_256).

(** The node describes the chain [ks] and its tip is the newest block. *)
Record stands n ks (m : utxo_map) : Prop := {
  sd_agrees : agrees n ks m;
  sd_tip : tip n = k_addr <$> head ks;
  sd_linked : linked ks;
  sd_closed : closed n
}.

Lemma stands_keeps n n' ks m : keeps n n' -> n_utxo n' = n_utxo n -> stands n ks m -> stands n' ks m.
Proof.
  intros [HS HT] HU [HA Htip HL HC]. split; [by eapply agrees_same|congruence|done|]. eapply closed_keeps; [|done].
  intros p. apply (ss_index _ _ _ HS).
Qed.
Lemma stands_log n f ks m : stands n ks m -> stands (log n f) ks m.
Proof. destruct (log_same SHA3_256 n f) as (_ & HU & _). apply stands_keeps; [apply keeps_log|done]. Qed.

Lemma described_deref n k : described n k ->
  exists b, deref n (k_addr k) = Some b /\ GetBlockHash b = k_hash k /\ nHeight b = k_height k /\ pprev b = k_prev k.
Proof. intros [Hid _]. destruct (deref n (k_addr k)) as [b|]; [|done]. injection Hid as H1 H2 H3. eauto. Qed.

(** In a well-formed index a block's height is the number of blocks below it. *)
Lemma chain_heights n ks : index_wf (arena (n_chain n)) -> Forall (described n) ks -> linked ks ->
  forall k ks', ks = k :: ks' -> k_height k = len ks'.
Proof.
  intros Hwf. induction ks as [|k0 ks IH]; intros HF HL k ks' E; [done|]. injection E as <- <-.
  apply Forall_cons in HF as [Hk HF]. destruct HL as [Hp HL]. destruct (described_deref _ _ Hk) as (b & Hb & _ & Hh & Hpv).
  destruct (Hwf _ _ Hb) as [[_ HL'] _]. rewrite Hpv, Hp in HL'. destruct ks as [|k1 ks]; cbn in HL'.
  - rewrite <- Hh. done.
  - destruct HL' as (b1 & Hb1 & Hh1). pose proof (IH HF HL k1 ks eq_refl) as H1. apply Forall_cons in HF as [Hk1 _].
    destruct (described_deref _ _ Hk1) as (b1' & Hb1' & _ & Hh1' & _). unfold deref in Hb1'. rewrite Hb1 in Hb1'.
    injection Hb1' as <-. unfold len in *. cbn [length]. lia.
Qed.

Lemma hashes_above_total n target : index_wf (arena (n_chain n)) -> forall fuel p b, deref n p = Some b ->
  (Z.to_nat (nHeight b) < fuel)%nat -> is_Some (hashes_above fuel n (Some p) target).
Proof.
  intros Hwf. induction fuel as [|fuel IH]; intros p b Hb Hf; [lia|]. cbn [hashes_above]. rewrite Hb. cbn [mbind option_bind].
  destruct (_ >? _); [|done]. destruct (Hwf p b Hb) as [[H0 HL] _]. destruct (pprev b) as [q|].
  - destruct HL as (bq & Hq & Hh). destruct (Hwf q bq Hq) as [[H1 _] _]. destruct (IH q bq Hq) as [[l f] ->]; [lia|done].
  - destruct fuel; done.
Qed.

Lemma finish_stands n ks m : stands n ks m ->
  exists n', match tip n with Some p => '(_, n) ← write_best n p; Some n | None => Some n end = Some n' /\ stands n' ks m.
Proof.
  intros HS. pose proof (sd_tip _ _ _ HS) as Ht. destruct (tip n) as [p|]; [|eauto].
  destruct ks as [|k ks']; [done|]. injection Ht as ->.
  pose proof (ag_desc _ _ _ _ (sd_agrees _ _ _ HS)) as HF. apply Forall_cons in HF as [Hk _].
  destruct (described_deref _ _ Hk) as (b & Hb & _).
  destruct (write_best_safe n (k_addr k)) as (ok & n1 & E1 & _); [by exists b|]. rewrite E1. cbn [mbind option_bind].
  apply (write_best_spec SHA3_256) in E1 as [K1 U1]. eexists. split; [done|]. by eapply stands_keeps.
Qed.

Lemma end_batch_stands n ks m total : stands n ks m ->
  exists n', end_batch SHA3_256 n total = Some n' /\ stands n' ks m.
Proof.
  intros HS. unfold end_batch. destruct (finish_stands n ks m HS) as (n1 & -> & HS1). cbn [mbind option_bind].
  eexists. split; [done|]. by apply stands_log.
Qed.

(** One block disconnected and the tip moved to its parent. *)
Lemma pop_tip n k ks m : stands n (k :: ks) m ->
  exists r n1 b, deref n (k_addr k) = Some b /\ nHeight b = k_height k /\
    disconnect_tip SHA3_256 randomx_hash_fast system_clock disconnect_callbacks n (k_addr k) = Some (r, n1) /\ is_ok r = true /\
    exists h m', match pprev b with Some q => bq ← deref n1 q; Some (nHeight bq) | None => Some (-1) end = Some h /\
      stands (set_chain n1 (move_tip (n_chain n1) (pprev b) h)) ks m'.
Proof.
  intros [HA HT HL HC]. pose proof (ag_desc _ _ _ _ HA) as HF. apply Forall_cons in HF as [Hk HF].
  destruct (described_deref _ _ Hk) as (b & Hb & _ & Hh & Hpv). destruct HL as [Hp HL].
  destruct (DisconnectTip_safe SHA3_256 randomx_hash_fast system_clock disconnect_callbacks n (k_addr k) HC) as (r & n1 & E & K1);
    [by exists b|].
  destruct (disconnect_agrees SHA3_256 SHA3_len HD randomx_hash_fast system_clock disconnect_callbacks n k ks m r n1 HA E)
    as (FR & Hr & m' & spent & HA1 & _).
  exists r, n1, b. split_and!; [done..|]. rewrite Hpv, Hp.
  assert (exists h, match k_addr <$> head ks with Some q => bq ← deref n1 q; Some (nHeight bq) | None => Some (-1) end = Some h)
    as [h Eh].
  { destruct ks as [|k1 ks]; cbn; [eauto|]. apply Forall_cons in HF as [Hk1 _].
    destruct (described_deref _ _ Hk1) as (b1 & Hb1 & _). destruct (has_keeps n n1 (k_addr k1)) as [b1' ->]; [done|by exists b1|].
    cbn. eauto. }
  exists h, m'. split; [exact Eh|]. split; [|done|done|].
  - eapply (agrees_same SHA3_256 n1); [by split|done|exact HA1].
  - eapply (closed_keeps n1); [done|]. by eapply closed_keeps.
Qed.

Lemma disconnect_down_stands target batchSize ks : forall fuel n base m batchCount total,
  stands n (ks ++ base) m -> (length ks < fuel)%nat ->
  Forall (fun k => target < k_height k) ks -> (forall k, head base = Some k -> k_height k <= target) ->
  exists n' m', disconnect_down SHA3_256 randomx_hash_fast system_clock disconnect_callbacks fuel n target batchSize batchCount total
                = Some (total + len ks, n') /\ stands n' base m'.
Proof.
  induction ks as [|k ks IH]; intros [|fuel] n base m bc total HS Hf Hab Hbe; cbn [length] in Hf; [lia| |lia|];
    cbn [disconnect_down]; rewrite (sd_tip _ _ _ HS).
  - assert (exists n', (if bc >? 0 then end_batch SHA3_256 n total else Some n) = Some n' /\ stands n' base m) as (n' & E & HS').
    { destruct (bc >? 0); [by apply end_batch_stands|eauto]. }
    unfold len. cbn [length app]. rewrite Z.add_0_r. destruct base as [|k base]; cbn [head fmap option_fmap option_map].
    + rewrite E. cbn. eauto.
    + pose proof (ag_desc _ _ _ _ (sd_agrees _ _ _ HS)) as HF. apply Forall_cons in HF as [Hk _].
      destruct (described_deref _ _ Hk) as (b & -> & _ & Hh & _). cbn [mbind option_bind].
      rewrite Hh. specialize (Hbe k eq_refl). destruct (Z.gtb_spec (k_height k) target); [lia|]. rewrite E. cbn. eauto.
  - apply Forall_cons in Hab as [Hk Hab]. cbn [app head fmap option_fmap option_map].
    destruct (pop_tip n k (ks ++ base) m HS) as (r & n1 & b & Hb & Hh & E1 & Hr & h & m' & Eh & HS1).
    rewrite Hb. cbn [mbind option_bind]. rewrite Hh. destruct (Z.gtb_spec (k_height k) target); [|lia].
    rewrite E1. cbn [mbind option_bind]. rewrite Hr. cbn [negb]. rewrite Eh. cbn [mbind option_bind].
    replace (total + len (k :: ks)) with ((total + 1) + len ks) by (unfold len; cbn [length]; lia).
    destruct (_ && _).
    + destruct (end_batch_stands _ _ _ (total + 1) HS1) as (n2 & -> & HS2). cbn [mbind option_bind]. eapply IH; try done. lia.
    + eapply IH; try done. lia.
Qed.

Lemma split_at_height n ks target : index_wf (arena (n_chain n)) -> Forall (described n) ks -> linked ks ->
  0 <= target < len ks -> let c := Z.to_nat (len ks - 1 - target) in
  Forall (fun k => target < k_height k) (take c ks) /\ (forall k, head (drop c ks) = Some k -> k_height k = target).
Proof.
  intros Hwf HF HL Ht. assert (forall i k, ks !! i = Some k -> k_height k = len ks - 1 - Z.of_nat i) as Hi.
  { clear Ht. induction ks as [|k0 ks IH]; intros i k Hk; [done|].
    destruct i as [|i]; cbn [lookup list_lookup] in Hk.
    - injection Hk as <-. rewrite (chain_heights n (k0 :: ks) Hwf HF HL k0 ks eq_refl). unfold len. cbn [length]. lia.
    - apply Forall_cons in HF as [_ HF]. destruct HL as [_ HL]. rewrite (IH HF HL i k Hk). unfold len. cbn [length]. lia. }
  cbv zeta. split.
  - apply Forall_lookup. intros i k Hk. apply lookup_take_Some in Hk as [Hk Hlt]. rewrite (Hi i k Hk). lia.
  - intros k Hk. rewrite head_lookup, lookup_drop in Hk. rewrite (Hi _ k Hk). lia.
Qed.

Lemma DisconnectToHeight_stands n k ks m target batchSize : index_wf (arena (n_chain n)) -> stands n (k :: ks) m ->
  0 <= target <= len ks -> 0 <= batchSize ->
  (forall cp c, params n = Some cp -> GetLastCheckpoint cp (len ks) = Some c -> cp_nHeight c <= target) ->
  exists n' m', DisconnectToHeight SHA3_256 randomx_hash_fast system_clock disconnect_callbacks n target batchSize
                = Some (len ks - target, n') /\ stands n' (drop (Z.to_nat (len ks - target)) (k :: ks)) m'.
Proof.
  intros Hwf HS Ht Hbatch Hcp. pose proof HS as [HA HT HL _]. pose proof (ag_desc _ _ _ _ HA) as HF.
  assert (len (k :: ks) - 1 = len ks) as Elen by (unfold len; cbn [length]; lia).
  destruct (split_at_height n (k :: ks) target Hwf HF HL ltac:(lia)) as [Hab Hbe]. rewrite Elen in Hab, Hbe.
  pose proof (chain_heights n (k :: ks) Hwf HF HL k ks eq_refl) as Hheight.
  apply Forall_cons in HF as [Hk _]. destruct (described_deref _ _ Hk) as (b & Hb & _ & Hh & _). rewrite Hheight in Hh.
  unfold DisconnectToHeight. rewrite HT. cbn [head fmap option_fmap option_map]. rewrite Hb. cbn [mbind option_bind].
  destruct (Z.ltb_spec target 0); [lia|]. rewrite Hh. destruct (Z.leb_spec (len ks) target).
  { replace (len ks - target) with 0 by lia. exists n, m. by split. }
  assert (match params n with
          | Some cp => match GetLastCheckpoint cp (len ks) with Some c => target <? cp_nHeight c | None => false end
          | None => false
          end = false) as ->.
  { destruct (params n) as [cp|]; [|done]. destruct (GetLastCheckpoint cp _) as [c|] eqn:Ec; [|done]. apply Z.ltb_ge. by eapply Hcp. }
  rewrite (proj2 (Z.leb_le 0 batchSize) Hbatch). cbn [abort_unless].
  destruct (hashes_above_total n target Hwf (S (Z.to_nat (len ks))) (k_addr k) b Hb) as [[hs fh] ->]; [lia|].
  cbn [mbind option_bind]. set (n1 := log (log n _) _). set (c := Z.to_nat (len ks - target)) in *.
  assert (stands n1 (take c (k :: ks) ++ drop c (k :: ks)) m) as HS1 by (rewrite take_drop; by do 2 apply stands_log).
  destruct (disconnect_down_stands target batchSize (take c (k :: ks)) (S (S (Z.to_nat (len ks)))) n1 (drop c (k :: ks)) m 0 0 HS1)
    as (n2 & m2 & -> & HS2); [rewrite length_take; lia|done|intros k0 Hk0; rewrite (Hbe k0 Hk0); lia|].
  assert (0 + len (take c (k :: ks)) = len ks - target) as -> by (unfold len in *; rewrite length_take; cbn [length]; lia).
  cbn [mbind option_bind]. destruct (Z.ltb_spec (len ks - target) 0); [lia|].
  destruct (finish_stands n2 _ _ HS2) as (n3 & -> & HS3). cbn [mbind option_bind]. eexists _, _. split; [done|]. by apply stands_log.
Qed.
End Rewind.

(** C6: rewinding is exact. When the index is well-formed, tip, index, block store and UTXO set describe one chain
    (linked down to the first block, with its undo records, and no block of it spending an output created in the same
    block), the database accepts every write, the target is a height of the chain, the batch size is not negative and
    the last checkpoint of the chain is not above the target, [DisconnectToHeight] returns the number of blocks above
    the target height; the new tip is the block at that height and the UTXO set is the ledger of the blocks up to it.
    *)
Theorem DisconnectToHeight_rewinds (D F X : Type) (LDB : LevelDB D) (WD : WalDisk F)
    (SHA3_256 randomx_hash_fast : list Z -> uint256) (SHA3_len : forall l, length (SHA3_256 l) = 32%nat)
    (HD : writes_succeed (D := D)) (system_clock : nat -> Z)
    (disconnect_callbacks : list (CBlock -> Z -> uint256 -> Observed D X -> Observed D X))
    (n : Node D F X) (chain : list Blk) (m : utxo_map) (target batchSize : Z)
    (Hwf : index_wf (arena (n_chain n))) (HS : stands SHA3_256 n chain m) (Htarget : 0 <= target < len chain) (Hbatch : 0 <= batchSize)
    (Hcp : forall cp c, params n = Some cp -> GetLastCheckpoint cp (len chain - 1) = Some c -> cp_nHeight c <= target) :
  let count := len chain - 1 - target in
  let rest := drop (Z.to_nat count) chain in
  exists n' m', DisconnectToHeight SHA3_256 randomx_hash_fast system_clock disconnect_callbacks n target batchSize
                = Some (count, n') /\
    stands SHA3_256 n' rest m' /\ k_height <$> head rest = Some target /\ accepts SHA3_256 ∅ (rev rest) m'.
Proof.
  intros count rest. pose proof HS as [HA _ HL _].
  destruct (split_at_height SHA3_256 n chain target Hwf (ag_desc _ _ _ _ HA) HL Htarget) as [Hab Hbe]. fold count rest in Hab, Hbe.
  assert (k_height <$> head rest = Some target) as Hrest.
  { destruct (head rest) as [k|] eqn:Ek; [cbn; by rewrite (Hbe k eq_refl)|]. apply head_None in Ek. exfalso.
    apply (f_equal length) in Ek. unfold rest in Ek. rewrite length_drop in Ek. unfold count, len in *. cbn in Ek. lia. }
  destruct chain as [|k ks]; [unfold len in Htarget; cbn in Htarget; lia|].
  assert (len (k :: ks) - 1 = len ks) as Elen by (unfold len; cbn [length]; lia). rewrite Elen in Hcp.
  destruct (DisconnectToHeight_stands SHA3_256 SHA3_len HD randomx_hash_fast system_clock disconnect_callbacks n k ks m target
    batchSize Hwf HS) as (n' & m' & E & HS'); [unfold len in *; cbn [length] in *; lia|done|done|].
  unfold rest, count in *. rewrite Elen in *. exists n', m'. split_and!; try done.
  destruct HS' as [[(u & _ & _ & Hst) _ _] _ _ _]. by eapply stacked_accepts.
Qed.

(** Rewinding 1 <- 2 <- 3 to the first block. *)
Lemma DisconnectToHeight_rewinds_witness : exists n' m',
  DisconnectToHeight toy_sha3 toy_sha3 (fun _ => 0) [] toy_node2 0 1 = Some (2, n') /\
  tip n' = Some (k_addr k1) /\ agrees toy_sha3 n' [k1] m'.
Proof.
  destruct toy_ledger2 as [H2 T2].
  destruct (DisconnectToHeight_rewinds _ _ _ MemDB MemDisk toy_sha3 toy_sha3 toy_sha3_len MemDB_writes_succeed (fun _ => 0) []
    toy_node2 [k3; k2; k1] toy_m2 0 1) as (n' & m' & E & [HA HT _ _] & _ & _).
  - apply index_wfb_sound. vm_compute. reflexivity.
  - split; [exact H2|exact T2|repeat split|]. apply index_wf_closed, index_wfb_sound. vm_compute. reflexivity.
  - vm_compute. split; [discriminate|reflexivity].
  - lia.
  - assert (match params toy_node2 with Some _ => false | None => true end = true) as HP by (vm_compute; reflexivity).
    intros cp c E. rewrite E in HP. discriminate HP.
  - exists n', m'. split; [exact E|]. split; [exact HT|exact HA].
Defined.
