(* ===== verification/OrphanManager.v ===== *)
(** * Orphan blocks (net/orphan_manager)

    Blocks whose parent is unknown, indexed by hash, parent and peer, with
    limits per peer, on their number and on their bytes, a score that selects
    the block to evict, and the requests for missing parents.  Maps keyed by
    hash are iterated in [std::map]'s order; the multimap by parent keeps, per
    parent, the order of insertion.  Times are readings of [steady_clock] in
    nanoseconds, taken by position from the reading [clock]; the metrics are
    left out. *)

From S2P Require Import Prelude Uint256 Block BlockIndex Transaction Cooldown ChainState.

Definition MAX_ORPHAN_BLOCKS : Z := 512.
Definition MAX_ORPHAN_BYTES : Z := 100 * 1024 * 1024.
Definition MAX_ORPHANS_PER_PEER : Z := 256.
Definition PARENT_REQUEST_TIMEOUT_SECS : Z := 30.
Definition MAX_PARENT_REQUEST_RETRIES : Z := 3.

Abbreviation NodeId := Z.

Record COrphanBlock := mkOrphan {
  o_block : CBlock;
  fromPeer : NodeId;
  timeReceived : Z;
  nBlockSize : Z
}.

Record PendingParentRequest := mkRequest {
  pr_parentHash : uint256;
  pr_orphanHash : uint256;
  requestedFrom : NodeId;
  requestTime : Z;
  retryCount : Z
}.

Record COrphanManager := mkOrphans {
  mapOrphanBlocks : gmap uint256 COrphanBlock;
  mapOrphanBlocksByPrev : gmap uint256 (list uint256);
  mapOrphanBlocksByPeer : gmap NodeId (gset uint256);
  nOrphanBytes : Z;
  mapPendingParentRequests : gmap uint256 PendingParentRequest
}.

Definition new_COrphanManager : COrphanManager := mkOrphans ∅ ∅ ∅ 0 ∅.

Definition set_orphan_bytes (m : COrphanManager) (b : Z) : COrphanManager :=
  mkOrphans (mapOrphanBlocks m) (mapOrphanBlocksByPrev m) (mapOrphanBlocksByPeer m) b (mapPendingParentRequests m).
Definition set_requests (m : COrphanManager) (r : gmap uint256 PendingParentRequest) : COrphanManager :=
  mkOrphans (mapOrphanBlocks m) (mapOrphanBlocksByPrev m) (mapOrphanBlocksByPeer m) (nOrphanBytes m) r.

(** ** Helpers *)

Definition parent_of (o : COrphanBlock) : uint256 := hashPrevBlock (block_header (o_block o)).

Definition GetBlockSize (block : CBlock) : Z := 80 + len (vtx block) + 100.

Definition PeerExceedsOrphanLimit (m : COrphanManager) (peer : NodeId) : bool :=
  match mapOrphanBlocksByPeer m !! peer with
  | None => false
  | Some s => Z.of_nat (size s) >=? MAX_ORPHANS_PER_PEER
  end.

Definition EraseOrphanInternal (m : COrphanManager) (hash : uint256) (orphan : COrphanBlock) : COrphanManager :=
  let byPrev :=
    match mapOrphanBlocksByPrev m !! parent_of orphan with
    | None => mapOrphanBlocksByPrev m
    | Some l =>
        match filter (fun h => h <> hash) l with
        | [] => delete (parent_of orphan) (mapOrphanBlocksByPrev m)
        | l' => <[parent_of orphan := l']> (mapOrphanBlocksByPrev m)
        end
    end in
  let byPeer :=
    match mapOrphanBlocksByPeer m !! fromPeer orphan with
    | None => mapOrphanBlocksByPeer m
    | Some s =>
        if decide (s ∖ {[ hash ]} = ∅) then delete (fromPeer orphan) (mapOrphanBlocksByPeer m)
        else <[fromPeer orphan := s ∖ {[ hash ]}]> (mapOrphanBlocksByPeer m)
    end in
  mkOrphans (delete hash (mapOrphanBlocks m)) byPrev byPeer (nOrphanBytes m) (mapPendingParentRequests m).

(** The caller's part of an erasure: the byte count, then the indexes. *)
Definition erase_counted (m : COrphanManager) (hash : uint256) : bool * COrphanManager :=
  match mapOrphanBlocks m !! hash with
  | None => (false, m)
  | Some o => (true, EraseOrphanInternal (set_orphan_bytes m (u64 (nOrphanBytes m - nBlockSize o))) hash o)
  end.

(** [duration_cast] truncates. *)
Definition age_minutes (now : Z) (o : COrphanBlock) : Z := Z.quot (now - timeReceived o) 60000000000.
Definition age_seconds (now t : Z) : Z := Z.quot (now - t) 1000000000.

Section Orphans.
  Variable SHA3_256 : list Z -> uint256.
  Variable randomx_hash_fast : list Z -> uint256.
  Variable g_chainstate : CChainState.

(** 100 for a known parent, less one per minute, at most 20. *)
Definition orphan_score (now : Z) (o : COrphanBlock) : Z :=
  (if HasBlockIndex g_chainstate (parent_of o) then 100 else 0) - Z.min 20 (i32 (age_minutes now o)).

Definition SelectOrphanForEviction (m : COrphanManager) (now : Z) : uint256 :=
  match addr_ordered (mapOrphanBlocks m) with
  | [] => zero256
  | ((first, o) :: _) as l =>
      fst (foldl (fun best e => let score := orphan_score now e.2 in if score <? snd best then (e.1, score) else best)
             (first, 2 ^ 31 - 1) l)
  end.

(** [while (cond) evict]; the counter [i] is the position of the next reading of
    the clock. *)
Fixpoint evict_while (fuel : nat) (clock : nat -> Z) (i : nat) (cond : COrphanManager -> bool) (m : COrphanManager)
  : COrphanManager * nat :=
  match fuel with
  | O => (m, i)
  | S fuel' =>
      if cond m then
        let toEvict := SelectOrphanForEviction m (clock i) in
        if IsNull toEvict then (m, S i)
        else evict_while fuel' clock (S i) cond (snd (erase_counted m toEvict))
      else (m, i)
  end.

Definition over_count (m : COrphanManager) : bool := Z.of_nat (size (mapOrphanBlocks m)) >? MAX_ORPHAN_BLOCKS.
Definition over_bytes (m : COrphanManager) : bool :=
  (nOrphanBytes m >? MAX_ORPHAN_BYTES) && negb (bool_decide (mapOrphanBlocks m = ∅)).

Definition LimitOrphans (clock : nat -> Z) (i : nat) (m : COrphanManager) : COrphanManager * nat :=
  let '(m, i) := evict_while (size (mapOrphanBlocks m)) clock i over_count m in
  evict_while (size (mapOrphanBlocks m)) clock i over_bytes m.

(** ** Operations *)

Definition AddOrphanBlock (m : COrphanManager) (clock : nat -> Z) (peer : NodeId) (block : CBlock) : bool * COrphanManager :=
  let '(hash, hdr) := GetHash SHA3_256 randomx_hash_fast (block_header block) in
  if bool_decide (is_Some (mapOrphanBlocks m !! hash)) then (true, m)
  else if PeerExceedsOrphanLimit m peer then (false, m)
  else
    let blockSize := GetBlockSize block in
    let full m := u64 (nOrphanBytes m + blockSize) >? MAX_ORPHAN_BYTES in
    let '(m, i) := if full m then LimitOrphans clock 0 m else (m, 0%nat) in
    if full m then (false, m)
    else
      let prev := hashPrevBlock (block_header block) in
      let m := mkOrphans
        (<[hash := mkOrphan (mkBlock hdr (vtx block)) peer (clock i) blockSize]> (mapOrphanBlocks m))
        (<[prev := default [] (mapOrphanBlocksByPrev m !! prev) ++ [hash]]> (mapOrphanBlocksByPrev m))
        (<[peer := default ∅ (mapOrphanBlocksByPeer m !! peer) ∪ {[ hash ]}]> (mapOrphanBlocksByPeer m))
        (u64 (nOrphanBytes m + blockSize)) (mapPendingParentRequests m) in
      (true, fst (LimitOrphans clock (S i) m)).

Definition HaveOrphanBlock (m : COrphanManager) (hash : uint256) : bool := bool_decide (is_Some (mapOrphanBlocks m !! hash)).
Definition GetOrphanBlock (m : COrphanManager) (hash : uint256) : option CBlock := o_block <$> mapOrphanBlocks m !! hash.

Definition EraseOrphanBlock (m : COrphanManager) (hash : uint256) : bool * COrphanManager := erase_counted m hash.

Definition GetOrphanChildren (m : COrphanManager) (parentHash : uint256) : list uint256 :=
  default [] (mapOrphanBlocksByPrev m !! parentHash).

(** The walk back through the pool; [None]: the fuel ran out. *)
Fixpoint root_walk (fuel : nat) (m : COrphanManager) (hash current root : uint256) (visited : gset uint256) : option uint256 :=
  match fuel with
  | O => None
  | S fuel' =>
      match mapOrphanBlocks m !! current with
      | None => Some root
      | Some o =>
          if decide (current ∈ visited) then Some hash
          else
            let visited := visited ∪ {[ current ]} in
            if bool_decide (is_Some (mapOrphanBlocks m !! parent_of o)) then root_walk fuel' m hash (parent_of o) current visited
            else Some current
      end
  end.
Definition GetOrphanRoot (m : COrphanManager) (hash : uint256) : option uint256 :=
  root_walk (S (size (mapOrphanBlocks m))) m hash hash hash ∅.

(** Erasing a list of hashes; those found are counted. *)
Definition erase_list (m : COrphanManager) (l : list uint256) : Z * COrphanManager :=
  foldl (fun acc h => let '(ok, m) := erase_counted (snd acc) h in ((if ok then fst acc + 1 else fst acc), m)) (0, m) l.

Definition drop_peer (m : COrphanManager) (peer : NodeId) : COrphanManager :=
  mkOrphans (mapOrphanBlocks m) (mapOrphanBlocksByPrev m) (delete peer (mapOrphanBlocksByPeer m)) (nOrphanBytes m)
    (mapPendingParentRequests m).
Definition EraseOrphansForPeer (m : COrphanManager) (peer : NodeId) : Z * COrphanManager :=
  match mapOrphanBlocksByPeer m !! peer with
  | None => (0, m)
  | Some s => let '(count, m) := erase_list m (elements s) in (count, drop_peer m peer)
  end.

Definition GetOrphanCountForPeer (m : COrphanManager) (peer : NodeId) : Z :=
  match mapOrphanBlocksByPeer m !! peer with None => 0 | Some s => Z.of_nat (size s) end.

Definition EraseExpiredOrphans (m : COrphanManager) (now maxAge : Z) : Z * COrphanManager :=
  erase_list m (filter (fun e : uint256 * COrphanBlock => maxAge < age_seconds now (timeReceived e.2))
                  (addr_ordered (mapOrphanBlocks m))).*1.

Definition GetOrphanCount (m : COrphanManager) : Z := Z.of_nat (size (mapOrphanBlocks m)).
Definition GetOrphanBytes (m : COrphanManager) : Z := nOrphanBytes m.
Definition GetAllOrphans (m : COrphanManager) : list uint256 := (addr_ordered (mapOrphanBlocks m)).*1.
Definition Orphans_Clear (m : COrphanManager) : COrphanManager := new_COrphanManager.

(** *** Requests for parents *)

Definition RecordParentRequest (m : COrphanManager) (now : Z) (orphanHash parentHash : uint256) (peer : NodeId) : COrphanManager :=
  match mapPendingParentRequests m !! parentHash with
  | Some _ => m
  | None => set_requests m (<[parentHash := mkRequest parentHash orphanHash peer now 0]> (mapPendingParentRequests m))
  end.
Definition MarkParentReceived (m : COrphanManager) (parentHash : uint256) : COrphanManager :=
  set_requests m (delete parentHash (mapPendingParentRequests m)).

(** One request: reported when it is overdue, dropped after the last retry. *)
Definition visit_request (now : Z) (acc : list (uint256 * uint256) * gmap uint256 PendingParentRequest)
    (e : uint256 * PendingParentRequest) : list (uint256 * uint256) * gmap uint256 PendingParentRequest :=
  let '(timedOut, reqs) := acc in
  let r := e.2 in
  if age_seconds now (requestTime r) >? PARENT_REQUEST_TIMEOUT_SECS then
    (timedOut ++ [(pr_parentHash r, pr_orphanHash r)],
     if retryCount r >=? MAX_PARENT_REQUEST_RETRIES then delete e.1 reqs
     else <[e.1 := mkRequest (pr_parentHash r) (pr_orphanHash r) (requestedFrom r) now (retryCount r + 1)]> reqs)
  else acc.
Definition GetTimedOutParentRequests (m : COrphanManager) (now : Z) : list (uint256 * uint256) * COrphanManager :=
  let '(timedOut, reqs) := foldl (visit_request now) ([], mapPendingParentRequests m) (addr_ordered (mapPendingParentRequests m)) in
  (timedOut, set_requests m reqs).

Definition HasPendingParentRequest (m : COrphanManager) (parentHash : uint256) : bool :=
  bool_decide (is_Some (mapPendingParentRequests m !! parentHash)).
Definition GetPendingParentRequestCount (m : COrphanManager) : Z := Z.of_nat (size (mapPendingParentRequests m)).
End Orphans.

(** ** The invariant of the pool *)

Definition orphan_bytes (m : gmap uint256 COrphanBlock) : Z := map_fold (fun _ o acc => nBlockSize o + acc) 0 m.
Definition peer_orphans (m : COrphanManager) (peer : NodeId) : gset uint256 := default ∅ (mapOrphanBlocksByPeer m !! peer).

(** The indexes are those of the blocks, and the byte count is their sum. *)
Record pool_ok (SHA3_256 randomx_hash_fast : list Z -> uint256) (m : COrphanManager) : Prop := {
  po_bytes : nOrphanBytes m = orphan_bytes (mapOrphanBlocks m);
  po_range : orphan_bytes (mapOrphanBlocks m) < 2 ^ 63;
  po_blocks : map_Forall (fun h o => h = fst (GetHash SHA3_256 randomx_hash_fast (block_header (o_block o))) /\ IsNull h = false /\
                 nBlockSize o = GetBlockSize (o_block o)) (mapOrphanBlocks m);
  po_prev : forall p h, h ∈ GetOrphanChildren m p <-> exists o, mapOrphanBlocks m !! h = Some o /\ parent_of o = p;
  po_prev_once : forall p, NoDup (GetOrphanChildren m p);
  po_peer : forall q h, h ∈ peer_orphans m q <-> exists o, mapOrphanBlocks m !! h = Some o /\ fromPeer o = q;
  po_tidy : forall p q, mapOrphanBlocksByPrev m !! p <> Some [] /\ mapOrphanBlocksByPeer m !! q <> Some ∅
}.

Record within_limits (m : COrphanManager) : Prop := {
  wl_count : GetOrphanCount m <= MAX_ORPHAN_BLOCKS;
  wl_bytes : GetOrphanBytes m <= MAX_ORPHAN_BYTES;
  wl_peer : forall q, GetOrphanCountForPeer m q <= MAX_ORPHANS_PER_PEER
}.

Lemma orphan_bytes_insert m h o : m !! h = None -> orphan_bytes (<[h := o]> m) = nBlockSize o + orphan_bytes m.
Proof. intros H. unfold orphan_bytes. rewrite map_fold_insert_L; [done| |done]. intros; lia. Qed.
Lemma orphan_bytes_delete m h o : m !! h = Some o -> orphan_bytes m = nBlockSize o + orphan_bytes (delete h m).
Proof. intros H. unfold orphan_bytes. rewrite map_fold_delete_L with (i := h) (x := o); [done| |done]. intros; lia. Qed.
Lemma orphan_bytes_nonneg m : map_Forall (fun _ o => 0 <= nBlockSize o) m -> 0 <= orphan_bytes m.
Proof.
  induction m as [|h o m Hh IH] using map_ind; [done|]. rewrite map_Forall_insert, orphan_bytes_insert by done. intros [? Hm]. specialize (IH Hm). lia.
Qed.
Lemma GetBlockSize_pos b : 180 <= GetBlockSize b.
Proof. unfold GetBlockSize, len. lia. Qed.

Lemma count_for_peer m q : GetOrphanCountForPeer m q = Z.of_nat (size (peer_orphans m q)).
Proof. unfold GetOrphanCountForPeer, peer_orphans. destruct (mapOrphanBlocksByPeer m !! q); [done|]. cbn. by rewrite size_empty. Qed.

Section Invariant.
  Variable SHA3_256 randomx_hash_fast : list Z -> uint256.
  #[local] Abbreviation pool_ok := (pool_ok SHA3_256 randomx_hash_fast).

Lemma pool_nonneg m : pool_ok m -> 0 <= orphan_bytes (mapOrphanBlocks m).
Proof.
  intros H. apply orphan_bytes_nonneg. intros h o Ho. destruct (po_blocks _ _ _ H h o Ho) as (_ & _ & ->).
  pose proof (GetBlockSize_pos (o_block o)). lia.
Qed.

(** What an erasure does to the two indexes. *)
Lemma erase_children m h o p : GetOrphanChildren (EraseOrphanInternal m h o) p =
  if decide (p = parent_of o) then filter (fun x => x <> h) (GetOrphanChildren m p) else GetOrphanChildren m p.
Proof.
  unfold GetOrphanChildren. cbn [EraseOrphanInternal mapOrphanBlocksByPrev].
  destruct (mapOrphanBlocksByPrev m !! parent_of o) as [l|] eqn:El.
  - destruct (decide (p = parent_of o)) as [->|Hne].
    + rewrite El. cbn [default]. destruct (filter _ l) eqn:Ef; [by rewrite lookup_delete_eq|by rewrite lookup_insert_eq].
    + destruct (filter _ l) eqn:Ef; [by rewrite lookup_delete_ne|by rewrite lookup_insert_ne].
  - case_decide as E; [|done]. subst p. by rewrite El.
Qed.

Lemma erase_peer m h o q : peer_orphans (EraseOrphanInternal m h o) q =
  if decide (q = fromPeer o) then peer_orphans m q ∖ {[ h ]} else peer_orphans m q.
Proof.
  unfold peer_orphans. cbn [EraseOrphanInternal mapOrphanBlocksByPeer].
  destruct (mapOrphanBlocksByPeer m !! fromPeer o) as [s|] eqn:Es.
  - destruct (decide (q = fromPeer o)) as [->|Hne].
    + rewrite Es. cbn [default]. case_decide as E; [rewrite lookup_delete_eq; cbn; set_solver|by rewrite lookup_insert_eq].
    + case_decide; [by rewrite lookup_delete_ne|by rewrite lookup_insert_ne].
  - case_decide as E; [|done]. subst q. rewrite Es. cbn. set_solver.
Qed.

Lemma erase_tidy m h o p q : (forall p q, mapOrphanBlocksByPrev m !! p <> Some [] /\ mapOrphanBlocksByPeer m !! q <> Some ∅) ->
  mapOrphanBlocksByPrev (EraseOrphanInternal m h o) !! p <> Some [] /\
  mapOrphanBlocksByPeer (EraseOrphanInternal m h o) !! q <> Some ∅.
Proof.
  intros HT. cbn [EraseOrphanInternal mapOrphanBlocksByPrev mapOrphanBlocksByPeer]. split.
  - destruct (mapOrphanBlocksByPrev m !! parent_of o) as [l|] eqn:El; [|apply (HT p q)].
    destruct (filter _ l) as [|x l'] eqn:Ef.
    + destruct (decide (p = parent_of o)) as [->|]; [by rewrite lookup_delete_eq|rewrite lookup_delete_ne by done; apply (HT p q)].
    + destruct (decide (p = parent_of o)) as [->|]; [by rewrite lookup_insert_eq|rewrite lookup_insert_ne by done; apply (HT p q)].
  - destruct (mapOrphanBlocksByPeer m !! fromPeer o) as [s|] eqn:Es; [|apply (HT p q)]. case_decide as E.
    + destruct (decide (q = fromPeer o)) as [->|]; [by rewrite lookup_delete_eq|rewrite lookup_delete_ne by done; apply (HT p q)].
    + destruct (decide (q = fromPeer o)) as [->|]; [|rewrite lookup_insert_ne by done; apply (HT p q)].
      rewrite lookup_insert_eq. by intros [= ?].
Qed.

(** A pool with fewer blocks. *)
Record shrinks (m m' : COrphanManager) : Prop := {
  sh_blocks : mapOrphanBlocks m' ⊆ mapOrphanBlocks m;
  sh_bytes : nOrphanBytes m' <= nOrphanBytes m;
  sh_peer : forall q, peer_orphans m' q ⊆ peer_orphans m q;
  sh_requests : mapPendingParentRequests m' = mapPendingParentRequests m
}.
Lemma shrinks_refl m : shrinks m m.
Proof. by split. Qed.
Lemma shrinks_trans m1 m2 m3 : shrinks m1 m2 -> shrinks m2 m3 -> shrinks m1 m3.
Proof. intros [A1 A2 A3 A4] [B1 B2 B3 B4]. split; [by etrans|lia|intros q; etrans; [apply B3|apply A3]|congruence]. Qed.

Lemma within_shrinks m m' : shrinks m m' -> within_limits m -> within_limits m'.
Proof.
  intros [S1 S2 S3 _] [W1 W2 W3]. unfold GetOrphanCount, GetOrphanBytes in *. split; unfold GetOrphanCount, GetOrphanBytes.
  - apply map_subseteq_size in S1. lia.
  - lia.
  - intros q. specialize (W3 q). rewrite count_for_peer in *. pose proof (subseteq_size _ _ (S3 q)). lia.
Qed.

Lemma erase_counted_ok m h o : pool_ok m -> mapOrphanBlocks m !! h = Some o ->
  exists m', erase_counted m h = (true, m') /\ mapOrphanBlocks m' = delete h (mapOrphanBlocks m) /\ pool_ok m' /\ shrinks m m'.
Proof.
  intros HP Ho. unfold erase_counted. rewrite Ho. eexists. split; [done|]. split; [done|].
  pose proof (orphan_bytes_delete _ _ _ Ho) as HB. pose proof (po_bytes _ _ _ HP) as HB0. pose proof (po_range _ _ _ HP) as HR.
  destruct (po_blocks _ _ _ HP h o Ho) as (_ & _ & Hsz). pose proof (GetBlockSize_pos (o_block o)) as Hpos.
  assert (0 <= orphan_bytes (delete h (mapOrphanBlocks m))) as HN.
  { apply orphan_bytes_nonneg. intros h' o' [_ Ho']%lookup_delete_Some. destruct (po_blocks _ _ _ HP h' o' Ho') as (_ & _ & ->).
    pose proof (GetBlockSize_pos (o_block o')). lia. }
  set (m0 := set_orphan_bytes m _). assert (nOrphanBytes m0 = orphan_bytes (delete h (mapOrphanBlocks m))) as E0.
  { cbn. rewrite u64_small; lia. }
  split.
  - split; cbn [EraseOrphanInternal mapOrphanBlocks nOrphanBytes].
    + done.
    + cbn. lia.
    + intros h' o' [_ Ho']%lookup_delete_Some. by apply (po_blocks _ _ _ HP).
    + intros p h'. rewrite erase_children. change (GetOrphanChildren m0 p) with (GetOrphanChildren m p). setoid_rewrite lookup_delete_Some.
      case_decide as E; [subst p; rewrite list_elem_of_filter|]; rewrite (po_prev _ _ _ HP); split.
      * intros (Hne & o' & H1 & H2). exists o'. by split_and!.
      * intros (o' & [Hne H1] & H2). split; [done|]. by exists o'.
      * intros (o' & H1 & H2). exists o'. split_and!; [|done|done]. intros <-. congruence.
      * intros (o' & [Hne H1] & H2). by exists o'.
    + intros p. rewrite erase_children. change (GetOrphanChildren m0 p) with (GetOrphanChildren m p). case_decide; [apply NoDup_filter|]; apply (po_prev_once _ _ _ HP).
    + intros q h'. rewrite erase_peer. change (peer_orphans m0 q) with (peer_orphans m q). setoid_rewrite lookup_delete_Some.
      case_decide as E; [subst q; rewrite elem_of_difference, elem_of_singleton|]; rewrite (po_peer _ _ _ HP); split.
      * intros ((o' & H1 & H2) & Hne). exists o'. by split_and!.
      * intros (o' & [Hne H1] & H2). split; [|done]. by exists o'.
      * intros (o' & H1 & H2). exists o'. split_and!; [|done|done]. intros <-. congruence.
      * intros (o' & [Hne H1] & H2). by exists o'.
    + intros p q. apply erase_tidy. apply (po_tidy _ _ _ HP).
  - split; cbn [EraseOrphanInternal mapOrphanBlocks nOrphanBytes mapPendingParentRequests].
    + apply delete_subseteq.
    + rewrite E0. lia.
    + intros q. rewrite erase_peer. change (peer_orphans m0 q) with (peer_orphans m q). case_decide; [|done]. set_solver.
    + done.
Qed.

(** The block selected is in the pool. *)
Lemma select_in g m now : mapOrphanBlocks m <> ∅ -> is_Some (mapOrphanBlocks m !! SelectOrphanForEviction g m now).
Proof.
  intros Hne. unfold SelectOrphanForEviction.
  assert (forall h o, (h, o) ∈ addr_ordered (mapOrphanBlocks m) -> is_Some (mapOrphanBlocks m !! h)) as HIn.
  { intros h o Hin. rewrite addr_ordered_perm in Hin. apply elem_of_map_to_list in Hin. by exists o. }
  destruct (addr_ordered (mapOrphanBlocks m)) as [|[first o] l] eqn:El.
  - exfalso. apply Hne. apply map_to_list_empty_iff, Permutation_nil. by rewrite <- addr_ordered_perm, El.
  - assert (forall l best, (forall e, e ∈ l -> is_Some (mapOrphanBlocks m !! e.1)) -> is_Some (mapOrphanBlocks m !! best.1) ->
      is_Some (mapOrphanBlocks m !! (foldl (fun best e => let score := orphan_score g now e.2 in
        if score <? snd best then (e.1, score) else best) best l).1)) as HF.
    { clear. induction l as [|e l IH]; intros best Hl Hb; [done|]. cbn [foldl]. apply IH.
      - intros e' He'. apply Hl. by right.
      - cbv zeta. destruct (_ <? _); [|done]. apply Hl. by left. }
    apply (HF ((first, o) :: l) (first, 2 ^ 31 - 1)); [|apply (HIn first o); by left]. intros [h' o'] He. apply (HIn h' o'). exact He.
Qed.

Lemma evict_while_ok g clock cond : (forall m, cond m = true -> mapOrphanBlocks m <> ∅) -> forall fuel i m, pool_ok m ->
  (size (mapOrphanBlocks m) <= fuel)%nat ->
  exists m' i', evict_while g fuel clock i cond m = (m', i') /\ pool_ok m' /\ shrinks m m' /\ cond m' = false.
Proof.
  intros HC. induction fuel as [|fuel IH]; intros i m HP Hf; cbn [evict_while].
  - exists m, i. split_and!; [done|done|apply shrinks_refl|]. destruct (cond m) eqn:E; [|done]. exfalso.
    apply (HC m E), map_size_empty_iff. lia.
  - destruct (cond m) eqn:E; [|by exists m, i; split_and!; try done; apply shrinks_refl].
    destruct (select_in g m (clock i) (HC m E)) as [o Ho]. destruct (po_blocks _ _ _ HP _ _ Ho) as (_ & -> & _).
    destruct (erase_counted_ok m _ o HP Ho) as (m1 & -> & E1 & HP1 & S1). cbn [snd].
    destruct (IH (S i) m1 HP1) as (m' & i' & -> & HP' & S' & C').
    { rewrite E1. pose proof (map_size_delete_Some _ _ (mk_is_Some _ _ Ho)). lia. }
    exists m', i'. split_and!; [done|done|by eapply shrinks_trans|done].
Qed.

Lemma LimitOrphans_ok g clock i m : pool_ok m ->
  exists m' i', LimitOrphans g clock i m = (m', i') /\ pool_ok m' /\ shrinks m m' /\
    GetOrphanCount m' <= MAX_ORPHAN_BLOCKS /\ GetOrphanBytes m' <= MAX_ORPHAN_BYTES.
Proof.
  intros HP. unfold LimitOrphans.
  destruct (evict_while_ok g clock over_count) with (fuel := size (mapOrphanBlocks m)) (i := i) (m := m)
    as (m1 & i1 & -> & HP1 & S1 & C1); [|done|lia|].
  { intros m0 H E. unfold over_count in H. rewrite E, map_size_empty in H. done. }
  destruct (evict_while_ok g clock over_bytes) with (fuel := size (mapOrphanBlocks m1)) (i := i1) (m := m1)
    as (m2 & i2 & -> & HP2 & S2 & C2); [|done|lia|].
  { intros m0 H. unfold over_bytes in H. apply andb_true_iff in H as [_ H]. apply negb_true_iff in H. by apply bool_decide_eq_false in H. }
  exists m2, i2. split_and!; [done|done|by eapply shrinks_trans| |].
  - unfold over_count in C1. zprop. pose proof (map_subseteq_size _ _ (sh_blocks _ _ S2)). unfold GetOrphanCount. lia.
  - unfold over_bytes in C2. unfold GetOrphanBytes. apply andb_false_iff in C2 as [C2|C2]; [zprop; lia|].
    apply negb_false_iff in C2. apply bool_decide_eq_true in C2. rewrite (po_bytes _ _ _ HP2), C2. unfold orphan_bytes. rewrite map_fold_empty. done.
Qed.

(** The insertion itself. *)
Definition insert_orphan (m : COrphanManager) (hash : uint256) (o : COrphanBlock) : COrphanManager :=
  mkOrphans (<[hash := o]> (mapOrphanBlocks m))
    (<[parent_of o := default [] (mapOrphanBlocksByPrev m !! parent_of o) ++ [hash]]> (mapOrphanBlocksByPrev m))
    (<[fromPeer o := default ∅ (mapOrphanBlocksByPeer m !! fromPeer o) ∪ {[ hash ]}]> (mapOrphanBlocksByPeer m))
    (u64 (nOrphanBytes m + nBlockSize o)) (mapPendingParentRequests m).

Lemma insert_children m h o p : GetOrphanChildren (insert_orphan m h o) p =
  if decide (p = parent_of o) then GetOrphanChildren m p ++ [h] else GetOrphanChildren m p.
Proof.
  unfold GetOrphanChildren. cbn [insert_orphan mapOrphanBlocksByPrev]. case_decide as E; [subst p|].
  - by rewrite lookup_insert_eq.
  - by rewrite lookup_insert_ne.
Qed.
Lemma insert_peer m h o q : peer_orphans (insert_orphan m h o) q =
  if decide (q = fromPeer o) then peer_orphans m q ∪ {[ h ]} else peer_orphans m q.
Proof.
  unfold peer_orphans. cbn [insert_orphan mapOrphanBlocksByPeer]. case_decide as E; [subst q|].
  - by rewrite lookup_insert_eq.
  - by rewrite lookup_insert_ne.
Qed.

(** Membership in an index after an insertion. *)
Lemma lookup_after_insert {A : Type} (m : gmap uint256 COrphanBlock) (h h' : uint256) (o : COrphanBlock) (f : COrphanBlock -> A) (x : A) : m !! h = None ->
  (exists o', <[h := o]> m !! h' = Some o' /\ f o' = x) <->
  (h' = h /\ f o = x) \/ (exists o', m !! h' = Some o' /\ f o' = x).
Proof.
  intros Hn. setoid_rewrite lookup_insert_Some. split.
  - intros (o' & [[-> ->]|[Hne H]] & E); [by left|right; eauto].
  - intros [[-> E]|(o' & H & E)]; [exists o; auto|]. exists o'. split; [|done]. right. split; [|done]. congruence.
Qed.

Lemma insert_orphan_ok m h o : pool_ok m -> mapOrphanBlocks m !! h = None ->
  h = fst (GetHash SHA3_256 randomx_hash_fast (block_header (o_block o))) -> IsNull h = false ->
  nBlockSize o = GetBlockSize (o_block o) -> nOrphanBytes m + nBlockSize o < 2 ^ 63 -> pool_ok (insert_orphan m h o).
Proof.
  intros HP Hn Hh Hnull Hsz Hb. pose proof (pool_nonneg m HP) as HN. pose proof (GetBlockSize_pos (o_block o)) as Hpos.
  pose proof (po_bytes _ _ _ HP) as HB. split.
  - cbn [insert_orphan nOrphanBytes mapOrphanBlocks]. rewrite orphan_bytes_insert by done. rewrite u64_small; lia.
  - cbn [insert_orphan mapOrphanBlocks]. rewrite orphan_bytes_insert by done. lia.
  - cbn [insert_orphan mapOrphanBlocks]. apply map_Forall_insert_2; [done|apply (po_blocks _ _ _ HP)].
  - intros p h'. rewrite insert_children. cbn [insert_orphan mapOrphanBlocks]. rewrite (lookup_after_insert _ h h' o parent_of p Hn).
    case_decide as E; [rewrite elem_of_app, list_elem_of_singleton|]; rewrite (po_prev _ _ _ HP); naive_solver.
  - intros p. rewrite insert_children. case_decide as E; [|apply (po_prev_once _ _ _ HP)]. apply NoDup_app.
    split_and!; [apply (po_prev_once _ _ _ HP)| |apply NoDup_singleton].
    intros x Hx%(po_prev _ _ _ HP) ->%list_elem_of_singleton. destruct Hx as (o' & Ho' & _). congruence.
  - intros q h'. rewrite insert_peer. cbn [insert_orphan mapOrphanBlocks]. rewrite (lookup_after_insert _ h h' o fromPeer q Hn).
    case_decide as E; [rewrite elem_of_union, elem_of_singleton|]; rewrite (po_peer _ _ _ HP); naive_solver.
  - intros p q. destruct (po_tidy _ _ _ HP p q) as [T1 T2]. cbn [insert_orphan mapOrphanBlocksByPrev mapOrphanBlocksByPeer]. split.
    + destruct (decide (p = parent_of o)) as [->|]; [|by rewrite lookup_insert_ne]. rewrite lookup_insert_eq. intros [= E].
      by apply app_eq_nil in E as [_ ?].
    + destruct (decide (q = fromPeer o)) as [->|]; [|by rewrite lookup_insert_ne]. rewrite lookup_insert_eq. intros [= E]. set_solver.
Qed.

(** What a caller hands in: the hash is not null and the body is a vector. *)
Definition orphan_block_ok (block : CBlock) : Prop :=
  IsNull (fst (GetHash SHA3_256 randomx_hash_fast (block_header block))) = false /\ len (vtx block) < 2 ^ 32.

Lemma GetHash_again h : fst (GetHash SHA3_256 randomx_hash_fast (snd (GetHash SHA3_256 randomx_hash_fast h))) =
  fst (GetHash SHA3_256 randomx_hash_fast h).
Proof. unfold GetHash. destruct (fHashCached h) eqn:E; cbn; by rewrite ?E. Qed.
Lemma GetHash_prev h : hashPrevBlock (snd (GetHash SHA3_256 randomx_hash_fast h)) = hashPrevBlock h.
Proof. unfold GetHash. by destruct (fHashCached h). Qed.

Lemma AddOrphanBlock_ok g m clock peer block : pool_ok m -> within_limits m -> orphan_block_ok block ->
  exists ok m', AddOrphanBlock SHA3_256 randomx_hash_fast g m clock peer block = (ok, m') /\ pool_ok m' /\ within_limits m' /\
    mapPendingParentRequests m' = mapPendingParentRequests m.
Proof.
  intros HP HW [Hnull Hlen]. unfold AddOrphanBlock. pose proof (GetHash_again (block_header block)) as Hag.
  pose proof (GetHash_prev (block_header block)) as Hpv.
  destruct (GetHash SHA3_256 randomx_hash_fast (block_header block)) as [hash hdr] eqn:Eh. cbn [fst snd] in Hnull, Hag, Hpv.
  case_bool_decide as Hin; [by exists true, m|]. destruct (PeerExceedsOrphanLimit m peer) eqn:Epeer; [by exists false, m|].
  assert (exists m1 i1, (if u64 (nOrphanBytes m + GetBlockSize block) >? MAX_ORPHAN_BYTES then LimitOrphans g clock 0 m else (m, 0%nat))
    = (m1, i1) /\ pool_ok m1 /\ shrinks m m1) as (m1 & i1 & -> & HP1 & S1).
  { destruct (_ >? _); [|by exists m, 0%nat; split_and!; try done; apply shrinks_refl].
    destruct (LimitOrphans_ok g clock 0 m HP) as (m1 & i1 & -> & ? & ? & _). eauto 10. }
  pose proof (within_shrinks _ _ S1 HW) as HW1. pose proof (sh_requests _ _ S1) as HR1.
  destruct (_ >? MAX_ORPHAN_BYTES) eqn:Efull; [by exists false, m1|].
  set (o := mkOrphan (mkBlock hdr (vtx block)) peer (clock i1) (GetBlockSize block)).
  assert (parent_of o = hashPrevBlock (block_header block)) as Epar by done.
  pose proof (wl_bytes _ HW1) as HB1. unfold GetOrphanBytes in HB1. rewrite <- Epar.
  assert (pool_ok (insert_orphan m1 hash o)) as HP2.
  { apply insert_orphan_ok; try done.
    - apply eq_None_not_Some. intros [x Hx]. apply Hin. exists x. by eapply lookup_weaken, (sh_blocks _ _ S1).
    - cbn [nBlockSize o]. unfold GetBlockSize, MAX_ORPHAN_BYTES in *. lia. }
  destruct (LimitOrphans_ok g clock (S i1) _ HP2) as (m3 & i3 & E3 & HP3 & S3 & HC & HBy).
  unfold insert_orphan in E3. cbn [fromPeer nBlockSize o] in E3. rewrite E3. exists true, m3. split_and!; [done|done| |].
  - split; [done|done|]. intros q. rewrite count_for_peer. pose proof (subseteq_size _ _ (sh_peer _ _ S3 q)) as Hs.
    rewrite insert_peer in Hs. cbn [fromPeer o] in Hs. pose proof (wl_peer _ HW1 q) as Hq. rewrite count_for_peer in Hq.
    case_decide as E; [subst q|lia]. pose proof (subseteq_size _ _ (sh_peer _ _ S1 peer)) as Hs1.
    assert (Z.of_nat (size (peer_orphans m peer)) < MAX_ORPHANS_PER_PEER).
    { unfold PeerExceedsOrphanLimit in Epeer. unfold peer_orphans. destruct (mapOrphanBlocksByPeer m !! peer); cbn; [zprop; lia|].
      rewrite size_empty. done. }
    pose proof (size_union_alt (peer_orphans m1 peer) {[ hash ]}) as Hu.
    pose proof (subseteq_size ({[ hash ]} ∖ peer_orphans m1 peer) {[ hash ]} ltac:(set_solver)) as Hd. rewrite size_singleton in Hd. lia.
  - rewrite (sh_requests _ _ S3). done.
Qed.

Lemma erase_list_ok l : forall m c, pool_ok m ->
  exists c' m', foldl (fun acc h => let '(ok, m) := erase_counted (snd acc) h in ((if ok then fst acc + 1 else fst acc), m)) (c, m) l
    = (c', m') /\ pool_ok m' /\ shrinks m m' /\ (forall h, h ∈ l -> mapOrphanBlocks m' !! h = None).
Proof.
  induction l as [|h l IH]; intros m c HP; cbn [foldl fst snd].
  - exists c, m. split_and!; [done|done|apply shrinks_refl|]. intros h Hh. by apply not_elem_of_nil in Hh.
  - destruct (mapOrphanBlocks m !! h) as [o|] eqn:Eo.
    + destruct (erase_counted_ok m h o HP Eo) as (m1 & -> & E1 & HP1 & S1). destruct (IH m1 (c + 1) HP1) as (c' & m' & -> & HP' & S' & HN).
      exists c', m'. split_and!; [done|done|by eapply shrinks_trans|]. intros h' [->|Hh']%elem_of_cons; [|by apply HN].
      destruct (mapOrphanBlocks m' !! h) as [o'|] eqn:E'; [|done]. eapply lookup_weaken in E'; [|apply (sh_blocks _ _ S')].
      by rewrite E1, lookup_delete_eq in E'.
    + assert (erase_counted m h = (false, m)) as -> by (unfold erase_counted; by rewrite Eo).
      destruct (IH m c HP) as (c' & m' & -> & HP' & S' & HN). exists c', m'. split_and!; try done.
      intros h' [->|Hh']%elem_of_cons; [|by apply HN]. destruct (mapOrphanBlocks m' !! h) as [o'|] eqn:E'; [|done].
      eapply lookup_weaken in E'; [|apply (sh_blocks _ _ S')]. congruence.
Qed.

(** After a peer's blocks are gone its index entry is gone too. *)
Lemma EraseOrphansForPeer_ok m q : pool_ok m ->
  exists c m', EraseOrphansForPeer m q = (c, m') /\ pool_ok m' /\ shrinks m m' /\ GetOrphanCountForPeer m' q = 0.
Proof.
  intros HP. unfold EraseOrphansForPeer. destruct (mapOrphanBlocksByPeer m !! q) as [s|] eqn:Es.
  - destruct (erase_list_ok (elements s) m 0 HP) as (c & m1 & E1 & HP1 & S1 & HN). unfold erase_list. rewrite E1.
    assert (mapOrphanBlocksByPeer m1 !! q = None) as Eq.
    { assert (peer_orphans m1 q = ∅) as E.
      { apply set_eq. intros h. split; [|set_solver]. intros Hh. pose proof (sh_peer _ _ S1 q h Hh) as Hs. unfold peer_orphans in Hs.
        rewrite Es in Hs. cbn in Hs. apply (po_peer _ _ _ HP1) in Hh as (o & Ho & _). rewrite HN in Ho; [done|]. by apply elem_of_elements. }
      destruct (po_tidy _ _ _ HP1 zero256 q) as [_ HT]. unfold peer_orphans in E. destruct (mapOrphanBlocksByPeer m1 !! q); [|done].
      cbn in E. by subst. }
    assert (drop_peer m1 q = m1) as Ed by (unfold drop_peer; rewrite delete_id by done; by destruct m1).
    exists c, m1. rewrite Ed. split_and!; try done. unfold GetOrphanCountForPeer. by rewrite Eq.
  - exists 0, m. split_and!; [done|done|apply shrinks_refl|]. unfold GetOrphanCountForPeer. by rewrite Es.
Qed.
End Invariant.

(** ** Every sequence of operations *)

Definition requests_ok (m : COrphanManager) : Prop :=
  map_Forall (fun h r => pr_parentHash r = h /\ 0 <= retryCount r <= MAX_PARENT_REQUEST_RETRIES) (mapPendingParentRequests m).

Inductive OrphanOp : Type :=
| OAdd (g : CChainState) (clock : nat -> Z) (peer : NodeId) (block : CBlock)
| OErase (hash : uint256) | OErasePeer (peer : NodeId) | OExpire (now maxAge : Z) | OClear
| ORequest (now : Z) (orphanHash parentHash : uint256) (peer : NodeId) | OReceived (parentHash : uint256) | OTimeouts (now : Z).

Definition orphan_step (SHA3_256 randomx_hash_fast : list Z -> uint256) (m : COrphanManager) (op : OrphanOp) : COrphanManager :=
  match op with
  | OAdd g clock peer block => snd (AddOrphanBlock SHA3_256 randomx_hash_fast g m clock peer block)
  | OErase hash => snd (EraseOrphanBlock m hash)
  | OErasePeer peer => snd (EraseOrphansForPeer m peer)
  | OExpire now maxAge => snd (EraseExpiredOrphans m now maxAge)
  | OClear => Orphans_Clear m
  | ORequest now oh ph peer => RecordParentRequest m now oh ph peer
  | OReceived ph => MarkParentReceived m ph
  | OTimeouts now => snd (GetTimedOutParentRequests m now)
  end.

Definition orphanop_ok (SHA3_256 randomx_hash_fast : list Z -> uint256) (op : OrphanOp) : Prop :=
  match op with OAdd _ _ _ block => orphan_block_ok SHA3_256 randomx_hash_fast block | _ => True end.

Lemma visit_requests_ok now l : forall out reqs,
  map_Forall (fun h r => pr_parentHash r = h /\ 0 <= retryCount r <= MAX_PARENT_REQUEST_RETRIES) reqs ->
  Forall (fun e => pr_parentHash e.2 = e.1 /\ 0 <= retryCount e.2 <= MAX_PARENT_REQUEST_RETRIES) l ->
  map_Forall (fun h r => pr_parentHash r = h /\ 0 <= retryCount r <= MAX_PARENT_REQUEST_RETRIES)
    (foldl (visit_request now) (out, reqs) l).2.
Proof.
  induction l as [|[h r] l IH]; intros out reqs HR HF; [done|]. apply Forall_cons in HF as [[E1 E2] HF]. cbn [fst snd] in E1, E2.
  cbn [foldl]. unfold visit_request at 2. cbn [fst snd]. destruct (_ >? _); [|by apply IH]. apply IH; [|done].
  destruct (retryCount r >=? _) eqn:Er.
  - by apply map_Forall_delete.
  - apply map_Forall_insert_2; [|done]. zprop. cbn. split; [done|]. lia.
Qed.

Section Runs.
  Variable SHA3_256 randomx_hash_fast : list Z -> uint256.
  #[local] Abbreviation pool_ok := (pool_ok SHA3_256 randomx_hash_fast).

Lemma requests_only m r : pool_ok m -> within_limits m -> pool_ok (set_requests m r) /\ within_limits (set_requests m r).
Proof. intros [? ? ? ? ? ? ?] [? ? ?]. by split; split. Qed.

Lemma pool_ok_new : pool_ok new_COrphanManager /\ within_limits new_COrphanManager /\ requests_ok new_COrphanManager.
Proof.
  assert (orphan_bytes ∅ = 0) as E0 by apply map_fold_empty.
  split_and!; [split; cbn [new_COrphanManager mapOrphanBlocks nOrphanBytes]; rewrite ?E0|split|intros h r H; cbn in H; by rewrite lookup_empty in H]; try done; try lia.
  - intros p h. unfold GetOrphanChildren. cbn. rewrite lookup_empty. cbn. split; [by intros ?%not_elem_of_nil|].
    by intros (o & ?%lookup_empty_Some & _).
  - intros p. unfold GetOrphanChildren. cbn. rewrite lookup_empty. constructor.
  - intros q h. unfold peer_orphans. cbn. rewrite lookup_empty. cbn. split; [set_solver|]. by intros (o & ?%lookup_empty_Some & _).
Qed.

Lemma orphan_step_ok m op : pool_ok m /\ within_limits m /\ requests_ok m -> orphanop_ok SHA3_256 randomx_hash_fast op ->
  let m' := orphan_step SHA3_256 randomx_hash_fast m op in pool_ok m' /\ within_limits m' /\ requests_ok m'.
Proof.
  intros (HP & HW & HR) Hop. cbv zeta. destruct op; cbn [orphan_step].
  - destruct (AddOrphanBlock_ok SHA3_256 randomx_hash_fast g m clock peer block HP HW Hop) as (ok & m' & -> & HP' & HW' & E).
    split_and!; [done|done|]. unfold requests_ok. cbn [snd]. by rewrite E.
  - unfold EraseOrphanBlock. destruct (mapOrphanBlocks m !! hash) as [o|] eqn:Eo.
    + destruct (erase_counted_ok _ _ m hash o HP Eo) as (m' & -> & _ & HP' & S). cbn [snd].
      split_and!; [done|by eapply within_shrinks|]. unfold requests_ok. by rewrite (sh_requests _ _ S).
    + unfold erase_counted. by rewrite Eo.
  - destruct (EraseOrphansForPeer_ok _ _ m peer HP) as (c & m' & -> & HP' & S & _). cbn [snd].
    split_and!; [done|by eapply within_shrinks|]. unfold requests_ok. by rewrite (sh_requests _ _ S).
  - unfold EraseExpiredOrphans, erase_list. set (l := (filter _ _).*1).
    destruct (erase_list_ok _ _ l m 0 HP) as (c & m' & E & HP' & S & _). rewrite E. cbn [snd].
    split_and!; [done|by eapply within_shrinks|]. unfold requests_ok. by rewrite (sh_requests _ _ S).
  - apply pool_ok_new.
  - unfold RecordParentRequest. destruct (mapPendingParentRequests m !! parentHash); [by split_and!|].
    destruct (requests_only m (<[parentHash := mkRequest parentHash orphanHash peer now 0]> (mapPendingParentRequests m)) HP HW).
    split_and!; [done|done|]. unfold requests_ok. cbn. by apply map_Forall_insert_2.
  - unfold MarkParentReceived. destruct (requests_only m (delete parentHash (mapPendingParentRequests m)) HP HW).
    split_and!; [done|done|]. by apply map_Forall_delete.
  - unfold GetTimedOutParentRequests. destruct (foldl _ _ _) as [out reqs] eqn:E. cbn [snd]. destruct (requests_only m reqs HP HW).
    split_and!; [done|done|]. unfold requests_ok. cbn [set_requests mapPendingParentRequests].
    replace reqs with (foldl (visit_request now) ([], mapPendingParentRequests m) (addr_ordered (mapPendingParentRequests m))).2
      by (by rewrite E). apply visit_requests_ok; [done|]. apply Forall_forall. intros [h r] Hin.
    rewrite addr_ordered_perm in Hin. apply elem_of_map_to_list in Hin. by apply HR in Hin.
Qed.
End Runs.

(** C35: the pool of orphan blocks stays consistent and bounded.  After every
    sequence of insertions, erasures (by hash, by peer, by age), clearing and
    parent requests, with any clock and any chain state: the lookup by parent
    and by peer gives exactly the stored blocks with that parent or peer, each
    once; the byte count is the sum of the stored sizes; there are at most 512
    blocks, at most 100 MiB and at most 256 blocks of one peer; and a parent
    request is retried at most three times.  The blocks added have a hash that
    is not null. *)
Theorem orphan_pool_invariant (SHA3_256 randomx_hash_fast : list Z -> uint256) (ops : list OrphanOp)
    (Hops : Forall (orphanop_ok SHA3_256 randomx_hash_fast) ops) :
  let m := foldl (orphan_step SHA3_256 randomx_hash_fast) new_COrphanManager ops in
  pool_ok SHA3_256 randomx_hash_fast m /\ within_limits m /\ requests_ok m.
Proof.
  cbv zeta. pose proof (pool_ok_new SHA3_256 randomx_hash_fast) as H0. revert H0. generalize new_COrphanManager.
  induction Hops as [|op ops Hop _ IH]; intros m HM; [done|]. apply IH. by apply orphan_step_ok.
Qed.

Definition toy_orphan (i prev : Z) : CBlock :=
  mkBlock (mkHeader 4 (le_bytes 32 prev) zero256 0 0 i zero256 zero256 (le_bytes 32 i) true) [1; 2; 3].
Definition no_chain : CChainState := mkChainState ∅ ∅ None ∅ (-1) 0 false 0 zero256 false UndoFailure 0 (-1).
Definition toy_add (i prev peer : Z) : OrphanOp := OAdd no_chain (fun _ => 0) peer (toy_orphan i prev).
Definition toy_hash (i : Z) : uint256 := le_bytes 32 i.

Lemma orphan_pool_invariant_witness :
  let m := foldl (orphan_step (fun _ => zero256) (fun _ => zero256)) new_COrphanManager
             [toy_add 2 1 7; toy_add 3 2 7; toy_add 4 2 8; OErasePeer 8; ORequest 5 (toy_hash 2) (toy_hash 1) 7] in
  pool_ok (fun _ => zero256) (fun _ => zero256) m /\ GetOrphanChildren m (toy_hash 2) = [toy_hash 3] /\
  GetOrphanBytes m = 366 /\ GetOrphanCountForPeer m 8 = 0.
Proof.
  split; [|vm_compute; split_and!; reflexivity]. apply orphan_pool_invariant.
  do 3 (apply Forall_cons; split; [split; vm_compute; reflexivity|]).
  do 2 (apply Forall_cons; split; [exact I|]). apply Forall_nil. exact I.
Defined.

(** ** The oldest orphan of a chain *)

(** [k] steps back through stored blocks. *)
Fixpoint back (m : COrphanManager) (h : uint256) (k : nat) : option uint256 :=
  match k with
  | O => Some h
  | S k' => g ← back m h k'; o ← mapOrphanBlocks m !! g; Some (parent_of o)
  end.

Lemma root_walk_spec m hash : forall fuel k current root visited, back m hash k = Some current ->
  is_Some (mapOrphanBlocks m !! current) -> visited ⊆ dom (mapOrphanBlocks m) -> size visited = k ->
  (forall h, h ∈ visited -> exists i, (i < k)%nat /\ back m hash i = Some h) -> (fuel + k = S (size (mapOrphanBlocks m)))%nat ->
  exists r, root_walk fuel m hash current root visited = Some r /\
    ((exists j o, back m hash j = Some r /\ mapOrphanBlocks m !! r = Some o /\ mapOrphanBlocks m !! parent_of o = None) \/
     (r = hash /\ exists i j, (i < j)%nat /\ back m hash i = back m hash j /\ is_Some (back m hash i))).
Proof.
  induction fuel as [|fuel IH]; intros k current root visited Hk [o Ho] Hv Hs Hi Hf.
  - exfalso. apply subseteq_size in Hv. rewrite size_dom in Hv. lia.
  - cbn [root_walk]. rewrite Ho. case_decide as Hin.
    + exists hash. split; [done|]. right. split; [done|]. destruct (Hi current Hin) as (i & Hlt & Ei).
      exists i, k. split_and!; [done|congruence|by rewrite Ei].
    + case_bool_decide as Hpar.
      * apply (IH (S k)); [by cbn; rewrite Hk; cbn; rewrite Ho|done| | | |lia].
        -- apply union_least; [done|]. apply singleton_subseteq_l, elem_of_dom. by exists o.
        -- rewrite size_union, size_singleton by set_solver. lia.
        -- intros h [Hh|Hh]%elem_of_union; [destruct (Hi h Hh) as (i & ? & ?); exists i; split; [lia|done]|].
           apply elem_of_singleton in Hh as ->.
           exists k. split; [lia|done].
      * exists current. split; [done|]. left. exists k, o. split_and!; [done|done|by apply eq_None_not_Some].
Qed.

(** [GetOrphanRoot] always returns.  For a stored block the result is a stored
    block behind it whose parent is not stored, the one to request next, unless
    the parents form a cycle, and then it is the block itself. *)
Theorem GetOrphanRoot_correct (m : COrphanManager) (hash : uint256) :
  exists r, GetOrphanRoot m hash = Some r /\
    (mapOrphanBlocks m !! hash = None -> r = hash) /\
    (is_Some (mapOrphanBlocks m !! hash) ->
     (exists j o, back m hash j = Some r /\ mapOrphanBlocks m !! r = Some o /\ mapOrphanBlocks m !! parent_of o = None) \/
     (r = hash /\ exists i j, (i < j)%nat /\ back m hash i = back m hash j /\ is_Some (back m hash i))).
Proof.
  unfold GetOrphanRoot. destruct (mapOrphanBlocks m !! hash) as [o|] eqn:Eo.
  - destruct (root_walk_spec m hash (S (size (mapOrphanBlocks m))) 0 hash hash ∅) as (r & E & H); [done|by exists o| | | |lia|].
    + apply empty_subseteq.
    + apply size_empty.
    + set_solver.
    + exists r. split; [done|]. split; [done|]. by intros _.
  - exists hash. cbn [root_walk]. rewrite Eo. split; [done|]. split; [done|]. by intros [? ?].
Qed.

(** *** Where the code departs from its documentation *)

(** [AddOrphanBlock] is documented to return [true] when the block was added;
    when the pool is full and the new block has the lowest score, it is evicted
    at once and the result is still [true]. *)
Definition full_pool : COrphanManager :=
  let blocks := (fun i => (toy_hash (1000 + Z.of_nat i), mkOrphan (toy_orphan (1000 + Z.of_nat i) 1) (Z.of_nat i / 200) 0 183)) <$> seq 0 512 in
  foldl (fun m e => insert_orphan m e.1 e.2) new_COrphanManager blocks.
Example added_block_may_be_gone :
  let r := AddOrphanBlock (fun _ => zero256) (fun _ => zero256) no_chain full_pool (fun _ => 0) 9 (toy_orphan 65536 2) in
  fst r = true /\ HaveOrphanBlock (snd r) (toy_hash 65536) = false.
Proof. vm_compute. split; reflexivity. Qed.
