(* ===== verification/HeadersSync.v ===== *)
(** * Two-phase header synchronisation (net/headerssync)

    One peer's state machine: in the first phase headers are only checked, their
    work is added up and one salted bit is kept at every commitment height; once
    the claimed work reaches the minimum the headers are requested again, checked
    against the bits, buffered in compressed form and handed out.  The random
    offset and salt are part of the configuration.  The proof check is an
    interface with the implementation of each chain.  [GetHash] fills a cache of
    the header, which does not change what it returns and is not threaded here. *)

From S2P Require Import Prelude Uint256 Block.

(** ** The proof checkers (net/iheader_proof_checker.h, net/port/header_proof_checkers.h) *)

Record IHeaderProofChecker := mkChecker {
  CheckHeaderProof : CBlockHeader -> bool;
  ChainWorkContribution : CBlockHeader -> uint256;
  CheckerWorkGreaterThan : uint256 -> uint256 -> bool
}.

Record HeadersSyncParams := mkSyncParams {
  commitment_period : Z;
  redownload_buffer_size : Z;
  max_seconds_ahead : Z
}.
Definition default_sync_params : HeadersSyncParams := mkSyncParams 584 8192 (2 * 365 * 24 * 60 * 60).

Record CompressedHeader := mkCompressed {
  c_hashMerkleRoot : uint256;
  c_nTime : Z;
  c_nBits : Z;
  c_nNonce : Z;
  c_nVersion : Z
}.
Definition compress (h : CBlockHeader) : CompressedHeader :=
  mkCompressed (hashMerkleRoot h) (hnTime h) (hnBits h) (nNonce h) (nVersion h).
Definition GetFullHeader (c : CompressedHeader) (hashPrevBlock : uint256) : CBlockHeader :=
  mkHeader (c_nVersion c) hashPrevBlock (c_hashMerkleRoot c) (c_nTime c) (c_nBits c) (c_nNonce c) zero256 zero256 zero256 false.

Inductive SyncState : Set := PRESYNC | REDOWNLOAD | FINAL.

(** The members fixed by the constructor. *)
Record SyncConfig := mkSyncConfig {
  m_params : HeadersSyncParams;
  m_chain_start_hash : uint256;
  m_chain_start_height : Z;
  m_minimum_required_work : uint256;
  m_commitment_salt : uint256;
  m_commit_offset : Z;
  m_proof_checker : option IHeaderProofChecker
}.

Record HeadersSyncState := mkSync {
  m_current_chain_work : uint256;
  m_header_commitments : list bool;
  m_last_header_received : CBlockHeader;
  m_current_height : Z;
  m_redownloaded_headers : list CompressedHeader;
  m_redownload_buffer_last_height : Z;
  m_redownload_buffer_last_hash : uint256;
  m_redownload_buffer_first_prev_hash : uint256;
  m_redownload_chain_work : uint256;
  m_process_all_remaining_headers : bool;
  m_download_state : SyncState
}.

Record ProcessingResult := mkResult {
  pow_validated_headers : list CBlockHeader;
  pr_success : bool;
  request_more : bool
}.

Definition new_HeadersSyncState (cfg : SyncConfig) : HeadersSyncState :=
  mkSync zero256 [] Header_SetNull (m_chain_start_height cfg) [] 0 zero256 zero256 zero256 false PRESYNC.

Definition m_max_commitments (cfg : SyncConfig) : Z :=
  u64 (Z.quot (i64 (6 * max_seconds_ahead (m_params cfg))) (commitment_period (m_params cfg))).

Definition set_state (s : HeadersSyncState) (st : SyncState) : HeadersSyncState :=
  mkSync (m_current_chain_work s) (m_header_commitments s) (m_last_header_received s) (m_current_height s)
    (m_redownloaded_headers s) (m_redownload_buffer_last_height s) (m_redownload_buffer_last_hash s)
    (m_redownload_buffer_first_prev_hash s) (m_redownload_chain_work s) (m_process_all_remaining_headers s) st.

Definition Finalize (s : HeadersSyncState) : HeadersSyncState :=
  mkSync (m_current_chain_work s) [] (m_last_header_received s) (m_current_height s) []
    (m_redownload_buffer_last_height s) (m_redownload_buffer_last_hash s) (m_redownload_buffer_first_prev_hash s)
    (m_redownload_chain_work s) (m_process_all_remaining_headers s) FINAL.

Section Sync.
  Variable SHA3_256 : list Z -> uint256.
  Variable randomx_hash_fast : list Z -> uint256.
  Variable cfg : SyncConfig.

  #[local] Abbreviation hash_of := (fun h => fst (GetHash SHA3_256 randomx_hash_fast h)).

Definition RandomXHeaderProofChecker : IHeaderProofChecker :=
  mkChecker (fun h => CheckProofOfWork (hash_of h) (hnBits h)) (fun h => ComputeChainWork (hnBits h))
    (fun a b => negb (ChainWorkGreaterOrEqual b a)).
Definition VDFHeaderProofChecker : IHeaderProofChecker :=
  mkChecker (fun h => if negb (IsVDFBlock h) then false else if IsNull (vdfProofHash h) then false else negb (IsNull (vdfOutput h)))
    (fun h => ComputeChainWork (hnBits h)) (fun a b => negb (ChainWorkGreaterOrEqual b a)).

Definition CalculateCommitment (hash : uint256) : bool :=
  negb (Z.land (byte_at (SHA3_256 (m_commitment_salt cfg ++ hash)) 0) 1 =? 0).

(** The check that both phases begin with. *)
Definition header_proof_ok (h : CBlockHeader) : bool :=
  match m_proof_checker cfg with
  | Some c => CheckHeaderProof c h
  | None => if IsVDFBlock h then true else CheckProofOfWork (hash_of h) (hnBits h)
  end.

Definition at_commitment (height : Z) : bool := Z.rem height (commitment_period (m_params cfg)) =? m_commit_offset cfg.

(** ** Phase 1 *)

Definition ValidateAndProcessSingleHeader (s : HeadersSyncState) (h : CBlockHeader) : bool :=
  if negb (header_proof_ok h) then false
  else if bool_decide (hashPrevBlock h <>
            if negb (Header_IsNull (m_last_header_received s)) then hash_of (m_last_header_received s) else m_chain_start_hash cfg)
       then false
  else if hnBits h =? 0 then false
  else negb (nVersion h <=? 0).

Fixpoint ValidateAndStoreHeadersCommitments (s : HeadersSyncState) (headers : list CBlockHeader) : bool * HeadersSyncState :=
  match headers with
  | [] => (true, s)
  | h :: headers' =>
      if negb (ValidateAndProcessSingleHeader s h) then (false, s)
      else
        let next_height := i64 (m_current_height s + 1) in
        let commit := at_commitment next_height in
        if commit && (Z.of_nat (length (m_header_commitments s)) >=? m_max_commitments cfg) then (false, s)
        else
          let commitments := if commit then m_header_commitments s ++ [CalculateCommitment (hash_of h)] else m_header_commitments s in
          ValidateAndStoreHeadersCommitments
            (mkSync (AddChainWork (m_current_chain_work s) (ComputeChainWork (hnBits h))) commitments h next_height
               (m_redownloaded_headers s) (m_redownload_buffer_last_height s) (m_redownload_buffer_last_hash s)
               (m_redownload_buffer_first_prev_hash s) (m_redownload_chain_work s) (m_process_all_remaining_headers s)
               (m_download_state s)) headers'
  end.

(** ** Phase 2 *)

Definition set_first_prev (s : HeadersSyncState) (h : uint256) : HeadersSyncState :=
  mkSync (m_current_chain_work s) (m_header_commitments s) (m_last_header_received s) (m_current_height s)
    (m_redownloaded_headers s) (m_redownload_buffer_last_height s) (m_redownload_buffer_last_hash s)
    h (m_redownload_chain_work s) (m_process_all_remaining_headers s) (m_download_state s).

Definition ValidateAndStoreRedownloadedHeader (s : HeadersSyncState) (h : CBlockHeader) : bool * HeadersSyncState :=
  let hash := hash_of h in
  if negb (header_proof_ok h) then (false, s)
  else if negb (bool_decide (m_redownloaded_headers s = [])) && bool_decide (hashPrevBlock h <> m_redownload_buffer_last_hash s)
       then (false, s)
  else
    let s := if bool_decide (m_redownloaded_headers s = []) then set_first_prev s (hashPrevBlock h) else s in
    let next_height := i64 (m_redownload_buffer_last_height s + 1) in
    let store commitments :=
      (true, mkSync (m_current_chain_work s) commitments (m_last_header_received s) (m_current_height s)
               (m_redownloaded_headers s ++ [compress h]) next_height hash (m_redownload_buffer_first_prev_hash s)
               (AddChainWork (m_redownload_chain_work s) (ComputeChainWork (hnBits h))) (m_process_all_remaining_headers s)
               (m_download_state s)) in
    if at_commitment next_height then
      match m_header_commitments s with
      | [] => (false, s)
      | expected :: rest => if Bool.eqb expected (CalculateCommitment hash) then store rest else (false, s)
      end
    else store (m_header_commitments s).

Fixpoint rebuild_headers (prev_hash : uint256) (l : list CompressedHeader) : list CBlockHeader :=
  match l with
  | [] => []
  | c :: l' => let h := GetFullHeader c prev_hash in h :: rebuild_headers (hash_of h) l'
  end.

Definition PopHeadersReadyForAcceptance (s : HeadersSyncState) : list CBlockHeader * HeadersSyncState :=
  (rebuild_headers (m_redownload_buffer_first_prev_hash s) (m_redownloaded_headers s),
   mkSync (m_current_chain_work s) (m_header_commitments s) (m_last_header_received s) (m_current_height s) []
     (m_redownload_buffer_last_height s) (m_redownload_buffer_last_hash s) (m_redownload_buffer_first_prev_hash s)
     (m_redownload_chain_work s) (m_process_all_remaining_headers s) (m_download_state s)).

Fixpoint store_redownloaded (s : HeadersSyncState) (headers : list CBlockHeader) : bool * HeadersSyncState :=
  match headers with
  | [] => (true, s)
  | h :: headers' =>
      let '(ok, s) := ValidateAndStoreRedownloadedHeader s h in
      if ok then store_redownloaded s headers' else (false, s)
  end.

(** ** A message *)

Definition ProcessNextHeaders (s : HeadersSyncState) (headers : list CBlockHeader) : ProcessingResult * HeadersSyncState :=
  match headers with
  | [] =>
      match m_download_state s with
      | PRESYNC =>
          if ChainWorkGreaterOrEqual (m_current_chain_work s) (m_minimum_required_work cfg)
          then (mkResult [] true true, set_state s REDOWNLOAD)
          else (mkResult [] false false, Finalize s)
      | REDOWNLOAD => let '(l, s) := PopHeadersReadyForAcceptance s in (mkResult l true false, Finalize s)
      | FINAL => (mkResult [] false false, s)
      end
  | _ =>
      match m_download_state s with
      | PRESYNC =>
          let '(ok, s) := ValidateAndStoreHeadersCommitments s headers in
          if negb ok then (mkResult [] false false, Finalize s)
          else
            (mkResult [] true true,
             if ChainWorkGreaterOrEqual (m_current_chain_work s) (m_minimum_required_work cfg) then set_state s REDOWNLOAD else s)
      | REDOWNLOAD =>
          let '(ok, s) := store_redownloaded s headers in
          if negb ok then (mkResult [] false false, Finalize s)
          else
            let '(l, s) :=
              if (Z.of_nat (length (m_redownloaded_headers s)) >=? redownload_buffer_size (m_params cfg)) ||
                 m_process_all_remaining_headers s
              then PopHeadersReadyForAcceptance s else ([], s) in
            let more := negb (bool_decide (m_header_commitments s = [])) in
            if more then (mkResult l true true, s)
            else let '(l, s) := PopHeadersReadyForAcceptance s in (mkResult l true false, Finalize s)
      | FINAL => (mkResult [] false false, s)
      end
  end.

Definition NextHeadersRequestLocator (s : HeadersSyncState) : list uint256 :=
  match m_download_state s with
  | PRESYNC =>
      (if negb (Header_IsNull (m_last_header_received s)) then [hash_of (m_last_header_received s)] else []) ++ [m_chain_start_hash cfg]
  | REDOWNLOAD =>
      (if negb (IsNull (m_redownload_buffer_last_hash s)) then [m_redownload_buffer_last_hash s] else []) ++ [m_chain_start_hash cfg]
  | FINAL => []
  end.

Definition GetPresyncTime (s : HeadersSyncState) : Z :=
  if Header_IsNull (m_last_header_received s) then 0 else hnTime (m_last_header_received s).
End Sync.

(** ** What is handed out *)

Section Soundness.
  Variable SHA3_256 : list Z -> uint256.
  Variable randomx_hash_fast : list Z -> uint256.
  Variable cfg : SyncConfig.

  #[local] Abbreviation hash_of := (fun h => fst (GetHash SHA3_256 randomx_hash_fast h)).
  #[local] Abbreviation proof_ok := (fun h => header_proof_ok SHA3_256 randomx_hash_fast cfg h = true).

(** A header as its compressed form keeps it. *)
Definition plain (h : CBlockHeader) : CBlockHeader :=
  mkHeader (nVersion h) (hashPrevBlock h) (hashMerkleRoot h) (hnTime h) (hnBits h) (nNonce h) zero256 zero256 zero256 false.

(** Each header's parent is the one before it. *)
Fixpoint chain_from (prev : uint256) (l : list CBlockHeader) : Prop :=
  match l with
  | [] => True
  | h :: l' => hashPrevBlock h = prev /\ chain_from (hash_of h) l'
  end.

Definition last_hash (prev : uint256) (l : list CBlockHeader) : uint256 :=
  match last l with Some h => hash_of h | None => prev end.

Definition claimed_work (l : list CBlockHeader) : uint256 :=
  foldl (fun w h => AddChainWork w (ComputeChainWork (hnBits h))) zero256 l.

(** A message's header: RandomX, and a cache that is not stale. *)
Definition plain_header (h : CBlockHeader) : Prop := IsVDFBlock h = false /\ cache_ok SHA3_256 randomx_hash_fast h.

Lemma hash_plain h : plain_header h -> hash_of (plain h) = hash_of h.
Proof.
  intros [HV HC]. rewrite (GetHash_fst SHA3_256 randomx_hash_fast h HC). unfold GetHash, header_hash, IsVDFBlock, SerializeHeader in *.
  cbn. rewrite HV. unfold IsVDFBlock. cbn. by rewrite HV.
Qed.

Lemma rebuild_chain l : forall prev, Forall plain_header l -> chain_from prev l ->
  rebuild_headers SHA3_256 randomx_hash_fast prev (compress <$> l) = plain <$> l.
Proof.
  induction l as [|h l IH]; intros prev HF HC; [done|]. apply Forall_cons in HF as [Hh HF]. destruct HC as [Hp HC].
  cbn [fmap list_fmap rebuild_headers]. assert (GetFullHeader (compress h) prev = plain h) as -> by (unfold plain; by rewrite <- Hp).
  f_equal. rewrite hash_plain by done. by apply IH.
Qed.

Lemma last_hash_snoc prev l h : last_hash prev (l ++ [h]) = hash_of h.
Proof. unfold last_hash. by rewrite last_snoc. Qed.
Lemma chain_from_snoc l h : forall prev, chain_from prev l -> hashPrevBlock h = last_hash prev l -> chain_from prev (l ++ [h]).
Proof.
  induction l as [|x l IH]; intros prev HC Hp; [done|]. destruct HC as [Hx HC]. cbn [app chain_from]. split; [done|].
  apply IH; [done|]. rewrite Hp. unfold last_hash. destruct l as [|y l]; [done|]. rewrite last_cons_cons.
  destruct (last (y :: l)) eqn:E; [done|]. by apply last_None in E.
Qed.
Lemma claimed_work_snoc l h : claimed_work (l ++ [h]) = AddChainWork (claimed_work l) (ComputeChainWork (hnBits h)).
Proof. unfold claimed_work. by rewrite foldl_app. Qed.

(** The salted bits of the headers of [l] at commitment heights, the first of which follows [height]. *)
Fixpoint bits (height : Z) (l : list CBlockHeader) : list bool :=
  match l with
  | [] => []
  | h :: l' =>
      let next := i64 (height + 1) in
      (if at_commitment cfg next then [CalculateCommitment SHA3_256 cfg (hash_of h)] else []) ++ bits next l'
  end.
Definition height_after (height : Z) (l : list CBlockHeader) : Z := foldl (fun z _ => i64 (z + 1)) height l.

Lemma height_after_snoc z l h : height_after z (l ++ [h]) = i64 (height_after z l + 1).
Proof. unfold height_after. by rewrite foldl_app. Qed.
Lemma bits_app l2 l1 : forall z, bits z (l1 ++ l2) = bits z l1 ++ bits (height_after z l1) l2.
Proof. induction l1 as [|h l1 IH]; intros z; [done|]. cbn [app bits]. by rewrite IH, <- app_assoc. Qed.
Lemma bits_one z h : bits z [h] = if at_commitment cfg (i64 (z + 1)) then [CalculateCommitment SHA3_256 cfg (hash_of h)] else [].
Proof. cbn [bits]. by rewrite app_nil_r. Qed.

(** A chain from the start that claims enough work. *)
Definition proven (pre : list CBlockHeader) : Prop :=
  chain_from (m_chain_start_hash cfg) pre /\ Forall proof_ok pre /\
  ChainWorkGreaterOrEqual (claimed_work pre) (m_minimum_required_work cfg) = true.

(** Phase 1 after the headers [seen]. *)
Record shown (seen : list CBlockHeader) (s : HeadersSyncState) : Prop := {
  sw_chain : chain_from (m_chain_start_hash cfg) seen;
  sw_proof : Forall proof_ok seen;
  sw_work : m_current_chain_work s = claimed_work seen;
  sw_last : (if negb (Header_IsNull (m_last_header_received s)) then hash_of (m_last_header_received s) else m_chain_start_hash cfg)
            = last_hash (m_chain_start_hash cfg) seen;
  sw_height : m_current_height s = height_after (m_chain_start_height cfg) seen;
  sw_bits : m_header_commitments s = bits (m_chain_start_height cfg) seen;
  sw_commitments : Z.of_nat (length (m_header_commitments s)) <= m_max_commitments cfg;
  sw_buffer : m_redownloaded_headers s = [] /\ m_redownload_buffer_last_height s = 0 /\ m_process_all_remaining_headers s = false;
  sw_state : m_download_state s = PRESYNC
}.

(** Phase 2 after the chain [pre]: [old] was handed out and [acc] is buffered. *)
Record buffered (pre old acc : list CBlockHeader) (s : HeadersSyncState) : Prop := {
  bf_pre : proven pre;
  bf_headers : m_redownloaded_headers s = compress <$> acc;
  bf_chain : acc <> [] -> chain_from (m_redownload_buffer_first_prev_hash s) acc;
  bf_last : acc <> [] -> m_redownload_buffer_last_hash s = last_hash (m_redownload_buffer_first_prev_hash s) acc;
  bf_proof : Forall proof_ok acc;
  bf_height : m_redownload_buffer_last_height s = height_after 0 (old ++ acc);
  bf_bits : bits (m_chain_start_height cfg) pre = bits 0 (old ++ acc) ++ m_header_commitments s;
  bf_commitments : Z.of_nat (length (m_header_commitments s)) <= m_max_commitments cfg;
  bf_all : m_process_all_remaining_headers s = false;
  bf_state : m_download_state s = REDOWNLOAD
}.

Definition sync_inv (seen : list CBlockHeader) (s : HeadersSyncState) : Prop :=
  shown seen s \/ (exists pre old acc, seen = pre ++ old ++ acc /\ buffered pre old acc s) \/
  (m_download_state s = FINAL /\ m_header_commitments s = [] /\ m_redownloaded_headers s = []).

(** What a result may hold: nothing, or the last headers received, linked and with valid proofs, after a chain [pre] with enough
    work, everything after [pre] agreeing with the bits of [pre]. *)
Definition sound_result (seen : list CBlockHeader) (r : ProcessingResult) : Prop :=
  pow_validated_headers r = [] \/
  exists pre old batch, seen = pre ++ old ++ batch /\ pow_validated_headers r = plain <$> batch /\ Forall proof_ok batch /\
    (exists prev, chain_from prev batch) /\ proven pre /\ bits 0 (old ++ batch) `prefix_of` bits (m_chain_start_height cfg) pre.

Lemma ValidateAndStore_shown hs : forall seen s s', shown seen s ->
  ValidateAndStoreHeadersCommitments SHA3_256 randomx_hash_fast cfg s hs = (true, s') -> shown (seen ++ hs) s'.
Proof.
  induction hs as [|h hs IH]; intros seen s s' HS; cbn [ValidateAndStoreHeadersCommitments].
  { intros [= <-]. by rewrite app_nil_r. }
  destruct (ValidateAndProcessSingleHeader _ _ _ s h) eqn:EV; cbn [negb]; [|done].
  destruct (_ && (_ >=? _)) eqn:EC; [done|]. intros HV.
  replace (seen ++ h :: hs) with ((seen ++ [h]) ++ hs) by (by rewrite <- app_assoc). eapply IH; [|exact HV]. clear HV.
  unfold ValidateAndProcessSingleHeader in EV. destruct (header_proof_ok _ _ _ h) eqn:EP; cbn [negb] in EV; [|done].
  case_bool_decide as HP; [done|]. rewrite (sw_last _ _ HS) in HP. destruct (hnBits h =? 0) eqn:EB; [done|]. clear EV.
  split; cbn [m_current_chain_work m_last_header_received m_header_commitments m_redownloaded_headers m_download_state m_current_height
              m_redownload_buffer_last_height m_process_all_remaining_headers].
  - apply chain_from_snoc; [apply HS|done].
  - apply Forall_app. split; [apply HS|]. by constructor.
  - rewrite claimed_work_snoc. by rewrite (sw_work _ _ HS).
  - unfold Header_IsNull. rewrite EB. cbn [negb]. by rewrite last_hash_snoc.
  - by rewrite height_after_snoc, (sw_height _ _ HS).
  - rewrite bits_app, bits_one, <- (sw_height _ _ HS), <- (sw_bits _ _ HS). destruct (at_commitment _ _); [done|by rewrite app_nil_r].
  - pose proof (sw_commitments _ _ HS). destruct (at_commitment _ _); [|done]. cbn [andb] in EC. zprop. rewrite length_app. cbn [length]. lia.
  - apply HS.
  - apply HS.
Qed.

(** The state after a redownloaded header, when the commitments left are [c]. *)
Definition stored (s : HeadersSyncState) (h : CBlockHeader) (c : list bool) : HeadersSyncState :=
  mkSync (m_current_chain_work s) c (m_last_header_received s) (m_current_height s) (m_redownloaded_headers s ++ [compress h])
    (i64 (m_redownload_buffer_last_height s + 1)) (hash_of h)
    (if bool_decide (m_redownloaded_headers s = []) then hashPrevBlock h else m_redownload_buffer_first_prev_hash s)
    (AddChainWork (m_redownload_chain_work s) (ComputeChainWork (hnBits h))) (m_process_all_remaining_headers s) (m_download_state s).

Lemma redownload_iff s h s' : ValidateAndStoreRedownloadedHeader SHA3_256 randomx_hash_fast cfg s h = (true, s') <->
  proof_ok h /\ (m_redownloaded_headers s <> [] -> hashPrevBlock h = m_redownload_buffer_last_hash s) /\
  exists c, s' = stored s h c /\
    m_header_commitments s = (if at_commitment cfg (i64 (m_redownload_buffer_last_height s + 1))
                              then [CalculateCommitment SHA3_256 cfg (hash_of h)] else []) ++ c.
Proof.
  unfold ValidateAndStoreRedownloadedHeader, stored. destruct (header_proof_ok _ _ _ h) eqn:EP; cbn [negb]; [|naive_solver].
  assert (forall (A : HeadersSyncState) (at_c : bool) (bits : list bool) (t : list bool -> HeadersSyncState) (bit : bool) (Q : Prop), Q ->
    (if at_c then match bits with
                  | [] => (false, A)
                  | b :: rest => if Bool.eqb b bit then (true, t rest) else (false, A)
                  end else (true, t bits)) = (true, s') <->
    true = true /\ Q /\ exists c, s' = t c /\ bits = (if at_c then [bit] else []) ++ c) as Hstep.
  { intros A [|] [|b rest] t bit Q HQ; [| destruct (Bool.eqb_spec b bit) | |];
      (split; [intros [=]; subst; eauto|intros (_ & _ & c & -> & HC); by simplify_eq/=]). }
  destruct (bool_decide_reflect (m_redownloaded_headers s = [])) as [HE|HE]; cbn [negb andb].
  - by apply Hstep.
  - case_bool_decide as HP; [naive_solver|]. by apply Hstep.
Qed.

Lemma redownloaded_buffered pre old acc s s' h : buffered pre old acc s ->
  ValidateAndStoreRedownloadedHeader SHA3_256 randomx_hash_fast cfg s h = (true, s') -> buffered pre old (acc ++ [h]) s'.
Proof.
  intros HB (HP & HL & c & -> & HC)%redownload_iff. pose proof (bf_headers _ _ _ _ HB) as HH.
  assert (compress <$> acc = [] <-> acc = []) as HN by (by destruct acc). rewrite HH, HN in HL.
  split; cbn [stored m_redownloaded_headers m_redownload_buffer_first_prev_hash m_redownload_buffer_last_hash m_header_commitments
              m_download_state m_redownload_buffer_last_height m_process_all_remaining_headers];
    rewrite ?HH; [apply HB|by rewrite fmap_app| | | | | | |apply HB|apply HB].
  - intros _. case_bool_decide as HE; rewrite HN in HE.
    + by subst.
    + apply chain_from_snoc; [by apply HB|]. rewrite HL by done. by apply HB.
  - intros _. by rewrite last_hash_snoc.
  - apply Forall_app. split; [apply HB|by constructor].
  - by rewrite app_assoc, height_after_snoc, (bf_height _ _ _ _ HB).
  - rewrite (bf_bits _ _ _ _ HB), HC, (app_assoc old), (bits_app [h]), bits_one, (bf_height _ _ _ _ HB). by rewrite <- app_assoc.
  - pose proof (bf_commitments _ _ _ _ HB) as HM. rewrite HC, length_app in HM. lia.
Qed.

Lemma store_redownloaded_buffered pre old hs : forall acc s s', buffered pre old acc s ->
  store_redownloaded SHA3_256 randomx_hash_fast cfg s hs = (true, s') -> buffered pre old (acc ++ hs) s'.
Proof.
  induction hs as [|h hs IH]; intros acc s s' HB; cbn [store_redownloaded].
  { intros [= <-]. by rewrite app_nil_r. }
  destruct (ValidateAndStoreRedownloadedHeader _ _ _ s h) as [[|] s1] eqn:E; [|done]. intros HS.
  replace (acc ++ h :: hs) with ((acc ++ [h]) ++ hs) by (by rewrite <- app_assoc).
  eapply IH; [|exact HS]. by eapply redownloaded_buffered.
Qed.

Lemma pop_buffered pre old acc s l s' : buffered pre old acc s -> Forall plain_header acc ->
  PopHeadersReadyForAcceptance SHA3_256 randomx_hash_fast s = (l, s') -> l = plain <$> acc /\ buffered pre (old ++ acc) [] s'.
Proof.
  intros HB HF [= <- <-]. split.
  - rewrite (bf_headers _ _ _ _ HB). destruct acc as [|h acc]; [done|]. apply rebuild_chain; [done|]. by apply HB.
  - split; cbn; rewrite ?app_nil_r; try done; apply HB.
Qed.

Lemma proven_shown seen s : shown seen s ->
  ChainWorkGreaterOrEqual (m_current_chain_work s) (m_minimum_required_work cfg) = true -> proven seen.
Proof. intros HS HW. rewrite (sw_work _ _ HS) in HW. split_and!; [apply HS|apply HS|done]. Qed.

Lemma buffered_start seen s : shown seen s ->
  ChainWorkGreaterOrEqual (m_current_chain_work s) (m_minimum_required_work cfg) = true -> buffered seen [] [] (set_state s REDOWNLOAD).
Proof.
  intros HS HW. pose proof (sw_buffer _ _ HS) as (H1 & H2 & H3).
  split; cbn; try done; [by eapply proven_shown|by rewrite (sw_bits _ _ HS)|apply HS].
Qed.
Lemma inv_start seen s : shown seen s ->
  ChainWorkGreaterOrEqual (m_current_chain_work s) (m_minimum_required_work cfg) = true -> sync_inv seen (set_state s REDOWNLOAD).
Proof. intros HS HW. right; left. exists seen, [], []. split; [by rewrite !app_nil_r|by apply buffered_start]. Qed.

Lemma finalized_inv seen s : sync_inv seen (Finalize s).
Proof. right; right. done. Qed.
Lemma nothing_sound seen ok more : sound_result seen (mkResult [] ok more).
Proof. by left. Qed.
Lemma failed_sound seen s : sync_inv seen (Finalize s) /\ sound_result seen (mkResult [] false false).
Proof. split; [apply finalized_inv|apply nothing_sound]. Qed.
Lemma buffered_batch pre old acc s ok more : buffered pre old acc s -> sound_result (pre ++ old ++ acc) (mkResult (plain <$> acc) ok more).
Proof.
  intros HB. destruct (decide (acc = [])) as [->|Hne]; [by left|]. right. exists pre, old, acc.
  split_and!; [done|done|apply HB|eexists; by apply HB|apply HB|]. rewrite (bf_bits _ _ _ _ HB). by apply prefix_app_r.
Qed.

Lemma presync_sound seen s hs : shown seen s ->
  let '(r, s') := ProcessNextHeaders SHA3_256 randomx_hash_fast cfg s hs in
  sync_inv (seen ++ hs) s' /\ sound_result (seen ++ hs) r.
Proof.
  intros HS. unfold ProcessNextHeaders. rewrite (sw_state _ _ HS). destruct hs as [|h hs].
  - rewrite app_nil_r. destruct (ChainWorkGreaterOrEqual _ _) eqn:EW; [|apply failed_sound].
    split; [by apply inv_start|apply nothing_sound].
  - destruct (ValidateAndStoreHeadersCommitments _ _ _ s (h :: hs)) as [[|] s'] eqn:EV; cbn [negb]; [|apply failed_sound].
    apply (ValidateAndStore_shown _ _ _ _ HS) in EV. split; [|apply nothing_sound].
    destruct (ChainWorkGreaterOrEqual _ _) eqn:EW; [by apply inv_start|by left].
Qed.

Lemma redownload_sound pre old acc s hs : buffered pre old acc s -> Forall plain_header (acc ++ hs) ->
  let '(r, s') := ProcessNextHeaders SHA3_256 randomx_hash_fast cfg s hs in
  sync_inv (pre ++ old ++ acc ++ hs) s' /\ sound_result (pre ++ old ++ acc ++ hs) r.
Proof.
  intros HB HF. unfold ProcessNextHeaders. rewrite (bf_state _ _ _ _ HB). destruct hs as [|h hs].
  { rewrite !app_nil_r in *. destruct (PopHeadersReadyForAcceptance _ _ s) as [l s'] eqn:EP.
    apply (pop_buffered _ _ _ _ _ _ HB) in EP as [-> _]; [|done]. split; [apply finalized_inv|by eapply buffered_batch]. }
  destruct (store_redownloaded _ _ _ s (h :: hs)) as [[|] s1] eqn:ES; cbn [negb]; [|apply failed_sound].
  apply (store_redownloaded_buffered _ _ _ _ _ _ HB) in ES. remember (acc ++ h :: hs) as acc' eqn:Eacc. clear Eacc HB h hs acc.
  destruct ((_ >=? _) || _).
  - destruct (PopHeadersReadyForAcceptance _ _ s1) as [l s2] eqn:EP.
    pose proof (pop_buffered _ _ _ _ _ _ ES HF EP) as [-> HB2]. destruct (negb _).
    + split; [|by eapply buffered_batch]. right; left. exists pre, (old ++ acc'), []. by rewrite app_nil_r.
    + destruct (PopHeadersReadyForAcceptance _ _ s2) as [l s3] eqn:EP3.
      apply (pop_buffered _ _ _ _ _ _ HB2) in EP3 as [-> _]; [|constructor]. split; [apply finalized_inv|apply nothing_sound].
  - destruct (negb _).
    + split; [|apply nothing_sound]. right; left. by exists pre, old, acc'.
    + destruct (PopHeadersReadyForAcceptance _ _ s1) as [l s3] eqn:EP3.
      apply (pop_buffered _ _ _ _ _ _ ES) in EP3 as [-> _]; [|done]. split; [apply finalized_inv|by eapply buffered_batch].
Qed.

Lemma ProcessNextHeaders_sound seen s hs : sync_inv seen s -> Forall plain_header (seen ++ hs) ->
  let '(r, s') := ProcessNextHeaders SHA3_256 randomx_hash_fast cfg s hs in
  sync_inv (seen ++ hs) s' /\ sound_result (seen ++ hs) r.
Proof.
  intros [HS|[(pre & old & acc & -> & HB)|(HD & HI)]] HF; [by apply presync_sound| |].
  - rewrite <- !app_assoc in *. apply redownload_sound; [done|]. by rewrite !Forall_app in *; naive_solver.
  - unfold ProcessNextHeaders. rewrite HD. destruct hs; (split; [by right; right|apply nothing_sound]).
Qed.

(** A conversation: the peer's messages in order, and what each call returned. *)
Fixpoint conversation (s : HeadersSyncState) (msgs : list (list CBlockHeader)) : list ProcessingResult * HeadersSyncState :=
  match msgs with
  | [] => ([], s)
  | hs :: msgs' =>
      let '(r, s) := ProcessNextHeaders SHA3_256 randomx_hash_fast cfg s hs in
      let '(rs, s) := conversation s msgs' in (r :: rs, s)
  end.

Lemma new_shown : shown [] (new_HeadersSyncState cfg).
Proof. split; cbn; try done. apply u64_range. Qed.

Lemma inv_commitments seen s : sync_inv seen s -> Z.of_nat (length (m_header_commitments s)) <= m_max_commitments cfg.
Proof.
  intros [HS|[(pre & old & acc & _ & HB)|(_ & -> & _)]]; [apply HS|apply HB|]. apply u64_range.
Qed.

Lemma conversation_sound msgs : forall seen s, sync_inv seen s -> Forall plain_header (seen ++ concat msgs) ->
  let '(rs, s') := conversation s msgs in
  sync_inv (seen ++ concat msgs) s' /\ forall i r, rs !! i = Some r -> sound_result (seen ++ concat (take (S i) msgs)) r.
Proof.
  induction msgs as [|hs msgs IH]; intros seen s HI HF; cbn [conversation concat] in *.
  { rewrite app_nil_r. by split. }
  rewrite app_assoc in HF. assert (Forall plain_header (seen ++ hs)) as HF1 by (by apply Forall_app in HF as [? _]).
  pose proof (ProcessNextHeaders_sound seen s hs HI HF1) as HS. destruct (ProcessNextHeaders _ _ _ s hs) as [r s1].
  destruct HS as [HI1 HR]. specialize (IH _ _ HI1 HF). destruct (conversation s1 msgs) as [rs s2]. destruct IH as [HI2 IH].
  rewrite <- app_assoc in HI2. split; [done|]. intros [|i] r' Hr.
  - injection Hr as <-. cbn [take concat]. rewrite take_0. cbn [concat]. by rewrite app_nil_r.
  - apply IH in Hr. cbn [take concat] in *. by rewrite app_assoc.
Qed.

(** C30: Two-phase synchronisation is sound against any peer.  Whatever messages of RandomX headers a peer sends, in any number and
    order, the stored bits never exceed the bound, and every call returns either no header or a batch that is exactly the last
    headers received, rebuilt from their compressed form: linked to one another, each with a valid proof of work, after a chain from the start
    block that claims the minimum work, and such that all headers sent since then carry, at the commitment heights, the bits of
    that chain in order. *)
Theorem headers_sync_sound msgs : Forall plain_header (concat msgs) ->
  let '(rs, s) := conversation (new_HeadersSyncState cfg) msgs in
  Z.of_nat (length (m_header_commitments s)) <= m_max_commitments cfg /\
  forall i r, rs !! i = Some r -> sound_result (concat (take (S i) msgs)) r.
Proof.
  intros HF. pose proof (conversation_sound msgs [] _ (or_introl new_shown) HF) as HC.
  destruct (conversation _ msgs) as [rs s]. destruct HC as [HI HR]. split; [by eapply inv_commitments|done].
Qed.

(** ** The honest peer *)

Definition honest_header (h : CBlockHeader) : Prop := proof_ok h /\ plain_header h /\ hnBits h <> 0 /\ nVersion h > 0.

Lemma ValidateAndStore_complete hs : forall seen s, shown seen s -> Forall honest_header hs ->
  chain_from (last_hash (m_chain_start_hash cfg) seen) hs ->
  Z.of_nat (length (bits (m_chain_start_height cfg) (seen ++ hs))) <= m_max_commitments cfg ->
  exists s', ValidateAndStoreHeadersCommitments SHA3_256 randomx_hash_fast cfg s hs = (true, s') /\ shown (seen ++ hs) s'.
Proof.
  induction hs as [|h hs IH]; intros seen s HS HH HC HM.
  { exists s. by rewrite app_nil_r. }
  apply Forall_cons in HH as [(HP & _ & HB & HV) HH]. destruct HC as [Hprev HC].
  replace (seen ++ h :: hs) with ((seen ++ [h]) ++ hs) in * by (by rewrite <- app_assoc).
  assert (ValidateAndProcessSingleHeader SHA3_256 randomx_hash_fast cfg s h = true) as EV.
  { unfold ValidateAndProcessSingleHeader. rewrite HP, (sw_last _ _ HS). cbn [negb]. rewrite bool_decide_eq_false_2 by (intros Hn; done).
    destruct (hnBits h =? 0) eqn:?; zprop; [done|]. destruct (nVersion h <=? 0) eqn:?; zprop; [lia|done]. }
  assert (at_commitment cfg (i64 (m_current_height s + 1)) && (Z.of_nat (length (m_header_commitments s)) >=? m_max_commitments cfg) = false)
    as EC.
  { destruct (at_commitment _ _) eqn:EA; [|done]. cbn [andb].
    rewrite !bits_app, bits_one, !length_app, <- (sw_height _ _ HS), EA, <- (sw_bits _ _ HS) in HM. cbn [length] in HM.
    destruct (_ >=? _) eqn:E; zprop; [lia|done]. }
  pose proof (fun s1 => ValidateAndStore_shown [h] seen s s1 HS) as H1. cbn [ValidateAndStoreHeadersCommitments] in H1 |- *.
  rewrite EV, EC in *. cbn [negb] in *. specialize (H1 _ eq_refl). apply IH; [done|done| |done]. by rewrite last_hash_snoc.
Qed.

Lemma last_hash_any a b l : l <> [] -> last_hash a l = last_hash b l.
Proof. intros Hne. unfold last_hash. destruct (last l) eqn:E; [done|]. by apply last_None in E. Qed.

Lemma last_hash_app prev l1 l2 : last_hash prev (l1 ++ l2) = last_hash (last_hash prev l1) l2.
Proof. unfold last_hash. rewrite last_app. by destruct (last l2). Qed.

Lemma chain_from_app l1 l2 : forall prev, chain_from prev (l1 ++ l2) -> chain_from prev l1 /\ chain_from (last_hash prev l1) l2.
Proof.
  induction l1 as [|x l1 IH]; intros prev HC; [by split|]. destruct HC as [Hx HC]. apply IH in HC as [H1 H2]. split; [done|].
  unfold last_hash in *. destruct l1 as [|y l1]; [done|]. rewrite last_cons_cons. destruct (last (y :: l1)) eqn:E; [done|].
  by apply last_None in E.
Qed.

Lemma store_complete pre rest hs : forall acc s, buffered pre [] acc s -> Forall honest_header hs ->
  chain_from (m_chain_start_hash cfg) (acc ++ hs) -> bits (m_chain_start_height cfg) pre = bits 0 (acc ++ hs ++ rest) ->
  exists s', store_redownloaded SHA3_256 randomx_hash_fast cfg s hs = (true, s') /\ buffered pre [] (acc ++ hs) s'.
Proof.
  induction hs as [|h hs IH]; intros acc s HB HH HC HE.
  { exists s. by rewrite app_nil_r. }
  apply Forall_cons in HH as [(HP & _ & _ & _) HH]. pose proof (chain_from_app _ _ _ HC) as [_ [Hprev _]].
  assert (ValidateAndStoreRedownloadedHeader SHA3_256 randomx_hash_fast cfg s h
          = (true, stored s h (bits (height_after 0 (acc ++ [h])) (hs ++ rest)))) as Hok.
  { apply redownload_iff. split_and!; [done| |].
    - rewrite (bf_headers _ _ _ _ HB). intros Hne. assert (acc <> []) by (by intros ->).
      rewrite Hprev, (bf_last _ _ _ _ HB) by done. by apply last_hash_any.
    - eexists. split; [reflexivity|]. rewrite (bf_bits _ _ _ _ HB) in HE. cbn [app] in HE.
      rewrite (bits_app _ acc) in HE. apply app_inv_head in HE. rewrite HE, (bf_height _ _ _ _ HB), height_after_snoc. done. }
  cbn [store_redownloaded]. rewrite Hok. replace (acc ++ h :: hs) with ((acc ++ [h]) ++ hs) in * by (by rewrite <- app_assoc).
  apply IH; [by eapply redownloaded_buffered|done|done|]. by rewrite HE, <- !app_assoc.
Qed.

Lemma conversation_cons s hs msgs r s1 : ProcessNextHeaders SHA3_256 randomx_hash_fast cfg s hs = (r, s1) ->
  conversation s (hs :: msgs) = let '(rs, s2) := conversation s1 msgs in (r :: rs, s2).
Proof. intros E. cbn [conversation]. by rewrite E. Qed.

Lemma conversation_app m1 m2 : forall s, conversation s (m1 ++ m2) =
  let '(r1, s1) := conversation s m1 in let '(r2, s2) := conversation s1 m2 in (r1 ++ r2, s2).
Proof.
  induction m1 as [|hs m1 IH]; intros s; cbn [app conversation]; [by destruct (conversation s m2)|].
  destruct (ProcessNextHeaders _ _ _ s hs) as [r s1]. rewrite IH. destruct (conversation s1 m1) as [r1 s2].
  by destruct (conversation s2 m2).
Qed.

Definition accepted (r : ProcessingResult) : Prop := r = mkResult [] true true.

(** The first phase: the work is enough only with the last message. *)
Lemma presync_completes msgs : forall seen s, shown seen s -> msgs <> [] -> Forall (fun hs => hs <> []) msgs ->
  Forall honest_header (concat msgs) -> chain_from (last_hash (m_chain_start_hash cfg) seen) (concat msgs) ->
  Z.of_nat (length (bits (m_chain_start_height cfg) (seen ++ concat msgs))) <= m_max_commitments cfg ->
  (forall k, k < length msgs ->
    ChainWorkGreaterOrEqual (claimed_work (seen ++ concat (take k msgs))) (m_minimum_required_work cfg) = false)%nat ->
  ChainWorkGreaterOrEqual (claimed_work (seen ++ concat msgs)) (m_minimum_required_work cfg) = true ->
  exists rs s', conversation s msgs = (rs, s') /\ Forall accepted rs /\ buffered (seen ++ concat msgs) [] [] s'.
Proof.
  induction msgs as [|hs msgs IH]; intros seen s HS Hne HN HH HC HM Hlow Hwork; [done|]. clear Hne. cbn [concat] in *.
  apply Forall_cons in HN as [Hhs HN]. apply Forall_app in HH as [HHh HH]. pose proof (chain_from_app _ _ _ HC) as [HC1 HC2].
  destruct (ValidateAndStore_complete hs seen s HS HHh HC1) as (s1 & EV & HS1).
  { etrans; [|exact HM]. rewrite (app_assoc seen), (bits_app _ (seen ++ hs)), length_app. lia. }
  assert (ProcessNextHeaders SHA3_256 randomx_hash_fast cfg s hs = (mkResult [] true true,
    if ChainWorkGreaterOrEqual (claimed_work (seen ++ hs)) (m_minimum_required_work cfg) then set_state s1 REDOWNLOAD else s1)) as EP.
  { unfold ProcessNextHeaders. rewrite (sw_state _ _ HS), EV, (sw_work _ _ HS1). by destruct hs. }
  rewrite (conversation_cons _ _ _ _ _ EP). destruct msgs as [|hs2 msgs].
  - cbn [concat] in *. rewrite app_nil_r in *. rewrite Hwork. cbn [conversation]. eexists _, _. split_and!; [done|by constructor|].
    apply buffered_start; [done|]. by rewrite (sw_work _ _ HS1).
  - pose proof (Hlow 1%nat ltac:(cbn; lia)) as Hl1. cbn [take concat] in Hl1. 
    rewrite app_nil_r in Hl1. rewrite Hl1. destruct (IH (seen ++ hs) s1) as (rs & s' & EC & HR & HB); [done|done|done|done| | | | |].
    + by rewrite last_hash_app.
    + by rewrite <- app_assoc.
    + intros k Hk. rewrite <- app_assoc. apply (Hlow (S k)). cbn [length] in *. lia.
    + by rewrite <- app_assoc.
    + rewrite EC. eexists _, _. rewrite <- app_assoc in HB. split_and!; [done|by constructor|done].
Qed.

(** The second phase: the call that consumes the last commitment hands everything out. *)
Lemma redownload_completes pre msgs : forall acc s, buffered pre [] acc s -> msgs <> [] -> Forall (fun hs => hs <> []) msgs ->
  Forall honest_header (acc ++ concat msgs) -> chain_from (m_chain_start_hash cfg) (acc ++ concat msgs) ->
  bits (m_chain_start_height cfg) pre = bits 0 (acc ++ concat msgs) ->
  Z.of_nat (length (acc ++ concat msgs)) < redownload_buffer_size (m_params cfg) ->
  exists k rs s', conversation s (take k msgs) = (rs ++ [mkResult (plain <$> acc ++ concat (take k msgs)) true false], s') /\
    Forall accepted rs /\ m_download_state s' = FINAL /\ bits (height_after 0 (acc ++ concat (take k msgs))) (concat (drop k msgs)) = [].
Proof.
  induction msgs as [|hs msgs IH]; intros acc s HB Hne HN HH HC HE HL; [done|]. clear Hne. cbn [concat] in *.
  apply Forall_cons in HN as [Hhs HN]. rewrite (app_assoc acc) in *.
  pose proof HH as [HHh _]%Forall_app. pose proof (chain_from_app _ _ _ HC) as [HC1 _].
  destruct (store_complete pre (concat msgs) hs acc s HB) as (s1 & ES & HB1); [by apply Forall_app in HHh as [_ ?]|done|by rewrite app_assoc|].
  assert (ProcessNextHeaders SHA3_256 randomx_hash_fast cfg s hs =
    if bool_decide (m_header_commitments s1 = []) then (mkResult (plain <$> acc ++ hs) true false, Finalize (snd (PopHeadersReadyForAcceptance SHA3_256 randomx_hash_fast s1)))
    else (mkResult [] true true, s1)) as EP.
  { unfold ProcessNextHeaders. rewrite (bf_state _ _ _ _ HB), ES, (bf_all _ _ _ _ HB1). cbn [negb].
    replace (Z.of_nat (length (m_redownloaded_headers s1)) >=? _) with false.
    2: { rewrite (bf_headers _ _ _ _ HB1), length_fmap. rewrite length_app in HL. destruct (_ >=? _) eqn:E; zprop; [lia|done]. }
    cbn [orb]. destruct hs as [|h hs]; [done|]. remember (acc ++ h :: hs) as acc1 eqn:Eacc.
    destruct (bool_decide _); cbn [negb]; [|done]. destruct (PopHeadersReadyForAcceptance _ _ s1) as [l s2] eqn:EPop.
    apply (pop_buffered _ _ _ _ _ _ HB1) in EPop as [-> _]; [done|]. eapply Forall_impl; [exact HHh|]. intros x Hx. apply Hx. }
  destruct (bool_decide_reflect (m_header_commitments s1 = [])) as [Hdone|Hmore].
  - exists 1%nat, []. eexists. cbn [take drop]. rewrite take_0, drop_0. rewrite (conversation_cons _ _ _ _ _ EP). cbn [conversation concat].
    rewrite !app_nil_r. split_and!; [done|done|done|].
    rewrite (bf_bits _ _ _ _ HB1), Hdone in HE. cbn [app] in HE. rewrite app_nil_r, (bits_app (concat msgs) (acc ++ hs)) in HE.
    apply (f_equal length) in HE. rewrite length_app in HE. apply length_zero_iff_nil. lia.
  - destruct msgs as [|hs2 msgs].
    { cbn [concat] in HE. rewrite app_nil_r, (bf_bits _ _ _ _ HB1) in HE. cbn [app] in HE. apply (f_equal length) in HE.
      rewrite length_app in HE. destruct Hmore. apply length_zero_iff_nil. lia. }
    destruct (IH (acc ++ hs) s1) as (k & rs & s' & EC & HR & HD & HT); [done|done|done|done|done|done|done|].
    exists (S k), (mkResult [] true true :: rs), s'. cbn [take drop concat]. rewrite (conversation_cons _ _ _ _ _ EP), EC, app_assoc.
    split_and!; [done|by constructor|done|done].
Qed.

Lemma bits_period z l : 0 < commitment_period (m_params cfg) -> 0 <= z ->
  Z.rem z (commitment_period (m_params cfg)) = 0 -> forall w, 0 <= w -> w + Z.of_nat (length l) < 2 ^ 63 - z ->
  bits (z + w) l = bits w l.
Proof.
  intros Hp Hz Hr. induction l as [|h l IH]; intros w Hw Hl; [done|]. cbn [bits length] in *.
  rewrite !i64_small by lia. replace (z + w + 1) with (z + (w + 1)) by lia. rewrite IH by lia. f_equal.
  assert (at_commitment cfg (z + (w + 1)) = at_commitment cfg (w + 1)) as ->; [|done]. unfold at_commitment. f_equal.
  rewrite Z.rem_mod_nonneg in Hr by lia. rewrite !Z.rem_mod_nonneg by lia. by rewrite Z.add_mod, Hr, Z.add_0_l, Z.mod_mod by lia.
Qed.

(** C31: Synchronisation with an honest peer completes.  A peer sends a chain of valid RandomX headers from the start block in non-empty
    messages whose work is enough with the last of them, and then the same chain again, cut in any way; the start height is a
    multiple of the commitment period, the chain has no more commitment heights than the bound and fits in the buffer.  Then every
    message is accepted, and one of the second round ends the synchronisation and hands out everything redownloaded up to it; no
    commitment height is left in the headers after it. *)
Theorem honest_peer_syncs round1 round2 :
  let l := concat round1 in
  concat round2 = l -> round1 <> [] -> round2 <> [] ->
  Forall (fun hs => hs <> []) round1 -> Forall (fun hs => hs <> []) round2 ->
  Forall honest_header l -> chain_from (m_chain_start_hash cfg) l ->
  (forall k, k < length round1 ->
    ChainWorkGreaterOrEqual (claimed_work (concat (take k round1))) (m_minimum_required_work cfg) = false)%nat ->
  ChainWorkGreaterOrEqual (claimed_work l) (m_minimum_required_work cfg) = true ->
  0 < commitment_period (m_params cfg) -> 0 <= m_chain_start_height cfg ->
  Z.rem (m_chain_start_height cfg) (commitment_period (m_params cfg)) = 0 ->
  m_chain_start_height cfg + Z.of_nat (length l) < 2 ^ 63 ->
  Z.of_nat (length (bits 0 l)) <= m_max_commitments cfg ->
  Z.of_nat (length l) < redownload_buffer_size (m_params cfg) ->
  exists k rs s', conversation (new_HeadersSyncState cfg) (round1 ++ take k round2)
      = (rs ++ [mkResult (plain <$> concat (take k round2)) true false], s') /\
    Forall accepted rs /\ m_download_state s' = FINAL /\
    bits (height_after 0 (concat (take k round2))) (concat (drop k round2)) = [].
Proof.
  intros l E2 N1 N2 F1 F2 HH HC Hlow Hwork Hp Hz Hrem Hmax HM HL.
  assert (bits (m_chain_start_height cfg) l = bits 0 l) as Hbits.
  { rewrite <- (bits_period (m_chain_start_height cfg) l Hp Hz Hrem 0) by lia. by rewrite Z.add_0_r. }
  destruct (presync_completes round1 [] (new_HeadersSyncState cfg)) as (rs1 & s1 & EC1 & HR1 & HB1);
    [apply new_shown|done|done|done|done|cbn [app]; unfold l in *; by rewrite Hbits|done|done|].
  cbn [app] in HB1. rewrite <- E2 in HH, HC, HL, Hbits.
  destruct (redownload_completes _ round2 [] s1 HB1) as (k & rs2 & s2 & EC2 & HR2 & HD & HT); [done|done|done|done| |done|].
  { cbn [app]. by rewrite <- Hbits, E2. }
  exists k, (rs1 ++ rs2), s2. rewrite conversation_app, EC1, EC2. cbn [app] in *. rewrite <- app_assoc.
  split_and!; [done|by apply Forall_app|done|done].
Qed.
End Soundness.

(** ** Concrete conversations *)

(** Hashes that keep one byte of their input: the nonce of a header, the first byte of the hash committed to. *)
Definition demo_sha (data : list Z) : uint256 := nth 32 data 0 :: replicate 31 0.
Definition demo_rx (data : list Z) : uint256 := nth 76 data 0 :: replicate 31 0.
Definition demo_hash (n : Z) : uint256 := n :: replicate 31 0.
Definition demo_header (prev n : Z) : CBlockHeader :=
  mkHeader 1 (demo_hash prev) zero256 0 0x1f00ffff n zero256 zero256 zero256 false.
Definition demo_cfg (height period buffer : Z) (work : nat) : SyncConfig :=
  mkSyncConfig (mkSyncParams period buffer 1000) (demo_hash 0) height (claimed_work (replicate work (demo_header 0 0))) zero256 0
    (Some (RandomXHeaderProofChecker demo_sha demo_rx)).
Definition demo_round1 : list (list CBlockHeader) :=
  [[demo_header 0 1; demo_header 1 2]; [demo_header 2 3; demo_header 3 4; demo_header 4 5]].
Definition demo_round2 : list (list CBlockHeader) :=
  [[demo_header 0 1; demo_header 1 2; demo_header 2 3]; [demo_header 3 4]; [demo_header 4 5]].
Definition demo_run (cfg : SyncConfig) (msgs : list (list CBlockHeader)) :=
  conversation demo_sha demo_rx cfg (new_HeadersSyncState cfg) msgs.

Lemma headers_sync_sound_witness :
  let '(rs, s) := demo_run (demo_cfg 4 2 100 5) (demo_round1 ++ demo_round2) in
  Z.of_nat (length (m_header_commitments s)) <= m_max_commitments (demo_cfg 4 2 100 5) /\
  forall i r, rs !! i = Some r ->
    sound_result demo_sha demo_rx (demo_cfg 4 2 100 5) (concat (take (S i) (demo_round1 ++ demo_round2))) r.
Proof. apply headers_sync_sound. repeat constructor; vm_compute; (reflexivity || discriminate). Defined.

Lemma honest_peer_syncs_witness : exists k rs s',
  demo_run (demo_cfg 4 2 100 5) (demo_round1 ++ take k demo_round2)
    = (rs ++ [mkResult (plain <$> concat (take k demo_round2)) true false], s') /\
  Forall accepted rs /\ m_download_state s' = FINAL /\
  bits demo_sha demo_rx (demo_cfg 4 2 100 5) (height_after 0 (concat (take k demo_round2))) (concat (drop k demo_round2)) = [].
Proof.
  apply honest_peer_syncs; try done.
  - repeat constructor; discriminate.
  - repeat constructor; discriminate.
  - repeat constructor; vm_compute; (reflexivity || discriminate).
  - intros [|[|k]] Hk; [vm_compute; reflexivity|vm_compute; reflexivity|]. cbn in Hk. lia.
Defined.

(** The heights of the second phase start at 0 and not at the start height: an honest peer is refused. *)
Example misaligned_start_refuses_honest_peer :
  pr_success <$> fst (demo_run (demo_cfg 5 2 100 5) (demo_round1 ++ demo_round2)) = [true; true; false; false; false].
Proof. vm_compute. reflexivity. Qed.

(** The first redownloaded header is not linked to the start block. *)
Example unlinked_redownload_handed_out :
  pow_validated_headers <$> last (fst (demo_run (demo_cfg 4 2 100 5)
     (demo_round1 ++ [[demo_header 9 1; demo_header 1 2; demo_header 2 3; demo_header 3 4]])))
  = Some [demo_header 9 1; demo_header 1 2; demo_header 2 3; demo_header 3 4].
Proof. vm_compute. reflexivity. Qed.

(** When the call that ends the second phase fills the buffer, the batch is popped twice and lost. *)
Example full_buffer_loses_the_batch :
  last (fst (demo_run (demo_cfg 4 2 4 5) (demo_round1 ++ [concat demo_round2]))) = Some (mkResult [] true false).
Proof. vm_compute. reflexivity. Qed.

(** A chain too short for a commitment: any header with a valid proof is handed out in the second phase. *)
Example short_chain_uncommitted :
  pow_validated_headers <$> last (fst (demo_run (demo_cfg 4 100 50 5) (demo_round1 ++ [[demo_header 7 8]]))) = Some [demo_header 7 8].
Proof. vm_compute. reflexivity. Qed.

(** The compressed form drops the VDF fields: no header handed out passes the VDF checker. *)
Lemma rebuilt_header_fails_vdf_check c prev : CheckHeaderProof VDFHeaderProofChecker (GetFullHeader c prev) = false.
Proof. cbn. by destruct (IsVDFBlock _). Qed.
