(* ===== verification/Base58.v ===== *)
(** * Base58 and Base58Check text (util/base58)

    The positional conversions of the two directions as the code runs them, digit
    by digit with a carry, the leading zeroes, the alphabet and the checksum.
    Writing past the end of the encoder's buffer is [None].  A string is the list
    of its byte codes.  The theorems: the buffer is always large enough, and the
    text with a checksum is in bijection with the payload. *)

From S2P Require Import Prelude Uint256.

(** 123456789 ABCDEFGH JKLMN PQRSTUVWXYZ abcdefghijk mnopqrstuvwxyz *)
Definition pszBase58 : list Z :=
  seqZ 49 9 ++ seqZ 65 8 ++ seqZ 74 5 ++ seqZ 80 11 ++ seqZ 97 11 ++ seqZ 109 14.
Definition MAX_BASE58_LEN : nat := 1024.

(** [for (j...) { carry += mul * v[j]; v[j] = carry % base; carry /= base; }] *)
Fixpoint scan_digits (mul base carry : Z) (ds : list Z) : list Z * Z :=
  match ds with
  | [] => ([], carry)
  | d :: ds' =>
      let carry := carry + mul * d in
      let '(r, carry') := scan_digits mul base (Z.quot carry base) ds' in (Z.rem carry base :: r, carry')
  end.

(** [while (carry > 0) { v[length++] = carry % base; carry /= base; }] into a buffer of [cap] digits. *)
Fixpoint push_carry (fuel : nat) (base : Z) (cap : option nat) (carry : Z) (ds : list Z) : option (list Z) :=
  match fuel with
  | O => Some ds
  | S fuel' =>
      if carry >? 0 then
        if match cap with Some c => (c <=? length ds)%nat | None => false end then None
        else push_carry fuel' base cap (Z.quot carry base) (ds ++ [Z.rem carry base])
      else Some ds
  end.

Definition add_digit (mul base : Z) (cap : option nat) (ds : list Z) (d : Z) : option (list Z) :=
  let '(r, carry) := scan_digits mul base d ds in push_carry (Z.to_nat carry) base cap carry r.

Fixpoint add_digits (mul base : Z) (cap : option nat) (ds : list Z) (l : list Z) : option (list Z) :=
  match l with
  | [] => Some ds
  | d :: l' => ds' ← add_digit mul base cap ds d; add_digits mul base cap ds' l'
  end.

(** The number of leading elements equal to [x]. *)
Fixpoint leading (x : Z) (l : list Z) : nat :=
  match l with
  | y :: l' => if y =? x then S (leading x l') else O
  | [] => O
  end.

Definition EncodeBase58 (data : list Z) : option (list Z) :=
  let zeroes := leading 0 data in
  let cap := ((length data - zeroes) * 138 / 100 + 1)%nat in
  b58 ← add_digits 256 58 (Some cap) [] (drop zeroes data);
  Some (replicate zeroes (byte_at pszBase58 0) ++ ((fun d => byte_at pszBase58 (Z.to_nat d)) <$> reverse b58)).

(** [strchr] also finds the terminating NUL, at index 58. *)
Fixpoint index_of (x : Z) (l : list Z) (i : Z) : option Z :=
  match l with
  | [] => None
  | y :: l' => if y =? x then Some i else index_of x l' (i + 1)
  end.
Definition strchr_index (c : Z) : option Z := index_of c (pszBase58 ++ [0]) 0.

Fixpoint decode_digits (vch : list Z) (str : list Z) : option (list Z) :=
  match str with
  | [] => Some vch
  | c :: str' =>
      match strchr_index c with
      | None => None
      | Some carry => vch' ← add_digit 58 256 None vch carry; decode_digits vch' str'
      end
  end.

Definition DecodeBase58 (str : list Z) : option (list Z) :=
  if (MAX_BASE58_LEN <? length str)%nat then None
  else
    let zeroes := leading (byte_at pszBase58 0) str in
    vch ← decode_digits [] (drop zeroes str);
    Some (replicate zeroes 0 ++ reverse vch).

Section Check.
  Variable SHA3_256 : list Z -> uint256.

Definition EncodeBase58Check (data : list Z) : option (list Z) :=
  EncodeBase58 (data ++ take 4 (SHA3_256 (SHA3_256 data))).

Definition DecodeBase58Check (str : list Z) : option (list Z) :=
  if (MAX_BASE58_LEN <? length str)%nat then None
  else
    match DecodeBase58 str with
    | None => None
    | Some vch =>
        if (length vch <? 4)%nat then None
        else
          let payload := take (length vch - 4) vch in
          let checksum := drop (length vch - 4) vch in
          if bool_decide (checksum <> take 4 (SHA3_256 (SHA3_256 payload))) then None else Some payload
    end.
End Check.

(** ** Numbers in a base *)

Fixpoint dval (base : Z) (ds : list Z) : Z :=
  match ds with [] => 0 | d :: ds' => d + base * dval base ds' end.
Definition digits_ok (base : Z) (ds : list Z) : Prop := Forall (fun d => 0 <= d < base) ds.
(** No leading zero. *)
Definition canonical (base : Z) (ds : list Z) : Prop := digits_ok base ds /\ last ds <> Some 0.

Section Digits.
  Variable base : Z.
  Hypothesis Hbase : 1 < base.

Lemma dval_app l k : dval base (l ++ k) = dval base l + base ^ Z.of_nat (length l) * dval base k.
Proof.
  induction l as [|b l IH]; cbn [length dval app].
  - change (base ^ Z.of_nat 0) with 1. lia.
  - rewrite IH, Nat2Z.inj_succ, Z.pow_succ_r by lia. ring.
Qed.

Lemma dval_bound l : digits_ok base l -> 0 <= dval base l < base ^ Z.of_nat (length l).
Proof.
  induction 1 as [|b l [] _ IH]; cbn [length dval]; [change (base ^ Z.of_nat 0) with 1; lia|].
  rewrite Nat2Z.inj_succ, Z.pow_succ_r by lia. nia.
Qed.

Lemma canonical_low l : canonical base l -> l <> [] -> base ^ (Z.of_nat (length l) - 1) <= dval base l.
Proof.
  intros [HD HL] Hne. destruct (exists_last Hne) as (l' & d & ->). rewrite last_snoc in HL.
  apply Forall_app in HD as [HD Hd]. apply Forall_cons in Hd as [Hd _].
  pose proof (dval_bound _ HD). rewrite dval_app, length_app. cbn [length dval].
  replace (Z.of_nat (length l' + 1) - 1) with (Z.of_nat (length l')) by lia.
  assert (d <> 0) by (intros ->; done). assert (1 <= d) by lia.
  assert (0 < base ^ Z.of_nat (length l')) by (apply Z.pow_pos_nonneg; lia). rewrite Z.mul_0_r, Z.add_0_r. nia.
Qed.

Lemma canonical_length l n : canonical base l -> dval base l < base ^ Z.of_nat n -> (length l <= n)%nat.
Proof.
  intros HC HV. destruct (decide (l = [])) as [->|Hne]; [cbn; lia|]. pose proof (canonical_low _ HC Hne) as HL.
  assert (Z.of_nat (length l) - 1 < Z.of_nat n); [|lia]. apply (Z.pow_lt_mono_r_iff base); lia.
Qed.

Lemma canonical_high_zero l : digits_ok base l -> last l = Some 0 -> dval base l < base ^ (Z.of_nat (length l) - 1).
Proof.
  intros HD HL. destruct (decide (l = [])) as [->|Hne]; [done|]. destruct (exists_last Hne) as (l' & d & ->).
  rewrite last_snoc in HL. injection HL as ->. apply Forall_app in HD as [HD _]. pose proof (dval_bound _ HD).
  rewrite dval_app, length_app. cbn [length dval]. replace (Z.of_nat (length l' + 1) - 1) with (Z.of_nat (length l')) by lia. lia.
Qed.

Lemma canonical_pos l : canonical base l -> l <> [] -> 0 < dval base l.
Proof. intros HC Hne. pose proof (canonical_low _ HC Hne). assert (0 < base ^ (Z.of_nat (length l) - 1)); [|lia]. apply Z.pow_pos_nonneg; destruct l; cbn in *; [done|lia|done|lia]. Qed.

Lemma canonical_tail d l : canonical base (d :: l) -> canonical base l.
Proof. intros [HD HL]. apply Forall_cons in HD as [_ HD]. split; [done|]. destruct l; [done|by rewrite last_cons_cons in HL]. Qed.

Lemma canonical_unique l : forall k, canonical base l -> canonical base k -> dval base l = dval base k -> l = k.
Proof.
  induction l as [|d l IH]; intros [|e k] HL HK HV; [done| | |].
  - pose proof (canonical_pos _ HK ltac:(done)). cbn [dval] in *. lia.
  - pose proof (canonical_pos _ HL ltac:(done)). cbn [dval] in *. lia.
  - pose proof HL as [[Hd _]%Forall_cons _]. pose proof HK as [[He _]%Forall_cons _]. cbn [dval] in HV.
    destruct (Z.div_mod_unique base (dval base l) (dval base k) d e) as [HV' ->]; [lia|lia|lia|]. f_equal. apply IH; [by eapply canonical_tail|by eapply canonical_tail|done].
Qed.

(** One step of a conversion multiplies and adds. *)
Lemma scan_digits_spec mul ds : forall c, 0 <= mul -> 0 <= c -> digits_ok base ds ->
  let '(r, c') := scan_digits mul base c ds in
  length r = length ds /\ digits_ok base r /\ 0 <= c' /\ dval base r + base ^ Z.of_nat (length ds) * c' = mul * dval base ds + c.
Proof.
  induction ds as [|d ds IH]; intros c Hm Hc HD; cbn [scan_digits length dval].
  { change (base ^ Z.of_nat 0) with 1. split_and!; [done|constructor|lia|lia]. }
  apply Forall_cons in HD as [Hd HD]. rewrite Z.quot_div_nonneg, Z.rem_mod_nonneg by nia.
  specialize (IH ((c + mul * d) / base) Hm ltac:(apply Z.div_pos; nia) HD). destruct (scan_digits mul base _ ds) as [r c'].
  destruct IH as (HL & HR & HC & HV). cbn [length dval]. pose proof (Z.mod_pos_bound (c + mul * d) base ltac:(lia)).
  pose proof (Z.div_mod (c + mul * d) base ltac:(lia)). rewrite Nat2Z.inj_succ, Z.pow_succ_r by lia.
  split_and!; [by rewrite HL|by constructor|done|nia].
Qed.

(** The digits of a carry. *)
Fixpoint carry_digits (fuel : nat) (c : Z) : list Z :=
  match fuel with
  | O => []
  | S fuel' => if c >? 0 then Z.rem c base :: carry_digits fuel' (Z.quot c base) else []
  end.
Lemma push_carry_digits fuel cap : forall c ds, 
  push_carry fuel base cap c ds
  = if match cap with Some k => negb (bool_decide (carry_digits fuel c = [])) && (k <? length (ds ++ carry_digits fuel c))%nat | None => false end
    then None else Some (ds ++ carry_digits fuel c).
Proof.
  induction fuel as [|fuel IH]; intros c ds; cbn [push_carry carry_digits].
  { rewrite app_nil_r. by destruct cap. }
  destruct (c >? 0); [|rewrite app_nil_r; by destruct cap]. rewrite IH.
  replace ((ds ++ [Z.rem c base]) ++ carry_digits fuel (Z.quot c base)) with (ds ++ Z.rem c base :: carry_digits fuel (Z.quot c base))
    by (by rewrite <- app_assoc).
  destruct cap as [k|]; [|done]. rewrite (bool_decide_eq_false_2 (_ :: _ = [])) by done. cbn [negb andb].
  destruct (Nat.leb_spec k (length ds)) as [Hk|Hk].
  - destruct (Nat.ltb_spec k (length (ds ++ Z.rem c base :: carry_digits fuel (Z.quot c base)))) as [|Hle]; [done|].
    rewrite length_app in Hle. cbn [length] in Hle. lia.
  - case_bool_decide as HE; cbn [negb andb]; [|done].
    rewrite HE, length_app. cbn [length]. destruct (Nat.ltb_spec k (length ds + 1)); [lia|done].
Qed.

Lemma carry_digits_spec fuel : forall c, 0 <= c <= Z.of_nat fuel ->
  canonical base (carry_digits fuel c) /\ dval base (carry_digits fuel c) = c.
Proof.
  induction fuel as [|fuel IH]; intros c Hc; cbn [carry_digits].
  { split; [split; [constructor|done]|cbn; lia]. }
  destruct (c >? 0) eqn:E; zprop; [|split; [split; [constructor|done]|cbn; lia]].
  rewrite Z.quot_div_nonneg, Z.rem_mod_nonneg by lia. pose proof (Z.mod_pos_bound c base ltac:(lia)).
  pose proof (Z.div_mod c base ltac:(lia)) as HDM.
  assert (0 <= c / base <= Z.of_nat fuel) as Hq by (split; [apply Z.div_pos; lia|pose proof (Z.div_lt c base); lia]).
  destruct (IH _ Hq) as [[HD HL] HV]. split; [split; [by constructor|]|cbn [dval]; lia].
  destruct (carry_digits fuel (c / base)) as [|x l] eqn:EC; [|by rewrite last_cons_cons].
  cbn [dval] in HV. cbn. intros [= Hz]. lia.
Qed.

Lemma add_digit_spec mul cap ds d : 1 <= mul -> 0 <= d -> canonical base ds -> (ds = [] -> 0 < d) ->
  exists ds', canonical base ds' /\ dval base ds' = mul * dval base ds + d /\ ds' <> [] /\ (length ds <= length ds')%nat /\
    add_digit mul base cap ds d
    = if match cap with Some k => negb (length ds' =? length ds)%nat && (k <? length ds')%nat | None => false end then None else Some ds'.
Proof.
  intros Hm Hd HC Hpos. unfold add_digit. pose proof (scan_digits_spec mul ds d ltac:(lia) Hd (proj1 HC)) as HS.
  destruct (scan_digits mul base d ds) as [r c]. destruct HS as (HL & HR & Hc & HV).
  destruct (carry_digits_spec (Z.to_nat c) c ltac:(lia)) as [HCc HVc].
  exists (r ++ carry_digits (Z.to_nat c) c). rewrite push_carry_digits.
  assert (dval base (r ++ carry_digits (Z.to_nat c) c) = mul * dval base ds + d) as HV' by (rewrite dval_app, HVc, HL; lia).
  assert (0 <= dval base ds) by (apply dval_bound, HC).
  split_and!; [|done| |rewrite length_app; lia|].
  - split; [apply Forall_app; split; [done|apply HCc]|]. rewrite last_app. destruct (last (carry_digits _ _)) as [x|] eqn:EL.
    + rewrite <- EL. apply HCc.
    + intros HZ. apply last_None in EL. rewrite EL, app_nil_r in HV'. pose proof (canonical_high_zero r HR HZ) as Hlow.
      rewrite HL in Hlow. destruct (decide (ds = [])) as [->|Hne]; [by destruct r|].
      pose proof (canonical_low ds HC Hne). nia.
  - intros HE. rewrite HE in HV'. cbn [dval] in HV'. destruct (decide (ds = [])) as [->|Hne]; [specialize (Hpos eq_refl); cbn in *; lia|].
    pose proof (canonical_pos ds HC Hne). nia.
  - destruct cap as [k|]; [|done]. replace (negb (bool_decide (carry_digits (Z.to_nat c) c = []))) with
      (negb (length (r ++ carry_digits (Z.to_nat c) c) =? length ds)%nat); [done|]. f_equal. rewrite length_app, HL.
    case_bool_decide as HE; [rewrite HE; cbn; rewrite Nat.add_0_r; apply Nat.eqb_refl|]. apply Nat.eqb_neq.
    destruct (carry_digits _ _); cbn in *; [done|lia].
Qed.

(** A conversion of the digits [l], the first not zero: the value read from the left. *)
Definition eval (mul : Z) (v : Z) (l : list Z) : Z := foldl (fun v d => mul * v + d) v l.
Lemma add_digits_spec mul cap l : forall ds, 1 <= mul -> digits_ok mul l -> canonical base ds ->
  (ds = [] -> forall d l', l = d :: l' -> d <> 0) ->
  match cap with Some k => eval mul (dval base ds) l < base ^ Z.of_nat k | None => True end ->
  exists ds', add_digits mul base cap ds l = Some ds' /\ canonical base ds' /\ dval base ds' = eval mul (dval base ds) l.
Proof.
  induction l as [|d l IH]; intros ds Hm HD HC Hpos Hcap; cbn [add_digits eval foldl].
  { by exists ds. }
  apply Forall_cons in HD as [Hd HD].
  destruct (add_digit_spec mul cap ds d) as (ds1 & HC1 & HV1 & Hne1 & Hlen1 & ->); [done|lia|done| |].
  { intros ->. specialize (Hpos eq_refl d l eq_refl). lia. }
  destruct (IH ds1) as (ds' & E & HC' & HV'); [done|done|done|by intros ->|by rewrite HV1|].
  rewrite HV1 in HV'. exists ds'. split; [|done].
  assert (match cap with Some k => negb (length ds1 =? length ds)%nat && (k <? length ds1)%nat | None => false end = false) as ->; [|exact E].
  destruct cap as [k|]; [|done]. apply andb_false_intro2, Nat.ltb_ge. apply (canonical_length ds1 k HC1).
  assert (forall l v, 0 <= v -> digits_ok mul l -> v <= eval mul v l) as Hmono.
  { clear -Hm. induction l as [|d l IH]; intros v Hv HD; cbn [eval foldl]; [lia|]. apply Forall_cons in HD as [Hd HD].
    etrans; [|apply IH; [nia|done]]. nia. }
  assert (0 <= dval base ds1) by (apply dval_bound, HC1).
  eapply Z.le_lt_trans; [apply (Hmono l); [done|done]|]. by rewrite HV1.
Qed.
End Digits.

(** ** The alphabet *)

Definition char_of (d : Z) : Z := byte_at pszBase58 (Z.to_nat d).

Lemma strchr_char d : 0 <= d < 58 -> strchr_index (char_of d) = Some d.
Proof.
  assert (forallb (fun d => bool_decide (strchr_index (char_of d) = Some d)) (seqZ 0 58) = true) as H by (vm_compute; reflexivity).
  rewrite forallb_forall in H. intros Hd. specialize (H d). rewrite <- list_elem_of_In in H.
  apply bool_decide_eq_true in H; [done|]. apply elem_of_seqZ. lia.
Qed.

Lemma index_of_lookup x l : forall i n, index_of x l i = Some n -> i <= n < i + Z.of_nat (length l) /\ byte_at l (Z.to_nat (n - i)) = x.
Proof.
  induction l as [|y l IH]; intros i n; cbn [index_of]; [done|]. destruct (y =? x) eqn:E; zprop.
  - intros [= ->]. rewrite Z.sub_diag. cbn [length]. split; [lia|done].
  - intros H. apply IH in H as [Hr Hb]. cbn [length]. split; [lia|].
    replace (Z.to_nat (n - i)) with (S (Z.to_nat (n - (i + 1)))) by lia. done.
Qed.

Lemma strchr_inv c d : c <> 0 -> strchr_index c = Some d -> 0 <= d < 58 /\ char_of d = c.
Proof.
  intros Hc H. apply index_of_lookup in H as [Hr Hb]. rewrite Z.sub_0_r in Hb. change (length (pszBase58 ++ [0])) with 59%nat in Hr.
  destruct (decide (d = 58)) as [->|Hd]; [by cbn in Hb|]. split; [lia|].
  unfold char_of, byte_at in *. rewrite app_nth1 in Hb; [done|]. change (length pszBase58) with 58%nat. lia.
Qed.

Lemma char_of_inj_0 d : 0 <= d < 58 -> char_of d = char_of 0 -> d = 0.
Proof. intros Hd H. apply (f_equal strchr_index) in H. rewrite !strchr_char in H by lia. by injection H. Qed.

Lemma decode_digits_chars ds : forall vch, digits_ok 58 ds -> decode_digits vch (char_of <$> ds) = add_digits 58 256 None vch ds.
Proof.
  induction ds as [|d ds IH]; intros vch HD; [done|]. apply Forall_cons in HD as [Hd HD].
  cbn [fmap list_fmap decode_digits add_digits]. rewrite strchr_char by done. destruct (add_digit _ _ _ _ _); cbn; [by apply IH|done].
Qed.

Lemma decode_digits_inv str : forall vch v, Forall (fun c => c <> 0) str -> decode_digits vch str = Some v ->
  exists ds, str = char_of <$> ds /\ digits_ok 58 ds.
Proof.
  induction str as [|c str IH]; intros vch v HF; cbn [decode_digits].
  { intros _. exists []. by split; [|constructor]. }
  apply Forall_cons in HF as [Hc HF]. destruct (strchr_index c) as [d|] eqn:E; [|done].
  apply (strchr_inv c d Hc) in E as [Hd <-]. destruct (add_digit _ _ _ _ _) as [vch'|]; cbn; [|done]. intros H.
  destruct (IH vch' v HF H) as (ds & -> & HD). exists (d :: ds). split; [done|by constructor].
Qed.

(** ** Leading characters *)

Lemma leading_split x l : exists r, l = replicate (leading x l) x ++ r /\ drop (leading x l) l = r /\ (forall y r', r = y :: r' -> y <> x).
Proof.
  induction l as [|y l IH]; cbn [leading]; [by exists []|]. destruct (y =? x) eqn:E; zprop.
  - subst. destruct IH as (r & H1 & H2 & H3). exists r. split_and!; [cbn; by f_equal|done|done].
  - exists (y :: l). split_and!; [done|done|]. by intros y' r' [= -> ->].
Qed.
Lemma leading_app x n r : (forall y r', r = y :: r' -> y <> x) -> leading x (replicate n x ++ r) = n.
Proof.
  intros Hr. induction n as [|n IH]; cbn [replicate app leading].
  - destruct r as [|y r]; [done|]. cbn [leading]. destruct (y =? x) eqn:E; zprop; [|done]. by destruct (Hr y r eq_refl).
  - by rewrite Z.eqb_refl, IH.
Qed.
Lemma eval_dval base l : 1 < base -> forall v, eval base v l = dval base (reverse l) + base ^ Z.of_nat (length l) * v.
Proof.
  intros Hb. induction l as [|d l IH] using rev_ind; intros v.
  - cbn. lia.
  - unfold eval in *. rewrite foldl_app. cbn [foldl]. rewrite IH, reverse_app, length_app. cbn [length].
    change (reverse [d] ++ reverse l) with (d :: reverse l). cbn [dval]. replace (Z.of_nat (length l + 1)) with (Z.succ (Z.of_nat (length l))) by lia.
    rewrite Z.pow_succ_r by lia. ring.
Qed.
Lemma reverse_canonical base l : digits_ok base l -> (forall y r', l = y :: r' -> y <> 0) -> canonical base (reverse l).
Proof.
  intros HD Hh. split; [by apply Forall_reverse|]. destruct l as [|d l]; [done|]. rewrite reverse_cons, last_snoc. intros [= ->].
  by apply (Hh 0 l eq_refl).
Qed.
Lemma canonical_head base ds : canonical base ds -> forall y r', reverse ds = y :: r' -> y <> 0.
Proof.
  intros [_ HL] y r' HE ->. apply (f_equal reverse) in HE. rewrite reverse_involutive, reverse_cons in HE. subst. by rewrite last_snoc in HL.
Qed.

(** The buffer of the encoder: 138/100 digits of base 58 per byte are enough. *)
Lemma buffer_enough n : 256 ^ Z.of_nat n <= 58 ^ Z.of_nat (n * 138 / 100 + 1).
Proof.
  set (k := (n * 138 / 100 + 1)%nat). assert (138 * Z.of_nat n <= 100 * Z.of_nat k) as Hk.
  { unfold k. pose proof (Nat.div_mod (n * 138) 100 ltac:(lia)). pose proof (Nat.mod_upper_bound (n * 138) 100 ltac:(lia)). lia. }
  apply (Z.pow_le_mono_l_iff _ _ 100); [apply Z.pow_nonneg; lia|apply Z.pow_nonneg; lia|lia|].
  rewrite <- !Z.pow_mul_r by lia. rewrite (Z.mul_comm (Z.of_nat n)), (Z.mul_comm (Z.of_nat k)).
  etrans; [|apply (Z.pow_le_mono_r 58); [lia|exact Hk]]. rewrite !Z.pow_mul_r by lia. apply Z.pow_le_mono_l.
  split; [lia|]. vm_compute. discriminate.
Qed.

(** ** Both directions *)

Lemma EncodeBase58_spec n r : digits_ok 256 r -> (forall y r', r = y :: r' -> y <> 0) ->
  exists ds, EncodeBase58 (replicate n 0 ++ r) = Some (replicate n (char_of 0) ++ (char_of <$> reverse ds)) /\
    canonical 58 ds /\ dval 58 ds = dval 256 (reverse r).
Proof.
  intros HD Hh. unfold EncodeBase58. rewrite leading_app by done. rewrite length_app, length_replicate.
  replace (n + length r - n)%nat with (length r) by lia. rewrite drop_app_length' by (by rewrite length_replicate).
  assert (eval 256 0 r = dval 256 (reverse r)) as HE by (rewrite eval_dval by lia; lia).
  destruct (add_digits_spec 58 ltac:(lia) 256 (Some (length r * 138 / 100 + 1)%nat) r []) as (ds & -> & HC & HV);
    [lia|done|split; [constructor|done]|naive_solver| |].
  { cbn [dval]. rewrite HE. eapply Z.lt_le_trans; [apply dval_bound; [lia|by apply Forall_reverse]|]. rewrite length_reverse.
    apply buffer_enough. }
  exists ds. cbn [dval] in HV. rewrite HE in HV. done.
Qed.

Lemma DecodeBase58_spec n ds : digits_ok 58 ds -> (forall y r', ds = y :: r' -> y <> 0) -> (n + length ds <= MAX_BASE58_LEN)%nat ->
  exists vch, DecodeBase58 (replicate n (char_of 0) ++ (char_of <$> ds)) = Some (replicate n 0 ++ reverse vch) /\
    canonical 256 vch /\ dval 256 vch = dval 58 (reverse ds).
Proof.
  intros HD Hh Hlen. unfold DecodeBase58. rewrite length_app, length_replicate, length_fmap.
  destruct (Nat.ltb_spec MAX_BASE58_LEN (n + length ds)); [lia|]. change (byte_at pszBase58 0) with (char_of 0).
  rewrite leading_app.
  2: { intros y r' HE. destruct ds as [|d ds]; [done|]. injection HE as <- _. intros H0. apply (Hh d ds eq_refl).
       apply Forall_cons in HD as [Hd _]. by apply char_of_inj_0. }
  rewrite drop_app_length' by (by rewrite length_replicate). rewrite decode_digits_chars by done.
  assert (eval 58 0 ds = dval 58 (reverse ds)) as HE by (rewrite eval_dval by lia; lia).
  destruct (add_digits_spec 256 ltac:(lia) 58 None ds []) as (vch & -> & HC & HV);
    [lia|done|split; [constructor|done]|naive_solver|done|].
  exists vch. cbn [dval] in HV. rewrite HE in HV. done.
Qed.

Lemma base58_roundtrip data : digits_ok 256 data -> exists str, EncodeBase58 data = Some str /\ Forall (fun c => c <> 0) str /\
  ((length str <= MAX_BASE58_LEN)%nat -> DecodeBase58 str = Some data).
Proof.
  intros HD. destruct (leading_split 0 data) as (r & HE & _ & Hh). set (n := leading 0 data) in *. clearbody n. subst data.
  apply Forall_app in HD as [_ HD]. destruct (EncodeBase58_spec n r HD Hh) as (ds & -> & HC & HV). eexists. split; [done|].
  pose proof (proj1 HC) as HD58. split.
  - apply Forall_app. split; [by apply Forall_replicate|]. apply Forall_fmap. apply Forall_reverse. eapply Forall_impl; [exact HD58|].
    intros d Hd Hz. cbn in Hz. pose proof (strchr_char d Hd) as Hs. rewrite Hz in Hs. change (strchr_index 0) with (Some 58) in Hs.
    injection Hs as <-. lia.
  - rewrite length_app, length_replicate, length_fmap. intros Hlen.
    destruct (DecodeBase58_spec n (reverse ds)) as (vch & -> & HCv & HVv); [by apply Forall_reverse|by eapply canonical_head|done|].
    rewrite reverse_involutive, HV in HVv. do 2 f_equal. rewrite <- (reverse_involutive r). f_equal.
    apply (canonical_unique 256 ltac:(lia)); [done|by apply reverse_canonical|done].
Qed.

Lemma base58_decode_unique str data : Forall (fun c => c <> 0) str -> DecodeBase58 str = Some data ->
  digits_ok 256 data /\ EncodeBase58 data = Some str.
Proof.
  intros HF HDec. assert (length str <= MAX_BASE58_LEN)%nat as Hlen.
  { unfold DecodeBase58 in HDec. destruct (Nat.ltb_spec MAX_BASE58_LEN (length str)); [done|lia]. }
  destruct (leading_split (char_of 0) str) as (r & HE & Hdrop & Hh).
  assert (exists ds, r = char_of <$> ds /\ digits_ok 58 ds) as (ds & -> & HD).
  { unfold DecodeBase58 in HDec. destruct (MAX_BASE58_LEN <? length str)%nat; [done|].
    change (byte_at pszBase58 0) with (char_of 0) in HDec. rewrite Hdrop in HDec.
    destruct (decode_digits [] r) as [vch|] eqn:E; [|done]. eapply decode_digits_inv; [|exact E]. rewrite HE in HF. by apply Forall_app in HF as [_ ?]. }
  set (n := leading (char_of 0) str) in *. clearbody n. subst str. clear Hdrop HF.
  assert (forall y r', ds = y :: r' -> y <> 0) as Hh'. { intros y r' -> ->. by apply (Hh (char_of 0) (char_of <$> r')). }
  rewrite length_app, length_replicate, length_fmap in Hlen.
  destruct (DecodeBase58_spec n ds HD Hh' Hlen) as (vch & HDec' & HC & HV). rewrite HDec in HDec'. injection HDec' as ->.
  split; [apply Forall_app; split; [apply Forall_replicate; lia|apply Forall_reverse, HC]|].
  destruct (EncodeBase58_spec n (reverse vch)) as (ds' & -> & HC' & HV'); [by apply Forall_reverse, HC|by eapply canonical_head|].
  rewrite reverse_involutive, HV in HV'. do 3 f_equal. rewrite <- (reverse_involutive ds). f_equal.
  apply (canonical_unique 58 ltac:(lia)); [done|by apply reverse_canonical|done].
Qed.

(** C36: Base58Check texts and payloads correspond one to one.  For every payload of bytes the encoder writes within its buffer and
    returns a text; when the text is within the decoder's limit of 1024 characters it decodes to the payload; and it is the only
    text without NUL characters that does. *)
Theorem base58check_bijection (SHA3_256 : list Z -> uint256) (data : list Z)
    (Hsha : forall d, length (SHA3_256 d) = 32%nat /\ bytes_ok (SHA3_256 d)) (Hdata : bytes_ok data) :
  exists str, EncodeBase58Check SHA3_256 data = Some str /\
    ((length str <= MAX_BASE58_LEN)%nat -> DecodeBase58Check SHA3_256 str = Some data) /\
    forall str', Forall (fun c => c <> 0) str' -> DecodeBase58Check SHA3_256 str' = Some data -> str' = str.
Proof.
  set (sum := take 4 (SHA3_256 (SHA3_256 data))). assert (length sum = 4%nat) as Hsum.
  { unfold sum. rewrite length_take, (proj1 (Hsha _)). done. }
  destruct (base58_roundtrip (data ++ sum)) as (str & HE & _ & HR).
  { apply Forall_app. split; [exact Hdata|]. apply Forall_take, Hsha. }
  exists str. split_and!; [done| |].
  - intros Hlen. unfold DecodeBase58Check. rewrite HR by done. destruct (Nat.ltb_spec MAX_BASE58_LEN (length str)); [lia|].
    rewrite length_app, Hsum. replace (length data + 4 - 4)%nat with (length data) by lia.
    destruct (Nat.ltb_spec (length data + 4) 4); [lia|]. rewrite take_app_length, drop_app_length.
    by rewrite bool_decide_eq_false_2 by (intros Hn; by apply Hn).
  - intros str' HF. unfold DecodeBase58Check. destruct (MAX_BASE58_LEN <? length str')%nat; [done|].
    destruct (DecodeBase58 str') as [vch|] eqn:ED; [|done]. destruct (Nat.ltb_spec (length vch) 4); [done|].
    case_bool_decide as HC; [done|]. intros [= HP]. rewrite HP in HC. apply base58_decode_unique in ED as [_ ED]; [|done].
    assert (vch = data ++ sum) as ->. { rewrite <- HP at 1. unfold sum. rewrite <- HC. symmetry. apply take_drop. }
    rewrite HE in ED. by injection ED.
Qed.

Lemma base58check_bijection_witness : exists str,
  EncodeBase58Check (fun d => le_bytes 32 (le_val d + 7)) [0; 0; 65; 66] = Some str /\
  ((length str <= MAX_BASE58_LEN)%nat -> DecodeBase58Check (fun d => le_bytes 32 (le_val d + 7)) str = Some [0; 0; 65; 66]) /\
  forall str', Forall (fun c => c <> 0) str' -> DecodeBase58Check (fun d => le_bytes 32 (le_val d + 7)) str' = Some [0; 0; 65; 66] -> str' = str.
Proof.
  apply base58check_bijection; [intros d; split; [apply length_le_bytes|apply le_bytes_ok]|].
  repeat constructor; lia.
Defined.

(** A NUL character is read as the digit 58. *)
Example nul_character_decodes : DecodeBase58 [50; 0] = Some [116] /\ DecodeBase58 [51; 49] = Some [116].
Proof. vm_compute. split; reflexivity. Qed.
