(* ===== verification/BlockTracker.v ===== *)
(** * Blocks in flight (net/block_tracker, net/block_fetcher)

    [CBlockTracker] records which height is being downloaded from which peer and
    keeps two indexes, by hash and by peer; [CBlockFetcher] chooses the heights to
    request next and forwards to the tracker.  The fork point of the active fork
    is an argument, and the calls to the peer manager are recorded as notices.
    Times are readings of [steady_clock] in nanoseconds.  The specification is the
    map by height alone; the theorem is that the tracker behaves as if it had no
    index. *)

From S2P Require Import Prelude Uint256 Transaction Cooldown.

Definition MAX_PER_PEER : Z := 128.
Definition MAX_TOTAL : Z := 256.
Definition TIMEOUT_SECONDS : Z := 120.

Record BlockInfo := mkInfo { bi_hash : uint256; bi_peer : Z; request_time : Z }.

Record CBlockTracker := mkTracker {
  m_completed_heights : gset Z;
  m_heights : gmap Z BlockInfo;
  m_hash_to_height : gmap uint256 Z;
  m_peer_heights : gmap Z (gset Z)
}.
Definition new_CBlockTracker : CBlockTracker := mkTracker ∅ ∅ ∅ ∅.

(** ** The tracker *)

Definition GetPeerInFlightCount (t : CBlockTracker) (peer : Z) : Z :=
  match m_peer_heights t !! peer with Some s => Z.of_nat (size s) | None => 0 end.
Definition GetTotalInFlight (t : CBlockTracker) : Z := Z.of_nat (size (m_heights t)).

Definition AddBlock (t : CBlockTracker) (height : Z) (hash : uint256) (peer now : Z) : bool * CBlockTracker :=
  if bool_decide (is_Some (m_heights t !! height)) then (false, t)
  else if GetPeerInFlightCount t peer >=? MAX_PER_PEER then (false, t)
  else if GetTotalInFlight t >=? MAX_TOTAL then (false, t)
  else
    (true, mkTracker (m_completed_heights t) (<[height := mkInfo hash peer now]> (m_heights t))
             (<[hash := height]> (m_hash_to_height t))
             (<[peer := {[ height ]} ∪ default ∅ (m_peer_heights t !! peer)]> (m_peer_heights t))).

(** Clean up peer tracking: the set of the peer loses the height, and an empty set is erased. *)
Definition erase_peer_height (peers : gmap Z (gset Z)) (peer height : Z) : gmap Z (gset Z) :=
  match peers !! peer with
  | None => peers
  | Some s => if decide (s ∖ {[ height ]} = ∅) then delete peer peers else <[peer := s ∖ {[ height ]}]> peers
  end.

Definition OnBlockReceived (t : CBlockTracker) (hash : uint256) : Z * CBlockTracker :=
  match m_hash_to_height t !! hash with
  | None => (-1, t)
  | Some height =>
      match m_heights t !! height with
      | None => (-1, mkTracker (m_completed_heights t) (m_heights t) (delete hash (m_hash_to_height t)) (m_peer_heights t))
      | Some info =>
          (height, mkTracker (m_completed_heights t) (delete height (m_heights t)) (delete hash (m_hash_to_height t))
                     (erase_peer_height (m_peer_heights t) (bi_peer info) height))
      end
  end.

Definition OnBlockReceivedByHeight (t : CBlockTracker) (height : Z) : bool * CBlockTracker :=
  match m_heights t !! height with
  | None => (false, t)
  | Some info =>
      (true, mkTracker (m_completed_heights t) (delete height (m_heights t)) (delete (bi_hash info) (m_hash_to_height t))
               (erase_peer_height (m_peer_heights t) (bi_peer info) height))
  end.

(** A [std::set<int>] in its order. *)
Definition heights_ordered (s : gset Z) : list Z := merge_sort Z.le (elements s).

Fixpoint drop_heights (t : CBlockTracker) (hs : list Z) : list Z * CBlockTracker :=
  match hs with
  | [] => ([], t)
  | h :: hs' =>
      match m_heights t !! h with
      | None => drop_heights t hs'
      | Some info =>
          let '(r, t) := drop_heights (mkTracker (m_completed_heights t) (delete h (m_heights t))
                                         (delete (bi_hash info) (m_hash_to_height t)) (m_peer_heights t)) hs' in
          (h :: r, t)
      end
  end.
Definition OnPeerDisconnected (t : CBlockTracker) (peer : Z) : list Z * CBlockTracker :=
  match m_peer_heights t !! peer with
  | None => ([], t)
  | Some s =>
      let '(r, t) := drop_heights t (heights_ordered s) in
      (r, mkTracker (m_completed_heights t) (m_heights t) (m_hash_to_height t) (delete peer (m_peer_heights t)))
  end.

Definition HasPeerCapacity (t : CBlockTracker) (peer : Z) : bool := GetPeerInFlightCount t peer <? MAX_PER_PEER.
Definition IsTracked (t : CBlockTracker) (height : Z) : bool :=
  bool_decide (is_Some (m_heights t !! height)) || bool_decide (height ∈ m_completed_heights t).
Definition GetHeightForHash (t : CBlockTracker) (hash : uint256) : Z := default (-1) (m_hash_to_height t !! hash).
Definition GetTrackedHeights (t : CBlockTracker) : list (Z * Z) := (fun e => (e.1, bi_peer e.2)) <$> map_ordered (m_heights t).
Definition CheckTimeouts (t : CBlockTracker) (now timeout_seconds : Z) : list (Z * Z) :=
  (fun e => (e.1, bi_peer e.2)) <$>
    filter (fun e => now - request_time e.2 > timeout_seconds * 1000000000) (map_ordered (m_heights t)).

Definition RemoveTimedOut (t : CBlockTracker) (height : Z) : Z * CBlockTracker :=
  match m_heights t !! height with
  | None => (-1, t)
  | Some info =>
      (bi_peer info, mkTracker (m_completed_heights t) (delete height (m_heights t)) (delete (bi_hash info) (m_hash_to_height t))
                       (erase_peer_height (m_peer_heights t) (bi_peer info) height))
  end.

Definition GetTrackingAge (t : CBlockTracker) (now height : Z) : Z :=
  match m_heights t !! height with None => -1 | Some info => i32 (Z.quot (now - request_time info) 1000000000) end.

Definition MarkCompleted (t : CBlockTracker) (height : Z) : CBlockTracker :=
  mkTracker ({[ height ]} ∪ m_completed_heights t) (m_heights t) (m_hash_to_height t) (m_peer_heights t).
Definition Tracker_Clear (t : CBlockTracker) : CBlockTracker := mkTracker ∅ ∅ ∅ ∅.

Definition clear_height (t : CBlockTracker) (height : Z) : CBlockTracker :=
  match m_heights t !! height with
  | None => t
  | Some info =>
      mkTracker (m_completed_heights t) (delete height (m_heights t)) (delete (bi_hash info) (m_hash_to_height t))
        (erase_peer_height (m_peer_heights t) (bi_peer info) height)
  end.
Definition ClearAboveHeight (t : CBlockTracker) (fork_point : Z) : Z * CBlockTracker :=
  let heights_to_remove := (filter (fun e => e.1 > fork_point) (map_ordered (m_heights t))).*1 in
  let t := foldl clear_height t heights_to_remove in
  (Z.of_nat (length heights_to_remove),
   mkTracker (filter (fun h => ~ h > fork_point) (m_completed_heights t)) (m_heights t) (m_hash_to_height t) (m_peer_heights t)).

(** ** The fetcher *)

Definition MAX_BLOCKS_IN_TRANSIT_PER_PEER : Z := 32.

(** Calls to the peer manager. *)
Inductive PeerNotice : Set :=
| MarkBlockAsReceived (peer : Z) (hash : uint256)
| UpdatePeerBestKnownTip (peer height : Z) (hash : uint256).

Record CBlockFetcher := mkFetcher {
  lastBlockReceived : Z;
  nBlocksReceivedTotal : Z;
  m_last_fork_bias_logged_fork_point : Z;
  has_peer_manager : bool
}.

Definition MarkBlockReceived (f : CBlockFetcher) (tracker : option CBlockTracker) (now peer : Z) (hash : uint256)
  : bool * CBlockFetcher * option CBlockTracker * list PeerNotice :=
  let '(height, tracker) :=
    match tracker with Some t => let '(h, t) := OnBlockReceived t hash in (h, Some t) | None => (-1, None) end in
  (height >? 0,
   mkFetcher now (i32 (nBlocksReceivedTotal f + 1)) (m_last_fork_bias_logged_fork_point f) (has_peer_manager f),
   tracker, if has_peer_manager f then [MarkBlockAsReceived peer hash] else []).

Fixpoint collect_untracked (fuel : nat) (t : CBlockTracker) (h : Z) (want : nat) : list Z :=
  match fuel, want with
  | S fuel', S want' => if IsTracked t h then collect_untracked fuel' t (h + 1) want else h :: collect_untracked fuel' t (h + 1) want'
  | _, _ => []
  end.

(** [fork_point]: of the active fork, if there is one. *)
Definition GetNextBlocksToRequest (f : CBlockFetcher) (tracker : option CBlockTracker) (fork_point : option Z)
    (max_blocks chain_height header_height : Z) : list Z * CBlockFetcher :=
  if (chain_height >=? header_height) || (max_blocks <=? 0) then ([], f)
  else
    match tracker with
    | None => ([], f)
    | Some t =>
        let total_in_flight := GetTotalInFlight t in
        if total_in_flight >=? MAX_TOTAL then ([], f)
        else
          let blocks_to_get := Z.min max_blocks (MAX_TOTAL - total_in_flight) in
          let '(start_height, observed) :=
            match fork_point with
            | Some p => if p <? chain_height then (p + 1, p) else (chain_height + 1, -1)
            | None => (chain_height + 1, -1)
            end in
          (collect_untracked (Z.to_nat (header_height - start_height + 1)) t start_height (Z.to_nat blocks_to_get),
           mkFetcher (lastBlockReceived f) (nBlocksReceivedTotal f) observed (has_peer_manager f))
    end.

Definition RequestBlockFromPeer (tracker : option CBlockTracker) (now peer_id height : Z) (hash : uint256)
  : bool * option CBlockTracker :=
  match tracker with
  | None => (false, None)
  | Some t =>
      if GetPeerInFlightCount t peer_id >=? MAX_BLOCKS_IN_TRANSIT_PER_PEER then (false, tracker)
      else let '(ok, t) := AddBlock t height hash peer_id now in (ok, Some t)
  end.

Definition Fetcher_OnBlockReceived (f : CBlockFetcher) (tracker : option CBlockTracker) (now peer_id height : Z) (hash : uint256)
  : bool * CBlockFetcher * option CBlockTracker * list PeerNotice :=
  match tracker with
  | None => (false, f, None, [])
  | Some t =>
      let '(found, t) := OnBlockReceivedByHeight t height in
      if found then
        (true, mkFetcher now (i32 (nBlocksReceivedTotal f + 1)) (m_last_fork_bias_logged_fork_point f) (has_peer_manager f), Some t,
         if has_peer_manager f && (peer_id >=? 0) then [UpdatePeerBestKnownTip peer_id height hash] else [])
      else (false, f, Some t, [])
  end.

Definition GetStalledBlocks (tracker : option CBlockTracker) (now timeout : Z) : list (Z * Z) :=
  match tracker with Some t => CheckTimeouts t now (i32 timeout) | None => [] end.
Definition RequeueBlock (tracker : option CBlockTracker) (height : Z) : option CBlockTracker :=
  (fun t => snd (RemoveTimedOut t height)) <$> tracker.

(** ** Downloads without indexes *)

Record Downloads := mkDownloads { d_blocks : gmap Z BlockInfo; d_done : gset Z }.

Definition of_peer (m : gmap Z BlockInfo) (peer : Z) : gmap Z BlockInfo := filter (fun e => bi_peer e.2 = peer) m.

Inductive TrackerOp : Set :=
| TAdd (height : Z) (hash : uint256) (peer now : Z)
| TReceived (hash : uint256)
| TReceivedHeight (height : Z)
| TPeerGone (peer : Z)
| TTimedOut (height : Z)
| TMark (height : Z)
| TClear
| TClearAbove (fork_point : Z)
| TPeerCount (peer : Z)
| THeightFor (hash : uint256).

Inductive TrackerResult : Set := RBool (b : bool) | RInt (z : Z) | RHeights (l : list Z) | RNone.

Definition tracker_step (t : CBlockTracker) (op : TrackerOp) : TrackerResult * CBlockTracker :=
  match op with
  | TAdd height hash peer now => let '(b, t) := AddBlock t height hash peer now in (RBool b, t)
  | TReceived hash => let '(h, t) := OnBlockReceived t hash in (RInt h, t)
  | TReceivedHeight height => let '(b, t) := OnBlockReceivedByHeight t height in (RBool b, t)
  | TPeerGone peer => let '(l, t) := OnPeerDisconnected t peer in (RHeights l, t)
  | TTimedOut height => let '(p, t) := RemoveTimedOut t height in (RInt p, t)
  | TMark height => (RNone, MarkCompleted t height)
  | TClear => (RNone, Tracker_Clear t)
  | TClearAbove fork_point => let '(n, t) := ClearAboveHeight t fork_point in (RInt n, t)
  | TPeerCount peer => (RInt (GetPeerInFlightCount t peer), t)
  | THeightFor hash => (RInt (GetHeightForHash t hash), t)
  end.

(** The height at which a hash is being downloaded. *)
Definition height_with (m : gmap Z BlockInfo) (hash : uint256) : option Z :=
  match filter (fun e => bi_hash e.2 = hash) (map_ordered m) with e :: _ => Some e.1 | [] => None end.

Definition spec_step (d : Downloads) (op : TrackerOp) : TrackerResult * Downloads :=
  match op with
  | TAdd height hash peer now =>
      if bool_decide (is_Some (d_blocks d !! height)) || (Z.of_nat (size (of_peer (d_blocks d) peer)) >=? MAX_PER_PEER) ||
         (Z.of_nat (size (d_blocks d)) >=? MAX_TOTAL) then (RBool false, d)
      else (RBool true, mkDownloads (<[height := mkInfo hash peer now]> (d_blocks d)) (d_done d))
  | TReceived hash =>
      match height_with (d_blocks d) hash with
      | None => (RInt (-1), d)
      | Some h => (RInt h, mkDownloads (delete h (d_blocks d)) (d_done d))
      end
  | TReceivedHeight height =>
      match d_blocks d !! height with
      | None => (RBool false, d)
      | Some _ => (RBool true, mkDownloads (delete height (d_blocks d)) (d_done d))
      end
  | TPeerGone peer =>
      (RHeights (map_ordered (of_peer (d_blocks d) peer)).*1, mkDownloads (filter (fun e => bi_peer e.2 <> peer) (d_blocks d)) (d_done d))
  | TTimedOut height =>
      match d_blocks d !! height with
      | None => (RInt (-1), d)
      | Some info => (RInt (bi_peer info), mkDownloads (delete height (d_blocks d)) (d_done d))
      end
  | TMark height => (RNone, mkDownloads (d_blocks d) ({[ height ]} ∪ d_done d))
  | TClear => (RNone, mkDownloads ∅ ∅)
  | TClearAbove fork_point =>
      (RInt (Z.of_nat (size (filter (fun e : Z * BlockInfo => e.1 > fork_point) (d_blocks d)))),
       mkDownloads (filter (fun e => ~ e.1 > fork_point) (d_blocks d)) (filter (fun h => ~ h > fork_point) (d_done d)))
  | TPeerCount peer => (RInt (Z.of_nat (size (of_peer (d_blocks d) peer))), d)
  | THeightFor hash => (RInt (default (-1) (height_with (d_blocks d) hash)), d)
  end.

(** ** The indexes *)

Definition peer_index (m : gmap Z BlockInfo) (peer : Z) : option (gset Z) :=
  let s := dom (of_peer m peer) in if decide (s = ∅) then None else Some s.
Definition peers_ok (m : gmap Z BlockInfo) (peers : gmap Z (gset Z)) : Prop := forall p, peers !! p = peer_index m p.
Definition hashes_ok (m : gmap Z BlockInfo) (idx : gmap uint256 Z) : Prop :=
  forall hash h, idx !! hash = Some h <-> exists info, m !! h = Some info /\ bi_hash info = hash.

Lemma elem_of_peer m p h : h ∈ dom (of_peer m p) <-> exists info, m !! h = Some info /\ bi_peer info = p.
Proof.
  rewrite elem_of_dom. unfold of_peer, is_Some. split.
  - intros (i & Hi). apply map_lookup_filter_Some in Hi as [? ?]. by exists i.
  - intros (i & ? & ?). exists i. by apply map_lookup_filter_Some.
Qed.

Lemma peer_index_default m peers p : peers_ok m peers -> default ∅ (peers !! p) = dom (of_peer m p).
Proof. intros HP. rewrite HP. unfold peer_index. destruct (decide _) as [->|]; done. Qed.

Lemma peer_index_ext m1 m2 p : dom (of_peer m1 p) = dom (of_peer m2 p) -> peer_index m1 p = peer_index m2 p.
Proof. intros HE. unfold peer_index. by rewrite HE. Qed.

Lemma peers_insert m peers h info : m !! h = None -> peers_ok m peers ->
  peers_ok (<[h := info]> m) (<[bi_peer info := {[ h ]} ∪ default ∅ (peers !! bi_peer info)]> peers).
Proof.
  intros Hh HP p. destruct (decide (p = bi_peer info)) as [->|Hp].
  - rewrite lookup_insert_eq, (peer_index_default m) by done. unfold peer_index.
    assert (dom (of_peer (<[h := info]> m) (bi_peer info)) = {[ h ]} ∪ dom (of_peer m (bi_peer info))) as ->.
    { unfold of_peer. rewrite map_filter_insert_True by done. by rewrite dom_insert_L. }
    destruct (decide _) as [HE|]; [set_solver|done].
  - rewrite lookup_insert_ne by done. rewrite HP. apply peer_index_ext. unfold of_peer.
    rewrite map_filter_insert_False by (cbn; congruence). by rewrite delete_id.
Qed.

Lemma peers_delete m peers h info : m !! h = Some info -> peers_ok m peers ->
  peers_ok (delete h m) (erase_peer_height peers (bi_peer info) h).
Proof.
  intros Hh HP p. unfold erase_peer_height. rewrite (HP (bi_peer info)).
  assert (dom (of_peer (delete h m) (bi_peer info)) = dom (of_peer m (bi_peer info)) ∖ {[ h ]}) as Hd.
  { unfold of_peer. rewrite map_filter_delete. by rewrite dom_delete_L. }
  assert (h ∈ dom (of_peer m (bi_peer info))) as Hin by (apply elem_of_peer; eauto).
  unfold peer_index at 1. destruct (decide (dom (of_peer m (bi_peer info)) = ∅)) as [HE|HE]; [set_solver|].
  destruct (decide (p = bi_peer info)) as [->|Hp].
  - unfold peer_index. rewrite Hd. destruct (decide _); [by rewrite lookup_delete_eq|by rewrite lookup_insert_eq].
  - assert (peers !! p = peer_index (delete h m) p) as HQ.
    { rewrite HP. apply peer_index_ext. unfold of_peer. rewrite map_filter_delete, delete_id; [done|].
      apply map_lookup_filter_None. right. intros i Hi. rewrite Hh in Hi. injection Hi as <-. cbn. congruence. }
    destruct (decide _); [by rewrite lookup_delete_ne|by rewrite lookup_insert_ne].
Qed.

Lemma hashes_delete m idx h info : m !! h = Some info -> hashes_ok m idx -> hashes_ok (delete h m) (delete (bi_hash info) idx).
Proof.
  intros Hh HH hash k. destruct (decide (hash = bi_hash info)) as [->|Hne].
  - rewrite lookup_delete_eq. split; [done|]. intros (i & Hi & HE). apply lookup_delete_Some in Hi as [Hk Hi].
    assert (idx !! bi_hash info = Some h) as H1 by (apply HH; eauto). assert (idx !! bi_hash info = Some k) as H2 by (apply HH; eauto). congruence.
  - rewrite lookup_delete_ne by done. rewrite (HH hash k). split; intros (i & Hi & HE); exists i; (split; [|done]).
    + apply lookup_delete_Some. split; [|done]. intros <-. rewrite Hh in Hi. injection Hi as <-. done.
    + by apply lookup_delete_Some in Hi as [_ Hi].
Qed.

Lemma hashes_insert m idx h info : m !! h = None -> (forall k i, m !! k = Some i -> bi_hash i <> bi_hash info) ->
  hashes_ok m idx -> hashes_ok (<[h := info]> m) (<[bi_hash info := h]> idx).
Proof.
  intros Hh Hnew HH hash k. destruct (decide (hash = bi_hash info)) as [->|Hne].
  - rewrite lookup_insert_eq. split.
    + intros [= ->]. exists info. by rewrite lookup_insert_eq.
    + intros (i & Hi & HE). apply lookup_insert_Some in Hi as [[<- _]|[_ Hi]]; [done|]. by destruct (Hnew k i Hi).
  - rewrite lookup_insert_ne by done. rewrite (HH hash k). split; intros (i & Hi & HE); exists i; (split; [|done]).
    + apply lookup_insert_Some. right. split; [|done]. intros <-. congruence.
    + apply lookup_insert_Some in Hi as [[<- <-]|[_ Hi]]; [done|done].
Qed.

Lemma height_with_index m idx hash : hashes_ok m idx -> height_with m hash = idx !! hash.
Proof.
  intros HH. unfold height_with. destruct (filter _ (map_ordered m)) as [|[h info] l] eqn:EF.
  - destruct (idx !! hash) as [h|] eqn:E; [|done]. apply HH in E as (info & Hi & HE).
    assert ((h, info) ∈ filter (fun e => bi_hash e.2 = hash) (map_ordered m)) as Hin
      by (apply list_elem_of_filter; split; [done|by apply map_ordered_elem]). rewrite EF in Hin. by apply not_elem_of_nil in Hin.
  - assert ((h, info) ∈ filter (fun e => bi_hash e.2 = hash) (map_ordered m)) as Hin by (rewrite EF; left).
    apply list_elem_of_filter in Hin as [HE Hin]. apply map_ordered_elem in Hin. symmetry. apply HH. by exists info.
Qed.

(** The heights of a peer's set, in order, are those of its blocks. *)
Lemma heights_ordered_dom {A} (m : gmap Z A) : heights_ordered (dom m) = (map_ordered m).*1.
Proof.
  apply (StronglySorted_unique Z.le).
  - apply StronglySorted_merge_sort; apply _.
  - pose proof (map_ordered_sorted m) as HS. induction HS as [|x l _ IH HF]; cbn; constructor; [done|].
    apply Forall_fmap. eapply Forall_impl; [exact HF|]. by intros y.
  - unfold heights_ordered, map_ordered. rewrite !merge_sort_Permutation.
    apply NoDup_Permutation; [apply NoDup_elements|apply NoDup_fst_map_to_list|]. intros x. rewrite elem_of_elements, elem_of_dom.
    rewrite list_elem_of_fmap. split.
    + intros [a Ha]. exists (x, a). split; [done|]. by apply elem_of_map_to_list.
    + intros ([x' a] & -> & Ha). apply elem_of_map_to_list in Ha. by exists a.
Qed.

Lemma drop_heights_spec hs : forall t, NoDup hs -> (forall h, h ∈ hs -> is_Some (m_heights t !! h)) ->
  hashes_ok (m_heights t) (m_hash_to_height t) ->
  let '(r, t') := drop_heights t hs in
  r = hs /\ m_heights t' = filter (fun e => ~ e.1 ∈ hs) (m_heights t) /\ m_completed_heights t' = m_completed_heights t /\
  m_peer_heights t' = m_peer_heights t /\ hashes_ok (m_heights t') (m_hash_to_height t').
Proof.
  induction hs as [|h hs IH]; intros t HN Hin HH; cbn [drop_heights].
  { split_and!; [done| |done|done|done]. symmetry. apply map_filter_id. intros k i _ Hk. by apply not_elem_of_nil in Hk. }
  apply NoDup_cons in HN as [Hnot HN]. destruct (Hin h ltac:(left)) as [info Hi]. rewrite Hi.
  set (t1 := mkTracker _ _ _ _). specialize (IH t1 HN). destruct (drop_heights t1 hs) as [r t'].
  destruct IH as (-> & HM & HC & HP & HH').
  { intros k Hk. cbn. rewrite lookup_delete_ne by (intros ->; done). apply Hin. by right. }
  { by apply hashes_delete. }
  split_and!; [done| |done|done|done]. rewrite HM. cbn. apply map_eq. intros k. apply option_eq. intros i.
  rewrite !map_lookup_filter_Some, lookup_delete_Some. cbn. set_solver.
Qed.

Lemma clear_heights_spec hs : forall t, NoDup hs ->
  peers_ok (m_heights t) (m_peer_heights t) -> hashes_ok (m_heights t) (m_hash_to_height t) ->
  let t' := foldl clear_height t hs in
  m_heights t' = filter (fun e => ~ e.1 ∈ hs) (m_heights t) /\ m_completed_heights t' = m_completed_heights t /\
  peers_ok (m_heights t') (m_peer_heights t') /\ hashes_ok (m_heights t') (m_hash_to_height t').
Proof.
  induction hs as [|h hs IH]; intros t HN HP HH; cbn [foldl].
  { split_and!; [|done|done|done]. symmetry. apply map_filter_id. intros k i _ Hk. by apply not_elem_of_nil in Hk. }
  apply NoDup_cons in HN as [Hnot HN].
  assert (m_heights (clear_height t h) = delete h (m_heights t) /\ m_completed_heights (clear_height t h) = m_completed_heights t /\
    peers_ok (m_heights (clear_height t h)) (m_peer_heights (clear_height t h)) /\
    hashes_ok (m_heights (clear_height t h)) (m_hash_to_height (clear_height t h))) as (HM1 & HC1 & HP1 & HH1).
  { unfold clear_height. destruct (m_heights t !! h) as [info|] eqn:E; cbn; [|by rewrite delete_id].
    split_and!; [done|done|by apply peers_delete|by apply hashes_delete]. }
  destruct (IH (clear_height t h) HN HP1 HH1) as (HM & HC & HP' & HH'). split_and!; [|by rewrite HC|done|done].
  rewrite HM, HM1. apply map_eq. intros k. apply option_eq. intros i. rewrite !map_lookup_filter_Some, lookup_delete_Some. cbn. set_solver.
Qed.

Lemma filter_keys_NoDup {A} (P : Z * A -> Prop) `{!forall x, Decision (P x)} l : NoDup l.*1 -> NoDup (filter P l).*1.
Proof.
  induction l as [|[k a] l IH]; intros HN; [done|]. cbn in HN. apply NoDup_cons in HN as [Hk HN]. rewrite filter_cons.
  destruct (decide _); [|by apply IH]. cbn. apply NoDup_cons. split; [|by apply IH]. intros Hin. apply Hk.
  apply list_elem_of_fmap in Hin as (x & -> & [_ Hx]%list_elem_of_filter). by apply list_elem_of_fmap_2.
Qed.
Lemma filter_size {A} (P : Z * A -> Prop) `{!forall x, Decision (P x)} (m : gmap Z A) : length (filter P (map_ordered m)) = size (filter P m).
Proof.
  rewrite <- length_map_to_list, map_filter_alt. rewrite map_to_list_to_map.
  - by rewrite map_ordered_perm.
  - apply filter_keys_NoDup, NoDup_fst_map_to_list.
Qed.

(** ** The refinement *)

Section Refinement.
  (** Every hash is requested at one height. *)
  Variable height_of : uint256 -> Z.

Definition op_ok (op : TrackerOp) : Prop :=
  match op with TAdd height hash _ _ => height_of hash = height | _ => True end.

Record refines (t : CBlockTracker) (d : Downloads) : Prop := {
  rf_blocks : m_heights t = d_blocks d;
  rf_done : m_completed_heights t = d_done d;
  rf_peers : peers_ok (d_blocks d) (m_peer_heights t);
  rf_hashes : hashes_ok (d_blocks d) (m_hash_to_height t);
  rf_source : forall h info, d_blocks d !! h = Some info -> height_of (bi_hash info) = h
}.

Lemma refines_empty : refines (mkTracker ∅ ∅ ∅ ∅) (mkDownloads ∅ ∅).
Proof.
  split; cbn; [done|done| | |done].
  - intros p. unfold peer_index. by rewrite decide_True.
  - intros hash h. rewrite lookup_empty. split; [done|]. intros (i & Hi & _). by rewrite lookup_empty in Hi.
Qed.

Lemma count_refines t d peer : refines t d -> GetPeerInFlightCount t peer = Z.of_nat (size (of_peer (d_blocks d) peer)).
Proof.
  intros HR. unfold GetPeerInFlightCount. rewrite (rf_peers _ _ HR). unfold peer_index. rewrite <- size_dom.
  destruct (decide _) as [->|]; [by rewrite size_empty|done].
Qed.

Lemma remove_refines t d h info : refines t d -> d_blocks d !! h = Some info ->
  refines (mkTracker (m_completed_heights t) (delete h (d_blocks d)) (delete (bi_hash info) (m_hash_to_height t))
             (erase_peer_height (m_peer_heights t) (bi_peer info) h)) (mkDownloads (delete h (d_blocks d)) (d_done d)).
Proof.
  intros HR Hi. split; cbn; [done|apply HR|by apply peers_delete; [|apply HR]|by apply hashes_delete; [|apply HR]|].
  intros k i [_ Hk]%lookup_delete_Some. by apply HR.
Qed.

Lemma add_refines t d height hash peer now : refines t d -> height_of hash = height ->
  let '(r, t') := tracker_step t (TAdd height hash peer now) in
  let '(r', d') := spec_step d (TAdd height hash peer now) in r = r' /\ refines t' d'.
Proof.
  intros HR Hsrc. cbn [tracker_step spec_step]. unfold AddBlock, GetTotalInFlight. rewrite (count_refines _ _ _ HR), (rf_blocks _ _ HR).
  destruct (bool_decide_reflect (is_Some (d_blocks d !! height))) as [|Hn]; [done|]. apply eq_None_not_Some in Hn. cbn [orb].
  destruct (_ >=? MAX_PER_PEER); [done|]. destruct (_ >=? MAX_TOTAL); [done|]. cbn [orb]. split; [done|].
  pose proof (rf_peers _ _ HR) as HP. split; cbn; [done|apply HR| | |].
  - by apply (peers_insert _ _ height (mkInfo hash peer now)).
  - apply (hashes_insert _ _ height (mkInfo hash peer now)); [done| |apply HR]. intros k i Hk HE. cbn in HE.
    apply (rf_source _ _ HR) in Hk as Hs. rewrite HE, Hsrc in Hs. subst k. by rewrite Hn in Hk.
  - intros k i [[<- <-]|[_ Hk]]%lookup_insert_Some; [done|]. by apply HR.
Qed.

Lemma gone_refines t d peer : refines t d ->
  let '(r, t') := tracker_step t (TPeerGone peer) in
  let '(r', d') := spec_step d (TPeerGone peer) in r = r' /\ refines t' d'.
Proof.
  intros HR. cbn [tracker_step spec_step]. unfold OnPeerDisconnected. rewrite (rf_peers _ _ HR). unfold peer_index.
  pose proof (heights_ordered_dom (of_peer (d_blocks d) peer)) as HO.
  destruct (decide (dom (of_peer (d_blocks d) peer) = ∅)) as [HE|HE].
  - apply dom_empty_iff_L in HE. rewrite HE. split; [done|]. replace (filter _ (d_blocks d)) with (d_blocks d); [by destruct d|].
    symmetry. apply map_filter_id. intros k i Hk HP. assert (of_peer (d_blocks d) peer !! k = Some i) as Hl
      by (by apply map_lookup_filter_Some). by rewrite HE in Hl.
  - pose proof (drop_heights_spec (heights_ordered (dom (of_peer (d_blocks d) peer))) t) as HD.
    destruct (drop_heights t _) as [r t'].
    assert (forall k, k ∈ heights_ordered (dom (of_peer (d_blocks d) peer)) <-> exists i, d_blocks d !! k = Some i /\ bi_peer i = peer) as Hin.
    { intros k. unfold heights_ordered. rewrite merge_sort_Permutation, elem_of_elements. apply elem_of_peer. }
    destruct HD as (-> & HM & HC & HP & HH).
    { unfold heights_ordered. rewrite merge_sort_Permutation. apply NoDup_elements. }
    { intros h (i & Hi & _)%Hin. rewrite (rf_blocks _ _ HR). by exists i. }
    { rewrite (rf_blocks _ _ HR). apply HR. }
    rewrite HO. split; [done|]. rewrite (rf_blocks _ _ HR) in HM.
    assert (m_heights t' = filter (fun e => bi_peer e.2 <> peer) (d_blocks d)) as HM'.
    { rewrite HM. apply map_filter_ext. intros k i Hk. cbn. rewrite Hin. rewrite Hk. naive_solver. }
    split; cbn; [done|by rewrite HC; apply HR| |by rewrite <- HM'|].
    + intros p. rewrite HP. destruct (decide (p = peer)) as [->|Hp].
      * rewrite lookup_delete_eq. unfold peer_index. rewrite decide_True; [done|]. apply set_eq. intros k.
        rewrite elem_of_peer. split; [|set_solver]. intros (i & [_ Hi]%map_lookup_filter_Some & HE'). done.
      * rewrite lookup_delete_ne by done. rewrite (rf_peers _ _ HR). apply peer_index_ext. apply set_eq. intros k.
        rewrite !elem_of_peer. setoid_rewrite map_lookup_filter_Some. cbn. split; intros (i & Hi & HE'); exists i; [subst; done|naive_solver].
    + intros k i [Hk _]%map_lookup_filter_Some. by apply HR.
Qed.

Lemma above_refines t d fork_point : refines t d ->
  let '(r, t') := tracker_step t (TClearAbove fork_point) in
  let '(r', d') := spec_step d (TClearAbove fork_point) in r = r' /\ refines t' d'.
Proof.
  intros HR. cbn [tracker_step spec_step]. unfold ClearAboveHeight. rewrite (rf_blocks _ _ HR).
  set (hs := (filter (fun e : Z * BlockInfo => e.1 > fork_point) (map_ordered (d_blocks d))).*1).
  assert (forall k, k ∈ hs <-> is_Some (d_blocks d !! k) /\ k > fork_point) as Hin.
  { intros k. unfold hs. rewrite list_elem_of_fmap. setoid_rewrite list_elem_of_filter. split.
    - intros ([k' i] & -> & Hk & Hi%map_ordered_elem). cbn in *. by eauto.
    - intros [[i Hi] Hk]. exists (k, i). split_and!; [done|done|by apply map_ordered_elem]. }
  assert (NoDup hs) as HN.
  { apply filter_keys_NoDup. rewrite map_ordered_perm. apply NoDup_fst_map_to_list. }
  destruct (clear_heights_spec hs t HN) as (HM & HC & HP & HH); [rewrite (rf_blocks _ _ HR); apply HR|rewrite (rf_blocks _ _ HR); apply HR|].
  rewrite (rf_blocks _ _ HR) in HM.
  assert (m_heights (foldl clear_height t hs) = filter (fun e => ~ e.1 > fork_point) (d_blocks d)) as HM'.
  { rewrite HM. apply map_filter_ext. intros k i Hk. cbn. rewrite Hin, Hk. split; [|tauto]. intros Hn Hgt. apply Hn. by eauto. }
  split.
  - do 2 f_equal. unfold hs. rewrite length_fmap. apply filter_size.
  - split; cbn; [done|by rewrite HC, (rf_done _ _ HR)|by rewrite <- HM'|by rewrite <- HM'|].
    intros k i [Hk _]%map_lookup_filter_Some. by apply HR.
Qed.

Lemma step_refines t d op : refines t d -> op_ok op ->
  let '(r, t') := tracker_step t op in let '(r', d') := spec_step d op in r = r' /\ refines t' d'.
Proof.
  intros HR HO. destruct op as [height hash peer now|hash|height|peer|height|height| |fork_point|peer|hash].
  - by apply add_refines.
  - cbn [tracker_step spec_step]. unfold OnBlockReceived. rewrite (height_with_index _ _ _ (rf_hashes _ _ HR)).
    destruct (m_hash_to_height t !! hash) as [h|] eqn:EH; [|done]. apply (rf_hashes _ _ HR) in EH as (info & Hi & <-).
    rewrite (rf_blocks _ _ HR), Hi. split; [done|]. by apply remove_refines.
  - cbn [tracker_step spec_step]. unfold OnBlockReceivedByHeight. rewrite (rf_blocks _ _ HR). destruct (d_blocks d !! height) eqn:E; [|done].
    split; [done|]. by apply remove_refines.
  - by apply gone_refines.
  - cbn [tracker_step spec_step]. unfold RemoveTimedOut. rewrite (rf_blocks _ _ HR). destruct (d_blocks d !! height) eqn:E; [|done].
    split; [done|]. by apply remove_refines.
  - split; [done|]. split; cbn; [apply HR|by rewrite (rf_done _ _ HR)|apply HR|apply HR|apply HR].
  - split; [done|apply refines_empty].
  - by apply above_refines.
  - cbn [tracker_step spec_step]. by rewrite (count_refines _ _ _ HR).
  - cbn [tracker_step spec_step]. unfold GetHeightForHash. by rewrite (height_with_index _ _ _ (rf_hashes _ _ HR)).
Qed.

(** The limits on what is in flight. *)
Definition within (d : Downloads) : Prop :=
  Z.of_nat (size (d_blocks d)) <= MAX_TOTAL /\ forall peer, Z.of_nat (size (of_peer (d_blocks d) peer)) <= MAX_PER_PEER.

Lemma within_subset d m done : within d -> m ⊆ d_blocks d -> within (mkDownloads m done).
Proof.
  intros [HT HP] Hsub. split; cbn.
  - apply map_subseteq_size in Hsub. lia.
  - intros peer. specialize (HP peer). assert (of_peer m peer ⊆ of_peer (d_blocks d) peer) as Hs by (by apply map_filter_subseteq_mono).
    apply map_subseteq_size in Hs. lia.
Qed.

Lemma step_within d op : within d -> within (snd (spec_step d op)).
Proof.
  intros HW. destruct op as [height hash peer now|hash|height|peer|height|height| |fork_point|peer|hash]; cbn [spec_step snd]; try done.
  - destruct (_ || _) eqn:E; [done|]. apply orb_false_iff in E as [E ET]. apply orb_false_iff in E as [E EP].
    apply bool_decide_eq_false in E. apply eq_None_not_Some in E. zprop. destruct HW as [HT HP]. split; cbn.
    + rewrite map_size_insert_None by done. lia.
    + intros p. unfold of_peer. destruct (decide (peer = p)) as [<-|Hp].
      * rewrite map_filter_insert_True by done. rewrite map_size_insert_None; [unfold of_peer in EP; lia|].
        apply map_lookup_filter_None. by left.
      * rewrite map_filter_insert_False by done. rewrite delete_id by done. apply HP.
  - destruct (height_with _ _); [|done]. cbn. apply (within_subset d); [done|apply delete_subseteq].
  - destruct (d_blocks d !! height); [|done]. cbn. apply (within_subset d); [done|apply delete_subseteq].
  - apply (within_subset d); [done|apply map_filter_subseteq].
  - destruct (d_blocks d !! height); [|done]. cbn. apply (within_subset d); [done|apply delete_subseteq].
  - apply (within_subset d); [done|apply map_filter_subseteq].
Qed.

Fixpoint run {S} (step : S -> TrackerOp -> TrackerResult * S) (s : S) (ops : list TrackerOp) : list TrackerResult * S :=
  match ops with
  | [] => ([], s)
  | op :: ops' => let '(r, s) := step s op in let '(rs, s) := run step s ops' in (r :: rs, s)
  end.

Lemma run_refines ops : forall t d, refines t d -> within d -> Forall op_ok ops ->
  let '(rs, t') := run tracker_step t ops in let '(rs', d') := run spec_step d ops in
  rs = rs' /\ refines t' d' /\ within d'.
Proof.
  induction ops as [|op ops IH]; intros t d HR HW HO; cbn [run]; [done|]. apply Forall_cons in HO as [Hop HO].
  pose proof (step_refines t d op HR Hop) as HS. pose proof (step_within d op HW) as HW1.
  destruct (tracker_step t op) as [r t1]. destruct (spec_step d op) as [r' d1]. destruct HS as [-> HR1]. cbn [snd] in HW1.
  specialize (IH t1 d1 HR1 HW1 HO). destruct (run tracker_step t1 ops). destruct (run spec_step d1 ops). naive_solver.
Qed.
End Refinement.

(** C34: the block tracker refines a map without indexes.  For every sequence of requests, arrivals by hash or by height, peer
    disconnections, timeouts, marks and clearings in which each hash is requested at one height, the tracker with its hash and
    peer indexes returns exactly what the map from heights to downloads would; and at most 256 blocks, and at most 128 of one
    peer, are ever in flight. *)
Theorem tracker_refines_downloads (height_of : uint256 -> Z) (ops : list TrackerOp) (Hops : Forall (op_ok height_of) ops) :
  let '(rs, t) := run tracker_step new_CBlockTracker ops in
  let '(rs', d) := run spec_step (mkDownloads ∅ ∅) ops in
  rs = rs' /\ refines height_of t d /\ within d.
Proof.
  apply (run_refines height_of); [| |done].
  - apply refines_empty.
  - split; [done|]. intros p. by vm_compute.
Qed.

Definition demo_block (h : Z) : uint256 := le_bytes 32 h.
Lemma tracker_refines_downloads_witness :
  let ops := [TAdd 5 (demo_block 5) 1 0; TAdd 6 (demo_block 6) 2 0; TAdd 7 (demo_block 7) 1 0; TReceived (demo_block 6);
              TPeerCount 1; TPeerGone 1; THeightFor (demo_block 5)] in
  fst (run tracker_step new_CBlockTracker ops) = fst (run spec_step (mkDownloads ∅ ∅) ops) /\
  fst (run tracker_step new_CBlockTracker ops)
    = [RBool true; RBool true; RBool true; RInt 6; RInt 2; RHeights [5; 7]; RInt (-1)].
Proof.
  split; [|vm_compute; reflexivity].
  pose proof (tracker_refines_downloads le_val [TAdd 5 (demo_block 5) 1 0; TAdd 6 (demo_block 6) 2 0; TAdd 7 (demo_block 7) 1 0;
    TReceived (demo_block 6); TPeerCount 1; TPeerGone 1; THeightFor (demo_block 5)]) as H.
  cbv zeta. destruct (run tracker_step _ _) as [rs t]. destruct (run spec_step _ _) as [rs' d]. apply H.
  repeat constructor; vm_compute; reflexivity.
Defined.

(** One hash at two heights: the index forgets the first, which then stays in flight until it times out. *)
Example hash_at_two_heights :
  let '(rs, t) := run tracker_step new_CBlockTracker
    [TAdd 5 (demo_block 9) 1 0; TAdd 6 (demo_block 9) 1 0; TReceived (demo_block 9); TReceived (demo_block 9)] in
  rs = [RBool true; RBool true; RInt 6; RInt (-1)] /\ GetTrackedHeights t = [(5, 1)].
Proof. vm_compute. split; reflexivity. Qed.

(** ** A round of requests *)

Lemma collect_spec t fuel : forall h want,
  let l := collect_untracked fuel t h want in
  Forall (fun x => h <= x < h + Z.of_nat fuel /\ IsTracked t x = false) l /\ StronglySorted Z.lt l /\ (length l <= want)%nat /\
  (length l = want \/ forall x, h <= x < h + Z.of_nat fuel -> IsTracked t x = false -> x ∈ l).
Proof.
  induction fuel as [|fuel IH]; intros h want; cbn [collect_untracked].
  { split_and!; [constructor|constructor|cbn; lia|]. right. intros x Hx. lia. }
  destruct want as [|want]; [split_and!; [constructor|constructor|done|by left]|].
  destruct (IsTracked t h) eqn:ET.
  - destruct (IH (h + 1) (S want)) as (H1 & H2 & H3 & H4). split_and!; [|done|done|].
    + eapply Forall_impl; [exact H1|]. intros x [Hx ?]. split; [lia|done].
    + destruct H4 as [|H4]; [by left|]. right. intros x Hx Hn. apply H4; [|done].
      assert (x <> h) by (intros ->; congruence). lia.
  - destruct (IH (h + 1) want) as (H1 & H2 & H3 & H4). split_and!.
    + constructor; [split; [lia|done]|]. eapply Forall_impl; [exact H1|]. intros x [Hx ?]. split; [lia|done].
    + constructor; [done|]. eapply Forall_impl; [exact H1|]. intros x [Hx ?]. cbn. lia.
    + cbn. lia.
    + destruct H4 as [H4|H4]; [left; cbn; lia|]. right. intros x Hx Hn.
      destruct (decide (x = h)) as [->|]; [left|right]. apply H4; [lia|done].
Qed.

(** Ask one peer for each of the heights. *)
Fixpoint request_all (tracker : option CBlockTracker) (now peer : Z) (hash_at : Z -> uint256) (hs : list Z) : list bool * option CBlockTracker :=
  match hs with
  | [] => ([], tracker)
  | h :: hs' =>
      let '(ok, tracker) := RequestBlockFromPeer tracker now peer h (hash_at h) in
      let '(rs, tracker) := request_all tracker now peer hash_at hs' in (ok :: rs, tracker)
  end.

Lemma request_ok t h hash peer now : m_heights t !! h = None -> GetPeerInFlightCount t peer < MAX_BLOCKS_IN_TRANSIT_PER_PEER ->
  GetTotalInFlight t < MAX_TOTAL ->
  exists t', RequestBlockFromPeer (Some t) now peer h hash = (true, Some t') /\
    m_heights t' = <[h := mkInfo hash peer now]> (m_heights t) /\ GetPeerInFlightCount t' peer <= GetPeerInFlightCount t peer + 1.
Proof.
  intros Hh HP HT. unfold RequestBlockFromPeer, AddBlock. rewrite bool_decide_eq_false_2 by (rewrite Hh; by intros [? ?]).
  unfold MAX_BLOCKS_IN_TRANSIT_PER_PEER, MAX_PER_PEER in *.
  destruct (_ >=? 32) eqn:E1; zprop; [lia|]. destruct (_ >=? 128) eqn:E2; zprop; [lia|]. destruct (_ >=? MAX_TOTAL) eqn:E3; zprop; [lia|].
  eexists. split; [done|]. split; [done|]. unfold GetPeerInFlightCount in *. cbn. rewrite lookup_insert_eq.
  pose proof (size_union_alt {[ h ]} (default ∅ (m_peer_heights t !! peer))) as HU. 
  assert (size ({[ h ]} ∪ default ∅ (m_peer_heights t !! peer)) <= 1 + size (default ∅ (m_peer_heights t !! peer)))%nat as Hs.
  { rewrite HU, size_singleton. assert (size (default ∅ (m_peer_heights t !! peer) ∖ {[h]}) <= size (default ∅ (m_peer_heights t !! peer)))%nat
      by (apply subseteq_size; set_solver). lia. }
  destruct (m_peer_heights t !! peer); cbn in *; [lia|]. rewrite size_empty in Hs. lia.
Qed.

Lemma request_all_ok hash_at peer now hs : forall t, NoDup hs -> (forall h, h ∈ hs -> m_heights t !! h = None) ->
  GetPeerInFlightCount t peer + Z.of_nat (length hs) <= MAX_BLOCKS_IN_TRANSIT_PER_PEER ->
  GetTotalInFlight t + Z.of_nat (length hs) <= MAX_TOTAL ->
  exists t', request_all (Some t) now peer hash_at hs = (replicate (length hs) true, Some t') /\
    forall h, is_Some (m_heights t' !! h) <-> is_Some (m_heights t !! h) \/ h ∈ hs.
Proof.
  induction hs as [|h hs IH]; intros t HN Hnew HP HT; cbn [request_all length replicate] in *.
  { exists t. split; [done|]. intros h. rewrite elem_of_nil. tauto. }
  apply NoDup_cons in HN as [Hh HN]. destruct (request_ok t h (hash_at h) peer now) as (t1 & -> & HM & HC); [apply Hnew; left|lia|lia|].
  destruct (IH t1) as (t' & -> & Hin); [done| | | |].
  - intros k Hk. rewrite HM. rewrite lookup_insert_ne by (by intros ->). apply Hnew. by right.
  - lia.
  - unfold GetTotalInFlight in *. rewrite HM, map_size_insert_None by (apply Hnew; left). lia.
  - exists t'. split; [done|]. intros k. rewrite Hin, HM, lookup_insert_is_Some', elem_of_cons.
    split; [intros [[->|?]|?]|intros [?|[->|?]]]; auto.
Qed.

Lemma next_blocks_spec f t fork_point max_blocks chain_height header_height :
  let l := fst (GetNextBlocksToRequest f (Some t) fork_point max_blocks chain_height header_height) in
  let start := match fork_point with Some p => if p <? chain_height then p + 1 else chain_height + 1 | None => chain_height + 1 end in
  Forall (fun h => start <= h <= header_height /\ IsTracked t h = false) l /\ StronglySorted Z.lt l /\
  Z.of_nat (length l) <= Z.max 0 (Z.min max_blocks (MAX_TOTAL - GetTotalInFlight t)) /\
  (chain_height < header_height -> 0 <= Z.of_nat (length l) < Z.min max_blocks (MAX_TOTAL - GetTotalInFlight t) ->
   forall h, start <= h <= header_height -> IsTracked t h = false -> h ∈ l).
Proof.
  unfold GetNextBlocksToRequest. destruct (_ || _) eqn:E0.
  { cbn. split_and!; [constructor|constructor|lia|]. intros. apply orb_true_iff in E0 as [E0|E0]; zprop; lia. }
  apply orb_false_iff in E0 as [E0 E1]. zprop. destruct (_ >=? MAX_TOTAL) eqn:ET; zprop.
  { cbn. split_and!; [constructor|constructor|lia|]. intros. lia. }
  set (start := match fork_point with Some p => if p <? chain_height then p + 1 else chain_height + 1 | None => chain_height + 1 end).
  assert (exists o, match fork_point with
    | Some p => if p <? chain_height then (p + 1, p) else (chain_height + 1, -1) | None => (chain_height + 1, -1) end = (start, o)) as [o ->].
  { unfold start. destruct fork_point as [p|]; [destruct (p <? chain_height)|]; eauto. }
  assert (start <= chain_height + 1) as Hstart. { unfold start. destruct fork_point as [p|]; [destruct (p <? chain_height) eqn:E; zprop|]; lia. }
  clearbody start. cbn [fst].
  destruct (collect_spec t (Z.to_nat (header_height - start + 1)) start (Z.to_nat (Z.min max_blocks (MAX_TOTAL - GetTotalInFlight t))))
    as (H1 & H2 & H3 & H4). split_and!; [|done|lia|].
  - eapply Forall_impl; [exact H1|]. intros h [Hh Hn]. split; [lia|done].
  - intros _ Hlen h Hh Hn. destruct H4 as [H4|H4]; [lia|]. apply H4; [lia|done].
Qed.

(** A round of block requests succeeds.  At any reachable state of the tracker, the heights the fetcher proposes are above the
    fork point or the chain tip, at most the header height, strictly increasing and not tracked, and if fewer are proposed than
    asked for and free then none is missing; and asking one peer for all of them succeeds for each when the peer's limit of 32
    allows it, after which they, and only they, are tracked in addition. *)
Theorem fetch_round_succeeds (height_of : uint256 -> Z) (ops : list TrackerOp) (f : CBlockFetcher) (fork_point : option Z)
    (max_blocks chain_height header_height peer now : Z) (hash_at : Z -> uint256) (Hops : Forall (op_ok height_of) ops) :
  let t := snd (run tracker_step new_CBlockTracker ops) in
  let l := fst (GetNextBlocksToRequest f (Some t) fork_point max_blocks chain_height header_height) in
  let start := match fork_point with Some p => if p <? chain_height then p + 1 else chain_height + 1 | None => chain_height + 1 end in
  GetPeerInFlightCount t peer + Z.of_nat (length l) <= MAX_BLOCKS_IN_TRANSIT_PER_PEER ->
  Forall (fun h => start <= h <= header_height /\ IsTracked t h = false) l /\ StronglySorted Z.lt l /\
  (chain_height < header_height -> Z.of_nat (length l) < Z.min max_blocks (MAX_TOTAL - GetTotalInFlight t) ->
   forall h, start <= h <= header_height -> IsTracked t h = false -> h ∈ l) /\
  exists t', request_all (Some t) now peer hash_at l = (replicate (length l) true, Some t') /\
    forall h, is_Some (m_heights t' !! h) <-> is_Some (m_heights t !! h) \/ h ∈ l.
Proof.
  intros t l start HP. pose proof (next_blocks_spec f t fork_point max_blocks chain_height header_height) as (H1 & H2 & H3 & H4).
  fold start in H1, H4. fold l in H1, H2, H3, H4. split_and!; [done|done|intros Hc Hl; apply H4; [done|lia]|].
  apply request_all_ok; [|intros h Hh| done|].
  - clear -H2. induction H2 as [|x l _ IH HF]; constructor; [|done]. intros Hx. rewrite Forall_forall in HF. specialize (HF x Hx). lia.
  - rewrite Forall_forall in H1. destruct (H1 h Hh) as [_ Hn]. unfold IsTracked in Hn. apply orb_false_iff in Hn as [Hn _].
    apply bool_decide_eq_false in Hn. by apply eq_None_not_Some.
  - assert (GetTotalInFlight t <= MAX_TOTAL); [|lia].
    pose proof (run_refines height_of ops new_CBlockTracker (mkDownloads ∅ ∅) (refines_empty _)) as HR. unfold t.
    destruct (run tracker_step _ ops) as [rs t1]. destruct (run spec_step _ ops) as [rs' d]. cbn [snd].
    destruct HR as (_ & HR & HW & _); [split; [done|intros p; by vm_compute]|done|]. unfold GetTotalInFlight. by rewrite (rf_blocks _ _ _ HR).
Qed.

Lemma fetch_round_succeeds_witness :
  let t := snd (run tracker_step new_CBlockTracker [TAdd 12 (demo_block 12) 1 0; TMark 13]) in
  let l := fst (GetNextBlocksToRequest (mkFetcher 0 0 (-1) true) (Some t) (Some 9) 4 11 20) in
  l = [10; 11; 14; 15] /\
  exists t', request_all (Some t) 5 1 demo_block l = (replicate (length l) true, Some t') /\
    forall h, is_Some (m_heights t' !! h) <-> is_Some (m_heights t !! h) \/ h ∈ l.
Proof.
  split; [vm_compute; reflexivity|].
  apply (fetch_round_succeeds le_val [TAdd 12 (demo_block 12) 1 0; TMark 13] (mkFetcher 0 0 (-1) true) (Some 9) 4 11 20 1 5 demo_block).
  - repeat constructor; vm_compute; reflexivity.
  - vm_compute. discriminate.
Defined.
