(* ===== verification/BlockEncodings.v ===== *)
(** * Compact blocks (net/blockencodings, crypto/siphash)

    A compact block sends a header, one 6-byte keyed hash per transaction and
    the coinbase; the receiver rebuilds the block from its memory pool, asks for
    what is missing and compares the merkle root.  The message decoders return
    [ReadPastEnd] where the code would read beyond the message.  SHA3-256 and the
    random nonce are arguments; logging is left out. *)

From S2P Require Import Prelude Uint256 Block Transaction BlockTxs.

(** ** SipHash-2-4 *)

Definition ROTL (x b : Z) : Z := Z.lor (u64 (Z.shiftl x b)) (Z.shiftr x (64 - b)).

Record CSipHasher := mkSip { sip_v0 : Z; sip_v1 : Z; sip_v2 : Z; sip_v3 : Z; sip_tmp : Z; sip_count : Z }.

Definition SIPROUND (v : Z * Z * Z * Z) : Z * Z * Z * Z :=
  let '(v0, v1, v2, v3) := v in
  let v0 := u64 (v0 + v1) in let v1 := ROTL v1 13 in let v1 := Z.lxor v1 v0 in let v0 := ROTL v0 32 in
  let v2 := u64 (v2 + v3) in let v3 := ROTL v3 16 in let v3 := Z.lxor v3 v2 in
  let v0 := u64 (v0 + v3) in let v3 := ROTL v3 21 in let v3 := Z.lxor v3 v0 in
  let v2 := u64 (v2 + v1) in let v1 := ROTL v1 17 in let v1 := Z.lxor v1 v2 in let v2 := ROTL v2 32 in
  (v0, v1, v2, v3).

Definition new_CSipHasher (k0 k1 : Z) : CSipHasher :=
  mkSip (Z.lxor 0x736f6d6570736575 k0) (Z.lxor 0x646f72616e646f6d k1) (Z.lxor 0x6c7967656e657261 k0) (Z.lxor 0x7465646279746573 k1) 0 0.

(** [v3 ^= val; SIPROUND; SIPROUND; v0 ^= val;] *)
Definition sip_absorb (v : Z * Z * Z * Z) (val : Z) : Z * Z * Z * Z :=
  let '(v0, v1, v2, v3) := v in
  let '(v0, v1, v2, v3) := SIPROUND (SIPROUND (v0, v1, v2, Z.lxor v3 val)) in
  (Z.lxor v0 val, v1, v2, v3).

Definition Sip_WriteWord (h : CSipHasher) (val : Z) : CSipHasher :=
  let '(v0, v1, v2, v3) := sip_absorb (sip_v0 h, sip_v1 h, sip_v2 h, sip_v3 h) val in
  mkSip v0 v1 v2 v3 (sip_tmp h) (u8 (sip_count h + 8)).

Fixpoint Sip_Write (h : CSipHasher) (data : list Z) : CSipHasher :=
  match data with
  | [] => h
  | b :: data' =>
      let t := Z.lor (sip_tmp h) (Z.shiftl b (8 * (sip_count h mod 8))) in
      let c := u8 (sip_count h + 1) in
      if Z.land c 7 =? 0 then
        let '(v0, v1, v2, v3) := sip_absorb (sip_v0 h, sip_v1 h, sip_v2 h, sip_v3 h) t in
        Sip_Write (mkSip v0 v1 v2 v3 0 c) data'
      else Sip_Write (mkSip (sip_v0 h) (sip_v1 h) (sip_v2 h) (sip_v3 h) t c) data'
  end.

Definition Sip_Finalize (h : CSipHasher) : Z :=
  let t := Z.lor (sip_tmp h) (u64 (Z.shiftl (sip_count h) 56)) in
  let '(v0, v1, v2, v3) := sip_absorb (sip_v0 h, sip_v1 h, sip_v2 h, sip_v3 h) t in
  let '(v0, v1, v2, v3) := SIPROUND (SIPROUND (SIPROUND (SIPROUND (v0, v1, Z.lxor v2 0xff, v3)))) in
  Z.lxor (Z.lxor (Z.lxor v0 v1) v2) v3.

Definition SipHash (k0 k1 : Z) (data : list Z) : Z := Sip_Finalize (Sip_Write (new_CSipHasher k0 k1) data).

(** [words[i] |= (uint64_t)data[i * 8 + j] << (j * 8)] *)
Definition word_le (d : list Z) : Z :=
  foldl (fun w j => Z.lor w (Z.shiftl (byte_at d j) (8 * Z.of_nat j))) 0 (seq 0 8).
Definition SipHashUint256 (k0 k1 : Z) (val : uint256) : Z :=
  Sip_Finalize (foldl (fun h i => Sip_WriteWord h (word_le (take 8 (drop (8 * i) val)))) (new_CSipHasher k0 k1) (seq 0 4)).

(** The published test vectors. *)
Example siphash_vectors :
  Sip_Finalize (Sip_WriteWord (new_CSipHasher 0x0706050403020100 0x0F0E0D0C0B0A0908) 0x0706050403020100) = 0x93f5f5799a932462 /\
  SipHash 0x0706050403020100 0x0F0E0D0C0B0A0908 (seqZ 0 8) = 0x93f5f5799a932462 /\
  SipHashUint256 0x0706050403020100 0x0F0E0D0C0B0A0908 (seqZ 0 32) = 0x7127512f72f27cce.
Proof. vm_compute. split_and!; reflexivity. Qed.

(** ** Reading a message *)

Inductive Read (A : Type) : Type := ReadOk (a : A) (rest : list Z) | ReadFail | ReadPastEnd.
Arguments ReadOk {A}.
Arguments ReadFail {A}.
Arguments ReadPastEnd {A}.
Definition reader (A : Type) : Type := list Z -> Read A.
Definition r_ret {A} (a : A) : reader A := fun s => ReadOk a s.
Definition r_bind {A B} (p : reader A) (f : A -> reader B) : reader B :=
  fun s => match p s with ReadOk a s' => f a s' | ReadFail => ReadFail | ReadPastEnd => ReadPastEnd end.
Definition r_fail {A} : reader A := fun _ => ReadFail.
(** [if (offset + n > len) return false;] *)
Definition r_check (n : Z) : reader unit := fun s => if len s <? n then ReadFail else ReadOk tt s.
(** [memcpy(..., data + offset, n); offset += n;] *)
Definition r_raw (n : nat) : reader (list Z) := fun s => if (length s <? n)%nat then ReadPastEnd else ReadOk (take n s) (drop n s).
(** [tx.Deserialize(data + offset, len - offset, &error, &bytesConsumed)] *)
Definition r_tx : reader CTransaction :=
  fun s => match Deserialize s true with Ok (tx, n) => ReadOk tx (drop (Z.to_nat n) s) | Err _ => ReadFail end.

Notation "'read' x 'from' p ; k" := (r_bind p (fun x => k))
  (at level 10, x binder, p at level 100, k at level 200, format "'[v' 'read'  x  'from'  p ; '/' k ']'") : dil_scope.

(** ** Transaction lists *)

(** The count prefix, the 255 form included. *)
Definition vtx_count (data : list Z) : option (Z * list Z) :=
  match data with
  | [] => None
  | firstByte :: rest =>
      if firstByte <? 253 then Some (firstByte, rest)
      else
        let n := if firstByte =? 253 then 2%nat else if firstByte =? 254 then 4%nat else 8%nat in
        if (length rest <? n)%nat then None
        else Some (foldl (fun w j => Z.lor w (Z.shiftl (byte_at rest j) (8 * Z.of_nat j))) 0 (seq 0 n), drop n rest)
  end.

Fixpoint vtx_txs (n : nat) (data : list Z) : option (list CTransaction) :=
  match n with
  | O => Some []
  | S n' =>
      match Deserialize data true with
      | Err _ => None
      | Ok (tx, bytesConsumed) => (fun txs => tx :: txs) <$> vtx_txs n' (drop (Z.to_nat bytesConsumed) data)
      end
  end.

Definition DeserializeTransactionsFromVtx (vtx : list Z) : option (list CTransaction) :=
  match vtx_count vtx with
  | None => None
  | Some (txCount, data) => if txCount >? 100000 then None else vtx_txs (Z.to_nat txCount) data
  end.

Definition SerializeTransactionsToVtx (transactions : list (option CTransaction)) : list Z :=
  SerializeCompactSize (len transactions) ++ concat ((fun o => match o with Some tx => Serialize tx | None => [] end) <$> transactions).

Section Compact.
  Variable SHA3_256 : list Z -> uint256.

Definition BuildMerkleRootFromTxs (transactions : list (option CTransaction)) : uint256 :=
  match transactions with
  | [] => zero256
  | _ => merkle_root SHA3_256 ((fun o => match o with Some tx => Tx_GetHash SHA3_256 tx | None => zero256 end) <$> transactions)
  end.

(** ** The compact block *)

Record PrefilledTransaction := mkPrefilled { pf_index : Z; pf_tx : CTransaction }.

Record CBlockHeaderAndShortTxIDs := mkCompact {
  cb_header : CBlockHeader;
  cb_nonce : Z;
  shorttxids : list Z;
  prefilledtxn : list PrefilledTransaction;
  shorttxidk0 : Z;
  shorttxidk1 : Z
}.

Definition FillShortTxIDSelector (h : CBlockHeader) (nonce : Z) : Z * Z :=
  let hash := SHA3_256 (le_bytes 4 (nVersion h) ++ hashPrevBlock h ++ hashMerkleRoot h ++ le_bytes 4 (hnTime h) ++ le_bytes 4 (hnBits h)
                        ++ le_bytes 4 (nNonce h) ++ le_bytes 8 nonce) in
  (word_le hash, word_le (drop 8 hash)).

Definition GetShortID (c : CBlockHeaderAndShortTxIDs) (txid : uint256) : Z :=
  let '(k0, k1) :=
    if (shorttxidk0 c =? 0) && (shorttxidk1 c =? 0) then FillShortTxIDSelector (cb_header c) (cb_nonce c)
    else (shorttxidk0 c, shorttxidk1 c) in
  Z.land (SipHashUint256 k0 k1 txid) 0xffffffffffff.

(** The constructor from a block, for a random nonce. *)
Definition new_compact (nonce : Z) (block : CBlock) : CBlockHeaderAndShortTxIDs :=
  let h := block_header block in
  let header := mkHeader (nVersion h) (hashPrevBlock h) (hashMerkleRoot h) (hnTime h) (hnBits h) (nNonce h)
    (if nVersion h >=? 4 then vdfOutput h else zero256) (if nVersion h >=? 4 then vdfProofHash h else zero256) zero256 false in
  let '(k0, k1) := FillShortTxIDSelector header nonce in
  let empty := mkCompact header nonce [] [] k0 k1 in
  match DeserializeTransactionsFromVtx (vtx block) with
  | None | Some [] => empty
  | Some (coinbase :: txs) =>
      mkCompact header nonce ((fun tx => GetShortID empty (Tx_GetHash SHA3_256 tx)) <$> txs) [mkPrefilled 0 coinbase] k0 k1
  end.

Definition Compact_IsValid (c : CBlockHeaderAndShortTxIDs) : bool :=
  if len (shorttxids c) >? 100000 then false
  else if len (prefilledtxn c) >? len (shorttxids c) + 1 then false
  else forallb (fun p => negb (pf_index p >? len (shorttxids c))) (prefilledtxn c).

(** [last_index] is a 16-bit variable, as are the differences. *)
Fixpoint encode_prefilled (last_index : Z) (l : list PrefilledTransaction) : list Z :=
  match l with
  | [] => []
  | p :: l' => le_bytes 2 (u16 (pf_index p - last_index)) ++ Serialize (pf_tx p) ++ encode_prefilled (u16 (pf_index p + 1)) l'
  end.

Definition Compact_Serialize (c : CBlockHeaderAndShortTxIDs) : list Z :=
  let h := cb_header c in
  le_bytes 4 (nVersion h) ++ hashPrevBlock h ++ hashMerkleRoot h ++ le_bytes 4 (hnTime h) ++ le_bytes 4 (hnBits h) ++ le_bytes 4 (nNonce h)
  ++ (if nVersion h >=? 4 then vdfOutput h ++ vdfProofHash h else [])
  ++ le_bytes 8 (cb_nonce c) ++ le_bytes 4 (u32 (len (shorttxids c))) ++ concat (le_bytes 6 <$> shorttxids c)
  ++ le_bytes 2 (u16 (len (prefilledtxn c))) ++ encode_prefilled 0 (prefilledtxn c).

Fixpoint r_repeat {A} (n : nat) (p : reader A) : reader (list A) :=
  match n with
  | O => r_ret []
  | S n' => read x from p; read xs from r_repeat n' p; r_ret (x :: xs)
  end.

Fixpoint decode_prefilled (n : nat) (last_index : Z) : reader (list PrefilledTransaction) :=
  match n with
  | O => r_ret []
  | S n' =>
      read _ from r_check 2;
      read diff from r_raw 2;
      let index := u16 (last_index + le_val diff) in
      read tx from r_tx;
      read l from decode_prefilled n' (u16 (index + 1));
      r_ret (mkPrefilled index tx :: l)
  end.

Definition Compact_Deserialize : reader CBlockHeaderAndShortTxIDs :=
  fun data =>
  if len data <? 90 then ReadFail
  else
    (read version from r_raw 4;
     read prev from r_raw 32;
     read merkle from r_raw 32;
     read time from r_raw 4;
     read bits from r_raw 4;
     read hnonce from r_raw 4;
     let nVersion := i32 (le_val version) in
     read vdf from (if nVersion >=? 4
                    then (read _ from r_check 64; read a from r_raw 32; read b from r_raw 32; r_ret (a, b))
                    else r_ret (zero256, zero256));
     let header := mkHeader nVersion prev merkle (le_val time) (le_val bits) (le_val hnonce) vdf.1 vdf.2 zero256 false in
     read nonce from r_raw 8;
     let '(k0, k1) := FillShortTxIDSelector header (le_val nonce) in
     read _ from r_check 4;
     read count from r_raw 4;
     if le_val count >? 100000 then r_fail
     else
       read _ from r_check (le_val count * 6);
       read ids from r_repeat (Z.to_nat (le_val count)) (read d from r_raw 6; r_ret (le_val d));
       read _ from r_check 2;
       read prefilled_count from r_raw 2;
       read l from decode_prefilled (Z.to_nat (le_val prefilled_count)) 0;
       r_ret (mkCompact header (le_val nonce) ids l k0 k1)) data.

(** ** Rebuilding the block *)

Inductive ReadStatus : Set := RS_OK | RS_INVALID | RS_FAILED | RS_CHECKBLOCK_FAILED | RS_EXTRA_TXN.

Record PartiallyDownloadedBlock := mkPartial {
  is_initialized : bool;
  pd_header : CBlockHeader;
  txn_available : list (option CTransaction);
  shortid_to_index : gmap Z Z;
  prefilled_indices : gset Z
}.
Definition new_PartiallyDownloadedBlock : PartiallyDownloadedBlock := mkPartial false Header_SetNull [] ∅ ∅.

(** [std::vector::resize] *)
Definition resize {A} (l : list (option A)) (n : nat) : list (option A) := take n l ++ replicate (n - length l) None.

Fixpoint place_prefilled (tx_count : Z) (txn : list (option CTransaction)) (indices : gset Z) (l : list PrefilledTransaction)
  : bool * list (option CTransaction) * gset Z :=
  match l with
  | [] => (true, txn, indices)
  | p :: l' =>
      if pf_index p >=? tx_count then (false, txn, indices)
      else place_prefilled tx_count (<[Z.to_nat (pf_index p) := Some (pf_tx p)]> txn) ({[ pf_index p ]} ∪ indices) l'
  end.

(** [for (size_t i = 0; i < tx_count; i++)] over the positions [pos], with the short ids not yet used. *)
Fixpoint map_shortids (indices : gset Z) (ids : list Z) (m : gmap Z Z) (pos : list nat) : bool * gmap Z Z :=
  match pos with
  | [] => (true, m)
  | i :: pos' =>
      if decide (u16 (Z.of_nat i) ∈ indices) then map_shortids indices ids m pos'
      else
        match ids with
        | [] => (false, m)
        | id :: ids' => map_shortids indices ids' (<[id := u16 (Z.of_nat i)]> m) pos'
        end
  end.

Fixpoint fill_from_mempool (c : CBlockHeaderAndShortTxIDs) (m : gmap Z Z) (txn : list (option CTransaction)) (mempool_txs : list CTransaction)
  : list (option CTransaction) :=
  match mempool_txs with
  | [] => txn
  | tx :: mempool_txs' =>
      let txn :=
        match m !! GetShortID c (Tx_GetHash SHA3_256 tx) with
        | Some i => match txn !! Z.to_nat i with Some None => <[Z.to_nat i := Some tx]> txn | _ => txn end
        | None => txn
        end in
      fill_from_mempool c m txn mempool_txs'
  end.

Definition missing_positions (txn : list (option CTransaction)) : list nat :=
  filter (fun i => txn !! i = Some None) (seq 0 (length txn)).
Definition GetMissingTxCount (p : PartiallyDownloadedBlock) : Z :=
  len (filter (fun o => o = None) (txn_available p)).
Definition GetMissingTxIndices (p : PartiallyDownloadedBlock) : list Z :=
  (fun i => u16 (Z.of_nat i)) <$> missing_positions (txn_available p).
Definition IsTxAvailable (p : PartiallyDownloadedBlock) (index : nat) : bool :=
  match txn_available p !! index with Some (Some _) => true | _ => false end.

Definition InitData (p : PartiallyDownloadedBlock) (c : CBlockHeaderAndShortTxIDs) (mempool_txs : list CTransaction)
  : ReadStatus * PartiallyDownloadedBlock :=
  if negb (Compact_IsValid c) then (RS_INVALID, p)
  else
    let tx_count := (length (shorttxids c) + length (prefilledtxn c))%nat in
    let '(ok, txn, indices) := place_prefilled (Z.of_nat tx_count) (resize (txn_available p) tx_count) (prefilled_indices p) (prefilledtxn c) in
    if negb ok then (RS_INVALID, mkPartial (is_initialized p) (cb_header c) txn (shortid_to_index p) indices)
    else
      let '(ok, m) := map_shortids indices (shorttxids c) (shortid_to_index p) (seq 0 tx_count) in
      if negb ok then (RS_INVALID, mkPartial (is_initialized p) (cb_header c) txn m indices)
      else
        let p := mkPartial true (cb_header c) (fill_from_mempool c m txn mempool_txs) m indices in
        (if GetMissingTxCount p >? 0 then RS_EXTRA_TXN else RS_OK, p).

Fixpoint place_txs (txn : list (option CTransaction)) (at_ : list Z) (l : list CTransaction) : list (option CTransaction) :=
  match at_, l with
  | i :: at_', tx :: l' => place_txs (<[Z.to_nat i := Some tx]> txn) at_' l'
  | _, _ => txn
  end.
Definition FillMissingTxs (p : PartiallyDownloadedBlock) (txn : list CTransaction) : ReadStatus * PartiallyDownloadedBlock :=
  let missing := GetMissingTxIndices p in
  if negb (length txn =? length missing)%nat then (RS_INVALID, p)
  else (RS_OK, mkPartial (is_initialized p) (pd_header p) (place_txs (txn_available p) missing txn) (shortid_to_index p) (prefilled_indices p)).

Definition GetBlock (p : PartiallyDownloadedBlock) : option CBlock :=
  if negb (is_initialized p) then None
  else if GetMissingTxCount p >? 0 then None
  else
    let h := pd_header p in
    if bool_decide (BuildMerkleRootFromTxs (txn_available p) <> hashMerkleRoot h) then None
    else Some (mkBlock (mkHeader (nVersion h) (hashPrevBlock h) (hashMerkleRoot h) (hnTime h) (hnBits h) (nNonce h) (vdfOutput h)
                          (vdfProofHash h) zero256 false) (SerializeTransactionsToVtx (txn_available p))).
End Compact.

(** ** Requests for missing transactions *)

Record BlockTransactionsRequest := mkBTRequest { btr_blockhash : uint256; indexes : list Z }.
Fixpoint encode_indexes (last_index : Z) (l : list Z) : list Z :=
  match l with
  | [] => []
  | i :: l' => le_bytes 2 (u16 (i - last_index)) ++ encode_indexes (u16 (i + 1)) l'
  end.
Definition Request_Serialize (r : BlockTransactionsRequest) : list Z :=
  btr_blockhash r ++ le_bytes 2 (u16 (len (indexes r))) ++ encode_indexes 0 (indexes r).
Fixpoint decode_indexes (n : nat) (last_index : Z) : reader (list Z) :=
  match n with
  | O => r_ret []
  | S n' =>
      read diff from r_raw 2;
      let index := u16 (last_index + le_val diff) in
      read l from decode_indexes n' (u16 (index + 1));
      r_ret (index :: l)
  end.
Definition MAX_INDEX_COUNT : Z := 10000.
Definition Request_Deserialize : reader BlockTransactionsRequest :=
  fun data =>
  if len data <? 34 then ReadFail
  else
    (read hash from r_raw 32;
     read count from r_raw 2;
     if le_val count >? MAX_INDEX_COUNT then r_fail
     else
       read _ from r_check (le_val count * 2);
       read l from decode_indexes (Z.to_nat (le_val count)) 0;
       r_ret (mkBTRequest hash l)) data.

Record BlockTransactions := mkBT { bt_blockhash : uint256; bt_txn : list CTransaction }.
Definition BlockTransactions_Serialize (b : BlockTransactions) : list Z :=
  bt_blockhash b ++ le_bytes 2 (u16 (len (bt_txn b))) ++ concat (Serialize <$> bt_txn b).
Definition BlockTransactions_Deserialize : reader BlockTransactions :=
  fun data =>
  if len data <? 34 then ReadFail
  else
    (read hash from r_raw 32;
     read count from r_raw 2;
     if le_val count >? MAX_INDEX_COUNT then r_fail
     else
       read l from r_repeat (Z.to_nat (le_val count)) r_tx;
       r_ret (mkBT hash l)) data.

(** ** Messages round-trip *)

Definition rreads {A} (p : reader A) (enc : list Z) (x : A) : Prop := forall rest, p (enc ++ rest) = ReadOk x rest.

Lemma rreads_bind {A B} (p : reader A) (f : A -> reader B) e1 e2 x y : rreads p e1 x -> rreads (f x) e2 y -> rreads (r_bind p f) (e1 ++ e2) y.
Proof. intros H1 H2 rest. unfold r_bind. rewrite <- app_assoc, H1. apply H2. Qed.
Lemma rreads_ret {A} (x : A) : rreads (r_ret x) [] x.
Proof. intros rest. done. Qed.
Lemma rreads_bind_ret {A B} (p : reader A) (g : A -> B) e x y : rreads p e x -> g x = y -> rreads (r_bind p (fun a => r_ret (g a))) e y.
Proof. intros H1 <-. rewrite <- (app_nil_r e). eapply rreads_bind; [done|]. apply rreads_ret. Qed.
Lemma rreads_raw l n : length l = n -> rreads (r_raw n) l l.
Proof.
  intros <- rest. unfold r_raw. rewrite length_app. destruct (Nat.ltb_spec (length l + length rest) (length l)); [lia|].
  by rewrite take_app_length, drop_app_length.
Qed.
Lemma len_le n v : len (le_bytes n v) = Z.of_nat n.
Proof. unfold len. by rewrite length_le_bytes. Qed.
Lemma rreads_le n v : rreads (r_raw n) (le_bytes n v) (le_bytes n v).
Proof. apply rreads_raw, length_le_bytes. Qed.
Lemma rreads_check {A} n (k : reader A) e x : n <= len e -> rreads k e x -> rreads (read _ from r_check n; k) e x.
Proof.
  intros Hn Hk rest. unfold r_bind, r_check. rewrite len_app. pose proof (len_nonneg rest). destruct (_ <? n) eqn:E; zprop; [lia|]. apply Hk.
Qed.
Lemma rreads_tx tx : tx_wf tx -> rreads r_tx (Serialize tx) tx.
Proof. intros HW rest. unfold r_tx. rewrite Deserialize_prefix by done. unfold len. by rewrite Nat2Z.id, drop_app_length. Qed.
Lemma rreads_repeat {A} (p : reader A) (enc : A -> list Z) l : Forall (fun x => rreads p (enc x) x) l ->
  rreads (r_repeat (length l) p) (concat (enc <$> l)) l.
Proof.
  induction 1 as [|x l Hx _ IH]; [apply rreads_ret|]. cbn [length r_repeat fmap list_fmap concat]. eapply rreads_bind; [done|].
  eapply rreads_bind_ret; [done|done].
Qed.
Lemma rreads_start {A} n (p : reader A) e x : n <= len e -> rreads p e x -> rreads (fun data => if len data <? n then ReadFail else p data) e x.
Proof. intros Hn Hp rest. rewrite len_app. pose proof (len_nonneg rest). destruct (_ <? n) eqn:E; zprop; [lia|]. apply Hp. Qed.

Lemma index_roundtrip last i : 0 <= i < 2 ^ 16 -> u16 (last + le_val (le_bytes 2 (u16 (i - last)))) = i.
Proof.
  intros Hi. rewrite le_val_le_bytes. change (256 ^ Z.of_nat 2) with (2 ^ 16). unfold u16. rewrite Z.mod_mod by lia.
  rewrite Zplus_mod_idemp_r. replace (last + (i - last)) with i by lia. by apply Z.mod_small.
Qed.
Lemma le2_small v : 0 <= v < 2 ^ 16 -> le_val (le_bytes 2 (u16 v)) = v.
Proof. intros Hv. rewrite u16_small by done. rewrite le_val_le_bytes. by apply Z.mod_small. Qed.

Lemma rreads_prefilled l : forall last, Forall (fun p => 0 <= pf_index p < 2 ^ 16 /\ tx_wf (pf_tx p)) l ->
  rreads (decode_prefilled (length l) last) (encode_prefilled last l) l.
Proof.
  induction l as [|p l IH]; intros last HF; [apply rreads_ret|]. apply Forall_cons in HF as [[Hi HW] HF].
  cbn [length decode_prefilled encode_prefilled]. apply rreads_check.
  { rewrite len_app. rewrite len_le. pose proof (len_nonneg (Serialize (pf_tx p) ++ encode_prefilled (u16 (pf_index p + 1)) l)). lia. }
  eapply rreads_bind; [apply rreads_le|]. rewrite index_roundtrip by done. eapply rreads_bind; [by apply rreads_tx|].
  eapply rreads_bind_ret; [by apply IH|]. by destruct p.
Qed.
Lemma rreads_indexes l : forall last, Forall (fun i => 0 <= i < 2 ^ 16) l -> rreads (decode_indexes (length l) last) (encode_indexes last l) l.
Proof.
  induction l as [|i l IH]; intros last HF; [apply rreads_ret|]. apply Forall_cons in HF as [Hi HF].
  cbn [length decode_indexes encode_indexes]. eapply rreads_bind; [apply rreads_le|]. rewrite index_roundtrip by done.
  eapply rreads_bind_ret; [by apply IH|done].
Qed.
Lemma len_indexes l : forall last, len (encode_indexes last l) = 2 * len l.
Proof. induction l as [|i l IH]; intros last; [done|]. cbn [encode_indexes]. rewrite len_app, IH, len_le. unfold len. cbn [length]. lia. Qed.

(** A header as the wire carries it. *)
Definition wire_header (h : CBlockHeader) : Prop :=
  - 2 ^ 31 <= nVersion h < 2 ^ 31 /\ length (hashPrevBlock h) = 32%nat /\ length (hashMerkleRoot h) = 32%nat /\
  0 <= hnTime h < 2 ^ 32 /\ 0 <= hnBits h < 2 ^ 32 /\ 0 <= nNonce h < 2 ^ 32 /\
  (if nVersion h >=? 4 then length (vdfOutput h) = 32%nat /\ length (vdfProofHash h) = 32%nat
   else vdfOutput h = zero256 /\ vdfProofHash h = zero256) /\ cachedHash h = zero256 /\ fHashCached h = false.

Definition compact_wf (SHA3_256 : list Z -> uint256) (c : CBlockHeaderAndShortTxIDs) : Prop :=
  wire_header (cb_header c) /\ 0 <= cb_nonce c < 2 ^ 64 /\ len (shorttxids c) <= 100000 /\
  Forall (fun id => 0 <= id < 2 ^ 48) (shorttxids c) /\ len (prefilledtxn c) < 2 ^ 16 /\
  Forall (fun p => 0 <= pf_index p < 2 ^ 16 /\ tx_wf (pf_tx p)) (prefilledtxn c) /\
  (shorttxidk0 c, shorttxidk1 c) = FillShortTxIDSelector SHA3_256 (cb_header c) (cb_nonce c).

Lemma le_val_small n v : 0 <= v < 256 ^ Z.of_nat n -> le_val (le_bytes n v) = v.
Proof. intros Hv. rewrite le_val_le_bytes. by apply Z.mod_small. Qed.
Lemma version_roundtrip v : - 2 ^ 31 <= v < 2 ^ 31 -> i32 (le_val (le_bytes 4 v)) = v.
Proof. intros Hv. rewrite le_val_le_bytes. change (256 ^ Z.of_nat 4) with (2 ^ 32). fold (u32 v). rewrite i32_u32. by apply i32_small. Qed.

Lemma rreads_ids l : Forall (fun id => 0 <= id < 2 ^ 48) l ->
  rreads (r_repeat (length l) (read d from r_raw 6; r_ret (le_val d))) (concat (le_bytes 6 <$> l)) l.
Proof.
  intros HF. apply rreads_repeat. eapply Forall_impl; [exact HF|]. intros id Hid. cbn beta.
  eapply rreads_bind_ret; [apply rreads_le|]. by apply le_val_small.
Qed.
Lemma len_ids l : len (concat (le_bytes 6 <$> l)) = 6 * len l.
Proof. induction l as [|i l IH]; [done|]. cbn [fmap list_fmap concat]. rewrite len_app, IH, len_le. unfold len. cbn [length]. lia. Qed.

Lemma rreads_vdf h : wire_header h ->
  rreads (if nVersion h >=? 4 then (read _ from r_check 64; read a from r_raw 32; read b from r_raw 32; r_ret (a, b)) else r_ret (zero256, zero256))
    (if nVersion h >=? 4 then vdfOutput h ++ vdfProofHash h else []) (vdfOutput h, vdfProofHash h).
Proof.
  intros (_ & _ & _ & _ & _ & _ & HV & _). destruct (_ >=? 4).
  - destruct HV as [H1 H2]. apply rreads_check; [unfold len; rewrite length_app; lia|]. eapply rreads_bind; [by apply rreads_raw|].
    eapply rreads_bind_ret; [by apply rreads_raw|done].
  - destruct HV as [-> ->]. apply rreads_ret.
Qed.

Ltac rfield := eapply rreads_bind; [first [apply rreads_le | by apply rreads_raw]|].

Lemma compact_wire_roundtrip SHA3_256 c : compact_wf SHA3_256 c -> rreads (Compact_Deserialize SHA3_256) (Compact_Serialize c) c.
Proof.
  intros (HH & HN & HS & HI & HPn & HP & HK). pose proof HH as (Hv & Hp & Hm & Ht & Hb & Hn & HV & Hc & Hf).
  unfold Compact_Deserialize, Compact_Serialize. apply rreads_start.
  { rewrite !len_app, !len_le. assert (len (hashPrevBlock (cb_header c)) = 32) as -> by (unfold len; by rewrite Hp).
    assert (len (hashMerkleRoot (cb_header c)) = 32) as -> by (unfold len; by rewrite Hm).
    pose proof (len_nonneg (encode_prefilled 0 (prefilledtxn c))). pose proof (len_nonneg (concat (le_bytes 6 <$> shorttxids c))).
    pose proof (len_nonneg (if nVersion (cb_header c) >=? 4 then vdfOutput (cb_header c) ++ vdfProofHash (cb_header c) else [])). lia. }
  do 6 rfield. rewrite version_roundtrip, !(le_val_small 4) by done. eapply rreads_bind; [by apply rreads_vdf|]. cbn [fst snd].
  assert (mkHeader (nVersion (cb_header c)) (hashPrevBlock (cb_header c)) (hashMerkleRoot (cb_header c)) (hnTime (cb_header c))
    (hnBits (cb_header c)) (nNonce (cb_header c)) (vdfOutput (cb_header c)) (vdfProofHash (cb_header c)) zero256 false = cb_header c) as ->.
  { destruct (cb_header c). cbn in *. by subst. }
  rfield. rewrite (le_val_small 8) by done. rewrite <- HK. apply rreads_check.
  { rewrite len_app. rewrite len_le. pose proof (len_nonneg (concat (le_bytes 6 <$> shorttxids c) ++ le_bytes 2 (u16 (len (prefilledtxn c))) ++ encode_prefilled 0 (prefilledtxn c))). lia. }
  rfield. pose proof (len_nonneg (shorttxids c)). pose proof (len_nonneg (prefilledtxn c)).
  rewrite u32_small, (le_val_small 4) by lia. destruct (_ >? 100000) eqn:E; zprop; [lia|].
  apply rreads_check. { rewrite len_app, len_ids. match goal with |- context [len (?a ++ ?b)] => pose proof (len_nonneg (a ++ b)) end. lia. }
  unfold len at 1. rewrite Nat2Z.id. eapply rreads_bind; [by apply rreads_ids|].
  apply rreads_check. { rewrite len_app. rewrite len_le. pose proof (len_nonneg (encode_prefilled 0 (prefilledtxn c))). lia. }
  rfield. rewrite le2_small by lia. unfold len at 1. rewrite Nat2Z.id. eapply rreads_bind_ret; [by apply rreads_prefilled|]. by destruct c.
Qed.

Definition request_wf (r : BlockTransactionsRequest) : Prop :=
  length (btr_blockhash r) = 32%nat /\ len (indexes r) <= MAX_INDEX_COUNT /\ Forall (fun i => 0 <= i < 2 ^ 16) (indexes r).
Definition response_wf (b : BlockTransactions) : Prop :=
  length (bt_blockhash b) = 32%nat /\ len (bt_txn b) <= MAX_INDEX_COUNT /\ Forall tx_wf (bt_txn b).

Lemma request_roundtrip r : request_wf r -> rreads Request_Deserialize (Request_Serialize r) r.
Proof.
  intros (Hh & Hn & HI). unfold Request_Deserialize, Request_Serialize. pose proof (len_nonneg (indexes r)).
  assert (len (btr_blockhash r) = 32) as Hl by (unfold len; by rewrite Hh). unfold MAX_INDEX_COUNT in *.
  apply rreads_start; [rewrite !len_app, len_le, len_indexes, Hl; lia|].
  rfield. rfield. rewrite le2_small by lia. destruct (_ >? 10000) eqn:E; zprop; [lia|]. apply rreads_check; [rewrite len_indexes; lia|].
  unfold len. rewrite Nat2Z.id. eapply rreads_bind_ret; [by apply rreads_indexes|]. by destruct r.
Qed.

Lemma response_roundtrip b : response_wf b -> rreads BlockTransactions_Deserialize (BlockTransactions_Serialize b) b.
Proof.
  intros (Hh & Hn & HI). unfold BlockTransactions_Deserialize, BlockTransactions_Serialize. pose proof (len_nonneg (bt_txn b)).
  assert (len (bt_blockhash b) = 32) as Hl by (unfold len; by rewrite Hh). unfold MAX_INDEX_COUNT in *.
  apply rreads_start; [rewrite !len_app, len_le, Hl; pose proof (len_nonneg (concat (Serialize <$> bt_txn b))); lia|].
  rfield. rfield. rewrite le2_small by lia. destruct (_ >? 10000) eqn:E; zprop; [lia|].
  unfold len. rewrite Nat2Z.id. eapply rreads_bind_ret; [apply rreads_repeat|by destruct b]. eapply Forall_impl; [exact HI|]. intros tx. apply rreads_tx.
Qed.

(** ** Reads beyond the message *)

Definition inside {A} (p : reader A) (s : list Z) : Prop := p s <> ReadPastEnd.

Lemma inside_bind {A B} (p : reader A) (f : A -> reader B) s : inside p s -> (forall x r, p s = ReadOk x r -> inside (f x) r) -> inside (r_bind p f) s.
Proof. unfold inside, r_bind. intros H1 H2. destruct (p s) eqn:E; [by apply H2|done|done]. Qed.
Lemma inside_ret {A} (x : A) s : inside (r_ret x) s.
Proof. done. Qed.
Lemma inside_raw {A} n (f : list Z -> reader A) s : (n <= length s)%nat -> inside (f (take n s)) (drop n s) -> inside (r_bind (r_raw n) f) s.
Proof. intros Hn Hf. unfold inside, r_bind, r_raw in *. by destruct (Nat.ltb_spec (length s) n); [lia|]. Qed.
Lemma inside_check {A} n (k : reader A) s : (n <= len s -> inside k s) -> inside (read _ from r_check n; k) s.
Proof. intros Hk. unfold inside, r_bind, r_check in *. destruct (len s <? n) eqn:E; [done|]. zprop. by apply Hk. Qed.
Lemma inside_tx s : inside r_tx s.
Proof. unfold inside, r_tx. by destruct (Deserialize s true) as [[]|]. Qed.
Lemma inside_txs n : forall s, inside (r_repeat n r_tx) s.
Proof.
  induction n as [|n IH]; intros s; [apply inside_ret|]. cbn [r_repeat]. apply inside_bind; [apply inside_tx|]. intros x r _.
  apply inside_bind; [apply IH|]. intros; apply inside_ret.
Qed.
Lemma inside_ids n : forall s, 6 * Z.of_nat n <= len s -> inside (r_repeat n (read d from r_raw 6; r_ret (le_val d))) s.
Proof.
  induction n as [|n IH]; intros s Hs; [apply inside_ret|]. cbn [r_repeat]. unfold len in Hs.
  apply inside_bind; [apply inside_raw; [lia|apply inside_ret]|].
  unfold r_bind at 1, r_raw. destruct (Nat.ltb_spec (length s) 6); [lia|]. intros x r [= _ <-].
  apply inside_bind; [apply IH; unfold len; rewrite length_drop; lia|]. intros; apply inside_ret.
Qed.
Lemma inside_indexes n : forall last s, 2 * Z.of_nat n <= len s -> inside (decode_indexes n last) s.
Proof.
  induction n as [|n IH]; intros last s Hs; [apply inside_ret|]. cbn [decode_indexes]. unfold len in Hs. apply inside_raw; [lia|].
  apply inside_bind; [apply IH; unfold len; rewrite length_drop; lia|]. intros; apply inside_ret.
Qed.
Lemma inside_prefilled n : forall last s, inside (decode_prefilled n last) s.
Proof.
  induction n as [|n IH]; intros last s; [apply inside_ret|]. cbn [decode_prefilled]. apply inside_check. intros Hs. unfold len in Hs.
  apply inside_raw; [lia|]. apply inside_bind; [apply inside_tx|]. intros tx r _. apply inside_bind; [apply IH|]. intros; apply inside_ret.
Qed.

Lemma request_inside data : inside Request_Deserialize data.
Proof.
  unfold Request_Deserialize, inside. destruct (len data <? 34) eqn:E; [done|]. zprop. unfold len in E.
  apply inside_raw; [lia|]. apply inside_raw; [rewrite length_drop; lia|]. destruct (_ >? MAX_INDEX_COUNT) eqn:EC; [done|]. zprop.
  apply inside_check. intros Hs. apply inside_bind; [|intros; apply inside_ret]. apply inside_indexes.
  destruct (decide (0 <= le_val (take 2 (drop 32 data)))); [lia|].
  replace (Z.to_nat _) with 0%nat by lia. pose proof (len_nonneg (drop 2 (drop 32 data))). lia.
Qed.
Lemma response_inside data : inside BlockTransactions_Deserialize data.
Proof.
  unfold BlockTransactions_Deserialize, inside. destruct (len data <? 34) eqn:E; [done|]. zprop. unfold len in E.
  apply inside_raw; [lia|]. apply inside_raw; [rewrite length_drop; lia|]. destruct (_ >? MAX_INDEX_COUNT) eqn:EC; [done|].
  apply inside_bind; [apply inside_txs|intros; apply inside_ret].
Qed.

Lemma raw_step {A} n (f : list Z -> reader A) s : (n <= length s)%nat -> r_bind (r_raw n) f s = f (take n s) (drop n s).
Proof. intros Hn. unfold r_bind, r_raw. by destruct (Nat.ltb_spec (length s) n); [lia|]. Qed.
Lemma raw_over {A} n (f : list Z -> reader A) s : (length s < n)%nat -> r_bind (r_raw n) f s = ReadPastEnd.
Proof. intros Hn. unfold r_bind, r_raw. by destruct (Nat.ltb_spec (length s) n); [|lia]. Qed.

Lemma compact_overread SHA3_256 data :
  Compact_Deserialize SHA3_256 data = ReadPastEnd <-> 4 <= i32 (le_val (take 4 data)) /\ 144 <= len data < 152.
Proof.
  unfold Compact_Deserialize. destruct (len data <? 90) eqn:E; zprop; [split; [done|lia]|]. unfold len in *.
  do 6 (rewrite raw_step by (rewrite ?length_drop; lia)). set (ver := i32 (le_val (take 4 data))).
  match goal with |- r_bind (if _ then _ else _) ?k ?s = _ <-> _ => set (kk := k); set (s6 := s) end.
  assert (length s6 = length data - 80)%nat as L6 by (unfold s6; rewrite !length_drop; lia).
  assert (forall v s, (8 <= length s)%nat -> kk v s <> ReadPastEnd) as Hin.
  { intros v s Hs. unfold kk. rewrite raw_step by done. destruct (FillShortTxIDSelector _ _ _) as [k0 k1].
    apply inside_check. intros H4. unfold len in H4. apply inside_raw; [lia|]. destruct (_ >? 100000) eqn:EC; [done|].
    apply inside_check. intros H5. apply inside_bind.
    { apply inside_ids. match goal with |- context [Z.to_nat ?x] => destruct (decide (0 <= x)); [lia|replace (Z.to_nat x) with 0%nat by lia] end. unfold len. lia. }
    intros ids r _. apply inside_check. intros H6. unfold len in H6. apply inside_raw; [lia|].
    apply inside_bind; [apply inside_prefilled|intros; apply inside_ret]. }
  destruct (ver >=? 4) eqn:EV; zprop.
  - unfold r_bind at 1 2. unfold r_check. destruct (len s6 <? 64) eqn:E64; zprop; unfold len in E64; [split; [done|lia]|].
    rewrite raw_step by lia. rewrite raw_step by (rewrite length_drop; lia). unfold r_ret. cbn beta iota.
    destruct (decide (8 <= length (drop 32 (drop 32 s6)))%nat) as [H8|H8].
    + split; [intros HP; by apply Hin in HP|]. rewrite !length_drop in H8. lia.
    + split; [intros _; rewrite !length_drop in H8; lia|]. intros _. unfold kk. apply raw_over. lia.
  - unfold r_bind at 1, r_ret. split; [intros HP|lia]. destruct (Hin (zero256, zero256) s6); [lia|done].
Qed.

(** The compact-block messages round-trip.  A compact block, a request and a response with fields of their widths and within
    the decoders' limits are read back from their encoding exactly, whatever bytes follow; the differential index encoding in
    16-bit arithmetic loses nothing, in any order of the indices. *)
Theorem compact_messages_roundtrip (SHA3_256 : list Z -> uint256) (c : CBlockHeaderAndShortTxIDs) (r : BlockTransactionsRequest)
    (b : BlockTransactions) (rest : list Z) (Hc : compact_wf SHA3_256 c) (Hr : request_wf r) (Hb : response_wf b) :
  Compact_Deserialize SHA3_256 (Compact_Serialize c ++ rest) = ReadOk c rest /\
  Request_Deserialize (Request_Serialize r ++ rest) = ReadOk r rest /\
  BlockTransactions_Deserialize (BlockTransactions_Serialize b ++ rest) = ReadOk b rest.
Proof. split_and!; [by apply compact_wire_roundtrip|by apply request_roundtrip|by apply response_roundtrip]. Qed.

(** C33: The decoders of the compact-block messages stay inside the message, with one exception: the decoders of requests and
    responses never read past the end of any input, and the decoder of compact blocks does so exactly when the version is at least
    4 and the message has between 144 and 151 bytes, where the nonce is read unchecked. *)
Theorem compact_decoders_bounds (SHA3_256 : list Z -> uint256) (data : list Z) :
  Request_Deserialize data <> ReadPastEnd /\ BlockTransactions_Deserialize data <> ReadPastEnd /\
  (Compact_Deserialize SHA3_256 data = ReadPastEnd <-> 4 <= i32 (le_val (take 4 data)) /\ 144 <= len data < 152).
Proof. split_and!; [apply request_inside|apply response_inside|apply compact_overread]. Qed.

(** ** Reconstruction *)

Lemma vtx_count_agrees data n rest : read_tx_count data = Ok (n, rest) -> vtx_count data = Some (n, rest).
Proof.
  unfold read_tx_count, vtx_count. destruct data as [|b data]; [done|]. destruct (b <? 253); [by intros [= <- <-]|].
  destruct (b =? 253); [destruct data as [|x [|y data]]; try done|destruct (b =? 254); [destruct data as [|x [|y [|z [|w data]]]]; try done|done]];
    intros [= <- <-]; cbn [length Nat.ltb Nat.leb seq foldl byte_at nth drop Z.of_nat Pos.of_succ_nat Pos.succ Z.mul];
    rewrite ?Z.lor_0_l, ?Z.shiftl_0_r; done.
Qed.
Lemma vtx_txs_agrees n : forall data txs rest, read_txs n data = Ok (txs, rest) -> vtx_txs n data = Some txs.
Proof.
  induction n as [|n IH]; intros data txs rest; cbn [read_txs vtx_txs]; [by intros [= <- _]|].
  destruct data as [|b data]; [done|]. destruct (Deserialize (b :: data) true) as [[tx k]|]; [|done].
  destruct (read_txs n _) as [[txs' r]|] eqn:E; [|done]. intros [= <- <-]. apply IH in E. by rewrite E.
Qed.
Lemma vtx_agrees vtx txs : DeserializeBlockTransactions vtx = Ok txs -> DeserializeTransactionsFromVtx vtx = Some txs.
Proof.
  unfold DeserializeBlockTransactions, DeserializeTransactionsFromVtx. destruct (read_tx_count vtx) as [[n data]|] eqn:E; [|done].
  apply vtx_count_agrees in E as ->. destruct (n =? 0); [done|]. destruct (n >? 100000); [done|].
  destruct (read_txs _ _) as [[l r]|] eqn:E2; [|done]. apply vtx_txs_agrees in E2. destruct (bool_decide _); [|done]. by intros [= <-].
Qed.

(** [l] holds some of the transactions [txs], each at its place. *)
Definition partial_of (txs : list CTransaction) (l : list (option CTransaction)) : Prop :=
  length l = length txs /\ forall i tx, l !! i = Some (Some tx) -> txs !! i = Some tx.

Lemma map_shortids_entries ids : forall (all : list Z) (a : nat) (m : gmap Z Z), (1 <= a)%nat -> (a + length ids <= 2 ^ 16)%nat ->
  (forall k, ids !! k = all !! (a - 1 + k)%nat) ->
  (forall id j, m !! id = Some j -> 1 <= j /\ all !! (Z.to_nat j - 1)%nat = Some id) ->
  exists m', map_shortids {[ 0 ]} ids m (seq a (length ids)) = (true, m') /\
    forall id j, m' !! id = Some j -> 1 <= j /\ all !! (Z.to_nat j - 1)%nat = Some id.
Proof.
  change (2 ^ 16)%nat with (Z.to_nat 65536). induction ids as [|x ids IH]; intros all a m Ha Hlen Hall Hm; cbn [length seq map_shortids] in *.
  { by exists m. }
  assert (u16 (Z.of_nat a) = Z.of_nat a) as Hu by (apply u16_small; lia). rewrite Hu. rewrite decide_False by (rewrite elem_of_singleton; lia).
  apply (IH all (S a)); [lia|lia| |].
  - intros k. etrans; [exact (Hall (S k))|]. f_equal. lia.
  - intros id j [[<- <-]|[_ Hj]]%lookup_insert_Some; [|by apply Hm]. split; [lia|].
    rewrite Nat2Z.id. replace (a - 1)%nat with (a - 1 + 0)%nat by lia. symmetry. exact (Hall 0%nat).
Qed.

Lemma fill_partial SHA3_256 c m txs mempool : forall l, partial_of txs l ->
  (forall tx id j, tx ∈ mempool -> id = GetShortID SHA3_256 c (Tx_GetHash SHA3_256 tx) -> m !! id = Some j -> txs !! Z.to_nat j = Some tx) ->
  partial_of txs (fill_from_mempool SHA3_256 c m l mempool) /\
  forall i tx, l !! i = Some (Some tx) -> fill_from_mempool SHA3_256 c m l mempool !! i = Some (Some tx).
Proof.
  induction mempool as [|tx mempool IH]; intros l HP Hm; cbn [fill_from_mempool]; [done|].
  set (l' := match m !! _ with Some _ => _ | None => _ end).
  assert (partial_of txs l' /\ forall i t, l !! i = Some (Some t) -> l' !! i = Some (Some t)) as [HP' Hkeep].
  { unfold l'. destruct (m !! _) as [j|] eqn:EM; [|done]. destruct (l !! Z.to_nat j) as [[t|]|] eqn:EL; try done.
    pose proof (Hm tx _ j ltac:(left) eq_refl EM) as Hj. destruct HP as [HL HT]. split; [split|].
    - by rewrite length_insert.
    - intros i t [(<- & [= ->] & _)|[_ Hi]]%list_lookup_insert_Some; [done|by apply HT].
    - intros i t Hi. rewrite list_lookup_insert_ne; [done|]. intros <-. congruence. }
  destruct (IH l' HP') as [H1 H2]; [|split; [done|]].
  - intros t id j Ht. apply Hm. by right.
  - intros i t Hi. apply H2, Hkeep, Hi.
Qed.

Lemma place_txs_lookup txs pos : forall l, length l = length txs ->
  (forall i, i ∈ pos -> (Z.to_nat i < length txs)%nat) ->
  forall i, place_txs l pos (omap (fun i => txs !! Z.to_nat i) pos) !! i
    = if decide (i ∈ Z.to_nat <$> pos) then (fun tx => Some tx) <$> txs !! i else l !! i.
Proof.
  induction pos as [|j pos IH]; intros l HL Hin i; [done|].
  assert (Z.to_nat j < length txs)%nat as Hj by (apply Hin; left).
  destruct (lookup_lt_is_Some_2 txs (Z.to_nat j) Hj) as [tx Htx]. cbn [omap list_omap fmap list_fmap]. rewrite Htx. cbn [place_txs].
  rewrite IH; [|by rewrite length_insert|intros k Hk; apply Hin; by right].
  destruct (decide (i ∈ Z.to_nat <$> pos)) as [Hi|Hi].
  - rewrite decide_True; [done|by right].
  - destruct (decide (i = Z.to_nat j)) as [->|Hne].
    + rewrite decide_True by left. rewrite list_lookup_insert_eq by lia. by rewrite Htx.
    + rewrite decide_False by (rewrite elem_of_cons; tauto). by rewrite list_lookup_insert_ne.
Qed.

Lemma missing_elem l i : i ∈ missing_positions l <-> l !! i = Some None.
Proof.
  unfold missing_positions. rewrite list_elem_of_filter, elem_of_seq. split; [tauto|]. intros Hi. split; [done|].
  apply lookup_lt_Some in Hi. lia.
Qed.

Lemma omap_length {A B} (f : A -> option B) l : (forall x, x ∈ l -> is_Some (f x)) -> length (omap f l) = length l.
Proof.
  induction l as [|x l IH]; intros H; [done|]. cbn. destruct (H x ltac:(left)) as [y ->]. cbn. f_equal. apply IH. intros z Hz. apply H. by right.
Qed.

(** Filling the gaps with the right transactions completes the list. *)
Lemma fill_completes txs p : partial_of txs (txn_available p) -> (length txs <= 2 ^ 16)%nat ->
  FillMissingTxs p (omap (fun i => txs !! Z.to_nat i) (GetMissingTxIndices p))
  = (RS_OK, mkPartial (is_initialized p) (pd_header p) (Some <$> txs) (shortid_to_index p) (prefilled_indices p)).
Proof.
  change (2 ^ 16)%nat with (Z.to_nat 65536). intros [HL HT] Hn. unfold FillMissingTxs.
  assert (GetMissingTxIndices p = Z.of_nat <$> missing_positions (txn_available p)) as Hidx.
  { unfold GetMissingTxIndices. apply list_fmap_ext. intros k i Hi%list_elem_of_lookup_2. apply u16_small.
    apply missing_elem, lookup_lt_Some in Hi. lia. }
  assert (forall i, i ∈ GetMissingTxIndices p -> (Z.to_nat i < length txs)%nat) as Hrange.
  { rewrite Hidx. intros i (k & -> & Hk%missing_elem%lookup_lt_Some)%list_elem_of_fmap. lia. }
  rewrite omap_length by (intros i Hi; apply lookup_lt_is_Some_2, Hrange, Hi). rewrite Nat.eqb_refl. cbn [negb]. do 2 f_equal.
  apply list_eq. intros i. rewrite place_txs_lookup by done. rewrite list_lookup_fmap.
  destruct (decide (i ∈ Z.to_nat <$> GetMissingTxIndices p)) as [Hi|Hi]; [done|].
  destruct (txn_available p !! i) as [[tx|]|] eqn:E.
  - by rewrite (HT i tx E).
  - destruct Hi. rewrite Hidx, <- list_fmap_compose. apply list_elem_of_fmap. exists i. split; [cbn; lia|by apply missing_elem].
  - apply lookup_ge_None in E. by rewrite lookup_ge_None_2 by lia.
Qed.

Lemma merkle_from_txs SHA3_256 txs : BuildMerkleRootFromTxs SHA3_256 (Some <$> txs) = BuildMerkleRoot SHA3_256 txs.
Proof. unfold BuildMerkleRootFromTxs, BuildMerkleRoot. destruct txs as [|tx txs]; [done|]. by rewrite <- list_fmap_compose. Qed.
Lemma vtx_from_txs txs : SerializeTransactionsToVtx (Some <$> txs) = SerializeBlockTransactions txs.
Proof. unfold SerializeTransactionsToVtx, SerializeBlockTransactions, len. by rewrite length_fmap, <- list_fmap_compose. Qed.

(** A list with no gap. *)
Lemma no_gap (l : list (option CTransaction)) : filter (fun o => o = None) l = [] -> exists txs, l = Some <$> txs.
Proof.
  induction l as [|[tx|] l IH]; [by exists []| |done]. rewrite filter_cons_False by done. intros [txs ->]%IH. by exists (tx :: txs).
Qed.
Lemma filter_full (txs : list CTransaction) : filter (fun o : option CTransaction => o = None) (Some <$> txs) = [].
Proof. induction txs as [|tx txs IH]; [done|]. cbn [fmap list_fmap]. by rewrite filter_cons_False. Qed.

(** What a rebuilt block is: the transactions of its body have the merkle root of its header. *)
Lemma GetBlock_sound SHA3_256 p b : GetBlock SHA3_256 p = Some b ->
  exists txs, txn_available p = Some <$> txs /\ vtx b = SerializeBlockTransactions txs /\
    BuildMerkleRoot SHA3_256 txs = hashMerkleRoot (block_header b).
Proof.
  unfold GetBlock, GetMissingTxCount. destruct (negb _); [done|]. destruct (len _ >? 0) eqn:EM; [done|]. zprop.
  case_bool_decide as HM; [done|]. intros [= <-]. destruct (no_gap (txn_available p)) as [txs HE].
  { destruct (filter _ (txn_available p)) as [|o l]; [done|]. unfold len in EM. cbn [length] in EM. lia. }
  exists txs. rewrite HE in *. rewrite merkle_from_txs in HM. split_and!; [done|by rewrite vtx_from_txs|done].
Qed.

Lemma wire_eta h vo vp : wire_header h -> vo = vdfOutput h -> vp = vdfProofHash h ->
  mkHeader (nVersion h) (hashPrevBlock h) (hashMerkleRoot h) (hnTime h) (hnBits h) (nNonce h) vo vp zero256 false = h.
Proof. intros (_ & _ & _ & _ & _ & _ & _ & H1 & H2) -> ->. destruct h. cbn in *. by subst. Qed.

Lemma GetBlock_full SHA3_256 txs p : txn_available p = Some <$> txs -> is_initialized p = true -> wire_header (pd_header p) ->
  hashMerkleRoot (pd_header p) = BuildMerkleRoot SHA3_256 txs ->
  GetBlock SHA3_256 p = Some (mkBlock (pd_header p) (SerializeBlockTransactions txs)).
Proof.
  intros HE HI HW HM. unfold GetBlock, GetMissingTxCount. rewrite HI, HE, filter_full, merkle_from_txs, vtx_from_txs, HM. cbn [negb].
  change (len [] >? 0) with false. rewrite bool_decide_eq_false_2 by (intros Hn; by apply Hn). do 2 f_equal.
  rewrite <- HM. by apply wire_eta.
Qed.

Section Reconstruct.
  Variable SHA3_256 : list Z -> uint256.
  Variable nonce : Z.
  Variable h : CBlockHeader.
  Variable coinbase : CTransaction.
  Variable txs : list CTransaction.
  Hypothesis Hh : wire_header h.
  Hypothesis Htxs : Forall tx_wf (coinbase :: txs).
  Hypothesis Hcount : (length (coinbase :: txs) <= 2 ^ 16)%nat.

Let block := mkBlock h (SerializeBlockTransactions (coinbase :: txs)).
Let c := new_compact SHA3_256 nonce block.

Lemma count_range : 1 <= len (coinbase :: txs) <= 65536.
Proof. change (2 ^ 16)%nat with (Z.to_nat 65536) in Hcount. unfold len. cbn [length] in *. lia. Qed.

Lemma compact_shape : cb_header c = h /\ prefilledtxn c = [mkPrefilled 0 coinbase] /\
  shorttxids c = (fun tx => GetShortID SHA3_256 c (Tx_GetHash SHA3_256 tx)) <$> txs.
Proof.
  assert (DeserializeTransactionsFromVtx (vtx block) = Some (coinbase :: txs)) as HD.
  { apply vtx_agrees. pose proof count_range. unfold block, DeserializeBlockTransactions, SerializeBlockTransactions. cbn [vtx].
    rewrite read_tx_count_ok by lia. destruct (len (coinbase :: txs) =? 0) eqn:E0; zprop; [lia|].
    destruct (_ >? 100000) eqn:E1; zprop; [lia|]. unfold len at 1.
    rewrite Nat2Z.id, <- (app_nil_r (concat _)), read_txs_ok by done. done. }
  unfold c, new_compact. rewrite HD. destruct (FillShortTxIDSelector _ _ _) as [k0 k1]. cbn.
  split_and!; [|done|by apply list_fmap_ext]. pose proof Hh as (_ & _ & _ & _ & _ & _ & HV & _).
  apply wire_eta; [done| |]; destruct (nVersion h >=? 4); [done|by destruct HV|done|by destruct HV].
Qed.

(** No transaction of the pool has the short id of another transaction of the block. *)
Definition no_false_match (mempool : list CTransaction) : Prop :=
  forall m tx, m ∈ mempool -> tx ∈ txs ->
    GetShortID SHA3_256 c (Tx_GetHash SHA3_256 m) = GetShortID SHA3_256 c (Tx_GetHash SHA3_256 tx) -> m = tx.

Lemma InitData_partial mempool : no_false_match mempool ->
  let '(status, p) := InitData SHA3_256 new_PartiallyDownloadedBlock c mempool in
  (status = RS_OK /\ GetMissingTxCount p = 0 \/ status = RS_EXTRA_TXN) /\ is_initialized p = true /\ pd_header p = h /\
  partial_of (coinbase :: txs) (txn_available p) /\ txn_available p !! 0%nat = Some (Some coinbase).
Proof.
  intros HF. destruct compact_shape as (Ehd & Epf & Eid). pose proof count_range as HR. clear Hcount. unfold InitData, Compact_IsValid.
  rewrite Ehd, Epf. assert (length (shorttxids c) = length txs) as Elen by (by rewrite Eid, length_fmap).
  unfold len in *. rewrite Elen. cbn [length] in *. destruct (_ >? 100000) eqn:E1; zprop; [lia|].
  destruct (Z.of_nat 1 >? _) eqn:E2; zprop; [lia|]. cbn [forallb pf_index]. destruct (0 >? _) eqn:E3; zprop; [lia|]. cbn [negb andb].
  cbn [place_prefilled pf_index pf_tx]. destruct (0 >=? _) eqn:E4; zprop; [lia|]. cbn [negb].
  rewrite Nat.add_1_r. cbn [seq map_shortids]. change (prefilled_indices new_PartiallyDownloadedBlock) with (∅ : gset Z).
  change (u16 (Z.of_nat 0)) with 0. rewrite (union_empty_r_L {[ 0 ]}). rewrite decide_True by set_solver.
  destruct (map_shortids_entries (shorttxids c) (shorttxids c) 1 ∅) as (m & EM & Hm);
    [lia|change (2 ^ 16)%nat with (Z.to_nat 65536); lia|intros k; f_equal|intros id j Hj; by rewrite lookup_empty in Hj|].
  change (shortid_to_index new_PartiallyDownloadedBlock) with (∅ : gmap Z Z). rewrite Elen in EM. rewrite EM. cbn [negb].
  change (resize (txn_available new_PartiallyDownloadedBlock) (S (length txs))) with (@None CTransaction :: replicate (length txs) None).
  change (<[Z.to_nat 0 := Some coinbase]> (None :: replicate (length txs) None)) with (Some coinbase :: replicate (length txs) None).
  destruct (fill_partial SHA3_256 c m (coinbase :: txs) mempool (Some coinbase :: replicate (length txs) None)) as [HP HK].
  - split; [cbn; by rewrite length_replicate|]. intros [|i] tx; cbn; [by intros [= <-]|]. intros Hi. apply lookup_replicate in Hi as [? _]. done.
  - intros tx id j Htx Hid Hj. apply Hm in Hj as [Hj1 Hj]. replace (Z.to_nat j) with (S (Z.to_nat j - 1)) by lia.
    change (txs !! (Z.to_nat j - 1)%nat = Some tx).
    rewrite Eid in Hj. apply list_lookup_fmap_Some in Hj as (t & HE & Ht). rewrite Ht. f_equal. symmetry.
    apply HF; [done|by eapply list_elem_of_lookup_2|by rewrite <- Hid, HE].
  - cbn [is_initialized pd_header txn_available].
    split_and!; [|done|done|apply HP|by apply HK].
    destruct (GetMissingTxCount _ >? 0) eqn:EG; zprop; [by right|left]. split; [done|].
    unfold GetMissingTxCount, len in *. lia.
Qed.
End Reconstruct.

(** C32: Compact block relay delivers the block.  For every block of at most 65,536 well-formed transactions whose header carries their
    merkle root, for every nonce and every memory pool in which no transaction has the short id of a different transaction of the
    block: the receiver initialises, and, once the transactions at the positions it lists as missing are supplied, obtains exactly
    the block; if it lists none, it obtains it at once. *)
Theorem compact_block_delivers (SHA3_256 : list Z -> uint256) (nonce : Z) (h : CBlockHeader) (coinbase : CTransaction)
    (txs mempool : list CTransaction) (Hh : wire_header h) (Htxs : Forall tx_wf (coinbase :: txs))
    (Hcount : (length (coinbase :: txs) <= 2 ^ 16)%nat) (Hroot : hashMerkleRoot h = BuildMerkleRoot SHA3_256 (coinbase :: txs))
    (Hpool : no_false_match SHA3_256 nonce h coinbase txs mempool) :
  let block := mkBlock h (SerializeBlockTransactions (coinbase :: txs)) in
  let '(status, p) := InitData SHA3_256 new_PartiallyDownloadedBlock (new_compact SHA3_256 nonce block) mempool in
  let '(status', p') := FillMissingTxs p (omap (fun i => (coinbase :: txs) !! Z.to_nat i) (GetMissingTxIndices p)) in
  (status = RS_OK /\ GetBlock SHA3_256 p = Some block \/ status = RS_EXTRA_TXN) /\
  status' = RS_OK /\ GetBlock SHA3_256 p' = Some block.
Proof.
  cbv zeta. pose proof (InitData_partial SHA3_256 nonce h coinbase txs Hh Htxs Hcount mempool Hpool) as HI.
  destruct (InitData _ _ _ mempool) as [status p]. destruct HI as (Hst & Hinit & Hhd & HP & _).
  pose proof (fill_completes (coinbase :: txs) p HP Hcount) as HF. rewrite HF. split; [|split; [done|]].
  - destruct Hst as [[-> Hnone]| ->]; [left|by right]. split; [done|].
    destruct (no_gap (txn_available p)) as [l Hl].
    { unfold GetMissingTxCount, len in Hnone. apply length_zero_iff_nil. lia. }
    assert (l = coinbase :: txs) as ->.
    { destruct HP as [HL HT]. rewrite Hl in HL, HT. rewrite length_fmap in HL. apply list_eq_same_length with (n := length l); [done|done|].
      intros i x y Hi Hx Hy. specialize (HT i x). rewrite list_lookup_fmap, Hx in HT. specialize (HT eq_refl). congruence. }
    rewrite <- Hhd in *. by apply GetBlock_full.
  - subst h. exact (GetBlock_full SHA3_256 (coinbase :: txs)
      (mkPartial (is_initialized p) (pd_header p) (Some <$> coinbase :: txs) (shortid_to_index p) (prefilled_indices p)) eq_refl Hinit Hh Hroot).
Qed.

(** ** Concrete messages *)

Definition demo_sha3 (data : list Z) : uint256 := le_bytes 32 (le_val data mod 1000003 + 1).
Definition demo_tx (n : Z) : CTransaction := mkTx 1 (vin sample_tx) (vout sample_tx) n.
Definition demo_pool : list CTransaction := [demo_tx 9; demo_tx 2].
Definition demo_compact_header : CBlockHeader :=
  mkHeader 4 (le_bytes 32 7) (BuildMerkleRoot demo_sha3 [demo_tx 1; demo_tx 2; demo_tx 3]) 11 12 13 (le_bytes 32 14) (le_bytes 32 15) zero256 false.
Definition demo_compact : CBlockHeaderAndShortTxIDs :=
  new_compact demo_sha3 77 (mkBlock demo_compact_header (SerializeBlockTransactions [demo_tx 1; demo_tx 2; demo_tx 3])).
Lemma demo_tx_wf n : 0 <= n < 2 ^ 32 -> tx_wf (demo_tx n).
Proof. intros Hn. pose proof sample_tx_wf as HW. unfold tx_wf, demo_tx in *. cbn [nVersion vin vout nLockTime] in *. repeat split; try apply HW; lia. Qed.
Definition demo_id (tx : CTransaction) : Z := GetShortID demo_sha3 demo_compact (Tx_GetHash demo_sha3 tx).
Lemma demo_ids (f : uint256 -> Z) :
  f = GetShortID demo_sha3 (new_compact demo_sha3 77
        (mkBlock demo_compact_header (SerializeBlockTransactions [demo_tx 1; demo_tx 2; demo_tx 3]))) ->
  f (Tx_GetHash demo_sha3 (demo_tx 9)) <> f (Tx_GetHash demo_sha3 (demo_tx 2)) /\
  f (Tx_GetHash demo_sha3 (demo_tx 9)) <> f (Tx_GetHash demo_sha3 (demo_tx 3)) /\
  f (Tx_GetHash demo_sha3 (demo_tx 2)) <> f (Tx_GetHash demo_sha3 (demo_tx 3)).
Proof. intros ->. vm_compute. split_and!; discriminate. Qed.

Lemma demo_no_false_match : no_false_match demo_sha3 77 demo_compact_header (demo_tx 1) [demo_tx 2; demo_tx 3] demo_pool.
Proof.
  unfold no_false_match. destruct (demo_ids _ eq_refl) as (H1 & H2 & H3). revert H1 H2 H3.
  generalize (GetShortID demo_sha3 (new_compact demo_sha3 77
    (mkBlock demo_compact_header (SerializeBlockTransactions [demo_tx 1; demo_tx 2; demo_tx 3])))). intros f H1 H2 H3 m tx Hm Htx.
  unfold demo_pool in Hm. rewrite !elem_of_cons, elem_of_nil in Hm, Htx.
  destruct Hm as [->|[->|[]]]; destruct Htx as [->|[->|[]]]; intros HE; first [by destruct H1 | by destruct H2 | by destruct H3 | reflexivity].
Qed.

Lemma compact_block_delivers_witness :
  let block := mkBlock demo_compact_header (SerializeBlockTransactions [demo_tx 1; demo_tx 2; demo_tx 3]) in
  let '(status, p) := InitData demo_sha3 new_PartiallyDownloadedBlock demo_compact demo_pool in
  let '(status', p') := FillMissingTxs p (omap (fun i => [demo_tx 1; demo_tx 2; demo_tx 3] !! Z.to_nat i) (GetMissingTxIndices p)) in
  (status = RS_OK /\ GetBlock demo_sha3 p = Some block \/ status = RS_EXTRA_TXN) /\ status' = RS_OK /\ GetBlock demo_sha3 p' = Some block.
Proof.
  apply (compact_block_delivers demo_sha3 77 demo_compact_header (demo_tx 1) [demo_tx 2; demo_tx 3] demo_pool).
  - unfold wire_header, demo_compact_header. cbn [nVersion hashPrevBlock hashMerkleRoot hnTime hnBits nNonce vdfOutput vdfProofHash cachedHash fHashCached].
    split_and!; try lia; try reflexivity; vm_compute; split; reflexivity.
  - repeat (apply Forall_cons; split; [apply demo_tx_wf; lia|]). apply Forall_nil. exact I.
  - apply Nat.leb_le. vm_compute. reflexivity.
  - reflexivity.
  - exact demo_no_false_match.
Defined.

(** The receiver asks for the one transaction its pool lacks. *)
Example demo_missing :
  let '(status, p) := InitData demo_sha3 new_PartiallyDownloadedBlock demo_compact demo_pool in
  status = RS_EXTRA_TXN /\ GetMissingTxIndices p = [2].
Proof. vm_compute. split; reflexivity. Qed.

Lemma ids_ok_check l : forallb (fun id => (0 <=? id) && (id <? 2 ^ 48)) l = true -> Forall (fun id => 0 <= id < 2 ^ 48) l.
Proof. intros H. apply Forall_forall. intros x Hx%list_elem_of_In. rewrite forallb_forall in H. specialize (H x Hx). zprop. lia. Qed.

Lemma compact_messages_roundtrip_witness :
  Compact_Deserialize demo_sha3 (Compact_Serialize demo_compact ++ [1]) = ReadOk demo_compact [1] /\
  Request_Deserialize (Request_Serialize (mkBTRequest (le_bytes 32 5) [7; 3; 65535]) ++ [1]) = ReadOk (mkBTRequest (le_bytes 32 5) [7; 3; 65535]) [1] /\
  BlockTransactions_Deserialize (BlockTransactions_Serialize (mkBT (le_bytes 32 5) [demo_tx 2]) ++ [1]) = ReadOk (mkBT (le_bytes 32 5) [demo_tx 2]) [1].
Proof.
  apply compact_messages_roundtrip.
  - refine (conj _ (conj _ (conj _ (conj _ (conj _ (conj _ _)))))); [|vm_compute; split; congruence|vm_compute; congruence| |vm_compute; reflexivity| |vm_compute; reflexivity].
    + vm_compute. repeat split; (reflexivity || congruence).
    + apply ids_ok_check. vm_compute. reflexivity.
    + assert (prefilledtxn demo_compact = [mkPrefilled 0 (demo_tx 1)]) as -> by (vm_compute; reflexivity). apply Forall_cons. split; [split; [cbn; lia|apply demo_tx_wf; lia]|by apply Forall_nil].
  - split_and!; [reflexivity|vm_compute; congruence|]. repeat (apply Forall_cons; split; [lia|]). by apply Forall_nil.
  - split_and!; [reflexivity|vm_compute; congruence|]. repeat (apply Forall_cons; split; [apply demo_tx_wf; lia|]). by apply Forall_nil.
Defined.

(** A header-only message of version 4 without room for the nonce. *)
Example nonce_read_past_end : Compact_Deserialize demo_sha3 (le_bytes 4 4 ++ replicate 140 0) = ReadPastEnd.
Proof. vm_compute. reflexivity. Qed.

(** A compact block with every transaction prefilled is refused. *)
Example all_prefilled_refused :
  Compact_IsValid (mkCompact demo_compact_header 0 [] [mkPrefilled 0 (demo_tx 1); mkPrefilled 1 (demo_tx 2)] 1 1) = false.
Proof. vm_compute. reflexivity. Qed.

(** A pool transaction whose short id is that of another transaction is accepted in its place, and the block is lost. *)
Example false_match_loses_block :
  let c := mkCompact demo_compact_header 77 [demo_id (demo_tx 9); demo_id (demo_tx 3)] [mkPrefilled 0 (demo_tx 1)]
             (shorttxidk0 demo_compact) (shorttxidk1 demo_compact) in
  let '(status, p) := InitData demo_sha3 new_PartiallyDownloadedBlock c [demo_tx 9; demo_tx 3] in
  status = RS_OK /\ GetBlock demo_sha3 p = None.
Proof. vm_compute. split; reflexivity. Qed.
