(* ===== verification/ForkManager.v ===== *)
(** * Staging a competing fork (node/fork_candidate.h, node/fork_manager, node/block_processing.cpp)

    While a fork is being fetched its blocks are collected by height,
    pre-validated (structure, proof of work, difficulty of the first block,
    identity signature with a cache of the fork's own registrations) and the
    chain is switched through [ActivateBestChain] once every received block is
    pre-validated and the fork is taken to have more work.  The candidate is
    shared by pointer and mutated in place; it is the state here, and the
    pointer to a block is its height.  The headers manager is an argument, its
    invalidations are notices; [steady_clock] is in nanoseconds. *)

From S2P Require Import Prelude Uint256 ChainParams Block BlockIndex Difficulty Transaction BlockTxs UtxoStore UtxoBlock.
From S2P Require Import Dfmp Mik IdentityDb DfmpPow Cooldown VdfValidation ChainState Doubles Mempool BlockStorage ReorgWal TipUpdate Activation.
From S2P Require Import BlockTracker.

(** ** The candidate *)

Inductive ForkBlockStatus : Set := PENDING | POW_VALID | PREVALIDATED | FORK_INVALID.
#[export] Instance ForkBlockStatus_eq_dec : EqDecision ForkBlockStatus.
Proof. solve_decision. Defined.

Inductive InvalidReason : Set := BadStructure | BadProofOfWork | WrongDifficulty | BadMIK.

Record ForkBlock := mkForkBlock {
  fb_block : CBlock;
  fb_hash : uint256;
  fb_height : Z;
  fb_status : ForkBlockStatus;
  invalidReason : option InvalidReason
}.
Definition new_ForkBlock (block : CBlock) (hash : uint256) (height : Z) : ForkBlock := mkForkBlock block hash height PENDING None.
Definition set_status (b : ForkBlock) (st : ForkBlockStatus) (r : option InvalidReason) : ForkBlock :=
  mkForkBlock (fb_block b) (fb_hash b) (fb_height b) st r.

Record ForkCandidate := mkCandidate {
  m_forkId : uint256;
  m_forkPointHeight : Z;
  m_expectedTipHeight : Z;
  m_blocks : gmap Z ForkBlock;
  m_expectedHashes : gmap Z uint256;
  m_forkIdentities : gmap Identity (list Z);
  m_hashMismatchCount : Z;
  m_lastBlockTime : Z
}.
Definition new_ForkCandidate (now : Z) (forkTipHash : uint256) (forkPointHeight expectedTipHeight : Z) (expectedHashes : gmap Z uint256)
  : ForkCandidate := mkCandidate forkTipHash forkPointHeight expectedTipHeight ∅ expectedHashes ∅ 0 now.

Definition set_blocks (f : ForkCandidate) (b : gmap Z ForkBlock) (now : Z) : ForkCandidate :=
  mkCandidate (m_forkId f) (m_forkPointHeight f) (m_expectedTipHeight f) b (m_expectedHashes f) (m_forkIdentities f)
    (m_hashMismatchCount f) now.

Definition in_fork_range (f : ForkCandidate) (height : Z) : bool :=
  (height >? m_forkPointHeight f) && (height <=? m_expectedTipHeight f).

Definition IsExpectedBlock (f : ForkCandidate) (hash : uint256) (height : Z) : bool :=
  if negb (in_fork_range f height) then false
  else if bool_decide (m_expectedHashes f = ∅) then true
  else match m_expectedHashes f !! height with None => true | Some h => bool_decide (h = hash) end.

Definition Fork_AddBlock (f : ForkCandidate) (now : Z) (block : CBlock) (hash : uint256) (height : Z) : bool * ForkCandidate :=
  if negb (in_fork_range f height) then (false, f)
  else if bool_decide (is_Some (m_blocks f !! height)) then (true, f)
  else (true, set_blocks f (<[height := new_ForkBlock block hash height]> (m_blocks f)) now).

Definition HasAllBlocks (f : ForkCandidate) : bool :=
  Z.of_nat (size (m_blocks f)) >=? m_expectedTipHeight f - m_forkPointHeight f.

Definition all_prevalidated (f : ForkCandidate) : bool :=
  forallb (fun e => bool_decide (fb_status e.2 = PREVALIDATED)) (map_ordered (m_blocks f)).
Definition AllReceivedBlocksPrevalidated (f : ForkCandidate) : bool :=
  if bool_decide (m_blocks f = ∅) then false else all_prevalidated f.

Definition GetHighestPrevalidatedHeight (f : ForkCandidate) : Z :=
  foldl (fun highest e => if bool_decide (fb_status e.2 = PREVALIDATED) && (e.1 >? highest) then e.1 else highest) (-1)
    (map_ordered (m_blocks f)).

(** [60 + (blocks_needed / 10) * 5] seconds, at most 600. *)
Definition GetTimeoutSeconds (f : ForkCandidate) : Z :=
  Z.min 600 (i32 (60 + Z.quot (i32 (m_expectedTipHeight f - m_forkPointHeight f)) 10 * 5)).
Definition IsTimedOut (f : ForkCandidate) (now : Z) : bool :=
  Z.quot (now - m_lastBlockTime f) 1000000000 >=? GetTimeoutSeconds f.

Definition UpdateExpectedHash (f : ForkCandidate) (height : Z) (newHash : uint256) : ForkCandidate :=
  match m_expectedHashes f !! height with
  | None => f
  | Some _ =>
      mkCandidate (m_forkId f) (m_forkPointHeight f) (m_expectedTipHeight f) (m_blocks f) (<[height := newHash]> (m_expectedHashes f))
        (m_forkIdentities f) (m_hashMismatchCount f) (m_lastBlockTime f)
  end.
Definition TouchLastBlockTime (f : ForkCandidate) (now : Z) : ForkCandidate := set_blocks f (m_blocks f) now.

Definition MAX_HASH_MISMATCHES : Z := 10.
Definition RecordHashMismatch (f : ForkCandidate) : ForkCandidate :=
  mkCandidate (m_forkId f) (m_forkPointHeight f) (m_expectedTipHeight f) (m_blocks f) (m_expectedHashes f) (m_forkIdentities f)
    (i32 (m_hashMismatchCount f + 1)) (m_lastBlockTime f).
Definition HasExcessiveHashMismatches (f : ForkCandidate) : bool := m_hashMismatchCount f >=? MAX_HASH_MISMATCHES.

Definition AddForkIdentity (f : ForkCandidate) (identity : Identity) (pubkey : list Z) : ForkCandidate :=
  mkCandidate (m_forkId f) (m_forkPointHeight f) (m_expectedTipHeight f) (m_blocks f) (m_expectedHashes f)
    (<[identity := pubkey]> (m_forkIdentities f)) (m_hashMismatchCount f) (m_lastBlockTime f).

(** ** The manager *)

Definition CreateForkCandidate (activeFork : option ForkCandidate) (now : Z) (forkTipHash : uint256)
    (currentChainHeight forkPointHeight expectedTipHeight : Z) (expectedHashes : gmap Z uint256) : bool * option ForkCandidate :=
  match activeFork with
  | Some f => (false, Some f)
  | None =>
      if (forkPointHeight <? 0) || (expectedTipHeight <=? forkPointHeight) then (false, None)
      else (true, Some (new_ForkCandidate now forkTipHash forkPointHeight expectedTipHeight expectedHashes))
  end.
Definition CancelFork (activeFork : option ForkCandidate) : option ForkCandidate := None.
Definition IsBlockForActiveFork (activeFork : option ForkCandidate) (height : Z) : bool :=
  match activeFork with None => false | Some f => in_fork_range f height end.
Definition AddBlockToFork (activeFork : option ForkCandidate) (now : Z) (block : CBlock) (hash : uint256) (height : Z)
  : bool * option ForkCandidate :=
  match activeFork with
  | None => (false, None)
  | Some f => let '(ok, f) := Fork_AddBlock f now block hash height in (ok, Some f)
  end.
Definition CheckTimeout (activeFork : option ForkCandidate) (now : Z) : bool :=
  match activeFork with None => false | Some f => IsTimedOut f now end.
Definition ClearInFlightState (tracker : option CBlockTracker) (forkPointHeight : Z) : option CBlockTracker :=
  (fun t => snd (ClearAboveHeight t forkPointHeight)) <$> tracker.

(** What the fork code uses of the headers manager. *)
Record HeadersView := mkHeadersView { GetHeightForHash' : uint256 -> Z; GetRandomXHashAtHeight : Z -> uint256 }.

Section Fork.
  Context {D F X : Type} `{LDB : LevelDB D} `{WD : WalDisk F}.
  Variable SHA3_256 : list Z -> uint256.
  Variable randomx_hash_fast : list Z -> uint256.
  Variable dilithium_verify : list Z -> list Z -> list Z -> Z.
  Variable seedPubkeys : list (list Z).
  Variable system_clock steady_clock : nat -> Z.
  Variable connect_callbacks disconnect_callbacks : list (CBlock -> Z -> uint256 -> Observed D X -> Observed D X).
  Implicit Types n : Node D F X.

Definition ValidatePoW (block : CBlock) (hash : uint256) : bool :=
  if IsVDFBlock (block_header block) then true else CheckProofOfWork hash (hnBits (block_header block)).

Definition ValidateBlockStructure (now : Z) (block : CBlock) : bool :=
  if bool_decide (vtx block = []) then false
  else if IsNull (hashPrevBlock (block_header block)) then false
  else negb (hnTime (block_header block) >? now + 7200).

(** The key a fork block's signature is checked with. *)
Inductive ForkKey : Type := ForkKeyFound (pk : list Z) | ForkKeyMismatch | ForkNoDatabase | ForkKeyUnknown.

Definition fork_key n (fork : option ForkCandidate) (mik : CMIKScriptData) : ForkKey * option ForkCandidate * Node D F X :=
  if isRegistration mik then
    if bool_decide (DeriveIdentityFromMIK SHA3_256 (mik_pubkey mik) <> mik_identity mik) then (ForkKeyMismatch, fork, n)
    else (ForkKeyFound (mik_pubkey mik), (fun f => AddForkIdentity f (mik_identity mik) (mik_pubkey mik)) <$> fork, n)
  else
    match f ← fork; m_forkIdentities f !! mik_identity mik with
    | Some pk => (ForkKeyFound pk, fork, n)
    | None =>
        match env_identityDb (n_env n) with
        | None => (ForkNoDatabase, fork, n)
        | Some db =>
            let '(k, db) := GetMIKPubKey db (mik_identity mik) in
            (match k with Some pk => ForkKeyFound pk | None => ForkKeyUnknown end, fork, set_idb n (Some db))
        end
    end.

(** [None]: [coinbaseTx.vin[0]] of a coinbase without inputs. *)
Definition ValidateMIK n (fork : option ForkCandidate) (block : CBlock) (height : Z) : option (bool * option ForkCandidate * Node D F X) :=
  if height <? node_param n dfmpActivationHeight 0 then Some (true, fork, n)
  else
    let assume := node_param n dfmpAssumeValidHeight 0 in
    if (assume >? 0) && (height <=? assume) then Some (true, fork, n)
    else
      match DeserializeBlockTransactions (vtx block) with
      | Err _ | Ok [] => Some (false, fork, n)
      | Ok (coinbaseTx :: _) =>
          match vin coinbaseTx with
          | [] => None
          | txin :: _ =>
              match ParseMIKFromScriptSig SHA3_256 (scriptSig txin) with
              | None => Some (false, fork, n)
              | Some mik =>
                  let '(key, fork, n) := fork_key n fork mik in
                  match key with
                  | ForkKeyMismatch | ForkNoDatabase => Some (false, fork, n)
                  | ForkKeyUnknown => Some (true, fork, n)
                  | ForkKeyFound pubkey =>
                      if bool_decide (pubkey = []) then Some (true, fork, n)
                      else Some (VerifyMIKSignature SHA3_256 dilithium_verify pubkey (mik_signature mik)
                                   (hashPrevBlock (block_header block)) height (hnTime (block_header block)) (mik_identity mik), fork, n)
                  end
              end
          end
      end.

(** The difficulty of a block whose parent is on the active chain; [true] where the check is skipped. *)
Definition fork_nbits_ok n (fork : option ForkCandidate) (b : ForkBlock) : option bool :=
  let highestCheckpoint := node_param n GetHighestCheckpointHeight 0 in
  let forkPointHeight := match fork with Some f => m_forkPointHeight f | None => -1 end in
  let parentOnOurChain := (forkPointHeight <? 0) || (fb_height b <=? forkPointHeight + 1) in
  if (fb_height b >? highestCheckpoint) && parentOnOurChain then
    match tip n with
    | None => Some true
    | Some t =>
        bt ← deref n t;
        parent ← (if nHeight bt >=? fb_height b then GetAncestor (arena (n_chain n)) t (fb_height b - 1) else Some (Some t));
        match parent with
        | None => Some true
        | Some p =>
            bp ← deref n p;
            if nHeight bp =? fb_height b - 1 then
              expected ← GetNextWorkRequired (params n) (arena (n_chain n)) (Some p) (hnTime (block_header (fb_block b)));
              Some (hnBits (block_header (fb_block b)) =? expected)
            else Some true
        end
    end
  else Some true.

Definition PreValidateBlock n (fork : option ForkCandidate) (now : Z) (b : ForkBlock)
  : option (bool * ForkBlock * option ForkCandidate * Node D F X) :=
  let invalid r := Some (false, set_status b FORK_INVALID (Some r), fork, n) in
  if negb (ValidateBlockStructure now (fb_block b)) then invalid BadStructure
  else if negb (ValidatePoW (fb_block b) (fb_hash b)) then invalid BadProofOfWork
  else
    bits ← fork_nbits_ok n fork b;
    if negb bits then invalid WrongDifficulty
    else
      '(ok, fork, n) ← ValidateMIK n fork (fb_block b) (fb_height b);
      if negb (ok : bool) then Some (false, set_status b FORK_INVALID (Some BadMIK), fork, n)
      else Some (true, set_status b PREVALIDATED (invalidReason b), fork, n).

(** ** A block arrives (PHASE 1.5 of ProcessNewBlock) *)

Record ForkState := mkForkState {
  fs_fork : option ForkCandidate;
  fs_tracker : option CBlockTracker;
  fork_detected : bool;
  fs_invalidated : list uint256
}.

Inductive Staged : Set := NotForkBlock | ForkBlockStaged (preValidated : bool) | ForkBlockInvalid.

(** The pre-validation of the candidate's block at [height], in place. *)
Definition prevalidate_at n (f : ForkCandidate) (now height : Z) (b : ForkBlock) : option (bool * ForkCandidate * Node D F X) :=
  '(ok, b, fork, n) ← PreValidateBlock n (Some f) now b;
  f ← fork;
  Some (ok, set_blocks f (<[height := b]> (m_blocks f)) (m_lastBlockTime f), n).

Definition cancel_staging (s : ForkState) (forkPoint : Z) (invalidated : list uint256) : ForkState :=
  mkForkState (CancelFork (fs_fork s)) (ClearInFlightState (fs_tracker s) forkPoint) false (fs_invalidated s ++ invalidated).

Definition fork_block_height n (hv : option HeadersView) (prev : uint256) : option Z :=
  match GetBlockIndex (n_chain n) prev with
  | Some p => b ← deref n p; Some (i32 (nHeight b + 1))
  | None =>
      let fallback := i32 (GetHeight (n_chain n) + 1) in
      match hv with
      | None => Some fallback
      | Some v => if GetHeightForHash' v prev >=? 0 then Some (i32 (GetHeightForHash' v prev + 1)) else Some fallback
      end
  end.

Definition stage_fork_block n (hv : option HeadersView) (now steady : Z) (s : ForkState) (block : CBlock) (blockHash : uint256)
  : option (Staged * ForkState * Node D F X) :=
  match fs_fork s with
  | None => Some (NotForkBlock, s, n)
  | Some fork =>
      blockHeight ← fork_block_height n hv (hashPrevBlock (block_header block));
      if IsExpectedBlock fork blockHash blockHeight then
        let '(_, fork) := Fork_AddBlock fork steady block blockHash blockHeight in
        let with_fork f := mkForkState (Some f) (fs_tracker s) (fork_detected s) (fs_invalidated s) in
        match m_blocks fork !! blockHeight with
        | Some b =>
            if bool_decide (fb_status b = PENDING) then
              '(ok, fork, n) ← prevalidate_at n fork now blockHeight b;
              if negb (ok : bool) then
                Some (ForkBlockInvalid,
                      cancel_staging s (m_forkPointHeight fork) (if bool_decide (is_Some hv) then [blockHash] else []), n)
              else Some (ForkBlockStaged true, with_fork fork, n)
            else Some (ForkBlockStaged false, with_fork fork, n)
        | None => Some (ForkBlockStaged false, with_fork fork, n)
        end
      else if in_fork_range fork blockHeight then
        let fork := RecordHashMismatch fork in
        let fork :=
          match hv with
          | Some v =>
              let h := GetRandomXHashAtHeight v blockHeight in
              if IsNull h then fork else UpdateExpectedHash fork blockHeight h
          | None => fork
          end in
        if HasExcessiveHashMismatches fork then Some (NotForkBlock, cancel_staging s (m_forkPointHeight fork) [], n)
        else Some (NotForkBlock, mkForkState (Some fork) (fs_tracker s) (fork_detected s) (fs_invalidated s), n)
      else Some (NotForkBlock, s, n)
  end.

(** ** The switch *)

Inductive SwitchResult : Set := SwNoFork | SwNotPrevalidated | SwNoHeight | SwNoBlock | SwNoIndex | SwActivated (a : Activation).
Definition switch_result (r : SwitchResult) : bool := match r with SwActivated a => activation_result a | _ => false end.

Definition TriggerChainSwitch (useNewPath : bool) n (activeFork : option ForkCandidate)
  : option (SwitchResult * option ForkCandidate * Node D F X) :=
  match activeFork with
  | None => Some (SwNoFork, None, n)
  | Some fork =>
      if negb (AllReceivedBlocksPrevalidated fork) then Some (SwNotPrevalidated, activeFork, n)
      else
        let tipHeight := GetHighestPrevalidatedHeight fork in
        if tipHeight <? 0 then Some (SwNoHeight, activeFork, n)
        else
          match m_blocks fork !! tipHeight with
          | None => Some (SwNoBlock, activeFork, n)
          | Some tipBlock =>
              match GetBlockIndex (n_chain n) (fb_hash tipBlock) with
              | None => Some (SwNoIndex, activeFork, n)
              | Some p =>
                  '(a, n) ← ActivateBestChain SHA3_256 randomx_hash_fast dilithium_verify seedPubkeys system_clock steady_clock
                               connect_callbacks disconnect_callbacks useNewPath n (Some p) (fb_block tipBlock);
                  Some (SwActivated a, None, n)
              end
          end
  end.

(** [currentTip->nChainWork < forkIndex->nChainWork], with the order of the containers. *)
Definition fork_has_more_work n (fork : ForkCandidate) : option bool :=
  let highest := GetHighestPrevalidatedHeight fork in
  if highest >? 0 then
    match m_blocks fork !! highest with
    | None => Some false
    | Some b =>
        match GetBlockIndex (n_chain n) (fb_hash b), tip n with
        | Some p, Some t => bp ← deref n p; bt ← deref n t; Some (memcmp_lt (nChainWork bt) (nChainWork bp))
        | _, _ => Some false
        end
    end
  else Some false.

(** PHASE 7 for a fork block: the switch, when it is due. *)
Definition activate_fork (useNewPath : bool) n (s : ForkState) : option (option SwitchResult * ForkState * Node D F X) :=
  match fs_fork s with
  | None => Some (None, s, n)
  | Some fork =>
      more ← fork_has_more_work n fork;
      if AllReceivedBlocksPrevalidated fork && more then
        '(r, f, n) ← TriggerChainSwitch useNewPath n (Some fork);
        Some (Some r, mkForkState f (fs_tracker s) (if switch_result r then false else fork_detected s) (fs_invalidated s), n)
      else Some (None, s, n)
  end.
End Fork.

(** ** What staging guarantees *)

Section Staging.
  Context {D F X : Type} `{LDB : LevelDB D} `{WD : WalDisk F}.
  Variable SHA3_256 : list Z -> uint256.
  Variable randomx_hash_fast : list Z -> uint256.
  Variable dilithium_verify : list Z -> list Z -> list Z -> Z.
  Variable seedPubkeys : list (list Z).
  Variable system_clock steady_clock : nat -> Z.
  Variable connect_callbacks disconnect_callbacks : list (CBlock -> Z -> uint256 -> Observed D X -> Observed D X).
  Variable g_chainParams : option ChainParams.
  Hypothesis SHA3_wf : forall l, u256_wf (SHA3_256 l).
  Implicit Types n : Node D F X.

(** The key a reference is checked with: the one the fork registered, else the one of the identity database. *)
Definition known_key n (fork : option ForkCandidate) (id : Identity) : option (list Z) :=
  match f ← fork; m_forkIdentities f !! id with
  | Some pk => Some pk
  | None => db ← env_identityDb (n_env n); fst (GetMIKPubKey db id)
  end.

Definition signed_with (block : CBlock) (height : Z) (mik : CMIKScriptData) (pk : list Z) : Prop :=
  VerifyMIKSignature SHA3_256 dilithium_verify pk (mik_signature mik) (hashPrevBlock (block_header block)) height
    (hnTime (block_header block)) (mik_identity mik) = true.

(** The identity data of a fork block above the activation and assume-valid heights: it parses; a registration names the identity
    of the key it carries and is signed with it; a reference is signed with the known key of its identity.  A reference to an
    identity nobody knows is let through, but only when there is a database to look it up in; so is one whose known key is empty. *)
Definition mik_screened n (fork : option ForkCandidate) (block : CBlock) (height : Z) : Prop :=
  height < gp g_chainParams dfmpActivationHeight 0 \/ 0 < gp g_chainParams dfmpAssumeValidHeight 0 /\ height <= gp g_chainParams dfmpAssumeValidHeight 0 \/
  exists coinbase txs txin ins mik, DeserializeBlockTransactions (vtx block) = Ok (coinbase :: txs) /\ vin coinbase = txin :: ins /\
    ParseMIKFromScriptSig SHA3_256 (scriptSig txin) = Some mik /\
    if isRegistration mik then
      DeriveIdentityFromMIK SHA3_256 (mik_pubkey mik) = mik_identity mik /\ signed_with block height mik (mik_pubkey mik)
    else match known_key n fork (mik_identity mik) with
         | Some pk => pk = [] \/ signed_with block height mik pk
         | None => is_Some (env_identityDb (n_env n))
         end.

(** One screening: the node and the clock it was made with, and the candidate as it stood. *)
Record Screening := mkScreening { sg_node : Node D F X; sg_now : Z; sg_fork : ForkCandidate }.

Record screened (e : Screening) (b : ForkBlock) : Prop := {
  sc_body : vtx (fb_block b) <> [];
  sc_prev : IsNull (hashPrevBlock (block_header (fb_block b))) = false;
  sc_time : hnTime (block_header (fb_block b)) <= sg_now e + 7200;
  sc_pow : IsVDFBlock (block_header (fb_block b)) = true \/ CheckProofOfWork (fb_hash b) (hnBits (block_header (fb_block b))) = true;
  sc_bits : fork_nbits_ok (sg_node e) (Some (sg_fork e)) b = Some true;
  sc_mik : mik_screened (sg_node e) (Some (sg_fork e)) (fb_block b) (fb_height b)
}.

(** The blocks of a candidate, given the screenings made so far. *)
Record candidate_ok (log : list Screening) (f : ForkCandidate) : Prop := {
  ca_range : 0 <= m_forkPointHeight f < m_expectedTipHeight f;
  ca_blocks : forall h b, m_blocks f !! h = Some b ->
    m_forkPointHeight f < h <= m_expectedTipHeight f /\ fb_height b = h /\ bytes_ok (vtx (fb_block b)) /\
    (fb_status b = PREVALIDATED -> exists e, e ∈ log /\ m_forkPointHeight (sg_fork e) = m_forkPointHeight f /\ screened e b)
}.

Lemma candidate_ok_mono log e f : candidate_ok log f -> candidate_ok (log ++ e) f.
Proof.
  intros HC. split; [apply HC|]. intros h b Hb. destruct (ca_blocks _ _ HC h b Hb) as (H1 & H2 & H3 & H4). split_and!; [lia|lia|done|done|].
  intros Hs. destruct (H4 Hs) as (g & Hg & H5 & H6). exists g. split_and!; [by apply elem_of_app; left|done|done].
Qed.

Lemma ValidateMIK_screened n fork block height ok fork' n' : params n = g_chainParams -> bytes_ok (vtx block) ->
  ValidateMIK SHA3_256 dilithium_verify n fork block height = Some (ok, fork', n') ->
  (ok = true -> mik_screened n fork block height) /\
  (fork' = fork \/ exists f id pk, fork = Some f /\ fork' = Some (AddForkIdentity f id pk)) /\ params n' = g_chainParams.
Proof.
  intros HP HB. unfold ValidateMIK, node_param. rewrite HP. destruct (height <? _) eqn:E1; zprop.
  { intros [= <- <- <-]. split_and!; [|by left|done]. intros _. by left. }
  destruct (_ && _) eqn:E2; zprop.
  { intros [= <- <- <-]. split_and!; [|by left|done]. intros _. right; left. lia. }
  destruct (DeserializeBlockTransactions (vtx block)) as [[|coinbase txs]|] eqn:ED;
    [intros [= <- <- <-]; split_and!; [done|by left|done]| |intros [= <- <- <-]; split_and!; [done|by left|done]].
  destruct (vin coinbase) as [|txin ins] eqn:EI; [done|]. destruct (ParseMIKFromScriptSig _ _) as [mik|] eqn:EM;
    [|intros [= <- <- <-]; split_and!; [done|by left|done]].
  assert (bytes_ok (scriptSig txin)) as HS.
  { apply DeserializeBlockTransactions_wf in ED as [HW _]; [|done]. apply Forall_cons in HW as [(_ & _ & HI & _) _].
    rewrite EI in HI. apply Forall_cons in HI as [(_ & _ & HI & _) _]. done. }
  pose proof (mik_parse_wf_lemma SHA3_256 _ _ SHA3_wf HS EM) as HW.
  destruct (fork_key _ n fork mik) as [[key f1] n1] eqn:EK. intros HR.
  assert ((f1 = fork \/ exists f id pk, fork = Some f /\ f1 = Some (AddForkIdentity f id pk)) /\ params n1 = g_chainParams /\
    if isRegistration mik then key = ForkKeyMismatch \/
      key = ForkKeyFound (mik_pubkey mik) /\ DeriveIdentityFromMIK SHA3_256 (mik_pubkey mik) = mik_identity mik
    else match known_key n fork (mik_identity mik) with
         | Some pk => key = ForkKeyFound pk
         | None => key = ForkNoDatabase \/ key = ForkKeyUnknown /\ is_Some (env_identityDb (n_env n))
         end) as (HF & HP1 & Hkey).
  { unfold fork_key in EK. unfold known_key. destruct (isRegistration mik).
    - case_bool_decide as HD; injection EK as <- <- <-; (split_and!; [|done|]); [by left|by left| |right; split; [done|done]].
      destruct fork as [f|]; [right; by eexists _, _, _|by left].
    - destruct (f ← fork; _); [injection EK as <- <- <-; split_and!; [by left|done|done]|].
      destruct (env_identityDb (n_env n)) as [db|]; [|injection EK as <- <- <-; split_and!; [by left|done|by left]]. cbn [mbind option_bind].
      destruct (GetMIKPubKey db _) as [[pk|] db']; injection EK as <- <- <-; (split_and!; [by left|done|]); cbn; [done|by right]. }
  assert (fork' = f1 /\ n' = n1) as [-> ->] by (repeat case_match; simplify_eq; done).
  split_and!; [|done|done]. intros ->. right; right. exists coinbase, txs, txin, ins, mik. split_and!; [done|done|done|].
  unfold signed_with. destruct (isRegistration mik) eqn:Hr.
  - destruct Hkey as [->|[-> HD]]; [done|]. split; [done|]. destruct HW as (_ & _ & _ & _ & _ & _ & _ & _ & _ & _ & HW).
    rewrite Hr in HW. destruct HW as [Hlen _]. rewrite bool_decide_eq_false_2 in HR; [by injection HR|].
    intros HE. rewrite HE in Hlen. done.
  - destruct (known_key n fork _) as [pk|].
    + subst key. case_bool_decide; [by left|right]. by injection HR.
    + by destruct Hkey as [->|[-> ?]].
Qed.

Lemma PreValidate_screened n f now b ok b' fork' n' : params n = g_chainParams -> bytes_ok (vtx (fb_block b)) ->
  PreValidateBlock SHA3_256 dilithium_verify n (Some f) now b = Some (ok, b', fork', n') ->
  fb_block b' = fb_block b /\ fb_hash b' = fb_hash b /\ fb_height b' = fb_height b /\
  (fb_status b' = PREVALIDATED -> screened (mkScreening n now f) b') /\ (fb_status b' = PREVALIDATED <-> ok = true) /\
  (fork' = Some f \/ exists g id pk, Some f = Some g /\ fork' = Some (AddForkIdentity g id pk)) /\ params n' = g_chainParams.
Proof.
  intros HP HB. unfold PreValidateBlock. destruct (ValidateBlockStructure now (fb_block b)) eqn:ES; cbn [negb];
    [|intros [= <- <- <- <-]; split_and!; try done; by left].
  destruct (ValidatePoW _ _) eqn:EP; cbn [negb]; [|intros [= <- <- <- <-]; split_and!; try done; by left].
  destruct (fork_nbits_ok n (Some f) b) as [[|]|] eqn:EB; cbn [mbind option_bind negb]; [|intros [= <- <- <- <-]; split_and!; try done; by left|done].
  destruct (ValidateMIK _ _ n (Some f) _ _) as [[[[|] f1] n1]|] eqn:EV; cbn [mbind option_bind negb]; [| |done];
    (apply ValidateMIK_screened in EV as (HM & HF & HP'); [|done|done]); intros [= <- <- <- <-]; split_and!; try done.
  intros _. unfold ValidateBlockStructure in ES. unfold ValidatePoW in EP. case_bool_decide as HV; [done|].
  destruct (IsNull _) eqn:EN; [done|]. apply negb_true_iff in ES. zprop. split; cbn; [done|done|lia| |done|by apply HM].
  destruct (IsVDFBlock _); [by left|by right].
Qed.

(** A screening counts for any candidate with the same fork point and identities as the one it was made with. *)
Lemma screened_same n now f g b : m_forkPointHeight g = m_forkPointHeight f -> m_forkIdentities g = m_forkIdentities f ->
  screened (mkScreening n now f) b -> screened (mkScreening n now g) b.
Proof.
  intros E1 E2 [H1 H2 H3 H4 H5 H6]. split; [done|done|done|done| |]; cbn in *.
  - unfold fork_nbits_ok in *. by rewrite E1.
  - unfold mik_screened, known_key in *. cbn [mbind option_bind] in *. by rewrite E2.
Qed.

Lemma prevalidate_ok log n f g now h b ok f' n' : params n = g_chainParams -> candidate_ok log f -> m_blocks f !! h = Some b ->
  m_forkPointHeight g = m_forkPointHeight f -> m_forkIdentities g = m_forkIdentities f ->
  prevalidate_at SHA3_256 dilithium_verify n f now h b = Some (ok, f', n') ->
  candidate_ok (log ++ [mkScreening n now g]) f' /\ params n' = g_chainParams.
Proof.
  intros HP HC Hb Eg1 Eg2. unfold prevalidate_at.
  destruct (PreValidateBlock _ _ n _ now b) as [[[[ok1 b1] fork1] n1]|] eqn:EV; cbn [mbind option_bind]; [|done].
  destruct (ca_blocks _ _ HC _ _ Hb) as (Hr & Hh & HB & _).
  apply PreValidate_screened in EV as (H1 & H2 & H3 & H4 & _ & HF & HP'); [|done|done].
  destruct fork1 as [f1|]; cbn [mbind option_bind]; [|done]. intros [= <- <- <-]. split; [|done].
  assert (m_forkPointHeight f1 = m_forkPointHeight f /\ m_expectedTipHeight f1 = m_expectedTipHeight f /\ m_blocks f1 = m_blocks f)
    as (E1 & E2 & E3) by (destruct HF as [[= ->]|(g' & id & pk & [= ->] & [= ->])]; done).
  apply (candidate_ok_mono _ [mkScreening n now g]) in HC. split; cbn; rewrite E1, E2; [apply HC|]. rewrite E3.
  intros k c [[<- <-]|[_ Hk]]%lookup_insert_Some; [|by apply HC]. split_and!; [lia|lia|congruence|by rewrite H1|].
  intros HS%H4. exists (mkScreening n now g). split_and!; [apply elem_of_app; right; by left|done|by apply (screened_same _ _ f)].
Qed.

Lemma add_ok log f now block hash h ok f' : candidate_ok log f -> bytes_ok (vtx block) -> Fork_AddBlock f now block hash h = (ok, f') ->
  candidate_ok log f' /\ m_forkPointHeight f = m_forkPointHeight f' /\ m_forkIdentities f = m_forkIdentities f'.
Proof.
  intros HC HB. unfold Fork_AddBlock, in_fork_range. destruct (_ && _) eqn:ER; cbn [negb]; [|by intros [= <- <-]]. zprop.
  destruct (bool_decide _); [by intros [= <- <-]|]. intros [= <- <-]. split; [|done]. split; cbn; [apply HC|].
  intros k c [[<- <-]|[_ Hk]]%lookup_insert_Some; [|by apply HC]. cbn. split_and!; [lia|lia|done|done|done].
Qed.

(** ** Reachable stagings *)

(** A step changes the staging state and records the screenings it makes. *)
Definition screenings n (now : Z) (s : ForkState) : list Screening :=
  match fs_fork s with Some f => [mkScreening n now f] | None => [] end.

Inductive fork_step : list Screening * ForkState -> list Screening * ForkState -> Prop :=
| fk_create log s now id current point tip hashes ok f :
    CreateForkCandidate (fs_fork s) now id current point tip hashes = (ok, f) ->
    fork_step (log, s) (log, mkForkState f (fs_tracker s) (fork_detected s) (fs_invalidated s))
| fk_stage log n hv now steady s block hash r s' n' :
    params n = g_chainParams -> bytes_ok (vtx block) ->
    stage_fork_block SHA3_256 dilithium_verify n hv now steady s block hash = Some (r, s', n') ->
    fork_step (log, s) (log ++ screenings n now s, s')
| fk_feed log n now steady s f block hash height b ok f' n' :
    params n = g_chainParams -> bytes_ok (vtx block) -> fs_fork s = Some f ->
    m_blocks (snd (Fork_AddBlock f steady block hash height)) !! height = Some b -> fb_status b = PENDING ->
    prevalidate_at SHA3_256 dilithium_verify n (snd (Fork_AddBlock f steady block hash height)) now height b = Some (ok, f', n') ->
    fork_step (log, s) (log ++ screenings n now s, mkForkState (Some f') (fs_tracker s) (fork_detected s) (fs_invalidated s))
| fk_cancel log s point : fork_step (log, s) (log, cancel_staging s point [])
| fk_touch log s f now : fs_fork s = Some f ->
    fork_step (log, s) (log, mkForkState (Some (TouchLastBlockTime f now)) (fs_tracker s) (fork_detected s) (fs_invalidated s))
| fk_activate log n new_path s r s' n' :
    activate_fork SHA3_256 randomx_hash_fast dilithium_verify seedPubkeys system_clock steady_clock connect_callbacks disconnect_callbacks
      new_path n s = Some (r, s', n') -> fork_step (log, s) (log, s').

Definition state_ok (ls : list Screening * ForkState) : Prop := forall f, fs_fork ls.2 = Some f -> candidate_ok ls.1 f.

Lemma stage_ok log n hv now steady s block hash r s' n' : params n = g_chainParams -> bytes_ok (vtx block) -> state_ok (log, s) ->
  stage_fork_block SHA3_256 dilithium_verify n hv now steady s block hash = Some (r, s', n') -> state_ok (log ++ screenings n now s, s').
Proof.
  intros HP HB HS. unfold stage_fork_block, screenings. destruct (fs_fork s) as [f|] eqn:EF.
  2: { intros [= <- <- <-]. by rewrite app_nil_r. }
  destruct (fork_block_height n hv _) as [h|]; cbn [mbind option_bind]; [|done]. pose proof (HS f EF) as HC. cbn in HC.
  assert (forall g, candidate_ok log g ->
    state_ok (log ++ [mkScreening n now f], mkForkState (Some g) (fs_tracker s) (fork_detected s) (fs_invalidated s))) as Hset
    by (intros g Hg g' [= <-]; by apply candidate_ok_mono).
  assert (state_ok (log ++ [mkScreening n now f], s)) as Hsame.
  { intros g Hg. cbn in *. rewrite EF in Hg. injection Hg as <-. by apply candidate_ok_mono. }
  destruct (IsExpectedBlock f hash h).
  - destruct (Fork_AddBlock f steady block hash h) as [ok f1] eqn:EA. destruct (add_ok _ _ _ _ _ _ _ _ HC HB EA) as (HC1 & E1 & E2).
    destruct (m_blocks f1 !! h) as [b|] eqn:Eb; [|intros [= <- <- <-]; by apply Hset].
    case_bool_decide; [|intros [= <- <- <-]; by apply Hset].
    destruct (prevalidate_at _ _ n f1 now h b) as [[[[|] f2] n2]|] eqn:EP; cbn [mbind option_bind negb]; [| |done]; intros [= <- <- <-]; [|done].
    apply (prevalidate_ok log _ _ f) in EP as [HC2 _]; [|done..]. by intros g [= <-].
  - destruct (in_fork_range f h); [|by intros [= <- <- <-]].
    set (g := match hv with Some v => _ | None => _ end).
    assert (candidate_ok log g) as Hg.
    { unfold g, UpdateExpectedHash. destruct hv as [v|]; [destruct (IsNull _); [|destruct (m_expectedHashes _ !! _)]|]; (split; [apply HC|apply HC]). }
    destruct (HasExcessiveHashMismatches g); intros [= <- <- <-]; [done|]. by apply Hset.
Qed.

Lemma trigger_fork new_path n f r f' n' :
  TriggerChainSwitch SHA3_256 randomx_hash_fast dilithium_verify seedPubkeys system_clock steady_clock connect_callbacks disconnect_callbacks
    new_path n (Some f) = Some (r, f', n') -> f' = Some f \/ f' = None.
Proof.
  unfold TriggerChainSwitch. destruct (negb _); [intros [= <- <- <-]; by left|]. destruct (_ <? 0); [intros [= <- <- <-]; by left|].
  destruct (m_blocks f !! _) as [b|]; [|intros [= <- <- <-]; by left].
  destruct (GetBlockIndex _ _) as [p|]; [|intros [= <- <- <-]; by left].
  destruct (ActivateBestChain _ _ _ _ _ _ _ _ _ _ _ _) as [[a n1]|]; cbn; [|done]. intros [= <- <- <-]. by right.
Qed.

Lemma step_ok s s' : fork_step s s' -> state_ok s -> state_ok s'.
Proof.
  intros Hstep HS. destruct Hstep as [log s now id current point tp hashes ok f HC|log n hv now steady s block hash r s' n' HP HB HSt|
    log n now steady s f block hash height b ok f' n' HP HB HF Hb Hst HPre|log s point|log s f now HF|log n new_path s r s' n' HA].
  - intros g HG. cbn in HG. subst f. unfold CreateForkCandidate in HC. destruct (fs_fork s) as [f0|] eqn:E0.
    + injection HC as _ ->. by apply HS.
    + destruct (_ || _) eqn:EB; [done|]. apply orb_false_iff in EB as [EB1 EB2]. zprop. injection HC as _ <-. split; cbn; [lia|].
      intros h b Hb. by rewrite lookup_empty in Hb.
  - by eapply stage_ok.
  - intros g [= <-]. unfold screenings. rewrite HF. destruct (Fork_AddBlock f steady block hash height) as [ok1 f1] eqn:EA. cbn in *.
    destruct (add_ok log _ _ _ _ _ _ _ (HS f HF) HB EA) as (HC1 & E1 & E2). by eapply prevalidate_ok.
  - done.
  - intros g [= <-]. pose proof (HS f HF) as HC. split; apply HC.
  - unfold activate_fork in HA. destruct (fs_fork s) as [f|] eqn:EF; [|by injection HA as <- <- <-].
    destruct (fork_has_more_work n f) as [more|]; cbn [mbind option_bind] in HA; [|done]. destruct (_ && more); [|by injection HA as <- <- <-].
    destruct (TriggerChainSwitch _ _ _ _ _ _ _ _ new_path n (Some f)) as [[[r1 f1] n1]|] eqn:ET; cbn [mbind option_bind] in HA; [|done].
    injection HA as <- <- <-. apply trigger_fork in ET as [->| ->]; intros g [= <-]. by apply HS.
Qed.

Lemma all_blocks_iff log f : candidate_ok log f ->
  HasAllBlocks f = true <-> forall h, m_forkPointHeight f < h <= m_expectedTipHeight f -> is_Some (m_blocks f !! h).
Proof.
  intros HC. pose proof (ca_range _ _ HC) as Hr. unfold HasAllBlocks.
  set (range := list_to_set (seqZ (m_forkPointHeight f + 1) (m_expectedTipHeight f - m_forkPointHeight f)) : gset Z).
  assert (size range = Z.to_nat (m_expectedTipHeight f - m_forkPointHeight f)) as Hsize
    by (unfold range; rewrite size_list_to_set by apply NoDup_seqZ; apply length_seqZ).
  assert (forall h, h ∈ range <-> m_forkPointHeight f < h <= m_expectedTipHeight f) as Hin.
  { intros h. unfold range. rewrite elem_of_list_to_set, elem_of_seqZ. lia. }
  assert (dom (m_blocks f) ⊆ range) as Hsub.
  { intros h [b Hb]%elem_of_dom. apply Hin. by apply (ca_blocks _ _ HC) in Hb as [? _]. }
  rewrite <- size_dom. split.
  - intros HE h Hh. apply elem_of_dom. assert (dom (m_blocks f) ≡ range) as ->; [|by apply Hin].
    apply set_subseteq_size_equiv; [done|]. zprop. lia.
  - intros Hall. assert (range ⊆ dom (m_blocks f)) as Hsup by (intros h Hh%Hin; by apply elem_of_dom, Hall).
    apply subseteq_size in Hsup. destruct (_ >=? _) eqn:E; zprop; [done|lia].
Qed.

Lemma highest_fold l : forall acc, Forall (fun e : Z * ForkBlock => fb_status e.2 = PREVALIDATED) l ->
  let r := foldl (fun highest e => if bool_decide (fb_status e.2 = PREVALIDATED) && (e.1 >? highest) then e.1 else highest) acc l in
  (r = acc \/ r ∈ l.*1) /\ acc <= r /\ Forall (fun k => k <= r) l.*1.
Proof.
  induction l as [|[k b] l IH]; intros acc HF; cbn [foldl fmap list_fmap]; [split_and!; [by left|lia|constructor]|].
  apply Forall_cons in HF as [Hb HF]. cbn in Hb |- *. rewrite bool_decide_eq_true_2 by done. cbn [andb].
  destruct (IH (if k >? acc then k else acc) HF) as (H1 & H2 & H3). destruct (k >? acc) eqn:EK; zprop.
  - split_and!; [right; destruct H1 as [->|H1]; [left|by right]|lia|constructor; [lia|done]].
  - split_and!; [destruct H1 as [->|H1]; [by left|right; by right]|lia|constructor; [lia|done]].
Qed.

Lemma highest_spec log f : candidate_ok log f -> AllReceivedBlocksPrevalidated f = true ->
  (forall h b, m_blocks f !! h = Some b ->
     exists e, e ∈ log /\ m_forkPointHeight (sg_fork e) = m_forkPointHeight f /\ screened e b) /\
  forall k, is_Some (m_blocks f !! k) -> k <= GetHighestPrevalidatedHeight f.
Proof.
  intros HC HA. unfold AllReceivedBlocksPrevalidated, all_prevalidated in HA. case_bool_decide; [done|].
  rewrite forallb_forall in HA.
  assert (Forall (fun e : Z * ForkBlock => fb_status e.2 = PREVALIDATED) (map_ordered (m_blocks f))) as HF.
  { apply Forall_forall. intros e He%list_elem_of_In. apply HA in He. by apply bool_decide_eq_true in He. }
  split.
  - intros h b Hb. rewrite Forall_forall in HF. apply (ca_blocks _ _ HC _ _ Hb). apply (HF (h, b)). by apply map_ordered_elem.
  - intros k [b Hb]. destruct (highest_fold _ (-1) HF) as (_ & _ & HK). rewrite Forall_forall in HK. apply HK.
    apply list_elem_of_fmap. exists (k, b). split; [done|]. by apply map_ordered_elem.
Qed.

End Staging.

(** ** Concrete forks *)

(** An index in which the tip has work 1 and the fork's block, at height 1, work 256. *)
Definition work_node : ToyNode :=
  set_chain toy_node0 (mkChainState (<[1%positive := sample_entry 1 None 0 1]> (<[2%positive := sample_entry 2 None 1 256]> ∅))
    (<[sample_hash 1 := 1%positive]> (<[sample_hash 2 := 2%positive]> ∅)) (Some 1%positive) ∅ 0 0 false 0 zero256 false UndoFailure 0 (-1)).
Definition work_fork : ForkCandidate :=
  set_blocks (new_ForkCandidate 0 zero256 0 1 ∅) (<[1 := set_status (new_ForkBlock (toy_body 2) (sample_hash 2) 1) PREVALIDATED None]> ∅) 0.

(** Works are compared from their least significant byte: the fork with more work is not seen to have more. *)
Example work_order_reversed :
  fork_has_more_work work_node work_fork = Some false /\ ChainWorkGreaterThan (le_bytes 32 256) (le_bytes 32 1) = true.
Proof. vm_compute. split; reflexivity. Qed.

(** A node at the genesis block, with a fork of one block: it is announced, staged and activated. *)
Definition fork_node : ToyNode :=
  set_chain toy_node0
    (mkChainState (<[1%positive := sample_entry 1 None 0 10]> (<[2%positive := sample_entry 2 (Some 1%positive) 1 20]> ∅))
      (<[sample_hash 1 := 1%positive]> (<[sample_hash 2 := 2%positive]> ∅)) (Some 1%positive) ∅ 0 0 false 0 zero256 false UndoFailure 0 (-1)).
Definition fork_body : CBlock :=
  mkBlock (mkHeader 1 (sample_hash 1) zero256 0 0x1f00ffff 0 zero256 zero256 zero256 false) (SerializeBlockTransactions [toy_tx 2]).
Definition fork_main : ToyNode := set_observed fork_node (mkEnv (Some Mainnet) None None None None, None, tt).
Definition fork_new : ForkState := mkForkState (Some (new_ForkCandidate 5 (sample_hash 2) 0 1 ∅)) None true [].
Definition fork_staged : option ForkState :=
  '(r, s, n) ← stage_fork_block toy_sha3 (fun _ _ _ => 0) fork_main None 100 7 fork_new fork_body (sample_hash 2); Some s.

Definition fork_switched : option (option SwitchResult) :=
  s ← fork_staged;
  '(r, s, n) ← activate_fork toy_sha3 toy_sha3 (fun _ _ _ => 0) [] (fun _ => 0) (fun _ => 0) [] [] false fork_main s; Some r.

Lemma toy_sha3_wf l : u256_wf (toy_sha3 l).
Proof. split; [apply length_le_bytes|apply le_bytes_ok]. Qed.

