(* ===== verification/MempoolPersist.v ===== *)
(** * The memory pool on disk (node/mempool_persist, net/serialize.h)

    The pool is written at shutdown to a scrambled file with an integrity footer, through a temporary file that is renamed, and
    its transactions are admitted again at start-up.  The data directory is the contents of the two files; what the operating
    system refuses is an argument, as is the random key.  [None] of the stream readers is the exception they throw. *)

From S2P Require Import Prelude Uint256 Transaction Fees BlockTxs Doubles Mempool.

(** ** CDataStream *)

Abbreviation stream := (list Z).

Definition stream_read (n : nat) (s : stream) : option (list Z * stream) :=
  if (length s <? n)%nat then None else Some (take n s, drop n s).
Definition ReadUint32 (s : stream) : option (Z * stream) := '(b, s) ← stream_read 4 s; Some (le_val b, s).
Definition ReadUint64 (s : stream) : option (Z * stream) := '(b, s) ← stream_read 8 s; Some (le_val b, s).
Definition ReadInt64 (s : stream) : option (Z * stream) := '(v, s) ← ReadUint64 s; Some (i64 v, s).

Definition WriteUint32 (v : Z) : list Z := le_bytes 4 (u32 v).
Definition WriteUint64 (v : Z) : list Z := le_bytes 8 (u64 v).
Definition WriteInt64 (v : Z) : list Z := WriteUint64 (u64 v).

(** ** Constants and helpers *)

Definition SCHEMA_VERSION : Z := 1.
Definition FOOTER_SIZE : nat := 8.
Definition XOR_KEY_SIZE : nat := 32.
Definition MIN_FILE_SIZE : Z := 1 + 32 + 8 + 8.
Definition MAX_DUMP_TX_COUNT : Z := 200000.
Definition MAX_DUMP_TX_SIZE : Z := 4 * 1024 * 1024.
Definition MAX_FILE_SIZE : Z := 512 * 1024 * 1024.

Definition XorScramble (data key : list Z) (offset : nat) : list Z :=
  imap (fun i b => Z.lxor b (byte_at key ((i + offset) mod XOR_KEY_SIZE)%nat)) data.

(** ** The files *)

Record DataDir := mkDir { mempool_dat : option (list Z); mempool_dat_new : option (list Z) }.

(** What goes wrong while writing: [fwrite] writes [k] bytes; the temporary file cannot be removed again. *)
Inductive WriteFault : Set := FopenFails | FwriteShort (k : nat) | FflushFails | FsyncFails | RenameFails | DirFsyncFails.

Definition AtomicWrite (fault : option WriteFault) (cleanup_fails : bool) (d : DataDir) (bytes : list Z) : option WriteFault * DataDir :=
  let failed e tmp := (Some e, mkDir (mempool_dat d) (if cleanup_fails : bool then Some tmp else None)) in
  match fault with
  | Some FopenFails => (fault, d)
  | Some (FwriteShort k) =>
      if (k <? length bytes)%nat then failed (FwriteShort k) (take k bytes)
      else (None, mkDir (Some bytes) None)
  | Some FflushFails => failed FflushFails bytes
  | Some FsyncFails => failed FsyncFails bytes
  | Some RenameFails => failed RenameFails bytes
  | Some DirFsyncFails => (fault, mkDir (Some bytes) None)
  | None => (None, mkDir (Some bytes) None)
  end.

Inductive DumpError : Set := TooManyEntries | TxTooLarge | FileTooLarge | WriteFailed (e : WriteFault).

Inductive ColdStartReason : Set :=
| FileNotFound | FileTooBig | FileTooSmall | UnknownVersion | FooterMismatch | CountExceedsBound | MalformedTxSize | StreamError.

Inductive LoadFault : Set := FileSizeFails | OpenFails | ReadFails.
#[export] Instance LoadFault_eq_dec : EqDecision LoadFault.
Proof. solve_decision. Defined.

Inductive LoadOutcome : Set := Loaded | ColdStart (r : ColdStartReason) | HardError (e : LoadFault).

Record LoadCounts := mkCounts { txs_read : Z; txs_admitted : Z; txs_dropped_invalid : Z }.

Section Persist.
  Variable SHA3_256 : list Z -> uint256.

Definition ComputeFooter (payload : list Z) : list Z := take FOOTER_SIZE (SHA3_256 payload).
Definition VerifyFooter (whole_file : list Z) : bool :=
  if (length whole_file <? FOOTER_SIZE)%nat then false
  else
    let payload_size := (length whole_file - FOOTER_SIZE)%nat in
    bool_decide (take FOOTER_SIZE (SHA3_256 (take payload_size whole_file)) = drop payload_size whole_file).

(** ** Writing *)

Definition tx_record (e : CTxMemPoolEntry) : list Z :=
  let tx_bytes := Serialize (e_tx e) in
  WriteUint32 (len tx_bytes) ++ tx_bytes ++ WriteInt64 (e_time e) ++ WriteInt64 (e_fee e).

(** The records; [None] when a transaction is over the bound. *)
Fixpoint dump_records (entries : list CTxMemPoolEntry) : option (list Z) :=
  match entries with
  | [] => Some []
  | e :: entries' =>
      if len (Serialize (e_tx e)) >? MAX_DUMP_TX_SIZE then None
      else rest ← dump_records entries'; Some (tx_record e ++ rest)
  end.

Definition DumpMempool (mempool : CTxMemPool) (xor_key : list Z) (fault : option WriteFault) (cleanup_fails : bool) (d : DataDir)
  : result DumpError Z * DataDir :=
  let entries := GetAllEntries mempool in
  if len entries >? MAX_DUMP_TX_COUNT then (Err TooManyEntries, d)
  else
    match dump_records entries with
    | None => (Err TxTooLarge, d)
    | Some records =>
        let body := WriteUint64 (len entries) ++ records in
        let footer := ComputeFooter (SCHEMA_VERSION :: xor_key ++ body) in
        let bytes := SCHEMA_VERSION :: xor_key ++ XorScramble body xor_key 0 ++ XorScramble footer xor_key (length body) in
        if len bytes >? MAX_FILE_SIZE then (Err FileTooLarge, d)
        else
          match AtomicWrite fault cleanup_fails d bytes with
          | (Some e, d) => (Err (WriteFailed e), d)
          | (None, d) => (Ok (len entries), d)
          end
    end.

(** ** Reading *)

(** The clock and the allocation failures at the i-th admission. *)
Variable now : nat -> Z.
Variable fail : nat -> option alloc_failure.

Fixpoint load_txs (n i : nat) (s : stream) (height : Z) (c : LoadCounts) (p : CTxMemPool) (ev : list EstimatorEvent)
  : LoadOutcome * LoadCounts * CTxMemPool * list EstimatorEvent :=
  match n with
  | O => (Loaded, c, p, ev)
  | S n' =>
      match ReadUint32 s with
      | None => (ColdStart StreamError, c, p, ev)
      | Some (tx_size, s) =>
          if (tx_size =? 0) || (tx_size >? MAX_DUMP_TX_SIZE) then (ColdStart MalformedTxSize, c, p, ev)
          else
            match '(tx_bytes, s) ← stream_read (Z.to_nat tx_size) s; '(time, s) ← ReadInt64 s; '(fee, s) ← ReadInt64 s;
                  Some (tx_bytes, time, fee, s) with
            | None => (ColdStart StreamError, c, p, ev)
            | Some (tx_bytes, entry_time, fee_paid, s) =>
                match Deserialize tx_bytes true with
                | Err _ => load_txs n' (S i) s height (mkCounts (txs_read c) (txs_admitted c) (txs_dropped_invalid c + 1)) p ev
                | Ok (tx, _) =>
                    let '(r, p, ev') := AddTx SHA3_256 (fail i) p (Some tx) fee_paid entry_time height (now i) true in
                    load_txs n' (S i) s height
                      (mkCounts (txs_read c + 1) (if is_ok r then txs_admitted c + 1 else txs_admitted c)
                         (if is_ok r then txs_dropped_invalid c else txs_dropped_invalid c + 1)) p (ev ++ ev')
                end
            end
      end
  end.

Definition LoadMempool (mempool : CTxMemPool) (fault : option LoadFault) (d : DataDir) (current_height : Z)
  : LoadOutcome * LoadCounts * CTxMemPool * list EstimatorEvent :=
  let stop o := (o, mkCounts 0 0 0, mempool, []) in
  match mempool_dat d, fault with
  | None, _ => stop (ColdStart FileNotFound)
  | Some _, Some FileSizeFails => stop (HardError FileSizeFails)
  | Some file, _ =>
      if len file >? MAX_FILE_SIZE then stop (ColdStart FileTooBig)
      else if len file <? MIN_FILE_SIZE then stop (ColdStart FileTooSmall)
      else
        match fault with
        | Some e => stop (HardError e)
        | None =>
            if negb (byte_at file 0 =? SCHEMA_VERSION) then stop (ColdStart UnknownVersion)
            else
              let xor_key := take XOR_KEY_SIZE (drop 1 file) in
              let body_start := (1 + XOR_KEY_SIZE)%nat in
              let whole_file := take body_start file ++ XorScramble (drop body_start file) xor_key 0 in
              if negb (VerifyFooter whole_file) then stop (ColdStart FooterMismatch)
              else
                let payload := drop body_start (take (length whole_file - FOOTER_SIZE) whole_file) in
                match ReadUint64 payload with
                | None => stop (ColdStart StreamError)
                | Some (tx_count, s) =>
                    if tx_count >? MAX_DUMP_TX_COUNT then stop (ColdStart CountExceedsBound)
                    else load_txs (Z.to_nat tx_count) 0 s current_height (mkCounts 0 0 0) mempool []
                end
        end
  end.
End Persist.

(** ** Streams *)

Lemma stream_read_app n l rest : length l = n -> stream_read n (l ++ rest) = Some (l, rest).
Proof.
  intros <-. unfold stream_read. destruct (Nat.ltb_spec (length (l ++ rest)) (length l)) as [H|_]; [rewrite length_app in H; lia|].
  by rewrite take_app_length, drop_app_length.
Qed.

Lemma ReadUint32_write v rest : 0 <= v < 2 ^ 32 -> ReadUint32 (WriteUint32 v ++ rest) = Some (v, rest).
Proof.
  intros Hv. unfold ReadUint32, WriteUint32. rewrite stream_read_app by apply length_le_bytes. cbn [mbind option_bind].
  rewrite le_val_le_bytes, u32_small by done. by rewrite Z.mod_small.
Qed.

Lemma ReadUint64_write v rest : ReadUint64 (WriteUint64 v ++ rest) = Some (u64 v, rest).
Proof.
  unfold ReadUint64, WriteUint64. rewrite stream_read_app by apply length_le_bytes. cbn [mbind option_bind].
  rewrite le_val_le_bytes, Z.mod_small; [done|apply u64_range].
Qed.

Lemma ReadInt64_write v rest : - 2 ^ 63 <= v < 2 ^ 63 -> ReadInt64 (WriteInt64 v ++ rest) = Some (v, rest).
Proof.
  intros Hv. unfold ReadInt64, WriteInt64. rewrite ReadUint64_write. cbn [mbind option_bind]. do 2 f_equal.
  unfold u64. rewrite Z.mod_mod by lia. unfold i64. rewrite Zplus_mod_idemp_l, Z.mod_small; lia.
Qed.

(** What has been read is what was written. *)
Lemma stream_read_Some n s a b : stream_read n s = Some (a, b) -> s = a ++ b /\ length a = n.
Proof.
  unfold stream_read. destruct (Nat.ltb_spec (length s) n); [done|]. intros [= <- <-]. rewrite take_drop. split; [done|].
  rewrite length_take. lia.
Qed.

Lemma read_le_Some n s v s' : bytes_ok s -> ('(b, s) ← stream_read n s; Some (le_val b, s)) = Some (v, s') ->
  s = le_bytes n v ++ s' /\ bytes_ok s' /\ 0 <= v < 256 ^ Z.of_nat n.
Proof.
  intros HB. destruct (stream_read n s) as [[a b]|] eqn:E; cbn [mbind option_bind]; [|done]. intros [= <- <-].
  apply stream_read_Some in E as [-> <-]. apply Forall_app in HB as [Ha Hb]. rewrite le_bytes_le_val by done.
  split_and!; [done|done|by apply le_val_bound..].
Qed.

Lemma ReadUint32_Some s v s' : bytes_ok s -> ReadUint32 s = Some (v, s') -> s = WriteUint32 v ++ s' /\ bytes_ok s' /\ 0 <= v < 2 ^ 32.
Proof. intros HB (E & Hs & Hv)%read_le_Some; [|done]. unfold WriteUint32. by rewrite u32_small. Qed.

Lemma ReadUint64_Some s v s' : bytes_ok s -> ReadUint64 s = Some (v, s') -> s = WriteUint64 v ++ s' /\ bytes_ok s' /\ 0 <= v < 2 ^ 64.
Proof. intros HB (E & Hs & Hv)%read_le_Some; [|done]. unfold WriteUint64. by rewrite u64_small. Qed.

Lemma ReadInt64_Some s v s' : bytes_ok s -> ReadInt64 s = Some (v, s') -> s = WriteInt64 v ++ s' /\ bytes_ok s'.
Proof.
  intros HB. unfold ReadInt64. destruct (ReadUint64 s) as [[w s1]|] eqn:E; cbn [mbind option_bind]; [|done]. intros [= <- <-].
  apply ReadUint64_Some in E as (-> & Hs & Hw); [|done]. split; [|done]. unfold WriteInt64. do 2 f_equal. unfold u64, i64.
  rewrite Zminus_mod_idemp_l. replace (w + 2 ^ 63 - 2 ^ 63) with w by lia. by rewrite Z.mod_small.
Qed.

(** ** Scrambling *)

Lemma length_XorScramble l key o : length (XorScramble l key o) = length l.
Proof. apply length_imap. Qed.

Lemma XorScramble_twice l key o : XorScramble (XorScramble l key o) key o = l.
Proof.
  apply list_eq. intros i. unfold XorScramble. rewrite !list_lookup_imap. destruct (l !! i) as [b|]; cbn; [|done].
  by rewrite Z.lxor_assoc, Z.lxor_nilpotent, Z.lxor_0_r.
Qed.

Lemma XorScramble_app a b key o : XorScramble (a ++ b) key o = XorScramble a key o ++ XorScramble b key (length a + o).
Proof.
  unfold XorScramble. rewrite imap_app. f_equal. apply imap_ext. intros i x _. unfold compose. by replace (length a + i + o)%nat with (i + (length a + o))%nat by lia.
Qed.

Lemma lxor_byte a b : byte_ok a -> byte_ok b -> byte_ok (Z.lxor a b).
Proof.
  unfold byte_ok. intros Ha Hb. assert (0 <= Z.lxor a b) as H0 by (apply Z.lxor_nonneg; lia).
  destruct (Z.eq_dec (Z.lxor a b) 0) as [->|Hne]; [lia|]. split; [done|]. change 256 with (2 ^ 8). apply Z.log2_lt_pow2; [lia|].
  pose proof (Z.log2_lxor a b ltac:(lia) ltac:(lia)). pose proof (Z.log2_le_mono a 255 ltac:(lia)).
  pose proof (Z.log2_le_mono b 255 ltac:(lia)). change (Z.log2 255) with 7 in *. lia.
Qed.

Lemma bytes_ok_XorScramble l key o : bytes_ok l -> bytes_ok key -> bytes_ok (XorScramble l key o).
Proof.
  intros Hl Hk. apply Forall_lookup. intros i b. unfold XorScramble. rewrite list_lookup_imap. destruct (l !! i) as [a|] eqn:E; [|done].
  intros [= <-]. rewrite Forall_lookup in Hl. apply lxor_byte; [by apply (Hl i)|by apply byte_at_ok].
Qed.

Section Restart.
  Variable SHA3_256 : list Z -> uint256.
  Hypothesis SHA3_len : forall l, length (SHA3_256 l) = 32%nat.
  Abbreviation wf := (pool_wf SHA3_256).

(** What the reader gets back of a scrambled file. *)
Lemma unscrambled key body footer : length key = XOR_KEY_SIZE ->
  let file := SCHEMA_VERSION :: key ++ XorScramble body key 0 ++ XorScramble footer key (length body) in
  take XOR_KEY_SIZE (drop 1 file) = key /\
  take (1 + XOR_KEY_SIZE) file ++ XorScramble (drop (1 + XOR_KEY_SIZE) file) key 0 = (SCHEMA_VERSION :: key ++ body) ++ footer.
Proof.
  intros Hk file.
  assert (forall l : list Z, take (1 + XOR_KEY_SIZE) (SCHEMA_VERSION :: key ++ l) = SCHEMA_VERSION :: key /\
    drop (1 + XOR_KEY_SIZE) (SCHEMA_VERSION :: key ++ l) = l) as HS.
  { intros l. rewrite <- Hk. change (1 + length key)%nat with (length (SCHEMA_VERSION :: key)).
    change (SCHEMA_VERSION :: key ++ l) with ((SCHEMA_VERSION :: key) ++ l). by rewrite take_app_length, drop_app_length. }
  unfold file. destruct (HS (XorScramble body key 0 ++ XorScramble footer key (length body))) as [-> ->]. split.
  - cbn [drop]. by rewrite <- Hk, drop_0, take_app_length.
  - replace (length body) with (length body + 0)%nat by lia. rewrite <- XorScramble_app, XorScramble_twice. cbn [app].
    by rewrite <- app_assoc.
Qed.

Lemma VerifyFooter_app payload footer : length footer = FOOTER_SIZE ->
  VerifyFooter SHA3_256 (payload ++ footer) = bool_decide (ComputeFooter SHA3_256 payload = footer).
Proof.
  intros Hf. unfold VerifyFooter, ComputeFooter. rewrite length_app, Hf.
  destruct (Nat.ltb_spec (length payload + FOOTER_SIZE) FOOTER_SIZE); [lia|].
  replace (length payload + FOOTER_SIZE - FOOTER_SIZE)%nat with (length payload) by lia. by rewrite take_app_length, drop_app_length.
Qed.

(** ** Records *)

(** What an entry that was admitted satisfies. *)
Definition admissible (e : CTxMemPoolEntry) : Prop :=
  tx_wf (e_tx e) /\ IsCoinBase (e_tx e) = false /\ 0 <= e_fee e < 2 ^ 63 /\ 0 < e_time e < 2 ^ 63.

Lemma entry_bytes e : tx_wf (e_tx e) -> len (Serialize (e_tx e)) = GetSerializedSize (e_tx e).
Proof. intros Hwf. apply GetSerializedSize_correct. by apply tx_wf_hashes. Qed.

Lemma len_tx_record e : tx_wf (e_tx e) -> len (tx_record e) = GetSerializedSize (e_tx e) + 20.
Proof.
  intros Hwf. rewrite <- entry_bytes by done. unfold tx_record, WriteInt64, WriteUint64, WriteUint32. rewrite !len_app.
  unfold len. rewrite !length_le_bytes. lia.
Qed.

Lemma dump_records_ok es : Forall (fun e => tx_wf (e_tx e) /\ GetSerializedSize (e_tx e) <= MAX_TX_SIZE) es ->
  dump_records es = Some (concat (tx_record <$> es)) /\
  len (concat (tx_record <$> es)) = sum_list ((fun e => GetSerializedSize (e_tx e)) <$> es) + 20 * len es.
Proof.
  induction 1 as [|e es [Hwf Hs] _ [IH1 IH2]]; [done|]. cbn [dump_records fmap list_fmap concat sum_list].
  rewrite entry_bytes by done. destruct (Z.gtb_spec (GetSerializedSize (e_tx e)) MAX_DUMP_TX_SIZE) as [H|_].
  { unfold MAX_DUMP_TX_SIZE, MAX_TX_SIZE in *. lia. }
  rewrite IH1. cbn [mbind option_bind]. split; [done|]. rewrite len_app, len_tx_record, IH2 by done. unfold len. cbn [length]. lia.
Qed.

(** ** Admission of the records *)

Definition restored (height : Z) (e : CTxMemPoolEntry) : CTxMemPoolEntry := make_entry SHA3_256 (e_tx e) (e_fee e) (e_time e) height.

Definition built (e : CTxMemPoolEntry) : Prop := e = make_entry SHA3_256 (e_tx e) (e_fee e) (e_time e) (e_height e) /\ tx_size e <= MAX_TX_SIZE.

Lemma restored_same height e : built e -> tx_hash (restored height e) = tx_hash e /\ tx_size (restored height e) = tx_size e /\
  prevouts (restored height e) = prevouts e.
Proof. intros [E _]. rewrite E. done. Qed.

Lemma AddTx_admits p e height t : wf p -> built e -> admissible e -> height <> 0 -> e_time e <= i64 (t + MAX_TIME_SKEW) ->
  mapTx p !! tx_hash e = None -> (forall o, o ∈ prevouts e -> o ∉ mapSpentOutpoints p) ->
  mempool_count p + 1 <= max_mempool_count p -> mempool_size p + tx_size e <= max_mempool_size p ->
  exists p' ev, AddTx SHA3_256 None p (Some (e_tx e)) (e_fee e) (e_time e) height t true = (Ok tt, p', ev) /\ wf p' /\
    mapTx p' = <[tx_hash e := restored height e]> (mapTx p) /\ same_limits p p' /\
    mapSpentOutpoints p' = list_to_set (prevouts e) ∪ mapSpentOutpoints p /\
    mempool_size p' = mempool_size p + tx_size e /\ mempool_count p' = mempool_count p + 1.
Proof.
  intros Hwf [HE Hs] (Htx & Hcb & Hfee & Htime) Hh Ht Hn Ho Hc Hz. pose proof (GetSerializedSize_pos (e_tx e)) as Hpos.
  assert (tx_hash e = Tx_GetHash SHA3_256 (e_tx e) /\ tx_size e = GetSerializedSize (e_tx e)) as [Eh Es] by (rewrite HE; done).
  pose proof (pw_limits _ _ Hwf) as (_ & _ & L3 & L4). pose proof (sum_sizes_nonneg _ p Hwf) as H0. rewrite <- (pw_size _ _ Hwf) in H0.
  set (q := set_pending p []). assert (wf q) as Hq by by apply wf_pending.
  assert (ValidateLocked SHA3_256 q (Some (e_tx e)) (e_fee e) (e_time e) height t true = Ok tt) as HV.
  { cbn [ValidateLocked q set_pending mapTx mapSpentOutpoints mempool_size mempool_count max_mempool_count max_mempool_size].
    rewrite Hcb, <- Eh, Hn, <- Es. rewrite bool_decide_eq_false_2 by (by intros [x Hx]).
    assert (existsb (fun i => bool_decide (prevout i ∈ mapSpentOutpoints p)) (vin (e_tx e)) = false) as ->.
    { apply not_true_is_false. intros (i & Hi & Hb%bool_decide_eq_true)%existsb_exists. apply (Ho (prevout i)); [|done].
      apply list_elem_of_fmap. exists i. split; [done|by apply list_elem_of_In]. }
    destruct (Z.ltb_spec (e_fee e) 0); [lia|]. destruct (Z.leb_spec (e_time e) 0); [lia|].
    destruct (Z.gtb_spec (e_time e) (i64 (t + MAX_TIME_SKEW))); [lia|]. destruct (Z.eqb_spec height 0); [lia|].
    destruct (Z.gtb_spec (tx_size e) MAX_TX_SIZE); [lia|]. destruct (Z.gtb_spec (mempool_size p) (SIZE_MAX - tx_size e)).
    { unfold SIZE_MAX in *. lia. }
    destruct (Z.geb_spec (mempool_count p) (max_mempool_count p)); [lia|]. rewrite u64_small by lia.
    destruct (Z.gtb_spec (mempool_size p + tx_size e) (max_mempool_size p)); [lia|done]. }
  unfold AddTx. fold q. unfold AddTxUnlocked. rewrite HV. cbn [fst snd].
  rewrite (TestAccept_room SHA3_256 q (e_tx e) (e_fee e) (e_time e) height t true Hq HV), guarded_insert_ok by (done || lia).
  eexists _, _. split; [done|]. change (make_entry SHA3_256 (e_tx e) (e_fee e) (e_time e) height) with (restored height e).
  destruct (restored_same height e (conj HE Hs)) as (R1 & R2 & R3).
  split_and!; try done.
  - apply wf_pending, wf_metrics, inserted_wf; [done|done|lia|by rewrite R1|by rewrite R3| |]; cbn; lia.
  - cbn. by rewrite <- Eh.
  - cbn. by rewrite Es.
Qed.

Lemma load_txs_restores (now : nat -> Z) height es : forall i p c ev rest,
  wf p -> height <> 0 -> Forall (fun e => built e /\ admissible e) es -> (forall e j, e ∈ es -> e_time e <= i64 (now j + MAX_TIME_SKEW)) ->
  NoDup (tx_hash <$> es) -> (forall a b o, a ∈ es -> b ∈ es -> o ∈ prevouts a -> o ∈ prevouts b -> a = b) ->
  (forall e, e ∈ es -> mapTx p !! tx_hash e = None /\ forall o, o ∈ prevouts e -> o ∉ mapSpentOutpoints p) ->
  mempool_count p + len es <= max_mempool_count p -> mempool_size p + sum_list (tx_size <$> es) <= max_mempool_size p ->
  exists p' ev', load_txs SHA3_256 now (fun _ => None) (length es) i (concat (tx_record <$> es) ++ rest) height c p ev =
    (Loaded, mkCounts (txs_read c + len es) (txs_admitted c + len es) (txs_dropped_invalid c), p', ev') /\ wf p' /\
    mapTx p' = list_to_map ((fun e => (tx_hash e, restored height e)) <$> es) ∪ mapTx p.
Proof.
  induction es as [|e es IH]; intros i p c ev rest Hwf Hh HF Htime Hd Hsingle Hfresh Hc Hz.
  { exists p, ev. split_and!; [|done|symmetry; apply map_empty_union]. cbn. rewrite !Z.add_0_r. by destruct c. }
  apply Forall_cons in HF as [[HB HA] HF]. cbn [fmap list_fmap] in Hd. apply NoDup_cons in Hd as [Hne Hd].
  assert (len (e :: es) = 1 + len es) as Hlen by (unfold len; cbn [length]; lia). pose proof (len_nonneg es).
  assert (0 <= sum_list (tx_size <$> es)) as Hnn.
  { clear -HF. induction HF as [|x l [[Hx _] _] _ IHl]; cbn [fmap list_fmap sum_list]; [lia|].
    assert (tx_size x = GetSerializedSize (e_tx x)) by (rewrite Hx; done). pose proof (GetSerializedSize_pos (e_tx x)). lia. }
  cbn [fmap list_fmap sum_list] in Hz. rewrite Hlen in *.
  destruct (Hfresh e ltac:(left)) as [Hn Ho].
  destruct (AddTx_admits p e height (now i) Hwf HB HA Hh (Htime e i ltac:(left)) Hn Ho ltac:(lia) ltac:(lia))
    as (p1 & ev1 & EA & Hwf1 & EM & [EL1 EL2] & ES & EZ & EC).
  cbn [length load_txs fmap list_fmap concat]. unfold tx_record at 1. rewrite <- !app_assoc.
  destruct HA as (Htx & Hcb & Hfee & Ht0). pose proof (entry_bytes e Htx) as Hbytes. pose proof (GetSerializedSize_pos (e_tx e)) as Hpos.
  destruct HB as [HE Hs]. assert (tx_size e = GetSerializedSize (e_tx e)) as Es by (rewrite HE; done). unfold MAX_TX_SIZE in Hs.
  rewrite ReadUint32_write by lia. unfold MAX_DUMP_TX_SIZE.
  destruct (Z.eqb_spec (len (Serialize (e_tx e))) 0); [lia|]. destruct (Z.gtb_spec (len (Serialize (e_tx e))) (4 * 1024 * 1024)); [lia|].
  cbn [orb]. rewrite stream_read_app by (unfold len; by rewrite Nat2Z.id). cbn [mbind option_bind].
  rewrite ReadInt64_write by lia. cbn [mbind option_bind]. rewrite ReadInt64_write by lia. cbn [mbind option_bind].
  rewrite <- (app_nil_r (Serialize (e_tx e))), Deserialize_prefix by done. rewrite EA. cbn [is_ok].
  destruct (IH (S i) p1 (mkCounts (txs_read c + 1) (txs_admitted c + 1) (txs_dropped_invalid c)) (ev ++ ev1) rest) as (p' & ev' & EQ & Hwf' & EM');
    [done|done|done|intros; apply Htime; by right|done|intros a b o Ha Hb; apply Hsingle; by right| |lia|lia|].
  { intros x Hx. destruct (Hfresh x ltac:(by right)) as [Hxn Hxo]. rewrite EM, ES. split.
    - rewrite lookup_insert_ne; [done|]. intros E. apply Hne. rewrite E. by apply list_elem_of_fmap_2.
    - intros o Hox [Hoe%elem_of_list_to_set|Hoe]%elem_of_union; [|by apply (Hxo o)].
      assert (x = e) as -> by (by apply (Hsingle x e o); [right|left| |]). apply Hne. by apply list_elem_of_fmap_2. }
  exists p', ev'. split_and!; [|done|].
  - rewrite EQ. cbn [txs_read txs_admitted txs_dropped_invalid]. do 3 f_equal. f_equal; lia.
  - rewrite EM', EM, <- insert_union_r; [by rewrite insert_union_l|]. apply not_elem_of_list_to_map_1. by rewrite <- list_fmap_compose.
Qed.

Lemma pool_hashes_NoDup p : wf p -> NoDup (tx_hash <$> setEntries p).
Proof.
  intros Hwf. apply NoDup_fmap_2_strong; [|by apply (pool_NoDup SHA3_256)]. intros a b Ha Hb. by apply (pool_by_hash SHA3_256 p).
Qed.

(** ** The file *)

Definition file_of (key body : list Z) : list Z :=
  SCHEMA_VERSION :: key ++ XorScramble body key 0 ++
    XorScramble (ComputeFooter SHA3_256 (SCHEMA_VERSION :: key ++ body)) key (length body).

Lemma length_footer payload : length (ComputeFooter SHA3_256 payload) = FOOTER_SIZE.
Proof. unfold ComputeFooter, FOOTER_SIZE. by rewrite length_take, SHA3_len. Qed.

Lemma len_file_of key body : length key = XOR_KEY_SIZE -> len (file_of key body) = 41 + len body.
Proof.
  intros Hk. unfold file_of, len. cbn [length]. rewrite !length_app, !length_XorScramble, length_footer, Hk.
  unfold FOOTER_SIZE, XOR_KEY_SIZE. lia.
Qed.

(** A file with the right footer is read up to its count. *)
Lemma load_file key body now fail p tmp height : length key = XOR_KEY_SIZE -> 8 <= len body <= MAX_FILE_SIZE - 41 ->
  LoadMempool SHA3_256 now fail p None (mkDir (Some (file_of key body)) tmp) height =
    match ReadUint64 body with
    | None => (ColdStart StreamError, mkCounts 0 0 0, p, [])
    | Some (tx_count, s) =>
        if tx_count >? MAX_DUMP_TX_COUNT then (ColdStart CountExceedsBound, mkCounts 0 0 0, p, [])
        else load_txs SHA3_256 now fail (Z.to_nat tx_count) 0 s height (mkCounts 0 0 0) p []
    end.
Proof.
  intros Hk Hlen. unfold LoadMempool. cbn [mempool_dat]. rewrite len_file_of by done. unfold MIN_FILE_SIZE.
  destruct (Z.gtb_spec (41 + len body) MAX_FILE_SIZE); [lia|]. destruct (Z.ltb_spec (41 + len body) (1 + 32 + 8 + 8)); [lia|].
  change (byte_at (file_of key body) 0) with SCHEMA_VERSION. rewrite Z.eqb_refl. cbn [negb].
  destruct (unscrambled key body (ComputeFooter SHA3_256 (SCHEMA_VERSION :: key ++ body)) Hk) as [EK EW].
  fold (file_of key body) in EK, EW. rewrite EK, EW, VerifyFooter_app by apply length_footer.
  rewrite bool_decide_eq_true_2 by done. cbn [negb]. rewrite length_app, length_footer, Nat.add_sub, take_app_length.
  by replace (drop (1 + XOR_KEY_SIZE) (SCHEMA_VERSION :: key ++ body)) with body
    by (rewrite <- Hk; symmetry; exact (drop_app_length (SCHEMA_VERSION :: key) body)).
Qed.

(** The entries of a pool, in the order in which they are written. *)
Lemma pool_records p : wf p -> Forall admissible (setEntries p) ->
  Forall (fun e => built e /\ admissible e) (map_entries p) /\ len (map_entries p) = mempool_count p /\
  sum_list (tx_size <$> map_entries p) = mempool_size p /\
  dump_records (map_entries p) = Some (concat (tx_record <$> map_entries p)) /\
  len (concat (tx_record <$> map_entries p)) = mempool_size p + 20 * mempool_count p.
Proof.
  intros Hwf HA. pose proof (map_entries_perm SHA3_256 p Hwf) as HP. set (es := map_entries p) in *.
  assert (Forall (fun e => built e /\ admissible e) es) as HF.
  { apply Forall_forall. intros e He. rewrite HP in He. rewrite Forall_forall in HA. split; [|by apply HA].
    apply (pw_set _ _ Hwf) in He. by apply (pw_entry _ _ Hwf) in He as (_ & ? & ?). }
  assert (len es = mempool_count p) as HC by (rewrite (pw_count _ _ Hwf); unfold len; by rewrite HP).
  assert (sum_list (tx_size <$> es) = mempool_size p) as HZ by (rewrite (pw_size _ _ Hwf); apply sum_list_perm; by rewrite HP).
  assert ((fun e => GetSerializedSize (e_tx e)) <$> es = tx_size <$> es) as HG.
  { apply list_fmap_ext. intros i e He%list_elem_of_lookup_2. rewrite Forall_forall in HF. destruct (HF e He) as [[HE _] _]. by rewrite HE. }
  destruct (dump_records_ok es) as [ER HL].
  { eapply Forall_impl; [exact HF|]. intros e [[HE Hs] (Hw & _)]. split; [done|]. rewrite HE in Hs. exact Hs. }
  rewrite HG, HZ, HC in HL. done.
Qed.

Lemma restored_map height p es : wf p -> es ≡ₚ setEntries p ->
  (list_to_map ((fun e => (tx_hash e, restored height e)) <$> es) : gmap uint256 CTxMemPoolEntry) = restored height <$> mapTx p.
Proof.
  intros Hwf HP. apply map_eq. intros h. rewrite lookup_fmap.
  assert (NoDup (((fun e => (tx_hash e, restored height e)) <$> es).*1)) as Hd.
  { rewrite <- list_fmap_compose. change (NoDup (tx_hash <$> es)). rewrite HP. by apply pool_hashes_NoDup. }
  destruct (mapTx p !! h) as [e|] eqn:E; cbn [fmap option_fmap option_map].
  - destruct (pw_entry _ _ Hwf _ _ E) as (-> & _). apply elem_of_list_to_map_1; [done|]. apply list_elem_of_fmap. exists e.
    split; [done|]. rewrite HP. by apply Hwf.
  - apply not_elem_of_list_to_map_1. rewrite <- list_fmap_compose. intros (e & -> & He)%list_elem_of_fmap. cbn in E.
    rewrite HP in He. apply (pw_set _ _ Hwf) in He. congruence.
Qed.

(** C37: the memory pool survives a restart. For a consistent pool with the default limits, whose entries are
    well-formed transactions other than coinbases with non-negative 64-bit fees and positive times, the dump succeeds
    when no system call fails; and loading the file into a fresh empty pool with the default limits, when neither a
    system call nor an allocation fails, at a height other than 0 and with a clock that is never more than the
    permitted skew behind the time of an entry, admits every transaction and drops none: the new pool is consistent
    and holds exactly the old transactions with their fees and times, at the new height. No condition is put on the
    chain: the admission does not look at the chain state, so transactions that the chain has meanwhile confirmed or
    made invalid come back as well. *)
Theorem mempool_survives_restart (p : CTxMemPool) (key : list Z) (cleanup_fails : bool) (d : DataDir) (now : nat -> Z) (height : Z) :
  wf p -> max_mempool_size p = DEFAULT_MAX_MEMPOOL_SIZE -> max_mempool_count p = DEFAULT_MAX_MEMPOOL_COUNT ->
  Forall admissible (setEntries p) -> length key = XOR_KEY_SIZE -> height <> 0 ->
  (forall e j, e ∈ setEntries p -> e_time e <= i64 (now j + MAX_TIME_SKEW)) ->
  exists d', DumpMempool SHA3_256 p key None cleanup_fails d = (Ok (mempool_count p), d') /\
  exists p' ev, LoadMempool SHA3_256 now (fun _ => None) empty_pool None d' height =
      (Loaded, mkCounts (mempool_count p) (mempool_count p) 0, p', ev) /\
    wf p' /\ mapTx p' = restored height <$> mapTx p.
Proof.
  intros Hwf HM1 HM2 HA Hkey Hh Htime. pose proof (map_entries_perm SHA3_256 p Hwf) as HP.
  destruct (pool_records p Hwf HA) as (HF & HC & HZ & ER & HL). set (es := map_entries p) in *.
  destruct (pw_limits _ _ Hwf) as (L1 & L2 & _). rewrite HM1, HM2 in *. unfold DEFAULT_MAX_MEMPOOL_SIZE, DEFAULT_MAX_MEMPOOL_COUNT in *.
  set (records := concat (tx_record <$> es)) in *. pose proof (len_nonneg es). pose proof (len_nonneg records).
  assert (len (WriteUint64 (len es) ++ records) = 8 + len records) as HB
    by (rewrite len_app; unfold len at 1, WriteUint64; by rewrite length_le_bytes).
  exists (mkDir (Some (file_of key (WriteUint64 (len es) ++ records))) None). split.
  { unfold DumpMempool, GetAllEntries. fold es. rewrite ER. fold records. fold (file_of key (WriteUint64 (len es) ++ records)).
    rewrite len_file_of, HB by done. unfold MAX_DUMP_TX_COUNT, MAX_FILE_SIZE. destruct (Z.gtb_spec (len es) 200000); [lia|].
    destruct (Z.gtb_spec (41 + (8 + len records)) (512 * 1024 * 1024)); [lia|]. cbn [AtomicWrite]. by rewrite HC. }
  rewrite load_file by (done || unfold MAX_FILE_SIZE; lia). rewrite ReadUint64_write, u64_small by lia. unfold MAX_DUMP_TX_COUNT.
  destruct (Z.gtb_spec (len es) 200000); [lia|].
  replace (Z.to_nat (len es)) with (length es) by (unfold len; by rewrite Nat2Z.id). rewrite <- (app_nil_r records).
  destruct (load_txs_restores now height es 0 empty_pool (mkCounts 0 0 0) [] []) as (p' & ev & EQ & Hwf' & EM);
    [apply empty_pool_wf|done|done| | | | |cbn; unfold DEFAULT_MAX_MEMPOOL_COUNT; lia|cbn; unfold DEFAULT_MAX_MEMPOOL_SIZE; lia|].
  - intros e j He. rewrite HP in He. by apply Htime.
  - rewrite HP. by apply pool_hashes_NoDup.
  - intros a b o Ha Hb. rewrite HP in Ha, Hb. by apply (pw_single _ _ Hwf).
  - intros e _. split; [apply lookup_empty|]. intros o _. apply not_elem_of_empty.
  - exists p', ev. rewrite <- HC. split_and!; [exact EQ|done|]. rewrite EM. cbn [mapTx empty_pool]. rewrite map_union_empty.
    by apply restored_map.
Qed.

(** ** Failures *)

Lemma AddTx_wf fail p tx fee time height t : (forall f, fail = Some f -> clean_failure tx f = true) -> wf p ->
  wf (AddTx SHA3_256 fail p (Some tx) fee time height t true).1.2.
Proof. intros Hf Hwf. apply (pool_step_wf SHA3_256 p); [|done]. apply step_add. destruct fail; [by apply Hf|done]. Qed.

(** The bytes of a record, of which [tx_record] gives those of an entry. *)
Record TxRecord := mkRecord { rc_bytes : list Z; rc_time : Z; rc_fee : Z }.
Definition record_bytes (r : TxRecord) : list Z :=
  WriteUint32 (len (rc_bytes r)) ++ rc_bytes r ++ WriteInt64 (rc_time r) ++ WriteInt64 (rc_fee r).

(** What is done with one record, the [i]-th, and with a list of them. *)
Definition admit_record (now : nat -> Z) (fail : nat -> option alloc_failure) (height : Z) (i : nat) (r : TxRecord)
    (st : LoadCounts * CTxMemPool * list EstimatorEvent) : LoadCounts * CTxMemPool * list EstimatorEvent :=
  let '(c, p, ev) := st in
  match Deserialize (rc_bytes r) true with
  | Err _ => (mkCounts (txs_read c) (txs_admitted c) (txs_dropped_invalid c + 1), p, ev)
  | Ok (tx, _) =>
      match AddTx SHA3_256 (fail i) p (Some tx) (rc_fee r) (rc_time r) height (now i) true with
      | (Ok _, p, ev') => (mkCounts (txs_read c + 1) (txs_admitted c + 1) (txs_dropped_invalid c), p, ev ++ ev')
      | (Err _, p, ev') => (mkCounts (txs_read c + 1) (txs_admitted c) (txs_dropped_invalid c + 1), p, ev ++ ev')
      end
  end.
Fixpoint admit_all now fail height (i : nat) (rs : list TxRecord) st : LoadCounts * CTxMemPool * list EstimatorEvent :=
  match rs with [] => st | r :: rs => admit_all now fail height (S i) rs (admit_record now fail height i r st) end.

(** Why no further record can be read. *)
Definition bad_record (rest : list Z) (r : ColdStartReason) : Prop :=
  match r with
  | StreamError => len rest < 4 \/ 0 < le_val (take 4 rest) <= MAX_DUMP_TX_SIZE /\ len rest < 20 + le_val (take 4 rest)
  | MalformedTxSize => 4 <= len rest /\ (le_val (take 4 rest) = 0 \/ MAX_DUMP_TX_SIZE < le_val (take 4 rest))
  | _ => False
  end.

(** The outcome of the records of a file that announces [n] of them. *)
Definition records_end (n : nat) (rs : list TxRecord) (rest : list Z) (o : LoadOutcome) : Prop :=
  match o with
  | Loaded => length rs = n
  | ColdStart r => (length rs < n)%nat /\ bad_record rest r
  | HardError _ => False
  end.

Lemma load_record s tx_size s1 : bytes_ok s -> ReadUint32 s = Some (tx_size, s1) -> 0 < tx_size <= MAX_DUMP_TX_SIZE ->
  match '(tx_bytes, s) ← stream_read (Z.to_nat tx_size) s1; '(time, s) ← ReadInt64 s; '(fee, s) ← ReadInt64 s;
        Some (tx_bytes, time, fee, s) with
  | None => bad_record s StreamError
  | Some (tx_bytes, time, fee, s') =>
      let r := mkRecord tx_bytes time fee in s = record_bytes r ++ s' /\ bytes_ok s' /\ 0 < len tx_bytes <= MAX_DUMP_TX_SIZE
  end.
Proof.
  intros HB E Hsize. apply ReadUint32_Some in E as (Es & HB1 & Hv); [|done].
  assert (bad_record s StreamError <-> len s1 < 16 + tx_size) as Hbad.
  { subst s. unfold bad_record, WriteUint32. rewrite take_app_length', le_val_le_bytes, u32_small, Z.mod_small
      by (apply length_le_bytes || done). rewrite len_app. unfold len at 1 3. rewrite length_le_bytes. lia. }
  destruct (stream_read _ s1) as [[b s2]|] eqn:E1; cbn [mbind option_bind].
  2: { unfold stream_read in E1. destruct (Nat.ltb_spec (length s1) (Z.to_nat tx_size)); [|done]. apply Hbad. unfold len. lia. }
  apply stream_read_Some in E1 as [-> Hlb]. apply Forall_app in HB1 as [_ HB2].
  assert (len b = tx_size) as Hb by (unfold len; lia). rewrite len_app in Hbad.
  assert (forall t, ReadInt64 t = None -> len t < 8) as Hshort.
  { intros t. unfold ReadInt64, ReadUint64, stream_read. destruct (Nat.ltb_spec (length t) 8); [unfold len; lia|done]. }
  destruct (ReadInt64 s2) as [[time s3]|] eqn:E2; cbn [mbind option_bind]; [|apply Hbad; apply Hshort in E2; lia].
  apply ReadInt64_Some in E2 as [-> HB3]; [|done]. rewrite len_app in Hbad. unfold WriteInt64 at 1, WriteUint64 in Hbad.
  unfold len at 2 in Hbad. rewrite length_le_bytes in Hbad.
  destruct (ReadInt64 s3) as [[fee s4]|] eqn:E3; cbn [mbind option_bind]; [|apply Hbad; apply Hshort in E3; lia].
  apply ReadInt64_Some in E3 as [-> HB4]; [|done]. cbn zeta. split_and!; [|done|lia|lia]. unfold record_bytes. cbn [rc_bytes rc_time rc_fee].
  rewrite Es, Hb. by rewrite <- !app_assoc.
Qed.

(** The loop reads the longest run of records there is, and admits them one after the other. *)
Lemma load_txs_records now fail height n : forall i s c p ev, bytes_ok s ->
  exists rs rest o, s = concat (record_bytes <$> rs) ++ rest /\ Forall (fun r => 0 < len (rc_bytes r) <= MAX_DUMP_TX_SIZE) rs /\
    records_end n rs rest o /\
    load_txs SHA3_256 now fail n i s height c p ev =
      (let '(c, p, ev) := admit_all now fail height i rs (c, p, ev) in (o, c, p, ev)).
Proof.
  induction n as [|n IH]; intros i s c p ev HB; cbn [load_txs]; [by exists [], s, Loaded|].
  destruct (ReadUint32 s) as [[size s1]|] eqn:E.
  2: { exists [], s, (ColdStart StreamError). split_and!; [done|done| |done]. split; [cbn; lia|left]. unfold ReadUint32, stream_read in E.
       destruct (Nat.ltb_spec (length s) 4); [unfold len; lia|done]. }
  pose proof (load_record s size s1 HB E) as HR. destruct (_ || _) eqn:ES.
  { apply ReadUint32_Some in E as (-> & _ & Hv); [|done]. exists [], (WriteUint32 size ++ s1), (ColdStart MalformedTxSize).
    split_and!; [done|done| |done]. split; [cbn; lia|]. cbn [bad_record]. unfold WriteUint32.
    rewrite take_app_length', le_val_le_bytes, u32_small, Z.mod_small by (apply length_le_bytes || done). rewrite len_app.
    unfold len at 1. rewrite length_le_bytes. pose proof (len_nonneg s1). apply orb_true_iff in ES as [ES|ES]; zprop; split; lia. }
  apply orb_false_iff in ES as [ES1 ES2]. zprop. pose proof (ReadUint32_Some _ _ _ HB E) as (_ & _ & Hv). specialize (HR ltac:(lia)).
  destruct ('(tx_bytes, s2) ← _; _) as [[[[b time] fee] s2]|].
  2: { exists [], s, (ColdStart StreamError). split_and!; [done|done| |done]. split; [cbn; lia|done]. }
  destruct HR as (-> & HB2 & Hb). set (r := mkRecord b time fee) in *.
  assert (forall c' p' ev', admit_record now fail height i r (c, p, ev) = (c', p', ev') ->
    exists rs rest o, record_bytes r ++ s2 = concat (record_bytes <$> rs) ++ rest /\
      Forall (fun r => 0 < len (rc_bytes r) <= MAX_DUMP_TX_SIZE) rs /\ records_end (S n) rs rest o /\
      load_txs SHA3_256 now fail n (S i) s2 height c' p' ev' =
        (let '(c, p, ev) := admit_all now fail height i rs (c, p, ev) in (o, c, p, ev))) as Hnext.
  { intros c' p' ev' EA. destruct (IH (S i) s2 c' p' ev' HB2) as (rs & rest & o & Es & HF & HE & EL). exists (r :: rs), rest, o.
    cbn [fmap list_fmap concat admit_all]. rewrite EA. split_and!; [by rewrite Es, app_assoc|by constructor| |done].
    destruct o; cbn in *; [lia|split; [lia|apply HE]|done]. }
  unfold admit_record in Hnext. cbn [rc_bytes rc_time rc_fee r] in Hnext.
  destruct (Deserialize b true) as [[tx k]|]; [|by apply Hnext].
  destruct (AddTx _ _ _ _ _ _ _ _ _) as [[[|] p1] ev1]; cbn [is_ok]; by apply Hnext.
Qed.

Lemma admit_all_wf now fail height (Hfail : forall i f tx, fail i = Some f -> clean_failure tx f = true) rs : forall i c p ev,
  wf p -> wf (admit_all now fail height i rs (c, p, ev)).1.2.
Proof.
  induction rs as [|r rs IH]; intros i c p ev Hwf; cbn [admit_all]; [done|]. unfold admit_record.
  destruct (Deserialize (rc_bytes r) true) as [[tx k]|]; [|by apply IH].
  pose proof (AddTx_wf (fail i) p tx (rc_fee r) (rc_time r) height (now i) (fun f E => Hfail i f tx E) Hwf) as Hw.
  destruct (AddTx _ _ _ _ _ _ _ _ _) as [[[|] p1] ev1]; by apply IH.
Qed.

(** The footer is right exactly in the files that a dump of some body makes. *)
Lemma footer_iff file : 49 <= len file -> byte_at file 0 = SCHEMA_VERSION ->
  VerifyFooter SHA3_256 (take (1 + XOR_KEY_SIZE) file ++ XorScramble (drop (1 + XOR_KEY_SIZE) file) (take XOR_KEY_SIZE (drop 1 file)) 0) = true <->
  exists key body, length key = XOR_KEY_SIZE /\ file = file_of key body.
Proof.
  intros Hlen Hver. split.
  - destruct file as [|v rest]; [done|]. cbn in Hver. subst v. change (drop 1 (SCHEMA_VERSION :: rest)) with rest.
    change (take (1 + XOR_KEY_SIZE) (SCHEMA_VERSION :: rest)) with (SCHEMA_VERSION :: take XOR_KEY_SIZE rest).
    change (drop (1 + XOR_KEY_SIZE) (SCHEMA_VERSION :: rest)) with (drop XOR_KEY_SIZE rest).
    assert (49 <= S (length rest))%nat as Hn by (unfold len in Hlen; cbn [length] in Hlen; lia).
    assert (length (take XOR_KEY_SIZE rest) = XOR_KEY_SIZE) as Hk by (rewrite length_take; unfold XOR_KEY_SIZE; lia).
    set (key := take XOR_KEY_SIZE rest) in *. set (plain := XorScramble (drop XOR_KEY_SIZE rest) key 0).
    assert (length plain = length rest - 32)%nat as Hp by (unfold plain; by rewrite length_XorScramble, length_drop).
    set (body := take (length plain - FOOTER_SIZE) plain). set (footer := drop (length plain - FOOTER_SIZE) plain).
    assert (length footer = FOOTER_SIZE) as Hf by (unfold footer; rewrite length_drop; unfold FOOTER_SIZE; lia).
    assert (body ++ footer = plain) as Hbf by apply take_drop.
    change ((SCHEMA_VERSION :: key) ++ plain) with (SCHEMA_VERSION :: key ++ plain). rewrite <- Hbf, app_assoc.
    change (SCHEMA_VERSION :: (key ++ body) ++ footer) with ((SCHEMA_VERSION :: key ++ body) ++ footer).
    rewrite VerifyFooter_app by done. intros EF%bool_decide_eq_true. exists key, body. split; [done|]. unfold file_of. rewrite EF.
    rewrite <- (Nat.add_0_r (length body)), <- XorScramble_app, Hbf. unfold plain. rewrite XorScramble_twice. f_equal. symmetry. apply take_drop.
  - intros (key & body & Hk & ->). destruct (unscrambled key body (ComputeFooter SHA3_256 (SCHEMA_VERSION :: key ++ body)) Hk) as [EK EW].
    fold (file_of key body) in EK, EW. rewrite EK, EW, VerifyFooter_app by apply length_footer. by rewrite bool_decide_eq_true_2.
Qed.

(** What a dump reports and leaves behind, case by case. *)
Definition dump_file (p : CTxMemPool) (key : list Z) : list Z :=
  file_of key (WriteUint64 (len (GetAllEntries p)) ++ concat (tx_record <$> GetAllEntries p)).
Definition oversized (e : CTxMemPoolEntry) : Prop := MAX_DUMP_TX_SIZE < len (Serialize (e_tx e)).

(** What is left of the temporary file by an operation that fails. *)
Definition partial_file (e : WriteFault) (file : list Z) : list Z := match e with FwriteShort k => take k file | _ => file end.

(** [fwrite] returns the number of bytes written: a full count is no failure. *)
Definition is_failure (fault : option WriteFault) (file : list Z) : Prop :=
  match fault with None => False | Some (FwriteShort k) => (k < length file)%nat | Some _ => True end.

Inductive dump_outcome (p : CTxMemPool) (key : list Z) (fault : option WriteFault) (cleanup_fails : bool) (d : DataDir)
  : result DumpError Z * DataDir -> Prop :=
| dump_too_many : MAX_DUMP_TX_COUNT < len (GetAllEntries p) -> dump_outcome p key fault cleanup_fails d (Err TooManyEntries, d)
| dump_tx_too_large : len (GetAllEntries p) <= MAX_DUMP_TX_COUNT -> List.Exists oversized (GetAllEntries p) ->
    dump_outcome p key fault cleanup_fails d (Err TxTooLarge, d)
| dump_too_large : len (GetAllEntries p) <= MAX_DUMP_TX_COUNT -> ~ List.Exists oversized (GetAllEntries p) -> MAX_FILE_SIZE < len (dump_file p key) ->
    dump_outcome p key fault cleanup_fails d (Err FileTooLarge, d)
| dump_not_opened : len (GetAllEntries p) <= MAX_DUMP_TX_COUNT -> ~ List.Exists oversized (GetAllEntries p) ->
    len (dump_file p key) <= MAX_FILE_SIZE -> fault = Some FopenFails ->
    dump_outcome p key fault cleanup_fails d (Err (WriteFailed FopenFails), d)
| dump_not_durable : len (GetAllEntries p) <= MAX_DUMP_TX_COUNT -> ~ List.Exists oversized (GetAllEntries p) ->
    len (dump_file p key) <= MAX_FILE_SIZE -> fault = Some DirFsyncFails ->
    dump_outcome p key fault cleanup_fails d (Err (WriteFailed DirFsyncFails), mkDir (Some (dump_file p key)) None)
| dump_not_written e : len (GetAllEntries p) <= MAX_DUMP_TX_COUNT -> ~ List.Exists oversized (GetAllEntries p) ->
    len (dump_file p key) <= MAX_FILE_SIZE -> fault = Some e -> e <> FopenFails -> e <> DirFsyncFails -> is_failure fault (dump_file p key) ->
    dump_outcome p key fault cleanup_fails d
      (Err (WriteFailed e), mkDir (mempool_dat d) (if cleanup_fails then Some (partial_file e (dump_file p key)) else None))
| dump_written : len (GetAllEntries p) <= MAX_DUMP_TX_COUNT -> ~ List.Exists oversized (GetAllEntries p) ->
    len (dump_file p key) <= MAX_FILE_SIZE -> ~ is_failure fault (dump_file p key) ->
    dump_outcome p key fault cleanup_fails d (Ok (len (GetAllEntries p)), mkDir (Some (dump_file p key)) None).

Lemma dump_records_spec es :
  match dump_records es with
  | None => List.Exists oversized es
  | Some records => ~ List.Exists oversized es /\ records = concat (tx_record <$> es)
  end.
Proof.
  induction es as [|e es IH]; cbn [dump_records]; [by split; [intros H; inversion H|]|].
  destruct (Z.gtb_spec (len (Serialize (e_tx e))) MAX_DUMP_TX_SIZE); [by left|].
  destruct (dump_records es) as [records|]; cbn [mbind option_bind]; [|by right]. destruct IH as [Hn ->]. split; [|done].
  intros [H'|H']%Exists_cons; [unfold oversized in H'; lia|done].
Qed.

Lemma DumpMempool_outcome p key fault cleanup_fails d :
  dump_outcome p key fault cleanup_fails d (DumpMempool SHA3_256 p key fault cleanup_fails d).
Proof.
  unfold DumpMempool. destruct (Z.gtb_spec (len (GetAllEntries p)) MAX_DUMP_TX_COUNT); [by apply dump_too_many|].
  pose proof (dump_records_spec (GetAllEntries p)) as HR. destruct (dump_records _) as [records|]; [|by apply dump_tx_too_large].
  destruct HR as [Hn ->]. fold (file_of key (WriteUint64 (len (GetAllEntries p)) ++ concat (tx_record <$> GetAllEntries p))).
  fold (dump_file p key). destruct (Z.gtb_spec (len (dump_file p key)) MAX_FILE_SIZE); [by apply dump_too_large|].
  destruct fault as [[|k| | | |]|]; cbn [AtomicWrite]; [by apply dump_not_opened| |by apply dump_not_written..|by apply dump_not_durable|by apply dump_written; [done..|intros []]].
  destruct (Nat.ltb_spec k (length (dump_file p key))); [by apply dump_not_written|apply dump_written; [done..|unfold is_failure; lia]].
Qed.

(** What a load reports and does to the pool, case by case. *)
Inductive load_outcome (now : nat -> Z) (fail : nat -> option alloc_failure) (p : CTxMemPool) (fault : option LoadFault) (d : DataDir)
    (height : Z) : LoadOutcome * LoadCounts * CTxMemPool * list EstimatorEvent -> Prop :=
| load_missing : mempool_dat d = None ->
    load_outcome now fail p fault d height (ColdStart FileNotFound, mkCounts 0 0 0, p, [])
| load_no_size file : mempool_dat d = Some file -> fault = Some FileSizeFails ->
    load_outcome now fail p fault d height (HardError FileSizeFails, mkCounts 0 0 0, p, [])
| load_too_big file : mempool_dat d = Some file -> fault <> Some FileSizeFails -> MAX_FILE_SIZE < len file ->
    load_outcome now fail p fault d height (ColdStart FileTooBig, mkCounts 0 0 0, p, [])
| load_too_small file : mempool_dat d = Some file -> fault <> Some FileSizeFails -> len file < 49 ->
    load_outcome now fail p fault d height (ColdStart FileTooSmall, mkCounts 0 0 0, p, [])
| load_unreadable file e : mempool_dat d = Some file -> fault = Some e -> e <> FileSizeFails -> 49 <= len file <= MAX_FILE_SIZE ->
    load_outcome now fail p fault d height (HardError e, mkCounts 0 0 0, p, [])
| load_version file : mempool_dat d = Some file -> fault = None -> 49 <= len file <= MAX_FILE_SIZE -> byte_at file 0 <> 1 ->
    load_outcome now fail p fault d height (ColdStart UnknownVersion, mkCounts 0 0 0, p, [])
| load_footer file : mempool_dat d = Some file -> fault = None -> 49 <= len file <= MAX_FILE_SIZE -> byte_at file 0 = 1 ->
    (forall key body, length key = XOR_KEY_SIZE -> file <> file_of key body) ->
    load_outcome now fail p fault d height (ColdStart FooterMismatch, mkCounts 0 0 0, p, [])
| load_count key body count : mempool_dat d = Some (file_of key (WriteUint64 count ++ body)) -> length key = XOR_KEY_SIZE -> fault = None ->
    49 + len body <= MAX_FILE_SIZE -> MAX_DUMP_TX_COUNT < count < 2 ^ 64 ->
    load_outcome now fail p fault d height (ColdStart CountExceedsBound, mkCounts 0 0 0, p, [])
| load_records key count rs rest o c p' ev :
    mempool_dat d = Some (file_of key (WriteUint64 count ++ concat (record_bytes <$> rs) ++ rest)) -> length key = XOR_KEY_SIZE -> fault = None ->
    49 + len (concat (record_bytes <$> rs) ++ rest) <= MAX_FILE_SIZE -> 0 <= count <= MAX_DUMP_TX_COUNT ->
    Forall (fun r => 0 < len (rc_bytes r) <= MAX_DUMP_TX_SIZE) rs -> records_end (Z.to_nat count) rs rest o ->
    admit_all now fail height 0 rs (mkCounts 0 0 0, p, []) = (c, p', ev) ->
    load_outcome now fail p fault d height (o, c, p', ev).

Lemma file_of_bytes key body : bytes_ok (file_of key body) -> bytes_ok body.
Proof.
  unfold file_of. intros [_ [Hk [HX _]%Forall_app]%Forall_app]%Forall_cons. rewrite <- (XorScramble_twice body key 0). by apply bytes_ok_XorScramble.
Qed.

(** The checks made before a file is parsed, in their order. *)
Lemma LoadMempool_checks now fail p fault file tmp height : fault <> Some FileSizeFails ->
  let stop o := (o, mkCounts 0 0 0, p, []) in
  LoadMempool SHA3_256 now fail p fault (mkDir (Some file) tmp) height =
    if len file >? MAX_FILE_SIZE then stop (ColdStart FileTooBig)
    else if len file <? 49 then stop (ColdStart FileTooSmall)
    else match fault with
         | Some e => stop (HardError e)
         | None =>
             if negb (byte_at file 0 =? 1) then stop (ColdStart UnknownVersion)
             else if negb (VerifyFooter SHA3_256 (take (1 + XOR_KEY_SIZE) file ++
                             XorScramble (drop (1 + XOR_KEY_SIZE) file) (take XOR_KEY_SIZE (drop 1 file)) 0)) then stop (ColdStart FooterMismatch)
             else LoadMempool SHA3_256 now fail p None (mkDir (Some file) tmp) height
         end.
Proof.
  intros Hf stop. unfold LoadMempool. cbn [mempool_dat]. change MIN_FILE_SIZE with 49. change SCHEMA_VERSION with 1.
  destruct (len file >? MAX_FILE_SIZE), (len file <? 49); try by destruct fault as [[]|].
  destruct fault as [[]|]; [done..|]. destruct (negb (byte_at file 0 =? 1)); [done|]. by destruct (negb (VerifyFooter _ _)).
Qed.

Lemma LoadMempool_outcome now fail p fault d height : (forall file, mempool_dat d = Some file -> bytes_ok file) ->
  load_outcome now fail p fault d height (LoadMempool SHA3_256 now fail p fault d height).
Proof.
  intros HB. destruct d as [[file|] tmp]; [|by apply load_missing]. specialize (HB file eq_refl).
  destruct (decide (fault = Some FileSizeFails)) as [->|Hf]; [by eapply load_no_size|]. rewrite LoadMempool_checks by done. cbn zeta.
  destruct (Z.gtb_spec (len file) MAX_FILE_SIZE); [by eapply load_too_big|]. destruct (Z.ltb_spec (len file) 49); [by eapply load_too_small|].
  destruct fault as [e|]; [eapply load_unreadable; [done..|congruence|done]|].
  destruct (Z.eqb_spec (byte_at file 0) 1) as [Hver|Hver]; cbn [negb]; [|by eapply load_version].
  pose proof (footer_iff file ltac:(done) Hver) as HV. destruct (VerifyFooter _ _); cbn [negb].
  2: { eapply load_footer; [done..|]. intros key body Hk ->. destruct HV as [_ HV]. by discriminate HV; eauto. }
  destruct HV as [(key & body & Hk & ->) _]; [done|]. rewrite len_file_of in * by done. apply file_of_bytes in HB.
  rewrite load_file by (done || lia). destruct (ReadUint64 body) as [[count s]|] eqn:EC.
  2: { unfold ReadUint64, stream_read in EC. destruct (Nat.ltb_spec (length body) 8); [unfold len in *; lia|done]. }
  apply ReadUint64_Some in EC as (-> & HBs & Hc); [|done].
  assert (len (WriteUint64 count ++ s) = 8 + len s) as Hs by (rewrite len_app; unfold len, WriteUint64; by rewrite length_le_bytes).
  destruct (Z.gtb_spec count MAX_DUMP_TX_COUNT); [eapply load_count; [done..|lia|lia]|].
  destruct (load_txs_records now fail height (Z.to_nat count) 0 s (mkCounts 0 0 0) p [] HBs) as (rs & rest & o & -> & HF & HE & ->).
  destruct (admit_all _ _ _ _ _ _) as [[c p'] ev] eqn:EA. eapply load_records; [done..|lia|lia|done|done|done].
Qed.

(** C38: what every failure of the pool file does.  A dump: more than 200000 entries, an entry over four megabytes or a file over
    512 megabytes is refused before anything is written; a temporary file that cannot be opened changes nothing; a short write, a
    failed flush, a failed synchronisation of the file and a failed rename are each reported, leave the previous file as it was and
    remove the temporary one, or leave what was written of it when the removal fails too; a failed synchronisation of the
    directory is reported although the complete new file is in place; otherwise the entries written are counted and the new file
    is the version, the key, the scrambled count and records and the scrambled footer over them, with no temporary file left.
    A load: a missing file, one over or under the size limits, one of another version, one whose footer is not that of its
    contents, and one announcing more than 200000 records is each reported as that cold start and leaves the pool alone; a
    failing size query, opening or reading is the hard error and leaves the pool alone; in any other file the records are admitted in order, each
    with its own fee and time at the given height, those that do not decode or are refused being counted as dropped, up to the
    announced number, or up to the first one whose size is zero or over four megabytes or that is cut short, which is reported as a cold start with
    the transactions before it admitted.  The pool stays consistent whatever is read, provided it was consistent and an allocation failure
    during an admission, if any, is one that leaves nothing behind; files are sequences of bytes. *)
Theorem mempool_file_failures (p : CTxMemPool) (key : list Z) (wfault : option WriteFault) (cleanup_fails : bool) (d : DataDir)
    (now : nat -> Z) (fail : nat -> option alloc_failure) (lfault : option LoadFault) (height : Z) :
  wf p -> (forall i f tx, fail i = Some f -> clean_failure tx f = true) -> (forall file, mempool_dat d = Some file -> bytes_ok file) ->
  dump_outcome p key wfault cleanup_fails d (DumpMempool SHA3_256 p key wfault cleanup_fails d) /\
  load_outcome now fail p lfault d height (LoadMempool SHA3_256 now fail p lfault d height) /\
  wf (LoadMempool SHA3_256 now fail p lfault d height).1.2.
Proof.
  intros Hwf Hfail HB. pose proof (LoadMempool_outcome now fail p lfault d height HB) as HL. split_and!; [apply DumpMempool_outcome|done|].
  destruct HL as [| | | | | | | |key' count rs rest o c p' ev _ _ _ _ _ _ _ EA]; try done.
  pose proof (admit_all_wf now fail height Hfail rs 0 (mkCounts 0 0 0) p [] Hwf) as HW. by rewrite EA in HW.
Qed.
End Restart.

(** ** Instances *)

Lemma toy_hash_len l : length (toy_hash l) = 32%nat.
Proof. apply length_le_bytes. Qed.

Lemma pool_a_admissible : Forall admissible (setEntries pool_a).
Proof.
  assert (setEntries pool_a = [make_entry toy_hash tx_a 20000 1000 5]) as -> by (vm_compute; reflexivity).
  constructor; [|constructor]. split_and!; try done. unfold tx_wf, len. cbn.
  split_and!; try lia; repeat constructor; try done; vm_compute; intuition congruence.
Qed.

Definition toy_key : list Z := (fun i => Z.of_nat i * 7 mod 256) <$> seq 0 32.

Lemma mempool_survives_restart_witness :
  exists d', DumpMempool toy_hash pool_a toy_key None false (mkDir None None) = (Ok 1, d') /\
  exists p' ev, LoadMempool toy_hash (fun _ => 5000) (fun _ => None) empty_pool None d' 9 = (Loaded, mkCounts 1 1 0, p', ev) /\
    pool_wf toy_hash p' /\ mapTx p' = restored toy_hash 9 <$> mapTx pool_a.
Proof.
  apply (mempool_survives_restart toy_hash toy_hash_len pool_a toy_key false (mkDir None None) (fun _ => 5000) 9);
    [apply pool_a_wf|vm_compute; reflexivity|vm_compute; reflexivity|apply pool_a_admissible|reflexivity|done|].
  intros e _ He. assert (setEntries pool_a = [make_entry toy_hash tx_a 20000 1000 5]) as E by (vm_compute; reflexivity).
  rewrite E in He. apply list_elem_of_singleton in He as ->. vm_compute. congruence.
Defined.

Lemma mempool_file_failures_witness :
  dump_outcome toy_hash pool_a toy_key (Some (FwriteShort 10)) true (mkDir (Some [5]) None)
    (Err (WriteFailed (FwriteShort 10)), mkDir (Some [5]) (Some (take 10 (dump_file toy_hash pool_a toy_key)))) /\
  load_outcome toy_hash (fun _ => 5000) (fun _ => Some FailMap) pool_a None (mkDir (Some [5]) None) 9
    (ColdStart FileTooSmall, mkCounts 0 0 0, pool_a, []).
Proof.
  pose proof (mempool_file_failures toy_hash toy_hash_len pool_a toy_key (Some (FwriteShort 10)) true (mkDir (Some [5]) None) (fun _ => 5000)
    (fun _ => Some FailMap) None 9 pool_a_wf ltac:(by intros i f tx [= <-])
    ltac:(intros file [= <-]; constructor; [by unfold byte_ok|constructor])) as (H1 & H2 & _).
  split; [|exact H2].
  assert (DumpMempool toy_hash pool_a toy_key (Some (FwriteShort 10)) true (mkDir (Some [5]) None) =
    (Err (WriteFailed (FwriteShort 10)), mkDir (Some [5]) (Some (take 10 (dump_file toy_hash pool_a toy_key))))) as <-
    by (vm_compute; reflexivity).
  exact H1.
Defined.

(** A file that announces one record more than it has: the load reports a cold start with an empty pool, and one transaction has
    been admitted. *)
Example cold_start_keeps_admitted :
  let body := WriteUint64 2 ++ tx_record (make_entry toy_hash tx_a 20000 1000 5) in
  let '(o, c, p, _) := LoadMempool toy_hash (fun _ => 5000) (fun _ => None) empty_pool None (mkDir (Some (file_of toy_hash toy_key body)) None) 9 in
  o = ColdStart StreamError /\ txs_admitted c = 1 /\ mempool_count p = 1.
Proof. vm_compute. split_and!; reflexivity. Qed.
