(* ===== verification/NetAddress.v ===== *)
(** * Network addresses (net/netaddress)

    An address is 16 bytes and the network they belong to, IPv4 mapped into IPv6; a service adds a port.  The class of an address
    decides whether it is routable and which group it counts towards.  Parsing and printing of texts, which go through the system's
    library, are left out, as is the scope id, which nothing sets. *)

From S2P Require Import Prelude.

Inductive Network : Set := NET_UNROUTABLE | NET_IPV4 | NET_IPV6 | NET_ONION | NET_I2P | NET_CJDNS | NET_INTERNAL.
#[export] Instance Network_eq_dec : EqDecision Network.
Proof. solve_decision. Defined.
Definition network_code (n : Network) : Z :=
  match n with
  | NET_UNROUTABLE => 0 | NET_IPV4 => 1 | NET_IPV6 => 2 | NET_ONION => 3 | NET_I2P => 4 | NET_CJDNS => 5 | NET_INTERNAL => 6
  end.
Definition network_of (c : Z) : Network :=
  match c with
  | 1 => NET_IPV4 | 2 => NET_IPV6 | 3 => NET_ONION | 4 => NET_I2P | 5 => NET_CJDNS | 6 => NET_INTERNAL | _ => NET_UNROUTABLE
  end.
#[export] Instance Network_countable : Countable Network.
Proof. refine (inj_countable' network_code network_of _). by intros []. Defined.

Record CNetAddr := mkNetAddr { m_addr : list Z; m_net : Network }.
#[export] Instance CNetAddr_eq_dec : EqDecision CNetAddr.
Proof. solve_decision. Defined.
#[export] Instance CNetAddr_countable : Countable CNetAddr.
Proof. refine (inj_countable' (fun a => (m_addr a, m_net a)) (fun p => mkNetAddr p.1 p.2) _). by intros []. Defined.

Record CService := mkService { sv_addr : CNetAddr; m_port : Z }.
#[export] Instance CService_eq_dec : EqDecision CService.
Proof. solve_decision. Defined.
#[export] Instance CService_countable : Countable CService.
Proof. refine (inj_countable' (fun a => (sv_addr a, m_port a)) (fun p => mkService p.1 p.2) _). by intros []. Defined.

(** ** Construction *)

Definition IPV4_IN_IPV6_PREFIX : list Z := [0; 0; 0; 0; 0; 0; 0; 0; 0; 0; 255; 255].
Definition ZERO_ADDR : list Z := replicate 16 0.
Definition LOOPBACK : list Z := replicate 15 0 ++ [1].

Definition new_CNetAddr : CNetAddr := mkNetAddr ZERO_ADDR NET_IPV6.

Definition DetectNetwork (addr : list Z) : CNetAddr :=
  mkNetAddr addr
    (if bool_decide (take 12 addr = IPV4_IN_IPV6_PREFIX) then NET_IPV4
     else if bool_decide (addr = ZERO_ADDR) then NET_UNROUTABLE
     else if bool_decide (addr = LOOPBACK) then NET_UNROUTABLE
     else NET_IPV6).

Definition CNetAddr_of (ipv6 : list Z) (net : Network) : CNetAddr :=
  if bool_decide (net = NET_IPV6) then DetectNetwork ipv6 else mkNetAddr ipv6 net.

Definition SetIPv4 (ipv4 : Z) : CNetAddr :=
  mkNetAddr (IPV4_IN_IPV6_PREFIX ++ [Z.land (Z.shiftr ipv4 24) 255; Z.land (Z.shiftr ipv4 16) 255; Z.land (Z.shiftr ipv4 8) 255; Z.land ipv4 255])
    NET_IPV4.
Definition SetIPv6 (ipv6 : list Z) : CNetAddr := DetectNetwork ipv6.

Definition IsIPv4 (a : CNetAddr) : bool := bool_decide (m_net a = NET_IPV4).
Definition IsIPv6 (a : CNetAddr) : bool := bool_decide (m_net a = NET_IPV6).
Abbreviation byte a i := (byte_at (m_addr a) i).

Definition GetIPv4 (a : CNetAddr) : Z :=
  if negb (IsIPv4 a) then 0
  else Z.lor (Z.lor (Z.lor (Z.shiftl (byte a 12) 24) (Z.shiftl (byte a 13) 16)) (Z.shiftl (byte a 14) 8)) (byte a 15).

(** ** Classes of addresses *)

Definition IsValid (a : CNetAddr) : bool :=
  if bool_decide (m_addr a = ZERO_ADDR) then false else negb (bool_decide (m_net a = NET_UNROUTABLE)).
Definition IsLocal (a : CNetAddr) : bool :=
  if IsIPv4 a then byte a 12 =? 127 else bool_decide (m_addr a = LOOPBACK).
Definition IsRFC1918 (a : CNetAddr) : bool :=
  IsIPv4 a && ((byte a 12 =? 10) || ((byte a 12 =? 172) && (byte a 13 >=? 16) && (byte a 13 <=? 31)) || ((byte a 12 =? 192) && (byte a 13 =? 168))).
Definition IsRFC2544 (a : CNetAddr) : bool := IsIPv4 a && (byte a 12 =? 198) && ((byte a 13 =? 18) || (byte a 13 =? 19)).
Definition IsRFC3927 (a : CNetAddr) : bool := IsIPv4 a && (byte a 12 =? 169) && (byte a 13 =? 254).
Definition IsRFC6598 (a : CNetAddr) : bool := IsIPv4 a && (byte a 12 =? 100) && (byte a 13 >=? 64) && (byte a 13 <=? 127).
Definition IsRFC5737 (a : CNetAddr) : bool :=
  IsIPv4 a && (((byte a 12 =? 192) && (byte a 13 =? 0) && (byte a 14 =? 2)) || ((byte a 12 =? 198) && (byte a 13 =? 51) && (byte a 14 =? 100)) ||
               ((byte a 12 =? 203) && (byte a 13 =? 0) && (byte a 14 =? 113))).
Definition IsRFC3849 (a : CNetAddr) : bool :=
  negb (IsIPv4 a) && (byte a 0 =? 0x20) && (byte a 1 =? 0x01) && (byte a 2 =? 0x0d) && (byte a 3 =? 0xb8).
Definition IsRFC4862 (a : CNetAddr) : bool := negb (IsIPv4 a) && (byte a 0 =? 0xfe) && (Z.land (byte a 1) 0xc0 =? 0x80).
Definition IsRFC4193 (a : CNetAddr) : bool := negb (IsIPv4 a) && (Z.land (byte a 0) 0xfe =? 0xfc).
Definition IsRFC4843 (a : CNetAddr) : bool :=
  negb (IsIPv4 a) && (byte a 0 =? 0x20) && (byte a 1 =? 0x01) && (byte a 2 =? 0) && (Z.land (byte a 3) 0xf0 =? 0x10).
Definition IsRFC7343 (a : CNetAddr) : bool :=
  negb (IsIPv4 a) && (byte a 0 =? 0x20) && (byte a 1 =? 0x01) && (byte a 2 =? 0) && (Z.land (byte a 3) 0xf0 =? 0x20).

Definition IsRoutable (a : CNetAddr) : bool :=
  if negb (IsValid a) then false
  else if IsLocal a then false
  else if IsRFC1918 a then false
  else if IsRFC2544 a then false
  else if IsRFC3927 a then false
  else if IsRFC6598 a then false
  else if IsRFC5737 a then false
  else if IsRFC3849 a then false
  else if IsRFC4862 a then false
  else if IsRFC4193 a then false
  else if IsRFC4843 a then false
  else if IsRFC7343 a then false
  else if IsIPv4 a && (byte a 12 >=? 224) then false
  else negb (IsIPv4 a && (byte a 12 =? 255) && (byte a 13 =? 255) && (byte a 14 =? 255) && (byte a 15 =? 255)).

Definition GetGroup (a : CNetAddr) : list Z :=
  if IsIPv4 a then [1; byte a 12; byte a 13]
  else if IsIPv6 a then [2; byte a 0; byte a 1; byte a 2; byte a 3]
  else network_code (m_net a) :: m_addr a.

(** ** Serialization *)

Definition NetAddr_Serialize (a : CNetAddr) : list Z := m_addr a.
Definition Service_Serialize (s : CService) : list Z :=
  NetAddr_Serialize (sv_addr s) ++ [Z.land (Z.shiftr (m_port s) 8) 255; Z.land (m_port s) 255].
Definition Service_Unserialize (addr port : list Z) : CService :=
  mkService (DetectNetwork addr) (Z.lor (Z.shiftl (byte_at port 0) 8) (byte_at port 1)).

(** An address as the constructors and the decoder make it. *)
Definition netaddr_wf (a : CNetAddr) : Prop := length (m_addr a) = 16%nat /\ bytes_ok (m_addr a) /\ a = DetectNetwork (m_addr a).
Definition service_wf (s : CService) : Prop := netaddr_wf (sv_addr s) /\ 0 <= m_port s < 2 ^ 16.

Lemma land_255 x : Z.land x 255 = x mod 256.
Proof. exact (Z.land_ones x 8 ltac:(lia)). Qed.

Lemma service_roundtrip s : service_wf s -> length (Service_Serialize s) = 18%nat /\
  Service_Unserialize (take 16 (Service_Serialize s)) (drop 16 (Service_Serialize s)) = s.
Proof.
  intros [(HL & _ & HD) HP]. unfold Service_Serialize, NetAddr_Serialize, Service_Unserialize. rewrite length_app, HL. split; [done|].
  rewrite <- HL, take_app_length, drop_app_length, <- HD. destruct s as [a p]. cbn [sv_addr m_port byte_at nth] in *. f_equal.
  rewrite !land_255, Z.shiftr_div_pow2 by lia. rewrite Z.lor_comm, lor_shiftl_disjoint by (try apply Z.mod_pos_bound; lia).
  change (2 ^ 8) with 256. rewrite (Z.mod_small (p / 256)); [pose proof (Z.div_mod p 256 ltac:(lia)); lia|].
  split; [apply Z.div_pos; lia|apply Z.div_lt_upper_bound; lia].
Qed.

(** ** Routable IPv4 addresses *)

(** The blocks that are refused, as ranges of the 32-bit address. *)
Definition reserved_ipv4 : list (Z * Z) :=
  [(0x0a000000, 2 ^ 24); (0x7f000000, 2 ^ 24); (0xac100000, 2 ^ 20); (0xc0a80000, 2 ^ 16); (0xc6120000, 2 ^ 17); (0xa9fe0000, 2 ^ 16);
   (0x64400000, 2 ^ 22); (0xc0000200, 2 ^ 8); (0xc6336400, 2 ^ 8); (0xcb007100, 2 ^ 8); (0xe0000000, 2 ^ 29)].

Lemma ipv4_octets ip : 0 <= ip < 2 ^ 32 -> exists a b c d, ip = a * 2 ^ 24 + b * 2 ^ 16 + c * 2 ^ 8 + d /\
  0 <= a < 256 /\ 0 <= b < 256 /\ 0 <= c < 256 /\ 0 <= d < 256 /\ SetIPv4 ip = mkNetAddr (IPV4_IN_IPV6_PREFIX ++ [a; b; c; d]) NET_IPV4.
Proof.
  intros Hip. exists (ip / 2 ^ 24 mod 256), (ip / 2 ^ 16 mod 256), (ip / 2 ^ 8 mod 256), (ip mod 256).
  unfold SetIPv4. rewrite !land_255, !Z.shiftr_div_pow2 by lia. split_and!; try (apply Z.mod_pos_bound; lia); [|done].
  change (2 ^ 24) with 16777216. change (2 ^ 16) with 65536. change (2 ^ 8) with 256. change (2 ^ 32) with 4294967296 in Hip.
  Z.div_mod_to_equations. lia.
Qed.

Ltac refused := cbn [orb]; rewrite ?orb_true_r; intuition congruence.

(** A mapped IPv4 address is routable exactly when it lies in none of the blocks. *)
Theorem ipv4_routable_iff (ip : Z) : 0 <= ip < 2 ^ 32 ->
  IsRoutable (SetIPv4 ip) = true <-> Forall (fun r => ~ (r.1 <= ip < r.1 + r.2)) reserved_ipv4.
Proof.
  intros Hip. destruct (ipv4_octets ip Hip) as (a & b & c & d & E & Ha & Hb & Hc & Hd & ->). unfold reserved_ipv4.
  rewrite !Forall_cons, Forall_nil. cbn [fst snd].
  unfold IsRoutable, IsValid, IsLocal, IsRFC1918, IsRFC2544, IsRFC3927, IsRFC6598, IsRFC5737, IsRFC3849, IsRFC4862, IsRFC4193, IsRFC4843,
    IsRFC7343, IsIPv4. cbn [m_addr m_net app byte_at nth IPV4_IN_IPV6_PREFIX].
  rewrite !(bool_decide_eq_true_2 (NET_IPV4 = NET_IPV4)), (bool_decide_eq_false_2 (_ = ZERO_ADDR)), (bool_decide_eq_false_2 (_ = NET_UNROUTABLE)) by done.
  cbn [andb negb]. rewrite !Z.geb_leb.
  assert ((0x0a000000 <= ip < 0x0a000000 + 2 ^ 24) <-> (a =? 10) = true) as -> by (rewrite Z.eqb_eq; lia).
  assert ((0x7f000000 <= ip < 0x7f000000 + 2 ^ 24) <-> (a =? 127) = true) as -> by (rewrite Z.eqb_eq; lia).
  assert ((0xac100000 <= ip < 0xac100000 + 2 ^ 20) <-> (a =? 172) && (16 <=? b) && (b <=? 31) = true) as ->
    by (rewrite !andb_true_iff, Z.eqb_eq, !Z.leb_le; lia).
  assert ((0xc0a80000 <= ip < 0xc0a80000 + 2 ^ 16) <-> (a =? 192) && (b =? 168) = true) as -> by (rewrite !andb_true_iff, !Z.eqb_eq; lia).
  assert ((0xc6120000 <= ip < 0xc6120000 + 2 ^ 17) <-> (a =? 198) && ((b =? 18) || (b =? 19)) = true) as ->
    by (rewrite andb_true_iff, orb_true_iff, !Z.eqb_eq; lia).
  assert ((0xa9fe0000 <= ip < 0xa9fe0000 + 2 ^ 16) <-> (a =? 169) && (b =? 254) = true) as -> by (rewrite !andb_true_iff, !Z.eqb_eq; lia).
  assert ((0x64400000 <= ip < 0x64400000 + 2 ^ 22) <-> (a =? 100) && (64 <=? b) && (b <=? 127) = true) as ->
    by (rewrite !andb_true_iff, Z.eqb_eq, !Z.leb_le; lia).
  assert ((0xc0000200 <= ip < 0xc0000200 + 2 ^ 8) <-> (a =? 192) && (b =? 0) && (c =? 2) = true) as -> by (rewrite !andb_true_iff, !Z.eqb_eq; lia).
  assert ((0xc6336400 <= ip < 0xc6336400 + 2 ^ 8) <-> (a =? 198) && (b =? 51) && (c =? 100) = true) as -> by (rewrite !andb_true_iff, !Z.eqb_eq; lia).
  assert ((0xcb007100 <= ip < 0xcb007100 + 2 ^ 8) <-> (a =? 203) && (b =? 0) && (c =? 113) = true) as -> by (rewrite !andb_true_iff, !Z.eqb_eq; lia).
  assert ((0xe0000000 <= ip < 0xe0000000 + 2 ^ 29) <-> (224 <=? a) = true) as -> by (rewrite Z.leb_le; lia).
  assert ((224 <=? a) = false -> (a =? 255) && (b =? 255) && (c =? 255) && (d =? 255) = false) as H255
    by (rewrite Z.leb_gt; intros; destruct (Z.eqb_spec a 255); [lia|done]).
  clear E Hip Ha Hb Hc Hd. rewrite !not_true_iff_false.
  destruct (a =? 127); [refused|]. destruct (a =? 10); [refused|]. destruct ((a =? 172) && _ && _); [refused|].
  destruct ((a =? 192) && (b =? 168)); [refused|]. cbn [orb]. destruct ((a =? 198) && (_ || _)); [refused|].
  destruct ((a =? 169) && _); [refused|]. destruct ((a =? 100) && _ && _); [refused|].
  destruct ((a =? 192) && (b =? 0) && (c =? 2)); [refused|]. destruct ((a =? 198) && (b =? 51) && (c =? 100)); [refused|].
  destruct ((a =? 203) && (b =? 0) && (c =? 113)); [refused|]. cbn [orb]. destruct (224 <=? a); [refused|]. rewrite H255 by done. intuition congruence.
Qed.

(** The block 0.0.0.0/8, "this network", is not among them. *)
Example zero_network_routable : IsRoutable (SetIPv4 0) = true /\ IsRoutable (SetIPv4 0x00010203) = true.
Proof. split; reflexivity. Qed.
