(* ===== verification/AddrMan.v ===== *)
(** * The address manager (net/addrman)

    Known addresses are kept by id, with an index by address and a vector in random order, and are referenced from the slots of two
    tables of buckets, one for addresses heard of and one for addresses connected to; the slot of an address comes from a keyed
    hash.  A table is the map of its occupied slots: an absent key is the -1 of the code.  [None] is undefined behaviour: an access
    outside the random vector.  The clock, the random numbers and the floating-point chance of a selection are arguments. *)

From S2P Require Import Prelude NetAddress.
From S2P Require Import Uint256 Block Transaction.

Definition ADDRMAN_TRIED_BUCKET_COUNT : Z := 256.
Definition ADDRMAN_NEW_BUCKET_COUNT : Z := 1024.
Definition ADDRMAN_BUCKET_SIZE : Z := 64.
Definition ADDRMAN_NEW_BUCKETS_PER_ADDRESS : Z := 8.
Definition ADDRMAN_HORIZON_DAYS : Z := 30.
Definition ADDRMAN_RETRIES : Z := 3.
Definition ADDRMAN_MAX_FAILURES : Z := 10.
Definition ADDRMAN_MIN_FAIL_DAYS : Z := 7.

Record CNetworkAddr := mkNetworkAddr { na_service : CService; na_nServices : Z; na_nTime : Z }.

Record CAddrInfo := mkAddrInfo {
  ai_addr : CNetworkAddr;
  source : CNetAddr;
  nLastSuccess : Z;
  nAttempts : Z;
  nRefCount : Z;
  fInTried : bool;
  nRandomPos : Z;
  nLastTry : Z;
  nLastCountAttempt : Z
}.
Definition new_CAddrInfo (addr : CNetworkAddr) (src : CNetAddr) : CAddrInfo := mkAddrInfo addr src 0 0 0 false (-1) 0 0.

Definition ai_service (i : CAddrInfo) : CService := na_service (ai_addr i).
Definition ai_net (i : CAddrInfo) : CNetAddr := sv_addr (ai_service i).
Definition ai_nTime (i : CAddrInfo) : Z := na_nTime (ai_addr i).

Definition set_refcount (r : Z) (i : CAddrInfo) : CAddrInfo :=
  mkAddrInfo (ai_addr i) (source i) (nLastSuccess i) (nAttempts i) r (fInTried i) (nRandomPos i) (nLastTry i) (nLastCountAttempt i).
Definition set_tried (t : bool) (i : CAddrInfo) : CAddrInfo :=
  mkAddrInfo (ai_addr i) (source i) (nLastSuccess i) (nAttempts i) (nRefCount i) t (nRandomPos i) (nLastTry i) (nLastCountAttempt i).
Definition set_pos (p : Z) (i : CAddrInfo) : CAddrInfo :=
  mkAddrInfo (ai_addr i) (source i) (nLastSuccess i) (nAttempts i) (nRefCount i) (fInTried i) p (nLastTry i) (nLastCountAttempt i).
Definition set_addr (services time : Z) (i : CAddrInfo) : CAddrInfo :=
  mkAddrInfo (mkNetworkAddr (ai_service i) services time) (source i) (nLastSuccess i) (nAttempts i) (nRefCount i) (fInTried i)
    (nRandomPos i) (nLastTry i) (nLastCountAttempt i).

Definition IsTerrible (i : CAddrInfo) (nNow : Z) : bool :=
  if (nLastSuccess i =? 0) && (nAttempts i >=? ADDRMAN_RETRIES) && (i64 (nNow - nLastTry i) <? 60) then true
  else if ai_nTime i <? i64 (nNow - ADDRMAN_HORIZON_DAYS * 24 * 60 * 60) then true
  else if nAttempts i >=? ADDRMAN_MAX_FAILURES then true
  else (nLastSuccess i >? 0) && (i64 (nNow - nLastSuccess i) >? ADDRMAN_MIN_FAIL_DAYS * 24 * 60 * 60) && (nAttempts i >? 0).

Abbreviation slot := (Z * Z)%type.

Record CAddrMan := mkAddrMan {
  nKey : uint256;
  mapInfo : gmap Z CAddrInfo;
  mapAddr : gmap CService Z;
  vRandom : list Z;
  nIdCount : Z;
  vvNew : gmap slot Z;
  nNew : Z;
  vvTried : gmap slot Z;
  nTried : Z
}.
Definition new_CAddrMan (key : uint256) : CAddrMan := mkAddrMan key ∅ ∅ [] 0 ∅ 0 ∅ 0.

Definition with_info (m : CAddrMan) (i : gmap Z CAddrInfo) : CAddrMan :=
  mkAddrMan (nKey m) i (mapAddr m) (vRandom m) (nIdCount m) (vvNew m) (nNew m) (vvTried m) (nTried m).
Definition with_new (m : CAddrMan) (t : gmap slot Z) (n : Z) : CAddrMan :=
  mkAddrMan (nKey m) (mapInfo m) (mapAddr m) (vRandom m) (nIdCount m) t n (vvTried m) (nTried m).
Definition with_tried (m : CAddrMan) (t : gmap slot Z) (n : Z) : CAddrMan :=
  mkAddrMan (nKey m) (mapInfo m) (mapAddr m) (vRandom m) (nIdCount m) (vvNew m) (nNew m) t n.
Definition update (m : CAddrMan) (id : Z) (f : CAddrInfo -> CAddrInfo) : CAddrMan := with_info m (alter f id (mapInfo m)).

(** [vector::operator[]] *)
Definition at_pos (l : list Z) (p : Z) : option Z := if p <? 0 then None else l !! Z.to_nat p.

Definition Find (m : CAddrMan) (addr : CService) : option (Z * CAddrInfo) :=
  id ← mapAddr m !! addr; i ← mapInfo m !! id; Some (id, i).

Definition Create (m : CAddrMan) (addr : CNetworkAddr) (src : CNetAddr) : Z * CAddrMan :=
  let nId := nIdCount m in
  (nId, mkAddrMan (nKey m) (<[nId := set_pos (i32 (len (vRandom m))) (new_CAddrInfo addr src)]> (mapInfo m))
          (<[na_service addr := nId]> (mapAddr m)) (vRandom m ++ [nId]) (i32 (nIdCount m + 1)) (vvNew m) (nNew m) (vvTried m) (nTried m)).

Definition SwapRandom (m : CAddrMan) (p1 p2 : Z) : option CAddrMan :=
  if p1 =? p2 then Some m
  else
    nId1 ← at_pos (vRandom m) p1;
    nId2 ← at_pos (vRandom m) p2;
    let i := alter (set_pos p1) nId2 (alter (set_pos p2) nId1 (mapInfo m)) in
    Some (mkAddrMan (nKey m) i (mapAddr m) (<[Z.to_nat p2 := nId1]> (<[Z.to_nat p1 := nId2]> (vRandom m))) (nIdCount m) (vvNew m) (nNew m)
            (vvTried m) (nTried m)).

Definition Delete (m : CAddrMan) (nId : Z) : option CAddrMan :=
  match mapInfo m !! nId with
  | None => Some m
  | Some info =>
      m ← SwapRandom m (nRandomPos info) (i32 (len (vRandom m)) - 1);
      if bool_decide (vRandom m = []) then None
      else
        Some (mkAddrMan (nKey m) (delete nId (mapInfo m)) (delete (ai_service info) (mapAddr m))
                (take (length (vRandom m) - 1) (vRandom m)) (nIdCount m) (vvNew m) (nNew m) (vvTried m) (nTried m))
  end.

Definition ClearNew (m : CAddrMan) (s : slot) : option CAddrMan :=
  match vvNew m !! s with
  | None => Some m
  | Some nIdDelete =>
      m ← (match mapInfo m !! nIdDelete with
           | None => Some m
           | Some info =>
               let m := update m nIdDelete (set_refcount (i32 (nRefCount info - 1))) in
               if i32 (nRefCount info - 1) <=? 0 then
                 m ← Delete m nIdDelete; Some (with_new m (vvNew m) (i32 (nNew m - 1)))
               else Some m
           end);
      Some (with_new m (delete s (vvNew m)) (nNew m))
  end.

Section AddrMan.
  Variable SHA3_256 : list Z -> uint256.

Definition hash_mod (buffer : list Z) (n : Z) : Z := le_val (take 8 (SHA3_256 buffer)) mod n.

Definition GetNewBucket (key : uint256) (addr src : CNetAddr) : Z :=
  hash_mod (key ++ GetGroup src ++ GetGroup addr) ADDRMAN_NEW_BUCKET_COUNT.
Definition GetTriedBucket (key : uint256) (addr : CNetAddr) : Z := hash_mod (key ++ GetGroup addr) ADDRMAN_TRIED_BUCKET_COUNT.
Definition GetBucketPosition (key : uint256) (addr : CNetAddr) (fNew : bool) (nBucket : Z) : Z :=
  hash_mod (key ++ [if fNew then 1 else 0] ++ le_bytes 4 (u32 nBucket) ++ m_addr addr) ADDRMAN_BUCKET_SIZE.

Definition new_slot (key : uint256) (addr src : CNetAddr) : slot :=
  let b := GetNewBucket key addr src in (b, GetBucketPosition key addr true b).
Definition tried_slot (key : uint256) (addr : CNetAddr) : slot :=
  let b := GetTriedBucket key addr in (b, GetBucketPosition key addr false b).

(** [vvNew[bucket][pos] = nId; info.nRefCount++] *)
Definition place_new (m : CAddrMan) (s : slot) (nId : Z) : CAddrMan :=
  update (with_new m (<[s := nId]> (vvNew m)) (nNew m)) nId (fun i => set_refcount (i32 (nRefCount i + 1)) i).

Definition evict_tried (m : CAddrMan) (s : slot) : option CAddrMan :=
  match vvTried m !! s with
  | None => Some m
  | Some nIdEvict =>
      match mapInfo m !! nIdEvict with
      | None => Some m
      | Some infoEvict =>
          let m := with_tried (update m nIdEvict (set_tried false)) (vvTried m) (i32 (nTried m - 1)) in
          let s' := new_slot (nKey m) (ai_net infoEvict) (source infoEvict) in
          m ← ClearNew m s';
          let m := place_new m s' nIdEvict in
          Some (with_new m (vvNew m) (i32 (nNew m + 1)))
      end
  end.

Definition MakeTried (m : CAddrMan) (info : CAddrInfo) (nId : Z) : option CAddrMan :=
  let refs := Z.of_nat (size (filter (fun e : slot * Z => e.2 = nId) (vvNew m))) in
  let m := update m nId (set_refcount (i32 (nRefCount info - refs))) in
  let m := with_new m (filter (fun e : slot * Z => e.2 <> nId) (vvNew m)) (i32 (nNew m - 1)) in
  let s := tried_slot (nKey m) (ai_net info) in
  m ← evict_tried m s;
  Some (update (with_tried m (<[s := nId]> (vvTried m)) (i32 (nTried m + 1))) nId (set_tried true)).

(** ** Operations *)

Definition Add (m : CAddrMan) (now : Z) (addr : CNetworkAddr) (src : CNetAddr) (nTimePenalty : Z) : option (bool * CAddrMan) :=
  let net := sv_addr (na_service addr) in
  if negb (IsRoutable net) then Some (false, m)
  else
    match Find m (na_service addr) with
    | Some (nId, info) =>
        let fCurrentlyOnline := i64 (now - na_nTime addr) <? 24 * 60 * 60 in
        let nUpdateInterval := if fCurrentlyOnline then 60 * 60 else 24 * 60 * 60 in
        let time := if negb (na_nTime addr =? 0) &&
                       ((ai_nTime info =? 0) || (ai_nTime info <? i64 (na_nTime addr - nUpdateInterval - nTimePenalty)))
                    then Z.max 0 (i64 (na_nTime addr - nTimePenalty)) else ai_nTime info in
        let m := update m nId (set_addr (Z.lor (na_nServices addr) (na_nServices (ai_addr info))) time) in
        if fInTried info then Some (false, m)
        else if nRefCount info =? ADDRMAN_NEW_BUCKETS_PER_ADDRESS then Some (false, m)
        else
          let s := new_slot (nKey m) net src in
          if bool_decide (vvNew m !! s = Some nId) then Some (false, m)
          else
            m ← ClearNew m s;
            Some (true, match mapAddr m !! na_service addr with Some id => place_new m s id | None => m end)
    | None =>
        let '(nId, m) := Create m addr src in
        let m := update m nId (set_addr (na_nServices addr) (Z.max 0 (i64 (na_nTime addr - nTimePenalty)))) in
        let s := new_slot (nKey m) net src in
        m ← ClearNew m s;
        let m := place_new m s nId in
        Some (true, with_new m (vvNew m) (i32 (nNew m + 1)))
    end.

Fixpoint AddMany (m : CAddrMan) (now : nat -> Z) (vAddr : list CNetworkAddr) (src : CNetAddr) (nTimePenalty nAdd : Z) : option (Z * CAddrMan) :=
  match vAddr with
  | [] => Some (nAdd, m)
  | addr :: vAddr' =>
      '(ok, m) ← Add m (now (length vAddr')) addr src nTimePenalty;
      AddMany m now vAddr' src nTimePenalty (if ok : bool then i32 (nAdd + 1) else nAdd)
  end.

Definition Good (m : CAddrMan) (now : Z) (addr : CService) (nTime : Z) : option CAddrMan :=
  let nTime := if nTime =? 0 then now else nTime in
  match Find m addr with
  | None => Some m
  | Some (nId, info) =>
      let info := mkAddrInfo (mkNetworkAddr (ai_service info) (na_nServices (ai_addr info)) nTime) (source info) nTime 0 (nRefCount info)
                    (fInTried info) (nRandomPos info) nTime (nLastCountAttempt info) in
      let m := update m nId (fun _ => info) in
      if fInTried info then Some m else MakeTried m info nId
  end.

Definition Attempt (m : CAddrMan) (now : Z) (addr : CService) (fCountFailure : bool) (nTime : Z) : CAddrMan :=
  let nTime := if nTime =? 0 then now else nTime in
  match Find m addr with
  | None => m
  | Some (nId, _) =>
      update m nId (fun i =>
        let counted := fCountFailure && (nLastCountAttempt i <? i64 (nTime - 60 * 60)) in
        mkAddrInfo (ai_addr i) (source i) (nLastSuccess i) (if counted then i32 (nAttempts i + 1) else nAttempts i) (nRefCount i) (fInTried i)
          (nRandomPos i) nTime (if counted then nTime else nLastCountAttempt i))
  end.

Definition ClearLocked (m : CAddrMan) : CAddrMan := new_CAddrMan (nKey m).
Definition AddrMan_Size (m : CAddrMan) : Z := Z.of_nat (size (mapInfo m)).
Definition AddrMan_GetStats (m : CAddrMan) : Z * Z := (nNew m, nTried m).

(** The assertion of [Check]. *)
Definition Check_holds (m : CAddrMan) : bool := Z.of_nat (size (vvTried m)) =? nTried m.

(** ** Selection *)

Definition MAX_SELECT_ITERATIONS : nat := 10000.

(** One table: [bucket], [pos] and [accepted] are the draws of each iteration. *)
Fixpoint select_from (fuel : nat) (m : CAddrMan) (table : gmap slot Z) (buckets : Z) (rand : nat -> Z) (accepted : nat -> CAddrInfo -> bool)
    (k : nat) : option CAddrInfo :=
  match fuel with
  | O => None
  | S fuel' =>
      match id ← table !! (rand (2 * k)%nat mod buckets, rand (2 * k + 1)%nat mod ADDRMAN_BUCKET_SIZE); mapInfo m !! id with
      | None => select_from fuel' m table buckets rand accepted (S k)
      | Some info => if accepted k info then Some info else select_from fuel' m table buckets rand accepted (S k)
      end
  end.

Definition Select (m : CAddrMan) (newOnly : bool) (coin : Z) (rand : nat -> Z) (accepted : nat -> CAddrInfo -> bool) : option CAddrInfo :=
  if bool_decide (vRandom m = []) then None
  else if negb newOnly && (nTried m >? 0) && ((nNew m =? 0) || (coin mod 2 =? 0))
       then select_from MAX_SELECT_ITERATIONS m (vvTried m) ADDRMAN_TRIED_BUCKET_COUNT rand accepted 0
       else select_from MAX_SELECT_ITERATIONS m (vvNew m) ADDRMAN_NEW_BUCKET_COUNT rand accepted 0.

(** The partial shuffle: [n] swaps from position [i]. *)
Fixpoint shuffle (n i : nat) (rand : nat -> Z) (l : list Z) : list Z :=
  match n with
  | O => l
  | S n' =>
      let j := (i + Z.to_nat (rand i mod Z.of_nat (length l - i)))%nat in
      match l !! i, l !! j with
      | Some x, Some y => shuffle n' (S i) rand (<[j := x]> (<[i := y]> l))
      | _, _ => l
      end
  end.

Definition GetAddr (m : CAddrMan) (now : Z) (rand : nat -> Z) (maxAddresses maxPct : Z) : list CNetworkAddr :=
  let nNodes := len (vRandom m) in
  let nCount := Z.to_nat (Z.min (Z.min maxAddresses (u64 (nNodes * maxPct) / 100)) nNodes) in
  omap (fun id => i ← mapInfo m !! id; if IsTerrible i now then None else Some (ai_addr i)) (take nCount (shuffle nCount 0 rand (vRandom m))).
End AddrMan.

(** ** Counting in maps *)

Section Count.
  Context {K A : Type} `{Countable K}.
  Implicit Types (P : K * A -> Prop) (m : gmap K A).

Definition cnt P `{!forall e, Decision (P e)} m : Z := Z.of_nat (size (filter P m)).

Definition one (P : Prop) `{!Decision P} : Z := if decide P then 1 else 0.

Lemma cnt_empty P `{!forall e, Decision (P e)} : cnt P ∅ = 0.
Proof. unfold cnt. by rewrite map_filter_empty, map_size_empty. Qed.

Lemma cnt_fresh P `{!forall e, Decision (P e)} m k x : m !! k = None -> cnt P (<[k := x]> m) = cnt P m + one (P (k, x)).
Proof.
  intros Hk. unfold cnt, one. destruct (decide (P (k, x))) as [Hp|Hp].
  - rewrite map_filter_insert_True by done. rewrite map_size_insert_None; [lia|]. apply map_lookup_filter_None. by left.
  - rewrite map_filter_insert_False by done. rewrite delete_id by done. lia.
Qed.

Lemma cnt_split P `{!forall e, Decision (P e)} m k x : m !! k = Some x -> cnt P m = cnt P (delete k m) + one (P (k, x)).
Proof. intros Hk. rewrite <- (insert_delete_id m k x Hk) at 1. apply cnt_fresh. apply lookup_delete_eq. Qed.

Lemma cnt_delete P `{!forall e, Decision (P e)} m k x : m !! k = Some x -> cnt P (delete k m) = cnt P m - one (P (k, x)).
Proof. intros Hk. rewrite (cnt_split P m k x Hk). lia. Qed.

Lemma cnt_replace P `{!forall e, Decision (P e)} m k x y : m !! k = Some x -> cnt P (<[k := y]> m) = cnt P m - one (P (k, x)) + one (P (k, y)).
Proof.
  intros Hk. rewrite <- insert_delete_eq, cnt_fresh by apply lookup_delete_eq. rewrite (cnt_delete P m k x Hk). lia.
Qed.

Lemma cnt_nonneg P `{!forall e, Decision (P e)} m : 0 <= cnt P m.
Proof. unfold cnt. lia. Qed.

Lemma cnt_pos P `{!forall e, Decision (P e)} m k x : m !! k = Some x -> P (k, x) -> 1 <= cnt P m.
Proof.
  intros Hk Hp. rewrite (cnt_split P m k x Hk). pose proof (cnt_nonneg P (delete k m)). unfold one. rewrite decide_True by done. lia.
Qed.

Lemma cnt_zero P `{!forall e, Decision (P e)} m : (forall k x, m !! k = Some x -> ~ P (k, x)) -> cnt P m = 0.
Proof.
  intros Hn. unfold cnt. replace (filter P m) with (∅ : gmap K A); [by rewrite map_size_empty|].
  symmetry. apply map_eq. intros k. rewrite lookup_empty. apply map_lookup_filter_None. right. intros x. apply Hn.
Qed.

Lemma cnt_ext P Q `{!forall e, Decision (P e), !forall e, Decision (Q e)} m :
  (forall k x, m !! k = Some x -> P (k, x) <-> Q (k, x)) -> cnt P m = cnt Q m.
Proof. intros Heq. unfold cnt. f_equal. f_equal. apply map_filter_strong_ext. intros k x. naive_solver. Qed.

Lemma cnt_le P `{!forall e, Decision (P e)} m : cnt P m <= Z.of_nat (size m).
Proof. unfold cnt. apply inj_le. apply map_size_filter. Qed.

Lemma alter_some m f k x : m !! k = Some x -> alter f k m = <[k := f x]> m.
Proof. intros Hk. apply map_eq. intros j. destruct (decide (j = k)) as [->|]; by simplify_map_eq. Qed.
End Count.

(** ** The invariant *)

Definition refs (m : CAddrMan) (id : Z) : Z := cnt (fun e : slot * Z => e.2 = id) (vvNew m).

Section Invariant.
  Variable SHA3_256 : list Z -> uint256.

(** Consistency of the manager, but for the entries [X] that are referenced by no table at the moment. *)
Record am_ok (X : gset Z) (m : CAddrMan) : Prop := {
  ok_addr : forall s id, mapAddr m !! s = Some id <-> exists i, mapInfo m !! id = Some i /\ ai_service i = s;
  ok_ids : forall id i, mapInfo m !! id = Some i -> 0 <= id < nIdCount m;
  ok_bound : 0 <= nIdCount m < 2 ^ 31 - 1;
  ok_random : forall k id, vRandom m !! k = Some id <-> exists i, mapInfo m !! id = Some i /\ nRandomPos i = Z.of_nat k;
  ok_pos : forall id i, mapInfo m !! id = Some i -> 0 <= nRandomPos i;
  ok_new : forall s id, vvNew m !! s = Some id -> exists i, mapInfo m !! id = Some i /\ fInTried i = false;
  ok_tried : forall s id, vvTried m !! s = Some id <->
    exists i, mapInfo m !! id = Some i /\ fInTried i = true /\ s = tried_slot SHA3_256 (nKey m) (ai_net i);
  ok_ref : forall id i, mapInfo m !! id = Some i ->
    nRefCount i = refs m id /\ nRefCount i <= ADDRMAN_NEW_BUCKETS_PER_ADDRESS /\ (id ∈ X <-> nRefCount i = 0 /\ fInTried i = false);
  ok_held : forall id, id ∈ X -> is_Some (mapInfo m !! id);
  ok_nNew : nNew m = cnt (fun e : Z * CAddrInfo => fInTried e.2 = false /\ e.1 ∉ X) (mapInfo m);
  ok_nTried : nTried m = cnt (fun e : Z * CAddrInfo => fInTried e.2 = true) (mapInfo m);
  ok_slots : nTried m = Z.of_nat (size (vvTried m))
}.

Lemma ids_size X m : am_ok X m -> Z.of_nat (size (mapInfo m)) <= nIdCount m /\ len (vRandom m) <= nIdCount m.
Proof.
  intros HI. pose proof (ok_bound _ _ HI) as HB. set (range := list_to_set (seqZ 0 (nIdCount m)) : gset Z).
  assert (size range = Z.to_nat (nIdCount m)) as Hs by (unfold range; rewrite size_list_to_set by apply NoDup_seqZ; apply length_seqZ).
  assert (forall id i, mapInfo m !! id = Some i -> id ∈ range) as Hin.
  { intros id i Hi. unfold range. apply elem_of_list_to_set, elem_of_seqZ. pose proof (ok_ids _ _ HI id i Hi). lia. }
  split.
  - rewrite <- size_dom. assert (dom (mapInfo m) ⊆ range) as Hd%subseteq_size by (intros id [i Hi]%elem_of_dom; eauto). lia.
  - assert (NoDup (vRandom m)) as Hd.
    { apply NoDup_alt. intros j k id (i & Hi & Hj)%(ok_random _ _ HI) (i' & Hi' & Hk)%(ok_random _ _ HI). simplify_eq. lia. }
    assert ((list_to_set (vRandom m) : gset Z) ⊆ range) as Hsub%subseteq_size.
    { intros id [k (i & Hi & _)%(ok_random _ _ HI)]%elem_of_list_to_set%list_elem_of_lookup. eauto. }
    rewrite size_list_to_set in Hsub by done. unfold len. lia.
Qed.

Lemma counter_bounds X m : am_ok X m -> 0 <= nNew m <= nIdCount m /\ 0 <= nTried m <= nIdCount m.
Proof.
  intros HI. destruct (ids_size X m HI) as [Hs _]. rewrite (ok_nNew _ _ HI), (ok_nTried _ _ HI).
  pose proof (cnt_le (fun e : Z * CAddrInfo => fInTried e.2 = false /\ e.1 ∉ X) (mapInfo m)).
  pose proof (cnt_le (fun e : Z * CAddrInfo => fInTried e.2 = true) (mapInfo m)).
  pose proof (cnt_nonneg (fun e : Z * CAddrInfo => fInTried e.2 = false /\ e.1 ∉ X) (mapInfo m)).
  pose proof (cnt_nonneg (fun e : Z * CAddrInfo => fInTried e.2 = true) (mapInfo m)). lia.
Qed.

(** An entry of the map is replaced by one of which [R] says the same. *)
Lemma ex_replaced (M : gmap Z CAddrInfo) id i j k (R : CAddrInfo -> Prop) : M !! id = Some i -> (R i <-> R j) ->
  (exists x, <[id := j]> M !! k = Some x /\ R x) <-> exists x, M !! k = Some x /\ R x.
Proof.
  intros Hi HR. destruct (decide (k = id)) as [->|Hk]; [|by setoid_rewrite lookup_insert_ne].
  rewrite lookup_insert_eq, Hi. split; intros (x & [= <-] & Hx); eexists; (split; [done|]); by apply HR.
Qed.

Definition same_place (i j : CAddrInfo) : Prop :=
  ai_service i = ai_service j /\ nRefCount i = nRefCount j /\ fInTried i = fInTried j /\ nRandomPos i = nRandomPos j.

(** Times, services and attempts are not part of the invariant. *)
Lemma update_ok X m id f i : am_ok X m -> mapInfo m !! id = Some i -> same_place i (f i) -> am_ok X (update m id f).
Proof.
  intros HI Hi (E1 & E2 & E3 & E4). unfold update. rewrite (alter_some _ f id i Hi).
  assert (forall (R : CAddrInfo -> Prop) k, (R i <-> R (f i)) ->
    (exists x, <[id := f i]> (mapInfo m) !! k = Some x /\ R x) <-> exists x, mapInfo m !! k = Some x /\ R x) as HX
    by (intros; by apply ex_replaced with (i := i)).
  destruct HI. split; cbn.
  - intros s k. rewrite HX by (by rewrite E1). apply ok_addr0.
  - intros k x [[-> _]|[_ Hx]]%lookup_insert_Some; [by apply (ok_ids0 _ i)|by apply (ok_ids0 _ x)].
  - done.
  - intros n k. rewrite HX by (by rewrite E4). apply ok_random0.
  - intros k x [[<- <-]|[_ Hx]]%lookup_insert_Some; [rewrite <- E4; by apply (ok_pos0 id)|by apply (ok_pos0 k)].
  - intros s k Hk. apply HX; [by rewrite E3|]. by apply (ok_new0 s).
  - intros s k. rewrite HX by (unfold ai_net; by rewrite E1, E3). apply ok_tried0.
  - intros k x [[<- <-]|[_ Hx]]%lookup_insert_Some; [rewrite <- E2, <- E3; by apply ok_ref0|by apply ok_ref0].
  - intros k Hk. destruct (decide (k = id)) as [->|]; [by rewrite lookup_insert_eq|rewrite lookup_insert_ne by done; by apply ok_held0].
  - rewrite (cnt_replace _ (mapInfo m) id i) by done. cbn. rewrite <- E3, Z.sub_add. done.
  - rewrite (cnt_replace _ (mapInfo m) id i) by done. cbn. rewrite <- E3, Z.sub_add. done.
  - done.
Qed.

(** One entry changes its standing in the tables. *)
Lemma retable X X' m id i j N nn T nt :
  am_ok X m -> mapInfo m !! id = Some i -> ai_service j = ai_service i -> nRandomPos j = nRandomPos i ->
  (forall s k, N !! s = Some k -> exists x, <[id := j]> (mapInfo m) !! k = Some x /\ fInTried x = false) ->
  (forall s k, T !! s = Some k <->
     exists x, <[id := j]> (mapInfo m) !! k = Some x /\ fInTried x = true /\ s = tried_slot SHA3_256 (nKey m) (ai_net x)) ->
  (forall k x, <[id := j]> (mapInfo m) !! k = Some x -> nRefCount x = cnt (fun e : slot * Z => e.2 = k) N /\
     nRefCount x <= ADDRMAN_NEW_BUCKETS_PER_ADDRESS /\ (k ∈ X' <-> nRefCount x = 0 /\ fInTried x = false)) ->
  (forall k, k ∈ X' -> k = id \/ k ∈ X) ->
  nn = cnt (fun e : Z * CAddrInfo => fInTried e.2 = false /\ e.1 ∉ X') (<[id := j]> (mapInfo m)) ->
  nt = cnt (fun e : Z * CAddrInfo => fInTried e.2 = true) (<[id := j]> (mapInfo m)) -> nt = Z.of_nat (size T) ->
  am_ok X' (mkAddrMan (nKey m) (<[id := j]> (mapInfo m)) (mapAddr m) (vRandom m) (nIdCount m) N nn T nt).
Proof.
  intros HI Hi E1 E4 HN HT HR HX Hnn Hnt Hsz. destruct HI. split; cbn; try done.
  - intros s k. rewrite (ex_replaced (mapInfo m) id i j k (fun x => ai_service x = s) Hi) by (by rewrite E1). apply ok_addr0.
  - intros k x [[-> _]|[_ Hx]]%lookup_insert_Some; [by apply (ok_ids0 _ i)|by apply (ok_ids0 _ x)].
  - intros n k. rewrite (ex_replaced (mapInfo m) id i j k (fun x => nRandomPos x = Z.of_nat n) Hi) by (by rewrite E4). apply ok_random0.
  - intros k x [[<- <-]|[_ Hx]]%lookup_insert_Some; [rewrite E4; by apply (ok_pos0 id)|by apply (ok_pos0 k)].
  - intros k Hk. destruct (decide (k = id)) as [->|]; [by rewrite lookup_insert_eq|]. rewrite lookup_insert_ne by done.
    destruct (HX k Hk) as [->|]; [done|by apply ok_held0].
Qed.

(** The entries of [X] and the one that changes, as seen by the counter of the new table. *)
Lemma cnt_new_ext (M : gmap Z CAddrInfo) (X X' : gset Z) : (forall k x, M !! k = Some x -> (k ∈ X <-> k ∈ X')) ->
  cnt (fun e : Z * CAddrInfo => fInTried e.2 = false /\ e.1 ∉ X) M = cnt (fun e : Z * CAddrInfo => fInTried e.2 = false /\ e.1 ∉ X') M.
Proof. intros HX. apply cnt_ext. intros k x Hk. cbn. by rewrite (HX k x Hk). Qed.

Lemma cnt_new_change (M : gmap Z CAddrInfo) (X X' : gset Z) id i j : M !! id = Some i -> (forall k, k <> id -> k ∈ X <-> k ∈ X') ->
  cnt (fun e : Z * CAddrInfo => fInTried e.2 = false /\ e.1 ∉ X') (<[id := j]> M) =
  cnt (fun e : Z * CAddrInfo => fInTried e.2 = false /\ e.1 ∉ X) M - one (fInTried i = false /\ id ∉ X) + one (fInTried j = false /\ id ∉ X').
Proof.
  intros Hi HX. rewrite <- insert_delete_eq, cnt_fresh by apply lookup_delete_eq.
  rewrite (cnt_split _ M id i Hi). cbn.
  rewrite (cnt_new_ext (delete id M) X' X); [lia|]. intros k x [Hk _]%lookup_delete_Some. symmetry. by apply HX.
Qed.

Lemma cnt_tried_change (M : gmap Z CAddrInfo) id i j : M !! id = Some i ->
  cnt (fun e : Z * CAddrInfo => fInTried e.2 = true) (<[id := j]> M) =
  cnt (fun e : Z * CAddrInfo => fInTried e.2 = true) M - one (fInTried i = true) + one (fInTried j = true).
Proof. intros Hi. by rewrite (cnt_replace _ M id i j Hi). Qed.

(** [s] is freed. *)
Lemma unref_ok X m s id i : am_ok X m -> vvNew m !! s = Some id -> mapInfo m !! id = Some i ->
  let r := nRefCount i - 1 in
  0 <= r /\ fInTried i = false /\ id ∉ X /\
  am_ok (if decide (r = 0) then {[ id ]} ∪ X else X)
    (with_new (update m id (set_refcount r)) (delete s (vvNew m)) (if decide (r = 0) then nNew m - 1 else nNew m)).
Proof.
  intros HI Hs Hi r. destruct (ok_new _ _ HI s id Hs) as (i' & Hi' & Ht). simplify_eq.
  destruct (ok_ref _ _ HI id i Hi) as (Hr & Hle & HXi).
  assert (1 <= nRefCount i) as H1 by (rewrite Hr; by apply (cnt_pos _ (vvNew m) s id)).
  assert (id ∉ X) as Hn by (rewrite HXi; lia). split_and!; [lia|done|done|].
  assert (forall k, cnt (fun e : slot * Z => e.2 = k) (delete s (vvNew m)) = refs m k - one (id = k)) as HC
    by (intros k; unfold refs; by rewrite (cnt_delete _ (vvNew m) s id)).
  unfold with_new, update. cbn. rewrite (alter_some _ _ id i Hi).
  apply (retable X _ m id i (set_refcount r i)); [done|done|done|done| | | | | | |by apply (ok_slots X)].
  - intros s' k Hk%lookup_delete_Some. destruct Hk as [_ Hk]. apply (ok_new _ _ HI) in Hk as (x & Hx & Htx).
    apply (ex_replaced (mapInfo m) id i _ k (fun x => fInTried x = false) Hi); [done|]. eauto.
  - intros s' k. rewrite (ex_replaced (mapInfo m) id i _ k (fun x => fInTried x = true /\ s' = tried_slot SHA3_256 (nKey m) (ai_net x)) Hi) by done.
    apply (ok_tried _ _ HI).
  - intros k x [[<- <-]|[Hk Hx]]%lookup_insert_Some.
    + rewrite HC. unfold one. rewrite decide_True by done. cbn. rewrite Ht. unfold r in *. split_and!; [lia|lia|].
      destruct (decide _); [set_solver|]. split; [done|lia].
    + rewrite HC. unfold one. rewrite decide_False by done. destruct (ok_ref _ _ HI k x Hx) as (? & ? & HXk). split_and!; [lia|done|].
      rewrite <- HXk. destruct (decide _); [set_solver|done].
  - intros k. destruct (decide _); [set_solver|]. by right.
  - rewrite (ok_nNew _ _ HI), (cnt_new_change (mapInfo m) X _ id i) by (try done; intros k Hk; destruct (decide _); set_solver).
    cbn. rewrite Ht. unfold one. rewrite (decide_True (P := _ /\ id ∉ X)) by done. destruct (decide (r = 0)); [rewrite decide_False by set_solver|rewrite decide_True by done]; lia.
  - rewrite (ok_nTried _ _ HI), (cnt_tried_change (mapInfo m) id i) by done. cbn. lia.
Qed.

(** The id is put into a free slot. *)
Lemma place_ok X m s id i : am_ok X m -> vvNew m !! s = None -> mapInfo m !! id = Some i -> fInTried i = false ->
  nRefCount i < ADDRMAN_NEW_BUCKETS_PER_ADDRESS ->
  am_ok (X ∖ {[ id ]}) (with_new (place_new m s id) (vvNew (place_new m s id)) (nNew m + one (id ∈ X))).
Proof.
  intros HI Hs Hi Ht H8. destruct (ok_ref _ _ HI id i Hi) as (Hr & _ & HXi).
  assert (0 <= nRefCount i) as H0 by (rewrite Hr; apply cnt_nonneg). unfold ADDRMAN_NEW_BUCKETS_PER_ADDRESS in *.
  assert (forall k, cnt (fun e : slot * Z => e.2 = k) (<[s := id]> (vvNew m)) = refs m k + one (id = k)) as HC
    by (intros k; unfold refs; by rewrite cnt_fresh).
  unfold place_new, with_new, update. cbn. rewrite (alter_some _ _ id i Hi). rewrite i32_small by lia.
  apply (retable X _ m id i (set_refcount (nRefCount i + 1) i)); [done|done|done|done| | | | | | |by apply (ok_slots X)].
  - intros s' k Hk. apply (ex_replaced (mapInfo m) id i _ k (fun x => fInTried x = false) Hi); [done|].
    apply lookup_insert_Some in Hk as [[_ <-]|[_ Hk]]; [eauto|by apply (ok_new _ _ HI s')].
  - intros s' k. rewrite (ex_replaced (mapInfo m) id i _ k (fun x => fInTried x = true /\ s' = tried_slot SHA3_256 (nKey m) (ai_net x)) Hi) by done.
    apply (ok_tried _ _ HI).
  - unfold ADDRMAN_NEW_BUCKETS_PER_ADDRESS. intros k x [[<- <-]|[Hk Hx]]%lookup_insert_Some.
    + rewrite HC. unfold one. rewrite decide_True by done. cbn. rewrite Ht. split_and!; [lia|lia|].
      split; [intros ?; set_solver|lia].
    + rewrite HC. unfold one. rewrite decide_False by done. destruct (ok_ref _ _ HI k x Hx) as (? & ? & HXk). split_and!; [lia|done|].
      rewrite <- HXk. set_solver.
  - intros k Hk. right. set_solver.
  - rewrite (ok_nNew _ _ HI), (cnt_new_change (mapInfo m) X _ id i) by (try done; intros k Hk; set_solver).
    cbn. rewrite Ht. unfold one. destruct (decide (id ∈ X)); [rewrite (decide_False (P := _ /\ id ∉ X)) by naive_solver|rewrite (decide_True (P := _ /\ id ∉ X)) by done];
      rewrite decide_True by set_solver; lia.
  - rewrite (ok_nTried _ _ HI), (cnt_tried_change (mapInfo m) id i) by done. cbn. lia.
Qed.

(** ** Deletion *)

(** The entries that stay keep all but their position. *)
Definition moved (id : Z) (M M' : gmap Z CAddrInfo) : Prop :=
  M' !! id = None /\ (forall k x, k <> id -> M !! k = Some x -> exists p, M' !! k = Some (set_pos p x)) /\
  forall k y, M' !! k = Some y -> k <> id /\ exists x, M !! k = Some x /\ y = set_pos (nRandomPos y) x.

Lemma set_pos_self x : set_pos (nRandomPos x) x = x.
Proof. by destruct x. Qed.

Lemma moved_delete id M : moved id M (delete id M).
Proof.
  split_and!; [apply lookup_delete_eq| |].
  - intros k x Hk Hx. exists (nRandomPos x). by rewrite set_pos_self, lookup_delete_ne.
  - intros k y [Hk Hy]%lookup_delete_Some. split; [done|]. exists y. by rewrite set_pos_self.
Qed.

Lemma moved_swap id id2 j p M : id2 <> id -> M !! id2 = Some j -> moved id M (<[id2 := set_pos p j]> (delete id M)).
Proof.
  intros Hne Hj. split_and!.
  - rewrite lookup_insert_ne by done. apply lookup_delete_eq.
  - intros k x Hk Hx. destruct (decide (k = id2)) as [->|Hk2]; [rewrite lookup_insert_eq; simplify_eq; by exists p|].
    exists (nRandomPos x). by rewrite set_pos_self, lookup_insert_ne, lookup_delete_ne.
  - intros k y [[<- <-]|[Hk [Hk1 Hy]%lookup_delete_Some]]%lookup_insert_Some; (split; [done|]); [by exists j|].
    exists y. by rewrite set_pos_self.
Qed.

(** The result of the swap and the removal of the last element. *)
Lemma Delete_result X m id i : am_ok X m -> mapInfo m !! id = Some i ->
  exists M' l', Delete m id = Some (mkAddrMan (nKey m) M' (delete (ai_service i) (mapAddr m)) l' (nIdCount m) (vvNew m) (nNew m) (vvTried m) (nTried m)) /\
    moved id (mapInfo m) M' /\ (forall k x, M' !! k = Some x -> 0 <= nRandomPos x) /\
    (forall n k, l' !! n = Some k <-> exists x, M' !! k = Some x /\ nRandomPos x = Z.of_nat n).
Proof.
  intros HI Hi. destruct (ids_size X m HI) as [_ Hlen]. pose proof (ok_bound _ _ HI) as HB. pose proof (ok_random _ _ HI) as HR.
  pose proof (ok_pos _ _ HI id i Hi) as Hp0. set (l := vRandom m) in *.
  assert (l !! Z.to_nat (nRandomPos i) = Some id) as Hn by (apply HR; exists i; split; [done|lia]).
  pose proof (lookup_lt_Some _ _ _ Hn) as Hlt. unfold len in Hlen.
  destruct (lookup_lt_is_Some_2 l (length l - 1) ltac:(lia)) as [id2 H2]. pose proof H2 as (j & Hj & Hjp)%HR.
  unfold Delete. rewrite Hi. fold l. unfold len. rewrite i32_small by lia. unfold SwapRandom. fold l.
  destruct (Z.eqb_spec (nRandomPos i) (Z.of_nat (length l) - 1)) as [Elast|Nlast].
  - cbn [mbind option_bind]. fold l. rewrite bool_decide_eq_false_2 by (intros E; rewrite E in Hlt; cbn in Hlt; lia).
    exists (delete id (mapInfo m)), (take (length l - 1) l). split_and!; [done|apply moved_delete| |].
    + intros k x [_ Hx]%lookup_delete_Some. by apply (ok_pos _ _ HI k).
    + intros n k. rewrite lookup_take_Some, HR. split.
      * intros [(x & Hx & Hxn) Hnl]. exists x. split; [|done]. rewrite lookup_delete_ne; [done|]. intros <-. simplify_eq. lia.
      * intros (x & [Hk Hx]%lookup_delete_Some & Hxn). split; [eauto|]. assert (l !! n = Some k) as Hln by (apply HR; eauto).
        pose proof (lookup_lt_Some _ _ _ Hln). destruct (decide (n = length l - 1)%nat) as [->|]; [|lia]. exfalso. apply Hk.
        rewrite H2 in Hln. assert (Z.to_nat (nRandomPos i) = (length l - 1)%nat) as E by lia. rewrite E, H2 in Hn. congruence.
  - assert (id2 <> id) as Hne by (intros ->; simplify_eq; lia).
    unfold at_pos. destruct (Z.ltb_spec (nRandomPos i) 0); [lia|]. destruct (Z.ltb_spec (Z.of_nat (length l) - 1) 0); [lia|].
    rewrite Hn. cbn [mbind option_bind]. replace (Z.to_nat (Z.of_nat (length l) - 1)) with (length l - 1)%nat by lia.
    rewrite H2. cbn [mbind option_bind vRandom mapInfo mapAddr nIdCount vvNew nNew vvTried nTried nKey].
    rewrite bool_decide_eq_false_2 by (intros E%(f_equal length); rewrite !length_insert in E; cbn in E; lia).
    rewrite !length_insert. set (n := Z.to_nat (nRandomPos i)) in *.
    exists (<[id2 := set_pos (nRandomPos i) j]> (delete id (mapInfo m))), (<[n := id2]> (take (length l - 1) l)). split_and!.
    + do 2 f_equal.
      * apply map_eq. intros k. destruct (decide (k = id)) as [->|Hk1]; [rewrite lookup_insert_ne, !lookup_delete_eq; done|].
        rewrite lookup_delete_ne by done. destruct (decide (k = id2)) as [->|Hk2].
        -- rewrite lookup_insert_eq, lookup_alter_eq, lookup_alter_ne, Hj by done. done.
        -- rewrite lookup_insert_ne, lookup_delete_ne, !lookup_alter_ne by done. done.
      * rewrite take_insert_ge by lia. by rewrite take_insert_lt by lia.
    + by apply moved_swap.
    + intros k x [[<- <-]|[_ [_ Hx]%lookup_delete_Some]]%lookup_insert_Some; [done|]. by apply (ok_pos _ _ HI k).
    + intros n' k. destruct (decide (n' = n)) as [->|Hn'].
      * rewrite list_lookup_insert_eq by (rewrite length_take; lia). split.
        -- intros [= <-]. exists (set_pos (nRandomPos i) j). split; [apply lookup_insert_eq|]. cbn. lia.
        -- intros (x & [[<- <-]|[Hk [Hk1 Hx]%lookup_delete_Some]]%lookup_insert_Some & Hxn); [done|].
           assert (l !! n = Some k) as Hln by (apply HR; eauto). congruence.
      * rewrite list_lookup_insert_ne by done. rewrite lookup_take_Some, HR. split.
        -- intros [(x & Hx & Hxn) Hnl]. exists x. split; [|done]. rewrite lookup_insert_ne; [rewrite lookup_delete_ne; [done|]|].
           ++ intros <-. simplify_eq. lia.
           ++ intros <-. simplify_eq. lia.
        -- intros (x & [[<- <-]|[Hk [Hk1 Hx]%lookup_delete_Some]]%lookup_insert_Some & Hxn); [cbn in Hxn; lia|]. split; [eauto|].
           assert (l !! n' = Some k) as Hln by (apply HR; eauto). pose proof (lookup_lt_Some _ _ _ Hln).
           destruct (decide (n' = length l - 1)%nat) as [->|]; [|lia]. congruence.
Qed.

Lemma cnt_moved id M M' i (P : Z * CAddrInfo -> Prop) `{!forall e, Decision (P e)} : moved id M M' -> M !! id = Some i ->
  (forall k p x, P (k, set_pos p x) <-> P (k, x)) -> cnt P M' = cnt P M - one (P (id, i)).
Proof.
  intros (H0 & H1 & H2) Hi HP. rewrite <- (cnt_delete P M id i Hi). unfold cnt. rewrite <- !size_dom. f_equal. f_equal.
  apply set_eq. intros k. rewrite !elem_of_dom. split; intros [x Hx]; apply map_lookup_filter_Some in Hx as [Hx Hp].
  - apply H2 in Hx as [Hk (y & Hy & E)]. exists y. apply map_lookup_filter_Some. split; [by rewrite lookup_delete_ne|].
    rewrite E in Hp. by apply HP in Hp.
  - apply lookup_delete_Some in Hx as [Hk Hx]. destruct (H1 k x ltac:(done) Hx) as [p Hp']. exists (set_pos p x).
    apply map_lookup_filter_Some. split; [done|]. by apply HP.
Qed.

Definition same_tables (m m' : CAddrMan) : Prop :=
  nKey m' = nKey m /\ nIdCount m' = nIdCount m /\ vvNew m' = vvNew m /\ nNew m' = nNew m /\ vvTried m' = vvTried m /\ nTried m' = nTried m.

Lemma Delete_ok X m id : am_ok X m -> id ∈ X ->
  exists m', Delete m id = Some m' /\ am_ok (X ∖ {[ id ]}) m' /\ same_tables m m' /\ moved id (mapInfo m) (mapInfo m').
Proof.
  intros HI HX. destruct (ok_held _ _ HI id HX) as [i Hi].
  destruct (Delete_result X m id i HI Hi) as (M' & l' & -> & HM & Hpos & Hrand). eexists. split; [done|]. split; [|done].
  pose proof HM as (H0 & H1 & H2). destruct (ok_ref _ _ HI id i Hi) as (Hr & _ & HXi). pose proof (proj1 HXi HX) as [Hz Ht].
  assert (forall s, vvNew m !! s <> Some id) as Hnot.
  { intros s Hs. pose proof (cnt_pos (fun e : slot * Z => e.2 = id) _ _ _ Hs eq_refl). unfold refs in Hr. lia. }
  assert (forall (R : CAddrInfo -> Prop) k, (forall p x, R (set_pos p x) <-> R x) ->
    (exists y, M' !! k = Some y /\ R y) <-> k <> id /\ exists x, mapInfo m !! k = Some x /\ R x) as HE.
  { intros R k HR. split.
    - intros (y & Hy & Hry). apply H2 in Hy as [Hk (x & Hx & E)]. split; [done|]. exists x. split; [done|]. rewrite E in Hry. by apply HR in Hry.
    - intros [Hk (x & Hx & Hrx)]. destruct (H1 k x Hk Hx) as [p Hp]. exists (set_pos p x). split; [done|]. by apply HR. }
  split; cbn; try done.
  - intros s k. rewrite lookup_delete_Some, (HE (fun x => ai_service x = s)) by done. rewrite (ok_addr _ _ HI). split.
    + intros (Hs & x & Hx & Hsx). split; [|eauto]. intros ->. simplify_eq.
    + intros (Hk & x & Hx & Hsx). split; [|eauto]. intros E. apply Hk. assert (mapAddr m !! s = Some k) as A1 by (apply HI; eauto).
      assert (mapAddr m !! s = Some id) as A2 by (apply HI; exists i; auto). congruence.
  - intros k y Hy. apply H2 in Hy as [_ (x & Hx & _)]. by apply (ok_ids _ _ HI k x).
  - apply HI.
  - intros s k Hk. apply (HE (fun x => fInTried x = false)); [done|]. split; [|by apply (ok_new _ _ HI s)]. intros ->. by apply (Hnot s).
  - intros s k. rewrite (HE (fun x => fInTried x = true /\ s = tried_slot SHA3_256 (nKey m) (ai_net x))) by done. rewrite (ok_tried _ _ HI).
    split; [|tauto]. intros (x & Hx & Htx & Hs). split; [|eauto]. intros ->. simplify_eq. congruence.
  - intros k y Hy. apply H2 in Hy as [Hk (x & Hx & E)]. rewrite E. cbn. destruct (ok_ref _ _ HI k x Hx) as (? & ? & HXk).
    split_and!; [done|done|]. rewrite <- HXk. set_solver.
  - intros k [Hk Hk1]%elem_of_difference. destruct (ok_held _ _ HI k Hk) as [x Hx]. destruct (H1 k x ltac:(set_solver) Hx) as [p Hp]. eauto.
  - rewrite (ok_nNew _ _ HI). set (P := fun e : Z * CAddrInfo => fInTried e.2 = false /\ e.1 ∉ X).
    set (P' := fun e : Z * CAddrInfo => fInTried e.2 = false /\ e.1 ∉ X ∖ {[ id ]}).
    pose proof (cnt_moved id (mapInfo m) M' i P' HM Hi ltac:(done)) as A1. pose proof (cnt_split P' (mapInfo m) id i Hi) as A2.
    pose proof (cnt_split P (mapInfo m) id i Hi) as A3. pose proof (cnt_new_ext (delete id (mapInfo m)) X (X ∖ {[ id ]})) as A4.
    assert (one (P (id, i)) = 0) as A5 by (unfold one; apply decide_False; unfold P; naive_solver).
    fold P P' in A4. rewrite A4 in A3; [lia|]. intros k x [Hk _]%lookup_delete_Some. set_solver.
  - rewrite (ok_nTried _ _ HI), (cnt_moved id (mapInfo m) M' i (fun e => fInTried e.2 = true) HM Hi) by done. cbn. unfold one.
    rewrite decide_False by (rewrite Ht; done). lia.
  - apply HI.
Qed.

(** ** Clearing a slot *)

Lemma ClearNew_ok X m s : am_ok X m -> exists m', ClearNew m s = Some m' /\ am_ok X m' /\ nKey m' = nKey m /\ nIdCount m' = nIdCount m /\
  vvTried m' = vvTried m /\ nTried m' = nTried m /\ vvNew m' = delete s (vvNew m) /\
  (forall k x, mapInfo m !! k = Some x -> vvNew m !! s <> Some k -> exists p, mapInfo m' !! k = Some (set_pos p x)).
Proof.
  intros HI. unfold ClearNew. destruct (vvNew m !! s) as [id|] eqn:Es.
  2: { exists m. split_and!; try done; [by rewrite delete_id|]. intros k x Hx _. exists (nRandomPos x). by rewrite set_pos_self. }
  destruct (ok_new _ _ HI s id Es) as (i & Hi & Ht). rewrite Hi.
  destruct (unref_ok X m s id i HI Es Hi) as (Hr & _ & HnX & HU). destruct (ok_ref _ _ HI id i Hi) as (_ & H8 & _).
  unfold ADDRMAN_NEW_BUCKETS_PER_ADDRESS in H8. rewrite i32_small by lia. set (r := nRefCount i - 1) in *.
  set (m1 := update m id (set_refcount r)) in *. pose proof (counter_bounds X m HI) as [HN _]. pose proof (ok_bound _ _ HI) as HB.
  destruct (Z.leb_spec r 0) as [Hz|Hz].
  - rewrite decide_True in HU by lia. rewrite decide_True in HU by lia.
    set (m2 := with_new m1 (delete s (vvNew m)) (nNew m - 1)) in *.
    destruct (Delete_ok _ m2 id HU ltac:(set_solver)) as (m3 & ED & HI3 & (E1 & E2 & E3 & E4 & E5 & E6) & HM).
    (* the deletion does not look at the table of new addresses *)
    assert (Delete m1 id = Some (with_new m3 (vvNew m) (nNew m))) as ED1.
    { revert ED. unfold Delete, m2, with_new, m1, update, SwapRandom. cbn. rewrite (alter_some _ _ id i Hi), lookup_insert_eq.
      destruct (_ =? _); cbn; [destruct (bool_decide (vRandom m = [])); [done|]; by intros [= <-]|].
      destruct (at_pos (vRandom m) (nRandomPos i)) as [a|]; cbn [mbind option_bind]; [|done].
      destruct (at_pos (vRandom m) (i32 (len (vRandom m)) - 1)) as [b|]; cbn [mbind option_bind]; [|done]. cbn.
      destruct (bool_decide _); [done|]. by intros [= <-]. }
    rewrite ED1. cbn [mbind option_bind]. eexists. split; [done|]. cbn [nKey nIdCount vvNew nNew vvTried nTried mapInfo with_new].
    rewrite i32_small by lia. split_and!; try done.
    + replace (({[ id ]} ∪ X) ∖ {[ id ]}) with X in HI3 by set_solver. destruct m3. cbn in *. subst. exact HI3.
    + intros k x Hx Hk. destruct HM as (_ & H1 & _). assert (k <> id) as Hne by congruence. apply (H1 k x Hne).
      cbn. rewrite (alter_some _ _ id i Hi). by rewrite lookup_insert_ne.
  - rewrite decide_False in HU by lia. rewrite decide_False in HU by lia. cbn [mbind option_bind]. eexists. split; [done|]. split_and!; try done.
    intros k x Hx Hk. exists (nRandomPos x). rewrite set_pos_self. cbn. rewrite (alter_some _ _ id i Hi). rewrite lookup_insert_ne by congruence. done.
Qed.

(** ** Creation and the tried table *)

Lemma Create_ok m addr src : am_ok ∅ m -> nIdCount m + 1 < 2 ^ 31 - 1 -> mapAddr m !! na_service addr = None ->
  let '(id, m') := Create m addr src in
  am_ok {[ id ]} m' /\ mapInfo m' !! id = Some (set_pos (len (vRandom m)) (new_CAddrInfo addr src)) /\
  nKey m' = nKey m /\ nIdCount m' = nIdCount m + 1 /\ nNew m' = nNew m.
Proof.
  intros HI Hb Hn. unfold Create. set (id := nIdCount m). pose proof (ok_bound _ _ HI) as HB. destruct (ids_size ∅ m HI) as [_ Hl].
  pose proof (len_nonneg (vRandom m)). rewrite !i32_small by (unfold id; lia).
  set (j := set_pos (len (vRandom m)) (new_CAddrInfo addr src)).
  assert (mapInfo m !! id = None) as Hid.
  { destruct (mapInfo m !! id) as [x|] eqn:E; [|done]. apply (ok_ids _ _ HI) in E. unfold id in E. lia. }
  assert (forall s, vvNew m !! s <> Some id) as Hns by (intros s (x & Hx & _)%(ok_new _ _ HI); congruence).
  split_and!; [|apply lookup_insert_eq|done|done|done].
  assert (forall (R : CAddrInfo -> Prop) k, (exists x, <[id := j]> (mapInfo m) !! k = Some x /\ R x) <->
    (k = id /\ R j) \/ (exists x, mapInfo m !! k = Some x /\ R x)) as HE.
  { intros R k. destruct (decide (k = id)) as [->|Hk].
    - rewrite lookup_insert_eq, Hid. split; [intros (x & [= <-] & ?); auto|]. intros [[_ ?]|(x & ? & _)]; [eauto|done].
    - setoid_rewrite lookup_insert_ne; [|done]. split; [auto|]. intros [[-> _]|?]; done. }
  split; cbn; try apply HI.
  - intros s k. rewrite HE. rewrite lookup_insert_Some, (ok_addr _ _ HI). cbn. unfold ai_service at 1. cbn.
    split; [intros [[<- <-]|[_ ?]]; auto|]. intros [[-> <-]|(x & Hx & <-)]; [by left|]. right. split; [|eauto].
    intros E. assert (mapAddr m !! na_service addr = Some k) as A by (apply HI; eauto). congruence.
  - intros k x [[<- _]|[_ Hx]]%lookup_insert_Some; [unfold id; lia|]. pose proof (ok_ids _ _ HI k x Hx). lia.
  - lia.
  - intros n k. rewrite HE, lookup_app_Some, list_lookup_singleton_Some, (ok_random _ _ HI). cbn. unfold len. split.
    + intros [?|(? & ? & ->)]; [auto|]. left. split; [done|lia].
    + intros [[-> Hpos]|(x & Hx & Hpos)]; [right|left; eauto]. split_and!; [lia|lia|done].
  - intros k x [[_ <-]|[_ Hx]]%lookup_insert_Some; [cbn; lia|by apply (ok_pos _ _ HI k)].
  - intros s k Hk. apply HE. right. by apply (ok_new _ _ HI s).
  - intros s k. rewrite HE, (ok_tried _ _ HI). cbn. split; [auto|]. intros [[_ [? _]]|?]; done.
  - intros k x [[<- <-]|[Hk Hx]]%lookup_insert_Some.
    + cbn. assert (cnt (fun e : slot * Z => e.2 = id) (vvNew m) = 0) as HC by (apply cnt_zero; intros s k Hs E; cbn in E; subst k; by apply (Hns s)).
      unfold refs. cbn. rewrite HC. split_and!; [done|done|]. split; [done|set_solver].
    + destruct (ok_ref _ _ HI k x Hx) as (? & ? & HXk). split_and!; [done|done|]. rewrite <- HXk. set_solver.
  - intros k ->%elem_of_singleton. by rewrite lookup_insert_eq.
  - rewrite cnt_fresh by done. cbn. unfold one. rewrite decide_False by set_solver. rewrite Z.add_0_r, (ok_nNew _ _ HI).
    apply cnt_new_ext. intros k x Hx. assert (k <> id) by congruence. set_solver.
  - rewrite cnt_fresh by done. cbn. unfold one. rewrite decide_False by done. rewrite Z.add_0_r. apply HI.
Qed.

Lemma cnt_filter_out (N : gmap slot Z) id k :
  cnt (fun e : slot * Z => e.2 = k) (filter (fun e : slot * Z => e.2 <> id) N) = (if decide (k = id) then 0 else cnt (fun e : slot * Z => e.2 = k) N).
Proof.
  destruct (decide (k = id)) as [->|Hk].
  - apply cnt_zero. intros s x [_ Hx]%map_lookup_filter_Some. done.
  - unfold cnt. do 2 f_equal. apply map_eq. intros s. apply option_eq. intros x. rewrite !map_lookup_filter_Some. cbn. naive_solver.
Qed.

(** The first part of [MakeTried]: the id leaves the table of new addresses. *)
Lemma forget_ok m id i : am_ok ∅ m -> mapInfo m !! id = Some i -> fInTried i = false ->
  am_ok {[ id ]} (with_new (update m id (set_refcount 0)) (filter (fun e : slot * Z => e.2 <> id) (vvNew m)) (nNew m - 1)).
Proof.
  intros HI Hi Ht. unfold with_new, update. cbn. rewrite (alter_some _ _ id i Hi).
  apply (retable ∅ _ m id i (set_refcount 0 i)); [done|done|done|done| | | | | | |by apply (ok_slots ∅)].
  - intros s k [Hk _]%map_lookup_filter_Some. apply (ex_replaced (mapInfo m) id i _ k (fun x => fInTried x = false) Hi); [done|].
    by apply (ok_new _ _ HI s).
  - intros s k. rewrite (ex_replaced (mapInfo m) id i _ k (fun x => fInTried x = true /\ s = tried_slot SHA3_256 (nKey m) (ai_net x)) Hi) by done.
    apply (ok_tried _ _ HI).
  - intros k x [[<- <-]|[Hk Hx]]%lookup_insert_Some; rewrite cnt_filter_out.
    + rewrite decide_True by done. cbn. rewrite Ht. split_and!; [done|done|set_solver].
    + rewrite decide_False by done. destruct (ok_ref _ _ HI k x Hx) as (? & ? & HXk). split_and!; [done|done|]. rewrite <- HXk. set_solver.
  - set_solver.
  - rewrite (ok_nNew _ _ HI), (cnt_new_change (mapInfo m) ∅ _ id i) by (try done; set_solver).
    cbn. rewrite Ht. unfold one. rewrite decide_True by set_solver. rewrite decide_False by set_solver. lia.
  - rewrite (ok_nTried _ _ HI), (cnt_tried_change (mapInfo m) id i) by done. cbn. lia.
Qed.

(** An address leaves the tried table. *)
Lemma untry_ok X m s id i : am_ok X m -> vvTried m !! s = Some id -> mapInfo m !! id = Some i ->
  id ∉ X /\ am_ok ({[ id ]} ∪ X) (with_tried (update m id (set_tried false)) (delete s (vvTried m)) (nTried m - 1)).
Proof.
  intros HI Hs Hi. pose proof Hs as (i' & Hi' & Ht & Es)%(ok_tried _ _ HI). simplify_eq.
  destruct (ok_ref _ _ HI id i Hi) as (Hr & H8 & HXi). assert (id ∉ X) as HnX by (rewrite HXi; intros [_ ?]; congruence). split; [done|].
  assert (refs m id = 0) as H0.
  { apply cnt_zero. intros s' k Hk Ek. cbn in Ek. subst k. apply (ok_new _ _ HI) in Hk as (x & Hx & Hf). simplify_eq. congruence. }
  unfold with_tried, update. cbn. rewrite (alter_some _ _ id i Hi).
  apply (retable X _ m id i (set_tried false i)); [done|done|done|done| | | | | | |].
  - intros s' k Hk. pose proof Hk as (x & Hx & Hf)%(ok_new _ _ HI). destruct (decide (k = id)) as [->|Hne]; [simplify_eq; congruence|].
    exists x. by rewrite lookup_insert_ne.
  - intros s' k. rewrite lookup_delete_Some, (ok_tried _ _ HI). split.
    + intros [Hs' (x & Hx & Hf & E)]. exists x. rewrite lookup_insert_ne; [done|]. intros <-. simplify_eq.
    + intros (x & [[<- <-]|[Hk Hx]]%lookup_insert_Some & Hf & E); [done|]. split; [|eauto]. intros E'. apply Hk.
      assert (vvTried m !! s' = Some k) as A by (apply HI; eauto). rewrite <- E', Hs in A. congruence.
  - intros k x [[<- <-]|[Hk Hx]]%lookup_insert_Some.
    + cbn. unfold refs in *. split_and!; [done|done|]. split; [intros _; split; [lia|done]|set_solver].
    + destruct (ok_ref _ _ HI k x Hx) as (? & ? & HXk). split_and!; [done|done|]. rewrite <- HXk. set_solver.
  - intros k. rewrite elem_of_union, elem_of_singleton. auto.
  - rewrite (ok_nNew _ _ HI), (cnt_new_change (mapInfo m) X _ id i) by (try done; set_solver).
    cbn. rewrite Ht. unfold one. rewrite decide_False by naive_solver. rewrite decide_False by set_solver. lia.
  - rewrite (ok_nTried _ _ HI), (cnt_tried_change (mapInfo m) id i) by done. cbn. rewrite Ht. unfold one. rewrite decide_True, decide_False by done. lia.
  - rewrite (ok_slots _ _ HI), map_size_delete, Hs. assert (size (vvTried m) <> 0%nat); [|lia]. intros E%map_size_empty_inv. rewrite E in Hs. done.
Qed.

(** An address that is referenced nowhere enters its free slot of the tried table. *)
Lemma try_ok X m id i : am_ok X m -> id ∈ X -> mapInfo m !! id = Some i -> vvTried m !! tried_slot SHA3_256 (nKey m) (ai_net i) = None ->
  am_ok (X ∖ {[ id ]})
    (update (with_tried m (<[tried_slot SHA3_256 (nKey m) (ai_net i) := id]> (vvTried m)) (nTried m + 1)) id (set_tried true)).
Proof.
  intros HI HX Hi Hs. destruct (ok_ref _ _ HI id i Hi) as (Hr & H8 & HXi). pose proof (proj1 HXi HX) as [H0 Ht].
  unfold update, with_info, with_tried. cbn. rewrite (alter_some _ _ id i Hi). set (s := tried_slot SHA3_256 (nKey m) (ai_net i)) in *.
  apply (retable X _ m id i (set_tried true i)); [done|done|done|done| | | | | | |].
  - intros s' k Hk. pose proof Hk as (x & Hx & Hf)%(ok_new _ _ HI). destruct (decide (k = id)) as [->|Hne].
    + exfalso. assert (1 <= refs m id) by (by apply (cnt_pos _ (vvNew m) s' id)). lia.
    + exists x. by rewrite lookup_insert_ne.
  - intros s' k. rewrite lookup_insert_Some, (ok_tried _ _ HI). split.
    + intros [[<- <-]|[Hs' (x & Hx & Hf & E)]]; [exists (set_tried true i); by rewrite lookup_insert_eq|].
      exists x. rewrite lookup_insert_ne; [done|]. intros <-. by simplify_eq.
    + intros (x & [[<- <-]|[Hk Hx]]%lookup_insert_Some & Hf & E); [by left|]. right. split; [|eauto]. intros E'.
      assert (vvTried m !! s' = Some k) as A by (apply HI; eauto). congruence.
  - intros k x [[<- <-]|[Hk Hx]]%lookup_insert_Some.
    + cbn. split_and!; [done|done|]. split; [set_solver|]. intros [_ ?]; done.
    + destruct (ok_ref _ _ HI k x Hx) as (? & ? & HXk). split_and!; [done|done|]. rewrite <- HXk. set_solver.
  - intros k. rewrite elem_of_difference. tauto.
  - rewrite (ok_nNew _ _ HI), (cnt_new_change (mapInfo m) X _ id i) by (try done; set_solver).
    cbn. rewrite Ht. unfold one. rewrite decide_False by naive_solver. rewrite decide_False by naive_solver. lia.
  - rewrite (ok_nTried _ _ HI), (cnt_tried_change (mapInfo m) id i) by done. cbn. rewrite Ht. unfold one. rewrite decide_False, decide_True by done. lia.
  - rewrite (ok_slots _ _ HI), map_size_insert_None by done. lia.
Qed.

(** ** The operations *)

(** Clearing a slot does not look at the tried table. *)
Lemma ClearNew_with_tried m T n s : ClearNew (with_tried m T n) s = (fun m' => with_tried m' T n) <$> ClearNew m s.
Proof.
  unfold ClearNew. cbn. destruct (vvNew m !! s) as [id|]; [|done]. destruct (mapInfo m !! id) as [i|] eqn:Hi; [|done].
  destruct (_ <=? 0); [|done]. unfold Delete, update, with_tried, with_info, SwapRandom. cbn.
  destruct (alter _ id (mapInfo m) !! id) as [j|]; [|done]. destruct (_ =? _); [cbn; by case_match|].
  cbn. destruct (at_pos (vRandom m) (nRandomPos j)) as [a|]; cbn [mbind option_bind]; [|reflexivity].
  destruct (at_pos (vRandom m) (i32 (len (vRandom m)) - 1)) as [b|]; cbn [mbind option_bind]; [|reflexivity]. cbn. by case_match.
Qed.

(** After the eviction the slot is written, so it counts as free. *)
Lemma evict_ok X m s : am_ok X m -> exists m', evict_tried SHA3_256 m s = Some m' /\
  am_ok X (with_tried m' (delete s (vvTried m')) (nTried m')) /\ nKey m' = nKey m /\ nIdCount m' = nIdCount m /\
  forall k x, k ∈ X -> mapInfo m !! k = Some x -> exists p, mapInfo m' !! k = Some (set_pos p x).
Proof.
  intros HI. unfold evict_tried. destruct (vvTried m !! s) as [id|] eqn:Es.
  2: { exists m. rewrite delete_id by done. split_and!; try done; [by destruct m|]. intros k x _ Hx. exists (nRandomPos x). by rewrite set_pos_self. }
  pose proof Es as (i & Hi & Ht & _)%(ok_tried _ _ HI). rewrite Hi.
  destruct (untry_ok X m s id i HI Es Hi) as [HnX HU]. destruct (counter_bounds X m HI) as [HN HT]. pose proof (ok_bound _ _ HI) as HB.
  assert (1 <= nTried m) as H1 by (rewrite (ok_nTried _ _ HI); by apply (cnt_pos _ (mapInfo m) id i)).
  rewrite i32_small by lia. set (m1 := update m id (set_tried false)) in *. set (md := with_tried m1 (delete s (vvTried m)) (nTried m - 1)) in *.
  set (s' := new_slot SHA3_256 (nKey _) _ _).
  destruct (ClearNew_ok _ md s' HU) as (md' & EC & HI' & E1 & E2 & E3 & E4 & E5 & Hkeep).
  assert (ClearNew (with_tried m1 (vvTried m) (nTried m - 1)) s' = Some (with_tried md' (vvTried m) (nTried m - 1))) as ->.
  { change (with_tried m1 (vvTried m) (nTried m - 1)) with (with_tried md (vvTried m) (nTried m - 1)). by rewrite ClearNew_with_tried, EC. }
  cbn [mbind option_bind]. eexists. split; [done|].
  assert (mapInfo md !! id = Some (set_tried false i)) as Hmd by (cbn; by rewrite (alter_some _ _ id i Hi), lookup_insert_eq).
  assert (vvNew md !! s' <> Some id) as Hslot.
  { intros (x & Hx & Hf)%(ok_new _ _ HI). simplify_eq. congruence. }
  destruct (Hkeep id _ Hmd Hslot) as [p Hp].
  assert (nRefCount i = 0) as H0.
  { destruct (ok_ref _ _ HU id _ Hmd) as (_ & _ & HXi). destruct (proj1 HXi ltac:(set_solver)) as [H0 _]. exact H0. }
  pose proof (place_ok _ md' s' id _ HI' ltac:(rewrite E5; apply lookup_delete_eq) Hp eq_refl ltac:(cbn; rewrite H0; done)) as HP.
  unfold one in HP. rewrite decide_True in HP by set_solver. replace (({[ id ]} ∪ X) ∖ {[ id ]}) with X in HP by set_solver.
  destruct (counter_bounds _ _ HI') as [HN' _]. rewrite E2 in HN'. split_and!; [|cbn; by rewrite E1|cbn; by rewrite E2|].
  - cbn [nNew with_new place_new update with_info with_tried]. rewrite i32_small by (cbn in HN'; lia). destruct md'. cbn in *. subst. exact HP.
  - intros k x Hk Hx. assert (k <> id) as Hne by set_solver. cbn. rewrite lookup_alter_ne by done. apply Hkeep.
    + cbn. by rewrite lookup_alter_ne.
    + intros Hs'. cbn in Hs'. pose proof (ok_ref _ _ HI k x Hx) as (Hr & _ & HXk). destruct (proj1 HXk Hk) as [Hz _].
      assert (1 <= refs m k) by (by apply (cnt_pos _ (vvNew m) s' k)). lia.
Qed.

Lemma MakeTried_ok m info id : am_ok ∅ m -> mapInfo m !! id = Some info -> fInTried info = false ->
  exists m', MakeTried SHA3_256 m info id = Some m' /\ am_ok ∅ m' /\ nIdCount m' = nIdCount m.
Proof.
  intros HI Hi Ht. unfold MakeTried. destruct (ok_ref _ _ HI id info Hi) as (Hr & _ & _).
  change (Z.of_nat (size (filter (fun e : slot * Z => e.2 = id) (vvNew m)))) with (refs m id). rewrite <- Hr, Z.sub_diag.
  change (i32 0) with 0. destruct (counter_bounds _ _ HI) as [HN _]. pose proof (ok_bound _ _ HI) as HB.
  assert (1 <= nNew m) as H1.
  { rewrite (ok_nNew _ _ HI). apply (cnt_pos _ (mapInfo m) id info); [done|]. split; [done|set_solver]. }
  cbn [vvNew update with_info nNew]. rewrite i32_small by lia.
  pose proof (forget_ok m id info HI Hi Ht) as HF. set (m1 := with_new _ _ _) in *.
  change (nKey m1) with (nKey m). set (s := tried_slot SHA3_256 (nKey m) (ai_net info)).
  destruct (evict_ok {[ id ]} m1 s HF) as (m2 & -> & HI2 & EK & EI & Hkeep). cbn [mbind option_bind]. eexists. split; [done|].
  assert (mapInfo m1 !! id = Some (set_refcount 0 info)) as Hm1 by (cbn; by rewrite (alter_some _ _ id info Hi), lookup_insert_eq).
  destruct (Hkeep id _ ltac:(set_solver) Hm1) as [p Hp].
  destruct (counter_bounds _ _ HI2) as [_ HT2]. cbn in HT2. rewrite EI in HT2. cbn in HT2.
  pose proof (try_ok {[ id ]} _ id _ HI2 ltac:(set_solver) Hp) as HTry. cbn [nKey with_tried vvTried nTried] in HTry. rewrite EK in HTry.
  change (nKey m1) with (nKey m) in HTry. change (ai_net (set_pos p (set_refcount 0 info))) with (ai_net info) in HTry. fold s in HTry.
  specialize (HTry (lookup_delete_eq _ _)). rewrite insert_delete_eq, difference_diag_L in HTry. rewrite i32_small by lia. split; [exact HTry|].
  cbn. by rewrite EI.
Qed.

Lemma Find_spec X m a : am_ok X m -> match Find m a with
  | Some (id, i) => mapAddr m !! a = Some id /\ mapInfo m !! id = Some i /\ ai_service i = a
  | None => mapAddr m !! a = None
  end.
Proof.
  intros HI. unfold Find. destruct (mapAddr m !! a) as [id|] eqn:Ea; cbn; [|done]. pose proof Ea as (i & Hi & Hs)%(ok_addr _ _ HI).
  rewrite Hi. done.
Qed.

Lemma with_new_self m : with_new m (vvNew m) (nNew m) = m.
Proof. by destruct m. Qed.

Lemma Add_existing_ok m addr id i : am_ok ∅ m -> mapAddr m !! na_service addr = Some id -> mapInfo m !! id = Some i -> fInTried i = false ->
  nRefCount i <> ADDRMAN_NEW_BUCKETS_PER_ADDRESS -> forall s, vvNew m !! s <> Some id ->
  exists m', (m' ← ClearNew m s; Some (true, match mapAddr m' !! na_service addr with Some id => place_new m' s id | None => m' end)) = Some (true, m') /\
    am_ok ∅ m' /\ nIdCount m' = nIdCount m /\ nKey m' = nKey m.
Proof.
  intros HI Ha Hi Ht H8 s Hs. destruct (ClearNew_ok ∅ m s HI) as (m1 & -> & HI1 & EK & EI & _ & _ & EN & Hkeep).
  destruct (Hkeep id i Hi Hs) as [p Hp]. destruct (ok_ref _ _ HI id i Hi) as (_ & Hle & _). cbn [mbind option_bind].
  assert (mapAddr m1 !! na_service addr = Some id) as ->.
  { apply HI1. eexists. split; [exact Hp|]. pose proof Ha as (x & Hx & Hsx)%(ok_addr _ _ HI). by simplify_eq. }
  eexists. split; [done|].
  pose proof (place_ok ∅ m1 s id _ HI1 ltac:(rewrite EN; apply lookup_delete_eq) Hp Ht ltac:(cbn; lia)) as HP.
  unfold one in HP. replace (∅ ∖ {[id]} : gset Z) with (∅ : gset Z) in HP by set_solver. rewrite decide_False, Z.add_0_r in HP by set_solver.
  change (nNew m1) with (nNew (place_new m1 s id)) in HP. rewrite with_new_self in HP. done.
Qed.

Lemma Add_ok m now addr src penalty : am_ok ∅ m -> nIdCount m + 1 < 2 ^ 31 - 1 ->
  exists r m', Add SHA3_256 m now addr src penalty = Some (r, m') /\ am_ok ∅ m' /\ nKey m' = nKey m /\ nIdCount m' <= nIdCount m + 1.
Proof.
  intros HI Hb. unfold Add. destruct (IsRoutable _); cbn [negb]; [|exists false, m; split_and!; [done|done|done|lia]].
  pose proof (Find_spec ∅ m (na_service addr) HI) as HF. destruct (Find m (na_service addr)) as [[id i]|].
  - destruct HF as (Ha & Hi & Hs). set (f := set_addr _ _). pose proof (update_ok ∅ m id f i HI Hi ltac:(done)) as HU. set (m1 := update m id f) in *.
    assert (mapInfo m1 !! id = Some (f i)) as Hm1 by (cbn; by rewrite (alter_some _ _ id i Hi), lookup_insert_eq).
    destruct (fInTried i) eqn:Ht; [exists false, m1; split_and!; [done|done|done|cbn; lia]|].
    destruct (Z.eqb_spec (nRefCount i) ADDRMAN_NEW_BUCKETS_PER_ADDRESS) as [|H8]; [exists false, m1; split_and!; [done|done|done|cbn; lia]|].
    case_bool_decide as Hsl; [exists false, m1; split_and!; [done|done|done|cbn; lia]|].
    destruct (Add_existing_ok m1 addr id (f i) HU Ha Hm1 Ht H8 _ Hsl) as (m2 & E & HI2 & EI & EK).
    exists true, m2. split_and!; [exact E|done|done|]. rewrite EI. cbn. lia.
  - pose proof (Create_ok m addr src HI Hb HF) as HC. destruct (Create m addr src) as [id m1]. destruct HC as (HI1 & Hi1 & EK & EI & EN).
    set (f := set_addr _ _). pose proof (update_ok _ m1 id f _ HI1 Hi1 ltac:(done)) as HU. set (m2 := update m1 id f) in *.
    assert (mapInfo m2 !! id = Some (f (set_pos (len (vRandom m)) (new_CAddrInfo addr src)))) as Hm2
      by (cbn; by rewrite (alter_some _ _ id _ Hi1), lookup_insert_eq).
    set (s := new_slot _ _ _ _). destruct (ClearNew_ok _ m2 s HU) as (m3 & -> & HI3 & EK3 & EI3 & _ & _ & EN3 & Hkeep).
    assert (vvNew m2 !! s <> Some id) as Hs.
    { intros Hs. destruct (ok_ref _ _ HU id _ Hm2) as (Hr & _ & _). assert (1 <= refs m2 id) by (by apply (cnt_pos _ (vvNew m2) s id)). cbn in Hr. lia. }
    destruct (Hkeep id _ Hm2 Hs) as [p Hp]. cbn [mbind option_bind].
    pose proof (place_ok _ m3 s id _ HI3 ltac:(rewrite EN3; apply lookup_delete_eq) Hp eq_refl ltac:(done)) as HP.
    unfold one in HP. rewrite decide_True, difference_diag_L in HP by set_solver. destruct (counter_bounds _ _ HI3) as [HN _].
    rewrite EI3 in HN. cbn in HN. rewrite EI in HN. change (nNew (place_new m3 s id)) with (nNew m3). rewrite i32_small by lia.
    eexists _, _. split; [done|]. split_and!; [exact HP|cbn; by rewrite EK3|]. cbn. rewrite EI3. cbn. lia.
Qed.

Lemma Good_ok m now addr t : am_ok ∅ m -> exists m', Good SHA3_256 m now addr t = Some m' /\ am_ok ∅ m' /\ nIdCount m' = nIdCount m.
Proof.
  intros HI. unfold Good. pose proof (Find_spec ∅ m addr HI) as HF. destruct (Find m addr) as [[id i]|]; [|eauto].
  destruct HF as (Ha & Hi & Hs). set (j := mkAddrInfo _ _ _ _ _ _ _ _ _).
  pose proof (update_ok ∅ m id (fun _ => j) i HI Hi ltac:(done)) as HU. destruct (fInTried j) eqn:Ht; [eauto|].
  apply (MakeTried_ok _ j id HU); [|done]. cbn. by rewrite (alter_some _ _ id i Hi), lookup_insert_eq.
Qed.

Lemma Attempt_ok m now addr count t : am_ok ∅ m -> am_ok ∅ (Attempt m now addr count t) /\ nIdCount (Attempt m now addr count t) = nIdCount m.
Proof.
  intros HI. unfold Attempt. pose proof (Find_spec ∅ m addr HI) as HF. destruct (Find m addr) as [[id i]|]; [|done].
  destruct HF as (Ha & Hi & Hs). split; [|done]. by apply (update_ok ∅ m id _ i).
Qed.

Lemma new_ok key : am_ok ∅ (new_CAddrMan key).
Proof.
  assert (forall (k : Z) (R : CAddrInfo -> Prop), (exists i, (∅ : gmap Z CAddrInfo) !! k = Some i /\ R i) <-> False) as HE.
  { intros k R. split; [|done]. intros (i & Hi & _). by rewrite lookup_empty in Hi. }
  split; cbn; try done; try lia; try (intros; by rewrite lookup_empty in *).
  - intros s id. rewrite HE. by rewrite lookup_empty.
  - intros k id. by rewrite HE, lookup_nil.
  - intros s id. rewrite HE. by rewrite lookup_empty.
Qed.

(** ** Sequences of operations *)

Inductive AddrOp :=
| OpAdd (now : Z) (addr : CNetworkAddr) (src : CNetAddr) (penalty : Z)
| OpAddMany (now : nat -> Z) (l : list CNetworkAddr) (src : CNetAddr) (penalty : Z)
| OpGood (now : Z) (addr : CService) (t : Z)
| OpAttempt (now : Z) (addr : CService) (count : bool) (t : Z)
| OpClear.

Definition addr_step (m : CAddrMan) (op : AddrOp) : option CAddrMan :=
  match op with
  | OpAdd now addr src penalty => snd <$> Add SHA3_256 m now addr src penalty
  | OpAddMany now l src penalty => snd <$> AddMany SHA3_256 m now l src penalty 0
  | OpGood now addr t => Good SHA3_256 m now addr t
  | OpAttempt now addr count t => Some (Attempt m now addr count t)
  | OpClear => Some (ClearLocked m)
  end.
Fixpoint addr_run (m : CAddrMan) (ops : list AddrOp) : option CAddrMan :=
  match ops with [] => Some m | op :: ops' => m ← addr_step m op; addr_run m ops' end.

(** How many addresses an operation can create. *)
Definition creations (op : AddrOp) : Z := match op with OpAdd _ _ _ _ => 1 | OpAddMany _ l _ _ => len l | _ => 0 end.

Lemma AddMany_ok now src penalty l : forall m n, am_ok ∅ m -> nIdCount m + len l < 2 ^ 31 - 1 ->
  exists r m', AddMany SHA3_256 m now l src penalty n = Some (r, m') /\ am_ok ∅ m' /\ nIdCount m' <= nIdCount m + len l.
Proof.
  induction l as [|addr l IH]; intros m n HI Hb; cbn [AddMany]; [exists n, m; split_and!; [done|done|unfold len; cbn; lia]|].
  assert (len (addr :: l) = 1 + len l) as Hl by (unfold len; cbn [length]; lia). pose proof (len_nonneg l). rewrite Hl in *.
  destruct (Add_ok m (now (length l)) addr src penalty HI ltac:(lia)) as (r & m1 & -> & HI1 & _ & Hb1). cbn [mbind option_bind].
  destruct (IH m1 (if r then i32 (n + 1) else n) HI1 ltac:(lia)) as (r' & m2 & E & HI2 & Hb2). exists r', m2. split_and!; [done|done|lia].
Qed.

Lemma addr_step_ok m op : am_ok ∅ m -> nIdCount m + creations op < 2 ^ 31 - 1 ->
  exists m', addr_step m op = Some m' /\ am_ok ∅ m' /\ nIdCount m' <= nIdCount m + creations op.
Proof.
  intros HI Hb. pose proof (ok_bound _ _ HI). destruct op as [now addr src pen|now l src pen|now addr t|now addr c t|]; cbn [addr_step creations] in *.
  - destruct (Add_ok m now addr src pen HI Hb) as (r & m' & -> & HI' & _ & Hb'). eauto.
  - destruct (AddMany_ok now src pen l m 0 HI Hb) as (r & m' & -> & HI' & Hb'). eauto.
  - destruct (Good_ok m now addr t HI) as (m' & -> & HI' & E). exists m'. split_and!; [done|done|lia].
  - destruct (Attempt_ok m now addr c t HI) as [HI' E]. eexists. split_and!; [done|exact HI'|lia].
  - eexists. split_and!; [done|apply new_ok|cbn; lia].
Qed.

Lemma addr_run_ok ops : forall m, am_ok ∅ m -> nIdCount m + foldr Z.add 0 (creations <$> ops) < 2 ^ 31 - 1 ->
  exists m', addr_run m ops = Some m' /\ am_ok ∅ m'.
Proof.
  induction ops as [|op ops IH]; intros m HI Hb; cbn [addr_run]; [eauto|]. cbn [fmap list_fmap foldr] in Hb.
  assert (0 <= foldr Z.add 0 (creations <$> ops)) as Hn.
  { clear. induction ops as [|op ops IH]; cbn; [lia|]. destruct op; cbn; pose proof (fun A => @len_nonneg A); unfold len in *; lia. }
  destruct (addr_step_ok m op HI ltac:(lia)) as (m1 & -> & HI1 & Hb1). cbn [mbind option_bind]. apply IH; [done|lia].
Qed.

Lemma select_from_stored fuel m table buckets rand accepted i : forall k,
  select_from fuel m table buckets rand accepted k = Some i -> exists s id, table !! s = Some id /\ mapInfo m !! id = Some i.
Proof.
  induction fuel as [|fuel IH]; intros k; cbn [select_from]; [done|]. set (s := (_, _)).
  destruct (table !! s) as [id|] eqn:Es; cbn; [|apply IH]. destruct (mapInfo m !! id) as [x|] eqn:Ex; [|apply IH].
  destruct (accepted k x); [|apply IH]. intros [= ->]. eauto.
Qed.

Lemma Select_stored m newOnly coin rand accepted i : am_ok ∅ m -> Select m newOnly coin rand accepted = Some i ->
  (exists id, Find m (ai_service i) = Some (id, i)) /\ (newOnly = true -> fInTried i = false).
Proof.
  intros HI HS.
  assert (forall id, mapInfo m !! id = Some i -> exists id, Find m (ai_service i) = Some (id, i)) as HF.
  { intros id Hi. exists id. unfold Find. rewrite (proj2 (ok_addr _ _ HI (ai_service i) id)) by eauto. cbn. by rewrite Hi. }
  revert HS. unfold Select. generalize MAX_SELECT_ITERATIONS. intros fuel HS. case_bool_decide; [done|].
  destruct newOnly; cbn [negb andb] in HS.
  - apply select_from_stored in HS as (s & id & Hs & Hi). split; [by apply HF with id|intros _].
    destruct (ok_new _ _ HI s id Hs) as (x & Hx & Ht). by simplify_eq.
  - split; [|done]. by destruct (_ && _); apply select_from_stored in HS as (s & id & Hs & Hi); apply HF with id.
Qed.

Lemma shuffle_subset n rand x : forall i l, x ∈ shuffle n i rand l -> x ∈ l.
Proof.
  induction n as [|n IH]; intros i l; cbn [shuffle]; [done|]. set (j := (i + _)%nat).
  destruct (l !! i) as [y|] eqn:Ei; [|done]. destruct (l !! j) as [z|] eqn:Ej; [|done]. intros [k Hk]%IH%list_elem_of_lookup.
  destruct (decide (k = j)) as [->|Hj].
  - apply list_lookup_insert_Some in Hk as [(_ & -> & _)|[]]; [|done]. by eapply list_elem_of_lookup_2.
  - rewrite list_lookup_insert_ne in Hk by done. apply list_lookup_insert_Some in Hk as [(_ & -> & _)|[_ Hk]]; by eapply list_elem_of_lookup_2.
Qed.

Lemma GetAddr_stored m now rand maxAddresses maxPct a : am_ok ∅ m -> a ∈ GetAddr m now rand maxAddresses maxPct ->
  exists id i, Find m (na_service a) = Some (id, i) /\ ai_addr i = a /\ IsTerrible i now = false.
Proof.
  intros HI (id & _ & Hf)%list_elem_of_omap. destruct (mapInfo m !! id) as [i|] eqn:Hi; [|done]. cbn in Hf.
  destruct (IsTerrible i now) eqn:Ht; [done|]. injection Hf as <-. exists id, i. split_and!; [|done|done].
  unfold Find. rewrite (proj2 (ok_addr _ _ HI (na_service (ai_addr i)) id)) by eauto. cbn. by rewrite Hi.
Qed.

Lemma counts_total m : am_ok ∅ m -> nNew m + nTried m = AddrMan_Size m.
Proof.
  intros HI. rewrite (ok_nNew _ _ HI), (ok_nTried _ _ HI). unfold AddrMan_Size. generalize (mapInfo m). clear. intros M.
  induction M as [|id i M Hi IH] using map_ind; [by rewrite !cnt_empty, map_size_empty|].
  rewrite !cnt_fresh, map_size_insert_None by done. unfold one. cbn. repeat case_decide; try lia; destruct (fInTried i); set_solver.
Qed.

(** C39: starting from an empty address manager, no sequence of additions (single or in batches), connection
    successes, connection attempts and clearings reads outside the random vector or wraps a counter, whatever the
    clock, as long as fewer than 2^31 - 1 addresses are offered. The manager stays consistent: the index by address
    and the random vector hold exactly the stored entries, every reference of the new table is to a stored entry that
    has not been tried and is counted in it, at most eight of them, a tried entry sits in its own slot of the tried
    table, and [nNew] and [nTried] count the entries of each kind, which are all the entries. The assertion of [Check]
    holds, a selection returns a stored entry, an untried one when one is asked for, and the addresses given to a peer
    are stored and not terrible. Loading a file and changing the key are not among the operations: a load restores
    neither table and breaks this ([peers_file_roundtrip] in PeersFile). *)
Theorem addrman_consistent key ops : foldr Z.add 0 (creations <$> ops) < 2 ^ 31 - 1 ->
  exists m, addr_run (new_CAddrMan key) ops = Some m /\ am_ok ∅ m /\ Check_holds m = true /\ nNew m + nTried m = AddrMan_Size m /\
    (forall newOnly coin rand accepted i, Select m newOnly coin rand accepted = Some i ->
       (exists id, Find m (ai_service i) = Some (id, i)) /\ (newOnly = true -> fInTried i = false)) /\
    (forall now rand maxAddresses maxPct a, a ∈ GetAddr m now rand maxAddresses maxPct ->
       exists id i, Find m (na_service a) = Some (id, i) /\ ai_addr i = a /\ IsTerrible i now = false).
Proof.
  intros Hb. destruct (addr_run_ok ops (new_CAddrMan key) (new_ok key) Hb) as (m & -> & HI). exists m. split_and!; [done|done| | | |].
  - unfold Check_holds. rewrite <- (ok_slots _ _ HI). apply Z.eqb_refl.
  - by apply counts_total.
  - intros. by eapply Select_stored.
  - intros. by eapply GetAddr_stored.
Qed.
End Invariant.

(** Three addresses, the first one connected to and announced again. *)
Definition sample_service (ip : Z) : CService := mkService (SetIPv4 ip) 8444.
Definition sample_addr (ip : Z) : CNetworkAddr := mkNetworkAddr (sample_service ip) 1 1700000000.
Definition sample_hash (b : list Z) : uint256 := le_bytes 32 (foldr (fun x acc => (x + 31 * acc) mod 2 ^ 61) 7 b).
Definition sample_ops : list AddrOp :=
  [OpAdd 1700000100 (sample_addr 0x08080808) (SetIPv4 0x01020304) 0;
   OpAddMany (fun _ => 1700000200) [sample_addr 0x08080404; sample_addr 0x09090909; sample_addr 0x0a000001] (SetIPv4 0x05060708) 7200;
   OpAttempt 1700000300 (sample_service 0x08080808) true 0;
   OpGood 1700000301 (sample_service 0x08080808) 0;
   OpAdd 1700000400 (sample_addr 0x08080808) (SetIPv4 0x05060708) 0].

Lemma addrman_consistent_witness : exists m,
  addr_run sample_hash (new_CAddrMan (replicate 32 0)) sample_ops = Some m /\ am_ok sample_hash ∅ m /\ nTried m = 1 /\ nNew m = 2.
Proof.
  destruct (addrman_consistent sample_hash (replicate 32 0) sample_ops ltac:(vm_compute; reflexivity)) as (m & E & HI & _ & Hn & _).
  exists m. split; [exact E|]. split; [exact HI|]. revert E. vm_compute. intros [= <-]. split; reflexivity.
Defined.
