(* ===== verification/PeersFile.v ===== *)
(** * The file of the address manager (net/addrman: peers.dat)

    The writers produce the bytes of the file and the readers consume them.  [None] of a reader is a file that ends early: the code
    then goes on with indeterminate values.  What the operating system refuses while saving is an argument; the renaming is that of
    POSIX systems. *)

From S2P Require Import Prelude Uint256 Block Transaction NetAddress AddrMan.

Definition ADDRMAN_SERIALIZE_VERSION : Z := 1.

(** ** Entries *)

Definition NetworkAddr_Serialize (a : CNetworkAddr) : list Z :=
  [1] ++ le_bytes 4 (Z.land (na_nTime a) 0xFFFFFFFF) ++ le_bytes 8 (na_nServices a) ++ Service_Serialize (na_service a).
Definition AddrInfo_Serialize (i : CAddrInfo) : list Z :=
  NetworkAddr_Serialize (ai_addr i) ++ NetAddr_Serialize (source i) ++ le_bytes 8 (u64 (nLastSuccess i)) ++ le_bytes 4 (u32 (nAttempts i)).

Definition read_exact (n : nat) (s : list Z) : option (list Z * list Z) :=
  if (length s <? n)%nat then None else Some (take n s, drop n s).

Definition NetworkAddr_Unserialize (s : list Z) : option (CNetworkAddr * list Z) :=
  '(_, s) ← read_exact 1 s;
  '(nTimeLow, s) ← read_exact 4 s;
  '(services, s) ← read_exact 8 s;
  '(addr, s) ← read_exact 16 s;
  '(port, s) ← read_exact 2 s;
  Some (mkNetworkAddr (Service_Unserialize addr port) (le_val services) (le_val nTimeLow), s).
Definition AddrInfo_Unserialize (s : list Z) : option (CAddrInfo * list Z) :=
  '(addr, s) ← NetworkAddr_Unserialize s;
  '(src, s) ← read_exact 16 s;
  '(success, s) ← read_exact 8 s;
  '(attempts, s) ← read_exact 4 s;
  Some (mkAddrInfo addr (DetectNetwork src) (i64 (le_val success)) (i32 (le_val attempts)) 0 false (-1) 0 0, s).

(** ** The manager *)

(** The entries in the order of [std::map<int, CAddrInfo>]. *)
Definition in_order (m : CAddrMan) : list CAddrInfo := omap (fun id => mapInfo m !! id) (merge_sort Z.le (elements (dom (mapInfo m)))).

Definition bucket_Serialize (m : CAddrMan) (bucket : Z) : list Z :=
  let used := omap (fun i => pair i <$> vvNew m !! (bucket, i)) (seqZ 0 ADDRMAN_BUCKET_SIZE) in
  le_bytes 4 (len used) ++
  concat ((fun '(i, id) => le_bytes 4 i ++ match mapInfo m !! id with Some info => AddrInfo_Serialize info | None => [] end) <$> used).

Definition AddrMan_Serialize (m : CAddrMan) : list Z :=
  [ADDRMAN_SERIALIZE_VERSION] ++ nKey m ++ le_bytes 4 (u32 (i32 (AddrMan_Size m))) ++ le_bytes 4 (u32 (nNew m)) ++ le_bytes 4 (u32 (nTried m)) ++
  concat (AddrInfo_Serialize <$> in_order m) ++
  concat (bucket_Serialize m <$> seqZ 0 ADDRMAN_NEW_BUCKET_COUNT).

Fixpoint read_entries (count : nat) (m : CAddrMan) (s : list Z) : option CAddrMan :=
  match count with
  | O => Some m
  | S count' =>
      '(info, s) ← AddrInfo_Unserialize s;
      let nId := nIdCount m in
      read_entries count'
        (mkAddrMan (nKey m) (<[nId := set_pos (i32 (len (vRandom m))) info]> (mapInfo m)) (<[ai_service info := nId]> (mapAddr m))
           (vRandom m ++ [nId]) (i32 (nIdCount m + 1)) (vvNew m) (nNew m) (vvTried m) (nTried m)) s
  end.

Definition AddrMan_Unserialize (m : CAddrMan) (s : list Z) : option CAddrMan :=
  let m := ClearLocked m in
  '(version, s) ← read_exact 1 s;
  if negb (le_val version =? ADDRMAN_SERIALIZE_VERSION) then Some m
  else
    '(key, s) ← read_exact 32 s;
    '(count, s) ← read_exact 4 s;
    '(new, s) ← read_exact 4 s;
    '(tried, s) ← read_exact 4 s;
    read_entries (Z.to_nat (i32 (le_val count)))
      (mkAddrMan key ∅ ∅ [] (nIdCount m) (vvNew m) (i32 (le_val new)) (vvTried m) (i32 (le_val tried))) s.

Inductive SaveFault : Set := TempNotOpened | TempNotWritten | NotRenamed.

(** The file at the path, before and after. *)
Definition SaveToFile (m : CAddrMan) (fault : option SaveFault) (file : option (list Z)) : bool * option (list Z) :=
  match fault with
  | Some _ => (false, file)
  | None => (true, Some (AddrMan_Serialize m))
  end.

Definition LoadFromFile (m : CAddrMan) (file : option (list Z)) : option (bool * CAddrMan) :=
  match file with
  | None => Some (true, m)
  | Some s => m ← AddrMan_Unserialize m s; Some (true, m)
  end.

(** ** Reading back *)

Definition networkaddr_wf (a : CNetworkAddr) : Prop := service_wf (na_service a) /\ 0 <= na_nServices a < 2 ^ 64.
Definition info_wf (i : CAddrInfo) : Prop :=
  networkaddr_wf (ai_addr i) /\ netaddr_wf (source i) /\ - 2 ^ 63 <= nLastSuccess i < 2 ^ 63 /\ - 2 ^ 31 <= nAttempts i < 2 ^ 31.

(** What the file keeps of an entry. *)
Definition saved (i : CAddrInfo) : CAddrInfo :=
  mkAddrInfo (mkNetworkAddr (ai_service i) (na_nServices (ai_addr i)) (u32 (ai_nTime i))) (source i) (nLastSuccess i) (nAttempts i) 0 false (-1) 0 0.

Lemma read_exact_app n a s : length a = n -> read_exact n (a ++ s) = Some (a, s).
Proof.
  intros <-. unfold read_exact. rewrite length_app. destruct (Nat.ltb_spec (length a + length s) (length a)); [lia|].
  by rewrite take_app_length, drop_app_length.
Qed.

Lemma NetworkAddr_read a s : networkaddr_wf a ->
  NetworkAddr_Unserialize (NetworkAddr_Serialize a ++ s) = Some (mkNetworkAddr (na_service a) (na_nServices a) (u32 (na_nTime a)), s).
Proof.
  intros [HS HN]. destruct (service_roundtrip _ HS) as [HL HR]. unfold NetworkAddr_Unserialize, NetworkAddr_Serialize.
  rewrite <- !app_assoc, (read_exact_app 1) by done. cbn [mbind option_bind]. rewrite read_exact_app by apply length_le_bytes. cbn [mbind option_bind].
  rewrite read_exact_app by apply length_le_bytes. cbn [mbind option_bind].
  rewrite <- (take_drop 16 (Service_Serialize (na_service a))), <- app_assoc, read_exact_app by (rewrite length_take, HL; done). cbn [mbind option_bind].
  rewrite read_exact_app by (rewrite length_drop, HL; done). cbn [mbind option_bind]. rewrite HR.
  rewrite !le_val_le_bytes. change (256 ^ Z.of_nat 8) with (2 ^ 64). change (256 ^ Z.of_nat 4) with (2 ^ 32).
  rewrite (Z.mod_small (na_nServices a)) by done. change 0xFFFFFFFF with (Z.ones 32). rewrite Z.land_ones by lia. unfold u32.
  by rewrite Zmod_mod.
Qed.

Lemma AddrInfo_read i s : info_wf i -> AddrInfo_Unserialize (AddrInfo_Serialize i ++ s) = Some (saved i, s).
Proof.
  intros (HA & (HL & _ & HD) & HT & HC). unfold AddrInfo_Unserialize, AddrInfo_Serialize, NetAddr_Serialize.
  rewrite <- !app_assoc, NetworkAddr_read by done. cbn [mbind option_bind]. rewrite read_exact_app by done. cbn [mbind option_bind].
  do 2 (rewrite read_exact_app by apply length_le_bytes; cbn [mbind option_bind]). rewrite !le_val_le_bytes, <- HD.
  change (256 ^ Z.of_nat 8) with (2 ^ 64). change (256 ^ Z.of_nat 4) with (2 ^ 32). unfold saved. do 3 f_equal.
  - unfold u64. rewrite Zmod_mod. fold (u64 (nLastSuccess i)). unfold i64, u64. rewrite Zplus_mod_idemp_l. apply (i64_small _ HT).
  - fold (u32 (u32 (nAttempts i))). rewrite !i32_u32. by apply i32_small.
Qed.

Definition same_buckets (m m' : CAddrMan) : Prop :=
  nKey m' = nKey m /\ nNew m' = nNew m /\ nTried m' = nTried m /\ vvNew m' = vvNew m /\ vvTried m' = vvTried m.

Lemma read_entries_spec s : forall L m, Forall info_wf L -> NoDup (ai_service <$> L) ->
  len (vRandom m) = nIdCount m -> nIdCount m + len L < 2 ^ 31 - 1 ->
  exists m', read_entries (length L) m (concat (AddrInfo_Serialize <$> L) ++ s) = Some m' /\ same_buckets m m' /\
    (forall k i, L !! k = Some i -> Find m' (ai_service i) = Some (nIdCount m + Z.of_nat k, set_pos (nIdCount m + Z.of_nat k) (saved i))) /\
    (forall a id x, a ∉ ai_service <$> L -> id < nIdCount m -> Find m a = Some (id, x) -> Find m' a = Some (id, x)) /\
    (forall a, is_Some (mapAddr m' !! a) <-> is_Some (mapAddr m !! a) \/ a ∈ ai_service <$> L).
Proof.
  induction L as [|i L IH]; intros m Hwf HN Hr Hb.
  { exists m. split_and!; [done|done|done|done|]. intros a. cbn. set_solver. }
  apply Forall_cons in Hwf as [Hi Hwf]. cbn [fmap list_fmap] in HN. apply NoDup_cons in HN as [Hni HN].
  cbn [read_entries length fmap list_fmap concat]. rewrite <- app_assoc, AddrInfo_read by done. cbn [mbind option_bind].
  assert (len (i :: L) = 1 + len L) as Hl by (unfold len; cbn [length]; lia). pose proof (len_nonneg L). pose proof (len_nonneg (vRandom m)).
  rewrite Hr, !i32_small by lia. set (m1 := mkAddrMan _ _ _ _ _ _ _ _ _).
  destruct (IH m1 Hwf HN) as (m' & E & HS & HL & HF & HD); [unfold len; cbn; rewrite length_app; unfold len in Hr; cbn; lia|cbn; lia|].
  exists m'. split_and!; [exact E|exact HS| | |].
  - intros [|k] x Hk.
    + injection Hk as <-. apply HF; [done|cbn; lia|]. cbn. rewrite Z.add_0_r. unfold Find. cbn. rewrite lookup_insert_eq. cbn.
      by rewrite lookup_insert_eq.
    + replace (nIdCount m + Z.of_nat (S k)) with (nIdCount m1 + Z.of_nat k) by (cbn [nIdCount m1]; lia). by apply HL.
  - intros a id x Ha Hid Hx. rewrite not_elem_of_cons in Ha. destruct Ha as [Ha Ha']. apply HF; [done|cbn; lia|].
    unfold Find in *. cbn. rewrite lookup_insert_ne by (intros <-; done). destruct (mapAddr m !! a) as [id'|]; [|done]. cbn in *.
    destruct (mapInfo m !! id') as [y|] eqn:Ey; [|done]. cbn in Hx. injection Hx as -> ->. rewrite lookup_insert_ne by lia. by rewrite Ey.
  - intros a. rewrite HD. cbn. change (ai_service (saved i)) with (ai_service i). rewrite lookup_insert_is_Some, elem_of_cons.
    destruct (decide (ai_service i = a)) as [<-|]; naive_solver.
Qed.

Lemma in_order_elem m i : i ∈ in_order m <-> exists id, mapInfo m !! id = Some i.
Proof.
  unfold in_order. rewrite list_elem_of_omap. split; [intros (id & _ & Hi); eauto|]. intros [id Hi]. exists id. split; [|done].
  rewrite merge_sort_Permutation, elem_of_elements, elem_of_dom. by exists i.
Qed.

Lemma in_order_length m : length (in_order m) = size (mapInfo m).
Proof.
  unfold in_order. rewrite <- size_dom. unfold size, set_size; cbn. rewrite <- (Permutation_length (merge_sort_Permutation Z.le (elements (dom (mapInfo m))))).
  assert (forall id, id ∈ merge_sort Z.le (elements (dom (mapInfo m))) -> is_Some (mapInfo m !! id)) as H.
  { intros id. by rewrite merge_sort_Permutation, elem_of_elements, elem_of_dom. }
  revert H. generalize (merge_sort Z.le (elements (dom (mapInfo m)))). intros l H. induction l as [|id l IH]; [done|]. cbn.
  destruct (H id) as [x ->]; [set_solver|]. cbn. f_equal. apply IH. set_solver.
Qed.

Lemma in_order_NoDup H m : am_ok H ∅ m -> NoDup (ai_service <$> in_order m).
Proof.
  intros HI. unfold in_order. assert (NoDup (merge_sort Z.le (elements (dom (mapInfo m))))) as HN.
  { rewrite merge_sort_Permutation. apply NoDup_elements. }
  revert HN. generalize (merge_sort Z.le (elements (dom (mapInfo m)))). intros l. induction l as [|id l IH]; [constructor|].
  intros [Hid HN]%NoDup_cons. cbn. destruct (mapInfo m !! id) as [x|] eqn:Ex; [|by apply IH]. cbn. constructor; [|by apply IH].
  rewrite list_elem_of_fmap. intros (y & Es & (id' & Hid' & Hy)%list_elem_of_omap).
  assert (mapAddr m !! ai_service x = Some id) as E1 by (apply (ok_addr _ _ _ HI); eauto).
  assert (mapAddr m !! ai_service x = Some id') as E2 by (rewrite Es; apply (ok_addr _ _ _ HI); eauto). by simplify_eq.
Qed.

Lemma Select_empty m newOnly coin rand accepted : vvNew m = ∅ -> vvTried m = ∅ -> Select m newOnly coin rand accepted = None.
Proof.
  intros HN HT. unfold Select. generalize MAX_SELECT_ITERATIONS. intros fuel. rewrite HN, HT. case_bool_decide; [done|].
  destruct (_ && _); match goal with |- ?x = None => destruct x eqn:E end; try done;
    by apply select_from_stored in E as (s & id & Hs & _); rewrite lookup_empty in Hs.
Qed.

Section Restart.
  Variable SHA3_256 : list Z -> uint256.

Lemma header_read m0 m s : am_ok SHA3_256 ∅ m -> length (nKey m) = 32%nat ->
  AddrMan_Unserialize m0 ([ADDRMAN_SERIALIZE_VERSION] ++ nKey m ++ le_bytes 4 (u32 (i32 (AddrMan_Size m))) ++ le_bytes 4 (u32 (nNew m)) ++
                          le_bytes 4 (u32 (nTried m)) ++ s) =
  read_entries (size (mapInfo m)) (mkAddrMan (nKey m) ∅ ∅ [] 0 ∅ (nNew m) ∅ (nTried m)) s.
Proof.
  intros HI HK. unfold AddrMan_Unserialize. rewrite (read_exact_app 1) by done. cbn [mbind option_bind].
  change (negb (le_val [ADDRMAN_SERIALIZE_VERSION] =? ADDRMAN_SERIALIZE_VERSION)) with false. cbv iota.
  rewrite read_exact_app by done. cbn [mbind option_bind]. do 3 (rewrite read_exact_app by apply length_le_bytes; cbn [mbind option_bind]).
  rewrite !le_val_le_bytes. change (256 ^ Z.of_nat 4) with (2 ^ 32). fold (u32 (u32 (i32 (AddrMan_Size m)))) (u32 (u32 (nNew m))) (u32 (u32 (nTried m))).
  destruct (counter_bounds _ _ _ HI) as [H1 H2]. destruct (ids_size _ _ _ HI) as [H3 _]. pose proof (ok_bound _ _ _ HI).
  rewrite !i32_u32, !i32_small by (unfold AddrMan_Size; rewrite ?i32_small; lia). unfold AddrMan_Size. by rewrite Nat2Z.id.
Qed.

(** A consistent address manager that is saved and loaded into another one keeps every address with its services, source, last
    success and attempts, its time modulo 2^32, and no other address; the two counters are taken from the file.  Neither table is
    restored: every address comes back with no reference and as not tried, a selection finds nothing until addresses are announced
    again, and the assertion of [Check] fails when any address had been tried.  A save that fails leaves the file as it was. *)
Theorem peers_file_roundtrip m m0 file : am_ok SHA3_256 ∅ m -> length (nKey m) = 32%nat -> (forall id i, mapInfo m !! id = Some i -> info_wf i) ->
  (forall fault, SaveToFile m (Some fault) file = (false, file)) /\
  exists bytes m', SaveToFile m None file = (true, Some bytes) /\ LoadFromFile m0 (Some bytes) = Some (true, m') /\ nKey m' = nKey m /\
    (forall id i, mapInfo m !! id = Some i -> exists id', Find m' (ai_service i) = Some (id', set_pos id' (saved i))) /\
    (forall a, is_Some (mapAddr m' !! a) <-> is_Some (mapAddr m !! a)) /\
    AddrMan_GetStats m' = AddrMan_GetStats m /\ vvNew m' = ∅ /\ vvTried m' = ∅ /\
    (forall newOnly coin rand accepted, Select m' newOnly coin rand accepted = None) /\
    (Check_holds m' = true <-> nTried m = 0).
Proof.
  intros HI HK Hwf. split; [done|]. destruct (ids_size _ _ _ HI) as [HS _]. pose proof (ok_bound _ _ _ HI).
  destruct (read_entries_spec (concat (bucket_Serialize m <$> seqZ 0 ADDRMAN_NEW_BUCKET_COUNT)) (in_order m)
              (mkAddrMan (nKey m) ∅ ∅ [] 0 ∅ (nNew m) ∅ (nTried m))) as (m' & E & (EK & EN & ET & EVN & EVT) & HL & _ & HD).
  { apply Forall_forall. intros i [id Hi]%in_order_elem. by apply (Hwf id). }
  { by eapply in_order_NoDup. }
  { done. }
  { unfold len. rewrite in_order_length. cbn. lia. }
  exists (AddrMan_Serialize m), m'. rewrite in_order_length in E. cbn in EK, EN, ET, EVN, EVT, HL, HD. split_and!; try done.
  - unfold LoadFromFile, AddrMan_Serialize. by rewrite header_read, E.
  - intros id i Hi. assert (i ∈ in_order m) as [k Hk]%list_elem_of_lookup by (apply in_order_elem; eauto). eauto.
  - intros a. rewrite HD, lookup_empty, list_elem_of_fmap. split.
    + intros [[? [=]]|(i & -> & [id Hi]%in_order_elem)]. exists id. apply (ok_addr _ _ _ HI). eauto.
    + intros [id (i & Hi & <-)%(ok_addr _ _ _ HI)]. right. exists i. split; [done|]. apply in_order_elem. eauto.
  - unfold AddrMan_GetStats. by rewrite EN, ET.
  - intros. by apply Select_empty.
  - unfold Check_holds. rewrite EVT, ET, map_size_empty, Z.eqb_eq. done.
Qed.
End Restart.

Definition netaddr_wfb (a : CNetAddr) : bool := (length (m_addr a) =? 16)%nat && bytes_okb (m_addr a) && bool_decide (a = DetectNetwork (m_addr a)).
Definition info_wfb (i : CAddrInfo) : bool :=
  netaddr_wfb (ai_net i) && (0 <=? m_port (ai_service i)) && (m_port (ai_service i) <? 2 ^ 16) && (0 <=? na_nServices (ai_addr i)) &&
  (na_nServices (ai_addr i) <? 2 ^ 64) && netaddr_wfb (source i) && (- 2 ^ 63 <=? nLastSuccess i) && (nLastSuccess i <? 2 ^ 63) &&
  (- 2 ^ 31 <=? nAttempts i) && (nAttempts i <? 2 ^ 31).

Lemma netaddr_wfb_sound a : netaddr_wfb a = true -> netaddr_wf a.
Proof.
  unfold netaddr_wfb, netaddr_wf. rewrite !andb_true_iff, Nat.eqb_eq, bool_decide_eq_true. intros [[HL HB] HD].
  split_and!; [done|by apply bytes_okb_sound|done].
Qed.

Lemma info_wfb_sound i : info_wfb i = true -> info_wf i.
Proof.
  unfold info_wfb. rewrite !andb_true_iff, !Z.leb_le, !Z.ltb_lt. unfold info_wf, networkaddr_wf, service_wf.
  intros [[[[[[[[[H1 H2] H3] H4] H5] H6] H7] H8] H9] H10]. split_and!; try done; by apply netaddr_wfb_sound.
Qed.

Definition sample_wf : bool :=
  match addr_run sample_hash (new_CAddrMan (replicate 32 0)) sample_ops with
  | Some m => (nTried m =? 1) && bool_decide (nKey m = replicate 32 0) && forallb (fun e => info_wfb e.2) (map_to_list (mapInfo m))
  | None => false
  end.

(** The manager of the sample operations has one tried address of three. *)
Lemma peers_file_roundtrip_witness : exists m bytes m',
  addr_run sample_hash (new_CAddrMan (replicate 32 0)) sample_ops = Some m /\ nTried m = 1 /\
  LoadFromFile (new_CAddrMan (replicate 32 1)) (Some bytes) = Some (true, m') /\ Check_holds m' = false /\
  Select m' false 0 (fun _ => 0) (fun _ _ => true) = None.
Proof.
  destruct (addr_run_ok sample_hash sample_ops (new_CAddrMan (replicate 32 0)) (new_ok _ _) ltac:(vm_compute; reflexivity)) as (m & E & HI).
  assert (sample_wf = true) as HB by (vm_compute; reflexivity). unfold sample_wf in HB. rewrite E, !andb_true_iff in HB.
  destruct HB as [[HT%Z.eqb_eq HK%bool_decide_eq_true] HF]. rewrite forallb_forall in HF.
  assert (forall id i, mapInfo m !! id = Some i -> info_wf i) as HW.
  { intros id i Hi. apply info_wfb_sound, (HF (id, i)), list_elem_of_In, elem_of_map_to_list, Hi. }
  destruct (peers_file_roundtrip sample_hash m (new_CAddrMan (replicate 32 1)) None HI ltac:(rewrite HK; reflexivity) HW)
    as (_ & bytes & m' & _ & HL & _ & _ & _ & _ & _ & _ & HSel & HC).
  exists m, bytes, m'. split; [exact E|]. split; [exact HT|]. split; [exact HL|]. split; [|apply HSel].
  destruct (Check_holds m'); [|reflexivity]. pose proof (proj1 HC eq_refl). lia.
Defined.
