(* ===== verification/BanManager.v ===== *)
(** * Misbehaviour scores and bans (net/banman, net/port/peer_scorer, net/port/misbehavior_policy.h, net/port/maybe_punish_node.h,
    net/peers.cpp)

    Offences add to a peer's score, a score over the threshold bans its address, and banned addresses are refused until the ban runs
    out.  Addresses are byte strings, the ban list is a map visited in key order, and the clock is an argument.  The ban file is
    bytes; a stream that has failed leaves its variables at their initial zeros, as the code initialises them.  [None] is a failing
    assertion. *)

From S2P Require Import Prelude Uint256 Block Transaction.

(** ** Kinds of misbehaviour *)

Inductive MisbehaviorType : Set :=
| NONE
| INVALID_MESSAGE_SIZE | TRUNCATED_MESSAGE | PARSE_FAILURE | INVALID_CHECKSUM | UNKNOWN_MESSAGE_TYPE | INVALID_PROTOCOL_VERSION
| INV_RATE_EXCEEDED | ADDR_RATE_EXCEEDED | GETDATA_RATE_EXCEEDED | GETBLOCKS_RATE_EXCEEDED | PING_RATE_EXCEEDED
| INVALID_BLOCK_HEADER | INVALID_MERKLE_ROOT | INVALID_BLOCK_POW | DUPLICATE_TRANSACTIONS | DOUBLE_SPEND_IN_BLOCK | INVALID_COINBASE
| BLOCK_TOO_LARGE | INVALID_BLOCK_TIME | INVALID_BLOCK_VERSION | FUTURE_BLOCK_TIMESTAMP
| INVALID_TRANSACTION | TX_TOO_LARGE | TX_DUPLICATE_INPUTS | TX_INVALID_SIGNATURE | TX_DOUBLE_SPEND | TX_NON_STANDARD
| SELF_CONNECTION | TOO_MANY_CONNECTIONS | INVALID_HANDSHAKE | DUPLICATE_VERSION | INVALID_GENESIS
| EXCESSIVE_FORK_BLOCKS.
#[export] Instance MisbehaviorType_eq_dec : EqDecision MisbehaviorType.
Proof. solve_decision. Defined.

(** The codes kept in the ban file. *)
Definition misbehavior_code (t : MisbehaviorType) : Z :=
  match t with
  | NONE => 0
  | INVALID_MESSAGE_SIZE => 100 | TRUNCATED_MESSAGE => 101 | PARSE_FAILURE => 102 | INVALID_CHECKSUM => 103 | UNKNOWN_MESSAGE_TYPE => 104
  | INVALID_PROTOCOL_VERSION => 105
  | INV_RATE_EXCEEDED => 200 | ADDR_RATE_EXCEEDED => 201 | GETDATA_RATE_EXCEEDED => 202 | GETBLOCKS_RATE_EXCEEDED => 203
  | PING_RATE_EXCEEDED => 204
  | INVALID_BLOCK_HEADER => 300 | INVALID_MERKLE_ROOT => 301 | INVALID_BLOCK_POW => 302 | DUPLICATE_TRANSACTIONS => 303
  | DOUBLE_SPEND_IN_BLOCK => 304 | INVALID_COINBASE => 305 | BLOCK_TOO_LARGE => 306 | INVALID_BLOCK_TIME => 307
  | INVALID_BLOCK_VERSION => 308 | FUTURE_BLOCK_TIMESTAMP => 309
  | INVALID_TRANSACTION => 400 | TX_TOO_LARGE => 401 | TX_DUPLICATE_INPUTS => 402 | TX_INVALID_SIGNATURE => 403 | TX_DOUBLE_SPEND => 404
  | TX_NON_STANDARD => 405
  | SELF_CONNECTION => 500 | TOO_MANY_CONNECTIONS => 501 | INVALID_HANDSHAKE => 502 | DUPLICATE_VERSION => 503 | INVALID_GENESIS => 504
  | EXCESSIVE_FORK_BLOCKS => 600
  end.

Definition GetMisbehaviorScore (t : MisbehaviorType) : Z :=
  match t with
  | PARSE_FAILURE | UNKNOWN_MESSAGE_TYPE | INV_RATE_EXCEEDED | ADDR_RATE_EXCEEDED | GETDATA_RATE_EXCEEDED | GETBLOCKS_RATE_EXCEEDED
  | PING_RATE_EXCEEDED => 10
  | INVALID_MESSAGE_SIZE | TRUNCATED_MESSAGE | INVALID_CHECKSUM | INVALID_PROTOCOL_VERSION | INVALID_TRANSACTION | TX_NON_STANDARD
  | INVALID_HANDSHAKE | DUPLICATE_VERSION | INVALID_GENESIS | EXCESSIVE_FORK_BLOCKS => 20
  | INVALID_BLOCK_HEADER | INVALID_MERKLE_ROOT | INVALID_BLOCK_POW | DUPLICATE_TRANSACTIONS | DOUBLE_SPEND_IN_BLOCK | INVALID_COINBASE
  | BLOCK_TOO_LARGE | INVALID_BLOCK_TIME | INVALID_BLOCK_VERSION => 100
  | FUTURE_BLOCK_TIMESTAMP => 20
  | TX_TOO_LARGE | TX_DUPLICATE_INPUTS | TX_INVALID_SIGNATURE | TX_DOUBLE_SPEND | SELF_CONNECTION | TOO_MANY_CONNECTIONS => 100
  | NONE => 0
  end.

(** The second enumeration, of the scoring policy. *)
Inductive PolicyType : Set :=
| InvalidSignature | InvalidBlock | InvalidHeader | InvalidPoW | OversizedMessage | UnknownMessage | NonContinuousHeaders | DuplicateVersion
| InvalidMIKSignature | InvalidDFMPCooldown | InvalidVDFProof | InvalidDNAEnvelope | MalformedSMP1Trailer | PrematureDNASample
| GetDataRateExceeded.

Definition DefaultWeight (t : PolicyType) : Z :=
  match t with
  | InvalidSignature => 100 | InvalidBlock => 100 | InvalidHeader => 50 | InvalidPoW => 100 | OversizedMessage => 20 | UnknownMessage => 1
  | NonContinuousHeaders => 20 | DuplicateVersion => 1
  | InvalidMIKSignature => 100 | InvalidDFMPCooldown => 50 | InvalidVDFProof => 100 | InvalidDNAEnvelope => 25 | MalformedSMP1Trailer => 5
  | PrematureDNASample => 10 | GetDataRateExceeded => 10
  end.

Definition MapPolicyToDiagnostic (t : PolicyType) : MisbehaviorType :=
  match t with
  | InvalidSignature => TX_INVALID_SIGNATURE | InvalidBlock => INVALID_BLOCK_HEADER | InvalidHeader => INVALID_BLOCK_HEADER
  | InvalidPoW => INVALID_BLOCK_POW | OversizedMessage => INVALID_MESSAGE_SIZE | UnknownMessage => UNKNOWN_MESSAGE_TYPE
  | NonContinuousHeaders => INVALID_BLOCK_HEADER | DuplicateVersion => DUPLICATE_VERSION
  | InvalidMIKSignature => TX_INVALID_SIGNATURE | InvalidDFMPCooldown => INVALID_BLOCK_HEADER | InvalidVDFProof => INVALID_BLOCK_POW
  | InvalidDNAEnvelope => PARSE_FAILURE | MalformedSMP1Trailer => PARSE_FAILURE | PrematureDNASample => PARSE_FAILURE
  | GetDataRateExceeded => GETDATA_RATE_EXCEEDED
  end.

Inductive HeaderRejectReason : Set :=
| InvalidProof | InvalidHeaderFields | NonContinuousChain | InsufficientChainWork | RedownloadCommitmentMismatch | MemoryBoundExceeded
| FutureTimestamp.

Definition MapHeaderRejectToMisbehaviorType (r : HeaderRejectReason) : PolicyType :=
  match r with
  | InvalidProof => InvalidPoW | InvalidHeaderFields => InvalidHeader | NonContinuousChain => NonContinuousHeaders
  | InsufficientChainWork => InvalidHeader | RedownloadCommitmentMismatch => InvalidHeader | MemoryBoundExceeded => OversizedMessage
  | FutureTimestamp => InvalidHeader
  end.

Definition HeaderRejectWeight (r : HeaderRejectReason) : Z :=
  match r with RedownloadCommitmentMismatch => 100 | _ => DefaultWeight (MapHeaderRejectToMisbehaviorType r) end.

(** ** Scores *)

Definition MAX_TOTAL_CONNECTIONS : nat := 125.

Record CPeerScorer := mkScorer { m_scores : gmap Z Z; m_ban_threshold : Z }.
Definition new_CPeerScorer : CPeerScorer := mkScorer ∅ 100.

Definition GetScore (s : CPeerScorer) (peer : Z) : Z := default 0 (m_scores s !! peer).
Definition ResetScore (s : CPeerScorer) (peer : Z) : CPeerScorer := mkScorer (delete peer (m_scores s)) (m_ban_threshold s).
Definition SetBanThreshold (s : CPeerScorer) (threshold : Z) : CPeerScorer := mkScorer (m_scores s) threshold.
Definition DecayAll (s : CPeerScorer) : CPeerScorer := mkScorer ((fun score => Z.max 0 (i32 (score - 1))) <$> m_scores s) (m_ban_threshold s).

Definition AddScoreLocked (s : CPeerScorer) (peer weight : Z) : option (bool * CPeerScorer) :=
  if weight <=? 0 then Some (false, s)
  else if (size (m_scores s) <=? 10 * MAX_TOTAL_CONNECTIONS)%nat then
    let score := i32 (GetScore s peer + weight) in
    Some (score >=? m_ban_threshold s, mkScorer (<[peer := score]> (m_scores s)) (m_ban_threshold s))
  else None.

(** ** The ban list *)

Definition BanReason_NodeMisbehaving : Z := 1.
Definition BanReason_ManuallyBanned : Z := 2.

Abbreviation ip_string := (list Z).

Record CBanEntry := mkBan {
  nCreateTime : Z;
  nBanUntil : Z;
  banReason : Z;
  misbehaviorType : Z;
  nMisbehaviorScore : Z;
  strComment : list Z
}.

Definition IsExpired (now : Z) (e : CBanEntry) : bool := (nBanUntil e >? 0) && (now >=? nBanUntil e).
Definition IsPermanent (e : CBanEntry) : bool := nBanUntil e =? 0.

Record GenesisFailureEntry := mkGenesis { first_failure : Z; failure_count : Z; total_failures : Z; last_genesis : list Z }.

Definition BANLIST_MAGIC : Z := 0x44494C42.
Definition BANLIST_VERSION : Z := 1.
Definition MAX_BANNED_IPS : nat := Z.to_nat 10000.
Definition DEFAULT_BAN_TIME : Z := 1 * 60 * 60.
Definition GENESIS_FAILURE_BAN_THRESHOLD : Z := 3.
Definition GENESIS_FAILURE_WINDOW : Z := 300.

Record CBanManager := mkBanMan {
  m_banned : gmap ip_string CBanEntry;
  has_ban_file : bool;
  m_is_dirty : bool;
  m_genesis_failures : gmap ip_string GenesisFailureEntry
}.

Definition set_banned (m : CBanManager) (b : gmap ip_string CBanEntry) (dirty : bool) : CBanManager :=
  mkBanMan b (has_ban_file m) dirty (m_genesis_failures m).

(** The order of [std::string]: bytes, lexicographically. *)
Fixpoint string_leb (a b : ip_string) : bool :=
  match a, b with
  | [], _ => true
  | _ :: _, [] => false
  | x :: a', y :: b' => if x <? y then true else if y <? x then false else string_leb a' b'
  end.
Definition key_le (x y : ip_string * CBanEntry) : Prop := string_leb x.1 y.1 = true.
#[export] Instance key_le_dec : RelDecision key_le.
Proof. intros x y. unfold key_le. apply _. Defined.
Definition by_key (b : gmap ip_string CBanEntry) : list (ip_string * CBanEntry) := merge_sort key_le (map_to_list b).

(** One of the two searches for the oldest ban; the empty string stands for none. *)
Definition oldest_ban (eligible : CBanEntry -> bool) (l : list (ip_string * CBanEntry)) (acc : Z * ip_string) : Z * ip_string :=
  foldl (fun acc e => if eligible e.2 && (nCreateTime e.2 <? acc.1) then (nCreateTime e.2, e.1) else acc) acc l.

Definition evict_oldest (b : gmap ip_string CBanEntry) : gmap ip_string CBanEntry :=
  let acc := oldest_ban (fun e => negb (IsPermanent e)) (by_key b) (2 ^ 63 - 1, []) in
  let acc := if bool_decide (acc.2 = []) then oldest_ban (fun _ => true) (by_key b) acc else acc in
  if bool_decide (acc.2 = []) then b else delete acc.2 b.

Definition Ban_entry (m : CBanManager) (ip : ip_string) (entry : CBanEntry) : CBanManager :=
  let b := if (MAX_BANNED_IPS <=? size (m_banned m))%nat && bool_decide (m_banned m !! ip = None) then evict_oldest (m_banned m)
           else m_banned m in
  set_banned m (<[ip := entry]> b) true.

Definition Ban (m : CBanManager) (now : Z) (ip : ip_string) (duration_seconds reason : Z) (type : MisbehaviorType) (score : Z) : CBanManager :=
  Ban_entry m ip (mkBan now (if duration_seconds =? 0 then 0 else i64 (now + duration_seconds)) reason (misbehavior_code type) score []).

Definition IsBanned (m : CBanManager) (now : Z) (ip : ip_string) : bool :=
  match m_banned m !! ip with None => false | Some e => negb (IsExpired now e) end.

Definition ClearBanned (m : CBanManager) : CBanManager := if bool_decide (m_banned m = ∅) then m else set_banned m ∅ true.
Definition unexpired (now : Z) (b : gmap ip_string CBanEntry) : gmap ip_string CBanEntry := filter (fun e => IsExpired now e.2 = false) b.
Definition GetBanned (m : CBanManager) (now : Z) : list (ip_string * CBanEntry) := filter (fun e => IsExpired now e.2 = false) (by_key (m_banned m)).
Definition GetBannedCount (m : CBanManager) (now : Z) : nat := length (GetBanned m now).
Definition SweepExpiredBans (m : CBanManager) (now : Z) : nat * CBanManager :=
  let b := unexpired now (m_banned m) in
  let removed := (size (m_banned m) - size b)%nat in
  (removed, set_banned m b (if (0 <? removed)%nat then true else m_is_dirty m)).

(** ** The ban file *)

Definition ban_bytes (e : ip_string * CBanEntry) : list Z :=
  let '(ip, e) := e in
  let ip_len := u16 (len ip) in
  let comment_len := u16 (len (strComment e)) in
  le_bytes 2 ip_len ++ take (Z.to_nat ip_len) ip ++ le_bytes 8 (u64 (nCreateTime e)) ++ le_bytes 8 (u64 (nBanUntil e)) ++
  le_bytes 1 (banReason e) ++ le_bytes 2 (misbehaviorType e) ++ le_bytes 4 (u32 (nMisbehaviorScore e)) ++
  le_bytes 2 comment_len ++ take (Z.to_nat comment_len) (strComment e).

Definition banlist_bytes (m : CBanManager) (now : Z) : list Z :=
  le_bytes 4 BANLIST_MAGIC ++ le_bytes 1 BANLIST_VERSION ++ le_bytes 4 (u32 (Z.of_nat (GetBannedCount m now))) ++
  concat (ban_bytes <$> GetBanned m now).

(** The disk: the temporary file cannot be opened; the stream silently stops after [k] bytes; the renaming fails. *)
Inductive BanFileFault : Set := TempOpenFails | WritesStop (k : nat) | BanRenameFails.

Definition SaveBanList (m : CBanManager) (now : Z) (fault : option BanFileFault) (file : option (list Z)) : bool * CBanManager * option (list Z) :=
  if negb (has_ban_file m) then (false, m, file)
  else
    let saved bytes := (true, set_banned m (m_banned m) false, Some bytes) in
    match fault with
    | Some TempOpenFails | Some BanRenameFails => (false, m, file)
    | Some (WritesStop k) => saved (take k (banlist_bytes m now))
    | None => saved (banlist_bytes m now)
    end.

Definition Unban (m : CBanManager) (now : Z) (ip : ip_string) (fault : option BanFileFault) (file : option (list Z)) : CBanManager * option (list Z) :=
  match m_banned m !! ip with
  | None => (m, file)
  | Some _ => let '(_, m, file) := SaveBanList (set_banned m (delete ip (m_banned m)) true) now fault file in (m, file)
  end.

(** [std::ifstream]: the bytes left, and whether the stream is good. *)
Abbreviation ifstream := (list Z * bool)%type.
Definition bf_read (n : nat) (s : ifstream) : list Z * ifstream :=
  let '(bytes, good) := s in
  if good then (take n bytes ++ replicate (n - length bytes) 0, (drop n bytes, (n <=? length bytes)%nat)) else (replicate n 0, s).

(** One entry; [None] for an address that is too long. *)
Definition read_ban (s : ifstream) : option (ip_string * CBanEntry * ifstream) :=
  let '(ip_len, s) := bf_read 2 s in
  if le_val ip_len >? 256 then None
  else
    let '(ip, s) := bf_read (Z.to_nat (le_val ip_len)) s in
    let '(create, s) := bf_read 8 s in
    let '(until, s) := bf_read 8 s in
    let '(reason, s) := bf_read 1 s in
    let '(type, s) := bf_read 2 s in
    let '(score, s) := bf_read 4 s in
    let '(comment_len, s) := bf_read 2 s in
    let '(comment, s) := if (le_val comment_len >? 0) && (le_val comment_len <? 1024) then bf_read (Z.to_nat (le_val comment_len)) s else ([], s) in
    Some (ip, mkBan (i64 (le_val create)) (i64 (le_val until)) (le_val reason) (le_val type) (i32 (le_val score)) comment, s).

Fixpoint read_bans (count : nat) (now : Z) (s : ifstream) (b : gmap ip_string CBanEntry) : gmap ip_string CBanEntry :=
  match count with
  | O => b
  | S count' =>
      if negb s.2 then b
      else
        match read_ban s with
        | None => b
        | Some (ip, e, s) => read_bans count' now s (if IsExpired now e then b else <[ip := e]> b)
        end
  end.

Definition LoadBanList (m : CBanManager) (now : Z) (file : option (list Z)) : bool * CBanManager :=
  if negb (has_ban_file m) then (false, m)
  else
    match file with
    | None => (true, m)
    | Some bytes =>
        let '(magic, s) := bf_read 4 (bytes, true) in
        if negb (le_val magic =? BANLIST_MAGIC) then (false, m)
        else
          let '(version, s) := bf_read 1 s in
          if negb (le_val version =? BANLIST_VERSION) then (false, m)
          else
            let '(count, s) := bf_read 4 s in
            (true, set_banned m (read_bans (Z.to_nat (Z.min (le_val count) (Z.of_nat MAX_BANNED_IPS))) now s ∅) (m_is_dirty m))
    end.

Definition new_CBanManager (has_datadir : bool) (now : Z) (file : option (list Z)) : CBanManager :=
  snd (LoadBanList (mkBanMan ∅ has_datadir false ∅) now file).

(** ** Peers of another chain *)

Definition RecordGenesisFailure (m : CBanManager) (now : Z) (ip : ip_string) (their_genesis : list Z) : bool * CBanManager :=
  let e := default (mkGenesis 0 0 0 []) (m_genesis_failures m !! ip) in
  let reset := (first_failure e =? 0) || (i64 (now - first_failure e) >? GENESIS_FAILURE_WINDOW) in
  let count := i32 ((if reset then 0 else failure_count e) + 1) in
  let e := mkGenesis (if reset then now else first_failure e) count (i32 (total_failures e + 1)) their_genesis in
  (count >=? GENESIS_FAILURE_BAN_THRESHOLD, mkBanMan (m_banned m) (has_ban_file m) (m_is_dirty m) (<[ip := e]> (m_genesis_failures m))).

Definition CleanupGenesisFailures (m : CBanManager) (now : Z) : CBanManager :=
  mkBanMan (m_banned m) (has_ban_file m) (m_is_dirty m)
    (filter (fun e => i64 (now - first_failure e.2) <= GENESIS_FAILURE_WINDOW * 2) (m_genesis_failures m)).

(** ** Offences of peers (CPeerManager) *)

Definition PROTOCOL_VERSION_BAN_TIME : Z := 10 * 60.

(** A peer's address as text, whether it is the null address, and the end of its ban when its state is banned. *)
Record PeerView := mkPeer { p_ip : ip_string; p_addr_null : bool; p_banned : option Z }.
Record NodeView := mkNode { n_ip : ip_string; n_addr_null : bool; n_disconnect : bool }.

Record CPeerManager := mkPeers {
  peers : gmap Z PeerView;
  node_refs : gmap Z NodeView;
  m_scorer : option CPeerScorer;
  banman : CBanManager;
  seed_nodes : list ip_string
}.

Definition IsSeedNode (pm : CPeerManager) (ip : ip_string) : bool := existsb (fun seed => bool_decide (seed = ip)) (seed_nodes pm).

Definition effective_ip (pm : CPeerManager) (peer_id : Z) (peer : PeerView) : ip_string :=
  match p_addr_null peer, node_refs pm !! peer_id with
  | true, Some node => if n_addr_null node then p_ip peer else n_ip node
  | _, _ => p_ip peer
  end.

Definition ban_duration (type : MisbehaviorType) : Z :=
  if bool_decide (type = INVALID_PROTOCOL_VERSION) then PROTOCOL_VERSION_BAN_TIME else DEFAULT_BAN_TIME.

Definition Misbehaving (pm : CPeerManager) (now peer_id howmuch : Z) (type : MisbehaviorType) : option CPeerManager :=
  match peers pm !! peer_id with
  | None => Some pm
  | Some peer =>
      let ip := effective_ip pm peer_id peer in
      if IsSeedNode pm ip then Some pm
      else
        match m_scorer pm with
        | None => Some pm
        | Some scorer =>
            let score := if howmuch >? 0 then howmuch else GetMisbehaviorScore type in
            '(threshold_crossed, scorer) ← AddScoreLocked scorer peer_id score;
            if negb threshold_crossed then Some (mkPeers (peers pm) (node_refs pm) (Some scorer) (banman pm) (seed_nodes pm))
            else
              let ban_time := ban_duration type in
              let cumulative := GetScore scorer peer_id in
              Some (mkPeers (<[peer_id := mkPeer (p_ip peer) (p_addr_null peer) (Some (i64 (now + ban_time)))]> (peers pm))
                      (alter (fun n => mkNode (n_ip n) (n_addr_null n) true) peer_id (node_refs pm)) (Some scorer)
                      (Ban (banman pm) now ip ban_time BanReason_NodeMisbehaving type cumulative) (seed_nodes pm))
        end
  end.

Definition MisbehaveHeaders (pm : CPeerManager) (now peer_id : Z) (reason : HeaderRejectReason) : option CPeerManager :=
  Misbehaving pm now peer_id (HeaderRejectWeight reason) (MapPolicyToDiagnostic (MapHeaderRejectToMisbehaviorType reason)).

Definition DecayMisbehaviorScores (pm : CPeerManager) (now : Z) : CPeerManager :=
  mkPeers (peers pm) (node_refs pm) (DecayAll <$> m_scorer pm) (CleanupGenesisFailures (snd (SweepExpiredBans (banman pm) now)) now) (seed_nodes pm).

(** The test at the start of [RegisterNode]; seeds are let in and unbanned. *)
Definition register_allowed (pm : CPeerManager) (now : Z) (ip : ip_string) : bool := negb (IsBanned (banman pm) now ip) || IsSeedNode pm ip.

(** ** Lemmas on the list *)

Lemma by_key_elem b ip e : (ip, e) ∈ by_key b <-> b !! ip = Some e.
Proof. unfold by_key. rewrite merge_sort_Permutation. apply elem_of_map_to_list. Qed.

Lemma by_key_NoDup b : NoDup (by_key b).*1.
Proof. unfold by_key. rewrite merge_sort_Permutation. apply NoDup_fst_map_to_list. Qed.

Definition older (eligible : CBanEntry -> bool) (l : list (ip_string * CBanEntry)) (r : Z * ip_string) : Prop :=
  forall x, x ∈ l -> eligible x.2 = true -> r.1 <= nCreateTime x.2.

Lemma oldest_ban_spec eligible : forall l acc, let r := oldest_ban eligible l acc in
  r.1 <= acc.1 /\ older eligible l r /\ (r = acc \/ exists x, x ∈ l /\ eligible x.2 = true /\ r = (nCreateTime x.2, x.1)).
Proof.
  induction l as [|x l IH]; intros acc r.
  { split; [cbn; lia|]. split; [|by left]. intros x Hx. by apply not_elem_of_nil in Hx. }
  set (acc' := if eligible x.2 && (nCreateTime x.2 <? acc.1) then (nCreateTime x.2, x.1) else acc).
  change r with (oldest_ban eligible l acc') in *. clear r. destruct (IH acc') as (H1 & H2 & H3). set (r := oldest_ban eligible l acc') in *.
  assert (acc'.1 <= acc.1 /\ (eligible x.2 = true -> acc'.1 <= nCreateTime x.2) /\
          (acc' = acc \/ eligible x.2 = true /\ acc' = (nCreateTime x.2, x.1))) as (H4 & H5 & H6).
  { unfold acc'. destruct (eligible x.2); cbn [andb]; [|split_and!; [lia|done|by left]].
    destruct (Z.ltb_spec (nCreateTime x.2) acc.1); cbn [fst]; (split_and!; [lia|intros; lia|]); [right|left]; done. }
  split_and!; [lia| |].
  - intros y [->|Hy]%elem_of_cons He; [specialize (H5 He); lia|by apply H2].
  - destruct H3 as [->|(y & Hy & He & ->)]; [destruct H6 as [->|[He ->]]; [by left|right; exists x; set_solver]|right; exists y; set_solver].
Qed.

(** A list whose entries can be evicted. *)
Definition evictable (b : gmap ip_string CBanEntry) : Prop := forall ip e, b !! ip = Some e -> ip <> [] /\ nCreateTime e < 2 ^ 63 - 1.

Definition temporary (e : CBanEntry) : Prop := IsPermanent e = false.
Definition victim (b : gmap ip_string CBanEntry) (ip : ip_string) (e : CBanEntry) : Prop :=
  b !! ip = Some e /\
  ((temporary e /\ forall ip' e', b !! ip' = Some e' -> temporary e' -> nCreateTime e <= nCreateTime e') \/
   (forall ip' e', b !! ip' = Some e' -> IsPermanent e' = true /\ nCreateTime e <= nCreateTime e')).

Lemma evict_oldest_spec b : evictable b -> b <> ∅ -> exists ip e, evict_oldest b = delete ip b /\ victim b ip e.
Proof.
  intros HE HN. unfold evict_oldest.
  destruct (oldest_ban_spec (fun e => negb (IsPermanent e)) (by_key b) (2 ^ 63 - 1, [])) as (_ & Ho & Hr). set (r := oldest_ban _ _ _) in *.
  destruct Hr as [Hr|([ip e] & Hx%by_key_elem & Ht%negb_true_iff & Hr)]; rewrite Hr; cbn [fst snd] in *.
  - rewrite (bool_decide_true ([] = [])) by reflexivity.
    destruct (oldest_ban_spec (fun _ => true) (by_key b) (2 ^ 63 - 1, [])) as (_ & Ho' & Hr'). set (r' := oldest_ban _ _ _) in *.
    assert (forall ip e, b !! ip = Some e -> IsPermanent e = true) as HP.
    { intros ip e Hb. destruct (IsPermanent e) eqn:He; [done|]. pose proof (Ho (ip, e) (proj2 (by_key_elem b ip e) Hb)) as Hle. cbn in Hle.
      rewrite He, Hr in Hle. cbn in Hle. destruct (HE ip e Hb). specialize (Hle eq_refl). lia. }
    destruct Hr' as [Hr'|([ip e] & Hx%by_key_elem & _ & Hr')]; rewrite Hr'; cbn [fst snd] in *.
    + exfalso. apply map_choose in HN as (ip & e & Hb). pose proof (Ho' (ip, e) (proj2 (by_key_elem b ip e) Hb) eq_refl) as Hle.
      rewrite Hr' in Hle. cbn in Hle. destruct (HE ip e Hb). lia.
    + destruct (HE ip e Hx) as [Hne _]. rewrite (bool_decide_false (ip = [])) by done. exists ip, e. split; [done|]. split; [done|]. right.
      intros ip' e' Hb'. split; [by apply (HP ip')|]. pose proof (Ho' (ip', e') (proj2 (by_key_elem b ip' e') Hb') eq_refl) as Hle.
      by rewrite Hr' in Hle.
  - destruct (HE ip e Hx) as [Hne _]. rewrite !(bool_decide_false (ip = [])) by done. exists ip, e. split; [done|]. split; [done|]. left. split; [done|].
    intros ip' e' Hb' Ht'. pose proof (Ho (ip', e') (proj2 (by_key_elem b ip' e') Hb')) as Hle. rewrite Hr in Hle. cbn in Hle.
    apply Hle. by rewrite Ht'.
Qed.

(** Banning replaces the entry of the address, and at the limit evicts one other. *)
Lemma Ban_entry_spec m ip e : evictable (m_banned m) -> (size (m_banned m) <= MAX_BANNED_IPS)%nat ->
  (size (m_banned (Ban_entry m ip e)) <= MAX_BANNED_IPS)%nat /\
  (m_banned (Ban_entry m ip e) = <[ip := e]> (m_banned m) \/
   size (m_banned m) = MAX_BANNED_IPS /\ m_banned m !! ip = None /\
   exists ip' e', victim (m_banned m) ip' e' /\ m_banned (Ban_entry m ip e) = <[ip := e]> (delete ip' (m_banned m))).
Proof.
  intros HE HS. unfold Ban_entry. cbn [m_banned set_banned].
  assert (MAX_BANNED_IPS <> 0%nat) as H0 by (unfold MAX_BANNED_IPS; lia). revert HS H0. generalize MAX_BANNED_IPS. intros N HS H0.
  destruct (Nat.leb_spec N (size (m_banned m))) as [Hn|Hn]; cbn [andb].
  - case_bool_decide as Hip.
    + destruct (evict_oldest_spec (m_banned m) HE) as (ip' & e' & -> & HV); [intros Hx; rewrite Hx, map_size_empty in Hn; lia|].
      pose proof HV as [Hb _]. split; [|right; split_and!; [lia|done|eauto]].
      rewrite map_size_insert_None; [|rewrite lookup_delete_None; by right]. rewrite map_size_delete, Hb. cbv beta iota. lia.
    + split; [|by left]. destruct (m_banned m !! ip) as [x|] eqn:Hx; [|done]. rewrite map_size_insert, Hx. cbn. lia.
  - split; [|by left]. rewrite map_size_insert. destruct (m_banned m !! ip); cbn; lia.
Qed.

Lemma IsBanned_Ban m now ip d reason type score t : 0 < now -> 0 < d -> now + d < 2 ^ 63 ->
  IsBanned (Ban m now ip d reason type score) t ip = (t <? now + d).
Proof.
  intros H1 H2 H3. unfold IsBanned, Ban, Ban_entry. cbn [m_banned set_banned]. rewrite lookup_insert_eq. unfold IsExpired. cbn [nBanUntil].
  destruct (Z.eqb_spec d 0); [lia|]. rewrite i64_small by lia.
  rewrite Z.gtb_ltb, Z.geb_leb. destruct (Z.ltb_spec 0 (now + d)), (Z.leb_spec (now + d) t), (Z.ltb_spec t (now + d)); cbn; lia || done.
Qed.

(** ** The ban file, read back *)

Definition entry_wf (x : ip_string * CBanEntry) : Prop :=
  (length x.1 <= 256)%nat /\ (length (strComment x.2) < 1024)%nat /\ - 2 ^ 63 <= nCreateTime x.2 < 2 ^ 63 /\ - 2 ^ 63 <= nBanUntil x.2 < 2 ^ 63 /\
  0 <= banReason x.2 < 2 ^ 8 /\ 0 <= misbehaviorType x.2 < 2 ^ 16 /\ - 2 ^ 31 <= nMisbehaviorScore x.2 < 2 ^ 31.

Lemma bf_read_app n a s : length a = n -> bf_read n (a ++ s, true) = (a, (s, true)).
Proof.
  intros <-. unfold bf_read. rewrite take_app_length, drop_app_length, length_app. rewrite (proj2 (Nat.leb_le _ _)) by lia.
  replace (length a - (length a + length s))%nat with 0%nat by lia. cbn. by rewrite app_nil_r.
Qed.

Lemma i64_le_bytes v : - 2 ^ 63 <= v < 2 ^ 63 -> i64 (le_val (le_bytes 8 (u64 v))) = v.
Proof.
  intros Hv. rewrite le_val_le_bytes. change (256 ^ Z.of_nat 8) with (2 ^ 64). unfold u64, i64. rewrite Zmod_mod, Zplus_mod_idemp_l.
  apply (i64_small _ Hv).
Qed.

Lemma i32_le_bytes v : - 2 ^ 31 <= v < 2 ^ 31 -> i32 (le_val (le_bytes 4 (u32 v))) = v.
Proof.
  intros Hv. rewrite le_val_le_bytes. change (256 ^ Z.of_nat 4) with (2 ^ 32). unfold u32, i32. rewrite Zmod_mod, Zplus_mod_idemp_l.
  apply (i32_small _ Hv).
Qed.

Lemma le_val_fits n v : 0 <= v < 256 ^ Z.of_nat n -> le_val (le_bytes n v) = v.
Proof. intros Hv. rewrite le_val_le_bytes. by apply Z.mod_small. Qed.

Lemma read_ban_entry x s : entry_wf x -> read_ban (ban_bytes x ++ s, true) = Some (x.1, x.2, (s, true)).
Proof.
  destruct x as [ip [c u r t sc cm]]. unfold entry_wf. cbn [fst snd nCreateTime nBanUntil banReason misbehaviorType nMisbehaviorScore strComment].
  intros (H1 & H2 & H3 & H4 & H5 & H6 & H7). unfold ban_bytes, read_ban. cbn [nCreateTime nBanUntil banReason misbehaviorType nMisbehaviorScore strComment].
  assert (u16 (len ip) = len ip) as -> by (apply u16_small; unfold len; lia).
  assert (u16 (len cm) = len cm) as -> by (apply u16_small; unfold len; lia).
  unfold len. rewrite !Nat2Z.id, !firstn_all, <- !app_assoc.
  rewrite bf_read_app by apply length_le_bytes. rewrite le_val_fits by lia. destruct (Z.gtb_spec (Z.of_nat (length ip)) 256); [lia|].
  rewrite Nat2Z.id, bf_read_app by done. do 6 (rewrite bf_read_app by apply length_le_bytes).
  rewrite (le_val_fits 1 r), (le_val_fits 2 t), (le_val_fits 2 (Z.of_nat (length cm))), !i64_le_bytes, i32_le_bytes by lia.
  destruct (Z.gtb_spec (Z.of_nat (length cm)) 0) as [Hc|Hc]; cbn [andb].
  - destruct (Z.ltb_spec (Z.of_nat (length cm)) 1024); [|lia]. rewrite Nat2Z.id, bf_read_app by done. done.
  - destruct cm; [done|cbn in Hc; lia].
Qed.

Lemma read_bans_spec now s : forall l b, Forall entry_wf l -> NoDup l.*1 -> forall ip,
  read_bans (length l) now (concat (ban_bytes <$> l) ++ s, true) b !! ip =
    match list_find (fun x => x.1 = ip) l with
    | Some (_, x) => if IsExpired now x.2 then b !! ip else Some x.2
    | None => b !! ip
    end.
Proof.
  induction l as [|x l IH]; intros b HW HN ip; [done|]. apply Forall_cons in HW as [Hx HW]. cbn [fmap list_fmap] in HN. apply NoDup_cons in HN as [Hni HN].
  cbn [length read_bans snd negb fmap list_fmap concat list_find]. rewrite <- app_assoc, read_ban_entry by done. cbv iota beta.
  fold (list_fmap _ _ ban_bytes l). change (list_fmap _ _ ban_bytes l) with (ban_bytes <$> l). rewrite IH by done.
  destruct (decide (x.1 = ip)) as [<-|Hip].
  - assert (list_find (fun y => y.1 = x.1) l = None) as ->.
    { apply list_find_None, Forall_forall. intros y Hy Ey. apply Hni. rewrite <- Ey. by apply list_elem_of_fmap_2. }
    destruct (IsExpired now x.2); [done|]. apply lookup_insert_eq.
  - destruct (list_find _ l) as [[i y]|]; cbn; destruct (IsExpired now x.2); rewrite ?lookup_insert_ne by done; done.
Qed.

Definition banlist_wf (b : gmap ip_string CBanEntry) : Prop :=
  evictable b /\ (size b <= MAX_BANNED_IPS)%nat /\ forall ip e, b !! ip = Some e -> entry_wf (ip, e).

Lemma GetBanned_elem m now ip e : (ip, e) ∈ GetBanned m now <-> unexpired now (m_banned m) !! ip = Some e.
Proof. unfold GetBanned, unexpired. rewrite list_elem_of_filter, by_key_elem, map_lookup_filter_Some. cbn. tauto. Qed.

Lemma GetBanned_NoDup m now : NoDup (GetBanned m now).*1.
Proof. unfold GetBanned. apply (sublist_NoDup _ (by_key (m_banned m)).*1); [apply by_key_NoDup|]. apply fmap_sublist, sublist_filter. Qed.

Lemma GetBannedCount_le m now : (GetBannedCount m now <= size (m_banned m))%nat.
Proof.
  unfold GetBannedCount, GetBanned. etrans; [apply length_filter|]. unfold by_key. rewrite merge_sort_Permutation. by rewrite length_map_to_list.
Qed.

Lemma found_lookup {A} (l : list (ip_string * A)) ip : NoDup l.*1 ->
  (snd <$> (snd <$> list_find (fun x => x.1 = ip) l)) = (list_to_map l : gmap ip_string A) !! ip.
Proof.
  intros HN. destruct (list_find _ l) as [[i [k x]]|] eqn:E; cbn.
  - apply list_find_Some in E as (Hl & <- & _). symmetry. apply elem_of_list_to_map_1; [done|]. by eapply list_elem_of_lookup_2.
  - symmetry. apply not_elem_of_list_to_map_1. apply list_find_None in E. rewrite list_elem_of_fmap. intros (y & -> & Hy).
    rewrite Forall_forall in E. by apply (E y).
Qed.

Lemma GetBanned_map m now : list_to_map (GetBanned m now) = unexpired now (m_banned m).
Proof.
  apply map_eq. intros ip. apply option_eq. intros e. rewrite <- elem_of_list_to_map by apply GetBanned_NoDup. apply GetBanned_elem.
Qed.

(** What is saved at one time and loaded at another are the bans that have run out at neither. *)
Lemma ban_file_roundtrip m m0 now1 now2 file : banlist_wf (m_banned m) -> has_ban_file m = true -> has_ban_file m0 = true ->
  exists bytes, SaveBanList m now1 None file = (true, set_banned m (m_banned m) false, Some bytes) /\
    LoadBanList m0 now2 (Some bytes) = (true, set_banned m0 (unexpired now2 (unexpired now1 (m_banned m))) (m_is_dirty m0)).
Proof.
  intros (_ & HS & HW) Hm Hm0. unfold SaveBanList. rewrite Hm. cbn [negb]. eexists. split; [done|]. unfold LoadBanList. rewrite Hm0. cbn [negb].
  unfold banlist_bytes. rewrite <- (app_nil_r (concat _)), bf_read_app by apply length_le_bytes. rewrite le_val_fits by (unfold BANLIST_MAGIC; lia).
  rewrite Z.eqb_refl. cbn [negb]. rewrite bf_read_app by apply length_le_bytes. rewrite le_val_fits by (unfold BANLIST_VERSION; lia).
  rewrite Z.eqb_refl. cbn [negb]. rewrite bf_read_app by apply length_le_bytes. pose proof (GetBannedCount_le m now1) as HC.
  assert (Z.of_nat MAX_BANNED_IPS = 10000) as HM by (unfold MAX_BANNED_IPS; lia). rewrite u32_small by lia. rewrite le_val_fits by lia.
  rewrite Z.min_l by lia. rewrite Nat2Z.id. f_equal. unfold GetBannedCount. f_equal. apply map_eq. intros ip.
  rewrite read_bans_spec; [|apply Forall_forall; intros [k e] Hx%GetBanned_elem; apply map_lookup_filter_Some in Hx as [Hx _]; by apply HW|apply GetBanned_NoDup].
  pose proof (found_lookup (GetBanned m now1) ip (GetBanned_NoDup m now1)) as HF. rewrite GetBanned_map in HF. rewrite lookup_empty.
  unfold unexpired at 1. destruct (list_find _ _) as [[i x]|]; cbn in HF; symmetry.
  - destruct (IsExpired now2 x.2) eqn:Ex; [apply map_lookup_filter_None; right|by apply map_lookup_filter_Some].
    intros e He. rewrite <- HF in He. injection He as <-. cbn. by rewrite Ex.
  - apply map_lookup_filter_None. by left.
Qed.

(** ** Offences *)

Record Offence := mkOffence { o_now : Z; o_howmuch : Z; o_type : MisbehaviorType }.
Definition weight (o : Offence) : Z := if o_howmuch o >? 0 then o_howmuch o else GetMisbehaviorScore (o_type o).
Definition total (l : list Offence) : Z := foldr (fun o t => weight o + t) 0 l.

Fixpoint offend (pm : CPeerManager) (peer_id : Z) (l : list Offence) : option CPeerManager :=
  match l with
  | [] => Some pm
  | o :: l' => pm ← Misbehaving pm (o_now o) peer_id (o_howmuch o) (o_type o); offend pm peer_id l'
  end.

(** A connected peer at the address [ip] that is not a seed, with its score. *)
Definition offender (pm : CPeerManager) (peer_id : Z) (ip : ip_string) (score : Z) : Prop :=
  exists peer s, peers pm !! peer_id = Some peer /\ effective_ip pm peer_id peer = ip /\ IsSeedNode pm ip = false /\
    m_scorer pm = Some s /\ GetScore s peer_id = score /\ m_ban_threshold s = 100 /\
    (size (delete peer_id (m_scores s)) < 10 * MAX_TOTAL_CONNECTIONS)%nat.

Lemma Misbehaving_step pm id ip score o : offender pm id ip score -> 0 < weight o -> 0 <= score -> score + weight o < 2 ^ 31 ->
  exists pm', Misbehaving pm (o_now o) id (o_howmuch o) (o_type o) = Some pm' /\ offender pm' id ip (score + weight o) /\
    banman pm' = (if score + weight o >=? 100
                  then Ban (banman pm) (o_now o) ip (ban_duration (o_type o)) BanReason_NodeMisbehaving (o_type o) (score + weight o) else banman pm).
Proof.
  intros (peer & s & Hp & Hip & Hseed & Hs & Hsc & Hth & Hsize) Hw H0 Hb. unfold Misbehaving. rewrite Hp, Hip, Hseed, Hs. fold (weight o).
  unfold AddScoreLocked. destruct (Z.leb_spec (weight o) 0); [lia|].
  assert ((size (m_scores s) <=? 10 * MAX_TOTAL_CONNECTIONS)%nat = true) as ->.
  { apply Nat.leb_le. pose proof (map_size_delete id (m_scores s)) as Hd. destruct (m_scores s !! id); cbn in Hd; lia. }
  rewrite Hsc, Hth, i32_small by lia. cbn [mbind option_bind]. set (s' := mkScorer _ _).
  assert (GetScore s' id = score + weight o) as Hs' by (unfold GetScore; cbn; by rewrite lookup_insert_eq).
  assert (size (delete id (m_scores s')) < 10 * MAX_TOTAL_CONNECTIONS)%nat as Hsz by (cbn [m_scores s']; by rewrite delete_insert_eq).
  destruct (Z.geb_spec (score + weight o) 100) as [Hge|Hlt]; cbn [negb]; (eexists; split; [done|]); (split; [|cbn; by rewrite ?Hs']).
  - exists (mkPeer (p_ip peer) (p_addr_null peer) (Some (i64 (o_now o + ban_duration (o_type o))))), s'.
    split_and!; try done; [cbn; apply lookup_insert_eq|]. rewrite <- Hip. unfold effective_ip. cbn. destruct (p_addr_null peer); [|done].
    rewrite lookup_alter_eq. by destruct (node_refs pm !! id).
  - exists peer, s'. split_and!; done.
Qed.

(** The list as a sequence of bans of one address leaves it, when there is room. *)
Definition only_banned (ip : ip_string) (b b' : gmap ip_string CBanEntry) : Prop := b' = b \/ exists e, b' = <[ip := e]> b.

Lemma Ban_room m now ip d r t sc : (size (m_banned m) < MAX_BANNED_IPS)%nat \/ is_Some (m_banned m !! ip) ->
  exists e, m_banned (Ban m now ip d r t sc) = <[ip := e]> (m_banned m).
Proof.
  intros H. unfold Ban, Ban_entry. cbn [m_banned set_banned]. eexists. f_equal. destruct H as [H|[e H]].
  - destruct (Nat.leb_spec MAX_BANNED_IPS (size (m_banned m))); [lia|done].
  - rewrite (bool_decide_false (m_banned m !! ip = None)) by (by rewrite H). by rewrite andb_false_r.
Qed.

Lemma ban_duration_range t : 0 < ban_duration t <= 3600.
Proof. unfold ban_duration, PROTOCOL_VERSION_BAN_TIME, DEFAULT_BAN_TIME. case_bool_decide; lia. Qed.

Lemma total_nonneg l : Forall (fun o => 0 < weight o) l -> 0 <= total l.
Proof. induction 1 as [|o l Ho Hl IH]; cbn; [lia|]. fold (total l). lia. Qed.

Lemma offend_spec id ip : forall l pm score, offender pm id ip score -> 0 <= score -> Forall (fun o => 0 < weight o) l -> score + total l < 2 ^ 31 ->
  (size (m_banned (banman pm)) < MAX_BANNED_IPS)%nat \/ is_Some (m_banned (banman pm) !! ip) ->
  exists pm', offend pm id l = Some pm' /\ offender pm' id ip (score + total l) /\
    only_banned ip (m_banned (banman pm)) (m_banned (banman pm')) /\ has_ban_file (banman pm') = has_ban_file (banman pm) /\
    (score + total l < 100 -> banman pm' = banman pm) /\
    (100 <= score + total l -> forall o, last l = Some o ->
       exists m, banman pm' = Ban m (o_now o) ip (ban_duration (o_type o)) BanReason_NodeMisbehaving (o_type o) (score + total l)).
Proof.
  induction l as [|o l IH]; intros pm score HO H0 HF HB Hroom.
  { exists pm. cbn [total foldr]. rewrite Z.add_0_r. split_and!; [done|done|by left|done|done|done]. }
  apply Forall_cons in HF as [Ho HF]. pose proof (total_nonneg l HF) as Ht. cbn [total foldr offend] in *. fold (total l) in *.
  destruct (Misbehaving_step pm id ip score o HO Ho H0 ltac:(lia)) as (pm1 & -> & HO1 & HBm). cbn [mbind option_bind].
  assert (only_banned ip (m_banned (banman pm)) (m_banned (banman pm1)) /\ has_ban_file (banman pm1) = has_ban_file (banman pm)) as [HP1 HH1].
  { rewrite HBm. destruct (_ >=? 100); [|split; [by left|done]]. split; [right; by apply Ban_room|done]. }
  destruct (IH pm1 (score + weight o) HO1 ltac:(lia) HF ltac:(lia)) as (pm' & E & HO' & HP & HH & Hlt & Hge).
  { destruct HP1 as [->|[e ->]]; [done|right; by rewrite lookup_insert_eq]. }
  exists pm'. rewrite Z.add_assoc. split_and!; [done|done| |congruence| |].
  - unfold only_banned in *. destruct HP1 as [E1|[e E1]]; rewrite E1 in HP; destruct HP as [->|[e' ->]]; rewrite ?insert_insert_eq; eauto.
  - intros H. rewrite Hlt, HBm by done. destruct (Z.geb_spec (score + weight o) 100); [lia|done].
  - intros H o' Hl. destruct l as [|o2 l]; [|by apply Hge]. injection Hl as <-. cbn in E. injection E as <-. cbn [total foldr] in *.
    rewrite Z.add_0_r in *. exists (banman pm). rewrite HBm. destruct (Z.geb_spec (score + weight o) 100); [done|lia].
Qed.

Lemma IsExpired_later now t e : now <= t -> IsExpired now e = true -> IsExpired t e = true.
Proof. unfold IsExpired. rewrite !andb_true_iff, !Z.gtb_lt, !Z.geb_le. lia. Qed.

Lemma unexpired_later now t b ip : now <= t ->
  match unexpired now b !! ip with None => false | Some e => negb (IsExpired t e) end = match b !! ip with None => false | Some e => negb (IsExpired t e) end.
Proof.
  intros Ht. destruct (b !! ip) as [e|] eqn:E.
  - destruct (IsExpired now e) eqn:Ex.
    + rewrite (IsExpired_later now t e Ht Ex). assert (unexpired now b !! ip = None) as ->; [|done].
      apply map_lookup_filter_None. right. intros x Hx. simplify_eq. cbn. by rewrite Ex.
    + assert (unexpired now b !! ip = Some e) as ->; [|done]. by apply map_lookup_filter_Some.
  - assert (unexpired now b !! ip = None) as ->; [|done]. apply map_lookup_filter_None. by left.
Qed.

(** A restart changes no verdict: every address is refused after it exactly when it was before. *)
Lemma restart_keeps_verdicts m saved loaded file : banlist_wf (m_banned m) -> has_ban_file m = true ->
  exists bytes, SaveBanList m saved None file = (true, set_banned m (m_banned m) false, Some bytes) /\
    forall t ip, saved <= t -> loaded <= t -> IsBanned (new_CBanManager true loaded (Some bytes)) t ip = IsBanned m t ip.
Proof.
  intros HW Hm. destruct (ban_file_roundtrip m (mkBanMan ∅ true false ∅) saved loaded file HW Hm eq_refl) as (bytes & HS & HL).
  exists bytes. split; [done|]. intros t ip H1 H2. unfold new_CBanManager. rewrite HL. unfold IsBanned. cbn [snd m_banned set_banned].
  by rewrite !unexpired_later.
Qed.

Lemma misbehavior_code_range t : 0 <= misbehavior_code t < 2 ^ 16.
Proof. destruct t; cbn; lia. Qed.

Lemma banlist_wf_insert b ip e : banlist_wf b -> entry_wf (ip, e) -> ip <> [] -> nCreateTime e < 2 ^ 63 - 1 -> (size b < MAX_BANNED_IPS)%nat ->
  banlist_wf (<[ip := e]> b).
Proof.
  intros (HE & HS & HW) He Hip Hc Hr. split_and!.
  - intros k x [[<- <-]|[_ Hx]]%lookup_insert_Some; [done|by apply (HE k)].
  - rewrite map_size_insert. destruct (b !! ip); cbn; lia.
  - intros k x [[<- <-]|[_ Hx]]%lookup_insert_Some; [done|by apply (HW k)].
Qed.

(** C40: misbehaviour is punished exactly. The scorer is enabled with threshold 100 and not full; a connected peer
    that is no seed, at an address of 1 to 256 characters, starts with score 0 and commits a non-empty sequence of
    offences of positive weight, in total less than 2^31, with no decay in between; the ban list is well-formed and
    not full, and a ban file is configured. Then its score is the sum of the weights. Below one hundred nothing is
    banned. From one hundred on its address is refused, for ten minutes after the last offence when that was an
    outdated protocol version and for one hour otherwise, and accepted afterwards, and no other address is refused or
    accepted differently. The verdicts on all addresses survive a restart: when the ban file is written without a
    fault, loading it, both at any times, gives the same answers from then on. Files that a fault has cut short are
    outside this statement: see [truncated_ban_never_ends]. *)
Theorem offences_banned_until pm id ip l o : offender pm id ip 0 -> Forall (fun o => 0 < weight o) l -> total l < 2 ^ 31 -> last l = Some o ->
  0 < o_now o < 2 ^ 62 -> (0 < length ip <= 256)%nat -> banlist_wf (m_banned (banman pm)) -> (size (m_banned (banman pm)) < MAX_BANNED_IPS)%nat ->
  has_ban_file (banman pm) = true ->
  exists pm', offend pm id l = Some pm' /\ offender pm' id ip (total l) /\ (total l < 100 -> banman pm' = banman pm) /\
    (100 <= total l -> let until := o_now o + ban_duration (o_type o) in
       (forall t, register_allowed pm' t ip = (until <=? t)) /\
       (forall t ip', ip' <> ip -> IsBanned (banman pm') t ip' = IsBanned (banman pm) t ip') /\
       (forall saved loaded file, exists bytes,
          SaveBanList (banman pm') saved None file = (true, set_banned (banman pm') (m_banned (banman pm')) false, Some bytes) /\
          forall t ip', saved <= t -> loaded <= t -> IsBanned (new_CBanManager true loaded (Some bytes)) t ip' = IsBanned (banman pm') t ip')).
Proof.
  intros HO HF HT HL Hnow Hip HW HS Hfile.
  destruct (offend_spec id ip l pm 0 HO ltac:(lia) HF HT (or_introl HS)) as (pm' & E & HO' & HP & HH & Hlt & Hge). rewrite Z.add_0_l in *.
  exists pm'. split_and!; [done|done|done|]. intros H100. destruct (Hge H100 o HL) as [m HB]. pose proof (ban_duration_range (o_type o)) as Hd. cbn zeta.
  split_and!.
  - intros t. unfold register_allowed. rewrite HB, IsBanned_Ban by lia. destruct HO' as (_ & _ & _ & _ & -> & _). rewrite orb_false_r.
    destruct (Z.ltb_spec t (o_now o + ban_duration (o_type o))), (Z.leb_spec (o_now o + ban_duration (o_type o)) t); done || lia.
  - intros t ip' Hne. unfold IsBanned. by destruct HP as [->|[e ->]]; rewrite ?lookup_insert_ne.
  - intros saved loaded file. apply restart_keeps_verdicts; [|congruence]. destruct HP as [->|[e HP]]; [done|]. rewrite HP.
    assert (m_banned (banman pm') !! ip = Some e) as He by (rewrite HP; apply lookup_insert_eq).
    rewrite HB in He. unfold Ban, Ban_entry in He. cbn [m_banned set_banned] in He. rewrite lookup_insert_eq in He. injection He as <-.
    apply banlist_wf_insert; [done| |by intros ->; cbn in Hip; lia|cbn; lia|done].
    split_and!; cbn; try lia; try apply misbehavior_code_range; unfold BanReason_NodeMisbehaving; try lia; case_match; rewrite ?i64_small; lia.
Qed.

(** Five minor offences and one severe one of a peer that is known by its node's address only. *)
Definition demo_ip : ip_string := [49; 46; 50; 46; 51; 46; 52].
Definition demo_peers : CPeerManager :=
  mkPeers {[ 7 := mkPeer [] true None ]} {[ 7 := mkNode demo_ip false false ]} (Some new_CPeerScorer) (mkBanMan ∅ true false ∅) [].
Definition demo_offences : list Offence :=
  [mkOffence 1000 0 PARSE_FAILURE; mkOffence 1010 25 NONE; mkOffence 1020 0 INVALID_BLOCK_POW].

Lemma offences_banned_until_witness : exists pm', offend demo_peers 7 demo_offences = Some pm' /\ total demo_offences = 135 /\
  register_allowed pm' 4619 demo_ip = false /\ register_allowed pm' 4620 demo_ip = true.
Proof.
  destruct (offences_banned_until demo_peers 7 demo_ip demo_offences (mkOffence 1020 0 INVALID_BLOCK_POW)) as (pm' & E & _ & _ & HB).
  - exists (mkPeer [] true None), new_CPeerScorer. split_and!; try reflexivity. cbn [m_scores new_CPeerScorer]. rewrite delete_empty, map_size_empty.
    unfold MAX_TOTAL_CONNECTIONS. lia.
  - repeat constructor; reflexivity.
  - vm_compute; reflexivity.
  - reflexivity.
  - cbn. lia.
  - cbn. lia.
  - split_and!; cbn; [intros ip e; by rewrite lookup_empty|rewrite map_size_empty; lia|intros ip e; by rewrite lookup_empty].
  - cbn. rewrite map_size_empty. unfold MAX_BANNED_IPS. lia.
  - reflexivity.
  - exists pm'. split; [exact E|]. split; [reflexivity|]. destruct (HB ltac:(vm_compute; discriminate)) as (Hreg & _).
    rewrite !Hreg. split; reflexivity.
Defined.

(** Seeds are never punished. *)
Lemma seeds_exempt pm now id howmuch type peer : peers pm !! id = Some peer -> IsSeedNode pm (effective_ip pm id peer) = true ->
  Misbehaving pm now id howmuch type = Some pm.
Proof. intros Hp Hs. unfold Misbehaving. by rewrite Hp, Hs. Qed.

(** A peer that fails the redownload check is banned at once, whatever its score. *)
Lemma redownload_mismatch_bans pm now id ip score : offender pm id ip score -> 0 <= score < 2 ^ 30 -> 0 < now < 2 ^ 62 ->
  exists pm', MisbehaveHeaders pm now id RedownloadCommitmentMismatch = Some pm' /\ IsBanned (banman pm') now ip = true.
Proof.
  intros HO Hs Hn. destruct (Misbehaving_step pm id ip score (mkOffence now 100 INVALID_BLOCK_HEADER) HO ltac:(done) ltac:(lia) ltac:(cbn; lia))
    as (pm' & E & _ & HB). exists pm'. split; [exact E|]. rewrite HB. change (weight _) with 100. destruct (Z.geb_spec (score + 100) 100); [|lia].
  cbn [o_now o_type]. pose proof (ban_duration_range INVALID_BLOCK_HEADER). rewrite IsBanned_Ban by lia. apply Z.ltb_lt. lia.
Qed.

(** ** Probing with the wrong genesis block *)

(** The window of an address: its start and the failures in it. *)
Definition window (m : CBanManager) (ip : ip_string) : Z * Z :=
  match m_genesis_failures m !! ip with Some e => (first_failure e, failure_count e) | None => (0, 0) end.

(** One failure: it starts a new window or is counted in the current one. *)
Lemma genesis_step m ip t g r m' : RecordGenesisFailure m t ip g = (r, m') ->
  0 <= (window m ip).1 <= t -> t < 2 ^ 62 -> 0 <= (window m ip).2 < 2 ^ 31 - 1 ->
  (r = false -> (window m' ip).2 < GENESIS_FAILURE_BAN_THRESHOLD) /\
  ((window m' ip = (t, 1) /\ ((window m ip).1 = 0 \/ t - (window m ip).1 > GENESIS_FAILURE_WINDOW)) \/
   (window m' ip = ((window m ip).1, (window m ip).2 + 1) /\ (window m ip).1 <> 0 /\ t - (window m ip).1 <= GENESIS_FAILURE_WINDOW)).
Proof.
  unfold RecordGenesisFailure. cbn zeta beta iota. intros [= <- <-] Hf Ht Hc.
  assert (window m ip = (first_failure (default (mkGenesis 0 0 0 []) (m_genesis_failures m !! ip)),
                         failure_count (default (mkGenesis 0 0 0 []) (m_genesis_failures m !! ip)))) as HW
    by (unfold window; by destruct (m_genesis_failures m !! ip)).
  rewrite HW in *. cbn [fst snd] in *. set (e := default _ _) in *. unfold window. cbn [m_genesis_failures]. rewrite lookup_insert_eq.
  cbn [first_failure failure_count snd]. split; [rewrite Z.geb_leb, Z.leb_gt; done|]. rewrite i64_small by lia.
  destruct (Z.eqb_spec (first_failure e) 0) as [H0|H0]; cbn [orb]; [left; rewrite i32_small by lia; split; [f_equal; lia|lia]|].
  destruct (Z.gtb_spec (t - first_failure e) GENESIS_FAILURE_WINDOW); [left|right]; rewrite i32_small by lia; split; try (f_equal; lia); lia.
Qed.

Fixpoint probes (m : CBanManager) (ip : ip_string) (times : list Z) : list bool :=
  match times with [] => [] | t :: times' => let '(r, m) := RecordGenesisFailure m t ip [] in r :: probes m ip times' end.

Ltac in_window := repeat match goal with W : window _ _ = _ |- _ => rewrite W end; cbn [fst snd]; lia.
Ltac probe m t m' :=
  let E := fresh in let r := fresh in let H := fresh in
  destruct (RecordGenesisFailure m t _ []) as [r m'] eqn:E; destruct r; [set_solver|];
  destruct (genesis_step _ _ _ _ _ _ E) as [H [[? ?]|[? ?]]]; [in_window..| |]; specialize (H eq_refl); clear E;
  repeat match goal with W : window m' _ = _, U : context [window m' _] |- _ => rewrite W in U end; cbn [fst snd] in *;
  repeat match goal with W : window m _ = _, U : context [window m _] |- _ => lazymatch U with W => fail | _ => rewrite W in U end end; cbn [fst snd] in *;
  unfold GENESIS_FAILURE_BAN_THRESHOLD in *.

(** Of five failures of one address within the window, one asks for its ban, whatever happened before. *)
Theorem five_probes_banned m ip t1 t2 t3 t4 t5 : 0 < t1 -> t1 <= t2 <= t3 -> t3 <= t4 <= t5 -> t5 - t1 <= GENESIS_FAILURE_WINDOW -> t5 < 2 ^ 62 ->
  0 <= (window m ip).1 <= t1 -> 0 <= (window m ip).2 < 2 ^ 30 -> true ∈ probes m ip [t1; t2; t3; t4; t5].
Proof.
  intros H1 H2 H3 H4 H5 Hf Hc. cbn [probes]. probe m t1 m1; probe m1 t2 m2; try lia; probe m2 t3 m3; try lia; probe m3 t4 m4; try lia; probe m4 t5 m5; lia.
Qed.

(** The next failures after a window may be as many as four without a ban. *)
Example four_probes_pass :
  probes (mkBanMan ∅ false false ∅) demo_ip [1000; 1299; 1301; 1302] = [false; false; false; false].
Proof. reflexivity. Qed.

(** ** Departures from the documentation *)

(** A ban file cut short is reported as saved; on loading, its last ban, which was for one hour, never ends. *)
Definition demo_banned : CBanManager := Ban (mkBanMan ∅ true false ∅) 1000 demo_ip 3600 BanReason_NodeMisbehaving PARSE_FAILURE 100.
Example truncated_ban_never_ends :
  let '(ok, _, file) := SaveBanList demo_banned 1001 (Some (WritesStop 26)) None in
  ok = true /\ IsBanned (new_CBanManager true 1002 file) (2 ^ 60) demo_ip = true /\ IsBanned demo_banned 4600 demo_ip = false.
Proof. vm_compute. split; [|split]; reflexivity. Qed.

(** The two weight tables, said to agree, differ. *)
Example weight_tables_differ :
  (fun t => (DefaultWeight t, GetMisbehaviorScore (MapPolicyToDiagnostic t))) <$> [UnknownMessage; DuplicateVersion; InvalidHeader] =
  [(1, 10); (1, 20); (50, 100)].
Proof. reflexivity. Qed.
