(* ===== verification/TxRelay.v ===== *)
(** * Transaction relay (net/tx_relay, and the transaction parts of the message handlers of net/net.cpp)

    Which transactions were announced to which peer, requested from whom and since when, and lately refused; the handlers of an
    announcement and of an arriving transaction over the memory pool.  The clock is a time in nanoseconds, and the verdict of the
    validator on an arriving transaction is an argument. *)

From S2P Require Import Prelude Uint256 Transaction Fees BlockTxs Doubles Mempool.

Definition TX_REQUEST_TIMEOUT : Z := 60.
Definition TX_ANNOUNCE_TTL : Z := 15.
Definition TX_REJECT_TTL : Z := 900.

Record CTxRelayManager := mkRelay {
  tx_inv_sent : gmap Z (gset uint256);
  tx_in_flight : gmap uint256 Z;
  tx_request_time : gmap uint256 Z;
  recently_announced : gmap uint256 Z;
  recently_rejected : gmap uint256 Z
}.
Definition new_CTxRelayManager : CTxRelayManager := mkRelay ∅ ∅ ∅ ∅ ∅.

Definition ShouldAnnounce (r : CTxRelayManager) (peer_id : Z) (txid : uint256) : bool :=
  match tx_inv_sent r !! peer_id with None => true | Some s => negb (bool_decide (txid ∈ s)) end.

Definition MarkAnnounced (r : CTxRelayManager) (now peer_id : Z) (txid : uint256) : CTxRelayManager :=
  mkRelay (<[peer_id := {[ txid ]} ∪ default ∅ (tx_inv_sent r !! peer_id)]> (tx_inv_sent r)) (tx_in_flight r) (tx_request_time r)
    (<[txid := now]> (recently_announced r)) (recently_rejected r).

Definition AlreadyHave (r : CTxRelayManager) (txid : uint256) (mempool : CTxMemPool) : bool :=
  Exists mempool txid || bool_decide (is_Some (tx_in_flight r !! txid)) || bool_decide (is_Some (recently_rejected r !! txid)).

Definition MarkRequested (r : CTxRelayManager) (now : Z) (txid : uint256) (peer_id : Z) : CTxRelayManager :=
  mkRelay (tx_inv_sent r) (<[txid := peer_id]> (tx_in_flight r)) (<[txid := now]> (tx_request_time r)) (recently_announced r) (recently_rejected r).

Definition MarkRejected (r : CTxRelayManager) (now : Z) (txid : uint256) : CTxRelayManager :=
  mkRelay (tx_inv_sent r) (tx_in_flight r) (tx_request_time r) (recently_announced r) (<[txid := now]> (recently_rejected r)).

Definition RemoveInFlight (r : CTxRelayManager) (txid : uint256) : CTxRelayManager :=
  mkRelay (tx_inv_sent r) (delete txid (tx_in_flight r)) (delete txid (tx_request_time r)) (recently_announced r) (recently_rejected r).

(** Whole seconds from a time point to now. *)
Definition elapsed (now since : Z) : Z := Z.quot (i64 (now - since)) (10 ^ 9).
Definition kept (now ttl : Z) (m : gmap uint256 Z) : gmap uint256 Z := filter (fun e => elapsed now e.2 < ttl) m.

Definition trim_inv_sent (m : gmap Z (gset uint256)) : gmap Z (gset uint256) :=
  if (100 <? size m)%nat then
    foldl (fun m peer => match m !! peer with
                         | Some s => if (50 <? size m)%nat && (100 <? size s)%nat then delete peer m else m
                         | None => m
                         end) m (merge_sort Z.le (elements (dom m)))
  else m.

Definition CleanupExpired (r : CTxRelayManager) (now : Z) : CTxRelayManager :=
  let request_time := kept now TX_REQUEST_TIMEOUT (tx_request_time r) in
  mkRelay (trim_inv_sent (tx_inv_sent r))
    (filter (fun e => ~ (is_Some (tx_request_time r !! e.1) /\ request_time !! e.1 = None)) (tx_in_flight r))
    request_time (kept now TX_ANNOUNCE_TTL (recently_announced r)) (kept now TX_REJECT_TTL (recently_rejected r)).

Definition Relay_PeerDisconnected (r : CTxRelayManager) (peer_id : Z) : CTxRelayManager :=
  mkRelay (delete peer_id (tx_inv_sent r)) (filter (fun e => e.2 <> peer_id) (tx_in_flight r))
    (filter (fun e => tx_in_flight r !! e.1 <> Some peer_id) (tx_request_time r)) (recently_announced r) (recently_rejected r).

Definition Relay_GetStats (r : CTxRelayManager) : nat * nat * nat :=
  (sum_list_with (fun e => size e.2) (map_to_list (tx_inv_sent r)), size (tx_in_flight r), size (recently_announced r)).

(** ** The handlers *)

Section Handlers.
  Variable SHA3_256 : list Z -> uint256.

(** One turn of the loop over the peers. *)
Definition announce_one (now : Z) (txid : uint256) (exclude_peer : Z) (force_reannounce : bool) (acc : list Z * CTxRelayManager) (peer : Z)
  : list Z * CTxRelayManager :=
  let '(sent, r) := acc in
  if peer =? exclude_peer then (sent, r)
  else if negb force_reannounce && negb (ShouldAnnounce r peer txid) then (sent, r)
  else (sent ++ [peer], MarkAnnounced r now peer txid).

(** [peers] are the connected peers that completed the handshake and relay transactions. *)
Definition AnnounceTransactionToPeers (r : CTxRelayManager) (now : Z) (txid : uint256) (exclude_peer : Z) (force_reannounce : bool) (peers : list Z)
  : list Z * CTxRelayManager :=
  foldl (announce_one now txid exclude_peer force_reannounce) ([], r) peers.

(** An announcement of one transaction; the result says whether it is requested. *)
Definition on_tx_inv (r : CTxRelayManager) (now peer_id : Z) (txid : uint256) (mempool : CTxMemPool) : bool * CTxRelayManager :=
  if AlreadyHave r txid mempool then (false, r) else (true, MarkRequested r now txid peer_id).

(** An arriving transaction: [checked] is the fee the validator found, or that it refused; [peers] are those to announce to. *)
Definition on_tx (r : CTxRelayManager) (mempool : CTxMemPool) (now peer_id : Z) (tx : CTransaction) (checked : option Z)
    (fail : option alloc_failure) (time height : Z) (peers : list Z) : list Z * CTxRelayManager * CTxMemPool :=
  let txid := Tx_GetHash SHA3_256 tx in
  let r := RemoveInFlight r txid in
  if Exists mempool txid then ([], r, mempool)
  else
    match checked with
    | None => ([], MarkRejected r now txid, mempool)
    | Some fee =>
        match AddTx SHA3_256 fail mempool (Some tx) fee time height time false with
        | (Err _, mempool, _) => ([], r, mempool)
        | (Ok _, mempool, _) => let '(sent, r) := AnnounceTransactionToPeers r now txid peer_id false peers in (sent, r, mempool)
        end
    end.

Inductive RelayEvent :=
| EvInv (now peer : Z) (txid : uint256)
| EvTx (now peer : Z) (tx : CTransaction) (checked : option Z) (fail : option alloc_failure) (time height : Z) (peers : list Z)
| EvAnnounce (now : Z) (txid : uint256) (exclude : Z) (force : bool) (peers : list Z)
| EvPool (mempool : CTxMemPool).

(** What an event sends: requests for transactions, and announcements to peers. *)
Record Sent := mkSent { requests : list uint256; announcements : list (Z * uint256) }.

(** One event.  [EvPool] is any change of the pool by other parts. *)
Definition relay_step (s : CTxRelayManager * CTxMemPool) (e : RelayEvent) : Sent * (CTxRelayManager * CTxMemPool) :=
  let '(r, p) := s in
  match e with
  | EvInv now peer txid => let '(req, r) := on_tx_inv r now peer txid p in (mkSent (if req : bool then [txid] else []) [], (r, p))
  | EvTx now peer tx checked fail time height peers =>
      let '(sent, r, p) := on_tx r p now peer tx checked fail time height peers in
      (mkSent [] ((fun peer => (peer, Tx_GetHash SHA3_256 tx)) <$> sent), (r, p))
  | EvAnnounce now txid exclude force peers =>
      let '(sent, r) := AnnounceTransactionToPeers r now txid exclude force peers in (mkSent [] ((fun peer => (peer, txid)) <$> sent), (r, p))
  | EvPool p => (mkSent [] [], (r, p))
  end.

Fixpoint relay_run (s : CTxRelayManager * CTxMemPool) (l : list RelayEvent) : Sent * (CTxRelayManager * CTxMemPool) :=
  match l with
  | [] => (mkSent [] [], s)
  | e :: l' =>
      let '(x, s) := relay_step s e in let '(y, s) := relay_run s l' in
      (mkSent (requests x ++ requests y) (announcements x ++ announcements y), s)
  end.

(** ** Announcements *)

Definition announced (r : CTxRelayManager) (a : Z * uint256) : Prop := exists s, tx_inv_sent r !! a.1 = Some s /\ a.2 ∈ s.

Lemma ShouldAnnounce_iff r peer txid : ShouldAnnounce r peer txid = true <-> ~ announced r (peer, txid).
Proof.
  unfold ShouldAnnounce, announced. cbn. destruct (tx_inv_sent r !! peer) as [s|]; [|split; [intros _ (x & [=] & _)|done]].
  rewrite negb_true_iff, bool_decide_eq_false. naive_solver.
Qed.

Lemma MarkAnnounced_iff r now peer txid a : announced (MarkAnnounced r now peer txid) a <-> a = (peer, txid) \/ announced r a.
Proof.
  unfold announced, MarkAnnounced. destruct a as [q t]. cbn. destruct (decide (q = peer)) as [->|Hq].
  - rewrite lookup_insert_eq. split.
    + intros (s & [= <-] & [->%elem_of_singleton|Ht]%elem_of_union); [by left|right]. destruct (tx_inv_sent r !! peer) as [s|]; [eauto|set_solver].
    + intros [[= ->]|(s & -> & Ht)]; eexists; (split; [done|]); set_solver.
  - rewrite lookup_insert_ne by done. naive_solver.
Qed.

(** A foldl invariant for the loop over the peers. *)
Lemma announce_spec now txid exclude peers : forall r, let '(sent, r') := AnnounceTransactionToPeers r now txid exclude false peers in
  NoDup sent /\ (forall q, q ∈ sent -> ~ announced r (q, txid)) /\ (forall a, announced r' a <-> announced r a \/ a.2 = txid /\ a.1 ∈ sent) /\
  tx_in_flight r' = tx_in_flight r.
Proof.
  intros r. unfold AnnounceTransactionToPeers.
  assert (forall peers sent r1, NoDup sent -> (forall q, q ∈ sent -> ~ announced r (q, txid)) ->
    (forall a, announced r1 a <-> announced r a \/ a.2 = txid /\ a.1 ∈ sent) -> tx_in_flight r1 = tx_in_flight r ->
    let '(sent, r') := foldl (announce_one now txid exclude false) (sent, r1) peers in
    NoDup sent /\ (forall q, q ∈ sent -> ~ announced r (q, txid)) /\ (forall a, announced r' a <-> announced r a \/ a.2 = txid /\ a.1 ∈ sent) /\
    tx_in_flight r' = tx_in_flight r) as H; [|apply H; [constructor|set_solver|set_solver|done]].
  clear peers. induction peers as [|q peers IH]; intros sent r1 HN HA HI HF; [done|]. cbn [foldl].
  unfold announce_one at 2. destruct (q =? exclude); [by apply IH|]. cbn [negb andb]. destruct (ShouldAnnounce r1 q txid) eqn:ES; cbn [negb]; [|by apply IH].
  apply ShouldAnnounce_iff in ES. rewrite HI in ES. cbn in ES. apply IH; [| | |done].
  - apply NoDup_app. split_and!; [done| |apply NoDup_singleton]. intros x Hx ->%list_elem_of_singleton. naive_solver.
  - intros x [Hx| ->%list_elem_of_singleton]%elem_of_app; [by apply HA|naive_solver].
  - intros a. rewrite MarkAnnounced_iff, HI, elem_of_app, list_elem_of_singleton. destruct a as [x t]; cbn. naive_solver.
Qed.

Definition unforced (e : RelayEvent) : Prop := match e with EvAnnounce _ _ _ force _ => force = false | _ => True end.
Definition arrival_of (txid : uint256) (e : RelayEvent) : Prop := match e with EvTx _ _ tx _ _ _ _ _ => Tx_GetHash SHA3_256 tx = txid | _ => False end.

Lemma pair_list_elem (a : Z * uint256) (txid : uint256) (sent : list Z) : a ∈ (fun peer => (peer, txid)) <$> sent <-> a.2 = txid /\ a.1 ∈ sent.
Proof. rewrite list_elem_of_fmap. destruct a as [q t]. cbn. naive_solver. Qed.

Lemma pair_list_NoDup (txid : uint256) (sent : list Z) : NoDup sent -> NoDup ((fun peer => (peer, txid)) <$> sent).
Proof. apply NoDup_fmap_2. by intros x y [= ->]. Qed.

Definition fresh_announcements (r r' : CTxRelayManager) (l : list (Z * uint256)) : Prop :=
  NoDup l /\ (forall a, a ∈ l -> ~ announced r a) /\ (forall a, announced r' a <-> announced r a \/ a ∈ l).

Lemma fresh_nil r r' : tx_inv_sent r' = tx_inv_sent r -> fresh_announcements r r' [].
Proof. intros E. split_and!; [constructor|set_solver|]. intros a. unfold announced. rewrite E. set_solver. Qed.

Lemma announce_fresh now txid exclude peers r0 r : tx_inv_sent r = tx_inv_sent r0 ->
  let '(sent, r') := AnnounceTransactionToPeers r now txid exclude false peers in
  fresh_announcements r0 r' ((fun peer => (peer, txid)) <$> sent) /\ tx_in_flight r' = tx_in_flight r.
Proof.
  intros E. pose proof (announce_spec now txid exclude peers r) as H. destruct (AnnounceTransactionToPeers _ _ _ _ _ _) as [sent r'].
  destruct H as (HN & HA & HI & HF). unfold announced in *. rewrite E in HA, HI. split; [|done].
  split_and!; [by apply pair_list_NoDup| |]; intros a; rewrite pair_list_elem; [|apply HI]. intros [Ht Ha]. destruct a as [q t]. cbn in *. subst t. by apply HA.
Qed.

Lemma step_announces s e : unforced e -> let '(x, s') := relay_step s e in fresh_announcements s.1 s'.1 (announcements x).
Proof.
  destruct s as [r p]. destruct e as [now peer txid|now peer tx checked fail time height peers|now txid exclude force peers|p']; cbn [relay_step unforced].
  - intros _. unfold on_tx_inv. destruct (AlreadyHave r txid p); by apply fresh_nil.
  - intros _. unfold on_tx. destruct (Exists p _); [by apply fresh_nil|]. destruct checked as [fee|]; [|by apply fresh_nil].
    destruct (AddTx _ _ _ _ _ _ _ _ _) as [[[u|e] p'] ev]; [|by apply fresh_nil].
    pose proof (announce_fresh now (Tx_GetHash SHA3_256 tx) peer peers r (RemoveInFlight r (Tx_GetHash SHA3_256 tx)) eq_refl) as H.
    destruct (AnnounceTransactionToPeers _ _ _ _ _ _) as [sent r']. by destruct H.
  - intros ->. pose proof (announce_fresh now txid exclude peers r r eq_refl) as H.
    destruct (AnnounceTransactionToPeers _ _ _ _ _ _) as [sent r']. by destruct H.
  - intros _. by apply fresh_nil.
Qed.

(** No peer is sent the same announcement twice. *)
Lemma run_announces l : forall s, Forall unforced l -> let '(x, s') := relay_run s l in fresh_announcements s.1 s'.1 (announcements x).
Proof.
  induction l as [|e l IH]; intros s HU; [by apply fresh_nil|]. apply Forall_cons in HU as [He HU]. cbn [relay_run].
  pose proof (step_announces s e He) as H1. destruct (relay_step s e) as [x s1]. specialize (IH s1 HU). destruct (relay_run s1 l) as [y s2].
  destruct H1 as (N1 & A1 & I1), IH as (N2 & A2 & I2). cbn [announcements]. split_and!.
  - apply NoDup_app. split_and!; [done| |done]. intros a Ha1 Ha2. apply (A2 a Ha2), I1. by right.
  - intros a [Ha|Ha]%elem_of_app; [by apply A1|]. intros Hr. apply (A2 a Ha), I1. by left.
  - intros a. rewrite I2, I1, elem_of_app. tauto.
Qed.

(** ** Requests *)

Definition in_flight (s : CTxRelayManager * CTxMemPool) (txid : uint256) : Prop := is_Some (tx_in_flight s.1 !! txid).

Lemma force_in_flight now txid exclude force peers : forall r, tx_in_flight (AnnounceTransactionToPeers r now txid exclude force peers).2 = tx_in_flight r.
Proof.
  intros r. unfold AnnounceTransactionToPeers. generalize (@nil Z). revert r. induction peers as [|q peers IH]; intros r sent; [done|]. cbn [foldl].
  unfold announce_one at 2. destruct (q =? exclude); [apply IH|]. destruct (_ && _); [apply IH|]. by rewrite IH.
Qed.

Lemma step_requests s e txid : ~ arrival_of txid e -> let '(x, s') := relay_step s e in
  (in_flight s txid -> in_flight s' txid /\ requests x = [] \/ in_flight s' txid /\ txid ∉ requests x) /\
  (txid ∈ requests x -> requests x = [txid] /\ in_flight s' txid).
Proof.
  destruct s as [r p]. destruct e as [now peer t|now peer tx checked fail time height peers|now t exclude force peers|p']; cbn [relay_step arrival_of]; intros HA.
  - unfold on_tx_inv. destruct (AlreadyHave r t p) eqn:EA; cbn [requests]; [split; [by left|set_solver]|].
    destruct (decide (t = txid)) as [->|Hne].
    + split; [|intros _; split; [done|]; unfold in_flight; cbn; by rewrite lookup_insert_eq]. intros Hf. exfalso.
      unfold in_flight in Hf. cbn in Hf. unfold AlreadyHave in EA. rewrite (bool_decide_true (is_Some (tx_in_flight r !! txid))) in EA by done.
      by rewrite orb_true_r in EA.
    + split; [|set_solver]. intros Hf. right. split; [|set_solver]. unfold in_flight in *. cbn in *. by rewrite lookup_insert_ne.
  - unfold on_tx. set (r1 := RemoveInFlight r _).
    assert (in_flight (r, p) txid -> is_Some (tx_in_flight r1 !! txid)) as Hr1 by (unfold in_flight; cbn; by rewrite lookup_delete_ne).
    destruct (Exists p _); [split; [left; split; [by apply Hr1|done]|set_solver]|].
    destruct checked as [fee|]; [|split; [left; split; [by apply Hr1|done]|set_solver]].
    destruct (AddTx _ _ _ _ _ _ _ _ _) as [[[u|e] p'] ev]; [|split; [left; split; [by apply Hr1|done]|set_solver]].
    pose proof (force_in_flight now (Tx_GetHash SHA3_256 tx) peer false peers r1) as HF.
    destruct (AnnounceTransactionToPeers _ _ _ _ _ _) as [sent r']. cbn in HF. split; [|set_solver]. left. split; [|done].
    unfold in_flight. cbn. rewrite HF. by apply Hr1.
  - pose proof (force_in_flight now t exclude force peers r) as HF. destruct (AnnounceTransactionToPeers _ _ _ _ _ _) as [sent r']. cbn in HF.
    split; [|set_solver]. left. split; [|done]. unfold in_flight in *. cbn in *. by rewrite HF.
  - split; [by left|set_solver].
Qed.

Lemma filter_absent (txid : uint256) l : txid ∉ l -> filter (.= txid) l = [].
Proof.
  induction l as [|x l IH]; [done|]. rewrite not_elem_of_cons. intros [Hx Hl]. rewrite filter_cons_False by (intros ->; done). by apply IH.
Qed.

Lemma run_requests txid l : forall s, Forall (fun e => ~ arrival_of txid e) l -> let '(x, s') := relay_run s l in
  (in_flight s txid -> in_flight s' txid /\ txid ∉ requests x) /\
  (length (filter (.= txid) (requests x)) <= 1)%nat.
Proof.
  induction l as [|e l IH]; intros s HU; [split; [set_solver|cbn; lia]|]. apply Forall_cons in HU as [He HU]. cbn [relay_run].
  pose proof (step_requests s e txid He) as H1. destruct (relay_step s e) as [x s1]. specialize (IH s1 HU). destruct (relay_run s1 l) as [y s2].
  destruct H1 as [H1 H2], IH as [H3 H4]. cbn [requests]. split.
  - intros Hf. destruct (H1 Hf) as [[Hf1 Hr]|[Hf1 Hr]]; destruct (H3 Hf1) as [Hf2 Hr2]; (split; [done|]); rewrite not_elem_of_app; (split; [|done]).
    + rewrite Hr. apply not_elem_of_nil.
    + done.
  - rewrite filter_app, length_app. destruct (decide (txid ∈ requests x)) as [Hx|Hx].
    + destruct (H2 Hx) as [-> Hf]. destruct (H3 Hf) as [_ Hn].
      rewrite (filter_absent txid (requests y) Hn).
      change (filter (.= txid) [txid]) with (if decide (txid = txid) then [txid] else []). rewrite decide_True by done. cbn. lia.
    + rewrite (filter_absent txid (requests x) Hx). cbn. lia.
Qed.

(** Flood prevention.  Through any sequence of announcements, arrivals and changes of the pool, no peer is announced a transaction
    twice unless forced, and a transaction that does not arrive is requested at most once: while a request is under way nobody else
    is asked.  As no handler expires requests, that also holds of a transaction whose sender withholds it for good. *)
Theorem relay_once s l txid : Forall unforced l -> Forall (fun e => ~ arrival_of txid e) l -> let '(x, s') := relay_run s l in
  NoDup (announcements x) /\ (forall a, a ∈ announcements x -> ~ announced s.1 a) /\
  (length (filter (.= txid) (requests x)) <= 1)%nat /\ (in_flight s txid -> in_flight s' txid /\ txid ∉ requests x).
Proof.
  intros HU HA. pose proof (run_announces l s HU) as H1. pose proof (run_requests txid l s HA) as H2. destruct (relay_run s l) as [x s'].
  destruct H1 as (N & A & _), H2 as [R1 R2]. done.
Qed.
End Handlers.

(** ** Expiry *)

(** Every request has a time and every time a request. *)
Definition relay_ok (r : CTxRelayManager) : Prop := forall txid, is_Some (tx_in_flight r !! txid) <-> is_Some (tx_request_time r !! txid).

Lemma kept_lookup now ttl m k : kept now ttl m !! k = (x ← m !! k; if decide (elapsed now x < ttl) then Some x else None).
Proof.
  unfold kept. destruct (m !! k) as [x|] eqn:E; cbn.
  - case_decide; [by apply map_lookup_filter_Some|]. apply map_lookup_filter_None. right. intros y Hy. by simplify_eq.
  - apply map_lookup_filter_None. by left.
Qed.

Lemma CleanupExpired_in_flight r now txid : relay_ok r ->
  tx_in_flight (CleanupExpired r now) !! txid =
    (peer ← tx_in_flight r !! txid; since ← tx_request_time r !! txid; if decide (elapsed now since < TX_REQUEST_TIMEOUT) then Some peer else None).
Proof.
  intros HO. specialize (HO txid). cbn [tx_in_flight CleanupExpired]. destruct (tx_in_flight r !! txid) as [peer|] eqn:E; cbn; [|apply map_lookup_filter_None; by left].
  destruct (proj1 HO ltac:(done)) as [since Hs]. rewrite Hs. cbn. case_decide as Hd.
  - apply map_lookup_filter_Some. split; [done|]. cbn. rewrite kept_lookup, Hs. cbn. rewrite decide_True by done. naive_solver.
  - apply map_lookup_filter_None. right. intros y Hy Hn. apply Hn. cbn. rewrite Hs, kept_lookup, Hs. cbn. by rewrite decide_False.
Qed.

(** Every operation keeps requests and times together. *)
Lemma relay_ok_ops r now txid peer : relay_ok r ->
  relay_ok (MarkRequested r now txid peer) /\ relay_ok (RemoveInFlight r txid) /\ relay_ok (MarkRejected r now txid) /\
  relay_ok (MarkAnnounced r now peer txid) /\ relay_ok (CleanupExpired r now) /\ relay_ok (Relay_PeerDisconnected r peer).
Proof.
  intros HO. split_and!; try done; intros k.
  - specialize (HO k). cbn. destruct (decide (k = txid)) as [->|]; [rewrite !lookup_insert_eq; by split|by rewrite !lookup_insert_ne].
  - specialize (HO k). cbn. destruct (decide (k = txid)) as [->|]; [rewrite !lookup_delete_eq; by split|by rewrite !lookup_delete_ne].
  - rewrite CleanupExpired_in_flight by done. cbn [tx_request_time CleanupExpired]. rewrite kept_lookup. specialize (HO k).
    destruct (tx_in_flight r !! k) as [p|]; destruct (tx_request_time r !! k) as [t|]; cbn; [case_decide; by split|naive_solver..].
  - specialize (HO k). unfold is_Some. cbn. split; intros [x [Hx Hp]%map_lookup_filter_Some]; cbn in Hp.
    + destruct (proj1 HO ltac:(eauto)) as [t Ht]. exists t. apply map_lookup_filter_Some. split; [done|]. cbn. rewrite Hx. congruence.
    + destruct (proj2 HO ltac:(eauto)) as [q Hq]. exists q. apply map_lookup_filter_Some. split; [done|]. cbn. congruence.
Qed.

(** Were it called, the clean-up would let a transaction be requested again sixty seconds after an unanswered request, and fifteen
    minutes after a refusal. *)
Theorem cleanup_allows_retry r p now txid : relay_ok r -> Exists p txid = false ->
  (forall since, tx_request_time r !! txid = Some since -> TX_REQUEST_TIMEOUT <= elapsed now since) ->
  (forall since, recently_rejected r !! txid = Some since -> TX_REJECT_TTL <= elapsed now since) ->
  AlreadyHave (CleanupExpired r now) txid p = false.
Proof.
  intros HO HE HR HJ. unfold AlreadyHave. rewrite HE, CleanupExpired_in_flight by done. cbn [recently_rejected CleanupExpired]. rewrite kept_lookup.
  rewrite !orb_false_iff, !bool_decide_eq_false. split_and!; [done| |].
  - destruct (tx_in_flight r !! txid); cbn; [|by intros []]. destruct (tx_request_time r !! txid) as [t|]; cbn; [|by intros []].
    specialize (HR t eq_refl). rewrite decide_False by lia. by intros [].
  - destruct (recently_rejected r !! txid) as [t|]; cbn; [|by intros []]. specialize (HJ t eq_refl). rewrite decide_False by lia. by intros [].
Qed.

(** The sender of the announcement at time 0 never delivers; an hour and a day later nobody else is asked. *)
Example withheld_transaction_never_requested :
  requests (relay_run (fun _ => []) (new_CTxRelayManager, empty_pool)
    [EvInv 0 1 [7]; EvInv (3600 * 10 ^ 9) 2 [7]; EvInv (86400 * 10 ^ 9) 3 [7]]).1 = [[7]].
Proof. reflexivity. Qed.
