(* ===== verification/RegistrationManager.v ===== *)
(** * First registration of a miner (node/registration_manager)

    A worker thread takes a miner's identity through hardware fingerprint, seed attestations and proof of work to a registration that
    the block template may carry.  What it asks of wallet, collector, seeds, disk and identity database are the arguments of its
    handlers.  The handlers that release the lock are two steps each, so that the calls of other threads can come in between; a record
    handed to the disk is logged.  Texts of errors and hints and the
    deletion of a poisoned file are left out.  Session numbers are not wrapped at 2^64. *)

From S2P Require Import Prelude Uint256 Transaction Dfmp Mik Attestation.

Inductive State : Set :=
| UNINITIALIZED | CHECK_ELIGIBILITY | DNA_PENDING | ATTEST_PENDING | POW_PENDING | READY | SUBMITTED | CONFIRMED
| LONG_BACKOFF_USER_ACTIONABLE | FAILED_FATAL | SHUTTING_DOWN | STOPPED.
#[export] Instance State_eq_dec : EqDecision State.
Proof. solve_decision. Defined.

Inductive RegEvent : Set :=
| STARTUP | TIP_UPDATED | SESSION_STARTED | DNA_READY | ATTEST_READY | POW_READY | TEMPLATE_BUILT_AND_MINER_STARTED | REGISTRATION_SEEN_ONCHAIN
| REGISTRATION_MISSING_ONCHAIN | SUBMIT_TIMEOUT_OR_REJECTED | SUBMIT_RETRY_BUDGET_EXHAUSTED | TRANSIENT_ERROR | USER_ACTION_REQUIRED
| UNRECOVERABLE_ERROR | SHUTDOWN_REQUESTED | WORKER_STOPPED | FORCE_RESTART.

Inductive MineGateReason : Set :=
| OK_REGISTERED | OK_REGISTRATION_IN_PROGRESS | BLOCKED_UNINITIALIZED | BLOCKED_DNA_PENDING | BLOCKED_ATTEST_PENDING | BLOCKED_POW_PENDING
| BLOCKED_RETRYING_SUBMISSION | BLOCKED_LONG_BACKOFF_USER_ACTIONABLE | BLOCKED_FATAL | BLOCKED_SHUTTING_DOWN.

Record SessionData := mkSession {
  sessionId : Z;
  startHeight : Z;
  mikPubkey : list Z;
  mikIdentity : Identity;
  dnaHash : list Z;
  hasDnaHash : bool;
  attestations : option (list AttestationEntry);
  hasValidAttestations : bool;
  regNonce : Z;
  hasRegNonce : bool;
  submitRetries : Z;
  attestationRetries : Z;
  dnaPolls : Z
}.
Definition new_SessionData : SessionData := mkSession 0 0 [] null_identity (replicate 32 0) false None false 0 false 0 0 0.

Record Snapshot := mkSnapshot {
  sn_state : State;
  sn_sequence : Z;
  sn_tipHeight : Z;
  sn_registrationRequired : bool;
  sn_canBuild : bool;
  sn_session : SessionData;
  sn_nextRetryAt : Z;
  sn_mineGate : MineGateReason
}.

(** Chain parameters and settings behind the interface; [is_regtest] needs the global parameters. *)
Record RegConfig := mkRegConfig { is_regtest : bool; dna_activation : Z; attest_activation : Z; pow_bits : Z }.

Definition maxSubmitRetries : Z := 3.
Definition maxAttestationRetries : Z := 8.
Definition dnaPollInterval : Z := 1.
Definition attestInitialBackoff : Z := 5.
Definition attestMaxBackoff : Z := 60.
Definition submitRetryBackoff : Z := 15.
Definition userActionBackoff : Z := 600.

Record CRegistrationManager := mkReg {
  state_ : State;
  session_ : SessionData;
  nextRetryAt_ : Z;
  currentAttestBackoff_ : Z;
  nextSessionId_ : Z;
  shutdownRequested_ : bool;
  powRunning_ : bool;
  latestTipHeight_ : Z;
  latestNodeRunning_ : bool;
  workerStarted_ : bool;
  snapshotSeq_ : Z;
  publishedSnapshot_ : Snapshot
}.

Definition new_CRegistrationManager : CRegistrationManager :=
  mkReg UNINITIALIZED new_SessionData 0 0 1 false true 0 true false 0
    (mkSnapshot UNINITIALIZED 0 0 true false new_SessionData 0 BLOCKED_UNINITIALIZED).

Definition EnterState (s : State) (m : CRegistrationManager) : CRegistrationManager :=
  mkReg s (session_ m) (nextRetryAt_ m) (currentAttestBackoff_ m) (nextSessionId_ m) (shutdownRequested_ m) (powRunning_ m) (latestTipHeight_ m)
    (latestNodeRunning_ m) (workerStarted_ m) (snapshotSeq_ m) (publishedSnapshot_ m).
Definition set_session (s : SessionData) (m : CRegistrationManager) : CRegistrationManager :=
  mkReg (state_ m) s (nextRetryAt_ m) (currentAttestBackoff_ m) (nextSessionId_ m) (shutdownRequested_ m) (powRunning_ m) (latestTipHeight_ m)
    (latestNodeRunning_ m) (workerStarted_ m) (snapshotSeq_ m) (publishedSnapshot_ m).
Definition set_retry (t : Z) (m : CRegistrationManager) : CRegistrationManager :=
  mkReg (state_ m) (session_ m) t (currentAttestBackoff_ m) (nextSessionId_ m) (shutdownRequested_ m) (powRunning_ m) (latestTipHeight_ m)
    (latestNodeRunning_ m) (workerStarted_ m) (snapshotSeq_ m) (publishedSnapshot_ m).
Definition set_backoff (b : Z) (m : CRegistrationManager) : CRegistrationManager :=
  mkReg (state_ m) (session_ m) (nextRetryAt_ m) b (nextSessionId_ m) (shutdownRequested_ m) (powRunning_ m) (latestTipHeight_ m)
    (latestNodeRunning_ m) (workerStarted_ m) (snapshotSeq_ m) (publishedSnapshot_ m).
Definition set_pow (r : bool) (m : CRegistrationManager) : CRegistrationManager :=
  mkReg (state_ m) (session_ m) (nextRetryAt_ m) (currentAttestBackoff_ m) (nextSessionId_ m) (shutdownRequested_ m) r (latestTipHeight_ m)
    (latestNodeRunning_ m) (workerStarted_ m) (snapshotSeq_ m) (publishedSnapshot_ m).

(** Changes of a session. *)
Definition with_dna (dna : list Z) (s : SessionData) : SessionData :=
  mkSession (sessionId s) (startHeight s) (mikPubkey s) (mikIdentity s) dna true (attestations s) (hasValidAttestations s) (regNonce s)
    (hasRegNonce s) (submitRetries s) (attestationRetries s) (dnaPolls s).
Definition with_nonce (nonce : Z) (s : SessionData) : SessionData :=
  mkSession (sessionId s) (startHeight s) (mikPubkey s) (mikIdentity s) (dnaHash s) (hasDnaHash s) (attestations s) (hasValidAttestations s) nonce
    true (submitRetries s) (attestationRetries s) (dnaPolls s).
Definition with_attest (a : option (list AttestationEntry)) (valid : bool) (s : SessionData) : SessionData :=
  mkSession (sessionId s) (startHeight s) (mikPubkey s) (mikIdentity s) (dnaHash s) (hasDnaHash s) a valid (regNonce s) (hasRegNonce s)
    (submitRetries s) (attestationRetries s) (dnaPolls s).
Definition with_key (pubkey : list Z) (identity : Identity) (s : SessionData) : SessionData :=
  mkSession (sessionId s) (startHeight s) pubkey identity (dnaHash s) (hasDnaHash s) (attestations s) (hasValidAttestations s) (regNonce s)
    (hasRegNonce s) (submitRetries s) (attestationRetries s) (dnaPolls s).
Definition with_counts (submit attest polls : Z) (s : SessionData) : SessionData :=
  mkSession (sessionId s) (startHeight s) (mikPubkey s) (mikIdentity s) (dnaHash s) (hasDnaHash s) (attestations s) (hasValidAttestations s)
    (regNonce s) (hasRegNonce s) submit attest polls.

(** ** Sessions and errors *)

Definition StartNewSession (m : CRegistrationManager) : CRegistrationManager :=
  let s := mkSession (nextSessionId_ m) (latestTipHeight_ m) [] null_identity (replicate 32 0) false None false 0 false 0 0 0 in
  mkReg (state_ m) s (nextRetryAt_ m) 0 (nextSessionId_ m + 1) (shutdownRequested_ m) (powRunning_ m) (latestTipHeight_ m)
    (latestNodeRunning_ m) (workerStarted_ m) (snapshotSeq_ m) (publishedSnapshot_ m).

Definition AbandonSession (m : CRegistrationManager) : CRegistrationManager :=
  if sessionId (session_ m) =? 0 then m else set_pow false (set_session new_SessionData m).
Definition InvalidateSessionForReorg (m : CRegistrationManager) : CRegistrationManager := AbandonSession m.

Definition OnTransientError (now backoff : Z) (m : CRegistrationManager) : CRegistrationManager := set_retry (now + backoff) m.
Definition OnUserActionRequired (now : Z) (m : CRegistrationManager) : CRegistrationManager :=
  EnterState LONG_BACKOFF_USER_ACTIONABLE (set_retry (now + userActionBackoff) m).
Definition OnFatalError (m : CRegistrationManager) : CRegistrationManager := EnterState FAILED_FATAL m.

Section Manager.
  Variable SHA3_256 : list Z -> uint256.
  Variable cfg : RegConfig.

Definition DnaCommitmentRequiredAtTip (m : CRegistrationManager) : bool :=
  if negb (is_regtest cfg) then true else i32 (latestTipHeight_ m) >=? dna_activation cfg.
Definition AttestationsRequiredAtTip (m : CRegistrationManager) : bool :=
  if negb (is_regtest cfg) then true else i32 (latestTipHeight_ m) >=? attest_activation cfg.

(** The bytes of [REGTEST-DNA-PLACEHOLDER-v1], padded. *)
Definition ComputeRegtestPlaceholderDnaHash : list Z :=
  [82; 69; 71; 84; 69; 83; 84; 45; 68; 78; 65; 45; 80; 76; 65; 67; 69; 72; 79; 76; 68; 69; 82; 45; 118; 49; 255; 255; 255; 255; 255; 255].

Definition IsAttestationFreshEnough (a : list AttestationEntry) (now : Z) : bool :=
  match a with [] => false | e :: _ => now - att_timestamp e <? ATTESTATION_VALIDITY_WINDOW - 600 end.

Definition all_zero (l : list Z) : bool := forallb (fun b => b =? 0) l.

(** ** Events *)

Definition submit_rejected (now : Z) (m : CRegistrationManager) : CRegistrationManager :=
  if negb (bool_decide (state_ m = SUBMITTED)) && negb (bool_decide (state_ m = READY)) then m
  else
    let s := session_ m in
    let s := with_counts (submitRetries s + 1) (attestationRetries s) (dnaPolls s) s in
    let m := set_session s m in
    if submitRetries s >=? maxSubmitRetries then OnUserActionRequired now m
    else
      let attestFresh := negb (AttestationsRequiredAtTip m) ||
        match attestations s with Some a => IsAttestationFreshEnough a now | None => false end in
      let m := EnterState (if attestFresh then READY else ATTEST_PENDING) m in
      let m := if attestFresh then m else set_session (with_attest None (hasValidAttestations s) s) m in
      set_retry (now + submitRetryBackoff) m.

Definition Transition (now : Z) (ev : RegEvent) (m : CRegistrationManager) : CRegistrationManager :=
  match ev with
  | REGISTRATION_MISSING_ONCHAIN =>
      if bool_decide (state_ m ∈ [CONFIRMED; READY; SUBMITTED]) then EnterState CHECK_ELIGIBILITY (InvalidateSessionForReorg m) else m
  | REGISTRATION_SEEN_ONCHAIN => EnterState CONFIRMED m
  | TEMPLATE_BUILT_AND_MINER_STARTED => if bool_decide (state_ m = READY) then EnterState SUBMITTED m else m
  | SUBMIT_TIMEOUT_OR_REJECTED => submit_rejected now m
  | SUBMIT_RETRY_BUDGET_EXHAUSTED => OnUserActionRequired now m
  | FORCE_RESTART => EnterState CHECK_ELIGIBILITY (AbandonSession m)
  | UNRECOVERABLE_ERROR => OnFatalError m
  | SHUTDOWN_REQUESTED => EnterState SHUTTING_DOWN m
  | WORKER_STOPPED => EnterState STOPPED m
  | STARTUP => if bool_decide (state_ m = UNINITIALIZED) then EnterState CHECK_ELIGIBILITY m else m
  | TIP_UPDATED | SESSION_STARTED | DNA_READY | ATTEST_READY | POW_READY | TRANSIENT_ERROR | USER_ACTION_REQUIRED => m
  end.

(** ** The published snapshot *)

Definition mine_gate (s : State) : MineGateReason :=
  match s with
  | CONFIRMED => OK_REGISTERED
  | READY | SUBMITTED => OK_REGISTRATION_IN_PROGRESS
  | UNINITIALIZED => BLOCKED_UNINITIALIZED
  | CHECK_ELIGIBILITY | DNA_PENDING => BLOCKED_DNA_PENDING
  | ATTEST_PENDING => BLOCKED_ATTEST_PENDING
  | POW_PENDING => BLOCKED_POW_PENDING
  | LONG_BACKOFF_USER_ACTIONABLE => BLOCKED_LONG_BACKOFF_USER_ACTIONABLE
  | FAILED_FATAL => BLOCKED_FATAL
  | SHUTTING_DOWN | STOPPED => BLOCKED_SHUTTING_DOWN
  end.

Definition PublishSnapshot (m : CRegistrationManager) : CRegistrationManager :=
  let seq := snapshotSeq_ m + 1 in
  mkReg (state_ m) (session_ m) (nextRetryAt_ m) (currentAttestBackoff_ m) (nextSessionId_ m) (shutdownRequested_ m) (powRunning_ m)
    (latestTipHeight_ m) (latestNodeRunning_ m) (workerStarted_ m) seq
    (mkSnapshot (state_ m) seq (latestTipHeight_ m) (negb (bool_decide (state_ m = CONFIRMED)))
       (bool_decide (state_ m = READY) || bool_decide (state_ m = SUBMITTED)) (session_ m) (nextRetryAt_ m) (mine_gate (state_ m))).

Definition CanMine (m : CRegistrationManager) : bool :=
  match sn_mineGate (publishedSnapshot_ m) with OK_REGISTERED | OK_REGISTRATION_IN_PROGRESS => true | _ => false end.

(** ** Handlers *)

(** A loaded record: hardware hash and nonce. *)
Definition TryRestorePersistedNonce (load : option (list Z * Z)) (m : CRegistrationManager) : bool * CRegistrationManager :=
  if bool_decide (mikPubkey (session_ m) = []) then (false, m)
  else
    match load with
    | None => (false, m)
    | Some (dna, nonce) => if all_zero dna then (false, m) else (true, set_session (with_nonce nonce (with_dna dna (session_ m))) m)
    end.

Definition HandleCheckEligibility (now : Z) (mik : option (list Z * Identity)) (registered : bool) (load : option (list Z * Z))
    (m : CRegistrationManager) : CRegistrationManager :=
  match mik with
  | None => OnUserActionRequired now m
  | Some (pubkey, identity) =>
      if Identity_IsNull identity then OnUserActionRequired now m
      else if registered then
        Transition now REGISTRATION_SEEN_ONCHAIN (EnterState CONFIRMED (set_session (with_key pubkey identity (session_ m)) m))
      else
        let m := StartNewSession m in
        let m := set_session (with_key pubkey identity (session_ m)) m in
        let '(restored, m) := TryRestorePersistedNonce load m in
        EnterState (if restored : bool then ATTEST_PENDING else DNA_PENDING) m
  end.

Definition HandleDnaPending (now : Z) (dna : option (list Z)) (m : CRegistrationManager) : CRegistrationManager :=
  if negb (DnaCommitmentRequiredAtTip m) then
    let m := Transition now DNA_READY (set_session (with_dna ComputeRegtestPlaceholderDnaHash (session_ m)) m) in
    if negb (AttestationsRequiredAtTip m) then
      EnterState POW_PENDING (Transition now ATTEST_READY (set_session (with_attest (attestations (session_ m)) true (session_ m)) m))
    else EnterState ATTEST_PENDING m
  else
    let s := session_ m in
    let m := set_session (with_counts (submitRetries s) (attestationRetries s) (dnaPolls s + 1) s) m in
    match dna with
    | Some hash =>
        if all_zero hash then set_retry (now + dnaPollInterval) m
        else EnterState ATTEST_PENDING (Transition now DNA_READY (set_session (with_dna hash (session_ m)) m))
    | None => set_retry (now + dnaPollInterval) m
    end.

(** What the worker works on while it does not hold the lock. *)
Record Job := mkJob { j_session : Z; j_pubkey : list Z; j_dna : list Z }.
Definition job_of (m : CRegistrationManager) : Job := mkJob (sessionId (session_ m)) (mikPubkey (session_ m)) (dnaHash (session_ m)).

(** Up to the release of the lock; no job when the handler is done. *)
Definition AttestPending_begin (now : Z) (m : CRegistrationManager) : CRegistrationManager * option Job :=
  if negb (hasDnaHash (session_ m)) then (OnFatalError m, None)
  else if negb (AttestationsRequiredAtTip m) then
    (EnterState POW_PENDING (Transition now ATTEST_READY (set_session (with_attest (attestations (session_ m)) true (session_ m)) m)), None)
  else (m, Some (job_of m)).

Definition AttestPending_end (now : Z) (j : Job) (collected : option (list AttestationEntry)) (m : CRegistrationManager) : CRegistrationManager :=
  let s := session_ m in
  if negb (sessionId s =? j_session j) || shutdownRequested_ m then m
  else
    match collected with
    | Some fresh =>
        let s := with_counts (submitRetries s) 0 (dnaPolls s) (with_attest (Some fresh) true s) in
        EnterState POW_PENDING (Transition now ATTEST_READY (set_backoff 0 (set_session s m)))
    | None =>
        let s := with_counts (submitRetries s) (attestationRetries s + 1) (dnaPolls s) s in
        let m := set_session s m in
        if attestationRetries s >=? maxAttestationRetries then OnUserActionRequired now m
        else
          let backoff := if currentAttestBackoff_ m =? 0 then attestInitialBackoff else Z.min (currentAttestBackoff_ m * 2) attestMaxBackoff in
          OnTransientError now backoff (set_backoff backoff m)
    end.

Definition PowPending_begin (m : CRegistrationManager) : CRegistrationManager * option Job :=
  if negb (hasDnaHash (session_ m)) then (OnFatalError m, None) else (set_pow true m, Some (job_of m)).

(** A record handed to [SaveRegistration]. *)
Record RegRecord := mkRegRecord { rr_pubkey : list Z; rr_dna : list Z; rr_nonce : Z }.

Definition PersistSolvedNonceAtomically (m : CRegistrationManager) : option RegRecord :=
  let s := session_ m in
  if negb (hasDnaHash s) || negb (hasRegNonce s) || bool_decide (mikPubkey s = []) then None
  else if all_zero (dnaHash s) then None
  else Some (mkRegRecord (mikPubkey s) (dnaHash s) (regNonce s)).

Definition PowPending_end (now : Z) (j : Job) (found : option Z) (m : CRegistrationManager) : CRegistrationManager * option RegRecord :=
  if negb (sessionId (session_ m) =? j_session j) || shutdownRequested_ m then (m, None)
  else
    match found with
    | Some nonce =>
        let m := set_session (with_nonce nonce (session_ m)) m in
        (EnterState READY (Transition now POW_READY m), PersistSolvedNonceAtomically m)
    | None => (OnTransientError now 5 m, None)
    end.

Definition HandleReady (now : Z) (registered : bool) (m : CRegistrationManager) : CRegistrationManager :=
  let s := session_ m in
  if negb (Identity_IsNull (mikIdentity s)) && registered then EnterState CONFIRMED m
  else
    match attestations s with
    | Some a => if IsAttestationFreshEnough a now then m else EnterState ATTEST_PENDING (set_session (with_attest None false s) m)
    | None => m
    end.
Definition HandleSubmitted := HandleReady.

Definition HandleConfirmed (now : Z) (registered : bool) (m : CRegistrationManager) : CRegistrationManager :=
  if negb (Identity_IsNull (mikIdentity (session_ m))) && negb registered then
    Transition now REGISTRATION_MISSING_ONCHAIN (EnterState CHECK_ELIGIBILITY (InvalidateSessionForReorg m))
  else m.

Definition HandleLongBackoff (now : Z) (m : CRegistrationManager) : CRegistrationManager :=
  if now >=? nextRetryAt_ m then set_retry 0 (EnterState CHECK_ELIGIBILITY m) else m.

(** ** Threads *)

(** The environment's answers to the handlers that keep the lock. *)
Record Answers := mkAnswers {
  a_now : Z;
  a_mik : option (list Z * Identity);
  a_registered : bool;
  a_load : option (list Z * Z);
  a_dna : option (list Z)
}.

(** [WorkerIterationLocked] for the states whose handlers keep the lock. *)
Definition dispatch (a : Answers) (m : CRegistrationManager) : CRegistrationManager :=
  match state_ m with
  | UNINITIALIZED | CHECK_ELIGIBILITY => HandleCheckEligibility (a_now a) (a_mik a) (a_registered a) (a_load a) m
  | DNA_PENDING => HandleDnaPending (a_now a) (a_dna a) m
  | READY => HandleReady (a_now a) (a_registered a) m
  | SUBMITTED => HandleSubmitted (a_now a) (a_registered a) m
  | CONFIRMED => HandleConfirmed (a_now a) (a_registered a) m
  | LONG_BACKOFF_USER_ACTIONABLE => HandleLongBackoff (a_now a) m
  | ATTEST_PENDING | POW_PENDING | FAILED_FATAL | SHUTTING_DOWN | STOPPED => m
  end.

Definition RequestShutdown (m : CRegistrationManager) : CRegistrationManager :=
  mkReg (state_ m) (session_ m) (nextRetryAt_ m) (currentAttestBackoff_ m) (nextSessionId_ m) true false (latestTipHeight_ m) false
    (workerStarted_ m) (snapshotSeq_ m) (publishedSnapshot_ m).

Definition Tick (tip : Z) (running : bool) (m : CRegistrationManager) : CRegistrationManager :=
  let m := mkReg (state_ m) (session_ m) (nextRetryAt_ m) (currentAttestBackoff_ m) (nextSessionId_ m) (shutdownRequested_ m) (powRunning_ m) tip
             running (workerStarted_ m) (snapshotSeq_ m) (publishedSnapshot_ m) in
  let m := if running then m else RequestShutdown m in
  mkReg (state_ m) (session_ m) (nextRetryAt_ m) (currentAttestBackoff_ m) (nextSessionId_ m) (shutdownRequested_ m) (powRunning_ m)
    (latestTipHeight_ m) (latestNodeRunning_ m) true (snapshotSeq_ m) (publishedSnapshot_ m).

Definition ForceRestart (m : CRegistrationManager) : CRegistrationManager := PublishSnapshot (EnterState CHECK_ELIGIBILITY (AbandonSession m)).
Definition NotifyBlockRejected (now : Z) (m : CRegistrationManager) : CRegistrationManager :=
  PublishSnapshot (Transition now SUBMIT_TIMEOUT_OR_REJECTED m).

(** The end of [WorkerMain]. *)
Definition worker_exit (now : Z) (m : CRegistrationManager) : CRegistrationManager :=
  PublishSnapshot (Transition now WORKER_STOPPED (EnterState STOPPED (AbandonSession (Transition now SHUTDOWN_REQUESTED m)))).

(** Where the worker is: it holds the lock only while [Running]. *)
Inductive Pc : Type := NotStarted | Starting | Waiting | Running | Attesting (j : Job) | Mining (j : Job) | Exited.

Record World := mkWorld { w_reg : CRegistrationManager; w_pc : Pc; w_saved : list RegRecord }.
Definition initial : World := mkWorld new_CRegistrationManager NotStarted [].

Inductive reg_step : World -> World -> Prop :=
| st_tick m pc l tip running : reg_step (mkWorld m pc l) (mkWorld (Tick tip running m) (match pc with NotStarted => Starting | pc => pc end) l)
| st_shutdown m pc l : workerStarted_ m = true -> reg_step (mkWorld m pc l) (mkWorld (RequestShutdown m) pc l)
| st_force_restart m pc l : pc <> Running -> reg_step (mkWorld m pc l) (mkWorld (ForceRestart m) pc l)
| st_rejected m pc l now : pc <> Running -> reg_step (mkWorld m pc l) (mkWorld (NotifyBlockRejected now m) pc l)
| st_start m l now : reg_step (mkWorld m Starting l) (mkWorld (PublishSnapshot (Transition now STARTUP m)) Waiting l)
| st_loop m l now : shutdownRequested_ m = false -> nextRetryAt_ m <= now -> reg_step (mkWorld m Waiting l) (mkWorld m Running l)
| st_woken m l now : shutdownRequested_ m = false -> nextRetryAt_ m <= now -> reg_step (mkWorld m Waiting l) (mkWorld (set_retry 0 m) Running l)
| st_handle m l a : state_ m <> ATTEST_PENDING -> state_ m <> POW_PENDING ->
    reg_step (mkWorld m Running l) (mkWorld (PublishSnapshot (dispatch a m)) Waiting l)
| st_attest m l now : state_ m = ATTEST_PENDING ->
    reg_step (mkWorld m Running l)
      (match AttestPending_begin now m with
       | (m, Some j) => mkWorld m (Attesting j) l
       | (m, None) => mkWorld (PublishSnapshot m) Waiting l
       end)
| st_attested m l now j collected :
    reg_step (mkWorld m (Attesting j) l) (mkWorld (PublishSnapshot (AttestPending_end now j collected m)) Waiting l)
| st_pow m l : state_ m = POW_PENDING ->
    reg_step (mkWorld m Running l)
      (match PowPending_begin m with
       | (m, Some j) => mkWorld m (Mining j) l
       | (m, None) => mkWorld (PublishSnapshot m) Waiting l
       end)
| st_mined m l now j steps :
    reg_step (mkWorld m (Mining j) l)
      (let '(m, saved) := PowPending_end now j (MineRegistrationPoW SHA3_256 steps (j_pubkey j) (pow_bits cfg) (Some (j_dna j))) m in
       mkWorld (PublishSnapshot m) Waiting (l ++ option_list saved))
| st_exit m l now : shutdownRequested_ m = true -> reg_step (mkWorld m Waiting l) (mkWorld (worker_exit now m) Exited l).

(** The steps as a function of what happens next; [None] when it cannot. *)
Inductive Action :=
| ATick (tip : Z) (running : bool) | AShutdown | AForce | AReject (now : Z) | AStart (now : Z) | ALoop (now : Z) | AWoken (now : Z)
| AHandle (a : Answers) | AAttest (now : Z) | AAttested (now : Z) (collected : option (list AttestationEntry)) | APow
| AMined (now : Z) (steps : nat) | AExit (now : Z).

Definition exec (w : World) (act : Action) : option World :=
  let '(mkWorld m pc l) := w in
  match act, pc with
  | ATick tip running, _ => Some (mkWorld (Tick tip running m) (match pc with NotStarted => Starting | pc => pc end) l)
  | AShutdown, _ => if workerStarted_ m then Some (mkWorld (RequestShutdown m) pc l) else None
  | (AForce | AReject _), Running => None
  | AForce, _ => Some (mkWorld (ForceRestart m) pc l)
  | AReject now, _ => Some (mkWorld (NotifyBlockRejected now m) pc l)
  | AStart now, Starting => Some (mkWorld (PublishSnapshot (Transition now STARTUP m)) Waiting l)
  | ALoop now, Waiting => if negb (shutdownRequested_ m) && (nextRetryAt_ m <=? now) then Some (mkWorld m Running l) else None
  | AWoken now, Waiting => if negb (shutdownRequested_ m) && (nextRetryAt_ m <=? now) then Some (mkWorld (set_retry 0 m) Running l) else None
  | AHandle a, Running =>
      if bool_decide (state_ m = ATTEST_PENDING) || bool_decide (state_ m = POW_PENDING) then None
      else Some (mkWorld (PublishSnapshot (dispatch a m)) Waiting l)
  | AAttest now, Running =>
      if bool_decide (state_ m = ATTEST_PENDING) then
        Some (match AttestPending_begin now m with
              | (m, Some j) => mkWorld m (Attesting j) l
              | (m, None) => mkWorld (PublishSnapshot m) Waiting l
              end)
      else None
  | AAttested now collected, Attesting j => Some (mkWorld (PublishSnapshot (AttestPending_end now j collected m)) Waiting l)
  | APow, Running =>
      if bool_decide (state_ m = POW_PENDING) then
        Some (match PowPending_begin m with
              | (m, Some j) => mkWorld m (Mining j) l
              | (m, None) => mkWorld (PublishSnapshot m) Waiting l
              end)
      else None
  | AMined now steps, Mining j =>
      Some (let '(m, saved) := PowPending_end now j (MineRegistrationPoW SHA3_256 steps (j_pubkey j) (pow_bits cfg) (Some (j_dna j))) m in
            mkWorld (PublishSnapshot m) Waiting (l ++ option_list saved))
  | AExit now, Waiting => if shutdownRequested_ m then Some (mkWorld (worker_exit now m) Exited l) else None
  | _, _ => None
  end.

Fixpoint exec_all (w : World) (acts : list Action) : option World :=
  match acts with [] => Some w | act :: acts' => w ← exec w act; exec_all w acts' end.

Lemma exec_sound w act w' : exec w act = Some w' -> reg_step w w'.
Proof.
  destruct w as [m pc l]. destruct act, pc; cbn [exec]; try done; intros H;
    try (match type of H with (if ?b then _ else _) = _ => destruct b eqn:? end; try done); injection H as <-;
    repeat match goal with
           | H : _ && _ = true |- _ => apply andb_true_iff in H as [? ?]
           | H : _ || _ = false |- _ => apply orb_false_iff in H as [? ?]
           | H : negb _ = true |- _ => apply negb_true_iff in H
           | H : (_ <=? _) = true |- _ => apply Z.leb_le in H
           | H : bool_decide _ = true |- _ => apply bool_decide_eq_true in H
           | H : bool_decide _ = false |- _ => apply bool_decide_eq_false in H
           end; by econstructor.
  Unshelve. all: exact 0.
Qed.

Lemma exec_all_sound acts : forall w w', exec_all w acts = Some w' -> rtc reg_step w w'.
Proof.
  induction acts as [|act acts IH]; intros w w'; cbn [exec_all]; [intros [= ->]; constructor|]. destruct (exec w act) as [w1|] eqn:E; [|done]. cbn.
  intros H. eapply rtc_l; [by eapply exec_sound|by apply IH].
Qed.

(** ** The invariant *)

Hypothesis SHA3_wf : forall l, u256_wf (SHA3_256 l).
Hypothesis bits_ok : 0 < pow_bits cfg <= 256.

(** A key, a hardware hash that is not zero, and a nonce that solves the puzzle for both. *)
Definition solved (pubkey dna : list Z) (nonce : Z) : Prop :=
  all_zero dna = false /\ VerifyRegistrationPoW SHA3_256 pubkey nonce (pow_bits cfg) (Some dna) = true.
Definition complete (s : SessionData) : Prop :=
  hasDnaHash s = true /\ hasRegNonce s = true /\ solved (mikPubkey s) (dnaHash s) (regNonce s).

Definition state_inv (st : State) (s : SessionData) : Prop :=
  match st with
  | DNA_PENDING => 0 < sessionId s
  | ATTEST_PENDING | POW_PENDING => 0 < sessionId s /\ hasDnaHash s = true
  | READY | SUBMITTED => 0 < sessionId s /\ complete s
  | _ => True
  end.

Record reg_ok (m : CRegistrationManager) : Prop := {
  rg_state : state_inv (state_ m) (session_ m);
  rg_dna : hasDnaHash (session_ m) = true -> all_zero (dnaHash (session_ m)) = false;
  rg_id : 0 <= sessionId (session_ m) < nextSessionId_ m;
  rg_snapshot : sn_canBuild (publishedSnapshot_ m) = true -> complete (sn_session (publishedSnapshot_ m))
}.

(** The session a job was started for has not changed under it. *)
Definition job_ok (m : CRegistrationManager) (j : Job) : Prop :=
  0 < j_session j < nextSessionId_ m /\
  (sessionId (session_ m) = j_session j ->
   mikPubkey (session_ m) = j_pubkey j /\ dnaHash (session_ m) = j_dna j /\ hasDnaHash (session_ m) = true).

Record world_ok (w : World) : Prop := {
  wk_reg : reg_ok (w_reg w);
  wk_job : match w_pc w with Attesting j | Mining j => job_ok (w_reg w) j | _ => True end;
  wk_saved : Forall (fun r => solved (rr_pubkey r) (rr_dna r) (rr_nonce r)) (w_saved w)
}.

Lemma publish_ok m : reg_ok m -> reg_ok (PublishSnapshot m).
Proof.
  intros [H1 H2 H3 H4]. split; try done. cbn. rewrite orb_true_iff, !bool_decide_eq_true. intros [E|E]; rewrite E in H1; apply H1.
Qed.

Lemma enter_ok s m : reg_ok m -> state_inv s (session_ m) -> reg_ok (EnterState s m).
Proof. intros [H1 H2 H3 H4] Hs. by split. Qed.

Lemma session_ok s m : reg_ok m -> state_inv (state_ m) s -> (hasDnaHash s = true -> all_zero (dnaHash s) = false) -> 0 <= sessionId s < nextSessionId_ m ->
  reg_ok (set_session s m).
Proof. intros [H1 H2 H3 H4] Hs Hd Hi. by split. Qed.

Lemma abandon_ok m : reg_ok m -> reg_ok (EnterState CHECK_ELIGIBILITY (AbandonSession m)).
Proof.
  intros [H1 H2 H3 H4]. unfold AbandonSession. destruct (sessionId (session_ m) =? 0); split; cbn; try done. lia.
Qed.

Lemma user_action_ok now m : reg_ok m -> reg_ok (OnUserActionRequired now m).
Proof. intros [H1 H2 H3 H4]. by split. Qed.

Lemma submit_rejected_ok now m : reg_ok m -> reg_ok (submit_rejected now m).
Proof.
  intros HR. pose proof HR as [H1 H2 H3 H4]. unfold submit_rejected.
  assert ((state_ m = SUBMITTED \/ state_ m = READY) -> 0 < sessionId (session_ m) /\ complete (session_ m)) as Hc.
  { intros [E|E]; rewrite E in H1; exact H1. }
  destruct (negb _ && negb _) eqn:E; [done|].
  assert (state_ m = SUBMITTED \/ state_ m = READY) as Hs.
  { rewrite andb_false_iff, !negb_false_iff, !bool_decide_eq_true in E. tauto. }
  destruct (Hc Hs) as [Hi Hcm]. cbn [submitRetries with_counts]. destruct (_ >=? _).
  - split; cbn; done.
  - destruct (_ || _); split; cbn; try done. destruct Hcm as [Hd _]. done.
Qed.

Lemma placeholder_nonzero : all_zero ComputeRegtestPlaceholderDnaHash = false.
Proof. reflexivity. Qed.

Lemma check_ok now mik registered load m : reg_ok m -> state_ m = UNINITIALIZED \/ state_ m = CHECK_ELIGIBILITY ->
  reg_ok (HandleCheckEligibility now mik registered load m).
Proof.
  intros [H1 H2 H3 H4] Hs. unfold HandleCheckEligibility. destruct mik as [[pk id]|]; [|by split]. destruct (Identity_IsNull id); [by split|].
  destruct registered; [by split|]. unfold TryRestorePersistedNonce. cbn [session_ set_session mikPubkey with_key].
  case_bool_decide; [split; cbn; try done; lia|]. destruct load as [[dna nonce]|]; [|split; cbn; try done; lia].
  destruct (all_zero dna) eqn:Ez; split; cbn; try done; lia.
Qed.

Lemma dna_ok now dna m : reg_ok m -> state_ m = DNA_PENDING -> reg_ok (HandleDnaPending now dna m).
Proof.
  intros [H1 H2 H3 H4] Hs. rewrite Hs in H1. cbn in H1. unfold HandleDnaPending. destruct (DnaCommitmentRequiredAtTip m); cbn [negb].
  - destruct dna as [h|]; [destruct (all_zero h) eqn:Ez|]; split; cbn; rewrite ?Hs; cbn; done.
  - destruct (AttestationsRequiredAtTip _); split; cbn; done.
Qed.

Lemma ready_ok now registered m : reg_ok m -> state_ m = READY \/ state_ m = SUBMITTED -> reg_ok (HandleReady now registered m).
Proof.
  intros HR Hs. pose proof HR as [H1 H2 H3 H4]. assert (0 < sessionId (session_ m) /\ complete (session_ m)) as [Hi Hc] by (destruct Hs as [E|E]; by rewrite E in H1).
  unfold HandleReady. destruct (_ && _); [by split|]. destruct (attestations (session_ m)) as [a|]; [|done].
  destruct (IsAttestationFreshEnough a now); [done|]. destruct Hc as [Hd _]. split; cbn; done.
Qed.

Lemma confirmed_ok now registered m : reg_ok m -> reg_ok (HandleConfirmed now registered m).
Proof.
  intros HR. unfold HandleConfirmed. destruct (_ && _); [|done]. pose proof (abandon_ok m HR) as HA. unfold InvalidateSessionForReorg, Transition.
  rewrite bool_decide_false; [done|]. cbn. set_solver.
Qed.

Lemma backoff_ok now m : reg_ok m -> reg_ok (HandleLongBackoff now m).
Proof. intros HR. unfold HandleLongBackoff. destruct (_ >=? _); [|done]. destruct HR. by split. Qed.

Lemma dispatch_ok a m : reg_ok m -> reg_ok (dispatch a m).
Proof.
  intros HR. unfold dispatch. destruct (state_ m) eqn:E; try done;
    [apply check_ok; auto|apply check_ok; auto|by apply dna_ok|apply ready_ok; auto|apply ready_ok; auto|by apply confirmed_ok|by apply backoff_ok].
Qed.

Lemma attest_begin_ok now m : reg_ok m -> state_ m = ATTEST_PENDING ->
  let '(m', j) := AttestPending_begin now m in reg_ok m' /\ match j with Some j => job_ok m' j | None => True end.
Proof.
  intros HR Hs. pose proof HR as [H1 H2 H3 H4]. rewrite Hs in H1. destruct H1 as [Hi Hd]. unfold AttestPending_begin. rewrite Hd. cbn [negb].
  destruct (AttestationsRequiredAtTip m); cbn [negb]; [|split; [split; cbn; done|done]]. split; [done|]. split; [cbn; lia|done].
Qed.

Lemma pow_begin_ok m : reg_ok m -> state_ m = POW_PENDING ->
  let '(m', j) := PowPending_begin m in reg_ok m' /\ match j with Some j => job_ok m' j | None => True end.
Proof.
  intros HR Hs. pose proof HR as [H1 H2 H3 H4]. rewrite Hs in H1. destruct H1 as [Hi Hd]. unfold PowPending_begin. rewrite Hd. cbn [negb].
  split; [split; cbn; rewrite ?Hs; done|]. split; [cbn; lia|done].
Qed.

Lemma attest_end_ok now j collected m : reg_ok m -> job_ok m j -> reg_ok (AttestPending_end now j collected m).
Proof.
  intros HR [Hj Hsame]. pose proof HR as [H1 H2 H3 H4]. unfold AttestPending_end.
  destruct (Z.eqb_spec (sessionId (session_ m)) (j_session j)) as [E|]; cbn [negb orb]; [|done]. destruct (shutdownRequested_ m); [done|].
  destruct (Hsame E) as (_ & _ & Hd). destruct collected as [a|]; [split; cbn; try done; split; [lia|done]|].
  assert (state_inv (state_ m) (with_counts (submitRetries (session_ m)) (attestationRetries (session_ m) + 1) (dnaPolls (session_ m)) (session_ m))) as Hst
    by (unfold state_inv, complete in *; destruct (state_ m); exact H1).
  cbn [attestationRetries with_counts]. destruct (_ >=? _); split; cbn; done.
Qed.

Lemma mined_solved steps pubkey dna nonce : all_zero dna = false ->
  MineRegistrationPoW SHA3_256 steps pubkey (pow_bits cfg) (Some dna) = Some nonce -> solved pubkey dna nonce.
Proof.
  intros Hz HM. split; [done|]. assert (len pubkey = MIK_PUBKEY_SIZE) as Hl.
  { unfold MineRegistrationPoW in HM. destruct (Z.eqb_spec (len pubkey) MIK_PUBKEY_SIZE); [done|done]. }
  destruct (registration_pow_correct SHA3_256 pubkey nonce (pow_bits cfg) (Some dna) steps SHA3_wf bits_ok Hl) as [_ H]. rewrite HM in H. apply H.
Qed.

Lemma pow_end_ok now j steps m : reg_ok m -> job_ok m j ->
  let '(m', saved) := PowPending_end now j (MineRegistrationPoW SHA3_256 steps (j_pubkey j) (pow_bits cfg) (Some (j_dna j))) m in
  reg_ok m' /\ Forall (fun r => solved (rr_pubkey r) (rr_dna r) (rr_nonce r)) (option_list saved).
Proof.
  intros HR [Hj Hsame]. pose proof HR as [H1 H2 H3 H4]. unfold PowPending_end.
  destruct (Z.eqb_spec (sessionId (session_ m)) (j_session j)) as [E|]; cbn [negb orb]; [|split; [done|constructor]].
  destruct (shutdownRequested_ m); [split; [done|constructor]|]. destruct (Hsame E) as (Hpk & Hdna & Hd).
  destruct (MineRegistrationPoW _ _ _ _ _) as [nonce|] eqn:EM; [|split; [destruct HR; by split|constructor]].
  assert (solved (mikPubkey (session_ m)) (dnaHash (session_ m)) nonce) as HS by (rewrite Hpk, Hdna; eapply mined_solved; [rewrite <- Hdna; by apply H2|done]).
  split; [split; cbn; try done; split; [lia|done]|]. unfold PersistSolvedNonceAtomically. cbn -[all_zero]. rewrite Hd. cbn [negb orb].
  case_bool_decide; [constructor|]. rewrite (H2 Hd). constructor; [exact HS|constructor].
Qed.

(** The operations of other threads keep a job's session or end it. *)
Lemma rejected_keeps now m : let m' := submit_rejected now m in
  nextSessionId_ m' = nextSessionId_ m /\ sessionId (session_ m') = sessionId (session_ m) /\ mikPubkey (session_ m') = mikPubkey (session_ m) /\
  dnaHash (session_ m') = dnaHash (session_ m) /\ hasDnaHash (session_ m') = hasDnaHash (session_ m).
Proof. unfold submit_rejected. destruct (_ && _); [done|]. cbn [submitRetries with_counts]. destruct (_ >=? _); [done|]. by destruct (_ || _). Qed.

Lemma job_frame m m' j : job_ok m j -> nextSessionId_ m' = nextSessionId_ m ->
  (sessionId (session_ m') = 0 \/ sessionId (session_ m') = sessionId (session_ m) /\ mikPubkey (session_ m') = mikPubkey (session_ m) /\
   dnaHash (session_ m') = dnaHash (session_ m) /\ hasDnaHash (session_ m') = hasDnaHash (session_ m)) -> job_ok m' j.
Proof.
  intros [Hj Hsame] Hn Hs. split; [by rewrite Hn|]. intros E. destruct Hs as [H0|(E1 & E2 & E3 & E4)]; [lia|]. rewrite E2, E3, E4. apply Hsame. congruence.
Qed.

Lemma abandon_cases m : sessionId (session_ (AbandonSession m)) = 0 /\ nextSessionId_ (AbandonSession m) = nextSessionId_ m.
Proof. unfold AbandonSession. destruct (Z.eqb_spec (sessionId (session_ m)) 0); done. Qed.

Lemma pc_job_frame m m' pc : match pc with Attesting j | Mining j => job_ok m j | _ => True end -> nextSessionId_ m' = nextSessionId_ m ->
  (sessionId (session_ m') = 0 \/ sessionId (session_ m') = sessionId (session_ m) /\ mikPubkey (session_ m') = mikPubkey (session_ m) /\
   dnaHash (session_ m') = dnaHash (session_ m) /\ hasDnaHash (session_ m') = hasDnaHash (session_ m)) ->
  match pc with Attesting j | Mining j => job_ok m' j | _ => True end.
Proof. destruct pc; try done; intros; by eapply job_frame. Qed.

Lemma tick_ok tip running m : reg_ok m -> reg_ok (Tick tip running m).
Proof. intros []. unfold Tick. destruct running; by split. Qed.

Lemma exit_ok now m : reg_ok m -> reg_ok (worker_exit now m).
Proof.
  intros HR. apply publish_ok. unfold Transition. pose proof (abandon_ok _ (enter_ok SHUTTING_DOWN m HR I)) as [H1 H2 H3 H4]. by split.
Qed.

Lemma reg_step_ok w w' : world_ok w -> reg_step w w' -> world_ok w'.
Proof.
  intros HW HS. destruct HS as [m pc l tip running|m pc l Hst|m pc l Hpc|m pc l now Hpc|m l now|m l now H1 H2|m l now H1 H2|m l a H1 H2|m l now Hs
    |m l now j collected|m l Hs|m l now j steps|m l now Hsh]; destruct HW as [HR HJ HF]; cbn [w_reg w_pc w_saved] in *.
  - split; cbn; [by apply tick_ok| |done]. assert (match pc with Attesting j | Mining j => job_ok (Tick tip running m) j | _ => True end) as H.
    { apply (pc_job_frame m); [done|by destruct running|right; by destruct running]. }
    by destruct pc.
  - split; cbn; [destruct HR; by split| |done]. apply (pc_job_frame m); [done|done|by right].
  - split; cbn; [apply publish_ok; by apply abandon_ok| |done]. destruct (abandon_cases m) as [E1 E2]. apply (pc_job_frame m); [done|exact E2|by left].
  - split; cbn; [apply publish_ok; by apply submit_rejected_ok| |done]. destruct (rejected_keeps now m) as (E1 & E2). apply (pc_job_frame m); [done|exact E1|by right].
  - split; cbn; [apply publish_ok; case_bool_decide; [by apply enter_ok|done]|done|done].
  - by split.
  - split; cbn; [destruct HR; by split|done|done].
  - split; cbn; [apply publish_ok; by apply dispatch_ok|done|done].
  - pose proof (attest_begin_ok now m HR Hs) as HA. destruct (AttestPending_begin now m) as [m' [j|]]; destruct HA; split; cbn; try done. by apply publish_ok.
  - split; cbn; [apply publish_ok; by apply attest_end_ok|done|done].
  - pose proof (pow_begin_ok m HR Hs) as HA. destruct (PowPending_begin m) as [m' [j|]]; destruct HA; split; cbn; try done. by apply publish_ok.
  - pose proof (pow_end_ok now j steps m HR HJ) as HA. destruct (PowPending_end _ _ _ _) as [m' saved]. destruct HA as [HR' HF'].
    split; cbn; [by apply publish_ok|done|]. by apply Forall_app.
  - split; cbn; [by apply exit_ok|done|done].
Qed.

Lemma initial_ok : world_ok initial.
Proof. split; cbn; [split; cbn; try done; lia|done|constructor]. Qed.

(** C21: However the worker and the threads that tick, restart, reject and shut down interleave, and whatever wallet, collector, seeds and
    disk answer, a published snapshot that lets a registration template be built carries a key, a hardware hash that is not zero and
    a nonce that solves the registration puzzle for exactly this key and hash; and the same holds of every record ever handed to
    the disk.  In particular a nonce found for an abandoned session is never published with a key or hash it does not solve. *)
Theorem registration_snapshots_sound w : rtc reg_step initial w ->
  (sn_canBuild (publishedSnapshot_ (w_reg w)) = true -> complete (sn_session (publishedSnapshot_ (w_reg w)))) /\
  Forall (fun r => solved (rr_pubkey r) (rr_dna r) (rr_nonce r)) (w_saved w).
Proof.
  intros HS. assert (world_ok w) as [HR _ HF].
  { revert HS. generalize initial_ok. generalize initial. intros w0 H0 HS. induction HS as [|w0 w1 w2 H01 _ IH]; [done|]. apply IH. by eapply reg_step_ok. }
  split; [apply (rg_snapshot _ HR)|done].
Qed.
End Manager.

(** ** A registration *)

Definition demo_cfg : RegConfig := mkRegConfig false 0 0 8.
Definition demo_key : list Z := replicate 1952 7.
Definition demo_identity : Identity := replicate 20 1.
Definition demo_dna : list Z := replicate 32 3.
Definition demo_answers : Answers := mkAnswers 100 (Some (demo_key, demo_identity)) false None (Some demo_dna).
Definition demo_seal : list AttestationEntry := [mkAttest 0 100 []].

(** Start, eligibility, fingerprint, attestations, proof of work. *)
Definition demo_registration : list Action :=
  [ATick 10 true; AStart 100; ALoop 100; AHandle demo_answers; ALoop 100; AHandle demo_answers; ALoop 100; AAttest 100;
   AAttested 100 (Some demo_seal); ALoop 100; APow; AMined 100 300].

Definition demo_end : option World := Eval vm_compute in exec_all toy_sha3 demo_cfg initial demo_registration.

Lemma demo_sha3_wf l : u256_wf (toy_sha3 l).
Proof. split; [apply length_le_bytes|apply le_bytes_ok]. Qed.

Lemma registration_snapshots_sound_witness : exists w, exec_all toy_sha3 demo_cfg initial demo_registration = Some w /\
  sn_canBuild (publishedSnapshot_ (w_reg w)) = true /\ complete toy_sha3 demo_cfg (sn_session (publishedSnapshot_ (w_reg w))) /\ length (w_saved w) = 1%nat.
Proof.
  assert (match demo_end with Some w => sn_canBuild (publishedSnapshot_ (w_reg w)) = true /\ length (w_saved w) = 1%nat | None => False end) as HD
    by (vm_compute; split; reflexivity).
  assert (exec_all toy_sha3 demo_cfg initial demo_registration = demo_end) as E by (vm_compute; reflexivity).
  destruct demo_end as [w|]; [|destruct HD]. destruct HD as [HC HL]. exists w. split; [exact E|]. split; [exact HC|]. split; [|exact HL].
  refine (proj1 (registration_snapshots_sound toy_sha3 demo_cfg demo_sha3_wf _ w (exec_all_sound _ _ _ _ _ E)) HC). cbn. lia.
Defined.

(** ** Departures from the intent *)

Definition is_mining (pc : Pc) : bool := match pc with Mining _ => true | _ => false end.

(** A solution restored from disk, meant to spare the proof of work, is mined again. *)
Example restored_nonce_mined_again :
  (fun w => (is_mining (w_pc w), hasRegNonce (session_ (w_reg w)), regNonce (session_ (w_reg w)))) <$>
    exec_all toy_sha3 demo_cfg initial
      [ATick 10 true; AStart 100; ALoop 100; AHandle (mkAnswers 100 (Some (demo_key, demo_identity)) false (Some (demo_dna, 255)) None);
       ALoop 100; AAttest 100; AAttested 100 (Some demo_seal); ALoop 100; APow] = Some (true, true, 255).
Proof. vm_compute. reflexivity. Qed.

(** A shutdown between the worker's test and the start of its proof of work is forgotten: the search is told to go on. *)
Example shutdown_lost :
  (fun w => (is_mining (w_pc w), shutdownRequested_ (w_reg w), powRunning_ (w_reg w))) <$>
    exec_all toy_sha3 demo_cfg initial
      [ATick 10 true; AStart 100; ALoop 100; AHandle demo_answers; ALoop 100; AHandle demo_answers; ALoop 100; AAttest 100;
       AAttested 100 (Some demo_seal); ALoop 100; AShutdown; APow] = Some (true, true, true).
Proof. vm_compute. reflexivity. Qed.

(** After a rejection with outdated attestations the snapshot says that it has attestations, and carries none. *)
Example attestations_announced_but_missing :
  (fun w => let s := sn_session (publishedSnapshot_ (w_reg w)) in (hasValidAttestations s, bool_decide (is_Some (attestations s)))) <$>
    exec_all toy_sha3 demo_cfg initial (demo_registration ++ [AReject 10000]) = Some (true, false).
Proof. vm_compute. reflexivity. Qed.
